(* ===== verification/_CoqProject ===== *)
-Q . S2P
Prelude.v
Ring.v
Gate.v
RsdSendq.v
RsdReader.v
RwdSendq.v
Rsd555Queue.v
RicState.v
RicPhoto.v
RicDaynight.v
RicProps.v
Mux.v
MuxProps.v
MuxRoundtrip.v
MuxHeader.v
Nal.v
Prebuf.v
Timelapse.v
AuthRate.v
Pacer.v
G711.v
RadClock.v
RingSize.v
Rtmp.v
RtmpProps.v
RtmpSession.v
RtmpReader.v
RtmpUrl.v
RspAudio.v
RspPush.v
Sign.v
SignProps.v
SignedRec.v
RcdGuard.v
RcdGuardProps.v
RwdIce.v
RwdIceProps.v
RwdIceSession.v
RmrStorage.v
RmrRecord.v
RmrRecordProps.v
RmrDecodable.v
RmrAudio.v
RmrClips.v
RmrReplay.v
RmdMotion.v
RfsAnnexb.v
RfsSps.v
RfsScan.v
RfsMp4.v
RfsMp4Props.v
RfsPlay.v
RodDraw.v
RodReceipt.v
RodTemplate.v
RodElem.v
RodPool.v
RodCtrl.v
RodProps.v
RodStart.v
RodFaults.v
RvdOsd.v
RvdOsdProps.v
RvdOsdRun.v
