(* ===== verification/Prelude.v ===== *)
(** * Raptor: a verification of the camera streaming daemons' core

    Raptor is a set of C daemons around shared-memory frame rings.  rvd and rad
    produce video and audio; rsd (RTSP), rsd-555 (RTSP on live555), rwd
    (WebRTC), rhd (HTTP), rsp (RTMP push) and rmr (recording) consume them; ric
    runs the IR-cut filter and LEDs from the exposure rvd reports; rcd and
    raptorctl configure.  The rings and the IPC live in raptor-common, the
    encoder in raptor-hal; neither is in the repository, so frames, readings
    and command answers are inputs of the definitions here.

    ** Files

    - [Prelude]: machine integers ([uwrap]/[swrap]), list and option lemmas, the
      tactics and hint databases everything shares.
    - [Ring]: circular arrays ([window]) and the C heap (live and wrongly freed
      blocks), used by every queue.
    - [Gate]: decodable reference chains; the class [GatedQueue], which states
      what a per-client queue promises the reader and sender around it, and the
      composition theorem proved against that class.
    - [RsdSendq], [RsdReader]: rsd/rsd_sendq.c, the client step of
      rsd/rsd_ring_reader.c and rsd/rsd_idr_recovery.h.
    - [RwdSendq]: rwd/rwd_sendq.c and the client steps of rwd/rwd_media.c; an
      instance of [GatedQueue].
    - [Rsd555Queue]: rsd-555/rsd555_queue.c and the publishing of
      rsd555_reader.c, with the store of shared refcounted frames; an instance
      of [GatedQueue].
    - [RicState], [RicPhoto], [RicDaynight], [RicProps]: ric/ric_daynight.c and
      ric/ric_photo.c; state and outputs, the photo trigger, the exposure poll,
      and their invariants.
    - [Mux], [MuxProps], [MuxRoundtrip], [MuxHeader]: rmr/rmr_mux.c, a reference
      reader of ISO base media files, and the round trips through it.
    - [Nal]: rmr/rmr_nal.c.  [Prebuf]: rmr/rmr_prebuf.c.  [Timelapse]:
      rmr/rmr_timelapse.c and its driver in rmr_main.c.
    - [AuthRate]: rhd/rhd_authrate.c.  [Pacer]: rwd/rwd_pacer.c.  [G711]: the
      mu-law and A-law code of six daemons.  [RadClock]: rad/rad_clock.c.
      [RingSize]: rvd/rvd_ring_size.c.
    - [Rtmp], [RtmpUrl], [RspAudio], [RspPush]: rsp/rsp_rtmp.c over a scripted
      socket, the URL parsers, rsp/rsp_audio.c and the push loop of
      rsp/rsp_main.c.  [RtmpProps] holds a reference RTMP receiver and what the
      writers put on the wire, [RtmpSession] the theorems about what a server
      receives, [RtmpReader] those about what the client reads.
    - [Sign], [SignProps], [SignedRec]: rmr/rmr_sign.c, the file writer and the
      segment operations of rmr/rmr_main.c, and rverify/rverify.c; the theorems
      about the verifier alone, then about recorder and verifier together.
    - [RcdGuard], [RcdGuardProps]: rcd/rcd_guard.c with the parts of
      rcd_config.c, rcd_apply.c and rcd_schema.c it works with.  What a settings
      store promises is the record of laws [provider_laws]; the theorems about
      the guard are proved against it.
    - [RwdIce], [RwdIceProps], [RwdIceSession]: rwd/rwd_ice.c, the datagram
      dispatch and the credentials of rwd_main.c and the client slots of
      rwd_signaling.c; the STUN messages against a reference reader, then
      sessions over any run of the server.
    - [RmrStorage]: rmr/rmr_storage.c.  [RmrRecord]: the start, the loop and the
      control commands of rmr/rmr_main.c; a file is the list of calls made on
      its muxer.  [RmrRecordProps], [RmrDecodable], [RmrAudio], [RmrClips]: the
      shape of segments, their frames against the ring's, the audio times and
      the motion clips.  [RmrReplay] runs those calls on the muxer of [Mux].
    - [RmdMotion]: rmd/rmd_main.c and rmd_actions.c, whose commands go to the
      control handler of [RmrRecord].
    - [RfsAnnexb]: rfs/rfs_annexb.c.  [RfsSps] compares its parameter-set parsers
      with the syntax of the two standards, [RfsScan] is about frames and display
      order.  [RfsMp4], [RfsMp4Props]: rfs/rfs_mp4.c, the other end of [Nal] and
      [Mux].  [RfsPlay]: the set-up, commands and main loop of rfs/rfs_main.c.
    - [RodDraw]: rod/rod_render.c on byte buffers.  [RodReceipt]:
      rod/rod_receipt.c.  [RodTemplate]: rod/rod_template.c.  [RodElem]:
      rod/rod_elem.c; [RodPool] its font pools and buffers.  [RodCtrl]:
      rod/rod_ctrl.c and the render tick of rod_main.c; [RodProps] what every
      command keeps.  [RodStart]: rod/rod_config.c and the head of main, and
      the states the daemon reaches.  [RodFaults]: places, and two faults.
    - [RvdOsd]: rvd/rvd_osd.c and the overlay commands of rvd_ctrl.c, the other
      end of [RodElem]'s buffers.  [RvdOsdProps]: what the overlay owns, kept by
      every operation.  [RvdOsdRun]: the theorems, and restarts gone wrong.

    ** How the code is modelled

    A struct is a record, an enum an inductive type, a function one definition
    that takes and returns the state it mutates.  Unsigned integers are [Z]
    wrapped to their width where the C wraps; signed ones carry range
    hypotheses or an explicit division that truncates.  [malloc]'s verdict is
    an argument; [free] is checked against the set of live blocks.  Threads are
    sequences of steps: every critical section is one step, and a theorem about
    "any run" quantifies over all interleavings of them.  Where a C object is
    shared (the frames of rsd-555, the write callback of rmr), the model has
    the shared store.

    ** What the theorems show

    - Streaming: whatever is dropped, a client's decoder never meets a frame
      whose reference it was not given ([rsd_stream_decodable],
      [rwd_stream_decodable], [rsd555_stream_decodable]); the queues refine
      abstract bounded queues and own their memory; IDR requests are rate
      limited; timestamps advance.
    - Day/night control: the rails follow the mode; failed day verifications
      back off; baselines settle within a bound; two defects of the photo
      trigger and of the probe mark.
    - Recording: fragments and headers read back as what was fed; NAL
      conversion keeps exactly the units it should; the pre-buffer replays
      recent frames intact and starts clips on keyframes; timelapse files lie
      on their playback grid.
    - The recording loop: from the daemon's start, every segment decodes
      ([rmr_segments_decodable]), is cut into small keyframe-led fragments, is
      taken by the muxer whole ([rmr_no_sample_refused]), and a rotation loses
      nothing; audio times increase; the storage never lands on the root file
      system and the limit deletes the oldest days only; a clip repeats the
      frame that triggered it and its continuation starts anywhere.
    - Motion: the recorder is on exactly while there is motion and for the
      quiet time after it ([rmd_records_while_wanted]); a lost command is not
      repeated.
    - The file source: parameter sets are read as the standards define them;
      frames tile a file, slice by slice; display positions are a permutation;
      a recording of rmr is played back as recorded ([rfs_replays_recording]);
      whole passes, times that do not go back; and what a forged length, a seek
      or a file without video do.
    - The overlay: drawing stays in its buffer and its glyph boxes; outlines and
      shrunk logos are exact; a receipt shows the newest lines and a template
      expands as written; in every reachable state each font context is counted
      once per element drawing with it and no place is drawn on twice
      ([rod_registry_invariant]); a failed font change, a hidden receipt, a
      missing glyph and a receipt's background go wrong.
    - Its regions in rvd: every region and mapping made is given back or held by
      one entry of the tables and never touched afterwards
      ([rvd_osd_handles_owned]); copies stay in their buffers while there is
      memory; regions stay inside the frame; a restart uncovers a stream in
      privacy and can leak regions to the overlay thread's scan.
    - WebRTC sessions: a datagram reaches a session only from a source that
      proved the session's password ([rwd_media_from_proven_sources]); responses
      read back; slots stay consistent; failed randomness opens a session.
    - Pushing: everything an RTMP session writes is decoded by the reference
      receiver as the calls made, whatever the socket's partial writes
      ([rtmp_session_received]); the push loop keeps configurations and key
      frames in order on every live connection ([rsp_push_configured_first]);
      the transcoder loses no sample; four ways in which the client and a
      standard server part company.
    - Signing: a file rverify accepts is a prefix of one recording of the device
      ([rverify_tamper_evident]); every recording, cut anywhere, is accepted
      ([rmr_signed_segment_verifies]); the mark of a clean close is not signed.
    - Configuration: an unconfirmed experiment is undone
      ([rcd_guard_undoes_experiment]), retrying a revert ends, a restart goes on
      where it was; two ways in which an unconfirmed value stays in force.
    - Limits: the password limiter's ceiling and back-off, the pacer's
      conformance, the audio clock's continuity, ring sizes, G.711 accuracy and
      the polarity defect of the A-law encoder.

    ** Bounds and fuel

    Loops over data recurse on the data.  Scanners whose C loop runs on an
    index ([Nal], [Prebuf]) take fuel equal to the number of bytes or slots
    left; every iteration consumes at least one, and the theorems are stated
    about the functions with that fuel, so running out never shows.  The box
    reader of [MuxProps] takes the length of its input as fuel for the same
    reason.  In [Rtmp] the socket is a script of answers: the writer recurses on
    the script, [recv_loop] takes the number of bytes asked for, the response
    reader one more than the bytes that will ever arrive (each round reads at
    least one), the reference receiver the length of its input.  [feed_loop] of
    [RspAudio] takes the number of samples, since every round consumes one.
    rverify's walk takes the length of the file; a box is at least eight bytes.
    The scans of [RfsAnnexb] take the length of the file, every round passing a
    start code; the conversion of [RfsMp4] a quarter of the buffer's size, every
    round writing a start code (and [rfs_conversion_ends] shows it is enough).
    The STUN attribute walk takes the length of the message, four bytes or more
    a round; the search for an existing ancestor in [RmrStorage] one more than
    the length of the path, which every round shortens.

    ** Not modelled

    The HAL-bound video pipeline (rvd, but for its overlay), codecs in external libraries (AAC,
    Opus), TLS, SRTP, RTP, SDP and HTTP plumbing, JSON, the C++ glue to live555,
    the command-line tools, and of rod the shut-down, the detection boxes and
    the reopening of a receipt's input.  Locks are taken to exclude;
    weak memory and signals are outside the model. *)

From stdpp Require Export base numbers option list.
From stdpp Require Import gmap list.

(** ** Machine integers *)

Declare Scope cint_scope.
Delimit Scope cint_scope with cint.
#[global] Open Scope Z_scope.

(** The value an unsigned C object of [w] bits holds after [x] is stored in it. *)
Definition uwrap (w x : Z) : Z := x mod 2 ^ w.

(** The value a two's complement C object of [w] bits holds after a conversion. *)
Definition swrap (w x : Z) : Z := (x + 2 ^ (w - 1)) mod 2 ^ w - 2 ^ (w - 1).

Abbreviation u8 := (uwrap 8).
Abbreviation u16 := (uwrap 16).
Abbreviation u32 := (uwrap 32).
Abbreviation u64 := (uwrap 64).
Abbreviation s16 := (swrap 16).
Abbreviation s32 := (swrap 32).
Abbreviation s64 := (swrap 64).

Definition in_u (w x : Z) : Prop := 0 <= x < 2 ^ w.
Definition in_s (w x : Z) : Prop := - 2 ^ (w - 1) <= x < 2 ^ (w - 1).

Create HintDb cint.
Create Rewrite HintDb cint.

Lemma uwrap_range w x : 0 <= w -> in_u w (uwrap w x).
Proof. intros. apply Z.mod_pos_bound, Z.pow_pos_nonneg; lia. Qed.

Lemma uwrap_id w x : in_u w x -> uwrap w x = x.
Proof. apply Z.mod_small. Qed.

Lemma uwrap_uwrap w x : 0 <= w -> uwrap w (uwrap w x) = uwrap w x.
Proof. intros. by apply uwrap_id, uwrap_range. Qed.

Lemma uwrap_add_l w x y : uwrap w (uwrap w x + y) = uwrap w (x + y).
Proof. apply Zplus_mod_idemp_l. Qed.

Lemma uwrap_add_r w x y : uwrap w (x + uwrap w y) = uwrap w (x + y).
Proof. apply Zplus_mod_idemp_r. Qed.

Lemma swrap_range w x : 1 <= w -> in_s w (swrap w x).
Proof.
  intros. unfold swrap, in_s.
  pose proof (Z.mod_pos_bound (x + 2 ^ (w - 1)) (2 ^ w) ltac:(apply Z.pow_pos_nonneg; lia)).
  assert (2 ^ w = 2 * 2 ^ (w - 1)) by (rewrite <- Z.pow_succ_r by lia; f_equal; lia). lia.
Qed.

Lemma swrap_id w x : 1 <= w -> in_s w x -> swrap w x = x.
Proof.
  intros Hw Hx. unfold swrap, in_s in *.
  assert (2 ^ w = 2 * 2 ^ (w - 1)) by (rewrite <- Z.pow_succ_r by lia; f_equal; lia).
  rewrite Z.mod_small; lia.
Qed.

#[export] Hint Resolve uwrap_range swrap_range : cint.
#[export] Hint Rewrite uwrap_uwrap uwrap_add_l uwrap_add_r using lia : cint.

(** [cint] closes a range goal about a wrapped value or an already small one. *)
Ltac cint :=
  unfold in_u, in_s in *; autorewrite with cint;
  first [ lia | (apply uwrap_range; lia) | (apply swrap_range; lia) ].

(** ** Record update

    [r <| f := v |>] is [r] with field [f] set to [v]; the record type lists
    its fields once, in a [Settable] instance. *)

Class Settable (R : Type) := eta_fields : R -> R.
Class Setter {R E : Type} (f : R -> E) := set_field : E -> R -> R.
Arguments set_field {R E} f {_} _ _ /.

Ltac build_setter :=
  match goal with
  | |- @Setter ?R ?E ?f =>
      let i := constr:(_ : Settable R) in
      let i := eval hnf in i in
      let v := fresh "v" in
      let r := fresh "r" in
      refine (fun (v : E) (r : R) => _);
      let b := eval cbv beta in (i r) in
      let p := eval pattern (f r) in b in
      match p with ?g _ => let t := eval cbv beta in (g v) in exact t end
  end.

#[export] Hint Extern 1 (Setter _) => build_setter : typeclass_instances.

Declare Scope record_scope.
#[global] Open Scope record_scope.
Notation "r <| f := v |>" := (set_field f v r)
  (at level 1, left associativity, f at level 9, v at level 200,
   format "r <| f  :=  v |>") : record_scope.

(** ** Proof automation *)

(** Split every conditional and option match of the goal or the context. *)
Ltac split_ifs :=
  repeat (case_match; simplify_eq/=).

(** Turn boolean tests on [Z] in the context into propositions. *)
Ltac bool_to_prop :=
  repeat match goal with
  | H : _ && _ = true |- _ => apply andb_true_iff in H as [? ?]
  | H : _ || _ = false |- _ => apply orb_false_iff in H as [? ?]
  | H : _ || _ = true |- _ => apply orb_true_iff in H
  | H : _ && _ = false |- _ => apply andb_false_iff in H
  | H : negb _ = true |- _ => apply negb_true_iff in H
  | H : negb _ = false |- _ => apply negb_false_iff in H
  | H : (_ <? _) = true |- _ => apply Z.ltb_lt in H
  | H : (_ <? _) = false |- _ => apply Z.ltb_ge in H
  | H : (_ <=? _) = true |- _ => apply Z.leb_le in H
  | H : (_ <=? _) = false |- _ => apply Z.leb_gt in H
  | H : (_ >? _) = true |- _ => rewrite Z.gtb_ltb in H; apply Z.ltb_lt in H
  | H : (_ >? _) = false |- _ => rewrite Z.gtb_ltb in H; apply Z.ltb_ge in H
  | H : (_ >=? _) = true |- _ => rewrite Z.geb_leb in H; apply Z.leb_le in H
  | H : (_ >=? _) = false |- _ => rewrite Z.geb_leb in H; apply Z.leb_gt in H
  | H : (_ =? _) = true |- _ => apply Z.eqb_eq in H
  | H : (_ =? _) = false |- _ => apply Z.eqb_neq in H
  end.

#[global] Arguments Nat.modulo : simpl never.
#[global] Arguments Nat.div : simpl never.
#[global] Arguments uwrap : simpl never.
#[global] Arguments swrap : simpl never.

(** ** Lists *)

Lemma Forall_filter_sub {A} (P Q : A -> Prop) `{!forall x, Decision (Q x)} (l : list A) :
  Forall P l -> Forall P (filter Q l).
Proof.
  rewrite !list.Forall_forall. intros HP x Hx. apply HP. by apply list_elem_of_filter in Hx as [_ ?].
Qed.

(** ** Bytes *)

Definition is_byte (b : Z) : Prop := 0 <= b < 256.

#[global] Instance is_byte_dec b : Decision (is_byte b) := _.

(** The value of a big-endian byte string. *)
Definition be_val (l : list Z) : Z := fold_left (fun a b => a * 256 + b) l 0.

(** [n] bytes, most significant first. *)
Fixpoint be_bytes (n : nat) (v : Z) : list Z :=
  match n with
  | O => []
  | S n => be_bytes n (v / 256) ++ [v mod 256]
  end.

Lemma be_val_snoc l b : be_val (l ++ [b]) = be_val l * 256 + b.
Proof. unfold be_val. by rewrite fold_left_app. Qed.

Lemma be_bytes_length n v : length (be_bytes n v) = n.
Proof. revert v; induction n; intros; simpl; [done|]. rewrite length_app, IHn; simpl; lia. Qed.

Lemma be_bytes_bytes n v : Forall is_byte (be_bytes n v).
Proof.
  revert v; induction n; intros; simpl; [constructor|].
  apply Forall_app; split; [apply IHn|]. constructor; [|constructor].
  apply Z.mod_pos_bound; lia.
Qed.

Lemma be_val_bytes n v : be_val (be_bytes n v) = v mod 256 ^ Z.of_nat n.
Proof.
  revert v; induction n; intros v; simpl be_bytes; [by rewrite Z.mod_1_r|].
  rewrite be_val_snoc, IHn, Nat2Z.inj_succ, Z.pow_succ_r by lia.
  rewrite (Z.rem_mul_r v 256) by lia. lia.
Qed.

Lemma lor_shiftl_add a b n : 0 <= n -> 0 <= b < 2 ^ n -> Z.lor (Z.shiftl a n) b = a * 2 ^ n + b.
Proof.
  intros Hn Hb. assert (Hl : Z.land (Z.shiftl a n) b = 0).
  { apply Z.bits_inj'. intros k Hk. rewrite Z.land_spec, Z.shiftl_spec, Z.bits_0 by done.
    destruct (Z.lt_ge_cases k n); [by rewrite Z.testbit_neg_r by lia|].
    rewrite <- (Z.mod_small b (2 ^ n)), Z.mod_pow2_bits_high by lia. apply andb_false_r. }
  rewrite <- Z.shiftl_mul_pow2 by done. pose proof (Z.add_lor_land (Z.shiftl a n) b). lia.
Qed.

#[export] Hint Resolve be_bytes_bytes : cint.
#[export] Hint Rewrite be_bytes_length : cint.
