(* ===== verification/Ring.v ===== *)
(** * Circular arrays and the C heap

    Two pieces of machinery the queue components share.  [window] reads a
    fixed array between a tail index and a count, the way the send queues of
    rsd and rwd index [entries[(tail + i) % SLOTS]]; its lemmas say what a
    pop, a push and an in-place write do to the sequence it denotes.  [heap]
    is the part of malloc/free those queues rely on: which blocks are live,
    and whether a block was ever freed that was not live. *)

From stdpp Require Import gmap list.
From S2P Require Import Prelude.
Local Open Scope nat_scope.

(** ** Circular arrays *)

Section window.
Context {A : Type} `{!Inhabited A}.
Implicit Types (l : list A).

(** The [c] elements of the array [l] from index [t] on, wrapping around. *)
Definition window (l : list A) (t c : nat) : list A :=
  (fun i => l !!! ((t + i) mod length l)) <$> seq 0 c.

Lemma window_length l t c : length (window l t c) = c.
Proof. unfold window. by rewrite length_fmap, length_seq. Qed.

Lemma window_0 l t : window l t 0 = [].
Proof. done. Qed.

Lemma window_lookup l t c i :
  i < c -> window l t c !! i = Some (l !!! ((t + i) mod length l)).
Proof.
  intros. unfold window. rewrite list_lookup_fmap.
  by rewrite lookup_seq_lt by lia.
Qed.

Lemma window_tail_mod l t c :
  window l (t mod length l) c = window l t c.
Proof.
  unfold window. apply list_fmap_ext; intros k i _.
  f_equal. destruct l as [|a l']; [done|].
  by rewrite Nat.Div0.add_mod_idemp_l.
Qed.

Lemma window_pop l t c :
  t < length l -> window l t (S c) = l !!! t :: window l (S t mod length l) c.
Proof.
  intros Ht. rewrite window_tail_mod. unfold window. simpl seq. rewrite fmap_cons.
  f_equal.
  - f_equal. rewrite Nat.add_0_r. by apply Nat.mod_small.
  - rewrite <- fmap_S_seq, <- list_fmap_compose.
    apply list_fmap_ext; intros k i _. simpl. do 2 f_equal. lia.
Qed.

Lemma window_cons l t c :
  window l t (S c) = l !!! (t mod length l) :: window l (S t) c.
Proof.
  unfold window. simpl seq. rewrite fmap_cons, Nat.add_0_r. f_equal.
  rewrite <- fmap_S_seq, <- list_fmap_compose.
  apply list_fmap_ext; intros k i _. simpl. do 2 f_equal. lia.
Qed.

Lemma window_snoc l t c :
  window l t (S c) = window l t c ++ [l !!! ((t + c) mod length l)].
Proof. unfold window. by rewrite seq_S, fmap_app. Qed.

(** Distinct offsets below the array's size reach distinct slots. *)
Lemma window_slots_inj n t i j :
  i < n -> j < n -> (t + i) mod n = (t + j) mod n -> i = j.
Proof.
  intros Hi Hj E.
  pose proof (Nat.div_mod_eq (t + i) n). pose proof (Nat.div_mod_eq (t + j) n).
  rewrite E in *.
  set (a := (t + i) / n) in *. set (b := (t + j) / n) in *.
  assert (a = b) as Hab; [|rewrite Hab in *; lia].
  destruct (Nat.lt_trichotomy a b) as [Hl|[He|Hl]]; [|done|]; exfalso; nia.
Qed.

(** Writing the slot at offset [j] changes the window there and nowhere else. *)
Lemma window_insert l t c j x :
  j < length l -> c <= length l ->
  window (<[(t + j) mod length l := x]> l) t c = <[j := x]> (window l t c).
Proof.
  intros Hj Hc. apply list_eq; intros i.
  destruct (decide (i < c)) as [Hi|Hi].
  2:{ rewrite !lookup_ge_None_2; [done| |]; rewrite ?length_insert, window_length; lia. }
  rewrite window_lookup by lia. rewrite length_insert.
  destruct (decide (i = j)) as [->|Hne].
  - rewrite list_lookup_insert_eq by (rewrite window_length; lia).
    f_equal. rewrite list_lookup_total_insert_eq; [done|].
    apply Nat.mod_upper_bound; lia.
  - rewrite list_lookup_insert_ne by done. rewrite window_lookup by done.
    f_equal. apply list_lookup_total_insert_ne.
    intros E. apply Hne. symmetry. eapply window_slots_inj; [..|exact E]; lia.
Qed.

(** A write outside the window leaves it alone. *)
Lemma window_insert_out l t c j x :
  c <= j < length l ->
  window (<[(t + j) mod length l := x]> l) t c = window l t c.
Proof.
  intros Hj. rewrite window_insert by lia.
  apply list_insert_ge. rewrite window_length; lia.
Qed.

Lemma window_push l t c x :
  c < length l ->
  window (<[(t + c) mod length l := x]> l) t (S c) = window l t c ++ [x].
Proof.
  intros Hc. rewrite window_snoc, length_insert.
  rewrite window_insert_out by lia. f_equal. f_equal.
  rewrite list_lookup_total_insert_eq; [done|].
  apply Nat.mod_upper_bound; lia.
Qed.

(** The slot just popped is outside what is left. *)
Lemma window_pop_insert l t c x :
  t < length l -> c < length l ->
  window (<[t := x]> l) (S t mod length l) c = window l (S t mod length l) c.
Proof.
  intros Ht Hc.
  assert (E : (S t + (length l - 1)) mod length l = t).
  { replace (S t + (length l - 1)) with (t + 1 * length l) by lia.
    rewrite Nat.Div0.mod_add. by apply Nat.mod_small. }
  rewrite window_tail_mod. rewrite <- (length_insert l t x). rewrite window_tail_mod.
  rewrite <- E at 1. apply window_insert_out. lia.
Qed.

End window.

(** ** The heap *)

(** [h_live] maps the address of every live block to its bytes; [h_next] is an
    address no live block has; [h_bad] latches a free of a block that is not
    live (a double free, or a wild one). *)
Record heap := mkheap {
  h_live : gmap nat (list Z);
  h_next : nat;
  h_bad : bool
}.

#[export] Instance eta_heap : Settable heap :=
  fun h => mkheap (h_live h) (h_next h) (h_bad h).

Definition heap_wf (h : heap) : Prop :=
  h_bad h = false /\ forall p, h_next h <= p -> h_live h !! p = None.

(** [malloc] that succeeds, followed by the copy of [bytes] into the block. *)
Definition heap_alloc (bytes : list Z) (h : heap) : nat * heap :=
  (h_next h, mkheap (<[h_next h := bytes]> (h_live h)) (S (h_next h)) (h_bad h)).

(** [free(p)]; freeing NULL does nothing. *)
Definition heap_free (p : option nat) (h : heap) : heap :=
  match p with
  | None => h
  | Some p =>
      match h_live h !! p with
      | Some _ => h <| h_live := delete p (h_live h) |>
      | None => h <| h_bad := true |>
      end
  end.

Lemma heap_alloc_wf bytes h :
  heap_wf h -> heap_wf (snd (heap_alloc bytes h)).
Proof.
  intros [Hb Hn]. split; [done|]. simpl. intros p Hp.
  rewrite lookup_insert_ne by lia. apply Hn; lia.
Qed.

Lemma heap_free_wf p h :
  heap_wf h -> is_Some (h_live h !! p) -> heap_wf (heap_free (Some p) h).
Proof.
  intros [Hb Hn] [v Hv]. unfold heap_free. rewrite Hv. split; [done|].
  simpl. intros q Hq. apply lookup_delete_None. right. by apply Hn.
Qed.

Lemma heap_alloc_dom bytes h :
  dom (h_live (snd (heap_alloc bytes h))) = {[ fst (heap_alloc bytes h) ]} ∪ dom (h_live h).
Proof. simpl. apply dom_insert_L. Qed.

Lemma heap_alloc_fresh bytes h :
  heap_wf h -> h_live h !! fst (heap_alloc bytes h) = None.
Proof. intros [_ Hn]. apply Hn. simpl. lia. Qed.

Lemma heap_free_dom p h :
  is_Some (h_live h !! p) ->
  dom (h_live (heap_free (Some p) h)) = dom (h_live h) ∖ {[ p ]}.
Proof. intros [v Hv]. unfold heap_free. rewrite Hv. simpl. apply dom_delete_L. Qed.

#[export] Hint Resolve heap_alloc_wf heap_free_wf heap_alloc_fresh : cint.

(** ** Ownership

    [owned ps h]: the blocks [ps] are live, pairwise distinct and the heap has
    seen no bad free.  [foreign ps h]: the live blocks that are not among
    [ps].  An operation that keeps [foreign] unchanged neither leaks a block
    nor touches one it does not own. *)

Definition owned (ps : list nat) (h : heap) : Prop :=
  heap_wf h /\ NoDup ps /\ Forall (fun p => is_Some (h_live h !! p)) ps.

Definition foreign (ps : list nat) (h : heap) : gset nat :=
  dom (h_live h) ∖ list_to_set ps.

Definition heap_free_all (ps : list nat) (h : heap) : heap :=
  fold_left (fun h p => heap_free (Some p) h) ps h.

#[export] Instance owned_proper : Proper ((≡ₚ) ==> eq ==> iff) owned.
Proof.
  intros ps qs Hp h ? <-. unfold owned. rewrite Hp. done.
Qed.

Lemma foreign_perm ps qs h : ps ≡ₚ qs -> foreign ps h = foreign qs h.
Proof. intros Hp. unfold foreign. f_equal. apply set_eq; intros x. rewrite !elem_of_list_to_set. by rewrite Hp. Qed.

Lemma owned_free_1 p ps h :
  owned (p :: ps) h ->
  owned ps (heap_free (Some p) h) /\
  foreign ps (heap_free (Some p) h) = foreign (p :: ps) h /\
  forall q, q ∈ ps -> h_live (heap_free (Some p) h) !! q = h_live h !! q.
Proof.
  intros (Hwf & Hnd & Hl).
  apply list.NoDup_cons in Hnd as [Hp Hnd]. apply list.Forall_cons in Hl as [Hlp Hl].
  assert (Hk : forall q, q ∈ ps -> h_live (heap_free (Some p) h) !! q = h_live h !! q).
  { intros q Hq. unfold heap_free. destruct Hlp as [v ->]. simpl.
    apply lookup_delete_ne. intros ->. done. }
  split; [|split; [|done]].
  - split; [by apply heap_free_wf|split; [done|]].
    apply list.Forall_forall. intros q Hq. rewrite Hk by done.
    by eapply list.Forall_forall in Hl.
  - unfold foreign. rewrite heap_free_dom by done. set_solver.
Qed.

Lemma owned_free_all gone keep h :
  owned (gone ++ keep) h ->
  owned keep (heap_free_all gone h) /\
  foreign keep (heap_free_all gone h) = foreign (gone ++ keep) h /\
  forall q, q ∈ keep -> h_live (heap_free_all gone h) !! q = h_live h !! q.
Proof.
  revert h; induction gone as [|p gone IH]; intros h Ho; [done|].
  destruct (owned_free_1 _ _ _ Ho) as (Ho1 & Hf1 & Hk1).
  destruct (IH _ Ho1) as (Ho2 & Hf2 & Hk2).
  split; [done|]. split; [etransitivity; [exact Hf2|exact Hf1]|].
  intros q Hq. change (h_live (heap_free_all gone (heap_free (Some p) h)) !! q = h_live h !! q).
  rewrite Hk2 by done. apply Hk1. apply elem_of_app. by right.
Qed.

Lemma owned_alloc bytes ps h :
  owned ps h ->
  let p := fst (heap_alloc bytes h) in
  let h' := snd (heap_alloc bytes h) in
  owned (p :: ps) h' /\ foreign (p :: ps) h' = foreign ps h /\
  h_live h' !! p = Some bytes /\
  forall q, q ∈ ps -> h_live h' !! q = h_live h !! q.
Proof.
  intros (Hwf & Hnd & Hl) p h'.
  assert (Hp : h_live h !! p = None) by (by apply heap_alloc_fresh).
  assert (Hnp : p ∉ ps).
  { intros Hin. eapply list.Forall_forall in Hl; [|done]. rewrite Hp in Hl. by destruct Hl. }
  assert (Hk : forall q, q ∈ ps -> h_live h' !! q = h_live h !! q).
  { intros q Hq. apply lookup_insert_ne. intros E. apply Hnp. unfold p. simpl. by rewrite E. }
  split; [|split; [|split; [apply lookup_insert_eq|done]]].
  - split; [by apply heap_alloc_wf|]. split; [by constructor|].
    constructor; [exists bytes; apply lookup_insert_eq|].
    apply list.Forall_forall. intros q Hq. rewrite Hk by done. by eapply list.Forall_forall in Hl.
  - unfold foreign, h'. rewrite heap_alloc_dom. fold p.
    apply not_elem_of_dom in Hp. set_solver.
Qed.
