(* ===== verification/Gate.v ===== *)
(** * Reference chains and gated frame queues

    A video stream is a sequence of frames of which the inter frames need the
    frame right before them.  [decodable] says that a list of stream positions
    can be decoded in order.  [GatedQueue] is what the streaming daemons
    promise about a per-client queue in front of a slow consumer: whatever it
    drops, the chain it hands out resumes at a keyframe.  The theorem about
    the reader and the sender around such a queue is proved once, against the
    interface; the queues of rwd and rsd-555 are its instances. *)

From stdpp Require Import gmap list.
From S2P Require Import Prelude.
Local Open Scope nat_scope.

Section chain.
Variable key : nat -> bool.

(** Every inter frame comes right after the frame it references. *)
Definition decodable (ns : list nat) : Prop :=
  forall i n, ns !! i = Some n -> key n = true \/
    exists j m, i = S j /\ ns !! j = Some m /\ n = S m.

(** [n] frames have arrived and [ns] of them were let through; unless the gate
    is closed the newest of them is the newest arrival. *)
Definition chain_inv (n : nat) (closed : bool) (ns : list nat) : Prop :=
  decodable ns /\ (closed = false -> exists m, n = S m /\ last ns = Some m).

Lemma decodable_nil : decodable [].
Proof. by intros ? ? ?. Qed.

Lemma decodable_snoc ns n :
  decodable ns -> key n = true \/ (exists m, n = S m /\ last ns = Some m) ->
  decodable (ns ++ [n]).
Proof.
  intros Hd Hn i k Hi. apply lookup_app_Some in Hi as [Hi|[Hle Hi]].
  - destruct (Hd i k Hi) as [?|(j & m & -> & Hj & ->)]; [by left|].
    right. exists j, m. split; [done|]. split; [|done]. by apply lookup_app_l_Some.
  - destruct (i - length ns) eqn:E; [|done]. simpl in Hi. injection Hi as <-.
    assert (i = length ns) as -> by lia.
    destruct Hn as [?|(m & -> & Hl)]; [by left|]. right.
    rewrite last_lookup in Hl. destruct ns as [|a ns]; [done|]. simpl in Hl.
    exists (length ns), m. split; [done|]. split; [|done].
    rewrite lookup_app_l by (simpl; lia). done.
Qed.

Lemma decodable_take k ns : decodable ns -> decodable (take k ns).
Proof.
  intros Hd i n Hi. apply lookup_take_Some in Hi as [Hi Hlt].
  destruct (Hd i n Hi) as [?|(j & m & -> & Hj & ->)]; [by left|].
  right. exists j, m. split; [done|]. split; [|done]. apply lookup_take_Some. split; [done|lia].
Qed.

Lemma decodable_app_l ns1 ns2 : decodable (ns1 ++ ns2) -> decodable ns1.
Proof. intros Hd. rewrite <- (take_app_length ns1 ns2). by apply decodable_take. Qed.

(** A tail that starts at a keyframe may follow anything. *)
Lemma decodable_cut a b d :
  decodable (a ++ b ++ d) -> b = [] \/ d = [] \/ (exists x, head d = Some x /\ key x = true) ->
  decodable (a ++ d).
Proof.
  intros Hd [->|[->|(x & Hx & Hk)]]; [done|by rewrite app_nil_r; eapply decodable_app_l|].
  intros i n Hi. apply lookup_app_Some in Hi as [Hi|[Hle Hi]].
  - destruct (decodable_app_l a (b ++ d) Hd i n Hi) as [?|(j & m & -> & Hj & ->)]; [by left|].
    right. exists j, m. split; [done|]. split; [|done]. by apply lookup_app_l_Some.
  - destruct (i - length a) as [|k] eqn:E.
    { left. destruct d; [done|]. simpl in *. congruence. }
    destruct (Hd (length a + length b + S k) n) as [?|(j & m & Hj & Hl & ->)]; [|by left|].
    { rewrite lookup_app_r by lia. rewrite lookup_app_r by lia. rewrite <- Hi. f_equal. lia. }
    right. exists (length a + k), m. split; [lia|]. split; [|done].
    assert (j = length a + (length b + k)) as -> by lia.
    rewrite lookup_app_r in Hl by lia. rewrite lookup_app_r in Hl by lia.
    rewrite lookup_app_r by lia. rewrite <- Hl. f_equal. lia.
Qed.

Lemma chain_push n closed ns :
  chain_inv n closed ns -> closed = false \/ key n = true -> chain_inv (S n) false (ns ++ [n]).
Proof.
  intros [Hd Hl] Hk. split.
  - apply decodable_snoc; [done|]. destruct Hk as [Hc|Hk]; [right; by apply Hl|by left].
  - intros _. exists n. by rewrite last_snoc.
Qed.

Lemma chain_close n n' closed ns1 ns2 : chain_inv n closed (ns1 ++ ns2) -> chain_inv n' true ns1.
Proof. intros [Hd _]. split; [by eapply decodable_app_l|done]. Qed.

Lemma chain_skip n n' closed ns : chain_inv n closed ns -> chain_inv n' true ns.
Proof. intros [Hd _]. by split. Qed.
End chain.

(** ** The interface *)

(** The effect a push may have on what the queue holds and whether it is
    closed to inter frames: refuse (and close), possibly purging everything;
    or accept, possibly dropping the oldest frames up to a keyframe. *)
Inductive push_effect {F} (key : F -> bool) (f : F) :
    bool -> list F -> bool -> list F -> Prop :=
  | push_refused closed fs fs' :
      fs' = fs \/ fs' = [] -> push_effect key f closed fs true fs'
  | push_accepted closed fs dropped kept :
      closed = false \/ key f = true ->
      fs = dropped ++ kept ->
      dropped = [] \/ (exists x, head (kept ++ [f]) = Some x /\ key x = true) ->
      push_effect key f closed fs false (kept ++ [f]).

Class GatedQueue (Q F : Type) := {
  gq_key : F -> bool;
  gq_inv : Q -> Prop;
  gq_closed : Q -> bool;
  gq_frames : Q -> list F;
  gq_push : Q -> F -> Q -> Prop;
  gq_pop : Q -> F -> Q -> Prop;
  gq_fail : Q -> Q -> Prop;
  gq_shut : Q -> Q -> Prop;
  gq_env : Q -> Q -> Prop;
  gq_push_law q f q' :
    gq_inv q -> gq_push q f q' ->
    gq_inv q' /\ push_effect gq_key f (gq_closed q) (gq_frames q) (gq_closed q') (gq_frames q');
  gq_pop_law q f q' :
    gq_inv q -> gq_pop q f q' ->
    gq_inv q' /\ gq_frames q = f :: gq_frames q' /\ gq_closed q' = gq_closed q;
  gq_fail_law q q' :
    gq_inv q -> gq_fail q q' -> gq_inv q' /\ gq_closed q' = true /\ gq_frames q' = [];
  gq_shut_law q q' :
    gq_inv q -> gq_shut q q' -> gq_inv q' /\ gq_closed q' = true /\ gq_frames q' = [];
  gq_env_law q q' :
    gq_inv q -> gq_env q q' ->
    gq_inv q' /\ gq_closed q' = gq_closed q /\ gq_frames q' = gq_frames q
}.

(** ** A reader and a sender around a gated queue *)

Section system.
Context {Q F : Type} `{GQ : !GatedQueue Q F}.
Variable stream : nat -> F.

Record gate_sys := mk_gate_sys {
  gs_next : nat;           (* frames the reader has taken from the stream *)
  gs_waiting : bool;       (* the reader's own hold on the client *)
  gs_queue : Q;
  gs_inflight : list F;    (* popped, being sent: at most one *)
  gs_sent : list F
}.

Inductive gate_step : gate_sys -> gate_sys -> Prop :=
  | gate_skip n w q fl sent n' :
      (* frames lost or withheld: the reader holds the client *)
      n <= n' -> gate_step (mk_gate_sys n w q fl sent) (mk_gate_sys n' true q fl sent)
  | gate_hold n w q fl sent :
      gate_step (mk_gate_sys n w q fl sent) (mk_gate_sys n true q fl sent)
  | gate_push n w q fl sent q' w' :
      w = false \/ gq_key (stream n) = true ->
      gq_push q (stream n) q' ->
      gate_step (mk_gate_sys n w q fl sent) (mk_gate_sys (S n) w' q' fl sent)
  | gate_pop n w q sent f q' :
      gq_pop q f q' ->
      gate_step (mk_gate_sys n w q [] sent) (mk_gate_sys n w q' [f] sent)
  | gate_sent n w q f sent :
      gate_step (mk_gate_sys n w q [f] sent) (mk_gate_sys n w q [] (sent ++ [f]))
  | gate_failed n w q f sent q' :
      gq_fail q q' ->
      gate_step (mk_gate_sys n w q [f] sent) (mk_gate_sys n w q' [] sent)
  | gate_shut n w q fl sent q' :
      gq_shut q q' ->
      gate_step (mk_gate_sys n w q fl sent) (mk_gate_sys n w q' fl sent)
  | gate_env n w q fl sent q' :
      (* accounting, and memory that is not the queue's *)
      gq_env q q' ->
      gate_step (mk_gate_sys n w q fl sent) (mk_gate_sys n w q' fl sent).

Definition gate_key (n : nat) : bool := gq_key (stream n).

Definition gate_inv (s : gate_sys) : Prop :=
  gq_inv (gs_queue s) /\
  exists ns, stream <$> ns = gs_sent s ++ gs_inflight s ++ gq_frames (gs_queue s) /\
    chain_inv gate_key (gs_next s) (gs_waiting s || gq_closed (gs_queue s)) ns.

(** Splitting a list of positions along a split of the frames. *)
Lemma stream_split (ns : list nat) (l1 l2 : list F) :
  stream <$> ns = l1 ++ l2 -> exists n1 n2, ns = n1 ++ n2 /\ stream <$> n1 = l1 /\ stream <$> n2 = l2.
Proof. intros E. apply fmap_app_inv in E as (n1 & n2 & ? & ? & ?). eauto. Qed.

Lemma chain_inv_weaken n c c' ns : (c' = false -> c = false) -> chain_inv gate_key n c ns -> chain_inv gate_key n c' ns.
Proof. intros Hc [Hd Hl]. split; auto. Qed.

Lemma gate_push_inv n w q fl sent q' w' :
  w = false \/ gq_key (stream n) = true -> gq_push q (stream n) q' ->
  gate_inv (mk_gate_sys n w q fl sent) -> gate_inv (mk_gate_sys (S n) w' q' fl sent).
Proof.
  intros Hk Hp (Hi & ns & Hns & Hc). simpl in *.
  destruct (gq_push_law q _ q' Hi Hp) as [Hi' He]. split; [done|]. simpl.
  revert Hc. inversion He as [closed fs fs' Hre|closed fs dr kept Hop Hfs Hdr]; subst; intros Hc;
    [destruct Hre as [->| ->]|].
  - exists ns. rewrite orb_true_r. split; [done|]. by eapply chain_skip.
  - rewrite app_assoc in Hns. apply stream_split in Hns as (n1 & n2 & -> & Hn1 & _).
    exists n1. rewrite orb_true_r, app_nil_r. split; [done|]. by eapply chain_close.
  - rewrite Hfs in Hns. rewrite app_assoc in Hns.
    apply stream_split in Hns as (na & nr & -> & Ha & Hr).
    apply stream_split in Hr as (nb & nd & -> & Hb & Hd).
    exists (na ++ nd ++ [n]). split.
    { rewrite !fmap_app, Ha, Hd. simpl. by rewrite <- !app_assoc. }
    apply (chain_inv_weaken _ false); [done|].
    assert (Hkn : w || gq_closed q = false \/ gate_key n = true).
    { unfold gate_key. destruct Hk as [->|?], Hop as [->|?]; auto. }
    pose proof (chain_push _ _ _ _ Hc Hkn) as [Hdec _].
    split; [|intros _; exists n; split; [done|]; rewrite app_assoc; apply last_snoc].
    apply (decodable_cut _ na nb (nd ++ [n])); [by rewrite <- !app_assoc in Hdec|].
    destruct Hdr as [->|(x & Hx & Hkx)].
    { left. by apply fmap_nil_inv in Hb. }
    right. right. rewrite <- Hd in Hx. destruct nd as [|y nd]; simpl in *.
    + exists n. by simplify_eq.
    + exists y. by simplify_eq.
Qed.

Lemma gate_step_inv s s' : gate_step s s' -> gate_inv s -> gate_inv s'.
Proof.
  intros [n w q fl sent n' _|n w q fl sent|n w q fl sent q' w' Hk Hp|n w q sent f q' Hp
         |n w q f sent|n w q f sent q' Hf|n w q fl sent q' Hf|n w q fl sent q' He]; [| |by apply gate_push_inv|..];
    intros (Hi & ns & Hns & Hc); simpl in *.
  - split; [done|]. exists ns. split; [done|]. by eapply chain_skip.
  - split; [done|]. exists ns. split; [done|]. by eapply chain_skip.
  - destruct (gq_pop_law q f q' Hi Hp) as (Hi' & Hfs & Hcl). split; [done|].
    exists ns. simpl. rewrite Hcl. split; [|done]. rewrite Hns, Hfs. done.
  - split; [done|]. exists ns. simpl. split; [|done]. rewrite Hns, <- app_assoc. done.
  - destruct (gq_fail_law q q' Hi Hf) as (Hi' & Hcl & Hfs). split; [done|].
    apply stream_split in Hns as (n1 & n2 & -> & H1 & H2). exists n1. simpl.
    rewrite Hcl, Hfs, orb_true_r, app_nil_r. split; [done|]. by eapply chain_close.
  - destruct (gq_shut_law q q' Hi Hf) as (Hi' & Hcl & Hfs). split; [done|].
    rewrite app_assoc in Hns. apply stream_split in Hns as (n1 & n2 & -> & H1 & H2).
    exists n1. simpl. rewrite Hcl, Hfs, orb_true_r, app_nil_r. split; [done|].
    by eapply chain_close.
  - destruct (gq_env_law q q' Hi He) as (Hi' & Hcl & Hfs). split; [done|].
    exists ns. simpl. by rewrite Hcl, Hfs.
Qed.

Lemma gate_steps_inv s s' : rtc gate_step s s' -> gate_inv s -> gate_inv s'.
Proof. induction 1; eauto using gate_step_inv. Qed.

(** The contract the clients of the interface rely on. *)
Lemma gate_stream_decodable n q s :
  gq_inv q -> gq_frames q = [] -> rtc gate_step (mk_gate_sys n true q [] []) s ->
  exists ns, stream <$> ns = gs_sent s ++ gs_inflight s ++ gq_frames (gs_queue s) /\
    decodable gate_key ns.
Proof.
  intros Hi Hfs Hr. enough (gate_inv s) as (_ & ns & ? & Hd & _) by eauto.
  eapply gate_steps_inv; [done|]. split; [done|]. exists []. simpl. rewrite Hfs.
  split; [done|]. split; [apply decodable_nil|done].
Qed.
End system.
