(* ===== verification/RsdSendq.v ===== *)
(** * rsd: the per-client bounded send queue (rsd/rsd_sendq.c)

    One queue carries a client's video and audio between the ring readers and
    its send thread.  The model keeps the fixed array, its indices, the
    discard counters and the heap the payload copies live in; each public
    function is one definition, its critical section being atomic (the queue's
    mutex is held throughout).  [malloc]'s verdict is an argument.

    The abstract queue is the list of frames between tail and head, payload
    bytes included; the theorems say each operation does to that list what the
    policy comments promise, and that no payload leaks or is freed twice. *)

From stdpp Require Import gmap list.
From S2P Require Import Prelude Ring.

Definition RSD_SENDQ_SLOTS : nat := 32.
Definition RSD_FRAME_VIDEO : Z := 0.
Definition RSD_FRAME_AUDIO : Z := 1.
Definition RSD_SENDQ_OK : Z := 0.
Definition RSD_SENDQ_DROPPED : Z := 1.

(** [data] is the address of the malloc'd copy, [None] for NULL. *)
Record rsd_sendq_entry := mk_rsd_sendq_entry {
  se_data : option nat;
  se_len : Z;
  se_rtp_ts : Z;
  se_capture_us : Z;
  se_type : Z;
  se_codec : Z;
  se_zerocopy : bool;
  se_buf_idx : Z;
  se_buf_gen : Z
}.

#[export] Instance eta_rsd_sendq_entry : Settable rsd_sendq_entry :=
  fun e => mk_rsd_sendq_entry (se_data e) (se_len e) (se_rtp_ts e) (se_capture_us e)
             (se_type e) (se_codec e) (se_zerocopy e) (se_buf_idx e) (se_buf_gen e).

Definition rsd_zero_entry : rsd_sendq_entry :=
  mk_rsd_sendq_entry None 0 0 0 0 0 false 0 0.

#[export] Instance rsd_sendq_entry_inhabited : Inhabited rsd_sendq_entry :=
  populate rsd_zero_entry.

Record rsd_sendq := mk_rsd_sendq {
  sq_entries : list rsd_sendq_entry;
  sq_head : nat;
  sq_tail : nat;
  sq_count : nat;
  sq_shutdown : bool;
  sq_drop_audio : Z;
  sq_drop_video : Z;
  sq_overflows : Z
}.

#[export] Instance eta_rsd_sendq : Settable rsd_sendq :=
  fun q => mk_rsd_sendq (sq_entries q) (sq_head q) (sq_tail q) (sq_count q)
             (sq_shutdown q) (sq_drop_audio q) (sq_drop_video q) (sq_overflows q).

(** ** Operations *)

Definition rsd_sendq_init : rsd_sendq :=
  mk_rsd_sendq (replicate RSD_SENDQ_SLOTS rsd_zero_entry) 0 0 0 false 0 0 0.

Definition rsd_sendq_release_entry (e : rsd_sendq_entry) (h : heap) : rsd_sendq_entry * heap :=
  (e <| se_data := None |>, heap_free (se_data e) h).

Definition sq_next (i : nat) : nat := (S i mod RSD_SENDQ_SLOTS)%nat.

(** [while (q->count > 0)] of rsd_sendq_destroy; the fuel is [count]. *)
Fixpoint sendq_destroy_loop (fuel : nat) (q : rsd_sendq) (h : heap) : rsd_sendq * heap :=
  match fuel, sq_count q with
  | S fuel, S c =>
      let '(e, h) := rsd_sendq_release_entry (sq_entries q !!! sq_tail q) h in
      sendq_destroy_loop fuel
        (q <| sq_entries := <[sq_tail q := e]> (sq_entries q) |>
           <| sq_tail := sq_next (sq_tail q) |> <| sq_count := c |>) h
  | _, _ => (q, h)
  end.

Definition rsd_sendq_destroy (q : rsd_sendq) (h : heap) : rsd_sendq * heap :=
  sendq_destroy_loop (sq_count q) q h.

Definition sq_is_audio (e : rsd_sendq_entry) : bool := se_type e =? RSD_FRAME_AUDIO.

(** The first loop of sendq_drop_video_locked: drain the queue, keeping audio
    aside and releasing everything else. *)
Fixpoint sendq_drop_loop (fuel : nat) (q : rsd_sendq) (h : heap)
    (audio : list rsd_sendq_entry) : rsd_sendq * heap * list rsd_sendq_entry :=
  match fuel, sq_count q with
  | S fuel, S c =>
      let entry := sq_entries q !!! sq_tail q in
      let q := q <| sq_entries := <[sq_tail q := entry <| se_data := None |>]> (sq_entries q) |>
                 <| sq_tail := sq_next (sq_tail q) |> <| sq_count := c |> in
      if sq_is_audio entry then
        sendq_drop_loop fuel q h (audio ++ [entry])
      else
        let q := q <| sq_drop_video := u32 (sq_drop_video q + 1) |> in
        let '(_, h) := rsd_sendq_release_entry entry h in
        sendq_drop_loop fuel q h audio
  | _, _ => (q, h, audio)
  end.

(** [q->entries[q->head] = e; head = (head + 1) % SLOTS; count++]. *)
Definition sq_put (q : rsd_sendq) (e : rsd_sendq_entry) : rsd_sendq :=
  q <| sq_entries := <[sq_head q := e]> (sq_entries q) |>
    <| sq_head := sq_next (sq_head q) |> <| sq_count := S (sq_count q) |>.

Definition sendq_drop_video_locked (q : rsd_sendq) (h : heap) : rsd_sendq * heap :=
  let '(q, h, audio) := sendq_drop_loop (sq_count q) q h [] in
  let q := q <| sq_head := 0%nat |> <| sq_tail := 0%nat |> in
  (fold_left sq_put audio q, h).

(** Offset from the tail of the oldest audio entry among the first [n]. *)
Fixpoint sq_find_audio (q : rsd_sendq) (i n : nat) : option nat :=
  match n with
  | O => None
  | S n =>
      let idx := ((sq_tail q + i) mod RSD_SENDQ_SLOTS)%nat in
      if sq_is_audio (sq_entries q !!! idx) then Some i else sq_find_audio q (S i) n
  end.

(** [for (j = i; j > 0; j--) entries[(tail+j)%N] = entries[(tail+j-1)%N]]. *)
Fixpoint sq_shift (tail j : nat) (entries : list rsd_sendq_entry) : list rsd_sendq_entry :=
  match j with
  | O => entries
  | S j' =>
      sq_shift tail j'
        (<[((tail + j) mod RSD_SENDQ_SLOTS)%nat :=
             entries !!! ((tail + j - 1) mod RSD_SENDQ_SLOTS)%nat]> entries)
  end.

Definition rsd_sendq_take_audio_locked (q : rsd_sendq) : option rsd_sendq_entry * rsd_sendq :=
  match sq_find_audio q 0 (sq_count q) with
  | None => (None, q)
  | Some i =>
      let idx := ((sq_tail q + i) mod RSD_SENDQ_SLOTS)%nat in
      let out := sq_entries q !!! idx in
      let es := <[idx := out <| se_data := None |>]> (sq_entries q) in
      let es := sq_shift (sq_tail q) i es in
      let es := <[sq_tail q := (es !!! sq_tail q) <| se_data := None |>]> es in
      (Some out, q <| sq_entries := es |> <| sq_tail := sq_next (sq_tail q) |>
                   <| sq_count := (sq_count q - 1)%nat |>)
  end.

Definition is_vcl (first : Z) (is_h265 : bool) : bool :=
  if is_h265 then Z.land (Z.shiftr first 1) 0x3f <? 32
  else let t := Z.land first 0x1f in (1 <=? t) && (t <=? 5).

(** The scan of first_vcl_offset from offset [off]; [None] when it runs out. *)
Fixpoint first_vcl_scan (l : list Z) (off : nat) (is_h265 : bool) : option nat :=
  match l with
  | a :: ((b :: (c :: (d :: ((e :: _) as l4)))) as l1) =>
      if (a =? 0) && (b =? 0) && (c =? 0) && (d =? 1) then
        if is_vcl e is_h265 then Some off else first_vcl_scan l4 (off + 4) is_h265
      else first_vcl_scan l1 (S off) is_h265
  | _ => None
  end.

Definition first_vcl_offset (data : list Z) (is_h265 : bool) : nat :=
  default (length data) (first_vcl_scan data 0 is_h265).

(** The bytes of the copy push_video queues: the frame with the timecode SEI
    spliced in before its first VCL NAL. *)
Definition sendq_video_copy (data sei : list Z) (is_h265 : bool) : list Z :=
  if (0 <? length sei)%nat then
    let off := first_vcl_offset data is_h265 in
    take off data ++ sei ++ drop off data
  else data.

Definition rsd_sendq_push_video (alloc_ok : bool) (q : rsd_sendq) (h : heap)
    (data : list Z) (rtp_ts capture_us : Z) (sei : list Z) (is_h265 : bool)
    : Z * rsd_sendq * heap :=
  if negb alloc_ok then (-1, q, h) else
  let '(copy, h) := heap_alloc (sendq_video_copy data sei is_h265) h in
  let len := u32 (Z.of_nat (length data) + Z.of_nat (length sei)) in
  if sq_shutdown q then (-1, q, heap_free (Some copy) h) else
  if (RSD_SENDQ_SLOTS <=? sq_count q)%nat then
    let q := q <| sq_overflows := u32 (sq_overflows q + 1) |> in
    let '(q, h) := sendq_drop_video_locked q h in
    let q := q <| sq_drop_video := u32 (sq_drop_video q + 1) |> in
    (RSD_SENDQ_DROPPED, q, heap_free (Some copy) h)
  else
    let slot := (sq_entries q !!! sq_head q) <| se_data := Some copy |> <| se_len := len |>
                  <| se_rtp_ts := rtp_ts |> <| se_capture_us := capture_us |>
                  <| se_type := RSD_FRAME_VIDEO |> <| se_codec := 0 |> in
    (RSD_SENDQ_OK, sq_put q slot, h).

(** The audio push once room has been made (or found). *)
Definition sq_push_audio_slot (q : rsd_sendq) (copy : nat) (codec len rtp_ts capture_us : Z)
    : rsd_sendq :=
  sq_put q ((sq_entries q !!! sq_head q) <| se_data := Some copy |> <| se_len := len |>
              <| se_rtp_ts := rtp_ts |> <| se_capture_us := capture_us |>
              <| se_type := RSD_FRAME_AUDIO |> <| se_codec := codec |>
              <| se_zerocopy := false |>).

Definition rsd_sendq_push_audio (alloc_ok : bool) (q : rsd_sendq) (h : heap)
    (codec : Z) (data : list Z) (rtp_ts capture_us : Z) : Z * rsd_sendq * heap :=
  if negb alloc_ok then (-1, q, h) else
  let '(copy, h) := heap_alloc data h in
  let len := u32 (Z.of_nat (length data)) in
  if sq_shutdown q then (-1, q, heap_free (Some copy) h) else
  if (RSD_SENDQ_SLOTS <=? sq_count q)%nat then
    let q := q <| sq_overflows := u32 (sq_overflows q + 1) |>
               <| sq_drop_audio := u32 (sq_drop_audio q + 1) |> in
    match rsd_sendq_take_audio_locked q with
    | (None, q) => (RSD_SENDQ_DROPPED, q, heap_free (Some copy) h)
    | (Some victim, q) =>
        let '(_, h) := rsd_sendq_release_entry victim h in
        (RSD_SENDQ_OK, sq_push_audio_slot q copy codec len rtp_ts capture_us, h)
    end
  else (RSD_SENDQ_OK, sq_push_audio_slot q copy codec len rtp_ts capture_us, h).

(** The dequeue of rsd_client_send_thread (its critical section once the queue
    is not empty and not shut down); the send releases the entry afterwards. *)
Definition rsd_sendq_pop (q : rsd_sendq) : option (rsd_sendq_entry * rsd_sendq) :=
  if sq_shutdown q then None else
  match sq_count q with
  | O => None
  | S c =>
      let entry := sq_entries q !!! sq_tail q in
      Some (entry,
            q <| sq_entries := <[sq_tail q := entry <| se_data := None |>]> (sq_entries q) |>
              <| sq_tail := sq_next (sq_tail q) |> <| sq_count := c |>)
  end.

(** ** The representation invariant and the sequence it denotes *)

Definition sq_wf (q : rsd_sendq) : Prop :=
  length (sq_entries q) = RSD_SENDQ_SLOTS /\
  (sq_tail q < RSD_SENDQ_SLOTS)%nat /\
  (sq_count q <= RSD_SENDQ_SLOTS)%nat /\
  sq_head q = ((sq_tail q + sq_count q) mod RSD_SENDQ_SLOTS)%nat.

Definition sq_view (q : rsd_sendq) : list rsd_sendq_entry :=
  window (sq_entries q) (sq_tail q) (sq_count q).

Section ring_facts.
Local Open Scope nat_scope.

Lemma sq_next_lt i : sq_next i < RSD_SENDQ_SLOTS.
Proof. apply Nat.mod_upper_bound. unfold RSD_SENDQ_SLOTS. lia. Qed.

Lemma sq_next_add i j : (sq_next i + j) mod RSD_SENDQ_SLOTS = (i + S j) mod RSD_SENDQ_SLOTS.
Proof. unfold sq_next. rewrite Nat.Div0.add_mod_idemp_l. f_equal. lia. Qed.

Lemma sq_view_length q : length (sq_view q) = sq_count q.
Proof. apply window_length. Qed.

Lemma sq_put_wf q e :
  sq_wf q -> sq_count q < RSD_SENDQ_SLOTS ->
  sq_wf (sq_put q e) /\ sq_view (sq_put q e) = sq_view q ++ [e].
Proof.
  intros (Hl & Ht & Hc & Hh) Hlt. split.
  - repeat split; simpl; [by rewrite length_insert | done | lia |].
    rewrite Hh. unfold sq_next. rewrite <- (Nat.add_1_l (_ mod _)).
    rewrite Nat.Div0.add_mod_idemp_r. f_equal. lia.
  - unfold sq_view. simpl. rewrite Hh, <- Hl. apply window_push. lia.
Qed.

Lemma sq_fold_put_wf es q :
  sq_wf q -> sq_count q + length es <= RSD_SENDQ_SLOTS ->
  sq_wf (fold_left sq_put es q) /\ sq_view (fold_left sq_put es q) = sq_view q ++ es.
Proof.
  revert q; induction es as [|e es IH]; intros q Hwf Hc; simpl in *.
  { by rewrite app_nil_r. }
  destruct (sq_put_wf q e Hwf) as [Hwf' Hv]; [lia|].
  destruct (IH (sq_put q e)) as [? Hv']; [done|simpl; lia|].
  split; [done|]. rewrite Hv', Hv. by rewrite <- app_assoc.
Qed.

(** Removing the oldest entry, whatever is left in its slot. *)
Lemma sq_advance_wf q c x :
  sq_wf q -> sq_count q = S c ->
  let q' := q <| sq_entries := <[sq_tail q := x]> (sq_entries q) |>
              <| sq_tail := sq_next (sq_tail q) |> <| sq_count := c |> in
  sq_wf q' /\ sq_view q = (sq_entries q !!! sq_tail q) :: sq_view q'.
Proof.
  intros (Hl & Ht & Hc & Hh) Hn. simpl. split.
  - repeat split; simpl; [by rewrite length_insert | apply sq_next_lt | lia |].
    rewrite sq_next_add, Hh. f_equal. lia.
  - unfold sq_view. simpl. rewrite Hn, window_pop by lia. f_equal.
    unfold sq_next. rewrite <- Hl. symmetry. apply window_pop_insert; lia.
Qed.

Lemma sq_shift_length t i es : length (sq_shift t i es) = length es.
Proof. revert es; induction i; intros; cbn [sq_shift]; [done|]. by rewrite IHi, length_insert. Qed.

Lemma sq_shift_slot t i es k :
  length es = RSD_SENDQ_SLOTS -> i < RSD_SENDQ_SLOTS -> 1 <= k < RSD_SENDQ_SLOTS ->
  sq_shift t i es !!! ((t + k) mod RSD_SENDQ_SLOTS) =
  if decide (k <= i) then es !!! ((t + (k - 1)) mod RSD_SENDQ_SLOTS)
  else es !!! ((t + k) mod RSD_SENDQ_SLOTS).
Proof.
  intros Hl Hi Hk. revert es Hl. induction i as [|i IH]; intros es Hl; cbn [sq_shift].
  { rewrite decide_False by lia. done. }
  rewrite IH by (rewrite ?length_insert; lia).
  assert (Hne : forall a b, a < RSD_SENDQ_SLOTS -> b < RSD_SENDQ_SLOTS -> a <> b ->
            (t + a) mod RSD_SENDQ_SLOTS <> (t + b) mod RSD_SENDQ_SLOTS).
  { intros a b Ha Hb Hab E. apply Hab. by eapply window_slots_inj; [| |exact E]. }
  destruct (decide (k <= i)).
  - rewrite decide_True by lia. apply list_lookup_total_insert_ne. apply Hne; lia.
  - destruct (decide (k = S i)) as [->|].
    + rewrite decide_True by lia. rewrite list_lookup_total_insert_eq.
      * do 2 f_equal. lia.
      * rewrite Hl. apply Nat.mod_upper_bound. lia.
    + rewrite decide_False by lia. apply list_lookup_total_insert_ne. apply Hne; lia.
Qed.

End ring_facts.

(** ** What the ring operations do to the sequence *)

(** The abstract counterpart of taking audio: the oldest audio entry and the
    rest of the sequence in order. *)
Definition remove_first_audio (l : list rsd_sendq_entry)
    : option (rsd_sendq_entry * list rsd_sendq_entry) :=
  match list_find (fun e => Is_true (sq_is_audio e)) l with
  | Some (i, e) => Some (e, delete i l)
  | None => None
  end.

Lemma sq_find_audio_spec q i n :
  length (sq_entries q) = RSD_SENDQ_SLOTS ->
  sq_find_audio q i n =
  (fun p => i + fst p)%nat <$>
    list_find (fun e => Is_true (sq_is_audio e)) (window (sq_entries q) (sq_tail q + i) n).
Proof.
  intros Hl. revert i. induction n as [|n IH]; intros i; [done|].
  rewrite window_cons. cbn [sq_find_audio list_find]. rewrite Hl.
  destruct (sq_is_audio _) eqn:E.
  - rewrite decide_True by done. simpl. f_equal. lia.
  - rewrite decide_False by auto. rewrite IH, Nat.add_succ_r.
    destruct (list_find _ _) as [[k e]|]; simpl; [f_equal; lia|done].
Qed.

Lemma sq_take_audio_view q i e :
  sq_wf q ->
  list_find (fun e => Is_true (sq_is_audio e)) (sq_view q) = Some (i, e) ->
  exists q', rsd_sendq_take_audio_locked q = (Some e, q') /\ sq_wf q' /\
    sq_view q' = delete i (sq_view q) /\ (sq_count q' < RSD_SENDQ_SLOTS)%nat /\
    (sq_shutdown q', sq_drop_audio q', sq_drop_video q', sq_overflows q') =
    (sq_shutdown q, sq_drop_audio q, sq_drop_video q, sq_overflows q).
Proof.
  intros (Hl & Ht & Hc & Hh) Hf.
  pose proof (proj1 (proj1 (list_find_Some _ _ _ _) Hf)) as Hi.
  assert (Hic : (i < sq_count q)%nat).
  { apply lookup_lt_Some in Hi. by rewrite sq_view_length in Hi. }
  assert (He : sq_entries q !!! ((sq_tail q + i) mod RSD_SENDQ_SLOTS)%nat = e).
  { unfold sq_view in Hi. rewrite window_lookup in Hi by done. rewrite Hl in Hi. congruence. }
  unfold rsd_sendq_take_audio_locked.
  rewrite sq_find_audio_spec by done. rewrite Nat.add_0_r. fold (sq_view q). rewrite Hf.
  cbn [fmap option_fmap option_map fst Nat.add]. rewrite He.
  generalize (e <| se_data := None |>); intros x.
  set (es := sq_shift _ _ _).
  generalize ((es !!! sq_tail q) <| se_data := None |>); intros y.
  eexists; split; [done|].
  assert (Hwf : forall es, length es = RSD_SENDQ_SLOTS ->
    sq_wf (q <| sq_entries := es |> <| sq_tail := sq_next (sq_tail q) |>
             <| sq_count := (sq_count q - 1)%nat |>)).
  { intros es0 Hes. repeat split; simpl; [done|apply sq_next_lt|lia|].
    rewrite sq_next_add, Hh. f_equal. lia. }
  split; [|split; [|split; [simpl; lia|done]]].
  { apply Hwf. subst es. by rewrite length_insert, sq_shift_length, length_insert. }
  subst es. apply list_eq; intros k. unfold sq_view at 1. simpl.
  destruct (decide (k < sq_count q - 1)%nat) as [Hk|Hk].
  2:{ rewrite !lookup_ge_None_2; [done| |].
      - rewrite length_delete by (by eexists). rewrite sq_view_length. lia.
      - rewrite window_length. lia. }
  rewrite window_lookup by done.
  rewrite length_insert, sq_shift_length, length_insert, Hl, sq_next_add.
  assert (Hne : forall a b, (a < RSD_SENDQ_SLOTS)%nat -> (b < RSD_SENDQ_SLOTS)%nat -> a <> b ->
    ((sq_tail q + a) mod RSD_SENDQ_SLOTS)%nat <> ((sq_tail q + b) mod RSD_SENDQ_SLOTS)%nat).
  { intros a b Ha Hb Hab E. apply Hab. by eapply window_slots_inj; [| |exact E]. }
  assert (Htl : ((sq_tail q + 0) mod RSD_SENDQ_SLOTS = sq_tail q)%nat)
    by (rewrite Nat.add_0_r; by apply Nat.mod_small).
  rewrite list_lookup_total_insert_ne by (rewrite <- Htl at 1; apply Hne; lia).
  rewrite sq_shift_slot by (rewrite ?length_insert; lia).
  case_decide.
  - rewrite list_lookup_total_insert_ne by (apply Hne; lia).
    rewrite list_lookup_delete_lt by lia. unfold sq_view. rewrite window_lookup by lia.
    rewrite Hl. do 3 f_equal. lia.
  - rewrite list_lookup_total_insert_ne by (apply Hne; lia).
    rewrite list_lookup_delete_ge by lia. unfold sq_view. rewrite window_lookup by lia.
    by rewrite Hl.
Qed.

(** Taking audio is the abstract removal, on both branches. *)
Lemma sq_take_audio_spec q :
  sq_wf q ->
  match rsd_sendq_take_audio_locked q, remove_first_audio (sq_view q) with
  | (None, q'), None => q' = q
  | (Some e, q'), Some (e', l) => e = e' /\ sq_wf q' /\ sq_view q' = l /\
      (sq_count q' < RSD_SENDQ_SLOTS)%nat /\
      (sq_shutdown q', sq_drop_audio q', sq_drop_video q', sq_overflows q') =
      (sq_shutdown q, sq_drop_audio q, sq_drop_video q, sq_overflows q)
  | _, _ => False
  end.
Proof.
  intros Hwf. unfold remove_first_audio.
  destruct (list_find _ (sq_view q)) as [[i e]|] eqn:Hf.
  - destruct (sq_take_audio_view q i e Hwf Hf) as (q' & -> & ? & ? & ? & ?). done.
  - unfold rsd_sendq_take_audio_locked.
    rewrite sq_find_audio_spec by apply Hwf. rewrite Nat.add_0_r. fold (sq_view q).
    by rewrite Hf.
Qed.

(** ** Frames: the sequence with the payload bytes the heap holds for it *)

Record rsd_frame := mk_rsd_frame {
  fr_bytes : list Z;
  fr_len : Z;
  fr_rtp_ts : Z;
  fr_capture_us : Z;
  fr_type : Z;
  fr_codec : Z
}.

Definition frame_is_audio (f : rsd_frame) : bool := fr_type f =? RSD_FRAME_AUDIO.

Definition sq_frame (h : heap) (e : rsd_sendq_entry) : rsd_frame :=
  mk_rsd_frame (default [] (p ← se_data e; h_live h !! p)) (se_len e) (se_rtp_ts e)
    (se_capture_us e) (se_type e) (se_codec e).

Definition sq_abs (q : rsd_sendq) (h : heap) : list rsd_frame := sq_frame h <$> sq_view q.

Definition sq_ptrs (l : list rsd_sendq_entry) : list nat := omap se_data l.

(** The queue's invariant: a well formed ring whose entries own live, distinct
    payload blocks. *)
Definition sq_owned (q : rsd_sendq) (h : heap) : Prop :=
  sq_wf q /\ Forall (fun e => is_Some (se_data e)) (sq_view q) /\
  owned (sq_ptrs (sq_view q)) h.

(** Live blocks that belong to nobody in the queue. *)
Definition sq_foreign (q : rsd_sendq) (h : heap) : gset nat := foreign (sq_ptrs (sq_view q)) h.

(** The policy, on sequences of frames: [ok] is false when the allocation
    failed or the queue is shut down. *)
Definition spec_push_video (ok : bool) (l : list rsd_frame) (f : rsd_frame) : Z * list rsd_frame :=
  if negb ok then (-1, l)
  else if (RSD_SENDQ_SLOTS <=? length l)%nat then
    (RSD_SENDQ_DROPPED, filter (fun f => Is_true (frame_is_audio f)) l)
  else (RSD_SENDQ_OK, l ++ [f]).

Definition spec_push_audio (ok : bool) (l : list rsd_frame) (f : rsd_frame) : Z * list rsd_frame :=
  if negb ok then (-1, l)
  else if (RSD_SENDQ_SLOTS <=? length l)%nat then
    match list_find (fun f => Is_true (frame_is_audio f)) l with
    | Some (i, _) => (RSD_SENDQ_OK, delete i l ++ [f])
    | None => (RSD_SENDQ_DROPPED, l)
    end
  else (RSD_SENDQ_OK, l ++ [f]).

Abbreviation audio_of := (filter (fun e => Is_true (sq_is_audio e))).
Abbreviation video_of := (filter (fun e => ~ Is_true (sq_is_audio e))).

Lemma sq_drop_loop_spec n q h audio :
  sq_wf q -> sq_count q = n ->
  exists q', sendq_drop_loop n q h audio =
    (q', fold_left (fun h e => heap_free (se_data e) h) (video_of (sq_view q)) h,
     audio ++ audio_of (sq_view q)) /\
  sq_wf q' /\ sq_count q' = 0%nat /\ sq_shutdown q' = sq_shutdown q /\
  sq_drop_audio q' = sq_drop_audio q /\ sq_overflows q' = sq_overflows q /\
  u32 (sq_drop_video q') = u32 (sq_drop_video q + Z.of_nat (length (video_of (sq_view q)))).
Proof.
  revert q h audio. induction n as [|n IH]; intros q h audio Hwf Hn.
  { exists q. unfold sq_view. rewrite Hn, window_0. simpl.
    rewrite app_nil_r, Z.add_0_r. split_and!; done. }
  destruct (sq_advance_wf q n ((sq_entries q !!! sq_tail q) <| se_data := None |>) Hwf Hn)
    as [Hwf' Hv].
  cbn [sendq_drop_loop]. rewrite Hn, Hv.
  set (q1 := q <| sq_entries := _ |> <| sq_tail := _ |> <| sq_count := _ |>) in *.
  set (e := sq_entries q !!! sq_tail q) in *.
  destruct (sq_is_audio e) eqn:He.
  - rewrite (filter_cons_True (fun e => Is_true (sq_is_audio e))),
      (filter_cons_False (fun e => ~ Is_true (sq_is_audio e))) by (rewrite He; simpl; tauto).
    destruct (IH q1 h (audio ++ [e]) Hwf' eq_refl) as (q' & -> & Hq').
    exists q'. rewrite <- app_assoc. by split.
  - rewrite (filter_cons_False (fun e => Is_true (sq_is_audio e))),
      (filter_cons_True (fun e => ~ Is_true (sq_is_audio e))) by (rewrite He; simpl; tauto).
    cbn [rsd_sendq_release_entry fold_left].
    set (q2 := q1 <| sq_drop_video := _ |>).
    destruct (IH q2 (heap_free (se_data e) h) audio Hwf' eq_refl)
      as (q' & -> & Hq' & H0 & H1 & H2 & H3 & Hdv).
    change (sq_view q2) with (sq_view q1) in *.
    exists q'. split_and!; try done.
    rewrite Hdv. simpl. rewrite uwrap_add_l. f_equal. lia.
Qed.

Lemma sq_drop_video_spec q h :
  sq_wf q ->
  exists q', sendq_drop_video_locked q h =
    (q', fold_left (fun h e => heap_free (se_data e) h) (video_of (sq_view q)) h) /\
  sq_wf q' /\ sq_view q' = audio_of (sq_view q) /\ sq_shutdown q' = sq_shutdown q /\
  sq_drop_audio q' = sq_drop_audio q /\ sq_overflows q' = sq_overflows q /\
  u32 (sq_drop_video q') = u32 (sq_drop_video q + Z.of_nat (length (video_of (sq_view q)))).
Proof.
  intros Hwf. unfold sendq_drop_video_locked.
  destruct (sq_drop_loop_spec _ q h [] Hwf eq_refl)
    as (q1 & -> & Hwf1 & Hc & Hs & Ha & Ho & Hd).
  rewrite app_nil_l.
  set (q2 := q1 <| sq_head := 0%nat |> <| sq_tail := 0%nat |>).
  assert (Hwf2 : sq_wf q2).
  { destruct Hwf1 as (? & ? & ? & ?). repeat split; simpl; [done|unfold RSD_SENDQ_SLOTS; lia|lia|].
    by rewrite Hc. }
  assert (Hl : (sq_count q2 + length (audio_of (sq_view q)) <= RSD_SENDQ_SLOTS)%nat).
  { change (sq_count q2) with (sq_count q1). rewrite Hc.
    pose proof (length_filter (fun e => Is_true (sq_is_audio e)) (sq_view q)).
    rewrite sq_view_length in *. destruct Hwf as (_ & _ & ? & _). simpl. lia. }
  destruct (sq_fold_put_wf _ _ Hwf2 Hl) as [Hwf3 Hv3].
  assert (Hv2 : sq_view q2 = []) by (unfold sq_view; change (sq_count q2) with (sq_count q1); by rewrite Hc).
  rewrite Hv2 in Hv3. eexists; split; [done|]. split; [done|]. split; [done|].
  assert (Hput : forall es q0, (sq_shutdown (fold_left sq_put es q0), sq_drop_audio (fold_left sq_put es q0),
     sq_overflows (fold_left sq_put es q0), sq_drop_video (fold_left sq_put es q0)) =
     (sq_shutdown q0, sq_drop_audio q0, sq_overflows q0, sq_drop_video q0)).
  { induction es as [|e es IHe]; intros; simpl; [done|]. by rewrite IHe. }
  specialize (Hput (audio_of (sq_view q)) q2).
  injection Hput as Hp1 Hp2 Hp3 Hp4. rewrite Hp1, Hp2, Hp3, Hp4. by split_and!.
Qed.

(** ** Ownership lemmas *)

Lemma sq_frames_ext h h' l :
  (forall p, p ∈ sq_ptrs l -> h_live h' !! p = h_live h !! p) ->
  sq_frame h' <$> l = sq_frame h <$> l.
Proof.
  intros Hk. apply list_fmap_ext. intros i e Hi.
  unfold sq_frame. f_equal. destruct (se_data e) as [p|] eqn:E; [|done]. simpl.
  rewrite Hk; [done|]. apply list_elem_of_omap. exists e. split; [|done].
  by eapply list_elem_of_lookup_2.
Qed.

Lemma sq_frees h l :
  Forall (fun e => is_Some (se_data e)) l ->
  fold_left (fun h e => heap_free (se_data e) h) l h = heap_free_all (sq_ptrs l) h.
Proof.
  intros Hl. revert h. induction Hl as [|e l [p Hp] Hl IH]; intros h; [done|].
  cbn [fold_left]. rewrite IH. unfold sq_ptrs. simpl. by rewrite Hp.
Qed.

Lemma sq_split_perm (l : list rsd_sendq_entry) : l ≡ₚ video_of l ++ audio_of l.
Proof.
  induction l as [|e l IH]; [done|].
  destruct (sq_is_audio e) eqn:He.
  - rewrite filter_cons_False, filter_cons_True by (rewrite He; simpl; tauto).
    rewrite <- Permutation_middle. by constructor.
  - rewrite filter_cons_True, filter_cons_False by (rewrite He; simpl; tauto).
    simpl. by constructor.
Qed.

Lemma sq_audio_frames h (l : list rsd_sendq_entry) :
  sq_frame h <$> audio_of l = filter (fun f => Is_true (frame_is_audio f)) (sq_frame h <$> l).
Proof.
  induction l as [|e l IH]; [done|]. rewrite fmap_cons, !filter_cons, <- IH.
  change (frame_is_audio (sq_frame h e)) with (sq_is_audio e).
  by case_decide.
Qed.

#[export] Instance sq_ptrs_proper : Proper ((≡ₚ) ==> (≡ₚ)) sq_ptrs.
Proof. apply omap_Permutation. Qed.

Lemma sq_ptrs_app l1 l2 : sq_ptrs (l1 ++ l2) = sq_ptrs l1 ++ sq_ptrs l2.
Proof. apply omap_app. Qed.

(** Appending an entry whose block is freshly owned. *)
Lemma sq_put_owned q h e p :
  sq_wf q -> (sq_count q < RSD_SENDQ_SLOTS)%nat ->
  Forall (fun e => is_Some (se_data e)) (sq_view q) ->
  se_data e = Some p -> owned (p :: sq_ptrs (sq_view q)) h ->
  sq_owned (sq_put q e) h /\
  sq_abs (sq_put q e) h = sq_abs q h ++ [sq_frame h e] /\
  sq_foreign (sq_put q e) h = foreign (p :: sq_ptrs (sq_view q)) h.
Proof.
  intros Hwf Hc Hd Hp Ho. destruct (sq_put_wf q e Hwf Hc) as [Hwf' Hv].
  assert (Hperm : sq_ptrs (sq_view q ++ [e]) ≡ₚ p :: sq_ptrs (sq_view q)).
  { rewrite sq_ptrs_app. unfold sq_ptrs at 2. simpl. rewrite Hp. symmetry.
    apply Permutation_cons_append. }
  split; [split; [done|split]|split].
  - rewrite Hv. apply Forall_app. split; [done|]. constructor; [by eexists|constructor].
  - by rewrite Hv, Hperm.
  - unfold sq_abs. by rewrite Hv, fmap_app.
  - unfold sq_foreign. rewrite Hv. by apply foreign_perm.
Qed.

(** A block allocated and then given back leaves the queue as it was. *)
Lemma sq_alloc_free_owned q h bytes :
  sq_owned q h ->
  let h' := heap_free (Some (fst (heap_alloc bytes h))) (snd (heap_alloc bytes h)) in
  sq_owned q h' /\ sq_abs q h' = sq_abs q h /\ sq_foreign q h' = sq_foreign q h.
Proof.
  intros (Hwf & Hd & Ho). destruct (owned_alloc bytes _ _ Ho) as (Ho1 & Hf1 & _ & Hk1).
  destruct (owned_free_1 _ _ _ Ho1) as (Ho2 & Hf2 & Hk2).
  cbv zeta. split; [done|]. split.
  - apply sq_frames_ext. intros p Hp. rewrite Hk2, Hk1; done.
  - unfold sq_foreign. by rewrite Hf2, Hf1.
Qed.

(** The release of every queued video entry. *)
Lemma sq_drop_owned q q' h p :
  Forall (fun e => is_Some (se_data e)) (sq_view q) ->
  owned (p :: sq_ptrs (sq_view q)) h ->
  sq_wf q' -> sq_view q' = audio_of (sq_view q) ->
  let h' := heap_free (Some p)
    (fold_left (fun h e => heap_free (se_data e) h) (video_of (sq_view q)) h) in
  sq_owned q' h' /\
  sq_abs q' h' = filter (fun f => Is_true (frame_is_audio f)) (sq_abs q h) /\
  sq_foreign q' h' = foreign (p :: sq_ptrs (sq_view q)) h.
Proof.
  intros Hd Ho Hwf' Hv. cbv zeta.
  assert (Hdv : Forall (fun e => is_Some (se_data e)) (video_of (sq_view q)))
    by (by apply Forall_filter_sub).
  assert (Hda : Forall (fun e => is_Some (se_data e)) (audio_of (sq_view q)))
    by (by apply Forall_filter_sub).
  rewrite sq_frees by done.
  set (V := sq_ptrs (video_of (sq_view q))). set (A := sq_ptrs (audio_of (sq_view q))).
  assert (Hperm : p :: sq_ptrs (sq_view q) ≡ₚ V ++ (p :: A)).
  { rewrite <- Permutation_middle. constructor. unfold V, A.
    rewrite <- sq_ptrs_app. apply omap_Permutation, sq_split_perm. }
  rewrite Hperm in Ho. rewrite (foreign_perm _ _ _ Hperm).
  destruct (owned_free_all _ _ _ Ho) as (Ho1 & Hf1 & Hk1).
  destruct (owned_free_1 _ _ _ Ho1) as (Ho2 & Hf2 & Hk2).
  split; [|split].
  - split; [done|]. by rewrite Hv.
  - unfold sq_abs. rewrite Hv, <- sq_audio_frames. apply sq_frames_ext.
    intros r Hr. rewrite Hk2 by done. apply Hk1. by right.
  - unfold sq_foreign. rewrite Hv. fold A. by rewrite Hf2, Hf1.
Qed.

Lemma sq_abs_length q h : length (sq_abs q h) = sq_count q.
Proof. unfold sq_abs. by rewrite length_fmap, sq_view_length. Qed.

(** A queue whose entries and indices agree denotes the same sequence; the
    counters and the shutdown flag play no part in it. *)
Lemma sq_owned_same q q' h :
  (sq_entries q', sq_head q', sq_tail q', sq_count q') =
  (sq_entries q, sq_head q, sq_tail q, sq_count q) ->
  sq_owned q h -> sq_owned q' h /\ sq_abs q' h = sq_abs q h /\ sq_foreign q' h = sq_foreign q h.
Proof.
  intros E. injection E as E1 E2 E3 E4.
  unfold sq_owned, sq_wf, sq_abs, sq_foreign, sq_view. rewrite E1, E2, E3, E4. done.
Qed.

Lemma sq_push_video_ok alloc_ok q h data rtp_ts capture_us sei is_h265 :
  sq_owned q h ->
  let f := mk_rsd_frame (sendq_video_copy data sei is_h265)
             (u32 (Z.of_nat (length data) + Z.of_nat (length sei)))
             rtp_ts capture_us RSD_FRAME_VIDEO 0 in
  let '(r, q', h') := rsd_sendq_push_video alloc_ok q h data rtp_ts capture_us sei is_h265 in
  sq_owned q' h' /\
  (r, sq_abs q' h') = spec_push_video (alloc_ok && negb (sq_shutdown q)) (sq_abs q h) f /\
  sq_foreign q' h' = sq_foreign q h.
Proof.
  intros Ho f. unfold rsd_sendq_push_video, spec_push_video.
  destruct alloc_ok; [|done]. cbn [negb andb].
  rewrite sq_abs_length. rewrite (surjective_pairing (heap_alloc _ h)).
  destruct (sq_shutdown q).
  { destruct (sq_alloc_free_owned q h (sendq_video_copy data sei is_h265) Ho) as (? & Ha & ?).
    by rewrite Ha. }
  cbn [negb]. pose proof Ho as (Hwf & Hd & Hown).
  destruct (owned_alloc (sendq_video_copy data sei is_h265) _ _ Hown) as (Ho1 & Hf1 & Hb1 & Hk1).
  set (p := fst (heap_alloc _ h)) in *. set (h1 := snd (heap_alloc _ h)) in *.
  assert (Habs1 : sq_abs q h1 = sq_abs q h) by (by apply sq_frames_ext).
  cbv beta iota zeta.
  destruct (RSD_SENDQ_SLOTS <=? sq_count q)%nat eqn:Hfull.
  - match goal with |- context [sendq_drop_video_locked ?x h1] =>
      destruct (sq_drop_video_spec x h1 Hwf) as (q' & -> & Hwf' & Hv' & _) end.
    destruct (sq_drop_owned q q' h1 p Hd Ho1 Hwf' Hv') as (Ho2 & Ha2 & Hf2).
    edestruct (sq_owned_same q' (q' <| sq_drop_video := u32 (sq_drop_video q' + 1) |>))
      as (Ho3 & Ha3 & Hf3); [done|exact Ho2|].
    split; [exact Ho3|]. split.
    + f_equal. etransitivity; [exact Ha3|]. rewrite Ha2. by rewrite Habs1.
    + etransitivity; [exact Hf3|]. rewrite Hf2. exact Hf1.
  - apply Nat.leb_gt in Hfull.
    set (slot := (sq_entries q !!! sq_head q) <| se_data := Some p |> <| se_len := _ |>
       <| se_rtp_ts := _ |> <| se_capture_us := _ |> <| se_type := _ |> <| se_codec := _ |>).
    destruct (sq_put_owned q h1 slot p Hwf Hfull Hd eq_refl Ho1) as (Ho2 & Ha2 & Hf2).
    split; [done|]. split.
    + rewrite Ha2, Habs1. do 3 f_equal. unfold sq_frame, f. f_equal.
      change (default [] (h_live h1 !! p) = sendq_video_copy data sei is_h265). by rewrite Hb1.
    + by rewrite Hf2.
Qed.

(** C2: on a well formed queue rsd_sendq_push_video is exactly the policy its
    comments state.  A failed allocation or a shut-down queue refuses the frame
    and changes nothing; a full queue discards every queued video frame and the
    incoming one while all queued audio stays, in order, payloads intact;
    otherwise the frame (its SEI spliced in) is appended.  In every case the
    queue's invariant holds again and the set of live blocks outside the queue
    is unchanged: nothing leaks and nothing is freed twice. *)
Theorem rsd_push_video_refines alloc_ok q h data rtp_ts capture_us sei is_h265 :
  sq_owned q h ->
  let f := mk_rsd_frame (sendq_video_copy data sei is_h265)
             (u32 (Z.of_nat (length data) + Z.of_nat (length sei)))
             rtp_ts capture_us RSD_FRAME_VIDEO 0 in
  let '(r, q', h') := rsd_sendq_push_video alloc_ok q h data rtp_ts capture_us sei is_h265 in
  sq_owned q' h' /\
  (r, sq_abs q' h') = spec_push_video (alloc_ok && negb (sq_shutdown q)) (sq_abs q h) f /\
  sq_foreign q' h' = sq_foreign q h.
Proof. exact (sq_push_video_ok alloc_ok q h data rtp_ts capture_us sei is_h265). Qed.

(** Writing the audio slot appends the chunk. *)
Lemma sq_push_slot_owned q h p codec data len rtp_ts capture_us :
  sq_wf q -> (sq_count q < RSD_SENDQ_SLOTS)%nat ->
  Forall (fun e => is_Some (se_data e)) (sq_view q) ->
  owned (p :: sq_ptrs (sq_view q)) h -> h_live h !! p = Some data ->
  let q' := sq_push_audio_slot q p codec len rtp_ts capture_us in
  sq_owned q' h /\
  sq_abs q' h = sq_abs q h ++ [mk_rsd_frame data len rtp_ts capture_us RSD_FRAME_AUDIO codec] /\
  sq_foreign q' h = foreign (p :: sq_ptrs (sq_view q)) h.
Proof.
  intros Hwf Hc Hd Ho Hb. cbv zeta. unfold sq_push_audio_slot.
  match goal with |- context [sq_put q ?e] =>
    destruct (sq_put_owned q h e p Hwf Hc Hd eq_refl Ho) as (Ho2 & Ha2 & Hf2) end.
  split; [done|]. split; [|done]. rewrite Ha2. do 2 f_equal. unfold sq_frame. f_equal.
  change (default [] (h_live h !! p) = data). by rewrite Hb.
Qed.

(** Evicting the oldest audio entry and appending a chunk. *)
Lemma sq_audio_replace_owned q q2 h h1 p i e codec data rtp_ts capture_us :
  Forall (fun e => is_Some (se_data e)) (sq_view q) ->
  owned (p :: sq_ptrs (sq_view q)) h1 -> foreign (p :: sq_ptrs (sq_view q)) h1 = sq_foreign q h ->
  h_live h1 !! p = Some data -> sq_abs q h1 = sq_abs q h ->
  list_find (fun e => Is_true (sq_is_audio e)) (sq_view q) = Some (i, e) ->
  sq_wf q2 -> sq_view q2 = delete i (sq_view q) -> (sq_count q2 < RSD_SENDQ_SLOTS)%nat ->
  let len := u32 (Z.of_nat (length data)) in
  let f := mk_rsd_frame data len rtp_ts capture_us RSD_FRAME_AUDIO codec in
  let h' := heap_free (se_data e) h1 in
  let q' := sq_push_audio_slot q2 p codec len rtp_ts capture_us in
  sq_owned q' h' /\
  (RSD_SENDQ_OK, sq_abs q' h') = (RSD_SENDQ_OK, delete i (sq_abs q h) ++ [f]) /\
  sq_foreign q' h' = sq_foreign q h.
Proof.
  intros Hd Ho1 Hf1 Hb1 Habs1 Hl Hwf2 Hv2 Hc2. cbv zeta.
  apply list_find_Some in Hl as (Hi & _ & _).
  pose proof (proj1 (list.Forall_forall _ _) Hd e (list_elem_of_lookup_2 _ _ _ Hi)) as [r Hr].
  assert (Hperm : p :: sq_ptrs (sq_view q) ≡ₚ r :: p :: sq_ptrs (sq_view q2)).
  { rewrite (delete_Permutation (sq_view q) i e Hi), <- Hv2.
    unfold sq_ptrs at 1. simpl. rewrite Hr. apply perm_swap. }
  rewrite Hperm in Ho1. rewrite (foreign_perm _ _ _ Hperm) in Hf1.
  destruct (owned_free_1 _ _ _ Ho1) as (Ho2 & Hf2 & Hk2). rewrite Hr.
  assert (Hd2 : Forall (fun e => is_Some (se_data e)) (sq_view q2)).
  { rewrite Hv2, delete_take_drop. apply Forall_app. split; [by apply Forall_take|by apply Forall_drop]. }
  assert (Hb2 : h_live (heap_free (Some r) h1) !! p = Some data)
    by (rewrite Hk2; [done|by left]).
  destruct (sq_push_slot_owned q2 _ p codec data (u32 (Z.of_nat (length data))) rtp_ts capture_us
              Hwf2 Hc2 Hd2 Ho2 Hb2) as (Ho3 & Ha3 & Hf3).
  split; [done|]. split.
  - do 2 f_equal. rewrite Ha3. f_equal. rewrite <- Habs1. unfold sq_abs.
    rewrite <- list_fmap_delete, <- Hv2. apply sq_frames_ext.
    intros x Hx. apply Hk2. by right.
  - by rewrite Hf3, Hf2.
Qed.

Lemma sq_push_audio_ok alloc_ok q h codec data rtp_ts capture_us :
  sq_owned q h ->
  let f := mk_rsd_frame data (u32 (Z.of_nat (length data))) rtp_ts capture_us
             RSD_FRAME_AUDIO codec in
  let '(r, q', h') := rsd_sendq_push_audio alloc_ok q h codec data rtp_ts capture_us in
  sq_owned q' h' /\
  (r, sq_abs q' h') = spec_push_audio (alloc_ok && negb (sq_shutdown q)) (sq_abs q h) f /\
  sq_foreign q' h' = sq_foreign q h.
Proof.
  intros Ho f. unfold rsd_sendq_push_audio, spec_push_audio.
  destruct alloc_ok; [|done]. cbn [negb andb].
  rewrite sq_abs_length. rewrite (surjective_pairing (heap_alloc _ h)).
  destruct (sq_shutdown q).
  { destruct (sq_alloc_free_owned q h data Ho) as (? & Ha & ?). by rewrite Ha. }
  cbn [negb]. pose proof Ho as (Hwf & Hd & Hown).
  destruct (owned_alloc data _ _ Hown) as (Ho1 & Hf1 & Hb1 & Hk1).
  set (p := fst (heap_alloc _ h)) in *. set (h1 := snd (heap_alloc _ h)) in *.
  assert (Habs1 : sq_abs q h1 = sq_abs q h) by (by apply sq_frames_ext).
  cbv beta iota zeta.
  destruct (RSD_SENDQ_SLOTS <=? sq_count q)%nat eqn:Hfull.
  - match goal with |- context [rsd_sendq_take_audio_locked ?x] =>
      pose proof (sq_take_audio_spec x Hwf) as Ht; set (q1 := x) in * end.
    change (sq_view q1) with (sq_view q) in Ht.
    assert (Hfind : list_find (fun f => Is_true (frame_is_audio f)) (sq_abs q h) =
      prod_map id (sq_frame h) <$> list_find (fun e => Is_true (sq_is_audio e)) (sq_view q))
      by exact (list_find_fmap (sq_frame h) (fun f => Is_true (frame_is_audio f)) (sq_view q)).
    rewrite Hfind. unfold remove_first_audio in Ht.
    destruct (rsd_sendq_take_audio_locked q1) as [[e|] q2],
      (list_find _ (sq_view q)) as [[i e']|] eqn:Hl; try done; cbn [fmap option_fmap option_map].
    + destruct Ht as (<- & Hwf2 & Hv2 & Hc2 & _).
      apply (sq_audio_replace_owned q q2 h h1 p i e codec data rtp_ts capture_us); try done.
    + subst q2.
      edestruct (sq_owned_same q q1) as (Ho3 & Ha3 & Hf3);
        [done|apply (sq_alloc_free_owned q h data Ho)|].
      destruct (sq_alloc_free_owned q h data Ho) as (_ & Ha4 & Hf4).
      split; [exact Ho3|]. split.
      * f_equal. etransitivity; [exact Ha3|exact Ha4].
      * etransitivity; [exact Hf3|exact Hf4].
  - apply Nat.leb_gt in Hfull.
    destruct (sq_push_slot_owned q h1 p codec data (u32 (Z.of_nat (length data))) rtp_ts
                capture_us Hwf Hfull Hd Ho1 Hb1) as (Ho2 & Ha2 & Hf2).
    split; [done|]. split; [by rewrite Ha2, Habs1|]. by rewrite Hf2.
Qed.

(** Rsd_sendq_push_audio on a full queue discards the oldest queued audio
    chunk and nothing else (never a video frame), appends the new chunk, and
    refuses the new chunk only when the queue holds no audio at all; on a queue
    with room it appends.  Invariant, payloads and foreign blocks as for video. *)
Theorem rsd_push_audio_refines alloc_ok q h codec data rtp_ts capture_us :
  sq_owned q h ->
  let f := mk_rsd_frame data (u32 (Z.of_nat (length data))) rtp_ts capture_us
             RSD_FRAME_AUDIO codec in
  let '(r, q', h') := rsd_sendq_push_audio alloc_ok q h codec data rtp_ts capture_us in
  sq_owned q' h' /\
  (r, sq_abs q' h') = spec_push_audio (alloc_ok && negb (sq_shutdown q)) (sq_abs q h) f /\
  sq_foreign q' h' = sq_foreign q h.
Proof. exact (sq_push_audio_ok alloc_ok q h codec data rtp_ts capture_us). Qed.

(** Dequeuing hands the oldest frame over and keeps the rest. *)
Lemma sq_pop_ok q h e q' :
  sq_owned q h -> rsd_sendq_pop q = Some (e, q') ->
  let h' := heap_free (se_data e) h in
  sq_owned q' h' /\ sq_abs q h = sq_frame h e :: sq_abs q' h' /\
  sq_foreign q' h' = sq_foreign q h.
Proof.
  intros (Hwf & Hd & Ho) Hp. unfold rsd_sendq_pop in Hp.
  destruct (sq_shutdown q); [done|]. destruct (sq_count q) as [|c] eqn:Hc; [done|].
  destruct (sq_advance_wf q c ((sq_entries q !!! sq_tail q) <| se_data := None |>) Hwf Hc)
    as [Hwf' Hv]. cbv zeta.
  injection Hp as <- <-. set (q' := q <| sq_entries := _ |> <| sq_tail := _ |> <| sq_count := _ |>) in *.
  set (e := sq_entries q !!! sq_tail q) in *.
  rewrite Hv in Hd, Ho. apply list.Forall_cons in Hd as [[p Hp] Hd].
  assert (Hptr : sq_ptrs (e :: sq_view q') = p :: sq_ptrs (sq_view q'))
    by (unfold sq_ptrs; simpl; by rewrite Hp).
  rewrite Hptr in Ho. destruct (owned_free_1 _ _ _ Ho) as (Ho2 & Hf2 & Hk2).
  rewrite Hp. split; [done|]. split.
  - unfold sq_abs. rewrite Hv, fmap_cons. f_equal. symmetry. by apply sq_frames_ext.
  - unfold sq_foreign. rewrite Hv, Hptr. exact Hf2.
Qed.

(** The interleaved drain: the oldest audio frame is handed over. *)
Lemma sq_take_ok q h e q' :
  sq_owned q h -> rsd_sendq_take_audio_locked q = (Some e, q') ->
  let h' := heap_free (se_data e) h in
  sq_owned q' h' /\ sq_foreign q' h' = sq_foreign q h /\
  sq_is_audio e = true /\
  exists i, sq_abs q h !! i = Some (sq_frame h e) /\ sq_abs q' h' = delete i (sq_abs q h).
Proof.
  intros (Hwf & Hd & Ho) Ht. pose proof (sq_take_audio_spec q Hwf) as Hs.
  rewrite Ht in Hs. unfold remove_first_audio in Hs.
  destruct (list_find _ (sq_view q)) as [[i e']|] eqn:Hl; [|done].
  destruct Hs as (<- & Hwf2 & Hv2 & _). apply list_find_Some in Hl as (Hi & Ha & _).
  pose proof (proj1 (list.Forall_forall _ _) Hd e (list_elem_of_lookup_2 _ _ _ Hi)) as [r Hr].
  assert (Hperm : sq_ptrs (sq_view q) ≡ₚ r :: sq_ptrs (sq_view q')).
  { rewrite (delete_Permutation (sq_view q) i e Hi), <- Hv2.
    unfold sq_ptrs at 1. simpl. by rewrite Hr. }
  rewrite Hperm in Ho. destruct (owned_free_1 _ _ _ Ho) as (Ho2 & Hf2 & Hk2).
  cbv zeta. rewrite Hr. split; [|split; [|split]].
  - split; [done|]. split; [|done]. rewrite Hv2, delete_take_drop.
    apply Forall_app. split; [by apply Forall_take|by apply Forall_drop].
  - unfold sq_foreign. by rewrite Hf2, (foreign_perm _ _ _ Hperm).
  - by apply Is_true_eq_true.
  - exists i. split; [unfold sq_abs; by rewrite list_lookup_fmap, Hi|].
    unfold sq_abs. rewrite <- list_fmap_delete, <- Hv2. by apply sq_frames_ext.
Qed.

(** ** The empty queue, and witnesses *)

(** The loop of rsd_sendq_destroy empties the ring within its fuel and frees
    exactly the payloads it owned. *)
Lemma sq_destroy_ok n q h :
  sq_owned q h -> sq_count q = n ->
  let '(q', h') := sendq_destroy_loop n q h in
  sq_count q' = 0%nat /\ heap_wf h' /\ dom (h_live h') = sq_foreign q h.
Proof.
  revert q h. induction n as [|n IH]; intros q h Ho Hc; cbn [sendq_destroy_loop].
  - split; [done|]. destruct Ho as (_ & _ & Hw & _). split; [done|].
    unfold sq_foreign, sq_view. rewrite Hc. unfold foreign. cbn. set_solver.
  - rewrite Hc. pose proof Ho as (Hwf & Hd & Hown).
    destruct (sq_advance_wf q n ((sq_entries q !!! sq_tail q) <| se_data := None |>) Hwf Hc)
      as [Hwf' Hv].
    rewrite Hv in Hd, Hown. apply list.Forall_cons in Hd as [[p Hp] Hd].
    cbn [sq_ptrs omap list_omap] in Hown. rewrite Hp in Hown.
    destruct (owned_free_1 _ _ _ Hown) as (Hown' & Hf & _).
    unfold rsd_sendq_release_entry. rewrite Hp.
    match goal with |- context [sendq_destroy_loop n ?q1 ?h1] =>
      pose proof (IH q1 h1 (conj Hwf' (conj Hd Hown')) eq_refl) as HI;
      destruct (sendq_destroy_loop n q1 h1) as [q' h'] end.
    destruct HI as (? & ? & HI). split; [done|]. split; [done|]. rewrite HI.
    unfold sq_foreign at 2. rewrite Hv. cbn [sq_ptrs omap list_omap]. rewrite Hp. exact Hf.
Qed.

Definition heap_empty : heap := mkheap ∅ 0 false.

Lemma heap_empty_wf : heap_wf heap_empty.
Proof. split; [done|]. intros. apply lookup_empty. Qed.

Lemma sq_init_owned h : heap_wf h -> sq_owned rsd_sendq_init h.
Proof.
  intros Hh. split; [|split; [constructor|]].
  - repeat split; simpl; unfold RSD_SENDQ_SLOTS; lia.
  - split; [done|]. split; constructor.
Qed.

Lemma rsd_push_video_refines_witness :
  let '(r, q', h') :=
    rsd_sendq_push_video true rsd_sendq_init heap_empty [0; 0; 0; 1; 0x65; 9] 90 7 [1; 2] false in
  sq_owned q' h' /\
  (r, sq_abs q' h') = (RSD_SENDQ_OK, [mk_rsd_frame [1; 2; 0; 0; 0; 1; 0x65; 9] 8 90 7 0 0]) /\
  sq_foreign q' h' = ∅.
Proof.
  exact (rsd_push_video_refines true rsd_sendq_init heap_empty [0; 0; 0; 1; 0x65; 9] 90 7 [1; 2]
           false (sq_init_owned _ heap_empty_wf)).
Defined.

Lemma rsd_push_audio_refines_witness :
  let '(r, q', h') := rsd_sendq_push_audio true rsd_sendq_init heap_empty 8 [5; 6] 90 7 in
  sq_owned q' h' /\
  (r, sq_abs q' h') = (RSD_SENDQ_OK, [mk_rsd_frame [5; 6] 2 90 7 1 8]) /\
  sq_foreign q' h' = ∅.
Proof.
  exact (rsd_push_audio_refines true rsd_sendq_init heap_empty 8 [5; 6] 90 7
           (sq_init_owned _ heap_empty_wf)).
Defined.

(** rsd_sendq_destroy terminates with an empty ring, frees every payload
    still queued exactly once, and no block that belongs to somebody else. *)
Theorem rsd_sendq_destroy_frees_all q h :
  sq_owned q h ->
  let '(q', h') := rsd_sendq_destroy q h in
  sq_count q' = 0%nat /\ heap_wf h' /\ dom (h_live h') = sq_foreign q h.
Proof. intros Ho. by apply sq_destroy_ok. Qed.

Lemma rsd_sendq_destroy_frees_all_witness :
  let '(_, q, h) := rsd_sendq_push_video true rsd_sendq_init heap_empty [0; 0; 1; 5] 90 1 [] false in
  let '(q', h') := rsd_sendq_destroy q h in
  sq_count q = 1%nat /\ sq_count q' = 0%nat /\ heap_wf h' /\ dom (h_live h') = sq_foreign q h.
Proof.
  pose proof (sq_push_video_ok true rsd_sendq_init heap_empty [0; 0; 1; 5] 90 1 [] false
    (sq_init_owned _ heap_empty_wf)) as H.
  destruct (rsd_sendq_push_video _ _ _ _ _ _ _ _) as [[r q] h] eqn:E.
  assert (Hc : sq_count q = 1%nat).
  { apply (f_equal (fun x => sq_count (snd (fst x)))) in E. cbn [fst snd] in E. rewrite <- E. by vm_compute. }
  destruct H as (Ho & _). pose proof (rsd_sendq_destroy_frees_all q h Ho) as Hf.
  destruct (rsd_sendq_destroy q h) as [q' h']. split; [exact Hc|exact Hf].
Defined.

(** ** The SEI splice point *)

(** A 4-byte start code followed by a VCL NAL header at offset [i]. *)
Definition vcl_at (data : list Z) (is_h265 : bool) (i : nat) : Prop :=
  exists e rest, drop i data = 0 :: 0 :: 0 :: 1 :: e :: rest /\ is_vcl e is_h265 = true.

Lemma vcl_at_cons a l is_h265 i : vcl_at (a :: l) is_h265 (S i) <-> vcl_at l is_h265 i.
Proof. done. Qed.

Lemma first_vcl_scan_5 a b c d e l off is_h265 :
  first_vcl_scan (a :: b :: c :: d :: e :: l) off is_h265 =
  if (a =? 0) && (b =? 0) && (c =? 0) && (d =? 1) then
    if is_vcl e is_h265 then Some off else first_vcl_scan (e :: l) (off + 4) is_h265
  else first_vcl_scan (b :: c :: d :: e :: l) (S off) is_h265.
Proof. reflexivity. Qed.

Lemma first_vcl_scan_spec l off is_h265 :
  match first_vcl_scan l off is_h265 with
  | Some n => exists k, n = (off + k)%nat /\ vcl_at l is_h265 k /\
                forall i, (i < k)%nat -> ~ vcl_at l is_h265 i
  | None => forall i, ~ vcl_at l is_h265 i
  end.
Proof.
  revert off. induction l as [l IH] using (induction_ltof1 _ (@length Z)); intros off.
  assert (Hshort : (length l < 5)%nat -> forall i, ~ vcl_at l is_h265 i).
  { intros Hs i (e & rest & E & _). apply (f_equal length) in E.
    rewrite length_drop in E. simpl in E. lia. }
  destruct l as [|a [|b [|c [|d [|e l]]]]]; try exact (Hshort ltac:(simpl; lia)).
  clear Hshort. rewrite first_vcl_scan_5.
  destruct ((a =? 0) && (b =? 0) && (c =? 0) && (d =? 1)) eqn:Hsc.
  - bool_to_prop. subst. destruct (is_vcl e is_h265) eqn:Hv.
    + exists 0%nat. split; [lia|]. split; [by exists e, l|]. lia.
    + assert (Hno : forall i, (i < 4)%nat -> ~ vcl_at (0 :: 0 :: 0 :: 1 :: e :: l) is_h265 i).
      { intros i Hi (e' & rest & E & Hv').
        destruct i as [|[|[|[|i]]]]; simpl in E; simplify_eq; lia || congruence. }
      specialize (IH (e :: l) ltac:(unfold ltof; simpl; lia) (off + 4)%nat).
      destruct (first_vcl_scan (e :: l) (off + 4) is_h265) as [n|].
      * destruct IH as (k & -> & Hk & Hmin). exists (4 + k)%nat. split; [lia|]. split; [done|].
        intros i Hi Hv'. destruct (decide (i < 4)%nat); [by eapply Hno|].
        apply (Hmin (i - 4)%nat); [lia|]. replace i with (4 + (i - 4))%nat in Hv' by lia. done.
      * intros i Hv'. destruct (decide (i < 4)%nat); [by eapply Hno|].
        apply (IH (i - 4)%nat). replace i with (4 + (i - 4))%nat in Hv' by lia. done.
  - assert (H0 : ~ vcl_at (a :: b :: c :: d :: e :: l) is_h265 0).
    { intros (e' & rest & E & _). simpl in E. simplify_eq. }
    specialize (IH (b :: c :: d :: e :: l) ltac:(unfold ltof; simpl; lia) (S off)).
    destruct (first_vcl_scan (b :: c :: d :: e :: l) (S off) is_h265) as [n|].
    + destruct IH as (k & -> & Hk & Hmin). exists (S k). split; [lia|]. split; [done|].
      intros [|i] Hi; [done|]. rewrite vcl_at_cons. apply Hmin. lia.
    + intros [|i]; [done|]. rewrite vcl_at_cons. apply IH.
Qed.

(** The timecode SEI is spliced at the first VCL NAL the frame has: what
    precedes it (parameter sets, earlier SEI) and what follows are the frame's
    bytes unchanged, no 4-byte start code before the splice introduces a VCL
    NAL, and one does right after it unless the frame has none at all, when the
    SEI goes to the end.  The scan's four-byte skip misses nothing. *)
Theorem rsd_sei_splice_first_vcl data sei is_h265 :
  let off := first_vcl_offset data is_h265 in
  sendq_video_copy data sei is_h265 = take off data ++ sei ++ drop off data /\
  (forall i, (i < off)%nat -> ~ vcl_at data is_h265 i) /\
  (vcl_at data is_h265 off \/ off = length data /\ forall i, ~ vcl_at data is_h265 i).
Proof.
  cbv zeta. split.
  { unfold sendq_video_copy. destruct sei as [|s sei]; [|done].
    simpl. by rewrite take_drop. }
  unfold first_vcl_offset. pose proof (first_vcl_scan_spec data 0 is_h265) as Hs.
  destruct (first_vcl_scan data 0 is_h265) as [n|]; simpl.
  - destruct Hs as (k & -> & Hk & Hmin). simpl. auto.
  - auto.
Qed.
