(* ===== verification/RsdReader.v ===== *)
(** * rsd: the video reader's per-client step (rsd/rsd_ring_reader.c)

    The reader thread hands every ring frame to each playing client: a client
    that waits for a keyframe skips inter frames, timestamps are kept strictly
    increasing, and an overflowing send queue re-arms the wait and asks for an
    IDR, rate limited by rsd_idr_recovery.h.  The composition with the send
    thread (rsd_sendq_pop, the interleaved audio drain) is a step relation;
    its invariant is that the client's decoder never meets a frame whose
    reference was dropped. *)

From Stdlib Require Import Sorting.Sorted.
From stdpp Require Import gmap list.
From S2P Require Import Prelude Ring Gate RsdSendq.

(** ** IDR recovery (rsd/rsd_idr_recovery.h) *)

Definition RSD_IDR_RECOVERY_MIN_INTERVAL_US : Z := 1000000.

Record rsd_idr_recovery := mk_rsd_idr_recovery {
  ir_last_event_us : Z;
  ir_has_event : bool
}.

Definition rsd_idr_recovery_init : rsd_idr_recovery := mk_rsd_idr_recovery 0 false.

Definition rsd_idr_recovery_note (st : rsd_idr_recovery) (now_us : Z) : rsd_idr_recovery :=
  mk_rsd_idr_recovery
    (if negb (ir_has_event st) || (now_us >? ir_last_event_us st)
     then now_us else ir_last_event_us st)
    true.

Definition rsd_idr_recovery_request_due (st : rsd_idr_recovery) (now_us : Z) : bool :=
  negb (ir_has_event st) ||
  (now_us - ir_last_event_us st >? RSD_IDR_RECOVERY_MIN_INTERVAL_US).

(** [rsd_maybe_request_idr]: whether the ring was asked, and the new state. *)
Definition rsd_maybe_request_idr (st : rsd_idr_recovery) (now_us : Z)
    : bool * rsd_idr_recovery :=
  if rsd_idr_recovery_request_due st now_us then (true, rsd_idr_recovery_note st now_us)
  else (false, st).

(** ** RTP timestamps *)

(** [if (has_last && (int32_t)(ts - last) <= 0) ts = last + frame_dur]. *)
Definition rtp_advance (has_last : bool) (last ts frame_dur : Z) : Z :=
  if has_last && (s32 (u32 (ts - last)) <=? 0) then u32 (last + frame_dur) else ts.

(** The 90 kHz stamp of a frame captured [us] after the epoch. *)
Definition video_rtp_ts (us : Z) : Z := u32 (u64 (u64 us * 90000) / 1000000).

(** Serial-number advance: the result is after [last] and keeps a fresh stamp. *)
Lemma rtp_advance_spec has_last last t frame_dur (P : Prop) v :
  0 < frame_dur < 2 ^ 31 -> in_u 32 last -> (P -> t = v) ->
  let ts := rtp_advance has_last last (u32 t) frame_dur in
  in_u 32 ts /\ (has_last = true -> 0 < s32 (u32 (ts - last))) /\
  (has_last = false -> P -> ts = u32 v).
Proof.
  intros Hfd Hl Hv ts. unfold ts, rtp_advance. destruct has_last; simpl.
  - destruct (_ <=? 0) eqn:E; bool_to_prop; (split; [cint|]); (split; [|done]); [|by intros].
    intros _. unfold Z.sub. rewrite uwrap_add_l. replace (last + frame_dur + - last) with frame_dur by lia.
    rewrite uwrap_id, swrap_id by (unfold in_u, in_s; lia). lia.
  - split; [cint|]. split; [done|]. intros _ HP. by rewrite (Hv HP).
Qed.

(** ** The client *)

Record rsd_client := mk_rsd_client {
  cl_playing : bool;             (* c->video.playing and the stream matches *)
  cl_jpeg : bool;                (* c->video.jpeg != NULL *)
  cl_waiting_keyframe : bool;
  cl_video_ts_base_set : bool;
  cl_video_ts_offset : Z;
  cl_video_ts_rand : Z;
  cl_has_last_video_client_ts : bool;
  cl_last_video_client_ts : Z;
  cl_sendq : rsd_sendq
}.

#[export] Instance eta_rsd_client : Settable rsd_client :=
  fun c => mk_rsd_client (cl_playing c) (cl_jpeg c) (cl_waiting_keyframe c)
    (cl_video_ts_base_set c) (cl_video_ts_offset c) (cl_video_ts_rand c)
    (cl_has_last_video_client_ts c) (cl_last_video_client_ts c) (cl_sendq c).

(** One ring frame as the reader has prepared it for the client loop. *)
Record ring_frame := mk_ring_frame {
  rf_data : list Z;
  rf_is_key : bool;
  rf_rtp_ts : Z;
  rf_capture_us : Z;
  rf_sei : list Z;
  rf_is_h265 : bool
}.

(** The body of the client loop for one client, up to the IDR request of the
    overflow branch: the verdict of the push, [None] when the frame never
    reaches the queue. *)
Definition rsd_client_video_frame (alloc_ok : bool) (frame_dur : Z) (f : ring_frame)
    (c : rsd_client) (h : heap) : option Z * rsd_client * heap :=
  if negb (cl_playing c) then (None, c, h) else
  if cl_waiting_keyframe c && negb (rf_is_key f) then (None, c, h) else
  let c := c <| cl_waiting_keyframe := false |> in
  let c := if cl_video_ts_base_set c then c
           else c <| cl_video_ts_offset := rf_rtp_ts f |> <| cl_video_ts_base_set := true |> in
  let client_ts := u32 (rf_rtp_ts f - cl_video_ts_offset c + cl_video_ts_rand c) in
  let client_ts := rtp_advance (cl_has_last_video_client_ts c) (cl_last_video_client_ts c)
                     client_ts frame_dur in
  let c := c <| cl_last_video_client_ts := client_ts |> <| cl_has_last_video_client_ts := true |> in
  let '(qret, q, h) := rsd_sendq_push_video alloc_ok (cl_sendq c) h (rf_data f) client_ts
                         (rf_capture_us f) (rf_sei f) (rf_is_h265 f) in
  let c := c <| cl_sendq := q |> in
  let c := if qret =? RSD_SENDQ_DROPPED
           then c <| cl_waiting_keyframe := negb (cl_jpeg c) |> else c in
  (Some qret, c, h).

(** The client loop: [env i] is what [malloc] and the clock give while client
    [i] is served.  Also returned: the times the ring was asked for an IDR. *)
Fixpoint rsd_video_fanout (env : nat -> bool * Z) (frame_dur : Z) (f : ring_frame)
    (i : nat) (cs : list rsd_client) (rec : rsd_idr_recovery) (h : heap)
    : list Z * list rsd_client * rsd_idr_recovery * heap :=
  match cs with
  | [] => ([], [], rec, h)
  | c :: cs =>
      let '(qret, c, h) := rsd_client_video_frame (fst (env i)) frame_dur f c h in
      let '(asked, rec) :=
        match qret with
        | Some r => if r =? RSD_SENDQ_DROPPED then rsd_maybe_request_idr rec (snd (env i))
                    else (false, rec)
        | None => (false, rec)
        end in
      let '(ts, cs, rec, h) := rsd_video_fanout env frame_dur f (S i) cs rec h in
      (if asked then snd (env i) :: ts else ts, c :: cs, rec, h)
  end.

(** ** The reader thread *)

Record rsd_reader := mk_rsd_reader {
  rd_ts_epoch : Z;
  rd_last_rtp_ts : Z;
  rd_has_last_rtp_ts : bool;
  rd_idr_recovery : rsd_idr_recovery;
  rd_clients : list rsd_client
}.

#[export] Instance eta_rsd_reader : Settable rsd_reader :=
  fun r => mk_rsd_reader (rd_ts_epoch r) (rd_last_rtp_ts r) (rd_has_last_rtp_ts r)
    (rd_idr_recovery r) (rd_clients r).

(** [uint32_t fps = num > 0 && den > 0 ? num / den : 30; 90000 / fps], [None]
    when the division traps. *)
Definition rsd_frame_dur (fps_num fps_den : Z) : option Z :=
  let fps := if (0 <? fps_num) && (0 <? fps_den) then fps_num / fps_den else 30 in
  if fps =? 0 then None else Some (90000 / fps).

(** What one pass of the burst loop gets out of the ring. *)
Inductive ring_read :=
  | RingFrame (timestamp : Z) (is_key : bool) (data : list Z) (capture_mono_us : Z)
      (sei : list Z) (is_h265 : bool) (read_now_us : Z)
  | RingOverflow (skipped : Z) (now_us : Z)
  | RingNone.

(** One pass of the burst loop: the IDR requests it makes, and the new state.
    An overflow without progress closes the ring and asks for nothing. *)
Definition rsd_reader_pass (env : nat -> bool * Z) (frame_dur : Z) (ev : ring_read)
    (rd : rsd_reader) (h : heap) : list Z * rsd_reader * heap :=
  match ev with
  | RingNone => ([], rd, h)
  | RingOverflow skipped now_us =>
      if skipped =? 0 then ([], rd, h) else
      let '(asked, rec) := rsd_maybe_request_idr (rd_idr_recovery rd) now_us in
      (if asked then [now_us] else [], rd <| rd_idr_recovery := rec |>, h)
  | RingFrame timestamp is_key data capture sei is_h265 read_now_us =>
      let rd := if rd_ts_epoch rd =? 0 then rd <| rd_ts_epoch := timestamp |> else rd in
      let rtp_ts := rtp_advance (rd_has_last_rtp_ts rd) (rd_last_rtp_ts rd)
                      (video_rtp_ts (timestamp - rd_ts_epoch rd)) frame_dur in
      let rd := rd <| rd_last_rtp_ts := rtp_ts |> <| rd_has_last_rtp_ts := true |> in
      let rd := if is_key
                then rd <| rd_idr_recovery :=
                           rsd_idr_recovery_note (rd_idr_recovery rd) read_now_us |>
                else rd in
      let f := mk_ring_frame data is_key rtp_ts capture sei is_h265 in
      let '(ts, cs, rec, h) :=
        rsd_video_fanout env frame_dur f 0 (rd_clients rd) (rd_idr_recovery rd) h in
      (ts, rd <| rd_clients := cs |> <| rd_idr_recovery := rec |>, h)
  end.

(** A run of passes, each with the outcomes its allocations and clock give. *)
Fixpoint rsd_reader_run (frame_dur : Z) (evs : list (ring_read * (nat -> bool * Z)))
    (rd : rsd_reader) (h : heap) : list Z * rsd_reader * heap :=
  match evs with
  | [] => ([], rd, h)
  | (ev, env) :: evs =>
      let '(ts, rd, h) := rsd_reader_pass env frame_dur ev rd h in
      let '(ts', rd, h) := rsd_reader_run frame_dur evs rd h in
      (ts ++ ts', rd, h)
  end.

(** ** IDR requests are rate limited *)

(** The recovery state and requests over a run of events: [inl t] a keyframe
    noted at [t], [inr t] a recovery attempt at [t]. *)
Fixpoint idr_run (st : rsd_idr_recovery) (evs : list (Z + Z)) : list Z * rsd_idr_recovery :=
  match evs with
  | [] => ([], st)
  | inl t :: evs => idr_run (rsd_idr_recovery_note st t) evs
  | inr t :: evs =>
      let '(asked, st) := rsd_maybe_request_idr st t in
      let '(ts, st) := idr_run st evs in (if asked then t :: ts else ts, st)
  end.

Lemma idr_run_app st e1 e2 :
  idr_run st (e1 ++ e2) =
  let '(t1, st1) := idr_run st e1 in let '(t2, st2) := idr_run st1 e2 in (t1 ++ t2, st2).
Proof.
  revert st. induction e1 as [|[u|u] e1 IH]; intros st; cbn [app idr_run].
  - by destruct (idr_run st e2).
  - apply IH.
  - destruct (rsd_maybe_request_idr st u) as [a st1]. rewrite IH.
    destruct (idr_run st1 e1) as [t1 st2], (idr_run st2 e2), a; done.
Qed.

Lemma idr_run_after st evs t :
  ir_has_event st = true -> t ∈ fst (idr_run st evs) ->
  t - ir_last_event_us st > RSD_IDR_RECOVERY_MIN_INTERVAL_US.
Proof.
  revert st. induction evs as [|[u|u] evs IH]; intros st Hst Ht; cbn [idr_run] in Ht.
  - by apply not_elem_of_nil in Ht.
  - apply IH in Ht; [|done]. simpl in Ht. rewrite Hst in Ht. simpl in Ht.
    destruct (u >? ir_last_event_us st) eqn:E; bool_to_prop; lia.
  - unfold rsd_maybe_request_idr, rsd_idr_recovery_request_due in Ht. rewrite Hst in Ht.
    cbn [negb orb] in Ht. destruct (_ >? _) eqn:E; bool_to_prop.
    + destruct (idr_run (rsd_idr_recovery_note st u) evs) as [ts st'] eqn:Er.
      apply elem_of_cons in Ht as [->|Ht]; [lia|].
      specialize (IH (rsd_idr_recovery_note st u) eq_refl). rewrite Er in IH. apply IH in Ht.
      simpl in Ht. rewrite Hst in Ht. simpl in Ht.
      destruct (u >? ir_last_event_us st) eqn:E'; bool_to_prop;
        unfold RSD_IDR_RECOVERY_MIN_INTERVAL_US in *; lia.
    + specialize (IH st Hst). destruct (idr_run st evs). by apply IH.
Qed.

Lemma idr_run_spaced st evs :
  Sorted (fun a b => b - a > RSD_IDR_RECOVERY_MIN_INTERVAL_US) (fst (idr_run st evs)).
Proof.
  revert st. induction evs as [|[u|u] evs IH]; intros st; cbn [idr_run]; [constructor|apply IH|].
  unfold rsd_maybe_request_idr. destruct (rsd_idr_recovery_request_due st u) eqn:Hdue.
  2:{ specialize (IH st). by destruct (idr_run st evs). }
  specialize (IH (rsd_idr_recovery_note st u)).
  pose proof (fun t => idr_run_after (rsd_idr_recovery_note st u) evs t eq_refl) as Ha.
  destruct (idr_run (rsd_idr_recovery_note st u) evs) as [[|t ts] st'];
    (constructor; [done|]); constructor.
  specialize (Ha t (list_elem_of_here _ _)). simpl in Ha.
  unfold rsd_idr_recovery_request_due in Hdue.
  destruct (ir_has_event st); simpl in *; [|lia].
  destruct (u >? ir_last_event_us st) eqn:E2; bool_to_prop;
    unfold RSD_IDR_RECOVERY_MIN_INTERVAL_US in *; lia.
Qed.

(** The client loop and the passes of the reader make exactly such a run. *)
Lemma rsd_fanout_idr env fd f i cs rec h :
  exists evs, let '(ts, _, rec', _) := rsd_video_fanout env fd f i cs rec h in
  idr_run rec evs = (ts, rec').
Proof.
  revert i rec h. induction cs as [|c cs IH]; intros i rec h; cbn [rsd_video_fanout].
  { by exists []. }
  destruct (rsd_client_video_frame _ _ _ _ _) as [[qret c'] h'].
  destruct (match qret with Some r => _ | None => _ end) as [asked rec1] eqn:Hq.
  destruct (IH (S i) rec1 h') as [evs He].
  destruct (rsd_video_fanout env fd f (S i) cs rec1 h') as [[[ts cs'] rec'] h''].
  destruct qret as [r|]; [destruct (r =? RSD_SENDQ_DROPPED)|].
  - exists (inr (snd (env i)) :: evs). cbn [idr_run]. by rewrite Hq, He.
  - simplify_eq. by exists evs.
  - simplify_eq. by exists evs.
Qed.

Lemma rsd_pass_idr env fd ev rd h :
  exists evs, let '(ts, rd', _) := rsd_reader_pass env fd ev rd h in
  idr_run (rd_idr_recovery rd) evs = (ts, rd_idr_recovery rd').
Proof.
  destruct ev as [t key d cap sei hv now|sk now|]; cbn [rsd_reader_pass]; [| |by exists []].
  - match goal with |- context [rsd_video_fanout env fd ?f 0 ?cs ?rec h] =>
      destruct (rsd_fanout_idr env fd f 0 cs rec h) as [evs He];
      destruct (rsd_video_fanout env fd f 0 cs rec h) as [[[ts cs'] rec'] h'] end.
    exists (if key then inl now :: evs else evs).
    destruct key, (rd_ts_epoch rd =? 0); exact He.
  - destruct (sk =? 0); [by exists []|]. exists [inr now]. cbn [idr_run].
    by destruct (rsd_maybe_request_idr (rd_idr_recovery rd) now) as [[] rec].
Qed.

Lemma rsd_run_idr fd evs rd h :
  exists es, let '(ts, rd', _) := rsd_reader_run fd evs rd h in
  idr_run (rd_idr_recovery rd) es = (ts, rd_idr_recovery rd').
Proof.
  revert rd h. induction evs as [|[ev env] evs IH]; intros rd h; cbn [rsd_reader_run].
  { by exists []. }
  destruct (rsd_pass_idr env fd ev rd h) as [e1 H1].
  destruct (rsd_reader_pass env fd ev rd h) as [[ts rd1] h1].
  destruct (IH rd1 h1) as [e2 H2]. destruct (rsd_reader_run fd evs rd1 h1) as [[ts' rd2] h2].
  exists (e1 ++ e2). by rewrite idr_run_app, H1, H2.
Qed.

(** Over any run of the reader thread (frames fanned out to any number of
    clients, ring overflows, allocation failures, any clock) two IDR requests
    are always more than one second apart. *)
Theorem rsd_idr_requests_spaced frame_dur evs rd h :
  let '(ts, _, _) := rsd_reader_run frame_dur evs rd h in
  Sorted (fun a b => b - a > RSD_IDR_RECOVERY_MIN_INTERVAL_US) ts.
Proof.
  destruct (rsd_run_idr frame_dur evs rd h) as [es He].
  destruct (rsd_reader_run frame_dur evs rd h) as [[ts rd'] h'].
  pose proof (idr_run_spaced (rd_idr_recovery rd) es) as Hs. by rewrite He in Hs.
Qed.

(** ** Decodability of what a client receives *)

Section chain.
(** Which frames of the ring are keyframes, by position in the order the
    reader takes them, and what the reader prepares for each. *)
Variable frame : nat -> ring_frame.
Variable frame_dur : Z.

Definition frame_key (n : nat) : bool := rf_is_key (frame n).

(** The system: frames read so far, the client, the heap, and every frame the
    send thread has taken, oldest first. *)
Record rsd_sys := mk_rsd_sys {
  sy_next : nat;
  sy_client : rsd_client;
  sy_heap : heap;
  sy_sent : list rsd_frame
}.

Inductive rsd_step : rsd_sys -> rsd_sys -> Prop :=
  | step_video n c h sent r c' h' :
      rsd_client_video_frame true frame_dur (frame n) c h = (r, c', h') ->
      rsd_step (mk_rsd_sys n c h sent) (mk_rsd_sys (S n) c' h' sent)
  | step_audio n c h sent ok codec data ts cap r q' h' :
      rsd_sendq_push_audio ok (cl_sendq c) h codec data ts cap = (r, q', h') ->
      rsd_step (mk_rsd_sys n c h sent) (mk_rsd_sys n (c <| cl_sendq := q' |>) h' sent)
  | step_pop n c h sent e q' :
      rsd_sendq_pop (cl_sendq c) = Some (e, q') ->
      rsd_step (mk_rsd_sys n c h sent)
        (mk_rsd_sys n (c <| cl_sendq := q' |>) (heap_free (se_data e) h) (sent ++ [sq_frame h e]))
  | step_drain n c h sent e q' :
      rsd_sendq_take_audio_locked (cl_sendq c) = (Some e, q') ->
      rsd_step (mk_rsd_sys n c h sent)
        (mk_rsd_sys n (c <| cl_sendq := q' |>) (heap_free (se_data e) h) (sent ++ [sq_frame h e]))
  | step_other n c h sent h' :
      (* another client or thread uses the heap: our blocks are untouched *)
      heap_wf h' ->
      (forall p, p ∈ sq_ptrs (sq_view (cl_sendq c)) -> h_live h' !! p = h_live h !! p) ->
      rsd_step (mk_rsd_sys n c h sent) (mk_rsd_sys n c h' sent).

(** The video bytes sent and queued, in order. *)
Definition video_payloads (l : list rsd_frame) : list (list Z) :=
  fr_bytes <$> filter (fun f => ~ Is_true (frame_is_audio f)) l.

Definition payload_of (n : nat) : list Z :=
  sendq_video_copy (rf_data (frame n)) (rf_sei (frame n)) (rf_is_h265 (frame n)).

Definition rsd_sys_inv (s : rsd_sys) : Prop :=
  let c := sy_client s in
  sq_owned (cl_sendq c) (sy_heap s) /\ cl_jpeg c = false /\
  exists ns : list nat, video_payloads (sy_sent s ++ sq_abs (cl_sendq c) (sy_heap s)) = payload_of <$> ns /\
    decodable frame_key ns /\
    (cl_waiting_keyframe c = false -> cl_playing c = true /\ sq_shutdown (cl_sendq c) = false ->
     exists m, sy_next s = S m /\ last ns = Some m).

Lemma video_payloads_app l1 l2 : video_payloads (l1 ++ l2) = video_payloads l1 ++ video_payloads l2.
Proof. unfold video_payloads. by rewrite filter_app, fmap_app. Qed.

Lemma video_payloads_audio (l : list rsd_frame) :
  video_payloads (filter (fun f => Is_true (frame_is_audio f)) l) = [].
Proof.
  unfold video_payloads. induction l as [|f l IH]; [done|].
  rewrite (filter_cons (fun f => Is_true (frame_is_audio f))). case_decide; [|done].
  rewrite filter_cons_False by auto. done.
Qed.

Lemma video_payloads_delete l i f :
  l !! i = Some f -> frame_is_audio f = true ->
  video_payloads (delete i l) = video_payloads l.
Proof.
  intros Hi Ha. rewrite <- (take_drop_middle l i f Hi) at 2.
  rewrite delete_take_drop, !video_payloads_app. f_equal.
  unfold video_payloads. rewrite filter_cons_False; [done|]. rewrite Ha. simpl. tauto.
Qed.

(** What the client step does to the parts the invariant reads. *)
Lemma rsd_client_video_frame_shape ok fd f c h r c' h' :
  rsd_client_video_frame ok fd f c h = (r, c', h') ->
  cl_playing c' = cl_playing c /\ cl_jpeg c' = cl_jpeg c /\
  ((r = None /\ c' = c /\ h' = h /\
    (cl_playing c = false \/ cl_waiting_keyframe c = true /\ rf_is_key f = false)) \/
   exists ts qret, r = Some qret /\ cl_playing c = true /\
     (cl_waiting_keyframe c = false \/ rf_is_key f = true) /\
     rsd_sendq_push_video ok (cl_sendq c) h (rf_data f) ts (rf_capture_us f) (rf_sei f)
       (rf_is_h265 f) = (qret, cl_sendq c', h') /\
     cl_waiting_keyframe c' = (if qret =? RSD_SENDQ_DROPPED then negb (cl_jpeg c) else false)).
Proof.
  unfold rsd_client_video_frame. intros E.
  destruct (cl_playing c) eqn:Hp; cbn [negb] in E; [|simplify_eq; naive_solver].
  destruct (cl_waiting_keyframe c && negb (rf_is_key f)) eqn:Hw.
  { bool_to_prop. simplify_eq. naive_solver. }
  revert E. set (c1 := c <| cl_waiting_keyframe := false |>).
  set (c2 := if cl_video_ts_base_set c1 then _ else _).
  assert (H2 : cl_playing c2 = cl_playing c /\ cl_jpeg c2 = cl_jpeg c /\
               cl_waiting_keyframe c2 = false /\ cl_sendq c2 = cl_sendq c).
  { unfold c2, c1. simpl. by destruct (cl_video_ts_base_set c). }
  destruct H2 as (Hp2 & Hj2 & Hw2 & Hq2).
  set (ts := rtp_advance _ _ _ _). cbv zeta.
  change (cl_sendq (_ <| cl_has_last_video_client_ts := true |>)) with (cl_sendq c2).
  rewrite Hq2. destruct (rsd_sendq_push_video _ _ _ _ ts _ _ _) as [[qret q] h1] eqn:Hpush.
  intros E. injection E as <- <- <-.
  assert (Hk : cl_waiting_keyframe c = false \/ rf_is_key f = true).
  { destruct (cl_waiting_keyframe c), (rf_is_key f); auto. }
  destruct (qret =? RSD_SENDQ_DROPPED) eqn:Hd; simpl; rewrite ?Hp2, ?Hj2, ?Hw2;
    (split; [congruence|]); (split; [done|]); right; exists ts, qret;
    rewrite Hd; split_and!; done.
Qed.

Lemma rsd_push_video_shutdown ok q h d ts cap sei hv r q' h' :
  rsd_sendq_push_video ok q h d ts cap sei hv = (r, q', h') ->
  sq_shutdown q = true -> q' = q.
Proof.
  unfold rsd_sendq_push_video. intros E Hs. destruct ok; simpl in E; [|by simplify_eq].
  rewrite Hs in E. by simplify_eq.
Qed.

Lemma spec_push_audio_video ok l f r l' :
  spec_push_audio ok l f = (r, l') -> frame_is_audio f = true ->
  video_payloads l' = video_payloads l.
Proof.
  intros E Hf.
  assert (H1 : video_payloads [f] = []).
  { unfold video_payloads. rewrite filter_cons_False; [done|]. rewrite Hf. simpl. tauto. }
  unfold spec_push_audio in E. destruct ok; cbn [negb] in E; [|by simplify_eq].
  destruct (RSD_SENDQ_SLOTS <=? length l)%nat.
  - destruct (list_find _ l) as [[i g]|] eqn:Hl; simplify_eq; [|done].
    apply list_find_Some in Hl as (Hi & Hg & _).
    rewrite video_payloads_app, H1, app_nil_r.
    eapply video_payloads_delete; [done|]. by apply Is_true_eq_true.
  - simplify_eq. by rewrite video_payloads_app, H1, app_nil_r.
Qed.

(** Whether the queue accepts at all is not changed by any operation here. *)
Lemma rsd_take_audio_shutdown q r q' :
  sq_wf q -> rsd_sendq_take_audio_locked q = (r, q') -> sq_shutdown q' = sq_shutdown q.
Proof.
  intros Hwf E. pose proof (sq_take_audio_spec q Hwf) as Ht. rewrite E in Ht.
  destruct r, (remove_first_audio _) as [[e' l]|]; try done; [|congruence].
  destruct Ht as (_ & _ & _ & _ & Hf). congruence.
Qed.

Lemma rsd_push_audio_shutdown ok q h codec d ts cap r q' h' :
  sq_wf q -> rsd_sendq_push_audio ok q h codec d ts cap = (r, q', h') ->
  sq_shutdown q' = sq_shutdown q.
Proof.
  intros Hwf. unfold rsd_sendq_push_audio. destruct ok; cbn [negb]; [|intros; by simplify_eq].
  destruct (heap_alloc d h) as [p h1]. destruct (sq_shutdown q) eqn:Hs; [intros; by simplify_eq|].
  destruct (RSD_SENDQ_SLOTS <=? sq_count q)%nat; [|intros; by simplify_eq].
  match goal with |- context [rsd_sendq_take_audio_locked ?x] =>
    destruct (rsd_sendq_take_audio_locked x) as [o q2] eqn:Ht;
    apply (rsd_take_audio_shutdown x) in Ht; [|done] end.
  destruct o; intros; simplify_eq/=; congruence.
Qed.

Lemma rsd_video_step_inv n c h sent r c' h' :
  rsd_client_video_frame true frame_dur (frame n) c h = (r, c', h') ->
  rsd_sys_inv (mk_rsd_sys n c h sent) -> rsd_sys_inv (mk_rsd_sys (S n) c' h' sent).
Proof.
  intros E (Ho & Hj & ns & Hp & Hd & Hlast). simpl in *.
  apply rsd_client_video_frame_shape in E as (Hplay & Hjpeg & [(-> & -> & -> & Hr)|Hpush]).
  { split; [done|]. split; [done|]. exists ns. split; [done|]. split; [done|]. simpl.
    intros Hw [Hpl _]. destruct Hr as [?|[? _]]; congruence. }
  destruct Hpush as (ts & qret & -> & Hpl & Hk & Hpush & Hw).
  pose proof (sq_push_video_ok true _ h (rf_data (frame n)) ts (rf_capture_us (frame n))
    (rf_sei (frame n)) (rf_is_h265 (frame n)) Ho) as Hok.
  rewrite Hpush in Hok. destruct Hok as (Ho' & Hspec & _).
  split; [done|]. split; [simpl; congruence|].
  unfold spec_push_video in Hspec. cbn [andb] in Hspec. rewrite negb_involutive in Hspec.
  destruct (sq_shutdown (cl_sendq c)) eqn:Hs.
  { injection Hspec as -> Ha. simpl. rewrite Ha. exists ns. split; [done|]. split; [done|].
    rewrite (rsd_push_video_shutdown _ _ _ _ _ _ _ _ _ _ _ Hpush Hs), Hs. naive_solver. }
  destruct (RSD_SENDQ_SLOTS <=? length (sq_abs (cl_sendq c) h))%nat.
  - injection Hspec as -> Ha. simpl. rewrite Ha.
    rewrite video_payloads_app in Hp |- *. rewrite video_payloads_audio, app_nil_r.
    exists (take (length (video_payloads sent)) ns). split; [|split; [by apply decodable_take|]].
    + rewrite fmap_take, <- Hp. by rewrite take_app_length.
    + rewrite Hw, Hj. done.
  - injection Hspec as -> Ha. simpl. rewrite Ha. exists (ns ++ [n]). split; [|split].
    + rewrite app_assoc, video_payloads_app, Hp, fmap_app. done.
    + apply decodable_snoc; [done|]. destruct Hk as [Hk|Hk]; [right|by left].
      destruct (Hlast Hk (conj Hpl eq_refl)) as (m & -> & Hl). by exists m.
    + intros _ _. exists n. split; [done|]. apply last_snoc.
Qed.

(** A step that keeps the video frames sent and queued keeps the invariant. *)
Lemma rsd_sys_inv_keep n c h sent q' h' sent' :
  rsd_sys_inv (mk_rsd_sys n c h sent) ->
  sq_owned q' h' -> sq_shutdown q' = sq_shutdown (cl_sendq c) ->
  video_payloads (sent' ++ sq_abs q' h') = video_payloads (sent ++ sq_abs (cl_sendq c) h) ->
  rsd_sys_inv (mk_rsd_sys n (c <| cl_sendq := q' |>) h' sent').
Proof.
  intros (Ho & Hj & ns & Hp & Hd & Hlast) Ho' Hs Hv. simpl in *.
  split; [done|]. split; [done|]. exists ns. simpl. rewrite Hv, Hs. done.
Qed.

Lemma rsd_step_inv s s' : rsd_step s s' -> rsd_sys_inv s -> rsd_sys_inv s'.
Proof.
  intros [n c h sent r c' h' E|n c h sent ok codec data ts cap r q' h' E
         |n c h sent e q' E|n c h sent e q' E|n c h sent h' Hh' Hk] Hi; pose proof Hi as (Ho & _); cbn [sy_client sy_heap] in Ho.
  - by eapply rsd_video_step_inv.
  - pose proof (sq_push_audio_ok ok (cl_sendq c) h codec data ts cap Ho) as Hok.
    rewrite E in Hok. destruct Hok as (Ho' & Hspec & _).
    eapply rsd_sys_inv_keep; [done..| |].
    + eapply rsd_push_audio_shutdown; [apply Ho|done].
    + rewrite !video_payloads_app. f_equal.
      symmetry in Hspec. by eapply spec_push_audio_video.
  - destruct (sq_pop_ok _ _ _ _ Ho E) as (Ho' & Ha & _).
    eapply rsd_sys_inv_keep; [done..| |].
    + unfold rsd_sendq_pop in E. destruct (sq_shutdown (cl_sendq c)) eqn:Hs; [done|].
      destruct (sq_count (cl_sendq c)); [done|]. by simplify_eq/=.
    + simpl in Ha. rewrite Ha. by rewrite <- app_assoc.
  - destruct (sq_take_ok _ _ _ _ Ho E) as (Ho' & _ & Hau & i & Hi1 & Ha).
    eapply rsd_sys_inv_keep; [done..| |].
    + eapply rsd_take_audio_shutdown; [apply Ho|done].
    + simpl in Ha. rewrite Ha, !video_payloads_app.
      rewrite (video_payloads_delete _ i (sq_frame h e)) by done.
      unfold video_payloads at 2. rewrite filter_cons_False; [by rewrite app_nil_r|].
      change (frame_is_audio (sq_frame h e)) with (sq_is_audio e). rewrite Hau. simpl. tauto.
  - destruct Ho as (Hwf & Hd & Hw & Hnd & Hl).
    assert (Ho' : sq_owned (cl_sendq c) h').
    { split_and!; [done|done|]. split_and!; [done|done|].
      apply list.Forall_forall. intros p Hp. rewrite Hk by done.
      by apply (proj1 (list.Forall_forall _ _) Hl). }
    destruct Hi as (_ & Hj & ns & Hp & Hr). simpl in *. split; [done|]. split; [done|].
    exists ns. simpl. split; [|done]. rewrite <- Hp. do 2 f_equal. by apply sq_frames_ext.
Qed.

Lemma rsd_steps_inv s s' : rtc rsd_step s s' -> rsd_sys_inv s -> rsd_sys_inv s'.
Proof. induction 1; eauto using rsd_step_inv. Qed.
End chain.

(** A client as SETUP/PLAY leaves it: nothing queued, waiting for a keyframe. *)
Definition client_start (c : rsd_client) : Prop :=
  cl_sendq c = rsd_sendq_init /\ cl_waiting_keyframe c = true /\ cl_jpeg c = false.


Definition demo_frame (n : nat) : ring_frame :=
  mk_ring_frame [0; 0; 0; 1; if (n =? 1)%nat then 101 else 65] (n =? 1)%nat (3000 * Z.of_nat n)
    (33333 * Z.of_nat n) [] false.

Definition demo_client : rsd_client :=
  mk_rsd_client true false true false 0 7 false 0 rsd_sendq_init.

Lemma rsd_step_video_run frame d n c h sent :
  let x := rsd_client_video_frame true d (frame n) c h in
  rsd_step frame d (mk_rsd_sys n c h sent) (mk_rsd_sys (S n) (snd (fst x)) (snd x) sent).
Proof. intros x. apply (step_video _ _ _ _ _ _ (fst (fst x))). subst x.
  by destruct (rsd_client_video_frame true d (frame n) c h) as [[? ?] ?]. Qed.


(** The RTP timestamps a client sees advance on every frame that reaches
    its queue, in 32-bit serial arithmetic, also when the source clock stalls
    or steps back, and start at the client's random base. *)
Theorem rsd_client_ts_advances ok frame_dur f c h qret c' h' :
  0 < frame_dur < 2 ^ 31 -> in_u 32 (cl_last_video_client_ts c) ->
  rsd_client_video_frame ok frame_dur f c h = (Some qret, c', h') ->
  cl_has_last_video_client_ts c' = true /\ in_u 32 (cl_last_video_client_ts c') /\
  (cl_has_last_video_client_ts c = true ->
   0 < s32 (u32 (cl_last_video_client_ts c' - cl_last_video_client_ts c))) /\
  (cl_has_last_video_client_ts c = false -> cl_video_ts_base_set c = false ->
   cl_last_video_client_ts c' = u32 (cl_video_ts_rand c)).
Proof.
  intros Hfd Hl E. unfold rsd_client_video_frame in E.
  destruct (negb (cl_playing c)); [done|].
  destruct (cl_waiting_keyframe c && _); [done|]. revert E. cbv zeta.
  match goal with |- context [rtp_advance ?h ?l (u32 ?t) ?d] => set (x := t) end.
  destruct (rsd_sendq_push_video _ _ _ _ _ _ _ _) as [[r q] h1]. intros E.
  injection E as _ <- _.
  assert (Hx : cl_video_ts_base_set c = false -> x = cl_video_ts_rand c).
  { intros Hb. unfold x. simpl. rewrite Hb. simpl. lia. }
  destruct (r =? RSD_SENDQ_DROPPED), (cl_video_ts_base_set c) eqn:Hb; simpl; rewrite ?Hb; simpl;
    (split; [done|]); apply rtp_advance_spec; auto; congruence.
Qed.

Lemma rsd_client_ts_advances_witness :
  let x1 := rsd_client_video_frame true 3000 (demo_frame 1) demo_client heap_empty in
  let c1 := snd (fst x1) in
  let x2 := rsd_client_video_frame true 3000 (demo_frame 1) c1 (snd x1) in
  let c2 := snd (fst x2) in
  0 < s32 (u32 (cl_last_video_client_ts c2 - cl_last_video_client_ts c1)).
Proof.
  intros x1 c1 x2 c2.
  apply (rsd_client_ts_advances true 3000 (demo_frame 1) c1 (snd x1) RSD_SENDQ_OK c2 (snd x2)).
  - lia.
  - vm_compute. split; congruence.
  - vm_compute. reflexivity.
  - reflexivity.
Defined.

(** the pacing division of the reader is safe for every stream info whose
    rate is at least one frame per second (or unset), and then every timestamp
    step is a positive number of 90 kHz ticks below the serial-number horizon;
    below one frame per second the division by zero is reached. *)
Theorem rsd_frame_dur_safe fps_num fps_den :
  in_u 32 fps_num -> in_u 32 fps_den ->
  (rsd_frame_dur fps_num fps_den = None <-> 0 < fps_num < fps_den) /\
  forall d, rsd_frame_dur fps_num fps_den = Some d ->
    fps_num <= 90000 * fps_den -> 0 < d < 2 ^ 31.
Proof.
  intros Hn Hd. unfold rsd_frame_dur.
  destruct (_ && _) eqn:E; bool_to_prop.
  - pose proof (Z.div_small_iff fps_num fps_den ltac:(lia)) as Hs.
    destruct (fps_num / fps_den =? 0) eqn:E0; bool_to_prop.
    + apply Hs in E0. split; [|done]. split; [lia|done].
    + split; [split; [done|]; intros ?; exfalso; apply E0, Hs; lia|].
      intros d [= <-] Hle. assert (0 < fps_num / fps_den) by (pose proof (Z.div_pos fps_num fps_den); lia).
      assert (fps_num / fps_den <= 90000) by (apply Z.div_le_upper_bound; lia).
      split; [apply Z.div_str_pos; lia|]. apply Z.div_lt_upper_bound; lia.
  - simpl. split; [split; [done|lia]|]. intros d [= <-] _. done.
Qed.

Lemma rsd_frame_dur_safe_witness :
  rsd_frame_dur 25 1 = Some 3600 /\ 0 < 3600 < 2 ^ 31 /\ rsd_frame_dur 1 2 = None.
Proof.
  split; [reflexivity|]. split.
  - apply (proj2 (rsd_frame_dur_safe 25 1 ltac:(cint) ltac:(cint)) 3600); [reflexivity|lia].
  - apply (proj2 (proj1 (rsd_frame_dur_safe 1 2 ltac:(cint) ltac:(cint)))). lia.
Defined.
