(* ===== verification/RwdSendq.v ===== *)
(** * rwd: the per-client WebRTC send queue (rwd/rwd_sendq.c)

    The reader thread of rwd_media.c pushes copies of ring frames, the
    client's send thread pops them; a full queue, a failed allocation or a
    failed send purges everything and closes the queue to inter frames until a
    keyframe arrives.  The queue is an instance of [GatedQueue]; its counters
    balance, and its memory is owned throughout. *)

From stdpp Require Import gmap list.
From S2P Require Import Prelude Ring Gate.

Definition RWD_SENDQ_SLOTS : nat := 32.

Record rwd_sendq_entry := mk_rwd_sendq_entry {
  re_data : option nat;
  re_len : Z;
  re_rtp_ts : Z;
  re_capture_us : Z;
  re_enqueue_us : Z;
  re_is_key : bool
}.

#[export] Instance eta_rwd_sendq_entry : Settable rwd_sendq_entry :=
  fun e => mk_rwd_sendq_entry (re_data e) (re_len e) (re_rtp_ts e) (re_capture_us e)
    (re_enqueue_us e) (re_is_key e).

Definition rwd_zero_entry : rwd_sendq_entry := mk_rwd_sendq_entry None 0 0 0 0 false.

#[export] Instance rwd_sendq_entry_inhabited : Inhabited rwd_sendq_entry :=
  populate rwd_zero_entry.

Record rwd_sendq := mk_rwd_sendq {
  rq_entries : list rwd_sendq_entry;
  rq_head : nat;
  rq_tail : nat;
  rq_count : nat;
  rq_shutdown : bool;
  rq_needs_keyframe : bool;
  rq_drops : Z;
  rq_max_depth : nat;
  rq_enqueued : Z;
  rq_dequeued : Z;
  rq_sent : Z;
  rq_send_failures : Z;
  rq_bytes_sent : Z;
  rq_last_frame_bytes : Z;
  rq_max_frame_bytes : Z;
  rq_last_queue_us : Z;
  rq_max_queue_us : Z;
  rq_last_send_us : Z;
  rq_max_send_us : Z;
  rq_last_capture_to_send_us : Z;
  rq_max_capture_to_send_us : Z
}.

#[export] Instance eta_rwd_sendq : Settable rwd_sendq :=
  fun q => mk_rwd_sendq (rq_entries q) (rq_head q) (rq_tail q) (rq_count q) (rq_shutdown q)
    (rq_needs_keyframe q) (rq_drops q) (rq_max_depth q) (rq_enqueued q) (rq_dequeued q)
    (rq_sent q) (rq_send_failures q) (rq_bytes_sent q) (rq_last_frame_bytes q)
    (rq_max_frame_bytes q) (rq_last_queue_us q) (rq_max_queue_us q) (rq_last_send_us q)
    (rq_max_send_us q) (rq_last_capture_to_send_us q) (rq_max_capture_to_send_us q).

(** ** Operations *)

Definition rwd_sendq_init : rwd_sendq :=
  mk_rwd_sendq (replicate RWD_SENDQ_SLOTS rwd_zero_entry) 0 0 0 false false
    0 0 0 0 0 0 0 0 0 0 0 0 0 0 0.

Definition rq_next (i : nat) : nat := (S i mod RWD_SENDQ_SLOTS)%nat.

(** [purge_locked]: one round per queued entry, so [count] is enough fuel. *)
Fixpoint purge_loop (fuel : nat) (q : rwd_sendq) (h : heap) : rwd_sendq * heap :=
  match fuel, rq_count q with
  | S fuel, S c =>
      let e := rq_entries q !!! rq_tail q in
      purge_loop fuel
        (q <| rq_entries := <[rq_tail q := e <| re_data := None |>]> (rq_entries q) |>
           <| rq_tail := rq_next (rq_tail q) |> <| rq_count := c |>
           <| rq_drops := u64 (rq_drops q + 1) |>)
        (heap_free (re_data e) h)
  | _, _ => (q, h)
  end.

Definition purge_locked (q : rwd_sendq) (h : heap) : rwd_sendq * heap :=
  purge_loop (rq_count q) q h.

Definition rwd_sendq_fail (q : rwd_sendq) (h : heap) : rwd_sendq * heap :=
  if rq_shutdown q then (q, h) else
  let '(q, h) := purge_locked q h in
  (q <| rq_needs_keyframe := true |> <| rq_drops := u64 (rq_drops q + 1) |>, h).

(** The slot write and the counters of a successful push. *)
Definition rq_put (q : rwd_sendq) (e : rwd_sendq_entry) : rwd_sendq :=
  let q := q <| rq_entries := <[rq_head q := e]> (rq_entries q) |>
             <| rq_head := rq_next (rq_head q) |> <| rq_count := S (rq_count q) |>
             <| rq_enqueued := u64 (rq_enqueued q + 1) |> in
  if (rq_max_depth q <? rq_count q)%nat then q <| rq_max_depth := rq_count q |> else q.

Definition rwd_sendq_push (alloc_ok : bool) (q : rwd_sendq) (h : heap) (data : list Z)
    (rtp_ts capture_us enqueue_us : Z) (is_key : bool) : Z * rwd_sendq * heap :=
  if negb alloc_ok then
    let '(q, h) := rwd_sendq_fail q h in (-1, q, h)
  else
    let '(copy, h) := heap_alloc data h in
    if rq_shutdown q then (-1, q, heap_free (Some copy) h) else
    if rq_needs_keyframe q && negb is_key then (1, q, heap_free (Some copy) h) else
    let q := q <| rq_needs_keyframe := false |> in
    if (RWD_SENDQ_SLOTS <=? rq_count q)%nat then
      let '(q, h) := purge_locked q h in
      (1, q <| rq_needs_keyframe := true |> <| rq_drops := u64 (rq_drops q + 1) |>,
       heap_free (Some copy) h)
    else
      (0, rq_put q (mk_rwd_sendq_entry (Some copy) (u32 (Z.of_nat (length data))) rtp_ts
                      capture_us enqueue_us is_key), h).

(** What [rwd_sendq_pop] does once the lock is held: it waits, reports the
    shutdown, or hands an entry over. *)
Inductive rwd_pop_result :=
  | PopWait
  | PopShutdown
  | PopEntry (e : rwd_sendq_entry) (q : rwd_sendq).

Definition rwd_sendq_pop (q : rwd_sendq) : rwd_pop_result :=
  if rq_shutdown q then PopShutdown else
  match rq_count q with
  | O => PopWait
  | S c =>
      let e := rq_entries q !!! rq_tail q in
      PopEntry e
        (q <| rq_entries := <[rq_tail q := e <| re_data := None |>]> (rq_entries q) |>
           <| rq_tail := rq_next (rq_tail q) |> <| rq_count := c |>
           <| rq_dequeued := u64 (rq_dequeued q + 1) |>)
  end.

(** [q->last_x = v; if (v > q->max_x) q->max_x = v;] for the four gauges. *)
Definition note_frame_bytes (v : Z) (q : rwd_sendq) : rwd_sendq :=
  let q := q <| rq_last_frame_bytes := v |> in
  if v >? rq_max_frame_bytes q then q <| rq_max_frame_bytes := v |> else q.

Definition note_queue_us (v : Z) (q : rwd_sendq) : rwd_sendq :=
  let q := q <| rq_last_queue_us := v |> in
  if v >? rq_max_queue_us q then q <| rq_max_queue_us := v |> else q.

Definition note_send_us (v : Z) (q : rwd_sendq) : rwd_sendq :=
  let q := q <| rq_last_send_us := v |> in
  if v >? rq_max_send_us q then q <| rq_max_send_us := v |> else q.

Definition note_capture_to_send_us (v : Z) (q : rwd_sendq) : rwd_sendq :=
  let q := q <| rq_last_capture_to_send_us := v |> in
  if v >? rq_max_capture_to_send_us q then q <| rq_max_capture_to_send_us := v |> else q.

Definition note_result (success : bool) (len : Z) (q : rwd_sendq) : rwd_sendq :=
  if success then q <| rq_sent := u64 (rq_sent q + 1) |>
                    <| rq_bytes_sent := u64 (rq_bytes_sent q + len) |>
  else q <| rq_send_failures := u64 (rq_send_failures q + 1) |>.

Definition rwd_sendq_note_send (q : rwd_sendq) (e : rwd_sendq_entry)
    (send_start_us send_end_us : Z) (success : bool) : rwd_sendq :=
  let queue_us := if send_start_us >? re_enqueue_us e then send_start_us - re_enqueue_us e else 0 in
  let send_us := if send_end_us >? send_start_us then send_end_us - send_start_us else 0 in
  let capture_to_send_us :=
    if send_end_us >? re_capture_us e then send_end_us - re_capture_us e else 0 in
  note_capture_to_send_us capture_to_send_us
    (note_send_us send_us
      (note_queue_us queue_us
        (note_frame_bytes (re_len e)
          (note_result success (re_len e) q)))).

Record rwd_sendq_stats := mk_rwd_sendq_stats {
  rs_depth : nat; rs_max_depth : nat; rs_enqueued : Z; rs_dequeued : Z; rs_sent : Z;
  rs_send_failures : Z; rs_drops : Z; rs_bytes_sent : Z; rs_last_frame_bytes : Z;
  rs_max_frame_bytes : Z; rs_last_queue_us : Z; rs_max_queue_us : Z; rs_last_send_us : Z;
  rs_max_send_us : Z; rs_last_capture_to_send_us : Z; rs_max_capture_to_send_us : Z
}.

Definition rwd_sendq_get_stats (q : rwd_sendq) : rwd_sendq_stats :=
  mk_rwd_sendq_stats (rq_count q) (rq_max_depth q) (rq_enqueued q) (rq_dequeued q) (rq_sent q)
    (rq_send_failures q) (rq_drops q) (rq_bytes_sent q) (rq_last_frame_bytes q)
    (rq_max_frame_bytes q) (rq_last_queue_us q) (rq_max_queue_us q) (rq_last_send_us q)
    (rq_max_send_us q) (rq_last_capture_to_send_us q) (rq_max_capture_to_send_us q).

Definition rwd_sendq_shutdown (q : rwd_sendq) : rwd_sendq := q <| rq_shutdown := true |>.

Definition rwd_sendq_destroy (q : rwd_sendq) (h : heap) : rwd_sendq * heap := purge_locked q h.

(** ** The client around the queue (rwd_media.c) *)

Record rwd_client := mk_rwd_client {
  rc_sending : bool;              (* c->sending and the stream matches *)
  rc_waiting_keyframe : bool;
  rc_video_ts_base_set : bool;
  rc_video_ts_offset : Z;
  rc_send_thread_started : bool;
  rc_sendq : rwd_sendq
}.

#[export] Instance eta_rwd_client : Settable rwd_client :=
  fun c => mk_rwd_client (rc_sending c) (rc_waiting_keyframe c) (rc_video_ts_base_set c)
    (rc_video_ts_offset c) (rc_send_thread_started c) (rc_sendq c).

(** The end of rwd_media_setup: the queue, the send thread ([pthread_create]'s
    outcome is [thread_ok]), and the flags the reader tests. *)
Definition rwd_media_start (thread_ok : bool) (c : rwd_client) (h : heap)
    : Z * rwd_client * heap :=
  let c := c <| rc_sendq := rwd_sendq_init |> in
  if negb thread_ok then
    let '(q, h) := rwd_sendq_destroy (rc_sendq c) h in (-1, c <| rc_sendq := q |>, h)
  else
    (0, c <| rc_send_thread_started := true |> <| rc_sending := true |>
          <| rc_waiting_keyframe := true |>, h).

(** The head of rwd_media_teardown; the join happens between the shutdown and
    the destroy. *)
Definition rwd_media_teardown (c : rwd_client) (h : heap) : rwd_client * heap :=
  let c := c <| rc_sending := false |> in
  if rc_send_thread_started c then
    let q := rwd_sendq_shutdown (rc_sendq c) in
    let '(q, h) := rwd_sendq_destroy q h in
    (c <| rc_send_thread_started := false |> <| rc_sendq := q |>, h)
  else (c, h).

(** The reader's client loop, for one client and one frame; the first result is
    whether an IDR is requested. *)
Definition rwd_client_video_frame (alloc_ok : bool) (data : list Z) (rtp_ts capture_us now_us : Z)
    (is_key : bool) (c : rwd_client) (h : heap) : bool * rwd_client * heap :=
  if negb (rc_sending c) then (false, c, h) else
  if rc_waiting_keyframe c && negb is_key then (false, c, h) else
  let c := if rc_waiting_keyframe c then
             let c1 := c <| rc_waiting_keyframe := false |> in
             if rc_video_ts_base_set c then c1
             else c1 <| rc_video_ts_offset := rtp_ts |> <| rc_video_ts_base_set := true |>
           else c in
  let client_ts := u32 (rtp_ts - rc_video_ts_offset c) in
  if negb (rc_send_thread_started c) then (false, c, h) else
  let '(r, q, h) := rwd_sendq_push alloc_ok (rc_sendq c) h data client_ts capture_us now_us is_key in
  let c := c <| rc_sendq := q |> in
  if r =? 0 then (false, c, h) else (true, c <| rc_waiting_keyframe := true |>, h).

(** One round of the send thread after the pop: skip a client that is gone, or
    send, account and, on a failure, purge. *)
Definition rwd_client_send_step (c : rwd_client) (e : rwd_sendq_entry)
    (send_start_us send_end_us send_result : Z) (h : heap) : rwd_client * heap :=
  if negb (rc_sending c) then (c, heap_free (re_data e) h) else
  let q := rwd_sendq_note_send (rc_sendq c) e send_start_us send_end_us (send_result =? 0) in
  let '(q, h) := if send_result <? 0 then rwd_sendq_fail q h else (q, h) in
  (c <| rc_sendq := q |>, heap_free (re_data e) h).

(** ** The sequence a queue denotes, and what it owns *)

Record rwd_frame := mk_rwd_frame {
  rf_bytes : list Z;
  rf_len : Z;
  rf_ts : Z;
  rf_capture : Z;
  rf_enqueue : Z;
  rf_key : bool
}.

Definition rq_wf (q : rwd_sendq) : Prop :=
  length (rq_entries q) = RWD_SENDQ_SLOTS /\
  (rq_tail q < RWD_SENDQ_SLOTS)%nat /\
  (rq_count q <= RWD_SENDQ_SLOTS)%nat /\
  rq_head q = ((rq_tail q + rq_count q) mod RWD_SENDQ_SLOTS)%nat.

Definition rq_view (q : rwd_sendq) : list rwd_sendq_entry :=
  window (rq_entries q) (rq_tail q) (rq_count q).

Definition rq_frame (h : heap) (e : rwd_sendq_entry) : rwd_frame :=
  mk_rwd_frame (default [] (p ← re_data e; h_live h !! p)) (re_len e) (re_rtp_ts e)
    (re_capture_us e) (re_enqueue_us e) (re_is_key e).

Definition rq_ptrs (l : list rwd_sendq_entry) : list nat := omap re_data l.

Definition rq_abs (q : rwd_sendq) (h : heap) : list rwd_frame := rq_frame h <$> rq_view q.

Definition rq_owned (q : rwd_sendq) (h : heap) : Prop :=
  rq_wf q /\ Forall (fun e => is_Some (re_data e)) (rq_view q) /\ owned (rq_ptrs (rq_view q)) h.

Definition rq_foreign (q : rwd_sendq) (h : heap) : gset nat := foreign (rq_ptrs (rq_view q)) h.

Section facts.
Local Open Scope nat_scope.

Lemma rq_put_wf q e :
  rq_wf q -> rq_count q < RWD_SENDQ_SLOTS ->
  rq_wf (rq_put q e) /\ rq_view (rq_put q e) = rq_view q ++ [e].
Proof.
  intros (Hl & Ht & Hc & Hh) Hlt. split.
  - unfold rq_put. simpl. destruct (_ <? _);
    (repeat split; simpl; [by rewrite length_insert | done | lia |];
     rewrite Hh; unfold rq_next; rewrite <- (Nat.add_1_l (_ mod _));
     rewrite Nat.Div0.add_mod_idemp_r; f_equal; lia).
  - unfold rq_view, rq_put. simpl. destruct (_ <? _); simpl; rewrite Hh, <- Hl;
      apply window_push; lia.
Qed.

(** Taking the oldest entry out, whatever is left in its slot. *)
Lemma rq_advance_wf q q' c x :
  rq_wf q -> rq_count q = S c ->
  rq_entries q' = <[rq_tail q := x]> (rq_entries q) -> rq_tail q' = rq_next (rq_tail q) ->
  rq_count q' = c -> rq_head q' = rq_head q ->
  rq_wf q' /\ rq_view q = (rq_entries q !!! rq_tail q) :: rq_view q'.
Proof.
  intros (Hl & Ht & Hc & Hh) Hn E1 E2 E3 E4. unfold rq_wf. rewrite E1, E2, E3, E4. split.
  - repeat split; [by rewrite length_insert|apply Nat.mod_upper_bound; unfold RWD_SENDQ_SLOTS; lia|lia|].
    unfold rq_next. rewrite Nat.Div0.add_mod_idemp_l, Hh. f_equal. lia.
  - unfold rq_view. rewrite E1, E2, E3, Hn, window_pop by lia. f_equal.
    unfold rq_next. rewrite <- Hl. symmetry. apply window_pop_insert; lia.
Qed.

Lemma rq_abs_length q h : length (rq_abs q h) = rq_count q.
Proof. unfold rq_abs. rewrite length_fmap. apply window_length. Qed.
End facts.

Lemma rq_frames_ext h h' l :
  (forall p, p ∈ rq_ptrs l -> h_live h' !! p = h_live h !! p) ->
  rq_frame h' <$> l = rq_frame h <$> l.
Proof.
  intros Hk. apply list_fmap_ext. intros i e Hi.
  unfold rq_frame. f_equal. destruct (re_data e) as [p|] eqn:E; [|done]. simpl.
  rewrite Hk; [done|]. apply list_elem_of_omap. exists e. split; [|done].
  by eapply list_elem_of_lookup_2.
Qed.

(** Everything but the ring is left alone by a purge, and the drop counter
    counts the frames. *)
Definition rq_same (q q' : rwd_sendq) : Prop :=
  rq_shutdown q' = rq_shutdown q /\ rq_needs_keyframe q' = rq_needs_keyframe q /\
  rwd_sendq_get_stats (q' <| rq_count := 0%nat |> <| rq_drops := 0 |>) =
  rwd_sendq_get_stats (q <| rq_count := 0%nat |> <| rq_drops := 0 |>).

Lemma purge_ok n q h :
  rq_owned q h -> rq_count q = n ->
  let '(q', h') := purge_loop n q h in
  rq_wf q' /\ rq_count q' = 0%nat /\ heap_wf h' /\ dom (h_live h') = rq_foreign q h /\
  (forall p, p ∈ rq_foreign q h -> h_live h' !! p = h_live h !! p) /\
  rq_same q q' /\ rq_drops q' = (if (n =? 0)%nat then rq_drops q else u64 (rq_drops q + Z.of_nat n)).
Proof.
  revert q h. induction n as [|n IH]; intros q h Ho Hc; cbn [purge_loop].
  - destruct Ho as (Hwf & _ & Hw & _). split_and!; try done.
    unfold rq_foreign, rq_view. rewrite Hc. unfold foreign. cbn. set_solver.
  - rewrite Hc. pose proof Ho as (Hwf & Hd & Hown). set (e := rq_entries q !!! rq_tail q) in *.
    set (q1 := q <| rq_entries := _ |> <| rq_tail := _ |> <| rq_count := n |> <| rq_drops := _ |>).
    destruct (rq_advance_wf q q1 n (e <| re_data := None |>) Hwf Hc eq_refl eq_refl eq_refl eq_refl)
      as [Hwf' Hv]. fold e in Hv.
    rewrite Hv in Hd, Hown. apply list.Forall_cons in Hd as [[p Hp] Hd].
    cbn [rq_ptrs omap list_omap] in Hown. rewrite Hp in Hown.
    destruct (owned_free_1 _ _ _ Hown) as (Hown' & Hf & _). rewrite Hp.
    pose proof (IH q1 (heap_free (Some p) h) (conj Hwf' (conj Hd Hown')) eq_refl) as HI.
    destruct (purge_loop n q1 (heap_free (Some p) h)) as [q' h'].
    assert (Hfo : rq_foreign q1 (heap_free (Some p) h) = rq_foreign q h).
    { unfold rq_foreign at 2. rewrite Hv. cbn [rq_ptrs omap list_omap]. rewrite Hp. exact Hf. }
    rewrite Hfo in HI. destruct HI as (H1 & H2 & H3 & H4 & H5 & (H6 & H7 & H8) & H9).
    split_and!; try done.
    + intros x Hx. rewrite H5 by done. unfold heap_free.
      destruct Hown as (_ & _ & Hl). apply list.Forall_cons in Hl as [[v Hl] _]. rewrite Hl. simpl.
      apply lookup_delete_ne. intros ->. revert Hx. unfold rq_foreign. rewrite Hv.
      cbn [rq_ptrs omap list_omap]. rewrite Hp. unfold foreign. set_solver.
    + rewrite H9. cbn [rq_drops q1]. destruct (n =? 0)%nat eqn:En; cbn [Nat.eqb].
      * apply Nat.eqb_eq in En. subst n. unfold q1. simpl. f_equal. 
      * unfold q1. simpl. rewrite uwrap_add_l. f_equal. lia.
Qed.

Lemma rq_empty_owned q h : rq_wf q -> rq_count q = 0%nat -> heap_wf h -> rq_owned q h.
Proof.
  intros Hwf Hc Hh. split; [done|]. unfold rq_view. rewrite Hc.
  split; [constructor|]. split; [done|]. split; constructor.
Qed.

Lemma rq_empty_foreign q h : rq_count q = 0%nat -> rq_foreign q h = dom (h_live h).
Proof. intros Hc. unfold rq_foreign, rq_view, foreign. rewrite Hc. cbn. set_solver. Qed.

Lemma rq_empty_abs q h : rq_count q = 0%nat -> rq_abs q h = [].
Proof. intros Hc. unfold rq_abs, rq_view. by rewrite Hc. Qed.

(** Fields outside the ring do not matter to ownership. *)
Lemma rq_owned_same q q' h :
  rq_entries q' = rq_entries q -> rq_head q' = rq_head q -> rq_tail q' = rq_tail q ->
  rq_count q' = rq_count q ->
  rq_view q' = rq_view q /\ (rq_owned q h -> rq_owned q' h).
Proof.
  intros E1 E2 E3 E4. assert (Hv : rq_view q' = rq_view q) by (unfold rq_view; by rewrite E1, E3, E4).
  split; [done|]. unfold rq_owned, rq_wf. by rewrite Hv, E1, E2, E3, E4.
Qed.

Lemma rwd_fail_ok q h :
  rq_owned q h ->
  let '(q', h') := rwd_sendq_fail q h in
  rq_owned q' h' /\ rq_foreign q' h' = rq_foreign q h /\ rq_shutdown q' = rq_shutdown q /\
  (rq_needs_keyframe q', rq_abs q' h') =
    (if rq_shutdown q then (rq_needs_keyframe q, rq_abs q h) else (true, [])).
Proof.
  intros Ho. unfold rwd_sendq_fail. destruct (rq_shutdown q) eqn:Hs; [done|].
  pose proof (purge_ok (rq_count q) q h Ho eq_refl) as Hp. unfold purge_locked.
  destruct (purge_loop _ q h) as [q1 h1]. destruct Hp as (Hwf & Hc & Hh & Hd & _ & (Hsh & _) & _).
  split; [by apply rq_empty_owned|]. split; [by rewrite rq_empty_foreign|].
  split; [simpl; congruence|]. by rewrite rq_empty_abs.
Qed.

Definition spec_rwd_push (ok shut needs : bool) (l : list rwd_frame) (f : rwd_frame)
    : Z * bool * list rwd_frame :=
  if shut then (-1, needs, l)
  else if negb ok then (-1, true, [])
  else if needs && negb (rf_key f) then (1, needs, l)
  else if (RWD_SENDQ_SLOTS <=? length l)%nat then (1, true, [])
  else (0, false, l ++ [f]).

(** A copy made and given back leaves the queue as it was. *)
Lemma rq_alloc_free_ok q h data :
  rq_owned q h ->
  let h' := heap_free (Some (fst (heap_alloc data h))) (snd (heap_alloc data h)) in
  rq_owned q h' /\ rq_foreign q h' = rq_foreign q h /\ rq_abs q h' = rq_abs q h.
Proof.
  intros (Hwf & Hd & Ho). destruct (owned_alloc data _ _ Ho) as (Ho1 & Hf1 & _ & Hk1).
  destruct (owned_free_1 _ _ _ Ho1) as (Ho2 & Hf2 & Hk2).
  cbv zeta. split; [done|]. split.
  - unfold rq_foreign. by rewrite Hf2, Hf1.
  - apply rq_frames_ext. intros p Hp. rewrite Hk2, Hk1; done.
Qed.

Lemma rq_overflow_ok q h data :
  rq_owned q h ->
  let p := fst (heap_alloc data h) in
  let '(q', h') := purge_locked q (snd (heap_alloc data h)) in
  rq_wf q' /\ rq_count q' = 0%nat /\ heap_wf (heap_free (Some p) h') /\
  dom (h_live (heap_free (Some p) h')) = rq_foreign q h /\ rq_same q q'.
Proof.
  intros (Hwf & Hd & Ho) p. destruct (owned_alloc data _ _ Ho) as (Ho1 & Hf1 & Hb & _).
  fold p in Ho1, Hf1, Hb. set (h1 := snd (heap_alloc data h)) in *.
  destruct Ho1 as (Hw1 & Hnd & Hl).
  apply list.NoDup_cons in Hnd as [Hp Hnd]. apply list.Forall_cons in Hl as [Hlp Hl].
  pose proof (purge_ok (rq_count q) q h1 (conj Hwf (conj Hd (conj Hw1 (conj Hnd Hl)))) eq_refl) as Hpu.
  unfold purge_locked. destruct (purge_loop _ q h1) as [q' h'].
  destruct Hpu as (H1 & H2 & H3 & H4 & H5 & H6 & _).
  assert (Hin : p ∈ rq_foreign q h1).
  { unfold rq_foreign, foreign. apply elem_of_difference. split; [by apply elem_of_dom|].
    by rewrite elem_of_list_to_set. }
  assert (Hlive : is_Some (h_live h' !! p)) by (by rewrite H5).
  split_and!; try done; [by apply heap_free_wf|].
  rewrite heap_free_dom, H4 by done. unfold rq_foreign. rewrite <- Hf1. unfold foreign. set_solver.
Qed.

Lemma rq_put_ok q h e p data :
  rq_wf q -> (rq_count q < RWD_SENDQ_SLOTS)%nat ->
  Forall (fun e => is_Some (re_data e)) (rq_view q) ->
  re_data e = Some p -> owned (p :: rq_ptrs (rq_view q)) h -> h_live h !! p = Some data ->
  rq_owned (rq_put q e) h /\
  rq_foreign (rq_put q e) h = foreign (p :: rq_ptrs (rq_view q)) h /\
  rq_abs (rq_put q e) h = rq_abs q h ++ [mk_rwd_frame data (re_len e) (re_rtp_ts e)
    (re_capture_us e) (re_enqueue_us e) (re_is_key e)].
Proof.
  intros Hwf Hc Hd Hp Ho Hb. destruct (rq_put_wf q e Hwf Hc) as [Hwf' Hv].
  assert (Hperm : rq_ptrs (rq_view q ++ [e]) ≡ₚ p :: rq_ptrs (rq_view q)).
  { unfold rq_ptrs. rewrite omap_app. simpl. rewrite Hp. symmetry. apply Permutation_cons_append. }
  split; [split; [done|split]|split].
  - rewrite Hv. apply Forall_app. split; [done|]. constructor; [by eexists|constructor].
  - by rewrite Hv, Hperm.
  - unfold rq_foreign. rewrite Hv. by apply foreign_perm.
  - unfold rq_abs. rewrite Hv, fmap_app. simpl. unfold rq_frame. rewrite Hp. simpl. by rewrite Hb.
Qed.

Lemma rwd_push_ok ok q h data ts cap enq key :
  rq_owned q h ->
  let f := mk_rwd_frame data (u32 (Z.of_nat (length data))) ts cap enq key in
  let '(r, q', h') := rwd_sendq_push ok q h data ts cap enq key in
  rq_owned q' h' /\ rq_foreign q' h' = rq_foreign q h /\ rq_shutdown q' = rq_shutdown q /\
  (r, rq_needs_keyframe q', rq_abs q' h') =
    spec_rwd_push ok (rq_shutdown q) (rq_needs_keyframe q) (rq_abs q h) f.
Proof.
  intros Ho f. unfold rwd_sendq_push, spec_rwd_push. destruct ok; cbn [negb].
  2:{ pose proof (rwd_fail_ok q h Ho) as Hf. destruct (rwd_sendq_fail q h) as [q1 h1].
      destruct Hf as (? & ? & ? & E). split_and!; [done..|].
      destruct (rq_shutdown q); by injection E as -> ->. }
  rewrite rq_abs_length. rewrite (surjective_pairing (heap_alloc data h)).
  pose proof (rq_alloc_free_ok q h data Ho) as (Hfo & Hff & Hfa).
  destruct (rq_shutdown q) eqn:Hs. { split_and!; try done. by rewrite Hfa. }
  cbn [rf_key f]. destruct (rq_needs_keyframe q && negb key) eqn:Hnk.
  { split_and!; try done. by rewrite Hfa. }
  set (q0 := q <| rq_needs_keyframe := false |>).
  assert (Ho0 : rq_owned q0 h) by exact Ho.
  change (rq_count q0) with (rq_count q).
  destruct (RWD_SENDQ_SLOTS <=? rq_count q)%nat eqn:Hfull.
  - pose proof (rq_overflow_ok q0 h data Ho0) as Hp. cbv zeta in Hp.
    destruct (purge_locked q0 _) as [q1 h1]. destruct Hp as (Hwf & Hc & Hh & Hd & (Hsh & _)).
    split; [by apply rq_empty_owned|]. split; [by rewrite rq_empty_foreign|].
    split; [simpl in *; congruence|]. by rewrite rq_empty_abs.
  - apply Nat.leb_gt in Hfull. destruct Ho0 as (Hwf & Hd & Hown).
    destruct (owned_alloc data _ _ Hown) as (Ho1 & Hf1 & Hb & Hk1).
    match goal with |- context [rq_put q0 ?e] =>
      destruct (rq_put_ok q0 (snd (heap_alloc data h)) e _ data Hwf Hfull Hd eq_refl Ho1 Hb)
        as (H1 & H2 & H3) end.
    split; [exact H1|]. split; [rewrite H2; exact Hf1|]. split; [by unfold rq_put; simpl; destruct (_ <? _)%nat|].
    rewrite H3. f_equal; [f_equal|].
    + unfold rq_put. simpl. by destruct (_ <? _)%nat.
    + f_equal. by apply rq_frames_ext.
Qed.

Lemma rwd_pop_ok q h e q' :
  rq_owned q h -> rwd_sendq_pop q = PopEntry e q' ->
  rq_owned q' h /\ rq_abs q h = rq_frame h e :: rq_abs q' h /\
  rq_shutdown q = false /\ rq_shutdown q' = false /\ rq_needs_keyframe q' = rq_needs_keyframe q /\
  exists p, re_data e = Some p /\ rq_foreign q' h = {[ p ]} ∪ rq_foreign q h.
Proof.
  intros (Hwf & Hd & Ho). unfold rwd_sendq_pop.
  destruct (rq_shutdown q) eqn:Hs; [done|]. destruct (rq_count q) as [|c] eqn:Hc; [done|].
  set (e0 := rq_entries q !!! rq_tail q). cbv zeta.
  match goal with |- PopEntry _ ?x = _ -> _ => set (q1 := x) end.
  intros E. injection E as <- <-.
  destruct (rq_advance_wf q q1 c (e0 <| re_data := None |>) Hwf Hc eq_refl eq_refl eq_refl eq_refl)
    as [Hwf' Hv]. fold e0 in Hv.
  pose proof Hd as Hd0. rewrite Hv in Hd0, Ho. apply list.Forall_cons in Hd0 as [[p Hp] Hd'].
  cbn [rq_ptrs omap list_omap] in Ho. rewrite Hp in Ho. destruct Ho as (Hw & Hnd & Hl).
  apply list.NoDup_cons in Hnd as [Hnp Hnd]. apply list.Forall_cons in Hl as [Hlp Hl].
  split; [split; [done|split; [done|by split]]|].
  split; [unfold rq_abs; by rewrite Hv|]. split_and!; try done. exists p. split; [done|].
  unfold rq_foreign. rewrite Hv. cbn [rq_ptrs omap list_omap]. rewrite Hp. unfold foreign.
  apply elem_of_dom in Hlp. apply set_eq. intros x.
  destruct (decide (x = p)) as [->|]; [|set_solver]. 
  rewrite elem_of_union, !elem_of_difference, !elem_of_list_to_set. set_solver.
Qed.

(** ** The queue keeps the promise of a gated queue *)

(** What a decoder sees of a frame. *)
Definition rf_pay (f : rwd_frame) : list Z * bool := (rf_bytes f, rf_key f).

Definition rwd_live_frames (q : rwd_sendq) (h : heap) : list (list Z * bool) :=
  if rq_shutdown q then [] else rf_pay <$> rq_abs q h.

Definition rwd_push_rel (s : rwd_sendq * heap) (f : list Z * bool) (s' : rwd_sendq * heap) : Prop :=
  exists ok ts cap enq r,
    rwd_sendq_push ok (fst s) (snd s) (fst f) ts cap enq (snd f) = (r, fst s', snd s').

Definition rwd_pop_rel (s : rwd_sendq * heap) (f : list Z * bool) (s' : rwd_sendq * heap) : Prop :=
  snd s' = snd s /\
  exists e, rwd_sendq_pop (fst s) = PopEntry e (fst s') /\ f = rf_pay (rq_frame (snd s) e).

(** The memory of others changes, or a send is accounted. *)
Definition rwd_env_rel (s s' : rwd_sendq * heap) : Prop :=
  (fst s' = fst s /\ heap_wf (snd s') /\
   forall p, p ∈ rq_ptrs (rq_view (fst s)) -> h_live (snd s') !! p = h_live (snd s) !! p) \/
  (snd s' = snd s /\ exists e t0 t1 ok, fst s' = rwd_sendq_note_send (fst s) e t0 t1 ok).

(** The part of the queue the accounting does not touch. *)
Definition rq_ring (q : rwd_sendq) :=
  (rq_entries q, rq_head q, rq_tail q, rq_count q, rq_shutdown q, rq_needs_keyframe q).

Lemma note_ring q :
  (forall v, rq_ring (note_frame_bytes v q) = rq_ring q) /\
  (forall v, rq_ring (note_queue_us v q) = rq_ring q) /\
  (forall v, rq_ring (note_send_us v q) = rq_ring q) /\
  (forall v, rq_ring (note_capture_to_send_us v q) = rq_ring q) /\
  (forall ok v, rq_ring (note_result ok v q) = rq_ring q).
Proof.
  split_and!; intros; unfold note_frame_bytes, note_queue_us, note_send_us,
    note_capture_to_send_us, note_result; case_match; done.
Qed.

Lemma rwd_note_send_ring q e t0 t1 ok :
  rq_ring (rwd_sendq_note_send q e t0 t1 ok) = rq_ring q.
Proof.
  unfold rwd_sendq_note_send. cbv zeta.
  etransitivity; [apply note_ring|]. etransitivity; [apply note_ring|].
  etransitivity; [apply note_ring|]. etransitivity; apply note_ring.
Qed.

Lemma rwd_env_ok q h q' h' :
  rq_owned q h -> rwd_env_rel (q, h) (q', h') ->
  rq_owned q' h' /\ rq_view q' = rq_view q /\ rq_abs q' h' = rq_abs q h /\
  rq_shutdown q' = rq_shutdown q /\ rq_needs_keyframe q' = rq_needs_keyframe q.
Proof.
  intros Ho [(Hq & Hw & Hk)|(Hh & e & t0 & t1 & ok & Hq)]; simpl in *; subst.
  - destruct Ho as (Hwf & Hd & _ & Hnd & Hl). split_and!; try done; [|by apply rq_frames_ext].
    split_and!; try done. split_and!; try done. apply list.Forall_forall. intros p Hp.
    rewrite Hk by done. by apply (proj1 (list.Forall_forall _ _) Hl).
  - injection (rwd_note_send_ring q e t0 t1 ok) as H1 H2 H3 H4 H5 H6.
    destruct (rq_owned_same q _ h H1 H2 H3 H4) as [Hv Ho'].
    split_and!; auto. unfold rq_abs. by rewrite Hv.
Qed.

#[export, program] Instance rwd_gated : GatedQueue (rwd_sendq * heap) (list Z * bool) := {|
  gq_key := snd;
  gq_inv s := rq_owned (fst s) (snd s);
  gq_closed s := rq_needs_keyframe (fst s) || rq_shutdown (fst s);
  gq_frames s := rwd_live_frames (fst s) (snd s);
  gq_push := rwd_push_rel;
  gq_pop := rwd_pop_rel;
  gq_fail s s' := rwd_sendq_fail (fst s) (snd s) = s';
  gq_shut s s' := s' = (rwd_sendq_shutdown (fst s), snd s);
  gq_env := rwd_env_rel
|}.
Next Obligation.
  intros [q h] f [q' h'] Ho (ok & ts & cap & enq & r & E). simpl in *.
  pose proof (rwd_push_ok ok q h (fst f) ts cap enq (snd f) Ho) as Hp. rewrite E in Hp.
  destruct Hp as (Ho' & _ & Hs & Hspec). split; [done|]. unfold rwd_live_frames. rewrite Hs.
  unfold spec_rwd_push in Hspec. destruct (rq_shutdown q).
  { rewrite !orb_true_r. apply push_refused. auto. }
  destruct ok; cbn [negb rf_key] in Hspec.
  2:{ injection Hspec as _ -> ->. apply push_refused. auto. }
  destruct (rq_needs_keyframe q && negb (snd f)) eqn:Hn.
  { injection Hspec as _ Hn' ->. bool_to_prop. rewrite Hn', orb_false_r.
    destruct (rq_needs_keyframe q); [|naive_solver]. apply push_refused. auto. }
  destruct (RWD_SENDQ_SLOTS <=? _)%nat; injection Hspec as _ -> ->.
  { apply push_refused. auto. }
  rewrite fmap_app. simpl. rewrite !orb_false_r.
  replace (rf_pay (mk_rwd_frame f.1 (u32 (Z.of_nat (length f.1))) ts cap enq f.2)) with f by (by destruct f).
  eapply (push_accepted _ _ _ _ []); [|done|by left].
  destruct (rq_needs_keyframe q), (snd f); auto.
Qed.
Next Obligation.
  intros [q h] f [q' h'] Ho (Hh & e & Hp & ->). simpl in *. subst h'.
  destruct (rwd_pop_ok q h e q' Ho Hp) as (Ho' & Ha & Hs & Hs' & Hn & _).
  split; [done|]. unfold rwd_live_frames. by rewrite Hs, Hs', Hn, Ha.
Qed.
Next Obligation.
  intros [q h] [q' h'] Ho E. simpl in *. pose proof (rwd_fail_ok q h Ho) as Hf. rewrite E in Hf.
  destruct Hf as (Ho' & _ & Hs & Hx). split; [done|]. unfold rwd_live_frames. rewrite Hs.
  destruct (rq_shutdown q); [by rewrite orb_true_r|]. by injection Hx as -> ->.
Qed.
Next Obligation.
  intros [q h] [q' h'] Ho E. simpl in *. injection E as -> ->. split; [done|].
  unfold rwd_live_frames. simpl. by rewrite orb_true_r.
Qed.
Next Obligation.
  intros [q h] [q' h'] Ho E. simpl in *.
  destruct (rwd_env_ok q h q' h' Ho E) as (Ho' & _ & Ha & Hs & Hn).
  unfold rwd_live_frames. by rewrite Ha, Hs, Hn.
Qed.

(** ** The reader, the queue and the send thread of one client *)

Section client_system.
(** The ring frames of the client's stream: bytes, keyframe flag. *)
Variable stream : nat -> list Z * bool.

Record rwd_sys := mk_rwd_sys {
  ws_next : nat;
  ws_client : rwd_client;
  ws_heap : heap;
  ws_inflight : option (rwd_sendq_entry * rwd_frame);  (* entry, and the frame popped *)
  ws_sent : list rwd_frame
}.

Inductive rwd_step : rwd_sys -> rwd_sys -> Prop :=
  | rwd_step_frame n c h fl sent ok ts cap now idr c' h' :
      rwd_client_video_frame ok (fst (stream n)) ts cap now (snd (stream n)) c h = (idr, c', h') ->
      rwd_step (mk_rwd_sys n c h fl sent) (mk_rwd_sys (S n) c' h' fl sent)
  | rwd_step_lost n c h fl sent n' :
      (* the reader fell behind or overflowed: frames [n..n'-1] are never seen *)
      (n <= n')%nat -> rc_sending c = true ->
      rwd_step (mk_rwd_sys n c h fl sent)
               (mk_rwd_sys n' (c <| rc_waiting_keyframe := true |>) h fl sent)
  | rwd_step_pop n c h sent e q' :
      rwd_sendq_pop (rc_sendq c) = PopEntry e q' ->
      rwd_step (mk_rwd_sys n c h None sent)
               (mk_rwd_sys n (c <| rc_sendq := q' |>) h (Some (e, rq_frame h e)) sent)
  | rwd_step_send n c h sent e f t0 t1 res c' h' :
      (* rwd_send_video_frame returns 0 or -1 *)
      res = 0 \/ res = -1 ->
      rwd_client_send_step c e t0 t1 res h = (c', h') ->
      rwd_step (mk_rwd_sys n c h (Some (e, f)) sent)
               (mk_rwd_sys n c' h' None (if rc_sending c && (res =? 0) then sent ++ [f] else sent))
  | rwd_step_stop n c h fl sent :
      rwd_step (mk_rwd_sys n c h fl sent)
               (mk_rwd_sys n (c <| rc_sending := false |>) h fl sent)
  | rwd_step_shutdown n c h fl sent :
      rwd_step (mk_rwd_sys n c h fl sent)
               (mk_rwd_sys n (c <| rc_sendq := rwd_sendq_shutdown (rc_sendq c) |>) h fl sent).

Definition fl_frames (fl : option (rwd_sendq_entry * rwd_frame)) : list (list Z * bool) :=
  match fl with Some (_, f) => [rf_pay f] | None => [] end.

(** The invariant: the queue owns its memory, the block being sent is the send
    thread's, everything sent decodes, and while the client is sending the
    whole is a gated system. *)
Definition rwd_inv (s : rwd_sys) : Prop :=
  let c := ws_client s in let q := rc_sendq c in let h := ws_heap s in
  rq_owned q h /\
  (forall e f, ws_inflight s = Some (e, f) -> exists p, re_data e = Some p /\ p ∈ rq_foreign q h) /\
  (exists ns, stream <$> ns = rf_pay <$> ws_sent s /\ decodable (gate_key stream) ns) /\
  (rc_sending c = true -> rc_send_thread_started c = true) /\
  (rc_sending c = true ->
   gate_inv stream (mk_gate_sys (ws_next s) (rc_waiting_keyframe c) (q, h)
                      (fl_frames (ws_inflight s)) (rf_pay <$> ws_sent s))).

Lemma gate_sent_decodable s :
  gate_inv stream s -> exists ns, stream <$> ns = gs_sent s /\ decodable (gate_key stream) ns.
Proof.
  intros (_ & ns & Hns & Hd & _). apply stream_split in Hns as (n1 & n2 & -> & H1 & _).
  exists n1. split; [done|]. by eapply decodable_app_l.
Qed.

(** Freeing the block in flight is nobody's business in the queue. *)
Lemma rq_free_foreign q h p :
  rq_owned q h -> p ∈ rq_foreign q h -> rwd_env_rel (q, h) (q, heap_free (Some p) h).
Proof.
  intros (_ & _ & Hw & _) Hp. unfold rq_foreign, foreign in Hp.
  apply elem_of_difference in Hp as [Hp Hn]. apply elem_of_dom in Hp.
  left. simpl. split; [done|]. split; [by apply heap_free_wf|].
  intros x Hx. unfold heap_free. destruct Hp as [v ->]. simpl. apply lookup_delete_ne.
  intros <-. apply Hn. by apply elem_of_list_to_set.
Qed.

Lemma rwd_inv_frame n c h fl sent ok ts cap now idr c' h' :
  rwd_client_video_frame ok (fst (stream n)) ts cap now (snd (stream n)) c h = (idr, c', h') ->
  rwd_inv (mk_rwd_sys n c h fl sent) -> rwd_inv (mk_rwd_sys (S n) c' h' fl sent).
Proof.
  intros E (Ho & Hfl & Hsent & Hst & Hg). simpl in *. unfold rwd_client_video_frame in E.
  destruct (rc_sending c) eqn:Hs; cbn [negb] in E.
  2:{ injection E as _ <- <-. split_and!; try done; simpl; congruence. }
  specialize (Hg eq_refl). specialize (Hst eq_refl).
  destruct (rc_waiting_keyframe c && negb (snd (stream n))) eqn:Hw.
  { injection E as _ <- <-. bool_to_prop. split_and!; try done. simpl. intros _.
    replace (rc_waiting_keyframe c) with true in * by done.
    eapply gate_step_inv; [|exact Hg]. apply gate_skip. lia. }
  revert E. set (c1 := if rc_waiting_keyframe c then _ else c).
  assert (H1 : rc_sending c1 = true /\ rc_sendq c1 = rc_sendq c /\ rc_send_thread_started c1 = true).
  { unfold c1. destruct (rc_waiting_keyframe c) eqn:Hwk; [|done].
    by destruct (rc_video_ts_base_set c). }
  destruct H1 as (Hs1 & Hq1 & Hst1). cbv zeta. rewrite Hst1, Hq1. cbn [negb].
  destruct (rwd_sendq_push _ _ _ _ _ _ _ _) as [[r q'] h1] eqn:Hp.
  pose proof (rwd_push_ok ok _ h (fst (stream n)) (u32 (ts - rc_video_ts_offset c1)) cap now
                (snd (stream n)) Ho) as Hok.
  rewrite Hp in Hok. destruct Hok as (Ho' & Hf' & _ & _).
  assert (Hgate : forall w', gate_inv stream (mk_gate_sys (S n) w' (q', h1) (fl_frames fl) (rf_pay <$> sent))).
  { intros w'. eapply gate_step_inv; [|exact Hg]. apply gate_push.
    - destruct (rc_waiting_keyframe c); simpl in *; [right; by apply negb_false_iff|by left].
    - do 5 eexists. exact Hp. }
  intros E. destruct (r =? 0); injection E as _ <- <-;
    (split; simpl; [done|]); (split; [intros e f Hef; rewrite Hf'; by eapply Hfl|]);
    (split; [done|]); (split; [by rewrite Hst1|]); intros _; apply Hgate.
Qed.

Lemma rwd_inv_pop n c h sent e q' :
  rwd_sendq_pop (rc_sendq c) = PopEntry e q' ->
  rwd_inv (mk_rwd_sys n c h None sent) ->
  rwd_inv (mk_rwd_sys n (c <| rc_sendq := q' |>) h (Some (e, rq_frame h e)) sent).
Proof.
  intros E (Ho & Hfl & Hsent & Hst & Hg). simpl in *.
  destruct (rwd_pop_ok _ _ _ _ Ho E) as (Ho' & _ & _ & _ & _ & p & Hp & Hf).
  split; [done|]. split; [|split; [done|split; [done|]]]; simpl.
  - intros e' f [= <- <-]. exists p. split; [done|]. rewrite Hf. set_solver.
  - intros Hs. eapply gate_step_inv; [|exact (Hg Hs)]. apply gate_pop.
    split; [done|]. by exists e.
Qed.

Lemma rwd_inv_send n c h sent e f t0 t1 res c' h' :
  res = 0 \/ res = -1 -> rwd_client_send_step c e t0 t1 res h = (c', h') ->
  rwd_inv (mk_rwd_sys n c h (Some (e, f)) sent) ->
  rwd_inv (mk_rwd_sys n c' h' None (if rc_sending c && (res =? 0) then sent ++ [f] else sent)).
Proof.
  intros Hres E (Ho & Hfl & Hsent & Hst & Hg). simpl in *.
  destruct (Hfl e f eq_refl) as (p & Hp & Hin). unfold rwd_client_send_step in E. rewrite Hp in E.
  pose proof (rq_free_foreign _ _ _ Ho Hin) as Henv.
  destruct (rc_sending c) eqn:Hs; cbn [negb andb] in *.
  2:{ injection E as <- <-. destruct (rwd_env_ok _ _ _ _ Ho Henv) as (Ho' & _).
      split_and!; try done; simpl; congruence. }
  specialize (Hg eq_refl). specialize (Hst eq_refl).
  set (q1 := rwd_sendq_note_send _ _ _ _ _) in *.
  assert (Hn1 : rwd_env_rel (rc_sendq c, h) (q1, h)) by (right; split; [done|]; by do 4 eexists).
  destruct (rwd_env_ok _ _ _ _ Ho Hn1) as (Ho1 & Hv1 & _).
  assert (Hg1 : gate_inv stream (mk_gate_sys n (rc_waiting_keyframe c) (q1, h) [rf_pay f] (rf_pay <$> sent))).
  { eapply gate_step_inv; [|exact Hg]. by apply gate_env. }
  assert (Hin1 : p ∈ rq_foreign q1 h) by (unfold rq_foreign; by rewrite Hv1).
  destruct Hres as [-> | ->]; cbn [Z.ltb Z.compare Z.eqb] in E |- *.
  - injection E as <- <-. pose proof (rq_free_foreign _ _ _ Ho1 Hin1) as He2.
    destruct (rwd_env_ok _ _ _ _ Ho1 He2) as (Ho2 & _).
    assert (Hg2 : gate_inv stream (mk_gate_sys n (rc_waiting_keyframe c)
              (q1, heap_free (Some p) h) [] (rf_pay <$> sent ++ [f]))).
    { eapply gate_step_inv; [by apply gate_env|].
      rewrite fmap_app. eapply gate_step_inv; [apply gate_sent|exact Hg1]. }
    split; [done|]. split; [done|]. split; [exact (gate_sent_decodable _ Hg2)|]. done.
  - destruct (rwd_sendq_fail q1 h) as [q2 h2] eqn:Hfail. injection E as <- <-.
    pose proof (rwd_fail_ok q1 h Ho1) as Hok. rewrite Hfail in Hok. destruct Hok as (Ho2 & Hf2 & _).
    rewrite <- Hf2 in Hin1. pose proof (rq_free_foreign _ _ _ Ho2 Hin1) as He2.
    destruct (rwd_env_ok _ _ _ _ Ho2 He2) as (Ho3 & _).
    split; [done|]. split; [done|]. split; [done|]. split; [done|]. intros _.
    eapply gate_step_inv; [by apply gate_env|].
    eapply gate_step_inv; [|exact Hg1]. apply gate_failed. exact Hfail.
Qed.

Lemma rwd_step_inv s s' : rwd_step s s' -> rwd_inv s -> rwd_inv s'.
Proof.
  intros [n c h fl sent ok ts cap now idr c' h' E|n c h fl sent n' Hn Hs|n c h sent e q' E
         |n c h sent e f t0 t1 res c' h' Hres E|n c h fl sent|n c h fl sent];
    [by eapply rwd_inv_frame| |by apply rwd_inv_pop|by eapply rwd_inv_send| |];
    intros (Ho & Hfl & Hsent & Hst & Hg); simpl in *.
  - split_and!; try done. simpl. intros _. eapply gate_step_inv; [|by apply Hg].
    by apply gate_skip.
  - by split_and!.
  - split_and!; try done. simpl. intros Hs. eapply gate_step_inv; [|by apply Hg].
    by apply gate_shut.
Qed.

Lemma rwd_steps_inv s s' : rtc rwd_step s s' -> rwd_inv s -> rwd_inv s'.
Proof. induction 1; eauto using rwd_step_inv. Qed.
End client_system.

Lemma rwd_init_owned h : heap_wf h -> rq_owned rwd_sendq_init h.
Proof.
  intros Hh. apply rq_empty_owned; [|done|done]. repeat split; vm_compute; lia.
Qed.


Definition rwd_demo_stream (n : nat) : list Z * bool := ([Z.of_nat n], (n =? 1)%nat).

Definition rwd_demo_client : rwd_client := mk_rwd_client false false false 0 false rwd_sendq_init.

Lemma rwd_step_frame_run stream n c h fl sent :
  let x := rwd_client_video_frame true (fst (stream n)) 0 0 0 (snd (stream n)) c h in
  rwd_step stream (mk_rwd_sys n c h fl sent) (mk_rwd_sys (S n) (snd (fst x)) (snd x) fl sent).
Proof.
  intros x. apply (rwd_step_frame _ _ _ _ _ _ true 0 0 0 (fst (fst x))). subst x.
  by destruct (rwd_client_video_frame _ _ _ _ _ _ _ _) as [[? ?] ?].
Qed.


(** Every operation of the queue refines the abstract gate: the push
    verdict, the keyframe latch and the queued frames are those of the
    specification, memory is owned before and after, and no foreign block is
    leaked or freed, for both outcomes of the allocation. *)
Theorem rwd_push_refines ok q h data ts cap enq key :
  rq_owned q h ->
  let f := mk_rwd_frame data (u32 (Z.of_nat (length data))) ts cap enq key in
  let '(r, q', h') := rwd_sendq_push ok q h data ts cap enq key in
  rq_owned q' h' /\ rq_foreign q' h' = rq_foreign q h /\ rq_shutdown q' = rq_shutdown q /\
  (r, rq_needs_keyframe q', rq_abs q' h') =
    spec_rwd_push ok (rq_shutdown q) (rq_needs_keyframe q) (rq_abs q h) f.
Proof. exact (rwd_push_ok ok q h data ts cap enq key). Qed.

Lemma rwd_push_refines_witness :
  let '(r, q', h') := rwd_sendq_push true rwd_sendq_init (mkheap ∅ 0 false) [7] 1 2 3 true in
  r = 0 /\ length (rq_abs q' h') = 1%nat.
Proof.
  assert (Hh : heap_wf (mkheap ∅ 0 false)) by (split; [done|]; intros p _; apply lookup_empty).
  pose proof (rwd_push_refines true rwd_sendq_init (mkheap ∅ 0 false) [7] 1 2 3 true
                (rwd_init_owned _ Hh)) as H.
  destruct (rwd_sendq_push _ _ _ _ _ _ _ _) as [[r q'] h']. destruct H as (_ & _ & _ & E).
  pose proof (f_equal (fun x => fst (fst x)) E) as Er. pose proof (f_equal snd E) as Ea.
  cbn [fst snd] in Er, Ea. rewrite Er, Ea. by vm_compute.
Defined.
