(* ===== verification/Rsd555Queue.v ===== *)
(** * rsd-555: shared frames and per-client queues (rsd-555/rsd555_queue.c)

    One refcounted copy of a frame is referenced from the queue of every
    client.  [refs_ok st X] says that the store's reference counts are exactly
    the multiset [X] of references held; every operation is proved against it,
    so nothing leaks and nothing is used after it was freed.  A key-gated queue
    is an instance of [GatedQueue]. *)

From stdpp Require Import gmap gmultiset list.
From S2P Require Import Prelude Gate.

(** ** Shared frames *)

Record shared_frame := mk_shared_frame {
  sf_refcnt : Z;
  sf_len : Z;
  sf_timestamp_us : Z;
  sf_nal_type : Z;
  sf_is_key : bool;
  sf_data : list Z
}.

#[export] Instance eta_shared_frame : Settable shared_frame :=
  fun f => mk_shared_frame (sf_refcnt f) (sf_len f) (sf_timestamp_us f) (sf_nal_type f)
    (sf_is_key f) (sf_data f).

(** The live shared frames by address; [st_bad] latches a reference count
    operation on a frame that is not live. *)
Record store := mk_store {
  st_frames : gmap nat shared_frame;
  st_next : nat;
  st_bad : bool
}.

#[export] Instance eta_store : Settable store :=
  fun s => mk_store (st_frames s) (st_next s) (st_bad s).

Definition rsd555_shared_frame_new (alloc_ok : bool) (data : list Z) (timestamp_us nal_type : Z)
    (is_key : bool) (st : store) : option nat * store :=
  if negb alloc_ok then (None, st) else
  let p := st_next st in
  (Some p,
   st <| st_frames := <[p := mk_shared_frame 1 (Z.of_nat (length data)) timestamp_us nal_type
                               is_key data]> (st_frames st) |>
      <| st_next := S p |>).

Definition rsd555_shared_frame_ref (p : nat) (st : store) : store :=
  match st_frames st !! p with
  | Some f => st <| st_frames := <[p := f <| sf_refcnt := sf_refcnt f + 1 |>]> (st_frames st) |>
  | None => st <| st_bad := true |>
  end.

Definition rsd555_shared_frame_unref (p : nat) (st : store) : store :=
  match st_frames st !! p with
  | Some f =>
      if sf_refcnt f - 1 =? 0 then st <| st_frames := delete p (st_frames st) |>
      else st <| st_frames := <[p := f <| sf_refcnt := sf_refcnt f - 1 |>]> (st_frames st) |>
  | None => st <| st_bad := true |>
  end.

(** ** Queues *)

Record frame_queue := mk_frame_queue {
  fq_frames : list nat;        (* head..tail: the shared frame of each node *)
  fq_count : Z;
  fq_max_count : Z;
  fq_key_gated : bool;
  fq_waiting_key : bool;
  fq_event : Z                 (* writes to event_fd *)
}.

#[export] Instance eta_frame_queue : Settable frame_queue :=
  fun q => mk_frame_queue (fq_frames q) (fq_count q) (fq_max_count q) (fq_key_gated q)
    (fq_waiting_key q) (fq_event q).

Definition rsd555_queue_init (max_frames : Z) (key_gated : bool) : frame_queue :=
  mk_frame_queue [] 0 max_frames key_gated key_gated 0.

(** [while (q->head) ...] of rsd555_queue_destroy. *)
Fixpoint destroy_frames (l : list nat) (st : store) : store :=
  match l with
  | [] => st
  | p :: l => destroy_frames l (rsd555_shared_frame_unref p st)
  end.

Definition rsd555_queue_destroy (q : frame_queue) (st : store) : frame_queue * store :=
  (q <| fq_frames := [] |>, destroy_frames (fq_frames q) st).

Definition sf_key (st : store) (p : nat) : bool :=
  match st_frames st !! p with Some f => sf_is_key f | None => false end.

(** [while (q->count >= q->max_count && q->head)]: what is left, the count, the
    store, and whether anything was dropped. *)
Fixpoint drop_overflow (l : list nat) (count max_count : Z) (st : store)
    : list nat * Z * store * bool :=
  match l with
  | p :: l' =>
      if max_count <=? count then
        let '(l'', c, st, _) := drop_overflow l' (count - 1) max_count
                                  (rsd555_shared_frame_unref p st) in
        (l'', c, st, true)
      else (l, count, st, false)
  | [] => (l, count, st, false)
  end.

(** [while (q->head && !q->head->shared->is_key)]. *)
Fixpoint drop_to_key (l : list nat) (count : Z) (st : store) : list nat * Z * store :=
  match l with
  | p :: l' =>
      if sf_key st p then (l, count, st)
      else drop_to_key l' (count - 1) (rsd555_shared_frame_unref p st)
  | [] => (l, count, st)
  end.

Definition rsd555_queue_push_ref (alloc_ok : bool) (q : frame_queue) (sf : nat) (st : store)
    : Z * frame_queue * store :=
  if fq_waiting_key q && negb (sf_key st sf) then (0, q, st) else
  let q := q <| fq_waiting_key := false |> in
  if negb alloc_ok then (-1, q, st) else
  let st := rsd555_shared_frame_ref sf st in
  let '(l, count, st, dropped) := drop_overflow (fq_frames q) (fq_count q) (fq_max_count q) st in
  let '(l, count, st) :=
    if dropped && fq_key_gated q then drop_to_key l count st else (l, count, st) in
  if dropped && fq_key_gated q && (length l =? 0)%nat && negb (sf_key st sf) then
    (0, q <| fq_frames := l |> <| fq_count := count |> <| fq_waiting_key := true |>,
     rsd555_shared_frame_unref sf st)
  else
    (0, q <| fq_frames := l ++ [sf] |> <| fq_count := count + 1 |>
          <| fq_event := fq_event q + 1 |>, st).

Definition rsd555_queue_pop (q : frame_queue) : option nat * frame_queue :=
  match fq_frames q with
  | p :: l => (Some p, q <| fq_frames := l |> <| fq_count := fq_count q - 1 |>)
  | [] => (None, q)
  end.

Definition rsd555_frame_free (f : option nat) (st : store) : store :=
  match f with Some p => rsd555_shared_frame_unref p st | None => st end.

(** fan_out_shared: every source queue of the snapshot gets a reference. *)
Fixpoint fan_out_shared (env : nat -> bool) (i : nat) (qs : list frame_queue) (sf : nat)
    (st : store) : list frame_queue * store :=
  match qs with
  | [] => ([], st)
  | q :: qs =>
      let '(_, q, st) := rsd555_queue_push_ref (env i) q sf st in
      let '(qs, st) := fan_out_shared env (S i) qs sf st in (q :: qs, st)
  end.

(** The reader's body around a ring frame: make the shared copy, fan it out,
    drop the reader's own reference. *)
Definition rsd555_publish (alloc_ok : bool) (env : nat -> bool) (data : list Z)
    (timestamp_us nal_type : Z) (is_key : bool) (qs : list frame_queue) (st : store)
    : list frame_queue * store :=
  if (length qs =? 0)%nat then (qs, st) else
  match rsd555_shared_frame_new alloc_ok data timestamp_us nal_type is_key st with
  | (None, st) => (qs, st)
  | (Some sf, st) =>
      let '(qs, st) := fan_out_shared env 0 qs sf st in (qs, rsd555_shared_frame_unref sf st)
  end.

(** ** Reference counting *)

Definition refs_ok (st : store) (X : gmultiset nat) : Prop :=
  st_bad st = false /\ (forall p, (st_next st <= p)%nat -> st_frames st !! p = None) /\
  forall p, match st_frames st !! p with
            | Some f => sf_refcnt f = Z.of_nat (multiplicity p X) /\ (0 < multiplicity p X)%nat
            | None => multiplicity p X = 0%nat
            end.

(** What a frame is, apart from its count; it never changes while it lives. *)
Definition sf_body (f : shared_frame) := f <| sf_refcnt := 0 |>.

(** Frames with a reference in [X] are the same in both stores. *)
Definition same_frames (X : gmultiset nat) (st st' : store) : Prop :=
  forall p, p ∈ X -> sf_body <$> st_frames st' !! p = sf_body <$> st_frames st !! p.

Lemma same_frames_refl X st : same_frames X st st.
Proof. by intros p _. Qed.

#[local] Hint Resolve same_frames_refl : core.

Lemma same_frames_trans X Y st1 st2 st3 :
  Y ⊆ X -> same_frames X st1 st2 -> same_frames Y st2 st3 -> same_frames Y st1 st3.
Proof. intros Hs H1 H2 p Hp. rewrite H2 by done. apply H1. multiset_solver. Qed.

Lemma same_frames_key X st st' p : same_frames X st st' -> p ∈ X -> sf_key st' p = sf_key st p.
Proof.
  intros Hs Hp. specialize (Hs p Hp). unfold sf_key.
  destruct (st_frames st' !! p) as [[]|], (st_frames st !! p) as [[]|]; simplify_eq/=; done.
Qed.

Lemma refs_ok_live st X p : refs_ok st X -> p ∈ X -> is_Some (st_frames st !! p).
Proof.
  intros (_ & _ & Hr) Hp. specialize (Hr p). revert Hr. destruct (st_frames st !! p); [done|]. intros Hr.
  rewrite elem_of_multiplicity in Hp. lia.
Qed.

Lemma ref_ok st X p :
  refs_ok st X -> p ∈ X ->
  let st' := rsd555_shared_frame_ref p st in
  refs_ok st' ({[+ p +]} ⊎ X) /\ same_frames X st st'.
Proof.
  intros Hok Hp. destruct (refs_ok_live st X p Hok Hp) as [f Hf]. destruct Hok as (Hb & Hn & Hr).
  unfold rsd555_shared_frame_ref. rewrite Hf. split; [split; [done|split]|]; simpl.
  - intros x Hx. rewrite lookup_insert_ne by (intros <-; rewrite Hn in Hf; done). by apply Hn.
  - intros x. rewrite multiplicity_disj_union, multiplicity_singleton.
    pose proof (Hr x) as Hx. destruct (decide (x = p)) as [->|Hne].
    + rewrite lookup_insert_eq. simpl. rewrite Hf in Hx. lia.
    + rewrite lookup_insert_ne by done. revert Hx. destruct (st_frames st !! x); simpl; lia.
  - intros x _. simpl. destruct (decide (x = p)) as [->|Hne].
    + by rewrite lookup_insert_eq, Hf.
    + by rewrite lookup_insert_ne by done.
Qed.

Lemma unref_ok st X p :
  refs_ok st ({[+ p +]} ⊎ X) ->
  let st' := rsd555_shared_frame_unref p st in
  refs_ok st' X /\ same_frames X st st'.
Proof.
  intros Hok. assert (Hp : p ∈ ({[+ p +]} ⊎ X : gmultiset nat)) by multiset_solver.
  destruct (refs_ok_live _ _ p Hok Hp) as [f Hf]. destruct Hok as (Hb & Hn & Hr).
  pose proof (Hr p) as Hc. rewrite Hf, multiplicity_disj_union, multiplicity_singleton_eq in Hc.
  unfold rsd555_shared_frame_unref. rewrite Hf. destruct (_ =? 0) eqn:E; bool_to_prop.
  - split; [split; [done|split]|]; simpl.
    + intros x Hx. apply lookup_delete_None. right. by apply Hn.
    + intros x. pose proof (Hr x) as Hx. rewrite multiplicity_disj_union, multiplicity_singleton in Hx.
      destruct (decide (x = p)) as [->|Hne]; [rewrite lookup_delete_eq; lia|].
      rewrite lookup_delete_ne by done. revert Hx. destruct (st_frames st !! x); simpl; lia.
    + intros x Hx. simpl. rewrite lookup_delete_ne; [done|]. intros <-.
      rewrite elem_of_multiplicity in Hx. lia.
  - split; [split; [done|split]|]; simpl.
    + intros x Hx. rewrite lookup_insert_ne by (intros <-; rewrite Hn in Hf; done). by apply Hn.
    + intros x. pose proof (Hr x) as Hx. rewrite multiplicity_disj_union, multiplicity_singleton in Hx.
      destruct (decide (x = p)) as [->|Hne].
      * rewrite lookup_insert_eq. simpl. lia.
      * rewrite lookup_insert_ne by done. revert Hx. destruct (st_frames st !! x); simpl; lia.
    + intros x _. simpl. destruct (decide (x = p)) as [->|Hne].
      * by rewrite lookup_insert_eq, Hf.
      * by rewrite lookup_insert_ne by done.
Qed.

(** ** Queue operations against the references *)

Definition ms (l : list nat) : gmultiset nat := list_to_set_disj l.

Definition fq_ok (q : frame_queue) : Prop := fq_count q = Z.of_nat (length (fq_frames q)).

Lemma ms_cons p l (X : gmultiset nat) : ms (p :: l) ⊎ X = {[+ p +]} ⊎ (ms l ⊎ X).
Proof. unfold ms. simpl. by rewrite (assoc_L (⊎)). Qed.

Lemma ms_snoc p l (X : gmultiset nat) : {[+ p +]} ⊎ (ms l ⊎ X) = ms (l ++ [p]) ⊎ X.
Proof. unfold ms. rewrite list_to_set_disj_app. simpl. multiset_solver. Qed.

Lemma drop_overflow_ok l c mx st X :
  refs_ok st (ms l ⊎ X) ->
  let '(l', c', st', d) := drop_overflow l c mx st in
  exists dr, l = dr ++ l' /\ c' = c - Z.of_nat (length dr) /\ refs_ok st' (ms l' ⊎ X) /\
    same_frames (ms l' ⊎ X) st st' /\ (d = false -> dr = []) /\ (l' = [] \/ c' < mx).
Proof.
  revert c st. induction l as [|p l IH]; intros c st Hok; cbn [drop_overflow].
  { exists []. split_and!; try done; [simpl; lia|by left]. }
  destruct (mx <=? c) eqn:E; bool_to_prop.
  2:{ exists []. split_and!; try done; [simpl; lia|by right]. }
  rewrite ms_cons in Hok. destruct (unref_ok _ _ _ Hok) as [Hok' Hs].
  specialize (IH (c - 1) _ Hok').
  destruct (drop_overflow l (c - 1) mx _) as [[[l' c'] st'] d].
  destruct IH as (dr & -> & -> & Hr & Hs' & _ & Hc).
  exists (p :: dr). split_and!; try done; [simpl; lia|].
  eapply same_frames_trans; [|exact Hs|exact Hs'].
  unfold ms. rewrite list_to_set_disj_app. multiset_solver.
Qed.

Lemma drop_to_key_ok l c st X :
  refs_ok st (ms l ⊎ X) ->
  let '(l', c', st') := drop_to_key l c st in
  exists dr, l = dr ++ l' /\ c' = c - Z.of_nat (length dr) /\ refs_ok st' (ms l' ⊎ X) /\
    same_frames (ms l' ⊎ X) st st' /\
    (l' = [] \/ exists x, head l' = Some x /\ sf_key st' x = true).
Proof.
  revert c st. induction l as [|p l IH]; intros c st Hok; cbn [drop_to_key].
  { exists []. split_and!; try done; [simpl; lia|by left]. }
  destruct (sf_key st p) eqn:E.
  { exists []. split_and!; try done; [simpl; lia|right; by exists p]. }
  rewrite ms_cons in Hok. destruct (unref_ok _ _ _ Hok) as [Hok' Hs].
  specialize (IH (c - 1) _ Hok'). destruct (drop_to_key l (c - 1) _) as [[l' c'] st'].
  destruct IH as (dr & -> & -> & Hr & Hs' & Hk).
  exists (p :: dr). split_and!; try done; [simpl; lia|].
  eapply same_frames_trans; [|exact Hs|exact Hs'].
  unfold ms. rewrite list_to_set_disj_app. multiset_solver.
Qed.

(** The three things a push that gets its node can do to the queue. *)
Inductive push555 (q : frame_queue) (sf : nat) (key : nat -> bool) : frame_queue -> Prop :=
  | push555_held :
      fq_waiting_key q = true -> key sf = false -> push555 q sf key q
  | push555_rearmed q' :
      fq_key_gated q = true -> key sf = false -> fq_waiting_key q' = true ->
      fq_frames q' = [] -> push555 q sf key q'
  | push555_queued q' dr kept :
      fq_waiting_key q = false \/ key sf = true ->
      fq_frames q = dr ++ kept -> fq_frames q' = kept ++ [sf] -> fq_waiting_key q' = false ->
      kept = [] \/ Z.of_nat (length kept) < fq_max_count q ->
      (fq_key_gated q = true ->
       dr = [] \/ exists x, head (kept ++ [sf]) = Some x /\ key x = true) ->
      push555 q sf key q'.

Lemma push_overflow_ok q sf st X :
  fq_ok q -> refs_ok st (ms (fq_frames q) ⊎ X) -> sf ∈ X ->
  let '(l, count, st1, dropped) := drop_overflow (fq_frames q) (fq_count q) (fq_max_count q) st in
  let '(l, count, st1) :=
    if dropped && fq_key_gated q then drop_to_key l count st1 else (l, count, st1) in
  exists dr, fq_frames q = dr ++ l /\ count = Z.of_nat (length l) /\ refs_ok st1 (ms l ⊎ X) /\
    same_frames (ms l ⊎ X) st st1 /\ (dropped = false -> dr = []) /\
    (l = [] \/ count < fq_max_count q) /\
    (dropped && fq_key_gated q = true -> l = [] \/ exists x, head l = Some x /\ sf_key st1 x = true).
Proof.
  intros Hc Hok Hx. pose proof (drop_overflow_ok _ (fq_count q) (fq_max_count q) st X Hok) as H1.
  destruct (drop_overflow _ _ _ st) as [[[l1 c1] st1] d].
  destruct H1 as (dr1 & Hl1 & Hc1 & Hr1 & Hs1 & Hd1 & Hm1). unfold fq_ok in Hc.
  assert (c1 = Z.of_nat (length l1)) as Hc1' by (rewrite Hl1, length_app in Hc; lia).
  destruct (d && fq_key_gated q) eqn:E.
  - pose proof (drop_to_key_ok l1 c1 st1 X Hr1) as H2.
    destruct (drop_to_key l1 c1 st1) as [[l2 c2] st2].
    destruct H2 as (dr2 & -> & Hc2 & Hr2 & Hs2 & Hk2).
    exists (dr1 ++ dr2). rewrite length_app in Hc1'. split_and!; try done.
    + by rewrite <- app_assoc.
    + lia.
    + eapply same_frames_trans; [|exact Hs1|exact Hs2].
      unfold ms. rewrite list_to_set_disj_app. multiset_solver.
    + intros ->. done.
    + destruct Hm1 as [Hm|Hm]; [left; by apply app_nil in Hm as [_ ?]|right; lia].
  - exists dr1. split_and!; try done.
Qed.

Lemma push_ref_ok q sf st X :
  fq_ok q -> refs_ok st (ms (fq_frames q) ⊎ X) -> sf ∈ X ->
  let '(r, q', st') := rsd555_queue_push_ref true q sf st in
  r = 0 /\ fq_ok q' /\ fq_key_gated q' = fq_key_gated q /\ fq_max_count q' = fq_max_count q /\
  refs_ok st' (ms (fq_frames q') ⊎ X) /\ same_frames (ms (fq_frames q') ⊎ X) st st' /\
  push555 q sf (sf_key st) q'.
Proof.
  intros Hc Hok Hx. unfold rsd555_queue_push_ref.
  destruct (fq_waiting_key q && negb (sf_key st sf)) eqn:Hw.
  { bool_to_prop. split_and!; try done. by apply push555_held. }
  set (q1 := q <| fq_waiting_key := false |>). cbv zeta. cbn [negb].
  destruct (ref_ok st (ms (fq_frames q) ⊎ X) sf Hok ltac:(multiset_solver)) as [Hok1 Hs1].
  set (st1 := rsd555_shared_frame_ref sf st) in *.
  replace ({[+ sf +]} ⊎ (ms (fq_frames q) ⊎ X)) with (ms (fq_frames q1) ⊎ ({[+ sf +]} ⊎ X)) in Hok1
    by (simpl; multiset_solver).
  pose proof (push_overflow_ok q1 sf st1 ({[+ sf +]} ⊎ X) Hc Hok1 ltac:(multiset_solver)) as H.
  destruct (drop_overflow _ _ _ st1) as [[[l1 c1] st2] d]. cbv beta iota in H.
  destruct (if d && fq_key_gated q1 then _ else _) as [[l count] st3].
  destruct H as (dr & Hl & -> & Hr & Hs & Hd & Hm & Hk).
  assert (Hkx : forall x, x ∈ l ++ [sf] -> sf_key st3 x = sf_key st x).
  { intros x Hx'.
    assert (x ∈ ms l ⊎ ({[+ sf +]} ⊎ X)).
    { apply gmultiset_elem_of_disj_union. apply elem_of_app in Hx' as [Hx'|Hx'].
      - left. unfold ms. by apply elem_of_list_to_set_disj.
      - apply list_elem_of_singleton in Hx' as ->. right. multiset_solver. }
    rewrite (same_frames_key _ _ _ x Hs) by done. apply (same_frames_key _ _ _ x Hs1).
    simpl in Hl. rewrite Hl. unfold ms in *. rewrite list_to_set_disj_app. multiset_solver. }
  assert (Hsub : forall Y, Y ⊆ ms l ⊎ X -> same_frames Y st st3).
  { intros Y HY x Hx'. rewrite Hs by multiset_solver. apply Hs1. simpl in Hl. rewrite Hl.
    unfold ms in *. rewrite list_to_set_disj_app. multiset_solver. }
  rewrite (Hkx sf) by (apply elem_of_app; right; by left).
  destruct (d && fq_key_gated q1 && (length l =? 0)%nat && negb (sf_key st sf)) eqn:Hre.
  - bool_to_prop. destruct l; [|done].
    replace (ms [] ⊎ ({[+ sf +]} ⊎ X)) with ({[+ sf +]} ⊎ X) in Hr by (unfold ms; simpl; multiset_solver).
    destruct (unref_ok _ _ _ Hr) as [Hr' Hs'].
    replace X with (ms [] ⊎ X) in Hr' at 1 by (unfold ms; simpl; multiset_solver).
    split_and!; try done.
    + intros x Hx'. simpl in Hx'. unfold ms in Hx'. simpl in Hx'.
      assert (x ∈ X) by multiset_solver. rewrite Hs' by done. apply (Hsub (ms [] ⊎ X)); [done|].
      unfold ms. simpl. multiset_solver.
    + by apply push555_rearmed.
  - split_and!; try done.
    + unfold fq_ok. simpl. rewrite length_app. simpl. lia.
    + simpl. replace (ms (l ++ [sf]) ⊎ X) with (ms l ⊎ ({[+ sf +]} ⊎ X)); [done|].
      unfold ms. rewrite list_to_set_disj_app. simpl. multiset_solver.
    + intros x Hx'. apply (Hsub (ms l ⊎ X)); [done|]. simpl in Hx'. unfold ms in *.
      rewrite list_to_set_disj_app in Hx'. simpl in Hx'. multiset_solver.
    + eapply push555_queued; try done; simpl.
      * destruct (fq_waiting_key q), (sf_key st sf); auto.
      * intros Hg. destruct d; [right|left; by apply Hd].
        simpl in Hk, Hre. rewrite Hg in Hk, Hre. destruct (Hk eq_refl) as [->|(x & Hxl & Hkk)].
        -- exists sf. split; [done|]. simpl in Hre. by destruct (sf_key st sf).
        -- exists x. destruct l as [|y l]; [done|]. simpl in *. split; [done|]. simplify_eq.
           rewrite <- Hkk. symmetry. apply Hkx. by left.
Qed.

(** Without a node nothing is referenced; only the hold is gone. *)
Lemma push_ref_nomem q sf st :
  let '(r, q', st') := rsd555_queue_push_ref false q sf st in
  st' = st /\ fq_frames q' = fq_frames q /\ fq_count q' = fq_count q.
Proof. unfold rsd555_queue_push_ref. by destruct (fq_waiting_key q && negb (sf_key st sf)). Qed.

(** The references of all queues. *)
Definition all_refs (qs : list frame_queue) : gmultiset nat :=
  foldr (fun q X => ms (fq_frames q) ⊎ X) ∅ qs.

Lemma fan_out_ok env i qs sf st X :
  Forall fq_ok qs -> refs_ok st (all_refs qs ⊎ X) -> sf ∈ X ->
  let '(qs', st') := fan_out_shared env i qs sf st in
  Forall fq_ok qs' /\ length qs' = length qs /\ refs_ok st' (all_refs qs' ⊎ X).
Proof.
  revert i st X. induction qs as [|q qs IH]; intros i st X Hq Hr Hx; cbn [fan_out_shared]; [done|].
  apply list.Forall_cons in Hq as [Hq Hqs]. cbn [all_refs foldr] in Hr.
  fold (all_refs qs) in Hr. rewrite <- (assoc_L (⊎)) in Hr.
  assert (Hp : let '(_, q', st') := rsd555_queue_push_ref (env i) q sf st in
               fq_ok q' /\ refs_ok st' (ms (fq_frames q') ⊎ (all_refs qs ⊎ X))).
  { destruct (env i).
    - pose proof (push_ref_ok q sf st _ Hq Hr ltac:(multiset_solver)) as H.
      destruct (rsd555_queue_push_ref true q sf st) as [[r q'] st']. by destruct H as (_ & ? & _ & _ & ? & _).
    - pose proof (push_ref_nomem q sf st) as H.
      destruct (rsd555_queue_push_ref false q sf st) as [[r q'] st']. destruct H as (-> & Hf & Hc).
      unfold fq_ok. by rewrite Hf, Hc. }
  destruct (rsd555_queue_push_ref (env i) q sf st) as [[r q'] st']. destruct Hp as [Hq' Hr'].
  replace (ms (fq_frames q') ⊎ (all_refs qs ⊎ X)) with (all_refs qs ⊎ (ms (fq_frames q') ⊎ X)) in Hr'
    by multiset_solver.
  specialize (IH (S i) st' (ms (fq_frames q') ⊎ X) Hqs Hr' ltac:(multiset_solver)).
  destruct (fan_out_shared env (S i) qs sf st') as [qs' st'']. destruct IH as (H1 & H2 & H3).
  split; [by constructor|]. split; [simpl; lia|]. cbn [all_refs foldr]. fold (all_refs qs').
  replace (ms (fq_frames q') ⊎ all_refs qs' ⊎ X) with (all_refs qs' ⊎ (ms (fq_frames q') ⊎ X))
    by multiset_solver. done.
Qed.

Lemma frame_new_ok st X data ts nal key :
  refs_ok st X ->
  match rsd555_shared_frame_new true data ts nal key st with
  | (Some p, st') => refs_ok st' ({[+ p +]} ⊎ X)
  | (None, _) => False
  end.
Proof.
  intros (Hb & Hn & Hr). simpl. split; [done|]. split; simpl.
  - intros p Hp. rewrite lookup_insert_ne by lia. apply Hn. lia.
  - intros p. rewrite multiplicity_disj_union, multiplicity_singleton.
    pose proof (Hr p) as Hp. destruct (decide (p = st_next st)) as [->|Hne].
    + rewrite lookup_insert_eq. simpl. rewrite Hn in Hp by lia. lia.
    + rewrite lookup_insert_ne by done. revert Hp. destruct (st_frames st !! p); simpl; lia.
Qed.

Lemma destroy_ok l st X : refs_ok st (ms l ⊎ X) -> refs_ok (destroy_frames l st) X.
Proof.
  revert st. induction l as [|p l IH]; intros st Hr; simpl.
  { by replace (ms [] ⊎ X) with X in Hr by (unfold ms; simpl; multiset_solver). }
  rewrite ms_cons in Hr. apply IH. by apply unref_ok.
Qed.

(** ** The system of the reader and its clients *)

(** The references outside the queues: frames popped and not yet freed. *)
Record sys555 := mk_sys555 {
  s5_queues : list frame_queue;
  s5_popped : list nat;
  s5_store : store
}.

Inductive step555 : sys555 -> sys555 -> Prop :=
  | step555_publish qs pp st ok env data ts nal key qs' st' :
      rsd555_publish ok env data ts nal key qs st = (qs', st') ->
      step555 (mk_sys555 qs pp st) (mk_sys555 qs' pp st')
  | step555_pop qs pp st i q p q' :
      qs !! i = Some q -> rsd555_queue_pop q = (Some p, q') ->
      step555 (mk_sys555 qs pp st) (mk_sys555 (<[i := q']> qs) (p :: pp) st)
  | step555_free qs p pp st :
      step555 (mk_sys555 qs (p :: pp) st) (mk_sys555 qs pp (rsd555_frame_free (Some p) st))
  | step555_add qs pp st mx gated :
      step555 (mk_sys555 qs pp st) (mk_sys555 (rsd555_queue_init mx gated :: qs) pp st)
  | step555_remove q qs pp st :
      step555 (mk_sys555 (q :: qs) pp st) (mk_sys555 qs pp (snd (rsd555_queue_destroy q st)))
  | step555_swap qs qs' pp st :
      qs ≡ₚ qs' -> step555 (mk_sys555 qs pp st) (mk_sys555 qs' pp st).

Definition inv555 (s : sys555) : Prop :=
  Forall fq_ok (s5_queues s) /\ refs_ok (s5_store s) (all_refs (s5_queues s) ⊎ ms (s5_popped s)).

#[export] Instance all_refs_proper : Proper ((≡ₚ) ==> eq) all_refs.
Proof. induction 1; simpl; [done|by rewrite IHPermutation|multiset_solver|congruence]. Qed.

Lemma publish_ok ok env data ts nal key qs st X :
  Forall fq_ok qs -> refs_ok st (all_refs qs ⊎ X) ->
  let '(qs', st') := rsd555_publish ok env data ts nal key qs st in
  Forall fq_ok qs' /\ refs_ok st' (all_refs qs' ⊎ X).
Proof.
  intros Hq Hr. unfold rsd555_publish. destruct (length qs =? 0)%nat; [done|]. destruct ok; [|done].
  pose proof (frame_new_ok st _ data ts nal key Hr) as Hn.
  destruct (rsd555_shared_frame_new true data ts nal key st) as [[p|] st1]; [|done].
  replace ({[+ p +]} ⊎ (all_refs qs ⊎ X)) with (all_refs qs ⊎ ({[+ p +]} ⊎ X)) in Hn by multiset_solver.
  pose proof (fan_out_ok env 0 qs p st1 _ Hq Hn ltac:(multiset_solver)) as Hf.
  destruct (fan_out_shared env 0 qs p st1) as [qs' st2]. destruct Hf as (Hq' & _ & Hr').
  split; [done|]. apply unref_ok. 
  by replace ({[+ p +]} ⊎ (all_refs qs' ⊎ X)) with (all_refs qs' ⊎ ({[+ p +]} ⊎ X)) by multiset_solver.
Qed.

Lemma all_refs_insert qs i q q' :
  qs !! i = Some q -> all_refs (<[i := q']> qs) ⊎ ms (fq_frames q) = all_refs qs ⊎ ms (fq_frames q').
Proof.
  revert i. induction qs as [|a qs IH]; intros [|i] Hi; simplify_eq/=; [multiset_solver|].
  specialize (IH i Hi). multiset_solver.
Qed.

Lemma step555_inv s s' : step555 s s' -> inv555 s -> inv555 s'.
Proof.
  intros [qs pp st ok env data ts nal key qs' st' E|qs pp st i q p q' Hi E|qs p pp st
         |qs pp st mx gated|q qs pp st|qs qs' pp st Hp] [Hq Hr]; simpl in *.
  - pose proof (publish_ok ok env data ts nal key qs st _ Hq Hr) as H. by rewrite E in H.
  - unfold rsd555_queue_pop in E. destruct (fq_frames q) as [|p' l] eqn:Hl; [done|].
    injection E as -> <-. assert (Hqi : fq_ok q) by (by eapply Forall_lookup_1).
    split.
    + apply Forall_insert; [done|]. unfold fq_ok in *. simpl. rewrite Hl in Hqi. simpl in *. lia.
    + simpl. pose proof (all_refs_insert qs i q (q <| fq_frames := l |> <| fq_count := fq_count q - 1 |>) Hi) as Ha.
      simpl in Ha. rewrite Hl in Ha. unfold ms in *. simpl in *.
      match goal with |- refs_ok _ ?Y =>
        replace Y with (all_refs qs ⊎ list_to_set_disj pp : gmultiset nat) by multiset_solver end.
      done.
  - split; [done|]. apply unref_ok.
    match goal with |- refs_ok _ ?Y =>
      replace Y with (all_refs qs ⊎ ms (p :: pp)) by (unfold ms; simpl; multiset_solver) end. done.
  - split; [by constructor|]. simpl.
    match goal with |- refs_ok _ ?Y =>
      replace Y with (all_refs qs ⊎ ms pp) by (unfold ms; simpl; multiset_solver) end. done.
  - apply list.Forall_cons in Hq as [_ Hq]. split; [done|]. apply destroy_ok. by rewrite (assoc_L (⊎)).
  - split; simpl; by rewrite <- Hp.
Qed.



(** ** A key-gated queue is a gated queue *)

Definition key_frame (st : store) (p : nat) : nat * bool := (p, sf_key st p).

Definition inv_q555 (s : frame_queue * store) : Prop :=
  fq_ok (fst s) /\ fq_key_gated (fst s) = true /\
  exists X, refs_ok (snd s) (ms (fq_frames (fst s)) ⊎ X).

(** The reader pushes a live frame it holds a reference to, and its node
    allocation succeeds. *)
Definition push_rel555 (s : frame_queue * store) (f : nat * bool) (s' : frame_queue * store) : Prop :=
  (exists X, refs_ok (snd s) (ms (fq_frames (fst s)) ⊎ X) /\ fst f ∈ X) /\
  snd f = sf_key (snd s) (fst f) /\
  exists r, rsd555_queue_push_ref true (fst s) (fst f) (snd s) = (r, fst s', snd s').

Definition pop_rel555 (s : frame_queue * store) (f : nat * bool) (s' : frame_queue * store) : Prop :=
  snd s' = snd s /\ rsd555_queue_pop (fst s) = (Some (fst f), fst s') /\
  snd f = sf_key (snd s) (fst f).

Definition env_rel555 (s s' : frame_queue * store) : Prop :=
  fst s' = fst s /\ (exists X, refs_ok (snd s') (ms (fq_frames (fst s)) ⊎ X)) /\
  same_frames (ms (fq_frames (fst s))) (snd s) (snd s').

Lemma key_frames_same st st' l :
  same_frames (ms l) st st' -> key_frame st' <$> l = key_frame st <$> l.
Proof.
  intros Hs. apply list_fmap_ext. intros i p Hp. unfold key_frame. f_equal.
  apply (same_frames_key _ _ _ p Hs). unfold ms. apply elem_of_list_to_set_disj.
  by eapply list_elem_of_lookup_2.
Qed.

Lemma push_rel555_law q st f q' st' :
  inv_q555 (q, st) -> push_rel555 (q, st) f (q', st') ->
  inv_q555 (q', st') /\
  push_effect snd f (fq_waiting_key q) (key_frame st <$> fq_frames q)
    (fq_waiting_key q') (key_frame st' <$> fq_frames q').
Proof.
  intros (Hq & Hg & _) ((X & Hr & Hx) & Hf & r & E). simpl in *.
  pose proof (push_ref_ok q (fst f) st X Hq Hr Hx) as H. rewrite E in H.
  destruct H as (_ & Hq' & Hg' & _ & Hr' & Hs & Hp).
  split; [split; [done|]; split; [simpl; congruence|by exists X]|].
  assert (Hk : key_frame st' <$> fq_frames q' = key_frame st <$> fq_frames q').
  { apply key_frames_same. intros p Hp'. apply Hs. multiset_solver. }
  rewrite Hk. destruct Hp as [Hw Hkey|q' Hgd Hkey Hw Hfr|q' dr kept Hop Hfr Hfr' Hw Hm Hdr].
  - rewrite Hw. apply push_refused. by left.
  - rewrite Hw, Hfr. apply push_refused. by right.
  - rewrite Hw, Hfr, Hfr', !fmap_app. simpl.
    replace (key_frame st (fst f)) with f by (destruct f; unfold key_frame; simpl in *; by rewrite <- Hf).
    eapply push_accepted; [|done|].
    + rewrite <- Hf in Hop. done.
    + destruct (Hdr Hg) as [->|(x & Hh & Hkx)]; [by left|]. right.
      destruct kept as [|y kept]; simpl in *.
      * exists f. simplify_eq. by rewrite Hf.
      * exists (key_frame st y). simplify_eq. done.
Qed.

#[export, program] Instance q555_gated : GatedQueue (frame_queue * store) (nat * bool) := {|
  gq_key := snd;
  gq_inv := inv_q555;
  gq_closed s := fq_waiting_key (fst s);
  gq_frames s := key_frame (snd s) <$> fq_frames (fst s);
  gq_push := push_rel555;
  gq_pop := pop_rel555;
  gq_fail _ _ := False;
  gq_shut _ _ := False;
  gq_env := env_rel555
|}.
Next Obligation. intros [q st] f [q' st']. apply push_rel555_law. Qed.
Next Obligation.
  intros [q st] [p k] [q' st'] (Hq & Hg & X & Hr) (Hst & Hp & Hk). simpl in *. subst st' k.
  unfold rsd555_queue_pop in Hp. destruct (fq_frames q) as [|p' l] eqn:Hl; [done|].
  injection Hp as -> <-. unfold inv_q555, fq_ok in *. simpl in *. rewrite Hl in *. simpl in *.
  split; [|done]. split; [lia|]. split; [done|]. exists ({[+ p +]} ⊎ X).
  rewrite ms_cons in Hr.
  by replace (ms l ⊎ ({[+ p +]} ⊎ X)) with ({[+ p +]} ⊎ (ms l ⊎ X)) by multiset_solver.
Qed.
Next Obligation. done. Qed.
Next Obligation. done. Qed.
Next Obligation.
  intros [q st] [q' st'] (Hq & Hg & _) (E & Hr & Hs). simpl in *. subst q'.
  split; [by split|]. split; [done|]. by apply key_frames_same.
Qed.

(** What a key-gated rsd-555 client pops always decodes, while its node
    allocations succeed: whatever overflows, every frame handed out or still
    queued is a keyframe or directly follows the frame it references, because
    an overflow purges up to the next queued keyframe or re-arms the hold. *)
Theorem rsd555_stream_decodable stream n mx X st s :
  refs_ok st X ->
  rtc (gate_step (Q := frame_queue * store) stream)
      (mk_gate_sys n true (rsd555_queue_init mx true, st) [] []) s ->
  exists ns, stream <$> ns = gs_sent s ++ gs_inflight s ++
               (key_frame (snd (gs_queue s)) <$> fq_frames (fst (gs_queue s))) /\
             decodable (gate_key stream) ns.
Proof.
  intros Hr Hs. refine (gate_stream_decodable stream n (rsd555_queue_init mx true, st) s _ eq_refl Hs).
  split; [done|]. split; [done|]. exists X. unfold ms. simpl.
  by replace (∅ ⊎ X) with X by multiset_solver.
Qed.

Definition demo_st555 : store :=
  mk_store {[ 0%nat := mk_shared_frame 1 1 0 5 true [9] ]} 1 false.

Lemma demo_st555_ok : refs_ok demo_st555 {[+ 0%nat +]}.
Proof.
  split; [done|]. split.
  - intros p Hp. simpl in *. apply lookup_singleton_ne. lia.
  - intros p. simpl. destruct (decide (p = 0%nat)) as [->|Hne].
    + rewrite lookup_singleton_eq, multiplicity_singleton_eq. simpl. lia.
    + rewrite lookup_singleton_ne by done. by apply multiplicity_singleton_ne.
Qed.

Lemma rsd555_stream_decodable_witness :
  let x := rsd555_queue_push_ref true (rsd555_queue_init 4 true) 0 demo_st555 in
  let stream := fun _ : nat => (0%nat, true) in
  fq_frames (snd (fst x)) = [0%nat] /\
  exists ns, stream <$> ns = [(0%nat, true)] /\ decodable (gate_key stream) ns.
Proof.
  intros x stream. split; [by vm_compute|].
  apply (rsd555_stream_decodable stream 0 4 {[+ 0%nat +]} demo_st555
           (mk_gate_sys 1 false (snd (fst x), snd x) [] [])).
  - apply demo_st555_ok.
  - eapply rtc_l; [|apply rtc_refl]. apply gate_push; [by right|].
    split; [|split; [done|by exists 0]].
    exists {[+ 0%nat +]}. split; [|multiset_solver]. simpl. unfold ms. simpl.
    replace (∅ ⊎ {[+ 0%nat +]}) with ({[+ 0%nat +]} : gmultiset nat) by multiset_solver.
    apply demo_st555_ok.
Defined.

(** The limit of that promise: when the node allocation of the keyframe a
    held queue waits for fails, the push reports -1 but has already disarmed
    the hold, and the next inter frame is queued as the first frame the client
    gets. *)
Theorem rsd555_nomem_keyframe_orphans q k p st :
  fq_waiting_key q = true -> fq_frames q = [] -> fq_count q = 0 -> 0 < fq_max_count q ->
  sf_key st k = true -> sf_key st p = false ->
  let '(r, q1, st1) := rsd555_queue_push_ref false q k st in
  r = -1 /\
  let '(r', q2, _) := rsd555_queue_push_ref true q1 p st1 in
  r' = 0 /\ fq_frames q2 = [p].
Proof.
  intros Hw Hf Hc Hm Hk Hp. unfold rsd555_queue_push_ref. rewrite Hw, Hk. cbn [negb andb].
  split; [done|]. simpl. rewrite Hf. simpl. done.
Qed.

Lemma rsd555_nomem_keyframe_orphans_witness :
  let st := mk_store {[ 0%nat := mk_shared_frame 1 1 0 5 true [9];
                        1%nat := mk_shared_frame 1 1 0 1 false [8] ]} 2 false in
  let '(r, q1, st1) := rsd555_queue_push_ref false (rsd555_queue_init 4 true) 0 st in
  r = -1 /\
  let '(r', q2, _) := rsd555_queue_push_ref true q1 1 st1 in
  r' = 0 /\ fq_frames q2 = [1%nat].
Proof.
  intros st. apply (rsd555_nomem_keyframe_orphans (rsd555_queue_init 4 true) 0 1 st);
    vm_compute; reflexivity.
Defined.
