(* ===== verification/RicState.v ===== *)
(** * ric: state, hardware and mode switching (ric/ric.h, ric/ric_daynight.c)

    The state of the IR-cut daemon, the part of the outside world it drives
    (GPIO levels, the ISP running mode and sensor rate kept by rvd), and the
    operations that move it: the filter and LED drives, the mode switch, the
    forced mode and the trigger re-arm.  Writes to an exported GPIO are taken
    to succeed; rvd answers every command as the script [hw_answers] says. *)

From stdpp Require Import gmap list.
From S2P Require Import Prelude.

Inductive ric_mode := RIC_MODE_DAY | RIC_MODE_NIGHT.
Inductive ric_opmode := RIC_AUTO | RIC_FORCE_DAY | RIC_FORCE_NIGHT.
Inductive ric_trigger := RIC_TRIGGER_LUMA | RIC_TRIGGER_GAIN | RIC_TRIGGER_ADC | RIC_TRIGGER_PHOTO.
Inductive ric_photo_phase :=
  PHOTO_PHASE_NIGHT_DETECT | PHOTO_PHASE_DAY_DETECT | PHOTO_PHASE_INTERFERE.

#[export] Instance ric_mode_eq_dec : EqDecision ric_mode.
Proof. solve_decision. Defined.
#[export] Instance ric_opmode_eq_dec : EqDecision ric_opmode.
Proof. solve_decision. Defined.
#[export] Instance ric_trigger_eq_dec : EqDecision ric_trigger.
Proof. solve_decision. Defined.
#[export] Instance ric_photo_phase_eq_dec : EqDecision ric_photo_phase.
Proof. solve_decision. Defined.

Definition is_night (m : ric_mode) : bool := bool_decide (m = RIC_MODE_NIGHT).

Record ric_photo_thresholds := mk_ric_photo_thresholds {
  th_ev_night : Z; th_ev_deep : Z; th_ev_day : Z; th_rgain_rec : Z; th_bgain_rec : Z
}.

Record ric_photo_state := mk_ric_photo_state {
  ps_phase : ric_photo_phase;
  ps_ev : Z; ps_rgain : Z; ps_bgain : Z;
  ps_calibrated : bool; ps_cal_count : Z; ps_cal_first_ev : Z;
  ps_cal_rgain_sum : Z; ps_cal_bgain_sum : Z; ps_rgain_base : Z; ps_bgain_base : Z;
  ps_settle_count : Z; ps_rgain_dev0 : Z; ps_rgain_dev1 : Z; ps_bgain_dev0 : Z; ps_bgain_dev1 : Z;
  ps_ev_night_count : Z; ps_ev_deep_count : Z;
  ps_day_ring_idx : Z; ps_day_ring : list Z; ps_day_ref_ev : Z; ps_day_trigger_count : Z;
  ps_interf_ring_idx : Z; ps_interf_ring : list Z; ps_interf_ref_ev : Z; ps_interf_polls : Z;
  ps_interf_rise_count : Z; ps_interf_fall_count : Z;
  ps_fixed_ring_idx : Z; ps_fixed_ring : list Z; ps_fixed_ref_ev : Z; ps_fixed_drift_count : Z;
  ps_fixed_polls : Z; ps_fixed_check_ev : Z; ps_fixed_check_count : Z
}.

#[export] Instance eta_ric_photo_state : Settable ric_photo_state := fun p =>
  mk_ric_photo_state (ps_phase p) (ps_ev p) (ps_rgain p) (ps_bgain p)
    (ps_calibrated p) (ps_cal_count p) (ps_cal_first_ev p)
    (ps_cal_rgain_sum p) (ps_cal_bgain_sum p) (ps_rgain_base p) (ps_bgain_base p)
    (ps_settle_count p) (ps_rgain_dev0 p) (ps_rgain_dev1 p) (ps_bgain_dev0 p) (ps_bgain_dev1 p)
    (ps_ev_night_count p) (ps_ev_deep_count p)
    (ps_day_ring_idx p) (ps_day_ring p) (ps_day_ref_ev p) (ps_day_trigger_count p)
    (ps_interf_ring_idx p) (ps_interf_ring p) (ps_interf_ref_ev p) (ps_interf_polls p)
    (ps_interf_rise_count p) (ps_interf_fall_count p)
    (ps_fixed_ring_idx p) (ps_fixed_ring p) (ps_fixed_ref_ev p) (ps_fixed_drift_count p)
    (ps_fixed_polls p) (ps_fixed_check_ev p) (ps_fixed_check_count p).

Record ric_config := mk_ric_config {
  c_opmode : ric_opmode;
  c_gpio_ircut : Z; c_gpio_ircut2 : Z; c_gpio_irled : Z; c_gpio_irled2 : Z;
  c_ircut_active_low : bool; c_irled_active_low : bool; c_irled2_active_low : bool;
  c_ir850_enabled : bool; c_ir940_enabled : bool;
  c_trigger : ric_trigger;
  c_night_luma : Z; c_night_gain : Z; c_day_gain_pct : Z; c_probe_gain_pct : Z;
  c_probe_holdoff_sec : Z; c_probe_recheck_sec : Z;
  c_night_threshold : Z; c_day_threshold : Z;
  c_adc_channel : Z; c_adc_night : Z; c_adc_day : Z;
  c_photo : ric_photo_thresholds;
  c_hysteresis_sec : Z; c_night_fps : Z; c_poll_interval_ms : Z; c_pulse_ms : Z
}.

#[export] Instance eta_ric_config : Settable ric_config := fun c =>
  mk_ric_config (c_opmode c) (c_gpio_ircut c) (c_gpio_ircut2 c) (c_gpio_irled c) (c_gpio_irled2 c)
    (c_ircut_active_low c) (c_irled_active_low c) (c_irled2_active_low c)
    (c_ir850_enabled c) (c_ir940_enabled c) (c_trigger c)
    (c_night_luma c) (c_night_gain c) (c_day_gain_pct c) (c_probe_gain_pct c)
    (c_probe_holdoff_sec c) (c_probe_recheck_sec c) (c_night_threshold c) (c_day_threshold c)
    (c_adc_channel c) (c_adc_night c) (c_adc_day c) (c_photo c)
    (c_hysteresis_sec c) (c_night_fps c) (c_poll_interval_ms c) (c_pulse_ms c).

(** How rvd takes a command: not reachable, an error answer, or done. *)
Inductive rvd_answer := RvdDown | RvdError | RvdOk.

Record ric_hw := mk_ric_hw {
  hw_gpio : gmap Z Z;            (* level of every driven pin *)
  hw_isp : ric_mode;             (* running mode rvd holds *)
  hw_fps : Z;                    (* sensor rate asked of rvd, 0 its baseline *)
  hw_answers : nat -> rvd_answer;
  hw_calls : nat                 (* commands sent to rvd so far *)
}.

#[export] Instance eta_ric_hw : Settable ric_hw := fun h =>
  mk_ric_hw (hw_gpio h) (hw_isp h) (hw_fps h) (hw_answers h) (hw_calls h).

Record ric_state := mk_ric_state {
  settings : ric_config;
  current_mode : ric_mode;
  day_count : Z; night_count : Z;
  cooldown_remaining : Z; night_gain_baseline : Z; night_ev_baseline : Z; night_detect_gain : Z;
  day_verify_pending : bool; day_lockout_polls : Z; day_lockout_next : Z;
  probe_active : bool; probe_polls_left : Z; probe_holdoff_polls : Z; probe_dip_run : Z;
  probe_recheck_polls : Z;
  settle_prev_gain : Z; settle_prev_ev : Z; settle_agree_run : Z; settle_extend_left : Z;
  photo : ric_photo_state;
  adc_fd : Z; adc_initialized : bool; adc_fail_run : Z; adc_fail_warned : bool;
  rvd_fail_run : Z; rvd_fail_warned : bool;
  night_fps_unusable : bool; no_exposure_warned : bool;
  hw : ric_hw;
  warnings : Z                   (* outage warnings logged *)
}.

#[export] Instance eta_ric_state : Settable ric_state := fun s =>
  mk_ric_state (settings s) (current_mode s) (day_count s) (night_count s)
    (cooldown_remaining s) (night_gain_baseline s) (night_ev_baseline s) (night_detect_gain s)
    (day_verify_pending s) (day_lockout_polls s) (day_lockout_next s)
    (probe_active s) (probe_polls_left s) (probe_holdoff_polls s) (probe_dip_run s)
    (probe_recheck_polls s)
    (settle_prev_gain s) (settle_prev_ev s) (settle_agree_run s) (settle_extend_left s)
    (photo s) (adc_fd s) (adc_initialized s) (adc_fail_run s) (adc_fail_warned s)
    (rvd_fail_run s) (rvd_fail_warned s) (night_fps_unusable s) (no_exposure_warned s)
    (hw s) (warnings s).

(** ** Hardware *)

Definition gpio_set (pin value : Z) (st : ric_state) : ric_state :=
  if pin <? 0 then st else
  st <| hw := (hw st) <| hw_gpio := <[pin := if value =? 0 then 0 else 1]> (hw_gpio (hw st)) |> |>.

(** A pin is exported with direction "out", which leaves it low. *)
Definition gpio_export (pin : Z) (st : ric_state) : ric_state :=
  if pin <? 0 then st else
  st <| hw := (hw st) <| hw_gpio := <[pin := 0]> (hw_gpio (hw st)) |> |>.

Definition ric_gpio_init (st : ric_state) : ric_state :=
  let c := settings st in
  let st := gpio_export (c_gpio_ircut c) st in
  let st := if c_gpio_ircut2 c >=? 0 then gpio_export (c_gpio_ircut2 c) st else st in
  let st := if c_gpio_irled c >=? 0
            then gpio_set (c_gpio_irled c) (if c_irled_active_low c then 1 else 0)
                   (gpio_export (c_gpio_irled c) st) else st in
  if c_gpio_irled2 c >=? 0
  then gpio_set (c_gpio_irled2 c) (if c_irled2_active_low c then 1 else 0)
         (gpio_export (c_gpio_irled2 c) st) else st.

(** The next answer of rvd. *)
Definition rvd_call (st : ric_state) : rvd_answer * ric_state :=
  (hw_answers (hw st) (hw_calls (hw st)),
   st <| hw := (hw st) <| hw_calls := S (hw_calls (hw st)) |> |>).

Definition ric_set_isp_mode (mode : ric_mode) (st : ric_state) : ric_state :=
  let '(a, st) := rvd_call st in
  match a with
  | RvdOk => st <| hw := (hw st) <| hw_isp := mode |> |>
  | _ => st
  end.

Definition ric_ircut_drive (pos : ric_mode) (st : ric_state) : Z * ric_state :=
  let c := settings st in
  if c_gpio_ircut c <? 0 then (-1, st) else
  (0,
   if is_night pos then
     if c_gpio_ircut2 c >=? 0 then
       gpio_set (c_gpio_ircut2 c) 0 (gpio_set (c_gpio_ircut c) 0
         (gpio_set (c_gpio_ircut2 c) 1 (gpio_set (c_gpio_ircut c) 0 st)))
     else gpio_set (c_gpio_ircut c) (if c_ircut_active_low c then 1 else 0) st
   else
     if c_gpio_ircut2 c >=? 0 then
       gpio_set (c_gpio_ircut2 c) 0 (gpio_set (c_gpio_ircut c) 0
         (gpio_set (c_gpio_ircut2 c) 0 (gpio_set (c_gpio_ircut c) 1 st)))
     else gpio_set (c_gpio_ircut c) (if c_ircut_active_low c then 0 else 1) st).

Definition ric_irled_drive (bank940 on : bool) (st : ric_state) : Z * ric_state :=
  let c := settings st in
  let pin := if bank940 then c_gpio_irled2 c else c_gpio_irled c in
  if pin <? 0 then (-1, st) else
  let alow := if bank940 then c_irled2_active_low c else c_irled_active_low c in
  (0, gpio_set pin (if xorb on alow then 1 else 0) st).

Definition ric_set_gpio (mode : ric_mode) (st : ric_state) : ric_state :=
  let c := settings st in
  let night := is_night mode in
  let st := snd (ric_ircut_drive mode st) in
  let st := if c_ir850_enabled c then snd (ric_irled_drive false night st) else st in
  if c_ir940_enabled c then snd (ric_irled_drive true night st) else st.

Definition ric_apply_night_fps (mode : ric_mode) (st : ric_state) : ric_state :=
  if (c_night_fps (settings st) <=? 0) || night_fps_unusable st then st else
  let value := if is_night mode then c_night_fps (settings st) else 0 in
  let '(a, st) := rvd_call st in
  match a with
  | RvdDown => st
  | RvdError => st <| night_fps_unusable := true |>
  | RvdOk => st <| hw := (hw st) <| hw_fps := value |> |>
  end.

(** ** Mode switching *)

Definition RIC_BASELINE_SETTLE_PCT : Z := 2.
Definition RIC_BASELINE_SETTLE_EXTEND_POLLS : Z := 17.

Definition ric_baseline_settle_begin (st : ric_state) : ric_state :=
  st <| settle_prev_gain := 0 |> <| settle_prev_ev := 0 |> <| settle_agree_run := 0 |>
     <| settle_extend_left := RIC_BASELINE_SETTLE_EXTEND_POLLS |>.

Definition ric_set_mode (mode : ric_mode) (st : ric_state) : ric_state :=
  if bool_decide (mode = current_mode st) then st else
  let st := ric_set_gpio mode st in
  let st := ric_set_isp_mode mode st in
  let st := ric_apply_night_fps mode st in
  let st := st <| current_mode := mode |> <| day_count := 0 |> <| night_count := 0 |>
               <| cooldown_remaining := 3 |> in
  let st := ric_baseline_settle_begin st in
  let st := st <| probe_recheck_polls := 0 |> in
  if is_night mode then st else st <| night_gain_baseline := 0 |>.

Definition ric_force_mode (mode : ric_mode) (st : ric_state) : ric_state :=
  if bool_decide (mode = current_mode st) then
    ric_apply_night_fps mode (ric_set_isp_mode mode (ric_set_gpio mode st))
  else ric_set_mode mode st.

Definition photo_zero (phase : ric_photo_phase) : ric_photo_state :=
  mk_ric_photo_state phase 0 0 0 false 0 0 0 0 0 0 0 0 0 0 0 0 0
    0 (replicate 10 0) 0 0 0 (replicate 8 0) 0 0 0 0 0 (replicate 8 0) 0 0 0 0 0.

(** Everything but the calibration starts over. *)
Definition ric_photo_reset (phase : ric_photo_phase) (ps : ric_photo_state) : ric_photo_state :=
  (photo_zero phase)
    <| ps_calibrated := ps_calibrated ps |> <| ps_rgain_base := ps_rgain_base ps |>
    <| ps_bgain_base := ps_bgain_base ps |> <| ps_cal_count := ps_cal_count ps |>
    <| ps_cal_first_ev := ps_cal_first_ev ps |> <| ps_cal_rgain_sum := ps_cal_rgain_sum ps |>
    <| ps_cal_bgain_sum := ps_cal_bgain_sum ps |>.

Definition ric_trigger_rearm (st : ric_state) : ric_state :=
  let c := settings st in
  let st := st <| day_count := 0 |> <| night_count := 0 |> <| cooldown_remaining := 3 |> in
  let st := ric_baseline_settle_begin st in
  let st := st <| night_gain_baseline := 0 |> <| night_ev_baseline := 0 |>
               <| night_detect_gain := 0 |> <| day_verify_pending := false |>
               <| day_lockout_polls := 0 |> <| day_lockout_next := 0 |>
               <| probe_active := false |> <| probe_polls_left := 0 |>
               <| probe_holdoff_polls := 0 |> <| probe_dip_run := 0 |>
               <| probe_recheck_polls := 0 |>
               <| photo := ric_photo_reset PHOTO_PHASE_NIGHT_DETECT (photo st) |> in
  if is_night (current_mode st) then
    snd (ric_irled_drive true (c_ir940_enabled c)
          (snd (ric_irled_drive false (c_ir850_enabled c) st)))
  else st.
