(* ===== verification/RicPhoto.v ===== *)
(** * ric: the photo trigger (ric/ric_photo.c)

    The EV and white-balance state machine with its three phases.  The ratio
    tests of the source are double-precision products of a 32-bit reading
    and a decimal constant; they are modelled with the IEEE binary64 operations
    of the Standard Library's SpecFloat. *)

From Stdlib Require Import Floats.SpecFloat.
From stdpp Require Import gmap list.
From S2P Require Import Prelude RicState.

(** ** Double-precision comparisons *)

Definition dbl (z : Z) : spec_float := binary_normalize 53 1024 z 0 false.
Definition dbl_mul (a b : spec_float) : spec_float := SFmul 53 1024 a b.

(** A decimal constant with two places: the division is correctly rounded, so
    it is the double the literal denotes. *)
Definition hundredths (n : Z) : spec_float := SFdiv 53 1024 (dbl n) (dbl 100).

Definition DAY_RATIO_LOW := hundredths 87.
Definition DAY_RATIO_HIGH := hundredths 113.
Definition FIXED_RATIO_LOW := hundredths 92.
Definition FIXED_RATIO_HIGH := hundredths 108.
Definition FIXED_DRIFT_THR := hundredths 70.
Definition INTERF_RATIO_HIGH := hundredths 112.
Definition INTERF_RATIO_LOW := hundredths 88.

(** [(double)x < (double)ref * k], and the same with the operands swapped. *)
Definition below_ratio (x ref : Z) (k : spec_float) : bool := SFltb (dbl x) (dbl_mul (dbl ref) k).
Definition above_ratio (x ref : Z) (k : spec_float) : bool := SFltb (dbl_mul (dbl ref) k) (dbl x).
Definition at_least_ratio (x ref : Z) (k : spec_float) : bool := SFleb (dbl_mul (dbl ref) k) (dbl x).

Definition RGAIN_DEV_THR1 : Z := 15.
Definition BGAIN_DEV_THR1 : Z := 10.
Definition RGAIN_DEV_THR2 : Z := 9.
Definition BGAIN_DEV_THR2 : Z := 7.
Definition NIGHT_EV_TRIGGER : Z := 23.
Definition NIGHT_RGAIN_TRIGGER : Z := 3.
Definition NIGHT_BGAIN_TRIGGER : Z := 7.
Definition INTERF_MAX_POLLS : Z := 9000.
Definition INTERF_RISE_TRIGGER : Z := 3.
Definition INTERF_FALL_TRIGGER : Z := 3.
Definition FIXED_DRIFT_TRIGGER : Z := 10.
Definition FIXED_CHECK_INTERVAL : Z := 200.
Definition FIXED_CHECK_DRIFT_LIMIT : Z := 200.
Definition PHOTO_CAL_SAMPLES : Z := 16.
Definition PHOTO_DAY_RING_SIZE : Z := 10.
Definition PHOTO_INTERF_RING_SIZE : Z := 8.
Definition PHOTO_FIXED_RING_SIZE : Z := 8.

(** ** Calibration *)

Definition photo_calibrate (thr : ric_photo_thresholds) (ps : ric_photo_state) : ric_photo_state :=
  if ps_calibrated ps then ps else
  if ps_ev ps >? th_ev_day thr then ps else
  let ps :=
    if ps_cal_count ps =? 0 then ps <| ps_cal_first_ev := ps_ev ps |>
    else if below_ratio (ps_ev ps) (ps_cal_first_ev ps) DAY_RATIO_LOW
            || above_ratio (ps_ev ps) (ps_cal_first_ev ps) DAY_RATIO_HIGH
    then ps <| ps_cal_count := 0 |> <| ps_cal_rgain_sum := 0 |> <| ps_cal_bgain_sum := 0 |>
            <| ps_cal_first_ev := ps_ev ps |>
    else ps in
  let ps := ps <| ps_cal_rgain_sum := u32 (ps_cal_rgain_sum ps + ps_rgain ps) |>
               <| ps_cal_bgain_sum := u32 (ps_cal_bgain_sum ps + ps_bgain ps) |>
               <| ps_cal_count := u8 (ps_cal_count ps + 1) |> in
  if ps_cal_count ps <? PHOTO_CAL_SAMPLES then ps else
  ps <| ps_rgain_base := u16 (ps_cal_rgain_sum ps / PHOTO_CAL_SAMPLES) |>
     <| ps_bgain_base := u16 (ps_cal_bgain_sum ps / PHOTO_CAL_SAMPLES) |>
     <| ps_calibrated := true |>.

(** ** Night detection *)

(** The spectral deviation counters; held at zero while uncalibrated. *)
Definition photo_deviations (ps : ric_photo_state) : ric_photo_state :=
  if negb (ps_calibrated ps) then
    ps <| ps_rgain_dev0 := 0 |> <| ps_rgain_dev1 := 0 |>
       <| ps_bgain_dev0 := 0 |> <| ps_bgain_dev1 := 0 |>
  else
    let rdiff := Z.abs (ps_rgain ps - ps_rgain_base ps) in
    let bdiff := Z.abs (ps_bgain ps - ps_bgain_base ps) in
    ps <| ps_rgain_dev0 := if rdiff >=? RGAIN_DEV_THR1 then u8 (ps_rgain_dev0 ps + 1) else 0 |>
       <| ps_bgain_dev0 := if bdiff >=? BGAIN_DEV_THR1 then u8 (ps_bgain_dev0 ps + 1) else 0 |>
       <| ps_rgain_dev1 := if rdiff >=? RGAIN_DEV_THR2 then u8 (ps_rgain_dev1 ps + 1) else 0 |>
       <| ps_bgain_dev1 := if bdiff >=? BGAIN_DEV_THR2 then u8 (ps_bgain_dev1 ps + 1) else 0 |>.

Definition bump250 (x : Z) : Z := if x <? 250 then x + 1 else x.

Definition photo_ev_checks (thr : ric_photo_thresholds) (ps : ric_photo_state) : ric_photo_state :=
  if ps_ev ps >? th_ev_night thr then
    ps <| ps_ev_night_count := bump250 (ps_ev_night_count ps) |>
       <| ps_ev_deep_count := if ps_ev ps >? th_ev_deep thr
                              then bump250 (ps_ev_deep_count ps) else 0 |>
  else
    ps <| ps_ev_night_count := 0 |>
       <| ps_ev_deep_count := if ps_ev ps <=? th_ev_deep thr then 0
                              else bump250 (ps_ev_deep_count ps) |>.

Definition photo_night_reason (ps : ric_photo_state) : Z :=
  let reason :=
    if (ps_ev_night_count ps >=? NIGHT_EV_TRIGGER) && (ps_rgain_dev0 ps >=? NIGHT_RGAIN_TRIGGER)
       && (ps_rgain_dev1 ps >=? NIGHT_RGAIN_TRIGGER) then 1 else 0 in
  let reason :=
    if (reason =? 0) && (ps_ev_deep_count ps >=? NIGHT_EV_TRIGGER)
       && (ps_bgain_dev0 ps >=? NIGHT_BGAIN_TRIGGER) && (ps_bgain_dev1 ps >=? NIGHT_BGAIN_TRIGGER)
    then 2 else reason in
  if (reason =? 0) && negb (ps_calibrated ps) && (ps_ev_night_count ps >=? NIGHT_EV_TRIGGER)
  then 3 else reason.

(** The fixed-EV fallback: whether it forces night, and the new state. *)
Definition photo_fixed_fallback (thr : ric_photo_thresholds) (ps : ric_photo_state)
    : bool * ric_photo_state :=
  let ps := ps <| ps_fixed_polls := u32 (ps_fixed_polls ps + 1) |> in
  if ps_fixed_polls ps <? FIXED_CHECK_INTERVAL then (false, ps) else
  let ps := ps <| ps_fixed_polls := 0 |> in
  let ps :=
    if (ps_fixed_check_ev ps >? 0)
       && (ps_ev ps >? u32 (ps_fixed_check_ev ps - FIXED_CHECK_DRIFT_LIMIT))
    then ps <| ps_fixed_check_count := u8 (ps_fixed_check_count ps + 1) |>
    else ps <| ps_fixed_check_count := 0 |> in
  let ps := ps <| ps_fixed_check_ev := ps_ev ps |> in
  if ps_fixed_check_count ps <? FIXED_DRIFT_TRIGGER then (false, ps) else
  if ps_ev ps >=? th_ev_deep thr then (true, ps)
  else (false, ps <| ps_fixed_check_count := 0 |>).

Definition photo_night_control (st : ric_state) : ric_state :=
  let thr := c_photo (settings st) in
  let ps := (photo st) <| ps_settle_count := u8 (ps_settle_count (photo st) + 1) |> in
  if ps_settle_count ps <? 7 then st <| photo := ps |> else
  let ps := if ps_settle_count ps >? 250 then ps <| ps_settle_count := 250 |> else ps in
  let ps := photo_ev_checks thr (photo_deviations ps) in
  if photo_night_reason ps >? 0 then
    let st := ric_set_mode RIC_MODE_NIGHT (st <| photo := ps |>) in
    st <| photo := ric_photo_reset PHOTO_PHASE_DAY_DETECT (photo st) |>
  else
    let '(force, ps) := photo_fixed_fallback thr ps in
    if force then
      let st := ric_set_mode RIC_MODE_NIGHT (st <| photo := ps |>) in
      st <| photo := (ric_photo_reset PHOTO_PHASE_DAY_DETECT (photo st))
                       <| ps_fixed_check_count := 0 |> |>
    else st <| photo := ps |>.

(** ** Day detection *)

(** What one sample does to the day ring: keep collecting, or decide day. *)
Definition photo_day_sample (thr : ric_photo_thresholds) (ps : ric_photo_state)
    : bool * ric_photo_state :=
  if ps_ev ps >=? th_ev_day thr then (false, ps <| ps_day_ring_idx := 0 |>) else
  let idx := ps_day_ring_idx ps in
  let ps := ps <| ps_day_ring :=
                  <[Z.to_nat (idx mod PHOTO_DAY_RING_SIZE) := ps_ev ps]> (ps_day_ring ps) |> in
  let idx := u32 (idx + 1) in
  let ps := ps <| ps_day_ring_idx := idx |> in
  if idx <? PHOTO_DAY_RING_SIZE then (false, ps) else
  let sample := ps_day_ring ps !!! Z.to_nat ((idx - 1) mod PHOTO_DAY_RING_SIZE) in
  if ps_day_ref_ev ps =? 0 then
    let first := ps_day_ring ps !!! 0%nat in
    if below_ratio sample first FIXED_RATIO_LOW || above_ratio sample first FIXED_RATIO_HIGH
    then (false, ps <| ps_day_ring_idx := 0 |>)
    else (false, ps <| ps_day_ref_ev := sample |>)
  else if at_least_ratio sample (ps_day_ref_ev ps) DAY_RATIO_HIGH
  then (false, ps <| ps_day_ring_idx := 0 |>)
  else if above_ratio sample (ps_day_ref_ev ps) DAY_RATIO_LOW then
    let ps := ps <| ps_day_ring_idx := 0 |>
                 <| ps_day_trigger_count := u8 (ps_day_trigger_count ps + 1) |> in
    (negb (ps_day_trigger_count ps <? 3), ps)
  else (false, ps <| ps_day_ring_idx := 0 |>).

Definition photo_day_control (st : ric_state) : ric_state :=
  let '(day, ps) := photo_day_sample (c_photo (settings st)) (photo st) in
  let st := st <| photo := ps |> in
  if day then
    let st := ric_set_mode RIC_MODE_DAY st in
    st <| photo := ric_photo_reset PHOTO_PHASE_INTERFERE (photo st) |>
  else st.

(** ** Anti-interference *)

(** The outcome of an interference poll. *)
Inductive interf_verdict := InterfStay | InterfTimeout | InterfFalseDay | InterfBright.

Definition photo_interfere_sample (ps : ric_photo_state) : interf_verdict * ric_photo_state :=
  let ps := ps <| ps_interf_polls := u32 (ps_interf_polls ps + 1) |> in
  if ps_interf_polls ps >? INTERF_MAX_POLLS then (InterfTimeout, ps) else
  let idx := ps_interf_ring_idx ps in
  if idx <? PHOTO_INTERF_RING_SIZE then
    let ps := ps <| ps_interf_ring := <[Z.to_nat idx := ps_ev ps]> (ps_interf_ring ps) |>
                 <| ps_interf_ring_idx := u8 (idx + 1) |> in
    if idx + 1 <? PHOTO_INTERF_RING_SIZE then (InterfStay, ps) else
    let first := ps_interf_ring ps !!! 0%nat in
    let last := ps_interf_ring ps !!! 7%nat in
    if below_ratio last first FIXED_RATIO_LOW || above_ratio last first FIXED_RATIO_HIGH
    then (InterfStay, ps <| ps_interf_ring_idx := 0 |>)
    else (InterfStay, ps <| ps_interf_ref_ev := last |>)
  else if ps_interf_ref_ev ps =? 0 then (InterfStay, ps)
  else if above_ratio (ps_ev ps) (ps_interf_ref_ev ps) INTERF_RATIO_HIGH then
    let ps := ps <| ps_interf_rise_count := u8 (ps_interf_rise_count ps + 1) |> in
    (if ps_interf_rise_count ps >? INTERF_RISE_TRIGGER then InterfFalseDay else InterfStay, ps)
  else
    let ps := if at_least_ratio (ps_ev ps) (ps_interf_ref_ev ps) INTERF_RATIO_LOW
              then ps <| ps_interf_rise_count := 0 |> else ps in
    if below_ratio (ps_ev ps) (ps_interf_ref_ev ps) INTERF_RATIO_LOW then
      let ps := ps <| ps_interf_fall_count := u8 (ps_interf_fall_count ps + 1) |> in
      (if ps_interf_fall_count ps >=? INTERF_FALL_TRIGGER then InterfBright else InterfStay, ps)
    else (InterfStay, ps <| ps_interf_fall_count := 0 |>).

Definition photo_interfere_control (st : ric_state) : ric_state :=
  let '(v, ps) := photo_interfere_sample (photo st) in
  let st := st <| photo := ps |> in
  match v with
  | InterfStay => st
  | InterfTimeout | InterfBright =>
      st <| photo := ric_photo_reset PHOTO_PHASE_NIGHT_DETECT (photo st) |>
  | InterfFalseDay =>
      let st := ric_set_mode RIC_MODE_NIGHT st in
      st <| photo := ric_photo_reset PHOTO_PHASE_NIGHT_DETECT (photo st) |>
  end.

(** ** Fixed-EV drift *)

Definition photo_fixed_sample (ps : ric_photo_state) : bool * ric_photo_state :=
  let idx := ps_fixed_ring_idx ps in
  if idx <? PHOTO_FIXED_RING_SIZE then
    let ps := ps <| ps_fixed_ring := <[Z.to_nat idx := ps_ev ps]> (ps_fixed_ring ps) |>
                 <| ps_fixed_ring_idx := u8 (idx + 1) |> in
    if idx + 1 <? PHOTO_FIXED_RING_SIZE then (false, ps) else
    let first := ps_fixed_ring ps !!! 0%nat in
    let last := ps_fixed_ring ps !!! 7%nat in
    if below_ratio last first FIXED_RATIO_LOW || above_ratio last first FIXED_RATIO_HIGH
    then (false, ps <| ps_fixed_ring_idx := 0 |>)
    else (false, ps <| ps_fixed_ref_ev := last |>)
  else if ps_fixed_ref_ev ps =? 0 then (false, ps)
  else if at_least_ratio (ps_ev ps) (ps_fixed_ref_ev ps) FIXED_DRIFT_THR
  then (false, ps <| ps_fixed_drift_count := 0 |>)
  else
    let ps := ps <| ps_fixed_drift_count := u8 (ps_fixed_drift_count ps + 1) |> in
    if ps_fixed_drift_count ps >? FIXED_DRIFT_TRIGGER
    then (true, ps <| ps_fixed_drift_count := 0 |>) else (false, ps).

Definition photo_fixed_control (st : ric_state) : ric_state :=
  let '(day, ps) := photo_fixed_sample (photo st) in
  let st := st <| photo := ps |> in
  if day then
    let st := ric_set_mode RIC_MODE_DAY st in
    st <| photo := ric_photo_reset PHOTO_PHASE_NIGHT_DETECT (photo st) |>
  else st.

(** ** The dispatcher *)

Definition ric_photo_poll (ev rgain bgain : Z) (st : ric_state) : ric_state :=
  if negb (bool_decide (c_opmode (settings st) = RIC_AUTO)) then st else
  let ps := (photo st) <| ps_ev := ev |> <| ps_rgain := rgain |> <| ps_bgain := bgain |> in
  let ps := if negb (ps_calibrated ps) && negb (is_night (current_mode st))
            then photo_calibrate (c_photo (settings st)) ps else ps in
  let st := st <| photo := ps |> in
  match ps_phase ps with
  | PHOTO_PHASE_NIGHT_DETECT => photo_night_control st
  | PHOTO_PHASE_DAY_DETECT =>
      let st := photo_day_control st in
      if is_night (current_mode st) then photo_fixed_control st else st
  | PHOTO_PHASE_INTERFERE => photo_interfere_control st
  end.
