(* ===== verification/RicDaynight.v ===== *)
(** * ric: the exposure poll (ric/ric_daynight.c)

    One poll of ric_poll_exposure, split along its own comments: outage
    accounting, the cooldown with day verification and baseline settling, the
    luma trigger with its IR-off probe, the ADC and gain triggers, and the
    debounce they share.  The readings of rvd and of the ADC are inputs. *)

From stdpp Require Import gmap list.
From S2P Require Import Prelude RicState RicPhoto.

(** What get-exposure answered.  [ex_valid] carries the gain, luma and ev bits
    of valid_mask when the answer has one. *)
Record exposure := mk_exposure {
  ex_total_gain : Z; ex_ae_luma : Z; ex_ev : Z;
  ex_valid : option (bool * bool * bool);
  ex_wb_rgain : Z; ex_wb_bgain : Z
}.

Inductive rvd_query := QueryFailed | QueryUnparsable | QueryExposure (e : exposure).

Definition have_gain (e : exposure) : bool :=
  match ex_valid e with Some (g, _, _) => g | None => ex_total_gain e >? 0 end.
Definition have_luma (e : exposure) : bool :=
  match ex_valid e with Some (_, l, _) => l | None => ex_ae_luma e >? 0 end.
Definition have_ev (e : exposure) : bool :=
  match ex_valid e with Some (_, _, v) => v | None => ex_ev e >? 0 end.

(** ** Outage accounting *)

Definition ADC_FAIL_WARN_SEC : Z := 2.
Definition ADC_FAIL_REPEAT_SEC : Z := 60.
Definition RVD_FAIL_WARN_SEC : Z := 10.
Definition RVD_FAIL_REPEAT_SEC : Z := 60.

Definition poll_ms (st : ric_state) : Z :=
  if c_poll_interval_ms (settings st) >? 0 then c_poll_interval_ms (settings st) else 1000.

Definition polls_per (st : ric_state) (seconds : Z) : Z :=
  let polls := (seconds * 1000 + poll_ms st - 1) / poll_ms st in
  if polls >? 0 then polls else 1.

(** [run < first || (run - first) % repeat != 0]. *)
Definition outage_quiet (run first repeat : Z) : bool :=
  (run <? first) || negb ((run - first) mod repeat =? 0).

Definition adc_note_failed_read (st : ric_state) : ric_state :=
  let first := polls_per st ADC_FAIL_WARN_SEC in
  let repeat := polls_per st ADC_FAIL_REPEAT_SEC in
  let st := st <| adc_fail_run := adc_fail_run st + 1 |> in
  if outage_quiet (adc_fail_run st) first repeat then st
  else st <| warnings := warnings st + 1 |> <| adc_fail_warned := true |>.

Definition adc_note_good_read (st : ric_state) : ric_state :=
  st <| adc_fail_run := 0 |> <| adc_fail_warned := false |>.

Definition rvd_note_failed_query (st : ric_state) : ric_state :=
  let first := polls_per st RVD_FAIL_WARN_SEC in
  let repeat := polls_per st RVD_FAIL_REPEAT_SEC in
  let st := st <| rvd_fail_run := rvd_fail_run st + 1 |> in
  if outage_quiet (rvd_fail_run st) first repeat then st
  else st <| warnings := warnings st + 1 |> <| rvd_fail_warned := true |>.

Definition rvd_note_good_query (st : ric_state) : ric_state :=
  let st := if rvd_fail_run st >? 0
            then ric_apply_night_fps (current_mode st) (ric_set_isp_mode (current_mode st) st)
            else st in
  st <| rvd_fail_run := 0 |> <| rvd_fail_warned := false |>.

(** ** Debounce *)

Definition ric_debounce (want_night want_day : bool) (total_gain : Z) (st : ric_state) : ric_state :=
  match current_mode st with
  | RIC_MODE_DAY =>
      if want_night then
        let st := st <| night_count := night_count st + 1 |> <| day_count := 0 |> in
        if night_count st >=? c_hysteresis_sec (settings st)
        then ric_set_mode RIC_MODE_NIGHT (st <| night_detect_gain := total_gain |>) else st
      else st <| night_count := 0 |>
  | RIC_MODE_NIGHT =>
      if want_day then
        let st := st <| day_count := day_count st + 1 |> <| night_count := 0 |> in
        if day_count st >=? c_hysteresis_sec (settings st) then
          let st := if bool_decide (c_trigger (settings st) = RIC_TRIGGER_LUMA)
                    then st <| day_verify_pending := true |> else st in
          ric_set_mode RIC_MODE_DAY st
        else st
      else st <| day_count := 0 |>
  end.

(** ** Cooldown *)

Definition RIC_DAY_LOCKOUT_FIRST : Z := 30.
Definition RIC_DAY_LOCKOUT_MAX : Z := 300.

Definition ric_baseline_value_within (previous current : Z) : bool :=
  if (previous =? 0) || (current =? 0) then false else
  let difference := if previous >? current then previous - current else current - previous in
  let tolerance := u32 (u64 (previous * RIC_BASELINE_SETTLE_PCT) / 100) in
  let tolerance := if tolerance =? 0 then 1 else tolerance in
  difference <=? tolerance.

(** The scene without IR decides whether the day was real. *)
Definition ric_verify_day (e : exposure) (st : ric_state) : ric_state :=
  let st := st <| day_verify_pending := false |> in
  if have_luma e && (ex_ae_luma e <? u32 (c_night_luma (settings st))) then
    let hold := if day_lockout_next st =? 0 then RIC_DAY_LOCKOUT_FIRST else day_lockout_next st in
    let st := st <| day_lockout_polls := hold |>
                 <| day_lockout_next := if hold * 2 >? RIC_DAY_LOCKOUT_MAX
                                        then RIC_DAY_LOCKOUT_MAX else hold * 2 |>
                 <| night_detect_gain := ex_total_gain e |> in
    ric_set_mode RIC_MODE_NIGHT st
  else st <| day_lockout_next := 0 |>.

(** The settling test at the end of a night cooldown: extend it by a poll, or
    adopt the baseline. *)
Definition ric_settle_night (e : exposure) (st : ric_state) : bool * ric_state :=
  let gain_within := negb (have_gain e) || ric_baseline_value_within (settle_prev_gain st) (ex_total_gain e) in
  let ev_within := negb (have_ev e) || ric_baseline_value_within (settle_prev_ev st) (ex_ev e) in
  let within := (have_gain e || have_ev e) && gain_within && ev_within in
  let st := st <| settle_agree_run := if within then settle_agree_run st + 1 else 0 |> in
  if (have_gain e || have_ev e) && (settle_agree_run st <? 2) && (settle_extend_left st >? 0) then
    (true, st <| settle_extend_left := settle_extend_left st - 1 |>
              <| settle_prev_gain := ex_total_gain e |> <| settle_prev_ev := ex_ev e |>
              <| cooldown_remaining := 1 |>)
  else
    (false, st <| night_gain_baseline := ex_total_gain e |> <| night_ev_baseline := ex_ev e |>
               <| probe_recheck_polls := c_probe_recheck_sec (settings st) * 1000 / poll_ms st |>).

Definition ric_cooldown (e : exposure) (st : ric_state) : ric_state :=
  let st := st <| cooldown_remaining := cooldown_remaining st - 1 |> in
  let st := if (cooldown_remaining st =? 0) && negb (is_night (current_mode st))
               && day_verify_pending st
            then ric_verify_day e st else st in
  let '(extended, st) :=
    if (cooldown_remaining st =? 0) && is_night (current_mode st)
    then ric_settle_night e st else (false, st) in
  if extended then st
  else st <| settle_prev_gain := ex_total_gain e |> <| settle_prev_ev := ex_ev e |>.

(** ** The luma trigger *)

Definition RIC_PROBE_SETTLE_POLLS : Z := 3.

Definition ir_banks (st : ric_state) : bool :=
  let c := settings st in
  ((c_gpio_irled c >=? 0) && c_ir850_enabled c) || ((c_gpio_irled2 c >=? 0) && c_ir940_enabled c).

(** Drive the enabled banks together. *)
Definition ric_probe_leds (on : bool) (st : ric_state) : ric_state :=
  let c := settings st in
  let st := if c_ir850_enabled c then snd (ric_irled_drive false on st) else st in
  if c_ir940_enabled c then snd (ric_irled_drive true on st) else st.

Definition probe_holdoff (st : ric_state) : Z :=
  c_probe_holdoff_sec (settings st) * 1000 / c_poll_interval_ms (settings st).

(** The wishes of the scene before the probe has its say: night, day, and the
    state with the night baseline raised. *)
Definition luma_wants (e : exposure) (st : ric_state) : bool * bool * ric_state :=
  let c := settings st in
  let want_night := (have_luma e && (ex_ae_luma e <? u32 (c_night_luma c)))
                    || (have_gain e && (ex_total_gain e >? u32 (c_night_gain c))) in
  let ir_lit := ir_banks st && is_night (current_mode st) && negb (probe_active st) in
  let '(want_day, st) :=
    if have_gain e && (night_gain_baseline st >? 0) then
      let st := if is_night (current_mode st) && negb (probe_active st)
                   && (ex_total_gain e >? night_gain_baseline st)
                then st <| night_gain_baseline := ex_total_gain e |>
                        <| night_ev_baseline := ex_ev e |> else st in
      let day_thr := u32 (night_gain_baseline st * u32 (c_day_gain_pct c)) / 100 in
      (ex_total_gain e <? day_thr, st)
    else (false, st) in
  (want_night,
   want_day || (negb ir_lit && have_luma e && (ex_ae_luma e >=? u32 (c_night_luma c))),
   st).

(** A poll of the idle probe: the recheck clock, the holdoff, the dip run, and
    the start of a probe. *)
Definition probe_idle (e : exposure) (st : ric_state) : ric_state :=
  let c := settings st in
  let use_ev := have_ev e && (night_ev_baseline st >? 0) in
  let dip_val := if use_ev then ex_ev e else ex_total_gain e in
  let dip_have := use_ev || have_gain e in
  let dip_thr := u32 ((if use_ev then night_ev_baseline st else night_gain_baseline st)
                      * u32 (c_probe_gain_pct c)) / 100 in
  let '(recheck_due, st) :=
    if (c_probe_recheck_sec c >? 0) && (probe_recheck_polls st >? 0) then
      let st := st <| probe_recheck_polls := probe_recheck_polls st - 1 |> in
      (probe_recheck_polls st =? 0, st)
    else (false, st) in
  if (probe_holdoff_polls st >? 0) && negb recheck_due then
    st <| probe_holdoff_polls := probe_holdoff_polls st - 1 |>
  else if negb recheck_due && (negb dip_have || (dip_val >=? dip_thr)) then
    st <| probe_dip_run := 0 |>
  else
    let st := if recheck_due then st else st <| probe_dip_run := probe_dip_run st + 1 |> in
    if recheck_due || (probe_dip_run st >=? 3) then
      let st := ric_probe_leds false (st <| probe_dip_run := 0 |>) in
      st <| probe_active := true |>
         <| probe_polls_left := RIC_PROBE_SETTLE_POLLS + c_hysteresis_sec c + 3 |>
    else st.

(** A poll of a running probe: settle (the wishes are void), evaluate, or give
    up and restore the LEDs.  The first result is whether the wishes stand. *)
Definition probe_running (st : ric_state) : bool * ric_state :=
  let st := st <| probe_polls_left := probe_polls_left st - 1 |> in
  if probe_polls_left st >? c_hysteresis_sec (settings st) + 2 then (false, st)
  else if probe_polls_left st =? 0 then
    let st := ric_probe_leds true st in
    let st := st <| probe_active := false |> <| probe_holdoff_polls := probe_holdoff st |>
                 <| cooldown_remaining := 3 |> in
    (true, ric_baseline_settle_begin st)
  else (true, st).

Definition luma_probe (e : exposure) (want_night want_day : bool) (st : ric_state)
    : bool * bool * ric_state :=
  let st := if probe_active st && negb (is_night (current_mode st))
            then st <| probe_active := false |> <| probe_holdoff_polls := probe_holdoff st |>
            else st in
  if is_night (current_mode st) && ir_banks st && (c_probe_gain_pct (settings st) >? 0)
     && (night_gain_baseline st >? 0) && (day_lockout_polls st =? 0) then
    if negb (probe_active st) then (want_night, want_day, probe_idle e st)
    else if probe_polls_left st >? 0 then
      let '(keep, st) := probe_running st in
      (want_night && keep, want_day && keep, st)
    else (want_night, want_day, st)
  else (want_night, want_day, st).

Definition luma_trigger (e : exposure) (st : ric_state) : bool * bool * ric_state :=
  let '(want_night, want_day, st) := luma_wants e st in
  let '(want_night, want_day, st) := luma_probe e want_night want_day st in
  if day_lockout_polls st >? 0
  then (want_night, false, st <| day_lockout_polls := day_lockout_polls st - 1 |>)
  else (want_night, want_day, st).

(** ** The poll *)

(** [None]: the ADC read failed and the poll ends there. *)
Definition ric_wants (e : exposure) (adc : option Z) (st : ric_state)
    : option (bool * bool) * ric_state :=
  let c := settings st in
  match c_trigger c with
  | RIC_TRIGGER_LUMA => let '(n, d, st) := luma_trigger e st in (Some (n, d), st)
  | RIC_TRIGGER_ADC =>
      match adc with
      | None => (None, adc_note_failed_read st)
      | Some v => (Some (v <? c_adc_night c, v >? c_adc_day c), adc_note_good_read st)
      end
  | _ => (Some (have_gain e && (ex_total_gain e >? u32 (c_night_threshold c)),
                have_gain e && (ex_total_gain e <? u32 (c_day_threshold c))), st)
  end.

(** The evaluation once a usable exposure is at hand. *)
Definition ric_evaluate (e : exposure) (adc : option Z) (st : ric_state) : ric_state :=
  if cooldown_remaining st >? 0 then ric_cooldown e st else
  match ric_wants e adc st with
  | (None, st) => st
  | (Some (want_night, want_day), st) => ric_debounce want_night want_day (ex_total_gain e) st
  end.

Definition ric_poll_exposure (q : rvd_query) (adc : option Z) (st : ric_state) : ric_state :=
  match q with
  | QueryFailed => rvd_note_failed_query st
  | _ =>
      let st := rvd_note_good_query st in
      if negb (bool_decide (c_opmode (settings st) = RIC_AUTO)) then st else
      match q with
      | QueryExposure e =>
          if negb (bool_decide (c_trigger (settings st) = RIC_TRIGGER_ADC))
             && negb (have_gain e) && negb (have_luma e) && negb (have_ev e)
          then st <| no_exposure_warned := true |>
          else if bool_decide (c_trigger (settings st) = RIC_TRIGGER_PHOTO) then
            if have_ev e then ric_photo_poll (ex_ev e) (u16 (ex_wb_rgain e)) (u16 (ex_wb_bgain e)) st
            else ric_evaluate e adc
                   (st <| settings := (settings st) <| c_trigger := RIC_TRIGGER_LUMA |> |>)
          else ric_evaluate e adc st
      | _ => st
      end
  end.
