(* ===== verification/RicProps.v ===== *)
(** * ric: what the day/night control guarantees

    The rails follow the mode through every poll, forced mode and trigger
    switch; transitions need their hysteresis; a failed day verification backs
    off; the night baseline is adopted after a bounded number of polls; and
    the photo trigger's phases agree with the mode, with the one exception the
    source makes after a false day. *)

From stdpp Require Import gmap list.
From S2P Require Import Prelude RicState RicPhoto RicDaynight.

(** ** The rails *)

(** No two functions share a pin. *)
Definition pins_ok (c : ric_config) : Prop :=
  (0 <= c_gpio_ircut c -> c_gpio_ircut c <> c_gpio_ircut2 c) /\
  (0 <= c_gpio_irled c -> c_gpio_irled c <> c_gpio_ircut c /\ c_gpio_irled c <> c_gpio_ircut2 c) /\
  (0 <= c_gpio_irled2 c -> c_gpio_irled2 c <> c_gpio_ircut c /\
     c_gpio_irled2 c <> c_gpio_ircut2 c /\ c_gpio_irled2 c <> c_gpio_irled c).

(** The filter is where the mode wants it; a two-coil filter is never left
    energised. *)
Definition ircut_at (c : ric_config) (g : gmap Z Z) (m : ric_mode) : Prop :=
  0 <= c_gpio_ircut c ->
  if c_gpio_ircut2 c >=? 0
  then g !! c_gpio_ircut c = Some 0 /\ g !! c_gpio_ircut2 c = Some 0
  else g !! c_gpio_ircut c = Some (if xorb (is_night m) (c_ircut_active_low c) then 0 else 1).

(** Every enabled bank is lit, or dark. *)
Definition leds_at (c : ric_config) (g : gmap Z Z) (lit : bool) : Prop :=
  (c_ir850_enabled c = true -> 0 <= c_gpio_irled c ->
   g !! c_gpio_irled c = Some (if xorb lit (c_irled_active_low c) then 1 else 0)) /\
  (c_ir940_enabled c = true -> 0 <= c_gpio_irled2 c ->
   g !! c_gpio_irled2 c = Some (if xorb lit (c_irled2_active_low c) then 1 else 0)).

Definition rails_ok (c : ric_config) (g : gmap Z Z) (m : ric_mode) (probing : bool) : Prop :=
  ircut_at c g m /\
  match m with
  | RIC_MODE_DAY => leds_at c g false
  | RIC_MODE_NIGHT => probing = false -> leds_at c g true
  end.

Definition hw_ok (st : ric_state) : Prop :=
  pins_ok (settings st) /\ rails_ok (settings st) (hw_gpio (hw st)) (current_mode st) (probe_active st).

(** What the rails depend on. *)
Definition hw_view (st : ric_state) := (settings st, hw_gpio (hw st), current_mode st, probe_active st).

Lemma hw_ok_view st st' : hw_view st' = hw_view st -> hw_ok st -> hw_ok st'.
Proof. unfold hw_view, hw_ok. intros [= -> -> -> ->]. done. Qed.

Definition gpio_of (st : ric_state) : gmap Z Z := hw_gpio (hw st).

Lemma gpio_set_gpio pin v st :
  gpio_of (gpio_set pin v st) =
  if pin <? 0 then gpio_of st else <[pin := if v =? 0 then 0 else 1]> (gpio_of st).
Proof. unfold gpio_set. by destruct (pin <? 0). Qed.

Lemma gpio_set_rest pin v st :
  settings (gpio_set pin v st) = settings st /\
  current_mode (gpio_set pin v st) = current_mode st /\
  probe_active (gpio_set pin v st) = probe_active st /\
  photo (gpio_set pin v st) = photo st.
Proof. unfold gpio_set. by destruct (pin <? 0). Qed.

Lemma irled_drive_gpio (bank on : bool) st :
  let c := settings st in
  let pin := if bank then c_gpio_irled2 c else c_gpio_irled c in
  let st' := snd (ric_irled_drive bank on st) in
  settings st' = c /\ current_mode st' = current_mode st /\ probe_active st' = probe_active st /\
  photo st' = photo st /\
  gpio_of st' = if pin <? 0 then gpio_of st
    else <[pin := if xorb on (if bank then c_irled2_active_low c else c_irled_active_low c)
                  then 1 else 0]> (gpio_of st).
Proof.
  cbv zeta. unfold ric_irled_drive. cbv zeta.
  destruct (_ <? 0) eqn:E; [done|]. cbn [snd].
  match goal with |- context [gpio_set ?p ?v st] =>
    destruct (gpio_set_rest p v st) as (-> & -> & -> & ->); rewrite (gpio_set_gpio p v st), E end.
  split_and!; try done. f_equal. by destruct (xorb _ _).
Qed.

Lemma probe_leds_ok on st :
  pins_ok (settings st) ->
  let st' := ric_probe_leds on st in
  settings st' = settings st /\ current_mode st' = current_mode st /\
  probe_active st' = probe_active st /\ photo st' = photo st /\
  leds_at (settings st) (gpio_of st') on /\
  (forall m, ircut_at (settings st) (gpio_of st) m -> ircut_at (settings st) (gpio_of st') m).
Proof.
  intros (Hp1 & Hp2 & Hp3). cbv zeta. unfold ric_probe_leds. cbv zeta.
  set (c := settings st) in *.
  set (st1 := if c_ir850_enabled c then _ else st).
  assert (H1 : settings st1 = c /\ current_mode st1 = current_mode st /\
               probe_active st1 = probe_active st /\ photo st1 = photo st /\
               gpio_of st1 = if c_ir850_enabled c && (0 <=? c_gpio_irled c) then
                 <[c_gpio_irled c := if xorb on (c_irled_active_low c) then 1 else 0]> (gpio_of st)
                 else gpio_of st).
  { unfold st1. destruct (c_ir850_enabled c); [|done].
    destruct (irled_drive_gpio false on st) as (H1 & H2 & H3 & H4 & H5). fold c in H5.
    split_and!; try done. rewrite H5, Z.ltb_antisym. by destruct (0 <=? c_gpio_irled c). }
  destruct H1 as (Hs1 & Hm1 & Hpa1 & Hph1 & Hg1).
  set (st2 := if c_ir940_enabled c then _ else st1).
  assert (H2 : settings st2 = c /\ current_mode st2 = current_mode st /\
               probe_active st2 = probe_active st /\ photo st2 = photo st /\
               gpio_of st2 = if c_ir940_enabled c && (0 <=? c_gpio_irled2 c) then
                 <[c_gpio_irled2 c := if xorb on (c_irled2_active_low c) then 1 else 0]> (gpio_of st1)
                 else gpio_of st1).
  { unfold st2. destruct (c_ir940_enabled c); [|done].
    destruct (irled_drive_gpio true on st1) as (H1 & H2 & H3 & H4 & H5).
    rewrite Hs1 in H1, H5. split_and!; try congruence.
    rewrite H5, Z.ltb_antisym. by destruct (0 <=? c_gpio_irled2 c). }
  destruct H2 as (Hs2 & Hm2 & Hpa2 & Hph2 & Hg2). split_and!; try done.
  - split; intros He Hp; rewrite Hg2; [rewrite Hg1|]; rewrite He.
    + replace (0 <=? c_gpio_irled c) with true by lia. simpl.
      destruct (c_ir940_enabled c && (0 <=? c_gpio_irled2 c)) eqn:E; [|apply lookup_insert_eq].
      bool_to_prop. rewrite lookup_insert_ne by (apply Hp3; lia). apply lookup_insert_eq.
    + replace (0 <=? c_gpio_irled2 c) with true by lia. simpl. apply lookup_insert_eq.
  - intros m Hi Hp. specialize (Hi Hp).
    assert (Hl : forall p, (0 <= c_gpio_irled c -> c_gpio_irled c <> p) ->
                 (0 <= c_gpio_irled2 c -> c_gpio_irled2 c <> p) ->
                 gpio_of st2 !! p = gpio_of st !! p).
    { intros p Ha Hb. rewrite Hg2, Hg1.
      destruct (c_ir940_enabled c && (0 <=? c_gpio_irled2 c)) eqn:E2; bool_to_prop;
        [rewrite lookup_insert_ne by (apply Hb; lia)|];
        (destruct (c_ir850_enabled c && (0 <=? c_gpio_irled c)) eqn:E1; bool_to_prop;
          [rewrite lookup_insert_ne by (apply Ha; lia)|]); done. }
    rewrite !Hl by naive_solver. done.
Qed.

Lemma ircut_drive_ok pos st :
  pins_ok (settings st) ->
  let st' := snd (ric_ircut_drive pos st) in
  settings st' = settings st /\ current_mode st' = current_mode st /\
  probe_active st' = probe_active st /\ photo st' = photo st /\
  ircut_at (settings st) (gpio_of st') pos.
Proof.
  intros (Hp & _). cbv zeta. unfold ric_ircut_drive, ircut_at. cbv zeta. set (c := settings st) in *.
  destruct (c_gpio_ircut c <? 0) eqn:E0; bool_to_prop. { split_and!; try done. lia. }
  cbn [snd]. specialize (Hp E0).
  destruct (c_gpio_ircut2 c >=? 0) eqn:E2; bool_to_prop;
    assert (E0' : (c_gpio_ircut c <? 0) = false) by lia.
  - assert (E2' : c_gpio_ircut2 c <? 0 = false) by lia.
    destruct (is_night pos);
      (repeat match goal with |- context [settings (gpio_set ?p ?v ?s)] =>
        destruct (gpio_set_rest p v s) as (-> & -> & -> & ->) end);
      (split_and!; try done); intros _; rewrite !gpio_set_gpio, E0', E2'; cbn [Z.eqb];
      (split; [rewrite lookup_insert_ne by done; apply lookup_insert_eq|apply lookup_insert_eq]).
  - destruct (is_night pos); cbn [xorb];
      (repeat match goal with |- context [settings (gpio_set ?p ?v ?s)] =>
        destruct (gpio_set_rest p v s) as (-> & -> & -> & ->) end);
      (split_and!; try done); intros _; rewrite gpio_set_gpio, E0', lookup_insert_eq;
      by destruct (c_ircut_active_low c).
Qed.

Definition ric_view (st : ric_state) :=
  (settings st, hw_gpio (hw st), current_mode st, probe_active st, photo st).

Lemma isp_mode_view m st : ric_view (ric_set_isp_mode m st) = ric_view st.
Proof. unfold ric_set_isp_mode, rvd_call. by destruct (hw_answers _ _). Qed.

Lemma night_fps_view m st : ric_view (ric_apply_night_fps m st) = ric_view st.
Proof.
  unfold ric_apply_night_fps, rvd_call. destruct (_ || _); [done|]. by destruct (hw_answers _ _).
Qed.

Lemma set_gpio_ok m st :
  pins_ok (settings st) ->
  let st' := ric_set_gpio m st in
  settings st' = settings st /\ current_mode st' = current_mode st /\
  probe_active st' = probe_active st /\ photo st' = photo st /\
  forall probing, rails_ok (settings st) (gpio_of st') m probing.
Proof.
  intros Hp. destruct (ircut_drive_ok m st Hp) as (Hs & Hm & Hpa & Hph & Hi). cbv zeta in *.
  set (st1 := snd (ric_ircut_drive m st)) in *.
  assert (E : ric_set_gpio m st = ric_probe_leds (is_night m) st1).
  { unfold ric_set_gpio, ric_probe_leds. fold st1. by rewrite <- Hs. }
  rewrite E. rewrite <- Hs in Hp.
  destruct (probe_leds_ok (is_night m) st1 Hp) as (Hs' & Hm' & Hpa' & Hph' & Hl & Hk).
  rewrite Hs in *. split_and!; try congruence. intros probing. split; [by apply Hk|].
  by destruct m.
Qed.

(** The switch: the new mode, everything it drives in place, the calibration
    and the configuration untouched. *)
Lemma set_mode_spec m st :
  pins_ok (settings st) -> hw_ok st ->
  let st' := ric_set_mode m st in
  hw_ok st' /\ settings st' = settings st /\ current_mode st' = m /\
  probe_active st' = probe_active st /\ photo st' = photo st.
Proof.
  intros Hp Hok. cbv zeta. unfold ric_set_mode.
  destruct (bool_decide (m = current_mode st)) eqn:E.
  { apply bool_decide_eq_true in E. by subst. }
  destruct (set_gpio_ok m st Hp) as (Hs & Hm & Hpa & Hph & Hr). cbv zeta in *.
  set (st1 := ric_set_gpio m st) in *.
  pose proof (night_fps_view m (ric_set_isp_mode m st1)) as Hv.
  rewrite isp_mode_view in Hv. set (st2 := ric_apply_night_fps m _) in *.
  unfold ric_view in Hv. injection Hv as Hv1 Hv2 _ Hv4 Hv5.
  unfold hw_ok. destruct (is_night m); simpl; rewrite Hv1, Hv2, Hv4, Hv5, Hs, Hpa, Hph;
    split_and!; try done; apply Hr.
Qed.

Lemma force_mode_spec m st :
  pins_ok (settings st) ->
  let st' := ric_force_mode m st in hw_ok st' /\ current_mode st' = m.
Proof.
  intros Hp. cbv zeta. unfold ric_force_mode.
  destruct (bool_decide (m = current_mode st)) eqn:E.
  - apply bool_decide_eq_true in E.
    destruct (set_gpio_ok m st Hp) as (Hs & Hm & Hpa & Hph & Hr). cbv zeta in *.
    set (st1 := ric_set_gpio m st) in *.
    pose proof (night_fps_view m (ric_set_isp_mode m st1)) as Hv.
    rewrite isp_mode_view in Hv. set (st2 := ric_apply_night_fps m _) in *.
    injection Hv as Hv1 Hv2 Hv3 Hv4 Hv5. unfold hw_ok. rewrite Hv1, Hv2, Hv3, Hs, Hm, <- E.
    split; [split; [done|apply Hr]|done].
  - unfold ric_set_mode. rewrite E.
    destruct (set_gpio_ok m st Hp) as (Hs & Hm & Hpa & Hph & Hr). cbv zeta in *.
    set (st1 := ric_set_gpio m st) in *.
    pose proof (night_fps_view m (ric_set_isp_mode m st1)) as Hv.
    rewrite isp_mode_view in Hv. set (st2 := ric_apply_night_fps m _) in *.
    injection Hv as Hv1 Hv2 _ Hv4 Hv5. unfold hw_ok.
    destruct (is_night m); simpl; rewrite Hv1, Hv2, Hs; split_and!; try done; apply Hr.
Qed.

(** An operation that keeps the rails and the configuration. *)
Definition keeps_rails (st st' : ric_state) : Prop :=
  hw_ok st -> hw_ok st' /\ settings st' = settings st.

Lemma keeps_view st st' : hw_view st' = hw_view st -> keeps_rails st st'.
Proof. intros E H. split; [by eapply hw_ok_view|]. by injection E. Qed.

Lemma keeps_trans st1 st2 st3 : keeps_rails st1 st2 -> keeps_rails st2 st3 -> keeps_rails st1 st3.
Proof. intros H1 H2 H. destruct (H1 H) as [Ha Hb]. destruct (H2 Ha). split; [done|congruence]. Qed.

Lemma keeps_set_mode m st : keeps_rails st (ric_set_mode m st).
Proof. intros H. destruct (set_mode_spec m st (proj1 H) H) as (? & ? & _). done. Qed.

(** Around a mode switch only the photo state and counters are written. *)
Lemma keeps_switch m st0 st st' :
  hw_view st = hw_view st0 -> hw_view st' = hw_view (ric_set_mode m st) -> keeps_rails st0 st'.
Proof.
  intros H1 H2. eapply keeps_trans; [by apply keeps_view|].
  eapply keeps_trans; [apply (keeps_set_mode m)|by apply keeps_view].
Qed.

Ltac keep_switch :=
  match goal with |- context [ric_set_mode ?m ?x] => apply (keeps_switch m _ x); reflexivity end.

Lemma keeps_photo_night st : keeps_rails st (photo_night_control st).
Proof.
  unfold photo_night_control. cbv zeta. destruct (_ <? 7); [by apply keeps_view|].
  match goal with |- context [photo_night_reason ?x] => set (ps := x) end.
  destruct (photo_night_reason ps >? 0); [keep_switch|].
  destruct (photo_fixed_fallback _ ps) as [[] ps']; [keep_switch|by apply keeps_view].
Qed.

Lemma keeps_photo_poll ev rg bg st : keeps_rails st (ric_photo_poll ev rg bg st).
Proof.
  unfold ric_photo_poll. destruct (negb _); [by apply keeps_view|]. cbv zeta.
  match goal with |- context [st <| photo := ?x |>] => set (ps := x) end.
  assert (H0 : keeps_rails st (st <| photo := ps |>)) by (by apply keeps_view).
  destruct (ps_phase ps).
  - eapply keeps_trans; [exact H0|apply keeps_photo_night].
  - eapply keeps_trans; [exact H0|]. clearbody ps. generalize (st <| photo := ps |>). intros st1.
    assert (H1 : keeps_rails st1 (photo_day_control st1)).
    { unfold photo_day_control. destruct (photo_day_sample _ _) as [[] ps'];
        [keep_switch|by apply keeps_view]. }
    destruct (is_night (current_mode (photo_day_control st1))); [|exact H1]. eapply keeps_trans; [exact H1|].
    unfold photo_fixed_control. destruct (photo_fixed_sample _) as [[] ps'];
      [keep_switch|by apply keeps_view].
  - eapply keeps_trans; [exact H0|]. unfold photo_interfere_control.
    destruct (photo_interfere_sample _) as [[] ps']; try (by apply keeps_view). keep_switch.
Qed.

Lemma keeps_debounce n d g st : keeps_rails st (ric_debounce n d g st).
Proof.
  unfold ric_debounce. destruct (current_mode st).
  - destruct n; [|by apply keeps_view]. destruct (_ >=? _); [keep_switch|by apply keeps_view].
  - destruct d; [|by apply keeps_view]. destruct (_ >=? _); [|by apply keeps_view].
    destruct (bool_decide _); keep_switch.
Qed.

Lemma settle_night_view e st : hw_view (snd (ric_settle_night e st)) = hw_view st.
Proof.
  unfold ric_settle_night. cbv zeta. match goal with |- context [if ?b then (true, _) else _] => by destruct b end.
Qed.

Lemma keeps_cooldown e st : keeps_rails st (ric_cooldown e st).
Proof.
  unfold ric_cooldown. cbv zeta.
  set (st1 := st <| cooldown_remaining := cooldown_remaining st - 1 |>).
  match goal with |- context [if ?b then ric_verify_day e st1 else st1] =>
    set (st2 := if b then ric_verify_day e st1 else st1) end.
  assert (H2 : keeps_rails st st2).
  { eapply (keeps_trans _ st1); [by apply keeps_view|]. unfold st2.
    destruct (_ && day_verify_pending st1); [|by apply keeps_view].
    unfold ric_verify_day. cbv zeta. destruct (_ && _); [keep_switch|by apply keeps_view]. }
  eapply keeps_trans; [exact H2|]. generalize st2. intros st3.
  destruct (_ && is_night (current_mode st3)); [|by apply keeps_view].
  pose proof (settle_night_view e st3) as Hv. destruct (ric_settle_night e st3) as [[] st4];
    by apply keeps_view.
Qed.

(** Lifting the LEDs is only ever done together with marking the probe. *)
Lemma keeps_probe_idle e st :
  is_night (current_mode st) = true -> keeps_rails st (probe_idle e st).
Proof.
  intros Hn. unfold probe_idle. cbv zeta.
  match goal with |- context [let '(_, _) := ?x in _] => destruct x as [due st1] eqn:E1 end.
  assert (H1 : hw_view st1 = hw_view st) by (destruct (_ && _); by simplify_eq).
  destruct (_ && negb due); [by apply keeps_view|].
  destruct (negb due && _); [by apply keeps_view|].
  set (st2 := if due then st1 else _).
  assert (H2 : hw_view st2 = hw_view st) by (unfold st2; destruct due; exact H1).
  destruct (due || _); [|by apply keeps_view].
  intros Hok. assert (Hok2 : hw_ok (st2 <| probe_dip_run := 0 |>)) by (by eapply hw_ok_view).
  destruct Hok2 as [Hp [Hi _]].
  destruct (probe_leds_ok false _ Hp) as (Hs & Hm & Hpa & Hph & Hl & Hk). cbv zeta in *.
  injection H2 as Hc Hg Hmode Hpr.
  set (st3 := ric_probe_leds false _) in *. simpl in Hs, Hm, Hp, Hi.
  unfold hw_ok. simpl. rewrite Hs, Hm. split; [split; [done|]|congruence].
  split; [by apply Hk|]. rewrite Hmode. by destruct (current_mode st).
Qed.

Lemma keeps_probe_running st :
  is_night (current_mode st) = true -> keeps_rails st (snd (probe_running st)).
Proof.
  intros Hn. unfold probe_running. cbv zeta.
  set (st1 := st <| probe_polls_left := probe_polls_left st - 1 |>).
  destruct (_ >? _); [by apply keeps_view|]. destruct (_ =? 0); [|by apply keeps_view].
  intros Hok. assert (Hok1 : hw_ok st1) by (by eapply hw_ok_view). destruct Hok1 as [Hp [Hi _]].
  destruct (probe_leds_ok true st1 Hp) as (Hs & Hm & Hpa & Hph & Hl & Hk). cbv zeta in *.
  set (st2 := ric_probe_leds true st1) in *.
  unfold hw_ok. simpl. rewrite Hs, Hm. split; [split; [done|]|done].
  split; [by apply Hk|]. change (current_mode st1) with (current_mode st). by destruct (current_mode st).
Qed.

Lemma keeps_luma e st : keeps_rails st (snd (luma_trigger e st)).
Proof.
  unfold luma_trigger. destruct (luma_wants e st) as [[n d] st1] eqn:E1.
  assert (H1 : hw_view st1 = hw_view st).
  { unfold luma_wants in E1. cbv zeta in E1. destruct (have_gain e && _); [|by simplify_eq].
    destruct (is_night (current_mode st) && _ && _); by simplify_eq. }
  destruct (luma_probe e n d st1) as [[n' d'] st2] eqn:E2.
  assert (H2 : keeps_rails st1 st2).
  { unfold luma_probe in E2. cbv zeta in E2.
    set (st0 := if probe_active st1 && _ then _ else st1) in E2.
    assert (H0 : keeps_rails st1 st0).
    { unfold st0. destruct (probe_active st1 && _) eqn:Ep; [|by apply keeps_view]. bool_to_prop.
      intros [Hp [Hi Hl]]. split; [|done]. split; [done|]. simpl. split; [done|].
      unfold is_night in *. by destruct (current_mode st1). }
    eapply keeps_trans; [exact H0|]. clearbody st0. destruct (is_night (current_mode st0)) eqn:En; cbn [andb] in E2;
      [|simplify_eq; by apply keeps_view].
    match type of E2 with (if ?b then _ else _) = _ => destruct b end;
      [|simplify_eq; by apply keeps_view].
    destruct (negb (probe_active st0)); [simplify_eq; by apply keeps_probe_idle|].
    destruct (probe_polls_left st0 >? 0); [|simplify_eq; by apply keeps_view].
    pose proof (keeps_probe_running st0 En) as Hr. destruct (probe_running st0) as [k st3].
    by simplify_eq. }
  eapply (keeps_trans _ st1); [by apply keeps_view|]. eapply keeps_trans; [exact H2|].
  destruct (_ >? 0); by apply keeps_view.
Qed.

Lemma keeps_evaluate e adc st : keeps_rails st (ric_evaluate e adc st).
Proof.
  unfold ric_evaluate. destruct (_ >? 0); [apply keeps_cooldown|].
  destruct (ric_wants e adc st) as [w st1] eqn:E.
  assert (H1 : keeps_rails st st1).
  { unfold ric_wants in E. cbv zeta in E. destruct (c_trigger (settings st)).
    - pose proof (keeps_luma e st) as H. destruct (luma_trigger e st) as [[n d] st2]. by simplify_eq.
    - simplify_eq. by apply keeps_view.
    - destruct adc; simplify_eq; [by apply keeps_view|].
      unfold adc_note_failed_read. cbv zeta. destruct (outage_quiet _ _ _); by apply keeps_view.
    - simplify_eq. by apply keeps_view. }
  destruct w as [[n d]|]; [|done]. eapply keeps_trans; [exact H1|apply keeps_debounce].
Qed.

(** ** Runs *)

Inductive ric_op :=
  | OpPoll (q : rvd_query) (adc : option Z)
  | OpForce (m : ric_mode)
  | OpRearm.

Definition ric_apply (st : ric_state) (op : ric_op) : ric_state :=
  match op with
  | OpPoll q adc => ric_poll_exposure q adc st
  | OpForce m => ric_force_mode m st
  | OpRearm => ric_trigger_rearm st
  end.

Lemma hw_ok_trigger t st :
  hw_ok st -> hw_ok (st <| settings := (settings st) <| c_trigger := t |> |>).
Proof. done. Qed.

Lemma good_query_view st : hw_view (rvd_note_good_query st) = hw_view st.
Proof.
  unfold rvd_note_good_query. cbv zeta. destruct (rvd_fail_run st >? 0); [|done].
  pose proof (night_fps_view (current_mode st) (ric_set_isp_mode (current_mode st) st)) as Hv.
  rewrite isp_mode_view in Hv. injection Hv as H1 H2 H3 H4 _.
  unfold hw_view. simpl. by rewrite H1, H2, H3, H4.
Qed.

Lemma poll_hw_ok q adc st : hw_ok st -> hw_ok (ric_poll_exposure q adc st).
Proof.
  intros Hok. unfold ric_poll_exposure.
  assert (Hg : hw_ok (rvd_note_good_query st)) by (eapply hw_ok_view; [apply good_query_view|done]).
  destruct q as [| |e].
  - unfold rvd_note_failed_query. cbv zeta. destruct (outage_quiet _ _ _); done.
  - by destruct (negb _).
  - revert Hg. generalize (rvd_note_good_query st). clear st Hok. intros st Hok.
    destruct (negb (bool_decide (c_opmode (settings st) = RIC_AUTO))); [done|].
    match goal with |- hw_ok (if ?b then _ else _) => destruct b end; [done|].
    destruct (bool_decide (c_trigger (settings st) = RIC_TRIGGER_PHOTO)).
    + destruct (have_ev e); [by apply keeps_photo_poll|].
      by apply keeps_evaluate, hw_ok_trigger.
    + by apply keeps_evaluate.
Qed.

Lemma rearm_hw_ok st : hw_ok st -> hw_ok (ric_trigger_rearm st).
Proof.
  intros [Hp [Hi Hl]]. unfold ric_trigger_rearm. cbv zeta.
  match goal with |- context [is_night (current_mode ?x)] => set (st1 := x) end.
  change (current_mode st1) with (current_mode st).
  assert (H1 : hw_ok st1 <-> (rails_ok (settings st) (hw_gpio (hw st)) (current_mode st) false)).
  { unfold hw_ok. simpl. tauto. }
  unfold is_night. destruct (current_mode st) eqn:Em; simpl.
  { apply H1. by split. }
  destruct (irled_drive_gpio false (c_ir850_enabled (settings st)) st1) as (A1 & A2 & A3 & _ & A5).
  set (st2 := snd (ric_irled_drive false _ st1)) in *.
  destruct (irled_drive_gpio true (c_ir940_enabled (settings st)) st2) as (B1 & B2 & B3 & _ & B5).
  set (st3 := snd (ric_irled_drive true _ st2)) in *. cbv zeta in *.
  rewrite A1 in B1, B5. change (settings st1) with (settings st) in *.
  change (gpio_of st1) with (hw_gpio (hw st)) in A5.
  set (c := settings st) in *. destruct Hp as (Hp1 & Hp2 & Hp3).
  assert (Hg : forall p, (0 <= c_gpio_irled c -> c_gpio_irled c <> p) ->
               (0 <= c_gpio_irled2 c -> c_gpio_irled2 c <> p) ->
               gpio_of st3 !! p = hw_gpio (hw st) !! p).
  { intros p Ha Hb. rewrite B5, A5.
    destruct (c_gpio_irled2 c <? 0) eqn:E2; bool_to_prop; [|rewrite lookup_insert_ne by (apply Hb; lia)];
      (destruct (c_gpio_irled c <? 0) eqn:E1; bool_to_prop; [|rewrite lookup_insert_ne by (apply Ha; lia)]); done. }
  unfold hw_ok. change (hw_gpio (hw st3)) with (gpio_of st3).
  rewrite B1, B2, A2. change (current_mode st1) with (current_mode st). rewrite Em.
  split; [done|]. split.
  - intros Hi0. specialize (Hi Hi0). rewrite !Hg by naive_solver. done.
  - intros _. split; intros He Hpin.
    + rewrite B5. destruct (c_gpio_irled2 c <? 0) eqn:E2; bool_to_prop;
        [|rewrite lookup_insert_ne by (apply Hp3; lia)];
        rewrite A5; (replace (c_gpio_irled c <? 0) with false by lia); rewrite lookup_insert_eq, He; done.
    + rewrite B5. replace (c_gpio_irled2 c <? 0) with false by lia. rewrite lookup_insert_eq, He. done.
Qed.


Definition demo_config : ric_config :=
  mk_ric_config RIC_AUTO 10 (-1) 11 (-1) false false false true false RIC_TRIGGER_LUMA
    20 80000 25 90 60 0 3000 1000 0 200 600 (mk_ric_photo_thresholds 50000 150000 5000 0 0)
    2 0 1000 100.

Definition demo_ric : ric_state :=
  mk_ric_state demo_config RIC_MODE_DAY 0 0 0 0 0 0 false 0 0 false 0 0 0 0 0 0 0 0
    (photo_zero PHOTO_PHASE_NIGHT_DETECT) (-1) false 0 false 0 false false false
    (mk_ric_hw ∅ RIC_MODE_DAY 0 (fun _ => RvdOk) 0) 0.

Definition demo_poll (gain luma ev : Z) : ric_op :=
  OpPoll (QueryExposure (mk_exposure gain luma ev None 0 0)) None.


(** The probe mark outlives the probe: a probe that ends in a day switch
    whose verification then fails leaves the state marked as probing in night
    mode while the IR banks are lit again, so the luma under IR light is taken
    for ambient light; the clean-up in the luma trigger runs only after a day
    that was confirmed. *)
Theorem ric_probe_mark_outlives_revert :
  exists ops, let st := fold_left ric_apply ops (ric_force_mode RIC_MODE_DAY demo_ric) in
  current_mode st = RIC_MODE_NIGHT /\ probe_active st = true /\
  leds_at (settings st) (hw_gpio (hw st)) true.
Proof.
  exists ([demo_poll 50000 5 90000; demo_poll 50000 5 90000]            (* dark: night *)
          ++ repeat (demo_poll 1000 60 9000) 8                            (* IR lit, baseline settles *)
          ++ repeat (demo_poll 500 60 4000) 3                             (* a dip: the probe starts *)
          ++ repeat (demo_poll 500 60 4000) 5                             (* lit scene: day *)
          ++ repeat (demo_poll 50000 5 90000) 3).                         (* dark again: verification fails *)
  cbv zeta. split; [by vm_compute|]. split; [by vm_compute|].
  split; [|by vm_compute]. intros _ _. by vm_compute.
Qed.

(** ** Debounce *)

(** The run of consecutive wishes at the end of a history. *)
Fixpoint trailing (ws : list bool) (k : Z) : Z :=
  match ws with [] => k | w :: ws => trailing ws (if w then k + 1 else 0) end.

Lemma trailing_snoc ws w k : trailing (ws ++ [w]) k = if w then trailing ws k + 1 else 0.
Proof. revert k. induction ws as [|a ws IH]; intros k; simpl; [by destruct w|apply IH]. Qed.

(** A history of night wishes holds [h] in a row nowhere. *)
Definition no_long_run (h : Z) (ws : list bool) : Prop :=
  forall i, trailing (take i ws) 0 < h.

Lemma debounce_day_hold st g ws :
  current_mode st = RIC_MODE_DAY -> night_count st = 0 ->
  no_long_run (c_hysteresis_sec (settings st)) ws ->
  let st' := fold_left (fun st w => ric_debounce w (negb w) g st) ws st in
  current_mode st' = RIC_MODE_DAY /\ night_count st' = trailing ws 0 /\ settings st' = settings st.
Proof.
  intros Hm Hc. induction ws as [|w ws IH] using rev_ind; intros Hn; cbv zeta; [done|].
  assert (Hn' : no_long_run (c_hysteresis_sec (settings st)) ws).
  { intros i. destruct (decide (i <= length ws)%nat).
    - specialize (Hn i). by rewrite take_app_le in Hn by lia.
    - rewrite take_ge by lia. specialize (Hn (length ws)). by rewrite take_app_length in Hn. }
  destruct (IH Hn') as (H1 & H2 & H3). cbv zeta in *. rewrite fold_left_app. cbn [fold_left].
  set (st1 := fold_left _ ws st) in *. unfold ric_debounce. rewrite H1, trailing_snoc.
  destruct w; [|by split_and!].
  specialize (Hn (S (length ws))). rewrite take_ge, trailing_snoc in Hn by (rewrite length_app; simpl; lia).
  cbv zeta. simpl. rewrite H2, H3.
  destruct (trailing ws 0 + 1 >=? c_hysteresis_sec (settings st)) eqn:E; bool_to_prop; [lia|].
  by split_and!.
Qed.

(** the filter never moves early, and moves on time: while no
    [hysteresis_sec] consecutive polls want night the debounce stays in day
    mode, and the poll that completes such a run switches to night. *)
Theorem ric_debounce_exact st g ws :
  current_mode st = RIC_MODE_DAY -> night_count st = 0 ->
  no_long_run (c_hysteresis_sec (settings st)) ws ->
  let st' := fold_left (fun st w => ric_debounce w (negb w) g st) ws st in
  current_mode st' = RIC_MODE_DAY /\
  (trailing (ws ++ [true]) 0 >= c_hysteresis_sec (settings st) -> hw_ok st' ->
   current_mode (ric_debounce true false g st') = RIC_MODE_NIGHT).
Proof.
  intros Hm Hc Hn. destruct (debounce_day_hold st g ws Hm Hc Hn) as (H1 & H2 & H3).
  cbv zeta in *. split; [done|]. set (st' := fold_left _ ws st) in *.
  intros Ht Hok. rewrite trailing_snoc, <- H2, <- H3 in Ht. unfold ric_debounce. rewrite H1. cbv zeta.
  match goal with |- context [if ?b then _ else _] => destruct b eqn:E end;
    simpl in E; bool_to_prop; [|lia].
  match goal with |- current_mode (ric_set_mode _ ?x) = _ =>
    assert (Hx : hw_ok x) by (eapply hw_ok_view; [|exact Hok]; done);
    destruct (set_mode_spec RIC_MODE_NIGHT x (proj1 Hx) Hx) as (_ & _ & ? & _) end. done.
Qed.

Lemma ric_debounce_exact_witness :
  let st := ric_force_mode RIC_MODE_DAY demo_ric in
  let st' := fold_left (fun st w => ric_debounce w (negb w) 0 st) [true; false; true] st in
  current_mode st' = RIC_MODE_DAY /\ current_mode (ric_debounce true false 0 st') = RIC_MODE_NIGHT.
Proof.
  intros st st'. destruct (ric_debounce_exact st 0 [true; false; true]) as [H1 H2].
  - reflexivity.
  - reflexivity.
  - intros [|[|[|[|i]]]]; vm_compute; reflexivity.
  - split; [exact H1|]. apply H2; [vm_compute; discriminate|].
    split; [vm_compute; split_and!; intros; split_and?; congruence|].
    split; [by vm_compute|]. split; by vm_compute.
Defined.

(** ** Lockout *)

Lemma set_night_mode st : current_mode st = RIC_MODE_NIGHT -> ric_set_mode RIC_MODE_NIGHT st = st.
Proof. intros H. unfold ric_set_mode. by rewrite H, bool_decide_true. Qed.

(** In night mode under the luma trigger a poll with a lockout pending cannot
    switch to day, and uses up at most one count of it. *)
Definition locked (n : Z) (st : ric_state) : Prop :=
  current_mode st = RIC_MODE_NIGHT /\ c_trigger (settings st) = RIC_TRIGGER_LUMA /\
  n <= day_lockout_polls st.

Lemma locked_view n st st' :
  (current_mode st', settings st', day_lockout_polls st') =
  (current_mode st, settings st, day_lockout_polls st) -> locked n st -> locked n st'.
Proof. intros [= E1 E2 E3]. unfold locked. by rewrite E1, E2, E3. Qed.

Lemma locked_cooldown n e st : locked n st -> locked n (ric_cooldown e st).
Proof.
  intros Hl. pose proof Hl as (Hm & _). unfold ric_cooldown. cbv zeta.
  change (current_mode (st <| cooldown_remaining := _ |>)) with (current_mode st). rewrite Hm.
  change (is_night RIC_MODE_NIGHT) with true. cbn [negb]. rewrite andb_false_r. cbn [andb].
  set (st1 := st <| cooldown_remaining := _ |>).
  assert (Hl1 : locked n st1) by (by eapply locked_view). clearbody st1.
  assert (Hs : locked n (snd (ric_settle_night e st1))).
  { revert Hl1. apply locked_view. unfold ric_settle_night. cbv zeta.
    match goal with |- context [if ?b then (true, _) else _] => by destruct b end. }
  destruct (_ && is_night _); [|by eapply locked_view].
  destruct (ric_settle_night e st1) as [[] st2]; by eapply locked_view.
Qed.

Lemma locked_probe_leds n on st : locked n st -> locked n (ric_probe_leds on st).
Proof.
  apply locked_view. unfold ric_probe_leds, ric_irled_drive, gpio_set. cbv zeta.
  destruct (c_ir850_enabled _), (c_ir940_enabled _); simpl; repeat case_match; done.
Qed.

Lemma locked_luma n e st :
  locked n st -> 0 < n ->
  let '(_, d, st') := luma_trigger e st in d = false /\ locked (n - 1) st'.
Proof.
  intros Hl Hn. unfold luma_trigger. destruct (luma_wants e st) as [[w d] st1] eqn:E1.
  assert (H1 : locked n st1).
  { unfold luma_wants in E1. cbv zeta in E1. destruct (have_gain e && _); [|by simplify_eq].
    match type of E1 with context [if ?b && ?c && ?f then _ else _] => destruct (b && c && f) end;
      simplify_eq; by eapply locked_view. }
  unfold luma_probe. cbv zeta.
  match goal with |- context [probe_active st1 && ?b] =>
    set (st0 := if probe_active st1 && b then _ else st1) end.
  assert (H0 : locked n st0).
  { unfold st0. destruct (probe_active st1 && _); [by eapply locked_view|done]. }
  clearbody st0. pose proof H0 as (Hm0 & _ & Hp0).
  replace (day_lockout_polls st0 =? 0) with false by (symmetry; apply Z.eqb_neq; lia).
  rewrite !andb_false_r. replace (day_lockout_polls st0 >? 0) with true
    by (symmetry; rewrite Z.gtb_ltb; apply Z.ltb_lt; lia).
  split; [done|]. destruct H0 as (? & ? & ?). split_and!; simpl; try done. lia.
Qed.

Lemma locked_poll n q adc st :
  locked n st -> 0 < n -> locked (n - 1) (ric_poll_exposure q adc st).
Proof.
  intros Hl Hn. assert (Hmono : forall s, locked n s -> locked (n - 1) s)
    by (intros s (? & ? & ?); split_and!; try done; lia).
  unfold ric_poll_exposure.
  assert (Hg : locked n (rvd_note_good_query st)).
  { revert Hl. apply locked_view. unfold rvd_note_good_query, ric_apply_night_fps, ric_set_isp_mode, rvd_call.
    cbv zeta. destruct (rvd_fail_run st >? 0); [|done].
    destruct (hw_answers _ _); simpl; repeat case_match; done. }
  destruct q as [| |e].
  - apply Hmono. revert Hl. apply locked_view. unfold rvd_note_failed_query. cbv zeta.
    by destruct (outage_quiet _ _ _).
  - apply Hmono. by destruct (negb _).
  - revert Hg. generalize (rvd_note_good_query st). clear st Hl. intros st Hl.
    destruct (negb (bool_decide (c_opmode (settings st) = RIC_AUTO))); [by apply Hmono|].
    match goal with |- locked _ (if ?b then _ else _) => destruct b end; [by apply Hmono|].
    pose proof Hl as (Hm & Ht & _). rewrite Ht, bool_decide_false by done.
    unfold ric_evaluate. destruct (cooldown_remaining st >? 0); [by apply Hmono, locked_cooldown|].
    unfold ric_wants. rewrite Ht. pose proof (locked_luma n e st Hl Hn) as H.
    destruct (luma_trigger e st) as [[w d] st1]. destruct H as [-> H1].
    unfold ric_debounce. rewrite (proj1 H1). by eapply locked_view.
Qed.

(** Moving the rails leaves the lockout alone. *)
Definition lockout_view (st : ric_state) := (day_lockout_polls st, day_lockout_next st).

Lemma gpio_set_lockout p v st : lockout_view (gpio_set p v st) = lockout_view st.
Proof. unfold gpio_set. by destruct (p <? 0). Qed.

Lemma irled_lockout b o st : lockout_view (snd (ric_irled_drive b o st)) = lockout_view st.
Proof. unfold ric_irled_drive. cbv zeta. destruct (_ <? 0); [done|]. apply gpio_set_lockout. Qed.

Lemma ircut_lockout m st : lockout_view (snd (ric_ircut_drive m st)) = lockout_view st.
Proof.
  unfold ric_ircut_drive. cbv zeta. destruct (_ <? 0); [done|]. cbn [snd].
  destruct (is_night m), (_ >=? 0); by rewrite !gpio_set_lockout.
Qed.

Lemma set_mode_lockout m st : lockout_view (ric_set_mode m st) = lockout_view st.
Proof.
  unfold ric_set_mode. destruct (bool_decide _); [done|].
  assert (Hg : lockout_view (ric_set_gpio m st) = lockout_view st).
  { unfold ric_set_gpio. cbv zeta.
    destruct (c_ir850_enabled _), (c_ir940_enabled _); by rewrite ?irled_lockout, ircut_lockout. }
  rewrite <- Hg. generalize (ric_set_gpio m st). intros st1.
  assert (Hi : lockout_view (ric_set_isp_mode m st1) = lockout_view st1)
    by (unfold ric_set_isp_mode, rvd_call; by destruct (hw_answers _ _)).
  rewrite <- Hi. generalize (ric_set_isp_mode m st1). intros st2.
  assert (Hf : lockout_view (ric_apply_night_fps m st2) = lockout_view st2).
  { unfold ric_apply_night_fps, rvd_call. destruct (_ || _); [done|]. by destruct (hw_answers _ _). }
  rewrite <- Hf. by destruct (is_night m).
Qed.



(** ** The night baseline *)

(** One more poll of a night cooldown either ends it with the baseline adopted
    or leaves strictly less of it. *)
Lemma cooldown_progress e st :
  current_mode st = RIC_MODE_NIGHT -> 0 < cooldown_remaining st -> 0 <= settle_extend_left st ->
  let st' := ric_cooldown e st in
  current_mode st' = RIC_MODE_NIGHT /\ 0 <= settle_extend_left st' /\
  cooldown_remaining st - 1 <= cooldown_remaining st' /\
  (cooldown_remaining st' = 0 -> cooldown_remaining st = 1 /\
     night_gain_baseline st' = ex_total_gain e /\ night_ev_baseline st' = ex_ev e) /\
  (0 < cooldown_remaining st' ->
     cooldown_remaining st' + settle_extend_left st' = cooldown_remaining st + settle_extend_left st - 1).
Proof.
  intros Hm Hc He. cbv zeta. unfold ric_cooldown. cbv zeta.
  change (current_mode (st <| cooldown_remaining := _ |>)) with (current_mode st). rewrite Hm.
  change (is_night RIC_MODE_NIGHT) with true. cbn [negb]. rewrite andb_false_r. cbn [andb].
  set (st1 := st <| cooldown_remaining := _ |>).
  assert (H1 : cooldown_remaining st1 = cooldown_remaining st - 1 /\
               settle_extend_left st1 = settle_extend_left st /\ current_mode st1 = RIC_MODE_NIGHT)
    by done. clearbody st1. destruct H1 as (H1 & H2 & H3).
  rewrite H3. change (is_night RIC_MODE_NIGHT) with true. rewrite andb_true_r.
  destruct (cooldown_remaining st1 =? 0) eqn:E; bool_to_prop.
  - unfold ric_settle_night. cbv zeta.
    match goal with |- context [st1 <| settle_agree_run := ?a |>] => generalize a end. intros run.
    match goal with |- context [if ?b then (true, _) else _] => destruct b eqn:Eb end.
    + bool_to_prop. simpl in *. split_and!; try done; try lia.
    + simpl. split_and!; try done; lia.
  - simpl. split_and!; try done; lia.
Qed.

(** So a night cooldown with [n] polls of slack ends within [n] polls. *)
Lemma cooldown_ends es st :
  current_mode st = RIC_MODE_NIGHT -> 0 < cooldown_remaining st -> 0 <= settle_extend_left st ->
  cooldown_remaining st + settle_extend_left st <= Z.of_nat (length es) ->
  exists k e, cooldown_remaining st <= Z.of_nat (S k) <= Z.of_nat (length es) /\ es !! k = Some e /\
    let st' := fold_left (fun st e => ric_cooldown e st) (take (S k) es) st in
    cooldown_remaining st' = 0 /\ night_gain_baseline st' = ex_total_gain e /\
    night_ev_baseline st' = ex_ev e.
Proof.
  revert st. induction es as [|e es IH]; intros st Hm Hc Hx Hl; simpl in Hl; [lia|].
  destruct (cooldown_progress e st Hm Hc Hx) as (Hm' & Hx' & Hge & Hz & Hp). cbv zeta in *.
  destruct (decide (cooldown_remaining (ric_cooldown e st) = 0)) as [Hd|Hd].
  - destruct (Hz Hd) as (H1 & H2 & H3). exists 0%nat, e. cbn [take fold_left].
    split_and!; try done; simpl length; lia.
  - specialize (Hp ltac:(lia)). destruct (IH (ric_cooldown e st) Hm' ltac:(lia) Hx' ltac:(lia))
      as (k & e' & Hk & He' & Hf).
    exists (S k), e'. split; [simpl length; lia|]. by split.
Qed.

(** every switch to night gets its baseline: within 20 evaluated polls of a
    switch to night the cooldown has ended at some poll, and the baselines are
    the readings of exactly that poll, whatever the exposure does meanwhile. *)
Theorem ric_baseline_bounded st es :
  current_mode st = RIC_MODE_DAY -> length es = 20%nat ->
  exists k e, (3 <= S k <= 20)%nat /\ es !! k = Some e /\
    let st' := fold_left (fun st e => ric_cooldown e st) (take (S k) es)
                 (ric_set_mode RIC_MODE_NIGHT st) in
    cooldown_remaining st' = 0 /\ night_gain_baseline st' = ex_total_gain e /\
    night_ev_baseline st' = ex_ev e.
Proof.
  intros Hm Hlen.
  assert (H0 : cooldown_remaining (ric_set_mode RIC_MODE_NIGHT st) = 3 /\
               settle_extend_left (ric_set_mode RIC_MODE_NIGHT st) = 17 /\
               current_mode (ric_set_mode RIC_MODE_NIGHT st) = RIC_MODE_NIGHT).
  { unfold ric_set_mode. rewrite Hm, bool_decide_false by done. done. }
  destruct H0 as (Hc & Hx & Hm').
  destruct (cooldown_ends es _ Hm' ltac:(lia) ltac:(lia) ltac:(lia)) as (k & e & Hk & He & Hf).
  exists k, e. split; [lia|]. by split.
Qed.

Lemma ric_baseline_bounded_witness :
  let es := repeat (mk_exposure 1000 60 9000 None 0 0) 20 in
  exists k e, (3 <= S k <= 20)%nat /\ es !! k = Some e /\
    let st' := fold_left (fun st e => ric_cooldown e st) (take (S k) es)
                 (ric_set_mode RIC_MODE_NIGHT demo_ric) in
    cooldown_remaining st' = 0 /\ night_gain_baseline st' = ex_total_gain e /\
    night_ev_baseline st' = ex_ev e.
Proof. intros es. apply (ric_baseline_bounded demo_ric es); reflexivity. Defined.

(** ** The photo trigger *)

(** The phases that follow a detection agree with the mode. *)
Definition photo_phase_ok (st : ric_state) : Prop :=
  match ps_phase (photo st) with
  | PHOTO_PHASE_NIGHT_DETECT => True
  | PHOTO_PHASE_DAY_DETECT => current_mode st = RIC_MODE_NIGHT
  | PHOTO_PHASE_INTERFERE => current_mode st = RIC_MODE_DAY
  end.

(** The parts of a sample that leave the phase alone. *)
Lemma photo_samples_phase thr ps :
  ps_phase (photo_calibrate thr ps) = ps_phase ps /\
  ps_phase (photo_ev_checks thr (photo_deviations ps)) = ps_phase ps /\
  ps_phase (snd (photo_fixed_fallback thr ps)) = ps_phase ps /\
  ps_phase (snd (photo_day_sample thr ps)) = ps_phase ps /\
  ps_phase (snd (photo_interfere_sample ps)) = ps_phase ps /\
  ps_phase (snd (photo_fixed_sample ps)) = ps_phase ps.
Proof.
  unfold photo_calibrate, photo_ev_checks, photo_deviations, photo_fixed_fallback, photo_day_sample,
    photo_interfere_sample, photo_fixed_sample. cbv zeta.
  split_and!; repeat (match goal with |- context [if ?b then _ else _] => destruct b end; cbn [snd]); done.
Qed.

(** Setting the photo state around a switch. *)
Lemma switch_photo m st ps :
  hw_ok st ->
  let st' := (ric_set_mode m (st <| photo := ps |>)) in
  current_mode st' = m /\ photo st' = ps /\ settings st' = settings st /\ hw_ok st'.
Proof.
  intros Hok. assert (Hx : hw_ok (st <| photo := ps |>)) by (by eapply hw_ok_view).
  destruct (set_mode_spec m _ (proj1 Hx) Hx) as (H1 & H2 & H3 & _ & H5). done.
Qed.

Lemma photo_night_phase st :
  hw_ok st -> ps_phase (photo st) = PHOTO_PHASE_NIGHT_DETECT -> photo_phase_ok (photo_night_control st).
Proof.
  intros Hok Hph. unfold photo_night_control. cbv zeta.
  set (ps0 := (photo st) <| ps_settle_count := _ |>).
  assert (H0 : ps_phase ps0 = PHOTO_PHASE_NIGHT_DETECT) by done. clearbody ps0.
  destruct (_ <? 7); [unfold photo_phase_ok; simpl; by rewrite H0|].
  set (ps1 := if ps_settle_count ps0 >? 250 then _ else ps0).
  assert (H1 : ps_phase ps1 = PHOTO_PHASE_NIGHT_DETECT) by (unfold ps1; by destruct (_ >? 250)).
  clearbody ps1.
  destruct (photo_samples_phase (c_photo (settings st)) ps1) as (_ & Hp & _).
  set (ps2 := photo_ev_checks _ _) in *. clearbody ps2.
  destruct (photo_night_reason ps2 >? 0).
  { destruct (switch_photo RIC_MODE_NIGHT st ps2 Hok) as (Hm & _). unfold photo_phase_ok. simpl. exact Hm. }
  destruct (photo_samples_phase (c_photo (settings st)) ps2) as (_ & _ & Hf & _).
  destruct (photo_fixed_fallback _ ps2) as [force ps3]. simpl in Hf. destruct force.
  - destruct (switch_photo RIC_MODE_NIGHT st ps3 Hok) as (Hm & _). unfold photo_phase_ok. simpl. exact Hm.
  - unfold photo_phase_ok. simpl. by rewrite Hf, Hp, H1.
Qed.

Lemma photo_day_phase st :
  hw_ok st -> ps_phase (photo st) = PHOTO_PHASE_DAY_DETECT -> current_mode st = RIC_MODE_NIGHT ->
  hw_ok (photo_day_control st) /\ photo_phase_ok (photo_day_control st).
Proof.
  intros Hok Hph Hm. unfold photo_day_control.
  destruct (photo_samples_phase (c_photo (settings st)) (photo st)) as (_ & _ & _ & Hd & _).
  destruct (photo_day_sample _ _) as [day ps]. simpl in Hd. destruct day.
  - destruct (switch_photo RIC_MODE_DAY st ps Hok) as (Hm' & _ & _ & Hok').
    split; [by eapply hw_ok_view|]. unfold photo_phase_ok. simpl. exact Hm'.
  - split; [by eapply hw_ok_view|]. unfold photo_phase_ok. simpl. by rewrite Hd, Hph.
Qed.

Lemma photo_fixed_phase st :
  hw_ok st -> photo_phase_ok st -> current_mode st = RIC_MODE_NIGHT ->
  photo_phase_ok (photo_fixed_control st).
Proof.
  intros Hok Hp Hm. unfold photo_fixed_control.
  destruct (photo_samples_phase (c_photo (settings st)) (photo st)) as (_ & _ & _ & _ & _ & Hf).
  destruct (photo_fixed_sample _) as [day ps]. simpl in Hf. destruct day; [done|].
  unfold photo_phase_ok in *. simpl. by rewrite Hf.
Qed.

(** the photo trigger's phases agree with the mode after every poll: day
    detection runs in night mode and interference watch in day mode, whatever
    the readings, and the rails stay in place. *)
Theorem ric_photo_phases_agree ev rg bg st :
  hw_ok st -> photo_phase_ok st ->
  photo_phase_ok (ric_photo_poll ev rg bg st) /\ hw_ok (ric_photo_poll ev rg bg st).
Proof.
  intros Hok Hp. split; [|by apply keeps_photo_poll]. unfold ric_photo_poll.
  destruct (negb (bool_decide _)); [done|]. cbv zeta.
  match goal with |- context [st <| photo := ?x |>] => set (ps := x) end.
  assert (Hps : ps_phase ps = ps_phase (photo st)).
  { unfold ps. match goal with |- context [photo_calibrate ?t ?x] =>
      destruct (photo_samples_phase t x) as (Hc & _) end. destruct (negb _ && negb _); [exact Hc|done]. }
  clearbody ps. set (st1 := st <| photo := ps |>).
  assert (H1 : hw_ok st1 /\ photo_phase_ok st1 /\ ps_phase (photo st1) = ps_phase ps).
  { split; [by eapply hw_ok_view|]. split; [|done]. unfold photo_phase_ok in *. simpl. by rewrite Hps. }
  destruct H1 as (Hok1 & Hp1 & Hph1). clearbody st1. clear Hok Hp.
  destruct (ps_phase ps) eqn:E.
  - by apply photo_night_phase.
  - assert (Hm : current_mode st1 = RIC_MODE_NIGHT) by (unfold photo_phase_ok in Hp1; by rewrite Hph1 in Hp1).
    destruct (photo_day_phase st1 Hok1 Hph1 Hm) as [Hok2 Hp2].
    destruct (is_night (current_mode (photo_day_control st1))) eqn:En; [|done].
    apply photo_fixed_phase; try done. unfold is_night in En. by apply bool_decide_eq_true in En.
  - unfold photo_interfere_control.
    destruct (photo_samples_phase (c_photo (settings st1)) (photo st1)) as (_ & _ & _ & _ & Hi & _).
    destruct (photo_interfere_sample _) as [v ps2]. simpl in Hi.
    destruct v; try done. unfold photo_phase_ok in *. simpl. rewrite Hi, Hph1 in *. done.
Qed.

Definition demo_photo : ric_state :=
  (ric_force_mode RIC_MODE_DAY demo_ric)
    <| photo := (photo_zero PHOTO_PHASE_INTERFERE) <| ps_calibrated := true |>
       <| ps_interf_ring_idx := 8 |> <| ps_interf_ref_ev := 1000 |> <| ps_interf_rise_count := 3 |> |>.

Lemma demo_photo_ok : hw_ok demo_photo.
Proof.
  split; [vm_compute; split_and!; intros; split_and?; congruence|].
  split; [by vm_compute|]. split; by vm_compute.
Qed.

Lemma ric_photo_phases_agree_witness :
  current_mode (ric_photo_poll 1200 0 0 demo_photo) = RIC_MODE_NIGHT /\
  photo_phase_ok (ric_photo_poll 1200 0 0 demo_photo).
Proof.
  split; [by vm_compute|]. refine (proj1 (ric_photo_phases_agree 1200 0 0 demo_photo _ _)).
  - exact demo_photo_ok.
  - by vm_compute.
Defined.

(** Night mode while the photo trigger looks for night. *)
Definition stranded (st : ric_state) : Prop :=
  hw_ok st /\ c_opmode (settings st) = RIC_AUTO /\ current_mode st = RIC_MODE_NIGHT /\
  ps_phase (photo st) = PHOTO_PHASE_NIGHT_DETECT.

(** A reading at which neither night path can fire. *)
Definition bright_ev (c : ric_config) (ev : Z) : Prop :=
  ev <= th_ev_night (c_photo c) /\ ev < th_ev_deep (c_photo c).

Lemma fixed_fallback_deep thr ps :
  fst (photo_fixed_fallback thr ps) = true -> th_ev_deep thr <= ps_ev ps.
Proof.
  unfold photo_fixed_fallback. cbv zeta. destruct (_ <? FIXED_CHECK_INTERVAL); [done|].
  match goal with |- context [if ?b && ?c then _ else _] => destruct (b && c) end;
    (destruct (_ <? FIXED_DRIFT_TRIGGER); [done|]);
    match goal with |- context [if ?b then (true, _) else _] => destruct b eqn:E end; try done;
    simpl in E; bool_to_prop; intros _; lia.
Qed.

Lemma bright_no_reason thr ps :
  ps_ev ps <= th_ev_night thr -> ps_ev ps < th_ev_deep thr ->
  photo_night_reason (photo_ev_checks thr (photo_deviations ps)) = 0 /\
  fst (photo_fixed_fallback thr (photo_ev_checks thr (photo_deviations ps))) = false.
Proof.
  intros H1 H2. set (ps1 := photo_deviations ps).
  assert (E : ps_ev ps1 = ps_ev ps) by (unfold ps1, photo_deviations; by destruct (negb _)).
  clearbody ps1. unfold photo_ev_checks. rewrite E.
  replace (ps_ev ps >? th_ev_night thr) with false by lia.
  replace (ps_ev ps <=? th_ev_deep thr) with true by lia. split.
  - unfold photo_night_reason. simpl. by rewrite !andb_false_r.
  - destruct (fst _) eqn:Ef; [|done]. apply fixed_fallback_deep in Ef. simpl in Ef. lia.
Qed.

Lemma stranded_poll st ev rg bg :
  stranded st -> bright_ev (settings st) ev ->
  stranded (ric_photo_poll ev rg bg st) /\ settings (ric_photo_poll ev rg bg st) = settings st.
Proof.
  intros (Hok & Ho & Hm & Hph) [Hb1 Hb2].
  destruct (keeps_photo_poll ev rg bg st Hok) as [Hok' Hs']. split; [|done].
  split; [done|]. rewrite Hs'. split; [done|].
  unfold ric_photo_poll. rewrite Ho, bool_decide_true by done. cbn [negb]. cbv zeta.
  rewrite Hm. change (is_night RIC_MODE_NIGHT) with true. cbn [negb]. rewrite andb_false_r.
  set (psx := (photo st) <| ps_ev := ev |> <| ps_rgain := rg |> <| ps_bgain := bg |>).
  change (ps_phase psx) with (ps_phase (photo st)). rewrite Hph. unfold photo_night_control. cbv zeta.
  set (st1 := st <| photo := psx |>).
  assert (H1 : ps_ev (photo st1) = ev /\ current_mode st1 = RIC_MODE_NIGHT /\
               settings st1 = settings st /\ ps_phase (photo st1) = PHOTO_PHASE_NIGHT_DETECT) by done.
  clearbody st1. destruct H1 as (He & Hm1 & Hs1 & Hp1).
  set (ps0 := (photo st1) <| ps_settle_count := _ |>).
  assert (H0 : ps_ev ps0 = ev /\ ps_phase ps0 = PHOTO_PHASE_NIGHT_DETECT) by done.
  clearbody ps0. destruct H0 as [He0 Hp0]. destruct (_ <? 7); [done|].
  set (ps1 := if ps_settle_count ps0 >? 250 then _ else ps0).
  assert (H2 : ps_ev ps1 = ev /\ ps_phase ps1 = PHOTO_PHASE_NIGHT_DETECT)
    by (unfold ps1; by destruct (_ >? 250)). clearbody ps1. destruct H2 as [He1 Hp2].
  rewrite Hs1. destruct (bright_no_reason (c_photo (settings st)) ps1) as [Hr Hf]; [lia..|].
  destruct (photo_samples_phase (c_photo (settings st)) ps1) as (_ & Hpe & _).
  set (ps2 := photo_ev_checks _ _) in *. clearbody ps2. rewrite Hr. cbn [Z.gtb Z.compare].
  destruct (photo_samples_phase (c_photo (settings st)) ps2) as (_ & _ & Hpf & _).
  destruct (photo_fixed_fallback _ ps2) as [force ps3]. simpl in Hf, Hpf. subst force.
  split; [done|]. simpl. congruence.
Qed.

(** After a false day the photo trigger is stranded: the interference watch
    that reverts to night re-arms night detection, not day detection, and from
    there no run of bright readings, however long, ever brings day mode
    back. *)
Theorem ric_photo_false_day_strands st ev rg bg polls :
  hw_ok st -> c_opmode (settings st) = RIC_AUTO -> ps_calibrated (photo st) = true ->
  ps_phase (photo st) = PHOTO_PHASE_INTERFERE ->
  fst (photo_interfere_sample ((photo st) <| ps_ev := ev |> <| ps_rgain := rg |> <| ps_bgain := bg |>))
    = InterfFalseDay ->
  Forall (fun p : Z * Z * Z => bright_ev (settings st) (fst (fst p))) polls ->
  current_mode (fold_left (fun st (p : Z * Z * Z) =>
    ric_photo_poll (fst (fst p)) (snd (fst p)) (snd p) st) polls (ric_photo_poll ev rg bg st))
  = RIC_MODE_NIGHT.
Proof.
  intros Hok Ho Hcal Hph Hv Hb.
  assert (H : stranded (ric_photo_poll ev rg bg st) /\
              settings (ric_photo_poll ev rg bg st) = settings st).
  { destruct (keeps_photo_poll ev rg bg st Hok) as [Hok' Hs']. split; [|done]. split; [done|].
    rewrite Hs'. split; [done|]. unfold ric_photo_poll. rewrite Ho, bool_decide_true by done.
    cbn [negb]. cbv zeta.
    set (ps0 := (photo st) <| ps_ev := ev |> <| ps_rgain := rg |> <| ps_bgain := bg |>) in *.
    change (ps_calibrated ps0) with (ps_calibrated (photo st)). rewrite Hcal. cbn [negb andb].
    change (ps_phase ps0) with (ps_phase (photo st)). rewrite Hph.
    unfold photo_interfere_control. change (photo (st <| photo := ps0 |>)) with ps0.
    destruct (photo_interfere_sample ps0) as [v ps]. simpl in Hv. subst v.
    split; [|done]. exact (proj1 (switch_photo RIC_MODE_NIGHT st ps Hok)). }
  destruct H as [Hs Hc]. rewrite <- Hc in Hb. revert Hs Hb. generalize (ric_photo_poll ev rg bg st).
  clear. induction polls as [|[[ev rg] bg] polls IH]; intros st Hs Hb; simpl; [apply Hs|].
  apply list.Forall_cons in Hb as [Hb1 Hb].
  destruct (stranded_poll st ev rg bg Hs Hb1) as [Hs' Hc]. apply IH; [done|]. by rewrite Hc.
Qed.

Lemma ric_photo_false_day_strands_witness :
  current_mode (fold_left (fun st (p : Z * Z * Z) =>
    ric_photo_poll (fst (fst p)) (snd (fst p)) (snd p) st) (repeat (100, 0, 0) 50)
      (ric_photo_poll 1200 0 0 demo_photo)) = RIC_MODE_NIGHT.
Proof.
  apply (ric_photo_false_day_strands demo_photo 1200 0 0).
  - exact demo_photo_ok.
  - reflexivity.
  - reflexivity.
  - reflexivity.
  - by vm_compute.
  - repeat constructor; vm_compute; done.
Defined.
