(* ===== verification/Mux.v ===== *)
(** * rmr: the fragmented MP4 muxer (rmr/rmr_mux.c)

    Box writers as buffer transformers, the fragment writer, the sample
    bookkeeping and the public operations.  The output callback is the
    interface [ByteSink].  The scratch buffer of the box writers is taken to
    grow on demand (the source ignores the return codes of its bb_ functions);
    the sample buffers keep their capacity and their allocation outcome. *)

From Stdlib Require Import String Ascii.
From stdpp Require Import gmap list.
From S2P Require Import Prelude.

(** ** The write callback *)

Class ByteSink (W : Type) := {
  sink_write : list Z -> W -> Z * W;
  sink_bytes : W -> list Z;
  sink_write_ok buf w r w' :
    sink_write buf w = (r, w') -> 0 <= r -> sink_bytes w' = sink_bytes w ++ buf
}.

(** ** Box buffer *)

Definition bb := list Z -> list Z.

Definition fourcc (s : string) : list Z :=
  (fun c => Z.of_N (N_of_ascii c)) <$> list_ascii_of_string s.

Definition w8 (v : Z) : list Z := [u8 v].
Definition w16 (v : Z) : list Z := [Z.land (Z.shiftr v 8) 255; Z.land v 255].
Definition w32 (v : Z) : list Z :=
  [Z.land (Z.shiftr v 24) 255; Z.land (Z.shiftr v 16) 255; Z.land (Z.shiftr v 8) 255; Z.land v 255].
Definition w64 (v : Z) : list Z := w32 (u32 (Z.shiftr v 32)) ++ w32 (u32 v).

Definition bb_write (l : list Z) : bb := fun buf => buf ++ l.
Definition bb_w8 (v : Z) : bb := bb_write (w8 v).
Definition bb_w16 (v : Z) : bb := bb_write (w16 (u16 v)).
Definition bb_w32 (v : Z) : bb := bb_write (w32 (u32 v)).
Definition bb_w64 (v : Z) : bb := bb_write (w64 (u64 v)).
Definition bb_fourcc (s : string) : bb := bb_write (fourcc s).
Definition bb_zeros (n : nat) : bb := bb_write (replicate n 0).

(** [w32(box_buf + off, v)]. *)
Definition patch32 (off : nat) (v : Z) : bb :=
  fun buf => take off buf ++ w32 (u32 v) ++ drop (off + 4) buf.

Definition bb_box_begin (cc : string) (buf : list Z) : nat * list Z :=
  (length buf, bb_fourcc cc (bb_w32 0 buf)).

Definition bb_box_end (off : nat) : bb :=
  fun buf => patch32 off (Z.of_nat (length buf) - Z.of_nat off) buf.

Definition bb_fullbox_begin (cc : string) (version flags : Z) (buf : list Z) : nat * list Z :=
  let '(off, buf) := bb_box_begin cc buf in
  (off, bb_w32 (Z.lor (Z.shiftl version 24) (Z.land flags 16777215)) buf).

(** A list of writes, in order. *)
Definition seq_bb (fs : list bb) : bb := fun buf => fold_left (fun b f => f b) fs buf.

(** Begin, body, end. *)
Definition in_box (cc : string) (fs : list bb) : bb := fun buf =>
  let '(off, buf) := bb_box_begin cc buf in bb_box_end off (seq_bb fs buf).

Definition in_fullbox (cc : string) (version flags : Z) (fs : list bb) : bb := fun buf =>
  let '(off, buf) := bb_fullbox_begin cc version flags buf in bb_box_end off (seq_bb fs buf).

(** ** Muxer state *)

Definition RMR_CODEC_H264 : Z := 0.
Definition RMR_CODEC_H265 : Z := 1.
Definition RMR_CODEC_MJPEG : Z := 2.
Definition RMR_AUDIO_PCMU : Z := 0.
Definition RMR_AUDIO_PCMA : Z := 8.
Definition RMR_AUDIO_L16 : Z := 11.
Definition RMR_AUDIO_AAC : Z := 97.
Definition RMR_AUDIO_OPUS : Z := 111.
Definition MUX_MAX_SAMPLES : nat := 2048.
Definition UINT32_MAX : Z := 4294967295.

Record mux_sample := mk_mux_sample {
  ms_size : Z; ms_duration : Z; ms_flags : Z; ms_cts_offset : Z
}.

#[export] Instance eta_mux_sample : Settable mux_sample :=
  fun s => mk_mux_sample (ms_size s) (ms_duration s) (ms_flags s) (ms_cts_offset s).

#[export] Instance mux_sample_inhabited : Inhabited mux_sample := populate (mk_mux_sample 0 0 0 0).

Record rmr_video_params := mk_rmr_video_params {
  vp_codec : Z; vp_width : Z; vp_height : Z; vp_timescale : Z; vp_default_duration : Z
}.

Record rmr_audio_params := mk_rmr_audio_params {
  ap_codec : Z; ap_sample_rate : Z; ap_channels : Z; ap_bits_per_sample : Z; ap_aot : Z
}.

Record rmr_video_sample := mk_rmr_video_sample {
  vs_data : list Z; vs_dts : Z; vs_pts : Z; vs_is_key : bool
}.

Record rmr_audio_sample := mk_rmr_audio_sample { as_data : list Z; as_dts : Z }.

(** The arrays hold their first [count] entries; [box] is the scratch buffer. *)
Record rmr_mux (W : Type) := mk_rmr_mux {
  mx_sink : W;
  mx_has_video : bool; mx_has_audio : bool;
  mx_video : rmr_video_params; mx_audio : rmr_audio_params;
  mx_sps : list Z; mx_pps : list Z; mx_vps : list Z;
  mx_frag_seq : Z;
  mx_v_samples : list mux_sample; mx_v_base_dts : Z;
  mx_a_samples : list mux_sample; mx_a_base_dts : Z;
  mx_v_data : list Z; mx_v_data_cap : Z; mx_a_data : list Z; mx_a_data_cap : Z;
  mx_v_duration : Z; mx_a_duration : Z;
  mx_box : list Z; mx_bytes_written : Z
}.
Arguments mk_rmr_mux {W}.
Arguments mx_sink {W}. Arguments mx_has_video {W}. Arguments mx_has_audio {W}.
Arguments mx_video {W}. Arguments mx_audio {W}. Arguments mx_sps {W}. Arguments mx_pps {W}.
Arguments mx_vps {W}. Arguments mx_frag_seq {W}. Arguments mx_v_samples {W}.
Arguments mx_v_base_dts {W}. Arguments mx_a_samples {W}. Arguments mx_a_base_dts {W}.
Arguments mx_v_data {W}. Arguments mx_v_data_cap {W}. Arguments mx_a_data {W}.
Arguments mx_a_data_cap {W}. Arguments mx_v_duration {W}. Arguments mx_a_duration {W}.
Arguments mx_box {W}. Arguments mx_bytes_written {W}.

#[export] Instance eta_rmr_mux W : Settable (rmr_mux W) := fun m =>
  mk_rmr_mux (mx_sink m) (mx_has_video m) (mx_has_audio m) (mx_video m) (mx_audio m)
    (mx_sps m) (mx_pps m) (mx_vps m) (mx_frag_seq m) (mx_v_samples m) (mx_v_base_dts m)
    (mx_a_samples m) (mx_a_base_dts m) (mx_v_data m) (mx_v_data_cap m) (mx_a_data m)
    (mx_a_data_cap m) (mx_v_duration m) (mx_a_duration m) (mx_box m) (mx_bytes_written m).

Section writers.
Context {W : Type} `{!ByteSink W}.
(** rss_aac_asc of raptor-common: object type, rate, channels. *)
Variable rss_aac_asc : Z -> Z -> Z -> option (list Z).
Implicit Types m : rmr_mux W.

(** bb_flush: the buffer goes to the callback, and is empty whatever it says. *)
Definition bb_flush m : Z * rmr_mux W :=
  match mx_box m with
  | [] => (0, m)
  | box =>
      let '(ret, w) := sink_write box (mx_sink m) in
      (ret, m <| mx_sink := w |> <| mx_box := [] |>
              <| mx_bytes_written := u64 (mx_bytes_written m + Z.of_nat (length box)) |>)
  end.

(** ** Header boxes *)

Definition ftyp_box : bb :=
  in_box "ftyp" [bb_fourcc "isom"; bb_w32 512; bb_fourcc "isom"; bb_fourcc "iso5";
                 bb_fourcc "iso6"; bb_fourcc "mp41"].

Definition write_ftyp m : Z * rmr_mux W := bb_flush (m <| mx_box := ftyp_box [] |>).

Definition unity_matrix : list bb :=
  [bb_w32 65536; bb_zeros 4; bb_zeros 4; bb_zeros 4; bb_w32 65536; bb_zeros 4; bb_zeros 4;
   bb_zeros 4; bb_w32 1073741824].

Definition write_mvhd (timescale next_track_id : Z) : bb :=
  in_fullbox "mvhd" 0 0
    ([bb_w32 0; bb_w32 0; bb_w32 timescale; bb_w32 0; bb_w32 65536; bb_w16 256; bb_zeros 10]
     ++ unity_matrix ++ [bb_zeros 24; bb_w32 next_track_id]).

Definition write_tkhd (track_id width height : Z) (is_audio : bool) : bb :=
  in_fullbox "tkhd" 0 3
    ([bb_w32 0; bb_w32 0; bb_w32 track_id; bb_w32 0; bb_w32 0; bb_zeros 8; bb_w16 0;
      bb_w16 (if is_audio then 1 else 0); bb_w16 (if is_audio then 256 else 0); bb_w16 0]
     ++ unity_matrix ++ [bb_w32 (Z.shiftl width 16); bb_w32 (Z.shiftl height 16)]).

Definition write_mdhd (timescale : Z) : bb :=
  in_fullbox "mdhd" 0 0 [bb_w32 0; bb_w32 0; bb_w32 timescale; bb_w32 0; bb_w16 21956; bb_w16 0].

Definition write_hdlr (handler_type name : string) : bb :=
  in_fullbox "hdlr" 0 0
    [bb_w32 0; bb_fourcc handler_type; bb_zeros 12; bb_write (fourcc name ++ [0])].

(** The visual sample entry fields shared by avc1, hev1 and jpeg. *)
Definition visual_entry m : list bb :=
  [bb_zeros 6; bb_w16 1; bb_zeros 16; bb_w16 (vp_width (mx_video m)); bb_w16 (vp_height (mx_video m));
   bb_w32 4718592; bb_w32 4718592; bb_w32 0; bb_w16 1; bb_zeros 32; bb_w16 24; bb_w16 65535].

Definition sps_byte m (i : nat) (dflt : Z) : Z :=
  if (i <? length (mx_sps m))%nat then mx_sps m !!! i else dflt.

Definition write_stsd_avc1 m : bb :=
  in_fullbox "stsd" 0 0 [bb_w32 1;
    in_box "avc1" (visual_entry m ++ [
      in_box "avcC" [bb_w8 1; bb_w8 (sps_byte m 1 100); bb_w8 (sps_byte m 2 0);
        bb_w8 (sps_byte m 3 40); bb_w8 255; bb_w8 225;
        bb_w16 (Z.of_nat (length (mx_sps m))); bb_write (mx_sps m);
        bb_w8 1; bb_w16 (Z.of_nat (length (mx_pps m))); bb_write (mx_pps m)]])].

Definition hvcc_array (nal_type : Z) (ps : list Z) : list bb :=
  match ps with
  | [] => []
  | _ => [bb_w8 (Z.lor 32 nal_type); bb_w16 1; bb_w16 (Z.of_nat (length ps)); bb_write ps]
  end.

Definition count_nonempty (l : list (list Z)) : Z :=
  Z.of_nat (length (filter (fun x => x <> []) l)).

Definition write_stsd_hev1 m : bb :=
  in_fullbox "stsd" 0 0 [bb_w32 1;
    in_box "hev1" (visual_entry m ++ [
      in_box "hvcC" ([bb_w8 1; bb_w8 1; bb_w32 1610612736; bb_zeros 6; bb_w8 120; bb_w16 61440;
        bb_w8 252; bb_w8 253; bb_w8 248; bb_w8 248; bb_w16 0; bb_w8 15;
        bb_w8 (count_nonempty [mx_vps m; mx_sps m; mx_pps m])]
        ++ hvcc_array 32 (mx_vps m) ++ hvcc_array 33 (mx_sps m) ++ hvcc_array 34 (mx_pps m))])].

Definition write_stsd_jpeg m : bb :=
  in_fullbox "stsd" 0 0 [bb_w32 1; in_box "jpeg" (visual_entry m)].

Definition write_esds (asc : list Z) : bb :=
  let asc_len := Z.of_nat (length asc) in
  let dsi_total := u8 (2 + asc_len) in
  let dcd_len := u8 (13 + dsi_total) in
  let es_len := u8 (3 + 2 + dcd_len + 3) in
  in_fullbox "esds" 0 0
    ([bb_w8 3; bb_w8 es_len; bb_w16 1; bb_w8 0;
      bb_w8 4; bb_w8 dcd_len; bb_w8 64; bb_w8 21; bb_w8 0; bb_w16 0; bb_w32 0; bb_w32 0;
      bb_w8 5; bb_w8 asc_len] ++ (bb_w8 <$> asc) ++ [bb_w8 6; bb_w8 1; bb_w8 2]).

Definition write_dops (sample_rate : Z) : bb :=
  in_box "dOps" [bb_w8 0; bb_w8 1; bb_w16 312; bb_w32 sample_rate; bb_w16 0; bb_w8 0].

Definition audio_entry m (bits : Z) (rate : Z) : list bb :=
  [bb_zeros 6; bb_w16 1; bb_zeros 8; bb_w16 (ap_channels (mx_audio m)); bb_w16 bits;
   bb_w16 0; bb_w16 0; bb_w32 rate].

Definition audio_asc m : list Z :=
  let aot := if ap_aot (mx_audio m) =? 5 then 5 else 2 in
  match rss_aac_asc aot (ap_sample_rate (mx_audio m)) 1 with
  | Some asc => asc
  | None => default [] (rss_aac_asc 2 44100 1)
  end.

Definition pcm_fourcc (codec : Z) : string :=
  if codec =? RMR_AUDIO_PCMU then "ulaw"
  else if codec =? RMR_AUDIO_PCMA then "alaw" else "twos".

Definition write_stsd_audio m : bb :=
  let a := mx_audio m in
  in_fullbox "stsd" 0 0 [bb_w32 1;
    if ap_codec a =? RMR_AUDIO_AAC then
      in_box "mp4a" (audio_entry m 16 (Z.shiftl (ap_sample_rate a) 16) ++ [write_esds (audio_asc m)])
    else if ap_codec a =? RMR_AUDIO_OPUS then
      in_box "Opus" (audio_entry m 16 (Z.shiftl 48000 16) ++ [write_dops (ap_sample_rate a)])
    else in_box (pcm_fourcc (ap_codec a))
           (audio_entry m (ap_bits_per_sample a) (Z.shiftl (ap_sample_rate a) 16))].

Definition write_empty_stbl m (is_video : bool) : bb :=
  in_box "stbl" [
    if is_video then
      if vp_codec (mx_video m) =? RMR_CODEC_MJPEG then write_stsd_jpeg m
      else if vp_codec (mx_video m) =? RMR_CODEC_H265 then write_stsd_hev1 m
      else write_stsd_avc1 m
    else write_stsd_audio m;
    in_fullbox "stts" 0 0 [bb_w32 0];
    in_fullbox "stsc" 0 0 [bb_w32 0];
    in_fullbox "stsz" 0 0 [bb_w32 0; bb_w32 0];
    in_fullbox "stco" 0 0 [bb_w32 0]].

Definition write_trak m (track_id : Z) (is_audio : bool) : bb :=
  in_box "trak" [
    if is_audio then write_tkhd track_id 0 0 true
    else write_tkhd track_id (vp_width (mx_video m)) (vp_height (mx_video m)) false;
    in_box "mdia" [
      write_mdhd (if is_audio then ap_sample_rate (mx_audio m) else vp_timescale (mx_video m));
      write_hdlr (if is_audio then "soun" else "vide")
        (if is_audio then "Raptor Audio" else "Raptor Video");
      in_box "minf" [
        if is_audio then in_fullbox "smhd" 0 0 [bb_w16 0; bb_w16 0]
        else in_fullbox "vmhd" 0 1 [bb_w16 0; bb_zeros 6];
        in_box "dinf" [in_fullbox "dref" 0 0 [bb_w32 1; in_fullbox "url " 0 1 []]];
        write_empty_stbl m (negb is_audio)]]].

Definition write_trex (track_id : Z) : bb :=
  in_fullbox "trex" 0 0 [bb_w32 track_id; bb_w32 1; bb_w32 0; bb_w32 0; bb_w32 0].

Definition write_mvex m : bb :=
  in_box "mvex" ((if mx_has_video m then [write_trex 1] else [])
                 ++ (if mx_has_audio m then [write_trex 2] else [])).

Definition moov_box m : bb :=
  let next_track := 1 + (if mx_has_video m then 1 else 0) + (if mx_has_audio m then 1 else 0) in
  in_box "moov"
    ([write_mvhd (if mx_has_video m then vp_timescale (mx_video m) else ap_sample_rate (mx_audio m))
        next_track]
     ++ (if mx_has_video m then [write_trak m 1 false] else [])
     ++ (if mx_has_audio m then [write_trak m 2 true] else [])
     ++ [write_mvex m]).

Definition write_moov m : Z * rmr_mux W := bb_flush (m <| mx_box := moov_box m [] |>).
(** ** Fragments *)

(** The sample rows of a video and of an audio trun. *)
Definition v_row (s : mux_sample) : list bb :=
  [bb_w32 (ms_duration s); bb_w32 (ms_size s); bb_w32 (ms_flags s); bb_w32 (ms_cts_offset s)].
Definition a_row (s : mux_sample) : list bb := [bb_w32 (ms_duration s); bb_w32 (ms_size s)].

(** One traf: the buffer, and the position of the data_offset placeholder. *)
Definition write_traf (track_id base_dts trun_flags : Z) (rows : list (list bb)) (buf : list Z)
    : list Z * nat :=
  let '(traf_off, buf) := bb_box_begin "traf" buf in
  let buf := in_fullbox "tfhd" 0 131072 [bb_w32 track_id] buf in
  let buf := in_fullbox "tfdt" 1 0 [bb_w64 base_dts] buf in
  let '(trun_off, buf) := bb_fullbox_begin "trun" 0 trun_flags buf in
  let buf := bb_w32 (Z.of_nat (length rows)) buf in
  let pos := length buf in
  let buf := bb_w32 0 buf in
  let buf := seq_bb (concat rows) buf in
  let buf := bb_box_end trun_off buf in
  (bb_box_end traf_off buf, pos).

(** The moof with its data offsets patched: video data comes first in the mdat,
    audio data after it. *)
Definition moof_box m : list Z :=
  let v_data_size := u32 (foldr (fun s a => ms_size s + a) 0 (mx_v_samples m)) in
  let '(moof_off, buf) := bb_box_begin "moof" [] in
  let buf := in_fullbox "mfhd" 0 0 [bb_w32 (mx_frag_seq m)] buf in
  let '(buf, v_pos) :=
    match mx_v_samples m with
    | [] => (buf, 0%nat)
    | vs => write_traf 1 (mx_v_base_dts m) 3841 (v_row <$> vs) buf
    end in
  let '(buf, a_pos) :=
    match mx_a_samples m with
    | [] => (buf, 0%nat)
    | a => write_traf 2 (mx_a_base_dts m) 769 (a_row <$> a) buf
    end in
  let buf := bb_box_end moof_off buf in
  let moof_size := Z.of_nat (length buf) in
  let buf := if (0 <? v_pos)%nat then patch32 v_pos (moof_size + 8) buf else buf in
  if (0 <? a_pos)%nat then patch32 a_pos (moof_size + 8 + v_data_size) buf else buf.

Definition MUX_WRITE_CHUNK : nat := N.to_nat 65536.

(** The chunked write loop; a round writes at least one byte, so the length is
    enough fuel. *)
Fixpoint write_chunks (fuel : nat) (data : list Z) m : Z * rmr_mux W :=
  match fuel, data with
  | S fuel, _ :: _ =>
      let chunk := take MUX_WRITE_CHUNK data in
      let '(ret, w) := sink_write chunk (mx_sink m) in
      if ret <? 0 then (-1, m <| mx_sink := w |>)
      else write_chunks fuel (drop MUX_WRITE_CHUNK data)
             (m <| mx_sink := w |>
                <| mx_bytes_written := u64 (mx_bytes_written m + Z.of_nat (length chunk)) |>)
  | _, _ => (0, m)
  end.

Definition total_duration (l : list mux_sample) : Z := foldr (fun s a => ms_duration s + a) 0 l.

Definition mdat_header m : list Z :=
  bb_fourcc "mdat" (bb_w32 (8 + Z.of_nat (length (mx_v_data m)) + Z.of_nat (length (mx_a_data m))) []).

Definition write_fragment m : Z * rmr_mux W :=
  if (length (mx_v_samples m) =? 0)%nat && (length (mx_a_samples m) =? 0)%nat then (0, m) else
  let m := m <| mx_frag_seq := u32 (mx_frag_seq m + 1) |> in
  let '(ret, m) := bb_flush (m <| mx_box := moof_box m |>) in
  if ret <? 0 then (-1, m) else
  let '(ret, m) := bb_flush (m <| mx_box := mdat_header m |>) in
  if ret <? 0 then (-1, m) else
  let '(ret, m) := write_chunks (length (mx_v_data m)) (mx_v_data m) m in
  if ret <? 0 then (-1, m) else
  let '(ret, m) := write_chunks (length (mx_a_data m)) (mx_a_data m) m in
  if ret <? 0 then (-1, m) else
  (0, m <| mx_v_duration := s64 (mx_v_duration m + total_duration (mx_v_samples m)) |>
        <| mx_a_duration := s64 (mx_a_duration m + total_duration (mx_a_samples m)) |>
        <| mx_v_samples := [] |> <| mx_a_samples := [] |>
        <| mx_v_data := [] |> <| mx_a_data := [] |>).

(** ** Public operations *)

Definition rmr_mux_create (w : W) : rmr_mux W :=
  mk_rmr_mux w false false (mk_rmr_video_params 0 0 0 0 0) (mk_rmr_audio_params 0 0 0 0 0)
    [] [] [] 0 [] 0 [] 0 [] 0 [] 0 0 0 [] 0.

(** [vps] is empty for the NULL or zero-length argument; so are [sps] and [pps]. *)
Definition rmr_mux_set_video (params : rmr_video_params) (sps pps vps : list Z) m : Z * rmr_mux W :=
  let m := m <| mx_video := params |> <| mx_has_video := true |> in
  if vp_codec params =? RMR_CODEC_MJPEG then (0, m) else
  if (length sps =? 0)%nat || (length pps =? 0)%nat then (-1, m) else
  if (256 <? length sps)%nat || (128 <? length pps)%nat then (-1, m) else
  if (0 <? length vps)%nat && (256 <? length vps)%nat then (-1, m) else
  let m := m <| mx_sps := sps |> <| mx_pps := pps |> in
  (0, if (0 <? length vps)%nat then m <| mx_vps := vps |> else m).

Definition rmr_mux_set_audio (params : rmr_audio_params) m : Z * rmr_mux W :=
  (0, m <| mx_audio := params |> <| mx_has_audio := true |>).

Definition rmr_mux_start m : Z * rmr_mux W :=
  if negb (mx_has_video m) && negb (mx_has_audio m) then (-1, m) else
  let '(ret, m) := write_ftyp m in
  if ret <? 0 then (-1, m) else
  let '(ret, m) := write_moov m in
  if ret <? 0 then (-1, m) else (0, m).

(** [while (cap < need)]: doubling, refused past half of the range; 32 rounds
    cover every 32-bit need. *)
Fixpoint grow_cap (fuel : nat) (cap need : Z) : option Z :=
  if need <=? cap then Some cap else
  match fuel with
  | O => None
  | S fuel => if cap >? UINT32_MAX / 2 then None else grow_cap fuel (2 * cap) need
  end.

(** buf_append: the new buffer and capacity, or failure; [alloc_ok] is what
    realloc says if it is called. *)
Definition buf_append (alloc_ok : bool) (buf : list Z) (cap : Z) (data : list Z)
    : option (list Z * Z) :=
  let len := Z.of_nat (length data) in
  let buf_len := Z.of_nat (length buf) in
  if len >? UINT32_MAX - buf_len then None else
  let need := buf_len + len in
  if need <=? cap then Some (buf ++ data, cap) else
  match grow_cap 32 (if cap =? 0 then 262144 else cap) need with
  | Some cap => if alloc_ok then Some (buf ++ data, cap) else None
  | None => None
  end.

(** Patch the newest sample's duration once the next decode time is known. *)
Definition patch_duration (base dts : Z) (l : list mux_sample) : list mux_sample :=
  match l with
  | [] => []
  | _ => <[(length l - 1)%nat :=
           (l !!! (length l - 1)%nat) <| ms_duration := u32 (dts - base - total_duration l) |>]> l
  end.

Definition rmr_mux_write_video (alloc_ok : bool) (s : rmr_video_sample) m : Z * rmr_mux W :=
  if (length (vs_data s) =? 0)%nat then (-1, m) else
  if (MUX_MAX_SAMPLES <=? length (mx_v_samples m))%nat then (-1, m) else
  let m := if (length (mx_v_samples m) =? 0)%nat then m <| mx_v_base_dts := vs_dts s |> else m in
  let e := mk_mux_sample (Z.of_nat (length (vs_data s))) 0
             (if vs_is_key s then 33554432 else 16842752) (s32 (vs_pts s - vs_dts s)) in
  let m := m <| mx_v_samples := patch_duration (mx_v_base_dts m) (vs_dts s) (mx_v_samples m) |> in
  match buf_append alloc_ok (mx_v_data m) (mx_v_data_cap m) (vs_data s) with
  | None => (-1, m)
  | Some (data, cap) =>
      (0, m <| mx_v_data := data |> <| mx_v_data_cap := cap |>
            <| mx_v_samples := mx_v_samples m ++ [e] |>)
  end.

Definition rmr_mux_write_audio (alloc_ok : bool) (s : rmr_audio_sample) m : Z * rmr_mux W :=
  if (length (as_data s) =? 0)%nat then (-1, m) else
  if (MUX_MAX_SAMPLES <=? length (mx_a_samples m))%nat then (-1, m) else
  let m := if (length (mx_a_samples m) =? 0)%nat then m <| mx_a_base_dts := as_dts s |> else m in
  let e := mk_mux_sample (Z.of_nat (length (as_data s))) 0 0 0 in
  let m := m <| mx_a_samples := patch_duration (mx_a_base_dts m) (as_dts s) (mx_a_samples m) |> in
  match buf_append alloc_ok (mx_a_data m) (mx_a_data_cap m) (as_data s) with
  | None => (-1, m)
  | Some (data, cap) =>
      (0, m <| mx_a_data := data |> <| mx_a_data_cap := cap |>
            <| mx_a_samples := mx_a_samples m ++ [e] |>)
  end.

(** The newest sample has no successor to take its duration from. *)
Definition patch_last (dflt : Z) (l : list mux_sample) : list mux_sample :=
  match reverse l with
  | [] => []
  | s :: rest =>
      if negb (ms_duration s =? 0) then l else
      match rest with
      | p :: _ => <[(length l - 1)%nat := s <| ms_duration := ms_duration p |>]> l
      | [] => <[0%nat := s <| ms_duration := dflt |>]> l
      end
  end.

Definition rmr_mux_flush_fragment m : Z * rmr_mux W :=
  let v := mx_video m in
  let v_dflt := if vp_default_duration v >? 0 then vp_default_duration v
                else if vp_timescale v >? 0 then vp_timescale v / 25 else 0 in
  let m := m <| mx_v_samples := patch_last v_dflt (mx_v_samples m) |> in
  let m := m <| mx_a_samples := patch_last (ap_sample_rate (mx_audio m) / 50) (mx_a_samples m) |> in
  write_fragment m.

(** The trailer: the source patches the word eight bytes before the end. *)
Definition mfra_box : list Z :=
  let buf := in_box "mfra" [in_fullbox "mfro" 0 0 [bb_w32 0]] [] in
  patch32 (length buf - 8) (Z.of_nat (length buf)) buf.

Definition rmr_mux_finalize m : Z * rmr_mux W :=
  let '(ret, m) :=
    if (0 <? length (mx_v_samples m))%nat || (0 <? length (mx_a_samples m))%nat
    then rmr_mux_flush_fragment m else (0, m) in
  if ret <? 0 then (-1, m) else bb_flush (m <| mx_box := mfra_box |>).
End writers.
