(* ===== verification/MuxRoundtrip.v ===== *)
(** * rmr: what is fed to the muxer is what a player reads

    The reference reader of [MuxProps] applied to the bytes the operations of
    [Mux] hand to the write callback: a fragment reads back as the samples fed
    since the last flush, with their payloads, flags, composition offsets and
    decode times; the header's parameter sets are found where a player looks
    for them. *)

From Stdlib Require Import String Ascii.
From stdpp Require Import gmap list.
From S2P Require Import Prelude Mux MuxProps.

(** ** The fragment's history *)

(** A sample as both tracks see it. *)
Record fsample := mk_fsample { fs_data : list Z; fs_dts : Z; fs_flags : Z; fs_cts : Z }.

Definition v_fs (s : rmr_video_sample) : fsample :=
  mk_fsample (vs_data s) (vs_dts s) (if vs_is_key s then 33554432 else 16842752)
    (s32 (vs_pts s - vs_dts s)).
Definition a_fs (s : rmr_audio_sample) : fsample := mk_fsample (as_data s) (as_dts s) 0 0.

Definition entry (f : fsample) (dur : Z) : mux_sample :=
  mk_mux_sample (Z.of_nat (length (fs_data f))) dur (fs_flags f) (fs_cts f).

(** Decode times that never go back and never jump by 2^32 ticks. *)
Fixpoint steady (l : list fsample) : Prop :=
  match l with
  | x :: ((y :: _) as t) => 0 <= fs_dts y - fs_dts x < 2 ^ 32 /\ steady t
  | _ => True
  end.

(** A sample lasts until the next one; the last as long as the one before it,
    and a lone sample for the default. *)
Fixpoint durations (dflt : Z) (l : list fsample) : list Z :=
  match l with
  | [] => []
  | x :: t => match t with
              | [] => [dflt]
              | y :: _ => (fs_dts y - fs_dts x) :: durations (fs_dts y - fs_dts x) t
              end
  end.

(** Entries whose successor is known, the next decode time being [n]. *)
Fixpoint closed (l : list fsample) (n : Z) : list mux_sample :=
  match l with
  | [] => []
  | x :: t => entry x (match t with [] => n | y :: _ => fs_dts y end - fs_dts x) :: closed t n
  end.

Fixpoint entries (l : list fsample) : list mux_sample :=
  match l with
  | [] => []
  | x :: t => match t with
              | [] => [entry x 0]
              | y :: _ => entry x (fs_dts y - fs_dts x) :: entries t
              end
  end.

Lemma closed_snoc l x n : closed (l ++ [x]) n = closed l (fs_dts x) ++ [entry x (n - fs_dts x)].
Proof. induction l as [|y [|z t] IH]; [done|done|]. cbn [closed app] in *. by rewrite IH. Qed.

Lemma entries_snoc l x : entries (l ++ [x]) = closed l (fs_dts x) ++ [entry x 0].
Proof. induction l as [|y [|z t] IH]; [done|done|]. cbn [closed entries app] in *. by rewrite IH. Qed.

Lemma closed_length l n : length (closed l n) = length l.
Proof. induction l; simpl; auto. Qed.

Lemma entries_length l : length (entries l) = length l.
Proof.
  destruct l as [|x l] using rev_ind; [done|].
  by rewrite entries_snoc, !length_app, closed_length.
Qed.

Lemma total_duration_app k l : total_duration (k ++ l) = total_duration k + total_duration l.
Proof. unfold total_duration. induction k as [|s k IH]; simpl; [done|]. rewrite IH. lia. Qed.

Lemma total_closed l n :
  total_duration (closed l n) = n - match l with [] => n | x :: _ => fs_dts x end.
Proof.
  induction l as [|x t IH]; [simpl; lia|]. cbn [closed]. 
  change (total_duration (?s :: ?r)) with (ms_duration s + total_duration r). rewrite IH.
  destruct t; simpl; lia.
Qed.

Lemma steady_snoc l x y :
  steady ((l ++ [x]) ++ [y]) <-> steady (l ++ [x]) /\ 0 <= fs_dts y - fs_dts x < 2 ^ 32.
Proof.
  induction l as [|a [|b t] IH]; [simpl; tauto|simpl; tauto|]. cbn [app] in *.
  cbn [steady] in IH |- *. tauto.
Qed.

Lemma steady_prefix l x : steady (l ++ [x]) -> steady l.
Proof. destruct l as [|y l] using rev_ind; [done|]. rewrite steady_snoc. tauto. Qed.

Lemma insert_last {A} (l : list A) x y : <[length l := y]> (l ++ [x]) = l ++ [y].
Proof. rewrite <- (Nat.add_0_r (length l)). by rewrite insert_app_r. Qed.

Lemma patch_duration_length base dts l : length (patch_duration base dts l) = length l.
Proof. destruct l; [done|]. unfold patch_duration. by rewrite length_insert. Qed.

Lemma patch_duration_entries base l f :
  steady (l ++ [f]) -> (forall x t, l = x :: t -> base = fs_dts x) ->
  patch_duration base (fs_dts f) (entries l) ++ [entry f 0] = entries (l ++ [f]).
Proof.
  intros Hs Hb. destruct l as [|x l _] using rev_ind; [done|].
  rewrite (entries_snoc (l ++ [x])), closed_snoc, entries_snoc. apply steady_snoc in Hs as [_ Hs].
  f_equal. unfold patch_duration.
  destruct (closed l (fs_dts x) ++ [entry x 0]) eqn:E; [by apply app_nil in E as [_ E]|].
  rewrite <- E. rewrite length_app. cbn [length].
  replace (length (closed l (fs_dts x)) + 1 - 1)%nat with (length (closed l (fs_dts x))) by lia.
  rewrite insert_last. do 2 f_equal.
  rewrite lookup_total_app_r, Nat.sub_diag by lia. cbn [lookup_total list_lookup_total].
  rewrite total_duration_app, total_closed.
  assert (Hbase : base = match l with [] => fs_dts x | y :: _ => fs_dts y end).
  { destruct l as [|y l]; by eapply Hb. }
  rewrite Hbase. cbn. unfold entry. f_equal.
  rewrite uwrap_id; [destruct l; lia|]. unfold in_u. destruct l; lia.
Qed.

Lemma final_snoc dflt l p x :
  zip_with entry ((l ++ [p]) ++ [x]) (durations dflt ((l ++ [p]) ++ [x])) =
  closed (l ++ [p]) (fs_dts x) ++ [entry x (fs_dts x - fs_dts p)].
Proof.
  revert dflt. induction l as [|a [|b t] IH]; intros dflt; [done|done|].
  cbn [app durations zip_with closed] in *. by rewrite IH.
Qed.

Lemma patch_last_entries dflt l :
  patch_last dflt (entries l) = zip_with entry l (durations dflt l).
Proof.
  destruct l as [|x l _] using rev_ind; [done|].
  rewrite entries_snoc. unfold patch_last. rewrite reverse_snoc.
  change (negb (ms_duration (entry x 0) =? 0)) with false. cbv beta iota.
  destruct l as [|p l _] using rev_ind; [done|].
  rewrite final_snoc, closed_snoc, reverse_snoc. rewrite !length_app. cbn [length].
  set (c := closed l _ ++ _).
  replace (length (closed l (fs_dts p)) + 1 + 1 - 1)%nat with (length c)
    by (unfold c; rewrite length_app; simpl; lia).
  by rewrite insert_last.
Qed.

(** ** Through the write callback *)

Section ops.
Context {W : Type} `{!ByteSink W}.
Implicit Types m : rmr_mux W.

(** Everything but the callback, its counter and the scratch buffer. *)
Definition same_but_sink m m' : Prop :=
  exists w b, m' = m <| mx_sink := w |> <| mx_box := [] |> <| mx_bytes_written := b |>.

Lemma bb_flush_ok m r m' :
  bb_flush m = (r, m') -> 0 <= r ->
  sink_bytes (mx_sink m') = sink_bytes (mx_sink m) ++ mx_box m /\ same_but_sink m m'.
Proof.
  unfold bb_flush. destruct (mx_box m) eqn:Eb.
  - intros [= <- <-] _. rewrite app_nil_r. split; [done|].
    exists (mx_sink m), (mx_bytes_written m). destruct m; cbn in *. by subst.
  - destruct (sink_write _ _) as [ret w] eqn:Ew. intros [= <- <-] Hr. split.
    + by apply (sink_write_ok _ _ _ _ Ew).
    + by eexists _, _.
Qed.

Lemma chunk_pos : (0 < MUX_WRITE_CHUNK)%nat.
Proof. unfold MUX_WRITE_CHUNK. pose proof (N2Nat.id 65536) as He. destruct (N.to_nat 65536); [discriminate He|apply Nat.lt_0_succ]. Qed.

Lemma write_chunks_ok fuel data m r m' :
  (length data <= fuel)%nat -> mx_box m = [] ->
  write_chunks fuel data m = (r, m') -> 0 <= r ->
  sink_bytes (mx_sink m') = sink_bytes (mx_sink m) ++ data /\ same_but_sink m m'.
Proof.
  revert data m. induction fuel as [|fuel IH]; intros [|x data] m Hf Hb; cbn [write_chunks];
    try (simpl in Hf; lia).
  1,2: intros [= <- <-] _; rewrite app_nil_r; split; [done|];
    exists (mx_sink m), (mx_bytes_written m); destruct m; cbn in *; by subst.
  destruct (sink_write _ _) as [ret w] eqn:Ew. destruct (Z.ltb_spec ret 0) as [|Hret].
  { intros [= <- <-]. lia. }
  intros Hw Hr. apply IH in Hw as [Hs (w' & b' & ->)]; [|rewrite length_drop; cbn [length] in *; pose proof chunk_pos; lia|done|done].
  split; [|by eexists _, _].
  rewrite Hs. cbn [mx_sink]. change (mx_sink (_ <| mx_bytes_written := _ |>)) with w.
  rewrite (sink_write_ok _ _ _ _ Ew Hret), <- app_assoc. by rewrite take_drop.
Qed.

Lemma mdat_header_spec m :
  mdat_header m = box_head "mdat" (length (mx_v_data m ++ mx_a_data m)).
Proof. unfold mdat_header, box_head, bb_fourcc, bb_w32, bb_write. cbn [app]. rewrite length_app. do 3 f_equal. lia. Qed.

(** Nothing pending. *)
Definition idle m : Prop :=
  mx_v_samples m = [] /\ mx_a_samples m = [] /\ mx_v_data m = [] /\ mx_a_data m = [] /\ mx_box m = [].

Definition next_frag m : rmr_mux W := m <| mx_frag_seq := u32 (mx_frag_seq m + 1) |>.

Lemma write_fragment_ok m r m' :
  (mx_v_samples m <> [] \/ mx_a_samples m <> []) ->
  write_fragment m = (r, m') -> 0 <= r ->
  sink_bytes (mx_sink m') = sink_bytes (mx_sink m) ++ frag_bytes (next_frag m) /\ idle m'.
Proof.
  intros Hne. unfold write_fragment.
  assert (Hc : ((length (mx_v_samples m) =? 0)%nat && (length (mx_a_samples m) =? 0)%nat) = false).
  { destruct (mx_v_samples m), (mx_a_samples m); simpl; try done. by destruct Hne. }
  rewrite Hc. fold (next_frag m). rewrite moof_box_spec.
  assert (Hs0 : mx_sink m = mx_sink (next_frag m)) by done. rewrite Hs0.
  generalize (next_frag m). clear m Hne Hc Hs0. intros m.
  destruct (bb_flush _) as [r1 m1] eqn:E1. destruct (Z.ltb_spec r1 0); [intros [= <- <-]; lia|].
  apply bb_flush_ok in E1 as [S1 (w1 & b1 & ->)]; [|done].
  destruct (bb_flush _) as [r2 m2] eqn:E2. destruct (Z.ltb_spec r2 0); [intros [= <- <-]; lia|].
  apply bb_flush_ok in E2 as [S2 (w2 & b2 & ->)]; [|done].
  destruct (write_chunks _ _ _) as [r3 m3] eqn:E3. destruct (Z.ltb_spec r3 0); [intros [= <- <-]; lia|].
  apply write_chunks_ok in E3 as [S3 (w3 & b3 & ->)]; [|done..].
  destruct (write_chunks _ _ _) as [r4 m4] eqn:E4. destruct (Z.ltb_spec r4 0); [intros [= <- <-]; lia|].
  apply write_chunks_ok in E4 as [S4 (w4 & b4 & ->)]; [|done..].
  intros [= <- <-] _. split; [|done].
  assert (T1 : sink_bytes w1 = sink_bytes (mx_sink m) ++ mkbox "moof" (moof_body m)) by exact S1.
  assert (T2 : sink_bytes w2 = sink_bytes w1 ++ mdat_header m) by exact S2.
  assert (T3 : sink_bytes w3 = sink_bytes w2 ++ mx_v_data m) by exact S3.
  assert (T4 : sink_bytes w4 = sink_bytes w3 ++ mx_a_data m) by exact S4.
  change (sink_bytes w4 = sink_bytes (mx_sink m) ++ frag_bytes m).
  rewrite T4, T3, T2, T1, mdat_header_spec. unfold frag_bytes.
  by rewrite (mkbox_head "mdat"), <- !app_assoc.
Qed.

(** ** Feeding samples *)

Inductive mux_ev := EvVideo (s : rmr_video_sample) | EvAudio (s : rmr_audio_sample).

Definition ev_video (e : mux_ev) : option fsample :=
  match e with EvVideo s => Some (v_fs s) | EvAudio _ => None end.
Definition ev_audio (e : mux_ev) : option fsample :=
  match e with EvVideo _ => None | EvAudio s => Some (a_fs s) end.

Definition mux_write (alloc_ok : bool) (e : mux_ev) m : Z * rmr_mux W :=
  match e with
  | EvVideo s => rmr_mux_write_video alloc_ok s m
  | EvAudio s => rmr_mux_write_audio alloc_ok s m
  end.

(** Writes with their allocation outcomes, all of them successful. *)
Fixpoint mux_feed (evs : list (bool * mux_ev)) m : option (rmr_mux W) :=
  match evs with
  | [] => Some m
  | (ok, e) :: evs => let '(r, m) := mux_write ok e m in if r <? 0 then None else mux_feed evs m
  end.

Definition videos (evs : list (bool * mux_ev)) : list fsample := omap ev_video (snd <$> evs).
Definition audios (evs : list (bool * mux_ev)) : list fsample := omap ev_audio (snd <$> evs).

(** What one track's fields say about its history. *)
Record track_rep (h : list fsample) (ss : list mux_sample) (data : list Z) (base : Z) : Prop := {
  tr_samples : ss = entries h;
  tr_data : data = concat (fs_data <$> h);
  tr_base : forall x t, h = x :: t -> base = fs_dts x;
  tr_count : (length h <= MUX_MAX_SAMPLES)%nat
}.

Definition mux_rep m0 (vh ah : list fsample) m : Prop :=
  track_rep vh (mx_v_samples m) (mx_v_data m) (mx_v_base_dts m) /\
  track_rep ah (mx_a_samples m) (mx_a_data m) (mx_a_base_dts m) /\
  mx_video m = mx_video m0 /\ mx_audio m = mx_audio m0 /\ mx_sink m = mx_sink m0 /\
  mx_box m = mx_box m0 /\ mx_frag_seq m = mx_frag_seq m0.

Lemma track_rep_push h ss data base f :
  track_rep h ss data base -> steady (h ++ [f]) -> (length h < MUX_MAX_SAMPLES)%nat ->
  let base' := if (length ss =? 0)%nat then fs_dts f else base in
  track_rep (h ++ [f]) (patch_duration base' (fs_dts f) ss ++ [entry f 0]) (data ++ fs_data f) base'.
Proof.
  intros [Hs Hd Hb Hn] Hst Hlt base'.
  assert (Hb' : forall x t, h = x :: t -> base' = fs_dts x).
  { intros x t ->. unfold base'. rewrite Hs, entries_length. simpl. by eapply Hb. }
  split.
  - rewrite Hs. by apply patch_duration_entries.
  - rewrite Hd, fmap_app, concat_app. cbn [fmap list_fmap concat]. by rewrite app_nil_r.
  - intros x t Ht. destruct h as [|y h].
    + injection Ht as [= <- <-]. unfold base'. by rewrite Hs.
    + injection Ht as [= <- _]. by eapply Hb'.
  - rewrite length_app. simpl. lia.
Qed.

Lemma buf_append_data ok buf cap data buf' cap' :
  buf_append ok buf cap data = Some (buf', cap') -> buf' = buf ++ data.
Proof.
  unfold buf_append. repeat case_match; intros [= <- <-]; done.
Qed.

Lemma mux_write_video_rep m0 vh ah m ok s r m' :
  mux_rep m0 vh ah m -> steady (vh ++ [v_fs s]) ->
  rmr_mux_write_video ok s m = (r, m') -> 0 <= r -> mux_rep m0 (vh ++ [v_fs s]) ah m'.
Proof.
  intros (Hv & Ha & H1 & H2 & H3 & H4 & H5) Hst. unfold rmr_mux_write_video.
  destruct (length (vs_data s) =? 0)%nat; [intros [= <- <-]; lia|].
  destruct (Nat.leb_spec MUX_MAX_SAMPLES (length (mx_v_samples m))) as [|Hlt]; [intros [= <- <-]; lia|].
  rewrite (tr_samples _ _ _ _ Hv), entries_length in Hlt.
  pose proof (track_rep_push _ _ _ _ _ Hv Hst Hlt) as Hp. cbv zeta in Hp.
  destruct (length (mx_v_samples m) =? 0)%nat;
    (destruct (buf_append _ _ _ _) as [[data cap]|] eqn:Eb; [|intros [= <- <-]; lia]);
    apply buf_append_data in Eb; subst data; intros [= <- <-] _; by repeat (split; [done|]).
Qed.

Lemma mux_write_audio_rep m0 vh ah m ok s r m' :
  mux_rep m0 vh ah m -> steady (ah ++ [a_fs s]) ->
  rmr_mux_write_audio ok s m = (r, m') -> 0 <= r -> mux_rep m0 vh (ah ++ [a_fs s]) m'.
Proof.
  intros (Hv & Ha & H1 & H2 & H3 & H4 & H5) Hst. unfold rmr_mux_write_audio.
  destruct (length (as_data s) =? 0)%nat; [intros [= <- <-]; lia|].
  destruct (Nat.leb_spec MUX_MAX_SAMPLES (length (mx_a_samples m))) as [|Hlt]; [intros [= <- <-]; lia|].
  rewrite (tr_samples _ _ _ _ Ha), entries_length in Hlt.
  pose proof (track_rep_push _ _ _ _ _ Ha Hst Hlt) as Hp. cbv zeta in Hp.
  destruct (length (mx_a_samples m) =? 0)%nat;
    (destruct (buf_append _ _ _ _) as [[data cap]|] eqn:Eb; [|intros [= <- <-]; lia]);
    apply buf_append_data in Eb; subst data; intros [= <- <-] _; by repeat (split; [done|]).
Qed.

Lemma steady_app_l h k : steady (h ++ k) -> steady h.
Proof.
  induction k as [|x k IH] using rev_ind; [by rewrite app_nil_r|].
  rewrite app_assoc. intros Hs%steady_prefix. by apply IH.
Qed.

Lemma mux_feed_rep m0 evs m m' vh ah :
  mux_rep m0 vh ah m -> mux_feed evs m = Some m' ->
  steady (vh ++ videos evs) -> steady (ah ++ audios evs) ->
  mux_rep m0 (vh ++ videos evs) (ah ++ audios evs) m'.
Proof.
  revert m vh ah. induction evs as [|[ok e] evs IH]; intros m vh ah Hr.
  { intros [= <-] _ _. unfold videos, audios. simpl. by rewrite !app_nil_r. }
  cbn [mux_feed]. destruct (mux_write ok e m) as [r m1] eqn:Ew.
  destruct (Z.ltb_spec r 0) as [|Hr0]; [done|]. intros Hf Hv Ha. destruct e as [s|s].
  - change (videos ((ok, EvVideo s) :: evs)) with ([v_fs s] ++ videos evs) in *.
    change (audios ((ok, EvVideo s) :: evs)) with (audios evs) in *.
    rewrite app_assoc in Hv |- *. apply (IH m1); [|done..].
    eapply mux_write_video_rep; [done| |done|done]. by eapply steady_app_l.
  - change (audios ((ok, EvAudio s) :: evs)) with ([a_fs s] ++ audios evs) in *.
    change (videos ((ok, EvAudio s) :: evs)) with (videos evs) in *.
    rewrite (app_assoc ah) in Ha |- *. apply (IH m1); [|done..].
    eapply mux_write_audio_rep; [done| |done|done]. by eapply steady_app_l.
Qed.

Lemma mux_rep_idle m : idle m -> mux_rep m [] [] m.
Proof.
  intros (H1 & H2 & H3 & H4 & H5).
  split; [|split; [|done]]; split; try done; apply Nat.le_0_l.
Qed.

(** ** What a player is meant to find *)

Definition spec_sample (f : fsample) (dur : Z) : dsample :=
  mk_dsample dur (Z.of_nat (length (fs_data f))) (u32 (fs_flags f)) (u32 (fs_cts f)) (fs_data f).

Definition spec_track (id dflt : Z) (h : list fsample) : list dtrack :=
  match h with
  | [] => []
  | f :: _ => [mk_dtrack id (u64 (fs_dts f)) (zip_with spec_sample h (durations (u32 dflt) h))]
  end.

Definition v_default m : Z :=
  if vp_default_duration (mx_video m) >? 0 then vp_default_duration (mx_video m)
  else if vp_timescale (mx_video m) >? 0 then vp_timescale (mx_video m) / 25 else 0.
Definition a_default m : Z := ap_sample_rate (mx_audio m) / 50.

Definition payload (h : list fsample) : nat := length (concat (fs_data <$> h)).

Lemma payload_cons f h : payload (f :: h) = (length (fs_data f) + payload h)%nat.
Proof. unfold payload. cbn [fmap list_fmap concat]. by rewrite length_app. Qed.

Lemma durations_length dflt h : length (durations dflt h) = length h.
Proof. revert dflt. induction h as [|x [|y t] IH]; intros; [done|done|]. cbn [durations length] in *. by rewrite IH. Qed.

Lemma durations_u32 dflt h : steady h -> u32 <$> durations dflt h = durations (u32 dflt) h.
Proof.
  revert dflt. induction h as [|x [|y t] IH]; intros dflt; [done|done|]. intros [Hg Hs].
  cbn [durations fmap list_fmap]. specialize (IH (fs_dts y - fs_dts x) Hs).
  assert (Hu : u32 (fs_dts y - fs_dts x) = fs_dts y - fs_dts x) by (apply uwrap_id; unfold in_u; lia).
  rewrite Hu in *. f_equal. exact IH.
Qed.

Lemma sized_entries h ds :
  length ds = length h -> Z.of_nat (payload h) < 2 ^ 31 ->
  Forall2 sized (zip_with entry h ds) (fs_data <$> h).
Proof.
  revert ds. induction h as [|f h IH]; intros [|d ds]; simpl; try done.
  intros Hl Hp. rewrite payload_cons in Hp.
  constructor; [|apply IH; lia]. split; [done|]. cbn. lia.
Qed.

Lemma opt_track_spec id dflt base back h :
  (forall f d, In f h -> back (entry f d) (fs_data f) = spec_sample f (u32 d)) ->
  (forall x t, h = x :: t -> base = fs_dts x) -> steady h ->
  opt_track id base back (zip_with entry h (durations dflt h)) (fs_data <$> h) = spec_track id dflt h.
Proof.
  intros Hb Hbase Hs. unfold opt_track, spec_track. destruct h as [|f t] eqn:E; [done|]. rewrite <- E in *.
  assert (Hz : zip_with back (zip_with entry h (durations dflt h)) (fs_data <$> h) =
               zip_with spec_sample h (durations (u32 dflt) h)).
  { rewrite <- durations_u32 by done. generalize (durations dflt h). clear E Hbase Hs.
    induction h as [|x h IH]; intros [|d ds]; try done. simpl. f_equal; [apply Hb; by left|].
    apply IH. intros g d' Hin. apply Hb. by right. }
  rewrite Hz, (Hbase f t E).
  pose proof (durations_length dflt h) as HL. rewrite E in HL |- *.
  destruct (durations dflt (f :: t)); done.
Qed.

Lemma back_v f d :
  Z.of_nat (length (fs_data f)) < 2 ^ 31 -> v_dsample (entry f d) (fs_data f) = spec_sample f (u32 d).
Proof. intros Hl. unfold v_dsample, spec_sample. cbn [entry ms_size ms_duration ms_flags ms_cts_offset].
  f_equal. apply uwrap_id. unfold in_u. lia. Qed.

Lemma back_a f d :
  Z.of_nat (length (fs_data f)) < 2 ^ 31 -> fs_flags f = 0 -> fs_cts f = 0 ->
  a_dsample (entry f d) (fs_data f) = spec_sample f (u32 d).
Proof. intros Hl H1 H2. unfold a_dsample, spec_sample. rewrite H1, H2.
  cbn [entry ms_size ms_duration]. f_equal. apply uwrap_id. unfold in_u. lia. Qed.

Lemma payload_in f h : In f h -> (length (fs_data f) <= payload h)%nat.
Proof.
  intros Hin. induction h as [|x h IH]; [done|]. rewrite payload_cons.
  destruct Hin as [->|Hin]; [lia|]. specialize (IH Hin). lia.
Qed.

Lemma audios_plain evs f : In f (audios evs) -> fs_flags f = 0 /\ fs_cts f = 0.
Proof.
  unfold audios. rewrite <- list_elem_of_In, list_elem_of_omap.
  intros ([s|s] & _ & He); simpl in He; [done|]. by injection He as <-.
Qed.

Lemma history_nil evs : videos evs = [] -> audios evs = [] -> evs = [].
Proof. destruct evs as [|[ok [s|s]] evs]; done. Qed.

Lemma nonempty_history (mf : rmr_mux W) evs m :
  evs <> [] ->
  mx_v_samples mf = zip_with entry (videos evs) (durations (v_default m) (videos evs)) ->
  mx_a_samples mf = zip_with entry (audios evs) (durations (a_default m) (audios evs)) ->
  mx_v_samples mf <> [] \/ mx_a_samples mf <> [].
Proof.
  intros Hne F1 F2. destruct (decide (videos evs = [])) as [Hv|Hv];
    [destruct (decide (audios evs = [])) as [Ha|Ha]; [by destruct Hne; apply history_nil|right]|left].
  all: rewrite F2 || rewrite F1; intros E%(f_equal length); rewrite length_zip_with, durations_length in E;
    rewrite Nat.min_id in E; by apply nil_length_inv in E.
Qed.

Lemma fragment_readback m evs m1 r m2 :
  idle m -> evs <> [] -> steady (videos evs) -> steady (audios evs) ->
  Z.of_nat (payload (videos evs) + payload (audios evs)) < 2 ^ 31 ->
  mux_feed evs m = Some m1 -> rmr_mux_flush_fragment m1 = (r, m2) -> 0 <= r ->
  exists frag, sink_bytes (mx_sink m2) = sink_bytes (mx_sink m) ++ frag /\ idle m2 /\
    demux frag = Some (spec_track 1 (v_default m) (videos evs) ++ spec_track 2 (a_default m) (audios evs)).
Proof.
  intros Hi Hne Hsv Hsa Hp Hf Hfl Hr.
  destruct (mux_feed_rep m evs m m1 [] [] (mux_rep_idle m Hi) Hf Hsv Hsa)
    as ([V1 V2 V3 V4] & [A1 A2 A3 A4] & E1 & E2 & E3 & E4 & E5).
  rewrite !app_nil_l in *. unfold rmr_mux_flush_fragment in Hfl.
  match type of Hfl with write_fragment ?x = _ => set (mf := x) in Hfl end.
  assert (F1 : mx_v_samples mf = zip_with entry (videos evs) (durations (v_default m) (videos evs))).
  { rewrite <- patch_last_entries, <- V1. unfold v_default. by rewrite <- E1. }
  assert (F2 : mx_a_samples mf = zip_with entry (audios evs) (durations (a_default m) (audios evs))).
  { rewrite <- patch_last_entries, <- A1. unfold a_default. by rewrite <- E2. }
  assert (F3 : mx_v_data mf = concat (fs_data <$> videos evs)) by exact V2.
  assert (F4 : mx_a_data mf = concat (fs_data <$> audios evs)) by exact A2.
  assert (F5 : mx_v_base_dts mf = mx_v_base_dts m1 /\ mx_a_base_dts mf = mx_a_base_dts m1 /\
               mx_sink mf = mx_sink m1) by done.
  destruct F5 as (F5 & F6 & F7). clearbody mf.
  assert (Hok : frag_ok (next_frag mf) (fs_data <$> videos evs) (fs_data <$> audios evs)).
  { split; unfold next_frag; cbn; rewrite ?F1, ?F2, ?F3, ?F4; try done.
    1,2: apply sized_entries; [apply durations_length|lia].
    all: rewrite length_zip_with, durations_length; lia. }
  apply write_fragment_ok in Hfl as [Hs Hid]; [|by apply (nonempty_history mf evs m)|done].
  exists (frag_bytes (next_frag mf)). rewrite Hs, F7, E3. split_and!; [done|done|].
  rewrite (demux_frag _ _ _ Hok); [|change (Z.of_nat (length (mx_v_data mf) + length (mx_a_data mf)) < 2 ^ 31);
    rewrite F3, F4; exact Hp].
  unfold frag_tracks. f_equal.
  change (mx_v_samples (next_frag mf)) with (mx_v_samples mf).
  change (mx_a_samples (next_frag mf)) with (mx_a_samples mf).
  change (mx_v_base_dts (next_frag mf)) with (mx_v_base_dts mf).
  change (mx_a_base_dts (next_frag mf)) with (mx_a_base_dts mf).
  rewrite F1, F2, F5, F6. f_equal; apply opt_track_spec; try done; intros f d Hin.
  - apply back_v. apply payload_in in Hin. lia.
  - destruct (audios_plain _ _ Hin). apply back_a; [|done..]. apply payload_in in Hin. lia.
Qed.
End ops.

(** ** Decode times *)

(** When a player shows a track's samples: the base, then running sums. *)
Fixpoint times (base : Z) (durs : list Z) : list Z :=
  match durs with [] => [] | d :: durs => base :: times (base + d) durs end.

Definition decode_times (t : dtrack) : list Z := times (dt_base t) (ds_duration <$> dt_samples t).

Lemma times_durations dflt x t :
  times (fs_dts x) (durations dflt (x :: t)) = fs_dts <$> (x :: t).
Proof.
  revert x dflt. induction t as [|y t IH]; intros x dflt; [done|].
  change (durations dflt (x :: y :: t)) with
    ((fs_dts y - fs_dts x) :: durations (fs_dts y - fs_dts x) (y :: t)).
  cbn [times]. replace (fs_dts x + (fs_dts y - fs_dts x)) with (fs_dts y) by lia. by rewrite IH.
Qed.

Lemma spec_durations h ds :
  length ds = length h -> ds_duration <$> zip_with spec_sample h ds = ds.
Proof. revert ds. induction h as [|f h IH]; intros [|d ds] Hl; try done. simpl in *. f_equal. apply IH. lia. Qed.

(** A history whose first decode time is not negative plays at its own times. *)
Definition plays (h : list fsample) (ts : list dtrack) : Prop :=
  decode_times <$> ts = match h with [] => [] | _ => [fs_dts <$> h] end.

Lemma spec_track_plays id dflt h :
  (forall f t, h = f :: t -> in_u 64 (fs_dts f)) -> plays h (spec_track id dflt h).
Proof.
  intros Hu. unfold plays, spec_track. destruct h as [|f t]; [done|].
  cbn [fmap list_fmap]. f_equal. unfold decode_times. cbn [dt_base dt_samples].
  rewrite spec_durations by apply durations_length. rewrite uwrap_id by by eapply Hu.
  apply times_durations.
Qed.

(** ** A callback that keeps everything *)

Lemma list_sink_ok (buf w : list Z) (r : Z) w' : (0, w ++ buf) = (r, w') -> 0 <= r -> w' = w ++ buf.
Proof. by intros [= <- <-] _. Qed.

#[export] Instance list_sink : ByteSink (list Z) := {|
  sink_write := fun buf w => (0, w ++ buf);
  sink_bytes := fun w => w;
  sink_write_ok := list_sink_ok
|}.

Definition demo_events : list (bool * mux_ev) :=
  [(true, EvVideo (mk_rmr_video_sample [1; 2; 3] 9000 9000 true));
   (true, EvAudio (mk_rmr_audio_sample [7; 8] 800));
   (true, EvVideo (mk_rmr_video_sample [4; 5] 12000 15000 false))].

Definition demo_mux : rmr_mux (list Z) := rmr_mux_create [].
Definition demo_fed : rmr_mux (list Z) := default demo_mux (mux_feed demo_events demo_mux).
Definition demo_flushed : rmr_mux (list Z) := snd (rmr_mux_flush_fragment demo_fed).

(** C39: What goes into a fragment comes out of it.  Starting with nothing
    pending, feed any sequence of video and audio samples whose decode times
    do not go back; if every write and the flush succeed, the bytes handed to
    the callback are one fragment, and the reference reader finds in it exactly
    the samples fed, per track and in order: payload, size, key flag and
    composition offset of each, and as duration the distance to its successor
    (for the last one, that of its predecessor; for a lone one, the declared
    default).  The muxer is left with nothing pending. *)
Theorem rmr_fragment_roundtrip {W} `{!ByteSink W} (m : rmr_mux W) evs m1 r m2 :
  idle m -> evs <> [] -> steady (videos evs) -> steady (audios evs) ->
  Z.of_nat (payload (videos evs) + payload (audios evs)) < 2 ^ 31 ->
  mux_feed evs m = Some m1 -> rmr_mux_flush_fragment m1 = (r, m2) -> 0 <= r ->
  exists frag, sink_bytes (mx_sink m2) = sink_bytes (mx_sink m) ++ frag /\ idle m2 /\
    demux frag = Some (spec_track 1 (v_default m) (videos evs) ++ spec_track 2 (a_default m) (audios evs)).
Proof. apply fragment_readback. Qed.

Lemma rmr_fragment_roundtrip_witness :
  exists frag, sink_bytes (mx_sink demo_flushed) = sink_bytes (mx_sink demo_mux) ++ frag /\ idle demo_flushed /\
    demux frag = Some (spec_track 1 (v_default demo_mux) (videos demo_events) ++
                    spec_track 2 (a_default demo_mux) (audios demo_events)).
Proof.
  apply (rmr_fragment_roundtrip demo_mux demo_events demo_fed 0 demo_flushed); by vm_compute.
Defined.

(** A fragment plays at the times that went in: summing the durations the
    reader finds from the fragment's base decode time gives back the decode
    time of every sample fed, on both tracks. *)
Theorem rmr_fragment_decode_times {W} `{!ByteSink W} (m : rmr_mux W) evs m1 r m2 :
  idle m -> evs <> [] -> steady (videos evs) -> steady (audios evs) ->
  Z.of_nat (payload (videos evs) + payload (audios evs)) < 2 ^ 31 ->
  (forall f t, videos evs = f :: t -> in_u 64 (fs_dts f)) ->
  (forall f t, audios evs = f :: t -> in_u 64 (fs_dts f)) ->
  mux_feed evs m = Some m1 -> rmr_mux_flush_fragment m1 = (r, m2) -> 0 <= r ->
  exists frag v a, sink_bytes (mx_sink m2) = sink_bytes (mx_sink m) ++ frag /\
    demux frag = Some (v ++ a) /\ plays (videos evs) v /\ plays (audios evs) a.
Proof.
  intros Hi Hne Hsv Hsa Hp Huv Hua Hf Hfl Hr.
  destruct (fragment_readback m evs m1 r m2 Hi Hne Hsv Hsa Hp Hf Hfl Hr) as (frag & Hs & _ & Hd).
  eexists frag, _, _. split_and!; [done|done|by apply spec_track_plays..].
Qed.

Lemma rmr_fragment_decode_times_witness :
  exists frag v a, sink_bytes (mx_sink demo_flushed) = sink_bytes (mx_sink demo_mux) ++ frag /\
    demux frag = Some (v ++ a) /\ plays (videos demo_events) v /\ plays (audios demo_events) a.
Proof.
  apply (rmr_fragment_decode_times demo_mux demo_events demo_fed 0 demo_flushed); 
    [by vm_compute|by vm_compute|by vm_compute|by vm_compute|by vm_compute|intros f t [= <- <-]; by vm_compute|intros f t [= <- <-]; by vm_compute|by vm_compute..].
Defined.
