(* ===== verification/MuxHeader.v ===== *)
(** * rmr: the header of a recording

    A player that descends moov / trak / mdia / minf / stbl / stsd / avc1 /
    avcC in the bytes [rmr_mux_start] hands to the callback finds the SPS and
    the PPS the caller gave; the AAC descriptor's nested lengths are exact; and
    what the trailer's back pointer holds. *)

From Stdlib Require Import String Ascii.
From stdpp Require Import gmap list.
From S2P Require Import Prelude Mux MuxProps MuxRoundtrip.

Lemma bind_run {A B} (o : option A) x (f : A -> option B) y :
  o = Some x -> f x = Some y -> (o ≫= f) = Some y.
Proof. by intros ->. Qed.

(** ** Children of a box *)

(** The writer adds the box [cc] with payload [p], small enough to be read. *)
Definition is_box (f : bb) (b : string * list Z) : Prop :=
  f [] = mkbox (fst b) (snd b) /\ length (fourcc (fst b)) = 4%nat /\
  Z.of_nat (length (snd b)) < 2 ^ 31.

Lemma parse_boxes_out n fs l :
  Forall2 is_box fs l -> (length fs <= n)%nat ->
  parse_boxes n (out fs) = Some ((fun b => (fourcc (fst b), snd b)) <$> l).
Proof.
  intros Hf. revert n. induction Hf as [|f [cc p] fs l (Hb & Hc & Hp) _ IH]; intros n Hn.
  { apply parse_boxes_nil. }
  destruct n as [|n]; [simpl in Hn; lia|]. rewrite out_cons, Hb. simpl fst in *. simpl snd in *.
  rewrite parse_boxes_mkbox by (done || lia). rewrite IH; [done|simpl in Hn; lia].
Qed.

Definition descend (cc : string) (l : list Z) : option (list Z) := boxes l ≫= find_box cc.

Lemma descend_out cc fs l p :
  Forall2 is_box fs l -> (length fs <= 16)%nat ->
  snd <$> find (fun b => bool_decide (fourcc (fst b) = fourcc cc)) l = Some p ->
  descend cc (out fs) = Some p.
Proof.
  intros Hf Hn Hp. unfold descend, boxes. rewrite (parse_boxes_out 16 fs l) by done.
  cbn [mbind option_bind]. unfold find_box. rewrite <- Hp. clear. induction l as [|[c q] l IH]; [done|].
  cbn [fmap list_fmap find fst snd]. case_bool_decide; [done|apply IH].
Qed.

Lemma is_box_in cc fs :
  length (fourcc cc) = 4%nat -> Forall appends fs -> Z.of_nat (length (out fs)) < 2 ^ 31 ->
  is_box (in_box cc fs) (cc, out fs).
Proof. intros Hc Hf Hl. split_and!; [|done..]. by rewrite in_box_spec. Qed.

Definition full_payload (v fl : Z) (fs : list bb) : list Z :=
  w32 (u32 (Z.lor (Z.shiftl v 24) (Z.land fl 16777215))) ++ out fs.

Lemma is_box_full cc v fl fs :
  length (fourcc cc) = 4%nat -> Forall appends fs -> Z.of_nat (length (out fs)) < 2 ^ 30 ->
  is_box (in_fullbox cc v fl fs) (cc, full_payload v fl fs).
Proof.
  intros Hc Hf Hl. split_and!; [by rewrite in_fullbox_spec|done|].
  unfold full_payload. cbn [snd]. rewrite length_app, w32_length. lia.
Qed.

(** ** Sizes *)

Definition size (f : bb) : Z := Z.of_nat (length (f [])).
Definition sizes (fs : list bb) : Z := foldr (fun f n => size f + n) 0 fs.

Lemma sizes_out fs : Z.of_nat (length (out fs)) = sizes fs.
Proof. induction fs as [|f fs IH]; [done|]. rewrite out_cons, length_app. simpl. unfold size. lia. Qed.

Lemma sizes_nil : sizes [] = 0.
Proof. done. Qed.
Lemma sizes_cons f fs : sizes (f :: fs) = size f + sizes fs.
Proof. done. Qed.

Lemma sizes_app fs gs : sizes (fs ++ gs) = sizes fs + sizes gs.
Proof. induction fs as [|f fs IH]; simpl; [done|]. rewrite IH. lia. Qed.

Lemma size_box cc fs :
  length (fourcc cc) = 4%nat -> Forall appends fs -> size (in_box cc fs) = 8 + sizes fs.
Proof. intros Hc Hf. unfold size. rewrite in_box_spec, app_nil_l, mkbox_length, <- sizes_out by done. lia. Qed.

Lemma size_full cc v fl fs :
  length (fourcc cc) = 4%nat -> Forall appends fs -> size (in_fullbox cc v fl fs) = 12 + sizes fs.
Proof.
  intros Hc Hf. unfold size. rewrite in_fullbox_spec, app_nil_l by done. unfold mkfull.
  rewrite mkbox_length, length_app, w32_length, <- sizes_out by done. lia.
Qed.

Lemma size_write l : size (bb_write l) = Z.of_nat (length l).
Proof. done. Qed.
Lemma size_w8 v : size (bb_w8 v) = 1.
Proof. done. Qed.
Lemma size_w16 v : size (bb_w16 v) = 2.
Proof. done. Qed.
Lemma size_w32 v : size (bb_w32 v) = 4.
Proof. done. Qed.
Lemma size_fourcc s : size (bb_fourcc s) = Z.of_nat (length (fourcc s)).
Proof. done. Qed.
Lemma size_zeros n : size (bb_zeros n) = Z.of_nat n.
Proof. unfold size, bb_zeros, bb_write. by rewrite app_nil_l, length_replicate. Qed.

Create Rewrite HintDb sz.
#[export] Hint Rewrite size_write size_w8 size_w16 size_w32 size_zeros size_fourcc sizes_app
  sizes_cons sizes_nil : sz.

(** Sizes of nested writers, by arithmetic. *)
Ltac szs :=
  repeat first
    [ progress autorewrite with sz
    | rewrite size_box by auto 40 with mux
    | rewrite size_full by auto 40 with mux ].

Lemma is_box_in' cc fs :
  length (fourcc cc) = 4%nat -> Forall appends fs -> sizes fs <= 100000 -> is_box (in_box cc fs) (cc, out fs).
Proof. intros. apply is_box_in; [done..|]. rewrite sizes_out. lia. Qed.

Lemma is_box_full' cc v fl fs :
  length (fourcc cc) = 4%nat -> Forall appends fs -> sizes fs <= 100000 ->
  is_box (in_fullbox cc v fl fs) (cc, full_payload v fl fs).
Proof. intros. apply is_box_full; [done..|]. rewrite sizes_out. lia. Qed.

(** ** The video track of a header *)

Definition stsd_entry (l : list Z) : list Z := drop 8 l.
Definition visual_children (l : list Z) : list Z := drop 78 l.

(** SPS and PPS of an avcC payload that has one of each. *)
Definition avcc_sets (c : list Z) : list Z * list Z :=
  let sl := Z.to_nat (be_val (take 2 (drop 6 c))) in
  let rest := drop (8 + sl) c in
  let pl := Z.to_nat (be_val (take 2 (drop 1 rest))) in
  (take sl (drop 8 c), take pl (drop 3 rest)).

Definition trak_stsd (trak : list Z) : option (list Z) :=
  mdia ← descend "mdia" trak;
  minf ← descend "minf" mdia;
  stbl ← descend "stbl" minf;
  descend "stsd" stbl.

Definition stsd_sets (stsd : list Z) : option (list Z * list Z) :=
  avc1 ← descend "avc1" (stsd_entry stsd);
  avcC ← descend "avcC" (visual_children avc1);
  Some (avcc_sets avcC).

Definition read_avcc (file : list Z) : option (list Z * list Z) :=
  moov ← descend "moov" file;
  trak ← descend "trak" moov;
  stsd ← trak_stsd trak;
  stsd_sets stsd.

Section header.
Context {W : Type} `{!ByteSink W}.
Variable rss_aac_asc : Z -> Z -> Z -> option (list Z).
Implicit Types m : rmr_mux W.

Definition small_sets m : Prop := (length (mx_sps m) <= 256)%nat /\ (length (mx_pps m) <= 128)%nat.

Definition avcc_body m : list bb :=
  [bb_w8 1; bb_w8 (sps_byte m 1 100); bb_w8 (sps_byte m 2 0);
   bb_w8 (sps_byte m 3 40); bb_w8 255; bb_w8 225;
   bb_w16 (Z.of_nat (length (mx_sps m))); bb_write (mx_sps m);
   bb_w8 1; bb_w16 (Z.of_nat (length (mx_pps m))); bb_write (mx_pps m)].

Lemma w16_val v : in_u 16 v -> be_val (w16 v) = v.
Proof.
  intros Hv. unfold w16, be_val, in_u in *. cbn [fold_left].
  rewrite !land_255, !Z.shiftr_div_pow2 by lia. change (2 ^ 8) with 256. change (2 ^ 16) with 65536 in Hv.
  Z.to_euclidean_division_equations. lia.
Qed.

Lemma be_val_u16 n rest : Z.of_nat n < 65536 -> be_val (take 2 (w16 (u16 (Z.of_nat n)) ++ rest)) = Z.of_nat n.
Proof.
  intros Hn. change 2%nat with (length (w16 (u16 (Z.of_nat n)))). rewrite take_app_length.
  rewrite uwrap_id by (unfold in_u; lia). apply w16_val. unfold in_u. lia.
Qed.

Lemma avcc_sets_spec m : small_sets m -> avcc_sets (out (avcc_body m)) = (mx_sps m, mx_pps m).
Proof.
  intros [Hs Hp]. unfold avcc_body.
  set (h := [bb_w8 1; bb_w8 (sps_byte m 1 100); bb_w8 (sps_byte m 2 0);
             bb_w8 (sps_byte m 3 40); bb_w8 255; bb_w8 225]).
  set (sl := w16 (u16 (Z.of_nat (length (mx_sps m))))). set (pl := w16 (u16 (Z.of_nat (length (mx_pps m))))).
  assert (HO : out (avcc_body m) = out h ++ sl ++ mx_sps m ++ [1] ++ pl ++ mx_pps m).
  { unfold avcc_body. rewrite !out_cons. change (out []) with (@nil Z). by rewrite app_nil_r. }
  unfold avcc_body in HO. rewrite HO. unfold avcc_sets.
  assert (HL : Z.to_nat (be_val (take 2 (drop 6 (out h ++ sl ++ mx_sps m ++ [1] ++ pl ++ mx_pps m)))) =
               length (mx_sps m)).
  { change (drop 6 (out h ++ ?r)) with r. unfold sl. rewrite be_val_u16 by lia. apply Nat2Z.id. }
  rewrite HL.
  assert (HR : drop (8 + length (mx_sps m)) (out h ++ sl ++ mx_sps m ++ [1] ++ pl ++ mx_pps m) = [1] ++ pl ++ mx_pps m).
  { rewrite <- (drop_drop _ (length (mx_sps m)) 8). change (drop 8 (out h ++ sl ++ ?r)) with r. apply drop_app_length. }
  rewrite HR. change (drop 8 (out h ++ sl ++ ?r)) with r. rewrite take_app_length. f_equal.
  change (drop 1 ([1] ++ ?r)) with r. unfold pl at 1. rewrite be_val_u16 by lia.
  change (drop 3 ([1] ++ pl ++ ?r)) with r. rewrite Nat2Z.id. by rewrite firstn_all.
Qed.

Lemma size_avcc m : small_sets m -> sizes (avcc_body m) <= 400.
Proof. intros [Hs Hp]. unfold avcc_body. szs. lia. Qed.

Lemma size_visual m : sizes (visual_entry m) = 78.
Proof. unfold visual_entry. by szs. Qed.

Lemma visual_appends m : Forall appends (visual_entry m).
Proof. unfold visual_entry. auto 20 with mux. Qed.

Lemma size_stsd_avc1 m : small_sets m -> 0 <= size (write_stsd_avc1 m) <= 600.
Proof.
  intros Hs. pose proof (size_avcc m Hs) as Ha. pose proof (visual_appends m).
  unfold write_stsd_avc1. fold (avcc_body m). 
  assert (Forall appends (avcc_body m)) by (unfold avcc_body; auto 20 with mux).
  szs. rewrite size_visual. pose proof (sizes_out (avcc_body m)). lia.
Qed.

(** RSS_AAC_ASC_MAX of raptor-common: the configuration fits a byte's length. *)
Hypothesis asc_short : forall aot rate ch asc,
  rss_aac_asc aot rate ch = Some asc -> Z.of_nat (length asc) <= 255.

Lemma audio_asc_short m : Z.of_nat (length (audio_asc rss_aac_asc m)) <= 255.
Proof.
  unfold audio_asc. destruct (rss_aac_asc _ (ap_sample_rate _) 1) eqn:E; [by eapply asc_short|].
  destruct (rss_aac_asc 2 44100 1) eqn:E2; [by eapply asc_short|simpl; lia].
Qed.

Lemma sizes_w8 l : sizes (bb_w8 <$> l) = Z.of_nat (length l).
Proof. induction l as [|x l IH]; [done|]. cbn [fmap list_fmap]. rewrite sizes_cons, size_w8.
  change (list_fmap _ _ bb_w8 l) with (bb_w8 <$> l). rewrite IH. cbn [length]. lia. Qed.

Lemma size_stsd_audio m : 0 <= size (write_stsd_audio rss_aac_asc m) <= 600.
Proof.
  unfold write_stsd_audio. pose proof (audio_asc_short m) as Hs.
  assert (Ha : forall b r, Forall appends (audio_entry m b r) /\ sizes (audio_entry m b r) = 28).
  { intros b r. unfold audio_entry. split; [auto 20 with mux|by szs]. }
  assert (He : size (write_esds (audio_asc rss_aac_asc m)) = 37 + Z.of_nat (length (audio_asc rss_aac_asc m))).
  { unfold write_esds. szs. rewrite sizes_w8. lia. }
  assert (Hae : appends (write_esds (audio_asc rss_aac_asc m))) by (unfold write_esds; auto 30 with mux).
  assert (Hd : size (write_dops (ap_sample_rate (mx_audio m))) = 19) by (unfold write_dops; by szs).
  assert (Had : appends (write_dops (ap_sample_rate (mx_audio m)))) by (unfold write_dops; auto 20 with mux).
  destruct (_ =? RMR_AUDIO_AAC); [|destruct (_ =? RMR_AUDIO_OPUS)].
  - destruct (Ha 16 (Z.shiftl (ap_sample_rate (mx_audio m)) 16)) as [H1 H2]. szs. rewrite H2, He. lia.
  - destruct (Ha 16 (Z.shiftl 48000 16)) as [H1 H2]. szs. rewrite H2, Hd. lia.
  - destruct (Ha (ap_bits_per_sample (mx_audio m)) (Z.shiftl (ap_sample_rate (mx_audio m)) 16)) as [H1 H2].
    assert (Hp : length (fourcc (pcm_fourcc (ap_codec (mx_audio m)))) = 4%nat).
    { unfold pcm_fourcc. by repeat case_match. }
    szs. rewrite H2. lia.
Qed.

(** *** The containers, as the writers list their children *)

Definition is_h264 m : Prop := vp_codec (mx_video m) = RMR_CODEC_H264.

Definition stbl_tail : list bb :=
  [in_fullbox "stts" 0 0 [bb_w32 0]; in_fullbox "stsc" 0 0 [bb_w32 0];
   in_fullbox "stsz" 0 0 [bb_w32 0; bb_w32 0]; in_fullbox "stco" 0 0 [bb_w32 0]].

Definition avc1_body m : list bb := visual_entry m ++ [in_box "avcC" (avcc_body m)].
Definition stsd_body m : list bb := [bb_w32 1; in_box "avc1" (avc1_body m)].

Definition dinf : bb := in_box "dinf" [in_fullbox "dref" 0 0 [bb_w32 1; in_fullbox "url " 0 1 []]].

Definition minf_body (is_audio : bool) (stbl : bb) : list bb :=
  [if is_audio then in_fullbox "smhd" 0 0 [bb_w16 0; bb_w16 0]
   else in_fullbox "vmhd" 0 1 [bb_w16 0; bb_zeros 6]; dinf; stbl].

Definition mdia_body (rate : Z) (handler name : string) (minf : bb) : list bb :=
  [write_mdhd rate; write_hdlr handler name; minf].

Lemma appends_leaves r h n t w ht a :
  Forall appends stbl_tail /\ appends dinf /\ appends (write_mdhd r) /\ appends (write_hdlr h n) /\
  appends (write_tkhd t w ht a).
Proof.
  unfold stbl_tail, dinf, write_mdhd, write_hdlr, write_tkhd, unity_matrix.
  repeat split; auto 40 with mux.
Qed.

Lemma appends_avc1 m : Forall appends (avcc_body m) /\ Forall appends (avc1_body m).
Proof.
  pose proof (visual_appends m). unfold avc1_body, avcc_body. split; auto 40 with mux.
Qed.

Lemma appends_stsd_avc1 m : appends (write_stsd_avc1 m).
Proof. pose proof (visual_appends m). unfold write_stsd_avc1. auto 40 with mux. Qed.

Lemma appends_stsd_audio m : appends (write_stsd_audio rss_aac_asc m).
Proof.
  unfold write_stsd_audio, write_esds, write_dops, audio_entry.
  assert (Hp : length (fourcc (pcm_fourcc (ap_codec (mx_audio m)))) = 4%nat).
  { unfold pcm_fourcc. by repeat case_match. }
  auto 40 with mux.
Qed.

Lemma sizes_stbl_tail : sizes stbl_tail = 68.
Proof. unfold stbl_tail. by szs. Qed.
Lemma size_dinf : size dinf = 36.
Proof. unfold dinf. by szs. Qed.
Lemma size_mdhd r : size (write_mdhd r) = 32.
Proof. unfold write_mdhd. by szs. Qed.
Lemma size_tkhd t w h a : size (write_tkhd t w h a) = 92.
Proof. unfold write_tkhd, unity_matrix. by szs. Qed.
Lemma size_hdlr h n : size (write_hdlr h n) = 29 + Z.of_nat (length (fourcc h)) + Z.of_nat (length (fourcc n)).
Proof. unfold write_hdlr. szs. rewrite length_app. simpl length. lia. Qed.

(** A track whose sample description [stsd] takes at most 600 bytes. *)
Definition trak_of (tkhd stsd : bb) (rate : Z) (handler name : string) (is_audio : bool) : list bb :=
  [tkhd; in_box "mdia" (mdia_body rate handler name
     (in_box "minf" (minf_body is_audio (in_box "stbl" (stsd :: stbl_tail)))))].

Lemma write_trak_video m id :
  is_h264 m ->
  write_trak rss_aac_asc m id false =
  in_box "trak" (trak_of (write_tkhd id (vp_width (mx_video m)) (vp_height (mx_video m)) false)
    (write_stsd_avc1 m) (vp_timescale (mx_video m)) "vide" "Raptor Video" false).
Proof. intros Hc. unfold write_trak, write_empty_stbl. by rewrite Hc. Qed.

Lemma write_trak_audio m id :
  write_trak rss_aac_asc m id true =
  in_box "trak" (trak_of (write_tkhd id 0 0 true) (write_stsd_audio rss_aac_asc m)
    (ap_sample_rate (mx_audio m)) "soun" "Raptor Audio" true).
Proof. done. Qed.

Section one_track.
Variables (stsd : bb) (id w h rate : Z) (handler name : string) (is_audio : bool).
Hypothesis stsd_appends : appends stsd.
Hypothesis stsd_size : 0 <= size stsd <= 600.
Hypothesis name_size : Z.of_nat (length (fourcc handler)) + Z.of_nat (length (fourcc name)) <= 100.

Let stbl_fs : list bb := stsd :: stbl_tail.
Let minf_fs : list bb := minf_body is_audio (in_box "stbl" stbl_fs).
Let mdia_fs : list bb := mdia_body rate handler name (in_box "minf" minf_fs).
Let trak_fs : list bb := trak_of (write_tkhd id w h is_audio) stsd rate handler name is_audio.

Lemma track_appends : Forall appends stbl_fs /\ Forall appends minf_fs /\
  Forall appends mdia_fs /\ Forall appends trak_fs.
Proof.
  destruct (appends_leaves rate handler name id w h is_audio) as (H1 & H2 & H3 & H4 & H5).
  assert (A1 : Forall appends stbl_fs) by (unfold stbl_fs; by constructor).
  assert (A2 : Forall appends minf_fs) by (unfold minf_fs, minf_body; auto 20 with mux).
  assert (A3 : Forall appends mdia_fs) by (unfold mdia_fs, mdia_body; auto 20 with mux).
  split_and!; [done..|]. unfold trak_fs, trak_of. fold stbl_fs. fold minf_fs. fold mdia_fs.
  auto 20 with mux.
Qed.

Lemma track_sizes : sizes stbl_fs <= 700 /\ sizes minf_fs <= 800 /\ sizes mdia_fs <= 1100 /\
  0 <= sizes trak_fs <= 1300.
Proof.
  destruct track_appends as (A1 & A2 & A3 & A4).
  pose proof sizes_stbl_tail as S1. pose proof size_dinf as S2. pose proof (size_mdhd rate) as S3.
  pose proof (size_hdlr handler name) as S4. pose proof (size_tkhd id w h is_audio) as S5.
  assert (B1 : 0 <= sizes stbl_fs <= 700) by (unfold stbl_fs; rewrite sizes_cons; lia).
  assert (B2 : 0 <= sizes minf_fs <= 800).
  { unfold minf_fs, minf_body. rewrite !sizes_cons, sizes_nil, size_box, S2 by (done || auto with mux).
    destruct is_audio; szs; lia. }
  assert (B3 : 0 <= sizes mdia_fs <= 1100).
  { unfold mdia_fs, mdia_body. rewrite !sizes_cons, sizes_nil, size_box by (done || auto with mux). lia. }
  split_and!; try lia; unfold trak_fs, trak_of; fold stbl_fs; fold minf_fs; fold mdia_fs;
    rewrite !sizes_cons, sizes_nil, size_box by (done || auto with mux); lia.
Qed.

Lemma track_descend p :
  is_box stsd ("stsd"%string, p) ->
  trak_stsd (out trak_fs) = Some p.
Proof.
  intros Hp. destruct track_appends as (A1 & A2 & A3 & A4). destruct track_sizes as (S1 & S2 & S3 & S4).
  assert (D1 : descend "mdia" (out trak_fs) = Some (out mdia_fs)).
  { unfold trak_fs, trak_of, write_tkhd, unity_matrix. fold stbl_fs. fold minf_fs. fold mdia_fs.
    eapply descend_out; [constructor; [|constructor; [|constructor]]|simpl; lia|].
    - apply is_box_full'; [done|auto 40 with mux|by szs].
    - by apply is_box_in'; [| |lia].
    - reflexivity. }
  assert (D2 : descend "minf" (out mdia_fs) = Some (out minf_fs)).
  { unfold mdia_fs, mdia_body, write_mdhd, write_hdlr.
    eapply descend_out; [constructor; [|constructor; [|constructor; [|constructor]]]|simpl; lia|].
    - apply is_box_full'; [done|auto 40 with mux|by szs].
    - apply is_box_full'; [done|auto 40 with mux|].
      szs. rewrite length_app. cbn [length]. lia.
    - by apply is_box_in'; [| |lia].
    - reflexivity. }
  assert (D3 : descend "stbl" (out minf_fs) = Some (out stbl_fs)).
  { unfold minf_fs, minf_body, dinf. destruct is_audio.
    all: eapply descend_out; [constructor; [|constructor; [|constructor; [|constructor]]]|simpl; lia|];
      [apply is_box_full'; [done|auto 40 with mux|by szs]
      |apply is_box_in'; [done|auto 40 with mux|by szs]
      |apply is_box_in'; [done|auto 40 with mux|lia]
      |reflexivity]. }
  assert (D4 : descend "stsd" (out stbl_fs) = Some p).
  { unfold stbl_fs, stbl_tail.
    eapply descend_out;
      [constructor; [exact Hp|repeat (constructor; [apply is_box_full'; [done|auto with mux|by szs]|]); constructor]
      |simpl; lia|reflexivity]. }
  unfold trak_stsd. rewrite D1. cbn [mbind option_bind]. rewrite D2. cbn [mbind option_bind].
  rewrite D3. cbn [mbind option_bind]. exact D4.
Qed.
End one_track.

Lemma stsd_is_box m :
  small_sets m -> is_box (write_stsd_avc1 m) ("stsd"%string, full_payload 0 0 (stsd_body m)).
Proof.
  intros Hs. destruct (appends_avc1 m) as [A1 A2].
  pose proof (size_avcc m Hs). pose proof (size_visual m).
  change (write_stsd_avc1 m) with (in_fullbox "stsd" 0 0 (stsd_body m)).
  apply is_box_full'; [reflexivity|unfold stsd_body; auto with mux|].
  unfold stsd_body, avc1_body. fold (avc1_body m). rewrite !sizes_cons, sizes_nil, size_box by done.
  unfold avc1_body. rewrite sizes_app, sizes_cons, sizes_nil, size_box by done. rewrite size_w32. lia.
Qed.

Lemma stsd_descend m :
  small_sets m ->
  stsd_sets (full_payload 0 0 (stsd_body m)) = Some (mx_sps m, mx_pps m).
Proof.
  intros Hs. destruct (appends_avc1 m) as [A1 A2].
  pose proof (size_avcc m Hs) as S1. pose proof (size_visual m) as S2.
  assert (S3 : sizes (avc1_body m) <= 1000).
  { unfold avc1_body. rewrite sizes_app, sizes_cons, sizes_nil, size_box by done. lia. }
  unfold stsd_sets. change (stsd_entry (full_payload 0 0 (stsd_body m))) with (out [in_box "avc1" (avc1_body m)]).
  rewrite (descend_out "avc1" _ [("avc1"%string, out (avc1_body m))] (out (avc1_body m)));
    [|repeat constructor; by apply is_box_in'; [| |lia]|simpl; lia|reflexivity].
  cbn [mbind option_bind].
  assert (HV : visual_children (out (avc1_body m)) = out [in_box "avcC" (avcc_body m)]).
  { unfold avc1_body. rewrite out_app. unfold visual_children.
    replace 78%nat with (length (out (visual_entry m))); [apply drop_app_length|].
    pose proof (sizes_out (visual_entry m)). lia. }
  rewrite HV.
  rewrite (descend_out "avcC" _ [("avcC"%string, out (avcc_body m))] (out (avcc_body m)));
    [|repeat constructor; by apply is_box_in'; [| |lia]|simpl; lia|reflexivity].
  cbn [mbind option_bind]. by rewrite avcc_sets_spec.
Qed.

Definition moov_body m : list bb :=
  [write_mvhd (if mx_has_video m then vp_timescale (mx_video m) else ap_sample_rate (mx_audio m))
     (1 + (if mx_has_video m then 1 else 0) + (if mx_has_audio m then 1 else 0))]
  ++ (if mx_has_video m then [write_trak rss_aac_asc m 1 false] else [])
  ++ (if mx_has_audio m then [write_trak rss_aac_asc m 2 true] else []) ++ [write_mvex m].

Definition v_trak m : list bb :=
  trak_of (write_tkhd 1 (vp_width (mx_video m)) (vp_height (mx_video m)) false)
    (write_stsd_avc1 m) (vp_timescale (mx_video m)) "vide" "Raptor Video" false.

Definition mvhd_payload (t n : Z) : list Z :=
  full_payload 0 0 ([bb_w32 0; bb_w32 0; bb_w32 t; bb_w32 0; bb_w32 65536; bb_w16 256; bb_zeros 10]
     ++ unity_matrix ++ [bb_zeros 24; bb_w32 n]).

Lemma mvex_ok m : appends (write_mvex m) /\ size (write_mvex m) <= 100 /\
  is_box (write_mvex m) ("mvex"%string, out ((if mx_has_video m then [write_trex 1] else [])
                                     ++ (if mx_has_audio m then [write_trex 2] else []))).
Proof.
  assert (Ht : forall i, appends (write_trex i) /\ size (write_trex i) = 32).
  { intros i. unfold write_trex. split; [auto 20 with mux|by szs]. }
  assert (Hf : Forall appends ((if mx_has_video m then [write_trex 1] else [])
                             ++ (if mx_has_audio m then [write_trex 2] else []))).
  { pose proof (Ht 1) as []. pose proof (Ht 2) as []. destruct (mx_has_video m), (mx_has_audio m); auto with mux. }
  assert (Hs : sizes ((if mx_has_video m then [write_trex 1] else [])
                             ++ (if mx_has_audio m then [write_trex 2] else [])) <= 64).
  { pose proof (Ht 1) as []. pose proof (Ht 2) as []. destruct (mx_has_video m), (mx_has_audio m); szs; lia. }
  unfold write_mvex. split_and!; [by apply appends_in_box|rewrite size_box by done; lia|].
  by apply is_box_in'; [| |lia].
Qed.

Lemma moov_descend m :
  is_h264 m -> small_sets m -> mx_has_video m = true ->
  is_box (moov_box rss_aac_asc m) ("moov"%string, out (moov_body m)) /\
  descend "trak" (out (moov_body m)) = Some (out (v_trak m)).
Proof.
  intros Hc Hs Hv.
  pose proof (size_stsd_avc1 m Hs) as S1. pose proof (size_stsd_audio m) as S2.
  pose proof (appends_stsd_avc1 m) as A1. pose proof (appends_stsd_audio m) as A2.
  destruct (track_appends (write_stsd_avc1 m) 1 (vp_width (mx_video m)) (vp_height (mx_video m))
    (vp_timescale (mx_video m)) "vide" "Raptor Video" false A1) as (_ & _ & _ & A3).
  destruct (track_sizes (write_stsd_avc1 m) 1 (vp_width (mx_video m)) (vp_height (mx_video m))
    (vp_timescale (mx_video m)) "vide" "Raptor Video" false A1 S1 ltac:(done)) as (_ & _ & _ & S3).
  destruct (track_appends (write_stsd_audio rss_aac_asc m) 2 0 0 (ap_sample_rate (mx_audio m))
    "soun" "Raptor Audio" true A2) as (_ & _ & _ & A4).
  destruct (track_sizes (write_stsd_audio rss_aac_asc m) 2 0 0 (ap_sample_rate (mx_audio m))
    "soun" "Raptor Audio" true A2 S2 ltac:(done)) as (_ & _ & _ & S4).
  fold (v_trak m) in A3, S3. set (a_trak := trak_of _ (write_stsd_audio rss_aac_asc m) _ _ _ _) in A4, S4.
  assert (B1 : forall t n, is_box (write_mvhd t n) ("mvhd"%string, mvhd_payload t n)).
  { intros t n. unfold write_mvhd, mvhd_payload. apply is_box_full'; [done|unfold unity_matrix; auto 40 with mux|unfold unity_matrix; by szs]. }
  assert (B2 : is_box (write_trak rss_aac_asc m 1 false) ("trak"%string, out (v_trak m))).
  { rewrite write_trak_video by done. by apply is_box_in'; [| |lia]. }
  assert (B3 : is_box (write_trak rss_aac_asc m 2 true) ("trak"%string, out a_trak)).
  { rewrite write_trak_audio by done. by apply is_box_in'; [| |lia]. }
  destruct (mvex_ok m) as (A5 & S5 & B4).
  assert (HF : exists l, Forall2 is_box (moov_body m) l /\
    snd <$> find (fun b => bool_decide (fourcc (fst b) = fourcc "trak")) l = Some (out (v_trak m)) /\
    (length l <= 4)%nat).
  { unfold moov_body. rewrite Hv. destruct (mx_has_audio m); eexists; cbn [app].
    - split; [constructor; [apply B1|constructor; [exact B2|constructor; [exact B3|
        constructor; [exact B4|constructor]]]]|]. split; [reflexivity|simpl; lia].
    - split; [constructor; [apply B1|constructor; [exact B2|constructor; [exact B4|constructor]]]|].
      split; [reflexivity|simpl; lia]. }
  destruct HF as (l & HF & Hfind & Hlen). pose proof (Forall2_length _ _ _ HF) as Hl.
  split; [|eapply descend_out; [done|lia|done]].
  assert (A6 : forall t n, appends (write_mvhd t n) /\ size (write_mvhd t n) = 108).
  { intros t n. unfold write_mvhd, unity_matrix. split; [auto 40 with mux|by szs]. }
  assert (A7 : appends (write_trak rss_aac_asc m 1 false) /\ size (write_trak rss_aac_asc m 1 false) <= 1400).
  { rewrite write_trak_video by done. fold (v_trak m).
    split; [by apply appends_in_box|rewrite size_box by done; lia]. }
  assert (A8 : appends (write_trak rss_aac_asc m 2 true) /\ size (write_trak rss_aac_asc m 2 true) <= 1400).
  { rewrite write_trak_audio. fold a_trak. split; [by apply appends_in_box|rewrite size_box by done; lia]. }
  destruct A7 as [A7 S7], A8 as [A8 S8]. unfold moov_box. fold (moov_body m). apply is_box_in'; [reflexivity| |].
  - unfold moov_body. rewrite Hv. destruct (mx_has_audio m); cbn [app]; repeat (apply list.Forall_cons_2; [done || apply A6|]);
      by apply list.Forall_nil_2.
  - unfold moov_body. rewrite Hv.
    destruct (mx_has_audio m); cbn [app]; rewrite !sizes_cons, sizes_nil, (proj2 (A6 _ _)); lia.
Qed.

Lemma header_bytes m r m' :
  rmr_mux_start rss_aac_asc m = (r, m') -> 0 <= r ->
  sink_bytes (mx_sink m') = sink_bytes (mx_sink m) ++ out [ftyp_box; moov_box rss_aac_asc m].
Proof.
  unfold rmr_mux_start. destruct (negb _ && _); [intros [= <- <-]; lia|].
  unfold write_ftyp. destruct (bb_flush _) as [r1 m1] eqn:E1.
  destruct (Z.ltb_spec r1 0); [intros [= <- <-]; lia|].
  apply bb_flush_ok in E1 as [S1 (w1 & b1 & ->)]; [|done].
  unfold write_moov. destruct (bb_flush _) as [r2 m2] eqn:E2.
  destruct (Z.ltb_spec r2 0); intros [= <- <-] Hr; [lia|].
  apply bb_flush_ok in E2 as [S2 _]; [|done]. rewrite S2.
  match goal with |- sink_bytes (mx_sink ?x) ++ _ = _ => change (mx_sink x) with w1 end.
  assert (T1 : sink_bytes w1 = sink_bytes (mx_sink m) ++ ftyp_box []) by exact S1.
  rewrite T1, !out_cons, <- app_assoc. change (out []) with (@nil Z). rewrite app_nil_r. done.
Qed.

Lemma ftyp_is_box : exists f, is_box ftyp_box ("ftyp"%string, f).
Proof. eexists. apply is_box_in'; [reflexivity|auto 20 with mux|by szs]. Qed.

Lemma read_avcc_start m r m' :
  is_h264 m -> small_sets m -> mx_has_video m = true -> sink_bytes (mx_sink m) = [] ->
  rmr_mux_start rss_aac_asc m = (r, m') -> 0 <= r ->
  read_avcc (sink_bytes (mx_sink m')) = Some (mx_sps m, mx_pps m).
Proof.
  intros Hc Hs Hv Hw Hst Hr. rewrite (header_bytes _ _ _ Hst Hr), Hw, app_nil_l.
  destruct (moov_descend m Hc Hs Hv) as [Hm Ht]. destruct ftyp_is_box as [f Hf].
  assert (Hd : descend "moov" (out [ftyp_box; moov_box rss_aac_asc m]) = Some (out (moov_body m))).
  { apply (descend_out "moov" _ [("ftyp"%string, f); ("moov"%string, out (moov_body m))]);
    [constructor; [exact Hf|constructor; [exact Hm|constructor]]|apply Nat.leb_le; reflexivity|reflexivity]. }
  apply (bind_run _ _ _ _ Hd). apply (bind_run _ _ _ _ Ht).
  eapply bind_run; [|by apply stsd_descend].
  unfold v_trak. refine (track_descend (write_stsd_avc1 m) 1 (vp_width (mx_video m))
    (vp_height (mx_video m)) (vp_timescale (mx_video m)) "vide" "Raptor Video" false _ _ _ _ _);
    [apply appends_stsd_avc1|by apply size_stsd_avc1|by vm_compute|by apply stsd_is_box].
Qed.
End header.

(** C40: A recording's header carries the decoder's parameter sets to where a
    player looks for them.  Whatever the SPS, PPS, picture size and audio
    codec, if an H.264 muxer is created, configured and started with success,
    following moov, trak, mdia, minf, stbl, stsd, avc1, avcC through the bytes
    written so far yields exactly the SPS and PPS that were given. *)
Theorem rmr_header_roundtrip {W} `{!ByteSink W} (rss_aac_asc : Z -> Z -> Z -> option (list Z))
    (asc_short : forall aot rate ch asc, rss_aac_asc aot rate ch = Some asc -> Z.of_nat (length asc) <= 255)
    (w : W) params sps pps vps audio m1 r m2 :
  sink_bytes w = [] -> vp_codec params = RMR_CODEC_H264 ->
  rmr_mux_set_video params sps pps vps (rmr_mux_create w) = (0, m1) ->
  rmr_mux_start rss_aac_asc
    match audio with Some a => snd (rmr_mux_set_audio a m1) | None => m1 end = (r, m2) -> 0 <= r ->
  read_avcc (sink_bytes (mx_sink m2)) = Some (sps, pps).
Proof.
  intros Hw Hc Hset Hst Hr. unfold rmr_mux_set_video in Hset. rewrite Hc in Hset.
  change (RMR_CODEC_H264 =? RMR_CODEC_MJPEG) with false in Hset. cbv beta iota in Hset.
  destruct ((length sps =? 0)%nat || _); [done|].
  destruct ((256 <? length sps)%nat || (128 <? length pps)%nat) eqn:El; [done|].
  apply orb_false_iff in El as [El1%Nat.ltb_ge El2%Nat.ltb_ge].
  destruct ((0 <? length vps)%nat && (256 <? length vps)%nat); [done|].
  set (m := match audio with Some a => _ | None => m1 end) in Hst.
  assert (Hm : mx_sps m = sps /\ mx_pps m = pps /\ mx_video m = params /\ mx_has_video m = true /\ mx_sink m = w).
  { injection Hset as <-. unfold m. by destruct audio, (0 <? length vps)%nat. }
  destruct Hm as (M1 & M2 & M3 & M4 & M5). clearbody m. rewrite <- M1, <- M2.
  eapply (read_avcc_start rss_aac_asc asc_short m r m2); try done.
  - unfold is_h264. by rewrite M3.
  - unfold small_sets. by rewrite M1, M2.
  - by rewrite M5.
Qed.

Definition demo_asc (aot rate ch : Z) : option (list Z) := Some [18; 16].
Definition demo_video : rmr_video_params := mk_rmr_video_params RMR_CODEC_H264 1920 1080 90000 3600.
Definition demo_audio : rmr_audio_params := mk_rmr_audio_params RMR_AUDIO_AAC 16000 1 16 2.
Definition demo_set : rmr_mux (list Z) :=
  snd (rmr_mux_set_video demo_video [103; 66; 0; 30] [104; 206] [] (rmr_mux_create [])).
Definition demo_started : rmr_mux (list Z) :=
  snd (rmr_mux_start demo_asc (snd (rmr_mux_set_audio demo_audio demo_set))).

Lemma rmr_header_roundtrip_witness :
  read_avcc (sink_bytes (mx_sink demo_started)) = Some ([103; 66; 0; 30], [104; 206]).
Proof.
  apply (rmr_header_roundtrip demo_asc ltac:(by intros ? ? ? ? [= <-]) [] demo_video _ _ []
    (Some demo_audio) demo_set 0); by vm_compute.
Defined.

(** The box of the trailer and what a reader of its back pointer finds: the
    mfro's last word, and its version and flags word. *)
Definition mfro_fields (l : list Z) : option (Z * Z) :=
  mfra ← descend "mfra" l; mfro ← descend "mfro" mfra; Some (rd32 4 mfro, rd32 0 mfro).

(** The trailer does not point back.  The mfro box the code writes has a
    size field of zero, and the length of the mfra box where its version and
    flags belong: the patch goes one word too early, so a reader that looks
    up the mfra through the file's last four bytes finds nothing. *)
Theorem rmr_mfro_misplaced {W} `{!ByteSink W} (m : rmr_mux W) r m' :
  idle m -> rmr_mux_finalize m = (r, m') -> 0 <= r ->
  exists tail, sink_bytes (mx_sink m') = sink_bytes (mx_sink m) ++ tail /\
    length tail = 24%nat /\ mfro_fields tail = Some (0, 24).
Proof.
  intros (H1 & H2 & _) . unfold rmr_mux_finalize. rewrite H1, H2. cbn [length Nat.ltb Nat.leb orb].
  destruct (Z.ltb_spec 0 0); [lia|]. intros Hf Hr. apply bb_flush_ok in Hf as [Hs _]; [|done].
  exists mfra_box. split_and!; [exact Hs|by vm_compute..].
Qed.

Lemma rmr_mfro_misplaced_witness :
  exists tail, sink_bytes (mx_sink (snd (rmr_mux_finalize demo_mux))) = sink_bytes (mx_sink demo_mux) ++ tail /\
    length tail = 24%nat /\ mfro_fields tail = Some (0, 24).
Proof. apply (rmr_mfro_misplaced demo_mux 0); by vm_compute. Defined.
