(* ===== verification/Nal.v ===== *)
(** * rmr: Annex B to length-prefixed NAL units (rmr/rmr_nal.c)

    The start-code scanner, the converter that drops parameter sets, the
    parameter-set extractor; and the theorems that converting an Annex B
    stream of well-formed NAL units keeps exactly the units it should. *)

From stdpp Require Import list.
From S2P Require Import Prelude Mux MuxProps.

(** ** The code *)

(** find_start_code: how many bytes before the start code, and its length.
    A pointer [p] below [end] is the suffix from [p]. *)
Fixpoint find_start_code (l : list Z) : option (nat * nat) :=
  match l with
  | a :: ((b :: c :: r) as t) =>
      let next := (fun '(off, sc_len) => (S off, sc_len)) <$> find_start_code t in
      if (a =? 0) && (b =? 0) then
        if c =? 1 then Some (0, 3)%nat
        else match r with
             | d :: _ => if (c =? 0) && (d =? 1) then Some (0, 4)%nat else next
             | [] => next
             end
      else next
  | _ => None
  end.

Definition h264_is_param (first_byte : Z) : bool :=
  let nal_type := Z.land first_byte 31 in (nal_type =? 7) || (nal_type =? 8).

Definition h265_is_param (first_byte : Z) : bool :=
  let nal_type := Z.land (Z.shiftr first_byte 1) 63 in
  (nal_type =? 32) || (nal_type =? 33) || (nal_type =? 34).

Definition is_param (codec : Z) (nal : list Z) : bool :=
  if codec =? 1 then h265_is_param (nal !!! 0%nat) else h264_is_param (nal !!! 0%nat).

(** [while (nal_end > nal_start && nal_end[-1] == 0) nal_end--]. *)
Fixpoint drop_zeros (l : list Z) : list Z :=
  match l with
  | x :: t => if x =? 0 then drop_zeros t else l
  | [] => []
  end.
Definition trim_zeros (l : list Z) : list Z := reverse (drop_zeros (reverse l)).

(** One round of both loops, at a start code: the unit, and the next start
    code with the bytes from it on.  [None] when nothing follows the code. *)
Definition nal_at (l : list Z) (sc_len : nat) : option (list Z * option (list Z * nat)) :=
  match drop sc_len l with
  | [] => None
  | nal_start =>
      match find_start_code nal_start with
      | Some (n, next_len) => Some (trim_zeros (take n nal_start), Some (drop n nal_start, next_len))
      | None => Some (trim_zeros nal_start, None)
      end
  end.

(** The first start code of a buffer. *)
Definition first_code (l : list Z) : option (list Z * nat) :=
  (fun '(n, sc_len) => (drop n l, sc_len)) <$> find_start_code l.

Definition nal_prefix (nal : list Z) : list Z := w32 (Z.of_nat (length nal)).

(** The conversion loop; every round consumes its start code, so the length
    of the buffer is enough fuel. *)
Fixpoint avcc_loop (fuel : nat) (codec dst_cap : Z) (sc : option (list Z * nat)) (out : list Z)
    : option (list Z) :=
  match fuel, sc with
  | S fuel, Some (l, sc_len) =>
      match nal_at l sc_len with
      | None => Some out
      | Some (nal, next) =>
          if (length nal =? 0)%nat then avcc_loop fuel codec dst_cap next out else
          if negb (is_param codec nal) then
            if u32 (Z.of_nat (length out) + 4 + Z.of_nat (length nal)) >? dst_cap then None
            else avcc_loop fuel codec dst_cap next (out ++ nal_prefix nal ++ nal)
          else avcc_loop fuel codec dst_cap next out
      end
  | _, _ => Some out
  end.

(** [None] is the return value -1; otherwise what [dst] holds. *)
Definition rmr_annexb_to_avcc (src : list Z) (dst_cap codec : Z) : option (list Z) :=
  avcc_loop (length src) codec dst_cap (first_code src) [].

Record rmr_codec_params := mk_rmr_codec_params {
  cp_sps : list Z; cp_pps : list Z; cp_vps : list Z; cp_ready : bool
}.

#[export] Instance eta_rmr_codec_params : Settable rmr_codec_params := fun p =>
  mk_rmr_codec_params (cp_sps p) (cp_pps p) (cp_vps p) (cp_ready p).

(** The body of the extractor's loop; a set that does not fit is skipped. *)
Definition store_param (codec : Z) (nal : list Z) (p : rmr_codec_params) : rmr_codec_params :=
  if codec =? 1 then
    let nal_type := Z.land (Z.shiftr (nal !!! 0%nat) 1) 63 in
    if nal_type =? 32 then if (256 <? length nal)%nat then p else p <| cp_vps := nal |>
    else if nal_type =? 33 then if (256 <? length nal)%nat then p else p <| cp_sps := nal |>
    else if nal_type =? 34 then if (128 <? length nal)%nat then p else p <| cp_pps := nal |>
    else p
  else
    let nal_type := Z.land (nal !!! 0%nat) 31 in
    if nal_type =? 7 then if (256 <? length nal)%nat then p else p <| cp_sps := nal |>
    else if nal_type =? 8 then if (128 <? length nal)%nat then p else p <| cp_pps := nal |>
    else p.

Fixpoint extract_loop (fuel : nat) (codec : Z) (sc : option (list Z * nat)) (p : rmr_codec_params)
    : rmr_codec_params :=
  match fuel, sc with
  | S fuel, Some (l, sc_len) =>
      match nal_at l sc_len with
      | None => p
      | Some (nal, next) =>
          if (length nal =? 0)%nat then extract_loop fuel codec next p
          else extract_loop fuel codec next (store_param codec nal p)
      end
  | _, _ => p
  end.

Definition rmr_extract_params (data : list Z) (codec : Z) (p : rmr_codec_params) : rmr_codec_params :=
  if cp_ready p then p else
  let p := extract_loop (length data) codec (first_code data) p in
  if (0 <? length (cp_sps p))%nat && (0 <? length (cp_pps p))%nat then p <| cp_ready := true |> else p.

(** ** Annex B streams *)

(** A start code of three bytes, or of four. *)
Definition start_code (long : bool) : list Z := if long then [0; 0; 0; 1] else [0; 0; 1].

Definition annexb (nals : list (bool * list Z)) : list Z :=
  concat ((fun '(long, nal) => start_code long ++ nal) <$> nals).

(** No start code, and no run of three zeros, inside. *)
Fixpoint no_code (l : list Z) : bool :=
  match l with
  | a :: ((b :: c :: _) as t) => negb ((a =? 0) && (b =? 0) && ((c =? 0) || (c =? 1))) && no_code t
  | _ => true
  end.

(** What both standards require of a unit: emulation prevention has been
    applied, and the last byte is not zero. *)
Definition clean (nal : list Z) : bool :=
  no_code nal && match last nal with Some x => negb (x =? 0) | None => false end.

Definition clean_all (nals : list (bool * list Z)) : Prop := Forall (fun n => clean (snd n) = true) nals.

Lemma clean_cons a b t : clean (a :: b :: t) = true -> clean (b :: t) = true.
Proof.
  unfold clean. intros [Hn Hl]%andb_true_iff. apply andb_true_iff. split; [|exact Hl].
  destruct t; [done|]. cbn [no_code] in Hn. by apply andb_true_iff in Hn as [_ Hn].
Qed.

(** A round of the scanner that does not stop here. *)
Lemma find_skip a b c r :
  ((a =? 0) && (b =? 0) && ((c =? 0) || (c =? 1))) = false ->
  find_start_code (a :: b :: c :: r) =
  (fun '(off, sc_len) => (S off, sc_len)) <$> find_start_code (b :: c :: r).
Proof.
  intros H. change (find_start_code (a :: b :: c :: r)) with
    (let next := (fun '(off, sc_len) => (S off, sc_len)) <$> find_start_code (b :: c :: r) in
     if (a =? 0) && (b =? 0) then
       if c =? 1 then Some (0, 3)%nat
       else match r with
            | d :: _ => if (c =? 0) && (d =? 1) then Some (0, 4)%nat else next
            | [] => next
            end
     else next).
  cbv zeta. destruct ((a =? 0) && (b =? 0)); [|done]. simpl in H. apply orb_false_iff in H as [-> ->].
  by destruct r.
Qed.

Lemma find_code_at long rest :
  find_start_code (start_code long ++ rest) = Some (0, length (start_code long))%nat.
Proof. by destruct long. Qed.

Lemma find_past_nal nal long rest :
  clean nal = true ->
  find_start_code (nal ++ start_code long ++ rest) = Some (length nal, length (start_code long)).
Proof.
  induction nal as [|a nal IH]; [done|]. intros Hc. destruct nal as [|b nal].
  - unfold clean in Hc. simpl in Hc. destruct (a =? 0) eqn:Ea; [done|].
    destruct long; cbn [app start_code]; rewrite find_skip by (by rewrite Ea); done.
  - specialize (IH (clean_cons _ _ _ Hc)). 
    assert (Hs : exists c t, (b :: nal) ++ start_code long ++ rest = b :: c :: t /\
      ((a =? 0) && (b =? 0) && ((c =? 0) || (c =? 1))) = false).
    { unfold clean in Hc. destruct nal as [|c nal].
      - simpl in Hc. destruct (b =? 0); [done|].
        destruct long; eexists _, _; (split; [reflexivity|]); by rewrite andb_false_r.
      - eexists _, _. split; [done|]. apply andb_true_iff in Hc as [Hc _].
        cbn [no_code] in Hc. apply andb_true_iff in Hc as [Hc _]. by apply negb_true_iff. }
    destruct Hs as (c & t & Hs & Hno). cbn [app] in Hs, IH |- *. rewrite Hs in IH |- *.
    rewrite find_skip, IH by done. done.
Qed.

Lemma find_none nal : clean nal = true -> find_start_code nal = None.
Proof.
  induction nal as [|a nal IH]; [done|]. intros Hc. destruct nal as [|b nal]; [done|].
  specialize (IH (clean_cons _ _ _ Hc)). destruct nal as [|c nal]; [done|].
  rewrite find_skip, IH; [done|]. unfold clean in Hc. apply andb_true_iff in Hc as [Hc _].
  cbn [no_code] in Hc. apply andb_true_iff in Hc as [Hc _]. by apply negb_true_iff.
Qed.

Lemma trim_clean nal : clean nal = true -> trim_zeros nal = nal.
Proof.
  unfold clean, trim_zeros. intros [_ Hl]%andb_true_iff.
  destruct nal as [|x nal _] using rev_ind; [done|]. rewrite last_snoc in Hl.
  rewrite reverse_snoc. cbn [drop_zeros]. apply negb_true_iff in Hl. rewrite Hl.
  by rewrite reverse_cons, reverse_involutive.
Qed.

Lemma clean_nonempty nal : clean nal = true -> nal <> [].
Proof. by destruct nal. Qed.

(** Where a stream starts. *)
Definition code_of (nals : list (bool * list Z)) : option (list Z * nat) :=
  match nals with
  | [] => None
  | (long, _) :: _ => Some (annexb nals, length (start_code long))
  end.

Lemma annexb_cons long nal nals : annexb ((long, nal) :: nals) = start_code long ++ nal ++ annexb nals.
Proof. unfold annexb. cbn [fmap list_fmap concat]. by rewrite <- app_assoc. Qed.

Lemma first_code_annexb nals : first_code (annexb nals) = code_of nals.
Proof.
  destruct nals as [|[long nal] nals]; [done|]. unfold first_code, code_of.
  rewrite annexb_cons, find_code_at. done.
Qed.

Lemma nal_at_found l sc_len s :
  drop sc_len l = s -> s <> [] ->
  nal_at l sc_len =
  match find_start_code s with
  | Some (n, next_len) => Some (trim_zeros (take n s), Some (drop n s, next_len))
  | None => Some (trim_zeros s, None)
  end.
Proof. intros <-. unfold nal_at. by destruct (drop sc_len l). Qed.

Lemma nal_at_annexb long nal nals :
  clean nal = true ->
  nal_at (annexb ((long, nal) :: nals)) (length (start_code long)) = Some (nal, code_of nals).
Proof.
  intros Hc. pose proof (clean_nonempty _ Hc) as Hne.
  rewrite (nal_at_found _ _ (nal ++ annexb nals));
    [|by rewrite annexb_cons, drop_app_length|by destruct nal].
  destruct nals as [|[long' nal'] nals].
  - change (annexb []) with (@nil Z). by rewrite app_nil_r, find_none, trim_clean by done.
  - rewrite annexb_cons, find_past_nal by done. rewrite take_app_length, drop_app_length, trim_clean by done.
    unfold code_of. by rewrite annexb_cons.
Qed.

(** The extractor is a fold over the units. *)
Lemma extract_loop_annexb fuel codec nals p :
  clean_all nals -> (length nals <= fuel)%nat ->
  extract_loop fuel codec (code_of nals) p = fold_left (fun p n => store_param codec (snd n) p) nals p.
Proof.
  intros Hc. revert fuel p. induction Hc as [|[long nal] nals Hn Hns IH]; intros fuel p Hf.
  { by destruct fuel. }
  destruct fuel as [|fuel]; [simpl in Hf; lia|]. cbn [extract_loop code_of snd fold_left] in *.
  rewrite nal_at_annexb by done. pose proof (clean_nonempty _ Hn) as Hne.
  destruct (Nat.eqb_spec (length nal) 0) as [E|_]; [by apply nil_length_inv in E|].
  apply IH. simpl in Hf. lia.
Qed.

Lemma annexb_length nals : (length nals <= length (annexb nals))%nat.
Proof.
  induction nals as [|[long nal] nals IH]; [simpl; lia|]. rewrite annexb_cons, !length_app.
  destruct long; simpl; lia.
Qed.

(** ** The length-prefixed side *)

Definition prefixed (nals : list (list Z)) : list Z := concat ((fun n => nal_prefix n ++ n) <$> nals).

(** A reader of length-prefixed samples, at most [n] units. *)
Fixpoint split_avcc (n : nat) (l : list Z) : option (list (list Z)) :=
  match l, n with
  | [], _ => Some []
  | _, O => None
  | _, S n =>
      let len := Z.to_nat (be_val (take 4 l)) in
      if (length l <? 4 + len)%nat then None else
      cons (take len (drop 4 l)) <$> split_avcc n (drop (4 + len) l)
  end.

Definition kept (codec : Z) (nals : list (bool * list Z)) : list (list Z) :=
  List.filter (fun n => negb (is_param codec n)) (snd <$> nals).

Lemma kept_cons codec long nal nals :
  kept codec ((long, nal) :: nals) =
  (if negb (is_param codec nal) then cons nal else id) (kept codec nals).
Proof. unfold kept. cbn [fmap list_fmap snd List.filter]. by destruct (negb _). Qed.

Lemma prefixed_cons n nals : prefixed (n :: nals) = (nal_prefix n ++ n) ++ prefixed nals.
Proof. done. Qed.

Lemma avcc_loop_annexb fuel codec cap nals out :
  clean_all nals -> (length nals <= fuel)%nat ->
  Z.of_nat (length out + length (prefixed (kept codec nals))) < 2 ^ 32 ->
  avcc_loop fuel codec cap (code_of nals) out =
  if (length (kept codec nals) =? 0)%nat ||
     (Z.of_nat (length out + length (prefixed (kept codec nals))) <=? cap)
  then Some (out ++ prefixed (kept codec nals)) else None.
Proof.
  intros Hc. revert fuel out. induction Hc as [|[long nal] nals Hn Hns IH]; intros fuel out Hf Hb.
  { cbn. rewrite app_nil_r. by destruct fuel. }
  destruct fuel as [|fuel]; [simpl in Hf; lia|]. cbn [avcc_loop code_of snd] in *.
  rewrite nal_at_annexb by done. pose proof (clean_nonempty _ Hn) as Hne.
  destruct (Nat.eqb_spec (length nal) 0) as [E|_]; [by apply nil_length_inv in E|].
  rewrite kept_cons in *. destruct (is_param codec nal); cbn [negb id] in *.
  { apply IH; [simpl in Hf; lia|done]. }
  rewrite prefixed_cons, !length_app in *. change (length (nal_prefix nal)) with 4%nat in *.
  rewrite uwrap_id by (unfold in_u; lia). cbn [length Nat.eqb orb].
  destruct (Z.gtb_spec (Z.of_nat (length out) + 4 + Z.of_nat (length nal)) cap) as [Hgt|Hle].
  { by replace (_ <=? cap) with false by (symmetry; apply Z.leb_gt; lia). }
  rewrite IH; [|simpl in Hf; lia|rewrite !length_app; change (length (nal_prefix nal)) with 4%nat; lia].
  rewrite !length_app. change (length (nal_prefix nal)) with 4%nat. rewrite <- !app_assoc.
  replace (length out + (4 + length nal) + length (prefixed (kept codec nals)))%nat with
    (length out + (4 + length nal + length (prefixed (kept codec nals))))%nat by lia.
  destruct (Nat.eqb_spec (length (kept codec nals)) 0) as [E|_]; [|done].
  apply nil_length_inv in E. rewrite E in *. change (length (prefixed [])) with 0%nat in *. cbn [orb].
  by replace (_ <=? cap) with true by (symmetry; apply Z.leb_le; lia).
Qed.

Lemma split_avcc_cons x rest n :
  Z.of_nat (length x) < 2 ^ 32 ->
  split_avcc (S n) ((nal_prefix x ++ x) ++ rest) = cons x <$> split_avcc n rest.
Proof.
  intros Hx. rewrite <- app_assoc. unfold nal_prefix. set (v := Z.of_nat (length x)).
  assert (Hv : Z.to_nat (be_val (take 4 (w32 v ++ x ++ rest))) = length x).
  { change 4%nat with (length (w32 v)). rewrite take_app_length, w32_val; [lia|unfold in_u; lia]. }
  remember (w32 v ++ x ++ rest) as l eqn:El. assert (Hne : l <> []) by (rewrite El; done).
  destruct l as [|y l]; [done|]. cbn [split_avcc]. rewrite Hv, El, !length_app, w32_length.
  destruct (Nat.ltb_spec (4 + (length x + length rest)) (4 + length x)); [lia|].
  change (drop 4 (w32 v ++ x ++ rest)) with (x ++ rest). rewrite take_app_length.
  rewrite <- drop_drop. change (drop 4 (w32 v ++ x ++ rest)) with (x ++ rest).
  by rewrite drop_app_length.
Qed.

Lemma split_prefixed nals n :
  Forall (fun x => Z.of_nat (length x) < 2 ^ 32) nals -> (length nals <= n)%nat ->
  split_avcc n (prefixed nals) = Some nals.
Proof.
  intros Hl. revert n. induction Hl as [|x nals Hx Hl IH]; intros n Hn; [by destruct n|].
  destruct n as [|n]; [simpl in Hn; lia|]. rewrite prefixed_cons, split_avcc_cons by done.
  rewrite IH; [done|simpl in Hn; lia].
Qed.

Lemma prefixed_kept_length codec nals :
  clean_all nals -> (length (prefixed (kept codec nals)) <= 2 * length (annexb nals))%nat.
Proof.
  intros Hc. induction Hc as [|[long nal] nals Hn _ IH]; [done|].
  rewrite kept_cons, annexb_cons, !length_app. pose proof (clean_nonempty _ Hn) as Hne.
  assert (3 <= length (start_code long))%nat by (destruct long; simpl; lia).
  destruct (negb _); cbn [id]; [|lia]. rewrite prefixed_cons, !length_app.
  change (length (nal_prefix nal)) with 4%nat. destruct nal; [done|]. simpl in *. lia.
Qed.

Lemma kept_small codec nals :
  Z.of_nat (length (annexb nals)) < 2 ^ 31 ->
  Forall (fun x => Z.of_nat (length x) < 2 ^ 32) (kept codec nals) /\
  (length (kept codec nals) <= length nals)%nat.
Proof.
  intros Hl. induction nals as [|[long nal] nals IH]; [split; [constructor|done]|].
  rewrite annexb_cons, !length_app in Hl. destruct IH as [IH1 IH2]; [lia|].
  rewrite kept_cons. destruct (negb _); cbn [id]; split; simpl; auto; try lia.
  constructor; [lia|done].
Qed.

(** Converting to length prefixes keeps the picture.  For every Annex B
    stream of well-formed units, whatever the mix of three- and four-byte start
    codes, the converter writes a sample that splits back into exactly the
    stream's units in order, parameter sets left out; it reports an error
    precisely when the sample does not fit the destination. *)
Theorem rmr_annexb_roundtrip nals codec cap :
  clean_all nals -> Z.of_nat (length (annexb nals)) < 2 ^ 31 -> 0 <= cap ->
  if Z.of_nat (length (prefixed (kept codec nals))) <=? cap then
    exists out, rmr_annexb_to_avcc (annexb nals) cap codec = Some out /\
      split_avcc (length nals) out = Some (kept codec nals)
  else rmr_annexb_to_avcc (annexb nals) cap codec = None.
Proof.
  intros Hc Hl Hcap. pose proof (prefixed_kept_length codec nals Hc) as Hp.
  destruct (kept_small codec nals Hl) as [Hk1 Hk2].
  unfold rmr_annexb_to_avcc. rewrite first_code_annexb.
  rewrite avcc_loop_annexb; [|done|apply annexb_length|cbn [length]; lia]. cbn [length Nat.add app].
  destruct (Z.leb_spec (Z.of_nat (length (prefixed (kept codec nals)))) cap) as [Hle|Hgt].
  - rewrite orb_true_r. eexists. split; [done|]. by apply split_prefixed.
  - destruct (Nat.eqb_spec (length (kept codec nals)) 0) as [E|_]; [|done].
    apply nil_length_inv in E. rewrite E in Hgt. change (length (prefixed [])) with 0%nat in Hgt. lia.
Qed.

Definition demo_nals : list (bool * list Z) :=
  [(true, [103; 66; 30]); (true, [104; 206]); (false, [101; 0; 0; 3; 9]); (true, [65; 1])].

Lemma rmr_annexb_roundtrip_witness :
  exists out, rmr_annexb_to_avcc (annexb demo_nals) 64 0 = Some out /\
    split_avcc 4 out = Some [[101; 0; 0; 3; 9]; [65; 1]].
Proof.
  refine (rmr_annexb_roundtrip demo_nals 0 64 _ _ _); [by repeat constructor|by vm_compute|lia].
Defined.

(** ** Parameter sets *)

(** The units the extractor takes for a set: right type, and small enough. *)
Definition sps_like (codec : Z) (n : list Z) : bool :=
  (if codec =? 1 then Z.land (Z.shiftr (n !!! 0%nat) 1) 63 =? 33 else Z.land (n !!! 0%nat) 31 =? 7)
  && (length n <=? 256)%nat.
Definition pps_like (codec : Z) (n : list Z) : bool :=
  (if codec =? 1 then Z.land (Z.shiftr (n !!! 0%nat) 1) 63 =? 34 else Z.land (n !!! 0%nat) 31 =? 8)
  && (length n <=? 128)%nat.

(** The newest unit of a kind, else what was known before. *)
Definition newest (kind : list Z -> bool) (nals : list (bool * list Z)) (old : list Z) : list Z :=
  fold_left (fun acc n => if kind (snd n) then snd n else acc) nals old.

Lemma store_param_sets codec n p :
  cp_sps (store_param codec n p) = (if sps_like codec n then n else cp_sps p) /\
  cp_pps (store_param codec n p) = (if pps_like codec n then n else cp_pps p) /\
  cp_ready (store_param codec n p) = cp_ready p.
Proof.
  unfold store_param, sps_like, pps_like.
  destruct (Nat.ltb_spec 256 (length n)), (Nat.ltb_spec 128 (length n)),
    (Nat.leb_spec (length n) 256), (Nat.leb_spec (length n) 128); try lia;
  destruct (codec =? 1); rewrite ?andb_true_r, ?andb_false_r;
    repeat match goal with |- context [?x =? ?y] => destruct (Z.eqb_spec x y) end; try lia; done.
Qed.

Lemma fold_store codec nals p :
  let q := fold_left (fun p n => store_param codec (snd n) p) nals p in
  cp_sps q = newest (sps_like codec) nals (cp_sps p) /\
  cp_pps q = newest (pps_like codec) nals (cp_pps p) /\ cp_ready q = cp_ready p.
Proof.
  revert p. induction nals as [|n nals IH]; intros p; [done|]. cbn [fold_left newest].
  destruct (store_param_sets codec (snd n) p) as (H1 & H2 & H3).
  destruct (IH (store_param codec (snd n) p)) as (I1 & I2 & I3). cbn zeta in *.
  unfold newest in *. cbn [fold_left]. rewrite I1, I2, I3, H1, H2, H3. done.
Qed.

Lemma newest_small kind nals old n :
  (forall x, kind x = true -> (length x <= n)%nat) -> (length old <= n)%nat ->
  (length (newest kind nals old) <= n)%nat.
Proof.
  intros Hk. revert old. induction nals as [|x nals IH]; intros old Ho; [done|].
  apply IH. destruct (kind (snd x)) eqn:E; auto.
Qed.

(** The extractor captures what the muxer accepts.  On a stream of
    well-formed units it ends up with the newest SPS and the newest PPS that
    fit (or what it had), it is ready exactly when it has both, and sets it
    calls ready are taken by the muxer's configuration without error. *)
Theorem rmr_params_extracted {W} nals codec p (m : rmr_mux W) params :
  clean_all nals -> cp_ready p = false ->
  (length (cp_sps p) <= 256)%nat -> (length (cp_pps p) <= 128)%nat ->
  let q := rmr_extract_params (annexb nals) codec p in
  cp_sps q = newest (sps_like codec) nals (cp_sps p) /\
  cp_pps q = newest (pps_like codec) nals (cp_pps p) /\
  (cp_ready q = true <-> cp_sps q <> [] /\ cp_pps q <> []) /\
  (cp_ready q = true -> fst (rmr_mux_set_video params (cp_sps q) (cp_pps q) [] m) = 0).
Proof.
  intros Hc Hr Hs Hp. unfold rmr_extract_params. rewrite Hr, first_code_annexb.
  rewrite extract_loop_annexb by (done || apply annexb_length).
  destruct (fold_store codec nals p) as (F1 & F2 & F3).
  set (q0 := fold_left _ nals p) in *. clearbody q0. rewrite Hr in F3.
  assert (L1 : (length (cp_sps q0) <= 256)%nat).
  { rewrite F1. apply newest_small; [|done]. intros x [_ Hx]%andb_true_iff. by apply Nat.leb_le. }
  assert (L2 : (length (cp_pps q0) <= 128)%nat).
  { rewrite F2. apply newest_small; [|done]. intros x [_ Hx]%andb_true_iff. by apply Nat.leb_le. }
  assert (Hset : cp_sps q0 <> [] -> cp_pps q0 <> [] ->
    fst (rmr_mux_set_video params (cp_sps q0) (cp_pps q0) [] m) = 0).
  { intros N1 N2. unfold rmr_mux_set_video. destruct (_ =? RMR_CODEC_MJPEG); [done|].
    destruct (Nat.eqb_spec (length (cp_sps q0)) 0) as [E|_]; [by apply nil_length_inv in E|].
    destruct (Nat.eqb_spec (length (cp_pps q0)) 0) as [E|_]; [by apply nil_length_inv in E|].
    destruct (Nat.ltb_spec 256 (length (cp_sps q0))); [lia|].
    destruct (Nat.ltb_spec 128 (length (cp_pps q0))); [lia|]. done. }
  destruct (cp_sps q0) as [|x s] eqn:E1, (cp_pps q0) as [|y t] eqn:E2;
    cbn [length Nat.ltb Nat.leb andb]; rewrite <- ?E1, <- ?E2 in *; cbn; rewrite ?E1, ?E2, ?F3 in *; naive_solver.
Qed.

Lemma rmr_params_extracted_witness :
  let q := rmr_extract_params (annexb demo_nals) 0 (mk_rmr_codec_params [] [] [] false) in
  cp_sps q = [103; 66; 30] /\ cp_pps q = [104; 206] /\
  (cp_ready q = true <-> cp_sps q <> [] /\ cp_pps q <> []) /\
  (cp_ready q = true -> fst (rmr_mux_set_video (mk_rmr_video_params 0 640 480 90000 0)
     (cp_sps q) (cp_pps q) [] (rmr_mux_create tt)) = 0).
Proof.
  refine (rmr_params_extracted demo_nals 0 (mk_rmr_codec_params [] [] [] false) (rmr_mux_create tt)
    (mk_rmr_video_params 0 640 480 90000 0) _ _ _ _); [by repeat constructor|done|simpl; lia|simpl; lia].
Defined.
