(* ===== verification/Prebuf.v ===== *)
(** * rmr: the pre-buffer of motion clips (rmr/rmr_prebuf.c)

    A slot ring over a byte region with a bump pointer that wraps to zero.
    The theorems: what it holds is a window of what was pushed; the frames
    that fit the region together come back byte for byte; the start of a clip
    is a keyframe; and, since the push evicts by slot and never by byte, an
    older slot may name bytes that have been overwritten. *)

From stdpp Require Import list.
From S2P Require Import Prelude.

(** ** The code *)

Definition UINT32_MAX : Z := 4294967295.

Record rmr_prebuf_slot := mk_rmr_prebuf_slot {
  sl_offset : Z; sl_length : Z; sl_timestamp : Z; sl_is_key : bool
}.

#[export] Instance slot_inhabited : Inhabited rmr_prebuf_slot := populate (mk_rmr_prebuf_slot 0 0 0 false).

Record rmr_prebuf := mk_rmr_prebuf {
  pb_slots : list rmr_prebuf_slot; pb_capacity : Z; pb_mask : Z;
  pb_write_idx : Z; pb_count : Z;
  pb_data : list Z; pb_data_size : Z; pb_data_head : Z
}.

(** [garbage] is what the fresh region holds; [alloc_ok], whether the three
    allocations succeed. *)
Definition rmr_prebuf_create (alloc_ok : bool) (garbage : list Z) (capacity data_size : Z)
    : option rmr_prebuf :=
  if (capacity =? 0) || negb (Z.land capacity (capacity - 1) =? 0) then None else
  if data_size =? 0 then None else
  if negb alloc_ok then None else
  Some (mk_rmr_prebuf (replicate (Z.to_nat capacity) (mk_rmr_prebuf_slot 0 0 0 false))
          capacity (capacity - 1) 0 0 garbage data_size 0).

(** [memcpy(pb->data + offset, data, len)]. *)
Definition blit (offset : nat) (d mem : list Z) : list Z :=
  take offset mem ++ d ++ drop (offset + length d) mem.

Definition rmr_prebuf_push (data : list Z) (timestamp : Z) (is_key : bool) (pb : rmr_prebuf) : rmr_prebuf :=
  let len := Z.of_nat (length data) in
  if (len =? 0) || (len >? pb_data_size pb) then pb else
  let offset := pb_data_head pb in
  let offset := if u32 (offset + len) >? pb_data_size pb then 0 else offset in
  let idx := Z.land (pb_write_idx pb) (pb_mask pb) in
  mk_rmr_prebuf (<[Z.to_nat idx := mk_rmr_prebuf_slot offset len timestamp is_key]> (pb_slots pb))
    (pb_capacity pb) (pb_mask pb) (u32 (pb_write_idx pb + 1))
    (if pb_count pb <? pb_capacity pb then pb_count pb + 1 else pb_count pb)
    (blit (Z.to_nat offset) data (pb_data pb)) (pb_data_size pb) (u32 (offset + len)).

(** [pb->slots[i & pb->mask]]. *)
Definition slot_at (pb : rmr_prebuf) (i : Z) : rmr_prebuf_slot :=
  pb_slots pb !!! Z.to_nat (Z.land i (pb_mask pb)).

(** [for (i = write_idx; i > start; i--)]: [n] rounds are left. *)
Fixpoint keyframe_loop (n : nat) (pb : rmr_prebuf) (newest_ts max_age_us i best : Z) : Z :=
  match n with
  | O => best
  | S n =>
      let s := slot_at pb (i - 1) in
      if negb (sl_is_key s) then keyframe_loop n pb newest_ts max_age_us (i - 1) best
      else if newest_ts - sl_timestamp s >=? max_age_us then i - 1
      else keyframe_loop n pb newest_ts max_age_us (i - 1) (i - 1)
  end.

Definition rmr_prebuf_find_keyframe (pb : rmr_prebuf) (max_age_us : Z) : Z :=
  if pb_count pb =? 0 then UINT32_MAX else
  let newest_ts := sl_timestamp (slot_at pb (u32 (pb_write_idx pb - 1))) in
  let start := u32 (pb_write_idx pb - pb_count pb) in
  keyframe_loop (Z.to_nat (pb_write_idx pb - start)) pb newest_ts max_age_us (pb_write_idx pb) UINT32_MAX.

(** [for (i = start; i < write_idx; i++)]. *)
Fixpoint frame_at_loop (n : nat) (pb : rmr_prebuf) (min_ts i : Z) : Z :=
  match n with
  | O => UINT32_MAX
  | S n => if sl_timestamp (slot_at pb i) >=? min_ts then i else frame_at_loop n pb min_ts (i + 1)
  end.

Definition rmr_prebuf_find_frame_at (pb : rmr_prebuf) (min_ts : Z) : Z :=
  if pb_count pb =? 0 then UINT32_MAX else
  let start := u32 (pb_write_idx pb - pb_count pb) in
  frame_at_loop (Z.to_nat (pb_write_idx pb - start)) pb min_ts start.

(** The bytes a slot names. *)
Definition slot_data (pb : rmr_prebuf) (s : rmr_prebuf_slot) : list Z :=
  take (Z.to_nat (sl_length s)) (drop (Z.to_nat (sl_offset s)) (pb_data pb)).

Section iterate.
Context {C : Type}.
(** The callback, on its context. *)
Variable fn : rmr_prebuf_slot -> list Z -> C -> Z * C.

Fixpoint iterate_loop (n : nat) (pb : rmr_prebuf) (i iterated : Z) (ctx : C) : Z * C :=
  match n with
  | O => (iterated, ctx)
  | S n =>
      let s := slot_at pb i in
      let '(r, ctx) := fn s (slot_data pb s) ctx in
      if negb (r =? 0) then (iterated, ctx) else iterate_loop n pb (i + 1) (iterated + 1) ctx
  end.

Definition rmr_prebuf_iterate (pb : rmr_prebuf) (start_idx : Z) (ctx : C) : Z * C :=
  if pb_count pb =? 0 then (-1, ctx) else
  let oldest := u32 (pb_write_idx pb - pb_count pb) in
  if (start_idx <? oldest) || (start_idx >=? pb_write_idx pb) then (-1, ctx) else
  iterate_loop (Z.to_nat (pb_write_idx pb - start_idx)) pb start_idx 0 ctx.
End iterate.

Definition rmr_prebuf_newest (pb : rmr_prebuf) : Z :=
  Z.land (u32 (pb_write_idx pb - 1)) (pb_mask pb).

Definition rmr_prebuf_timestamp (pb : rmr_prebuf) (abs_idx : Z) : Z := sl_timestamp (slot_at pb abs_idx).

(** ** What was pushed *)

Record pframe := mk_pframe { pf_data : list Z; pf_ts : Z; pf_key : bool }.

(** A pushed frame with where it went: the pass over the region, and the
    offset within it. *)
Record gframe := mk_gframe { g_frame : pframe; g_pass : Z; g_off : Z }.

Definition g_len (g : gframe) : Z := Z.of_nat (length (pf_data (g_frame g))).
(** Positions in the endless region of which the real one is a window. *)
Definition g_start (sz : Z) (g : gframe) : Z := g_pass g * sz + g_off g.
Definition g_slot (g : gframe) : rmr_prebuf_slot :=
  mk_rmr_prebuf_slot (g_off g) (g_len g) (pf_ts (g_frame g)) (pf_key (g_frame g)).

Definition push (f : pframe) (pb : rmr_prebuf) : rmr_prebuf :=
  rmr_prebuf_push (pf_data f) (pf_ts f) (pf_key f) pb.

Definition fits (sz : Z) (f : pframe) : Prop :=
  0 < Z.of_nat (length (pf_data f)) <= sz.

(** The invariant: the ghost history [gs], oldest first, and the head's pass. *)
Record pb_inv (gs : list gframe) (pass : Z) (pb : rmr_prebuf) : Prop := {
  pi_pow : exists k, 0 <= k < 32 /\ pb_capacity pb = 2 ^ k;
  pi_mask : pb_mask pb = pb_capacity pb - 1;
  pi_slots : Z.of_nat (length (pb_slots pb)) = pb_capacity pb;
  pi_size : Z.of_nat (length (pb_data pb)) = pb_data_size pb /\ 0 < pb_data_size pb < 2 ^ 31;
  pi_head : 0 <= pb_data_head pb <= pb_data_size pb;
  pi_idx : pb_write_idx pb = Z.of_nat (length gs);
  pi_count : pb_count pb = Z.min (Z.of_nat (length gs)) (pb_capacity pb);
  pi_frames : forall i g, gs !! i = Some g ->
    0 <= g_off g /\ 0 < g_len g /\ g_off g + g_len g <= pb_data_size pb /\
    g_start (pb_data_size pb) g + g_len g <= pass * pb_data_size pb + pb_data_head pb;
  pi_live : forall i g, gs !! i = Some g ->
    pass * pb_data_size pb + pb_data_head pb - pb_data_size pb <= g_start (pb_data_size pb) g ->
    slot_data pb (g_slot g) = pf_data (g_frame g);
  pi_table : forall i g, gs !! i = Some g ->
    Z.of_nat (length gs) - pb_count pb <= Z.of_nat i -> slot_at pb (Z.of_nat i) = g_slot g
}.

(** ** The region *)

Lemma slice_ext (l l' : list Z) o n :
  (forall j, (o <= j < o + n)%nat -> l !! j = l' !! j) -> take n (drop o l) = take n (drop o l').
Proof.
  intros H. apply list_eq. intros j. destruct (decide (j < n)%nat).
  - rewrite !lookup_take_lt, !lookup_drop by done. apply H. lia.
  - rewrite !lookup_take_ge by lia. done.
Qed.

Lemma blit_length off d mem :
  (off + length d <= length mem)%nat -> length (blit off d mem) = length mem.
Proof. intros H. unfold blit. rewrite !length_app, length_take, length_drop. lia. Qed.

Lemma blit_outside off d mem j :
  (off + length d <= length mem)%nat -> (j < off \/ off + length d <= j)%nat ->
  blit off d mem !! j = mem !! j.
Proof.
  intros Hl Hj. unfold blit. assert (Ht : length (take off mem) = off) by (rewrite length_take; lia).
  destruct (decide (j < off)%nat).
  - rewrite lookup_app_l by lia. by apply lookup_take_lt.
  - rewrite lookup_app_r, Ht by lia. rewrite lookup_app_r by lia. rewrite lookup_drop. f_equal. lia.
Qed.

Lemma blit_inside off d mem :
  (off + length d <= length mem)%nat -> take (length d) (drop off (blit off d mem)) = d.
Proof.
  intros Hl. unfold blit. assert (Ht : length (take off mem) = off) by (rewrite length_take; lia).
  rewrite <- Ht at 1. rewrite drop_app_length. apply take_app_length.
Qed.

Lemma land_mask i k : 0 <= k -> Z.land i (2 ^ k - 1) = i mod 2 ^ k.
Proof. intros Hk. rewrite <- Z.land_ones by done. by rewrite Z.ones_equiv. Qed.

(** Two indices within a window no wider than the table use different slots. *)
Lemma mod_inj i j n : 0 < n -> 0 <= i < j -> j - i < n -> i mod n <> j mod n.
Proof.
  intros Hn Hij Hd Heq. 
  assert (H : (j - i) mod n = 0) by (rewrite Zminus_mod, Heq, Z.sub_diag; apply Zmod_0_l).
  rewrite Z.mod_small in H; lia.
Qed.

Lemma lookup_app_Some' {A} (l : list A) x i y :
  (l ++ [x]) !! i = Some y -> l !! i = Some y \/ i = length l /\ x = y.
Proof.
  rewrite lookup_app_Some. intros [H|[Hl H]]; [by left|right].
  apply list_lookup_singleton_Some in H as [Hi ->]. split; [lia|done].
Qed.

(** ** The push keeps the invariant *)

(** Where the next frame goes. *)
Definition placed (pb : rmr_prebuf) (pass : Z) (f : pframe) : gframe :=
  if pb_data_head pb + Z.of_nat (length (pf_data f)) >? pb_data_size pb
  then mk_gframe f (pass + 1) 0 else mk_gframe f pass (pb_data_head pb).

Definition pushed_pass (pb : rmr_prebuf) (pass : Z) (f : pframe) : Z := g_pass (placed pb pass f).

Lemma push_eq gs pass pb f :
  pb_inv gs pass pb -> fits (pb_data_size pb) f -> Z.of_nat (length gs) + 1 < 2 ^ 32 ->
  let g := placed pb pass f in
  push f pb = mk_rmr_prebuf
    (<[Z.to_nat (Z.of_nat (length gs) mod pb_capacity pb) := g_slot g]> (pb_slots pb))
    (pb_capacity pb) (pb_mask pb) (Z.of_nat (length gs) + 1)
    (Z.min (Z.of_nat (length gs) + 1) (pb_capacity pb))
    (blit (Z.to_nat (g_off g)) (pf_data f) (pb_data pb)) (pb_data_size pb) (g_off g + g_len g).
Proof.
  intros [(k & Hk & Hcap) Hmask Hsl [Hdl Hsz] Hhd Hidx Hcnt Hfr _ _] [Hf1 Hf2] Hb g.
  assert (Hpos : 0 < 2 ^ k) by lia.
  unfold push, rmr_prebuf_push. set (len := Z.of_nat (length (pf_data f))) in *.
  destruct (Z.eqb_spec len 0); [lia|]. destruct (Z.gtb_spec len (pb_data_size pb)); [lia|]. cbn [orb].
  rewrite (uwrap_id 32 (pb_data_head pb + len)) by (unfold in_u; lia).
  rewrite Hidx, Hmask, Hcnt.
  replace (Z.land (Z.of_nat (length gs)) (pb_capacity pb - 1)) with
    (Z.of_nat (length gs) mod pb_capacity pb) by (rewrite Hcap; symmetry; apply land_mask; lia).
  rewrite (uwrap_id 32 (Z.of_nat (length gs) + 1)) by (unfold in_u; lia).
  unfold g, placed. fold len.
  destruct (Z.gtb_spec (pb_data_head pb + len) (pb_data_size pb)) as [Hgt|Hle];
    unfold g_slot, g_len; cbn [g_off g_frame]; fold len;
    rewrite ?(uwrap_id 32) by (unfold in_u; lia); f_equal; try done;
    destruct (Z.ltb_spec (Z.min (Z.of_nat (length gs)) (pb_capacity pb)) (pb_capacity pb)); lia.
Qed.

(** Facts about the place of the new frame. *)
Lemma placed_facts gs pass pb f :
  pb_inv gs pass pb -> fits (pb_data_size pb) f ->
  let g := placed pb pass f in
  0 <= g_off g /\ 0 < g_len g /\ g_off g + g_len g <= pb_data_size pb /\ g_frame g = f /\
  pass * pb_data_size pb + pb_data_head pb <= g_start (pb_data_size pb) g /\
  (g_pass g = pass \/ g_pass g = pass + 1 /\ g_off g = 0).
Proof.
  intros Hi [Hf1 Hf2] g. pose proof (pi_head _ _ _ Hi). unfold g, placed, g_start, g_len.
  destruct (Z.gtb_spec (pb_data_head pb + Z.of_nat (length (pf_data f))) (pb_data_size pb));
    cbn [g_off g_frame g_pass]; split_and!; try lia; auto; right; auto.
Qed.

(** A live frame and the new one do not share bytes. *)
Lemma live_disjoint sz pass pass' o l o' l' :
  0 < sz -> 0 <= o -> 0 < l -> o + l <= sz -> 0 <= o' -> 0 < l' -> o' + l' <= sz ->
  pass * sz + o + l <= pass' * sz + o' -> pass' * sz + o' + l' - sz <= pass * sz + o ->
  o + l <= o' \/ o' + l' <= o.
Proof.
  intros. assert (Hp : pass = pass' \/ pass = pass' - 1) by nia. destruct Hp as [->| ->]; [left|right]; nia.
Qed.

Lemma push_inv gs pass pb f :
  pb_inv gs pass pb -> fits (pb_data_size pb) f -> Z.of_nat (length gs) + 1 < 2 ^ 32 ->
  pb_inv (gs ++ [placed pb pass f]) (pushed_pass pb pass f) (push f pb).
Proof.
  intros Hi Hf Hb. pose proof (push_eq _ _ _ _ Hi Hf Hb) as He. cbv zeta in He.
  destruct (placed_facts _ _ _ _ Hi Hf) as (G1 & G2 & G3 & G4 & G5 & G6).
  unfold pushed_pass. set (g := placed pb pass f) in *. clearbody g.
  destruct Hi as [(k & Hk & Hcap) Hmask Hsl [Hdl Hsz] Hhd Hidx Hcnt Hfr Hlive Htab].
  rewrite He. set (sz := pb_data_size pb) in *. set (n := Z.of_nat (length gs)) in *.
  assert (Hcpos : 0 < pb_capacity pb) by lia.
  assert (Hdf : length (pf_data f) = Z.to_nat (g_len g)) by (unfold g_len; rewrite G4; lia).
  assert (Hroom : (Z.to_nat (g_off g) + length (pf_data f) <= length (pb_data pb))%nat) by lia.
  assert (Hmod : 0 <= n mod pb_capacity pb < pb_capacity pb) by (apply Z.mod_pos_bound; lia).
  split; cbn [pb_capacity pb_mask pb_slots pb_data pb_data_size pb_data_head pb_write_idx pb_count].
  - by exists k.
  - done.
  - by rewrite length_insert.
  - split; [|done]. by rewrite blit_length.
  - lia.
  - rewrite length_app. simpl. lia.
  - rewrite length_app. simpl. lia.
  - intros i h [Hih|[-> Hih]]%lookup_app_Some'.
    + destruct (Hfr _ _ Hih) as (F1 & F2 & F3 & F4). unfold g_start in *. lia.
    + subst h. unfold g_start. lia.
  - intros i h [Hih|[-> Hih]]%lookup_app_Some' Hl.
    + destruct (Hfr _ _ Hih) as (F1 & F2 & F3 & F4). unfold g_start in *.
      rewrite <- (Hlive _ _ Hih) by lia. unfold slot_data, g_slot. cbn [sl_length sl_offset pb_data].
      apply slice_ext. intros j Hj. apply blit_outside; [done|].
      destruct (live_disjoint sz (g_pass h) (g_pass g) (g_off h) (g_len h) (g_off g) (g_len g)); lia.
    + subst h. unfold slot_data, g_slot. cbn [sl_length sl_offset pb_data].
      rewrite <- Hdf, blit_inside by done. by rewrite G4.
  - intros i h Hih Hw. unfold slot_at. cbn [pb_slots pb_mask]. rewrite length_app in Hw. simpl in Hw.
    rewrite Hmask, Hcap, land_mask by lia. rewrite <- Hcap.
    apply lookup_app_Some' in Hih as [Hih|[-> Hih]].
    + pose proof (lookup_lt_Some _ _ _ Hih) as Hlt.
      rewrite list_lookup_total_insert_ne.
      * rewrite <- (Htab _ _ Hih) by lia. unfold slot_at. by rewrite Hmask, Hcap, land_mask by lia.
      * intros Heq. apply (mod_inj (Z.of_nat i) n (pb_capacity pb)); [lia|lia|lia|].
        pose proof (Z.mod_pos_bound (Z.of_nat i) (pb_capacity pb)). lia.
    + subst h. fold n. rewrite list_lookup_total_insert_eq; [done|lia].
Qed.

(** ** Runs *)

Definition total (fs : list pframe) : Z := foldr (fun f n => Z.of_nat (length (pf_data f)) + n) 0 fs.

Definition pushes (fs : list pframe) (pb : rmr_prebuf) : rmr_prebuf := fold_left (fun pb f => push f pb) fs pb.

Fixpoint placements (fs : list pframe) (pass : Z) (pb : rmr_prebuf) : list gframe * Z :=
  match fs with
  | [] => ([], pass)
  | f :: fs =>
      let '(gs, pass') := placements fs (pushed_pass pb pass f) (push f pb) in
      (placed pb pass f :: gs, pass')
  end.

Lemma push_sizes f pb : pb_data_size (push f pb) = pb_data_size pb /\ pb_capacity (push f pb) = pb_capacity pb.
Proof. unfold push, rmr_prebuf_push. by destruct (_ || _). Qed.

Lemma pushes_sizes fs pb :
  pb_data_size (pushes fs pb) = pb_data_size pb /\ pb_capacity (pushes fs pb) = pb_capacity pb.
Proof.
  revert pb. induction fs as [|f fs IH]; intros pb; [done|].
  change (pushes (f :: fs) pb) with (pushes fs (push f pb)).
  destruct (IH (push f pb)) as [-> ->], (push_sizes f pb) as [-> ->]. done.
Qed.

Lemma pushes_inv fs gs pass pb :
  pb_inv gs pass pb -> Forall (fits (pb_data_size pb)) fs ->
  Z.of_nat (length gs + length fs) < 2 ^ 32 ->
  let '(gs', pass') := placements fs pass pb in
  pb_inv (gs ++ gs') pass' (pushes fs pb) /\ g_frame <$> gs' = fs.
Proof.
  intros Hi Hf. revert gs pass pb Hi Hf. induction fs as [|f fs IH]; intros gs pass pb Hi Hf Hb.
  { cbn. rewrite app_nil_r. done. }
  apply Forall_cons in Hf as [Hf Hfs]. cbn [length] in Hb. cbn [placements].
  pose proof (push_inv _ _ _ _ Hi Hf ltac:(lia)) as Hi'.
  specialize (IH _ _ _ Hi'). destruct (push_sizes f pb) as [Hsz _]. rewrite Hsz, length_app in IH.
  specialize (IH Hfs ltac:(simpl; lia)). destruct (placements fs _ _) as [gs' pass'].
  destruct IH as [IH1 IH2]. rewrite <- app_assoc in IH1. split; [exact IH1|].
  cbn [fmap list_fmap]. f_equal; [|exact IH2]. unfold placed. by destruct (_ >? _).
Qed.

(** From the place of a frame on, at most one wrap while the bytes fit. *)
Definition near (sz L used : Z) (g0 : gframe) (pass head : Z) : Prop :=
  pass = g_pass g0 /\ head = g_off g0 + used \/
  pass = g_pass g0 + 1 /\ head <= used /\ pass * sz + head - g_start sz g0 <= used + L - 1.

Lemma near_push L used g0 gs pass pb f :
  pb_inv gs pass pb -> fits (pb_data_size pb) f -> Z.of_nat (length gs) + 1 < 2 ^ 32 ->
  Z.of_nat (length (pf_data f)) <= L ->
  used + Z.of_nat (length (pf_data f)) + L <= pb_data_size pb + 1 -> 0 < L -> 0 <= used ->
  near (pb_data_size pb) L used g0 pass (pb_data_head pb) ->
  near (pb_data_size pb) L (used + Z.of_nat (length (pf_data f))) g0
    (pushed_pass pb pass f) (pb_data_head (push f pb)).
Proof.
  intros Hi Hf Hb HL Hu Hl Hus Hn. pose proof (push_eq _ _ _ _ Hi Hf Hb) as He. cbv zeta in He.
  rewrite He. cbn [pb_data_head]. unfold pushed_pass, placed, near, g_start, g_len in *.
  pose proof (pi_head _ _ _ Hi).
  destruct (Z.gtb_spec (pb_data_head pb + Z.of_nat (length (pf_data f))) (pb_data_size pb)) as [Hgt|Hle];
    cbn [g_pass g_off g_frame].
  - destruct Hn as [[-> Hh]|(Hp & Hh & _)]; [right; lia|lia].
  - destruct Hn as [[-> Hh]|(Hp & Hh & Hd)]; [left; lia|right; lia].
Qed.

(** The frames pushed after [g0] lie behind it, and within one region's length. *)
Lemma near_pushes L fs used g0 gs pass pb :
  pb_inv gs pass pb -> Forall (fits (pb_data_size pb)) fs ->
  Z.of_nat (length gs + length fs) < 2 ^ 32 ->
  Forall (fun f => Z.of_nat (length (pf_data f)) <= L) fs ->
  used + total fs + L <= pb_data_size pb + 1 -> 0 < L -> 0 <= used ->
  near (pb_data_size pb) L used g0 pass (pb_data_head pb) ->
  g_start (pb_data_size pb) g0 <= pass * pb_data_size pb + pb_data_head pb ->
  let '(gs', pass') := placements fs pass pb in
  pass' * pb_data_size pb + pb_data_head (pushes fs pb) - g_start (pb_data_size pb) g0 <= pb_data_size pb /\
  Forall (fun g => g_start (pb_data_size pb) g0 <= g_start (pb_data_size pb) g) gs'.
Proof.
  intros Hi Hf. revert used gs pass pb Hi Hf. induction fs as [|f fs IH]; intros used gs pass pb Hi Hf Hb HL Hu Hl Hus Hn Hs.
  { cbn. split; [|constructor]. unfold near, g_start in *. simpl in Hu. destruct Hn as [[-> Hh]|(Hp & Hh & Hd)]; lia. }
  apply Forall_cons in Hf as [Hf Hfs]. apply Forall_cons in HL as [HL1 HL2].
  cbn [length total foldr placements] in *. fold (total fs) in Hu.
  assert (Ht : 0 <= total fs) by (clear; induction fs; simpl; lia).
  destruct (placed_facts _ _ _ _ Hi Hf) as (G1 & G2 & G3 & G4 & G5 & G6).
  pose proof (push_inv _ _ _ _ Hi Hf ltac:(lia)) as Hi'.
  pose proof (near_push L used g0 _ _ _ _ Hi Hf ltac:(lia) HL1 ltac:(lia) Hl Hus Hn) as Hn'.
  pose proof (push_eq _ _ _ _ Hi Hf ltac:(lia)) as He. cbv zeta in He.
  specialize (IH (used + Z.of_nat (length (pf_data f))) _ _ _ Hi').
  destruct (push_sizes f pb) as [Hsz _]. rewrite Hsz, length_app in IH.
  specialize (IH Hfs ltac:(simpl; lia) HL2 ltac:(lia) Hl ltac:(lia) Hn').
  assert (Hs' : g_start (pb_data_size pb) g0 <=
    pushed_pass pb pass f * pb_data_size pb + pb_data_head (push f pb)).
  { rewrite He. cbn [pb_data_head]. unfold pushed_pass. unfold g_start in G5 at 1. lia. }
  specialize (IH Hs'). destruct (placements fs _ _) as [gs' pass']. destruct IH as [IH1 IH2].
  split; [exact IH1|]. constructor; [lia|exact IH2].
Qed.

(** A callback that keeps what it is shown. *)
Definition collect (s : rmr_prebuf_slot) (d : list Z) (acc : list pframe) : Z * list pframe :=
  (0, acc ++ [mk_pframe d (sl_timestamp s) (sl_is_key s)]).

Lemma collect_loop pb gs i it acc :
  (forall j g, gs !! j = Some g ->
     slot_at pb (i + Z.of_nat j) = g_slot g /\ slot_data pb (g_slot g) = pf_data (g_frame g)) ->
  iterate_loop collect (length gs) pb i it acc = (it + Z.of_nat (length gs), acc ++ (g_frame <$> gs)).
Proof.
  revert i it acc. induction gs as [|g gs IH]; intros i it acc H.
  { cbn. by rewrite app_nil_r, Z.add_0_r. }
  destruct (H 0%nat g eq_refl) as [H1 H2]. rewrite Z.add_0_r in H1.
  cbn [length iterate_loop]. rewrite H1, H2. unfold collect at 1. cbn [negb Z.eqb].
  rewrite IH.
  - f_equal; [lia|]. cbn [fmap list_fmap]. rewrite <- app_assoc. cbn [app]. do 2 f_equal. by destruct g as [[]].
  - intros j h Hj. replace (i + 1 + Z.of_nat j) with (i + Z.of_nat (S j)) by lia. by apply H.
Qed.

Lemma create_inv garbage capacity size pb :
  rmr_prebuf_create true garbage capacity size = Some pb ->
  (exists k, 0 <= k < 32 /\ capacity = 2 ^ k) -> Z.of_nat (length garbage) = size -> size < 2 ^ 31 ->
  pb_inv [] 0 pb /\ pb_data_size pb = size /\ pb_capacity pb = capacity.
Proof.
  intros Hc (k & Hk & Hcap) Hg Hsz. unfold rmr_prebuf_create in Hc.
  destruct (_ || _); [done|]. destruct (Z.eqb_spec size 0); [done|]. injection Hc as <-.
  split; [|done]. assert (0 < capacity) by lia.
  split; cbn; try (done || lia); eauto.
  - rewrite length_replicate. lia.
Qed.

(** The newest frames that fit the region and the table are shown as pushed. *)
Lemma recent_shown gs0 pass0 pb0 f recent L :
  pb_inv gs0 pass0 pb0 -> Forall (fits (pb_data_size pb0)) (f :: recent) ->
  Z.of_nat (length gs0 + length (f :: recent)) < 2 ^ 32 ->
  Z.of_nat (length (f :: recent)) <= pb_capacity pb0 ->
  Forall (fun f => Z.of_nat (length (pf_data f)) <= L) (f :: recent) ->
  total (f :: recent) + L <= pb_data_size pb0 + 1 ->
  let pb := pushes (f :: recent) pb0 in
  rmr_prebuf_iterate collect pb (pb_write_idx pb - Z.of_nat (length (f :: recent))) [] =
  (Z.of_nat (length (f :: recent)), f :: recent).
Proof.
  intros Hi Hf Hb Hn HL Ht pb. pose proof (pushes_inv _ _ _ _ Hi Hf Hb) as Hp.
  destruct (pushes_sizes (f :: recent) pb0) as [Z1 Z2]. fold pb in Z1, Z2.
  pose proof Hf as [Hf1 Hf2]%Forall_cons. pose proof HL as [HL1 HL2]%Forall_cons.
  assert (Hnear : let '(gs', pass') := placements (f :: recent) pass0 pb0 in
    Forall (fun g => pass' * pb_data_size pb + pb_data_head pb - pb_data_size pb <= g_start (pb_data_size pb) g) gs').
  { cbn [placements length] in *. pose proof (push_inv _ _ _ _ Hi Hf1 ltac:(lia)) as Hi'.
    pose proof (push_eq _ _ _ _ Hi Hf1 ltac:(lia)) as He. cbv zeta in He.
    destruct (placed_facts _ _ _ _ Hi Hf1) as (G1 & G2 & G3 & G4 & G5 & G6).
    pose proof (near_pushes L recent (Z.of_nat (length (pf_data f))) (placed pb0 pass0 f) _ _ _ Hi') as Hq.
    destruct (push_sizes f pb0) as [Y1 Y2]. rewrite Y1, length_app in Hq. cbn [total foldr] in Ht. fold (total recent) in Ht.
    specialize (Hq Hf2 ltac:(simpl; lia) HL2 ltac:(lia) ltac:(destruct Hf1; lia) ltac:(destruct Hf1; lia)).
    assert (Hn0 : near (pb_data_size pb0) L (Z.of_nat (length (pf_data f))) (placed pb0 pass0 f)
      (pushed_pass pb0 pass0 f) (pb_data_head (push f pb0))).
    { left. split; [done|]. rewrite He. cbn [pb_data_head]. unfold g_len. by rewrite G4. }
    specialize (Hq Hn0 ltac:(rewrite He; cbn [pb_data_head]; unfold pushed_pass, g_start; lia)).
    change (pushes recent (push f pb0)) with pb in Hq.
    destruct (placements recent _ _) as [gs' pass']. destruct Hq as [Q1 Q2]. rewrite Z1.
    constructor; [lia|]. eapply Forall_impl; [exact Q2|]. intros g Hg. cbn in Hg. lia. }
  destruct (placements (f :: recent) pass0 pb0) as [gs' pass']. destruct Hp as [Hinv Hfr]. fold pb in Hinv.
  assert (Hlen : length gs' = length (f :: recent)) by (rewrite <- Hfr; by rewrite length_fmap).
  destruct Hinv as [_ _ _ _ _ Hidx Hcnt _ Hlive Htab]. rewrite length_app, Hlen in Hidx, Hcnt.
  rewrite <- Hlen in Hidx, Hcnt, Hb, Hn |- *. rewrite Z2 in Hcnt.
  assert (Hpos : 0 < Z.of_nat (length gs')) by (rewrite Hlen; simpl; lia).
  unfold rmr_prebuf_iterate. destruct (Z.eqb_spec (pb_count pb) 0); [lia|].
  rewrite uwrap_id by (unfold in_u; lia).
  destruct (Z.ltb_spec (pb_write_idx pb - Z.of_nat (length gs')) (pb_write_idx pb - pb_count pb)); [lia|].
  destruct (Z.geb_spec (pb_write_idx pb - Z.of_nat (length gs')) (pb_write_idx pb)); [lia|]. cbn [orb].
  replace (Z.to_nat (pb_write_idx pb - (pb_write_idx pb - Z.of_nat (length gs')))) with (length gs') by lia.
  rewrite collect_loop; [by rewrite Hfr|].
  intros j g Hj. pose proof (lookup_lt_Some _ _ _ Hj) as Hlt.
  assert (Hj' : (gs0 ++ gs') !! (length gs0 + j)%nat = Some g).
  { rewrite lookup_app_r by lia. by replace (length gs0 + j - length gs0)%nat with j by lia. }
  split.
  - rewrite <- (Htab _ _ Hj') by (rewrite length_app; lia). f_equal. lia.
  - apply (Hlive _ _ Hj'). by apply (Forall_lookup_1 _ _ _ _ Hnear Hj).
Qed.

(** ** Where a clip starts *)

Section clip.
Variables (pb : rmr_prebuf) (newest_ts max_age : Z).
Let key j := sl_is_key (slot_at pb j) = true.
Let age j := newest_ts - sl_timestamp (slot_at pb j).

(** The youngest keyframe of [lo, hi) that is old enough, or else the oldest. *)
Definition clip_start (lo hi r : Z) : Prop :=
  lo <= r < hi /\ key r /\
  (max_age <= age r /\ (forall j, r < j < hi -> key j -> age j < max_age) \/
   (forall j, lo <= j < hi -> key j -> age j < max_age /\ r <= j)).

Lemma keyframe_loop_spec n i best :
  let r := keyframe_loop n pb newest_ts max_age i best in
  let lo := i - Z.of_nat n in
  (r = best /\ forall j, lo <= j < i -> ~ key j) \/ clip_start lo i r.
Proof.
  revert i best. induction n as [|n IH]; intros i best; cbn [keyframe_loop]; cbv zeta.
  { left. split; [done|lia]. }
  replace (i - Z.of_nat (S n)) with (i - 1 - Z.of_nat n) by lia.
  destruct (sl_is_key (slot_at pb (i - 1))) eqn:Ek; cbn [negb].
  - destruct (Z.geb_spec (newest_ts - sl_timestamp (slot_at pb (i - 1))) max_age) as [Ha|Ha].
    { right. split; [lia|]. split; [done|]. left. split; [done|]. intros j Hj. lia. }
    right. destruct (IH (i - 1) (i - 1)) as [[-> Hno]|(Hr & Hk & Hc)].
    + split; [lia|]. split; [done|]. right. intros j Hj Hkj.
      destruct (decide (j = i - 1)) as [->|]; [split; [done|lia]|]. exfalso. by apply (Hno j); [lia|].
    + split; [lia|]. split; [done|]. destruct Hc as [[Hc1 Hc2]|Hc]; [left|right].
      * split; [done|]. intros j Hj Hkj. destruct (decide (j = i - 1)) as [->|]; [done|]. apply Hc2; [lia|done].
      * intros j Hj Hkj. destruct (decide (j = i - 1)) as [->|]; [split; [done|lia]|]. apply Hc; [lia|done].
  - destruct (IH (i - 1) best) as [[-> Hno]|(Hr & Hk & Hc)]; [left|right].
    + split; [done|]. intros j Hj Hkj. destruct (decide (j = i - 1)) as [->|].
      * unfold key in Hkj. congruence.
      * by apply (Hno j); [lia|].
    + split; [lia|]. split; [done|]. destruct Hc as [[Hc1 Hc2]|Hc]; [left|right].
      * split; [done|]. intros j Hj Hkj.
        destruct (decide (j = i - 1)) as [->|]; [unfold key in Hkj; congruence|]. apply Hc2; [lia|done].
      * intros j Hj Hkj. destruct (decide (j = i - 1)) as [->|]; [unfold key in Hkj; congruence|]. apply Hc; [lia|done].
Qed.
End clip.

Lemma pushed_state garbage capacity size pb0 fs :
  rmr_prebuf_create true garbage capacity size = Some pb0 ->
  (exists k, 0 <= k < 32 /\ capacity = 2 ^ k) -> Z.of_nat (length garbage) = size -> size < 2 ^ 31 ->
  Forall (fits size) fs -> Z.of_nat (length fs) < 2 ^ 32 ->
  exists gs pass, pb_inv gs pass (pushes fs pb0) /\ g_frame <$> gs = fs.
Proof.
  intros Hc Hk Hg Hs Hf Hn. destruct (create_inv _ _ _ _ Hc Hk Hg Hs) as (Hi & Hsz & _).
  pose proof (pushes_inv fs [] 0 pb0 Hi) as Hp. rewrite Hsz in Hp. specialize (Hp Hf ltac:(simpl; lia)).
  destruct (placements fs 0 pb0) as [gs pass]. by exists gs, pass.
Qed.

(** The pre-roll of a clip is what the camera saw.  Push any frames into a
    fresh pre-buffer; the most recent ones, as many as fit the slot table and
    whose bytes plus one largest frame fit the data region, are handed to the
    replay callback complete, in order and byte for byte, whatever was pushed
    before them and however the region wrapped. *)
Theorem rmr_prebuf_recent_intact garbage capacity size pb0 old f recent L :
  rmr_prebuf_create true garbage capacity size = Some pb0 ->
  (exists k, 0 <= k < 32 /\ capacity = 2 ^ k) -> Z.of_nat (length garbage) = size -> size < 2 ^ 31 ->
  Forall (fits size) (old ++ f :: recent) -> Z.of_nat (length (old ++ f :: recent)) < 2 ^ 32 ->
  Z.of_nat (length (f :: recent)) <= capacity ->
  Forall (fun f => Z.of_nat (length (pf_data f)) <= L) (f :: recent) ->
  total (f :: recent) + L <= size + 1 ->
  let pb := pushes (old ++ f :: recent) pb0 in
  rmr_prebuf_iterate collect pb (pb_write_idx pb - Z.of_nat (length (f :: recent))) [] =
  (Z.of_nat (length (f :: recent)), f :: recent).
Proof.
  intros Hc Hk Hg Hs Hf Hn Hcap HL Ht pb. apply Forall_app in Hf as [Hf1 Hf2].
  rewrite length_app in Hn. destruct (create_inv _ _ _ _ Hc Hk Hg Hs) as (_ & Hsz & Hcp).
  destruct (pushed_state _ _ _ _ old Hc Hk Hg Hs Hf1 ltac:(lia)) as (gs & pass & Hi & Hgs).
  destruct (pushes_sizes old pb0) as [Z1 Z2].
  assert (Hpb : pb = pushes (f :: recent) (pushes old pb0)) by (unfold pb, pushes; by rewrite fold_left_app).
  rewrite Hpb. assert (Hlg : length gs = length old) by (rewrite <- Hgs; by rewrite length_fmap).
  eapply (recent_shown gs pass (pushes old pb0) f recent L); rewrite ?Z1, ?Z2, ?Hsz, ?Hcp, ?Hlg; done || lia.
Qed.

Definition demo_frames : list pframe :=
  [mk_pframe [1; 2; 3] 10 true; mk_pframe [4; 5] 20 false; mk_pframe [6; 7; 8; 9] 30 true;
   mk_pframe [10; 11] 40 false].
Definition demo_pb : rmr_prebuf := default (mk_rmr_prebuf [] 0 0 0 0 [] 0 0)
  (rmr_prebuf_create true (replicate 10 0) 4 10).

Lemma rmr_prebuf_recent_intact_witness :
  let pb := pushes demo_frames demo_pb in
  rmr_prebuf_iterate collect pb (pb_write_idx pb - 2) [] =
  (2, [mk_pframe [6; 7; 8; 9] 30 true; mk_pframe [10; 11] 40 false]).
Proof.
  refine (rmr_prebuf_recent_intact (replicate 10 0) 4 10 demo_pb (take 2 demo_frames)
    (mk_pframe [6; 7; 8; 9] 30 true) [mk_pframe [10; 11] 40 false] 4 _ _ _ _ _ _ _ _ _);
    try done; [by exists 2|repeat constructor; by vm_compute|by repeat constructor].
Defined.

(** A clip starts on a keyframe.  After any pushes, the search returns no
    index only when no frame it holds is a keyframe; otherwise it returns a
    held keyframe: the youngest one at least [max_age] old when there is one,
    else the oldest keyframe held. *)
Theorem rmr_prebuf_clip_starts_on_key garbage capacity size pb0 fs max_age :
  rmr_prebuf_create true garbage capacity size = Some pb0 ->
  (exists k, 0 <= k < 32 /\ capacity = 2 ^ k) -> Z.of_nat (length garbage) = size -> size < 2 ^ 31 ->
  Forall (fits size) fs -> Z.of_nat (length fs) < 2 ^ 32 - 1 -> fs <> [] ->
  let pb := pushes fs pb0 in
  let n := Z.of_nat (length fs) in
  let lo := n - pb_count pb in
  let newest_ts := sl_timestamp (slot_at pb (n - 1)) in
  let r := rmr_prebuf_find_keyframe pb max_age in
  (forall i f, fs !! i = Some f -> lo <= Z.of_nat i ->
     sl_is_key (slot_at pb (Z.of_nat i)) = pf_key f /\ sl_timestamp (slot_at pb (Z.of_nat i)) = pf_ts f) /\
  (r = UINT32_MAX /\ (forall i f, fs !! i = Some f -> lo <= Z.of_nat i -> pf_key f = false) \/
   r <> UINT32_MAX /\ clip_start pb newest_ts max_age lo n r).
Proof.
  intros Hc Hk Hg Hs Hf Hn Hne pb n lo newest_ts r.
  destruct (pushed_state _ _ _ _ fs Hc Hk Hg Hs Hf ltac:(lia)) as (gs & pass & Hi & Hgs). fold pb in Hi.
  assert (Hlg : length gs = length fs) by (rewrite <- Hgs; by rewrite length_fmap).
  assert (Hpos : 0 < n) by (unfold n; destruct fs; [done|simpl; lia]).
  destruct Hi as [(k & Hk' & Hcap) _ _ _ _ Hidx Hcnt _ _ Htab]. rewrite Hlg in *. fold n in Hidx, Hcnt, Htab.
  assert (Hslots : forall i f, fs !! i = Some f -> lo <= Z.of_nat i ->
     sl_is_key (slot_at pb (Z.of_nat i)) = pf_key f /\ sl_timestamp (slot_at pb (Z.of_nat i)) = pf_ts f).
  { intros i f Hif Hlo. rewrite <- Hgs in Hif. apply list_lookup_fmap_Some in Hif as (g & -> & Hg').
    rewrite (Htab _ _ Hg') by (unfold lo in Hlo; lia). done. }
  assert (0 < pb_capacity pb) by lia.
  split; [exact Hslots|]. unfold r, rmr_prebuf_find_keyframe.
  destruct (Z.eqb_spec (pb_count pb) 0); [lia|]. rewrite Hidx.
  rewrite !uwrap_id by (unfold in_u; lia). fold newest_ts.
  destruct (keyframe_loop_spec pb newest_ts max_age (Z.to_nat (n - (n - pb_count pb))) n UINT32_MAX) as [[Hr Hno]|Hst].
  - left. split; [exact Hr|]. intros i f Hif Hlo. destruct (Hslots i f Hif Hlo) as [<- _].
    apply not_true_iff_false, Hno. pose proof (lookup_lt_Some _ _ _ Hif). unfold lo in Hlo. lia.
  - right. replace (n - Z.of_nat (Z.to_nat (n - (n - pb_count pb)))) with lo in Hst by (unfold lo; lia).
    split; [|exact Hst]. destruct Hst as [Hr _]. assert (HU : UINT32_MAX = 2 ^ 32 - 1) by done. lia.
Qed.

Lemma rmr_prebuf_clip_starts_on_key_witness :
  let pb := pushes demo_frames demo_pb in
  let newest_ts := sl_timestamp (slot_at pb 3) in
  rmr_prebuf_find_keyframe pb 15 <> UINT32_MAX /\
  clip_start pb newest_ts 15 0 4 (rmr_prebuf_find_keyframe pb 15).
Proof.
  assert (H : Forall (fits 10) demo_frames) by (repeat constructor; by vm_compute).
  assert (Hk : exists k, 0 <= k < 32 /\ 4 = 2 ^ k) by (by exists 2).
  destruct (proj2 (rmr_prebuf_clip_starts_on_key (replicate 10 0) 4 10 demo_pb demo_frames 15
    eq_refl Hk eq_refl eq_refl H eq_refl ltac:(done))) as [[Hr _]|Hr]; [by vm_compute in Hr|exact Hr].
Defined.

(** Eviction is by slot, never by byte.  With room in the slot table, a
    push can wrap the data region over frames the table still lists: two
    six-byte frames in a ten-byte region leave a first slot that is counted,
    is found as the clip's start, and shows the second frame's bytes. *)
Theorem rmr_prebuf_stale_slot :
  let a := mk_pframe [1; 1; 1; 1; 1; 1] 0 true in
  let b := mk_pframe [2; 2; 2; 2; 2; 2] 40 false in
  let pb := pushes [a; b] demo_pb in
  pb_count pb = 2 /\ rmr_prebuf_find_keyframe pb 30 = 0 /\
  rmr_prebuf_iterate collect pb 0 [] = (2, [mk_pframe (pf_data b) 0 true; b]).
Proof. by vm_compute. Qed.
