(* ===== verification/Timelapse.v ===== *)
(** * rmr: the timelapse sampler (rmr/rmr_timelapse.c)

    Cadence, claiming of keyframes, rotation and decode times; one frame-loop
    iteration as rmr_main.c composes them.  The theorems: samples are armed at
    the configured rate and never in a burst after a stall, no keyframe is
    sampled twice, and decode times lie on the playback grid. *)

From stdpp Require Import list.
From S2P Require Import Prelude.

(** ** The code *)

Definition RMR_TL_MIN_INTERVAL_SEC : Z := 2.
Definition RMR_TL_MIN_FPS : Z := 1.
Definition RMR_TL_MAX_FPS : Z := 120.
Definition RMR_TL_MIN_FILE_FRAMES : Z := 60.

Record rmr_tl := mk_rmr_tl {
  tl_interval_us : Z; tl_playback_fps : Z; tl_file_frames : Z;
  tl_want_sample : bool; tl_next_due_us : Z; tl_last_seq : Z;
  tl_file_day : Z; tl_frames_in_file : Z; tl_frame_idx : Z
}.

#[export] Instance eta_rmr_tl : Settable rmr_tl := fun t =>
  mk_rmr_tl (tl_interval_us t) (tl_playback_fps t) (tl_file_frames t) (tl_want_sample t)
    (tl_next_due_us t) (tl_last_seq t) (tl_file_day t) (tl_frames_in_file t) (tl_frame_idx t).

Definition clamp_fps (playback_fps : Z) : Z :=
  let playback_fps := if playback_fps <? RMR_TL_MIN_FPS then RMR_TL_MIN_FPS else playback_fps in
  if playback_fps >? RMR_TL_MAX_FPS then RMR_TL_MAX_FPS else playback_fps.

Definition clamp_interval (interval_sec : Z) : Z :=
  if interval_sec <? RMR_TL_MIN_INTERVAL_SEC then RMR_TL_MIN_INTERVAL_SEC else interval_sec.

Definition rmr_tl_init (interval_sec playback_fps file_frames : Z) : rmr_tl :=
  let file_frames :=
    if negb (file_frames =? 0) && (file_frames <? RMR_TL_MIN_FILE_FRAMES)
    then RMR_TL_MIN_FILE_FRAMES else file_frames in
  mk_rmr_tl (clamp_interval interval_sec * 1000000) (u32 (clamp_fps playback_fps)) (u32 file_frames)
    false 0 0 0 0 0.

Definition rmr_tl_set_interval (interval_sec : Z) (t : rmr_tl) : rmr_tl :=
  t <| tl_interval_us := clamp_interval interval_sec * 1000000 |>.

Definition rmr_tl_set_playback_fps (playback_fps : Z) (t : rmr_tl) : bool * rmr_tl :=
  let playback_fps := clamp_fps playback_fps in
  if u32 playback_fps =? tl_playback_fps t then (false, t)
  else (true, t <| tl_playback_fps := u32 playback_fps |>).

Definition rmr_tl_tick (now_us : Z) (t : rmr_tl) : rmr_tl :=
  if tl_next_due_us t =? 0 then
    t <| tl_want_sample := true |> <| tl_next_due_us := now_us + tl_interval_us t |>
  else if now_us <? tl_next_due_us t then t
  else
    let t := t <| tl_want_sample := true |> <| tl_next_due_us := tl_next_due_us t + tl_interval_us t |> in
    if tl_next_due_us t <=? now_us then t <| tl_next_due_us := now_us + tl_interval_us t |> else t.

Definition rmr_tl_force (t : rmr_tl) : rmr_tl := t <| tl_want_sample := true |>.

Definition rmr_tl_take (seq : Z) (t : rmr_tl) : bool * rmr_tl :=
  if negb (tl_want_sample t) || (seq <=? tl_last_seq t) then (false, t)
  else (true, t <| tl_last_seq := seq |> <| tl_want_sample := false |>).

Definition rmr_tl_ring_reset (t : rmr_tl) : rmr_tl := t <| tl_last_seq := 0 |>.

Definition rmr_tl_needs_rotate (t : rmr_tl) (sample_day : Z) : bool :=
  if tl_file_day t =? 0 then true
  else if negb (tl_file_frames t =? 0) then tl_frames_in_file t >=? tl_file_frames t
  else negb (sample_day =? tl_file_day t).

Definition rmr_tl_file_opened (sample_day : Z) (t : rmr_tl) : rmr_tl :=
  t <| tl_file_day := sample_day |> <| tl_frames_in_file := 0 |> <| tl_frame_idx := 0 |>.

Definition rmr_tl_sample_dts90 (t : rmr_tl) : Z * rmr_tl :=
  let dts := u64 (tl_frame_idx t * 90000) / tl_playback_fps t in
  (dts, t <| tl_frame_idx := u64 (tl_frame_idx t + 1) |>
          <| tl_frames_in_file := u32 (tl_frames_in_file t + 1) |>).

(** timelapse_write_sample of rmr_main.c, for an open that succeeds: whether
    a file was opened for the sample, and its decode time. *)
Definition timelapse_write_sample (day : Z) (t : rmr_tl) : bool * Z * rmr_tl :=
  let rotate := rmr_tl_needs_rotate t day in
  let t := if rotate then rmr_tl_file_opened day t else t in
  let '(dts, t) := rmr_tl_sample_dts90 t in
  (rotate, dts, t).

(** The timelapse part of one iteration of the frame loop. *)
Definition tl_iteration (now_us seq day : Z) (is_key : bool) (t : rmr_tl) : option (bool * Z) * rmr_tl :=
  let t := rmr_tl_tick now_us t in
  if is_key then
    let '(ok, t) := rmr_tl_take seq t in
    if ok then let '(rotate, dts, t) := timelapse_write_sample day t in (Some (rotate, dts), t)
    else (None, t)
  else (None, t).

(** ** Cadence *)

(** Whether a tick arms. *)
Definition arms (now_us : Z) (t : rmr_tl) : bool :=
  (tl_next_due_us t =? 0) || negb (now_us <? tl_next_due_us t).

Lemma tick_schedule now t :
  0 < now -> 0 < tl_interval_us t -> tl_next_due_us t <= now + tl_interval_us t ->
  let t' := rmr_tl_tick now t in
  now < tl_next_due_us t' <= now + tl_interval_us t /\ tl_interval_us t' = tl_interval_us t /\
  (arms now t = true -> tl_want_sample t' = true /\
     (tl_next_due_us t <> 0 -> tl_next_due_us t + tl_interval_us t <= tl_next_due_us t')) /\
  (arms now t = false -> t' = t).
Proof.
  intros Hn Hi Hd. unfold rmr_tl_tick, arms. destruct (Z.eqb_spec (tl_next_due_us t) 0) as [E|E]; cbn [orb].
  { cbn. split_and!; try lia; done. }
  destruct (Z.ltb_spec now (tl_next_due_us t)) as [Hlt|Hge]; cbn [negb].
  { split_and!; try lia; done. }
  match goal with |- context [tl_next_due_us ?x <=? now] =>
    change (tl_next_due_us x) with (tl_next_due_us t + tl_interval_us t) end.
  destruct (Z.leb_spec (tl_next_due_us t + tl_interval_us t) now); cbn; split_and!; try lia; done.
Qed.

(** Ticks at the given times: how many arm. *)
Fixpoint tick_run (times : list Z) (t : rmr_tl) : Z * rmr_tl :=
  match times with
  | [] => (0, t)
  | now :: times =>
      let '(n, t') := tick_run times (rmr_tl_tick now t) in
      ((if arms now t then 1 else 0) + n, t')
  end.

Fixpoint ordered (lo : Z) (times : list Z) : Prop :=
  match times with [] => True | x :: r => lo <= x /\ ordered x r end.

Lemma tick_run_bound times lo t :
  0 < lo -> 0 < tl_interval_us t -> tl_next_due_us t <> 0 -> tl_next_due_us t <= lo + tl_interval_us t ->
  ordered lo times ->
  let '(n, t') := tick_run times t in
  n * tl_interval_us t <= tl_next_due_us t' - tl_next_due_us t /\
  tl_next_due_us t' <= List.last times lo + tl_interval_us t.
Proof.
  revert lo t. induction times as [|now times IH]; intros lo t Hlo Hi Hne Hd Ho; [cbn; lia|].
  destruct Ho as [Hn Ho]. cbn [tick_run].
  destruct (tick_schedule now t ltac:(lia) Hi ltac:(lia)) as (S1 & S2 & S3 & S4).
  specialize (IH now (rmr_tl_tick now t) ltac:(lia)). rewrite S2 in IH.
  specialize (IH Hi ltac:(lia) ltac:(lia) Ho). destruct (tick_run times _) as [n t']. destruct IH as [I1 I2].
  assert (Hl : List.last (now :: times) lo = List.last times now).
  { destruct times as [|x r]; [done|]. cbn [List.last]. clear. revert x. induction r; [done|]. intros. cbn [List.last]. apply IHr. }
  rewrite Hl. split; [|done]. destruct (arms now t); [destruct (S3 eq_refl) as [_ S3']; specialize (S3' Hne); lia|].
  rewrite (S4 eq_refl) in I1. lia.
Qed.

Lemma init_fields i f n :
  0 < tl_interval_us (rmr_tl_init i f n) /\ 1 <= tl_playback_fps (rmr_tl_init i f n) <= 120 /\
  tl_next_due_us (rmr_tl_init i f n) = 0 /\ tl_last_seq (rmr_tl_init i f n) = 0 /\
  tl_file_day (rmr_tl_init i f n) = 0 /\ tl_interval_us (rmr_tl_init i f n) = Z.max 2 i * 1000000.
Proof.
  unfold rmr_tl_init, clamp_interval, clamp_fps, RMR_TL_MIN_INTERVAL_SEC, RMR_TL_MIN_FPS, RMR_TL_MAX_FPS.
  cbn [tl_interval_us tl_playback_fps tl_next_due_us tl_last_seq tl_file_day].
  destruct (Z.ltb_spec i 2), (Z.ltb_spec f 1); [change (1 >? 120) with false| |change (1 >? 120) with false|];
    try (destruct (Z.gtb_spec f 120)); rewrite uwrap_id by (unfold in_u; lia); split_and!; lia.
Qed.

(** A timelapse never back-fills.  Whenever the ticks come and however
    long they stop in between, after the tick at [now] the next sample is due
    within one interval, and between the first tick and the last no more
    samples were armed than whole intervals fit, plus the first. *)
Theorem rmr_tl_no_backfill interval fps frames t0 times :
  0 < t0 -> ordered t0 times ->
  let t := rmr_tl_init interval fps frames in
  let I := tl_interval_us t in
  let now := List.last times t0 in
  let '(n, t') := tick_run (t0 :: times) t in
  n <= 1 + (now - t0) / I /\ now < tl_next_due_us t' <= now + I.
Proof.
  intros H0 Ho t I now. destruct (init_fields interval fps frames) as (F1 & _ & F3 & _). fold t in F1, F3. fold I in F1.
  cbn [tick_run]. unfold arms. rewrite F3. change (0 =? 0) with true. cbn [orb].
  set (t1 := rmr_tl_tick t0 t).
  assert (H1 : tl_next_due_us t1 = t0 + I /\ tl_interval_us t1 = I) by (unfold t1, rmr_tl_tick; by rewrite F3).
  destruct H1 as [H1 H2].
  pose proof (tick_run_bound times t0 t1 H0 ltac:(rewrite H2; lia) ltac:(lia) ltac:(rewrite H1, H2; lia) Ho) as Hb.
  assert (Hlast : forall lo t, 0 < lo -> 0 < tl_interval_us t -> lo < tl_next_due_us t <= lo + tl_interval_us t ->
    ordered lo times -> List.last times lo < tl_next_due_us (snd (tick_run times t))).
  { clear. induction times as [|x r IH]; intros lo t Hlo Hi Hd Ho; [cbn; lia|]. destruct Ho as [Hx Ho].
    cbn [tick_run]. destruct (tick_schedule x t ltac:(lia) Hi ltac:(lia)) as (S1 & S2 & _).
    specialize (IH x (rmr_tl_tick x t) ltac:(lia) ltac:(lia) ltac:(lia) Ho). destruct (tick_run r _) as [n t'].
    cbn [snd] in *. replace (List.last (x :: r) lo) with (List.last r x); [done|].
    destruct r as [|y r]; [done|]. cbn [List.last]. clear. revert y. induction r; [done|]. intros. cbn [List.last]. apply IHr. }
  specialize (Hlast t0 t1 H0 ltac:(lia) ltac:(lia) Ho).
  destruct (tick_run times t1) as [n t']. rewrite H1, H2 in Hb. fold now in Hb, Hlast. cbn [snd] in Hlast.
  destruct Hb as [B1 B2]. split; [|lia].
  assert (n * I <= now - t0) by lia. pose proof (Z.div_le_lower_bound (now - t0) I n F1). lia.
Qed.

Lemma rmr_tl_no_backfill_witness :
  let t := rmr_tl_init 10 25 0 in
  let '(n, t') := tick_run [1000; 5000000; 95000000; 96000000] t in
  n <= 1 + (96000000 - 1000) / tl_interval_us t /\ 96000000 < tl_next_due_us t' <= 96000000 + tl_interval_us t.
Proof. apply (rmr_tl_no_backfill 10 25 0 1000 [5000000; 95000000; 96000000]); [lia|simpl; lia]. Defined.

(** ** Samples *)

Record tl_frame := mk_tl_frame { fr_now : Z; fr_seq : Z; fr_day : Z; fr_key : bool }.
Record tl_sample := mk_tl_sample { sm_seq : Z; sm_opened : bool; sm_dts : Z }.

(** The frame loop over a sequence of frames: the samples it writes. *)
Fixpoint tl_run (frames : list tl_frame) (t : rmr_tl) : list tl_sample * rmr_tl :=
  match frames with
  | [] => ([], t)
  | f :: frames =>
      let '(r, t) := tl_iteration (fr_now f) (fr_seq f) (fr_day f) (fr_key f) t in
      let '(ss, t) := tl_run frames t in
      (match r with Some (opened, dts) => mk_tl_sample (fr_seq f) opened dts :: ss | None => ss end, t)
  end.

(** Samples at the playback grid, starting over in every file, from distinct
    keyframes in ring order; [k] samples are in the open file. *)
Fixpoint on_grid (fps last k : Z) (ss : list tl_sample) : Prop :=
  match ss with
  | [] => True
  | s :: ss =>
      last < sm_seq s /\
      let k := if sm_opened s then 0 else k in
      sm_dts s = k * 90000 / fps /\ on_grid fps (sm_seq s) (k + 1) ss
  end.

Lemma tick_keeps now t :
  tl_playback_fps (rmr_tl_tick now t) = tl_playback_fps t /\ tl_last_seq (rmr_tl_tick now t) = tl_last_seq t /\
  tl_file_day (rmr_tl_tick now t) = tl_file_day t /\ tl_frame_idx (rmr_tl_tick now t) = tl_frame_idx t.
Proof. unfold rmr_tl_tick. repeat case_match; done. Qed.

Lemma on_grid_weaken fps last last' k ss : last' <= last -> on_grid fps last k ss -> on_grid fps last' k ss.
Proof. destruct ss; [done|]. intros Hl (H1 & H2). split; [lia|done]. Qed.

Lemma tl_run_grid frames t :
  0 <= tl_frame_idx t -> tl_frame_idx t + Z.of_nat (length frames) < 2 ^ 32 ->
  on_grid (tl_playback_fps t) (tl_last_seq t) (tl_frame_idx t) (fst (tl_run frames t)).
Proof.
  revert t. induction frames as [|f frames IH]; intros t Hk Hn; [done|]. cbn [tl_run length] in *.
  unfold tl_iteration. destruct (tick_keeps (fr_now f) t) as (K1 & K2 & K3 & K4).
  set (t1 := rmr_tl_tick (fr_now f) t) in *. clearbody t1.
  destruct (fr_key f).
  2: { specialize (IH t1). rewrite K1, K2, K4 in IH. specialize (IH Hk ltac:(lia)).
       by destruct (tl_run frames t1) as [ss t2]. }
  unfold rmr_tl_take. destruct (negb (tl_want_sample t1)); cbn [orb].
  { specialize (IH t1). rewrite K1, K2, K4 in IH. specialize (IH Hk ltac:(lia)).
    by destruct (tl_run frames t1) as [ss t2]. }
  destruct (Z.leb_spec (fr_seq f) (tl_last_seq t1)) as [Hle|Hgt].
  { specialize (IH t1). rewrite K1, K2, K4 in IH. specialize (IH Hk ltac:(lia)).
    by destruct (tl_run frames t1) as [ss t2]. }
  unfold timelapse_write_sample.
  set (t2 := t1 <| tl_last_seq := fr_seq f |> <| tl_want_sample := false |>).
  assert (T2 : tl_playback_fps t2 = tl_playback_fps t /\ tl_last_seq t2 = fr_seq f /\ tl_frame_idx t2 = tl_frame_idx t) by done.
  destruct T2 as (T21 & T22 & T23). clearbody t2.
  destruct (rmr_tl_needs_rotate t2 (fr_day f)); unfold rmr_tl_sample_dts90;
    match goal with |- context [tl_run frames ?x] => set (t3 := x) end;
    assert (T3 : tl_playback_fps t3 = tl_playback_fps t /\ tl_last_seq t3 = fr_seq f) by done;
    destruct T3 as [T31 T32].
  - assert (T33 : tl_frame_idx t3 = 1) by done. clearbody t3.
    specialize (IH t3 ltac:(lia) ltac:(lia)). rewrite T31, T32, T33 in IH.
    destruct (tl_run frames t3) as [ss t4]. cbn [fst on_grid sm_seq sm_opened sm_dts].
    split; [lia|]. split; [|exact IH]. by rewrite <- T21.
  - assert (T33 : tl_frame_idx t3 = tl_frame_idx t + 1).
    { change (tl_frame_idx t3) with (u64 (tl_frame_idx t2 + 1)). rewrite T23. apply uwrap_id. unfold in_u. lia. }
    clearbody t3. specialize (IH t3 ltac:(lia) ltac:(lia)). rewrite T31, T32, T33 in IH.
    destruct (tl_run frames t3) as [ss t4]. cbn [fst on_grid sm_seq sm_opened sm_dts].
    split; [lia|]. split; [|exact IH]. rewrite T21, T23. by rewrite uwrap_id by (unfold in_u; lia).
Qed.

(** Timelapse files play on the grid.  Over any frames the loop is given,
    the samples written come from distinct keyframes in ring order, and the
    k-th sample of every file has the decode time k * 90000 / fps, starting
    at zero when a file is opened and computed afresh, so that rounding never
    accumulates. *)
Theorem rmr_tl_samples_on_grid interval fps frames_per_file frames :
  Z.of_nat (length frames) < 2 ^ 32 ->
  let t := rmr_tl_init interval fps frames_per_file in
  on_grid (tl_playback_fps t) 0 0 (fst (tl_run frames t)).
Proof.
  intros Hn t. destruct (init_fields interval fps frames_per_file) as (_ & _ & _ & F4 & _). fold t in F4.
  rewrite <- F4 at 1. change 0 with (tl_frame_idx t) at 1. apply tl_run_grid; change (tl_frame_idx t) with 0; lia.
Qed.

Definition demo_frames : list tl_frame :=
  [mk_tl_frame 1000000 5 20240101 true; mk_tl_frame 2000000 6 20240101 true;
   mk_tl_frame 3500000 7 20240101 false; mk_tl_frame 4000000 8 20240101 true;
   mk_tl_frame 6000000 9 20240102 true].

Lemma rmr_tl_samples_on_grid_witness :
  length (fst (tl_run demo_frames (rmr_tl_init 2 7 0))) = 3%nat /\
  on_grid 7 0 0 (fst (tl_run demo_frames (rmr_tl_init 2 7 0))).
Proof. split; [by vm_compute|]. apply (rmr_tl_samples_on_grid 2 7 0 demo_frames). by vm_compute. Defined.
