(* ===== verification/AuthRate.v ===== *)
(** * rhd: what it costs to guess the password (rhd/rhd_authrate.c)

    The table of hosts with their back-off, and the token ceiling for
    everyone together, as one state; the three calls the API makes.  Time is
    the milliseconds the caller passes in. *)

From Stdlib Require Import String.
From stdpp Require Import list.
From S2P Require Import Prelude.

(** ** The code *)

Definition RHD_AUTH_SOURCES : nat := 8.
Definition RHD_AUTH_FREE_TRIES : Z := 3.
Definition RHD_AUTH_DELAY_MS : Z := 1000.
Definition RHD_AUTH_DELAY_MAX_MS : Z := 30000.
Definition RHD_AUTH_FORGET_MS : Z := 300000.
Definition RHD_AUTH_BURST : Z := 6.
Definition RHD_AUTH_REFILL_MS : Z := 500.

(** [host] is empty when the slot is free. *)
Record rhd_auth_source := mk_rhd_auth_source {
  as_host : string; as_failures : Z; as_wait_until_ms : Z; as_seen_ms : Z; as_told : bool
}.

#[export] Instance eta_rhd_auth_source : Settable rhd_auth_source := fun s =>
  mk_rhd_auth_source (as_host s) (as_failures s) (as_wait_until_ms s) (as_seen_ms s) (as_told s).

Definition free_source : rhd_auth_source := mk_rhd_auth_source "" 0 0 0 false.
#[export] Instance source_inhabited : Inhabited rhd_auth_source := populate free_source.

Record auth_state := mk_auth_state {
  g_src : list rhd_auth_source; g_tokens : Z; g_refill_ms : Z
}.

#[export] Instance eta_auth_state : Settable auth_state := fun st =>
  mk_auth_state (g_src st) (g_tokens st) (g_refill_ms st).

Definition rhd_auth_reset : auth_state :=
  mk_auth_state (replicate RHD_AUTH_SOURCES free_source) RHD_AUTH_BURST 0.

Definition taken (s : rhd_auth_source) : bool := negb (String.eqb (as_host s) "").

(** The walk over the table: the row of this host, or the row to reuse. *)
Fixpoint slot_walk (n i oldest : nat) (host : string) (t : list rhd_auth_source) : nat + nat :=
  match n with
  | O => inr oldest
  | S n =>
      let s := t !!! i in
      if taken s && String.eqb (as_host s) host then inl i else
      slot_walk n (S i)
        (if negb (taken s) then i
         else if taken (t !!! oldest) && (as_seen_ms s <? as_seen_ms (t !!! oldest)) then i
         else oldest) host t
  end.

Definition slot_for (host : string) (now : Z) (t : list rhd_auth_source) : nat * list rhd_auth_source :=
  match slot_walk RHD_AUTH_SOURCES 0 0 host t with
  | inl i =>
      let s := t !!! i in
      (i, if now - as_seen_ms s >? RHD_AUTH_FORGET_MS
          then <[i := s <| as_failures := 0 |> <| as_wait_until_ms := 0 |> <| as_told := false |>]> t
          else t)
  | inr i => (i, <[i := free_source <| as_host := substring 0 63 host |>]> t)
  end.

(** The refill loop: at most [RHD_AUTH_BURST] rounds. *)
Fixpoint refill (fuel : nat) (now tokens refill_ms : Z) : Z * Z :=
  match fuel with
  | S fuel =>
      if (tokens <? RHD_AUTH_BURST) && (now - refill_ms >=? RHD_AUTH_REFILL_MS)
      then refill fuel now (tokens + 1) (refill_ms + RHD_AUTH_REFILL_MS) else (tokens, refill_ms)
  | O => (tokens, refill_ms)
  end.

(** Whether a hash may be computed, and the seconds to wait if not. *)
Definition rhd_auth_may_hash (host : string) (now : Z) (st : auth_state) : bool * option Z * auth_state :=
  let '(i, t) := slot_for host now (g_src st) in
  let s := (t !!! i) <| as_seen_ms := now |> in
  if as_wait_until_ms s >? now then
    (false, Some ((as_wait_until_ms s - now + 999) / 1000),
     st <| g_src := <[i := s <| as_told := true |>]> t |>)
  else
    let st := st <| g_src := <[i := s]> t |> in
    let refill_ms := if g_refill_ms st =? 0 then now else g_refill_ms st in
    let '(tokens, refill_ms) := refill (Z.to_nat RHD_AUTH_BURST) now (g_tokens st) refill_ms in
    let refill_ms := if (tokens >=? RHD_AUTH_BURST) || (refill_ms >? now) then now else refill_ms in
    let st := st <| g_refill_ms := refill_ms |> in
    if tokens <=? 0 then (false, Some 1, st <| g_tokens := tokens |>)
    else (true, None, st <| g_tokens := tokens - 1 |>).

(** The doubling loop; the wait reaches its ceiling within five rounds. *)
Fixpoint backoff (fuel : nat) (i failures wait : Z) : Z :=
  match fuel with
  | S fuel =>
      if (i <? failures) && (wait <? RHD_AUTH_DELAY_MAX_MS)
      then backoff fuel (i + 1) failures (2 * wait) else wait
  | O => wait
  end.

Definition rhd_auth_failed (host : string) (now : Z) (st : auth_state) : auth_state :=
  let '(i, t) := slot_for host now (g_src st) in
  let s := (t !!! i) <| as_failures := u32 (as_failures (t !!! i) + 1) |> in
  if as_failures s <=? RHD_AUTH_FREE_TRIES then st <| g_src := <[i := s]> t |> else
  let wait := backoff 5 (RHD_AUTH_FREE_TRIES + 1) (as_failures s) RHD_AUTH_DELAY_MS in
  let wait := if wait >? RHD_AUTH_DELAY_MAX_MS then RHD_AUTH_DELAY_MAX_MS else wait in
  st <| g_src := <[i := s <| as_wait_until_ms := now + wait |> <| as_told := false |>]> t |>.

Definition rhd_auth_succeeded (host : string) (now : Z) (st : auth_state) : auth_state :=
  let '(i, t) := slot_for host now (g_src st) in
  let s := (t !!! i) <| as_failures := 0 |> <| as_wait_until_ms := 0 |> <| as_told := false |> in
  let st := st <| g_src := <[i := s]> t |> in
  if g_tokens st <? RHD_AUTH_BURST then st <| g_tokens := g_tokens st + 1 |> else st.

(** ** The ceiling *)

Inductive auth_event := Ask (host : string) | Fail (host : string) | Succeed (host : string).

(** Permitted hashes and successes so far. *)
Record auth_run := mk_auth_run { ar_state : auth_state; ar_permitted : Z; ar_succeeded : Z }.

Definition auth_step (e : auth_event) (now : Z) (r : auth_run) : auth_run :=
  match e with
  | Ask h =>
      let '(ok, _, st) := rhd_auth_may_hash h now (ar_state r) in
      mk_auth_run st (ar_permitted r + if ok then 1 else 0) (ar_succeeded r)
  | Fail h => mk_auth_run (rhd_auth_failed h now (ar_state r)) (ar_permitted r) (ar_succeeded r)
  | Succeed h =>
      mk_auth_run (rhd_auth_succeeded h now (ar_state r)) (ar_permitted r) (ar_succeeded r + 1)
  end.

(** Calls in the order of a clock that does not go back. *)
Fixpoint auth_trace (t : Z) (evs : list (auth_event * Z)) (r : auth_run) : option (Z * auth_run) :=
  match evs with
  | [] => Some (t, r)
  | (e, now) :: evs => if now <? t then None else auth_trace now evs (auth_step e now r)
  end.

(** Spent and not given back, plus what is left, is paid for by the refill. *)
Record ceiling_inv (t0 t : Z) (r : auth_run) : Prop := {
  ci_tokens : 0 <= g_tokens (ar_state r) <= RHD_AUTH_BURST;
  ci_refill : g_refill_ms (ar_state r) = 0 \/ t0 <= g_refill_ms (ar_state r) <= t;
  ci_paid : RHD_AUTH_REFILL_MS *
      (ar_permitted r - ar_succeeded r + g_tokens (ar_state r) - RHD_AUTH_BURST)
    <= if g_refill_ms (ar_state r) =? 0 then 0 else g_refill_ms (ar_state r) - t0
}.

Lemma refill_spec fuel now tokens refill_ms :
  0 <= tokens <= RHD_AUTH_BURST -> refill_ms <= now ->
  let '(tokens', refill') := refill fuel now tokens refill_ms in
  tokens <= tokens' <= RHD_AUTH_BURST /\ refill_ms <= refill' <= now /\
  RHD_AUTH_REFILL_MS * (tokens' - tokens) = refill' - refill_ms.
Proof.
  revert tokens refill_ms. induction fuel as [|fuel IH]; intros tokens refill_ms Ht Hr; cbn [refill]; [lia|].
  destruct (Z.ltb_spec tokens RHD_AUTH_BURST); cbn [andb]; [|lia].
  destruct (Z.geb_spec (now - refill_ms) RHD_AUTH_REFILL_MS); [|lia].
  unfold RHD_AUTH_REFILL_MS in *. specialize (IH (tokens + 1) (refill_ms + 500) ltac:(lia) ltac:(lia)).
  destruct (refill _ _ _ _) as [t' r']. lia.
Qed.

Lemma ceiling_step t0 t e now r :
  0 < t0 -> t0 <= t -> t <= now -> ceiling_inv t0 t r -> ceiling_inv t0 now (auth_step e now r).
Proof.
  intros H0 Ht Hn [Htok Href Hpaid]. destruct r as [[src tok ref] p s]. cbn in Htok, Href, Hpaid.
  unfold RHD_AUTH_REFILL_MS, RHD_AUTH_BURST in *. destruct e as [h|h|h]; cbn [auth_step ar_state].
  - unfold rhd_auth_may_hash. cbn [g_src]. destruct (slot_for h now src) as [i tb].
    destruct (_ >? now).
    { split; cbn; unfold RHD_AUTH_BURST, RHD_AUTH_REFILL_MS; [lia|lia|]. destruct (ref =? 0); lia. }
    cbn [g_refill_ms g_tokens].
    match goal with |- context [g_refill_ms ?x =? 0] => change (g_refill_ms x) with ref end.
    match goal with |- context [refill _ _ (g_tokens ?x) _] => change (g_tokens x) with tok end.
    set (ref0 := if ref =? 0 then now else ref).
    assert (Hr0 : t0 <= ref0 <= now /\ 500 * (p - s + tok - 6) <= ref0 - t0).
    { unfold ref0. destruct (Z.eqb_spec ref 0); lia. }
    destruct Hr0 as [Hr0 Hp0]. clearbody ref0.
    pose proof (refill_spec (Z.to_nat RHD_AUTH_BURST) now tok ref0 ltac:(unfold RHD_AUTH_BURST; lia) ltac:(lia)) as Hrf.
    destruct (refill _ _ _ _) as [tok' ref']. unfold RHD_AUTH_REFILL_MS, RHD_AUTH_BURST in Hrf.
    destruct Hrf as (R1 & R2 & R3).
    set (ref2 := if _ || _ then now else ref').
    assert (Hr2 : ref' <= ref2 <= now) by (unfold ref2; destruct (_ || _); lia). clearbody ref2.
    destruct (Z.leb_spec tok' 0); split; cbn; unfold RHD_AUTH_REFILL_MS, RHD_AUTH_BURST;
      try lia; destruct (Z.eqb_spec ref2 0); lia.
  - unfold rhd_auth_failed. cbn [g_src]. destruct (slot_for h now src) as [i tb].
    destruct (_ <=? RHD_AUTH_FREE_TRIES); split; cbn; unfold RHD_AUTH_BURST, RHD_AUTH_REFILL_MS;
      try lia; destruct (ref =? 0); lia.
  - unfold rhd_auth_succeeded. cbn [g_src]. destruct (slot_for h now src) as [i tb].
    match goal with |- context [g_tokens ?x <? _] => change (g_tokens x) with tok end.
    destruct (Z.ltb_spec tok RHD_AUTH_BURST); split; cbn; unfold RHD_AUTH_BURST, RHD_AUTH_REFILL_MS in *;
      try lia; destruct (ref =? 0); lia.
Qed.

Lemma ceiling_trace t0 evs t r t' r' :
  0 < t0 -> t0 <= t -> ceiling_inv t0 t r -> auth_trace t evs r = Some (t', r') ->
  t <= t' /\ ceiling_inv t0 t' r'.
Proof.
  intros H0. revert t r. induction evs as [|[e now] evs IH]; intros t r Ht Hi; cbn [auth_trace].
  { intros [= <- <-]. split; [lia|done]. }
  destruct (Z.ltb_spec now t); [done|]. intros He.
  destruct (IH now (auth_step e now r)) as [IH1 IH2]; [lia|by apply (ceiling_step t0 t)|done|]. split; [lia|done].
Qed.

Definition auth_start : auth_run := mk_auth_run rhd_auth_reset 0 0.

(** The hashing ceiling holds against any number of hosts.  From a reset,
    whatever the calls and whoever makes them, over a clock that does not go
    back, the password hashes permitted and not answered by a success number
    at most six plus one for every half second elapsed. *)
Theorem rhd_auth_ceiling t0 evs t r :
  0 < t0 -> auth_trace t0 evs auth_start = Some (t, r) ->
  ar_permitted r - ar_succeeded r <= 6 + (t - t0) / 500.
Proof.
  intros H0 He.
  assert (Hi : ceiling_inv t0 t0 auth_start).
  { split; cbn; unfold RHD_AUTH_BURST, RHD_AUTH_REFILL_MS; lia. }
  destruct (ceiling_trace t0 evs t0 _ t r H0 ltac:(lia) Hi He) as [Ht [Htok Href Hpaid]].
  unfold RHD_AUTH_REFILL_MS, RHD_AUTH_BURST in *.
  assert (Hb : 500 * (ar_permitted r - ar_succeeded r - 6) <= t - t0).
  { destruct (Z.eqb_spec (g_refill_ms (ar_state r)) 0); lia. }
  pose proof (Z.div_le_lower_bound (t - t0) 500 (ar_permitted r - ar_succeeded r - 6)). lia.
Qed.

Definition attack : list (auth_event * Z) :=
  (fun k => (Ask (String (Ascii.ascii_of_nat (65 + k)) ""), 1000 + Z.of_nat k)) <$> seq 0 9.

Lemma rhd_auth_ceiling_witness :
  match auth_trace 1000 attack auth_start with
  | Some (t, r) => ar_permitted r = 6 /\ ar_permitted r - ar_succeeded r <= 6 + (t - 1000) / 500
  | None => False
  end.
Proof.
  pose proof (rhd_auth_ceiling 1000 attack) as H. destruct (auth_trace 1000 attack auth_start) as [[t r]|] eqn:E.
  - split; [vm_compute in E; by injection E as <- <-|]. apply H; [lia|done].
  - by vm_compute in E.
Defined.

(** ** The back-off *)

(** The wait after the n-th wrong answer in a row. *)
Definition wait_for (n : Z) : Z := Z.min 30000 (1000 * 2 ^ (n - 4)).

Lemma backoff_spec n : 4 <= n ->
  let w := backoff 5 4 n 1000 in
  (if w >? 30000 then 30000 else w) = wait_for n.
Proof.
  intros Hn. unfold wait_for.
  assert (Hc : n = 4 \/ n = 5 \/ n = 6 \/ n = 7 \/ n = 8 \/ 9 <= n) by lia.
  destruct Hc as [->|[->|[->|[->|[->|Hn9]]]]]; [by vm_compute..|].
  cbn [backoff]. unfold RHD_AUTH_DELAY_MAX_MS.
  repeat match goal with |- context [(?a <? n)] => replace (a <? n) with true by (symmetry; apply Z.ltb_lt; lia) end.
  assert (Hp : 2 ^ 5 <= 2 ^ (n - 4)) by (apply Z.pow_le_mono_r; lia). change (2 ^ 5) with 32 in Hp.
  change (30000 = Z.min 30000 (1000 * 2 ^ (n - 4))). lia.
Qed.

Lemma slot_walk_hosts n i o host t t' k :
  (forall j, as_host (t' !!! j) = as_host (t !!! j)) ->
  slot_walk n i o host t = inl k -> slot_walk n i o host t' = inl k.
Proof.
  intros Hh. assert (Htk : forall j, taken (t' !!! j) = taken (t !!! j)) by (intros j; unfold taken; by rewrite Hh).
  (* the row found does not depend on which row would be reused *)
  assert (Hg : forall n i o o', slot_walk n i o host t = inl k -> slot_walk n i o' host t' = inl k).
  { clear n i o. induction n as [|n IH]; intros i o o'; [done|]. cbn [slot_walk]. rewrite Htk, Hh.
    destruct (taken (t !!! i) && _); [done|]. apply IH. }
  apply Hg.
Qed.

Lemma slot_walk_bound n i o host t k : slot_walk n i o host t = inl k -> (i <= k < i + n)%nat.
Proof.
  revert i o. induction n as [|n IH]; intros i o; [done|]. cbn [slot_walk].
  destruct (taken _ && _); [intros [= <-]; lia|]. intros H%IH. lia.
Qed.

(** A host that keeps guessing waits, doubling up to thirty seconds.
    When a known host's wrong answer is its n-th in a row, n above three, then
    until min(30 s, 1 s * 2^(n-4)) have passed, its next request is refused
    before any hash is computed, and told to come back in the time that is
    left, rounded up to seconds, between one and thirty of them. *)
Theorem rhd_auth_backoff host now st i now' :
  length (g_src st) = RHD_AUTH_SOURCES ->
  slot_walk RHD_AUTH_SOURCES 0 0 host (g_src st) = inl i ->
  now - as_seen_ms (g_src st !!! i) <= RHD_AUTH_FORGET_MS ->
  0 <= as_failures (g_src st !!! i) < 2 ^ 32 - 1 ->
  let n := as_failures (g_src st !!! i) + 1 in
  3 < n -> now <= now' < now + wait_for n -> now' - as_seen_ms (g_src st !!! i) <= RHD_AUTH_FORGET_MS ->
  let '(ok, retry, st') := rhd_auth_may_hash host now' (rhd_auth_failed host now st) in
  ok = false /\ retry = Some ((now + wait_for n - now' + 999) / 1000) /\
  1 <= (now + wait_for n - now' + 999) / 1000 <= 30 /\ g_tokens st' = g_tokens st.
Proof.
  intros Hlen Hw Hseen Hf n Hn Hnow Hseen'. destruct st as [t tok ref]. cbn [g_src] in *.
  pose proof (slot_walk_bound _ _ _ _ _ _ Hw) as Hi.
  unfold rhd_auth_failed. cbn [g_src]. unfold slot_for at 1. rewrite Hw.
  destruct (Z.gtb_spec (now - as_seen_ms (t !!! i)) RHD_AUTH_FORGET_MS); [lia|].
  rewrite uwrap_id by (unfold in_u; lia). fold n.
  match goal with |- context [as_failures ?x <=? _] => change (as_failures x) with n end.
  unfold RHD_AUTH_FREE_TRIES. destruct (Z.leb_spec n 3); [lia|].
  change (backoff 5 (3 + 1) _ RHD_AUTH_DELAY_MS) with (backoff 5 4 n 1000).
  pose proof (backoff_spec n ltac:(lia)) as Hb. cbv zeta in Hb.
  change RHD_AUTH_DELAY_MAX_MS with 30000. rewrite Hb.
  set (s := (t !!! i) <| as_failures := n |> <| as_wait_until_ms := now + wait_for n |> <| as_told := false |>).
  unfold rhd_auth_may_hash.
  match goal with |- context [slot_for host now' ?x] => change x with (<[i := s]> t) end.
  assert (Hs : (<[i := s]> t) !!! i = s) by (apply list_lookup_total_insert_eq; lia).
  assert (Hw' : slot_walk RHD_AUTH_SOURCES 0 0 host (<[i := s]> t) = inl i).
  { apply (slot_walk_hosts _ _ _ _ t); [|done]. intros j. destruct (decide (i = j)) as [<-|Hne]; [by rewrite Hs|].
    by rewrite list_lookup_total_insert_ne. }
  unfold slot_for. rewrite Hw', Hs.
  change (as_seen_ms s) with (as_seen_ms (t !!! i)).
  destruct (Z.gtb_spec (now' - as_seen_ms (t !!! i)) RHD_AUTH_FORGET_MS); [lia|]. rewrite Hs.
  match goal with |- context [as_wait_until_ms ?x >? now'] => change (as_wait_until_ms x) with (now + wait_for n) end.
  destruct (Z.gtb_spec (now + wait_for n) now'); [|lia].
  assert (Hwb : wait_for n <= 30000) by (unfold wait_for; lia).
  split_and!; [done|done| | |done].
  - apply Z.div_le_lower_bound; lia.
  - apply Z.lt_succ_r, Z.div_lt_upper_bound; lia.
Qed.

Definition guesser : auth_state :=
  mk_auth_state (mk_rhd_auth_source "10.0.0.9" 5 0 50000 false :: replicate 7 free_source) 6 0.

Lemma rhd_auth_backoff_witness :
  let '(ok, retry, st') := rhd_auth_may_hash "10.0.0.9" 51500 (rhd_auth_failed "10.0.0.9" 50000 guesser) in
  ok = false /\ retry = Some ((50000 + wait_for 6 - 51500 + 999) / 1000) /\
  1 <= (50000 + wait_for 6 - 51500 + 999) / 1000 <= 30 /\ g_tokens st' = 6.
Proof.
  apply (rhd_auth_backoff "10.0.0.9" 50000 guesser 0 51500); vm_compute; done || (split; done).
Defined.
