(* ===== verification/Pacer.v ===== *)
(** * rwd: the packet pacer (rwd/rwd_pacer.c)

    A token bucket the sender asks before every datagram; it answers with the
    microseconds to sleep.  The theorem: datagrams that wait as told conform to
    the configured rate and burst, and no 64-bit product overflows. *)

From stdpp Require Import list.
From S2P Require Import Prelude.

Definition BITS_PER_BYTE : Z := 8.
Definition US_PER_SECOND : Z := 1000000.

Record rwd_pacer := mk_rwd_pacer {
  pc_rate_bps : Z; pc_burst_bytes : Z; pc_tokens : Z; pc_last_us : Z
}.

#[export] Instance eta_rwd_pacer : Settable rwd_pacer := fun p =>
  mk_rwd_pacer (pc_rate_bps p) (pc_burst_bytes p) (pc_tokens p) (pc_last_us p).

Definition rwd_pacer_init (rate_bps burst_bytes now_us : Z) : rwd_pacer :=
  mk_rwd_pacer rate_bps burst_bytes burst_bytes now_us.

Definition rwd_pacer_refill (now_us : Z) (p : rwd_pacer) : rwd_pacer :=
  if now_us <=? pc_last_us p then p else
  let elapsed_us := u64 (now_us - pc_last_us p) in
  let room := u64 (pc_burst_bytes p - pc_tokens p) in
  let fill_us :=
    u64 (u64 (u64 (room * BITS_PER_BYTE) * US_PER_SECOND) + pc_rate_bps p - 1) / pc_rate_bps p in
  if elapsed_us >=? fill_us then
    p <| pc_tokens := pc_burst_bytes p |> <| pc_last_us := now_us |>
  else
    let added := u64 (elapsed_us * pc_rate_bps p) / (BITS_PER_BYTE * US_PER_SECOND) in
    p <| pc_tokens := if added >=? room then pc_burst_bytes p else u64 (pc_tokens p + added) |>
      <| pc_last_us := now_us |>.

Definition rwd_pacer_reserve (bytes now_us : Z) (p : rwd_pacer) : Z * rwd_pacer :=
  if (pc_rate_bps p =? 0) || (pc_burst_bytes p =? 0) || (bytes =? 0) then (0, p) else
  let bytes := if bytes >? pc_burst_bytes p then pc_burst_bytes p else bytes in
  let p := rwd_pacer_refill now_us p in
  if pc_tokens p >=? bytes then (0, p <| pc_tokens := u64 (pc_tokens p - bytes) |>) else
  let missing := u64 (pc_burst_bytes p - pc_tokens p) in
  let numerator := u64 (u64 (missing * BITS_PER_BYTE) * US_PER_SECOND) in
  let wait_us := u64 (numerator + pc_rate_bps p - 1) / pc_rate_bps p in
  (wait_us, p <| pc_last_us := now_us + wait_us |> <| pc_tokens := u64 (pc_burst_bytes p - bytes) |>).

(** ** The bucket *)

(** [sent] bytes have been released since [t0]; what was sent beyond the burst
    has been paid for in time. *)
Record pacer_inv (t0 sent : Z) (p : rwd_pacer) : Prop := {
  pv_rate : 0 < pc_rate_bps p < 2 ^ 32;
  pv_burst : 0 < pc_burst_bytes p < 2 ^ 32;
  pv_tokens : 0 <= pc_tokens p <= pc_burst_bytes p;
  pv_time : t0 <= pc_last_us p;
  pv_paid : (sent + pc_tokens p - pc_burst_bytes p) * 8000000 <= pc_rate_bps p * (pc_last_us p - t0)
}.

(** The rounded-up time to earn [room] bytes, free of overflow. *)
Lemma fill_time rate room :
  0 < rate < 2 ^ 32 -> 0 <= room < 2 ^ 32 ->
  let f := u64 (u64 (u64 (room * BITS_PER_BYTE) * US_PER_SECOND) + rate - 1) / rate in
  room * 8000000 <= rate * f /\ rate * (f - 1) < room * 8000000 /\ 0 <= f.
Proof.
  intros Hr Hm. unfold BITS_PER_BYTE, US_PER_SECOND.
  rewrite (uwrap_id 64 (room * 8)) by (unfold in_u; lia).
  rewrite (uwrap_id 64 (room * 8 * 1000000)) by (unfold in_u; lia).
  rewrite uwrap_id by (unfold in_u; lia). cbv zeta.
  pose proof (Z.div_mod (room * 8 * 1000000 + rate - 1) rate ltac:(lia)) as Hd.
  pose proof (Z.mod_pos_bound (room * 8 * 1000000 + rate - 1) rate ltac:(lia)).
  split_and!; [lia|lia|]. apply Z.div_pos; lia.
Qed.

Lemma refill_inv t0 sent now p :
  pacer_inv t0 sent p -> now < 2 ^ 62 -> - 2 ^ 62 < t0 ->
  let p' := rwd_pacer_refill now p in
  pacer_inv t0 sent p' /\ pc_rate_bps p' = pc_rate_bps p /\ pc_burst_bytes p' = pc_burst_bytes p /\
  pc_last_us p' = Z.max now (pc_last_us p).
Proof.
  intros [Hr Hb Ht Hl Hp] Hn Hn0. unfold rwd_pacer_refill.
  destruct (Z.leb_spec now (pc_last_us p)) as [Hle|Hgt]; [split_and!; [done|done|done|lia]|].
  rewrite (uwrap_id 64 (now - pc_last_us p)) by (unfold in_u; lia).
  rewrite (uwrap_id 64 (pc_burst_bytes p - pc_tokens p)) by (unfold in_u; lia).
  set (room := pc_burst_bytes p - pc_tokens p) in *.
  destruct (fill_time (pc_rate_bps p) room Hr ltac:(lia)) as (F1 & F2 & F3).
  set (f := u64 (u64 (u64 (room * BITS_PER_BYTE) * US_PER_SECOND) + pc_rate_bps p - 1) / pc_rate_bps p) in *.
  clearbody f. destruct (Z.geb_spec (now - pc_last_us p) f) as [Hge|Hlt].
  - split_and!; try done; [|cbn; lia]. split; cbn; try lia. nia.
  - unfold BITS_PER_BYTE, US_PER_SECOND. change (8 * 1000000) with 8000000.
    rewrite (uwrap_id 64 ((now - pc_last_us p) * pc_rate_bps p)) by (unfold in_u; nia).
    pose proof (Z.div_mod ((now - pc_last_us p) * pc_rate_bps p) 8000000 ltac:(lia)) as Hd.
    pose proof (Z.mod_pos_bound ((now - pc_last_us p) * pc_rate_bps p) 8000000 ltac:(lia)) as Hmb.
    pose proof (Z.div_pos ((now - pc_last_us p) * pc_rate_bps p) 8000000 ltac:(nia) ltac:(lia)) as Hdp.
    set (added := (now - pc_last_us p) * pc_rate_bps p / 8000000) in *. clearbody added.
    split_and!; try done; [|cbn; lia]. split; cbn; try lia; destruct (Z.geb_spec added room);
      rewrite ?uwrap_id by (unfold in_u; lia); try lia; nia.
Qed.

Lemma reserve_inv t0 sent bytes now p :
  pacer_inv t0 sent p -> now < 2 ^ 62 -> - 2 ^ 62 < t0 -> pc_last_us p <= now ->
  0 < bytes <= pc_burst_bytes p ->
  let '(wait, p') := rwd_pacer_reserve bytes now p in
  pacer_inv t0 (sent + bytes) p' /\ pc_rate_bps p' = pc_rate_bps p /\ pc_burst_bytes p' = pc_burst_bytes p /\
  pc_last_us p' = now + wait /\ 0 <= wait /\ wait <= (pc_burst_bytes p * 8000000) / pc_rate_bps p + 1.
Proof.
  intros Hi Hn Hn0 Hl Hby. unfold rwd_pacer_reserve. pose proof Hi as [Hr Hb _ _ _].
  destruct (Z.eqb_spec (pc_rate_bps p) 0), (Z.eqb_spec (pc_burst_bytes p) 0), (Z.eqb_spec bytes 0); try lia.
  cbn [orb]. destruct (Z.gtb_spec bytes (pc_burst_bytes p)); [lia|].
  destruct (refill_inv t0 sent now p Hi Hn Hn0) as ([_ _ Ht Hl' Hp] & E1 & E2 & E3).
  set (q := rwd_pacer_refill now p) in *. clearbody q. rewrite E1, E2 in *. rewrite E3 in *.
  assert (Hdp : 0 <= pc_burst_bytes p * 8000000 / pc_rate_bps p) by (apply Z.div_pos; lia).
  destruct (Z.geb_spec (pc_tokens q) bytes) as [Hge|Hlt].
  - rewrite uwrap_id by (unfold in_u; lia). split_and!; try (cbn; lia).
    split; cbn; rewrite ?E1, ?E2, ?E3; lia.
  - rewrite (uwrap_id 64 (pc_burst_bytes p - pc_tokens q)) by (unfold in_u; lia).
    destruct (fill_time (pc_rate_bps p) (pc_burst_bytes p - pc_tokens q) Hr ltac:(lia)) as (F1 & F2 & F3).
    match type of F3 with 0 <= ?w => set (f := w) in * end.
    clearbody f. rewrite uwrap_id by (unfold in_u; lia).
    split_and!; try (cbn; lia).
    + split; cbn; rewrite ?E1, ?E2; lia.
    + assert (f - 1 <= pc_burst_bytes p * 8000000 / pc_rate_bps p); [|lia].
      apply Z.div_le_lower_bound; [lia|]. nia.
Qed.

(** ** A sender that sleeps as told *)

(** Each datagram: its size and when it asks; it leaves after its sleep, and
    the next one asks no earlier. *)
Fixpoint paced (pkts : list (Z * Z)) (free_at : Z) (p : rwd_pacer) : option (Z * rwd_pacer) :=
  match pkts with
  | [] => Some (free_at, p)
  | (bytes, now) :: pkts =>
      if now <? free_at then None else
      let '(wait, p) := rwd_pacer_reserve bytes now p in paced pkts (now + wait) p
  end.

Definition bytes_of (pkts : list (Z * Z)) : Z := foldr (fun k n => fst k + n) 0 pkts.

Lemma paced_inv t0 pkts sent free_at p t' p' :
  pacer_inv t0 sent p -> - 2 ^ 62 < t0 -> pc_last_us p <= free_at ->
  Forall (fun k => 0 < fst k <= pc_burst_bytes p /\ snd k < 2 ^ 62) pkts ->
  paced pkts free_at p = Some (t', p') ->
  pacer_inv t0 (sent + bytes_of pkts) p' /\ pc_last_us p' <= t' /\
  pc_rate_bps p' = pc_rate_bps p /\ pc_burst_bytes p' = pc_burst_bytes p.
Proof.
  revert sent free_at p. induction pkts as [|[bytes now] pkts IH]; intros sent free_at p Hi H0 Hl Hf; cbn [paced].
  { intros [= <- <-]. cbn. rewrite Z.add_0_r. done. }
  apply Forall_cons in Hf as [[Hb Hn] Hf]. cbn [fst snd] in *.
  destruct (Z.ltb_spec now free_at); [done|].
  pose proof (reserve_inv t0 sent bytes now p Hi Hn H0 ltac:(lia) Hb) as Hr.
  destruct (rwd_pacer_reserve bytes now p) as [wait q]. destruct Hr as (R1 & R2 & R3 & R4 & R5 & _).
  intros Hp. cbn [bytes_of foldr fst]. rewrite Z.add_assoc.
  destruct (IH (sent + bytes) (now + wait) q R1 H0 ltac:(lia)) as (I1 & I2 & I3 & I4); [by rewrite R3|done|].
  rewrite I3, I4, R2, R3. done.
Qed.

(** Paced media conforms to its rate.  Whatever datagrams a sender hands
    out (none larger than the burst) and whenever it asks, as long as it
    sleeps what it is told before sending, the bytes that left between the
    start and the last departure are at most the burst plus what the rate
    allows in that time. *)
Theorem rwd_pacer_conforms rate burst t0 pkts t p :
  0 < rate < 2 ^ 32 -> 0 < burst < 2 ^ 32 -> - 2 ^ 62 < t0 ->
  Forall (fun k => 0 < fst k <= burst /\ snd k < 2 ^ 62) pkts ->
  paced pkts t0 (rwd_pacer_init rate burst t0) = Some (t, p) ->
  bytes_of pkts * 8000000 <= burst * 8000000 + rate * (t - t0).
Proof.
  intros Hr Hb H0 Hf Hp.
  assert (Hi : pacer_inv t0 0 (rwd_pacer_init rate burst t0)) by (split; cbn; lia).
  destruct (paced_inv t0 pkts 0 t0 _ t p Hi H0 ltac:(cbn; lia) Hf Hp) as ([_ _ I3 I4 I5] & I6 & I7 & I8).
  cbn in I7, I8. rewrite I7, I8 in *. nia.
Qed.

Definition demo_pkts : list (Z * Z) := [(1200, 0); (1200, 10); (1200, 20); (1200, 30000)].

Lemma rwd_pacer_conforms_witness :
  match paced demo_pkts 0 (rwd_pacer_init 1000000 3000 0) with
  | Some (t, p) => bytes_of demo_pkts * 8000000 <= 3000 * 8000000 + 1000000 * (t - 0)
  | None => False
  end.
Proof.
  destruct (paced demo_pkts 0 (rwd_pacer_init 1000000 3000 0)) as [[t p]|] eqn:E; [|by vm_compute in E].
  apply (rwd_pacer_conforms 1000000 3000 0 demo_pkts t p); [lia|lia|lia|repeat constructor; simpl; lia|done].
Defined.
