(* ===== verification/G711.v ===== *)
(** * G.711 across the daemons

    The encoders of rad (rad/rad_codec_g711.c) and the five pairs of decoders
    that read their output: rsd's backchannel, rhd, rwd, rac and rsp's tables.
    The theorems: what the mu-law pair loses; that the copies of a decoder
    agree; that rad's A-law has the opposite polarity of the standard, and
    which decoders undo it; and by how much rsp's tables are off. *)

From stdpp Require Import list.
From S2P Require Import Prelude.

(** ** rad: encoders *)

(** [for (; !(pcm & mask) && exponent > lo; exponent--, mask >>= 1)]; from 7
    down to 0 it takes at most seven rounds. *)
Fixpoint find_exponent (fuel : nat) (pcm mask exponent lo : Z) : Z :=
  match fuel with
  | S fuel =>
      if (Z.land pcm mask =? 0) && (exponent >? lo)
      then find_exponent fuel pcm (Z.shiftr mask 1) (exponent - 1) lo else exponent
  | O => exponent
  end.

Definition pcm16_to_ulaw (pcm : Z) : Z :=
  let pcm := if pcm =? -32768 then -32767 else pcm in
  let sign := Z.land (Z.shiftr pcm 8) 128 in
  let pcm := if negb (sign =? 0) then - pcm else pcm in
  let pcm := if pcm >? 32635 then 32635 else pcm in
  let pcm := pcm + 132 in
  let exponent := find_exponent 7 pcm 16384 7 0 in
  let mantissa := Z.land (Z.shiftr pcm (exponent + 3)) 15 in
  u8 (Z.lnot (Z.lor sign (Z.lor (Z.shiftl exponent 4) mantissa))).

Definition pcm16_to_alaw (pcm : Z) : Z :=
  let pcm := if pcm =? -32768 then -32767 else pcm in
  let sign := Z.land (Z.shiftr (Z.lnot pcm) 8) 128 in
  let pcm := if sign =? 0 then - pcm else pcm in
  let pcm := if pcm >? 32635 then 32635 else pcm in
  let '(exponent, mantissa) :=
    if pcm >=? 256 then
      let exponent := find_exponent 7 pcm 16384 7 1 in
      (exponent, Z.land (Z.shiftr pcm (exponent + 3)) 15)
    else (0, Z.land (Z.shiftr pcm 4) 15) in
  u8 (Z.lxor (Z.lor sign (Z.lor (Z.shiftl exponent 4) mantissa)) 213).

(** The loops of the encoders: as many samples as fit. *)
Definition pcmu_encode (pcm : list Z) (out_size : nat) : list Z :=
  pcm16_to_ulaw <$> take (if (out_size <? length pcm)%nat then out_size else length pcm) pcm.
Definition pcma_encode (pcm : list Z) (out_size : nat) : list Z :=
  pcm16_to_alaw <$> take (if (out_size <? length pcm)%nat then out_size else length pcm) pcm.

(** ** Decoders *)

Definition rsd_bc_ulaw_decode (ulaw : Z) : Z :=
  let ulaw := u8 (Z.lnot ulaw) in
  let sign := Z.land ulaw 128 in
  let exponent := Z.land (Z.shiftr ulaw 4) 7 in
  let mantissa := Z.land ulaw 15 in
  let magnitude := Z.shiftl (Z.shiftl mantissa 3 + 132) exponent in
  let magnitude := magnitude - 132 in
  s16 (if negb (sign =? 0) then - magnitude else magnitude).

Definition rsd_bc_alaw_decode (alaw : Z) : Z :=
  let alaw := Z.lxor alaw 85 in
  let exponent := Z.land (Z.shiftr alaw 4) 7 in
  let magnitude := Z.shiftl (Z.land alaw 15) 4 in
  let magnitude := if exponent >? 0 then Z.shiftl (magnitude + 264) (exponent - 1) else magnitude + 8 in
  s16 (if negb (Z.land alaw 128 =? 0) then magnitude else - magnitude).

Definition rhd_alaw_to_pcm16 (alaw : Z) : Z :=
  let alaw := Z.lxor alaw 85 in
  let sign := Z.land alaw 128 in
  let exponent := Z.land (Z.shiftr alaw 4) 7 in
  let mantissa := Z.land alaw 15 in
  let magnitude :=
    if exponent >? 0 then Z.shiftl (Z.lor (Z.shiftl mantissa 4) 264) (exponent - 1)
    else Z.lor (Z.shiftl mantissa 4) 8 in
  s16 (if negb (sign =? 0) then - magnitude else magnitude).

Definition rwd_alaw_decode (alaw : Z) : Z :=
  let alaw := Z.lxor alaw 85 in
  let sign := Z.land alaw 128 in
  let exponent := Z.land (Z.shiftr alaw 4) 7 in
  let mantissa := Z.land alaw 15 in
  let magnitude :=
    if exponent =? 0 then Z.shiftl mantissa 4 + 8
    else Z.shiftl (Z.shiftl mantissa 4 + 264) (exponent - 1) in
  s16 (if negb (sign =? 0) then magnitude else - magnitude).

Definition rac_alaw_to_pcm16 (alaw : Z) : Z :=
  let alaw := Z.lxor alaw 213 in
  let sign := Z.land alaw 128 in
  let exponent := Z.land (Z.shiftr alaw 4) 7 in
  let mantissa := Z.land alaw 15 in
  let magnitude :=
    if exponent >? 0 then Z.shiftl (Z.shiftl mantissa 4 + 264) (exponent - 1)
    else Z.shiftl mantissa 4 + 8 in
  s16 (if negb (sign =? 0) then magnitude else - magnitude).

(** The entries g711_init_tables puts in rsp's two tables. *)
Definition rsp_ulaw_table (i : Z) : Z :=
  let u := u8 (Z.lnot i) in
  let sign := if negb (Z.land u 128 =? 0) then -1 else 1 in
  let exp := Z.land (Z.shiftr u 4) 7 in
  let mantissa := Z.land u 15 in
  let mag := Z.shiftl (Z.shiftl mantissa 1 + 33) (exp + 2) in
  s16 (sign * (mag - Z.shiftl 1 5)).

Definition rsp_alaw_table (i : Z) : Z :=
  let a := Z.lxor i 85 in
  let sign := if negb (Z.land a 128 =? 0) then 1 else -1 in
  let exp := Z.land (Z.shiftr a 4) 7 in
  let mantissa := Z.land a 15 in
  let mag := if exp =? 0 then Z.shiftl mantissa 1 + 1 else Z.shiftl (Z.shiftl mantissa 1 + 33) (exp - 1) in
  s16 (sign * mag).

(** ** All 256 codes *)

Definition codes : list Z := seqZ 0 256.

Lemma all_codes (f : Z -> bool) :
  forallb f codes = true -> forall b, 0 <= b < 256 -> f b = true.
Proof.
  intros H b Hb. rewrite forallb_forall in H. apply H, list_elem_of_In, elem_of_seqZ. lia.
Qed.

(** A code from its three fields, as the encoders put them together. *)
Definition ulaw_byte (neg : bool) (e m : Z) : Z :=
  u8 (Z.lnot (Z.lor (if neg then 128 else 0) (Z.lor (Z.shiftl e 4) m))).
Definition alaw_byte (pos : bool) (e m : Z) : Z :=
  u8 (Z.lxor (Z.lor (if pos then 128 else 0) (Z.lor (Z.shiftl e 4) m)) 213).

(** The middle of the interval a code stands for. *)
Definition ulaw_mid (e m : Z) : Z := (16 + m) * 2 ^ (e + 3) + 2 ^ (e + 2) - 132.
Definition alaw_mid (e m : Z) : Z :=
  if e =? 0 then 16 * m + 8 else (16 + m) * 2 ^ (e + 3) + 2 ^ (e + 2).

Lemma fields (P : bool -> Z -> Z -> bool) :
  forallb (fun s => forallb (fun e => forallb (P s e) (seqZ 0 16)) (seqZ 0 8)) [true; false] = true ->
  forall s e m, 0 <= e < 8 -> 0 <= m < 16 -> P s e m = true.
Proof.
  intros H s e m He Hm. rewrite forallb_forall in H.
  specialize (H s ltac:(destruct s; simpl; auto)). rewrite forallb_forall in H.
  specialize (H e ltac:(apply list_elem_of_In, elem_of_seqZ; lia)). rewrite forallb_forall in H.
  apply H, list_elem_of_In, elem_of_seqZ. lia.
Qed.

Lemma ulaw_decode_byte s e m :
  0 <= e < 8 -> 0 <= m < 16 ->
  rsd_bc_ulaw_decode (ulaw_byte s e m) = if s then - ulaw_mid e m else ulaw_mid e m.
Proof.
  intros He Hm. apply Z.eqb_eq. revert s e m He Hm.
  apply (fields (fun s e m => rsd_bc_ulaw_decode (ulaw_byte s e m) =? if s then - ulaw_mid e m else ulaw_mid e m)).
  by vm_compute.
Qed.

Lemma alaw_decode_byte s e m :
  0 <= e < 8 -> 0 <= m < 16 ->
  rsd_bc_alaw_decode (alaw_byte s e m) = if s then - alaw_mid e m else alaw_mid e m.
Proof.
  intros He Hm. apply Z.eqb_eq. revert s e m He Hm.
  apply (fields (fun s e m => rsd_bc_alaw_decode (alaw_byte s e m) =? if s then - alaw_mid e m else alaw_mid e m)).
  by vm_compute.
Qed.

(** ** What the encoders put together *)

Lemma land_pow2 x k : 0 <= k -> 0 <= x < 2 ^ (k + 1) -> (Z.land x (2 ^ k) =? 0) = (x <? 2 ^ k).
Proof.
  intros Hk Hx. assert (Hp : 2 ^ (k + 1) = 2 * 2 ^ k) by (rewrite Z.pow_add_r; lia).
  assert (Hl : Z.land x (2 ^ k) = if Z.testbit x k then 2 ^ k else 0).
  { apply Z.bits_inj'. intros n Hn. rewrite Z.land_spec, Z.pow2_bits_eqb by done.
    destruct (Z.eqb_spec k n) as [<-|Hne].
    - rewrite andb_true_r. destruct (Z.testbit x k) eqn:E; [by rewrite Z.pow2_bits_true|by rewrite Z.bits_0].
    - rewrite andb_false_r. destruct (Z.testbit x k); [by rewrite Z.pow2_bits_false|by rewrite Z.bits_0]. }
  rewrite Hl. assert (Hpos : 0 < 2 ^ k) by lia.
  assert (Hb : Z.testbit x k = negb (x <? 2 ^ k)).
  { pose proof (Z.testbit_spec' x k Hk) as Hs.
    destruct (Z.ltb_spec x (2 ^ k)) as [Hlt|Hge].
    - rewrite Z.div_small in Hs by lia. by destruct (Z.testbit x k).
    - assert (Hd : x / 2 ^ k = 1) by (symmetry; apply (Z.div_unique _ _ _ (x - 2 ^ k)); lia).
      rewrite Hd in Hs. by destruct (Z.testbit x k). }
  rewrite Hb. destruct (x <? 2 ^ k); cbn [negb]; [done|]. apply Z.eqb_neq. lia.
Qed.

Lemma find_exponent_spec fuel pcm e lo :
  0 <= lo <= e -> e - lo <= Z.of_nat fuel -> 2 ^ (lo + 7) <= pcm < 2 ^ (e + 8) ->
  let r := find_exponent fuel pcm (2 ^ (e + 7)) e lo in
  lo <= r <= e /\ 2 ^ (r + 7) <= pcm < 2 ^ (r + 8).
Proof.
  revert e. induction fuel as [|fuel IH]; intros e He Hf Hp; cbn [find_exponent]; cbv zeta.
  { replace e with lo in * by lia. split; [lia|done]. }
  assert (H7 : 0 < 2 ^ (lo + 7)) by lia.
  rewrite land_pow2 by (try lia; replace (e + 7 + 1) with (e + 8) by lia; lia).
  destruct (Z.ltb_spec pcm (2 ^ (e + 7))) as [Hlt|Hge]; cbn [andb].
  2: { split; [lia|]. split; [done|lia]. }
  destruct (Z.gtb_spec e lo) as [Hgt|Hle].
  - rewrite Z.shiftr_div_pow2 by lia. change (2 ^ 1) with 2.
    assert (Hd : 2 ^ (e + 7) / 2 = 2 ^ (e - 1 + 7)).
    { replace (e + 7) with (e - 1 + 7 + 1) by lia. rewrite Z.pow_add_r by lia. change (2 ^ 1) with 2.
      apply Z.div_mul. lia. }
    rewrite Hd. destruct (IH (e - 1)) as [IH1 IH2]; [lia|lia|replace (e - 1 + 8) with (e + 7) by lia; lia|].
    split; [lia|done].
  - assert (e = lo) by lia. subst e. lia.
Qed.

(** The mantissa of a value between two powers of two, and its interval. *)
Lemma mantissa_spec pcm r :
  0 <= r -> 2 ^ (r + 7) <= pcm < 2 ^ (r + 8) ->
  let m := Z.land (Z.shiftr pcm (r + 3)) 15 in
  0 <= m < 16 /\ (16 + m) * 2 ^ (r + 3) <= pcm < (17 + m) * 2 ^ (r + 3).
Proof.
  intros Hr Hp m. assert (E7 : 2 ^ (r + 7) = 16 * 2 ^ (r + 3)).
  { replace (r + 7) with (r + 3 + 4) by lia. rewrite Z.pow_add_r by lia. change (2 ^ 4) with 16. lia. }
  assert (E8 : 2 ^ (r + 8) = 32 * 2 ^ (r + 3)).
  { replace (r + 8) with (r + 3 + 5) by lia. rewrite Z.pow_add_r by lia. change (2 ^ 5) with 32. lia. }
  set (u := 2 ^ (r + 3)) in *. assert (Hu : 0 < u) by (unfold u; lia).
  unfold m. change 15 with (Z.ones 4). rewrite Z.land_ones, Z.shiftr_div_pow2 by lia. fold u.
  change (2 ^ 4) with 16. pose proof (Z.div_mod pcm u ltac:(lia)) as Hdm.
  pose proof (Z.mod_pos_bound pcm u Hu) as Hmb.
  assert (Hq : 16 <= pcm / u < 32) by nia.
  assert (Hm16 : (pcm / u) mod 16 = pcm / u - 16) by (symmetry; apply (Z.mod_unique _ _ 1); lia).
  rewrite Hm16. split; [lia|]. nia.
Qed.

Lemma sign_bit x : -32768 <= x < 32768 -> Z.land (Z.shiftr x 8) 128 = if x <? 0 then 128 else 0.
Proof.
  intros Hx. rewrite Z.shiftr_div_pow2 by lia. change (2 ^ 8) with 256.
  assert (Hq : -128 <= x / 256 < 128) by (split; [apply Z.div_le_lower_bound|apply Z.div_lt_upper_bound]; lia).
  assert (Hs : (x <? 0) = (x / 256 <? 0)).
  { destruct (Z.ltb_spec x 0), (Z.ltb_spec (x / 256) 0); try done; exfalso.
    - pose proof (Z.div_lt_upper_bound x 256 0). lia.
    - pose proof (Z.div_pos x 256). lia. }
  rewrite Hs. clear Hs. generalize dependent (x / 256). clear. intros q Hq.
  assert (Hall : forallb (fun q => Z.land q 128 =? if q <? 0 then 128 else 0) (seqZ (-128) 256) = true) by by vm_compute.
  rewrite forallb_forall in Hall. specialize (Hall q). apply Z.eqb_eq, Hall, list_elem_of_In, elem_of_seqZ. lia.
Qed.

(** The amplitude that is coded: clipped at 32635. *)
Definition clip (x : Z) : Z := Z.max (-32635) (Z.min 32635 x).

Lemma ulaw_encode_spec x :
  -32768 <= x < 32768 ->
  exists e m, 0 <= e < 8 /\ 0 <= m < 16 /\ pcm16_to_ulaw x = ulaw_byte (x <? 0) e m /\
    (16 + m) * 2 ^ (e + 3) <= Z.abs (clip x) + 132 < (17 + m) * 2 ^ (e + 3) /\
    2 ^ (e + 7) <= Z.abs (clip x) + 132.
Proof.
  intros Hx. unfold pcm16_to_ulaw.
  set (x1 := if x =? -32768 then -32767 else x).
  assert (Hx1 : -32768 <= x1 < 32768 /\ (x1 <? 0) = (x <? 0) /\ clip x1 = clip x).
  { unfold x1, clip. destruct (Z.eqb_spec x (-32768)) as [->|]; split_and!; lia || done. }
  destruct Hx1 as (H1 & H2 & H3). rewrite sign_bit by done.
  set (x2 := if negb _ then - x1 else x1). set (x3 := if x2 >? 32635 then 32635 else x2).
  assert (Hx3 : x3 = Z.abs (clip x)).
  { rewrite <- H3. unfold x3, x2, clip. destruct (Z.ltb_spec x1 0); cbn [Z.eqb negb];
      match goal with |- context [?a >? ?b] => destruct (Z.gtb_spec a b) end; lia. }
  assert (Hb : 0 <= x3 <= 32635) by (rewrite Hx3; unfold clip; lia).
  clearbody x3. clear x2.
  destruct (find_exponent_spec 7 (x3 + 132) 7 0) as [He Hp]; [lia|simpl; lia|simpl; lia|].
  change (2 ^ (7 + 7)) with 16384 in *. set (e := find_exponent 7 (x3 + 132) 16384 7 0) in *.
  destruct (mantissa_spec (x3 + 132) e ltac:(lia) Hp) as [Hm1 Hm2].
  exists e, (Z.land (Z.shiftr (x3 + 132) (e + 3)) 15). rewrite <- Hx3. split_and!; try lia.
  unfold ulaw_byte. rewrite H2. done.
Qed.

Lemma alaw_encode_spec x :
  -32768 <= x < 32768 ->
  exists e m, 0 <= e < 8 /\ 0 <= m < 16 /\ pcm16_to_alaw x = alaw_byte (negb (x <? 0)) e m /\
    (if e =? 0 then 16 * m <= Z.abs (clip x) < 16 * m + 16 /\ Z.abs (clip x) < 256
     else (16 + m) * 2 ^ (e + 3) <= Z.abs (clip x) < (17 + m) * 2 ^ (e + 3) /\
          2 ^ (e + 7) <= Z.abs (clip x)).
Proof.
  intros Hx. unfold pcm16_to_alaw.
  set (x1 := if x =? -32768 then -32767 else x).
  assert (Hx1 : -32768 <= x1 < 32768 /\ (x1 <? 0) = (x <? 0) /\ clip x1 = clip x).
  { unfold x1, clip. destruct (Z.eqb_spec x (-32768)) as [->|]; split_and!; lia || done. }
  destruct Hx1 as (H1 & H2 & H3). rewrite sign_bit by (unfold Z.lnot; lia).
  assert (Hs : (Z.lnot x1 <? 0) = negb (x1 <? 0)).
  { unfold Z.lnot. destruct (Z.ltb_spec x1 0), (Z.ltb_spec (Z.pred (- x1)) 0); lia || done. }
  rewrite Hs. set (x2 := if _ =? 0 then - x1 else x1). set (x3 := if x2 >? 32635 then 32635 else x2).
  assert (Hx3 : x3 = Z.abs (clip x)).
  { rewrite <- H3. unfold x3, x2, clip. destruct (Z.ltb_spec x1 0); cbn [Z.eqb negb];
      match goal with |- context [?a >? ?b] => destruct (Z.gtb_spec a b) end; lia. }
  assert (Hb : 0 <= x3 <= 32635) by (rewrite Hx3; unfold clip; lia).
  clearbody x3. clear x2. rewrite <- Hx3, H2. destruct (Z.geb_spec x3 256) as [Hge|Hlt].
  - destruct (find_exponent_spec 7 x3 7 1) as [He Hp]; [lia|simpl; lia|simpl; lia|].
    change (2 ^ (7 + 7)) with 16384 in *. set (e := find_exponent 7 x3 16384 7 1) in *.
    destruct (mantissa_spec x3 e ltac:(lia) Hp) as [Hm1 Hm2].
    exists e, (Z.land (Z.shiftr x3 (e + 3)) 15). split_and!; try lia; [done|].
    destruct (Z.eqb_spec e 0); lia.
  - exists 0, (Z.land (Z.shiftr x3 4) 15).
    change 15 with (Z.ones 4). rewrite Z.land_ones, Z.shiftr_div_pow2 by lia. change (2 ^ 4) with 16.
    rewrite (Z.mod_small (x3 / 16)) by (split; [apply Z.div_pos; lia|apply Z.div_lt_upper_bound; lia]).
    pose proof (Z.div_mod x3 16 ltac:(lia)). pose proof (Z.mod_pos_bound x3 16 ltac:(lia)).
    pose proof (Z.div_pos x3 16 ltac:(lia) ltac:(lia)). cbn [Z.eqb]. split_and!; try lia; done.
Qed.

(** Mu-law loses a thirty-second at most.  For every 16-bit sample, what
    the decoders of rsd, rhd, rwd and rac make of rad's code differs from the
    sample, clipped at 32635, by no more than (|sample| + 132) / 32. *)
Theorem rad_ulaw_accuracy x :
  -32768 <= x < 32768 ->
  32 * Z.abs (rsd_bc_ulaw_decode (pcm16_to_ulaw x) - clip x) <= Z.abs (clip x) + 132.
Proof.
  intros Hx. destruct (ulaw_encode_spec x Hx) as (e & m & He & Hm & -> & Hi & Hp).
  rewrite ulaw_decode_byte by done. unfold ulaw_mid.
  assert (E3 : 2 ^ (e + 3) = 2 * 2 ^ (e + 2)).
  { replace (e + 3) with (e + 2 + 1) by lia. rewrite Z.pow_add_r by lia. change (2 ^ 1) with 2. lia. }
  assert (E7 : 2 ^ (e + 7) = 32 * 2 ^ (e + 2)).
  { replace (e + 7) with (e + 2 + 5) by lia. rewrite Z.pow_add_r by lia. change (2 ^ 5) with 32. lia. }
  rewrite E3, E7 in *. set (u := 2 ^ (e + 2)) in *. clearbody u.
  assert (Hs : (x <? 0) = true -> clip x <= 0) by (intros H%Z.ltb_lt; unfold clip; lia).
  assert (Hs' : (x <? 0) = false -> 0 <= clip x) by (intros H%Z.ltb_ge; unfold clip; lia).
  destruct (x <? 0); [specialize (Hs eq_refl)|specialize (Hs' eq_refl)]; lia.
Qed.

Lemma rad_ulaw_accuracy_witness :
  32 * Z.abs (rsd_bc_ulaw_decode (pcm16_to_ulaw (-1000)) - (-1000)) <= 1132.
Proof. apply (rad_ulaw_accuracy (-1000)); lia. Defined.

(** Rad's A-law is upside down.  For every 16-bit sample, the decoder of
    the standard (rsd's backchannel, and rwd's) makes of rad's code the
    negated sample, as accurately as A-law allows. *)
Theorem rad_alaw_inverted x :
  -32768 <= x < 32768 ->
  32 * Z.abs (rsd_bc_alaw_decode (pcm16_to_alaw x) + clip x) <= Z.max 256 (Z.abs (clip x)).
Proof.
  intros Hx. destruct (alaw_encode_spec x Hx) as (e & m & He & Hm & -> & Hi).
  rewrite alaw_decode_byte by done. unfold alaw_mid.
  assert (Hs : (x <? 0) = true -> clip x <= 0) by (intros H%Z.ltb_lt; unfold clip; lia).
  assert (Hs' : (x <? 0) = false -> 0 <= clip x) by (intros H%Z.ltb_ge; unfold clip; lia).
  destruct (e =? 0).
  { destruct (x <? 0); cbn [negb]; [specialize (Hs eq_refl)|specialize (Hs' eq_refl)]; lia. }
  assert (E3 : 2 ^ (e + 3) = 2 * 2 ^ (e + 2)).
  { replace (e + 3) with (e + 2 + 1) by lia. rewrite Z.pow_add_r by lia. change (2 ^ 1) with 2. lia. }
  assert (E7 : 2 ^ (e + 7) = 32 * 2 ^ (e + 2)).
  { replace (e + 7) with (e + 2 + 5) by lia. rewrite Z.pow_add_r by lia. change (2 ^ 5) with 32. lia. }
  rewrite E3, E7 in *. set (u := 2 ^ (e + 2)) in *. clearbody u.
  destruct (x <? 0); cbn [negb]; [specialize (Hs eq_refl)|specialize (Hs' eq_refl)]; lia.
Qed.

Lemma rad_alaw_inverted_witness :
  32 * Z.abs (rsd_bc_alaw_decode (pcm16_to_alaw 12000) + 12000) <= 12000.
Proof. apply (rad_alaw_inverted 12000); lia. Defined.

(** Five decoders, three answers.  On every code: rwd decodes A-law as
    rsd does, rhd and rac decode it with the opposite sign (which undoes rad's
    polarity), rsp's A-law table is an eighth of the standard's amplitude, and
    rsp's mu-law table is 100 too far from zero. *)
Theorem g711_decoders_compared b :
  0 <= b < 256 ->
  rwd_alaw_decode b = rsd_bc_alaw_decode b /\
  rhd_alaw_to_pcm16 b = - rsd_bc_alaw_decode b /\ rac_alaw_to_pcm16 b = - rsd_bc_alaw_decode b /\
  8 * rsp_alaw_table b = rsd_bc_alaw_decode b /\
  rsp_ulaw_table b = rsd_bc_ulaw_decode b + (if b <? 128 then -100 else 100).
Proof.
  intros Hb. assert (H : forallb (fun b =>
    (rwd_alaw_decode b =? rsd_bc_alaw_decode b) && (rhd_alaw_to_pcm16 b =? - rsd_bc_alaw_decode b) &&
    (rac_alaw_to_pcm16 b =? - rsd_bc_alaw_decode b) && (8 * rsp_alaw_table b =? rsd_bc_alaw_decode b) &&
    (rsp_ulaw_table b =? rsd_bc_ulaw_decode b + (if b <? 128 then -100 else 100))) codes = true) by by vm_compute.
  pose proof (all_codes _ H b Hb) as Hc. cbv beta in Hc. rewrite !andb_true_iff, !Z.eqb_eq in Hc.
  destruct Hc as ((((H1 & H2) & H3) & H4) & H5).
  exact (conj H1 (conj H2 (conj H3 (conj H4 H5)))).
Qed.

Lemma g711_decoders_compared_witness :
  rwd_alaw_decode 213 = rsd_bc_alaw_decode 213 /\
  rhd_alaw_to_pcm16 213 = - rsd_bc_alaw_decode 213 /\ rac_alaw_to_pcm16 213 = - rsd_bc_alaw_decode 213 /\
  8 * rsp_alaw_table 213 = rsd_bc_alaw_decode 213 /\
  rsp_ulaw_table 213 = rsd_bc_ulaw_decode 213 + (if 213 <? 128 then -100 else 100).
Proof. apply (g711_decoders_compared 213). lia. Defined.
