(* ===== verification/RadClock.v ===== *)
(** * rad: the capture clock (rad/rad_clock.c)

    The synthetic clock that advances by sample count and slews toward the
    monotonic clock.  Division of signed 64-bit values truncates toward zero. *)

From stdpp Require Import list.
From S2P Require Import Prelude.

(** ** The code *)

Definition RAD_SYNTH_RESYNC_BEHIND_US : Z := 150000.
Definition RAD_SYNTH_RESYNC_AHEAD_US : Z := 1000000.
Definition RAD_SYNTH_SLEW_MAX_US : Z := 1000.
Definition RAD_SYNTH_EWMA_DIV : Z := 16.
Definition RAD_SYNTH_GAIN_DIV : Z := 16.

Record rad_clock := mk_rad_clock {
  rc_ts : Z; rc_last_read_us : Z; rc_err_ewma_us : Z; rc_resync_us : Z
}.

#[export] Instance eta_rad_clock : Settable rad_clock := fun c =>
  mk_rad_clock (rc_ts c) (rc_last_read_us c) (rc_err_ewma_us c) (rc_resync_us c).

Definition rad_clock_init (now_us : Z) : rad_clock := mk_rad_clock now_us now_us 0 0.

Definition rad_clock_stamp (samples rate now_us : Z) (c : rad_clock) : Z * rad_clock :=
  let out := rc_ts c in
  let c := c <| rc_resync_us := 0 |> <| rc_ts := rc_ts c + (samples * 1000000) ÷ rate |> in
  let read_gap := now_us - rc_last_read_us c in
  let c := c <| rc_last_read_us := now_us |> in
  let live_paced := (read_gap >=? 15000) && (read_gap <=? 150000) in
  let clk_err := now_us - rc_ts c in
  if (clk_err >? RAD_SYNTH_RESYNC_BEHIND_US) || (clk_err <? - RAD_SYNTH_RESYNC_AHEAD_US) then
    (out, if live_paced
          then c <| rc_ts := rc_ts c + clk_err |> <| rc_err_ewma_us := 0 |> <| rc_resync_us := clk_err |>
          else c)
  else
    let c := c <| rc_err_ewma_us := rc_err_ewma_us c + (clk_err - rc_err_ewma_us c) ÷ RAD_SYNTH_EWMA_DIV |> in
    let slew := rc_err_ewma_us c ÷ RAD_SYNTH_GAIN_DIV in
    let slew := if slew >? RAD_SYNTH_SLEW_MAX_US then RAD_SYNTH_SLEW_MAX_US
                else if slew <? - RAD_SYNTH_SLEW_MAX_US then - RAD_SYNTH_SLEW_MAX_US else slew in
    (out, c <| rc_ts := rc_ts c + slew |>).

(** ** The timeline *)

Definition live_paced (now : Z) (c : rad_clock) : bool :=
  (now - rc_last_read_us c >=? 15000) && (now - rc_last_read_us c <=? 150000).

(** What one chunk does to the clock. *)
Lemma stamp_step samples rate now c :
  let d := (samples * 1000000) ÷ rate in
  let '(out, c') := rad_clock_stamp samples rate now c in
  out = rc_ts c /\ rc_last_read_us c' = now /\
  (rc_resync_us c' = 0 /\ rc_ts c + d - 1000 <= rc_ts c' <= rc_ts c + d + 1000 \/
   rc_resync_us c' <> 0 /\ rc_ts c' = now /\ rc_resync_us c' = now - (rc_ts c + d)) /\
  (rc_resync_us c' <> 0 -> live_paced now c = true) /\
  (live_paced now c = true -> -1001000 <= now - rc_ts c' <= 151000).
Proof.
  intros d. unfold rad_clock_stamp, live_paced. fold d. destruct c as [ts last ew rs].
  cbn -[Z.quot Z.add Z.sub Z.mul Z.gtb Z.ltb Z.geb Z.leb Z.opp].
  unfold RAD_SYNTH_RESYNC_BEHIND_US, RAD_SYNTH_RESYNC_AHEAD_US, RAD_SYNTH_SLEW_MAX_US.
  destruct (Z.gtb_spec (now - (ts + d)) 150000) as [Hb|Hb]; cbn [orb].
  - destruct (_ && _); cbn; split_and!; try lia; try done.
  - destruct (Z.ltb_spec (now - (ts + d)) (Z.opp 1000000)) as [Ha|Ha].
    + destruct (_ && _); cbn; split_and!; try lia; try done.
    + match goal with |- context [if ?s >? 1000 then 1000 else _] => set (slew := s) end.
      match goal with |- context [if slew >? 1000 then 1000 else ?r] => set (sl := if slew >? 1000 then 1000 else r) end.
      assert (Hs : -1000 <= sl <= 1000).
      { unfold sl. destruct (Z.gtb_spec slew 1000); [lia|]. destruct (Z.ltb_spec slew (Z.opp 1000)); lia. }
      clearbody sl. cbn. split_and!; try lia; done.
Qed.

(** ** A run of chunks *)

Record chunk := mk_chunk { ck_samples : Z; ck_rate : Z; ck_now : Z }.
Definition ck_dur (k : chunk) : Z := (ck_samples k * 1000000) ÷ ck_rate k.

(** The timestamps published, with the resync each chunk ended in. *)
Fixpoint stamps (ks : list chunk) (c : rad_clock) : list (Z * Z) :=
  match ks with
  | [] => []
  | k :: ks =>
      let '(out, c) := rad_clock_stamp (ck_samples k) (ck_rate k) (ck_now k) c in
      (out, rc_resync_us c) :: stamps ks c
  end.

(** Each stamp is its predecessor plus its duration, corrected by at most a
    millisecond, or by exactly the jump a hard resync reports. *)
Fixpoint steady_line (ks : list chunk) (ts : Z) (l : list (Z * Z)) : Prop :=
  match ks, l with
  | k :: ks, (out, jump) :: l =>
      out = ts /\
      exists ts', steady_line ks ts' l /\
        (jump = 0 /\ ts + ck_dur k - 1000 <= ts' <= ts + ck_dur k + 1000 \/
         jump <> 0 /\ ts' = ts + ck_dur k + jump /\ ts' = ck_now k)
  | _, _ => l = []
  end.

(** The audio timeline is continuous.  Over any chunks and any reading
    times, each published timestamp is the previous one plus its chunk's
    duration, give or take a millisecond of slew; the only other steps are
    hard resyncs, which put the clock on the wall clock exactly, by the amount
    they report.  After every chunk read at the live pace the clock is no more
    than 151 ms behind the wall clock and 1001 ms ahead. *)
Theorem rad_clock_continuous ks c :
  steady_line ks (rc_ts c) (stamps ks c) /\
  forall samples rate now, live_paced now c = true ->
    -1001000 <= now - rc_ts (snd (rad_clock_stamp samples rate now c)) <= 151000.
Proof.
  split.
  - revert c. induction ks as [|k ks IH]; intros c; [done|]. cbn [stamps].
    pose proof (stamp_step (ck_samples k) (ck_rate k) (ck_now k) c) as Hs. cbv zeta in Hs.
    destruct (rad_clock_stamp _ _ _ c) as [out c']. destruct Hs as (S1 & S2 & S3 & _).
    cbn [steady_line]. split; [done|]. exists (rc_ts c'). split; [apply IH|]. fold (ck_dur k) in S3.
    destruct S3 as [[R1 R2]|(R1 & R2 & R3)]; [left; lia|right; lia].
  - intros samples rate now Hl. pose proof (stamp_step samples rate now c) as Hs. cbv zeta in Hs.
    destruct (rad_clock_stamp samples rate now c) as [out c']. destruct Hs as (_ & _ & _ & _ & S5). by apply S5.
Qed.
