(* ===== verification/RingSize.v ===== *)
(** * rvd: how big a JPEG ring has to be (rvd/rvd_ring_size.c) *)

From stdpp Require Import list.
From S2P Require Import Prelude.

Definition RVD_JPEG_RING_MAX : Z := 4 * 1024 * 1024.

Definition rvd_jpeg_ring_slots (fps : Z) : Z :=
  if fps >=? 9 then 16 else if fps >=? 3 then 8 else 4.

Definition rvd_jpeg_frame_bound (w h : Z) : Z := u32 (u32 (w * h) / 2 + 32768).

Definition rvd_jpeg_ring_data (w h quality fps : Z) : Z :=
  let divisor := if quality >=? 90 then 6 else if quality >=? 70 then 16 else 24 in
  let jpeg_avg := u32 (w * h) / divisor in
  let bound := rvd_jpeg_frame_bound w h in
  let jpeg_avg := if jpeg_avg <? 16384 then 16384 else jpeg_avg in
  let data := u32 (jpeg_avg * rvd_jpeg_ring_slots fps) in
  let data := if data >? RVD_JPEG_RING_MAX then RVD_JPEG_RING_MAX else data in
  if data <? bound then bound else data.

(** A JPEG ring can carry its own frames.  For every picture up to
    65535 x 65535, quality and frame rate, the data region holds one frame of
    the bound (half a byte per pixel plus 32 KiB, computed without overflow),
    is no larger than that or the 4 MiB cap, and the slot count is a power of
    two; the slot estimate may wrap at 32 bits, which the floor absorbs. *)
Theorem rvd_jpeg_ring_fits w h quality fps :
  0 <= w < 65536 -> 0 <= h < 65536 ->
  rvd_jpeg_frame_bound w h = w * h / 2 + 32768 /\
  w * h / 2 + 32768 <= rvd_jpeg_ring_data w h quality fps <= Z.max RVD_JPEG_RING_MAX (w * h / 2 + 32768) /\
  exists k, rvd_jpeg_ring_slots fps = 2 ^ k.
Proof.
  intros Hw Hh. assert (Hp : 0 <= w * h < 2 ^ 32) by nia.
  assert (Hd : 0 <= w * h / 2 < 2 ^ 31).
  { split; [apply Z.div_pos; lia|apply Z.div_lt_upper_bound; lia]. }
  assert (Hb : rvd_jpeg_frame_bound w h = w * h / 2 + 32768).
  { unfold rvd_jpeg_frame_bound. rewrite (uwrap_id 32 (w * h)) by (unfold in_u; lia).
    apply uwrap_id. unfold in_u. lia. }
  split; [done|]. split.
  - unfold rvd_jpeg_ring_data. rewrite Hb. set (data := u32 _).
    match goal with |- context [if data >? ?m then ?m else data] => set (capped := if data >? m then m else data) end.
    assert (Hc : capped <= RVD_JPEG_RING_MAX) by (unfold capped; destruct (Z.gtb_spec data RVD_JPEG_RING_MAX); lia).
    clearbody capped. destruct (Z.ltb_spec capped (w * h / 2 + 32768)); lia.
  - unfold rvd_jpeg_ring_slots. destruct (fps >=? 9); [by exists 4|]. destruct (fps >=? 3); [by exists 3|by exists 2].
Qed.

Lemma rvd_jpeg_ring_fits_witness :
  rvd_jpeg_frame_bound 2304 1296 = 2304 * 1296 / 2 + 32768 /\
  2304 * 1296 / 2 + 32768 <= rvd_jpeg_ring_data 2304 1296 75 10 <= Z.max RVD_JPEG_RING_MAX (2304 * 1296 / 2 + 32768) /\
  exists k, rvd_jpeg_ring_slots 10 = 2 ^ k.
Proof. apply (rvd_jpeg_ring_fits 2304 1296 75 10); lia. Defined.
