(* ===== verification/Rtmp.v ===== *)
(** * rsp: the RTMP client (rsp/rsp_rtmp.c)

    Connection state, AMF0 commands, the chunk writer, the response reader and
    the FLV media messages, for a build without TLS.  The socket is part of the
    connection record: the bytes written so far, what the next calls of
    write(2) answer, and the segments the next calls of read(2) return (an
    empty segment, or none left, is an error, end of file or timeout). *)

From Stdlib Require Import String Ascii.
From stdpp Require Import list.
From S2P Require Import Prelude.

(** ** Connection record *)

Inductive rsp_conn_state :=
  RSP_STATE_DISCONNECTED | RSP_STATE_HANDSHAKE | RSP_STATE_CONNECTING
| RSP_STATE_CONNECTED | RSP_STATE_PUBLISHING | RSP_STATE_ERROR.

(** The enumerator's value, which the code compares with [<]. *)
Definition state_num (s : rsp_conn_state) : Z :=
  match s with
  | RSP_STATE_DISCONNECTED => 0 | RSP_STATE_HANDSHAKE => 1 | RSP_STATE_CONNECTING => 2
  | RSP_STATE_CONNECTED => 3 | RSP_STATE_PUBLISHING => 4 | RSP_STATE_ERROR => 5
  end.

#[export] Instance rsp_conn_state_eq_dec : EqDecision rsp_conn_state.
Proof. solve_decision. Defined.

(** One answer of write(2): a count (cut to what was offered), an interrupted
    call, or another error.  A script that has run out accepts everything. *)
Inductive write_answer := W_bytes (n : nat) | W_eintr | W_error.

Record rsp_rtmp := mk_rsp_rtmp {
  rt_open : bool;
  rt_state : rsp_conn_state;
  rt_chunk_size : Z;
  rt_in_chunk_size : Z;
  rt_stream_id : Z;
  rt_app : list Z;
  rt_stream_key : list Z;
  rt_tc_url : list Z;
  rt_video_ts_set : bool;
  rt_audio_ts_set : bool;
  rt_recv_buf : option (list Z);
  rt_send_buf_size : option Z;
  rt_out : list Z;
  rt_writes : list write_answer;
  rt_in : list (list Z)
}.

#[export] Instance eta_rsp_rtmp : Settable rsp_rtmp := fun c =>
  mk_rsp_rtmp (rt_open c) (rt_state c) (rt_chunk_size c) (rt_in_chunk_size c) (rt_stream_id c)
    (rt_app c) (rt_stream_key c) (rt_tc_url c) (rt_video_ts_set c) (rt_audio_ts_set c)
    (rt_recv_buf c) (rt_send_buf_size c) (rt_out c) (rt_writes c) (rt_in c).

Definition RTMP_HANDSHAKE_SIZE : nat := 1536.
Definition RTMP_DEFAULT_CHUNK_SZ : Z := 128.
Definition RTMP_CHUNK_SZ_OUT : Z := 4096.
Definition RTMP_CSID_CONTROL : Z := 2.
Definition RTMP_CSID_COMMAND : Z := 3.
Definition RTMP_CSID_AUDIO : Z := 4.
Definition RTMP_CSID_VIDEO : Z := 6.
Definition RTMP_MSG_SET_CHUNK_SIZE : Z := 1.
Definition RTMP_MSG_WINDOW_ACK_SIZE : Z := 5.
Definition RTMP_MSG_SET_PEER_BW : Z := 6.
Definition RTMP_MSG_AUDIO : Z := 8.
Definition RTMP_MSG_VIDEO : Z := 9.
Definition RTMP_MSG_AMF0_CMD : Z := 20.
Definition TS_ESCAPE : Z := 16777215.

(** ** Calls that answer 0 or -1 *)

Definition rtmp_act := rsp_rtmp -> Z * rsp_rtmp.

Definition ret0 : rtmp_act := fun c => (0, c).

(** [if (a(...) < 0) return -1; b]. *)
Definition act_seq (a b : rtmp_act) : rtmp_act := fun c =>
  let '(r, c) := a c in if r <? 0 then (-1, c) else b c.

Declare Scope rtmp_scope.
Delimit Scope rtmp_scope with rtmp.
Notation "a ;;! b" := (act_seq a b) (at level 60, right associativity) : rtmp_scope.
#[local] Open Scope rtmp_scope.

Fixpoint write_loop (ws : list write_answer) (p out : list Z)
    : bool * list Z * list write_answer :=
  match p with
  | [] => (true, out, ws)
  | _ =>
      match ws with
      | [] => (true, out ++ p, [])
      | W_eintr :: ws => write_loop ws p out
      | W_error :: ws => (false, out, ws)
      | W_bytes n :: ws => write_loop ws (drop n p) (out ++ take n p)
      end
  end.

Definition rtmp_send (buf : list Z) : rtmp_act := fun c =>
  let '(ok, out, ws) := write_loop (rt_writes c) buf (rt_out c) in
  (if ok then 0 else -1, c <| rt_out := out |> <| rt_writes := ws |>).

(** One read(2): at most [len] bytes of the first pending segment. *)
Definition rtmp_recv (len : nat) (c : rsp_rtmp) : list Z * rsp_rtmp :=
  match rt_in c with
  | [] => ([], c)
  | seg :: rest =>
      (take len seg,
       c <| rt_in := if (length seg <=? len)%nat then rest else drop len seg :: rest |>)
  end.

Fixpoint recv_loop (fuel : nat) (len : nat) (got : list Z) (c : rsp_rtmp)
    : option (list Z) * rsp_rtmp :=
  if (len <=? length got)%nat then (Some got, c) else
  match fuel with
  | O => (None, c)
  | S fuel =>
      match rtmp_recv (len - length got) c with
      | ([], c) => (None, c)
      | (l, c) => recv_loop fuel len (got ++ l) c
      end
  end.

Definition rtmp_recv_full (len : nat) : rsp_rtmp -> option (list Z) * rsp_rtmp :=
  recv_loop len len [].

(** ** Big-endian helpers and AMF0 *)

Definition put_be16 (v : Z) : list Z := [u8 (Z.shiftr v 8); u8 v].
Definition put_be24 (v : Z) : list Z := [u8 (Z.shiftr v 16); u8 (Z.shiftr v 8); u8 v].
Definition put_be32 (v : Z) : list Z :=
  [u8 (Z.shiftr v 24); u8 (Z.shiftr v 16); u8 (Z.shiftr v 8); u8 v].
Definition put_le32 (v : Z) : list Z :=
  [u8 v; u8 (Z.shiftr v 8); u8 (Z.shiftr v 16); u8 (Z.shiftr v 24)].

Definition get_be32 (l : list Z) : Z :=
  Z.lor (Z.lor (Z.lor (Z.shiftl (l !!! 0%nat) 24) (Z.shiftl (l !!! 1%nat) 16))
               (Z.shiftl (l !!! 2%nat) 8)) (l !!! 3%nat).

Definition str (s : string) : list Z :=
  (fun c => Z.of_N (N_of_ascii c)) <$> list_ascii_of_string s.

Definition AMF0_NUMBER : Z := 0.
Definition AMF0_STRING : Z := 2.
Definition AMF0_OBJECT : Z := 3.
Definition AMF0_NULL : Z := 5.
Definition AMF0_OBJ_END : Z := 9.

(** The binary64 patterns of the three constants the commands use. *)
Definition dbl_0 : Z := 0.
Definition dbl_1 : Z := 1023 * 2 ^ 52.
Definition dbl_2 : Z := 1024 * 2 ^ 52.

Definition amf0_write_number (bits : Z) : list Z :=
  AMF0_NUMBER :: ((fun i => u8 (Z.shiftr bits (56 - i * 8))) <$> [0; 1; 2; 3; 4; 5; 6; 7]).

Definition amf0_write_string (s : list Z) : list Z :=
  let len := u16 (Z.of_nat (length s)) in
  AMF0_STRING :: put_be16 len ++ take (Z.to_nat len) s.

Definition amf0_write_null : list Z := [AMF0_NULL].

Definition amf0_write_prop_name (name : list Z) : list Z :=
  let len := u16 (Z.of_nat (length name)) in put_be16 len ++ take (Z.to_nat len) name.

Definition amf0_write_obj_end : list Z := [0; 0; AMF0_OBJ_END].

(** ** Chunk writer *)

(** The header of one chunk: the full form on the first, the short form on the
    rest, and in both cases the extended timestamp in a send of its own. *)
Definition send_chunk_header (first : bool) (csid msg_type stream_id timestamp len : Z) : rtmp_act :=
  let hdr :=
    if first then
      [Z.land csid 63] ++ put_be24 (if timestamp >? TS_ESCAPE then TS_ESCAPE else timestamp)
      ++ put_be24 len ++ [msg_type] ++ put_le32 stream_id
    else [Z.lor 192 (Z.land csid 63)] in
  if timestamp >? TS_ESCAPE then rtmp_send hdr ;;! rtmp_send (put_be32 timestamp)
  else rtmp_send hdr.

Fixpoint send_message_loop (fuel : nat) (csid msg_type stream_id timestamp : Z)
    (data : list Z) (offset : nat) : rtmp_act := fun c =>
  if (offset <? length data)%nat then
    match fuel with
    | O => (-1, c)
    | S fuel =>
        let payload := Nat.min (length data - offset) (Z.to_nat (rt_chunk_size c)) in
        (send_chunk_header (offset =? 0)%nat csid msg_type stream_id timestamp
           (Z.of_nat (length data)) ;;!
         rtmp_send (take payload (drop offset data)) ;;!
         send_message_loop fuel csid msg_type stream_id timestamp data (offset + payload)) c
    end
  else (0, c).

Definition rtmp_send_message (csid msg_type stream_id timestamp : Z) (data : list Z) : rtmp_act :=
  send_message_loop (length data) csid msg_type stream_id timestamp data 0.

Definition rtmp_send_control (msg_type : Z) (data : list Z) : rtmp_act :=
  rtmp_send_message RTMP_CSID_CONTROL msg_type 0 0 data.

(** ** Commands *)

Definition connect_command (c : rsp_rtmp) : list Z :=
  amf0_write_string (str "connect") ++ amf0_write_number dbl_1 ++
  [AMF0_OBJECT] ++
  amf0_write_prop_name (str "app") ++ amf0_write_string (rt_app c) ++
  amf0_write_prop_name (str "type") ++ amf0_write_string (str "nonprivate") ++
  amf0_write_prop_name (str "flashVer") ++ amf0_write_string (str "FMLE/3.0") ++
  amf0_write_prop_name (str "tcUrl") ++ amf0_write_string (rt_tc_url c) ++
  amf0_write_obj_end.

Definition rtmp_send_connect : rtmp_act := fun c =>
  rtmp_send_message RTMP_CSID_COMMAND RTMP_MSG_AMF0_CMD 0 0 (connect_command c) c.

Definition create_stream_command : list Z :=
  amf0_write_string (str "createStream") ++ amf0_write_number dbl_2 ++ amf0_write_null.

Definition rtmp_send_create_stream : rtmp_act :=
  rtmp_send_message RTMP_CSID_COMMAND RTMP_MSG_AMF0_CMD 0 0 create_stream_command.

Definition publish_command (c : rsp_rtmp) : list Z :=
  amf0_write_string (str "publish") ++ amf0_write_number dbl_0 ++ amf0_write_null ++
  amf0_write_string (rt_stream_key c) ++ amf0_write_string (str "live").

Definition rtmp_send_publish : rtmp_act := fun c =>
  rtmp_send_message RTMP_CSID_COMMAND RTMP_MSG_AMF0_CMD (rt_stream_id c) 0 (publish_command c) c.

Definition rtmp_send_set_chunk_size (size : Z) : rtmp_act := fun c =>
  rtmp_send_control RTMP_MSG_SET_CHUNK_SIZE (put_be32 size) (c <| rt_chunk_size := size |>).

Definition rtmp_send_window_ack (size : Z) : rtmp_act :=
  rtmp_send_control RTMP_MSG_WINDOW_ACK_SIZE (put_be32 size).

(** ** Responses *)

Record rtmp_cs_state := mk_cs {
  cs_msg_len : Z; cs_msg_type : Z; cs_stream_id : Z; cs_msg_got : Z
}.

#[export] Instance eta_rtmp_cs_state : Settable rtmp_cs_state := fun s =>
  mk_cs (cs_msg_len s) (cs_msg_type s) (cs_stream_id s) (cs_msg_got s).

Definition RTMP_MAX_CSID : nat := 16.
Definition cs_zero : rtmp_cs_state := mk_cs 0 0 0 0.
#[export] Instance cs_inhabited : Inhabited rtmp_cs_state := populate cs_zero.

Section responses.

(** What the compiled conversion of a double to uint32_t gives where C leaves
    it undefined (negative, too large, infinite, not a number). *)
Variable dbl_ub : Z -> Z.

(** [(uint32_t)d] for the double with this bit pattern: truncation. *)
Definition double_to_u32 (bits : Z) : Z :=
  let e := Z.land (Z.shiftr bits 52) 2047 in
  let m := Z.land bits (2 ^ 52 - 1) in
  if e <? 1023 then 0
  else if Z.testbit bits 63 || (1055 <=? e) then u32 (dbl_ub bits)
  else Z.shiftr (2 ^ 52 + m) (1075 - e).

(** The stream id of a createStream result, read at [p]. *)
Definition result_stream_id (buf : list Z) (p msg_len : Z) : option Z :=
  let p := if (p <? msg_len) && (buf !!! Z.to_nat p =? AMF0_NUMBER) then p + 9 else p in
  let p := if (p <? msg_len) && (buf !!! Z.to_nat p =? AMF0_NULL) then p + 1 else p in
  if (p + 9 <=? msg_len) && (buf !!! Z.to_nat p =? AMF0_NUMBER) then
    Some (double_to_u32
      (fold_left (fun u b => Z.lor (u64 (Z.shiftl u 8)) b) (take 8 (drop (Z.to_nat (p + 1)) buf)) 0))
  else None.

(** [slen == length s && memcmp(recv_buf + 3, s, length s) == 0]. *)
Definition is_command (buf : list Z) (slen : Z) (s : string) : bool :=
  (slen =? Z.of_nat (length (str s))) &&
  bool_decide (take (length (str s)) (drop 3 buf) = str s).

Definition process_command (msg_len : Z) (c : rsp_rtmp) : rsp_rtmp :=
  let buf := default [] (rt_recv_buf c) in
  if (msg_len >? 3) && (buf !!! 0%nat =? AMF0_STRING) then
    let slen := Z.lor (u16 (Z.shiftl (buf !!! 1%nat) 8)) (buf !!! 2%nat) in
    if slen >? msg_len - 3 then c else
    if is_command buf slen "_result" then
      match rt_state c with
      | RSP_STATE_HANDSHAKE => c <| rt_state := RSP_STATE_CONNECTING |>
      | RSP_STATE_CONNECTING =>
          let c := match result_stream_id buf (3 + slen) msg_len with
                   | Some id => c <| rt_stream_id := id |>
                   | None => c
                   end in
          c <| rt_state := RSP_STATE_CONNECTED |>
      | _ => c
      end
    else if is_command buf slen "onStatus" then c <| rt_state := RSP_STATE_PUBLISHING |>
    else if is_command buf slen "_error" then c <| rt_state := RSP_STATE_ERROR |>
    else c
  else c.

Definition rtmp_process_message (msg_type msg_len : Z) (c : rsp_rtmp) : rsp_rtmp :=
  if msg_type =? RTMP_MSG_SET_CHUNK_SIZE then
    if msg_len >=? 4
    then c <| rt_in_chunk_size := Z.land (get_be32 (default [] (rt_recv_buf c))) 2147483647 |> else c
  else if msg_type =? RTMP_MSG_SET_PEER_BW then snd (rtmp_send_window_ack 2500000 c)
  else if msg_type =? RTMP_MSG_AMF0_CMD then process_command msg_len c
  else c.

(** The chunk stream id that follows the basic header byte. *)
Definition read_csid (basic : Z) (c : rsp_rtmp) : option Z * rsp_rtmp :=
  let csid := Z.land basic 63 in
  if csid =? 0 then
    match rtmp_recv_full 1 c with
    | (Some b, c) => (Some (b !!! 0%nat + 64), c)
    | (None, c) => (None, c)
    end
  else if csid =? 1 then
    match rtmp_recv_full 2 c with
    | (Some b, c) => (Some (b !!! 1%nat * 256 + b !!! 0%nat + 64), c)
    | (None, c) => (None, c)
    end
  else (Some csid, c).

Definition be24 (l : list Z) (i : nat) : Z :=
  Z.lor (Z.lor (Z.shiftl (l !!! i) 16) (Z.shiftl (l !!! S i) 8)) (l !!! S (S i)).

(** The four bytes after a header whose timestamp field is all ones. *)
Definition skip_extended (ts : Z) (c : rsp_rtmp) : bool * rsp_rtmp :=
  if ts =? TS_ESCAPE then
    match rtmp_recv_full 4 c with (Some _, c) => (true, c) | (None, c) => (false, c) end
  else (true, c).

(** The message header of each format, applied to the chunk stream's state. *)
Definition read_message_header (fmt : Z) (s : rtmp_cs_state) (c : rsp_rtmp)
    : option rtmp_cs_state * rsp_rtmp :=
  if fmt =? 0 then
    match rtmp_recv_full 11 c with
    | (None, c) => (None, c)
    | (Some mh, c) =>
        let s := s <| cs_msg_len := be24 mh 3 |> <| cs_msg_type := mh !!! 6%nat |>
                   <| cs_stream_id := Z.lor (Z.lor (Z.lor (Z.shiftl (mh !!! 10%nat) 24)
                        (Z.shiftl (mh !!! 9%nat) 16)) (Z.shiftl (mh !!! 8%nat) 8)) (mh !!! 7%nat) |>
                   <| cs_msg_got := 0 |> in
        let '(ok, c) := skip_extended (be24 mh 0) c in (if ok then Some s else None, c)
    end
  else if fmt =? 1 then
    match rtmp_recv_full 7 c with
    | (None, c) => (None, c)
    | (Some mh, c) =>
        let s := s <| cs_msg_len := be24 mh 3 |> <| cs_msg_type := mh !!! 6%nat |>
                   <| cs_msg_got := 0 |> in
        let '(ok, c) := skip_extended (be24 mh 0) c in (if ok then Some s else None, c)
    end
  else if fmt =? 2 then
    match rtmp_recv_full 3 c with
    | (None, c) => (None, c)
    | (Some mh, c) =>
        let '(ok, c) := skip_extended (be24 mh 0) c in (if ok then Some s else None, c)
    end
  else (Some s, c).

(** The loop that discards a chunk the buffer has no room for. *)
Fixpoint skip_loop (fuel : nat) (skip : nat) (c : rsp_rtmp) : bool * rsp_rtmp :=
  match skip, fuel with
  | O, _ => (true, c)
  | _, O => (false, c)
  | _, S fuel =>
      let rd := Nat.min skip 512 in
      match rtmp_recv_full rd c with
      | (Some _, c) => skip_loop fuel (skip - rd) c
      | (None, c) => (false, c)
      end
  end.

(** [recv_full(recv_buf + at, chunk)], or the discarding loop. *)
Definition read_payload (got : nat) (chunk : nat) (c : rsp_rtmp) : bool * rsp_rtmp :=
  let buf := default [] (rt_recv_buf c) in
  if (length buf <? got + chunk)%nat then skip_loop chunk chunk c
  else
    match rtmp_recv_full chunk c with
    | (Some l, c) => (true, c <| rt_recv_buf := Some (take got buf ++ l ++ drop (got + chunk) buf) |>)
    | (None, c) => (false, c)
    end.

(** The payload of a chunk whose header left its stream in state [s]. *)
Definition read_chunk_body (csi : nat) (s : rtmp_cs_state) (cs : list rtmp_cs_state) (c : rsp_rtmp)
    : option (list rtmp_cs_state) * rsp_rtmp :=
  if cs_msg_len s =? 0 then (Some (<[csi := s]> cs), c) else
  let remaining := u32 (cs_msg_len s - cs_msg_got s) in
  let chunk := if remaining >? rt_in_chunk_size c then rt_in_chunk_size c else remaining in
  let '(ok, c) := read_payload (Z.to_nat (cs_msg_got s)) (Z.to_nat chunk) c in
  if negb ok then (None, c) else
  let s := s <| cs_msg_got := u32 (cs_msg_got s + chunk) |> in
  let c := if cs_msg_got s >=? cs_msg_len s
           then rtmp_process_message (cs_msg_type s) (cs_msg_len s) c else c in
  (Some (<[csi := s]> cs), c).

(** One iteration of the read loop, after the deadline test. *)
Definition read_chunk (cs : list rtmp_cs_state) (c : rsp_rtmp)
    : option (list rtmp_cs_state) * rsp_rtmp :=
  match rtmp_recv 1 c with
  | ([], c) => (None, c)
  | (basic :: _, c) =>
      match read_csid basic c with
      | (None, c) => (None, c)
      | (Some csid, c) =>
          let csi := if csid <? Z.of_nat RTMP_MAX_CSID then Z.to_nat csid else 0%nat in
          match read_message_header (Z.land (Z.shiftr basic 6) 3) (cs !!! csi) c with
          | (None, c) => (None, c)
          | (Some s, c) => read_chunk_body csi s cs c
          end
      end
  end.

(** [now i] is what the clock shows at its [i]-th reading after the deadline was
    set.  Every iteration reads at least one byte. *)
Fixpoint responses_loop (fuel : nat) (now : nat -> Z) (deadline : Z) (target : rsp_conn_state)
    (cs : list rtmp_cs_state) (c : rsp_rtmp) : Z * rsp_rtmp :=
  if (state_num (rt_state c) <? state_num target) && negb (bool_decide (rt_state c = RSP_STATE_ERROR))
  then
    match fuel with
    | O => (-1, c)
    | S fuel =>
        if (deadline - now 0%nat) ÷ 1000 <=? 0 then (-1, c) else
        match read_chunk cs c with
        | (None, c) => (-1, c)
        | (Some cs, c) => responses_loop fuel (fun i => now (S i)) deadline target cs c
        end
    end
  else (if bool_decide (rt_state c = RSP_STATE_ERROR) then -1 else 0, c).

Definition rtmp_read_responses (now : nat -> Z) (target : rsp_conn_state) (timeout_ms : Z)
    : rtmp_act := fun c =>
  responses_loop (S (length (concat (rt_in c)))) (fun i => now (S i)) (now 0%nat + timeout_ms * 1000)
    target (replicate RTMP_MAX_CSID cs_zero) c.

(** ** Handshake, connect and publish *)

(** The part of C1 after the two words: what /dev/urandom gave, padded. *)
Definition c1_random (urandom : option (list Z)) : list Z :=
  match urandom with
  | Some l => take (RTMP_HANDSHAKE_SIZE - 8) l ++ replicate (RTMP_HANDSHAKE_SIZE - 8 - length l) 66
  | None => replicate (RTMP_HANDSHAKE_SIZE - 8) 66
  end.

Definition rtmp_handshake (time : Z) (urandom : option (list Z)) : rtmp_act := fun c =>
  let ts := u32 time in
  let '(r, c) := rtmp_send ([3] ++ put_be32 ts ++ replicate 4 0 ++ c1_random urandom) c in
  if r <? 0 then (-1, c) else
  match rtmp_recv_full (1 + RTMP_HANDSHAKE_SIZE * 2) c with
  | (None, c) => (-1, c)
  | (Some s, c) =>
      if negb (s !!! 0%nat =? 3) then (-1, c) else
      let c2 := take RTMP_HANDSHAKE_SIZE (drop 1 s) in
      let '(r, c) := rtmp_send (take 4 c2 ++ put_be32 ts ++ drop 8 c2) c in
      if r <? 0 then (-1, c) else (0, c <| rt_state := RSP_STATE_HANDSHAKE |>)
  end.

(** What the outside does during a connect: whether a TCP connection comes up
    and its socket's scripts, the two allocations, the wall clock, the random
    bytes and the clock readings of the two waits. *)
Record connect_env := mk_connect_env {
  ce_socket : option (list write_answer * list (list Z));
  ce_recv_malloc : bool;
  ce_send_malloc : bool;
  ce_time : Z;
  ce_urandom : option (list Z);
  ce_now1 : nat -> Z;
  ce_now2 : nat -> Z
}.

Definition rsp_rtmp_disconnect (c : rsp_rtmp) : rsp_rtmp :=
  c <| rt_open := false |> <| rt_recv_buf := None |> <| rt_send_buf_size := None |>
    <| rt_state := RSP_STATE_DISCONNECTED |>
    <| rt_video_ts_set := false |> <| rt_audio_ts_set := false |>.

(** [if (a < 0) { rsp_rtmp_disconnect(ctx); return -1; }]. *)
Definition or_disconnect (a : rtmp_act) : rtmp_act := fun c =>
  let '(r, c) := a c in if r <? 0 then (-1, rsp_rtmp_disconnect c) else (0, c).

(** A fresh socket. *)
Definition dial (ws : list write_answer) (segs : list (list Z)) (c : rsp_rtmp) : rsp_rtmp :=
  c <| rt_open := true |> <| rt_out := [] |> <| rt_writes := ws |> <| rt_in := segs |>
    <| rt_chunk_size := RTMP_DEFAULT_CHUNK_SZ |> <| rt_in_chunk_size := RTMP_DEFAULT_CHUNK_SZ |>
    <| rt_stream_id := 0 |>.

(** The two buffers, kept from an earlier connection or allocated. *)
Definition connect_buffers (env : connect_env) (c : rsp_rtmp) : bool * rsp_rtmp :=
  let no_recv := bool_decide (rt_recv_buf c = None) in
  if no_recv && negb (ce_recv_malloc env) then (false, c <| rt_open := false |>) else
  let c := if no_recv then c <| rt_recv_buf := Some (replicate (Z.to_nat 4096) 0) |> else c in
  let no_send := bool_decide (rt_send_buf_size c = None) in
  if no_send && negb (ce_send_malloc env)
  then (false, c <| rt_recv_buf := None |> <| rt_open := false |>)
  else (true, if no_send then c <| rt_send_buf_size := Some 65536 |> else c).

(** The RTMP exchange on an established connection. *)
Definition connect_exchange (env : connect_env) : rtmp_act :=
  or_disconnect (rtmp_handshake (ce_time env) (ce_urandom env)) ;;!
  or_disconnect (rtmp_send_set_chunk_size RTMP_CHUNK_SZ_OUT) ;;!
  or_disconnect rtmp_send_connect ;;!
  or_disconnect (rtmp_read_responses (ce_now1 env) RSP_STATE_CONNECTING 10000) ;;!
  or_disconnect rtmp_send_create_stream ;;!
  or_disconnect (rtmp_read_responses (ce_now2 env) RSP_STATE_CONNECTED 10000).

Definition rsp_rtmp_connect (env : connect_env) (use_tls : bool) : rtmp_act := fun c =>
  match ce_socket env with
  | None => (-1, c <| rt_open := false |>)
  | Some (ws, segs) =>
      match connect_buffers env (dial ws segs c) with
      | (false, c) => (-1, c)
      | (true, c) =>
          if use_tls then (-1, c <| rt_open := false |>) else connect_exchange env c
      end
  end.

Definition rsp_rtmp_publish (now : nat -> Z) : rtmp_act := fun c =>
  if state_num (rt_state c) <? state_num RSP_STATE_CONNECTED then (-1, c) else
  (rtmp_send_publish ;;! rtmp_read_responses now RSP_STATE_PUBLISHING 10000) c.

End responses.

(** ** Media messages *)

Definition RSP_FLV_VIDEO_H264 : Z := 0.
Definition RSP_FLV_VIDEO_H265 : Z := 1.
Definition FLV_VIDEO_KEY : Z := 16.
Definition FLV_VIDEO_INTER : Z := 32.
Definition FLV_VIDEO_H264 : Z := 7.
Definition FLV_VIDEO_EX_HEADER : Z := 128.
Definition FLV_VIDEO_FOURCC_HEVC : Z := 1752589105.
(** AAC, 44 kHz, 16 bit, stereo. *)
Definition FLV_AUDIO_TAG : Z := Z.lor (Z.lor (Z.lor 160 12) 2) 1.

Definition publishing (c : rsp_rtmp) : bool := bool_decide (rt_state c = RSP_STATE_PUBLISHING).

Definition nal_array (nal_type : Z) (ps : list Z) (len : nat) : list Z :=
  [nal_type] ++ put_be16 1 ++ put_be16 (u16 (Z.of_nat len)) ++ take len ps.

(** The two decoder configurations.  A parameter set is its array and the
    length in use. *)
Definition video_header (codec : Z) (sps : list Z) (sps_len : nat) (pps : list Z) (pps_len : nat)
    (vps : list Z) (vps_len : nat) : list Z :=
  if codec =? RSP_FLV_VIDEO_H264 then
    [Z.lor FLV_VIDEO_KEY FLV_VIDEO_H264; 0] ++ put_be24 0 ++
    [1; sps !!! 1%nat; sps !!! 2%nat; sps !!! 3%nat; 255; 225] ++
    put_be16 (u16 (Z.of_nat sps_len)) ++ take sps_len sps ++
    [1] ++ put_be16 (u16 (Z.of_nat pps_len)) ++ take pps_len pps
  else
    [Z.lor FLV_VIDEO_EX_HEADER FLV_VIDEO_KEY; 0] ++ put_be32 FLV_VIDEO_FOURCC_HEVC ++
    [1; if (6 <? vps_len)%nat then vps !!! 6%nat else 0] ++ replicate 4 0 ++ replicate 6 0 ++
    [if (12 <? sps_len)%nat then sps !!! 12%nat else 0] ++ put_be16 61440 ++
    [252; 252; 248; 248] ++ put_be16 0 ++ [15; 3] ++
    nal_array 32 vps vps_len ++ nal_array 33 sps sps_len ++ nal_array 34 pps pps_len.

Definition rsp_rtmp_send_video_header (codec : Z) (sps : list Z) (sps_len : nat) (pps : list Z)
    (pps_len : nat) (vps : list Z) (vps_len : nat) : rtmp_act := fun c =>
  if negb (publishing c) then (-1, c) else
  let needed := u32 (64 + Z.of_nat sps_len + Z.of_nat pps_len + Z.of_nat vps_len) in
  if needed >? default 0 (rt_send_buf_size c) then (-1, c) else
  rtmp_send_message RTMP_CSID_VIDEO RTMP_MSG_VIDEO (rt_stream_id c) 0
    (video_header codec sps sps_len pps pps_len vps vps_len) c.

Definition video_tag (codec : Z) (is_key : bool) : list Z :=
  let kind := if is_key then FLV_VIDEO_KEY else FLV_VIDEO_INTER in
  if codec =? RSP_FLV_VIDEO_H264 then [Z.lor kind FLV_VIDEO_H264; 1] ++ put_be24 0
  else [Z.lor FLV_VIDEO_EX_HEADER kind; 1] ++ put_be32 FLV_VIDEO_FOURCC_HEVC ++ put_be24 0.

(** The payload of a chunk that may span the tag header and the frame. *)
Definition send_video_payload (hdr avcc : list Z) (offset payload : nat) : rtmp_act :=
  if (offset <? length hdr)%nat then
    let from_hdr := Nat.min (length hdr - offset) payload in
    let from_data := (payload - from_hdr)%nat in
    rtmp_send (take from_hdr (drop offset hdr)) ;;!
    (if (0 <? from_data)%nat then rtmp_send (take from_data avcc) else ret0)
  else rtmp_send (take payload (drop (offset - length hdr) avcc)).

Fixpoint send_video_loop (fuel : nat) (timestamp_ms : Z) (hdr avcc : list Z) (first : bool)
    (offset : nat) : rtmp_act := fun c =>
  let total := (length hdr + length avcc)%nat in
  if (offset <? total)%nat then
    match fuel with
    | O => (-1, c)
    | S fuel =>
        let payload := Nat.min (total - offset) (Z.to_nat (rt_chunk_size c)) in
        (send_chunk_header first RTMP_CSID_VIDEO RTMP_MSG_VIDEO (rt_stream_id c) timestamp_ms
           (Z.of_nat total) ;;!
         send_video_payload hdr avcc offset payload ;;!
         send_video_loop fuel timestamp_ms hdr avcc false (offset + payload)) c
    end
  else (0, c).

Definition rsp_rtmp_send_video (avcc : list Z) (timestamp_ms : Z) (is_key : bool) (codec : Z)
    : rtmp_act := fun c =>
  if negb (publishing c) then (-1, c) else
  let hdr := video_tag codec is_key in
  send_video_loop (length hdr + length avcc) timestamp_ms hdr avcc true 0 c.

Definition rsp_rtmp_send_audio (data : list Z) (timestamp_ms : Z) : rtmp_act := fun c =>
  if negb (publishing c) then (-1, c) else
  let hdr := [FLV_AUDIO_TAG; 1] in
  let total := u32 (2 + Z.of_nat (length data)) in
  if total <=? rt_chunk_size c then
    (rtmp_send ([Z.land RTMP_CSID_AUDIO 63]
                ++ put_be24 (if timestamp_ms >? TS_ESCAPE then TS_ESCAPE else timestamp_ms)
                ++ put_be24 total ++ [RTMP_MSG_AUDIO] ++ put_le32 (rt_stream_id c)) ;;!
     (if timestamp_ms >? TS_ESCAPE then rtmp_send (put_be32 timestamp_ms) else ret0) ;;!
     rtmp_send hdr ;;!
     rtmp_send data ;;! ret0) c
  else if total >? default 0 (rt_send_buf_size c) then (-1, c)
  else rtmp_send_message RTMP_CSID_AUDIO RTMP_MSG_AUDIO (rt_stream_id c) timestamp_ms (hdr ++ data) c.

Section audio_header.

(** raptor-common's rss_aac_asc: the AudioSpecificConfig of an object type,
    rate and channel count, or a negative answer. *)
Variable rss_aac_asc : Z -> Z -> Z -> option (list Z).

Definition RSS_AAC_AOT_LC : Z := 2.
Definition RSS_AAC_AOT_SBR : Z := 5.

Definition audio_config (sample_rate channels aot : Z) : option (list Z) :=
  match rss_aac_asc (if aot =? RSS_AAC_AOT_SBR then RSS_AAC_AOT_SBR else RSS_AAC_AOT_LC)
          sample_rate channels with
  | Some asc => Some asc
  | None => rss_aac_asc RSS_AAC_AOT_LC 44100 channels
  end.

(** The code has no third fallback: a negative length there would be passed to
    memcpy, which the model shows as a failing call. *)
Definition rsp_rtmp_send_audio_header (sample_rate channels aot : Z) : rtmp_act := fun c =>
  if negb (publishing c) then (-1, c) else
  match audio_config sample_rate channels aot with
  | None => (-1, c)
  | Some asc =>
      rtmp_send_message RTMP_CSID_AUDIO RTMP_MSG_AUDIO (rt_stream_id c) 0
        ([FLV_AUDIO_TAG; 0] ++ asc) c
  end.

End audio_header.
