(* ===== verification/RtmpProps.v ===== *)
(** * rsp: what an RTMP server makes of the client's bytes

    A reference receiver of RTMP chunk streams, written from the protocol and
    not from the client; the byte string each of the client's calls puts on the
    wire, whatever the socket does; and the theorems that the receiver reads
    back exactly the messages sent. *)

From Stdlib Require Import String.
From stdpp Require Import gmap list.
From S2P Require Import Prelude Rtmp.
#[local] Open Scope rtmp_scope.

(** ** Messages and their chunks *)

Record message := mk_message {
  m_csid : Z; m_type : Z; m_stream : Z; m_ts : Z; m_data : list Z
}.

Definition ext_ts (ts : Z) : list Z := if ts >? TS_ESCAPE then put_be32 ts else [].

Definition first_header (csid msg_type stream_id ts len : Z) : list Z :=
  [Z.land csid 63] ++ put_be24 (if ts >? TS_ESCAPE then TS_ESCAPE else ts)
  ++ put_be24 len ++ [msg_type] ++ put_le32 stream_id ++ ext_ts ts.

Definition next_header (csid ts : Z) : list Z := [Z.lor 192 (Z.land csid 63)] ++ ext_ts ts.

Fixpoint next_chunks (fuel size : nat) (csid ts : Z) (data : list Z) : list Z :=
  match fuel, data with
  | S fuel, _ :: _ =>
      next_header csid ts ++ take size data ++ next_chunks fuel size csid ts (drop size data)
  | _, _ => []
  end.

Definition message_bytes (size : nat) (m : message) : list Z :=
  match m_data m with
  | [] => []
  | data =>
      first_header (m_csid m) (m_type m) (m_stream m) (m_ts m) (Z.of_nat (length data))
      ++ take size data
      ++ next_chunks (length data) size (m_csid m) (m_ts m) (drop size data)
  end.

(** ** What a call puts on the wire *)

Definition no_error (ws : list write_answer) : Prop := W_error ∉ ws.

(** The connection after some bytes went out. *)
Definition after_write (out : list Z) (ws : list write_answer) (c : rsp_rtmp) : rsp_rtmp :=
  c <| rt_out := out |> <| rt_writes := ws |>.

(** From [c], [a] writes [bs], or stops with -1 after a prefix of it when the
    socket fails, and changes nothing else. *)
Definition sends (a : rtmp_act) (bs : list Z) (c : rsp_rtmp) : Prop :=
  exists ok sent ws,
    a c = (if ok : bool then 0 else -1, after_write (rt_out c ++ sent) ws c) /\
    sent `prefix_of` bs /\ (ok = true -> sent = bs) /\
    (no_error (rt_writes c) -> ok = true /\ no_error ws).

Lemma after_write_twice o1 w1 o2 w2 c : after_write o1 w1 (after_write o2 w2 c) = after_write o1 w1 c.
Proof. done. Qed.

Lemma write_loop_spec ws p out :
  exists ok sent ws', write_loop ws p out = (ok, out ++ sent, ws') /\ sent `prefix_of` p /\
    (ok = true -> sent = p) /\ (no_error ws -> ok = true /\ no_error ws').
Proof.
  revert p out. induction ws as [|w ws IH]; intros p out.
  - destruct p as [|x p]; simpl.
    + exists true, [], []. rewrite app_nil_r. done.
    + exists true, (x :: p), []. done.
  - destruct p as [|x p]; [exists true, [], (w :: ws); simpl; by rewrite app_nil_r|].
    destruct w as [n| |]; cbn [write_loop].
    + destruct (IH (drop n (x :: p)) (out ++ take n (x :: p))) as (ok & sent & ws' & -> & Hp & Hok & Hne).
      exists ok, (take n (x :: p) ++ sent), ws'. rewrite <- app_assoc. split; [done|]. split.
      { rewrite <- (take_drop n (x :: p)) at 2. by apply prefix_app. }
      split; [intros ->; rewrite Hok by done; apply take_drop|].
      intros He. apply Hne. intros Hin. apply He. by right.
    + destruct (IH (x :: p) out) as (ok & sent & ws' & -> & Hp & Hok & Hne).
      exists ok, sent, ws'. split_and!; [done..|]. intros He. apply Hne. intros Hin. apply He. by right.
    + exists false, [], ws. rewrite app_nil_r. split_and!; [done|apply prefix_nil|done|].
      intros He. exfalso. apply He. left.
Qed.

Lemma sends_send bs c : sends (rtmp_send bs) bs c.
Proof.
  unfold sends, rtmp_send. destruct (write_loop_spec (rt_writes c) bs (rt_out c))
    as (ok & sent & ws & E & H). rewrite E. by exists ok, sent, ws.
Qed.

Lemma sends_ret0 c : sends ret0 [] c.
Proof. exists true, [], (rt_writes c). rewrite app_nil_r. destruct c; done. Qed.

Lemma sends_seq a b x y c :
  sends a x c -> (forall out ws, sends b y (after_write out ws c)) -> sends (a ;;! b) (x ++ y) c.
Proof.
  intros (ok & sent & ws & Ea & Hp & Hok & Hne) Hb. unfold sends, act_seq. rewrite Ea.
  destruct ok; simpl.
  - rewrite (Hok eq_refl) in *.
    destruct (Hb (rt_out c ++ x) ws) as (ok2 & sent2 & ws2 & Eb & Hp2 & Hok2 & Hne2).
    exists ok2, (x ++ sent2), ws2. rewrite Eb, after_write_twice. cbn [rt_out after_write set_field].
    split; [by rewrite app_assoc|]. split; [by apply prefix_app|].
    split; [intros ->; by rewrite Hok2|]. intros He. apply Hne2. by apply Hne.
  - exists false, sent, ws. split_and!; [done|by apply prefix_app_r|done|].
    intros He. by destruct (Hne He).
Qed.

Lemma sends_ext a bs bs' c : bs = bs' -> sends a bs c -> sends a bs' c.
Proof. by intros ->. Qed.

Create HintDb rtmp.
#[export] Hint Resolve sends_send sends_ret0 : rtmp.

Lemma next_chunks_fuel f f' size csid ts data :
  (0 < size)%nat -> (length data <= f)%nat -> (length data <= f')%nat ->
  next_chunks f size csid ts data = next_chunks f' size csid ts data.
Proof.
  intros Hs. revert f' data. induction f as [|f IH]; intros f' data H1 H2.
  - destruct data; [|simpl in *; lia]. by destruct f'.
  - destruct data as [|x data]; [by destruct f'|]. destruct f' as [|f']; [simpl in *; lia|].
    cbn [next_chunks]. do 2 f_equal.
    apply IH; rewrite length_drop; simpl in *; lia.
Qed.

(** The chunks after the first, without the fuel. *)
Definition tail_chunks (size : nat) (csid ts : Z) (data : list Z) : list Z :=
  next_chunks (length data) size csid ts data.

Lemma tail_chunks_step size csid ts data :
  (0 < size)%nat -> data <> [] ->
  tail_chunks size csid ts data =
    next_header csid ts ++ take size data ++ tail_chunks size csid ts (drop size data).
Proof.
  intros Hs Hd. unfold tail_chunks. destruct data as [|x data]; [done|]. simpl length.
  cbn [next_chunks]. do 2 f_equal. apply next_chunks_fuel; rewrite ?length_drop; simpl; lia.
Qed.

Lemma message_bytes_eq size m :
  (0 < size)%nat -> m_data m <> [] ->
  message_bytes size m =
    first_header (m_csid m) (m_type m) (m_stream m) (m_ts m) (Z.of_nat (length (m_data m)))
    ++ take size (m_data m) ++ tail_chunks size (m_csid m) (m_ts m) (drop size (m_data m)).
Proof.
  intros Hs Hd. unfold message_bytes, tail_chunks. destruct (m_data m) as [|x d] eqn:E; [done|].
  rewrite <- E in *. do 2 f_equal. apply next_chunks_fuel; rewrite ?length_drop; lia.
Qed.

Lemma sends_header (first : bool) csid ty sid ts len c :
  sends (send_chunk_header first csid ty sid ts len)
    (if first then first_header csid ty sid ts len else next_header csid ts) c.
Proof.
  unfold send_chunk_header, first_header, next_header, ext_ts.
  destruct (ts >? TS_ESCAPE), first.
  - apply (sends_ext _ (([Z.land csid 63] ++ put_be24 TS_ESCAPE ++ put_be24 len ++ [ty] ++
             put_le32 sid) ++ put_be32 ts)); [done|].
    apply sends_seq; auto with rtmp.
  - apply sends_seq; auto with rtmp.
  - rewrite app_nil_r. auto with rtmp.
  - auto with rtmp.
Qed.

(** Both chunk loops of the client, over what they have in common: [piece off p]
    writes [p] payload bytes from [off], [L] is the loop, [fit] what it needs of
    the connection. *)
Section loops.
Context (csid ty sid ts : Z) (data : list Z).
Context (piece : nat -> nat -> rtmp_act) (L : nat -> nat -> rtmp_act) (fit : rsp_rtmp -> Prop).

Definition chunk_len (off : nat) (c : rsp_rtmp) : nat :=
  Nat.min (length data - off) (Z.to_nat (rt_chunk_size c)).

Hypothesis fit_after : forall out ws c, fit c -> fit (after_write out ws c).
Hypothesis piece_sends : forall off p c,
  (off + p <= length data)%nat -> sends (piece off p) (take p (drop off data)) c.
Hypothesis L_done : forall fuel off c, (length data <= off)%nat -> L fuel off c = (0, c).
Hypothesis L_step : forall fuel off c, fit c -> (0 < off < length data)%nat ->
  L (S fuel) off c =
    (send_chunk_header false csid ty sid ts (Z.of_nat (length data)) ;;!
     piece off (chunk_len off c) ;;! L fuel (off + chunk_len off c)) c.

Lemma piece_sends_chunk off c c' :
  (off <= length data)%nat ->
  sends (piece off (chunk_len off c)) (take (Z.to_nat (rt_chunk_size c)) (drop off data)) c'.
Proof.
  intros Ho. eapply sends_ext, piece_sends; unfold chunk_len; [|lia].
  destruct (Nat.min_spec (length data - off) (Z.to_nat (rt_chunk_size c))) as [[? ->]|[? ->]]; [|done].
  by rewrite !take_ge by (rewrite length_drop; lia).
Qed.

Lemma drop_chunk off c :
  drop (off + chunk_len off c) data = drop (Z.to_nat (rt_chunk_size c)) (drop off data).
Proof.
  unfold chunk_len. rewrite drop_drop.
  destruct (Nat.min_spec (length data - off) (Z.to_nat (rt_chunk_size c))) as [[? ->]|[? ->]]; [|done].
  by rewrite !drop_ge by lia.
Qed.

Lemma sends_tail fuel off c :
  fit c -> (0 < Z.to_nat (rt_chunk_size c))%nat -> (0 < off)%nat -> (length data - off <= fuel)%nat ->
  sends (L fuel off) (tail_chunks (Z.to_nat (rt_chunk_size c)) csid ts (drop off data)) c.
Proof.
  revert off c. induction fuel as [|fuel IH]; intros off c Hfit Hs Ho Hf;
    (destruct (Nat.lt_ge_cases off (length data)) as [Hlt|Hge];
      [|unfold sends; rewrite L_done, drop_ge by lia; apply sends_ret0]); [lia|].
  rewrite tail_chunks_step by (try done; intros E; apply (f_equal length) in E;
    rewrite length_drop in E; simpl in E; lia).
  unfold sends. rewrite L_step by (done || lia). apply sends_seq; [apply (sends_header false)|].
  intros o1 w1. apply sends_seq; [apply piece_sends_chunk; lia|].
  intros o2 w2. rewrite after_write_twice, <- drop_chunk.
  apply (IH (off + chunk_len off c)%nat (after_write o2 w2 c)); unfold chunk_len; [by apply fit_after|done|lia..].
Qed.

(** The whole message, given what the loop does on its first chunk. *)
Lemma sends_whole fuel c :
  fit c -> (0 < Z.to_nat (rt_chunk_size c))%nat -> data <> [] -> (length data <= S fuel)%nat ->
  sends (send_chunk_header true csid ty sid ts (Z.of_nat (length data)) ;;!
         piece 0 (chunk_len 0 c) ;;! L fuel (0 + chunk_len 0 c))
    (message_bytes (Z.to_nat (rt_chunk_size c)) (mk_message csid ty sid ts data)) c.
Proof.
  intros Hfit Hs Hd Hf. rewrite message_bytes_eq by done. cbn [m_csid m_type m_stream m_ts m_data].
  assert (length data <> 0)%nat by (by destruct data).
  apply sends_seq; [apply (sends_header true)|].
  intros o1 w1. apply sends_seq; [apply (piece_sends_chunk 0); lia|].
  intros o2 w2. rewrite after_write_twice.
  change (drop (Z.to_nat (rt_chunk_size c)) data) with (drop (Z.to_nat (rt_chunk_size c)) (drop 0 data)).
  rewrite <- drop_chunk.
  apply (sends_tail _ _ (after_write o2 w2 c)); unfold chunk_len; [by apply fit_after|done|lia..].
Qed.
End loops.

Lemma send_message_sends csid ty sid ts data c :
  (0 < Z.to_nat (rt_chunk_size c))%nat ->
  sends (rtmp_send_message csid ty sid ts data)
    (message_bytes (Z.to_nat (rt_chunk_size c)) (mk_message csid ty sid ts data)) c.
Proof.
  intros Hs. unfold rtmp_send_message.
  destruct data as [|x data']; [apply sends_ret0|]. set (data := x :: data').
  unfold sends. simpl length. cbn [send_message_loop].
  change (0 <? length data)%nat with true. cbv iota.
  apply (sends_whole csid ty sid ts data (fun off p => rtmp_send (take p (drop off data)))
           (fun f off => send_message_loop f csid ty sid ts data off) (fun _ => True));
    [done|..|done|done|done|simpl; lia].
  - intros. apply sends_send.
  - intros [|f] off c' Hge; cbn [send_message_loop]; by rewrite (proj2 (Nat.ltb_ge _ _) Hge).
  - intros f off c' _ [? Hlt]. cbn [send_message_loop]. rewrite (proj2 (Nat.ltb_lt _ _) Hlt).
    destruct (Nat.eqb_spec off 0); [lia|]. done.
Qed.

Lemma video_payload_sends hdr avcc off p c :
  (off + p <= length (hdr ++ avcc))%nat ->
  sends (send_video_payload hdr avcc off p) (take p (drop off (hdr ++ avcc))) c.
Proof.
  rewrite length_app. intros Hle. unfold send_video_payload.
  destruct (Nat.ltb_spec off (length hdr)) as [Hlt|Hge].
  - set (fh := Nat.min _ _). rewrite drop_app_le, take_app, length_drop by lia.
    apply sends_seq.
    { eapply sends_ext, sends_send. subst fh.
      destruct (Nat.min_spec (length hdr - off) p) as [[? ->]|[? ->]]; [|done].
      by rewrite !take_ge by (rewrite length_drop; lia). }
    intros o w. replace (p - (length hdr - off))%nat with (p - fh)%nat by lia.
    destruct (Nat.ltb_spec 0 (p - fh)); [apply sends_send|].
    replace (p - fh)%nat with 0%nat by lia. apply sends_ret0.
  - rewrite drop_app_ge by lia. apply sends_send.
Qed.

Lemma send_video_loop_sends ts hdr avcc c :
  (0 < Z.to_nat (rt_chunk_size c))%nat -> hdr <> [] ->
  sends (send_video_loop (length hdr + length avcc) ts hdr avcc true 0)
    (message_bytes (Z.to_nat (rt_chunk_size c))
       (mk_message RTMP_CSID_VIDEO RTMP_MSG_VIDEO (rt_stream_id c) ts (hdr ++ avcc))) c.
Proof.
  intros Hs Hh. set (data := hdr ++ avcc).
  assert (El : (length hdr + length avcc)%nat = length data) by (unfold data; by rewrite length_app).
  assert (Hd : length data <> 0%nat) by (unfold data; destruct hdr; [done|simpl; lia]).
  unfold sends. rewrite El. destruct (length data) as [|n] eqn:En; [done|].
  cbn [send_video_loop]. rewrite El. change (0 <? S n)%nat with true. cbv iota. rewrite <- En.
  apply (sends_whole RTMP_CSID_VIDEO RTMP_MSG_VIDEO (rt_stream_id c) ts data
           (send_video_payload hdr avcc) (fun f off => send_video_loop f ts hdr avcc false off)
           (fun c' => rt_stream_id c' = rt_stream_id c)).
  - done.
  - intros. by apply video_payload_sends.
  - intros [|f] off c' Hge; cbn [send_video_loop]; rewrite El, <- En; by rewrite (proj2 (Nat.ltb_ge _ _) Hge).
  - intros f off c' Hsid [? Hlt]. cbn [send_video_loop]. rewrite El, <- En, Hsid.
    by rewrite (proj2 (Nat.ltb_lt _ _) Hlt).
  - done.
  - done.
  - by intros E; rewrite E in En.
  - lia.
Qed.

(** ** The reference receiver

    Chunks of formats 0 and 3, one-byte chunk stream ids, interleaving of chunk
    streams, extended timestamps (present whenever the 24-bit field is all
    ones, and then in every chunk of the message), and the chunk size a
    set-chunk-size message announces. *)

Record chunk_stream := mk_chunk_stream {
  ch_len : Z; ch_type : Z; ch_stream : Z; ch_ts : Z; ch_ext : bool; ch_part : list Z
}.

Definition rd (n : nat) (l : list Z) : option (list Z * list Z) :=
  if (length l <? n)%nat then None else Some (take n l, drop n l).

Definition rd_be (n : nat) (l : list Z) : option (Z * list Z) :=
  '(x, l) ← rd n l; Some (be_val x, l).

Definition recv_header (st : gmap Z chunk_stream) (l : list Z) : option (Z * chunk_stream * list Z) :=
  '(b, l) ← rd_be 1 l;
  let csid := b mod 64 in
  if csid <? 2 then None else
  if b / 64 =? 0 then
    '(ts, l) ← rd_be 3 l;
    '(len, l) ← rd_be 3 l;
    '(ty, l) ← rd_be 1 l;
    '(sid, l) ← rd 4 l;
    if ts =? 16777215 then
      '(e, l) ← rd_be 4 l;
      Some (csid, mk_chunk_stream len ty (be_val (reverse sid)) e true [], l)
    else Some (csid, mk_chunk_stream len ty (be_val (reverse sid)) ts false [], l)
  else if b / 64 =? 3 then
    s ← st !! csid;
    if ch_ext s then '(_, l) ← rd_be 4 l; Some (csid, s, l) else Some (csid, s, l)
  else None.

Definition recv_chunk (size : nat) (st : gmap Z chunk_stream) (l : list Z)
    : option (option message * gmap Z chunk_stream * list Z) :=
  '(csid, s, l) ← recv_header st l;
  '(p, l) ← rd (Nat.min size (Z.to_nat (ch_len s) - length (ch_part s))) l;
  let part := ch_part s ++ p in
  if Z.of_nat (length part) =? ch_len s then
    Some (Some (mk_message csid (ch_type s) (ch_stream s) (ch_ts s) part), delete csid st, l)
  else
    Some (None, <[csid := mk_chunk_stream (ch_len s) (ch_type s) (ch_stream s) (ch_ts s)
                            (ch_ext s) part]> st, l).

Definition size_after (size : nat) (m : message) : nat :=
  if m_type m =? RTMP_MSG_SET_CHUNK_SIZE then Z.to_nat (be_val (take 4 (m_data m))) else size.

Fixpoint recv_messages (fuel size : nat) (st : gmap Z chunk_stream) (l : list Z)
    : option (list message) :=
  match l with
  | [] => if bool_decide (st = ∅) then Some [] else None
  | _ =>
      match fuel with
      | O => None
      | S fuel =>
          match recv_chunk size st l with
          | None => None
          | Some (None, st, l) => recv_messages fuel size st l
          | Some (Some m, st, l) =>
              ms ← recv_messages fuel (size_after size m) st l; Some (m :: ms)
          end
      end
  end.

(** What the server makes of a byte string, from the start of the chunk stream. *)
Definition recv_all (size : nat) (l : list Z) : option (list message) :=
  recv_messages (length l) size ∅ l.

(** ** Reading back *)

Lemma put_be16_be v : put_be16 v = be_bytes 2 v.
Proof. unfold put_be16, uwrap. rewrite !Z.shiftr_div_pow2 by lia. done. Qed.
Lemma put_be24_be v : put_be24 v = be_bytes 3 v.
Proof.
  unfold put_be24, uwrap. rewrite !Z.shiftr_div_pow2 by lia. simpl. by rewrite Z.div_div by lia.
Qed.
Lemma put_be32_be v : put_be32 v = be_bytes 4 v.
Proof.
  unfold put_be32, uwrap. rewrite !Z.shiftr_div_pow2 by lia. simpl. by rewrite !Z.div_div by lia.
Qed.
Lemma put_le32_be v : reverse (put_le32 v) = be_bytes 4 v.
Proof. rewrite <- put_be32_be. done. Qed.

Lemma rd_app n x l : length x = n -> rd n (x ++ l) = Some (x, l).
Proof.
  intros <-. unfold rd. rewrite length_app. destruct (Nat.ltb_spec (length x + length l) (length x)); [lia|].
  by rewrite take_app_length, drop_app_length.
Qed.

Lemma rd_be_app n v l :
  rd_be n (be_bytes n v ++ l) = Some (v mod 256 ^ Z.of_nat n, l).
Proof. unfold rd_be. rewrite rd_app by apply be_bytes_length. cbn. by rewrite be_val_bytes. Qed.

Lemma rd_be_byte b l : 0 <= b < 256 -> rd_be 1 (b :: l) = Some (b, l).
Proof. intros. unfold rd_be. change (b :: l) with ([b] ++ l). by rewrite rd_app. Qed.

(** Messages the client sends: what fits the header fields. *)
Definition message_ok (m : message) : Prop :=
  2 <= m_csid m < 64 /\ 0 <= m_type m < 256 /\ in_u 32 (m_stream m) /\ in_u 32 (m_ts m) /\
  m_ts m <> TS_ESCAPE /\ 0 < Z.of_nat (length (m_data m)) < 2 ^ 24.

Lemma lor_192 n : 0 <= n < 64 -> Z.lor 192 n = 192 + n.
Proof.
  intros Hn. assert (H : forallb (fun k => Z.lor 192 (Z.of_nat k) =? 192 + Z.of_nat k) (seq 0 64) = true)
    by by vm_compute.
  rewrite forallb_forall in H. specialize (H (Z.to_nat n)).
  rewrite Z2Nat.id in H by lia. apply Z.eqb_eq, H, in_seq. lia.
Qed.

Lemma land_63 n : 0 <= n < 64 -> Z.land n 63 = n.
Proof. intros. change 63 with (Z.ones 6). rewrite Z.land_ones by lia. by apply Z.mod_small. Qed.

Definition stream_of (m : message) (part : list Z) : chunk_stream :=
  mk_chunk_stream (Z.of_nat (length (m_data m))) (m_type m) (m_stream m) (m_ts m)
    (m_ts m >? TS_ESCAPE) part.

Lemma recv_first_header m st l : message_ok m ->
  recv_header st (first_header (m_csid m) (m_type m) (m_stream m) (m_ts m)
                    (Z.of_nat (length (m_data m))) ++ l) = Some (m_csid m, stream_of m [], l).
Proof.
  intros (Hc & Ht & Hs & Hts & Hne & Hl). unfold recv_header, first_header, stream_of, in_u, TS_ESCAPE in *.
  rewrite land_63 by lia. rewrite <- !app_assoc. cbn [app].
  rewrite rd_be_byte by lia. cbn [mbind option_bind]. rewrite !Z.mod_small, Z.div_small by lia.
  destruct (Z.ltb_spec (m_csid m) 2); [lia|]. cbn [Z.eqb].
  rewrite !put_be24_be. rewrite rd_be_app. cbn [mbind option_bind]. rewrite rd_be_app. cbn [mbind option_bind].
  rewrite rd_be_byte by lia. cbn [mbind option_bind]. rewrite rd_app by done. cbn [mbind option_bind].
  rewrite put_le32_be, be_val_bytes. rewrite !Z.mod_small with (b := 256 ^ _) by (simpl; split_ifs; bool_to_prop; lia).
  unfold ext_ts, TS_ESCAPE. destruct (m_ts m >? 16777215) eqn:E; bool_to_prop.
  - cbn [Z.eqb Pos.eqb]. rewrite put_be32_be, rd_be_app. cbn [mbind option_bind].
    by rewrite Z.mod_small by (simpl; lia).
  - destruct (Z.eqb_spec (m_ts m) 16777215); [lia|]. done.
Qed.

Lemma recv_next_header m st l part : message_ok m -> st !! m_csid m = Some (stream_of m part) ->
  recv_header st (next_header (m_csid m) (m_ts m) ++ l) = Some (m_csid m, stream_of m part, l).
Proof.
  intros (Hc & Ht & Hs & Hts & Hne & Hl) Hst. unfold recv_header, next_header, in_u in *.
  rewrite land_63, lor_192 by lia. rewrite <- app_assoc. cbn [app].
  rewrite rd_be_byte by lia. cbn [mbind option_bind].
  replace (192 + m_csid m) with (m_csid m + 3 * 64) by lia.
  rewrite Z.mod_add, Z.div_add, Z.mod_small, Z.div_small by lia.
  destruct (Z.ltb_spec (m_csid m) 2); [lia|]. cbn [Z.eqb Pos.eqb Z.add]. rewrite Hst. cbn [mbind option_bind].
  unfold stream_of, ext_ts. cbn [ch_ext]. destruct (m_ts m >? TS_ESCAPE); [|done].
  rewrite put_be32_be, rd_be_app. done.
Qed.

Lemma rd_shrinks n l x l' : rd n l = Some (x, l') -> (length l' = length l - n /\ n <= length l)%nat.
Proof.
  unfold rd. destruct (Nat.ltb_spec (length l) n); [done|]. intros [= <- <-]. rewrite length_drop. lia.
Qed.

Lemma rd_be_shrinks n l x l' : rd_be n l = Some (x, l') -> (length l' = length l - n /\ n <= length l)%nat.
Proof.
  unfold rd_be. destruct (rd n l) as [[y l1]|] eqn:E; [|done]. cbn. intros [= <- <-]. by apply rd_shrinks in E.
Qed.

Ltac rd_cases :=
  repeat match goal with
  | H : context [mbind _ (rd_be ?n ?l)] |- _ =>
      let E := fresh "E" in destruct (rd_be n l) as [[? ?]|] eqn:E; cbn [mbind option_bind] in H;
      [apply rd_be_shrinks in E | discriminate]
  | H : context [mbind _ (rd ?n ?l)] |- _ =>
      let E := fresh "E" in destruct (rd n l) as [[? ?]|] eqn:E; cbn [mbind option_bind] in H;
      [apply rd_shrinks in E | discriminate]
  end.

Lemma recv_header_shrinks st l csid s l' :
  recv_header st l = Some (csid, s, l') -> (length l' < length l)%nat.
Proof.
  unfold recv_header. intros H. rd_cases. case_match; [done|]. case_match.
  { rd_cases. case_match; rd_cases; simplify_eq; lia. }
  case_match; [|done]. destruct (st !! _) as [s0|]; [|done]. cbn [mbind option_bind] in H.
  case_match; rd_cases; simplify_eq; lia.
Qed.

Lemma recv_chunk_shrinks size st l o st' l' :
  recv_chunk size st l = Some (o, st', l') -> (length l' < length l)%nat.
Proof.
  unfold recv_chunk. intros H. destruct (recv_header st l) as [[[? ?] ?]|] eqn:E0; [|done].
  cbn [mbind option_bind] in H. apply recv_header_shrinks in E0. rd_cases.
  case_match; simplify_eq; lia.
Qed.

Lemma recv_messages_fuel f f' size st l :
  (length l <= f)%nat -> (length l <= f')%nat -> recv_messages f size st l = recv_messages f' size st l.
Proof.
  revert f' size st l. induction f as [|f IH]; intros f' size st l H1 H2.
  - destruct l; [|simpl in *; lia]. by destruct f'.
  - destruct l as [|x l]; [by destruct f'|]. destruct f' as [|f']; [simpl in *; lia|].
    cbn [recv_messages]. destruct (recv_chunk size st (x :: l)) as [[[[m|] st'] l']|] eqn:E; [..|done];
      apply recv_chunk_shrinks in E; simpl in *; [|apply IH; lia].
    by rewrite (IH f') by lia.
Qed.

Definition recv_from (size : nat) (st : gmap Z chunk_stream) (l : list Z) : option (list message) :=
  recv_messages (length l) size st l.

Lemma recv_all_from size l : recv_all size l = recv_from size ∅ l.
Proof. reflexivity. Qed.

Lemma recv_from_step size st l o st' l' :
  recv_chunk size st l = Some (o, st', l') ->
  recv_from size st l =
    match o with
    | None => recv_from size st' l'
    | Some m => ms ← recv_from (size_after size m) st' l'; Some (m :: ms)
    end.
Proof.
  intros E. pose proof (recv_chunk_shrinks _ _ _ _ _ _ E) as Hl. unfold recv_from.
  destruct l as [|x l]; [simpl in Hl; lia|]. simpl length. cbn [recv_messages]. rewrite E.
  simpl in Hl. destruct o as [m|]; by rewrite (recv_messages_fuel (length l) (length l')) by lia.
Qed.

(** One chunk's payload, after its header. *)
Lemma recv_from_payload size st m part rem l rest :
  m_data m = part ++ rem ->
  recv_header st l = Some (m_csid m, stream_of m part, take size rem ++ rest) ->
  recv_from size st l =
    if (length rem <=? size)%nat
    then ms ← recv_from (size_after size m) (delete (m_csid m) st) rest; Some (m :: ms)
    else recv_from size (<[m_csid m := stream_of m (part ++ take size rem)]> st) rest.
Proof.
  intros Hd Hh. assert (E : recv_chunk size st l =
    Some (if (length rem <=? size)%nat then (Some m, delete (m_csid m) st, rest)
          else (None, <[m_csid m := stream_of m (part ++ take size rem)]> st, rest))).
  2: { destruct (_ <=? _)%nat; by rewrite (recv_from_step _ _ _ _ _ _ E). }
  unfold recv_chunk. rewrite Hh. cbn [mbind option_bind].
  assert (Hlen : length (m_data m) = (length part + length rem)%nat) by (by rewrite Hd, length_app).
  rewrite rd_app by (cbn [ch_len ch_part stream_of]; rewrite Nat2Z.id, length_take; lia).
  cbn [mbind option_bind ch_len ch_part ch_type ch_stream ch_ts ch_ext stream_of].
  rewrite length_app, length_take.
  destruct (Nat.leb_spec (length rem) size).
  - destruct (Z.eqb_spec (Z.of_nat (length part + size `min` length rem)) (Z.of_nat (length (m_data m)))); [|lia].
    rewrite take_ge by lia. rewrite <- Hd. by destruct m.
  - destruct (Z.eqb_spec (Z.of_nat (length part + size `min` length rem)) (Z.of_nat (length (m_data m)))); [lia|].
    done.
Qed.

Lemma recv_tail size m part rem st rest :
  (0 < size)%nat -> message_ok m -> m_data m = part ++ rem -> rem <> [] ->
  st !! m_csid m = Some (stream_of m part) ->
  recv_from size st (tail_chunks size (m_csid m) (m_ts m) rem ++ rest) =
    (ms ← recv_from (size_after size m) (delete (m_csid m) st) rest; Some (m :: ms)).
Proof.
  intros Hs Hm. remember (length rem) as n eqn:Hn. revert part rem st Hn.
  induction (lt_wf n) as [n _ IH]; intros part rem st -> Hd Hr Hst.
  rewrite tail_chunks_step by done. rewrite <- !app_assoc.
  rewrite (recv_from_payload _ _ _ _ _ _ _ Hd (recv_next_header _ _ _ _ Hm Hst)).
  destruct (Nat.leb_spec (length rem) size).
  - rewrite (drop_ge rem) by lia. done.
  - rewrite (IH (length (drop size rem)) ltac:(rewrite length_drop; destruct rem; simpl in *; [done|lia])
               (part ++ take size rem) (drop size rem)); [by rewrite delete_insert_eq|done| | |].
    + by rewrite <- app_assoc, take_drop.
    + intros E. apply (f_equal length) in E. rewrite length_drop in E. simpl in E. lia.
    + by rewrite lookup_insert_eq.
Qed.

Lemma recv_message size m st rest :
  (0 < size)%nat -> message_ok m -> st !! m_csid m = None ->
  recv_from size st (message_bytes size m ++ rest) =
    (ms ← recv_from (size_after size m) st rest; Some (m :: ms)).
Proof.
  intros Hs Hm Hst. assert (Hd : m_data m <> []).
  { destruct Hm as (_ & _ & _ & _ & _ & H). intros E. rewrite E in H. simpl in H. lia. }
  rewrite message_bytes_eq by done. rewrite <- !app_assoc.
  rewrite (recv_from_payload _ _ m [] (m_data m) _ _ eq_refl (recv_first_header _ _ _ Hm)).
  destruct (Nat.leb_spec (length (m_data m)) size).
  - rewrite drop_ge by lia. by rewrite delete_id.
  - simpl. rewrite (recv_tail size m (take size (m_data m)));
      [by rewrite delete_insert_id by done|done|done|by rewrite take_drop| |by rewrite lookup_insert_eq].
    intros E. apply (f_equal length) in E. rewrite length_drop in E. simpl in E. lia.
Qed.

(** A sequence of messages, each cut to the chunk size the ones before it set. *)
Fixpoint messages_bytes (size : nat) (ms : list message) : list Z :=
  match ms with
  | [] => []
  | m :: ms => message_bytes size m ++ messages_bytes (size_after size m) ms
  end.

Lemma recv_messages_bytes size ms :
  (0 < size)%nat -> Forall message_ok ms ->
  Forall (fun m => m_type m = RTMP_MSG_SET_CHUNK_SIZE -> 0 < be_val (take 4 (m_data m))) ms ->
  recv_from size ∅ (messages_bytes size ms) = Some ms.
Proof.
  intros Hs Hm Hc. revert size Hs Hc. induction Hm as [|m ms Hm Hms IH]; intros size Hs Hc.
  - done.
  - inversion Hc as [|? ? Hc1 Hc2]; subst. cbn [messages_bytes]. rewrite recv_message by done.
    rewrite IH; [done| |done]. unfold size_after. case_match; [|done]. bool_to_prop. specialize (Hc1 ltac:(done)). lia.
Qed.

(** ** Media calls as messages *)

Inductive media :=
  M_video_header (codec : Z) (sps : list Z) (sps_len : nat) (pps : list Z) (pps_len : nat)
    (vps : list Z) (vps_len : nat)
| M_audio_header (sample_rate channels aot : Z)
| M_video (avcc : list Z) (timestamp_ms : Z) (is_key : bool) (codec : Z)
| M_audio (data : list Z) (timestamp_ms : Z).

Section media.
Context (rss_aac_asc : Z -> Z -> Z -> option (list Z)).

Definition media_call (x : media) : rtmp_act :=
  match x with
  | M_video_header codec sps sl pps pl vps vl => rsp_rtmp_send_video_header codec sps sl pps pl vps vl
  | M_audio_header rate ch aot => rsp_rtmp_send_audio_header rss_aac_asc rate ch aot
  | M_video avcc ts key codec => rsp_rtmp_send_video avcc ts key codec
  | M_audio data ts => rsp_rtmp_send_audio data ts
  end.

Definition media_message (sid : Z) (x : media) : message :=
  match x with
  | M_video_header codec sps sl pps pl vps vl =>
      mk_message RTMP_CSID_VIDEO RTMP_MSG_VIDEO sid 0 (video_header codec sps sl pps pl vps vl)
  | M_audio_header rate ch aot =>
      mk_message RTMP_CSID_AUDIO RTMP_MSG_AUDIO sid 0
        ([FLV_AUDIO_TAG; 0] ++ default [] (audio_config rss_aac_asc rate ch aot))
  | M_video avcc ts key codec =>
      mk_message RTMP_CSID_VIDEO RTMP_MSG_VIDEO sid ts (video_tag codec key ++ avcc)
  | M_audio data ts => mk_message RTMP_CSID_AUDIO RTMP_MSG_AUDIO sid ts ([FLV_AUDIO_TAG; 1] ++ data)
  end.

(** Arguments the callers can have: 32-bit timestamps other than the escape
    value, frames and parameter sets that fit. *)
Definition media_ok (x : media) : Prop :=
  match x with
  | M_video_header _ _ sl _ pl _ vl => Z.of_nat (sl + pl + vl) <= 65472
  | M_audio_header rate ch aot =>
      exists asc, audio_config rss_aac_asc rate ch aot = Some asc /\ Z.of_nat (length asc) < 65534
  | M_video avcc ts _ _ => Z.of_nat (length avcc) < 2 ^ 24 - 9 /\ in_u 32 ts /\ ts <> TS_ESCAPE
  | M_audio data ts => Z.of_nat (length data) <= 65534 /\ in_u 32 ts /\ ts <> TS_ESCAPE
  end.

Definition send_all (l : list media) : rtmp_act := foldr (fun x a => media_call x ;;! a) ret0 l.

(** A connection ready for media. *)
Definition ready (c : rsp_rtmp) : Prop :=
  rt_state c = RSP_STATE_PUBLISHING /\ rt_chunk_size c = RTMP_CHUNK_SZ_OUT /\
  rt_send_buf_size c = Some 65536 /\ in_u 32 (rt_stream_id c).

Lemma audio_fast_sends data ts c :
  2 + Z.of_nat (length data) <= rt_chunk_size c < 2 ^ 32 -> publishing c = true ->
  sends (rsp_rtmp_send_audio data ts)
    (message_bytes (Z.to_nat (rt_chunk_size c)) (media_message (rt_stream_id c) (M_audio data ts))) c.
Proof.
  intros Hle Hp. unfold sends, rsp_rtmp_send_audio. rewrite Hp. cbn [negb].
  rewrite uwrap_id by cint. rewrite (proj2 (Z.leb_le _ _)) by lia.
  eapply sends_ext; [symmetry; apply message_bytes_eq; [lia|done]|].
  cbn [m_csid m_type m_stream m_ts m_data media_message]. rewrite drop_ge, take_ge by (simpl; lia).
  unfold tail_chunks. cbn [next_chunks length]. rewrite app_nil_r.
  replace (Z.of_nat (length ([FLV_AUDIO_TAG; 1] ++ data))) with (2 + Z.of_nat (length data)) by (simpl; lia).
  eapply sends_ext; [|apply sends_seq; [apply sends_send|intros ? ?; apply (sends_seq _ _ (ext_ts ts));
    [unfold ext_ts; destruct (ts >? TS_ESCAPE); auto with rtmp|intros ? ?; apply sends_seq;
      [apply sends_send|intros ? ?; apply sends_seq; auto with rtmp]]]].
  unfold first_header. by rewrite <- !app_assoc, app_nil_r.
Qed.

Lemma video_tag_length codec key : (5 <= length (video_tag codec key) <= 9)%nat.
Proof. unfold video_tag. case_match; simpl; lia. Qed.

Lemma video_header_length codec sps sl pps pl vps vl :
  (11 <= length (video_header codec sps sl pps pl vps vl) <= 64 + (sl + pl + vl))%nat.
Proof.
  unfold video_header, nal_array. case_match; rewrite !length_app, !length_take; simpl; lia.
Qed.

Lemma media_message_ok sid x : in_u 32 sid -> media_ok x -> message_ok (media_message sid x).
Proof.
  intros Hs Hx. destruct x as [codec sps sl pps pl vps vl| |avcc ts key codec|data ts];
    unfold message_ok; cbn [media_message m_csid m_type m_stream m_ts m_data media_ok] in *;
    unfold RTMP_CSID_VIDEO, RTMP_CSID_AUDIO, RTMP_MSG_VIDEO, RTMP_MSG_AUDIO, TS_ESCAPE, in_u in *.
  - pose proof (video_header_length codec sps sl pps pl vps vl). lia.
  - destruct Hx as (asc & -> & ?). simpl. lia.
  - pose proof (video_tag_length codec key). rewrite length_app. lia.
  - simpl. lia.
Qed.

Lemma media_sends x c : ready c -> media_ok x ->
  sends (media_call x) (message_bytes (Z.to_nat RTMP_CHUNK_SZ_OUT) (media_message (rt_stream_id c) x)) c.
Proof.
  intros (Hst & Hsz & Hsb & Hsid) Hx.
  assert (Hp : publishing c = true) by (unfold publishing; by rewrite Hst).
  assert (Hpos : (0 < Z.to_nat (rt_chunk_size c))%nat) by (rewrite Hsz; unfold RTMP_CHUNK_SZ_OUT; lia).
  rewrite <- Hsz. destruct x as [codec sps sl pps pl vps vl|rate ch aot|avcc ts key codec|data ts];
    cbn [media_call media_ok] in *.
  - unfold sends, rsp_rtmp_send_video_header. rewrite Hp, Hsb. cbn [negb default id from_option].
    rewrite uwrap_id by (unfold in_u; lia).
    case_match eqn:E; bool_to_prop; [lia|]. by apply send_message_sends.
  - destruct Hx as (asc & Ha & _). unfold sends, rsp_rtmp_send_audio_header. cbn [media_message].
    rewrite Hp, Ha. cbn [negb default id from_option]. by apply send_message_sends.
  - unfold sends, rsp_rtmp_send_video. rewrite Hp. cbn [negb].
    apply send_video_loop_sends; [done|]. intros E. pose proof (video_tag_length codec key) as Hl.
    rewrite E in Hl. simpl in Hl. lia.
  - destruct Hx as (Hl & Hts & _). unfold in_u in Hts.
    destruct (Z.le_gt_cases (2 + Z.of_nat (length data)) (rt_chunk_size c)) as [Hle|Hgt].
    { apply audio_fast_sends; [split; [done|rewrite Hsz; done]|done]. }
    unfold sends, rsp_rtmp_send_audio. rewrite Hp, Hsb. cbn [negb default id from_option].
    rewrite uwrap_id by (unfold in_u; lia).
    do 2 (case_match; bool_to_prop; [lia|]). by apply send_message_sends.
Qed.

Lemma ready_after o w c : ready c -> ready (after_write o w c).
Proof. done. Qed.

Lemma send_all_sends l c : ready c -> Forall media_ok l ->
  sends (send_all l)
    (messages_bytes (Z.to_nat RTMP_CHUNK_SZ_OUT) (media_message (rt_stream_id c) <$> l)) c.
Proof.
  intros Hr Hl. revert c Hr. induction Hl as [|x l Hx Hl IH]; intros c Hr; [apply sends_ret0|].
  cbn [send_all foldr fmap list_fmap messages_bytes].
  assert (Hsz : size_after (Z.to_nat RTMP_CHUNK_SZ_OUT) (media_message (rt_stream_id c) x) =
                Z.to_nat RTMP_CHUNK_SZ_OUT) by (by destruct x).
  rewrite Hsz. apply sends_seq; [by apply media_sends|]. intros o w. by apply (IH (after_write o w c)).
Qed.

End media.
