(* ===== verification/RtmpSession.v ===== *)
(** * rsp: an RTMP session from the first byte to the last

    What the response reader may change, whatever the server sends; the
    messages a successful connect, publish and run of media calls puts on the
    wire, read back by the reference receiver; and the response reader's own
    behaviour on well-formed and on unusual server streams. *)

From Stdlib Require Import String.
From stdpp Require Import gmap list.
From S2P Require Import Prelude Rtmp RtmpProps.
#[local] Open Scope rtmp_scope.

(** ** What reading changes *)

(** Only the pending input moved. *)
Definition only_in (c c' : rsp_rtmp) : Prop := exists i, c' = c <| rt_in := i |>.

Lemma only_in_refl c : only_in c c.
Proof. exists (rt_in c). by destruct c. Qed.
Lemma only_in_trans c1 c2 c3 : only_in c1 c2 -> only_in c2 c3 -> only_in c1 c3.
Proof. intros [i ->] [j ->]. by exists j. Qed.

Create HintDb rtmp_in.
#[export] Hint Resolve only_in_refl : rtmp_in.

Lemma rtmp_recv_in n c : only_in c (rtmp_recv n c).2.
Proof.
  unfold rtmp_recv. destruct (rt_in c) as [|seg rest] eqn:E; [apply only_in_refl|]. by eexists.
Qed.

Lemma recv_loop_in fuel len got c : only_in c (recv_loop fuel len got c).2.
Proof.
  revert got c. induction fuel as [|fuel IH]; intros got c; cbn [recv_loop]; (case_match; [apply only_in_refl|]).
  - apply only_in_refl.
  - destruct (rtmp_recv (len - length got) c) as [[|x l] c1] eqn:E.
    + simpl. pose proof (rtmp_recv_in (len - length got) c) as Hin. by rewrite E in Hin.
    + eapply only_in_trans, IH. pose proof (rtmp_recv_in (len - length got) c) as Hin. by rewrite E in Hin.
Qed.

Lemma recv_full_in n c o c' : rtmp_recv_full n c = (o, c') -> only_in c c'.
Proof. intros E. pose proof (recv_loop_in n n [] c) as H. unfold rtmp_recv_full in E. by rewrite E in H. Qed.

(** Case analysis on the [recv_full] calls of a reading function. *)
Ltac recv_cases :=
  repeat match goal with
  | H : context [rtmp_recv_full ?n ?c] |- _ =>
      let E := fresh "E" in destruct (rtmp_recv_full n c) as [[?|] ?] eqn:E;
      apply recv_full_in in E
  end.

Lemma read_csid_in b c o c' : read_csid b c = (o, c') -> only_in c c'.
Proof.
  unfold read_csid. intros H. case_match; [recv_cases; by simplify_eq|].
  case_match; [recv_cases; by simplify_eq|]. simplify_eq. apply only_in_refl.
Qed.

Lemma skip_extended_in ts c o c' : skip_extended ts c = (o, c') -> only_in c c'.
Proof.
  unfold skip_extended. intros H. case_match; [recv_cases; by simplify_eq|]. simplify_eq. apply only_in_refl.
Qed.

Lemma read_message_header_in fmt s c o c' : read_message_header fmt s c = (o, c') -> only_in c c'.
Proof.
  unfold read_message_header. intros H.
  repeat (case_match; [recv_cases; simplify_eq; try done;
    match goal with E : context [skip_extended ?t ?d] |- _ =>
      destruct (skip_extended t d) as [[] ?] eqn:Es; apply skip_extended_in in Es end;
    simplify_eq; by eapply only_in_trans|]).
  simplify_eq. apply only_in_refl.
Qed.

Lemma skip_loop_in fuel n c o c' : skip_loop fuel n c = (o, c') -> only_in c c'.
Proof.
  revert n c. induction fuel as [|fuel IH]; intros n c H.
  - destruct n; cbn [skip_loop] in H; simplify_eq; apply only_in_refl.
  - destruct n; cbn [skip_loop] in H; [simplify_eq; apply only_in_refl|].
    recv_cases; [apply IH in H; by eapply only_in_trans|]. by simplify_eq.
Qed.

Lemma recv_loop_some fuel len got c l c' :
  (length got <= len)%nat -> recv_loop fuel len got c = (Some l, c') -> length l = len.
Proof.
  revert got c. induction fuel as [|fuel IH]; intros got c Hg; cbn [recv_loop];
    (destruct (Nat.leb_spec len (length got)); [intros [= <- <-]; lia|]); [done|].
  destruct (rtmp_recv (len - length got) c) as [[|x y] c1] eqn:E; [done|].
  intros H1. eapply IH; [|exact H1]. unfold rtmp_recv in E. destruct (rt_in c) as [|seg rest]; [done|].
  injection E as E _. rewrite length_app, <- E, length_take. lia.
Qed.

Lemma recv_full_some n c l c' : rtmp_recv_full n c = (Some l, c') -> length l = n.
Proof. apply recv_loop_some. simpl. lia. Qed.

(** The receive buffer keeps its size. *)
Lemma read_payload_keeps got chunk c ok c' buf :
  rt_recv_buf c = Some buf -> read_payload got chunk c = (ok, c') ->
  exists i buf', c' = c <| rt_in := i |> <| rt_recv_buf := Some buf' |> /\ length buf' = length buf.
Proof.
  intros Hb. unfold read_payload. rewrite Hb. cbn [default from_option id].
  destruct (Nat.ltb_spec (length buf) (got + chunk)) as [Hlt|Hge].
  { intros H. apply skip_loop_in in H as [i ->]. exists i, buf. split; [|done]. destruct c; simpl in *; by subst. }
  destruct (rtmp_recv_full chunk c) as [[l|] c1] eqn:E; intros [= <- <-].
  - pose proof (recv_full_some _ _ _ _ E) as Hl. apply recv_full_in in E as [i ->].
    eexists i, _. split; [done|]. rewrite !length_app, length_take, length_drop. lia.
  - apply recv_full_in in E as [i ->]. exists i, buf. split; [|done]. destruct c; simpl in *; by subst.
Qed.

(** ** What a session leaves alone *)

Definition OUT : nat := Z.to_nat RTMP_CHUNK_SZ_OUT.

(** Messages [ms] went out at the client's chunk size, unless the socket failed,
    and the rest of the connection's set-up is what it was. *)
Record spoke (ms : list message) (c c' : rsp_rtmp) : Prop := mk_spoke {
  sp_wire : no_error (rt_writes c) -> rt_out c' = rt_out c ++ messages_bytes OUT ms /\ no_error (rt_writes c');
  sp_chunk : rt_chunk_size c' = rt_chunk_size c;
  sp_names : (rt_app c', rt_stream_key c', rt_tc_url c') = (rt_app c, rt_stream_key c, rt_tc_url c);
  sp_bufs : rt_send_buf_size c' = rt_send_buf_size c /\ length <$> rt_recv_buf c' = length <$> rt_recv_buf c;
  sp_sid : in_u 32 (rt_stream_id c) -> in_u 32 (rt_stream_id c')
}.

Definition plain (m : message) : Prop := m_type m <> RTMP_MSG_SET_CHUNK_SIZE.

Lemma messages_bytes_app size l1 l2 : Forall plain l1 ->
  messages_bytes size (l1 ++ l2) = messages_bytes size l1 ++ messages_bytes size l2.
Proof.
  induction 1 as [|m l Hm Hl IH]; [done|]. cbn [messages_bytes app].
  assert (size_after size m = size) as ->.
  { unfold size_after. by rewrite (proj2 (Z.eqb_neq _ _)) by exact Hm. }
  by rewrite IH, app_assoc.
Qed.

Lemma spoke_trans l1 l2 c1 c2 c3 : Forall plain l1 ->
  spoke l1 c1 c2 -> spoke l2 c2 c3 -> spoke (l1 ++ l2) c1 c3.
Proof.
  intros Hp [w1 k1 n1 [b1 r1] s1] [w2 k2 n2 [b2 r2] s2].
  split; [|by rewrite k2|by rewrite n2|by rewrite b2, r2|by auto].
  intros He. destruct (w1 He) as [o1 e1], (w2 e1) as [o2 e2]. split; [|done].
  by rewrite o2, o1, messages_bytes_app, app_assoc by done.
Qed.

Lemma spoke_nil c : spoke [] c c.
Proof. split; try done. cbn. by rewrite app_nil_r. Qed.

Lemma spoke_only_in c c' : only_in c c' -> spoke [] c c'.
Proof. intros [i ->]. split; try done. cbn. by rewrite app_nil_r. Qed.

(** A call that sends one message. *)
Lemma spoke_sends a m c r c' :
  sends a (message_bytes OUT m) c -> a c = (r, c') -> spoke [m] c c'.
Proof.
  intros (ok & sent & ws & Ea & _ & Hok & Hne) E. rewrite Ea in E. injection E as <- <-.
  split; try done. intros He. destruct (Hne He) as [-> Hw]. split; [|done].
  cbn [rt_out after_write set_field messages_bytes]. by rewrite (Hok eq_refl), app_nil_r.
Qed.

Definition ack_message : message :=
  mk_message RTMP_CSID_CONTROL RTMP_MSG_WINDOW_ACK_SIZE 0 0 (put_be32 2500000).

Lemma acks_plain n : Forall plain (replicate n ack_message).
Proof. by apply Forall_replicate. Qed.

(** Closes [Forall plain] of a concrete list of messages. *)
Ltac plain_msgs :=
  repeat first [apply Forall_nil_2 | apply acks_plain | apply Forall_app_2 | assumption
               | apply Forall_cons_2; [discriminate|]].

Section session.
Context (dbl_ub : Z -> Z).

Lemma double_to_u32_range bits : in_u 32 (double_to_u32 dbl_ub bits).
Proof.
  unfold double_to_u32. set (e := Z.land _ _). set (m := Z.land _ _).
  assert (Hm : 0 <= m < 2 ^ 52).
  { subst m. change (2 ^ 52 - 1) with (Z.ones 52). rewrite Z.land_ones by lia. by apply Z.mod_pos_bound. }
  case_match; [done|]. case_match; [apply uwrap_range; lia|]. bool_to_prop.
  rewrite Z.shiftr_div_pow2 by lia. split; [apply Z.div_pos; [lia|apply Z.pow_pos_nonneg; lia]|].
  apply Z.div_lt_upper_bound; [apply Z.pow_pos_nonneg; lia|].
  rewrite <- Z.pow_add_r by lia. eapply Z.lt_le_trans with (2 ^ 53); [lia|].
  apply Z.pow_le_mono_r; lia.
Qed.

(** Only acknowledgements went out. *)
Definition acked (c c' : rsp_rtmp) : Prop := exists n, spoke (replicate n ack_message) c c'.

Lemma acked_trans c1 c2 c3 : acked c1 c2 -> acked c2 c3 -> acked c1 c3.
Proof.
  intros [n H1] [k H2]. exists (n + k)%nat. rewrite replicate_add.
  eapply spoke_trans; [apply acks_plain|done..].
Qed.

Lemma acked_only_in c c' : only_in c c' -> acked c c'.
Proof. exists 0%nat. by apply spoke_only_in. Qed.

Lemma process_command_keeps len c : spoke [] c (process_command dbl_ub len c).
Proof.
  unfold process_command.
  assert (Hst : forall (s : rsp_conn_state) (d : rsp_rtmp), spoke [] c d -> spoke [] c (d <| rt_state := s |>)) by (intros s d []; by split).
  pose proof (spoke_nil c) as H0.
  repeat (case_match; try (by auto)). apply Hst.
  unfold result_stream_id in *. 
  destruct H0. split; try done. intros _. case_match; [|done]. simplify_eq. apply double_to_u32_range.
Qed.

Lemma process_message_acked ty len c :
  rt_chunk_size c = RTMP_CHUNK_SZ_OUT -> acked c (rtmp_process_message dbl_ub ty len c).
Proof.
  intros Hc. unfold rtmp_process_message. pose proof (spoke_nil c) as H0.
  case_match; [exists 0%nat; case_match; [destruct H0; by split|done]|].
  case_match.
  - exists 1%nat. destruct (rtmp_send_window_ack 2500000 c) as [r c'] eqn:E.
    eapply spoke_sends in E; [exact E|]. unfold OUT. rewrite <- Hc. apply send_message_sends.
    rewrite Hc. unfold RTMP_CHUNK_SZ_OUT. lia.
  - case_match; [exists 0%nat; by apply process_command_keeps|by exists 0%nat].
Qed.

Lemma acked_chunk c c' : acked c c' -> rt_chunk_size c' = rt_chunk_size c.
Proof. by intros [n []]. Qed.

Lemma read_chunk_acked cs c o c' buf :
  rt_chunk_size c = RTMP_CHUNK_SZ_OUT -> rt_recv_buf c = Some buf ->
  read_chunk dbl_ub cs c = (o, c') -> acked c c' /\ is_Some (rt_recv_buf c').
Proof.
  intros Hc Hb H. unfold read_chunk in H.
  destruct (rtmp_recv 1 c) as [[|b bs] c1] eqn:E1;
    pose proof (rtmp_recv_in 1 c) as Hin1; rewrite E1 in Hin1; cbn [snd] in Hin1.
  { simplify_eq. split; [by apply acked_only_in|]. destruct Hin1 as [i ->]. by eexists. }
  destruct (read_csid b c1) as [[csid|] c2] eqn:E2; apply read_csid_in in E2;
    pose proof (only_in_trans _ _ _ Hin1 E2) as Hin2.
  2: { simplify_eq. split; [by apply acked_only_in|]. destruct Hin2 as [i ->]. by eexists. }
  destruct (read_message_header _ _ c2) as [[s|] c3] eqn:E3; apply read_message_header_in in E3;
    pose proof (only_in_trans _ _ _ Hin2 E3) as Hin3; pose proof (acked_only_in _ _ Hin3) as Ha3.
  2: { simplify_eq. split; [done|]. destruct Hin3 as [i ->]. by eexists. }
  assert (Hb3 : rt_recv_buf c3 = Some buf) by (by destruct Hin3 as [i ->]). unfold read_chunk_body in H.
  destruct (cs_msg_len s =? 0); [simplify_eq; (split; [done|by eexists])|].
  destruct (read_payload _ _ c3) as [ok c4] eqn:E4.
  eapply read_payload_keeps in E4 as (i & buf' & -> & Hl); [|done].
  assert (Ha4 : acked c (c3 <| rt_in := i |> <| rt_recv_buf := Some buf' |>)).
  { eapply acked_trans; [done|]. exists 0%nat. destruct Ha3 as [n []]. split; try done.
    - cbn. by rewrite app_nil_r.
    - split; [done|]. rewrite Hb3. simpl. by rewrite Hl. }
  destruct ok; cbn [negb] in H; [|simplify_eq; (split; [done|by eexists])].
  set (s' := s <| cs_msg_got := _ |>) in H. clearbody s'.
  destruct (cs_msg_got s' >=? cs_msg_len s'); simplify_eq; [|(split; [done|by eexists])].
  pose proof (acked_chunk _ _ Ha4) as Hc4.
  pose proof (process_message_acked (cs_msg_type s') (cs_msg_len s') _ (eq_trans Hc4 Hc)) as Hp.
  split; [by eapply acked_trans|]. destruct Hp as [n [_ _ _ [_ Hr] _]].
  cbn [rt_recv_buf set_field] in Hr. by destruct (rt_recv_buf (rtmp_process_message _ _ _ _)).
Qed.

Lemma responses_loop_acked fuel now dl target cs c r c' :
  rt_chunk_size c = RTMP_CHUNK_SZ_OUT -> is_Some (rt_recv_buf c) ->
  responses_loop dbl_ub fuel now dl target cs c = (r, c') ->
  acked c c' /\ is_Some (rt_recv_buf c') /\
  (r = 0 -> state_num target <= state_num (rt_state c') /\ rt_state c' <> RSP_STATE_ERROR).
Proof.
  revert now cs c. induction fuel as [|fuel IH]; intros now cs c Hc [buf Hb] H; cbn [responses_loop] in H.
  - case_match; simplify_eq; (split; [exists 0%nat; by apply spoke_nil|split; [by eauto|]]); [done|].
    intros Hr0. bool_to_prop. case_bool_decide; [done|]. naive_solver lia.
  - case_match eqn:Hw.
    + case_match; [simplify_eq; split_and!; [exists 0%nat; by apply spoke_nil|by eauto|done]|].
      destruct (read_chunk dbl_ub cs c) as [[cs'|] c1] eqn:E;
        (eapply read_chunk_acked in E as [Ha Hb1]; [|done|exact Hb]).
      * pose proof (acked_chunk _ _ Ha) as Hc1.
        eapply IH in H as (Ha2 & Hb2 & Hr); [|by rewrite Hc1|done].
        split; [by eapply acked_trans|done].
      * by simplify_eq.
    + simplify_eq. split; [exists 0%nat; by apply spoke_nil|]. split; [by eauto|].
      intros Hr0. bool_to_prop. case_bool_decide; [done|]. naive_solver lia.
Qed.

Lemma read_responses_acked now target t c r c' :
  rt_chunk_size c = RTMP_CHUNK_SZ_OUT -> is_Some (rt_recv_buf c) ->
  rtmp_read_responses dbl_ub now target t c = (r, c') ->
  acked c c' /\ is_Some (rt_recv_buf c') /\
  (r = 0 -> state_num target <= state_num (rt_state c') /\ rt_state c' <> RSP_STATE_ERROR).
Proof. apply responses_loop_acked. Qed.

Lemma act_seq_0 a b c c' : (a ;;! b) c = (0, c') -> exists r c1, a c = (r, c1) /\ b c1 = (0, c').
Proof. unfold act_seq. destruct (a c) as [r c1]. case_match; [done|]. eauto. Qed.

Lemma or_disconnect_0 a c r c' : or_disconnect a c = (r, c') -> 0 <= r -> exists r', a c = (r', c') /\ 0 <= r'.
Proof.
  unfold or_disconnect. destruct (a c) as [r1 c1]. case_match; intros [= <- <-]; [lia|].
  intros _. bool_to_prop. eauto.
Qed.

Lemma act_seq_or_0 a b c c' :
  (or_disconnect a ;;! b) c = (0, c') -> exists r c1, a c = (r, c1) /\ 0 <= r /\ b c1 = (0, c').
Proof.
  unfold act_seq. destruct (or_disconnect a c) as [r c1] eqn:E. case_match; [done|]. bool_to_prop.
  intros Hb. apply or_disconnect_0 in E as (r' & ? & ?); [|lia]. eauto.
Qed.

Lemma c1_random_length u : length (c1_random u) = (RTMP_HANDSHAKE_SIZE - 8)%nat.
Proof.
  unfold c1_random. destruct u as [l|]; [|by rewrite length_replicate].
  rewrite length_app, length_take, length_replicate. lia.
Qed.

(** 1 + 1536 bytes of C0 and C1, then 1536 of C2. *)
Definition HS : nat := Z.to_nat 3073.

Lemma handshake_out time u c r c' :
  rtmp_handshake time u c = (r, c') -> 0 <= r ->
  exists hs i ws, length hs = HS /\ (no_error (rt_writes c) -> no_error ws) /\
    c' = after_write (rt_out c ++ hs) ws c <| rt_in := i |> <| rt_state := RSP_STATE_HANDSHAKE |>.
Proof.
  intros H Hr. unfold rtmp_handshake in H. cbv zeta in H.
  set (x1 := [3] ++ _) in H. set (fx2 := fun s => take 4 (take RTMP_HANDSHAKE_SIZE (drop 1 s)) ++
    put_be32 (u32 time) ++ drop 8 (take RTMP_HANDSHAKE_SIZE (drop 1 s))).
  destruct (sends_send x1 c) as (ok & sent & ws & E1 & _ & Hok & Hne). rewrite E1 in H.
  destruct ok; [|cbn [Z.ltb Z.compare] in H; simplify_eq; lia].
  rewrite (Hok eq_refl) in *. cbn [Z.ltb Z.compare] in H.
  destruct (rtmp_recv_full _ _) as [[s|] c1] eqn:E2; [|simplify_eq; lia].
  pose proof (recv_full_some _ _ _ _ E2) as Hs. apply recv_full_in in E2 as [i ->].
  case_match; [simplify_eq; lia|].
  destruct (sends_send (fx2 s) ((after_write (rt_out c ++ x1) ws c) <| rt_in := i |>))
    as (ok2 & sent2 & ws2 & E3 & _ & Hok2 & Hne2).
  unfold fx2 in E3 at 1. rewrite E3 in H.
  destruct ok2; [|cbn [Z.ltb Z.compare] in H; simplify_eq; lia]. rewrite (Hok2 eq_refl) in *.
  cbn [Z.ltb Z.compare] in H. injection H as <- <-.
  exists (x1 ++ fx2 s), i, ws2. split; [|split; [intros He; apply Hne2, Hne, He|]].
  - unfold x1, fx2. rewrite !length_app, c1_random_length, length_replicate, length_take, length_drop,
      length_take, length_drop, Hs. done.
  - unfold after_write. cbn [rt_out set_field]. by rewrite app_assoc.
Qed.

Definition set_chunk_message : message :=
  mk_message RTMP_CSID_CONTROL RTMP_MSG_SET_CHUNK_SIZE 0 0 (put_be32 RTMP_CHUNK_SZ_OUT).
Definition connect_message (c : rsp_rtmp) : message :=
  mk_message RTMP_CSID_COMMAND RTMP_MSG_AMF0_CMD 0 0 (connect_command c).
Definition create_stream_message : message :=
  mk_message RTMP_CSID_COMMAND RTMP_MSG_AMF0_CMD 0 0 create_stream_command.
Definition publish_message (c : rsp_rtmp) : message :=
  mk_message RTMP_CSID_COMMAND RTMP_MSG_AMF0_CMD (rt_stream_id c) 0 (publish_command c).

Lemma message_bytes_small s s' m :
  m_data m <> [] -> (length (m_data m) <= s)%nat -> (length (m_data m) <= s')%nat ->
  message_bytes s m = message_bytes s' m.
Proof.
  intros Hd H1 H2. assert (length (m_data m) <> 0)%nat by (by destruct (m_data m)).
  rewrite !message_bytes_eq by (done || lia). by rewrite !take_ge, !drop_ge by lia.
Qed.

Lemma connect_buffers_fresh env c c' :
  rt_recv_buf c = None -> rt_send_buf_size c = None -> connect_buffers env c = (true, c') ->
  c' = c <| rt_recv_buf := Some (replicate (Z.to_nat 4096) 0) |> <| rt_send_buf_size := Some 65536 |>.
Proof.
  intros Hr Hs. unfold connect_buffers. rewrite Hr. rewrite bool_decide_true by done. cbn [andb].
  destruct (negb (ce_recv_malloc env)); [done|].
  change (rt_send_buf_size (c <| rt_recv_buf := _ |>)) with (rt_send_buf_size c). rewrite Hs.
  rewrite bool_decide_true by done. cbn [andb]. destruct (negb (ce_send_malloc env)); [done|].
  intros H. by apply (f_equal snd) in H.
Qed.

(** The connection before any byte: what connect sets up. *)
Definition dialled (ws : list write_answer) (segs : list (list Z)) (c : rsp_rtmp) : rsp_rtmp :=
  (dial ws segs c) <| rt_recv_buf := Some (replicate (Z.to_nat 4096) 0) |>
    <| rt_send_buf_size := Some 65536 |>.

Lemma connect_dialled env c0 c1 :
  rt_recv_buf c0 = None -> rt_send_buf_size c0 = None -> rsp_rtmp_connect dbl_ub env false c0 = (0, c1) ->
  exists ws segs, ce_socket env = Some (ws, segs) /\
    connect_exchange dbl_ub env (dialled ws segs c0) = (0, c1).
Proof.
  intros Hr Hs H. unfold rsp_rtmp_connect in H.
  destruct (ce_socket env) as [[ws segs]|]; [|done]. exists ws, segs. split; [done|].
  destruct (connect_buffers env (dial ws segs c0)) as [[] c] eqn:E; [|done].
  apply connect_buffers_fresh in E; [|done|done]. by rewrite E in H.
Qed.

Lemma set_chunk_spoke c r c' :
  rtmp_send_set_chunk_size RTMP_CHUNK_SZ_OUT c = (r, c') ->
  rt_chunk_size c' = RTMP_CHUNK_SZ_OUT /\ spoke [set_chunk_message] (c <| rt_chunk_size := RTMP_CHUNK_SZ_OUT |>) c'.
Proof.
  intros E. unfold rtmp_send_set_chunk_size, rtmp_send_control in E.
  eapply (spoke_sends _ set_chunk_message) in E as Hs.
  - split; [exact (sp_chunk _ _ _ Hs)|exact Hs].
  - refine (send_message_sends _ _ _ _ _ (c <| rt_chunk_size := RTMP_CHUNK_SZ_OUT |>) _).
    cbn [rt_chunk_size set_field]. unfold RTMP_CHUNK_SZ_OUT. lia.
Qed.

Lemma command_spoke sid data c r c' :
  rt_chunk_size c = RTMP_CHUNK_SZ_OUT ->
  rtmp_send_message RTMP_CSID_COMMAND RTMP_MSG_AMF0_CMD sid 0 data c = (r, c') ->
  spoke [mk_message RTMP_CSID_COMMAND RTMP_MSG_AMF0_CMD sid 0 data] c c'.
Proof.
  intros Hc E. eapply spoke_sends in E as Hs; [exact Hs|].
  unfold OUT. rewrite <- Hc. apply send_message_sends. rewrite Hc. unfold RTMP_CHUNK_SZ_OUT. lia.
Qed.

(** Reading responses in the middle of a session. *)
Lemma waited now target t ms c0 c r c' :
  spoke ms c0 c -> rt_chunk_size c = RTMP_CHUNK_SZ_OUT -> is_Some (rt_recv_buf c) ->
  rtmp_read_responses dbl_ub now target t c = (r, c') -> 0 <= r -> Forall plain ms ->
  exists n, spoke (ms ++ replicate n ack_message) c0 c' /\ rt_chunk_size c' = RTMP_CHUNK_SZ_OUT /\
    is_Some (rt_recv_buf c').
Proof.
  intros Hs Hc Hb E Hr Hp. eapply read_responses_acked in E as ([n Ha] & Hb' & _); [|done|done].
  exists n. split; [by eapply spoke_trans|]. split; [|done]. by rewrite (sp_chunk _ _ _ Ha).
Qed.

Lemma command_next sid data ms c0 c r c' :
  spoke ms c0 c -> rt_chunk_size c = RTMP_CHUNK_SZ_OUT -> is_Some (rt_recv_buf c) ->
  rtmp_send_message RTMP_CSID_COMMAND RTMP_MSG_AMF0_CMD sid 0 data c = (r, c') -> Forall plain ms ->
  spoke (ms ++ [mk_message RTMP_CSID_COMMAND RTMP_MSG_AMF0_CMD sid 0 data]) c0 c' /\
  rt_chunk_size c' = RTMP_CHUNK_SZ_OUT /\ is_Some (rt_recv_buf c').
Proof.
  intros Hs Hc Hb E Hp. eapply command_spoke in E; [|done].
  split; [by eapply spoke_trans|]. split; [by rewrite (sp_chunk _ _ _ E)|].
  destruct E as [_ _ _ [_ Hr] _]. destruct Hb as [b Hb]. rewrite Hb in Hr.
  by destruct (rt_recv_buf c').
Qed.

Lemma size_after_set_chunk size : size_after size set_chunk_message = OUT.
Proof. unfold size_after, OUT. by f_equal. Qed.

Lemma set_chunk_bytes ms :
  messages_bytes (Z.to_nat RTMP_DEFAULT_CHUNK_SZ) (set_chunk_message :: ms) =
  message_bytes OUT set_chunk_message ++ messages_bytes OUT ms.
Proof.
  cbn [messages_bytes]. rewrite size_after_set_chunk. apply (f_equal (fun x => x ++ _)).
  apply message_bytes_small; [done|..]; unfold OUT, RTMP_DEFAULT_CHUNK_SZ, RTMP_CHUNK_SZ_OUT;
    simpl length; lia.
Qed.

(** From the first chunk-size message on. *)
Lemma exchange_steps env d1 c1 :
  rt_chunk_size d1 = RTMP_CHUNK_SZ_OUT -> is_Some (rt_recv_buf d1) ->
  (or_disconnect rtmp_send_connect ;;!
   or_disconnect (rtmp_read_responses dbl_ub (ce_now1 env) RSP_STATE_CONNECTING 10000) ;;!
   or_disconnect rtmp_send_create_stream ;;!
   or_disconnect (rtmp_read_responses dbl_ub (ce_now2 env) RSP_STATE_CONNECTED 10000)) d1 = (0, c1) ->
  rt_chunk_size c1 = RTMP_CHUNK_SZ_OUT /\ is_Some (rt_recv_buf c1) /\
  exists n1 n2, spoke ([connect_message d1] ++ replicate n1 ack_message ++
                       [create_stream_message] ++ replicate n2 ack_message) d1 c1.
Proof.
  intros Hc Hb H.
  apply act_seq_or_0 in H as (r3 & d3 & E3 & _ & H). unfold rtmp_send_connect in E3.
  destruct (command_next _ _ [] _ _ _ _ (spoke_nil d1) Hc Hb E3 ltac:(plain_msgs)) as (Hs3 & Hc3 & Hb3).
  apply act_seq_or_0 in H as (r4 & d4 & E4 & Hr4 & H).
  destruct (waited _ _ _ _ _ _ _ _ Hs3 Hc3 Hb3 E4 Hr4 ltac:(plain_msgs)) as (n1 & Hs4 & Hc4 & Hb4).
  apply act_seq_or_0 in H as (r5 & d5 & E5 & _ & H). unfold rtmp_send_create_stream in E5.
  destruct (command_next _ _ _ _ _ _ _ Hs4 Hc4 Hb4 E5 ltac:(plain_msgs)) as (Hs5 & Hc5 & Hb5).
  apply or_disconnect_0 in H as (r6 & E6 & Hr6); [|lia].
  destruct (waited _ _ _ _ _ _ _ _ Hs5 Hc5 Hb5 E6 Hr6 ltac:(plain_msgs)) as (n2 & Hs6 & Hc6 & Hb6).
  split; [exact Hc6|]. split; [exact Hb6|]. exists n1, n2.
  fold (connect_message d1) create_stream_message in Hs6. rewrite <- !app_assoc in Hs6. exact Hs6.
Qed.

(** Handshake and chunk-size message. *)
Lemma greeting_steps env c rest c1 :
  is_Some (rt_recv_buf c) ->
  (or_disconnect (rtmp_handshake (ce_time env) (ce_urandom env)) ;;!
   or_disconnect (rtmp_send_set_chunk_size RTMP_CHUNK_SZ_OUT) ;;! rest) c = (0, c1) ->
  exists hs d1, length hs = HS /\ rest d1 = (0, c1) /\
    rt_chunk_size d1 = RTMP_CHUNK_SZ_OUT /\ is_Some (rt_recv_buf d1) /\
    (no_error (rt_writes c) ->
     rt_out d1 = rt_out c ++ hs ++ message_bytes OUT set_chunk_message /\ no_error (rt_writes d1)) /\
    rt_send_buf_size d1 = rt_send_buf_size c /\
    (rt_app d1, rt_stream_key d1, rt_tc_url d1) = (rt_app c, rt_stream_key c, rt_tc_url c) /\
    (in_u 32 (rt_stream_id c) -> in_u 32 (rt_stream_id d1)).
Proof.
  intros [b Hb] H. apply act_seq_or_0 in H as (r1 & d0 & E1 & Hr1 & H).
  apply handshake_out in E1 as (hs & i & w1 & Hhs & Hw1 & E1); [|done].
  apply act_seq_or_0 in H as (r2 & d1 & E2 & _ & H). apply set_chunk_spoke in E2 as [Hc2 Hs2].
  destruct Hs2 as [wr2 _ n2 [b2 l2] s2]. exists hs, d1. rewrite E1 in wr2, n2, b2, l2, s2.
  split; [exact Hhs|]. split; [exact H|]. split; [exact Hc2|].
  split; [cbn in l2; rewrite Hb in l2; by destruct (rt_recv_buf d1)|].
  split; [|split; [exact b2|split; [exact n2|exact s2]]].
  intros He. destruct (wr2 (Hw1 He)) as [o2 e2]. split; [|exact e2].
  rewrite o2. cbn [rt_out after_write set_field messages_bytes]. by rewrite app_nil_r, <- app_assoc.
Qed.

Lemma connect_command_names c d :
  (rt_app d, rt_stream_key d, rt_tc_url d) = (rt_app c, rt_stream_key c, rt_tc_url c) ->
  connect_message d = connect_message c.
Proof. intros [= H1 _ H2]. unfold connect_message, connect_command. by rewrite H1, H2. Qed.

Lemma connect_exchange_eq env : connect_exchange dbl_ub env =
  or_disconnect (rtmp_handshake (ce_time env) (ce_urandom env)) ;;!
  or_disconnect (rtmp_send_set_chunk_size RTMP_CHUNK_SZ_OUT) ;;!
  or_disconnect rtmp_send_connect ;;!
  or_disconnect (rtmp_read_responses dbl_ub (ce_now1 env) RSP_STATE_CONNECTING 10000) ;;!
  or_disconnect rtmp_send_create_stream ;;!
  or_disconnect (rtmp_read_responses dbl_ub (ce_now2 env) RSP_STATE_CONNECTED 10000).
Proof. reflexivity. Qed.

(** What a successful connect put on the wire after the handshake. *)
Lemma connect_wire env c0 c1 ws segs :
  rt_recv_buf c0 = None -> rt_send_buf_size c0 = None -> ce_socket env = Some (ws, segs) ->
  rsp_rtmp_connect dbl_ub env false c0 = (0, c1) ->
  (no_error ws -> no_error (rt_writes c1) /\ exists hs n1 n2, length hs = HS /\
    rt_out c1 = hs ++ messages_bytes (Z.to_nat RTMP_DEFAULT_CHUNK_SZ)
      ([set_chunk_message; connect_message c0] ++ replicate n1 ack_message ++
       [create_stream_message] ++ replicate n2 ack_message)) /\
  rt_chunk_size c1 = RTMP_CHUNK_SZ_OUT /\ rt_send_buf_size c1 = Some 65536 /\ is_Some (rt_recv_buf c1) /\
  in_u 32 (rt_stream_id c1).
Proof.
  intros Hr0 Hs0 Hsock H.
  apply connect_dialled in H as (ws' & segs' & E & H); [|done|done]. rewrite Hsock in E. injection E as <- <-.
  rewrite connect_exchange_eq in H.
  apply greeting_steps in H as (hs & d1 & Hhs & H & Hc & Hb & Hw & Hsb & Hn & Hsid); [|by eexists].
  apply exchange_steps in H as (Hc1 & Hb1 & n1 & n2 & [w1 _ n1' [b1 _] s1]); [|done..].
  split; [|split; [exact Hc1|split; [|split; [exact Hb1|]]]].
  - intros He. destruct (Hw He) as [Ho He1], (w1 He1) as [o1 e1]. split; [exact e1|].
    exists hs, n1, n2. split; [exact Hhs|]. rewrite (connect_command_names c0 d1 Hn) in o1.
    rewrite o1, Ho. cbn [app]. rewrite set_chunk_bytes.
    change (rt_out (dialled ws segs c0)) with (@nil Z). cbn [app]. by rewrite <- app_assoc.
  - rewrite b1, Hsb. done.
  - apply s1, Hsid. done.
Qed.

Lemma publish_steps now c1 c2 :
  rt_chunk_size c1 = RTMP_CHUNK_SZ_OUT -> is_Some (rt_recv_buf c1) ->
  rsp_rtmp_publish dbl_ub now c1 = (0, c2) ->
  rt_state c2 = RSP_STATE_PUBLISHING /\
  exists n3, spoke ([publish_message c1] ++ replicate n3 ack_message) c1 c2.
Proof.
  intros Hc Hb H. unfold rsp_rtmp_publish in H. case_match; [done|].
  apply act_seq_0 in H as (r & d & E & H). unfold rtmp_send_publish in E.
  destruct (command_next _ _ [] _ _ _ _ (spoke_nil c1) Hc Hb E ltac:(plain_msgs)) as (Hs & Hcd & Hbd).
  destruct (read_responses_acked _ _ _ _ _ _ Hcd Hbd H) as (_ & _ & Hst).
  destruct (waited _ _ _ _ _ _ _ _ Hs Hcd Hbd H ltac:(lia) ltac:(plain_msgs)) as (n3 & Hs3 & _ & _).
  split; [|by exists n3]. destruct (Hst eq_refl) as [Hn Hne]. by destruct (rt_state c2).
Qed.

(** The stream key never makes the command too long for its length fields. *)
Lemma amf0_string_length s : (length (amf0_write_string s) <= 3 + Z.to_nat 65535)%nat.
Proof.
  unfold amf0_write_string. simpl length. rewrite length_take.
  pose proof (uwrap_range 16 (Z.of_nat (length s)) ltac:(lia)) as H. unfold in_u in H. lia.
Qed.

Lemma command_message_ok sid data :
  in_u 32 sid -> (0 < length data)%nat -> Z.of_nat (length data) < 2 ^ 24 ->
  message_ok (mk_message RTMP_CSID_COMMAND RTMP_MSG_AMF0_CMD sid 0 data).
Proof.
  intros. unfold message_ok, TS_ESCAPE, RTMP_CSID_COMMAND, RTMP_MSG_AMF0_CMD, in_u in *.
  cbn [m_csid m_type m_stream m_ts m_data]. lia.
Qed.

Lemma connect_message_ok c : message_ok (connect_message c).
Proof.
  apply command_message_ok; [done|simpl; lia|]. unfold connect_command.
  rewrite !length_app. pose proof (amf0_string_length (rt_app c)). pose proof (amf0_string_length (rt_tc_url c)).
  pose proof (amf0_string_length (str "nonprivate")). pose proof (amf0_string_length (str "FMLE/3.0")).
  pose proof (amf0_string_length (str "connect")). cbn [length]. simpl (length (amf0_write_prop_name _)).
  simpl (length (amf0_write_number _)). simpl (length amf0_write_obj_end). lia.
Qed.

Lemma publish_message_ok c : in_u 32 (rt_stream_id c) -> message_ok (publish_message c).
Proof.
  intros Hs. apply command_message_ok; [done|simpl; lia|]. unfold publish_command.
  rewrite !length_app. pose proof (amf0_string_length (rt_stream_key c)).
  pose proof (amf0_string_length (str "live")). pose proof (amf0_string_length (str "publish")).
  simpl (length (amf0_write_number _)). simpl (length amf0_write_null). lia.
Qed.
End session.

(** ** The session theorem *)

Section whole_session.
Context (dbl_ub : Z -> Z) (rss_aac_asc : Z -> Z -> Z -> option (list Z)).

(** The messages of a session: commands with whatever acknowledgements the
    server asked for between them, then the media in the order of the calls. *)
Definition session_messages (c0 c1 : rsp_rtmp) (n1 n2 n3 : nat) (l : list message) : list message :=
  [set_chunk_message; connect_message c0] ++ replicate n1 ack_message ++
  [create_stream_message] ++ replicate n2 ack_message ++
  [publish_message c1] ++ replicate n3 ack_message ++ l.

Lemma ack_message_ok : message_ok ack_message.
Proof.
  unfold message_ok, in_u, TS_ESCAPE; simpl;
    unfold RTMP_CSID_CONTROL, RTMP_MSG_WINDOW_ACK_SIZE, RTMP_MSG_SET_CHUNK_SIZE; lia.
Qed.

Lemma set_chunk_message_ok : message_ok set_chunk_message.
Proof.
  unfold message_ok, in_u, TS_ESCAPE; simpl;
    unfold RTMP_CSID_CONTROL, RTMP_MSG_WINDOW_ACK_SIZE, RTMP_MSG_SET_CHUNK_SIZE; lia.
Qed.

Lemma create_stream_message_ok : message_ok create_stream_message.
Proof. apply command_message_ok; unfold in_u; simpl; lia. Qed.

Lemma session_messages_ok c0 c1 n1 n2 n3 l :
  in_u 32 (rt_stream_id c1) -> Forall message_ok l -> Forall message_ok (session_messages c0 c1 n1 n2 n3 l).
Proof.
  intros Hs Hl. unfold session_messages. pose proof ack_message_ok as Ha.
  repeat first [apply Forall_app_2 | by apply Forall_replicate | assumption | apply Forall_nil_2
               | apply Forall_cons_2].
  all: first [exact set_chunk_message_ok | exact (connect_message_ok c0) | exact create_stream_message_ok
             | exact (publish_message_ok c1 Hs)].
Qed.

Lemma session_sizes_ok c0 c1 n1 n2 n3 l : Forall plain l ->
  Forall (fun m => m_type m = RTMP_MSG_SET_CHUNK_SIZE -> 0 < be_val (take 4 (m_data m)))
    (session_messages c0 c1 n1 n2 n3 l).
Proof.
  intros Hl. apply Forall_cons_2; [by vm_compute|].
  apply (Forall_impl plain); [plain_msgs|by intros m H1 H2].
Qed.

Lemma media_plain sid (l : list media) : Forall plain (media_message rss_aac_asc sid <$> l).
Proof. apply Forall_fmap, Forall_true. by intros []. Qed.

Lemma session_wire env now c0 c1 c2 c3 ws segs l r :
  rt_recv_buf c0 = None -> rt_send_buf_size c0 = None -> ce_socket env = Some (ws, segs) -> no_error ws ->
  rsp_rtmp_connect dbl_ub env false c0 = (0, c1) -> rsp_rtmp_publish dbl_ub now c1 = (0, c2) ->
  Forall (media_ok rss_aac_asc) l -> send_all rss_aac_asc l c2 = (r, c3) ->
  r = 0 /\ in_u 32 (rt_stream_id c1) /\ in_u 32 (rt_stream_id c2) /\
  exists hs n1 n2 n3, length hs = HS /\
    rt_out c3 = hs ++ messages_bytes (Z.to_nat RTMP_DEFAULT_CHUNK_SZ)
      (session_messages c0 c1 n1 n2 n3 (media_message rss_aac_asc (rt_stream_id c2) <$> l)).
Proof.
  intros Hr0 Hs0 Hsock He Hcon Hpub Hl Hall.
  destruct (connect_wire _ _ _ _ _ _ Hr0 Hs0 Hsock Hcon) as (Hw1 & Hc1 & Hsb1 & Hb1 & Hsid1).
  destruct (Hw1 He) as (He1 & hs & n1 & n2 & Hhs & Ho1).
  destruct (publish_steps _ _ _ _ Hc1 Hb1 Hpub) as (Hst2 & n3 & [w2 k2 _ [b2 _] s2]).
  destruct (w2 He1) as [o2 e2].
  assert (Hready : ready c2) by (split_and!; [done|by rewrite k2|by rewrite b2|by apply s2]).
  destruct (send_all_sends rss_aac_asc l c2 Hready Hl) as (ok & sent & w & Ea & _ & Hok & Hne).
  rewrite Ea in Hall. destruct (Hne e2) as [-> _]. injection Hall as <- <-.
  split; [done|]. split; [done|]. split; [apply Hready|]. exists hs, n1, n2, n3. split; [done|].
  cbn [rt_out after_write set_field]. rewrite (Hok eq_refl), o2, Ho1. unfold session_messages. cbn [app].
  rewrite !set_chunk_bytes, <- !app_assoc. do 2 f_equal. unfold OUT.
  pose proof (media_plain (rt_stream_id c2) l) as Hm.
  rewrite !app_comm_cons, !app_assoc.
  rewrite !messages_bytes_app by plain_msgs. by rewrite <- !app_assoc.
Qed.


End whole_session.

(** ** A concrete session *)

Module Demo.
Definition c0 : rsp_rtmp :=
  mk_rsp_rtmp false RSP_STATE_DISCONNECTED 0 0 0 (str "live") (str "key") (str "rtmp://h:1935/live")
    false false None None [] [] [].

Definition answer (data : list Z) : list Z :=
  message_bytes 128 (mk_message RTMP_CSID_COMMAND RTMP_MSG_AMF0_CMD 0 0 data).

(** The server's half: S0 to S2, two results, a status. *)
Definition env : connect_env :=
  mk_connect_env
    (Some ([W_bytes 100; W_eintr; W_bytes 7],
           [3 :: replicate (Z.to_nat 3072) 0;
            answer (amf0_write_string (str "_result") ++ amf0_write_number dbl_1) ++
            answer (amf0_write_string (str "_result") ++ amf0_write_number dbl_2 ++ amf0_write_null ++
                    amf0_write_number dbl_1);
            answer (amf0_write_string (str "onStatus") ++ amf0_write_number dbl_0 ++ amf0_write_null)]))
    true true 0 None (fun _ => 0) (fun _ => 0).

Definition asc (_ _ _ : Z) : option (list Z) := Some [17; 136].
Definition media : list media :=
  [M_video_header 0 [103; 66; 0; 31] 4 [104; 206] 2 [] 0; M_audio_header 48000 1 2;
   M_video [0; 0; 0; 1; 101] 0 true 0; M_audio [1; 2; 3] 16777216].
Definition ub (_ : Z) : Z := 0.
Definition c1 : rsp_rtmp := (rsp_rtmp_connect ub env false c0).2.
Definition c2 : rsp_rtmp := (rsp_rtmp_publish ub (fun _ => 0) c1).2.
Definition c3 : rsp_rtmp := (send_all asc media c2).2.

(** A connection that is already publishing. *)
Definition live : rsp_rtmp :=
  mk_rsp_rtmp true RSP_STATE_PUBLISHING 128 128 1 [] [] [] false false (Some []) (Some 65536) [] [] [].
End Demo.

Lemma act_pair (x : Z * rsp_rtmp) : x.1 = 0 -> x = (0, x.2).
Proof. destruct x as [r c]. simpl. by intros ->. Qed.


(** ** The three ways to send a media message *)

Lemma sends_agree a b bs c : no_error (rt_writes c) -> sends a bs c -> sends b bs c ->
  (a c).1 = 0 /\ (b c).1 = 0 /\ rt_out (a c).2 = rt_out (b c).2.
Proof.
  intros He (ok1 & s1 & w1 & -> & _ & H1 & N1) (ok2 & s2 & w2 & -> & _ & H2 & N2).
  destruct (N1 He) as [-> _], (N2 He) as [-> _]. cbn [fst snd rt_out after_write set_field].
  by rewrite (H1 eq_refl), (H2 eq_refl).
Qed.

(** The client has three chunk writers, the general one, the one that sends
    a frame in place behind its tag, and the audio fast path.  On any socket
    that does not fail, sending a video frame or an audio frame through its own
    path puts the same bytes on the wire as the general writer given tag and
    frame in one buffer, whatever the frame's length and the chunk size. *)
Theorem rtmp_send_paths_agree c avcc data ts key codec :
  publishing c = true -> 0 < rt_chunk_size c < 2 ^ 32 -> no_error (rt_writes c) ->
  rt_out (rsp_rtmp_send_video avcc ts key codec c).2 =
  rt_out (rtmp_send_message RTMP_CSID_VIDEO RTMP_MSG_VIDEO (rt_stream_id c) ts
            (video_tag codec key ++ avcc) c).2 /\
  (2 + Z.of_nat (length data) <= rt_chunk_size c ->
   rt_out (rsp_rtmp_send_audio data ts c).2 =
   rt_out (rtmp_send_message RTMP_CSID_AUDIO RTMP_MSG_AUDIO (rt_stream_id c) ts
             ([FLV_AUDIO_TAG; 1] ++ data) c).2).
Proof.
  intros Hp Hc He. assert (Hpos : (0 < Z.to_nat (rt_chunk_size c))%nat) by lia. split.
  - eapply sends_agree; [done| |by apply send_message_sends].
    unfold sends, rsp_rtmp_send_video. rewrite Hp. apply send_video_loop_sends; [done|].
    intros E. pose proof (video_tag_length codec key) as Hl. rewrite E in Hl. simpl in Hl. lia.
  - intros Hle. eapply sends_agree; [done| |by apply send_message_sends].
    apply (audio_fast_sends (fun _ _ _ => None)); [lia|done].
Qed.

Lemma rtmp_send_paths_agree_witness :
  rt_out (rsp_rtmp_send_video (replicate 300 7) 5 true 0 Demo.live).2 =
  rt_out (rtmp_send_message RTMP_CSID_VIDEO RTMP_MSG_VIDEO 1 5 (video_tag 0 true ++ replicate 300 7)
            Demo.live).2.
Proof.
  refine (proj1 (rtmp_send_paths_agree Demo.live (replicate 300 7) [] 5 true 0 eq_refl _ _)).
  - simpl. lia.
  - intros H. inversion H.
Defined.

(** A one-chunk message whose timestamp is the escape value. *)
Lemma escape_desync m rest :
  2 <= m_csid m < 64 -> 0 <= m_type m < 256 -> in_u 32 (m_stream m) -> m_ts m = TS_ESCAPE ->
  (4 <= length (m_data m) <= OUT)%nat -> (4 <= length rest)%nat ->
  recv_chunk OUT ∅ (message_bytes OUT m ++ rest) =
    Some (Some (mk_message (m_csid m) (m_type m) (m_stream m) (be_val (take 4 (m_data m)))
                  (drop 4 (m_data m) ++ take 4 rest)), ∅, drop 4 rest).
Proof.
  intros Hc Ht Hs Hts Hlen Hrest. assert (HO : OUT = Z.to_nat 4096) by done.
  assert (Hd : m_data m <> []) by (intros E; rewrite E in Hlen; simpl in Hlen; lia).
  rewrite message_bytes_eq, take_ge, drop_ge by (done || lia).
  unfold tail_chunks. cbn [next_chunks length]. rewrite app_nil_r.
  assert (Hh : recv_header ∅ ((first_header (m_csid m) (m_type m) (m_stream m) (m_ts m)
             (Z.of_nat (length (m_data m))) ++ m_data m) ++ rest) =
    Some (m_csid m, mk_chunk_stream (Z.of_nat (length (m_data m))) (m_type m) (m_stream m)
            (be_val (take 4 (m_data m))) true [], drop 4 (m_data m) ++ rest)).
  { rewrite Hts. unfold recv_header, first_header, ext_ts, TS_ESCAPE, in_u in *.
    rewrite land_63 by lia. rewrite <- !app_assoc. cbn [app].
    rewrite rd_be_byte by lia. cbn [mbind option_bind]. rewrite Z.mod_small, Z.div_small by lia.
    destruct (Z.ltb_spec (m_csid m) 2); [lia|]. cbn [Z.eqb Z.gtb Z.compare Pos.compare Pos.compare_cont].
    rewrite !put_be24_be. rewrite rd_be_app. cbn [mbind option_bind]. rewrite rd_be_app. cbn [mbind option_bind].
    rewrite rd_be_byte by lia. cbn [mbind option_bind]. rewrite rd_app by done. cbn [mbind option_bind].
    rewrite put_le32_be, be_val_bytes, !Z.mod_small by (simpl; lia). cbn [Z.eqb Pos.eqb app].
    unfold rd_be. rewrite <- (take_drop 4 (m_data m)) at 1. rewrite <- app_assoc, rd_app
      by (rewrite length_take; lia). done. }
  unfold recv_chunk. rewrite Hh. cbn [mbind option_bind ch_len ch_part ch_type ch_stream ch_ts].
  rewrite Nat2Z.id. cbn [length]. rewrite Nat.sub_0_r, Nat.min_r by lia.
  rewrite <- (take_drop 4 rest) at 1. rewrite app_assoc, rd_app
    by (rewrite length_app, length_drop, length_take; lia).
  cbn [mbind option_bind app]. rewrite (proj2 (Z.eqb_eq _ _)).
  - by rewrite delete_empty.
  - rewrite length_app, length_drop, length_take. lia.
Qed.

(** The one timestamp the client cannot send.  A media message of one chunk
    with the timestamp 0xFFFFFF (4 h 39 m into a stream) goes out with the
    24-bit field that announces an extended timestamp and without the extended
    timestamp, because the code tests [> 0xFFFFFF]: the server takes the first
    four payload bytes as the timestamp and the first four bytes of whatever
    follows as the end of the payload. *)
Theorem rtmp_escape_timestamp_desyncs c avcc key codec rest :
  ready c -> no_error (rt_writes c) -> Z.of_nat (length avcc) <= 4000 -> (4 <= length rest)%nat ->
  let data := video_tag codec key ++ avcc in
  exists bs c', rsp_rtmp_send_video avcc TS_ESCAPE key codec c = (0, c') /\ rt_out c' = rt_out c ++ bs /\
    recv_chunk OUT ∅ (bs ++ rest) =
      Some (Some (mk_message RTMP_CSID_VIDEO RTMP_MSG_VIDEO (rt_stream_id c) (be_val (take 4 data))
                    (drop 4 data ++ take 4 rest)), ∅, drop 4 rest).
Proof.
  intros (Hst & Hsz & _ & Hsid) He Hl Hrest data. pose proof (video_tag_length codec key) as Htag.
  set (m := mk_message RTMP_CSID_VIDEO RTMP_MSG_VIDEO (rt_stream_id c) TS_ESCAPE data).
  assert (Hs : sends (rsp_rtmp_send_video avcc TS_ESCAPE key codec) (message_bytes OUT m) c).
  { unfold sends, rsp_rtmp_send_video, publishing. rewrite Hst. cbn [negb bool_decide decide_rel decide].
    unfold OUT. rewrite <- Hsz. apply send_video_loop_sends; [rewrite Hsz; unfold RTMP_CHUNK_SZ_OUT; lia|].
    intros E. rewrite E in Htag. simpl in Htag. lia. }
  destruct Hs as (ok & sent & ws & E & _ & Hok & Hne). destruct (Hne He) as [-> _].
  rewrite (Hok eq_refl) in E. exists (message_bytes OUT m). eexists. split; [exact E|]. split; [done|].
  apply escape_desync; unfold m; cbn [m_csid m_type m_stream m_ts m_data]; try done.
  unfold data, OUT, RTMP_CHUNK_SZ_OUT. rewrite length_app. lia.
Qed.

Lemma rtmp_escape_timestamp_desyncs_witness :
  exists bs c', rsp_rtmp_send_video [1; 2; 3] TS_ESCAPE true 0 (Demo.live <| rt_chunk_size := 4096 |>) = (0, c') /\
    rt_out c' = [] ++ bs /\
    recv_chunk OUT ∅ (bs ++ [6; 0; 0; 0]) =
      Some (Some (mk_message 6 9 1 385941504 [0; 1; 2; 3; 6; 0; 0; 0]), ∅, []).
Proof.
  refine (rtmp_escape_timestamp_desyncs (Demo.live <| rt_chunk_size := 4096 |>) [1; 2; 3] true 0
            [6; 0; 0; 0] _ _ _ _).
  - by repeat split.
  - intros H. inversion H.
  - simpl. lia.
  - simpl. lia.
Defined.

(** ** Stack and heap buffers *)

Lemma amf0_string_small s : Z.of_nat (length s) < 65536 ->
  length (amf0_write_string s) = (3 + length s)%nat.
Proof.
  intros. unfold amf0_write_string. rewrite uwrap_id by (unfold in_u; lia). simpl length.
  by rewrite Nat2Z.id, take_ge by lia.
Qed.

(** The commands fit the stack buffers they are built in (2048, 64 and 1024
    bytes) for every application name, stream key and URL the fixed arrays of
    the connection can hold, and a sequence header fits the heap buffer whenever
    the size test lets it through. *)
Theorem rtmp_buffers_suffice c codec sps sl pps pl vps vl :
  (length (rt_app c) < 256)%nat -> (length (rt_stream_key c) < 512)%nat ->
  (length (rt_tc_url c) < 768)%nat ->
  Z.of_nat (length (connect_command c)) <= 2048 /\ Z.of_nat (length create_stream_command) <= 64 /\
  Z.of_nat (length (publish_command c)) <= 1024 /\
  (forall r c', Z.of_nat (sl + pl + vl) < 2 ^ 31 ->
     rsp_rtmp_send_video_header codec sps sl pps pl vps vl c = (r, c') -> r = 0 ->
     Z.of_nat (length (video_header codec sps sl pps pl vps vl)) <= default 0 (rt_send_buf_size c)).
Proof.
  intros Ha Hk Hu. split_and!.
  - unfold connect_command. rewrite !length_app, !amf0_string_small by (simpl; lia). simpl. lia.
  - simpl. lia.
  - unfold publish_command. rewrite !length_app, !amf0_string_small by (simpl; lia). simpl. lia.
  - intros r c' Hl H ->. unfold rsp_rtmp_send_video_header in H. case_match; [done|].
    rewrite uwrap_id in H by (unfold in_u; lia). case_match; [done|]. bool_to_prop.
    pose proof (video_header_length codec sps sl pps pl vps vl). lia.
Qed.

Lemma rtmp_buffers_suffice_witness : Z.of_nat (length (connect_command Demo.c0)) <= 2048.
Proof.
  refine (proj1 (rtmp_buffers_suffice Demo.c0 0 [] 0 [] 0 [] 0 _ _ _)); vm_compute; lia.
Defined.
