(* ===== verification/RtmpReader.v ===== *)
(** * rsp: how the client reads the server

    On a server stream whose messages start with a full header and are not
    interleaved, the response loop processes exactly the server's messages, in
    order and under any segmentation of the TCP stream, until the state it waits
    for is reached.  Three things a server may do that the loop gets wrong are
    shown on concrete streams. *)

From Stdlib Require Import String.
From stdpp Require Import gmap list.
From S2P Require Import Prelude Rtmp RtmpProps RtmpSession.

(** ** Reading from segments *)

Definition pending (c : rsp_rtmp) (l : list Z) : Prop :=
  Forall (fun seg => seg <> []) (rt_in c) /\ concat (rt_in c) = l.

Lemma recv_pending n c l : pending c l -> l <> [] -> (0 < n)%nat ->
  exists x i, rtmp_recv n c = (x, c <| rt_in := i |>) /\ x <> [] /\ (length x <= n)%nat /\
    exists l', l = x ++ l' /\ pending (c <| rt_in := i |>) l'.
Proof.
  intros [Hf <-] Hl Hn. unfold rtmp_recv. destruct (rt_in c) as [|seg segs] eqn:E; [done|].
  inversion Hf as [|? ? Hs Hss]; subst. eexists _, _. split; [done|].
  split; [destruct seg; [done|]; by destruct n; [lia|]|].
  split; [rewrite length_take; lia|].
  destruct (Nat.leb_spec (length seg) n).
  - exists (concat segs). split; [by rewrite take_ge by lia|done].
  - exists (drop n seg ++ concat segs). split; [by rewrite app_assoc, take_drop|]. split; [|done].
    constructor; [|done]. intros E1. apply (f_equal length) in E1. rewrite length_drop in E1. simpl in E1. lia.
Qed.

Lemma recv_loop_pending fuel len got c x l :
  pending c (x ++ l) -> (length got + length x = len)%nat -> (length x <= fuel)%nat ->
  exists i, recv_loop fuel len got c = (Some (got ++ x), c <| rt_in := i |>) /\ pending (c <| rt_in := i |>) l.
Proof.
  revert got c x. induction fuel as [|fuel IH]; intros got c x Hp Hlen Hf.
  - destruct x; [|simpl in *; lia]. cbn [recv_loop]. rewrite (proj2 (Nat.leb_le _ _)) by (simpl in *; lia).
    exists (rt_in c). rewrite app_nil_r. by destruct c.
  - cbn [recv_loop]. destruct x as [|a x].
    { rewrite (proj2 (Nat.leb_le _ _)) by (simpl in *; lia).
      exists (rt_in c). rewrite app_nil_r. by destruct c. }
    rewrite (proj2 (Nat.leb_gt _ _)) by (simpl in *; lia).
    destruct (recv_pending (len - length got) c _ Hp) as (y & i & E & Hy & Hyl & l' & Hl' & Hp');
      [done|simpl in *; lia|].
    rewrite E. assert (Hpre : exists x', (a :: x) = y ++ x').
    { exists (drop (length y) (a :: x)).
      assert (Hle : (length y <= length (a :: x))%nat) by (simpl in *; lia).
      rewrite <- (take_drop (length y) (a :: x)) at 1. f_equal.
      apply (f_equal (take (length y))) in Hl'. by rewrite take_app_length, take_app_le in Hl' by lia. }
    destruct Hpre as [x' Hx']. destruct y as [|b y]; [done|]. 
    destruct (IH (got ++ b :: y) (c <| rt_in := i |>) x') as (j & Ej & Hpj).
    + rewrite Hx', <- app_assoc in Hl'. apply app_inv_head in Hl'. by rewrite Hl'.
    + rewrite length_app. apply (f_equal length) in Hx'. rewrite length_app in Hx'. simpl in *. lia.
    + apply (f_equal length) in Hx'. rewrite length_app in Hx'. simpl in *. lia.
    + exists j. rewrite Ej, Hx', <- app_assoc. done.
Qed.

Lemma recv_full_pending n c x l : pending c (x ++ l) -> length x = n ->
  exists i, rtmp_recv_full n c = (Some x, c <| rt_in := i |>) /\ pending (c <| rt_in := i |>) l.
Proof. intros. by apply (recv_loop_pending n n [] c x l); [| |lia]. Qed.

Lemma recv_one_pending c b l : pending c (b :: l) ->
  exists i, rtmp_recv 1 c = ([b], c <| rt_in := i |>) /\ pending (c <| rt_in := i |>) l.
Proof.
  intros Hp. destruct (recv_pending 1 c _ Hp) as (x & i & E & Hx & Hl & l' & Hl' & Hp'); [done|lia|].
  destruct x as [|y [|]]; [done| |simpl in *; lia]. injection Hl' as <- <-. by exists i.
Qed.

(** ** Headers *)

Lemma lor3_val a b c : is_byte b -> is_byte c ->
  Z.lor (Z.lor (Z.shiftl a 16) (Z.shiftl b 8)) c = (a * 256 + b) * 256 + c.
Proof.
  unfold is_byte. intros Hb Hc. change 16 with (8 + 8). rewrite <- Z.shiftl_shiftl, <- Z.shiftl_lor by lia.
  by rewrite !lor_shiftl_add by lia.
Qed.

Lemma be24_put v rest i pre : length pre = i ->
  be24 (pre ++ put_be24 v ++ rest) i = v mod 2 ^ 24.
Proof.
  intros <-. unfold be24.
  assert (Hk : forall k x, put_be24 v !! k = Some x -> (pre ++ put_be24 v ++ rest) !!! (length pre + k)%nat = x).
  { intros k x Hx. apply list_lookup_total_correct. rewrite lookup_app_r by lia.
    replace (length pre + k - length pre)%nat with k by lia. by apply lookup_app_l_Some. }
  rewrite <- (Nat.add_0_r (length pre)), (Hk 0%nat _ eq_refl) at 1.
  replace (S (S (length pre))) with (length pre + 2)%nat by lia. rewrite (Hk 2%nat _ eq_refl).
  replace (S (length pre)) with (length pre + 1)%nat by lia. rewrite (Hk 1%nat _ eq_refl).
  rewrite lor3_val by (apply Z.mod_pos_bound; lia).
  pose proof (be_val_bytes 3 v) as Hv. rewrite <- put_be24_be in Hv. exact Hv.
Qed.

(** Server messages the client can read: full headers, small enough. *)
Definition server_ok (m : message) : Prop := message_ok m /\ m_ts m < TS_ESCAPE.

Definition slot_of (csid : Z) : nat := if csid <? Z.of_nat RTMP_MAX_CSID then Z.to_nat csid else 0%nat.

Lemma read_header0 m s c l : server_ok m ->
  pending c (put_be24 (m_ts m) ++ put_be24 (Z.of_nat (length (m_data m))) ++ [m_type m] ++
             put_le32 (m_stream m) ++ l) ->
  exists i sid, read_message_header 0 s c =
      (Some (mk_cs (Z.of_nat (length (m_data m))) (m_type m) sid 0), c <| rt_in := i |>) /\
    pending (c <| rt_in := i |>) l.
Proof.
  intros [(Hc & Ht & Hs & Hts & Hne & Hl) Hlt] Hp.
  set (mh := put_be24 (m_ts m) ++ put_be24 (Z.of_nat (length (m_data m))) ++ [m_type m] ++ put_le32 (m_stream m)).
  destruct (recv_full_pending 11 c mh l) as (i & E & Hp'); [by unfold mh; rewrite <- !app_assoc|done|].
  exists i. eexists. split; [|exact Hp']. unfold read_message_header. cbn [Z.eqb]. rewrite E.
  assert (H3 : be24 mh 3 = Z.of_nat (length (m_data m))).
  { unfold mh. rewrite be24_put by done. apply Z.mod_small. lia. }
  assert (H0 : be24 mh 0 = m_ts m).
  { etrans; [by apply (be24_put (m_ts m) _ 0 [])|]. apply Z.mod_small. unfold TS_ESCAPE, in_u in *. lia. }
  rewrite H3, H0. unfold skip_extended. rewrite (proj2 (Z.eqb_neq _ _)) by lia.
  unfold mh. done.
Qed.

(** ** One chunk *)

Section reader.
Context (dbl_ub : Z -> Z).

Definition served (m : message) (c : rsp_rtmp) : rsp_rtmp :=
  rtmp_process_message dbl_ub (m_type m) (Z.of_nat (length (m_data m))) c.

Lemma read_payload_pending got x c l buf :
  pending c (x ++ l) -> rt_recv_buf c = Some buf -> (got + length x <= length buf)%nat ->
  exists i, read_payload got (length x) c =
      (true, c <| rt_in := i |> <| rt_recv_buf := Some (take got buf ++ x ++ drop (got + length x) buf) |>) /\
    pending (c <| rt_in := i |>) l.
Proof.
  intros Hp Hb Hle. unfold read_payload. rewrite Hb. cbn [default from_option id].
  rewrite (proj2 (Nat.ltb_ge _ _)) by lia.
  destruct (recv_full_pending (length x) c x l Hp eq_refl) as (i & E & Hp'). rewrite E. by exists i.
Qed.

(** The payload step of [read_chunk], for the stream state [s] after the header. *)
Lemma chunk_body m got c l buf cs csi sid :
  server_ok m -> (got < length (m_data m))%nat -> rt_recv_buf c = Some buf ->
  (length (m_data m) <= length buf)%nat -> 0 < rt_in_chunk_size c ->
  take got buf = take got (m_data m) ->
  let size := Z.to_nat (rt_in_chunk_size c) in
  let s := mk_cs (Z.of_nat (length (m_data m))) (m_type m) sid (Z.of_nat got) in
  let rem := drop got (m_data m) in
  pending c (take size rem ++ l) ->
  exists i buf',
    read_chunk_body dbl_ub csi s cs c =
    (Some (<[csi := mk_cs (Z.of_nat (length (m_data m))) (m_type m) sid
                      (Z.of_nat (got + length (take size rem)))]> cs),
     let c' := c <| rt_in := i |> <| rt_recv_buf := Some buf' |> in
     if (length rem <=? size)%nat then served m c' else c') /\
    pending (c <| rt_in := i |>) l /\ length buf' = length buf /\
    take (got + length (take size rem)) buf' = take (got + length (take size rem)) (m_data m).
Proof.
  intros [(_ & _ & _ & _ & _ & Hl) _] Hgot Hb Hfit Hpos Htake size s rem Hp.
  set (x := take size rem) in *.
  assert (Hx : length x = Nat.min size (length (m_data m) - got)%nat)
    by (unfold x, rem; rewrite length_take, length_drop; lia).
  destruct (read_payload_pending got x c l buf Hp Hb) as (i & E & Hp'); [lia|].
  exists i, (take got buf ++ x ++ drop (got + length x) buf).
  split; [|split; [done|split]].
  - unfold read_chunk_body. subst s. cbn [cs_msg_len cs_msg_got cs_msg_type set_field].
    rewrite (proj2 (Z.eqb_neq _ _)) by lia. cbv zeta.
    rewrite (uwrap_id 32 (_ - _)) by (unfold in_u; lia).
    set (chunk := if _ >? _ then _ else _).
    assert (Hchunk : chunk = Z.of_nat (length x)).
    { unfold chunk. rewrite Hx. unfold size. destruct (_ >? _) eqn:Eg; bool_to_prop; lia. }
    rewrite Hchunk, !Nat2Z.id, E. cbn [negb cs_msg_got cs_msg_len cs_msg_type].
    rewrite uwrap_id by (unfold in_u; lia). rewrite <- Nat2Z.inj_add. f_equal.
    unfold rem, served. rewrite length_drop.
    destruct (Nat.leb_spec (length (m_data m) - got) size);
      destruct (_ >=? _) eqn:Eg; bool_to_prop; try done; lia.
  - rewrite !length_app, length_take, length_drop. lia.
  - rewrite app_assoc, take_app_le by (rewrite length_app, length_take; lia).
    rewrite take_ge by (rewrite length_app, length_take; lia). rewrite Htake. unfold x, rem.
    rewrite length_take, length_drop. 
    rewrite <- (take_drop got (take (got + _) (m_data m))), take_take, Nat.min_l by lia. f_equal.
    rewrite skipn_firstn_comm. replace (got + _ - got)%nat with (size `min` (length (m_data m) - got))%nat by lia.
    destruct (Nat.min_spec size (length (m_data m) - got)) as [[? ->]|[? ->]]; [done|].
    by rewrite !take_ge by (rewrite length_drop; lia).
Qed.

Lemma slot_lt csid : 0 <= csid -> (slot_of csid < RTMP_MAX_CSID)%nat.
Proof. intros. unfold slot_of, RTMP_MAX_CSID. case_match; bool_to_prop; lia. Qed.

Lemma read_chunk_first m cs c l : server_ok m ->
  pending c (first_header (m_csid m) (m_type m) (m_stream m) (m_ts m) (Z.of_nat (length (m_data m))) ++ l) ->
  exists i sid, pending (c <| rt_in := i |>) l /\
    read_chunk dbl_ub cs c =
      read_chunk_body dbl_ub (slot_of (m_csid m))
        (mk_cs (Z.of_nat (length (m_data m))) (m_type m) sid 0) cs (c <| rt_in := i |>).
Proof.
  intros Hok Hp. pose proof Hok as [(Hc & _ & _ & Hts & _ & _) Hlt]. unfold first_header, ext_ts in Hp.
  rewrite Z.gtb_ltb, (proj2 (Z.ltb_ge _ _)) in Hp by lia. rewrite land_63 in Hp by lia.
  rewrite <- !app_assoc in Hp. cbn [app] in Hp.
  destruct (recv_one_pending _ _ _ Hp) as (i & E1 & Hp1).
  assert (Hcs : read_csid (m_csid m) (c <| rt_in := i |>) = (Some (m_csid m), c <| rt_in := i |>)).
  { unfold read_csid. rewrite land_63 by lia. by rewrite !(proj2 (Z.eqb_neq _ _)) by lia. }
  destruct (read_header0 m (cs !!! slot_of (m_csid m)) (c <| rt_in := i |>) l Hok Hp1) as (j & sid & E2 & Hp2).
  exists j, sid. split; [exact Hp2|]. unfold read_chunk. rewrite E1, Hcs.
  replace (Z.land (Z.shiftr (m_csid m) 6) 3) with 0 by (by rewrite Z.shiftr_div_pow2, Z.div_small by lia).
  fold (slot_of (m_csid m)). by rewrite E2.
Qed.

Lemma read_chunk_next m cs c l s : server_ok m -> cs !! slot_of (m_csid m) = Some s ->
  pending c (next_header (m_csid m) (m_ts m) ++ l) ->
  exists i, pending (c <| rt_in := i |>) l /\
    read_chunk dbl_ub cs c = read_chunk_body dbl_ub (slot_of (m_csid m)) s cs (c <| rt_in := i |>).
Proof.
  intros [(Hc & _ & _ & Hts & _ & _) Hlt] Hs Hp. unfold next_header, ext_ts in Hp.
  rewrite Z.gtb_ltb, (proj2 (Z.ltb_ge _ _)) in Hp by lia. rewrite land_63, lor_192 in Hp by lia.
  cbn [app] in Hp. destruct (recv_one_pending _ _ _ Hp) as (i & E1 & Hp1).
  exists i. split; [exact Hp1|]. unfold read_chunk. rewrite E1.
  assert (E6 : Z.land (192 + m_csid m) 63 = m_csid m).
  { change 63 with (Z.ones 6). rewrite Z.land_ones by lia.
    replace (192 + m_csid m) with (m_csid m + 3 * 2 ^ 6) by lia. rewrite Z.mod_add by lia. apply Z.mod_small. lia. }
  assert (E3 : Z.land (Z.shiftr (192 + m_csid m) 6) 3 = 3).
  { rewrite Z.shiftr_div_pow2 by lia. replace (192 + m_csid m) with (m_csid m + 3 * 2 ^ 6) by lia.
    by rewrite Z.div_add, Z.div_small by lia. }
  unfold read_csid. rewrite E6, E3, !(proj2 (Z.eqb_neq _ _)) by lia. fold (slot_of (m_csid m)).
  by rewrite (list_lookup_total_correct _ _ _ Hs).
Qed.

(** ** A whole message *)

Definition waiting (target : rsp_conn_state) (c : rsp_rtmp) : bool :=
  (state_num (rt_state c) <? state_num target) && negb (bool_decide (rt_state c = RSP_STATE_ERROR)).

(** The clock never reaches the deadline. *)
Definition timely (deadline : Z) (now : nat -> Z) : Prop := forall i, 0 < (deadline - now i) ÷ 1000.

Lemma loop_step fuel now dl target cs c cs' c' :
  timely dl now -> waiting target c = true -> read_chunk dbl_ub cs c = (Some cs', c') ->
  responses_loop dbl_ub (S fuel) now dl target cs c =
  responses_loop dbl_ub fuel (fun i => now (S i)) dl target cs' c'.
Proof.
  intros Ht Hw E. cbn [responses_loop]. unfold waiting in Hw. rewrite Hw, E.
  by rewrite (proj2 (Z.leb_gt _ _)) by apply Ht.
Qed.

(** The loop reaches the point where [m] has been read into the buffer and
    processed, with [l] still unread. *)
Definition reads_to (fuel : nat) (now : nat -> Z) (dl : Z) (target : rsp_conn_state)
    (cs : list rtmp_cs_state) (c : rsp_rtmp) (m : message) (l buf : list Z) : Prop :=
  exists fuel' now' cs' i buf',
    responses_loop dbl_ub fuel now dl target cs c =
      responses_loop dbl_ub fuel' now' dl target cs' (served m (c <| rt_in := i |> <| rt_recv_buf := Some buf' |>)) /\
    pending (c <| rt_in := i |>) l /\ length buf' = length buf /\
    take (length (m_data m)) buf' = m_data m /\ length cs' = RTMP_MAX_CSID /\
    (length l <= fuel')%nat /\ timely dl now'.

(** From a chunk boundary: the header has been read, [k] is what comes after the
    body. *)
Lemma body_reads_to m got fuel now dl target cs c c0 k buf sid :
  server_ok m -> (got < length (m_data m))%nat -> rt_recv_buf c = Some buf ->
  (length (m_data m) <= length buf)%nat -> 0 < rt_in_chunk_size c ->
  take got buf = take got (m_data m) -> waiting target c = true -> timely dl now ->
  length cs = RTMP_MAX_CSID -> (exists j, c0 = c <| rt_in := j |>) ->
  let size := Z.to_nat (rt_in_chunk_size c) in
  let rem := drop got (m_data m) in
  pending c (take size rem ++ tail_chunks size (m_csid m) (m_ts m) (drop size rem) ++ k) ->
  (length (take size rem ++ tail_chunks size (m_csid m) (m_ts m) (drop size rem) ++ k) <= fuel)%nat ->
  read_chunk dbl_ub cs c0 =
    read_chunk_body dbl_ub (slot_of (m_csid m))
      (mk_cs (Z.of_nat (length (m_data m))) (m_type m) sid (Z.of_nat got)) cs c ->
  reads_to (S fuel) now dl target cs c0 m k buf.
Proof.
  remember (length (m_data m) - got)%nat as n eqn:Hn. revert got fuel now cs c c0 buf Hn.
  induction (lt_wf n) as [n _ IH]. intros got fuel now cs c c0 buf -> Hok Hgot Hb Hfit Hpos Htake Hw Ht Hcs
    [j Hc0] size rem Hp Hfuel Hrd.
  destruct (chunk_body m got c _ buf cs (slot_of (m_csid m)) sid Hok Hgot Hb Hfit Hpos Htake Hp)
    as (i & buf' & Ebody & Hp' & Hlen' & Htake'). fold size rem in Ebody, Htake'.
  assert (Hx : length (take size rem) = Nat.min size (length (m_data m) - got)%nat)
    by (unfold rem; rewrite length_take, length_drop; lia).
  assert (Hw0 : waiting target c0 = true) by (by rewrite Hc0).
  assert (Hcsid : 0 <= m_csid m) by (destruct Hok as [(? & _) _]; lia).
  unfold reads_to. rewrite (loop_step _ _ _ _ _ _ _ _ Ht Hw0 (eq_trans Hrd Ebody)).
  assert (Hlrem : length rem = (length (m_data m) - got)%nat) by (unfold rem; by rewrite length_drop).
  assert (Hsz : (0 < size)%nat) by (unfold size; lia).
  destruct (Nat.leb_spec (length rem) size) as [Hle|Hgt].
  - rewrite (drop_ge rem) in Hp' by lia. unfold tail_chunks in Hp'. cbn [next_chunks app length] in Hp'.
    eexists fuel, _, _, i, buf'. rewrite Hc0. split; [done|]. split; [exact Hp'|]. split; [done|].
    split; [|split; [by rewrite length_insert|split]].
    + rewrite Hx in Htake'. replace (got + _)%nat with (length (m_data m)) in Htake' by lia.
      by rewrite Htake', firstn_all.
    + rewrite !length_app in Hfuel. lia.
    + intros k0. apply (Ht (S k0)).
  - set (got' := (got + length (take size rem))%nat) in *.
    assert (Erem : drop size rem = drop got' (m_data m)).
    { unfold got'. rewrite Hx. unfold rem. rewrite drop_drop. f_equal. lia. }
    rewrite Erem, tail_chunks_step in Hp', Hfuel by
      (try done; intros E; apply (f_equal length) in E; rewrite length_drop in E; simpl in E; lia).
    rewrite <- !app_assoc in Hp', Hfuel.
    set (c' := c <| rt_in := i |> <| rt_recv_buf := Some buf' |>) in *.
    set (cs' := <[slot_of (m_csid m) := _]> cs).
    assert (Hsl : cs' !! slot_of (m_csid m) = Some (mk_cs (Z.of_nat (length (m_data m))) (m_type m) sid (Z.of_nat got'))).
    { unfold cs'. apply list_lookup_insert_eq. rewrite Hcs. by apply slot_lt. }
    destruct (read_chunk_next m cs' c' _ _ Hok Hsl Hp') as (j' & Hp'' & Erd).
    destruct fuel as [|fuel]; [rewrite !length_app in Hfuel; simpl in Hfuel; lia|].
    assert (Hred : reads_to (S fuel) (fun i => now (S i)) dl target cs' c' m k buf').
    { refine (IH (length (m_data m) - got')%nat _ got' fuel _ cs' (c' <| rt_in := j' |>) c' buf'
                eq_refl Hok _ eq_refl _ Hpos Htake' Hw _ _ _ Hp'' _ Erd); try lia.
      - intros k0. apply (Ht (S k0)).
      - unfold cs'. by rewrite length_insert.
      - by exists i.
      - change (rt_in_chunk_size (c' <| rt_in := j' |>)) with (rt_in_chunk_size c). fold size.
        unfold next_header in Hfuel. rewrite !length_app in Hfuel |- *. simpl in Hfuel. rewrite !length_app in Hfuel. lia. }
    destruct Hred as (f' & now' & cs2 & i2 & buf2 & E & Hp2 & Hl2 & Ht2 & Hc2 & Hf2 & Htm).
    exists f', now', cs2, i2, buf2. rewrite Hc0. split; [exact E|]. split; [exact Hp2|].
    by rewrite Hl2.
Qed.

Lemma message_reads_to m fuel now dl target cs c k buf :
  server_ok m -> rt_recv_buf c = Some buf -> (length (m_data m) <= length buf)%nat ->
  0 < rt_in_chunk_size c -> waiting target c = true -> timely dl now -> length cs = RTMP_MAX_CSID ->
  pending c (message_bytes (Z.to_nat (rt_in_chunk_size c)) m ++ k) ->
  (length (message_bytes (Z.to_nat (rt_in_chunk_size c)) m ++ k) <= fuel)%nat ->
  reads_to fuel now dl target cs c m k buf.
Proof.
  intros Hok Hb Hfit Hpos Hw Ht Hcs Hp Hf.
  assert (Hl : (0 < length (m_data m))%nat) by (destruct Hok as [(_ & _ & _ & _ & _ & ?) _]; lia).
  rewrite message_bytes_eq, <- !app_assoc in Hp, Hf by (lia || by intros E; rewrite E in Hl; simpl in Hl; lia).
  destruct (read_chunk_first m cs c _ Hok Hp) as (i & sid & Hp1 & Erd).
  destruct fuel as [|fuel]; [unfold first_header in Hf; simpl in Hf; lia|].
  assert (Hc : c = (c <| rt_in := i |>) <| rt_in := rt_in c |>) by (by destruct c).
  set (c1 := c <| rt_in := i |>) in *.
  apply (body_reads_to m 0 fuel now dl target cs c1 c k buf sid); try done.
  - by exists (rt_in c).
  - change (rt_in_chunk_size c1) with (rt_in_chunk_size c). rewrite drop_0.
    unfold first_header in Hf. rewrite !length_app in Hf |- *. simpl in Hf. rewrite !length_app in Hf. lia.
Qed.

(** ** Processing looks at the payload only *)

Definition put (i : list (list Z)) (b : option (list Z)) (c : rsp_rtmp) : rsp_rtmp :=
  c <| rt_in := i |> <| rt_recv_buf := b |>.

(** Sending does not look at the input or the receive buffer. *)
Definition framed (a : rtmp_act) : Prop :=
  forall i b c, a (put i b c) = ((a c).1, put i b (a c).2).

Lemma framed_send x : framed (rtmp_send x).
Proof.
  intros i b c. unfold rtmp_send, put. cbn [rt_writes rt_out set_field].
  by destruct (write_loop (rt_writes c) x (rt_out c)) as [[ok out] ws].
Qed.

Lemma framed_seq a b : framed a -> framed b -> framed (act_seq a b).
Proof.
  intros Ha Hb i x c. unfold act_seq. rewrite Ha. destruct (a c) as [r c1]. cbn [fst snd].
  case_match; [done|]. apply Hb.
Qed.

Lemma framed_header first csid ty sid ts len : framed (send_chunk_header first csid ty sid ts len).
Proof. unfold send_chunk_header. case_match; auto using framed_seq, framed_send. Qed.

Lemma framed_message_loop fuel csid ty sid ts data off : framed (send_message_loop fuel csid ty sid ts data off).
Proof.
  revert off. induction fuel as [|fuel IH]; intros off i b c; cbn [send_message_loop]; [by case_match|].
  case_match; [|done]. change (rt_chunk_size (put i b c)) with (rt_chunk_size c).
  by apply framed_seq; [apply framed_header|apply framed_seq; [apply framed_send|]].
Qed.

(** Sending changes nothing but the output and the script. *)
Definition only_out (a : rtmp_act) : Prop := forall c, exists o w, (a c).2 = after_write o w c.

Lemma only_out_seq a b : only_out a -> only_out b -> only_out (act_seq a b).
Proof.
  intros Ha Hb c. unfold act_seq. destruct (Ha c) as (o & w & E). destruct (a c) as [r c1]. cbn [snd] in E.
  subst c1. case_match; [by exists o, w|]. destruct (Hb (after_write o w c)) as (o' & w' & ->). by exists o', w'.
Qed.

Lemma only_out_send x : only_out (rtmp_send x).
Proof.
  intros c. destruct (sends_send x c) as (ok & sent & ws & E & _). rewrite E. by eexists _, _.
Qed.

Lemma only_out_message_loop fuel csid ty sid ts data off :
  only_out (send_message_loop fuel csid ty sid ts data off).
Proof.
  assert (H0 : forall c, exists o w, c = after_write o w c)
    by (intros c; exists (rt_out c), (rt_writes c); by destruct c).
  revert off. induction fuel as [|fuel IH]; intros off c; cbn [send_message_loop]; [case_match; apply H0|].
  case_match; [|apply H0]. apply only_out_seq.
  - unfold send_chunk_header. case_match; auto using only_out_seq, only_out_send.
  - apply only_out_seq; [apply only_out_send|apply IH].
Qed.

Lemma lookup_payload (data junk : list Z) n : (n < length data)%nat -> (data ++ junk) !!! n = data !!! n.
Proof. intros. by rewrite lookup_total_app_l. Qed.

Lemma is_command_payload data junk slen s :
  (3 <= length data)%nat -> slen <= Z.of_nat (length data) - 3 ->
  is_command (data ++ junk) slen s = is_command data slen s.
Proof.
  intros Hl Hs. unfold is_command. destruct (Z.eqb_spec slen (Z.of_nat (length (str s)))) as [->|]; [|done].
  rewrite drop_app_le by lia. rewrite take_app_le by (rewrite length_drop; lia). done.
Qed.

Lemma result_stream_id_payload data junk p :
  0 <= p -> result_stream_id dbl_ub (data ++ junk) p (Z.of_nat (length data)) =
  result_stream_id dbl_ub data p (Z.of_nat (length data)).
Proof.
  intros Hp. unfold result_stream_id.
  assert (Hcond : forall q v, 0 <= q -> (q <? Z.of_nat (length data)) && ((data ++ junk) !!! Z.to_nat q =? v) =
    (q <? Z.of_nat (length data)) && (data !!! Z.to_nat q =? v)).
  { intros q v Hq. destruct (Z.ltb_spec q (Z.of_nat (length data))); [|done]. by rewrite lookup_payload by lia. }
  rewrite (Hcond p) by done. set (p1 := if (p <? _) && _ then p + 9 else p). assert (0 <= p1) by (unfold p1; case_match; lia).
  rewrite (Hcond p1) by done. set (p2 := if (p1 <? _) && _ then p1 + 1 else p1). assert (0 <= p2) by (unfold p2; case_match; lia).
  destruct (Z.leb_spec (p2 + 9) (Z.of_nat (length data))) as [Hle|]; [|done].
  rewrite lookup_payload by lia. rewrite drop_app_le, take_app_le by (rewrite ?length_drop; lia). done.
Qed.

(** The effect of a complete message, its payload alone in the buffer. *)
Definition serve (m : message) (c : rsp_rtmp) : rsp_rtmp := served m (c <| rt_recv_buf := Some (m_data m) |>).

Lemma is_byte_lookup (data : list Z) n : Forall is_byte data -> (n < length data)%nat -> is_byte (data !!! n).
Proof.
  intros Hf Hn. rewrite Forall_lookup in Hf. destruct (lookup_lt_is_Some_2 data n Hn) as [x Hx].
  rewrite (list_lookup_total_correct _ _ _ Hx). by eapply Hf.
Qed.

Lemma process_command_put data junk i c :
  Forall is_byte data ->
  process_command dbl_ub (Z.of_nat (length data)) (put i (Some (data ++ junk)) c) =
  put i (Some (data ++ junk)) (process_command dbl_ub (Z.of_nat (length data)) (c <| rt_recv_buf := Some data |>)).
Proof.
  intros Hby. set (c1 := put i (Some (data ++ junk)) c). set (c2 := c <| rt_recv_buf := Some data |>).
  unfold process_command. cbv zeta.
  change (default [] (rt_recv_buf c1)) with (data ++ junk). change (default [] (rt_recv_buf c2)) with data.
  change (rt_state c1) with (rt_state c). change (rt_state c2) with (rt_state c).
  destruct (Z.of_nat (length data) >? 3) eqn:Hl; [|done]. bool_to_prop. cbn [andb].
  rewrite !lookup_payload by lia. destruct (data !!! 0%nat =? AMF0_STRING); [|done].
  set (slen := Z.lor _ _). assert (Hs : 0 <= slen).
  { unfold slen. apply Z.lor_nonneg. split; [apply uwrap_range; lia|].
    by destruct (is_byte_lookup data 2 Hby ltac:(lia)). }
  destruct (slen >? _) eqn:Hgt; [done|]. bool_to_prop.
  rewrite !is_command_payload, result_stream_id_payload by lia.
  destruct (is_command data slen "_result").
  - destruct (rt_state c); try done. by destruct (result_stream_id _ _ _ _).
  - by destruct (is_command data slen "onStatus"), (is_command data slen "_error").
Qed.

Lemma served_put m i buf c :
  Forall is_byte (m_data m) -> take (length (m_data m)) buf = m_data m ->
  served m (put i (Some buf) c) = put i (Some buf) (serve m c).
Proof.
  intros Hby Ht. rewrite <- (take_drop (length (m_data m)) buf), Ht. set (junk := drop _ _).
  unfold serve, served, rtmp_process_message.
  destruct (m_type m =? RTMP_MSG_SET_CHUNK_SIZE).
  { destruct (_ >=? 4) eqn:H4; [|done]. bool_to_prop. unfold put, get_be32.
    cbn [rt_recv_buf set_field default from_option id]. by rewrite !lookup_payload by lia. }
  destruct (m_type m =? RTMP_MSG_SET_PEER_BW).
  { unfold rtmp_send_window_ack, rtmp_send_control, rtmp_send_message.
    pose proof (framed_message_loop (length (put_be32 2500000)) RTMP_CSID_CONTROL RTMP_MSG_WINDOW_ACK_SIZE 0 0
                  (put_be32 2500000) 0) as Hf. rewrite Hf. cbn [snd].
    change (c <| rt_recv_buf := Some (m_data m) |>) with (put (rt_in c) (Some (m_data m)) c).
    rewrite Hf. done. }
  destruct (m_type m =? RTMP_MSG_AMF0_CMD); [by apply process_command_put|done].
Qed.

(** ** The server's messages, one after the other *)

(** A message the client can take with a buffer of [cap] bytes. *)
Definition server_message (cap : nat) (m : message) : Prop :=
  server_ok m /\ Forall is_byte (m_data m) /\ (length (m_data m) <= cap)%nat /\
  (m_type m = RTMP_MSG_SET_CHUNK_SIZE ->
   (4 <= length (m_data m))%nat /\ 0 < be_val (take 4 (m_data m)) < 2 ^ 31).

(** What waiting for [target] makes of the messages: the ones left unread and
    the connection. *)
Fixpoint follow (target : rsp_conn_state) (ms : list message) (c : rsp_rtmp) : list message * rsp_rtmp :=
  match ms with
  | [] => ([], c)
  | m :: ms' => if waiting target c then follow target ms' (serve m c) else (ms, c)
  end.

Lemma get_be32_val data : Forall is_byte data -> (4 <= length data)%nat -> get_be32 data = be_val (take 4 data).
Proof.
  intros Hby Hl. destruct data as [|a [|b [|d [|e data]]]]; simpl in Hl; try lia.
  repeat match goal with H : Forall _ (_ :: _) |- _ => inversion H; subst; clear H end.
  change (get_be32 _) with (Z.lor (Z.lor (Z.lor (Z.shiftl a 24) (Z.shiftl b 16)) (Z.shiftl d 8)) e).
  replace (Z.shiftl a 24) with (Z.shiftl (Z.shiftl a 8) 16) by (by rewrite Z.shiftl_shiftl by lia).
  rewrite <- Z.shiftl_lor, lor3_val, lor_shiftl_add by (done || unfold is_byte in *; lia).
  unfold be_val. simpl. lia.
Qed.

Lemma serve_in_chunk m c cap : server_message cap m -> 0 < rt_in_chunk_size c ->
  Z.to_nat (rt_in_chunk_size (serve m c)) = size_after (Z.to_nat (rt_in_chunk_size c)) m /\
  0 < rt_in_chunk_size (serve m c).
Proof.
  intros (_ & Hby & _ & Hch) Hpos. unfold serve, served, rtmp_process_message, size_after.
  destruct (m_type m =? RTMP_MSG_SET_CHUNK_SIZE) eqn:E.
  { bool_to_prop. destruct (Hch E) as [Hl Hv]. rewrite Z.geb_leb, (proj2 (Z.leb_le _ _)) by lia.
    change (rt_in_chunk_size (_ <| rt_in_chunk_size := ?v |>)) with v.
    change (default [] (rt_recv_buf (c <| rt_recv_buf := Some (m_data m) |>))) with (m_data m).
    rewrite get_be32_val by done. change 2147483647 with (Z.ones 31). rewrite Z.land_ones, Z.mod_small by lia. lia. }
  destruct (m_type m =? RTMP_MSG_SET_PEER_BW).
  { unfold rtmp_send_window_ack, rtmp_send_control, rtmp_send_message.
    destruct (only_out_message_loop (length (put_be32 2500000)) RTMP_CSID_CONTROL RTMP_MSG_WINDOW_ACK_SIZE 0 0
                (put_be32 2500000) 0 (c <| rt_recv_buf := Some (m_data m) |>)) as (o & w & ->). done. }
  destruct (m_type m =? RTMP_MSG_AMF0_CMD); [|done]. unfold process_command.
  repeat case_match; done.
Qed.

Lemma responses_done fuel now dl target cs c : waiting target c = false ->
  responses_loop dbl_ub fuel now dl target cs c =
    (if bool_decide (rt_state c = RSP_STATE_ERROR) then -1 else 0, c).
Proof. intros Hw. destruct fuel; cbn [responses_loop]; unfold waiting in Hw; by rewrite Hw. Qed.

Lemma follow_loop target dl rest ms fuel now cs i buf c left cf :
  Forall (server_message (length buf)) ms -> 0 < rt_in_chunk_size c ->
  length cs = RTMP_MAX_CSID -> timely dl now ->
  pending (put i (Some buf) c) (messages_bytes (Z.to_nat (rt_in_chunk_size c)) ms ++ rest) ->
  (length (messages_bytes (Z.to_nat (rt_in_chunk_size c)) ms ++ rest) <= fuel)%nat ->
  follow target ms c = (left, cf) -> waiting target cf = false ->
  exists i' buf',
    responses_loop dbl_ub fuel now dl target cs (put i (Some buf) c) =
      (if bool_decide (rt_state cf = RSP_STATE_ERROR) then -1 else 0, put i' (Some buf') cf) /\
    pending (put i' (Some buf') cf) (messages_bytes (Z.to_nat (rt_in_chunk_size cf)) left ++ rest).
Proof.
  intros Hms. revert fuel now cs i buf c Hms. induction ms as [|m ms IH];
    intros fuel now cs i buf c Hms Hpos Hcs Ht Hp Hf Hfol Hdone.
  { injection Hfol as <- <-. exists i, buf. split; [|done]. by rewrite responses_done. }
  cbn [follow] in Hfol. destruct (waiting target c) eqn:Hw.
  2: { injection Hfol as <- <-. exists i, buf. split; [|done]. by rewrite responses_done. }
  inversion Hms as [|? ? Hm Hms']; subst. pose proof Hm as (Hok & Hby & Hfit & _).
  cbn [messages_bytes] in Hp, Hf. rewrite <- app_assoc in Hp, Hf.
  destruct (message_reads_to m fuel now dl target cs (put i (Some buf) c) _ buf Hok eq_refl Hfit Hpos Hw Ht Hcs Hp Hf)
    as (f' & now' & cs' & i' & buf' & E & Hp' & Hl' & Ht' & Hcs' & Hf' & Htm). rewrite E.
  change ((put i (Some buf) c) <| rt_in := i' |> <| rt_recv_buf := Some buf' |>) with (put i' (Some buf') c).
  rewrite served_put by done. destruct (serve_in_chunk m c _ Hm Hpos) as [Hsz Hpos'].
  apply (IH f' now' cs' i' buf' (serve m c)); [by rewrite Hl'|done|done|done| | |done|done].
  - rewrite Hsz. exact Hp'.
  - by rewrite Hsz.
Qed.

End reader.

Lemma read_responses_follow dbl_ub now target timeout c ms rest buf left cf :
  rt_recv_buf c = Some buf -> Forall (server_message (length buf)) ms -> 0 < rt_in_chunk_size c ->
  timely (now 0%nat + timeout * 1000) (fun i => now (S i)) ->
  Forall (fun seg => seg <> []) (rt_in c) ->
  concat (rt_in c) = messages_bytes (Z.to_nat (rt_in_chunk_size c)) ms ++ rest ->
  follow dbl_ub target ms c = (left, cf) -> waiting target cf = false ->
  exists c', rtmp_read_responses dbl_ub now target timeout c =
      (if bool_decide (rt_state cf = RSP_STATE_ERROR) then -1 else 0, c') /\
    put [] None c' = put [] None cf /\
    concat (rt_in c') = messages_bytes (Z.to_nat (rt_in_chunk_size cf)) left ++ rest.
Proof.
  intros Hb Hms Hpos Ht Hseg Hin Hfol Hdone.
  assert (Hc : c = put (rt_in c) (Some buf) c) by (rewrite <- Hb; by destruct c).
  destruct (follow_loop dbl_ub target (now 0%nat + timeout * 1000) rest ms (S (length (concat (rt_in c))))
              (fun i => now (S i)) (replicate RTMP_MAX_CSID cs_zero) (rt_in c) buf c left cf)
    as (i' & buf' & E & Hp); try done.
  - rewrite Hin. lia.
  - exists (put i' (Some buf') cf). split; [|by split; [|apply Hp]].
    unfold rtmp_read_responses. rewrite Hc at 2. exact E.
Qed.

(** The client follows its server.  When the bytes that arrive, cut into TCP
    segments in any way, are well-formed messages with full headers, not
    interleaved, that fit the receive buffer, and the deadline is not reached,
    then waiting for a state processes exactly these messages, each with its
    exact payload and with every chunk size the server announces on the way,
    and stops right behind the message that brought the state; what is left of
    the stream is unread, and the answer is 0 unless that message was an
    error. *)
Theorem rtmp_reader_follows dbl_ub now target timeout c ms rest buf left cf :
  rt_recv_buf c = Some buf -> Forall (server_message (length buf)) ms -> 0 < rt_in_chunk_size c ->
  timely (now 0%nat + timeout * 1000) (fun i => now (S i)) ->
  Forall (fun seg => seg <> []) (rt_in c) ->
  concat (rt_in c) = messages_bytes (Z.to_nat (rt_in_chunk_size c)) ms ++ rest ->
  follow dbl_ub target ms c = (left, cf) -> waiting target cf = false ->
  exists c', rtmp_read_responses dbl_ub now target timeout c =
      (if bool_decide (rt_state cf = RSP_STATE_ERROR) then -1 else 0, c') /\
    put [] None c' = put [] None cf /\
    concat (rt_in c') = messages_bytes (Z.to_nat (rt_in_chunk_size cf)) left ++ rest.
Proof. apply read_responses_follow. Qed.

Module Server.
(** Two results, read in segments that split headers and payloads. *)
Definition result (x : list Z) : message :=
  mk_message RTMP_CSID_COMMAND RTMP_MSG_AMF0_CMD 0 0 (amf0_write_string (str "_result") ++ x).
Definition stream : list Z :=
  messages_bytes 128 [result (replicate 150 0); result (amf0_write_number dbl_2 ++ amf0_write_null ++
                                                        amf0_write_number dbl_1)].
Definition conn (st : rsp_conn_state) (segs : list (list Z)) : rsp_rtmp :=
  mk_rsp_rtmp true st 4096 128 0 [] [] [] false false (Some (replicate 400 0)) (Some 65536) [] [] segs.
(** The rejection a server sends for a stream name that is taken. *)
Definition rejected : rsp_rtmp :=
  conn RSP_STATE_CONNECTED
    [message_bytes 128 (mk_message RTMP_CSID_COMMAND RTMP_MSG_AMF0_CMD 0 0
       (amf0_write_string (str "onStatus") ++ amf0_write_string (str "NetStream.Publish.BadName")))].
End Server.

Lemma rtmp_reader_follows_witness :
  exists c', rtmp_read_responses (fun _ => 0) (fun _ => 0) RSP_STATE_CONNECTED 10
               (Server.conn RSP_STATE_HANDSHAKE [take 5 Server.stream; drop 5 Server.stream]) = (0, c') /\
    put [] None c' = put [] None ((Server.conn RSP_STATE_CONNECTED []) <| rt_stream_id := 1 |>) /\
    concat (rt_in c') = [].
Proof.
  refine (rtmp_reader_follows (fun _ => 0) (fun _ => 0) RSP_STATE_CONNECTED 10
            (Server.conn RSP_STATE_HANDSHAKE [take 5 Server.stream; drop 5 Server.stream])
            [Server.result (replicate 150 0);
             Server.result (amf0_write_number dbl_2 ++ amf0_write_null ++ amf0_write_number dbl_1)] []
            (replicate 400 0) []
            (snd (follow (fun _ => 0) RSP_STATE_CONNECTED
               [Server.result (replicate 150 0);
                Server.result (amf0_write_number dbl_2 ++ amf0_write_null ++ amf0_write_number dbl_1)]
               (Server.conn RSP_STATE_HANDSHAKE [take 5 Server.stream; drop 5 Server.stream])))
            eq_refl _ _ _ _ _ _ _).
  - repeat (apply Forall_cons_2; [|try apply Forall_nil_2]); (split; [split; [apply command_message_ok|]|split;
      [apply (bool_decide_unpack _); vm_compute; exact I|split; [|discriminate]]]); vm_compute; try done; lia.
  - done.
  - intros i. by vm_compute.
  - by repeat constructor.
  - vm_compute. reflexivity.
  - vm_compute. reflexivity.
  - vm_compute. reflexivity.
Defined.

(** Any onStatus counts as success.  Whatever follows the command name (the
    level "error", the code NetStream.Publish.BadName), the message puts the
    connection into the publishing state and ends the wait for the answer to the
    publish command with 0. *)
Theorem rtmp_any_status_publishes dbl_ub now timeout c details rest buf :
  rt_recv_buf c = Some buf -> rt_state c = RSP_STATE_CONNECTED ->
  Forall is_byte details -> 0 < Z.of_nat (length details) -> (11 + length details <= length buf)%nat ->
  Z.of_nat (length details) < 65536 ->
  0 < rt_in_chunk_size c -> timely (now 0%nat + timeout * 1000) (fun i => now (S i)) ->
  Forall (fun seg => seg <> []) (rt_in c) ->
  let m := mk_message RTMP_CSID_COMMAND RTMP_MSG_AMF0_CMD 0 0
             (amf0_write_string (str "onStatus") ++ details) in
  concat (rt_in c) = message_bytes (Z.to_nat (rt_in_chunk_size c)) m ++ rest ->
  exists c', rtmp_read_responses dbl_ub now RSP_STATE_PUBLISHING timeout c = (0, c') /\
    rt_state c' = RSP_STATE_PUBLISHING.
Proof.
  intros Hb Hst Hby Hd Hl Hl2 Hpos Ht Hseg m Hin.
  assert (Hlen : length (m_data m) = (11 + length details)%nat) by done.
  assert (Hcf : serve dbl_ub m c = (c <| rt_recv_buf := Some (m_data m) |>) <| rt_state := RSP_STATE_PUBLISHING |>).
  { unfold serve, served, rtmp_process_message. cbn [m_type m Z.eqb Pos.eqb].
    unfold RTMP_MSG_AMF0_CMD, RTMP_MSG_SET_CHUNK_SIZE, RTMP_MSG_SET_PEER_BW. cbn [Z.eqb Pos.eqb].
    unfold process_command. cbv zeta.
    change (default [] (rt_recv_buf (c <| rt_recv_buf := Some (m_data m) |>))) with (m_data m).
    rewrite Z.gtb_ltb, (proj2 (Z.ltb_lt _ _)) by lia. cbn [andb].
    change (m_data m !!! 0%nat =? AMF0_STRING) with true. cbv iota.
    change (Z.lor (u16 (Z.shiftl (m_data m !!! 1%nat) 8)) (m_data m !!! 2%nat)) with 8.
    rewrite Z.gtb_ltb, (proj2 (Z.ltb_ge _ _)) by lia.
    assert (H1 : is_command (m_data m) 8 "_result" = false) by done.
    assert (H2 : is_command (m_data m) 8 "onStatus" = true) by done. by rewrite H1, H2. }
  destruct (read_responses_follow dbl_ub now RSP_STATE_PUBLISHING timeout c [m] rest buf [] (serve dbl_ub m c))
    as (c' & E & Heq & _); try done.
  - apply Forall_cons_2; [|apply Forall_nil_2]. split; [split; [|done]|split; [|split; [lia|done]]].
    + apply command_message_ok; [done|change (0 < length (m_data m))%nat; lia|].
      change (Z.of_nat (length (m_data m)) < 2 ^ 24). lia.
    + change (Forall is_byte (amf0_write_string (str "onStatus") ++ details)).
      apply Forall_app_2; [|done]. apply (bool_decide_unpack _). vm_compute. exact I.
  - cbn [messages_bytes]. by rewrite app_nil_r.
  - cbn [follow]. unfold waiting. by rewrite Hst.
  - unfold waiting. by rewrite Hcf.
  - rewrite Hcf in E. exists c'. split; [exact E|]. apply (f_equal rt_state) in Heq. by rewrite Hcf in Heq.
Qed.

Lemma rtmp_any_status_publishes_witness :
  exists c', rtmp_read_responses (fun _ => 0) (fun _ => 0) RSP_STATE_PUBLISHING 10 Server.rejected = (0, c') /\
    rt_state c' = RSP_STATE_PUBLISHING.
Proof.
  refine (rtmp_any_status_publishes (fun _ => 0) (fun _ => 0) 10 Server.rejected
            (amf0_write_string (str "NetStream.Publish.BadName")) [] (replicate 400 0) eq_refl eq_refl
            _ _ _ _ _ _ _ _).
  - apply (bool_decide_unpack _). vm_compute. exact I.
  - by vm_compute.
  - vm_compute. lia.
  - by vm_compute.
  - done.
  - intros i. by vm_compute.
  - by repeat constructor.
  - vm_compute. reflexivity.
Defined.

(** Two legal server streams the client misreads.  A result message whose two
    chunks are separated by a six-byte control message on another chunk stream
    is lost, because all chunk streams share one receive buffer: the server
    said yes, and the wait fails with the state unchanged.  And a message with
    an extended timestamp that takes two chunks leaves four bytes of its own in
    the stream, because continuation chunks repeat the extended timestamp and
    the client does not expect it (its own sender does repeat it). *)
Theorem rtmp_reader_legal_streams_misread :
  let big ts := mk_message RTMP_CSID_COMMAND RTMP_MSG_AMF0_CMD 0 ts
                  (amf0_write_string (str "_result") ++ replicate 150 0) in
  let ping := mk_message RTMP_CSID_CONTROL 4 0 0 [0; 6; 0; 0; 0; 1] in
  let bytes ts := message_bytes 128 (big ts) in
  let mixed := take 140 (bytes 0) ++ message_bytes 128 ping ++ drop 140 (bytes 0) in
  let wait segs := rtmp_read_responses (fun _ => 0) (fun _ => 0) RSP_STATE_CONNECTING 10
                     (Server.conn RSP_STATE_HANDSHAKE segs) in
  recv_all 128 mixed = Some [ping; big 0] /\
  (wait [mixed]).1 = -1 /\ rt_state (wait [mixed]).2 = RSP_STATE_HANDSHAKE /\
  recv_all 128 (bytes 16777216) = Some [big 16777216] /\
  length (concat (rt_in (wait [bytes 16777216]).2)) = 4%nat.
Proof. vm_compute. repeat split; reflexivity. Qed.
