(* ===== verification/RtmpUrl.v ===== *)
(** * rsp: push URLs (rsp_rtmp_parse_url, rsp_net_parse_url)

    The two URL parsers on byte strings, and what they make of a URL put
    together from its parts. *)

From Stdlib Require Import String.
From stdpp Require Import list.
From S2P Require Import Prelude Rtmp.

(** ** The C library calls *)

(** [strncmp(p, s, n) == 0] for a literal [s] of length [n]: what follows it. *)
Fixpoint strip (s p : list Z) : option (list Z) :=
  match s, p with
  | [], _ => Some p
  | a :: s, b :: p => if a =? b then strip s p else None
  | _ :: _, [] => None
  end.

(** [strchr(p, c)]: what is before the first [c] and what is after it. *)
Fixpoint strchr (p : list Z) (c : Z) : option (list Z * list Z) :=
  match p with
  | [] => None
  | a :: p => if a =? c then Some ([], p)
              else match strchr p c with Some (x, y) => Some (a :: x, y) | None => None end
  end.

Definition is_digit (b : Z) : bool := (48 <=? b) && (b <=? 57).
Definition is_space (b : Z) : bool := (b =? 32) || ((9 <=? b) && (b <=? 13)).

Fixpoint digits (acc : Z) (l : list Z) : Z :=
  match l with
  | b :: l => if is_digit b then digits (acc * 10 + (b - 48)) l else acc
  | [] => acc
  end.

Definition LONG_MAX : Z := 2 ^ 63 - 1.

(** [strtol(p, NULL, 10)] with a 64-bit long. *)
Fixpoint strtol (l : list Z) : Z :=
  match l with
  | [] => 0
  | b :: l' =>
      if is_space b then strtol l'
      else if b =? 45 then Z.max (- LONG_MAX - 1) (- digits 0 l')
      else if b =? 43 then Z.min LONG_MAX (digits 0 l')
      else Z.min LONG_MAX (digits 0 l)
  end.

Definition colon : Z := 58.
Definition slash : Z := 47.

Record rtmp_url := mk_rtmp_url {
  ru_host : list Z; ru_port : Z; ru_app : list Z; ru_key : list Z; ru_tls : bool
}.

Section parse.

(** raptor-common's bounded copy. *)
Variable rss_strlcpy : list Z -> Z -> list Z.

(** [int hlen; if (hlen >= size) hlen = size - 1; memcpy]. *)
Definition cut (s : list Z) (size : Z) : list Z :=
  take (Z.to_nat (if Z.of_nat (length s) >=? size then size - 1 else Z.of_nat (length s))) s.

Definition rsp_rtmp_parse_url (url : list Z) (host_size app_size key_size : Z) : option rtmp_url :=
  match (match strip (str "rtmps://") url with
         | Some p => Some (true, p)
         | None => match strip (str "rtmp://") url with Some p => Some (false, p) | None => None end
         end) with
  | None => None
  | Some (use_tls, p) =>
      match strchr p slash with
      | None => None
      | Some (authority, p) =>
          let '(host, port) :=
            match strchr authority colon with
            | Some (h, rest) => (cut h host_size, s32 (strtol (rest ++ slash :: p)))
            | None => (cut authority host_size, if use_tls : bool then 443 else 1935)
            end in
          match strchr p slash with
          | None => None
          | Some (app, key) =>
              Some (mk_rtmp_url host port (cut app app_size) (rss_strlcpy key key_size) use_tls)
          end
      end
  end.

End parse.

(** udp://host:port or udp://[v6]:port. *)
Definition rsp_net_parse_url (url : list Z) (host_size : Z) : option (list Z * Z) :=
  match strip (str "udp://") url with
  | None => None
  | Some p =>
      match (match p with
             | 91 :: p => match strchr p 93 with Some (h, r) => Some (h, r) | None => None end
             | _ => match strchr p colon with Some (h, r) => Some (h, colon :: r) | None => None end
             end) with
      | Some (h, 58 :: r) =>
          let val := strtol r in
          if (val <? 1) || (val >? 65535) then None else
          if (length h =? 0)%nat || (Z.of_nat (length h) >=? host_size) then None
          else Some (h, val)
      | _ => None
      end
  end.

(** ** URLs put together from their parts *)

(** The decimal digits of a positive number. *)
Fixpoint print_dec (fuel : nat) (n : Z) : list Z :=
  match fuel with
  | O => []
  | S fuel => if n =? 0 then [] else print_dec fuel (n / 10) ++ [48 + n mod 10]
  end.

Lemma strip_app s p : strip s (s ++ p) = Some p.
Proof. induction s as [|a s IH]; [by destruct p|]. simpl. by rewrite Z.eqb_refl. Qed.

Lemma strchr_app x y c : c ∉ x -> strchr (x ++ c :: y) c = Some (x, y).
Proof.
  induction x as [|a x IH]; intros Hx; simpl; [by rewrite Z.eqb_refl|].
  rewrite (proj2 (Z.eqb_neq _ _)) by (intros ->; apply Hx; left).
  rewrite IH; [done|]. intros H. apply Hx. by right.
Qed.

Lemma strchr_none x c : c ∉ x -> strchr x c = None.
Proof.
  induction x as [|a x IH]; intros Hx; [done|]. simpl.
  rewrite (proj2 (Z.eqb_neq _ _)) by (intros ->; apply Hx; left).
  rewrite IH; [done|]. intros H. apply Hx. by right.
Qed.

Lemma digits_app a l r : Forall (fun b => is_digit b = true) l -> digits a (l ++ r) = digits (digits a l) r.
Proof. intros Hl. revert a. induction Hl as [|b l Hb Hl IH]; intros a; [done|]. simpl. rewrite Hb. apply IH. Qed.

Lemma print_dec_digits fuel n : 0 <= n -> Forall (fun b => is_digit b = true) (print_dec fuel n).
Proof.
  revert n. induction fuel as [|fuel IH]; intros n Hn; simpl; [constructor|].
  case_match; [constructor|]. apply Forall_app_2; [apply IH, Z.div_pos; lia|].
  constructor; [|constructor]. pose proof (Z.mod_pos_bound n 10). unfold is_digit. lia.
Qed.

Lemma print_dec_val fuel n : 0 <= n < 10 ^ Z.of_nat fuel -> digits 0 (print_dec fuel n) = n.
Proof.
  revert n. induction fuel as [|fuel IH]; intros n Hn; [simpl in *; lia|]. cbn [print_dec].
  destruct (Z.eqb_spec n 0) as [->|]; [done|].
  rewrite Nat2Z.inj_succ, Z.pow_succ_r in Hn by lia.
  rewrite digits_app by (apply print_dec_digits, Z.div_pos; lia).
  rewrite IH by (split; [apply Z.div_pos; lia|apply Z.div_lt_upper_bound; lia]).
  pose proof (Z.mod_pos_bound n 10 ltac:(lia)). pose proof (Z.div_mod n 10 ltac:(lia)). simpl.
  unfold is_digit. rewrite (proj2 (andb_true_iff _ _)) by lia. lia.
Qed.

Lemma strtol_dec fuel n rest : 0 < n < 10 ^ Z.of_nat fuel -> n <= LONG_MAX ->
  (forall a, digits a rest = a) -> strtol (print_dec fuel n ++ rest) = n.
Proof.
  intros Hn Hmax Hrest. destruct (print_dec fuel n ++ rest) as [|b l] eqn:E.
  - destruct fuel; [simpl in *; lia|]. cbn [print_dec] in E. destruct (Z.eqb_spec n 0); [lia|].
    by destruct (print_dec fuel (n / 10)).
  - assert (Hb : is_digit b = true).
    { pose proof (print_dec_digits fuel n ltac:(lia)) as Hd. destruct (print_dec fuel n) as [|x y] eqn:Ex.
      - pose proof (print_dec_val fuel n ltac:(lia)) as Hv. rewrite Ex in Hv. simpl in Hv. lia.
      - injection E as <- _. by inversion Hd. }
    cbn [strtol]. unfold is_digit, is_space in *. bool_to_prop.
    rewrite !(proj2 (Z.eqb_neq b _)) by lia.
    rewrite (proj2 (andb_false_iff _ _)) by (right; apply Z.leb_gt; lia). cbn [orb].
    rewrite <- E, digits_app by (apply print_dec_digits; lia). rewrite print_dec_val, Hrest by lia.
    by apply Z.min_r.
Qed.

Definition rtmp_url_of (u : rtmp_url) : list Z :=
  str (if ru_tls u then "rtmps://" else "rtmp://") ++ ru_host u ++ colon :: print_dec 5 (ru_port u)
  ++ slash :: ru_app u ++ slash :: ru_key u.

Lemma cut_id s size : Z.of_nat (length s) < size -> cut s size = s.
Proof.
  intros H. unfold cut. rewrite Z.geb_leb, (proj2 (Z.leb_gt _ _)) by lia. by rewrite Nat2Z.id, firstn_all.
Qed.

(** A URL with an explicit port parses back into its parts, for both schemes;
    the stream key is everything after the application, slashes and query
    strings included. *)
Theorem rtmp_url_roundtrip rss_strlcpy u host_size app_size key_size :
  (forall s n, Z.of_nat (length s) < n -> rss_strlcpy s n = s) ->
  slash ∉ ru_host u -> colon ∉ ru_host u -> slash ∉ ru_app u -> 0 < ru_port u < 65536 ->
  Z.of_nat (length (ru_host u)) < host_size -> Z.of_nat (length (ru_app u)) < app_size ->
  Z.of_nat (length (ru_key u)) < key_size ->
  rsp_rtmp_parse_url rss_strlcpy (rtmp_url_of u) host_size app_size key_size = Some u.
Proof.
  intros Hcpy Hh Hc Ha Hp Hhs Has Hks. unfold rsp_rtmp_parse_url, rtmp_url_of.
  set (tail := ru_app u ++ slash :: ru_key u). set (dec := print_dec 5 (ru_port u)).
  assert (Hdec : slash ∉ dec).
  { intros Hin. pose proof (print_dec_digits 5 (ru_port u) ltac:(lia)) as Hd.
    rewrite list.Forall_forall in Hd. by specialize (Hd _ Hin). }
  assert (Hs : (match strip (str "rtmps://") (str (if ru_tls u then "rtmps://" else "rtmp://") ++
                 ru_host u ++ colon :: dec ++ slash :: tail) with
         | Some p => Some (true, p)
         | None => match strip (str "rtmp://") (str (if ru_tls u then "rtmps://" else "rtmp://") ++
                 ru_host u ++ colon :: dec ++ slash :: tail) with Some p => Some (false, p) | None => None end
         end) = Some (ru_tls u, ru_host u ++ colon :: dec ++ slash :: tail))
    by (destruct (ru_tls u); reflexivity).
  rewrite Hs. replace (ru_host u ++ colon :: dec ++ slash :: tail)
    with ((ru_host u ++ colon :: dec) ++ slash :: tail) by (by rewrite <- app_assoc).
  rewrite strchr_app by (rewrite elem_of_app; intros [H|H]; [done|];
    apply elem_of_cons in H as [H|H]; [done|by apply Hdec]).
  rewrite (strchr_app (ru_host u) dec colon Hc). cbv beta iota.
  unfold tail at 1. rewrite (strchr_app (ru_app u)) by done. rewrite !cut_id, Hcpy by done.
  unfold dec. rewrite strtol_dec by (unfold LONG_MAX; simpl; first [lia | done]).
  rewrite swrap_id by (unfold in_s; simpl; lia). by destruct u.
Qed.
