(* ===== verification/RspAudio.v ===== *)
(** * rsp: the audio transcoder (rsp/rsp_audio.c)

    Decoding of ring chunks to PCM, resampling to 48 kHz, and the accumulator
    that cuts the PCM stream into encoder frames and stamps them.  The AAC
    encoder and the Opus and AAC decoders are external: the encoder is a
    parameter with its own state, the decoders a parameter. *)

From stdpp Require Import list.
From S2P Require Import Prelude G711.

Definition RSP_CODEC_PCMU : Z := 0.
Definition RSP_CODEC_PCMA : Z := 8.
Definition RSP_CODEC_L16 : Z := 11.
Definition RSP_CODEC_AAC : Z := 97.
Definition RSP_CODEC_OPUS : Z := 111.
Definition RSP_AAC_OUTPUT_RATE : Z := 48000.

Definition rsp_audio_needs_transcode (codec sample_rate : Z) : bool :=
  if negb (codec =? RSP_CODEC_AAC) then true
  else negb (sample_rate =? 44100) && negb (sample_rate =? 48000).

(** [pcm_fill] is the length of [ae_pcm]. *)
Record rsp_audio_enc (F : Type) := mk_rsp_audio_enc {
  ae_input_codec : Z;
  ae_input_rate : Z;
  ae_output_rate : Z;
  ae_faac : F;
  ae_frame_samples : nat;
  ae_pcm : list Z;
  ae_resample_frac : Z;
  ae_next_out_ts : Z;
  ae_out_ts_running : bool
}.
Arguments mk_rsp_audio_enc {F}.
Arguments ae_input_codec {F}. Arguments ae_input_rate {F}. Arguments ae_output_rate {F}.
Arguments ae_faac {F}. Arguments ae_frame_samples {F}. Arguments ae_pcm {F}.
Arguments ae_resample_frac {F}. Arguments ae_next_out_ts {F}. Arguments ae_out_ts_running {F}.

#[export] Instance eta_rsp_audio_enc F : Settable (rsp_audio_enc F) := fun e =>
  mk_rsp_audio_enc (ae_input_codec e) (ae_input_rate e) (ae_output_rate e) (ae_faac e)
    (ae_frame_samples e) (ae_pcm e) (ae_resample_frac e) (ae_next_out_ts e) (ae_out_ts_running e).

(** ** Decoding and resampling *)

Section decode.
(** The library decoders: what they make of a packet, at most this many samples. *)
Variable lib_decode : Z -> list Z -> nat -> list Z.

(** Big-endian 16-bit samples; an odd last byte is not read. *)
Fixpoint l16_samples (l : list Z) : list Z :=
  match l with
  | a :: b :: l => s16 (a * 256 + b) :: l16_samples l
  | _ => []
  end.

Definition decode_to_pcm (codec : Z) (data : list Z) (pcm_max : nat) : list Z :=
  if codec =? RSP_CODEC_PCMU then rsp_ulaw_table <$> take pcm_max data
  else if codec =? RSP_CODEC_PCMA then rsp_alaw_table <$> take pcm_max data
  else if codec =? RSP_CODEC_L16 then take pcm_max (l16_samples data)
  else lib_decode codec data pcm_max.
End decode.

(** The interpolation loop; [pos] is a 16.16 position. *)
Fixpoint resample_loop (fuel : nat) (input : list Z) (out_max : nat) (step pos : Z) (out : list Z)
    : list Z * Z :=
  match fuel with
  | O => (out, pos)
  | S fuel =>
      if (out_max <=? length out)%nat then (out, pos) else
      let idx := Z.shiftr pos 16 in
      if idx >=? Z.of_nat (length input) then (out, pos) else
      let frac := Z.land (Z.shiftr pos 8) 255 in
      let s0 := input !!! Z.to_nat idx in
      let s1 := if idx + 1 <? Z.of_nat (length input) then input !!! Z.to_nat (idx + 1) else s0 in
      resample_loop fuel input out_max step (u32 (pos + step))
        (out ++ [s16 (s0 + Z.shiftr ((s1 - s0) * frac) 8)])
  end.

(** [ratio] copies of every sample. *)
Definition repeat_samples (ratio : nat) (l : list Z) : list Z := concat (replicate ratio <$> l).

Definition resample {F} (e : rsp_audio_enc F) (input : list Z) (out_max : nat)
    : list Z * rsp_audio_enc F :=
  if ae_input_rate e =? ae_output_rate e then (take out_max input, e)
  else if ae_output_rate e mod ae_input_rate e =? 0 then
    let ratio := Z.to_nat (ae_output_rate e / ae_input_rate e) in
    let out_count := (length input * ratio)%nat in
    let out_count := if (out_max <? out_count)%nat then (out_max / ratio * ratio)%nat else out_count in
    (repeat_samples ratio (take (out_count / ratio) input), e)
  else
    let step := u32 (Z.shiftl (ae_input_rate e) 16) / ae_output_rate e in
    let '(out, pos) := resample_loop out_max input out_max step (ae_resample_frac e) [] in
    (out, e <| ae_resample_frac := u32 (pos - Z.shiftl (Z.of_nat (length input)) 16) |>).

(** ** The accumulator *)

(** Advance by a frame and lean toward the ring's timestamp. *)
Definition next_stamp (frame_dur timestamp_ms next : Z) : Z :=
  let next := u32 (next + frame_dur) in
  let err := s32 timestamp_ms - s32 next in
  if (err >? frame_dur * 4) || (err <? - frame_dur * 4) then timestamp_ms
  else if err >? 1 then u32 (next + 1)
  else if err <? -1 then u32 (next - 1)
  else next.

Section transcode.
Context {F S : Type}.
(** One encoder call: an error, or the bytes it produced (possibly none yet). *)
Variable faac_encode : F -> list Z -> option (list Z) * F.
Variable lib_decode : Z -> list Z -> nat -> list Z.
(** The callback that gets every encoded frame. *)
Variable cb : list Z -> Z -> S -> Z * S.

Definition frame_dur (e : rsp_audio_enc F) : Z :=
  u32 (Z.of_nat (ae_frame_samples e) * 1000) / ae_output_rate e.

(** A full accumulator is encoded and handed on. *)
Definition encode_full (timestamp_ms : Z) (e : rsp_audio_enc F) (st : S) : Z * rsp_audio_enc F * S :=
  let '(res, f) := faac_encode (ae_faac e) (ae_pcm e) in
  let e := e <| ae_faac := f |> <| ae_pcm := [] |> in
  match res with
  | None | Some [] => (0, e, st)
  | Some aac =>
      let '(r, st) := cb aac (ae_next_out_ts e) st in
      if r <? 0 then (-1, e, st)
      else (0, e <| ae_next_out_ts := next_stamp (frame_dur e) timestamp_ms (ae_next_out_ts e) |>, st)
  end.

Fixpoint feed_loop (fuel : nat) (timestamp_ms : Z) (src : list Z) (e : rsp_audio_enc F) (st : S)
    : Z * rsp_audio_enc F * S :=
  match src, fuel with
  | [], _ => (0, e, st)
  | _, O => (-1, e, st)
  | _, Datatypes.S fuel =>
      let copy := Nat.min (length src) (ae_frame_samples e - length (ae_pcm e)) in
      let e := e <| ae_pcm := ae_pcm e ++ take copy src |> in
      if (ae_frame_samples e <=? length (ae_pcm e))%nat then
        let '(r, e, st) := encode_full timestamp_ms e st in
        if r <? 0 then (-1, e, st) else feed_loop fuel timestamp_ms (drop copy src) e st
      else feed_loop fuel timestamp_ms (drop copy src) e st
  end.

Definition rsp_audio_transcode (data : list Z) (timestamp_ms : Z) (e : rsp_audio_enc F) (st : S)
    : Z * rsp_audio_enc F * S :=
  let pcm := decode_to_pcm lib_decode (ae_input_codec e) data (Z.to_nat 4096) in
  if (length pcm =? 0)%nat then (0, e, st) else
  let '(src, e) := resample e pcm (Z.to_nat 8192) in
  if (length src =? 0)%nat then (0, e, st) else
  let e := if ae_out_ts_running e then e
           else e <| ae_next_out_ts := timestamp_ms |> <| ae_out_ts_running := true |> in
  feed_loop (length src) timestamp_ms src e st.

Definition rsp_audio_reset (e : rsp_audio_enc F) : rsp_audio_enc F :=
  e <| ae_pcm := [] |> <| ae_out_ts_running := false |>.
End transcode.

(** ** No sample is lost *)

(** An encoder with a record of the frames it was given. *)
Definition logging {F} (enc : F -> list Z -> option (list Z) * F) (x : list (list Z) * F) (pcm : list Z)
    : option (list Z) * (list (list Z) * F) :=
  let '(r, f) := enc (snd x) pcm in (r, (fst x ++ [pcm], f)).

Section partition.
Context {F S : Type} (enc : F -> list Z -> option (list Z) * F) (lib_decode : Z -> list Z -> nat -> list Z).
Context (cb : list Z -> Z -> S -> Z * S).
Implicit Types e : rsp_audio_enc (list (list Z) * F).

Definition frames_of e : list (list Z) := fst (ae_faac e).

(** From [e] to [e'] the encoder got [frames], whole ones, and [src] is what went
    through the accumulator. *)
Record consumed (src : list Z) e e' : Prop := mk_consumed {
  cm_frames : exists frames, frames_of e' = frames_of e ++ frames /\
    Forall (fun f => length f = ae_frame_samples e) frames /\
    ae_pcm e ++ src = concat frames ++ ae_pcm e';
  cm_fill : (length (ae_pcm e') < ae_frame_samples e)%nat;
  cm_size : ae_frame_samples e' = ae_frame_samples e
}.

Lemma encode_full_spec ts e st r e' st' :
  encode_full (logging enc) cb ts e st = (r, e', st') ->
  frames_of e' = frames_of e ++ [ae_pcm e] /\ ae_pcm e' = [] /\ ae_frame_samples e' = ae_frame_samples e.
Proof.
  unfold encode_full, logging, frames_of. destruct (enc (snd (ae_faac e)) (ae_pcm e)) as [res f].
  destruct res as [[|x aac]|].
  - by intros [= <- <- <-].
  - destruct (cb (x :: aac) _ st) as [r1 st1]. case_match; by intros [= <- <- <-].
  - by intros [= <- <- <-].
Qed.

Lemma feed_loop_spec fuel ts src e st e' st' :
  (length (ae_pcm e) < ae_frame_samples e)%nat -> (length src <= fuel)%nat ->
  feed_loop (logging enc) cb fuel ts src e st = (0, e', st') -> consumed src e e'.
Proof.
  revert src e st. induction fuel as [|fuel IH]; intros src e st Hfill Hf H.
  { destruct src; [|simpl in *; lia]. injection H as <- <-.
    split; [exists []; by rewrite !app_nil_r|done|done]. }
  destruct src as [|x src].
  { injection H as <- <-. split; [exists []; by rewrite !app_nil_r|done|done]. }
  cbn [feed_loop] in H. set (copy := Nat.min _ _) in H. set (l := x :: src) in *.
  set (e1 := e <| ae_pcm := ae_pcm e ++ take copy l |>) in H.
  assert (Hcopy : (0 < copy <= length l)%nat) by (unfold copy, l; simpl length; lia).
  assert (Hdrop : (length (drop copy l) <= fuel)%nat) by (rewrite length_drop; unfold l in *; simpl in *; lia).
  destruct (Nat.leb_spec (ae_frame_samples e1) (length (ae_pcm e1))) as [Hfull|Hmore].
  - destruct (encode_full (logging enc) cb ts e1 st) as [[r e2] st2] eqn:E.
    apply encode_full_spec in E as (Hlog & Hp2 & Hs2). case_match; [done|].
    apply IH in H as [(fr & Hl & Hall & Hcat) Hfill' Hsz]; [|rewrite Hp2, Hs2; change (ae_frame_samples e1) with (ae_frame_samples e); simpl; lia|done].
    assert (Hlen1 : length (ae_pcm e1) = ae_frame_samples e).
    { change (ae_pcm e1) with (ae_pcm e ++ take copy l) in *. change (ae_frame_samples e1) with (ae_frame_samples e) in *.
      rewrite length_app, length_take in *. unfold copy in *. lia. }
    rewrite Hs2 in *. split; [|exact Hfill'|exact Hsz].
    exists (ae_pcm e1 :: fr). split; [rewrite Hl, Hlog, <- app_assoc; done|].
    split; [constructor; done|]. rewrite Hp2 in Hcat. simpl in Hcat |- *.
    rewrite <- app_assoc, <- Hcat. change (ae_pcm e1) with (ae_pcm e ++ take copy l).
    by rewrite <- app_assoc, take_drop.
  - apply IH in H as [(fr & Hl & Hall & Hcat) Hfill' Hsz]; [|done|done].
    split; [|exact Hfill'|exact Hsz]. exists fr. split; [exact Hl|]. split; [exact Hall|].
    rewrite <- Hcat. change (ae_pcm e1) with (ae_pcm e ++ take copy l). by rewrite <- app_assoc, take_drop.
Qed.

(** The 48 kHz samples of one ring chunk. *)
Definition incoming e (data : list Z) : list Z :=
  match decode_to_pcm lib_decode (ae_input_codec e) data (Z.to_nat 4096) with
  | [] => []
  | pcm => fst (resample e pcm (Z.to_nat 8192))
  end.

Lemma resample_frac_only e pcm n : exists frac, snd (resample e pcm n) = e <| ae_resample_frac := frac |>.
Proof.
  unfold resample. case_match; [exists (ae_resample_frac e); by destruct e|].
  case_match; [exists (ae_resample_frac e); by destruct e|]. destruct (resample_loop _ _ _ _ _ _). by eexists.
Qed.

Lemma transcode_consumes data ts e st e' st' :
  (length (ae_pcm e) < ae_frame_samples e)%nat ->
  rsp_audio_transcode (logging enc) lib_decode cb data ts e st = (0, e', st') ->
  consumed (incoming e data) e e'.
Proof.
  intros Hfill H. unfold rsp_audio_transcode, incoming in *.
  destruct (decode_to_pcm _ _ _ _) as [|x pcm].
  { injection H as <- <-. split; [exists []; by rewrite !app_nil_r|done|done]. }
  change (length (x :: pcm) =? 0)%nat with false in H. cbv iota in H.
  destruct (resample_frac_only e (x :: pcm) (Z.to_nat 8192)) as [frac Hr].
  destruct (resample e (x :: pcm) (Z.to_nat 8192)) as [src e1]. cbn [fst snd] in *. subst e1.
  destruct src as [|y src].
  { injection H as <- <-. split; [exists []; by rewrite !app_nil_r|done|done]. }
  change (length (y :: src) =? 0)%nat with false in H. cbv iota in H. destruct e as [? ? ? ? ? ? ? ? run].
  destruct run; apply feed_loop_spec in H; try done; destruct H; by split.
Qed.

(** A run of ring chunks with their timestamps: the samples that came in and
    the final state, unless a callback failed. *)
Fixpoint transcode_run (chunks : list (list Z * Z)) e (st : S)
    : option (list Z * rsp_audio_enc (list (list Z) * F) * S) :=
  match chunks with
  | [] => Some ([], e, st)
  | (data, ts) :: chunks =>
      let '(r, e1, st1) := rsp_audio_transcode (logging enc) lib_decode cb data ts e st in
      if negb (r =? 0) then None else
      '(rest, e2, st2) ← transcode_run chunks e1 st1; Some (incoming e data ++ rest, e2, st2)
  end.

Lemma consumed_trans s1 s2 e1 e2 e3 : consumed s1 e1 e2 -> consumed s2 e2 e3 -> consumed (s1 ++ s2) e1 e3.
Proof.
  intros [(f1 & L1 & A1 & C1) _ S1] [(f2 & L2 & A2 & C2) F2 S2]. rewrite S1 in *.
  split; [|done|by rewrite S2]. exists (f1 ++ f2). split; [by rewrite L2, L1, app_assoc|].
  split; [by apply Forall_app_2|]. by rewrite concat_app, <- app_assoc, <- C2, app_assoc, C1, app_assoc.
Qed.

Lemma transcode_run_consumes chunks e st all e' st' :
  (length (ae_pcm e) < ae_frame_samples e)%nat ->
  transcode_run chunks e st = Some (all, e', st') -> consumed all e e'.
Proof.
  revert e st all. induction chunks as [|[data ts] chunks IH]; intros e st all Hfill H.
  { injection H as <- <- <-. split; [exists []; by rewrite !app_nil_r|done|done]. }
  cbn [transcode_run] in H.
  destruct (rsp_audio_transcode _ _ _ data ts e st) as [[r e1] st1] eqn:E.
  destruct (Z.eqb_spec r 0) as [->|]; [|done]. cbn [negb] in H.
  apply transcode_consumes in E; [|done].
  destruct (transcode_run chunks e1 st1) as [[[rest e2] st2]|] eqn:E2; [|done]. injection H as <- <- <-.
  eapply consumed_trans; [exact E|]. eapply IH; [|exact E2]. destruct E as [_ Hf Hs]. by rewrite Hs.
Qed.

(** The transcoder loses no sample and invents none.  Over any run of ring
    chunks whose callbacks succeed, whatever the chunk sizes and whether or not
    the encoder fails or buffers, the encoder is given whole frames only, and
    the frames followed by what is left in the accumulator are exactly what was
    in the accumulator followed by the 48 kHz samples of the chunks; the
    accumulator never reaches a full frame between calls. *)
Theorem rsp_audio_frames_partition chunks e st all e' st' :
  (length (ae_pcm e) < ae_frame_samples e)%nat ->
  transcode_run chunks e st = Some (all, e', st') ->
  exists frames, frames_of e' = frames_of e ++ frames /\
    Forall (fun f => length f = ae_frame_samples e) frames /\
    ae_pcm e ++ all = concat frames ++ ae_pcm e' /\ (length (ae_pcm e') < ae_frame_samples e)%nat.
Proof.
  intros Hfill H. destruct (transcode_run_consumes _ _ _ _ _ _ Hfill H) as [(fr & H1 & H2 & H3) H4 _]. eauto.
Qed.
End partition.

(** Two 24 kHz mu-law chunks through a four-sample frame. *)
Definition demo_enc : rsp_audio_enc (list (list Z) * unit) :=
  mk_rsp_audio_enc RSP_CODEC_PCMU 24000 RSP_AAC_OUTPUT_RATE ([], tt) 4 [] 0 0 false.

Definition demo_run : option (list Z * rsp_audio_enc (list (list Z) * unit) * Z) :=
  transcode_run (fun (f : unit) (_ : list Z) => (Some [1], f)) (fun _ _ _ => []) (fun _ _ (n : Z) => (0, n + 1))
    [([255; 0], 0); ([128], 20)] demo_enc 0.

Lemma rsp_audio_frames_partition_witness :
  exists all e', demo_run = Some (all, e', 1) /\
    exists frames, frames_of e' = frames_of demo_enc ++ frames /\
      Forall (fun f => length f = 4%nat) frames /\
      ae_pcm demo_enc ++ all = concat frames ++ ae_pcm e' /\ (length (ae_pcm e') < 4)%nat.
Proof.
  eexists _, _. split; [vm_compute; reflexivity|].
  refine (rsp_audio_frames_partition (fun (f : unit) (_ : list Z) => (Some [1], f)) (fun _ _ _ => [])
            (fun _ _ (n : Z) => (0, n + 1)) [([255; 0], 0); ([128], 20)] demo_enc 0 _ _ 1 _ _).
  - simpl. lia.
  - vm_compute. reflexivity.
Defined.

Lemma resample_8k {F} (e : rsp_audio_enc F) pcm :
  ae_input_rate e = 8000 -> ae_output_rate e = 48000 ->
  fst (resample e pcm (Z.to_nat 8192)) = repeat_samples 6 (take (Z.to_nat 1365) pcm).
Proof.
  intros Hi Ho. unfold resample. rewrite Hi, Ho.
  change (8000 =? 48000) with false. change (48000 mod 8000 =? 0) with true. cbv iota zeta.
  change (Z.to_nat (48000 / 8000)) with 6%nat. cbn [fst]. f_equal.
  destruct (Nat.ltb_spec (Z.to_nat 8192) (length pcm * 6)) as [Hlt|Hge].
  - rewrite Nat.div_mul by lia. apply (f_equal (fun k => take k pcm)). by vm_compute.
  - rewrite Nat.div_mul, firstn_all, take_ge by lia. done.
Qed.

(** What G.711 at 8 kHz becomes: every sample six times; a chunk of more than
    1365 samples (170 ms) loses its tail to the fixed 8192-sample buffer. *)
Theorem resample_g711_8k {F} (e : rsp_audio_enc F) lib_decode data :
  ae_input_codec e = RSP_CODEC_PCMU -> ae_input_rate e = 8000 -> ae_output_rate e = 48000 ->
  fst (resample e (decode_to_pcm lib_decode (ae_input_codec e) data (Z.to_nat 4096)) (Z.to_nat 8192)) =
  repeat_samples 6 (rsp_ulaw_table <$> take (Z.to_nat 1365) data).
Proof.
  intros Hc Hi Ho. rewrite resample_8k by done. f_equal. rewrite Hc.
  change (decode_to_pcm lib_decode RSP_CODEC_PCMU data (Z.to_nat 4096))
    with (rsp_ulaw_table <$> take (Z.to_nat 4096) data).
  rewrite <- fmap_take, take_take. by do 2 f_equal.
Qed.

(** ** What the callback keeps, the transcoder keeps *)

Section callback_invariant.
Context {F S : Type} (faac_encode : F -> list Z -> option (list Z) * F).
Context (lib_decode : Z -> list Z -> nat -> list Z) (cb : list Z -> Z -> S -> Z * S).
(** [P] holds as long as no callback failed, [Q] in any case; [A] is what every
    encoder output satisfies. *)
Context (P Q : S -> Prop) (A : list Z -> Prop).
Hypothesis enc_A : forall f pcm aac f', faac_encode f pcm = (Some aac, f') -> A aac.
Hypothesis P_Q : forall st, P st -> Q st.
Hypothesis cb_keeps : forall aac ts st r st', A aac -> P st -> cb aac ts st = (r, st') ->
  Q st' /\ (0 <= r -> P st').

Lemma feed_loop_keeps fuel ts src e st r e' st' :
  P st -> feed_loop faac_encode cb fuel ts src e st = (r, e', st') -> Q st' /\ (0 <= r -> P st').
Proof.
  revert src e st. induction fuel as [|fuel IH]; intros src e st HP H; (destruct src as [|x src];
    [injection H as <- <- <-; by auto|]); cbn [feed_loop] in H.
  { injection H as <- <- <-. split; [by auto|lia]. }
  case_match; [|by eapply IH].
  destruct (encode_full faac_encode cb ts _ st) as [[r1 e1] st1] eqn:E.
  assert (Hk : Q st1 /\ (0 <= r1 -> P st1)).
  { unfold encode_full in E. destruct (faac_encode _ _) as [[[|y aac]|] f] eqn:Ef;
      [injection E as <- <- <-; by auto| |injection E as <- <- <-; by auto].
    destruct (cb (y :: aac) _ st) as [r2 st2] eqn:Ec.
    eapply cb_keeps in Ec as [HQ HP2]; [|by eapply enc_A|done].
    destruct (r2 <? 0) eqn:Er; injection E as <- <- <-; (split; [done|]); bool_to_prop; [lia|auto]. }
  case_match; [injection H as <- <- <-; split; [apply Hk|lia]|]. bool_to_prop.
  eapply IH; [|exact H]. by apply Hk.
Qed.

Lemma transcode_keeps data ts e st r e' st' :
  P st -> rsp_audio_transcode faac_encode lib_decode cb data ts e st = (r, e', st') ->
  Q st' /\ (0 <= r -> P st').
Proof.
  intros HP H. unfold rsp_audio_transcode in H. case_match; [injection H as <- <- <-; by auto|].
  destruct (resample _ _ _) as [src e1]. case_match; [injection H as <- <- <-; by auto|].
  by eapply feed_loop_keeps.
Qed.
End callback_invariant.
