(* ===== verification/RspPush.v ===== *)
(** * rsp: the push loop (rsp/rsp_main.c)

    One iteration of push_loop in RTMP mode: the stop and reconnect logic, the
    connection, the late attachment of the audio ring, the video frame with its
    sequence headers, and the burst of audio.  Ring reads, the socket and the
    encoder library are inputs; the connection is the one of [Rtmp], the
    transcoder the one of [RspAudio].  Two history fields, which no operation
    reads, record what was on the wire when publish succeeded and the media
    calls that succeeded since. *)

From stdpp Require Import list.
From S2P Require Import Prelude Mux Nal Rtmp RtmpProps RtmpSession RspAudio.

Section push.
Context {F : Type}.
(** External code: the undefined double conversion, raptor-common's
    AudioSpecificConfig, the AAC encoder and the library decoders. *)
Context (dbl_ub : Z -> Z) (rss_aac_asc : Z -> Z -> Z -> option (list Z)).
Context (faac_encode : F -> list Z -> option (list Z) * F) (lib_decode : Z -> list Z -> nat -> list Z).

Record rsp_state := mk_rsp_state {
  ps_rtmp : rsp_rtmp;
  ps_header_sent : bool;
  ps_params : rmr_codec_params;
  ps_video_codec : Z;
  ps_avcc_cap : Z;
  ps_audio_ring : bool;
  ps_audio_rate : Z;
  ps_audio_profile : Z;
  ps_audio_enc : option (rsp_audio_enc F);
  ps_video_ts_base : Z;
  ps_audio_ts_base : Z;
  ps_audio_next_ts : Z;
  ps_audio_ts_running : bool;
  ps_was_pushing : bool;
  ps_reconnect_wait : Z;
  ps_reconnect_delay : Z;
  ps_frames_sent : Z;
  ps_frames_dropped : Z;
  ps_bytes_sent : Z;
  ps_audio_frames_sent : Z;
  ps_base : list Z;
  ps_log : list media
}.

#[global] Instance eta_rsp_state : Settable rsp_state := fun s =>
  mk_rsp_state (ps_rtmp s) (ps_header_sent s) (ps_params s) (ps_video_codec s) (ps_avcc_cap s)
    (ps_audio_ring s) (ps_audio_rate s) (ps_audio_profile s) (ps_audio_enc s) (ps_video_ts_base s)
    (ps_audio_ts_base s) (ps_audio_next_ts s) (ps_audio_ts_running s) (ps_was_pushing s)
    (ps_reconnect_wait s) (ps_reconnect_delay s) (ps_frames_sent s) (ps_frames_dropped s)
    (ps_bytes_sent s) (ps_audio_frames_sent s) (ps_base s) (ps_log s).

(** A media call on the connection, with the history. *)
Definition call (x : media) (st : rsp_state) : Z * rsp_state :=
  let '(r, c) := media_call rss_aac_asc x (ps_rtmp st) in
  (r, st <| ps_rtmp := c |> <| ps_log := if r <? 0 then ps_log st else ps_log st ++ [x] |>).

Definition rsp_connect (env : connect_env) (now : nat -> Z) (st : rsp_state) : Z * rsp_state :=
  let '(r, c) := rsp_rtmp_connect dbl_ub env false (ps_rtmp st) in
  if r <? 0 then (-1, st <| ps_rtmp := c |>) else
  let '(r, c) := rsp_rtmp_publish dbl_ub now c in
  if r <? 0 then (-1, st <| ps_rtmp := rsp_rtmp_disconnect c |>) else
  (0, st <| ps_rtmp := c <| rt_video_ts_set := false |> <| rt_audio_ts_set := false |> |>
         <| ps_header_sent := false |> <| ps_audio_ts_running := false |>
         <| ps_base := rt_out c |> <| ps_log := [] |>).

Definition rsp_disconnect (st : rsp_state) : rsp_state :=
  st <| ps_rtmp := rsp_rtmp_disconnect (ps_rtmp st) |> <| ps_header_sent := false |>.

(** [rsp_disconnect(st); reconnect_wait = st->reconnect_delay]. *)
Definition drop_connection (st : rsp_state) : rsp_state :=
  (rsp_disconnect st) <| ps_reconnect_wait := ps_reconnect_delay st |>.

Definition flv_codec (st : rsp_state) : Z :=
  if ps_video_codec st =? 1 then RSP_FLV_VIDEO_H265 else RSP_FLV_VIDEO_H264.

(** The audio header the ring calls for: the transcoder always emits LC. *)
Definition audio_header (st : rsp_state) : media :=
  M_audio_header (if ps_audio_enc st is Some _ then 48000 else ps_audio_rate st) 1
    (if ps_audio_enc st is Some _ then RSS_AAC_AOT_LC else ps_audio_profile st).

Definition rsp_send_headers (st : rsp_state) : Z * rsp_state :=
  let p := ps_params st in
  let '(r, st) := call (M_video_header (flv_codec st) (cp_sps p) (length (cp_sps p)) (cp_pps p)
                          (length (cp_pps p)) (cp_vps p) (length (cp_vps p))) st in
  if r <? 0 then (-1, st) else
  if ps_audio_ring st then
    let '(r, st) := call (audio_header st) st in
    if r <? 0 then (-1, st) else (0, st <| ps_header_sent := true |>)
  else (0, st <| ps_header_sent := true |>).

Definition rsp_audio_send_cb (aac_data : list Z) (timestamp_ms : Z) (st : rsp_state) : Z * rsp_state :=
  let '(ret, st) := call (M_audio aac_data timestamp_ms) st in
  if ret =? 0 then
    (ret, st <| ps_audio_frames_sent := u64 (ps_audio_frames_sent st + 1) |>
             <| ps_bytes_sent := u64 (ps_bytes_sent st + Z.of_nat (length aac_data)) |>)
  else (ret, st).

(** [lapped]: the release of a peeked frame reported an overflow. *)
Definition rsp_video_peek_ok (peeked lapped : bool) (st : rsp_state) : bool * rsp_state :=
  if negb peeked then (true, st) else
  if negb lapped then (true, st) else
  (false, st <| ps_params := (ps_params st) <| cp_ready := false |> |>
             <| ps_frames_dropped := u64 (ps_frames_dropped st + 1) |>).

(** ** The audio burst *)

(** One read of the audio ring. *)
Inductive audio_read := A_frame (data : list Z) (timestamp : Z) | A_overflow | A_none.

(** The passthrough smoother: the timestamp to send. *)
Definition smooth_audio_ts (a_ts : Z) (st : rsp_state) : Z * rsp_state :=
  let st := if ps_audio_ts_running st then st
            else st <| ps_audio_next_ts := a_ts |> <| ps_audio_ts_running := true |> in
  let smooth_ts := ps_audio_next_ts st in
  (smooth_ts, st <| ps_audio_next_ts := next_stamp 21 a_ts smooth_ts |>).

(** A chunk of audio; false ends the burst. *)
Definition push_audio_chunk (data : list Z) (timestamp : Z) (st : rsp_state) : bool * rsp_state :=
  let st := if rt_audio_ts_set (ps_rtmp st) then st
            else st <| ps_audio_ts_base := u32 (timestamp ÷ 1000) |>
                    <| ps_rtmp := (ps_rtmp st) <| rt_audio_ts_set := true |> |> in
  let a_ts := u32 (u32 (timestamp ÷ 1000) - ps_audio_ts_base st) in
  match ps_audio_enc st with
  | Some enc =>
      let '(r, enc, st) := rsp_audio_transcode faac_encode lib_decode rsp_audio_send_cb data a_ts enc st in
      let st := st <| ps_audio_enc := Some enc |> in
      if r <? 0 then (false, drop_connection st) else (true, st)
  | None =>
      let '(smooth_ts, st) := smooth_audio_ts a_ts st in
      let '(r, st) := call (M_audio data smooth_ts) st in
      if r <? 0 then (false, drop_connection st)
      else (true, st <| ps_audio_frames_sent := u64 (ps_audio_frames_sent st + 1) |>
                     <| ps_bytes_sent := u64 (ps_bytes_sent st + Z.of_nat (length data)) |>)
  end.

(** At most four reads. *)
Fixpoint audio_burst (n : nat) (reads : list audio_read) (st : rsp_state) : rsp_state :=
  match n, reads with
  | S n, A_frame data ts :: reads =>
      match push_audio_chunk data ts st with
      | (true, st) => audio_burst n reads st
      | (false, st) => st
      end
  | S n, A_overflow :: reads =>
      audio_burst n reads (st <| ps_audio_enc := rsp_audio_reset <$> ps_audio_enc st |>)
  | _, _ => st
  end.

(** ** The video frame *)

(** [if (!ts_set) base = ts; ... ts - base]. *)
Definition video_ts (timestamp : Z) (st : rsp_state) : Z * rsp_state :=
  let st := if rt_video_ts_set (ps_rtmp st) then st
            else st <| ps_video_ts_base := u32 (timestamp ÷ 1000) |>
                    <| ps_rtmp := (ps_rtmp st) <| rt_video_ts_set := true |> |> in
  (u32 (u32 (timestamp ÷ 1000) - ps_video_ts_base st), st).

(** Conversion, release of the peek, the send, and the audio that follows it. *)
Definition push_converted (data : list Z) (timestamp : Z) (is_key peeked lapped : bool)
    (audio : list audio_read) (st : rsp_state) : rsp_state :=
  let avcc := rmr_annexb_to_avcc data (ps_avcc_cap st) (ps_video_codec st) in
  let '(ok, st) := rsp_video_peek_ok peeked lapped st in
  if negb ok then st else
  match avcc with
  | None | Some [] => st
  | Some avcc =>
      let '(v_ts, st) := video_ts timestamp st in
      let '(r, st) := call (M_video avcc v_ts is_key (flv_codec st)) st in
      if r <? 0 then drop_connection st else
      let st := st <| ps_frames_sent := u64 (ps_frames_sent st + 1) |>
                   <| ps_bytes_sent := u64 (ps_bytes_sent st + Z.of_nat (length avcc)) |> in
      if ps_audio_ring st then audio_burst 4 audio st else st
  end.

Definition push_frame (data : list Z) (timestamp : Z) (is_key peeked lapped : bool)
    (audio : list audio_read) (st : rsp_state) : rsp_state :=
  let st := if is_key && negb (cp_ready (ps_params st))
            then st <| ps_params := rmr_extract_params data (ps_video_codec st) (ps_params st) |> else st in
  if negb (cp_ready (ps_params st)) then (rsp_video_peek_ok peeked lapped st).2 else
  let '(r, st) := if negb (ps_header_sent st) && is_key then rsp_send_headers st else (0, st) in
  if r <? 0 then drop_connection (rsp_video_peek_ok peeked lapped st).2 else
  if negb (ps_header_sent st) then (rsp_video_peek_ok peeked lapped st).2 else
  push_converted data timestamp is_key peeked lapped audio st.

(** ** One iteration *)

Inductive ring_read :=
  R_frame (data : list Z) (timestamp : Z) (is_key peeked lapped : bool) (audio : list audio_read)
| R_overflow                                   (* also a frame that outgrew the buffer *)
| R_reopened (codec max_frame : Z)             (* the ring was gone and is back *)
| R_idle.                                      (* nothing to read, or no ring yet *)

(** The audio ring that the fiftieth retry found. *)
Record attach := mk_attach {
  at_codec : Z; at_rate : Z; at_profile : Z; at_init : option (rsp_audio_enc F)
}.

Record push_input := mk_push_input {
  pi_set_url : option (list Z * list Z * list Z); pi_push : bool; pi_env : connect_env; pi_now : nat -> Z; pi_attach : option attach; pi_ring : ring_read
}.

Definition attach_ring (a : attach) (st : rsp_state) : rsp_state :=
  let st := st <| ps_audio_ring := true |> <| ps_audio_rate := at_rate a |>
               <| ps_audio_profile := at_profile a |> in
  if rsp_audio_needs_transcode (at_codec a) (at_rate a) && negb (bool_decide (is_Some (ps_audio_enc st)))
  then st <| ps_audio_enc := at_init a |> else st.

(** The result of the header is not looked at. *)
Definition attach_audio (a : attach) (st : rsp_state) : rsp_state :=
  let st := attach_ring a st in
  if ps_header_sent st then (call (audio_header st) st).2 else st.

Definition push_ring (r : ring_read) (st : rsp_state) : rsp_state :=
  match r with
  | R_frame data timestamp is_key peeked lapped audio =>
      push_frame data timestamp is_key peeked lapped audio st
  | R_overflow => st <| ps_frames_dropped := u64 (ps_frames_dropped st + 1) |>
  | R_reopened codec max_frame =>
      st <| ps_avcc_cap := if max_frame >? ps_avcc_cap st then max_frame else ps_avcc_cap st |>
         <| ps_video_codec := codec |>
         <| ps_params := (ps_params st) <| cp_ready := false |> |> <| ps_header_sent := false |>
  | R_idle => st
  end.

(** The set-url command: the application, key and tcUrl the next connect uses;
    an established connection is dropped. *)
Definition set_url (names : list Z * list Z * list Z) (st : rsp_state) : rsp_state :=
  let '(app, key, tc_url) := names in
  let st := st <| ps_rtmp := (ps_rtmp st) <| rt_app := app |> <| rt_stream_key := key |> <| rt_tc_url := tc_url |> |> in
  if state_num (rt_state (ps_rtmp st)) >=? state_num RSP_STATE_CONNECTED then rsp_disconnect st else st.

(** The iteration up to the point where the connection publishes; false when the
    iteration ends before. *)
Definition ensure_connected (i : push_input) (st : rsp_state) : bool * rsp_state :=
  let st := if pi_set_url i is Some names then set_url names st else st in
  let st := if ps_was_pushing st && negb (pi_push i)
            then (rsp_disconnect st) <| ps_was_pushing := false |> <| ps_reconnect_wait := 0 |> else st in
  if negb (pi_push i) then (false, st) else
  let st := if ps_reconnect_wait st >? 0 then st <| ps_reconnect_wait := ps_reconnect_wait st - 200 |> else st in
  if ps_reconnect_wait st >? 0 then (false, st) else
  if state_num (rt_state (ps_rtmp st)) <? state_num RSP_STATE_PUBLISHING then
    let '(r, st) := rsp_connect (pi_env i) (pi_now i) st in
    if r <? 0 then (false, st <| ps_reconnect_wait := ps_reconnect_delay st |>)
    else (true, st <| ps_was_pushing := true |>)
  else (true, st).

Definition lazy_attach (o : option attach) (st : rsp_state) : rsp_state :=
  match o with
  | Some a => if ps_audio_ring st then st else attach_audio a st
  | None => st
  end.

Definition push_iteration (i : push_input) (st : rsp_state) : rsp_state :=
  let '(ok, st) := ensure_connected i st in
  if negb ok then st else push_ring (pi_ring i) (lazy_attach (pi_attach i) st).

(** ** What the server is told, and in which order *)

(** Whether the video and the audio configuration have been sent, and whether a
    frame has followed the last video configuration. *)
Record proto := mk_proto { pr_video : bool; pr_audio : bool; pr_started : bool }.

Definition proto_step (s : proto) (x : media) : option proto :=
  match x with
  | M_video_header _ _ _ _ _ _ _ => Some (mk_proto true (pr_audio s) false)
  | M_audio_header _ _ _ => Some (mk_proto (pr_video s) true (pr_started s))
  | M_video _ _ key _ =>
      if pr_video s && (pr_started s || key) then Some (mk_proto true (pr_audio s) true) else None
  | M_audio _ _ => if pr_audio s then Some s else None
  end.

Fixpoint proto_run (s : proto) (l : list media) : option proto :=
  match l with
  | [] => Some s
  | x :: l => s' ← proto_step s x; proto_run s' l
  end.

Definition proto_init : proto := mk_proto false false false.

Lemma proto_run_app s l x : proto_run s (l ++ [x]) = (s' ← proto_run s l; proto_step s' x).
Proof.
  revert s. induction l as [|y l IH]; intros s; cbn [app proto_run mbind option_bind].
  - by destruct (proto_step s x).
  - destruct (proto_step s y) as [s'|]; [apply IH|done].
Qed.

(** Arguments whose lengths do not wrap the 32-bit sums of the client. *)
Definition sized (x : media) : Prop :=
  match x with
  | M_audio data _ => Z.of_nat (length data) < 2 ^ 31
  | M_video_header _ _ sl _ pl _ vl => Z.of_nat (sl + pl + vl) < 2 ^ 31
  | _ => True
  end.

Lemma sends_result a bs c r c' : ready c -> sends a bs c -> a c = (r, c') -> 0 <= r ->
  rt_out c' = rt_out c ++ bs /\ ready c' /\ rt_stream_id c' = rt_stream_id c.
Proof.
  intros Hr (ok & sent & ws & Ea & _ & Hok & _) E H0. rewrite Ea in E. injection E as <- <-.
  destruct ok; [|lia]. by rewrite (Hok eq_refl).
Qed.

Lemma media_call_result x c r c' : ready c -> sized x -> media_call rss_aac_asc x c = (r, c') -> 0 <= r ->
  rt_out c' = rt_out c ++ message_bytes OUT (media_message rss_aac_asc (rt_stream_id c) x) /\
  ready c' /\ rt_stream_id c' = rt_stream_id c.
Proof.
  intros Hr Hs E H0. pose proof Hr as (Hst & Hsz & Hsb & _).
  assert (Hp : publishing c = true) by (unfold publishing; by rewrite Hst).
  assert (Hpos : (0 < Z.to_nat (rt_chunk_size c))%nat) by (rewrite Hsz; unfold RTMP_CHUNK_SZ_OUT; lia).
  assert (HO : OUT = Z.to_nat (rt_chunk_size c)) by (by rewrite Hsz). rewrite HO.
  destruct x as [codec sps sl pps pl vps vl|rate ch aot|avcc ts key codec|data ts]; cbn [media_call sized] in *.
  - unfold rsp_rtmp_send_video_header in E. rewrite Hp in E. cbn [negb] in E.
    destruct (_ >? _); [simplify_eq; lia|]. eapply sends_result; [done| |exact E|done]. by apply send_message_sends.
  - unfold rsp_rtmp_send_audio_header in E. rewrite Hp in E. cbn [negb media_message] in *.
    destruct (audio_config rss_aac_asc rate ch aot) as [asc|]; [|simplify_eq; lia].
    eapply sends_result; [done| |exact E|done]. by apply send_message_sends.
  - eapply sends_result; [done| |exact E|done]. unfold sends, rsp_rtmp_send_video. rewrite Hp. cbn [negb].
    apply send_video_loop_sends; [done|]. intros Et. pose proof (video_tag_length codec key) as Hl.
    rewrite Et in Hl. simpl in Hl. lia.
  - eapply sends_result; [done| |exact E|done].
    destruct (Z.le_gt_cases (2 + Z.of_nat (length data)) (rt_chunk_size c)) as [Hle|Hgt].
    { apply audio_fast_sends; [rewrite Hsz in *; unfold RTMP_CHUNK_SZ_OUT in *; lia|done]. }
    unfold sends. unfold rsp_rtmp_send_audio in *. rewrite Hp in *. cbn [negb] in *.
    rewrite uwrap_id in * by (unfold in_u; lia). rewrite (proj2 (Z.leb_gt _ _)) in * by lia.
    destruct (_ >? _); [simplify_eq; lia|]. by apply send_message_sends.
Qed.

(** A live connection: the bytes since publish are the logged messages, and the
    log so far is in order. *)
Record live (s : proto) (st : rsp_state) : Prop := mk_live {
  lv_ready : ready (ps_rtmp st);
  lv_wire : rt_out (ps_rtmp st) =
    ps_base st ++ messages_bytes OUT (media_message rss_aac_asc (rt_stream_id (ps_rtmp st)) <$> ps_log st);
  lv_proto : proto_run proto_init (ps_log st) = Some s
}.

Lemma call_live s s' x st r st' : live s st -> sized x -> proto_step s x = Some s' ->
  call x st = (r, st') -> 0 <= r -> live s' st'.
Proof.
  intros [Hr Hw Hp] Hsz Hstep E H0. unfold call in E.
  destruct (media_call rss_aac_asc x (ps_rtmp st)) as [r1 c1] eqn:Ec.
  apply (f_equal fst) in E as Er. apply (f_equal snd) in E as Es. cbn [fst snd] in Er, Es. subst r1.
  destruct (media_call_result _ _ _ _ Hr Hsz Ec H0) as (Ho & Hr1 & Hsid).
  rewrite (proj2 (Z.ltb_ge _ _)) in Es by lia. subst st'.
  split; cbn [ps_rtmp ps_log ps_base set_field]; [exact Hr1| |].
  - rewrite Ho, Hw, Hsid, fmap_app, messages_bytes_app by apply media_plain.
    rewrite app_assoc. cbn [fmap list_fmap messages_bytes]. by rewrite app_nil_r.
  - by rewrite proto_run_app, Hp.
Qed.

(** What [call] leaves alone. *)
Lemma call_frame x st r st' : call x st = (r, st') ->
  exists c l, st' = st <| ps_rtmp := c |> <| ps_log := l |>.
Proof.
  unfold call. destruct (media_call _ _ _) as [r1 c1]. intros E. apply (f_equal snd) in E. cbn [snd] in E.
  subst st'. by eexists _, _.
Qed.

(** The state between iterations. *)
Definition params_small (p : rmr_codec_params) : Prop :=
  (length (cp_sps p) <= 256 /\ length (cp_pps p) <= 256 /\ length (cp_vps p) <= 256)%nat.

Definition closed (st : rsp_state) : Prop :=
  rt_state (ps_rtmp st) = RSP_STATE_DISCONNECTED /\ rt_recv_buf (ps_rtmp st) = None /\
  rt_send_buf_size (ps_rtmp st) = None /\ ps_header_sent st = false.

(** Once the headers are out, the configurations the rings call for have been
    sent, and a frame has been too unless the parameter sets were dropped. *)
Definition headers_ok (s : proto) (st : rsp_state) : Prop :=
  ps_header_sent st = true ->
  pr_video s = true /\ (ps_audio_ring st = true -> pr_audio s = true) /\
  (pr_started s = true \/ cp_ready (ps_params st) = false).

Definition inv (st : rsp_state) : Prop :=
  params_small (ps_params st) /\ (closed st \/ exists s, live s st /\ headers_ok s st).

Lemma drop_connection_inv st : params_small (ps_params st) -> inv (drop_connection st).
Proof. intros Hp. split; [exact Hp|]. left. done. Qed.

Lemma store_param_small codec nal p : params_small p -> params_small (store_param codec nal p).
Proof.
  intros (H1 & H2 & H3). unfold store_param, params_small.
  repeat (case_match; try done); repeat match goal with
  | H : (_ <? _)%nat = false |- _ => apply Nat.ltb_ge in H end; cbn [cp_sps cp_pps cp_vps set_field]; lia.
Qed.

Lemma extract_params_small data codec p : params_small p -> params_small (rmr_extract_params data codec p).
Proof.
  intros Hp. unfold rmr_extract_params. case_match; [done|].
  assert (H1 : forall fuel sc q, params_small q -> params_small (extract_loop fuel codec sc q)).
  { induction fuel as [|fuel IH]; intros sc q Hq; [by destruct sc as [[]|]|].
    destruct sc as [[l n]|]; [|done]. cbn [extract_loop]. destruct (nal_at l n) as [[nal next]|]; [|done].
    case_match; [by apply IH|]. by apply IH, store_param_small. }
  specialize (H1 (length data) (first_code data) p Hp). case_match; done.
Qed.

Context (faac_small : forall f pcm aac f', faac_encode f pcm = (Some aac, f') -> Z.of_nat (length aac) < 2 ^ 31).

(** Audio and headers of a live connection, with the fields they do not touch. *)
Definition streaming (s : proto) (p : rmr_codec_params) (a h : bool) (st : rsp_state) : Prop :=
  live s st /\ ps_params st = p /\ ps_audio_ring st = a /\ ps_header_sent st = h.

Lemma call_streaming s s' p a h x st r st' :
  streaming s p a h st -> sized x -> proto_step s x = Some s' -> call x st = (r, st') ->
  ps_params st' = p /\ (0 <= r -> streaming s' p a h st').
Proof.
  intros (Hl & Hp & Ha & Hh) Hs Hstep E. pose proof (call_frame _ _ _ _ E) as (c & l & Hst').
  split; [by rewrite Hst'|]. intros H0. split; [by eapply call_live|]. by rewrite Hst'.
Qed.

(** The fields [streaming] reads are those of a hypothesis, up to computation. *)
Ltac keep_streaming := split; [constructor; assumption|split; [assumption|split; assumption]].

Lemma send_cb_streaming s p a h aac ts st r st' :
  pr_audio s = true -> Z.of_nat (length aac) < 2 ^ 31 -> streaming s p a h st ->
  rsp_audio_send_cb aac ts st = (r, st') -> ps_params st' = p /\ (0 <= r -> streaming s p a h st').
Proof.
  intros Ha Hl Hs E. unfold rsp_audio_send_cb in E.
  destruct (call (M_audio aac ts) st) as [r1 st1] eqn:Ec.
  assert (Hstep : proto_step s (M_audio aac ts) = Some s) by (simpl; by rewrite Ha).
  destruct (call_streaming s s p a h (M_audio aac ts) _ _ _ Hs Hl Hstep Ec) as [Hp1 Hs1].
  assert (E2 : r = r1 /\ (st' = st1 \/ st' = st1 <| ps_audio_frames_sent := u64 (ps_audio_frames_sent st1 + 1) |>
     <| ps_bytes_sent := u64 (ps_bytes_sent st1 + Z.of_nat (length aac)) |>))
    by (destruct (r1 =? 0); simplify_eq; auto).
  destruct E2 as (-> & [-> | ->]); [done|]. split; [exact Hp1|]. intros H0.
  destruct (Hs1 H0) as ([? ? ?] & ? & ? & ?). keep_streaming.
Qed.

Lemma audio_chunk_streaming s p a h data ts st ok st' :
  pr_audio s = true -> Z.of_nat (length data) < 2 ^ 31 -> streaming s p a h st -> params_small p ->
  push_audio_chunk data ts st = (ok, st') ->
  if ok then streaming s p a h st' else inv st'.
Proof.
  intros Ha Hd Hs Hps E. unfold push_audio_chunk in E. cbv zeta in E.
  set (st0 := if rt_audio_ts_set (ps_rtmp st) then st else _) in E.
  assert (Hs0 : streaming s p a h st0).
  { unfold st0. destruct (rt_audio_ts_set (ps_rtmp st)); [exact Hs|]. destruct Hs as ([? ? ?] & ? & ? & ?). keep_streaming. }
  clearbody st0. clear Hs st. destruct (ps_audio_enc st0) as [enc|].
  - destruct (rsp_audio_transcode _ _ _ _ _ _ _) as [[r enc'] st1] eqn:Et.
    eapply (transcode_keeps faac_encode lib_decode rsp_audio_send_cb (streaming s p a h)
      (fun st => ps_params st = p) (fun l => Z.of_nat (length l) < 2 ^ 31)) in Et as [Hp1 Hs1];
      [|exact faac_small|by intros st (_ & Hp & _)|intros aac t st r1 st2 HA HP; by apply send_cb_streaming|exact Hs0].
    case_match; injection E as <- <-.
    + apply drop_connection_inv. cbn [ps_params set_field]. by rewrite Hp1.
    + bool_to_prop. destruct (Hs1 ltac:(lia)) as ([? ? ?] & ? & ? & ?). keep_streaming.
  - destruct (smooth_audio_ts _ st0) as [sts st1] eqn:Esm.
    assert (Hs1 : streaming s p a h st1).
    { unfold smooth_audio_ts in Esm. apply (f_equal snd) in Esm. cbn [snd] in Esm. subst st1.
      destruct Hs0 as ([? ? ?] & ? & ? & ?). destruct (ps_audio_ts_running st0); keep_streaming. }
    destruct (call (M_audio data sts) st1) as [r st2] eqn:Ec.
    assert (Hstep : proto_step s (M_audio data sts) = Some s) by (simpl; by rewrite Ha).
    destruct (call_streaming s s p a h (M_audio data sts) _ _ _ Hs1 Hd Hstep Ec) as [Hp2 Hs2].
    case_match; injection E as <- <-.
    + apply drop_connection_inv. by rewrite Hp2.
    + bool_to_prop. destruct (Hs2 ltac:(lia)) as ([? ? ?] & ? & ? & ?). keep_streaming.
Qed.

(** ** The connection *)

(** Takes an equation between pairs apart, the left one computing. *)
Ltac pair_eq E :=
  apply (f_equal fst) in E as ?E1; apply (f_equal snd) in E as ?E2; cbn [fst snd] in *; subst.

Definition down (c : rsp_rtmp) : Prop :=
  rt_state c = RSP_STATE_DISCONNECTED /\ rt_recv_buf c = None /\ rt_send_buf_size c = None.

(** A step of the exchange succeeds or leaves the connection down. *)
Definition closes (a : rtmp_act) : Prop := forall c r c', a c = (r, c') -> r = 0 \/ r = -1 /\ down c'.

Lemma or_disconnect_closes a : closes (or_disconnect a).
Proof.
  intros c r c'. unfold or_disconnect. destruct (a c) as [r1 c1]. destruct (r1 <? 0); intros E.
  - right. pair_eq E. done.
  - left. by pair_eq E.
Qed.

Lemma act_seq_closes a b : closes a -> closes b -> closes (act_seq a b).
Proof.
  intros Ha Hb c r c'. unfold act_seq. destruct (a c) as [r1 c1] eqn:E.
  destruct (Ha _ _ _ E) as [-> | [-> Hd]]; simpl; [by apply Hb|]. intros [= <- <-]. by right.
Qed.

Lemma exchange_closes env : closes (connect_exchange dbl_ub env).
Proof.
  rewrite connect_exchange_eq.
  refine (act_seq_closes _ _ (or_disconnect_closes _) _). refine (act_seq_closes _ _ (or_disconnect_closes _) _).
  refine (act_seq_closes _ _ (or_disconnect_closes _) _). refine (act_seq_closes _ _ (or_disconnect_closes _) _).
  exact (act_seq_closes _ _ (or_disconnect_closes _) (or_disconnect_closes _)).
Qed.

Lemma connect_buffers_down env c c' : down c -> connect_buffers env c = (false, c') -> down c'.
Proof.
  intros (Hst & Hrb & Hsb) E. unfold connect_buffers in E. rewrite Hrb in E.
  rewrite bool_decide_true in E by done. cbn [andb] in E.
  destruct (negb (ce_recv_malloc env)); [pair_eq E; by split_and!|].
  revert E. generalize (Some (replicate (Z.to_nat 4096) 0)). intros o E.
  destruct (_ && _); [pair_eq E; by split_and!|]. by apply (f_equal fst) in E.
Qed.

Lemma connect_closes env c r c' : down c -> rsp_rtmp_connect dbl_ub env false c = (r, c') ->
  r = 0 \/ r = -1 /\ down c'.
Proof.
  intros Hd E. unfold rsp_rtmp_connect in E. destruct (ce_socket env) as [[ws segs]|].
  - destruct (connect_buffers env (dial ws segs c)) as [[] c1] eqn:Eb.
    + exact (exchange_closes env _ _ _ E).
    + pair_eq E. right. split; [done|]. eapply connect_buffers_down; [|exact Eb]. exact Hd.
  - right. by pair_eq E.
Qed.

Lemma responses_loop_result fuel now dl target cs c r c' :
  responses_loop dbl_ub fuel now dl target cs c = (r, c') -> r = 0 \/ r = -1.
Proof.
  revert now cs c. induction fuel as [|fuel IH]; intros now cs c; cbn [responses_loop];
    repeat case_match; intros H'; try (injection H' as <- <-; auto; fail); by eapply IH.
Qed.

Lemma publish_result now c r c' : rsp_rtmp_publish dbl_ub now c = (r, c') -> r = 0 \/ r = -1.
Proof.
  unfold rsp_rtmp_publish. destruct (_ <? _); [intros [= <- _]; auto|]. unfold act_seq.
  destruct (rtmp_send_publish c) as [r1 c1]. destruct (r1 <? 0); [intros [= <- _]; auto|].
  apply responses_loop_result.
Qed.

Lemma rsp_connect_inv env now st r st' : down (ps_rtmp st) -> ps_header_sent st = false ->
  rsp_connect env now st = (r, st') ->
  ps_params st' = ps_params st /\ ps_header_sent st' = false /\
  if r <? 0 then closed st' else live proto_init st'.
Proof.
  intros Hd Hh E. unfold rsp_connect in E.
  destruct (rsp_rtmp_connect dbl_ub env false (ps_rtmp st)) as [r1 c1] eqn:Ec.
  destruct (connect_closes _ _ _ _ Hd Ec) as [-> | [-> Hd1]]; cbn [Z.ltb Z.compare] in E.
  2: { pair_eq E.
       split; [done|]. split; [exact Hh|]. destruct Hd1 as (? & ? & ?). by split_and!. }
  destruct (rsp_rtmp_publish dbl_ub now c1) as [r2 c2] eqn:Ep.
  destruct (publish_result _ _ _ _ Ep) as [-> | ->]; cbn [Z.ltb Z.compare] in E; pair_eq E; [|done].
  split; [done|]. split; [done|]. cbn [Z.ltb Z.compare].
  destruct Hd as (_ & Hrb & Hsb). unfold rsp_rtmp_connect in Ec.
  destruct (ce_socket env) as [[ws segs]|] eqn:Es; [|done].
  destruct (connect_wire dbl_ub env (ps_rtmp st) c1 ws segs Hrb Hsb Es) as (_ & Hc1 & Hsb1 & Hb1 & Hsid1).
  { unfold rsp_rtmp_connect. by rewrite Es. }
  destruct (publish_steps dbl_ub now _ _ Hc1 Hb1 Ep) as (Hst2 & n3 & [w2 k2 _ [b2 _] s2]).
  split; [|cbn [ps_log ps_base ps_rtmp set_field fmap list_fmap messages_bytes]; by rewrite app_nil_r|done].
  cbn [ps_rtmp set_field]. unfold ready. cbn [rt_state rt_chunk_size rt_send_buf_size rt_stream_id set_field].
  split_and!; [done|by rewrite k2|by rewrite b2|by apply s2].
Qed.

(** ** One iteration keeps the invariant *)

Lemma streaming_inv s p a st : streaming s p a true st -> params_small p ->
  pr_video s = true -> (a = true -> pr_audio s = true) -> pr_started s = true \/ cp_ready p = false -> inv st.
Proof.
  intros (Hl & Hp & Ha & Hh) Hps Hv Hau Hst. split; [by rewrite Hp|]. right. exists s. split; [done|].
  intros _. by rewrite Ha, Hp.
Qed.

Definition audio_read_ok (r : audio_read) : Prop :=
  match r with A_frame data _ => Z.of_nat (length data) < 2 ^ 31 | _ => True end.

Lemma audio_burst_streaming n s p a h reads st :
  pr_audio s = true -> params_small p -> Forall audio_read_ok reads -> streaming s p a h st ->
  streaming s p a h (audio_burst n reads st) \/ inv (audio_burst n reads st).
Proof.
  intros Ha Hps Hr. revert reads Hr st. induction n as [|n IH]; intros reads Hr st Hs; [by left|].
  destruct Hr as [|[data ts| |] reads Hd Hr]; cbn [audio_burst]; [by left| |apply IH; [done|]|by left].
  - destruct (push_audio_chunk data ts st) as [ok st1] eqn:E.
    pose proof (audio_chunk_streaming _ _ _ _ _ _ _ _ _ Ha Hd Hs Hps E) as H1.
    destruct ok; [by apply IH|by right].
  - destruct Hs as ([? ? ?] & ? & ? & ?). keep_streaming.
Qed.

Lemma send_headers_streaming s p a st r st' :
  streaming s p a false st -> params_small p -> rsp_send_headers st = (r, st') ->
  ps_params st' = p /\ ps_avcc_cap st' = ps_avcc_cap st /\ ps_video_codec st' = ps_video_codec st /\
  (0 <= r -> exists s', streaming s' p a true st' /\ pr_video s' = true /\ (a = true -> pr_audio s' = true)).
Proof.
  intros Hs Hps E. pose proof Hs as (_ & Hp & Ha & _). unfold rsp_send_headers in E. cbv zeta in E. rewrite Hp in E.
  destruct (call _ st) as [r1 st1] eqn:E1.
  destruct (call_streaming s (mk_proto true (pr_audio s) false) p a false
    (M_video_header (flv_codec st) (cp_sps p) (length (cp_sps p)) (cp_pps p) (length (cp_pps p)) (cp_vps p)
       (length (cp_vps p))) st r1 st1 Hs) as [Hp1 Hs1]; [|done|exact E1|].
  { unfold sized. destruct Hps as (? & ? & ?). lia. }
  pose proof (call_frame _ _ _ _ E1) as (c1 & l1 & Hf1).
  assert (Hc1 : ps_avcc_cap st1 = ps_avcc_cap st /\ ps_video_codec st1 = ps_video_codec st) by (by rewrite Hf1).
  assert (Ha1 : ps_audio_ring st1 = a) by (by rewrite Hf1). clear Hf1 E1. destruct Hc1 as [Hc1 Hv1].
  destruct (r1 <? 0) eqn:Er1; [pair_eq E; by split_and!|].
  specialize (Hs1 ltac:(bool_to_prop; lia)). rewrite Ha1 in E. destruct a.
  - destruct (call (audio_header st1) st1) as [r2 st2] eqn:E2.
    destruct (call_streaming _ (mk_proto true true false) p true false (audio_header st1) st1 r2 st2 Hs1)
      as [Hp2 Hs2]; [done|done|exact E2|].
    pose proof (call_frame _ _ _ _ E2) as (c2 & l2 & Hf2).
    assert (Hc2 : ps_avcc_cap st2 = ps_avcc_cap st /\ ps_video_codec st2 = ps_video_codec st) by (by rewrite Hf2).
    destruct Hc2 as [Hc2 Hv2]. clear Hf2 E2.
    destruct (r2 <? 0) eqn:Er2; pair_eq E; split_and!; try done. intros _.
    destruct (Hs2 ltac:(bool_to_prop; lia)) as ([? ? ?] & ? & ? & ?). exists (mk_proto true true false).
    split; [|done]. split; [by constructor|]. by split_and!.
  - pair_eq E. split_and!; try done. intros _.
    destruct Hs1 as ([? ? ?] & ? & ? & ?). exists (mk_proto true (pr_audio s) false).
    split; [|done]. split; [by constructor|]. by split_and!.
Qed.

(** A key frame carries a picture that fits the conversion buffer. *)
Definition converts (data : list Z) (st : rsp_state) : Prop :=
  exists avcc, rmr_annexb_to_avcc data (ps_avcc_cap st) (ps_video_codec st) = Some avcc /\ avcc <> [].

Lemma peek_ok_cases peeked lapped st : let '(ok, st') := rsp_video_peek_ok peeked lapped st in
  if ok then st' = st
  else st' = st <| ps_params := (ps_params st) <| cp_ready := false |> |>
                <| ps_frames_dropped := u64 (ps_frames_dropped st + 1) |>.
Proof. unfold rsp_video_peek_ok. by destruct peeked, lapped. Qed.

Lemma peek_ok_inv peeked lapped st : inv st -> inv (rsp_video_peek_ok peeked lapped st).2.
Proof.
  intros (Hp & H). pose proof (peek_ok_cases peeked lapped st) as Hc.
  destruct (rsp_video_peek_ok peeked lapped st) as [[] st']; cbn [snd]; subst st'; [done|].
  split; [exact Hp|]. destruct H as [H|(s & [? ? ?] & Hh)]; [left; exact H|]. right. exists s.
  split; [by constructor|]. intros H1. destruct (Hh H1) as (? & ? & _). by split_and!; [..|right].
Qed.

Lemma push_converted_inv s p a data ts key peeked lapped audio st :
  streaming s p a true st -> params_small p -> pr_video s = true -> (a = true -> pr_audio s = true) ->
  pr_started s = true \/ key = true -> (key = true -> converts data st) -> Forall audio_read_ok audio ->
  inv (push_converted data ts key peeked lapped audio st).
Proof.
  intros Hs Hps Hv Hau Hst Hcv Hr. unfold push_converted. cbv zeta.
  pose proof (peek_ok_cases peeked lapped st) as Hc.
  destruct (rsp_video_peek_ok peeked lapped st) as [[] st1]; cbn [negb]; subst st1.
  2: { destruct Hs as ([? ? ?] & Hp & Ha & Hh). split; [by cbn [ps_params set_field]; rewrite Hp|].
       right. exists s. split; [by constructor|]. intros _. cbn [ps_audio_ring set_field]. rewrite Ha. auto. }
  destruct (rmr_annexb_to_avcc data (ps_avcc_cap st) (ps_video_codec st)) as [[|x avcc]|] eqn:Ec.
  1,3: assert (Hst' : pr_started s = true) by
         (destruct Hst as [?|Hk]; [done|]; destruct (Hcv Hk) as (? & ? & ?); congruence);
       eapply streaming_inv; [exact Hs|done..|by left].
  destruct (video_ts ts st) as [v_ts st1] eqn:Ev.
  assert (Hs1 : streaming s p a true st1).
  { unfold video_ts in Ev. apply (f_equal snd) in Ev. cbn [snd] in Ev. subst st1.
    destruct Hs as ([? ? ?] & ? & ? & ?). destruct (rt_video_ts_set (ps_rtmp st)); keep_streaming. }
  clear Ev Hs. destruct (call _ st1) as [r st2] eqn:E.
  assert (Hstep : proto_step s (M_video (x :: avcc) v_ts key (flv_codec st1)) = Some (mk_proto true (pr_audio s) true)).
  { cbn [proto_step]. rewrite Hv. by destruct Hst as [-> | ->]; rewrite ?orb_true_r. }
  destruct (call_streaming s (mk_proto true (pr_audio s) true) p a true (M_video (x :: avcc) v_ts key (flv_codec st1)) st1 r st2 Hs1) as [Hp2 Hs2];
    [exact I|exact Hstep|exact E|].
  destruct (r <? 0) eqn:Er; [apply drop_connection_inv; by rewrite Hp2|].
  set (st3 := st2 <| ps_frames_sent := _ |> <| ps_bytes_sent := _ |>).
  assert (Hs3 : streaming (mk_proto true (pr_audio s) true) p a true st3).
  { destruct (Hs2 ltac:(bool_to_prop; lia)) as ([? ? ?] & ? & ? & ?). keep_streaming. }
  clearbody st3. clear E Hs2. assert (Ha3 : ps_audio_ring st3 = a) by apply Hs3. rewrite Ha3.
  destruct a; [|eapply streaming_inv; [exact Hs3|done..|by left]].
  destruct (audio_burst_streaming 4 (mk_proto true (pr_audio s) true) _ _ _ audio st3 (Hau eq_refl) Hps Hr Hs3) as [H4|H4]; [|exact H4].
  eapply streaming_inv; [exact H4|done|done|by intros _; apply Hau|by left].
Qed.

Lemma push_frame_inv s data ts key peeked lapped audio st :
  live s st -> headers_ok s st -> params_small (ps_params st) ->
  (key = true -> converts data st) -> Forall audio_read_ok audio ->
  inv (push_frame data ts key peeked lapped audio st).
Proof.
  intros Hl Hh Hps Hcv Hr. unfold push_frame.
  set (st1 := if key && _ then _ else st).
  assert (H1 : live s st1 /\ params_small (ps_params st1) /\ ps_header_sent st1 = ps_header_sent st /\
    ps_audio_ring st1 = ps_audio_ring st /\ ps_avcc_cap st1 = ps_avcc_cap st /\
    ps_video_codec st1 = ps_video_codec st /\
    (cp_ready (ps_params st1) = true -> cp_ready (ps_params st) = true \/ key = true)).
  { unfold st1. destruct (key && negb (cp_ready (ps_params st))) eqn:Ek; [|split_and!; auto].
    apply andb_true_iff in Ek as [-> _]. destruct Hl as [? ? ?].
    split; [by constructor|]. split; [by apply extract_params_small|]. by split_and!; auto. }
  clearbody st1. destruct H1 as (Hl1 & Hps1 & Hh1 & Ha1 & Hc1 & Hv1 & Hrdy).
  assert (Hi1 : cp_ready (ps_params st1) = false \/ ps_header_sent st1 = false -> inv st1).
  { intros Hor. split; [done|]. right. exists s. split; [done|]. intros Hs1. destruct Hor as [?|?]; [|congruence].
    rewrite Hh1 in Hs1. destruct (Hh Hs1) as (? & ? & _). rewrite Ha1. auto. }
  destruct (cp_ready (ps_params st1)) eqn:Er1; cbn [negb]; [|apply peek_ok_inv, Hi1; by left].
  assert (Hcv1 : key = true -> converts data st1) by (intros Hk; unfold converts; rewrite Hc1, Hv1; by apply Hcv).
  destruct (ps_header_sent st1) eqn:Es1; cbn [negb andb].
  - rewrite Es1. cbn [negb Z.ltb Z.compare]. destruct (Hh ltac:(congruence)) as (Hv & Hau & Hst).
    eapply (push_converted_inv s (ps_params st1) (ps_audio_ring st1)); [by split_and!|done|done|by rewrite Ha1| |done|done].
    destruct (Hrdy eq_refl) as [Hold|Hk]; [|by right]. left. destruct Hst; [done|congruence].
  - destruct key; [|cbn [Z.ltb Z.compare]; rewrite Es1; cbn [negb]; apply peek_ok_inv, Hi1; by right].
    destruct (rsp_send_headers st1) as [r st2] eqn:E.
    destruct (send_headers_streaming s (ps_params st1) (ps_audio_ring st1) st1 r st2) as (Hp2 & Hc2 & Hv2 & Hs2);
      [by split_and!|done|exact E|].
    destruct (r <? 0) eqn:Er.
    { apply drop_connection_inv. unfold rsp_video_peek_ok. by destruct peeked, lapped; cbn [negb snd ps_params set_field]; rewrite Hp2. }
    destruct (Hs2 ltac:(bool_to_prop; lia)) as (s' & Hs' & Hv' & Hau').
    assert (Hh2 : ps_header_sent st2 = true) by apply Hs'. rewrite Hh2. cbn [negb].
    eapply push_converted_inv; [exact Hs'|done|done|done|by right| |done].
    intros _. unfold converts. rewrite Hc2, Hv2. by apply Hcv1.
Qed.

Lemma rsp_disconnect_inv st : params_small (ps_params st) -> inv (rsp_disconnect st).
Proof. intros Hp. split; [exact Hp|]. by left. Qed.

Lemma set_url_inv names st : inv st -> inv (set_url names st).
Proof.
  destruct names as [[app key] url]. intros [Hp H]. unfold set_url.
  change (rt_state (ps_rtmp (_ <| ps_rtmp := _ |>))) with (rt_state (ps_rtmp st)).
  destruct H as [Hc|(s & Hl & _)].
  - destruct Hc as (Hst & ?). rewrite Hst. cbn [state_num Z.geb Z.compare]. split; [exact Hp|]. by left.
  - assert (Hst : rt_state (ps_rtmp st) = RSP_STATE_PUBLISHING) by apply Hl. rewrite Hst.
    cbn [state_num Z.geb Z.compare]. by apply rsp_disconnect_inv.
Qed.

Lemma ensure_connected_inv i st ok st' : inv st -> ensure_connected i st = (ok, st') ->
  inv st' /\ (ok = true -> exists s, live s st' /\ headers_ok s st').
Proof.
  intros H0 E. unfold ensure_connected in E.
  set (st1 := if pi_set_url i is Some names then set_url names st else st) in E.
  assert (H1 : inv st1) by (unfold st1; destruct (pi_set_url i); [by apply set_url_inv|done]).
  clearbody st1. clear H0 st. set (st2 := if ps_was_pushing st1 && _ then _ else st1) in E.
  assert (H2 : inv st2).
  { unfold st2. destruct (ps_was_pushing st1 && negb (pi_push i)); [|done]. split; [apply H1|]. by left. }
  clearbody st2. clear H1 st1. destruct (negb (pi_push i)); [pair_eq E; done|].
  set (st3 := if ps_reconnect_wait st2 >? 0 then _ else st2) in E.
  assert (H3 : inv st3).
  { unfold st3. destruct (_ >? _); [|done]. destruct H2 as [Hp [H|(s & [? ? ?] & ?)]]; (split; [exact Hp|]);
      [left; exact H|right; exists s; split; [by constructor|done]]. }
  clearbody st3. clear H2 st2. destruct (ps_reconnect_wait st3 >? 0); [pair_eq E; done|].
  destruct H3 as [Hp [Hc|(s & Hl & Hh)]].
  2: { assert (Hst : rt_state (ps_rtmp st3) = RSP_STATE_PUBLISHING) by apply Hl. rewrite Hst in E.
       cbn [Z.ltb Z.compare state_num] in E. pair_eq E. split; [|by exists s]. split; [done|]. right. by exists s. }
  pose proof Hc as (Hst & Hrb & Hsb & Hhs). rewrite Hst in E. cbn [Z.ltb Z.compare state_num] in E.
  destruct (rsp_connect (pi_env i) (pi_now i) st3) as [r st4] eqn:E4.
  destruct (rsp_connect_inv _ _ _ _ _ (conj Hst (conj Hrb Hsb)) Hhs E4) as (Hp4 & Hh4 & H4).
  destruct (r <? 0); pair_eq E; (split; [split; [cbn [ps_params set_field]; by rewrite Hp4|]|]); [by left|done| |].
  all: destruct H4 as [? ? ?].
  1: right. 2: intros _.
  all: exists proto_init; split; [by constructor|]; unfold headers_ok; cbn [ps_header_sent set_field];
    by rewrite Hh4.
Qed.

(** What the late audio header must do on a connection that already has its
    headers: not fail. *)
Definition attach_ok (a : attach) (st : rsp_state) : Prop :=
  ps_audio_ring st = false -> ps_header_sent st = true ->
  0 <= (call (audio_header (attach_ring a st)) (attach_ring a st)).1.

Lemma attach_ring_streaming s p h a st :
  live s st -> ps_params st = p -> ps_header_sent st = h -> streaming s p true h (attach_ring a st).
Proof.
  intros [? ? ?] Hp Hh. unfold attach_ring. destruct (_ && _); (split; [by constructor|]); by split_and!.
Qed.

Lemma lazy_attach_inv s o st : live s st -> headers_ok s st -> params_small (ps_params st) ->
  (forall a, o = Some a -> attach_ok a st) ->
  params_small (ps_params (lazy_attach o st)) /\
  exists s', live s' (lazy_attach o st) /\ headers_ok s' (lazy_attach o st).
Proof.
  intros Hl Hh Hp Ho. destruct o as [a|]; [|split; [done|by exists s]]. cbn [lazy_attach].
  destruct (ps_audio_ring st) eqn:Ha; [split; [done|by exists s]|].
  specialize (Ho a eq_refl Ha). unfold attach_audio.
  pose proof (attach_ring_streaming s _ _ a st Hl eq_refl eq_refl) as Hs1.
  set (st1 := attach_ring a st) in *. clearbody st1. pose proof Hs1 as (Hl1 & Hp1 & Ha1 & Hh1). rewrite Hh1.
  destruct (ps_header_sent st) eqn:Eh.
  2: { split; [by rewrite Hp1|]. exists s. split; [done|]. unfold headers_ok. by rewrite Hh1. }
  specialize (Ho eq_refl). destruct (call (audio_header st1) st1) as [r st2] eqn:E. cbn [fst snd] in *.
  destruct (call_streaming s (mk_proto (pr_video s) true (pr_started s)) _ _ _ (audio_header st1) st1 r st2 Hs1)
    as [Hp2 Hs2]; [exact I|done|exact E|]. destruct (Hs2 Ho) as (Hl2 & _ & Ha2 & _).
  split; [by rewrite Hp2|]. eexists. split; [exact Hl2|]. intros _. destruct (Hh Eh) as (Hv & _ & Hst).
  rewrite Hp2. by split_and!.
Qed.

Definition ring_ok (r : ring_read) (st : rsp_state) : Prop :=
  match r with
  | R_frame data _ key _ _ audio => (key = true -> converts data st) /\ Forall audio_read_ok audio
  | _ => True
  end.

(** The conditions on an iteration that gets past the connection. *)
Definition input_ok (i : push_input) (st : rsp_state) : Prop :=
  let '(ok, st) := ensure_connected i st in
  ok = true -> (forall a, pi_attach i = Some a -> attach_ok a st) /\
  ring_ok (pi_ring i) (lazy_attach (pi_attach i) st).

Lemma input_ok_intro i st :
  (forall a, pi_attach i = Some a -> attach_ok a (ensure_connected i st).2) ->
  ring_ok (pi_ring i) (lazy_attach (pi_attach i) (ensure_connected i st).2) -> input_ok i st.
Proof. unfold input_ok. by destruct (ensure_connected i st). Qed.

Lemma push_iteration_inv i st : inv st -> input_ok i st -> inv (push_iteration i st).
Proof.
  intros H Hi. unfold push_iteration, input_ok in *. destruct (ensure_connected i st) as [ok st1] eqn:E.
  destruct (ensure_connected_inv _ _ _ _ H E) as [H1 Hs]. destruct ok; cbn [negb]; [|done].
  destruct (Hi eq_refl) as [Hat Hr]. destruct (Hs eq_refl) as (s & Hl & Hh).
  destruct (lazy_attach_inv _ _ _ Hl Hh (proj1 H1) Hat) as (Hp2 & s2 & Hl2 & Hh2).
  set (st2 := lazy_attach (pi_attach i) st1) in *. clearbody st2.
  destruct (pi_ring i) as [data ts key peeked lapped audio| |codec mfs|]; cbn [push_ring ring_ok] in *.
  - destruct Hr. by eapply push_frame_inv.
  - split; [exact Hp2|]. right. exists s2. destruct Hl2 as [? ? ?]. split; [by constructor|done].
  - split; [exact Hp2|]. right. exists s2. destruct Hl2 as [? ? ?]. split; [by constructor|done].
  - split; [done|]. right. by exists s2.
Qed.

(** push_loop: iterations, from the state it is entered with. *)
Definition fresh (st : rsp_state) : Prop := params_small (ps_params st) /\ closed st.

Inductive push_reach (st0 : rsp_state) : rsp_state -> Prop :=
| push_start : push_reach st0 st0
| push_next st i : push_reach st0 st -> input_ok i st -> push_reach st0 (push_iteration i st).

Lemma push_reach_inv st0 st : fresh st0 -> push_reach st0 st -> inv st.
Proof.
  intros [Hp Hc] H. induction H as [|st i _ IH Hi]; [split; [done|by left]|by apply push_iteration_inv].
Qed.


End push.

(** ** A concrete run *)

Module PushDemo.
Definition faac (f : unit) (_ : list Z) : option (list Z) * unit := (Some [33; 16], f).
Definition lib (_ : Z) (_ : list Z) (_ : nat) : list Z := [].

Lemma faac_small f pcm aac f' : faac f pcm = (Some aac, f') -> Z.of_nat (length aac) < 2 ^ 31.
Proof. intros [= <- _]. simpl. lia. Qed.

Definition st0 : rsp_state :=
  mk_rsp_state (F := unit) RtmpSession.Demo.c0 false (mk_rmr_codec_params [] [] [] false) 0 64 false 0 0 None 0 0 0 false
    false 0 2000 0 0 0 0 [] [].

Definition key_frame : list Z := [0; 0; 0; 1; 103; 66; 0; 31; 0; 0; 0; 1; 104; 206; 0; 0; 1; 101; 136; 132].
Definition inter_frame : list Z := [0; 0; 0; 1; 65; 154].

Definition first_input : push_input (F := unit) :=
  mk_push_input None true RtmpSession.Demo.env (fun _ => 0) None (R_frame key_frame 40000 true true false []).
Definition second_input : push_input (F := unit) :=
  mk_push_input None true RtmpSession.Demo.env (fun _ => 0)
    (Some (mk_attach 3 48000 2 None))
    (R_frame inter_frame 80000 false true false [A_frame [1; 2; 3] 80000; A_none]).

Definition iteration := push_iteration (F := unit) RtmpSession.Demo.ub RtmpSession.Demo.asc faac lib.
Definition st2 : rsp_state := iteration second_input (iteration first_input st0).
End PushDemo.

