(* ===== verification/Sign.v ===== *)
(** * Signed recordings (rmr/rmr_sign.c, rverify/rverify.c)

    The hash-chain signer, the write callback it sits behind (direct_write of
    rmr/rmr_main.c) and the verifier's walk over a file.  SHA-512 and Ed25519
    are parameters; a hash context is the bytes it has absorbed. *)

From stdpp Require Import list strings.
From S2P Require Import Prelude Mux.

Definition RMR_SIGN_BOX_SIZE : nat := 164.
Definition RMR_SIGN_FLAG_FINAL : Z := 1.
Definition sign_uuid : list Z :=
  [176; 80; 191; 7; 136; 86; 69; 152; 134; 158; 68; 196; 220; 32; 143; 38].

Record rss_sign_key := mk_rss_sign_key {
  sk_secret : list Z; sk_public : list Z; sk_fingerprint : list Z
}.

Record rmr_sign_stream := mk_rmr_sign_stream {
  ss_key : option rss_sign_key;
  ss_hash : list Z;
  ss_prev_sig : list Z;
  ss_span_bytes : Z;
  ss_emitting : bool
}.

#[global] Instance eta_rmr_sign_stream : Settable rmr_sign_stream := fun s =>
  mk_rmr_sign_stream (ss_key s) (ss_hash s) (ss_prev_sig s) (ss_span_bytes s) (ss_emitting s).

Definition zero_sig : list Z := replicate 64 0.

Definition rmr_sign_stream_begin (key : option rss_sign_key) : rmr_sign_stream :=
  mk_rmr_sign_stream key [] zero_sig 0 false.

Definition rmr_sign_stream_update (buf : list Z) (ss : rmr_sign_stream) : rmr_sign_stream :=
  match ss_key ss with
  | None => ss
  | Some _ =>
      if ss_emitting ss || (length buf =? 0)%nat then ss
      else ss <| ss_hash := ss_hash ss ++ buf |>
              <| ss_span_bytes := u64 (ss_span_bytes ss + Z.of_nat (length buf)) |>
  end.

(** The 164 bytes of a signature box. *)
Definition sign_box (final : bool) (fingerprint span_hash sig : list Z) : list Z :=
  [0; 0; 0; 164] ++ fourcc "uuid" ++ sign_uuid ++
  [1; if final then RMR_SIGN_FLAG_FINAL else 0; 0; 0] ++ fingerprint ++ span_hash ++ sig.

(** ** The file behind the muxer *)

(** What write(2) does with the rest of a buffer: takes up to [n] bytes, is
    interrupted, or fails; once the script is over it takes everything. *)
Inductive fwrite_answer := FW_bytes (n : nat) | FW_eintr | FW_error (nospc : bool).

Record segment := mk_segment {
  sg_open : bool;
  sg_file : list Z;
  sg_writes : list fwrite_answer;
  sg_bytes_written : Z;
  sg_recording : bool;
  sg_sign_enabled : bool;
  sg_sign : rmr_sign_stream
}.

#[global] Instance eta_segment : Settable segment := fun s =>
  mk_segment (sg_open s) (sg_file s) (sg_writes s) (sg_bytes_written s) (sg_recording s)
    (sg_sign_enabled s) (sg_sign s).

Fixpoint write_all (ws : list fwrite_answer) (p : list Z) (st : segment) : bool * segment :=
  match p, ws with
  | [], _ => (true, st <| sg_writes := ws |>)
  | _, [] =>
      (true, st <| sg_writes := [] |> <| sg_file := sg_file st ++ p |>
                <| sg_bytes_written := u64 (sg_bytes_written st + Z.of_nat (length p)) |>)
  | _, FW_bytes n :: ws =>
      let k := Nat.min n (length p) in
      write_all ws (drop k p)
        (st <| sg_file := sg_file st ++ take k p |>
            <| sg_bytes_written := u64 (sg_bytes_written st + Z.of_nat k) |>)
  | _, FW_eintr :: ws => write_all ws p st
  | _, FW_error nospc :: ws =>
      (false, let st := st <| sg_writes := ws |> in
              if nospc then st <| sg_recording := false |> else st)
  end.

Definition direct_write (buf : list Z) (st : segment) : Z * segment :=
  if (length buf =? 0)%nat then (0, st) else
  if negb (sg_open st) then (-1, st) else
  match write_all (sg_writes st) buf st with
  | (false, st) => (-1, st)
  | (true, st) =>
      (0, if sg_sign_enabled st then st <| sg_sign := rmr_sign_stream_update buf (sg_sign st) |> else st)
  end.

Section crypto.
Context (sha512 : list Z -> list Z) (ed25519_sign : list Z -> list Z -> list Z).
Context (ed25519_check : list Z -> list Z -> list Z -> bool).

(** The signature box goes out through the same callback, with [emitting] set so
    that its bytes are not hashed. *)
Definition rmr_sign_stream_emit (final : bool) (st : segment) : Z * segment :=
  let ss := sg_sign st in
  match ss_key ss with
  | None => (0, st)
  | Some key =>
      if ss_span_bytes ss =? 0 then (0, st) else
      let span_hash := sha512 (ss_hash ss) in
      let sig := ed25519_sign (sk_secret key) (span_hash ++ ss_prev_sig ss) in
      let box := sign_box final (sk_fingerprint key) span_hash sig in
      let '(ret, st) := direct_write box (st <| sg_sign := ss <| ss_emitting := true |> |>) in
      (ret, st <| sg_sign := (sg_sign st) <| ss_emitting := false |> <| ss_prev_sig := sig |>
                              <| ss_hash := [] |> <| ss_span_bytes := 0 |> |>)
  end.

(** ** The verifier *)

(** The walk's variables; [wk_spans] is history, the spans checked so far. *)
Record walk := mk_walk {
  wk_prev_sig : list Z;
  wk_span_start : nat;
  wk_box_count : nat;
  wk_failures : nat;
  wk_saw_final : bool;
  wk_spans : list (list Z)
}.

Definition sub (off n : nat) (l : list Z) : list Z := take n (drop off l).

(** The size of the box at [pos], or none where the loop stops. *)
Definition box_size_at (data : list Z) (pos : nat) : option nat :=
  let len := length data in
  if (len <? pos + 8)%nat then None else
  let size := be_val (sub pos 4 data) in
  let checked (size hdr : Z) :=
    if (size <? hdr) || (Z.of_nat (len - pos) <? size) then None else Some (Z.to_nat size) in
  if size =? 1 then
    if (len <? pos + 16)%nat then None else checked (be_val (sub (pos + 8) 8 data)) 16
  else if size =? 0 then checked (Z.of_nat (len - pos)) 8
  else checked size 8.

Definition is_sign_box (data : list Z) (pos size : nat) : bool :=
  bool_decide (sub (pos + 4) 4 data = fourcc "uuid") && (size =? RMR_SIGN_BOX_SIZE)%nat &&
  (pos + RMR_SIGN_BOX_SIZE <=? length data)%nat && bool_decide (sub (pos + 8) 16 data = sign_uuid).

(** One signature box. *)
Definition check_box (pub : option (list Z)) (data : list Z) (pos size : nat) (w : walk) : walk :=
  let flags := data !!! (pos + 25)%nat in
  let stored_hash := sub (pos + 36) 64 data in
  let sig := sub (pos + 100) 64 data in
  let span := sub (wk_span_start w) (pos - wk_span_start w) data in
  let hash_ok := bool_decide (sha512 span = stored_hash) in
  let sig_ok := if pub is Some k then ed25519_check sig k (stored_hash ++ wk_prev_sig w) else true in
  mk_walk sig (pos + size) (S (wk_box_count w))
    (wk_failures w + (if wk_saw_final w then 1 else 0) + (if hash_ok && sig_ok then 0 else 1))
    (wk_saw_final w || negb (Z.land flags RMR_SIGN_FLAG_FINAL =? 0)) (wk_spans w ++ [span]).

(** [while (pos + 8 <= len)]; every round moves at least eight bytes on. *)
Fixpoint walk_loop (fuel : nat) (pub : option (list Z)) (data : list Z) (pos : nat) (w : walk) : walk :=
  match fuel with
  | O => w
  | S fuel =>
      match box_size_at data pos with
      | None => w
      | Some size =>
          walk_loop fuel pub data (pos + size)
            (if is_sign_box data pos size then check_box pub data pos size w else w)
      end
  end.

Definition walk_init : walk := mk_walk zero_sig 0 0 0 false [].

Definition walk_file (pub : option (list Z)) (data : list Z) : walk :=
  walk_loop (length data) pub data 0 walk_init.

(** Exit code and whether the report says the file was closed cleanly. *)
Definition rverify (pub : option (list Z)) (data : list Z) : Z * bool :=
  let w := walk_file pub data in
  if (wk_box_count w =? 0)%nat then (2, false) else
  let trailing := (length data - wk_span_start w)%nat in
  let failures := (wk_failures w + (if (0 <? trailing)%nat && wk_saw_final w then 1 else 0))%nat in
  if (0 <? failures)%nat then (1, false) else (0, wk_saw_final w).

End crypto.
