(* ===== verification/SignProps.v ===== *)
(** * Signed recordings: what the verifier accepts

    A signed recording verifies wherever it is cut; a file that verifies is the
    front of a recording the device made; and what the signatures leave out. *)

From stdpp Require Import list strings countable sets.
From S2P Require Import Prelude Mux Sign.

Section props.
Context (sha512 : list Z -> list Z) (ed25519_sign : list Z -> list Z -> list Z).
Context (ed25519_check : list Z -> list Z -> list Z -> bool).
Context (key : rss_sign_key).

Abbreviation sign := (ed25519_sign (sk_secret key)).
Abbreviation box_for f s p := (sign_box f (sk_fingerprint key) (sha512 s) (sign (sha512 s ++ p))).

(** ** The shape of a signed recording *)

(** Spans in order, each followed by its box. *)
Fixpoint signed_file (prev : list Z) (spans : list (list Z * bool)) : list Z :=
  match spans with
  | [] => []
  | (s, final) :: spans => s ++ box_for final s prev ++ signed_file (sign (sha512 s ++ prev)) spans
  end.

(** The lengths of the library's outputs. *)
Definition sizes_ok : Prop :=
  (forall l, length (sha512 l) = 64%nat) /\ (forall l, length (sign l) = 64%nat) /\
  length (sk_fingerprint key) = 8%nat.

(** A top-level box with a 32-bit size that is no uuid box. *)
Definition plain_box (b : list Z) : Prop :=
  (8 <= length b)%nat /\ be_val (take 4 b) = Z.of_nat (length b) /\ sub 4 4 b <> fourcc "uuid".

Definition span_ok (s : list Z) : Prop := exists bs, s = concat bs /\ Forall plain_box bs.

(** ** One step of the walk *)

Section walk.
Context (pub : option (list Z)) (data : list Z).

Abbreviation loop := (walk_loop sha512 ed25519_check).

Lemma box_size_bounds pos size : box_size_at data pos = Some size -> (8 <= size <= length data - pos)%nat.
Proof.
  unfold box_size_at. intros H. repeat case_match; try done; injection H as <-; bool_to_prop; lia.
Qed.

Lemma walk_fuel f f' pos w : (length data - pos <= f)%nat -> (length data - pos <= f')%nat ->
  loop f pub data pos w = loop f' pub data pos w.
Proof.
  revert f' pos w. induction f as [|f IH]; intros f' pos w Hf Hf'.
  - destruct f'; [done|]. cbn [walk_loop]. destruct (box_size_at data pos) as [size|] eqn:E; [|done].
    apply box_size_bounds in E. lia.
  - destruct f' as [|f']; cbn [walk_loop]; destruct (box_size_at data pos) as [size|] eqn:E; try done;
      apply box_size_bounds in E; [lia|]. apply IH; lia.
Qed.

(** The walk from [pos]. *)
Definition walk_at (pos : nat) (w : walk) : walk := loop (length data - pos) pub data pos w.

Lemma walk_step pos size w : box_size_at data pos = Some size ->
  walk_at pos w = walk_at (pos + size)
    (if is_sign_box data pos size then check_box sha512 ed25519_check pub data pos size w else w).
Proof.
  intros E. pose proof (box_size_bounds _ _ E). unfold walk_at.
  destruct (length data - pos)%nat as [|n] eqn:En; [lia|]. cbn [walk_loop]. rewrite E. apply walk_fuel; lia.
Qed.

Lemma walk_stop pos w : box_size_at data pos = None -> walk_at pos w = w.
Proof. intros E. unfold walk_at. destruct (length data - pos)%nat; [done|]. cbn [walk_loop]. by rewrite E. Qed.

(** A box whose size field is its length. *)
Definition headed (b : list Z) : Prop := (8 <= length b)%nat /\ be_val (take 4 b) = Z.of_nat (length b).

Lemma sub_drop n k pos (l : list Z) : sub (pos + n) k l = sub n k (drop pos l).
Proof. unfold sub. by rewrite drop_drop. Qed.

Lemma sub_front n k (b r : list Z) : (n + k <= length b)%nat -> sub n k (b ++ r) = sub n k b.
Proof. intros H. unfold sub. rewrite drop_app_le by lia. by rewrite take_app_le by (rewrite length_drop; lia). Qed.

Lemma box_size_headed pos b rest : headed b -> (pos <= length data)%nat -> drop pos data = b ++ rest ->
  box_size_at data pos = Some (length b).
Proof.
  intros [Hl Hs] Hp Hd. unfold box_size_at.
  assert (Hlen : (length data - pos = length b + length rest)%nat) by (by rewrite <- length_app, <- Hd, length_drop).
  rewrite (proj2 (Nat.ltb_ge _ _)) by lia.
  replace (sub pos 4 data) with (take 4 b).
  2: { unfold sub. rewrite Hd. by rewrite take_app_le by lia. }
  rewrite Hs. rewrite (proj2 (Z.eqb_neq _ 1)), (proj2 (Z.eqb_neq _ 0)) by lia.
  rewrite (proj2 (Z.ltb_ge _ _)), (proj2 (Z.ltb_ge _ _)) by lia. cbn [orb]. by rewrite Nat2Z.id.
Qed.

(** A box cut short ends the walk. *)
Lemma box_size_cut pos b n : headed b -> (pos <= length data)%nat -> (n < length b)%nat ->
  drop pos data = take n b -> box_size_at data pos = None.
Proof.
  intros [Hl Hs] Hp Hn Hd. unfold box_size_at.
  assert (Hlen : (length data - pos = n)%nat) by (rewrite <- length_drop, Hd, length_take; lia).
  destruct (Nat.ltb_spec (length data) (pos + 8)) as [|H8]; [done|].
  replace (sub pos 4 data) with (take 4 b).
  2: { unfold sub. rewrite Hd, take_take. f_equal. lia. }
  rewrite Hs. rewrite (proj2 (Z.eqb_neq _ 1)), (proj2 (Z.eqb_neq _ 0)) by lia.
  rewrite (proj2 (Z.ltb_lt (Z.of_nat (length data - pos)) _)) by lia. by rewrite orb_true_r.
Qed.

Lemma walk_plain pos b rest w : plain_box b -> (pos <= length data)%nat -> drop pos data = b ++ rest ->
  walk_at pos w = walk_at (pos + length b) w.
Proof.
  intros (Hl & Hs & Hu) Hp Hd. rewrite (walk_step pos (length b)) by (by eapply box_size_headed).
  unfold is_sign_box. rewrite sub_drop, Hd, sub_front by lia. by rewrite bool_decide_false.
Qed.

Lemma walk_plains bs pos rest w : Forall plain_box bs -> (pos <= length data)%nat ->
  drop pos data = concat bs ++ rest -> walk_at pos w = walk_at (pos + length (concat bs)) w.
Proof.
  revert pos. induction bs as [|b bs IH]; intros pos Hf Hp Hd; [by rewrite Nat.add_0_r|].
  apply Forall_cons in Hf as [Hb Hf]. cbn [concat] in *. rewrite <- app_assoc in Hd.
  rewrite (walk_plain pos b _ w Hb Hp Hd), IH.
  - f_equal. rewrite length_app. lia.
  - done.
  - assert (length (drop pos data) = length (b ++ concat bs ++ rest)) as Hx by (by rewrite Hd).
    rewrite length_drop, length_app in Hx. lia.
  - rewrite <- drop_drop, Hd. apply drop_app_length.
Qed.

(** A span cut short before its box, or inside it, ends the walk as it was. *)
Lemma walk_plains_cut bs b pos n w : Forall plain_box bs -> headed b -> (pos <= length data)%nat ->
  (n < length (concat bs) + length b)%nat -> drop pos data = take n (concat bs ++ b) -> walk_at pos w = w.
Proof.
  revert pos n. induction bs as [|c bs IH]; intros pos n Hf Hb Hp Hn Hd; cbn [concat] in *.
  - apply walk_stop. eapply box_size_cut; done.
  - apply Forall_cons in Hf as [(Hc1 & Hc2 & Hc3) Hf]. rewrite <- app_assoc in Hd.
    rewrite length_app in Hn. destruct (Nat.lt_ge_cases n (length c)) as [Hlt|Hge].
    + apply walk_stop. apply (box_size_cut pos c n); [done|done|done|]. by rewrite take_app_le in Hd by lia.
    + rewrite take_app_ge in Hd by lia. rewrite (walk_plain pos c (take (n - length c) (concat bs ++ b)) w); [|done|done|exact Hd].
      apply (IH _ (n - length c)%nat); [done|done| |lia|].
      * assert (length (drop pos data) = length (c ++ take (n - length c) (concat bs ++ b))) as Hx by (by rewrite Hd).
        rewrite length_drop, length_app in Hx. lia.
      * rewrite <- drop_drop, Hd. apply drop_app_length.
Qed.

(** ** One signed span *)

Lemma sign_box_length f fp h g : length fp = 8%nat -> length h = 64%nat -> length g = 64%nat ->
  length (sign_box f fp h g) = RMR_SIGN_BOX_SIZE.
Proof. intros H1 H2 H3. unfold sign_box. rewrite !length_app, H1, H2, H3. reflexivity. Qed.

Lemma sign_box_front f fp h g :
  be_val (take 4 (sign_box f fp h g)) = 164 /\ sub 4 4 (sign_box f fp h g) = fourcc "uuid" /\
  sub 8 16 (sign_box f fp h g) = sign_uuid /\
  sign_box f fp h g !!! 25%nat = (if f then RMR_SIGN_FLAG_FINAL else 0).
Proof. by repeat split. Qed.

Lemma sub_mid n k (a b c : list Z) : length a = n -> length b = k -> sub n k (a ++ b ++ c) = b.
Proof. intros <- <-. unfold sub. by rewrite drop_app_length, take_app_length. Qed.

Lemma sign_box_back f fp h g : length fp = 8%nat -> length h = 64%nat -> length g = 64%nat ->
  sub 36 64 (sign_box f fp h g) = h /\ sub 100 64 (sign_box f fp h g) = g.
Proof.
  intros H1 H2 H3. unfold sign_box.
  set (a := [0; 0; 0; 164] ++ fourcc "uuid" ++ sign_uuid ++ [1; if f then RMR_SIGN_FLAG_FINAL else 0; 0; 0]).
  assert (Ha : length a = 28%nat) by done.
  replace ([0; 0; 0; 164] ++ _) with ((a ++ fp) ++ h ++ g) by (unfold a; by rewrite <- !app_assoc).
  assert (Hf : length (a ++ fp) = 36%nat) by (rewrite length_app; lia). split; [by apply sub_mid|].
  rewrite app_assoc, <- (app_nil_r g) at 1. rewrite <- app_assoc. rewrite (app_assoc _ h).
  apply sub_mid; [rewrite length_app; lia|done].
Qed.

Lemma sign_box_headed f s prev : sizes_ok -> headed (box_for f s prev).
Proof.
  intros (H1 & H2 & H3). split.
  - rewrite sign_box_length by auto. unfold RMR_SIGN_BOX_SIZE. lia.
  - rewrite sign_box_length by auto. apply sign_box_front.
Qed.

(** The walk over a span and its box, on a verifier that accepts what the key
    signed. *)
Lemma walk_group f s prev rest pos w :
  sizes_ok -> (forall m, if pub is Some k then ed25519_check (sign m) k m = true else True) -> span_ok s ->
  (pos <= length data)%nat -> drop pos data = s ++ box_for f s prev ++ rest ->
  wk_span_start w = pos -> wk_prev_sig w = prev -> wk_saw_final w = false ->
  walk_at pos w = walk_at (pos + (length s + RMR_SIGN_BOX_SIZE))
    (mk_walk (sign (sha512 s ++ prev)) (pos + (length s + RMR_SIGN_BOX_SIZE)) (S (wk_box_count w))
       (wk_failures w) f (wk_spans w ++ [s])).
Proof.
  intros Hsz Hck (bs & -> & Hbs) Hp Hd Hss Hps Hfin. pose proof Hsz as (L1 & L2 & L3).
  rewrite (walk_plains bs pos _ w Hbs Hp Hd). set (s := concat bs) in *.
  assert (Hd' : drop (pos + length s) data = box_for f s prev ++ rest) by (by rewrite <- drop_drop, Hd, drop_app_length).
  assert (Hlen : (length data - pos = length s + (RMR_SIGN_BOX_SIZE + length rest))%nat).
  { rewrite <- length_drop, Hd, !length_app, sign_box_length by auto. done. }
  pose proof (sign_box_headed f s prev Hsz) as Hh.
  assert (Hp' : (pos + length s <= length data)%nat) by lia.
  rewrite (walk_step _ _ _ (box_size_headed _ _ _ Hh Hp' Hd')).
  assert (Hb : is_sign_box data (pos + length s) (length (box_for f s prev)) = true).
  { unfold is_sign_box. pose proof (sign_box_front f (sk_fingerprint key) (sha512 s) (sign (sha512 s ++ prev))) as (_ & Hu & Hv & _).
    rewrite sign_box_length by auto. rewrite !(sub_drop _ _ (pos + length s)), Hd', !sub_front, Hu, Hv
      by (rewrite sign_box_length by auto; unfold RMR_SIGN_BOX_SIZE; lia).
    rewrite !bool_decide_true by done. cbn [andb]. rewrite Nat.eqb_refl. cbn [andb]. rewrite andb_true_r.
    apply Nat.leb_le. lia. }
  rewrite Hb, sign_box_length by auto. rewrite Nat.add_assoc. f_equal. unfold check_box.
  destruct (sign_box_back f (sk_fingerprint key) (sha512 s) (sign (sha512 s ++ prev))) as [Hh1 Hh2]; [auto..|].
  rewrite !(sub_drop _ _ (pos + length s)), Hd', !sub_front, Hh1, Hh2
    by (rewrite sign_box_length by auto; unfold RMR_SIGN_BOX_SIZE; lia).
  rewrite Hss, Hps, Hfin. replace (pos + length s - pos)%nat with (length s) by lia.
  assert (Hspan : sub pos (length s) data = s) by (unfold sub; by rewrite Hd, take_app_length).
  rewrite Hspan, bool_decide_true by done. cbn [andb orb].
  assert (Hc : (if pub is Some k then ed25519_check (sign (sha512 s ++ prev)) k (sha512 s ++ prev) else true) = true)
    by (specialize (Hck (sha512 s ++ prev)); by destruct pub).
  rewrite Hc, !Nat.add_0_r. f_equal.
  rewrite list_lookup_total_alt, <- lookup_drop, Hd'.
  rewrite lookup_app_l by (rewrite sign_box_length by auto; unfold RMR_SIGN_BOX_SIZE; lia).
  rewrite <- list_lookup_total_alt. destruct (sign_box_front f (sk_fingerprint key) (sha512 s) (sign (sha512 s ++ prev))) as (_ & _ & _ & ->).
  by destruct f.
Qed.

(** ** A recording cut anywhere *)

(** How many spans of a recording have their whole box among the first [n] bytes. *)
Fixpoint complete (n : nat) (spans : list (list Z * bool)) : nat :=
  match spans with
  | [] => 0
  | (s, _) :: spans =>
      if (n <? length s + RMR_SIGN_BOX_SIZE)%nat then 0
      else S (complete (n - (length s + RMR_SIGN_BOX_SIZE)) spans)
  end.

(** Only the last box is marked final. *)
Fixpoint finals_last (spans : list (list Z * bool)) : Prop :=
  match spans with
  | [] => True
  | (_, f) :: spans => (spans <> [] -> f = false) /\ finals_last spans
  end.

Definition signed_bytes (spans : list (list Z * bool)) : nat :=
  foldr (fun s n => (length (fst s) + RMR_SIGN_BOX_SIZE + n)%nat) 0%nat spans.

(** The mark of the last complete box. *)
Definition closed_at (spans : list (list Z * bool)) : bool := default false (snd <$> last spans).

Lemma walk_cut spans : forall prev pos w n,
  sizes_ok -> (forall m, if pub is Some k then ed25519_check (sign m) k m = true else True) ->
  Forall (fun x => span_ok (fst x)) spans -> finals_last spans ->
  (pos <= length data)%nat -> drop pos data = take n (signed_file prev spans) ->
  wk_span_start w = pos -> wk_prev_sig w = prev -> wk_saw_final w = false ->
  let w' := walk_at pos w in
  let done := take (complete n spans) spans in
  wk_span_start w' = (pos + signed_bytes done)%nat /\
  wk_box_count w' = (wk_box_count w + complete n spans)%nat /\ wk_failures w' = wk_failures w /\
  wk_saw_final w' = closed_at done /\ wk_spans w' = wk_spans w ++ (fst <$> done).
Proof.
  induction spans as [|[s f] spans IH]; intros prev pos w n Hsz Hck Hok Hfin Hp Hd Hss Hps Hf; cbn zeta.
  - cbn [signed_file] in Hd. rewrite take_nil in Hd. rewrite walk_stop.
    { cbn. rewrite !Nat.add_0_r, app_nil_r. by rewrite Hf. }
    unfold box_size_at. apply (f_equal length) in Hd. rewrite length_drop in Hd. cbn in Hd.
    by rewrite (proj2 (Nat.ltb_lt _ _)) by lia.
  - apply Forall_cons in Hok as [Hs Hok]. cbn [fst] in Hs. cbn [signed_file] in Hd. cbn [complete].
    pose proof Hsz as (L1 & L2 & L3).
    assert (Hbl : length (s ++ box_for f s prev) = (length s + RMR_SIGN_BOX_SIZE)%nat)
      by (rewrite length_app, sign_box_length by auto; done).
    rewrite app_assoc in Hd. destruct (Nat.ltb_spec n (length s + RMR_SIGN_BOX_SIZE)) as [Hlt|Hge].
    + rewrite take_app_le in Hd by lia. destruct Hs as (bs & -> & Hbs).
      rewrite (walk_plains_cut bs _ pos n w Hbs (sign_box_headed f (concat bs) prev Hsz) Hp);
        [|rewrite sign_box_length by auto; lia|exact Hd].
      cbn. rewrite !Nat.add_0_r, app_nil_r. by rewrite Hf.
    + rewrite take_app_ge in Hd by lia. rewrite Hbl, <- app_assoc in Hd.
      rewrite (walk_group f s prev _ pos w Hsz Hck Hs Hp Hd Hss Hps Hf).
      assert (Hp' : (pos + (length s + RMR_SIGN_BOX_SIZE) <= length data)%nat).
      { apply (f_equal length) in Hd. rewrite length_drop, app_assoc, length_app, Hbl in Hd.
        unfold RMR_SIGN_BOX_SIZE in *. lia. }
      destruct Hfin as [Hf1 Hfin]. set (m := (n - (length s + RMR_SIGN_BOX_SIZE))%nat) in *.
      assert (Hd' : drop (pos + (length s + RMR_SIGN_BOX_SIZE)) data = take m (signed_file (sign (sha512 s ++ prev)) spans)).
      { rewrite <- drop_drop, Hd, app_assoc, <- Hbl. apply drop_app_length. }
      destruct (decide (spans = [])) as [->|Hne].
      * cbn [signed_file] in Hd'. rewrite take_nil in Hd'. rewrite walk_stop.
        { cbn. rewrite !Nat.add_0_r. split_and!; try done; lia. }
        unfold box_size_at. apply (f_equal length) in Hd'. rewrite length_drop in Hd'. cbn in Hd'.
        by rewrite (proj2 (Nat.ltb_lt _ _)) by lia.
      * destruct (IH (sign (sha512 s ++ prev)) _
          (mk_walk (sign (sha512 s ++ prev)) (pos + (length s + RMR_SIGN_BOX_SIZE)) (S (wk_box_count w))
             (wk_failures w) f (wk_spans w ++ [s])) m Hsz Hck Hok Hfin Hp' Hd' eq_refl eq_refl (Hf1 Hne))
          as (I1 & I2 & I3 & I4 & I5).
        rewrite I1, I2, I3, I4, I5. cbn [wk_box_count wk_failures wk_spans take signed_bytes foldr fst fmap list_fmap].
        split_and!; [unfold signed_bytes; lia|lia|done| |by rewrite <- app_assoc].
        unfold closed_at. destruct (take (complete m spans) spans) as [|y l] eqn:El; [by rewrite (Hf1 Hne)|].
        by rewrite (last_cons_cons (s, f) y l).
Qed.

End walk.

Lemma signed_file_length prev spans : sizes_ok -> length (signed_file prev spans) = signed_bytes spans.
Proof.
  intros (L1 & L2 & L3). revert prev. induction spans as [|[s f] spans IH]; intros prev; [done|].
  cbn [signed_file signed_bytes foldr fst]. rewrite !length_app, sign_box_length, IH by auto. unfold signed_bytes. lia.
Qed.

Lemma complete_le n spans : (complete n spans <= length spans)%nat.
Proof.
  revert n. induction spans as [|[s f] spans IH]; intros n; cbn [complete length]; [lia|].
  case_match; [lia|]. specialize (IH (n - (length s + RMR_SIGN_BOX_SIZE))%nat). lia.
Qed.

Lemma closed_at_all spans k : finals_last spans -> (k < length spans)%nat -> closed_at (take k spans) = false.
Proof.
  revert k. induction spans as [|[s f] spans IH]; intros [|k] Hf Hk; try done. cbn [take]. cbn [length] in Hk.
  destruct Hf as [Hf1 Hf]. assert (spans <> []) as Hne by (intros ->; cbn in Hk; lia).
  specialize (IH k Hf ltac:(lia)). unfold closed_at in *. destruct (take k spans) eqn:E; [by cbn; rewrite Hf1|].
  rewrite last_cons_cons. exact IH.
Qed.

Lemma rverify_cut pub spans n :
  sizes_ok -> (forall m, if pub is Some k then ed25519_check (sign m) k m = true else True) ->
  Forall (fun x => span_ok (fst x)) spans -> finals_last spans ->
  rverify sha512 ed25519_check pub (take n (signed_file zero_sig spans)) =
    if (complete n spans =? 0)%nat then (2, false) else (0, closed_at (take (complete n spans) spans)).
Proof.
  intros Hsz Hck Hok Hfin. set (data := take n (signed_file zero_sig spans)).
  destruct (walk_cut pub data spans zero_sig 0 walk_init n Hsz Hck Hok Hfin) as (W1 & W2 & W3 & W4 & _);
    [lia|done|done|done|done|].
  unfold rverify, walk_file. replace (length data) with (length data - 0)%nat by lia.
  change (walk_loop sha512 ed25519_check (length data - 0) pub data 0 walk_init) with (walk_at pub data 0 walk_init).
  rewrite W1, W2, W3, W4. cbn [wk_box_count wk_failures walk_init]. rewrite !Nat.add_0_l.
  destruct (Nat.eqb_spec (complete n spans) 0) as [_|Hk]; [done|].
  pose proof (complete_le n spans) as Hle. destruct (Nat.lt_ge_cases (complete n spans) (length spans)) as [Hlt|Hge].
  - rewrite (closed_at_all _ _ Hfin Hlt), andb_false_r. done.
  - rewrite take_ge by lia.
    assert (length data <= signed_bytes spans)%nat as Hd.
    { unfold data. rewrite length_take, signed_file_length by done. lia. }
    replace (length data - 0 - signed_bytes spans)%nat with 0%nat by lia. done.
Qed.

(** ** Chains *)

(** The messages signed for a sequence of spans. *)
Fixpoint chain (prev : list Z) (spans : list (list Z)) : list (list Z) :=
  match spans with
  | [] => []
  | s :: spans => let m := sha512 s ++ prev in m :: chain (sign m) spans
  end.

Definition last_sig (prev : list Z) (spans : list (list Z)) : list Z :=
  default prev (sign <$> last (chain prev spans)).

Lemma last_sig_cons prev s spans : last_sig prev (s :: spans) = last_sig (sign (sha512 s ++ prev)) spans.
Proof.
  unfold last_sig. cbn [chain]. destruct (chain (sign (sha512 s ++ prev)) spans) as [|y l]; [done|].
  rewrite last_cons_cons. destruct (last (y :: l)) eqn:E; [done|]. by apply last_None in E.
Qed.

Lemma chain_snoc prev spans s : chain prev (spans ++ [s]) = chain prev spans ++ [sha512 s ++ last_sig prev spans].
Proof.
  revert prev. induction spans as [|x spans IH]; intros prev; [done|]. cbn [app chain]. rewrite IH. cbn [app].
  by rewrite last_sig_cons.
Qed.

Lemma chain_lookup prev spans i m : chain prev spans !! i = Some m ->
  exists s, spans !! i = Some s /\
    m = sha512 s ++ match i with O => prev | S j => default prev (sign <$> chain prev spans !! j) end.
Proof.
  revert prev i. induction spans as [|x spans IH]; intros prev i H; [by destruct i|].
  destruct i as [|i]; cbn [chain lookup list_lookup] in *.
  - injection H as <-. by exists x.
  - destruct (IH _ _ H) as (s & Hs & ->). exists s. split; [exact Hs|]. f_equal. destruct i as [|i]; [done|].
    destruct (lookup_lt_is_Some_2 (chain (sign (sha512 x ++ prev)) spans) i) as [m' Hm'].
    { apply lookup_lt_Some in H. lia. }
    rewrite Hm'. symmetry. by rewrite (Hm' : (_ :: chain _ _) !! S i = Some m').
Qed.

Lemma chain_length prev spans : length (chain prev spans) = length spans.
Proof. revert prev. induction spans; intros; cbn [chain length]; [done|]. by rewrite IHspans. Qed.

(** ** What an accepted file is *)

Section sound.
Context (pub : list Z).
(** The spans of the recordings the device has made, file by file. *)
Context (history : list (list (list Z))).

Definition signed_msg (m : list Z) : Prop := exists recording, recording ∈ history /\ m ∈ chain zero_sig recording.

(** What Ed25519 promises: the device's signatures check, nobody else makes one
    that does, and they tell messages apart. *)
Record unforgeable : Prop := {
  uf_check : forall sig m, ed25519_check sig pub m = true -> sig = sign m /\ signed_msg m;
  uf_inj : forall m m', signed_msg m -> signed_msg m' -> sign m = sign m' -> m = m';
  uf_nonzero : forall m, signed_msg m -> sign m <> zero_sig
}.

(** No span of the file collides with a recorded one. *)
Definition no_collision (spans : list (list Z)) : Prop := forall a b recording,
  a ∈ spans -> recording ∈ history -> b ∈ recording -> sha512 a = sha512 b -> a = b.

Lemma chain_origin spans s recording i :
  sizes_ok -> unforgeable -> no_collision (spans ++ [s]) -> Forall signed_msg (chain zero_sig (spans ++ [s])) ->
  recording ∈ history -> chain zero_sig recording !! i = last (chain zero_sig (spans ++ [s])) ->
  i = length spans /\ take (S i) recording = spans ++ [s].
Proof.
  intros Hsz Huf. revert s i. induction spans as [|x spans IH] using rev_ind; intros s i Hnc Hall Hrec Hi.
  - cbn [app chain last] in Hi. destruct (chain_lookup _ _ _ _ Hi) as (b & Hb & Hm).
    apply app_inj_1 in Hm as [Hh Hp]; [|by rewrite !(proj1 Hsz)].
    assert (s = b) as -> by (eapply Hnc; [set_solver|done|by eapply list_elem_of_lookup_2|done]).
    destruct i as [|i]; [split; [done|]|].
    + destruct recording as [|y r]; [done|]. by injection Hb as ->.
    + exfalso. destruct (lookup_lt_is_Some_2 (chain zero_sig recording) i) as [m Hm'].
      { apply lookup_lt_Some in Hi. lia. }
      rewrite Hm' in Hp. eapply (uf_nonzero Huf m); [|by symmetry].
      exists recording. split; [done|]. by eapply list_elem_of_lookup_2.
  - rewrite chain_snoc, last_snoc in Hi. destruct (chain_lookup _ _ _ _ Hi) as (b & Hb & Hm).
    apply app_inj_1 in Hm as [Hh Hp]; [|by rewrite !(proj1 Hsz)].
    assert (s = b) as -> by (eapply Hnc; [apply elem_of_app; right; set_solver|done|by eapply list_elem_of_lookup_2|done]).
    rewrite chain_snoc in Hall. apply Forall_app in Hall as [Hall _].
    unfold last_sig in Hp. rewrite chain_snoc, last_snoc in Hp. cbn [fmap option_fmap option_map default] in Hp.
    assert (Hlast : signed_msg (sha512 x ++ last_sig zero_sig spans)).
    { rewrite chain_snoc in Hall. apply Forall_app in Hall as [_ Hx]. by apply Forall_cons in Hx as [? _]. }
    destruct i as [|i]; [exfalso; by eapply (uf_nonzero Huf)|].
    destruct (lookup_lt_is_Some_2 (chain zero_sig recording) i) as [m Hm'].
    { apply lookup_lt_Some in Hi. lia. }
    rewrite Hm' in Hp. cbn [fmap option_fmap option_map default] in Hp.
    assert (Hmm : sha512 x ++ last_sig zero_sig spans = m).
    { apply (uf_inj Huf); [done| |done]. exists recording. split; [done|]. by eapply list_elem_of_lookup_2. }
    destruct (IH x i) as [-> Ht]; [|done|done| |].
    + intros a b' r Ha. apply Hnc. set_solver.
    + rewrite Hm', chain_snoc, last_snoc. by rewrite Hmm.
    + split; [rewrite length_app; cbn; lia|]. by rewrite (take_S_r _ _ _ Hb), Ht.
Qed.

(** Spans in order, each followed by 36 bytes of any content (size, type, uuid,
    version, flags, reserved bytes and fingerprint), its hash and its signature. *)
Inductive signed_shape : list Z -> list (list Z) -> list Z -> Prop :=
| shape_nil prev : signed_shape prev [] []
| shape_cons prev s head spans l : length head = 36%nat ->
    signed_shape (sign (sha512 s ++ prev)) spans l ->
    signed_shape prev (s :: spans) (s ++ head ++ sha512 s ++ sign (sha512 s ++ prev) ++ l).

Lemma shape_snoc prev spans l s head : length head = 36%nat -> signed_shape prev spans l ->
  signed_shape prev (spans ++ [s])
    (l ++ s ++ head ++ sha512 s ++ sign (sha512 s ++ last_sig prev spans)).
Proof.
  intros Hh H. induction H as [prev|prev x hd spans l Hhd H IH].
  - cbn [app]. rewrite <- (app_nil_r (sign _)). by apply shape_cons; [|constructor].
  - rewrite last_sig_cons. cbn [app]. rewrite <- !app_assoc. by apply shape_cons.
Qed.

Lemma take_sub a b (l : list Z) : take (a + b) l = take a l ++ sub a b l.
Proof.
  unfold sub. rewrite <- (take_drop a l) at 1. destruct (Nat.le_gt_cases a (length l)) as [Hl|Hl].
  - rewrite take_app_ge by (rewrite length_take; lia). do 2 f_equal. rewrite length_take. lia.
  - by rewrite drop_ge, app_nil_r, take_take, take_nil, app_nil_r, !take_ge by lia.
Qed.

Section walk_sound.
Context (data : list Z).

Record sound_at (pos : nat) (w : walk) : Prop := {
  sa_start : (wk_span_start w <= pos <= length data)%nat;
  sa_count : length (wk_spans w) = wk_box_count w;
  sa_shape : wk_failures w = 0%nat ->
    signed_shape zero_sig (wk_spans w) (take (wk_span_start w) data) /\
    wk_prev_sig w = last_sig zero_sig (wk_spans w) /\ Forall signed_msg (chain zero_sig (wk_spans w))
}.

Lemma check_box_sound pos size w : unforgeable -> box_size_at data pos = Some size ->
  is_sign_box data pos size = true -> sound_at pos w ->
  sound_at (pos + size) (check_box sha512 ed25519_check (Some pub) data pos size w).
Proof.
  intros Huf Hsize Hb [Hst Hcnt Hsh]. unfold is_sign_box in Hb.
  apply andb_true_iff in Hb as [Hb _]. apply andb_true_iff in Hb as [Hb Hlen]. apply andb_true_iff in Hb as [_ Hsz].
  apply Nat.eqb_eq in Hsz as ->. apply Nat.leb_le in Hlen. unfold check_box.
  set (span := sub (wk_span_start w) (pos - wk_span_start w) data).
  set (h := sub (pos + 36) 64 data). set (g := sub (pos + 100) 64 data).
  split; cbn [wk_span_start wk_spans wk_box_count wk_failures wk_prev_sig]; [lia|rewrite length_app; cbn; lia|].
  intros Hf. destruct (bool_decide (sha512 span = h)) eqn:Eh; [|cbn in Hf; lia].
  destruct (ed25519_check g pub (h ++ wk_prev_sig w)) eqn:Ec; [|cbn in Hf; lia].
  apply bool_decide_eq_true in Eh. destruct Hsh as (Hs1 & Hs2 & Hs3); [lia|].
  destruct (uf_check Huf _ _ Ec) as [Hg Hm]. rewrite Hs2, <- Eh in Hg, Hm.
  split_and!.
  - pose proof (shape_snoc zero_sig _ _ span (sub pos 36 data) ltac:(unfold sub; rewrite length_take, length_drop; unfold RMR_SIGN_BOX_SIZE in *; lia) Hs1) as Hx.
    rewrite <- Hg in Hx. rewrite Eh in Hx. unfold h, g, span in Hx |- *.
    replace (pos + RMR_SIGN_BOX_SIZE)%nat with (wk_span_start w + (pos - wk_span_start w) + 36 + 64 + 64)%nat
      by (unfold RMR_SIGN_BOX_SIZE; lia).
    rewrite !take_sub, <- !app_assoc. replace (wk_span_start w + (pos - wk_span_start w))%nat with pos by lia.
    replace (pos + 36 + 64)%nat with (pos + 100)%nat by lia. exact Hx.
  - unfold last_sig. rewrite chain_snoc, last_snoc. exact Hg.
  - rewrite chain_snoc. apply Forall_app_2; [done|]. by constructor.
Qed.

Lemma walk_loop_sound fuel pos w : unforgeable -> sound_at pos w ->
  exists pos', sound_at pos' (walk_loop sha512 ed25519_check fuel (Some pub) data pos w).
Proof.
  intros Huf. revert pos w. induction fuel as [|fuel IH]; intros pos w H; cbn [walk_loop]; [by exists pos|].
  destruct (box_size_at data pos) as [size|] eqn:E; [|by exists pos]. apply IH.
  destruct (is_sign_box data pos size) eqn:Eb; [by apply check_box_sound|].
  pose proof (box_size_bounds data pos size E). destruct H as [? ? ?]. split; [lia|done|done].
Qed.

End walk_sound.

Lemma rverify_sound data c :
  sizes_ok -> unforgeable -> no_collision (wk_spans (walk_file sha512 ed25519_check (Some pub) data)) ->
  rverify sha512 ed25519_check (Some pub) data = (0, c) ->
  exists recording k l rest, recording ∈ history /\ (0 < k <= length recording)%nat /\
    data = l ++ rest /\ signed_shape zero_sig (take k recording) l /\ (c = true -> rest = []).
Proof.
  intros Hsz Huf Hnc Hv. unfold rverify in Hv. set (w := walk_file _ _ _ data) in *.
  destruct (walk_loop_sound data (length data) 0 walk_init Huf) as (pos & [Hst Hcnt Hsh]).
  { split; cbn; [lia|done|]. intros _. split; [constructor|]. by split. }
  fold (walk_file sha512 ed25519_check (Some pub) data) in Hst, Hcnt, Hsh. fold w in Hst, Hcnt, Hsh.
  destruct (Nat.eqb_spec (wk_box_count w) 0) as [|Hne]; [done|].
  destruct (_ <? _)%nat eqn:Ef; [done|]. apply Nat.ltb_ge in Ef. injection Hv as <-.
  destruct Hsh as (Hs1 & Hs2 & Hs3); [lia|].
  destruct (exists_last (l := wk_spans w)) as (spans & s & Hspans); [intros E; rewrite E in Hcnt; cbn in Hcnt; lia|].
  rewrite Hspans in Hs1, Hs3, Hnc.
  assert (Hm : signed_msg (sha512 s ++ last_sig zero_sig spans)).
  { rewrite chain_snoc in Hs3. apply Forall_app in Hs3 as [_ Hx]. by apply Forall_cons in Hx as [? _]. }
  destruct Hm as (recording & Hrec & Hin). apply list_elem_of_lookup in Hin as [i Hi].
  destruct (chain_origin spans s recording i Hsz Huf Hnc Hs3 Hrec) as [-> Ht].
  { by rewrite chain_snoc, last_snoc. }
  pose proof (lookup_lt_Some _ _ _ Hi) as Hlt. rewrite chain_length in Hlt.
  exists recording, (S (length spans)), (take (wk_span_start w) data), (drop (wk_span_start w) data).
  split_and!; [done|lia|lia|by rewrite take_drop|by rewrite Ht|]. intros Hfin. rewrite Hfin, andb_true_r in Ef.
  destruct (Nat.ltb_spec 0 (length data - wk_span_start w)); [lia|]. apply drop_ge. lia.
Qed.

End sound.

(** ** What the signatures leave out *)

Lemma signed_file_snoc prev spans s f :
  signed_file prev (spans ++ [(s, f)]) =
    signed_file prev spans ++ s ++ box_for f s (last_sig prev (fst <$> spans)).
Proof.
  revert prev. induction spans as [|[x h] spans IH]; intros prev; cbn [app signed_file fmap list_fmap fst].
  - by rewrite app_nil_r.
  - rewrite IH, last_sig_cons. by rewrite <- !app_assoc.
Qed.

Lemma signed_file_prefix prev a b : sizes_ok ->
  take (signed_bytes a) (signed_file prev (a ++ b)) = signed_file prev a.
Proof.
  intros Hsz. revert prev. induction a as [|[x f] a IH]; intros prev; [done|].
  cbn [app signed_file signed_bytes foldr fst]. destruct Hsz as (L1 & L2 & L3).
  rewrite !app_assoc. rewrite take_app_ge.
  - rewrite length_app, sign_box_length by auto. f_equal. rewrite <- (IH (sign (sha512 x ++ prev))). f_equal.
    fold (signed_bytes a). lia.
  - rewrite length_app, sign_box_length by auto. lia.
Qed.

Lemma finals_last_set spans s f : finals_last (spans ++ [(s, f)]) -> finals_last (spans ++ [(s, true)]).
Proof.
  induction spans as [|[x g] spans IH]; cbn [app finals_last]; [by intros _; split|].
  intros [H1 H2]. split; [|by apply IH]. intros _. apply H1. by destruct spans.
Qed.

Lemma finals_last_take spans k : finals_last spans -> finals_last (take k spans).
Proof.
  revert k. induction spans as [|[x g] spans IH]; intros [|k] H; cbn [take finals_last] in *; [done..|].
  destruct H as [H1 H2]. split; [|by apply IH]. intros Hne. apply H1. intros ->. by rewrite take_nil in Hne.
Qed.

Lemma complete_all spans n : (signed_bytes spans <= n)%nat -> complete n spans = length spans.
Proof.
  revert n. induction spans as [|[s f] spans IH]; intros n H; cbn [complete length signed_bytes foldr fst] in *; [done|].
  fold (signed_bytes spans) in H. rewrite (proj2 (Nat.ltb_ge _ _)) by lia. f_equal. apply IH. lia.
Qed.

Lemma forged_final pub spans k :
  sizes_ok -> (forall m, ed25519_check (sign m) pub m = true) ->
  Forall (fun x => span_ok (fst x)) spans -> finals_last spans -> (0 < k <= length spans)%nat ->
  let n := signed_bytes (take k spans) in
  rverify sha512 ed25519_check (Some pub) (<[(n - 139)%nat := 1]> (take n (signed_file zero_sig spans))) = (0, true).
Proof.
  intros Hsz Hck Hok Hfin Hk n. unfold n. rewrite <- (take_drop k spans) at 3. rewrite signed_file_prefix by done.
  assert (Hok' : Forall (fun x => span_ok (fst x)) (take k spans)) by (by apply Forall_take).
  assert (Hfin' : finals_last (take k spans)) by (by apply finals_last_take).
  assert (Hne : take k spans <> []) by (intros E; apply (f_equal length) in E; rewrite length_take in E; cbn in E; lia).
  destruct (exists_last Hne) as (l & [s f] & El). rewrite El in *.
  pose proof (signed_file_snoc zero_sig l s) as H1. set (p := last_sig zero_sig (fst <$> l)) in H1.
  pose proof Hsz as (L1 & L2 & L3).
  assert (Hn : (signed_bytes (l ++ [(s, f)]) - 139 = length (signed_file zero_sig l ++ s) + 25)%nat).
  { rewrite <- (signed_file_length zero_sig) by done. rewrite H1, !length_app, sign_box_length by auto.
    unfold RMR_SIGN_BOX_SIZE. lia. }
  rewrite Hn, H1, app_assoc, insert_app_r.
  replace (<[25%nat := 1]> (box_for f s p)) with (box_for true s p) by (by destruct f).
  rewrite <- app_assoc, <- H1.
  rewrite <- (take_ge (signed_file zero_sig (l ++ [(s, true)])) (signed_bytes (l ++ [(s, true)])))
    by (by rewrite signed_file_length).
  rewrite rverify_cut; [|done|intros m; apply Hck| |by eapply finals_last_set].
  - rewrite complete_all by done. rewrite length_app. cbn [length]. rewrite Nat.add_1_r. cbn [Nat.eqb].
    rewrite take_ge by (rewrite length_app; cbn; lia). unfold closed_at. by rewrite last_snoc.
  - apply Forall_app in Hok' as [Ha Hb]. apply Forall_app. split; [done|]. apply Forall_cons in Hb as [Hb _].
    by constructor.
Qed.

End props.

(** ** The claims *)

(** C11: An accepted file is a recording of the device, from its start.  Under the
    promises of Ed25519 (nobody but the device makes a signature that checks,
    signatures tell messages apart) and without a SHA-512 collision between the
    file and what the device recorded: when rverify, given the public key, exits
    with 0, the file begins with the first [k] spans of one recording the device
    made, in order, none changed, dropped, inserted or taken from another file,
    each with its own hash and signature; only the 36 bytes of box header before
    each hash are not fixed.  A file reported as closed has nothing after them. *)
Theorem rverify_tamper_evident sha512 ed25519_sign ed25519_check key pub history data c :
  sizes_ok sha512 ed25519_sign key -> unforgeable sha512 ed25519_sign ed25519_check key pub history ->
  no_collision sha512 history (wk_spans (walk_file sha512 ed25519_check (Some pub) data)) ->
  rverify sha512 ed25519_check (Some pub) data = (0, c) ->
  exists recording k l rest, recording ∈ history /\ (0 < k <= length recording)%nat /\
    data = l ++ rest /\ signed_shape sha512 ed25519_sign key zero_sig (take k recording) l /\
    (c = true -> rest = []).
Proof. apply rverify_sound. Qed.

(** A toy signature scheme: injective codes, checked against the history. *)
Module SignDemo.
Definition sha512 (l : list Z) : list Z := Z.pos (encode l) :: replicate 63 0.
Definition sign (_ m : list Z) : list Z := Z.pos (encode m) :: replicate 63 1.
Definition key : rss_sign_key := mk_rss_sign_key [7] [9] [1; 2; 3; 4; 5; 6; 7; 8].
Definition box (cc : string) (n : nat) : list Z := [0; 0; 0; Z.of_nat (8 + n)] ++ fourcc cc ++ replicate n 5.
Definition spans : list (list Z * bool) :=
  [(box "ftyp" 2 ++ box "moov" 3, false); (box "moof" 1 ++ box "mdat" 4, false); (box "mfra" 0, true)].
Definition history : list (list (list Z)) := [fst <$> spans].
Definition check (sig pub m : list Z) : bool :=
  bool_decide (sig = sign [7] m) && bool_decide (m ∈ chain sha512 sign key zero_sig (fst <$> spans)).
Definition file : list Z := signed_file sha512 sign key zero_sig spans.

Lemma sizes : sizes_ok sha512 sign key.
Proof. by repeat split. Qed.

Lemma sha512_inj a b : sha512 a = sha512 b -> a = b.
Proof. intros [= H]. by apply (inj encode). Qed.

Lemma sign_inj k a b : sign k a = sign k b -> a = b.
Proof. intros [= H]. by apply (inj encode). Qed.

Lemma unforged : unforgeable sha512 sign check key [9] history.
Proof.
  split.
  - intros sig m H. unfold check in H. apply andb_true_iff in H as [H1 H2].
    apply bool_decide_eq_true in H1, H2. split; [done|]. exists (fst <$> spans). split; [by left|done].
  - intros m m' _ _ H. by eapply sign_inj.
  - intros m _ [= H].
Qed.
End SignDemo.

Lemma rverify_tamper_evident_witness : exists recording k l rest,
  recording ∈ SignDemo.history /\ (0 < k <= length recording)%nat /\ SignDemo.file = l ++ rest /\
  signed_shape SignDemo.sha512 SignDemo.sign SignDemo.key zero_sig (take k recording) l /\ (true = true -> rest = []).
Proof.
  apply (rverify_tamper_evident SignDemo.sha512 SignDemo.sign SignDemo.check SignDemo.key [9] SignDemo.history
    SignDemo.file true SignDemo.sizes SignDemo.unforged).
  - intros a b r _ _ _. apply SignDemo.sha512_inj.
  - vm_compute. reflexivity.
Defined.

(** The final mark is not signed.  Take any recording of the device and cut it
    after any of its signature boxes; setting the one flag byte of the box that
    is now last makes rverify report the rest as verified and cleanly closed, as
    if nothing had been cut off. *)
Theorem rverify_final_flag_forgeable sha512 ed25519_sign ed25519_check key pub spans k :
  sizes_ok sha512 ed25519_sign key ->
  (forall m, ed25519_check (ed25519_sign (sk_secret key) m) pub m = true) ->
  Forall (fun x => span_ok (fst x)) spans -> finals_last spans -> (0 < k <= length spans)%nat ->
  let n := signed_bytes (take k spans) in
  rverify sha512 ed25519_check (Some pub)
    (<[(n - 139)%nat := 1]> (take n (signed_file sha512 ed25519_sign key zero_sig spans))) = (0, true).
Proof. apply forged_final. Qed.

Lemma SignDemo_span_ok : Forall (fun x => span_ok (fst x)) SignDemo.spans.
Proof.
  assert (Hp : forall cc n, cc ∈ ["ftyp"; "moov"; "moof"; "mdat"; "mfra"]%string -> (n < 5)%nat ->
    plain_box (SignDemo.box cc n)).
  { intros cc n Hc Hn. do 5 (destruct n as [|n]; [repeat (apply elem_of_cons in Hc as [-> |Hc]; [by split_and!; [cbn; lia|..]|]); by apply elem_of_nil in Hc|]). lia. }
  apply list.Forall_cons_2; [|apply list.Forall_cons_2; [|apply list.Forall_cons_2; [|apply list.Forall_nil_2]]].
  - exists [SignDemo.box "ftyp" 2; SignDemo.box "moov" 3]. split; [done|].
    repeat (apply list.Forall_cons_2; [apply Hp; [set_solver|lia]|]). by apply list.Forall_nil_2.
  - exists [SignDemo.box "moof" 1; SignDemo.box "mdat" 4]. split; [done|].
    repeat (apply list.Forall_cons_2; [apply Hp; [set_solver|lia]|]). by apply list.Forall_nil_2.
  - exists [SignDemo.box "mfra" 0]. split; [done|].
    repeat (apply list.Forall_cons_2; [apply Hp; [set_solver|lia]|]). by apply list.Forall_nil_2.
Qed.

Lemma rverify_final_flag_forgeable_witness :
  let n := signed_bytes (take 1 SignDemo.spans) in
  rverify SignDemo.sha512 (fun sig _ m => bool_decide (sig = SignDemo.sign [7] m)) (Some [9])
    (<[(n - 139)%nat := 1]> (take n SignDemo.file)) = (0, true).
Proof.
  apply (rverify_final_flag_forgeable SignDemo.sha512 SignDemo.sign (fun sig _ m => bool_decide (sig = SignDemo.sign [7] m))
    SignDemo.key [9] SignDemo.spans 1 SignDemo.sizes).
  - intros m. by apply bool_decide_eq_true.
  - apply SignDemo_span_ok.
  - by repeat split.
  - cbn. lia.
Defined.
