(* ===== verification/SignedRec.v ===== *)
(** * Signed segments (rmr/rmr_main.c)

    The muxer of [Mux] writing through direct_write of [Sign]: start_segment,
    the flush that follows a keyframe or ten frames, and close_segment, with the
    signature boxes they emit; and the theorem that what they leave on the card
    verifies. *)

From Stdlib Require Import String.
From stdpp Require Import list.
From S2P Require Import Prelude Mux MuxProps MuxRoundtrip MuxHeader Sign SignProps.

(** ** The callback as a sink *)

Lemma write_all_file ws p st ok st' : write_all ws p st = (ok, st') -> ok = true ->
  sg_file st' = sg_file st ++ p /\ sg_sign st' = sg_sign st /\ sg_sign_enabled st' = sg_sign_enabled st.
Proof.
  revert p st. induction ws as [|a ws IH]; intros p st E Hok.
  - destruct p; cbn [write_all] in E; apply (f_equal snd) in E; cbn [snd] in E; subst st';
      cbn [sg_file sg_sign sg_sign_enabled set_field]; by rewrite ?app_nil_r.
  - destruct p as [|x p].
    { cbn [write_all] in E. apply (f_equal snd) in E. cbn [snd] in E. subst st'.
      cbn [sg_file sg_sign sg_sign_enabled set_field]. by rewrite app_nil_r. }
    destruct a as [n| |nospc]; cbn [write_all] in E.
    + apply IH in E as (E1 & E2 & E3); [|done]. rewrite E1, E2, E3. cbn [sg_file sg_sign sg_sign_enabled set_field].
      by rewrite <- app_assoc, take_drop.
    + by apply IH in E.
    + apply (f_equal fst) in E. cbn [fst] in E. congruence.
Qed.

Lemma direct_write_file buf st r st' : direct_write buf st = (r, st') -> 0 <= r -> sg_file st' = sg_file st ++ buf.
Proof.
  unfold direct_write. destruct (Nat.eqb_spec (length buf) 0) as [E|_].
  { intros [= <- <-] _. apply length_zero_iff_nil in E as ->. by rewrite app_nil_r. }
  destruct (negb (sg_open st)); [intros [= <- <-]; lia|].
  destruct (write_all _ _ _) as [[] st1] eqn:Ew; intros E Hr; apply (f_equal fst) in E as E1;
    apply (f_equal snd) in E as E2; cbn [fst snd] in E1, E2; [|lia].
  destruct (write_all_file _ _ _ _ _ Ew eq_refl) as [Hf _]. subst st'. by destruct (sg_sign_enabled st1).
Qed.

#[export] Instance segment_sink : ByteSink segment := {|
  sink_write := direct_write; sink_bytes := sg_file; sink_write_ok := direct_write_file
|}.

(** ** The recorder *)

Section recorder.
Context (rss_aac_asc : Z -> Z -> Z -> option (list Z)).
Context (sha512 : list Z -> list Z) (ed25519_sign : list Z -> list Z -> list Z).
Implicit Types m : rmr_mux segment.

Definition emit (final : bool) m : rmr_mux segment :=
  if sg_sign_enabled (mx_sink m)
  then m <| mx_sink := (rmr_sign_stream_emit sha512 ed25519_sign final (mx_sink m)).2 |> else m.

(** start_segment, once the file is open and the tracks are set. *)
Definition start_segment (key : rss_sign_key) m : rmr_mux segment :=
  let m := if sg_sign_enabled (mx_sink m)
           then m <| mx_sink := (mx_sink m) <| sg_sign := rmr_sign_stream_begin (Some key) |> |> else m in
  emit false (rmr_mux_start rss_aac_asc m).2.

Definition flush_segment m : rmr_mux segment := emit false (rmr_mux_flush_fragment m).2.

Definition close_segment m : rmr_mux segment := emit true (rmr_mux_finalize m).2.

Inductive rec_op := Rec_feed (alloc_ok : bool) (e : mux_ev) | Rec_flush.

Definition rec_step m (o : rec_op) : rmr_mux segment :=
  match o with
  | Rec_feed alloc_ok e => (mux_write alloc_ok e m).2
  | Rec_flush => flush_segment m
  end.

(** A segment from its first byte to its last. *)
Definition record_segment (key : rss_sign_key) (ops : list rec_op) m : rmr_mux segment :=
  close_segment (fold_left rec_step ops (start_segment key m)).

(** ** The signer's state along the way *)

Context (key : rss_sign_key).
Abbreviation sign := (ed25519_sign (sk_secret key)).

Definition fw_ok (ws : list fwrite_answer) : Prop := Forall (fun a => forall b, a <> FW_error b) ws.

(** A healthy segment whose signer has the spans behind it and [pending] in it. *)
Record signing (spans : list (list Z * bool)) (pending : list Z) (st : segment) : Prop := {
  sn_open : sg_open st = true;
  sn_on : sg_sign_enabled st = true;
  sn_writes : fw_ok (sg_writes st);
  sn_key : ss_key (sg_sign st) = Some key;
  sn_idle : ss_emitting (sg_sign st) = false;
  sn_hash : ss_hash (sg_sign st) = pending;
  sn_bytes : ss_span_bytes (sg_sign st) = u64 (Z.of_nat (length pending));
  sn_prev : ss_prev_sig (sg_sign st) = last_sig sha512 ed25519_sign key zero_sig (fst <$> spans);
  sn_file : sg_file st = signed_file sha512 ed25519_sign key zero_sig spans ++ pending
}.

Lemma write_all_ok ws p st : fw_ok ws -> exists st', write_all ws p st = (true, st') /\ fw_ok (sg_writes st') /\
  sg_open st' = sg_open st.
Proof.
  intros H. revert p st. induction H as [|a ws Ha H IH]; intros p st.
  - destruct p; cbn [write_all]; eexists; (split; [reflexivity|]); by split; [apply Forall_nil_2|].
  - destruct p as [|x p]; [cbn [write_all]; eexists; split; [reflexivity|]; by split; [apply Forall_cons_2|]|].
    destruct a as [n| |b]; cbn [write_all]; [|apply IH|by destruct (Ha b)].
    match goal with |- context [write_all ws ?q ?s] => destruct (IH q s) as (st1 & E1 & W1 & O1) end.
    exists st1. split; [exact E1|]. split; [exact W1|exact O1].
Qed.

Lemma direct_write_signing spans pending buf st : signing spans pending st ->
  exists st', direct_write buf st = (0, st') /\ signing spans (pending ++ buf) st'.
Proof.
  intros [H1 H2 H3 H4 H5 H6 H7 H8 H9]. unfold direct_write.
  destruct (Nat.eqb_spec (length buf) 0) as [E|Hne].
  { apply length_zero_iff_nil in E as ->. exists st. rewrite app_nil_r. by split. }
  rewrite H1. cbn [negb]. destruct (write_all_ok _ buf st H3) as (st1 & Ew & Hw1 & Ho1). rewrite Ew.
  destruct (write_all_file _ _ _ _ _ Ew eq_refl) as (Hf1 & Hs1 & He1). rewrite He1, H2. eexists. split; [reflexivity|].
  unfold rmr_sign_stream_update. rewrite Hs1, H4, H5. cbn [orb]. rewrite (proj2 (Nat.eqb_neq _ _)) by done.
  split; cbn [sg_open sg_sign_enabled sg_writes sg_sign sg_file ss_key ss_emitting ss_hash ss_span_bytes ss_prev_sig set_field];
    [congruence|congruence|done|done|done|by rewrite H6| |done|by rewrite Hf1, H9, app_assoc].
  rewrite H7, uwrap_add_l, length_app. f_equal. lia.
Qed.

(** Emitting with nothing pending does nothing; otherwise the pending bytes
    become a span. *)
Lemma emit_signing spans pending final m :
  Z.of_nat (length pending) < 2 ^ 64 -> signing spans pending (mx_sink m) ->
  let spans' := match pending with [] => spans | _ => spans ++ [(pending, final)] end in
  signing spans' [] (mx_sink (emit final m)) /\ exists w, emit final m = m <| mx_sink := w |>.
Proof.
  intros Hl Hs. pose proof Hs as [H1 H2 H3 H4 H5 H6 H7 H8 H9]. unfold emit. rewrite H2.
  split; [|by eexists]. cbn [mx_sink set_field]. unfold rmr_sign_stream_emit. rewrite H4, H7.
  rewrite uwrap_id by (unfold in_u; lia). destruct pending as [|x pending].
  - cbn [length Z.of_nat Z.eqb snd]. exact Hs.
  - set (pd := x :: pending) in *. rewrite (proj2 (Z.eqb_neq _ _)) by (unfold pd; cbn [length]; lia).
    rewrite H6, H8. set (g := sign _). set (box := sign_box _ _ _ _).
    set (st0 := (mx_sink m) <| sg_sign := (sg_sign (mx_sink m)) <| ss_emitting := true |> |>). unfold direct_write.
    assert (Hb : length box <> 0%nat) by done. rewrite (proj2 (Nat.eqb_neq _ _)) by done.
    change (sg_open st0) with (sg_open (mx_sink m)). rewrite H1. cbn [negb].
    change (sg_writes st0) with (sg_writes (mx_sink m)).
    destruct (write_all_ok (sg_writes (mx_sink m)) box st0 H3) as (st1 & Ew & Hw1 & Ho1). rewrite Ew.
    destruct (write_all_file _ _ _ _ _ Ew eq_refl) as (Hf1 & Hs1 & He1).
    assert (Hen : sg_sign_enabled st1 = true) by (rewrite He1; exact H2). rewrite Hen.
    assert (Hup : rmr_sign_stream_update box (sg_sign st1) = sg_sign st0).
    { unfold rmr_sign_stream_update. rewrite Hs1. cbn [st0 sg_sign set_field ss_key ss_emitting]. by rewrite H4. }
    rewrite Hup. cbn [snd].
    split; cbn [sg_open sg_sign_enabled sg_writes sg_sign sg_file ss_key ss_emitting ss_hash ss_span_bytes ss_prev_sig set_field];
      [rewrite Ho1; exact H1|exact Hen|exact Hw1|exact H4|done|done|done| |].
    + rewrite fmap_app. cbn [fmap list_fmap fst]. unfold last_sig. by rewrite chain_snoc, last_snoc.
    + rewrite app_nil_r, Hf1. change (sg_file st0) with (sg_file (mx_sink m)). rewrite H9.
      by rewrite signed_file_snoc, <- app_assoc.
Qed.

(** ** The muxer on a healthy segment *)

(** The operation succeeds and the segment stays healthy. *)
Definition healthy (spans : list (list Z * bool)) (x : Z * rmr_mux segment) : Prop :=
  exists m' pending', x = (0, m') /\ signing spans pending' (mx_sink m').

Lemma bb_flush_healthy spans pending m : signing spans pending (mx_sink m) -> healthy spans (bb_flush m).
Proof.
  intros H. unfold bb_flush. destruct (mx_box m) as [|x l]; [by exists m, pending|].
  destruct (direct_write_signing _ _ (x :: l) _ H) as (st' & E & H'). cbn [sink_write segment_sink].
  rewrite E. by eexists _, _.
Qed.

Lemma write_chunks_healthy spans pending fuel data m : signing spans pending (mx_sink m) ->
  healthy spans (write_chunks fuel data m).
Proof.
  revert data m pending. induction fuel as [|fuel IH]; intros [|x data] m pending H; cbn [write_chunks];
    try (by exists m, pending).
  destruct (direct_write_signing _ _ (take MUX_WRITE_CHUNK (x :: data)) _ H) as (st' & E & H').
  cbn [sink_write segment_sink]. rewrite E. cbn [Z.ltb Z.compare]. by eapply IH.
Qed.

(** One step of a sequence of writes, which succeeds. *)
Ltac flush_next H m' p' H' :=
  match goal with |- context [bb_flush ?x] =>
    let E := fresh "E" in destruct (bb_flush_healthy _ _ x H) as (m' & p' & E & H'); rewrite E; clear E;
    cbn [Z.ltb Z.compare] end.
Ltac chunks_next H m' p' H' :=
  match goal with |- context [write_chunks ?n ?d ?x] =>
    let E := fresh "E" in destruct (write_chunks_healthy _ _ n d x H) as (m' & p' & E & H'); rewrite E; clear E;
    cbn [Z.ltb Z.compare] end.

Lemma write_fragment_healthy spans pending m : signing spans pending (mx_sink m) -> healthy spans (write_fragment m).
Proof.
  intros H. unfold write_fragment. cbv zeta. destruct (_ && _); [by exists m, pending|].
  flush_next H m1 p1 H1. flush_next H1 m2 p2 H2. chunks_next H2 m3 p3 H3. chunks_next H3 m4 p4 H4.
  eexists _, p4. split; [reflexivity|exact H4].
Qed.

Lemma mux_start_healthy spans pending m : signing spans pending (mx_sink m) ->
  mx_has_video m = true -> healthy spans (rmr_mux_start rss_aac_asc m).
Proof.
  intros H Hv. unfold rmr_mux_start. rewrite Hv. cbn [negb andb]. unfold write_ftyp.
  flush_next H m1 p1 H1. unfold write_moov. flush_next H1 m2 p2 H2. by exists m2, p2.
Qed.

Lemma signing_append spans pending pending' st st' x :
  signing spans pending st -> signing spans pending' st' -> sg_file st' = sg_file st ++ x -> pending' = pending ++ x.
Proof.
  intros [] [] Hf. rewrite sn_file0, sn_file1, <- app_assoc in Hf. by apply app_inv_head in Hf.
Qed.

(** ** The boxes of a segment *)

Lemma mkbox_plain cc p : length (fourcc cc) = 4%nat -> fourcc cc <> fourcc "uuid" -> 8 + Z.of_nat (length p) < 2 ^ 32 ->
  plain_box (mkbox cc p).
Proof.
  intros Hc Hu Hl. split; [rewrite mkbox_length by done; lia|]. unfold mkbox.
  rewrite (uwrap_id 32) by (unfold in_u; lia). split.
  - rewrite (take_app_length' _ _ 4) by (by rewrite w32_length). rewrite w32_val by (unfold in_u; lia).
    rewrite !length_app, w32_length, Hc. lia.
  - unfold sub. rewrite (drop_app_length' _ _ 4) by (by rewrite w32_length). by rewrite (take_app_length' _ _ 4) by done.
Qed.

Lemma mfra_plain : plain_box mfra_box.
Proof. split_and!; [cbn; lia|reflexivity|done]. Qed.

Lemma moof_small m : (length (mx_v_samples m) <= MUX_MAX_SAMPLES)%nat -> (length (mx_a_samples m) <= MUX_MAX_SAMPLES)%nat ->
  8 + Z.of_nat (length (moof_body m)) < 2 ^ 32.
Proof.
  intros Hv Ha. rewrite moof_body_length. unfold moof_size, MUX_MAX_SAMPLES in *.
  pose proof (traf_opt_le 1 (mx_v_base_dts m) 3841 (v_rows m) 0) as H1.
  pose proof (traf_opt_le 2 (mx_a_base_dts m) 769 (a_rows m) 0) as H2.
  rewrite v_rows_length in H1. rewrite a_rows_length in H2. unfold v_traf, a_traf. lia.
Qed.

(** What is pending in the muxer, at most [acc] bytes of it. *)
Record pending_ok (acc : nat) m : Prop := {
  po_v : (length (mx_v_samples m) <= MUX_MAX_SAMPLES)%nat;
  po_a : (length (mx_a_samples m) <= MUX_MAX_SAMPLES)%nat;
  po_d : (length (mx_v_data m) + length (mx_a_data m) <= acc)%nat;
  po_ve : mx_v_samples m = [] -> mx_v_data m = [];
  po_ae : mx_a_samples m = [] -> mx_a_data m = []
}.

Definition frag_limit (n : nat) : Prop := 8 + Z.of_nat n < 2 ^ 32.

Lemma frag_span m acc : pending_ok acc m -> frag_limit acc -> span_ok (frag_bytes (next_frag m)).
Proof.
  intros [H1 H2 H3 _ _] Hl. unfold frag_limit in Hl.
  exists [mkbox "moof" (moof_body (next_frag m)); mkbox "mdat" (mx_v_data m ++ mx_a_data m)].
  split; [cbn [concat]; by rewrite app_nil_r|].
  apply list.Forall_cons_2; [by apply mkbox_plain; [..|by apply moof_small]|].
  apply list.Forall_cons_2; [|apply list.Forall_nil_2]. apply mkbox_plain; [done|done|]. rewrite length_app. lia.
Qed.

Lemma patch_last_length dflt l : length (patch_last dflt l) = length l.
Proof.
  unfold patch_last. destruct (reverse l) as [|s r] eqn:E.
  - apply (f_equal length) in E. rewrite length_reverse in E. cbn in E. cbn. lia.
  - repeat case_match; by rewrite ?length_insert.
Qed.

Definition ev_size (e : mux_ev) : nat :=
  match e with EvVideo s => length (vs_data s) | EvAudio s => length (as_data s) end.

Lemma buf_append_length ok buf cap data buf' cap' : buf_append ok buf cap data = Some (buf', cap') ->
  length buf' = (length buf + length data)%nat.
Proof. intros H. apply buf_append_data in H as ->. apply length_app. Qed.

Lemma patch_duration_nil base dts l : patch_duration base dts l = [] -> l = [].
Proof. intros H. apply length_zero_iff_nil. by rewrite <- (patch_duration_length base dts), H. Qed.

Lemma write_video_pending ok v acc m : pending_ok acc m ->
  pending_ok (acc + length (vs_data v)) (rmr_mux_write_video ok v m).2 /\
  mx_sink (rmr_mux_write_video ok v m).2 = mx_sink m.
Proof.
  intros [H1 H2 H3 H4 H5]. assert (Hm : pending_ok (acc + length (vs_data v)) m) by (split; [exact H1|exact H2|lia|exact H4|exact H5]).
  unfold rmr_mux_write_video. destruct (length (vs_data v) =? 0)%nat; [by split|].
  destruct (Nat.leb_spec MUX_MAX_SAMPLES (length (mx_v_samples m))) as [|Hlt]; [by split|].
  cbv zeta. set (m0 := if (length (mx_v_samples m) =? 0)%nat then _ else m).
  assert (E0 : mx_v_samples m0 = mx_v_samples m /\ mx_a_samples m0 = mx_a_samples m /\ mx_v_data m0 = mx_v_data m /\
    mx_a_data m0 = mx_a_data m /\ mx_sink m0 = mx_sink m) by (unfold m0; by destruct (length (mx_v_samples m) =? 0)%nat).
  clearbody m0. destruct E0 as (E1 & E2 & E3 & E4 & E5).
  set (m1 := m0 <| mx_v_samples := _ |>).
  change (mx_v_data m1) with (mx_v_data m0). change (mx_v_data_cap m1) with (mx_v_data_cap m0).
  destruct (buf_append ok (mx_v_data m0) (mx_v_data_cap m0) (vs_data v)) as [[d c]|] eqn:Eb; (split; [|exact E5]).
  - apply buf_append_length in Eb. rewrite E3 in Eb.
    split; cbn [snd mx_v_samples mx_a_samples mx_v_data mx_a_data set_field m1]; rewrite ?E2, ?E4;
      [|exact H2|lia|by intros Hx; apply app_nil in Hx as [_ ?]|exact H5].
    rewrite length_app, patch_duration_length, E1. cbn [length]. lia.
  - split; cbn [snd mx_v_samples mx_a_samples mx_v_data mx_a_data set_field m1]; rewrite ?E2, ?E3, ?E4;
      [by rewrite patch_duration_length, E1|exact H2|lia| |exact H5].
    intros Hx. apply patch_duration_nil in Hx. rewrite E1 in Hx. auto.
Qed.

Lemma write_audio_pending ok v acc m : pending_ok acc m ->
  pending_ok (acc + length (as_data v)) (rmr_mux_write_audio ok v m).2 /\
  mx_sink (rmr_mux_write_audio ok v m).2 = mx_sink m.
Proof.
  intros [H1 H2 H3 H4 H5]. assert (Hm : pending_ok (acc + length (as_data v)) m) by (split; [exact H1|exact H2|lia|exact H4|exact H5]).
  unfold rmr_mux_write_audio. destruct (length (as_data v) =? 0)%nat; [by split|].
  destruct (Nat.leb_spec MUX_MAX_SAMPLES (length (mx_a_samples m))) as [|Hlt]; [by split|].
  cbv zeta. set (m0 := if (length (mx_a_samples m) =? 0)%nat then _ else m).
  assert (E0 : mx_v_samples m0 = mx_v_samples m /\ mx_a_samples m0 = mx_a_samples m /\ mx_v_data m0 = mx_v_data m /\
    mx_a_data m0 = mx_a_data m /\ mx_sink m0 = mx_sink m) by (unfold m0; by destruct (length (mx_a_samples m) =? 0)%nat).
  clearbody m0. destruct E0 as (E1 & E2 & E3 & E4 & E5).
  set (m1 := m0 <| mx_a_samples := _ |>).
  change (mx_a_data m1) with (mx_a_data m0). change (mx_a_data_cap m1) with (mx_a_data_cap m0).
  destruct (buf_append ok (mx_a_data m0) (mx_a_data_cap m0) (as_data v)) as [[d c]|] eqn:Eb; (split; [|exact E5]).
  - apply buf_append_length in Eb. rewrite E4 in Eb.
    split; cbn [snd mx_v_samples mx_a_samples mx_v_data mx_a_data set_field m1]; rewrite ?E1, ?E3;
      [exact H1| |lia|exact H4|by intros Hx; apply app_nil in Hx as [_ ?]].
    rewrite length_app, patch_duration_length, E2. cbn [length]. lia.
  - split; cbn [snd mx_v_samples mx_a_samples mx_v_data mx_a_data set_field m1]; rewrite ?E1, ?E3, ?E4;
      [exact H1|by rewrite patch_duration_length, E2|lia|exact H4|].
    intros Hx. apply patch_duration_nil in Hx. rewrite E2 in Hx. auto.
Qed.

Lemma mux_write_pending ok e acc m : pending_ok acc m ->
  pending_ok (acc + ev_size e) (mux_write ok e m).2 /\ mx_sink (mux_write ok e m).2 = mx_sink m.
Proof. destruct e; [apply write_video_pending|apply write_audio_pending]. Qed.

(** ** A whole segment *)

Definition spans_ok (spans : list (list Z * bool)) : Prop := Forall (fun x => span_ok (fst x) /\ snd x = false) spans.

(** Between two operations: whole spans on the card, nothing in the signer. *)
Record recording (acc : nat) (spans : list (list Z * bool)) m : Prop := {
  rc_sign : signing spans [] (mx_sink m);
  rc_spans : spans_ok spans;
  rc_pending : pending_ok acc m
}.

Lemma flush_fragment_bytes acc spans m : recording acc spans m -> frag_limit acc ->
  exists m' x, rmr_mux_flush_fragment m = (0, m') /\ signing spans x (mx_sink m') /\
    (x = [] \/ span_ok x) /\ Z.of_nat (length x) < 2 ^ 34 /\ pending_ok 0 m'.
Proof.
  intros [Hs Hsp Hp] Hl. unfold rmr_mux_flush_fragment. cbv zeta.
  match goal with |- context [write_fragment ?a] => set (m1 := a) end.
  assert (Hp1 : pending_ok acc m1).
  { destruct Hp as [H1 H2 H3 H4 H5]. unfold m1.
    split; cbn [mx_v_samples mx_a_samples mx_v_data mx_a_data set_field]; rewrite ?patch_last_length; try done;
      intros Hx; apply (f_equal length) in Hx; rewrite patch_last_length in Hx; apply length_zero_iff_nil in Hx; auto. }
  assert (Hs1 : signing spans [] (mx_sink m1)) by exact Hs. clearbody m1. clear Hp Hs m.
  destruct (write_fragment_healthy _ _ _ Hs1) as (m2 & x & E & Hs2).
  destruct (decide (length (mx_v_samples m1) = 0 /\ length (mx_a_samples m1) = 0)%nat) as [[Hv Ha]|Hne].
  - unfold write_fragment. rewrite Hv, Ha. cbn [Nat.eqb andb].
    exists m1, []. apply length_zero_iff_nil in Hv, Ha.
    split_and!; [done|done|by left|cbn; lia|]. destruct Hp1 as [H1 H2 H3 H4 H5].
    split; [done|done|by rewrite (H4 Hv), (H5 Ha)|done|done].
  - destruct (write_fragment_ok m1 0 m2) as [Hf Hi]; [|done|done|].
    { destruct (mx_v_samples m1), (mx_a_samples m1); cbn in Hne; [lia|by right|by left|by left]. }
    pose proof (signing_append _ _ _ _ _ _ Hs1 Hs2 Hf) as Hx. cbn [app] in Hx. subst x.
    exists m2, (frag_bytes (next_frag m1)). split_and!; [done|done|right; by eapply frag_span| |].
    + pose proof (moof_small (next_frag m1) (po_v _ _ Hp1) (po_a _ _ Hp1)) as Hm. destruct Hp1 as [_ _ H3 _ _].
      unfold frag_bytes, frag_limit in *. rewrite length_app, !mkbox_length, length_app by done.
      change (mx_v_data (next_frag m1)) with (mx_v_data m1). change (mx_a_data (next_frag m1)) with (mx_a_data m1). lia.
    + destruct Hi as (I1 & I2 & I3 & I4 & _). split; rewrite ?I1, ?I2, ?I3, ?I4; unfold MUX_MAX_SAMPLES; cbn; done || lia.
Qed.

Lemma spans_snoc spans x : spans_ok spans -> span_ok x -> spans_ok (spans ++ [(x, false)]).
Proof. intros H Hx. apply Forall_app. split; [done|]. by apply list.Forall_cons_2; [|apply list.Forall_nil_2]. Qed.

Lemma flush_recording acc spans m : recording acc spans m -> frag_limit acc ->
  exists spans', recording 0 (spans ++ spans') (flush_segment m).
Proof.
  intros H Hl. destruct (flush_fragment_bytes _ _ _ H Hl) as (m1 & x & E & Hs & Hx & Hlen & Hp).
  unfold flush_segment. rewrite E. cbn [snd].
  destruct (emit_signing spans x false m1) as [Hs' (w & Hw)]; [lia|done|]. cbn zeta in Hs'.
  assert (Hp' : pending_ok 0 (emit false m1)) by (rewrite Hw; destruct Hp; by split).
  destruct x as [|y x].
  - exists []. rewrite app_nil_r. split; [done|apply H|done].
  - exists [(y :: x, false)]. split; [done| |done]. apply spans_snoc; [apply H|]. destruct Hx; done.
Qed.

(** No fragment outgrows its mdat's 32-bit size. *)
Fixpoint small_frags (acc : nat) (ops : list rec_op) : Prop :=
  match ops with
  | [] => frag_limit acc
  | Rec_feed _ e :: ops => small_frags (acc + ev_size e) ops
  | Rec_flush :: ops => frag_limit acc /\ small_frags 0 ops
  end.

Lemma ops_recording ops : forall acc spans m, recording acc spans m -> small_frags acc ops ->
  exists acc' spans', recording acc' (spans ++ spans') (fold_left rec_step ops m) /\ frag_limit acc'.
Proof.
  induction ops as [|[ok e|] ops IH]; intros acc spans m H Hl; cbn [fold_left small_frags rec_step] in *.
  - exists acc, []. by rewrite app_nil_r.
  - destruct (mux_write_pending ok e acc m (rc_pending _ _ _ H)) as [Hp Hk].
    apply (IH (acc + ev_size e)%nat spans); [|done]. split; [by rewrite Hk; apply H|apply H|done].
  - destruct Hl as [Hl Hr]. destruct (flush_recording _ _ _ H Hl) as (s1 & H1).
    destruct (IH _ _ _ H1 Hr) as (acc' & s2 & H2 & Hl2). exists acc', (s1 ++ s2). by rewrite app_assoc.
Qed.

Lemma close_recording acc spans m : recording acc spans m -> frag_limit acc ->
  exists x, span_ok x /\ signing (spans ++ [(x, true)]) [] (mx_sink (close_segment m)).
Proof.
  intros H Hl. unfold close_segment, rmr_mux_finalize.
  assert (H1 : exists m1 x, (if (0 <? length (mx_v_samples m))%nat || (0 <? length (mx_a_samples m))%nat
      then rmr_mux_flush_fragment m else (0, m)) = (0, m1) /\ signing spans x (mx_sink m1) /\
      (x = [] \/ span_ok x) /\ Z.of_nat (length x) < 2 ^ 34).
  { destruct (_ || _); [|exists m, []; split_and!; [done|apply H|by left|cbn; lia]].
    destruct (flush_fragment_bytes _ _ _ H Hl) as (m1 & x & E & Hs & Hx & Hlen & _). by exists m1, x. }
  destruct H1 as (m1 & x & E1 & Hs1 & Hx & Hlen). rewrite E1. cbn [Z.ltb Z.compare].
  match goal with |- context [bb_flush ?a] => destruct (bb_flush_healthy spans x a Hs1) as (m2 & y & E2 & Hs2);
    rewrite E2; cbn [snd]; destruct (bb_flush_ok a 0 m2 E2 ltac:(lia)) as [Hf _] end.
  change (sink_bytes (mx_sink m2) = sink_bytes (mx_sink m1) ++ mfra_box) in Hf.
  pose proof (signing_append _ _ _ _ _ _ Hs1 Hs2 Hf) as ->.
  destruct (emit_signing spans (x ++ mfra_box) true m2) as [Hs' _]; [|done|].
  { rewrite length_app. change (length mfra_box) with 24%nat. lia. }
  exists (x ++ mfra_box). split.
  - destruct Hx as [-> |(bs & -> & Hbs)].
    + exists [mfra_box]. split; [cbn [concat app]; by rewrite app_nil_r|].
      apply list.Forall_cons_2; [apply mfra_plain|apply list.Forall_nil_2].
    + exists (bs ++ [mfra_box]). split; [by rewrite concat_app; cbn [concat]; rewrite app_nil_r|].
      apply Forall_app. split; [done|]. apply list.Forall_cons_2; [apply mfra_plain|apply list.Forall_nil_2].
  - cbn zeta in Hs'. destruct (x ++ mfra_box) as [|z l] eqn:Ez.
    { by apply app_nil in Ez as [_ ?]. }
    exact Hs'.
Qed.

Context (asc_short : forall aot rate ch asc, rss_aac_asc aot rate ch = Some asc -> Z.of_nat (length asc) <= 255).

(** The recorder before start_segment: file and tracks ready, nothing written. *)
Record armed m : Prop := {
  ar_open : sg_open (mx_sink m) = true;
  ar_on : sg_sign_enabled (mx_sink m) = true;
  ar_writes : fw_ok (sg_writes (mx_sink m));
  ar_file : sg_file (mx_sink m) = [];
  ar_idle : idle m;
  ar_video : mx_has_video m = true;
  ar_h264 : is_h264 m;
  ar_sets : small_sets m
}.

(** ftyp and moov. *)
Definition init_bytes m : list Z := out [ftyp_box; moov_box rss_aac_asc m].

Lemma init_span m : armed m -> span_ok (init_bytes m) /\ init_bytes m <> [] /\ Z.of_nat (length (init_bytes m)) < 2 ^ 34.
Proof.
  intros H. destruct (moov_descend rss_aac_asc asc_short m (ar_h264 _ H) (ar_sets _ H) (ar_video _ H)) as [(Hm & Hm4 & Hml) _].
  destruct ftyp_is_box as (f & Hf & Hf4 & Hfl). cbn [fst snd] in *.
  assert (Hb : init_bytes m = mkbox "ftyp" f ++ mkbox "moov" (out (moov_body rss_aac_asc m))).
  { unfold init_bytes. rewrite !out_cons, Hf, Hm. cbn [out fmap list_fmap concat]. by rewrite app_nil_r. }
  rewrite Hb. split; [|split].
  - exists [mkbox "ftyp" f; mkbox "moov" (out (moov_body rss_aac_asc m))]. split; [cbn [concat]; by rewrite app_nil_r|].
    apply list.Forall_cons_2; [apply mkbox_plain; [done|done|lia]|].
    apply list.Forall_cons_2; [apply mkbox_plain; [done|done|lia]|apply list.Forall_nil_2].
  - intros E. apply (f_equal length) in E. rewrite length_app, mkbox_length in E by done. cbn in E. lia.
  - rewrite length_app, !mkbox_length by done. lia.
Qed.

Lemma mux_start_pending m m' : idle m -> mx_has_video m = true -> rmr_mux_start rss_aac_asc m = (0, m') -> pending_ok 0 m'.
Proof.
  intros (I1 & I2 & I3 & I4 & _) Hv. unfold rmr_mux_start. rewrite Hv. cbn [negb andb]. unfold write_ftyp, write_moov.
  destruct (bb_flush _) as [r1 m1] eqn:E1. destruct (Z.ltb_spec r1 0); [done|].
  apply bb_flush_ok in E1 as [_ (w1 & b1 & ->)]; [|done].
  destruct (bb_flush _) as [r2 m2] eqn:E2. destruct (Z.ltb_spec r2 0); [done|].
  apply bb_flush_ok in E2 as [_ (w2 & b2 & ->)]; [|done]. intros E. apply (f_equal snd) in E. cbn [snd] in E. subst m'.
  split; cbn [mx_v_samples mx_a_samples mx_v_data mx_a_data set_field]; rewrite ?I1, ?I2, ?I3, ?I4;
    unfold MUX_MAX_SAMPLES; cbn; done || lia.
Qed.

Lemma start_recording m : armed m -> recording 0 [(init_bytes m, false)] (start_segment key m).
Proof.
  intros H. pose proof H as [H1 H2 H3 H4 H5 H6 _ _]. destruct (init_span m H) as (Hsp & Hne & Hlen).
  unfold start_segment. rewrite H2.
  match goal with |- context [rmr_mux_start _ ?a] => set (m0 := a) end.
  assert (Hs0 : signing [] [] (mx_sink m0)).
  { unfold m0. split; cbn [mx_sink sg_open sg_sign_enabled sg_writes sg_sign sg_file ss_key ss_emitting ss_hash
      ss_span_bytes ss_prev_sig set_field rmr_sign_stream_begin signed_file app]; done. }
  destruct (mux_start_healthy [] [] m0 Hs0 H6) as (m1 & x & E & Hs1).
  pose proof (header_bytes rss_aac_asc m0 0 m1 E ltac:(lia)) as Hf.
  change (out [ftyp_box; moov_box rss_aac_asc m0]) with (init_bytes m) in Hf.
  pose proof (signing_append _ _ _ _ _ _ Hs0 Hs1 Hf) as Hx. cbn [app] in Hx. subst x.
  rewrite E. cbn [snd]. destruct (emit_signing [] (init_bytes m) false m1) as [Hs' (w & Hw)]; [lia|done|].
  split.
  - cbn zeta in Hs'. destruct (init_bytes m) as [|y l]; [done|exact Hs'].
  - by apply list.Forall_cons_2; [|apply list.Forall_nil_2].
  - rewrite Hw. destruct (mux_start_pending m0 m1 H5 H6 E). by split.
Qed.

Lemma spans_finals spans x : spans_ok spans -> finals_last (spans ++ [(x, true)]).
Proof.
  induction 1 as [|[s f] spans [_ Hf] H IH]; cbn [app finals_last snd] in *; [done|]. by split.
Qed.

Lemma segment_file ops m : armed m -> small_frags 0 ops -> exists spans,
  sg_file (mx_sink (record_segment key ops m)) = signed_file sha512 ed25519_sign key zero_sig ((init_bytes m, false) :: spans) /\
  spans <> [] /\ Forall (fun x => span_ok (fst x)) ((init_bytes m, false) :: spans) /\
  finals_last ((init_bytes m, false) :: spans) /\ closed_at ((init_bytes m, false) :: spans) = true.
Proof.
  intros Ha Hl. destruct (ops_recording ops _ _ _ (start_recording m Ha) Hl) as (acc & l & Hr & Hacc).
  destruct (close_recording _ _ _ Hr Hacc) as (x & Hx & Hs). exists (l ++ [(x, true)]).
  pose proof (sn_file _ _ _ Hs) as Hf. rewrite app_nil_r in Hf. cbn [app] in Hf.
  pose proof (rc_spans _ _ _ Hr) as Hok. split_and!.
  - exact Hf.
  - by destruct l.
  - change (Forall (fun x => span_ok (fst x)) (([(init_bytes m, false)] ++ l) ++ [(x, true)])). apply Forall_app.
    split; [eapply Forall_impl; [exact Hok|by intros y [? _]]|]. by apply list.Forall_cons_2; [|apply list.Forall_nil_2].
  - exact (spans_finals _ x Hok).
  - unfold closed_at. by rewrite app_comm_cons, last_snoc.
Qed.

End recorder.

Lemma complete_cut s f spans n : finals_last ((s, f) :: spans) -> spans <> [] ->
  (n < signed_bytes ((s, f) :: spans))%nat ->
  (complete n ((s, f) :: spans) =? 0)%nat = (n <? length s + RMR_SIGN_BOX_SIZE)%nat /\
  closed_at (take (complete n ((s, f) :: spans)) ((s, f) :: spans)) = false.
Proof.
  intros Hf Hne Hn. split; [cbn [complete]; by destruct (n <? _)%nat|]. apply closed_at_all; [done|].
  clear Hf Hne. revert n Hn. generalize ((s, f) :: spans). clear.
  induction l as [|[s f] l IH]; intros n Hn; cbn [signed_bytes foldr complete length fst] in *; [lia|].
  fold (signed_bytes l) in Hn. destruct (Nat.ltb_spec n (length s + RMR_SIGN_BOX_SIZE)); [lia|].
  specialize (IH (n - (length s + RMR_SIGN_BOX_SIZE))%nat ltac:(lia)). lia.
Qed.


Module RecDemo.
Definition sink : segment :=
  mk_segment true [] [FW_bytes 10; FW_eintr; FW_bytes 3] 0 true true (rmr_sign_stream_begin None).
Definition mux : rmr_mux segment :=
  (rmr_mux_set_audio demo_audio (rmr_mux_set_video demo_video [103; 66; 0; 31] [104; 206] [] (rmr_mux_create sink)).2).2.
Definition ops : list rec_op :=
  [Rec_feed true (EvVideo (mk_rmr_video_sample [0; 0; 0; 1; 101] 0 0 true)); Rec_flush;
   Rec_feed true (EvAudio (mk_rmr_audio_sample [1; 2] 0))].
End RecDemo.

