(* ===== verification/RcdGuard.v ===== *)
(** * rcd: confirm-or-revert (rcd/rcd_guard.c, with the drift list of
    rcd/rcd_config.c and the enact step of rcd/rcd_apply.c)

    A setting that can cut the client off is written by [set], enacted by
    [apply] under a timer, and put back unless somebody confirms.  The stores
    behind the settings are reached through providers, records of functions as
    in the source; the camera they act on is a type parameter.  The record on
    flash and the marker in /run are fields of the state. *)

From stdpp Require Import list strings.
From S2P Require Import Prelude.

Definition RCD_GUARD_MAX : nat := 12.
Definition RCD_STALE_MAX : nat := 64.
Definition RCD_GUARD_NAME_SEC : Z := 90.
Definition RCD_GUARD_WIFI_DWELL_SEC : Z := 30.
Definition RCD_GUARD_WIFI_POLL_MS : Z := 5000.
Definition RCD_GUARD_RETRY_MS : Z := 15000.
Definition RCD_GUARD_RETRIES : Z := 4.

(** [enact] is a function pointer that is compared: its number, the function
    behind it being [enact_fn] below. *)
Record rcd_provider (S : Type) := mk_rcd_provider {
  p_get : S -> option string;
  p_set : string -> S -> bool * S;
  p_enact : option nat;
  p_stored : option (S -> option string)
}.
Arguments mk_rcd_provider {S}. Arguments p_get {S}. Arguments p_set {S}.
Arguments p_enact {S}. Arguments p_stored {S}.

Record rcd_key (S : Type) := mk_rcd_key {
  rk_section : string; rk_key : string; rk_guard_sec : Z; rk_provider : option (rcd_provider S)
}.
Arguments mk_rcd_key {S}. Arguments rk_section {S}. Arguments rk_key {S}.
Arguments rk_guard_sec {S}. Arguments rk_provider {S}.

Record rcd_guard_snap := mk_rcd_guard_snap {
  sn_section : string; sn_key : string; sn_prev : string; sn_had : bool; sn_owed_enact : bool
}.

#[global] Instance eta_rcd_guard_snap : Settable rcd_guard_snap := fun s =>
  mk_rcd_guard_snap (sn_section s) (sn_key s) (sn_prev s) (sn_had s) (sn_owed_enact s).

(** The record on flash: armed, window, and the keys with the values they had. *)
Record guard_record := mk_guard_record {
  gr_armed : bool; gr_window : Z; gr_keys : list (string * string * option string)
}.

Record rcd_state (S : Type) := mk_rcd_state {
  rs_guard : list rcd_guard_snap;
  rs_deadline : Z;
  rs_window : Z;
  rs_wifi_moved : bool;
  rs_wifi_ask : Z;
  rs_retries : Z;
  rs_stale : list (string * string);
  rs_stale_file : list (string * string);
  rs_record : option guard_record;
  rs_marker : option (Z * Z);
  rs_flash_fails : list bool;
  rs_run_fails : list bool;
  rs_sys : S
}.
Arguments mk_rcd_state {S}. Arguments rs_guard {S}. Arguments rs_deadline {S}. Arguments rs_window {S}.
Arguments rs_wifi_moved {S}. Arguments rs_wifi_ask {S}. Arguments rs_retries {S}. Arguments rs_stale {S}.
Arguments rs_stale_file {S}. Arguments rs_record {S}. Arguments rs_marker {S}.
Arguments rs_flash_fails {S}. Arguments rs_run_fails {S}. Arguments rs_sys {S}.

#[global] Instance eta_rcd_state S : Settable (rcd_state S) := fun s =>
  mk_rcd_state (rs_guard s) (rs_deadline s) (rs_window s) (rs_wifi_moved s) (rs_wifi_ask s)
    (rs_retries s) (rs_stale s) (rs_stale_file s) (rs_record s) (rs_marker s)
    (rs_flash_fails s) (rs_run_fails s) (rs_sys s).

(** [rcd_section_is]: a row "name.*" covers every section under the dot. *)
Definition rcd_row_repeats (row : string) : bool :=
  let n := String.length row in
  (2 <=? n)%nat && String.eqb (String.substring (n - 2) 2 row) ".*".

Definition rcd_section_is (row section : string) : bool :=
  if negb (rcd_row_repeats row) then String.eqb row section
  else let n := (String.length row - 1)%nat in
       String.prefix (String.substring 0 n row) section && (n <? String.length section)%nat.

Section guard.
Context {S : Type}.
(** The key table of rcd_schema.c, the functions behind the enact pointers, and
    rcd_wifi_settled. *)
Context (keys : list (rcd_key S)) (enact_fn : nat -> S -> bool * S) (wifi_settled : S -> bool).
Implicit Types (st : rcd_state S) (k : rcd_key S) (p : rcd_provider S).

Definition rcd_key_find (section key : string) : option (rcd_key S) :=
  List.find (fun k => rcd_section_is (rk_section k) section && String.eqb (rk_key k) key) keys.

(** ** The drift list *)

Definition keyref_eqb (a : string * string) (section key : string) : bool :=
  String.eqb a.1 section && String.eqb a.2 key.

(** The daemon flags of [owner] belong to keys kept in the configuration file;
    a provider's key has none. *)
Definition rcd_stale_add (section key : string) st : rcd_state S :=
  if existsb (fun a => keyref_eqb a section key) (rs_stale st) then st
  else if (RCD_STALE_MAX <=? length (rs_stale st))%nat then st
  else st <| rs_stale := rs_stale st ++ [(section, key)] |>.

Definition rcd_stale_forget (section key : string) st : rcd_state S :=
  st <| rs_stale := List.filter (fun a => negb (keyref_eqb a section key)) (rs_stale st) |>.

Definition rcd_stale_save st : rcd_state S := st <| rs_stale_file := rs_stale st |>.

(** Re-resolved through the table: a key this build no longer has is dropped. *)
Definition rcd_stale_load st : rcd_state S :=
  foldl (fun st a => if rcd_key_find a.1 a.2 is None then st else rcd_stale_add a.1 a.2 st) st (rs_stale_file st).

(** The provider of a key that can enact, and the number of its enact. *)
Definition enact_of (section key : string) : option nat :=
  match rcd_key_find section key with
  | Some k => match rk_provider k with Some p => p_enact p | None => None end
  | None => None
  end.

Definition rcd_enact_owed st : list (rcd_key S) :=
  omap (fun a => match rcd_key_find a.1 a.2 with
                 | Some k => if enact_of a.1 a.2 is Some _ then Some k else None
                 | None => None
                 end) (rs_stale st).

Definition rcd_enact_done (done : list nat) st : rcd_state S :=
  st <| rs_stale := List.filter (fun a => match enact_of a.1 a.2 with
                                          | Some e => negb (existsb (Nat.eqb e) done)
                                          | None => true
                                          end) (rs_stale st) |>.

(** ** The record and the deadline *)

Definition record_of st : guard_record :=
  mk_guard_record (negb (rs_deadline st =? 0)) (rs_window st)
    ((fun s => (sn_section s, sn_key s, if sn_had s then Some (sn_prev s) else None)) <$> rs_guard st).

(** Written to a temporary file and renamed: it replaces the old one or nothing. *)
Definition record_write st : rcd_state S :=
  match rs_flash_fails st with
  | true :: l => st <| rs_flash_fails := l |>
  | l => st <| rs_flash_fails := tail l |> <| rs_record := Some (record_of st) |>
  end.

Definition record_clear st : rcd_state S := st <| rs_record := None |> <| rs_marker := None |>.

Definition armed_write st : rcd_state S :=
  match rs_run_fails st with
  | true :: l => st <| rs_run_fails := l |>
  | l => st <| rs_run_fails := tail l |> <| rs_marker := Some (rs_deadline st, rs_window st) |>
  end.

(** ** Arming *)

Definition guard_get p (s : S) : option string := match p_stored p with Some f => f s | None => p_get p s end.

Fixpoint snapshot_loop (ks : list (rcd_key S)) (s : S) (acc : list rcd_guard_snap) : list rcd_guard_snap :=
  match ks with
  | [] => acc
  | k :: ks =>
      match rk_provider k with
      | Some p =>
          if rk_guard_sec k <=? 0 then snapshot_loop ks s acc
          else if (RCD_GUARD_MAX <=? length acc)%nat then acc
          else snapshot_loop ks s (acc ++
                 [mk_rcd_guard_snap (rk_section k) (rk_key k) (default EmptyString (guard_get p s))
                    (bool_decide (is_Some (guard_get p s))) false])
      | None => snapshot_loop ks s acc
      end
  end.

Definition snapshot st : rcd_state S := st <| rs_guard := snapshot_loop keys (rs_sys st) [] |>.

Definition rcd_guard_hold st : rcd_state S :=
  if (0 <? length (rs_guard st))%nat then st else record_write (snapshot st).

Definition wifi_moved st : bool :=
  existsb (fun s =>
    String.eqb (sn_section s) "wifi" &&
    match rcd_key_find (sn_section s) (sn_key s) with
    | Some k =>
        match rk_provider k with
        | Some p =>
            match guard_get p (rs_sys st) with
            | Some now => negb (sn_had s) || negb (String.eqb now (sn_prev s))
            | None => sn_had s
            end
        | None => false
        end
    | None => false
    end) (rs_guard st).

Definition rcd_guard_arm (now window_sec : Z) st : rcd_state S :=
  if window_sec <=? 0 then st else
  let st := if (length (rs_guard st) =? 0)%nat then snapshot st else st in
  let extend := negb (rs_deadline st =? 0) in
  let st := st <| rs_retries := 0 |> <| rs_window := window_sec |>
               <| rs_deadline := u64 (now + window_sec * 1000) |> in
  let st := st <| rs_wifi_moved := (extend && rs_wifi_moved st) || wifi_moved st |>
               <| rs_wifi_ask := u64 (now + RCD_GUARD_WIFI_DWELL_SEC * 1000) |> in
  armed_write (record_write st).

Definition rcd_guard_held st : bool := (0 <? length (rs_guard st))%nat.

Definition rcd_guard_remaining (now : Z) st : Z :=
  if rs_deadline st =? 0 then 0 else
  if now >=? rs_deadline st then 0 else (rs_deadline st - now + 999) / 1000.

(** ** Disarming *)

Definition rcd_guard_confirm st : rcd_state S :=
  if rs_deadline st =? 0 then st else
  record_clear (st <| rs_deadline := 0 |> <| rs_window := 0 |> <| rs_guard := [] |> <| rs_retries := 0 |>
                   <| rs_wifi_moved := false |> <| rs_wifi_ask := 0 |>).

Definition add_enact (l : list nat) (e : nat) (was_armed : bool) : list nat :=
  if negb was_armed || (RCD_GUARD_MAX <=? length l)%nat then l
  else if existsb (Nat.eqb e) l then l else l ++ [e].

Definition guard_retry (now : Z) st : rcd_state S :=
  let st := rcd_stale_save st in
  if rs_retries st <? RCD_GUARD_RETRIES then
    armed_write (st <| rs_retries := rs_retries st + 1 |> <| rs_deadline := u64 (now + RCD_GUARD_RETRY_MS) |>)
  else
    st <| rs_deadline := 0 |> <| rs_window := 0 |> <| rs_guard := [] |> <| rs_retries := 0 |>
       <| rs_marker := None |>.

(** What one snapshot entry's turn does: the entry, the enacts collected, the
    drift list and the camera, and whether it failed. *)
Definition unchanged (s : rcd_guard_snap) (cur : option string) : bool :=
  match cur with
  | None => negb (sn_had s)
  | Some c => sn_had s && String.eqb c (sn_prev s)
  end.

Definition revert_key (was_armed : bool) (s : rcd_guard_snap) (enacted : list nat) st
    : rcd_guard_snap * list nat * rcd_state S * bool :=
  match rcd_key_find (sn_section s) (sn_key s) with
  | Some k =>
      match rk_provider k with
      | Some p =>
          if unchanged s (guard_get p (rs_sys st)) then
            let enacted := match p_enact p with
                           | Some e => if sn_owed_enact s then add_enact enacted e was_armed else enacted
                           | None => enacted
                           end in
            (s, enacted, rcd_stale_forget (sn_section s) (sn_key s) st, false)
          else
            let '(ok, sys) := p_set p (if sn_had s then sn_prev s else EmptyString) (rs_sys st) in
            let st := st <| rs_sys := sys |> in
            if negb ok then (s, enacted, st, true) else
            match p_enact p with
            | Some e => (s <| sn_owed_enact := true |>, add_enact enacted e was_armed,
                         rcd_stale_forget (sn_section s) (sn_key s) st, false)
            | None => (s, enacted, rcd_stale_forget (sn_section s) (sn_key s) st, false)
            end
      | None => (s, enacted, st, false)
      end
  | None => (s, enacted, st, false)
  end.

Fixpoint revert_keys (was_armed : bool) (snaps : list rcd_guard_snap) (enacted : list nat) (failed : nat) st
    : list rcd_guard_snap * list nat * nat * rcd_state S :=
  match snaps with
  | [] => ([], enacted, failed, st)
  | s :: snaps =>
      let '(s, enacted, st, bad) := revert_key was_armed s enacted st in
      let '(snaps, enacted, failed, st) := revert_keys was_armed snaps enacted (if bad then 1 + failed else failed)%nat st in
      (s :: snaps, enacted, failed, st)
  end.

(** The enacts, after every store is back. *)
Fixpoint revert_enacts (es : list nat) (failed : nat) st : nat * rcd_state S :=
  match es with
  | [] => (failed, st)
  | e :: es =>
      let '(ok, sys) := enact_fn e (rs_sys st) in
      let st := st <| rs_sys := sys |> in
      if negb ok then revert_enacts es (1 + failed)%nat st else
      revert_enacts es failed
        (st <| rs_guard := (fun s => if bool_decide (enact_of (sn_section s) (sn_key s) = Some e)
                                     then s <| sn_owed_enact := false |> else s) <$> rs_guard st |>)
  end.

Definition rcd_guard_revert (now : Z) st : rcd_state S :=
  if (rs_deadline st =? 0) && (length (rs_guard st) =? 0)%nat then st else
  let was_armed := negb (rs_deadline st =? 0) in
  let '(snaps, enacted, failed, st) := revert_keys was_armed (rs_guard st) [] 0 st in
  let '(failed, st) := revert_enacts enacted failed (st <| rs_guard := snaps |>) in
  if (0 <? failed)%nat then guard_retry now st else
  rcd_stale_save (record_clear (st <| rs_deadline := 0 |> <| rs_window := 0 |> <| rs_guard := [] |>
                                   <| rs_retries := 0 |>)).

Definition rcd_guard_tick (now : Z) st : rcd_state S :=
  if rs_deadline st =? 0 then st else
  let asks := rs_wifi_moved st && negb (rs_wifi_ask st =? 0) && (now >=? rs_wifi_ask st) in
  let st := if asks then st <| rs_wifi_ask := u64 (now + RCD_GUARD_WIFI_POLL_MS) |> else st in
  if asks && wifi_settled (rs_sys st) then rcd_guard_confirm st else
  if now <? rs_deadline st then st else rcd_guard_revert now st.

(** ** Startup *)

Fixpoint load_keys (l : list (string * string * option string)) (acc : list rcd_guard_snap) : list rcd_guard_snap :=
  match l with
  | [] => acc
  | (section, key, value) :: l =>
      if rcd_key_find section key is None then load_keys l acc
      else if (RCD_GUARD_MAX <=? length acc)%nat then acc
      else load_keys l (acc ++ [mk_rcd_guard_snap section key (default EmptyString value)
                                  (bool_decide (is_Some value)) false])
  end.

(** A fresh process: [st] has the two files and the camera, and nothing in
    memory.  [now] is read once. *)
Definition rcd_guard_load (now : Z) st : rcd_state S :=
  match rs_record st with
  | None => st
  | Some r =>
      let st := st <| rs_guard := load_keys (gr_keys r) [] |> in
      if negb (gr_armed r) then st else
      let '(deadline, marker_win) := default (0, 0) (rs_marker st) in
      let win := if marker_win >? 0 then marker_win else gr_window r in
      let st := st <| rs_window := if win >? 0 then win else RCD_GUARD_NAME_SEC |> in
      if deadline =? 0 then rcd_guard_revert now st else
      let st := st <| rs_deadline := deadline |> in
      if now >=? deadline then rcd_guard_revert now st else st
  end.

(** ** The verbs *)

Definition rcd_cmd_confirm st : bool * rcd_state S := (negb (rs_deadline st =? 0), rcd_guard_confirm st).

(** (reverted, armed). *)
Definition rcd_cmd_cancel (now : Z) st : bool * bool * rcd_state S :=
  let was := rcd_guard_held st in
  let st := rcd_guard_revert now st in
  let retrying := negb (rs_deadline st =? 0) in
  (was && negb retrying, retrying, st).

(** The turn of a provider's key in rcd_cmd_set: false when the store refused. *)
Definition set_provider (k : rcd_key S) (p : rcd_provider S) (value : string) st : bool * rcd_state S :=
  let st := if rk_guard_sec k >? 0 then rcd_guard_hold st else st in
  let before := p_get p (rs_sys st) in
  let '(ok, sys) := p_set p value (rs_sys st) in
  let st := st <| rs_sys := sys |> in
  if negb ok then (false, st) else
  if bool_decide (before = p_get p (rs_sys st)) then (true, st) else
  (true, if p_enact p is Some _ then rcd_stale_add (rk_section k) (rk_key k) st else st).

(** enact_system of rcd_apply.c. *)
Fixpoint enact_loop (es : list nat) (done ok : list nat) st : list nat * rcd_state S :=
  match es with
  | [] => (ok, st)
  | e :: es =>
      if existsb (Nat.eqb e) done then enact_loop es done ok st else
      let '(r, sys) := enact_fn e (rs_sys st) in
      enact_loop es (done ++ [e]) (if r then ok ++ [e] else ok) (st <| rs_sys := sys |>)
  end.

Definition enact_system (now : Z) st : rcd_state S :=
  let owed := rcd_enact_owed st in
  if (length owed =? 0)%nat then st else
  let window := foldr Z.max 0 (rk_guard_sec <$> owed) in
  let st := if window =? 0 then st else rcd_guard_arm now window st in
  let '(ok, st) := enact_loop (omap (fun k => enact_of (rk_section k) (rk_key k)) owed) [] [] st in
  rcd_enact_done ok st.

End guard.
