(* ===== verification/RcdGuardProps.v ===== *)
(** * rcd: what the guard promises

    The promises of the providers are a record of laws; the theorems about the
    guard are proved against it, and a small camera at the end of the file
    satisfies it. *)

From stdpp Require Import list strings sets.
From S2P Require Import Prelude RcdGuard.

Section laws.
Context {S : Type} (keys : list (rcd_key S)) (enact_fn : nat -> S -> bool * S).

Definition prov (id : string * string) : option (rcd_provider S) := rcd_key_find keys id.1 id.2 ≫= rk_provider.

(** What a provider promises on cameras that are [wf]: a value its store once
    held is held again after a write of it, no other store moves, a refused
    write moves nothing, and enacting moves no store but puts what the stores
    hold into force.  [running] is what is in force. *)
Record provider_laws (wf : S -> Prop) (running : string * string -> S -> option string) : Prop := {
  pl_wf_set id p v s b s' : prov id = Some p -> wf s -> p_set p v s = (b, s') -> wf s';
  pl_wf_enact e s b s' : wf s -> enact_fn e s = (b, s') -> wf s';
  pl_set_own id p s0 s s' : prov id = Some p -> wf s0 -> wf s ->
    p_set p (default EmptyString (guard_get p s0)) s = (true, s') -> guard_get p s' = guard_get p s0;
  pl_set_other id p id' p' v s b s' : prov id = Some p -> prov id' = Some p' -> id' <> id -> wf s ->
    p_set p v s = (b, s') -> guard_get p' s' = guard_get p' s;
  pl_set_fail id p v s s' : prov id = Some p -> wf s -> p_set p v s = (false, s') -> guard_get p s' = guard_get p s;
  pl_enact_get id p e s b s' : prov id = Some p -> wf s -> enact_fn e s = (b, s') -> guard_get p s' = guard_get p s;
  pl_run_set id p id' v s b s' : prov id = Some p -> wf s -> p_set p v s = (b, s') -> running id' s' = running id' s;
  pl_run_enact id p e s s' : prov id = Some p -> p_enact p = Some e -> wf s -> enact_fn e s = (true, s') ->
    running id s' = guard_get p s;
  pl_run_other id p e s b s' : prov id = Some p -> p_enact p <> Some e -> wf s -> enact_fn e s = (b, s') ->
    running id s' = running id s
}.

Context (wf : S -> Prop) (running : string * string -> S -> option string) (L : provider_laws wf running).

Definition sn_id (s : rcd_guard_snap) : string * string := (sn_section s, sn_key s).
Definition sn_val (s : rcd_guard_snap) : option string := if sn_had s then Some (sn_prev s) else None.

(** A snapshot entry that was read from a camera. *)
Definition taken (s : rcd_guard_snap) : Prop := exists p s0, prov (sn_id s) = Some p /\ wf s0 /\
  guard_get p s0 = sn_val s /\ (sn_had s = false -> sn_prev s = EmptyString).

Definition store (id : string * string) (s : S) : option string := prov id ≫= fun p => guard_get p s.

Definition enact_id (id : string * string) : option nat := prov id ≫= p_enact.

Lemma store_prov id p s : prov id = Some p -> store id s = guard_get p s.
Proof. intros H. unfold store. by rewrite H. Qed.

Lemma unchanged_spec s cur : unchanged s cur = bool_decide (cur = sn_val s).
Proof.
  unfold unchanged, sn_val. destruct cur as [c|], (sn_had s); cbn [negb andb].
  - destruct (String.eqb_spec c (sn_prev s)) as [->|Hne]; [by rewrite bool_decide_true|].
    symmetry. apply bool_decide_false. congruence.
  - by rewrite bool_decide_false.
  - by rewrite bool_decide_false.
  - by rewrite bool_decide_true.
Qed.

Lemma find_prov s p : prov (sn_id s) = Some p ->
  exists k, rcd_key_find keys (sn_section s) (sn_key s) = Some k /\ rk_provider k = Some p.
Proof.
  unfold prov. cbn [sn_id fst snd]. destruct (rcd_key_find keys _ _) as [k|]; [|done]. intros H. by exists k.
Qed.

Lemma enact_of_prov s p : prov (sn_id s) = Some p -> enact_of keys (sn_section s) (sn_key s) = p_enact p.
Proof. intros H. destruct (find_prov s p H) as (k & Hk & Hp). unfold enact_of. by rewrite Hk, Hp. Qed.

Lemma add_enact_in l e : (length l < RCD_GUARD_MAX)%nat -> e ∈ add_enact l e true.
Proof.
  intros Hl. unfold add_enact. cbn [negb orb]. rewrite (proj2 (Nat.leb_gt _ _)) by done.
  destruct (existsb (Nat.eqb e) l) eqn:E; [|set_solver].
  apply existsb_exists in E as (x & Hx & Heq). apply Nat.eqb_eq in Heq as <-. by apply list_elem_of_In.
Qed.

Lemma add_enact_mono l e b : l ⊆ add_enact l e b.
Proof. unfold add_enact. repeat case_match; set_solver. Qed.

Lemma add_enact_from l e b e' : e' ∈ add_enact l e b -> e' ∈ l \/ e' = e.
Proof. unfold add_enact. repeat case_match; set_solver. Qed.

Lemma add_enact_nodup l e b : NoDup l -> NoDup (add_enact l e b).
Proof.
  intros H. unfold add_enact. destruct (_ || _); [done|]. destruct (existsb (Nat.eqb e) l) eqn:E; [done|].
  apply NoDup_app. split; [done|]. split; [|apply NoDup_singleton].
  intros x Hx Hin. apply list_elem_of_singleton in Hin as ->. apply not_true_iff_false in E. apply E.
  apply existsb_exists. exists e. split; [by apply list_elem_of_In|apply Nat.eqb_refl].
Qed.

Lemma add_enact_length l e b : (length (add_enact l e b) <= 1 + length l)%nat.
Proof. unfold add_enact. repeat case_match; rewrite ?length_app; cbn; lia. Qed.

(** ** One key's turn *)

(** A key that has to be enacted again: its store moved, or an earlier attempt
    could not put it into force. *)
Definition due (s : rcd_guard_snap) (sys : S) : Prop := store (sn_id s) sys <> sn_val s \/ sn_owed_enact s = true.

(** The turn of [s], on an armed guard or a held one: what it does to the
    camera and which enacts it asks for. *)
Record turn (wa : bool) (s s' : rcd_guard_snap) (en en' : list nat) (st st' : rcd_state S) (bad : bool) : Prop := {
  tn_id : sn_id s' = sn_id s /\ sn_val s' = sn_val s /\ sn_had s' = sn_had s /\ sn_prev s' = sn_prev s;
  tn_wf : wf (rs_sys st');
  tn_other : forall id, id <> sn_id s -> store id (rs_sys st') = store id (rs_sys st);
  tn_run : forall id, running id (rs_sys st') = running id (rs_sys st);
  tn_own : bad = false -> store (sn_id s) (rs_sys st') = sn_val s;
  tn_enact : wa = true -> bad = false -> (store (sn_id s) (rs_sys st) <> sn_val s \/ sn_owed_enact s = true) ->
    forall p e, prov (sn_id s) = Some p -> p_enact p = Some e -> e ∈ en';
  tn_mono : en ⊆ en' /\ (length en' <= 1 + length en)%nat;
  tn_due : is_Some (enact_id (sn_id s)) -> due s (rs_sys st) -> due s' (rs_sys st');
  tn_from : forall e, e ∈ en' -> e ∈ en \/ enact_id (sn_id s) = Some e /\ sn_owed_enact s' = true;
  tn_nodup : NoDup en -> NoDup en';
  tn_held : wa = false -> en' = en;
  tn_frame : exists sys stale, st' = st <| rs_sys := sys |> <| rs_stale := stale |>
}.

Lemma revert_key_turn wa s en st s' en' st' bad : taken s -> wf (rs_sys st) -> (length en < RCD_GUARD_MAX)%nat ->
  revert_key keys wa s en st = (s', en', st', bad) -> turn wa s s' en en' st st' bad.
Proof.
  intros (p & s0 & Hp & Hw0 & Hv & Hd) Hw Hl E. unfold revert_key in E.
  destruct (find_prov s p Hp) as (k & Hk & Hkp). rewrite Hk, Hkp, unchanged_spec in E.
  destruct (decide (guard_get p (rs_sys st) = sn_val s)) as [Heq|Hne].
  - rewrite bool_decide_true in E by done. injection E as <- <- <- <-.
    split; try done; [by intros _; rewrite (store_prov _ p)|..]; unfold enact_id; rewrite ?Hp; cbn [mbind option_bind].
    + intros -> _ [Hs|Ho] p' e Hp' He; [by rewrite (store_prov _ p) in Hs|].
      injection Hp' as <-. rewrite He, Ho. by apply add_enact_in.
    + destruct (p_enact p) as [e|]; [destruct (sn_owed_enact s)|]; try (split; [set_solver|lia]).
      split; [apply add_enact_mono|apply add_enact_length].
    + intros e He. destruct (p_enact p) as [e'|]; [destruct (sn_owed_enact s)|]; [|by left..].
      apply add_enact_from in He as [He| ->]; [by left|by right].
    + intros Hnd. destruct (p_enact p) as [e'|]; [destruct (sn_owed_enact s)|]; try done. by apply add_enact_nodup.
    + intros ->. by destruct (p_enact p), (sn_owed_enact s).
    + exists (rs_sys st), (rs_stale (rcd_stale_forget (sn_section s) (sn_key s) st)). by destruct st.
  - rewrite bool_decide_false in E by done.
    destruct (p_set p (if sn_had s then sn_prev s else EmptyString) (rs_sys st)) as [ok sys] eqn:Es.
    assert (Hval : (if sn_had s then sn_prev s else EmptyString) = default EmptyString (guard_get p s0)).
    { rewrite Hv. unfold sn_val. by destruct (sn_had s). }
    assert (Hwf : wf sys) by (eapply (pl_wf_set _ _ L); eauto).
    assert (Hoth : forall id, id <> sn_id s -> store id sys = store id (rs_sys st)).
    { intros id Hid. unfold store. destruct (prov id) as [p'|] eqn:Hp'; [|done]. cbn [mbind option_bind].
      eapply (pl_set_other _ _ L (sn_id s) p id p'); eauto. }
    assert (Hrun : forall id, running id sys = running id (rs_sys st)).
    { intros id. eapply (pl_run_set _ _ L); eauto. }
    destruct ok; cbn [negb] in E.
    + assert (Hown : store (sn_id s) sys = sn_val s).
      { rewrite (store_prov _ p), <- Hv by done. rewrite Hval in Es.
        exact (pl_set_own _ _ L _ p s0 _ _ Hp Hw0 Hw Es). }
      destruct (p_enact p) as [e|] eqn:He; injection E as <- <- <- <-;
        (split; try done; [..|by eexists _, _]); unfold enact_id; rewrite ?Hp; cbn [mbind option_bind]; rewrite ?He.
      * intros -> _ _ p' e' Hp' He'. injection Hp' as <-. rewrite He in He'. injection He' as <-. by apply add_enact_in.
      * split; [apply add_enact_mono|apply add_enact_length].
      * intros _ _. by right.
      * intros e' He'. apply add_enact_from in He' as [?| ->]; [by left|by right].
      * apply add_enact_nodup.
      * by intros ->.
      * intros _ _ _ p' e' Hp' He'. injection Hp' as <-. congruence.
      * split; [set_solver|lia].
      * by intros [? ?].
      * intros e' ?. by left.
    + injection E as <- <- <- <-. split; try done; [split; [set_solver|lia]|..].
      * intros _ _. left. rewrite (store_prov _ p) by done. change (guard_get p sys <> sn_val s).
        by rewrite (pl_set_fail _ _ L _ p _ _ _ Hp Hw Es).
      * intros e He. by left.
      * exists sys, (rs_stale st). by destruct st.
Qed.

(** ** All keys, then the enacts *)

Definition same_entry (s s' : rcd_guard_snap) : Prop :=
  sn_id s' = sn_id s /\ sn_val s' = sn_val s /\ sn_had s' = sn_had s /\ sn_prev s' = sn_prev s.

Lemma same_entry_taken s s' : same_entry s s' -> taken s -> taken s'.
Proof. intros (H1 & H2 & H3 & H4) (p & s0 & Hp). exists p, s0. by rewrite H1, H2, H3, H4. Qed.

Record put_back (wa : bool) (snaps : list rcd_guard_snap) (sys : S) (en : list nat) (sys' : S) : Prop := {
  pb_store : forall s, s ∈ snaps -> store (sn_id s) sys' = sn_val s;
  pb_enact : wa = true -> forall s p e, s ∈ snaps -> due s sys -> prov (sn_id s) = Some p -> p_enact p = Some e -> e ∈ en
}.

Lemma Forall2_impl_in {A B} (P Q : A -> B -> Prop) l k : Forall2 P l k ->
  (forall x y, x ∈ l -> y ∈ k -> P x y -> Q x y) -> Forall2 Q l k.
Proof.
  induction 1 as [|x y l k Hxy H IH]; intros HQ; constructor; [by apply HQ; [left|left|]|].
  apply IH. intros x' y' ? ?. apply HQ; by right.
Qed.

Record keys_turn (wa : bool) (snaps snaps' : list rcd_guard_snap) (en en' : list nat) (failed failed' : nat)
    (st st' : rcd_state S) : Prop := {
  kt_failed : (failed <= failed')%nat;
  kt_same : Forall2 same_entry snaps snaps';
  kt_wf : wf (rs_sys st');
  kt_other : forall id, id ∉ sn_id <$> snaps -> store id (rs_sys st') = store id (rs_sys st);
  kt_run : forall id, running id (rs_sys st') = running id (rs_sys st);
  kt_mono : en ⊆ en';
  kt_back : failed' = failed -> put_back wa snaps (rs_sys st) en' (rs_sys st');
  kt_due : Forall2 (fun s s' => is_Some (enact_id (sn_id s)) -> due s (rs_sys st) -> due s' (rs_sys st')) snaps snaps';
  kt_from : forall e, e ∈ en' -> e ∈ en \/ exists s', s' ∈ snaps' /\ enact_id (sn_id s') = Some e /\ sn_owed_enact s' = true;
  kt_nodup : NoDup en -> NoDup en';
  kt_held : wa = false -> en' = en;
  kt_frame : exists sys stale, st' = st <| rs_sys := sys |> <| rs_stale := stale |>
}.

Lemma revert_keys_turn wa snaps : forall en failed st snaps' en' failed' st',
  Forall taken snaps -> NoDup (sn_id <$> snaps) -> wf (rs_sys st) ->
  (length en + length snaps <= RCD_GUARD_MAX)%nat ->
  revert_keys keys wa snaps en failed st = (snaps', en', failed', st') ->
  keys_turn wa snaps snaps' en en' failed failed' st st'.
Proof.
  induction snaps as [|s snaps IH]; intros en failed st snaps' en' failed' st' Ht Hnd Hw Hl E.
  - cbn [revert_keys] in E. injection E as <- <- <- <-. split; try done; [..|by exists (rs_sys st), (rs_stale st); destruct st].
    + intros _. split; set_solver.
    + intros e ?. by left.
  - apply Forall_cons in Ht as [Hs Ht]. cbn [fmap list_fmap] in Hnd. apply NoDup_cons in Hnd as [Hni Hnd].
    cbn [length] in Hl. cbn [revert_keys] in E.
    destruct (revert_key keys wa s en st) as [[[s1 en1] st1] bad] eqn:E1.
    pose proof (revert_key_turn wa s en st s1 en1 st1 bad Hs Hw ltac:(lia) E1) as [T1 T2 T3 T4 T5 T6 [T7 T8] T9 T10 T11 T12 T13].
    destruct (revert_keys keys wa snaps en1 _ st1) as [[[l2 en2] f2] st2] eqn:E2. injection E as <- <- <- <-.
    assert (Hl1 : (length en1 + length snaps <= RCD_GUARD_MAX)%nat) by lia.
    destruct (IH _ _ _ _ _ _ _ Ht Hnd T2 Hl1 E2) as [K1 K2 K3 K4 K5 K6 K7 K8 K9 K10 K11 K12].
    split.
    + destruct bad; lia.
    + by constructor.
    + done.
    + intros id Hid. cbn [fmap list_fmap] in Hid. apply not_elem_of_cons in Hid as [Hid1 Hid2]. rewrite K4, T3 by done. done.
    + intros id. by rewrite K5, T4.
    + set_solver.
    + intros Hf. destruct bad; [lia|]. destruct (K7 Hf) as [B1 B2]. split.
      * intros x Hx. apply elem_of_cons in Hx as [->|Hx]; [|by apply B1]. rewrite K4 by done. by apply T5.
      * intros Ha x p e Hx Hdue Hp He. apply elem_of_cons in Hx as [->|Hx]; [by apply K6, (T6 Ha eq_refl Hdue p e)|].
        apply (B2 Ha x p e Hx); [|done|done]. destruct Hdue as [Hd|Ho]; [left|by right]. rewrite T3; [done|].
        intros Heq. apply Hni. rewrite <- Heq. by apply list_elem_of_fmap_2.
    + constructor.
      * intros He Hdue. destruct (T9 He Hdue) as [Hd|Ho]; [left|by right].
        destruct T1 as (T1 & _). rewrite K4 by (by rewrite T1). exact Hd.
      * eapply Forall2_impl_in; [exact K8|]. intros x y Hx _ HK He Hdue. apply HK; [done|].
        destruct Hdue as [Hd|Ho]; [left|by right]. rewrite T3; [done|].
        intros Heq. apply Hni. rewrite <- Heq. by apply list_elem_of_fmap_2.
    + intros e He. destruct (K9 e He) as [He1|(s' & Hs' & Hr)]; [|right; exists s'; split; [by right|done]].
      destruct (T10 e He1) as [?|[Hid Ho]]; [by left|right]. exists s1. destruct T1 as (T1 & _).
      split; [by left|]. by rewrite T1.
    + auto.
    + intros Ha. by rewrite (K11 Ha), (T12 Ha).
    + destruct T13 as (sys1 & x1 & ->). destruct K12 as (sys2 & x2 & ->). by exists sys2, x2.
Qed.

Record enacts_turn (es : list nat) (failed failed' : nat) (st st' : rcd_state S) : Prop := {
  et_failed : (failed <= failed')%nat;
  et_wf : wf (rs_sys st');
  et_store : forall id, store id (rs_sys st') = store id (rs_sys st);
  et_run : failed' = failed -> forall id p e, prov id = Some p -> p_enact p = Some e -> e ∈ es ->
    running id (rs_sys st') = store id (rs_sys st);
  et_still : forall id p, prov id = Some p -> (forall e, p_enact p = Some e -> e ∉ es) ->
    running id (rs_sys st') = running id (rs_sys st);
  et_frame : exists sys g, st' = st <| rs_sys := sys |> <| rs_guard := g |> /\ Forall2 same_entry (rs_guard st) g
}.

Lemma same_refl l : Forall2 same_entry l l.
Proof. induction l; constructor; [by split_and!|done]. Qed.

Lemma same_trans l1 l2 l3 : Forall2 same_entry l1 l2 -> Forall2 same_entry l2 l3 -> Forall2 same_entry l1 l3.
Proof.
  intros H. revert l3. induction H as [|x y l l' (X1 & X2 & X3 & X4) H IH]; intros l3 H3; inversion H3; subst; constructor.
  - match goal with Hy : same_entry y _ |- _ => destruct Hy as (Y1 & Y2 & Y3 & Y4) end. split_and!; congruence.
  - by apply IH.
Qed.

Lemma enact_store e st b sys id : wf (rs_sys st) -> enact_fn e (rs_sys st) = (b, sys) ->
  store id sys = store id (rs_sys st).
Proof.
  intros Hw E. unfold store. destruct (prov id) as [p|] eqn:Hp; [|done]. cbn [mbind option_bind].
  eapply (pl_enact_get _ _ L); eauto.
Qed.

Lemma revert_enacts_turn es : forall failed st failed' st', wf (rs_sys st) ->
  revert_enacts keys enact_fn es failed st = (failed', st') -> enacts_turn es failed failed' st st'.
Proof.
  induction es as [|e es IH]; intros failed st failed' st' Hw E; cbn [revert_enacts] in E.
  - injection E as <- <-. split; try done; [set_solver|].
    exists (rs_sys st), (rs_guard st). split; [by destruct st|apply same_refl].
  - destruct (enact_fn e (rs_sys st)) as [ok sys] eqn:Ee.
    assert (Hw1 : wf sys) by (eapply (pl_wf_enact _ _ L); eauto).
    assert (Hst1 : forall id, store id sys = store id (rs_sys st)) by (intros id; by eapply enact_store).
    set (g := (fun s => if bool_decide (enact_of keys (sn_section s) (sn_key s) = Some e)
                        then s <| sn_owed_enact := false |> else s) <$> rs_guard st).
    assert (Hg : Forall2 same_entry (rs_guard st) g).
    { unfold g. apply Forall2_fmap_r. eapply Forall2_impl; [apply same_refl|]. intros x y Hxy. cbv beta delta [compose].
      destruct (bool_decide (enact_of keys (sn_section y) (sn_key y) = Some e)); exact Hxy. }
    destruct ok; cbn [negb] in E.
    + destruct (IH failed (st <| rs_sys := sys |> <| rs_guard := g |>) failed' st') as [E1 E2 E3 E4 E5 E6]; [exact Hw1|exact E|].
      split; [done|done| | | |].
      * intros id. rewrite E3. apply Hst1.
      * intros Hf id p e' Hp He' Hin. destruct (decide (e' ∈ es)) as [Hin'|Hn].
        { rewrite (E4 Hf id p e' Hp He' Hin'). apply Hst1. }
        assert (e' = e) as -> by set_solver.
        rewrite (E5 id p Hp). 2: { intros e' He''. rewrite He' in He''. by injection He'' as <-. }
        rewrite (store_prov _ p) by done. exact (pl_run_enact _ _ L id p e _ _ Hp He' Hw Ee).
      * intros id p Hp Hn. rewrite (E5 id p Hp) by set_solver.
        eapply (pl_run_other _ _ L); eauto. intros He. apply (Hn e He). set_solver.
      * destruct E6 as (sys2 & g2 & -> & Hg2). exists sys2, g2. split; [done|].
        by eapply same_trans.
    + destruct (IH (1 + failed)%nat (st <| rs_sys := sys |>) failed' st') as [E1 E2 E3 E4 E5 E6]; [exact Hw1|exact E|].
      split; [lia|done| |lia| |].
      * intros id. rewrite E3. apply Hst1.
      * intros id p Hp Hn. rewrite (E5 id p Hp) by set_solver.
        eapply (pl_run_other _ _ L); eauto. intros He. apply (Hn e He). set_solver.
      * destruct E6 as (sys2 & g2 & -> & Hg2). by exists sys2, g2.
Qed.

(** Every key is in force with its old value, or some key that shares its
    enact is still due, so that the next attempt runs that enact again. *)
Definition tracked (g : list rcd_guard_snap) (sys : S) : Prop := forall s e, s ∈ g -> enact_id (sn_id s) = Some e ->
  (exists s2, s2 ∈ g /\ enact_id (sn_id s2) = Some e /\ due s2 sys) \/ running (sn_id s) sys = sn_val s.

Lemma enact_id_prov id e : enact_id id = Some e -> exists p, prov id = Some p /\ p_enact p = Some e.
Proof. unfold enact_id. destruct (prov id) as [p|]; [|done]. intros H. by exists p. Qed.

Lemma enact_of_id s : enact_of keys (sn_section s) (sn_key s) = enact_id (sn_id s).
Proof.
  unfold enact_of, enact_id, prov. cbn [sn_id fst snd]. destruct (rcd_key_find keys _ _) as [k|]; [|done].
  cbn [mbind option_bind]. by destruct (rk_provider k).
Qed.

Definition cleared (e : nat) (s : rcd_guard_snap) : rcd_guard_snap :=
  if bool_decide (enact_of keys (sn_section s) (sn_key s) = Some e) then s <| sn_owed_enact := false |> else s.

Lemma cleared_same e s : sn_id (cleared e s) = sn_id s /\ sn_val (cleared e s) = sn_val s.
Proof. unfold cleared. by destruct (bool_decide _). Qed.

Lemma cleared_other e s : enact_id (sn_id s) <> Some e -> cleared e s = s.
Proof. intros H. unfold cleared. rewrite enact_of_id. by rewrite bool_decide_false. Qed.

Lemma due_ext s sys sys' : store (sn_id s) sys' = store (sn_id s) sys -> due s sys -> due s sys'.
Proof. intros H [?|?]; [left; by rewrite H|by right]. Qed.

Lemma tracked_enact_ok e (st : rcd_state S) sys : wf (rs_sys st) -> enact_fn e (rs_sys st) = (true, sys) ->
  tracked (rs_guard st) (rs_sys st) -> tracked (cleared e <$> rs_guard st) sys.
Proof.
  intros Hw Ee Ht s' e' Hs' He'. apply list_elem_of_fmap in Hs' as (s & -> & Hs).
  destruct (cleared_same e s) as [Hid Hv]. rewrite Hid, Hv in *.
  destruct (enact_id_prov _ _ He') as (p & Hp & Hpe).
  pose proof (enact_store e st true sys) as Hst.
  destruct (decide (e' = e)) as [->|Hne].
  - pose proof (pl_run_enact _ _ L _ p e _ _ Hp Hpe Hw Ee) as Hr.
    destruct (decide (store (sn_id s) sys = sn_val s)) as [Heq|Hn].
    + right. rewrite Hr, <- (store_prov _ p) by done. by rewrite <- Hst.
    + left. exists (cleared e s). rewrite Hid. split; [by apply list_elem_of_fmap_2|]. split; [done|].
      left. by rewrite Hid, Hv.
  - destruct (Ht s e' Hs He') as [(s2 & Hs2 & He2 & Hd2)|Hr]; [left|right].
    + exists s2. split; [|split; [done|by apply (due_ext _ (rs_sys st)); [apply Hst|]]].
      rewrite <- (cleared_other e s2) by congruence. by apply list_elem_of_fmap_2.
    + rewrite <- Hr. eapply (pl_run_other _ _ L); eauto. congruence.
Qed.

Lemma tracked_enact_fail e (st : rcd_state S) sys : wf (rs_sys st) -> enact_fn e (rs_sys st) = (false, sys) ->
  (exists s, s ∈ rs_guard st /\ enact_id (sn_id s) = Some e /\ sn_owed_enact s = true) ->
  tracked (rs_guard st) (rs_sys st) -> tracked (rs_guard st) sys.
Proof.
  intros Hw Ee (so & Hso & Heo & Hoo) Ht s e' Hs He'. destruct (enact_id_prov _ _ He') as (p & Hp & Hpe).
  destruct (decide (e' = e)) as [->|Hne]; [left; exists so; by split_and!; [..|right]|].
  destruct (Ht s e' Hs He') as [(s2 & Hs2 & He2 & Hd2)|Hr]; [left|right].
  - exists s2. split; [done|]. split; [done|]. apply (due_ext _ (rs_sys st)); [|done]. by eapply enact_store.
  - rewrite <- Hr. eapply (pl_run_other _ _ L); eauto. congruence.
Qed.

Lemma revert_enacts_tracked es : forall failed (st : rcd_state S) failed' st', wf (rs_sys st) -> NoDup es ->
  (forall e, e ∈ es -> exists s, s ∈ rs_guard st /\ enact_id (sn_id s) = Some e /\ sn_owed_enact s = true) ->
  tracked (rs_guard st) (rs_sys st) -> revert_enacts keys enact_fn es failed st = (failed', st') ->
  tracked (rs_guard st') (rs_sys st').
Proof.
  induction es as [|e es IH]; intros failed st failed' st' Hw Hnd Ho Ht E; cbn [revert_enacts] in E;
    [by injection E as <- <-|].
  apply NoDup_cons in Hnd as [Hni Hnd]. destruct (enact_fn e (rs_sys st)) as [ok sys] eqn:Ee.
  assert (Hw1 : wf sys) by (eapply (pl_wf_enact _ _ L); eauto).
  destruct ok; cbn [negb] in E.
  - apply IH in E; [done|done|done| |exact (tracked_enact_ok e st sys Hw Ee Ht)].
    intros e' He'. destruct (Ho e' ltac:(by right)) as (s & Hs & Hse & Hso). exists s. split; [|done].
    change (s ∈ cleared e <$> rs_guard st). rewrite <- (cleared_other e s) by (intros Heq; rewrite Hse in Heq; injection Heq as ->; done).
    by apply list_elem_of_fmap_2.
  - apply IH in E; [done|done|done| |].
    + intros e' He'. apply Ho. by right.
    + apply (tracked_enact_fail e st sys Hw Ee); [|done]. apply Ho. by left.
Qed.

(** ** A revert *)

Lemma keys_tracked snaps snaps' sys sys' : Forall2 same_entry snaps snaps' ->
  Forall2 (fun s s' => is_Some (enact_id (sn_id s)) -> due s sys -> due s' sys') snaps snaps' ->
  (forall id, running id sys' = running id sys) -> tracked snaps sys -> tracked snaps' sys'.
Proof.
  intros Hsame Hdue Hrun Ht s' e Hs' He. apply list_elem_of_lookup in Hs' as [i Hi].
  destruct (Forall2_lookup_r _ _ _ _ _ Hsame Hi) as (s & Hsi & (Hid & Hv & _)).
  rewrite Hid, Hv in *.
  destruct (Ht s e) as [(s2 & Hs2 & He2 & Hd2)|Hr]; [by eapply list_elem_of_lookup_2|done|left|right; by rewrite Hrun].
  apply list_elem_of_lookup in Hs2 as [j Hj].
  destruct (Forall2_lookup_l _ _ _ _ _ Hdue Hj) as (s2' & Hj' & Hd).
  destruct (Forall2_lookup_l _ _ _ _ _ Hsame Hj) as (s2'' & Hj'' & (Hid2 & _)).
  rewrite Hj' in Hj''. injection Hj'' as <-. exists s2'. split; [by eapply list_elem_of_lookup_2|].
  rewrite Hid2. split; [done|]. apply Hd; [by rewrite He2|done].
Qed.

(** A snapshot as the guard holds it. *)
Record snapshot_ok (snaps : list rcd_guard_snap) : Prop := {
  so_taken : Forall taken snaps;
  so_nodup : NoDup (sn_id <$> snaps);
  so_size : (length snaps <= RCD_GUARD_MAX)%nat
}.

(** The camera is back on the snapshot. *)
Definition restored (snaps : list rcd_guard_snap) (st st' : rcd_state S) : Prop :=
  (forall s, s ∈ snaps -> store (sn_id s) (rs_sys st') = sn_val s) /\
  (forall s e, s ∈ snaps -> enact_id (sn_id s) = Some e ->
     (exists s2, s2 ∈ snaps /\ enact_id (sn_id s2) = Some e /\ due s2 (rs_sys st)) \/
       running (sn_id s) (rs_sys st) = sn_val s ->
     running (sn_id s) (rs_sys st') = sn_val s) /\
  (forall id, id ∉ sn_id <$> snaps -> store id (rs_sys st') = store id (rs_sys st)).

Lemma armed_write_keeps (st : rcd_state S) : rs_guard (armed_write st) = rs_guard st /\ rs_deadline (armed_write st) = rs_deadline st /\
  rs_retries (armed_write st) = rs_retries st /\ rs_record (armed_write st) = rs_record st /\ rs_sys (armed_write st) = rs_sys st.
Proof. unfold armed_write. by destruct (rs_flash_fails st), (rs_run_fails st) as [|[] ?]. Qed.

Lemma revert_outcome now (st : rcd_state S) : snapshot_ok (rs_guard st) -> wf (rs_sys st) -> rs_deadline st <> 0 ->
  let st' := rcd_guard_revert keys enact_fn now st in
  wf (rs_sys st') /\
  (rs_guard st' = [] /\ rs_deadline st' = 0 /\ rs_record st' = None /\ rs_marker st' = None /\
     rs_retries st' = 0 /\ restored (rs_guard st) st st') \/
  (Forall2 same_entry (rs_guard st) (rs_guard st') /\ rs_deadline st' = u64 (now + RCD_GUARD_RETRY_MS) /\
     rs_record st' = rs_record st /\ rs_retries st < RCD_GUARD_RETRIES /\ rs_retries st' = rs_retries st + 1 /\ wf (rs_sys st') /\
     (tracked (rs_guard st) (rs_sys st) -> tracked (rs_guard st') (rs_sys st'))) \/
  (rs_guard st' = [] /\ rs_deadline st' = 0 /\ rs_record st' = rs_record st /\ rs_marker st' = None /\
     RCD_GUARD_RETRIES <= rs_retries st /\ wf (rs_sys st')).
Proof.
  intros [Ht Hnd Hsz] Hw Hd. cbn zeta. unfold rcd_guard_revert.
  rewrite (proj2 (Z.eqb_neq _ _)) by done. cbn [negb andb].
  destruct (revert_keys keys true (rs_guard st) [] 0 st) as [[[snaps en] f1] st1] eqn:E1.
  destruct (revert_keys_turn true _ [] _ _ _ _ _ _ Ht Hnd Hw Hsz E1) as [K1 K2 K3 K4 K5 K6 K7 K8 K9 K10 _ K11].
  destruct (revert_enacts keys enact_fn en f1 (st1 <| rs_guard := snaps |>)) as [f2 st2] eqn:E2.
  destruct (revert_enacts_turn en f1 (st1 <| rs_guard := snaps |>) f2 st2) as [T1 T2 T3 T4 T5 T6]; [exact K3|exact E2|].
  destruct K11 as (sys1 & x1 & Hst1). destruct T6 as (sys2 & g2 & Hst2 & Hg2).
  assert (Hsame : Forall2 same_entry (rs_guard st) (rs_guard st2)).
  { eapply same_trans; [exact K2|]. rewrite Hst2. exact Hg2. }
  destruct (Nat.ltb_spec 0 f2) as [Hf|Hf].
  - right. unfold guard_retry.
    assert (Hret : rs_retries st2 = rs_retries st) by (by rewrite Hst2, Hst1).
    assert (Hrec : rs_record st2 = rs_record st) by (by rewrite Hst2, Hst1).
    change (rs_retries (rcd_stale_save st2)) with (rs_retries st2). rewrite Hret.
    destruct (Z.ltb_spec (rs_retries st) RCD_GUARD_RETRIES) as [Hlt|Hge]; [left|right].
    + match goal with |- context [armed_write ?a] => destruct (armed_write_keeps a) as (A1 & A2 & A3 & A4 & A5) end.
      rewrite A1, A2, A3, A4, A5.
      split; [exact Hsame|]. split; [done|]. split; [exact Hrec|]. split; [done|]. split; [done|]. split; [exact T2|].
      intros Htr. change (tracked (rs_guard st2) (rs_sys st2)).
      eapply (revert_enacts_tracked en f1 (st1 <| rs_guard := snaps |>)); [exact K3| | | |exact E2].
      * apply K10, NoDup_nil_2.
      * intros e He. destruct (K9 e He) as [?|?]; [set_solver|done].
      * exact (keys_tracked _ _ _ _ K2 K8 K5 Htr).
    + split; [done|]. split; [done|]. split; [exact Hrec|]. split; [done|]. split; [done|exact T2].
  - left. assert (f2 = f1 /\ f1 = 0%nat) as [-> ->] by lia. destruct (K7 eq_refl) as [B1 B2].
    split; [exact T2|]. split; [done|]. split; [done|]. split; [done|]. split; [done|]. split; [done|].
    split; [|split].
    + intros s Hs. etransitivity; [exact (T3 (sn_id s))|]. by apply B1.
    + intros s e Hs He' Hor. destruct (enact_id_prov _ _ He') as (p & Hp & He).
      change (running (sn_id s) (rs_sys st2) = sn_val s).
      destruct (decide (e ∈ en)) as [Hin|Hn].
      * rewrite (T4 eq_refl _ p e Hp He Hin). by apply B1.
      * rewrite (T5 _ p Hp) by (intros e2 Hx; rewrite He in Hx; by injection Hx as <-).
        etransitivity; [apply K5|]. destruct Hor as [(s2 & Hs2 & He2 & Hdue)|Hr]; [|done].
        destruct (enact_id_prov _ _ He2) as (p2 & Hp2 & Hpe2). by destruct (Hn (B2 eq_refl s2 p2 e Hs2 Hdue Hp2 Hpe2)).
    + intros id Hid. etransitivity; [exact (T3 id)|]. by apply K4.
Qed.

(** ** The snapshot *)

Definition guarded (k : rcd_key S) : Prop := 0 < rk_guard_sec k /\ is_Some (rk_provider k).
#[local] Instance guarded_dec k : Decision (guarded k).
Proof. unfold guarded. apply _. Defined.

Definition rk_id (k : rcd_key S) : string * string := (rk_section k, rk_key k).

(** No row hides a guarded one, and a snapshot holds them all. *)
Record table_ok : Prop := {
  to_find : forall k, k ∈ keys -> guarded k -> rcd_key_find keys (rk_section k) (rk_key k) = Some k;
  to_nodup : NoDup (rk_id <$> filter guarded keys);
  to_fits : (length (filter guarded keys) <= RCD_GUARD_MAX)%nat
}.

Definition entry (sys : S) (k : rcd_key S) : rcd_guard_snap :=
  mk_rcd_guard_snap (rk_section k) (rk_key k)
    (default EmptyString (rk_provider k ≫= fun p => guard_get p sys))
    (bool_decide (is_Some (rk_provider k ≫= fun p => guard_get p sys))) false.

Lemma snapshot_loop_eq ks sys acc : (length acc + length (filter guarded ks) <= RCD_GUARD_MAX)%nat ->
  snapshot_loop ks sys acc = acc ++ (entry sys <$> filter guarded ks).
Proof.
  revert acc. induction ks as [|k ks IH]; intros acc Hl; cbn [snapshot_loop].
  - by rewrite filter_nil, fmap_nil, app_nil_r.
  - rewrite filter_cons in Hl |- *. destruct (rk_provider k) as [p|] eqn:Ep.
    + destruct (Z.leb_spec (rk_guard_sec k) 0) as [Hle|Hgt].
      * rewrite decide_False in Hl |- * by (intros [? ?]; lia). by apply IH.
      * assert (Hg : guarded k) by (split; [done|by rewrite Ep]). rewrite decide_True in Hl |- * by done.
        cbn [length] in Hl. rewrite (proj2 (Nat.leb_gt _ _)) by lia.
        rewrite IH by (rewrite length_app; cbn; lia). rewrite <- app_assoc. cbn [fmap list_fmap app]. do 3 f_equal.
        unfold entry. by rewrite Ep.
    + rewrite decide_False in Hl |- * by (intros [_ [x Hx]]; congruence). by apply IH.
Qed.

Lemma entry_val sys k : guarded k -> table_ok -> k ∈ keys ->
  exists p, prov (sn_id (entry sys k)) = Some p /\ guard_get p sys = sn_val (entry sys k) /\
    (sn_had (entry sys k) = false -> sn_prev (entry sys k) = EmptyString).
Proof.
  intros Hg Ht Hk. pose proof Hg as [_ [p Hp]]. exists p. unfold prov, sn_id, sn_val, entry. cbn [fst snd sn_section sn_key sn_had sn_prev].
  rewrite (to_find Ht k Hk Hg). cbn [mbind option_bind]. rewrite Hp. cbn [mbind option_bind].
  split; [done|]. destruct (guard_get p sys) as [v|]; [by rewrite bool_decide_true by done|].
  by rewrite bool_decide_false by (by intros [? ?]).
Qed.

Lemma snapshot_taken sys : table_ok -> wf sys ->
  snapshot_ok (snapshot_loop keys sys []) /\
  (forall s, s ∈ snapshot_loop keys sys [] -> sn_val s = store (sn_id s) sys) /\
  (forall k, k ∈ keys -> guarded k -> rk_id k ∈ sn_id <$> snapshot_loop keys sys []).
Proof.
  intros Ht Hw. rewrite snapshot_loop_eq by (cbn [length]; apply Ht). cbn [app].
  assert (Hin : forall s, s ∈ entry sys <$> filter guarded keys -> exists k, s = entry sys k /\ k ∈ keys /\ guarded k).
  { intros s Hs. apply list_elem_of_fmap in Hs as (k & -> & Hk). apply list_elem_of_filter in Hk as [? ?]. by exists k. }
  assert (Hid : sn_id <$> (entry sys <$> filter guarded keys) = rk_id <$> filter guarded keys).
  { rewrite <- list_fmap_compose. by apply list_fmap_ext. }
  split; [split|split].
  - apply Forall_forall. intros s Hs. destruct (Hin s Hs) as (k & -> & Hk & Hg).
    destruct (entry_val sys k Hg Ht Hk) as (p & H1 & H2 & H3). by exists p, sys.
  - rewrite Hid. apply Ht.
  - rewrite length_fmap. apply Ht.
  - intros s Hs. destruct (Hin s Hs) as (k & -> & Hk & Hg).
    destruct (entry_val sys k Hg Ht Hk) as (p & H1 & H2 & _). by rewrite (store_prov _ p).
  - intros k Hk Hg. rewrite Hid. apply list_elem_of_fmap_2, list_elem_of_filter. by split.
Qed.

(** ** Restarts *)

Lemma same_snapshot_ok l l' : Forall2 same_entry l l' -> snapshot_ok l -> snapshot_ok l'.
Proof.
  intros H [H1 H2 H3]. split.
  - clear H2 H3. revert H1. induction H as [|x y l l' Hxy H IH]; [done|]. rewrite !Forall_cons. intros [? ?].
    split; [by eapply same_entry_taken|by apply IH].
  - assert (sn_id <$> l' = sn_id <$> l) as ->; [|done].
    clear -H. induction H as [|x y l l' (Hx & _) H IH]; [done|]. cbn. by rewrite Hx, IH.
  - by rewrite <- (Forall2_length _ _ _ H).
Qed.

Definition not_owed (s : rcd_guard_snap) : rcd_guard_snap := s <| sn_owed_enact := false |>.

Lemma load_taken l acc : Forall taken l -> (length acc + length l <= RCD_GUARD_MAX)%nat ->
  load_keys keys ((fun s => (sn_section s, sn_key s, if sn_had s then Some (sn_prev s) else None)) <$> l) acc =
  acc ++ (not_owed <$> l).
Proof.
  revert acc. induction l as [|s l IH]; intros acc Hl Hlen; cbn [fmap list_fmap load_keys]; [by rewrite app_nil_r|].
  apply Forall_cons in Hl as [(p & s0 & Hp & _ & _ & Hd) Hl]. cbn [length] in Hlen.
  destruct (find_prov s p Hp) as (k & Hk & _). rewrite Hk. rewrite (proj2 (Nat.leb_gt _ _)) by lia.
  rewrite IH by (done || (rewrite length_app; cbn; lia)). rewrite <- app_assoc. cbn [app]. f_equal. f_equal.
  destruct s as [sec key prev had owed]. cbn [sn_had sn_prev sn_section sn_key] in *. unfold not_owed.
  destruct had; [by rewrite bool_decide_true by done|]. rewrite bool_decide_false by (by intros [? ?]).
  by rewrite (Hd eq_refl).
Qed.

(** A new rcd process: the files and the camera are what they were. *)
Definition restarted (st : rcd_state S) : rcd_state S :=
  rcd_stale_load keys (mk_rcd_state [] 0 0 false 0 0 [] (rs_stale_file st) (rs_record st) (rs_marker st)
    (rs_flash_fails st) (rs_run_fails st) (rs_sys st)).

(** A camera that came up again: /run is empty and [sys] is what the boot made
    of the stores. *)
Definition rebooted (st : rcd_state S) (sys : S) : rcd_state S :=
  mk_rcd_state [] 0 0 false 0 0 [] [] (rs_record st) None (rs_flash_fails st) (rs_run_fails st) sys.

Lemma stale_add_frame sec key (st : rcd_state S) : exists l, rcd_stale_add sec key st = st <| rs_stale := l |>.
Proof.
  unfold rcd_stale_add. destruct (existsb _ _); [by exists (rs_stale st); destruct st|].
  destruct (_ <=? _)%nat; [by exists (rs_stale st); destruct st|by eexists].
Qed.

Lemma stale_load_frame f : forall st : rcd_state S, exists l,
  foldl (fun st a => if rcd_key_find keys a.1 a.2 is None then st else rcd_stale_add a.1 a.2 st) st f = st <| rs_stale := l |>.
Proof.
  induction f as [|a f IH]; intros st; cbn [foldl]; [by exists (rs_stale st); destruct st|].
  destruct (rcd_key_find keys a.1 a.2); [|apply IH]. destruct (stale_add_frame a.1 a.2 st) as [l ->].
  destruct (IH (st <| rs_stale := l |>)) as [l' ->]. by exists l'.
Qed.

Lemma restarted_frame (st : rcd_state S) : exists l, restarted st =
  mk_rcd_state [] 0 0 false 0 0 l (rs_stale_file st) (rs_record st) (rs_marker st)
    (rs_flash_fails st) (rs_run_fails st) (rs_sys st).
Proof.
  unfold restarted, rcd_stale_load. cbn [rs_stale_file].
  match goal with |- context [foldl _ ?x _] => destruct (stale_load_frame (rs_stale_file st) x) as [l ->] end. by exists l.
Qed.

Lemma load_record (st : rcd_state S) : snapshot_ok (rs_guard st) ->
  load_keys keys (gr_keys (record_of st)) [] = not_owed <$> rs_guard st.
Proof. intros [H1 _ H3]. unfold record_of. cbn [gr_keys]. by rewrite load_taken. Qed.

Lemma load_marked now (st : rcd_state S) r d w : rs_record st = Some r -> gr_armed r = true ->
  rs_marker st = Some (d, w) -> 0 < w -> d <> 0 -> now < d ->
  rcd_guard_load keys enact_fn now st =
    st <| rs_guard := load_keys keys (gr_keys r) [] |> <| rs_window := w |> <| rs_deadline := d |>.
Proof.
  intros Hr Ha Hm Hw Hd Hn. unfold rcd_guard_load. rewrite Hr, Ha. cbn [negb]. cbv zeta.
  match goal with |- context [rs_marker ?a] => change (rs_marker a) with (rs_marker st) end. rewrite Hm.
  cbv beta iota delta [default from_option id].
  assert (Hgt : w >? 0 = true) by (apply Z.gtb_lt; lia). rewrite !Hgt, (proj2 (Z.eqb_neq _ _)) by done.
  by destruct (Z.geb_spec now d); [lia|].
Qed.

Lemma load_unmarked now (st : rcd_state S) r : rs_record st = Some r -> gr_armed r = true -> rs_marker st = None ->
  exists w, rcd_guard_load keys enact_fn now st =
    rcd_guard_revert keys enact_fn now (st <| rs_guard := load_keys keys (gr_keys r) [] |> <| rs_window := w |>).
Proof.
  intros Hr Ha Hm. unfold rcd_guard_load. rewrite Hr, Ha. cbn [negb]. cbv zeta.
  match goal with |- context [rs_marker ?a] => change (rs_marker a) with (rs_marker st) end. rewrite Hm.
  cbv beta iota delta [default from_option id]. by eexists.
Qed.

Lemma record_armed (st : rcd_state S) : rs_deadline st <> 0 -> gr_armed (record_of st) = true.
Proof. intros H. cbn [record_of gr_armed]. by rewrite (proj2 (Z.eqb_neq _ _)). Qed.


Lemma held_revert now (st : rcd_state S) : snapshot_ok (rs_guard st) -> wf (rs_sys st) -> rs_deadline st = 0 ->
  rs_guard st <> [] ->
  let st' := rcd_guard_revert keys enact_fn now st in
  (forall id, running id (rs_sys st') = running id (rs_sys st)) /\
  (rs_deadline st' = 0 -> rs_retries st < RCD_GUARD_RETRIES -> u64 (now + RCD_GUARD_RETRY_MS) <> 0 ->
     rs_guard st' = [] /\ rs_record st' = None /\ rs_marker st' = None /\
     forall s, s ∈ rs_guard st -> store (sn_id s) (rs_sys st') = sn_val s).
Proof.
  intros [Ht Hnd Hsz] Hw Hd Hne. cbv zeta. unfold rcd_guard_revert. rewrite (proj2 (Z.eqb_eq _ _) Hd).
  destruct (Nat.eqb_spec (length (rs_guard st)) 0) as [E|_]; [by apply length_zero_iff_nil in E|]. cbn [andb negb].
  destruct (revert_keys keys false (rs_guard st) [] 0 st) as [[[snaps en] f1] st1] eqn:E1.
  destruct (revert_keys_turn false _ [] _ _ _ _ _ _ Ht Hnd Hw Hsz E1) as [K1 K2 K3 K4 K5 K6 K7 K8 K9 K10 K11 K12].
  rewrite (K11 eq_refl). cbn [revert_enacts]. destruct K12 as (sys & stale & Hst).
  assert (Hrun : forall id, running id (rs_sys st1) = running id (rs_sys st)) by (intros id; apply K5).
  destruct (Nat.ltb_spec 0 f1) as [Hf|Hf].
  - unfold guard_retry. change (rs_retries (rcd_stale_save (st1 <| rs_guard := snaps |>))) with (rs_retries st1).
    assert (Hret : rs_retries st1 = rs_retries st) by (by rewrite Hst). rewrite Hret.
    destruct (Z.ltb_spec (rs_retries st) RCD_GUARD_RETRIES) as [Hlt|Hge].
    + match goal with |- context [armed_write ?a] => destruct (armed_write_keeps a) as (A1 & A2 & A3 & A4 & A5) end.
      rewrite A1, A2, A4, A5. split; [exact Hrun|]. intros Hz _ Hnz. by destruct Hnz.
    + split; [exact Hrun|]. intros _ Hlt. lia.
  - assert (f1 = 0%nat) as -> by lia. split; [exact Hrun|]. intros _ _ _. do 3 (split; [done|]).
    intros s Hs. exact (pb_store _ _ _ _ _ (K7 eq_refl) s Hs).
Qed.

(** C10: a camera that lost power inside the window gets its old values back into
    the stores, but nothing puts them into force: the revert on the way up runs
    with the deadline still zero, takes the snapshot for one that was never
    applied, and clears the record.  What the boot brought up from the new
    values stays in force. *)
Theorem rcd_guard_reboot_not_enacted (st : rcd_state S) sys now : snapshot_ok (rs_guard st) -> rs_guard st <> [] ->
  rs_deadline st <> 0 -> rs_record st = Some (record_of st) -> wf sys -> 0 <= now < 2 ^ 64 - RCD_GUARD_RETRY_MS ->
  let st' := rcd_guard_load keys enact_fn now (rebooted st sys) in
  (forall id, running id (rs_sys st') = running id sys) /\
  (rs_deadline st' = 0 -> rs_guard st' = [] /\ rs_record st' = None /\
     forall s, s ∈ rs_guard st -> store (sn_id s) (rs_sys st') = sn_val s).
Proof.
  intros Hok Hne Hd Hr Hw Hnow. cbv zeta.
  destruct (load_unmarked now (rebooted st sys) _ Hr (record_armed st Hd) eq_refl) as [w ->]. rewrite load_record by done.
  match goal with |- context [rcd_guard_revert _ _ _ ?a] => set (st1 := a) end.
  assert (Hsame : Forall2 same_entry (rs_guard st) (not_owed <$> rs_guard st)).
  { apply Forall2_fmap_r. eapply Forall2_impl; [apply same_refl|]. intros x y Hxy. exact Hxy. }
  destruct (held_revert now st1) as [R1 R2]; [by eapply same_snapshot_ok|exact Hw|done| |].
  - intros Hnil. apply Hne. by apply fmap_nil_inv in Hnil.
  - split; [exact R1|]. intros Hd'. destruct R2 as (R3 & R4 & _ & R6); [exact Hd'|done| |].
    + unfold u64. rewrite Z.mod_small; unfold RCD_GUARD_RETRY_MS in *; lia.
    + split; [exact R3|]. split; [exact R4|]. intros s Hs.
      apply (R6 (not_owed s)). change (not_owed s ∈ not_owed <$> rs_guard st). by apply list_elem_of_fmap_2.
Qed.

(** ** Set back by hand *)

Lemma forget_spec (sec key : string) (st : rcd_state S) : (sec, key) ∉ rs_stale (rcd_stale_forget sec key st) /\
  rs_stale (rcd_stale_forget sec key st) ⊆ rs_stale st.
Proof.
  unfold rcd_stale_forget, keyref_eqb. cbn. split.
  - intros Hin. apply list_elem_of_In, List.filter_In in Hin as [_ Hf]. cbn [fst snd] in Hf. by rewrite !String.eqb_refl in Hf.
  - intros x Hx. apply list_elem_of_In, List.filter_In in Hx as [Hx _]. by apply list_elem_of_In.
Qed.

Lemma revert_keys_settled wa en f snaps : forall st : rcd_state S, Forall taken snaps ->
  (forall s, s ∈ snaps -> store (sn_id s) (rs_sys st) = sn_val s /\ sn_owed_enact s = false) ->
  exists stale, revert_keys keys wa snaps en f st = (snaps, en, f, st <| rs_stale := stale |>) /\
    stale ⊆ rs_stale st /\ forall s, s ∈ snaps -> sn_id s ∉ stale.
Proof.
  induction snaps as [|s snaps IH]; intros st Ht Hs; cbn [revert_keys].
  - exists (rs_stale st). split; [by destruct st|]. split; [done|]. by intros x Hx%elem_of_nil.
  - apply Forall_cons in Ht as [(p & s0 & Hp & _) Ht]. destruct (find_prov s p Hp) as (k & Hk & Hkp).
    destruct (Hs s) as [Hst Ho]; [by left|]. rewrite (store_prov _ p) in Hst by done.
    unfold revert_key at 1. rewrite Hk, Hkp, unchanged_spec, bool_decide_true, Ho by done.
    destruct (IH (rcd_stale_forget (sn_section s) (sn_key s) st) Ht) as (stale & E & Hsub & Hno);
      [intros x Hx; apply Hs; by right|].
    destruct (forget_spec (sn_section s) (sn_key s) st) as [F1 F2].
    exists stale. split; [|split].
    + destruct (p_enact p); rewrite E; done.
    + by etransitivity.
    + intros x Hx. apply elem_of_cons in Hx as [->|Hx]; [|by apply Hno]. intros Hin. apply F1, Hsub, Hin.
Qed.

(** The guard reads the stores, not what is in force.  When the window ends
    on stores that already hold their old values (set and applied, then set back
    and not applied; or put back by an earlier attempt whose mark a restart
    lost), the revert changes nothing on the camera, so whatever was enacted
    last stays in force; the window closes as if reverted, the record goes, and
    the keys leave the list of what an apply still owes. *)
Theorem rcd_guard_set_back_strands (st : rcd_state S) now : snapshot_ok (rs_guard st) -> rs_deadline st <> 0 ->
  (forall s, s ∈ rs_guard st -> store (sn_id s) (rs_sys st) = sn_val s /\ sn_owed_enact s = false) ->
  let st' := rcd_guard_revert keys enact_fn now st in
  rs_sys st' = rs_sys st /\ rs_guard st' = [] /\ rs_deadline st' = 0 /\ rs_record st' = None /\
  forall s, s ∈ rs_guard st -> sn_id s ∉ rs_stale st' /\ sn_id s ∉ rs_stale_file st'.
Proof.
  intros [Ht _ _] Hd Hs. cbv zeta. unfold rcd_guard_revert. rewrite (proj2 (Z.eqb_neq _ _)) by done. cbn [negb andb].
  destruct (revert_keys_settled true [] 0%nat (rs_guard st) st Ht Hs) as (stale & -> & _ & Hno).
  cbn [revert_enacts Nat.ltb Nat.leb]. do 4 (split; [done|]). intros s Hin. split; by apply Hno.
Qed.

(** ** An experiment *)

Context (wifi_settled : S -> bool).

(** What may happen between the first guarded set and the end of the window:
    more sets, applies, and ticks before the deadline that the radio does not
    answer. *)
Inductive experiment (st0 : rcd_state S) : rcd_state S -> Prop :=
| ex_first k p v b st : k ∈ keys -> guarded k -> rk_provider k = Some p ->
    set_provider keys k p v st0 = (b, st) -> experiment st0 st
| ex_set st k p v b st' : experiment st0 st -> k ∈ keys -> rk_provider k = Some p -> prov (rk_id k) = Some p ->
    set_provider keys k p v st = (b, st') -> experiment st0 st'
| ex_apply st now : experiment st0 st -> experiment st0 (enact_system keys enact_fn now st)
| ex_tick st now : experiment st0 st -> now < rs_deadline st \/ rs_deadline st = 0 ->
    wifi_settled (rs_sys st) = false -> experiment st0 (rcd_guard_tick keys enact_fn wifi_settled now st).

Lemma hold_nonempty (st : rcd_state S) : rs_guard st <> [] -> rcd_guard_hold keys st = st.
Proof. intros H. unfold rcd_guard_hold. by destruct (rs_guard st). Qed.

Lemma record_write_keeps (st : rcd_state S) : rs_guard (record_write st) = rs_guard st /\
  rs_deadline (record_write st) = rs_deadline st /\ rs_sys (record_write st) = rs_sys st.
Proof. unfold record_write. by destruct (rs_flash_fails st) as [|[] ?]. Qed.

Lemma arm_keeps now w (st : rcd_state S) : rs_guard st <> [] ->
  rs_guard (rcd_guard_arm keys now w st) = rs_guard st /\ rs_sys (rcd_guard_arm keys now w st) = rs_sys st.
Proof.
  intros H. unfold rcd_guard_arm. destruct (w <=? 0); [done|].
  destruct (Nat.eqb_spec (length (rs_guard st)) 0) as [E|_]; [by apply length_zero_iff_nil in E|]. cbv zeta.
  match goal with |- context [armed_write ?a] => destruct (armed_write_keeps a) as (A1 & _ & _ & _ & A5) end.
  match goal with |- context [record_write ?a] => destruct (record_write_keeps a) as (B1 & _ & B3) end.
  by rewrite A1, A5, B1, B3.
Qed.

Lemma enact_loop_keeps es : forall dn ok (st : rcd_state S) ok' st', wf (rs_sys st) ->
  enact_loop enact_fn es dn ok st = (ok', st') -> rs_guard st' = rs_guard st /\ wf (rs_sys st').
Proof.
  induction es as [|e es IH]; intros dn ok st ok' st' Hw E; cbn [enact_loop] in E; [by injection E as <- <-|].
  destruct (existsb _ _); [by eapply IH|]. destruct (enact_fn e (rs_sys st)) as [r sys] eqn:Ee.
  apply IH in E as [-> Hw']; [done|]. eapply (pl_wf_enact _ _ L); eauto.
Qed.

Lemma set_provider_keeps k p v (st : rcd_state S) b st' : prov (rk_id k) = Some p -> wf (rs_sys st) ->
  set_provider keys k p v st = (b, st') ->
  rs_guard st' = rs_guard (if rk_guard_sec k >? 0 then rcd_guard_hold keys st else st) /\ wf (rs_sys st').
Proof.
  intros Hp Hw E. unfold set_provider in E.
  set (st1 := if rk_guard_sec k >? 0 then rcd_guard_hold keys st else st) in *.
  assert (Hw1 : wf (rs_sys st1)).
  { unfold st1, rcd_guard_hold. destruct (rk_guard_sec k >? 0); [|done]. destruct (0 <? _)%nat; [done|].
    by destruct (record_write_keeps (snapshot keys st)) as (_ & _ & ->). }
  destruct (p_set p v (rs_sys st1)) as [ok sys] eqn:Es.
  assert (Hw2 : wf sys) by (eapply (pl_wf_set _ _ L); eauto).
  destruct ok; cbn [negb] in E; [|by injection E as <- <-].
  destruct (bool_decide _); [by injection E as <- <-|]. injection E as <- <-.
  destruct (p_enact p); [|done]. unfold rcd_stale_add. destruct (existsb _ _); [done|]. by destruct (_ <=? _)%nat.
Qed.

Lemma apply_keeps now (st : rcd_state S) : rs_guard st <> [] -> wf (rs_sys st) ->
  rs_guard (enact_system keys enact_fn now st) = rs_guard st /\ wf (rs_sys (enact_system keys enact_fn now st)).
Proof.
  intros Hg Hw. unfold enact_system. destruct (_ =? 0)%nat; [done|]. cbv zeta.
  set (w := foldr Z.max 0 _). set (st1 := if w =? 0 then st else rcd_guard_arm keys now w st).
  assert (H1 : rs_guard st1 = rs_guard st /\ rs_sys st1 = rs_sys st).
  { unfold st1. destruct (w =? 0); [done|]. by apply arm_keeps. }
  destruct H1 as [Hg1 Hs1]. destruct (enact_loop enact_fn _ [] [] st1) as [ok st2] eqn:E.
  apply enact_loop_keeps in E as [E1 E2]; [|by rewrite Hs1]. split; [|exact E2].
  by rewrite <- Hg1, <- E1.
Qed.

(** Through the whole experiment the guard holds what the stores held before it. *)
Lemma experiment_inv (st0 st : rcd_state S) : table_ok -> rs_guard st0 = [] -> wf (rs_sys st0) -> experiment st0 st ->
  rs_guard st = snapshot_loop keys (rs_sys st0) [] /\ rs_guard st <> [] /\ wf (rs_sys st).
Proof.
  intros Ht Hg0 Hw0. induction 1 as [k p v b st Hk Hgk Hkp E|st k p v b st' HX IH Hk Hkp Hp E|st now HX IH|st now HX IH Hn Hwi].
  - assert (Hp : prov (rk_id k) = Some p).
    { unfold prov. cbn [rk_id fst snd]. by rewrite (to_find Ht k Hk Hgk). }
    apply set_provider_keeps in E as [E1 E2]; [|done|done].
    assert (Hgt : rk_guard_sec k >? 0 = true) by (destruct Hgk as [? _]; apply Z.gtb_lt; lia). rewrite Hgt in E1.
    unfold rcd_guard_hold in E1. rewrite Hg0 in E1. cbn [length Nat.ltb Nat.leb] in E1.
    destruct (record_write_keeps (snapshot keys st0)) as (R1 & _ & _). rewrite R1 in E1.
    split; [exact E1|]. split; [|exact E2]. rewrite E1. intros Hnil. change (snapshot_loop keys (rs_sys st0) [] = []) in Hnil.
    destruct (snapshot_taken (rs_sys st0) Ht Hw0) as (_ & _ & Hin). specialize (Hin k Hk Hgk).
    rewrite Hnil in Hin. by apply elem_of_nil in Hin.
  - destruct IH as (I1 & I2 & I3). apply set_provider_keeps in E as [E1 E2]; [|done|done].
    assert (Hx : rs_guard st' = rs_guard st) by (rewrite E1; destruct (rk_guard_sec k >? 0); [by rewrite hold_nonempty|done]).
    by rewrite Hx.
  - destruct IH as (I1 & I2 & I3). destruct (apply_keeps now st I2 I3) as [A1 A2]. by rewrite A1.
  - unfold rcd_guard_tick. destruct (Z.eqb_spec (rs_deadline st) 0) as [|Hd]; [done|]. cbv zeta.
    set (asks := rs_wifi_moved st && negb (rs_wifi_ask st =? 0) && (now >=? rs_wifi_ask st)).
    set (st1 := if asks then st <| rs_wifi_ask := u64 (now + RCD_GUARD_WIFI_POLL_MS) |> else st).
    assert (Hs1 : rs_guard st1 = rs_guard st /\ rs_sys st1 = rs_sys st /\ rs_deadline st1 = rs_deadline st)
      by (unfold st1; by destruct asks).
    destruct Hs1 as (S1 & S2 & S3). rewrite S2, Hwi, andb_false_r, S3. rewrite (proj2 (Z.ltb_lt _ _)) by lia.
    by rewrite S1, S2.
Qed.

(** A tick at the end of the window that the radio does not answer. *)
Lemma tick_reverts now (st : rcd_state S) : rs_deadline st <> 0 -> rs_deadline st <= now ->
  rs_wifi_moved st = false \/ wifi_settled (rs_sys st) = false ->
  exists ask, rcd_guard_tick keys enact_fn wifi_settled now st =
    rcd_guard_revert keys enact_fn now (st <| rs_wifi_ask := ask |>).
Proof.
  intros Hd Hn Hw. unfold rcd_guard_tick. rewrite (proj2 (Z.eqb_neq _ _)) by done. cbv zeta.
  set (asks := rs_wifi_moved st && negb (rs_wifi_ask st =? 0) && (now >=? rs_wifi_ask st)).
  exists (if asks then u64 (now + RCD_GUARD_WIFI_POLL_MS) else rs_wifi_ask st).
  assert (Hst : (if asks then st <| rs_wifi_ask := u64 (now + RCD_GUARD_WIFI_POLL_MS) |> else st) =
    st <| rs_wifi_ask := if asks then u64 (now + RCD_GUARD_WIFI_POLL_MS) else rs_wifi_ask st |>)
    by (destruct asks; [done|by destruct st]).
  rewrite Hst. change (rs_sys (st <| rs_wifi_ask := _ |>)) with (rs_sys st).
  assert (Hno : asks && wifi_settled (rs_sys st) = false).
  { destruct Hw as [H|H]; [unfold asks; by rewrite H|by rewrite H, andb_false_r]. }
  rewrite Hno. change (rs_deadline (st <| rs_wifi_ask := _ |>)) with (rs_deadline st).
  by rewrite (proj2 (Z.ltb_ge _ _)).
Qed.

(** The camera is as [st0] had it: every guarded store, and in force every
    guarded key whose store (or one sharing its enact) still differed when the
    window ended, or that was in force with its old value anyway. *)
Definition back_to (st0 st st' : rcd_state S) : Prop :=
  forall k, k ∈ keys -> guarded k ->
    store (rk_id k) (rs_sys st') = store (rk_id k) (rs_sys st0) /\
    forall e, enact_id (rk_id k) = Some e ->
      (exists k2, k2 ∈ keys /\ guarded k2 /\ enact_id (rk_id k2) = Some e /\
         store (rk_id k2) (rs_sys st) <> store (rk_id k2) (rs_sys st0)) \/
      running (rk_id k) (rs_sys st) = store (rk_id k) (rs_sys st0) ->
      running (rk_id k) (rs_sys st') = store (rk_id k) (rs_sys st0).

Lemma restored_back_to st0 st st' : table_ok -> wf (rs_sys st0) -> rs_guard st = snapshot_loop keys (rs_sys st0) [] ->
  restored (rs_guard st) st st' -> back_to st0 st st'.
Proof.
  intros Ht Hw Hg (R1 & R2 & _) k Hk Hgk. destruct (snapshot_taken (rs_sys st0) Ht Hw) as (_ & Hval & Hin).
  rewrite <- Hg in Hval, Hin.
  assert (Hent : forall k, k ∈ keys -> guarded k -> exists s, s ∈ rs_guard st /\ sn_id s = rk_id k /\
    sn_val s = store (rk_id k) (rs_sys st0)).
  { intros x Hx Hgx. destruct (proj1 (list_elem_of_fmap _ _ _) (Hin x Hx Hgx)) as (s & Hs & Hsin).
    exists s. split; [done|]. split; [done|]. by rewrite Hval, Hs. }
  destruct (Hent k Hk Hgk) as (s & Hs & Hid & Hv). rewrite <- Hv, <- Hid. split.
  - by apply R1.
  - intros e He Hor. apply (R2 s e Hs He). destruct Hor as [(k2 & Hk2 & Hg2 & He2 & Hne)|Hr].
    + left. destruct (Hent k2 Hk2 Hg2) as (s2 & Hs2 & Hid2 & Hv2). exists s2. rewrite Hid2. split; [done|].
      split; [done|]. left. by rewrite Hid2, Hv2.
    + by right.
Qed.


(** ** Retrying *)

Fixpoint ticks (nows : list Z) (st : rcd_state S) : rcd_state S :=
  match nows with [] => st | now :: nows => ticks nows (rcd_guard_tick keys enact_fn wifi_settled now st) end.

(** Each tick comes when the deadline in force has passed, at a time whose sum
    with the retry delay is representable, and the radio does not answer. *)
Fixpoint late (nows : list Z) (st : rcd_state S) : Prop :=
  match nows with
  | [] => True
  | now :: nows =>
      rs_deadline st <= now < 2 ^ 64 - RCD_GUARD_RETRY_MS /\ 0 <= now /\
      (rs_wifi_moved st = false \/ wifi_settled (rs_sys st) = false) /\
      late nows (rcd_guard_tick keys enact_fn wifi_settled now st)
  end.

Lemma ticks_idle nows st : rs_deadline st = 0 -> ticks nows st = st.
Proof.
  intros H. induction nows as [|now nows IH]; [done|]. cbn [ticks]. unfold rcd_guard_tick at 1.
  by rewrite (proj2 (Z.eqb_eq _ _) H).
Qed.

(** The snapshot is back in the stores and in force. *)
Definition in_force (snaps : list rcd_guard_snap) (sys : S) : Prop := forall s, s ∈ snaps ->
  store (sn_id s) sys = sn_val s /\ (is_Some (enact_id (sn_id s)) -> running (sn_id s) sys = sn_val s).

Lemma in_force_same snaps snaps' sys : Forall2 same_entry snaps snaps' -> in_force snaps' sys -> in_force snaps sys.
Proof.
  intros H Hf s Hs. apply list_elem_of_lookup in Hs as [i Hi].
  destruct (Forall2_lookup_l _ _ _ _ _ H Hi) as (s' & Hi' & (Hid & Hv & _)).
  destruct (Hf s' (list_elem_of_lookup_2 _ _ _ Hi')) as [F1 F2]. rewrite Hid, Hv in *. done.
Qed.


End laws.

(** ** A camera with one guarded setting *)

(** The value in the store and the value in force; its enact can be made to
    fail a number of times. *)
Record toy := mk_toy { ty_store : string; ty_run : string; ty_fails : nat }.

Definition toy_provider : rcd_provider toy :=
  mk_rcd_provider (fun s => Some (ty_store s)) (fun v s => (true, mk_toy v (ty_run s) (ty_fails s))) (Some 0%nat) None.
Definition toy_keys : list (rcd_key toy) := [mk_rcd_key "system" "hostname" RCD_GUARD_NAME_SEC (Some toy_provider)].
Definition toy_enact (e : nat) (s : toy) : bool * toy :=
  if (e =? 0)%nat then
    match ty_fails s with
    | O => (true, mk_toy (ty_store s) (ty_store s) 0)
    | S n => (false, mk_toy (ty_store s) (ty_run s) n)
    end
  else (true, s).
Definition toy_running (id : string * string) (s : toy) : option string := Some (ty_run s).
Definition toy_settled (s : toy) : bool := false.

Lemma toy_prov id p : prov toy_keys id = Some p -> p = toy_provider /\ id = ("system", "hostname").
Proof.
  unfold prov, rcd_key_find. cbn [toy_keys List.find rk_section rk_key]. destruct id as [sec key]. cbn [fst snd].
  destruct (rcd_section_is "system" sec) eqn:E1; [|done].
  assert (sec = "system") as -> by (symmetry; by apply String.eqb_eq).
  destruct (String.eqb_spec "hostname" key) as [<-|]; [|done]. cbn. intros H. by injection H as <-.
Qed.

Lemma toy_laws : provider_laws toy_keys toy_enact (fun _ => True) toy_running.
Proof.
  split; try done; intros; repeat match goal with H : prov _ _ = Some _ |- _ => apply toy_prov in H as [-> ->] end; try done.
  - by simplify_eq/=.
  - match goal with H : toy_enact _ _ = _ |- _ => unfold toy_enact in H end. repeat case_match; by simplify_eq/=.
  - by simplify_eq/=.
  - simplify_eq/=. match goal with H : toy_enact _ _ = _ |- _ => unfold toy_enact in H end. repeat case_match; by simplify_eq/=.
  - match goal with H : toy_enact _ _ = _ |- _ => unfold toy_enact in H end. destruct (Nat.eqb_spec e 0) as [->|]; by simplify_eq/=.
Qed.

Lemma toy_table : table_ok toy_keys.
Proof.
  split.
  - intros k Hk _. apply list_elem_of_singleton in Hk as ->. done.
  - apply NoDup_singleton.
  - vm_compute. lia.
Qed.

Definition toy_start (fails : nat) : rcd_state toy :=
  mk_rcd_state [] 0 0 false 0 0 [] [] None None [] [] (mk_toy "cam" "cam" fails).
Definition toy_key : rcd_key toy := mk_rcd_key "system" "hostname" RCD_GUARD_NAME_SEC (Some toy_provider).
Definition toy_set (v : string) (st : rcd_state toy) : rcd_state toy := (set_provider toy_keys toy_key toy_provider v st).2.
Definition toy_apply (now : Z) (st : rcd_state toy) : rcd_state toy := enact_system toy_keys toy_enact now st.
Definition toy_tick (now : Z) (st : rcd_state toy) : rcd_state toy := rcd_guard_tick toy_keys toy_enact toy_settled now st.

(** The name set to "lens" and applied at one second: the window ends at 91. *)
Definition toy_armed : rcd_state toy := toy_apply 1000 (toy_set "lens" (toy_start 0)).

Lemma toy_guarded : guarded toy_key.
Proof. split; [done|by eexists]. Qed.

Lemma toy_experiment : experiment toy_keys toy_enact toy_settled (toy_start 0) toy_armed.
Proof.
  apply ex_apply. apply (ex_first _ _ _ _ toy_key toy_provider "lens" true); [by left|apply toy_guarded|done|].
  apply surjective_pairing.
Qed.

Lemma toy_guard_ok : snapshot_ok toy_keys (fun _ => True) (rs_guard toy_armed).
Proof. exact (proj1 (snapshot_taken toy_keys (fun _ => True) (mk_toy "cam" "cam" 0) toy_table I)). Qed.


(** Two enacts fail while reverting; the third attempt lands. *)
Definition toy_stuck : rcd_state toy := toy_armed <| rs_sys := mk_toy "lens" "lens" 2 |>.
Definition toy_times : list Z := [91000; 106000; 121000; 136000; 151000].



(** The camera boots on "lens", the value applied, and stays on it. *)
Lemma rcd_guard_reboot_not_enacted_witness :
  let st' := rcd_guard_load toy_keys toy_enact 5000 (rebooted toy_armed (mk_toy "lens" "lens" 0)) in
  rs_sys st' = mk_toy "cam" "lens" 0 /\ rs_record st' = None /\
  toy_running ("system", "hostname") (rs_sys st') = Some "lens".
Proof.
  destruct (rcd_guard_reboot_not_enacted toy_keys toy_enact (fun _ => True) toy_running toy_laws toy_armed
    (mk_toy "lens" "lens" 0) 5000 toy_guard_ok) as [H1 H2].
  - vm_compute. discriminate.
  - vm_compute. discriminate.
  - vm_compute. reflexivity.
  - exact I.
  - vm_compute. split; [discriminate|reflexivity].
  - split; [vm_compute; reflexivity|]. split; [apply H2; vm_compute; reflexivity|]. rewrite H1. reflexivity.
Defined.

(** Set to "lens", applied, set back to "cam" and left alone. *)
Definition toy_set_back : rcd_state toy := toy_set "cam" toy_armed.

Lemma toy_back_guard : rs_guard toy_set_back = rs_guard toy_armed.
Proof. vm_compute. reflexivity. Qed.

Lemma toy_back_ok : snapshot_ok toy_keys (fun _ => True) (rs_guard toy_set_back).
Proof. rewrite toy_back_guard. apply toy_guard_ok. Qed.

Lemma rcd_guard_set_back_strands_witness :
  let st' := rcd_guard_revert toy_keys toy_enact 91000 toy_set_back in
  rs_sys st' = mk_toy "cam" "lens" 0 /\ rs_record st' = None /\ rs_stale st' = [].
Proof.
  destruct (rcd_guard_set_back_strands toy_keys toy_enact (fun _ => True) toy_set_back 91000 toy_back_ok)
    as (H1 & _ & _ & H4 & _).
  - vm_compute. discriminate.
  - intros s Hs. apply list_elem_of_singleton in Hs as ->. split; vm_compute; reflexivity.
  - cbv zeta. rewrite H1. split; [vm_compute; reflexivity|]. split; [exact H4|vm_compute; reflexivity].
Defined.
