(* ===== verification/RwdIce.v ===== *)
(** * rwd: ICE-lite and the sources of media packets (rwd/rwd_ice.c, and of
    rwd/rwd_main.c the UDP dispatch, the address lookup, the credentials and the
    removal of stale clients; rwd/rwd_rtcp.h; of rwd/rwd_signaling.c the slots)

    A datagram is a list of bytes.  HMAC-SHA1 is mbedTLS's: a parameter.  What
    the server sends is appended to [sv_sent]; what it hands to DTLS, to the
    encoder and to the backchannel is the result of [handle_udp_packet]. *)

From stdpp Require Import list.
From S2P Require Import Prelude.

Definition STUN_HEADER_SIZE : nat := 20.
Definition STUN_MAGIC_COOKIE : Z := 0x2112A442.
Definition STUN_BINDING_REQUEST : Z := 0x0001.
Definition STUN_BINDING_RESPONSE : Z := 0x0101.
Definition STUN_ATTR_USERNAME : Z := 0x0006.
Definition STUN_ATTR_MESSAGE_INTEGRITY : Z := 0x0008.
Definition STUN_ATTR_XOR_MAPPED_ADDR : Z := 0x0020.
Definition STUN_ATTR_FINGERPRINT : Z := 0x8028.
Definition STUN_FINGERPRINT_XOR : Z := 0x5354554E.
Definition ICE_PRIORITY_SRFLX : Z := Z.lor (Z.lor (Z.shiftl 100 24) (Z.shiftl 65535 8)) 255.
Definition RWD_MAX_CLIENTS : nat := 4.
Definition RWD_MAX_VERIFIED_ADDRS : nat := 4.

(** ** CRC-32 *)

Definition crc_step (c : Z) : Z :=
  Z.lxor (Z.shiftr c 1) (if Z.testbit c 0 then 0xEDB88320 else 0).

Definition rwd_crc32_init : list Z := (fun i => Nat.iter 8 crc_step (Z.of_nat i)) <$> seq 0 256.

Definition crc32_update (table : list Z) (crc b : Z) : Z :=
  Z.lxor (nth (Z.to_nat (Z.land (Z.lxor crc b) 0xFF)) table 0) (Z.shiftr crc 8).

Definition crc32_compute (table : list Z) (data : list Z) : Z :=
  Z.lxor (foldl (crc32_update table) 0xFFFFFFFF data) 0xFFFFFFFF.

(** ** Byte helpers *)

Definition byte_at (l : list Z) (i : nat) : Z := nth i l 0.
Definition rd16 (l : list Z) (off : nat) : Z := Z.lor (Z.shiftl (byte_at l off) 8) (byte_at l (off + 1)).
Definition rd32 (l : list Z) (off : nat) : Z :=
  Z.lor (Z.lor (Z.lor (Z.shiftl (byte_at l off) 24) (Z.shiftl (byte_at l (off + 1)) 16))
               (Z.shiftl (byte_at l (off + 2)) 8)) (byte_at l (off + 3)).
Definition wr16 (v : Z) : list Z := [u8 (Z.shiftr v 8); u8 v].
Definition wr32 (v : Z) : list Z := [u8 (Z.shiftr v 24); u8 (Z.shiftr v 16); u8 (Z.shiftr v 8); u8 v].

(** wr16 over the length field of a message already begun. *)
Definition patch_len (v : Z) (msg : list Z) : list Z := take 2 msg ++ wr16 v ++ drop 4 msg.

Definition pad4 (n : Z) : Z := Z.ldiff (n + 3) 3.

(** ** Attributes

    Both walks of rwd_ice.c: the first attribute of type [want], its offset and
    its length.  Every round but the last moves on by four bytes or more. *)
Fixpoint stun_attr (fuel : nat) (want : Z) (msg : list Z) (p : nat) : option (nat * Z) :=
  match fuel with
  | O => None
  | S fuel =>
      if (p + 4 <=? length msg)%nat then
        let attr_type := rd16 msg p in
        let attr_len := rd16 msg (p + 2) in
        if (length msg <? p + 4 + Z.to_nat attr_len)%nat then None
        else if attr_type =? want then Some (p, attr_len)
        else if (length msg <? p + 4 + Z.to_nat (pad4 attr_len))%nat then None
        else stun_attr fuel want msg (p + 4 + Z.to_nat (pad4 attr_len))
      else None
  end.

Definition stun_find (want : Z) (msg : list Z) : option (nat * Z) := stun_attr (length msg) want msg STUN_HEADER_SIZE.

(** ** Addresses *)

(** What is left of a sockaddr_in6 besides port and address is its flow label
    and scope; memcmp sees it, rwd_sockaddr_equal does not. *)
Inductive sockaddr := SA4 (port addr : Z) | SA6 (port : Z) (addr : list Z) (flow_scope : Z).
#[global] Instance sockaddr_dec : EqDecision sockaddr.
Proof. solve_decision. Defined.

Definition sa_len (a : sockaddr) : nat := match a with SA4 _ _ => 16 | SA6 _ _ _ => 28 end.

Definition rwd_sockaddr_equal (a b : sockaddr) : bool :=
  match a, b with
  | SA4 p x, SA4 q y => (p =? q) && (x =? y)
  | SA6 p x _, SA6 q y _ => (p =? q) && bool_decide (x = y)
  | _, _ => false
  end.

(** ** State *)

Inductive rwd_dtls_state := RWD_DTLS_NEW | RWD_DTLS_HANDSHAKING | RWD_DTLS_ESTABLISHED | RWD_DTLS_FAILED.
#[global] Instance rwd_dtls_state_dec : EqDecision rwd_dtls_state.
Proof. solve_decision. Defined.

Record rwd_client := mk_rwd_client {
  cl_session_id : Z;
  cl_created_at : Z;
  cl_addr : option sockaddr;
  cl_verified_addrs : list sockaddr;
  cl_local_ufrag : list Z; cl_local_pwd : list Z;
  cl_remote_ufrag : list Z; cl_remote_pwd : list Z;
  cl_ice_verified : bool;
  cl_last_stun_at : Z;
  cl_dtls_state : rwd_dtls_state;
  cl_dtls_buf : list Z;
  cl_media_ready : bool;
  cl_srtp_recv : bool;
  cl_sending : bool;
  cl_stream_idx : Z
}.

#[global] Instance eta_rwd_client : Settable rwd_client := fun c =>
  mk_rwd_client (cl_session_id c) (cl_created_at c) (cl_addr c) (cl_verified_addrs c) (cl_local_ufrag c)
    (cl_local_pwd c) (cl_remote_ufrag c) (cl_remote_pwd c) (cl_ice_verified c) (cl_last_stun_at c)
    (cl_dtls_state c) (cl_dtls_buf c) (cl_media_ready c) (cl_srtp_recv c) (cl_sending c) (cl_stream_idx c).

(** The slots of [clients]; [sv_sent] is what went out on the UDP socket. *)
Record rwd_server := mk_rwd_server {
  sv_clients : list (option rwd_client);
  sv_client_count : Z;
  sv_max_clients : Z;
  sv_sent : list (list Z * sockaddr)
}.

#[global] Instance eta_rwd_server : Settable rwd_server := fun s =>
  mk_rwd_server (sv_clients s) (sv_client_count s) (sv_max_clients s) (sv_sent s).

Definition set_client (i : nat) (c : option rwd_client) (srv : rwd_server) : rwd_server :=
  srv <| sv_clients := <[i := c]> (sv_clients srv) |>.

(** The first slot whose client satisfies [f]. *)
Fixpoint find_slot (f : rwd_client -> bool) (l : list (option rwd_client)) (i : nat) : option (nat * rwd_client) :=
  match l with
  | [] => None
  | Some c :: l => if f c then Some (i, c) else find_slot f l (S i)
  | None :: l => find_slot f l (S i)
  end.

Section hmac.
Context (hmac_sha1 : list Z -> list Z -> list Z).

(** ** MESSAGE-INTEGRITY and USERNAME *)

(** The header with its length set to end after the attribute, and what comes
    before the attribute. *)
Definition integrity_data (msg : list Z) (mi_offset : nat) : list Z :=
  patch_len (u16 (Z.of_nat (mi_offset - STUN_HEADER_SIZE + 24))) (take mi_offset msg).

Definition stun_verify_integrity (msg ice_pwd : list Z) : bool :=
  if (length msg <? STUN_HEADER_SIZE + 24)%nat then false else
  match stun_find STUN_ATTR_MESSAGE_INTEGRITY msg with
  | None => false
  | Some (mi_offset, attr_len) =>
      if negb (attr_len =? 20) then false else
      if (2048 <? mi_offset)%nat then false else
      let expected := hmac_sha1 ice_pwd (integrity_data msg mi_offset) in
      let diff := foldl (fun d ab => Z.lor d (Z.lxor ab.1 ab.2)) 0 (zip (take 20 (drop (mi_offset + 4) msg)) (take 20 expected)) in
      diff =? 0
  end.

(** A C string: what is before the first zero byte. *)
Fixpoint c_str (l : list Z) : list Z :=
  match l with
  | [] => []
  | b :: l => if b =? 0 then [] else b :: c_str l
  end.

Definition stun_get_username (msg : list Z) (buf_size : Z) : option (list Z) :=
  match stun_find STUN_ATTR_USERNAME msg with
  | Some (p, attr_len) =>
      if attr_len >=? buf_size then None else Some (take (Z.to_nat attr_len) (drop (p + 4) msg))
  | None => None
  end.

(** strchr(s, ':'): what is before the colon. *)
Fixpoint before_colon (l : list Z) : option (list Z) :=
  match l with
  | [] => None
  | b :: l => if b =? 58 then Some [] else (fun x => b :: x) <$> before_colon l
  end.

(** ** Binding responses *)

Definition xor_mapped (request : list Z) (to : sockaddr) : list Z :=
  match to with
  | SA4 port addr =>
      wr16 8 ++ [0; 1] ++ wr16 (Z.lxor port (Z.shiftr STUN_MAGIC_COOKIE 16)) ++ wr32 (Z.lxor addr STUN_MAGIC_COOKIE)
  | SA6 port addr _ =>
      wr16 20 ++ [0; 2] ++ wr16 (Z.lxor port (Z.shiftr STUN_MAGIC_COOKIE 16)) ++
      zip_with Z.lxor addr (take 16 (drop 4 request))
  end.

(** The two last attributes, which every message rwd builds ends with. *)
Definition add_integrity (pwd msg : list Z) : list Z :=
  let msg := patch_len (u16 (Z.of_nat (length msg - STUN_HEADER_SIZE + 24))) msg in
  msg ++ wr16 STUN_ATTR_MESSAGE_INTEGRITY ++ wr16 20 ++ hmac_sha1 pwd msg.

Definition add_fingerprint (msg : list Z) : list Z :=
  let msg := patch_len (u16 (Z.of_nat (length msg - STUN_HEADER_SIZE + 8))) msg in
  let crc := Z.lxor (crc32_compute rwd_crc32_init msg) STUN_FINGERPRINT_XOR in
  let msg := msg ++ wr16 STUN_ATTR_FINGERPRINT ++ wr16 4 ++ wr32 crc in
  patch_len (u16 (Z.of_nat (length msg - STUN_HEADER_SIZE))) msg.

Definition stun_response (request : list Z) (to : sockaddr) (ice_pwd : list Z) : list Z :=
  let resp := wr16 STUN_BINDING_RESPONSE ++ wr16 0 ++ take 16 (drop 4 request) in
  let resp := resp ++ wr16 STUN_ATTR_XOR_MAPPED_ADDR ++ xor_mapped request to in
  add_fingerprint (add_integrity ice_pwd resp).

(** [sent_ok] is the verdict of sendto. *)
Definition stun_send_response (srv : rwd_server) (request : list Z) (to : sockaddr) (ice_pwd : list Z) (sent_ok : bool)
    : Z * rwd_server :=
  (if sent_ok then 0 else -1, srv <| sv_sent := sv_sent srv ++ [(stun_response request to ice_pwd, to)] |>).

(** ** Connectivity checks *)

(** [txn] and [tiebreaker] are the random bytes; the caller has parsed [dest]. *)
Definition ice_check_msg (c : rwd_client) (txn tiebreaker : list Z) : option (list Z) :=
  let msg := wr16 STUN_BINDING_REQUEST ++ wr16 0 ++ wr32 STUN_MAGIC_COOKIE ++ txn in
  let username := cl_remote_ufrag c ++ [58] ++ cl_local_ufrag c in
  let ulen := Z.of_nat (length username) in
  if ulen >=? 128 then None else
  if 20 + 4 + pad4 ulen + 12 + 8 + 24 + 8 >? 256 then None else
  let msg := msg ++ wr16 STUN_ATTR_USERNAME ++ wr16 ulen ++ username ++ replicate (Z.to_nat (pad4 ulen - ulen)) 0 in
  let msg := msg ++ wr16 0x8029 ++ wr16 8 ++ tiebreaker in
  let msg := msg ++ wr16 0x0024 ++ wr16 4 ++ wr32 ICE_PRIORITY_SRFLX in
  Some (add_fingerprint (add_integrity (cl_remote_pwd c) msg)).

Definition rwd_ice_send_check (srv : rwd_server) (c : rwd_client) (dest : option sockaddr) (txn tiebreaker : list Z)
    (sent_ok : bool) : Z * rwd_server :=
  match dest with
  | None => (-1, srv)
  | Some dest =>
      match ice_check_msg c txn tiebreaker with
      | None => (-1, srv)
      | Some msg => (if sent_ok then 0 else -1, srv <| sv_sent := sv_sent srv ++ [(msg, dest)] |>)
      end
  end.

(** ** The packet handler *)

(** A source that passed: pinned, and among the verified ones, the oldest of
    four making room. *)
Definition note_source (from : sockaddr) (now : Z) (c : rwd_client) : rwd_client :=
  let c := if negb (cl_ice_verified c) then c <| cl_addr := Some from |> <| cl_ice_verified := true |>
           else if bool_decide (cl_addr c = Some from) then c
           else c <| cl_addr := Some from |> in
  let known := existsb (fun a => (sa_len a =? sa_len from)%nat && rwd_sockaddr_equal a from)
                 (take RWD_MAX_VERIFIED_ADDRS (cl_verified_addrs c)) in
  let c := if known then c else
           let l := if (length (cl_verified_addrs c) =? RWD_MAX_VERIFIED_ADDRS)%nat then drop 1 (cl_verified_addrs c)
                    else cl_verified_addrs c in
           c <| cl_verified_addrs := l ++ [from] |> in
  c <| cl_last_stun_at := now |>.

(** The client a binding request is for: its slot, when the request is well
    formed, names it and is signed with its password. *)
Definition ice_request (srv : rwd_server) (buf : list Z) : option (nat * rwd_client) :=
  if (length buf <? STUN_HEADER_SIZE)%nat then None else
  let msg_type := rd16 buf 0 in
  let msg_len := rd16 buf 2 in
  if negb (rd32 buf 4 =? STUN_MAGIC_COOKIE) then None else
  if negb (msg_type =? STUN_BINDING_REQUEST) then None else
  if (length buf <? STUN_HEADER_SIZE + Z.to_nat msg_len)%nat then None else
  let msg := take (STUN_HEADER_SIZE + Z.to_nat msg_len) buf in
  match stun_get_username msg 128 with
  | None => None
  | Some username =>
      match before_colon (c_str username) with
      | None => None
      | Some local_ufrag =>
          match find_slot (fun c => bool_decide (cl_local_ufrag c = local_ufrag)) (sv_clients srv) 0 with
          | None => None
          | Some (i, client) => if stun_verify_integrity msg (cl_local_pwd client) then Some (i, client) else None
          end
      end
  end.

Definition rwd_ice_process (srv : rwd_server) (buf : list Z) (from : sockaddr) (now : Z) (sent_ok : bool) : Z * rwd_server :=
  match ice_request srv buf with
  | None => (-1, srv)
  | Some (i, client) =>
      let srv := set_client i (Some (note_source from now client)) srv in
      stun_send_response srv buf from (cl_local_pwd client) sent_ok
  end.

(** ** Dispatch *)

Definition find_client_by_addr (srv : rwd_server) (addr : sockaddr) : option (nat * rwd_client) * rwd_server :=
  match find_slot (fun c => cl_ice_verified c &&
                            match cl_addr c with Some a => rwd_sockaddr_equal a addr | None => false end) (sv_clients srv) 0 with
  | Some (i, c) => (Some (i, c), srv)
  | None =>
      match find_slot (fun c => cl_ice_verified c &&
                                existsb (fun a => rwd_sockaddr_equal a addr) (take RWD_MAX_VERIFIED_ADDRS (cl_verified_addrs c)))
                      (sv_clients srv) 0 with
      | Some (i, c) => let c := c <| cl_addr := Some addr |> in (Some (i, c), set_client i (Some c) srv)
      | None => (None, srv)
      end
  end.

Definition rwd_rtcp_requests_keyframe (packet : list Z) : bool :=
  if (length packet <? 12)%nat || negb (Z.land (byte_at packet 0) 0xc0 =? 0x80) then false else
  let fmt := Z.land (byte_at packet 0) 0x1f in
  (byte_at packet 1 =? 206) && ((fmt =? 1) || (fmt =? 4)).

(** What a datagram is handed to. *)
Inductive delivery :=
| DlDtls (slot : nat) (record : list Z)
| DlIdr (stream_idx : Z) (slot : nat)
| DlRtp (slot : nat) (packet : list Z).

Definition RWD_UDP_BUF_SIZE : nat := 2048.

(** [dtls] is what the handshake step and the SRTP setup make of the client:
    mbedTLS and libcompy, which do not touch its addresses or credentials. *)
Definition dtls_result := (rwd_dtls_state * bool * bool * bool)%type.

Definition apply_dtls (r : dtls_result) (c : rwd_client) : rwd_client :=
  let '(d, ready, recv, sending) := r in
  c <| cl_dtls_state := d |> <| cl_media_ready := ready |> <| cl_srtp_recv := recv |> <| cl_sending := sending |>.

Definition handle_udp_packet (srv : rwd_server) (buf : list Z) (from : sockaddr) (now : Z) (sent_ok : bool)
    (dtls : dtls_result) : list delivery * rwd_server :=
  match buf with
  | [] => ([], srv)
  | first :: _ =>
      if first <=? 0x03 then ([], (rwd_ice_process srv buf from now sent_ok).2)
      else if (0x14 <=? first) && (first <=? 0x19) then
        let '(found, srv) := find_client_by_addr srv from in
        match found with
        | Some (i, c) =>
            if bool_decide (cl_dtls_state c = RWD_DTLS_FAILED) then ([], srv) else
            let record := take RWD_UDP_BUF_SIZE buf in
            ([DlDtls i record], set_client i (Some (apply_dtls dtls (c <| cl_dtls_buf := record |>))) srv)
        | None => ([], srv)
        end
      else if (0x80 <=? first) && (first <=? 0xBF) then
        if (length buf <? 12)%nat then ([], srv) else
        let '(idr, srv) :=
          if rwd_rtcp_requests_keyframe buf then
            let '(found, srv) := find_client_by_addr srv from in
            (match found with Some (i, c) => if cl_sending c then [DlIdr (cl_stream_idx c) i] else [] | None => [] end, srv)
          else ([], srv) in
        let '(found, srv) := find_client_by_addr srv from in
        (idr ++ match found with
                | Some (i, c) => if cl_srtp_recv c && (length buf <=? RWD_UDP_BUF_SIZE)%nat then [DlRtp i buf] else []
                | None => []
                end, srv)
      else ([], srv)
  end.

(** ** Credentials *)

(** The charset, as bytes. *)
Definition ice_charset : list Z :=
  (Z.of_nat <$> seq 97 26) ++ (Z.of_nat <$> seq 65 26) ++ (Z.of_nat <$> seq 48 10) ++ [43; 47].

(** [rand] is what /dev/urandom gave, [None] when it failed. *)
Definition cred_chars (n : nat) (size : nat) (rand : option (list Z)) : list Z :=
  let bytes := take n (default (replicate n 0) rand) in
  take (size - 1) ((fun r => nth (Z.to_nat (r mod 64)) ice_charset 0) <$> bytes).

Definition rwd_generate_ice_credentials (ufrag_rand pwd_rand : option (list Z)) : list Z * list Z :=
  (cred_chars 8 16 ufrag_rand, cred_chars 24 32 pwd_rand).

(** ** Slots *)

Fixpoint oldest_slot (l : list (option rwd_client)) (i : nat) (best : option nat) (ts : Z) : option nat :=
  match l with
  | [] => best
  | Some c :: l => if cl_created_at c <? ts then oldest_slot l (S i) (Some i) (cl_created_at c) else oldest_slot l (S i) best ts
  | None :: l => oldest_slot l (S i) best ts
  end.

Definition drop_client (i : nat) (srv : rwd_server) : rwd_server :=
  (set_client i None srv) <| sv_client_count := sv_client_count srv - 1 |>.

Fixpoint free_slot (l : list (option rwd_client)) (i : nat) : option nat :=
  match l with [] => None | None :: _ => Some i | Some _ :: l => free_slot l (S i) end.

(** rwd_client_from_offer: [mem_ok], [dtls_ok] and [answer_ok] are the verdicts
    of calloc, of the DTLS setup and of the answer; [remote] are the offer's
    credentials. *)
Definition rwd_client_from_offer (srv : rwd_server) (now id stream_idx : Z) (remote : list Z * list Z)
    (rand : option (list Z) * option (list Z)) (mem_ok dtls_ok answer_ok : bool) : bool * rwd_server :=
  let room :=
    if sv_client_count srv >=? sv_max_clients srv then
      (fun i => drop_client i srv) <$> oldest_slot (sv_clients srv) 0 None (2 ^ 63 - 1)
    else Some srv in
  match room with
  | None => (false, srv)
  | Some srv =>
      if negb (mem_ok && dtls_ok && answer_ok) then (false, srv) else
      let '(ufrag, pwd) := rwd_generate_ice_credentials rand.1 rand.2 in
      let c := mk_rwd_client id now None [] ufrag pwd (take 63 remote.1) (take 255 remote.2) false 0
                 RWD_DTLS_NEW [] false false false stream_idx in
      match free_slot (sv_clients srv) 0 with
      | Some i => (true, (set_client i (Some c) srv) <| sv_client_count := sv_client_count srv + 1 |>)
      | None => (true, srv)
      end
  end.

Definition handle_whip_delete (srv : rwd_server) (session_id : Z) : rwd_server :=
  match find_slot (fun c => cl_session_id c =? session_id) (sv_clients srv) 0 with
  | Some (i, _) => drop_client i srv
  | None => srv
  end.

Definition is_stale (now : Z) (c : rwd_client) : bool :=
  (negb (cl_ice_verified c) && (now - cl_created_at c >? 30 * 1000000)) ||
  bool_decide (cl_dtls_state c = RWD_DTLS_FAILED) ||
  (cl_sending c && (cl_last_stun_at c >? 0) && (now - cl_last_stun_at c >? 30 * 1000000)).

Fixpoint cleanup_slots (now : Z) (l : list (option rwd_client)) (i : nat) (srv : rwd_server) : rwd_server :=
  match l with
  | [] => srv
  | Some c :: l => cleanup_slots now l (S i) (if is_stale now c then drop_client i srv else srv)
  | None :: l => cleanup_slots now l (S i) srv
  end.

Definition cleanup_stale_clients (now : Z) (srv : rwd_server) : rwd_server := cleanup_slots now (sv_clients srv) 0 srv.

End hmac.
