(* ===== verification/RwdIceProps.v ===== *)
(** * rwd: STUN messages on the wire

    The table-driven CRC against the bitwise one; the shape of the messages
    rwd_ice.c builds, what its own walks find in them, and a reference reader of
    RFC 5389. *)

From stdpp Require Import list.
From S2P Require Import Prelude RwdIce.

(** ** CRC-32 *)

(** The definition of the code: one division step per bit. *)
Definition crc32_bits (data : list Z) : Z :=
  Z.lxor (foldl (fun c b => Nat.iter 8 crc_step (Z.lxor c b)) 0xFFFFFFFF data) 0xFFFFFFFF.

Lemma crc_step_lxor a b : crc_step (Z.lxor a b) = Z.lxor (crc_step a) (crc_step b).
Proof.
  unfold crc_step. rewrite Z.shiftr_lxor, Z.lxor_spec.
  destruct (Z.testbit a 0), (Z.testbit b 0); cbn [xorb]; Z.bitwise; by repeat destruct (Z.testbit _ _).
Qed.

Lemma crc_iter_lxor n a b : Nat.iter n crc_step (Z.lxor a b) = Z.lxor (Nat.iter n crc_step a) (Nat.iter n crc_step b).
Proof. induction n as [|n IH]; [done|]. cbn [Nat.iter nat_rect]. unfold Nat.iter in IH. by rewrite IH, crc_step_lxor. Qed.

Lemma crc_step_even c : Z.testbit c 0 = false -> crc_step c = Z.shiftr c 1.
Proof. intros H. unfold crc_step. by rewrite H, Z.lxor_0_r. Qed.

Lemma crc_iter_shift n y : Nat.iter n crc_step (Z.shiftl y (Z.of_nat n)) = y.
Proof.
  induction n as [|n IH]; [apply Z.shiftl_0_r|].
  rewrite Nat.iter_succ_r, crc_step_even by (apply Z.shiftl_spec_low; lia).
  rewrite Z.shiftr_shiftl_l by lia. replace (Z.of_nat (S n) - 1) with (Z.of_nat n) by lia. exact IH.
Qed.

Lemma crc_split x : 0 <= x -> x = Z.lxor (Z.land x 255) (Z.shiftl (Z.shiftr x 8) 8).
Proof.
  intros H. apply Z.bits_inj'. intros n Hn. rewrite Z.lxor_spec, Z.land_spec, Z.shiftl_spec by lia.
  change 255 with (Z.ones 8).
  destruct (Z_lt_dec n 8) as [Hlt|Hge].
  - rewrite Z.ones_spec_low by lia. rewrite (Z.testbit_neg_r _ (n - 8)) by lia. by rewrite andb_true_r, xorb_false_r.
  - rewrite Z.ones_spec_high by lia. rewrite Z.shiftr_spec by lia. replace (n - 8 + 8) with n by lia.
    by rewrite andb_false_r, xorb_false_l.
Qed.

Lemma crc_table_nth i : (i < 256)%nat -> nth i rwd_crc32_init 0 = Nat.iter 8 crc_step (Z.of_nat i).
Proof.
  intros H. unfold rwd_crc32_init.
  assert (Hl : ((fun i => Nat.iter 8 crc_step (Z.of_nat i)) <$> seq 0 256) !! i = Some (Nat.iter 8 crc_step (Z.of_nat i))).
  { rewrite list_lookup_fmap, lookup_seq_lt by lia. done. }
  by apply nth_lookup_Some.
Qed.

Lemma crc_update_bits crc b : 0 <= crc -> is_byte b ->
  crc32_update rwd_crc32_init crc b = Nat.iter 8 crc_step (Z.lxor crc b).
Proof.
  intros Hc Hb. unfold crc32_update.
  assert (Hx : 0 <= Z.lxor crc b) by (apply Z.lxor_nonneg; unfold is_byte in *; lia).
  rewrite (crc_split (Z.lxor crc b)) at 2 by done.
  rewrite crc_iter_lxor.
  pose proof (crc_iter_shift 8 (Z.shiftr (Z.lxor crc b) 8)) as Hs. change (Z.of_nat 8) with 8 in Hs. rewrite Hs.
  change 0xFF with (Z.ones 8). change 255 with (Z.ones 8). rewrite Z.land_ones by lia.
  assert (Hr : 0 <= Z.lxor crc b mod 2 ^ 8 < 256) by (apply Z.mod_pos_bound; lia).
  rewrite crc_table_nth by lia. rewrite Z2Nat.id by lia. f_equal.
  rewrite Z.shiftr_lxor. replace (Z.shiftr b 8) with 0; [by rewrite Z.lxor_0_r|].
  rewrite Z.shiftr_div_pow2 by lia. unfold is_byte in Hb. symmetry. apply Z.div_small. lia.
Qed.

Lemma crc_step_nonneg c : 0 <= c -> 0 <= crc_step c.
Proof.
  intros H. unfold crc_step. apply Z.lxor_nonneg. pose proof (proj2 (Z.shiftr_nonneg c 1) H).
  destruct (Z.testbit c 0); lia.
Qed.

Lemma crc_iter_nonneg n c : 0 <= c -> 0 <= Nat.iter n crc_step c.
Proof. intros H. induction n as [|n IH]; [done|]. cbn [Nat.iter nat_rect]. by apply crc_step_nonneg. Qed.

Lemma crc32_table_bits data : Forall is_byte data -> crc32_compute rwd_crc32_init data = crc32_bits data.
Proof.
  intros H. unfold crc32_compute, crc32_bits. f_equal.
  assert (G : forall crc, 0 <= crc -> foldl (crc32_update rwd_crc32_init) crc data =
    foldl (fun c b => Nat.iter 8 crc_step (Z.lxor c b)) crc data); [|by apply G].
  induction H as [|b l Hb H IH]; intros crc Hc; [done|]. cbn [foldl]. rewrite crc_update_bits by done. apply IH.
  apply crc_iter_nonneg, Z.lxor_nonneg. unfold is_byte in Hb. lia.
Qed.

(** The table-driven CRC of the STUN fingerprint is the bitwise CRC-32: for
    every list of bytes the two give the same word. *)
Theorem rwd_crc32_bitwise data : Forall is_byte data -> crc32_compute rwd_crc32_init data = crc32_bits data.
Proof. apply crc32_table_bits. Qed.

(** The check value of the polynomial, over "123456789". *)
Lemma rwd_crc32_bitwise_witness :
  crc32_bits [49; 50; 51; 52; 53; 54; 55; 56; 57] = 0xCBF43926 /\
  crc32_compute rwd_crc32_init [49; 50; 51; 52; 53; 54; 55; 56; 57] = crc32_bits [49; 50; 51; 52; 53; 54; 55; 56; 57].
Proof.
  split; [vm_compute; reflexivity|]. apply rwd_crc32_bitwise.
  repeat constructor; unfold is_byte; lia.
Defined.

(** ** Messages *)

Lemma pad4_eq n : 0 <= n -> pad4 n = 4 * ((n + 3) / 4).
Proof.
  intros H. unfold pad4. change 3 with (Z.ones 2) at 2. rewrite Z.ldiff_ones_r by lia.
  rewrite Z.shiftl_mul_pow2, Z.shiftr_div_pow2 by lia. change (2 ^ 2) with 4. lia.
Qed.

Lemma pad4_bounds n : 0 <= n -> n <= pad4 n < n + 4.
Proof. intros H. rewrite pad4_eq by done. pose proof (Z.div_mod (n + 3) 4). pose proof (Z.mod_pos_bound (n + 3) 4). lia. Qed.

Lemma pad4_mult n : 0 <= n -> n mod 4 = 0 -> pad4 n = n.
Proof. intros H Hm. rewrite pad4_eq by done. pose proof (Z.div_mod n 4). Z.to_euclidean_division_equations. lia. Qed.

Lemma wr16_be v : wr16 v = be_bytes 2 v.
Proof. unfold wr16, uwrap. rewrite !Z.shiftr_div_pow2 by lia. done. Qed.
Lemma wr32_be v : wr32 v = be_bytes 4 v.
Proof. unfold wr32, uwrap. rewrite !Z.shiftr_div_pow2 by lia. simpl. by rewrite !Z.div_div by lia. Qed.

Lemma byte_at_app pre l i : byte_at (pre ++ l) (length pre + i) = byte_at l i.
Proof. unfold byte_at. rewrite app_nth2 by lia. f_equal. lia. Qed.

Lemma lor_bytes a b : 0 <= b < 256 -> Z.lor (Z.shiftl a 8) b = a * 256 + b.
Proof. intros H. by rewrite (lor_shiftl_add a b 8) by lia. Qed.

Lemma rd16_app pre v rest : rd16 (pre ++ wr16 v ++ rest) (length pre) = u16 v.
Proof.
  unfold rd16. rewrite <- (Nat.add_0_r (length pre)) at 1. rewrite !byte_at_app. cbn [wr16 app byte_at nth].
  rewrite lor_bytes by (apply uwrap_range; lia). unfold uwrap. rewrite Z.shiftr_div_pow2 by lia.
  change (2 ^ 8) with 256. change (2 ^ 16) with (256 * 256). rewrite Z.rem_mul_r by lia. lia.
Qed.

Lemma rd16_app2 pre a v rest : length a = 2%nat -> rd16 (pre ++ a ++ wr16 v ++ rest) (length pre + 2) = u16 v.
Proof. intros H. rewrite app_assoc. replace (length pre + 2)%nat with (length (pre ++ a)) by (rewrite length_app; lia). apply rd16_app. Qed.

Definition attr_bytes (a : Z * list Z) : list Z :=
  wr16 a.1 ++ wr16 (Z.of_nat (length a.2)) ++ a.2 ++
  replicate (Z.to_nat (pad4 (Z.of_nat (length a.2)) - Z.of_nat (length a.2))) 0.
Definition stun_body (attrs : list (Z * list Z)) : list Z := concat (attr_bytes <$> attrs).
Definition stun_header (ty len : Z) (txn : list Z) : list Z := wr16 ty ++ wr16 len ++ txn.

(** Types and lengths that fit their fields. *)
Definition attr_ok (a : Z * list Z) : Prop := 0 <= a.1 < 2 ^ 16 /\ Z.of_nat (length a.2) < 2 ^ 16.

Lemma attr_bytes_length a : Z.of_nat (length (attr_bytes a)) = 4 + pad4 (Z.of_nat (length a.2)).
Proof.
  unfold attr_bytes. rewrite !length_app, length_replicate. cbn [wr16 length].
  pose proof (pad4_bounds (Z.of_nat (length a.2))). lia.
Qed.

Lemma stun_body_app l1 l2 : stun_body (l1 ++ l2) = stun_body l1 ++ stun_body l2.
Proof. unfold stun_body. by rewrite fmap_app, concat_app. Qed.

Lemma stun_body_cons a l : stun_body (a :: l) = attr_bytes a ++ stun_body l.
Proof. done. Qed.

Fixpoint first_attr (want : Z) (attrs : list (Z * list Z)) (off : nat) : option (nat * Z) :=
  match attrs with
  | [] => None
  | a :: l => if a.1 =? want then Some (off, Z.of_nat (length a.2)) else first_attr want l (off + length (attr_bytes a))
  end.

Lemma stun_attr_body want attrs : forall pre fuel, Forall attr_ok attrs -> (length attrs < fuel)%nat ->
  stun_attr fuel want (pre ++ stun_body attrs) (length pre) = first_attr want attrs (length pre).
Proof.
  induction attrs as [|a l IH]; intros pre fuel Hok Hf; (destruct fuel as [|fuel]; [lia|]); cbn [stun_attr first_attr].
  - rewrite length_app. cbn [stun_body fmap list_fmap concat length].
    by rewrite (proj2 (Nat.leb_gt _ _)) by lia.
  - apply Forall_cons in Hok as [[Ht Hlen] Hok]. cbn [length] in Hf.
    set (msg := pre ++ stun_body (a :: l)).
    assert (Hty : rd16 msg (length pre) = a.1).
    { unfold msg. rewrite stun_body_cons. unfold attr_bytes. rewrite <- !app_assoc, rd16_app. apply uwrap_id. cint. }
    assert (Hal : rd16 msg (length pre + 2) = Z.of_nat (length a.2)).
    { unfold msg. rewrite stun_body_cons. unfold attr_bytes. rewrite <- !app_assoc, rd16_app2 by done. apply uwrap_id. cint. }
    assert (Hmsg : length msg = (length pre + length (attr_bytes a) + length (stun_body l))%nat)
      by (unfold msg; rewrite stun_body_cons, !length_app; lia).
    pose proof (attr_bytes_length a) as Hab. pose proof (pad4_bounds (Z.of_nat (length a.2)) ltac:(lia)) as Hp.
    rewrite Hty, Hal, Hmsg. rewrite (proj2 (Nat.leb_le _ _)) by lia.
    rewrite (proj2 (Nat.ltb_ge _ _)) by lia. destruct (a.1 =? want); [done|].
    rewrite (proj2 (Nat.ltb_ge _ _)) by lia.
    replace (length pre + 4 + Z.to_nat (pad4 (Z.of_nat (length a.2))))%nat with (length (pre ++ attr_bytes a))
      by (rewrite length_app; lia).
    unfold msg. rewrite stun_body_cons, app_assoc. rewrite IH by (done || lia). rewrite length_app. done.
Qed.

(** ** Building *)

Lemma header_length ty len txn : length (stun_header ty len txn) = (4 + length txn)%nat.
Proof. unfold stun_header. rewrite !length_app. cbn [wr16 length]. lia. Qed.

Lemma patch_header v ty len txn rest : patch_len v (stun_header ty len txn ++ rest) = stun_header ty v txn ++ rest.
Proof. unfold patch_len, stun_header. rewrite <- !app_assoc. done. Qed.

Section hmac.
Context (hmac_sha1 : list Z -> list Z -> list Z).
Hypothesis hmac_len : forall k m, length (hmac_sha1 k m) = 20%nat.

(** The value of the integrity attribute after [attrs]. *)
Definition integrity_value (pwd : list Z) (ty : Z) (txn : list Z) (attrs : list (Z * list Z)) : list Z :=
  hmac_sha1 pwd (stun_header ty (Z.of_nat (length (stun_body attrs)) + 24) txn ++ stun_body attrs).

Definition with_integrity (pwd : list Z) (ty : Z) (txn : list Z) (attrs : list (Z * list Z)) : list (Z * list Z) :=
  attrs ++ [(STUN_ATTR_MESSAGE_INTEGRITY, integrity_value pwd ty txn attrs)].

Lemma integrity_attr v : length v = 20%nat ->
  attr_bytes (STUN_ATTR_MESSAGE_INTEGRITY, v) = wr16 STUN_ATTR_MESSAGE_INTEGRITY ++ wr16 20 ++ v.
Proof. intros H. unfold attr_bytes. cbn [fst snd]. rewrite H. cbn [replicate Z.of_nat Z.to_nat]. by rewrite app_nil_r. Qed.

Lemma add_integrity_eq pwd ty len0 txn attrs : length txn = 16%nat ->
  Z.of_nat (length (stun_body attrs)) + 24 < 2 ^ 16 ->
  add_integrity hmac_sha1 pwd (stun_header ty len0 txn ++ stun_body attrs) =
  stun_header ty (Z.of_nat (length (stun_body (with_integrity pwd ty txn attrs)))) txn ++
    stun_body (with_integrity pwd ty txn attrs).
Proof.
  intros Ht Hl. unfold add_integrity. rewrite patch_header, length_app, header_length, Ht.
  replace (4 + 16 + length (stun_body attrs) - STUN_HEADER_SIZE + 24)%nat with (length (stun_body attrs) + 24)%nat
    by (unfold STUN_HEADER_SIZE; lia).
  rewrite uwrap_id by cint. rewrite Nat2Z.inj_add. change (Z.of_nat 24) with 24. fold (integrity_value pwd ty txn attrs).
  unfold with_integrity. rewrite !stun_body_app, length_app.
  assert (Hb : stun_body [(STUN_ATTR_MESSAGE_INTEGRITY, integrity_value pwd ty txn attrs)] =
    wr16 STUN_ATTR_MESSAGE_INTEGRITY ++ wr16 20 ++ integrity_value pwd ty txn attrs).
  { unfold stun_body. cbn [fmap list_fmap concat]. rewrite app_nil_r. apply integrity_attr, hmac_len. }
  rewrite Hb, !length_app. unfold integrity_value at 2. rewrite hmac_len. cbn [wr16 length].
  rewrite Nat2Z.inj_add. by rewrite <- !app_assoc.
Qed.

Definition fingerprint_value (msg : list Z) : list Z :=
  wr32 (Z.lxor (crc32_compute rwd_crc32_init msg) STUN_FINGERPRINT_XOR).

Definition with_fingerprint (ty : Z) (txn : list Z) (attrs : list (Z * list Z)) : list (Z * list Z) :=
  attrs ++ [(STUN_ATTR_FINGERPRINT,
             fingerprint_value (stun_header ty (Z.of_nat (length (stun_body attrs)) + 8) txn ++ stun_body attrs))].

Lemma add_fingerprint_eq ty len0 txn attrs : length txn = 16%nat -> Z.of_nat (length (stun_body attrs)) + 8 < 2 ^ 16 ->
  add_fingerprint (stun_header ty len0 txn ++ stun_body attrs) =
  stun_header ty (Z.of_nat (length (stun_body (with_fingerprint ty txn attrs)))) txn ++
    stun_body (with_fingerprint ty txn attrs).
Proof.
  intros Ht Hl. unfold add_fingerprint. cbv zeta. rewrite (length_app (stun_header ty len0 txn)), header_length, Ht, patch_header.
  replace (4 + 16 + length (stun_body attrs) - STUN_HEADER_SIZE + 8)%nat with (length (stun_body attrs) + 8)%nat
    by (unfold STUN_HEADER_SIZE; lia).
  rewrite (uwrap_id 16 (Z.of_nat (length (stun_body attrs) + 8))) by (unfold in_u; lia).
  replace (Z.of_nat (length (stun_body attrs) + 8)) with (Z.of_nat (length (stun_body attrs)) + 8) by lia.
  unfold with_fingerprint. fold (fingerprint_value (stun_header ty (Z.of_nat (length (stun_body attrs)) + 8) txn ++ stun_body attrs)).
  set (fp := fingerprint_value _).
  assert (Hfp : length fp = 4%nat) by done. clearbody fp.
  rewrite <- app_assoc, patch_header, !length_app, header_length, Ht, Hfp. cbn [wr16 length].
  replace (4 + 16 + (length (stun_body attrs) + (2 + (2 + 4))) - STUN_HEADER_SIZE)%nat with (length (stun_body attrs) + 8)%nat
    by (unfold STUN_HEADER_SIZE; lia).
  rewrite !stun_body_app.
  assert (Hb : stun_body [(STUN_ATTR_FINGERPRINT, fp)] = wr16 STUN_ATTR_FINGERPRINT ++ wr16 4 ++ fp).
  { unfold stun_body, attr_bytes. cbn [fmap list_fmap concat fst snd]. rewrite Hfp. cbn [replicate Z.of_nat Z.to_nat].
    by rewrite !app_nil_r. }
  rewrite Hb, !length_app, Hfp. cbn [wr16 length]. rewrite uwrap_id by (unfold in_u; lia). done.
Qed.

(** ** What the walks find in a built message *)

Lemma body_length_attrs attrs : (length attrs <= length (stun_body attrs))%nat.
Proof.
  induction attrs as [|a l IH]; [done|]. rewrite stun_body_cons, length_app. cbn [length].
  pose proof (attr_bytes_length a). pose proof (pad4_bounds (Z.of_nat (length a.2))). lia.
Qed.

Lemma stun_find_message want ty len txn attrs : length txn = 16%nat -> Forall attr_ok attrs ->
  stun_find want (stun_header ty len txn ++ stun_body attrs) = first_attr want attrs STUN_HEADER_SIZE.
Proof.
  intros Ht Hok. unfold stun_find.
  assert (Hh : STUN_HEADER_SIZE = length (stun_header ty len txn)) by (by rewrite header_length, Ht).
  rewrite Hh. apply stun_attr_body; [done|]. rewrite length_app, header_length.
  pose proof (body_length_attrs attrs). lia.
Qed.

Lemma first_attr_app want l1 a l2 off : want ∉ l1.*1 -> a.1 = want ->
  first_attr want (l1 ++ a :: l2) off = Some ((off + length (stun_body l1))%nat, Z.of_nat (length a.2)).
Proof.
  revert off. induction l1 as [|b l1 IH]; intros off Hn Ha; cbn [first_attr app].
  - rewrite (proj2 (Z.eqb_eq _ _) Ha). cbn [stun_body fmap list_fmap concat length]. by rewrite Nat.add_0_r.
  - cbn [fmap list_fmap] in Hn. apply not_elem_of_cons in Hn as [Hn1 Hn2].
    rewrite (proj2 (Z.eqb_neq _ _)) by congruence. rewrite IH by done. rewrite stun_body_cons, length_app. do 2 f_equal. lia.
Qed.

Lemma diff_zero l1 : forall l2 d, length l1 = length l2 -> 0 <= d -> Forall is_byte l1 -> Forall is_byte l2 ->
  (foldl (fun d ab => Z.lor d (Z.lxor ab.1 ab.2)) d (zip l1 l2) =? 0) = bool_decide (d = 0 /\ l1 = l2).
Proof.
  induction l1 as [|a l1 IH]; intros [|b l2] d Hl Hd H1 H2; try done; cbn [zip zip_with foldl].
  - destruct (Z.eqb_spec d 0); [rewrite bool_decide_true|rewrite bool_decide_false]; naive_solver.
  - apply Forall_cons in H1 as [Ha H1]. apply Forall_cons in H2 as [Hb H2]. cbn [fst snd]. unfold is_byte in Ha, Hb.
    assert (Hx : 0 <= Z.lxor a b) by (apply Z.lxor_nonneg; lia).
    cbn [length] in Hl. rewrite IH; [|lia|by apply Z.lor_nonneg|done|done].
    apply bool_decide_ext. rewrite Z.lor_eq_0_iff, Z.lxor_eq_0_iff. naive_solver.
Qed.

Hypothesis hmac_bytes : forall k m, Forall is_byte (hmac_sha1 k m).

(** The verdict on a message whose first integrity attribute is [v]. *)
Lemma verify_message pwd ty len txn attrs v more : length txn = 16%nat -> Forall attr_ok (attrs ++ [(STUN_ATTR_MESSAGE_INTEGRITY, v)] ++ more) ->
  STUN_ATTR_MESSAGE_INTEGRITY ∉ attrs.*1 -> length v = 20%nat -> Forall is_byte v ->
  Z.of_nat (length (stun_body attrs)) <= 2000 ->
  stun_verify_integrity hmac_sha1
    (stun_header ty len txn ++ stun_body (attrs ++ [(STUN_ATTR_MESSAGE_INTEGRITY, v)] ++ more)) pwd =
  bool_decide (v = integrity_value pwd ty txn attrs).
Proof.
  intros Ht Hok Hni Hv Hvb Hsz. unfold stun_verify_integrity. rewrite stun_find_message by done.
  cbn [app]. rewrite first_attr_app by done. rewrite !stun_body_app, stun_body_cons, integrity_attr by done.
  cbn [snd]. rewrite Hv.
  set (hdr := stun_header ty len txn). assert (Hh : length hdr = 20%nat) by (unfold hdr; by rewrite header_length, Ht).
  rewrite !length_app, Hh, Hv. cbn [wr16 length].
  rewrite (proj2 (Nat.ltb_ge _ _)) by (unfold STUN_HEADER_SIZE; lia).
  rewrite (proj2 (Nat.ltb_ge 2048 _)) by (unfold STUN_HEADER_SIZE; lia).
  change (negb (Z.of_nat 20 =? 20)) with false. cbv iota.
  assert (Hdata : integrity_data (hdr ++ stun_body attrs ++ (wr16 STUN_ATTR_MESSAGE_INTEGRITY ++ wr16 20 ++ v) ++ stun_body more)
      (STUN_HEADER_SIZE + length (stun_body attrs)) =
    stun_header ty (Z.of_nat (length (stun_body attrs)) + 24) txn ++ stun_body attrs).
  { unfold integrity_data. rewrite app_assoc.
    rewrite take_app_length' by (rewrite length_app, Hh; done). unfold hdr. rewrite patch_header. do 2 f_equal.
    rewrite uwrap_id by (unfold in_u; unfold STUN_HEADER_SIZE; lia). unfold STUN_HEADER_SIZE. lia. }
  rewrite Hdata. fold (integrity_value pwd ty txn attrs).
  assert (Hdrop : take 20 (drop (STUN_HEADER_SIZE + length (stun_body attrs) + 4)
      (hdr ++ stun_body attrs ++ (wr16 STUN_ATTR_MESSAGE_INTEGRITY ++ wr16 20 ++ v) ++ stun_body more)) = v).
  { rewrite app_assoc, <- !app_assoc, (app_assoc hdr), (app_assoc (wr16 _)), (app_assoc (hdr ++ stun_body attrs)).
    rewrite drop_app_length' by (rewrite !length_app, Hh; cbn [wr16 length]; unfold STUN_HEADER_SIZE; lia).
    by rewrite take_app_length' by done. }
  rewrite Hdrop. rewrite (firstn_all2 (integrity_value pwd ty txn attrs)) by (unfold integrity_value; rewrite hmac_len; lia).
  rewrite diff_zero; [apply bool_decide_ext; naive_solver| |lia|done|apply hmac_bytes].
  unfold integrity_value. by rewrite hmac_len.
Qed.

(** ** A reference reader (RFC 5389) *)

Record stun_msg := mk_stun_msg { sm_type : Z; sm_txn : list Z; sm_attrs : list (Z * list Z) }.

Fixpoint read_attrs (fuel : nat) (l : list Z) : option (list (Z * list Z)) :=
  match fuel, l with
  | _, [] => Some []
  | S fuel, t1 :: t2 :: l1 :: l2 :: rest =>
      let n := l1 * 256 + l2 in
      if Z.of_nat (length rest) <? pad4 n then None
      else cons (t1 * 256 + t2, take (Z.to_nat n) rest) <$> read_attrs fuel (drop (Z.to_nat (pad4 n)) rest)
  | _, _ => None
  end.

Definition stun_read (msg : list Z) : option stun_msg :=
  match msg with
  | t1 :: t2 :: l1 :: l2 :: rest =>
      if (length rest <? 16)%nat || negb (l1 * 256 + l2 =? Z.of_nat (length rest) - 16) then None
      else mk_stun_msg (t1 * 256 + t2) (take 16 rest) <$> read_attrs (length rest) (drop 16 rest)
  | _ => None
  end.

(** XOR-MAPPED-ADDRESS, against cookie and transaction id. *)
Definition read_address (txn v : list Z) : option sockaddr :=
  match v with
  | 0 :: 1 :: p1 :: p2 :: a =>
      if (length a =? 4)%nat then Some (SA4 (Z.lxor (be_val [p1; p2]) 0x2112) (Z.lxor (be_val a) 0x2112A442)) else None
  | 0 :: 2 :: p1 :: p2 :: a =>
      if (length a =? 16)%nat then Some (SA6 (Z.lxor (be_val [p1; p2]) 0x2112) (zip_with Z.lxor a txn) 0) else None
  | _ => None
  end.

(** The last attribute is the CRC-32 of everything before it. *)
Definition fingerprint_ok (msg : list Z) : Prop := exists front, msg = front ++ be_bytes 2 0x8028 ++ be_bytes 2 4 ++
  be_bytes 4 (Z.lxor (crc32_bits front) 0x5354554E).

Lemma wr16_val v : 0 <= v < 2 ^ 16 -> exists a b, wr16 v = [a; b] /\ a * 256 + b = v.
Proof.
  intros H. eexists _, _. split; [done|]. unfold uwrap. rewrite Z.shiftr_div_pow2 by lia. change (2 ^ 8) with 256.
  rewrite (Z.mod_small (v / 256)); [pose proof (Z.div_mod v 256); lia|].
  split; [apply Z.div_pos; lia|apply Z.div_lt_upper_bound; lia].
Qed.

Lemma read_attrs_body attrs : forall fuel, Forall attr_ok attrs -> (length attrs <= fuel)%nat ->
  read_attrs fuel (stun_body attrs) = Some attrs.
Proof.
  induction attrs as [|[t v] l IH]; intros fuel Hok Hf; [by destruct fuel|].
  apply Forall_cons in Hok as [[Ht Hv] Hok]. cbn [fst snd length] in *. destruct fuel as [|fuel]; [lia|].
  rewrite stun_body_cons. unfold attr_bytes. cbn [fst snd].
  destruct (wr16_val t Ht) as (t1 & t2 & -> & Et). destruct (wr16_val (Z.of_nat (length v))) as (l1 & l2 & -> & El); [lia|].
  cbn [app read_attrs]. rewrite Et, El. pose proof (pad4_bounds (Z.of_nat (length v))) as Hp.
  set (pad := replicate _ 0). assert (Hpad : length pad = Z.to_nat (pad4 (Z.of_nat (length v)) - Z.of_nat (length v)))
    by (unfold pad; by rewrite length_replicate).
  rewrite !length_app, Hpad. rewrite (proj2 (Z.ltb_ge _ _)) by lia.
  rewrite Nat2Z.id. rewrite <- app_assoc, take_app_length. rewrite app_assoc.
  rewrite drop_app_length' by (rewrite length_app, Hpad; lia). rewrite IH by (done || lia). done.
Qed.

Lemma stun_read_message ty txn attrs : 0 <= ty < 2 ^ 16 -> length txn = 16%nat -> Forall attr_ok attrs ->
  Z.of_nat (length (stun_body attrs)) < 2 ^ 16 ->
  stun_read (stun_header ty (Z.of_nat (length (stun_body attrs))) txn ++ stun_body attrs) = Some (mk_stun_msg ty txn attrs).
Proof.
  intros Hty Ht Hok Hl. unfold stun_header. rewrite <- !app_assoc.
  destruct (wr16_val ty Hty) as (t1 & t2 & -> & Et).
  destruct (wr16_val (Z.of_nat (length (stun_body attrs)))) as (l1 & l2 & -> & El); [lia|].
  cbn [app stun_read]. rewrite Et, El, length_app, Ht. rewrite (proj2 (Nat.ltb_ge _ _)) by lia.
  rewrite (proj2 (Z.eqb_eq _ _)) by lia. cbn [orb negb].
  rewrite take_app_length', drop_app_length' by done. rewrite read_attrs_body; [done|done|].
  pose proof (body_length_attrs attrs). lia.
Qed.

Definition addr_ok (a : sockaddr) : Prop :=
  match a with
  | SA4 port addr => 0 <= port < 2 ^ 16 /\ 0 <= addr < 2 ^ 32
  | SA6 port addr _ => 0 <= port < 2 ^ 16 /\ length addr = 16%nat /\ Forall is_byte addr
  end.

(** The value of XOR-MAPPED-ADDRESS. *)
Definition mapped_value (txn : list Z) (to : sockaddr) : list Z :=
  match to with
  | SA4 port addr => [0; 1] ++ wr16 (Z.lxor port 0x2112) ++ wr32 (Z.lxor addr STUN_MAGIC_COOKIE)
  | SA6 port addr _ => [0; 2] ++ wr16 (Z.lxor port 0x2112) ++ zip_with Z.lxor addr txn
  end.

Lemma mapped_attr request to : addr_ok to -> (20 <= length request)%nat ->
  wr16 STUN_ATTR_XOR_MAPPED_ADDR ++ xor_mapped request to =
  stun_body [(STUN_ATTR_XOR_MAPPED_ADDR, mapped_value (take 16 (drop 4 request)) to)].
Proof.
  intros Ha Hr. unfold stun_body, attr_bytes. cbn [fmap list_fmap concat fst snd]. rewrite app_nil_r. f_equal.
  destruct to as [port addr|port addr fs].
  - cbn [xor_mapped mapped_value]. change (Z.shiftr STUN_MAGIC_COOKIE 16) with 0x2112.
    rewrite !length_app. cbn [wr16 wr32 length]. change (Z.to_nat (pad4 (Z.of_nat (2 + (2 + 4))) - Z.of_nat (2 + (2 + 4)))) with 0%nat.
    cbn [replicate]. by rewrite app_nil_r.
  - destruct Ha as (_ & Hl & _). cbn [xor_mapped mapped_value]. change (Z.shiftr STUN_MAGIC_COOKIE 16) with 0x2112.
    rewrite !length_app, length_zip_with, length_take, length_drop, Hl. rewrite (Nat.min_l 16 (length request - 4)) by lia.
    cbn [wr16 length Nat.min]. change (Z.to_nat (pad4 (Z.of_nat (2 + (2 + 16))) - Z.of_nat (2 + (2 + 16)))) with 0%nat.
    cbn [replicate]. by rewrite app_nil_r.
Qed.

Lemma lxor_range w a b : 0 <= w -> 0 <= a < 2 ^ w -> 0 <= b < 2 ^ w -> 0 <= Z.lxor a b < 2 ^ w.
Proof.
  intros Hw Ha Hb. assert (Hnn : 0 <= Z.lxor a b) by (apply Z.lxor_nonneg; lia). split; [done|].
  assert (E : Z.lxor a b = Z.lxor a b mod 2 ^ w).
  { apply Z.bits_inj'. intros n Hn. destruct (Z_lt_dec n w); [by rewrite Z.mod_pow2_bits_low|].
    rewrite Z.mod_pow2_bits_high by lia. rewrite Z.lxor_spec.
    rewrite <- (Z.mod_small a (2 ^ w)), <- (Z.mod_small b (2 ^ w)) by lia. by rewrite !Z.mod_pow2_bits_high by lia. }
  rewrite E. apply Z.mod_pos_bound, Z.pow_pos_nonneg; lia.
Qed.

Lemma lxor_twice a b : Z.lxor (Z.lxor a b) b = a.
Proof. by rewrite Z.lxor_assoc, Z.lxor_nilpotent, Z.lxor_0_r. Qed.

Lemma zip_lxor_twice l k : (length l <= length k)%nat -> zip_with Z.lxor (zip_with Z.lxor l k) k = l.
Proof.
  revert k. induction l as [|a l IH]; intros [|b k] H; try done; cbn [length] in H; [lia|].
  cbn [zip_with]. by rewrite lxor_twice, IH by lia.
Qed.

(** What a reader makes of the address, up to flow label and scope. *)
Definition plain (a : sockaddr) : sockaddr := match a with SA6 p x _ => SA6 p x 0 | _ => a end.

Lemma read_mapped txn to : addr_ok to -> length txn = 16%nat -> read_address txn (mapped_value txn to) = Some (plain to).
Proof.
  intros Ha Ht. destruct to as [port addr|port addr fs]; unfold mapped_value, read_address; cbn [app wr16].
  - destruct Ha as [Hp Hx]. change [u8 (Z.shiftr (Z.lxor port 8466) 8); u8 (Z.lxor port 8466)] with (wr16 (Z.lxor port 8466)).
    change (length (wr32 (Z.lxor addr STUN_MAGIC_COOKIE)) =? 4)%nat with true. cbv iota.
    rewrite wr16_be, wr32_be, !be_val_bytes. change (256 ^ Z.of_nat 2) with (2 ^ 16). change (256 ^ Z.of_nat 4) with (2 ^ 32).
    rewrite !Z.mod_small by (apply lxor_range; unfold STUN_MAGIC_COOKIE; lia). change 0x2112A442 with STUN_MAGIC_COOKIE. by rewrite !lxor_twice.
  - destruct Ha as (Hp & Hl & _). change [u8 (Z.shiftr (Z.lxor port 8466) 8); u8 (Z.lxor port 8466)] with (wr16 (Z.lxor port 8466)).
    rewrite length_zip_with, Hl, Ht. cbn [Nat.min Nat.eqb]. rewrite wr16_be, be_val_bytes. change (256 ^ Z.of_nat 2) with (2 ^ 16).
    rewrite Z.mod_small by (apply lxor_range; lia). rewrite lxor_twice, zip_lxor_twice by lia. done.
Qed.

(** ** Every message rwd builds *)

Definition attr_bytes_ok (a : Z * list Z) : Prop := attr_ok a /\ Forall is_byte a.2.

Lemma wr16_bytes v : Forall is_byte (wr16 v).
Proof. rewrite wr16_be. apply be_bytes_bytes. Qed.

Lemma stun_body_bytes attrs : Forall attr_bytes_ok attrs -> Forall is_byte (stun_body attrs).
Proof.
  induction 1 as [|a l [_ Ha] H IH]; [constructor|]. rewrite stun_body_cons. unfold attr_bytes.
  repeat (apply Forall_app; split); try done; try apply wr16_bytes.
  apply Forall_replicate. unfold is_byte. lia.
Qed.

Definition built (pwd : list Z) (ty : Z) (txn : list Z) (attrs : list (Z * list Z)) : list Z :=
  add_fingerprint (add_integrity hmac_sha1 pwd (stun_header ty 0 txn ++ stun_body attrs)).

Definition built_attrs (pwd : list Z) (ty : Z) (txn : list Z) (attrs : list (Z * list Z)) : list (Z * list Z) :=
  with_fingerprint ty txn (with_integrity pwd ty txn attrs).

Lemma integrity_length pwd ty txn attrs :
  length (stun_body (with_integrity pwd ty txn attrs)) = (length (stun_body attrs) + 24)%nat.
Proof.
  unfold with_integrity. rewrite stun_body_app, length_app. unfold stun_body at 2. cbn [fmap list_fmap concat].
  rewrite app_nil_r, integrity_attr by apply hmac_len. rewrite !length_app. unfold integrity_value. rewrite hmac_len. done.
Qed.

Lemma fingerprint_length ty txn attrs : length (stun_body (with_fingerprint ty txn attrs)) = (length (stun_body attrs) + 8)%nat.
Proof. unfold with_fingerprint. rewrite stun_body_app, length_app. done. Qed.

Lemma built_length pwd ty txn attrs : length (stun_body (built_attrs pwd ty txn attrs)) = (length (stun_body attrs) + 32)%nat.
Proof. unfold built_attrs. rewrite fingerprint_length, integrity_length. lia. Qed.

Lemma built_eq pwd ty txn attrs : length txn = 16%nat -> Z.of_nat (length (stun_body attrs)) <= 2000 ->
  built pwd ty txn attrs = stun_header ty (Z.of_nat (length (stun_body (built_attrs pwd ty txn attrs)))) txn ++
    stun_body (built_attrs pwd ty txn attrs).
Proof.
  intros Ht Hl. unfold built. rewrite add_integrity_eq by (done || lia).
  apply add_fingerprint_eq; [done|]. rewrite integrity_length. lia.
Qed.

Lemma built_attrs_ok pwd ty txn attrs : Forall attr_bytes_ok attrs -> Forall attr_bytes_ok (built_attrs pwd ty txn attrs).
Proof.
  intros H. unfold built_attrs, with_fingerprint, with_integrity. repeat (apply Forall_app; split); [done|..].
  - constructor; [|constructor]. split; [|apply hmac_bytes]. split; cbn [fst snd].
    + unfold STUN_ATTR_MESSAGE_INTEGRITY. lia.
    + unfold integrity_value. rewrite hmac_len. lia.
  - constructor; [|constructor]. split; [split; cbn [fst snd]|].
    + unfold STUN_ATTR_FINGERPRINT. lia.
    + unfold fingerprint_value. cbn [wr32 length]. lia.
    + cbn [snd]. unfold fingerprint_value. rewrite wr32_be. apply be_bytes_bytes.
Qed.

Lemma attr_bytes_attr attrs : Forall attr_bytes_ok attrs -> Forall attr_ok attrs.
Proof. intros H. eapply Forall_impl; [exact H|]. by intros a [? _]. Qed.

(** Read back, signed and fingerprinted. *)
Lemma built_good pwd ty txn attrs : 0 <= ty < 2 ^ 16 -> length txn = 16%nat -> Forall is_byte txn ->
  Forall attr_bytes_ok attrs -> STUN_ATTR_MESSAGE_INTEGRITY ∉ attrs.*1 -> Z.of_nat (length (stun_body attrs)) <= 2000 ->
  stun_read (built pwd ty txn attrs) = Some (mk_stun_msg ty txn (built_attrs pwd ty txn attrs)) /\
  stun_verify_integrity hmac_sha1 (built pwd ty txn attrs) pwd = true /\ fingerprint_ok (built pwd ty txn attrs).
Proof.
  intros Hty Ht Htb Hok Hni Hl. pose proof (built_attrs_ok pwd ty txn attrs Hok) as Hbok.
  rewrite built_eq by done. split; [|split].
  - apply stun_read_message; [done|done|by apply attr_bytes_attr|]. rewrite built_length. lia.
  - unfold built_attrs, with_fingerprint, with_integrity. rewrite <- app_assoc.
    rewrite verify_message; [by apply bool_decide_true|done| |done| |apply hmac_bytes|done].
    + apply attr_bytes_attr. unfold built_attrs, with_fingerprint, with_integrity in Hbok. by rewrite <- app_assoc in Hbok.
    + unfold integrity_value. apply hmac_len.
  - rewrite built_length. unfold built_attrs. set (at2 := with_integrity pwd ty txn attrs).
    assert (Hl2 : length (stun_body at2) = (length (stun_body attrs) + 24)%nat) by apply integrity_length.
    unfold with_fingerprint. rewrite stun_body_app.
    replace (Z.of_nat (length (stun_body attrs) + 32)) with (Z.of_nat (length (stun_body at2)) + 8) by lia.
    set (front := stun_header ty (Z.of_nat (length (stun_body at2)) + 8) txn ++ stun_body at2).
    exists front. rewrite app_assoc. fold front. f_equal.
    rewrite <- crc32_table_bits.
    + unfold fingerprint_value. rewrite <- !wr16_be, <- wr32_be. unfold stun_body, attr_bytes.
      cbn [fmap list_fmap concat fst snd]. set (w := wr32 _). assert (Hw : length w = 4%nat) by done.
      clearbody w. rewrite Hw. cbn [Z.of_nat]. change (Z.to_nat (pad4 (Z.of_nat 4) - Z.of_nat 4)) with 0%nat.
      cbn [replicate]. by rewrite !app_nil_r.
    + unfold front. apply Forall_app. split.
      * unfold stun_header. repeat (apply Forall_app; split); try apply wr16_bytes. done.
      * apply stun_body_bytes. unfold built_attrs, with_fingerprint in Hbok. by apply Forall_app in Hbok as [? _].
Qed.

Lemma mapped_bytes txn to : addr_ok to -> length txn = 16%nat -> Forall is_byte txn -> Forall is_byte (mapped_value txn to).
Proof.
  intros Ha Ht Htb. destruct to as [port addr|port addr fs]; unfold mapped_value.
  - repeat (apply Forall_app; split); [repeat constructor; unfold is_byte; lia|apply wr16_bytes|].
    rewrite wr32_be. apply be_bytes_bytes.
  - repeat (apply Forall_app; split); [repeat constructor; unfold is_byte; lia|apply wr16_bytes|].
    destruct Ha as (_ & _ & Hb). clear -Hb Htb. revert txn Htb. induction Hb as [|a l Ha Hb IH]; intros [|b t] Ht; try constructor.
    + apply Forall_cons in Ht as [Hb' _]. unfold is_byte in *. apply (lxor_range 8); lia.
    + apply IH. by apply Forall_cons in Ht as [_ ?].
Qed.

Lemma stun_response_built request to pwd : addr_ok to -> (20 <= length request)%nat ->
  stun_response hmac_sha1 request to pwd = built pwd STUN_BINDING_RESPONSE (take 16 (drop 4 request))
    [(STUN_ATTR_XOR_MAPPED_ADDR, mapped_value (take 16 (drop 4 request)) to)].
Proof. intros Ha Hr. unfold stun_response. rewrite mapped_attr by done. done. Qed.

Lemma mapped_length txn to : addr_ok to -> length txn = 16%nat -> (length (mapped_value txn to) <= 20)%nat.
Proof.
  intros Ha Ht. destruct to as [port addr|port addr fs]; unfold mapped_value; rewrite !length_app; cbn [wr16 wr32 length]; [lia|].
  rewrite length_zip_with. lia.
Qed.

(** C36: the answer to a binding request is what the browser asked for: it fits
    the 256 bytes rwd has for it; a reader of RFC 5389 finds a binding response
    with the request's cookie and transaction id and three attributes, of which
    the first gives back the address the request came from; the integrity check
    of the session's password accepts it; and its last attribute is the
    fingerprint of everything before. *)
Theorem rwd_stun_response_valid request to pwd : (20 <= length request)%nat -> Forall is_byte request -> addr_ok to ->
  let msg := stun_response hmac_sha1 request to pwd in
  let txn := take 16 (drop 4 request) in
  (length msg <= 256)%nat /\
  (exists v h f, stun_read msg = Some (mk_stun_msg STUN_BINDING_RESPONSE txn
      [(STUN_ATTR_XOR_MAPPED_ADDR, v); (STUN_ATTR_MESSAGE_INTEGRITY, h); (STUN_ATTR_FINGERPRINT, f)]) /\
    read_address txn v = Some (plain to)) /\
  stun_verify_integrity hmac_sha1 msg pwd = true /\ fingerprint_ok msg.
Proof.
  intros Hr Hb Ha. cbv zeta. set (txn := take 16 (drop 4 request)).
  assert (Ht : length txn = 16%nat) by (unfold txn; rewrite length_take, length_drop; lia).
  assert (Htb : Forall is_byte txn) by (by apply Forall_take, Forall_drop).
  rewrite stun_response_built by done. fold txn. set (attrs := [(STUN_ATTR_XOR_MAPPED_ADDR, mapped_value txn to)]).
  pose proof (mapped_length txn to Ha Ht) as Hm.
  assert (Hlen : (length (stun_body attrs) <= 28)%nat).
  { unfold stun_body, attrs. cbn [fmap list_fmap concat]. rewrite app_nil_r.
    pose proof (attr_bytes_length (STUN_ATTR_XOR_MAPPED_ADDR, mapped_value txn to)) as Hab. cbn [snd] in Hab.
    pose proof (pad4_bounds (Z.of_nat (length (mapped_value txn to)))). lia. }
  assert (Hok : Forall attr_bytes_ok attrs).
  { constructor; [|constructor]. split; [split; cbn [fst snd]|by apply mapped_bytes].
    - unfold STUN_ATTR_XOR_MAPPED_ADDR. lia.
    - lia. }
  assert (Hni : STUN_ATTR_MESSAGE_INTEGRITY ∉ attrs.*1) by (unfold attrs; cbn; rewrite list_elem_of_singleton; done).
  destruct (built_good pwd STUN_BINDING_RESPONSE txn attrs) as (B1 & B2 & B3); try done; [lia|].
  split; [|split; [|by split]].
  - rewrite built_eq, length_app, header_length, built_length, Ht by (done || lia). lia.
  - rewrite B1. eexists _, _, _. split; [reflexivity|]. by apply read_mapped.
Qed.

End hmac.

(** ** A toy HMAC *)

Definition toy_hmac (k m : list Z) : list Z := be_bytes 20 (be_val (1 :: k ++ m)).

Lemma toy_hmac_len k m : length (toy_hmac k m) = 20%nat.
Proof. apply be_bytes_length. Qed.

Lemma toy_hmac_bytes k m : Forall is_byte (toy_hmac k m).
Proof. apply be_bytes_bytes. Qed.

Definition toy_request : list Z := wr16 1 ++ wr16 0 ++ wr32 STUN_MAGIC_COOKIE ++ be_bytes 12 0xA1B2C3D4E5F60718293A4B5C.

Lemma rwd_stun_response_valid_witness :
  let msg := stun_response toy_hmac toy_request (SA4 50000 0xC0A80117) [112; 119] in
  length msg = 64%nat /\
  exists v h f, stun_read msg = Some (mk_stun_msg STUN_BINDING_RESPONSE (take 16 (drop 4 toy_request))
      [(STUN_ATTR_XOR_MAPPED_ADDR, v); (STUN_ATTR_MESSAGE_INTEGRITY, h); (STUN_ATTR_FINGERPRINT, f)]) /\
    read_address (take 16 (drop 4 toy_request)) v = Some (SA4 50000 0xC0A80117).
Proof.
  split; [vm_compute; reflexivity|].
  destruct (rwd_stun_response_valid toy_hmac toy_hmac_len toy_hmac_bytes toy_request (SA4 50000 0xC0A80117) [112; 119])
    as (_ & H & _).
  - vm_compute. lia.
  - repeat constructor; vm_compute; intuition discriminate.
  - vm_compute. intuition discriminate.
  - exact H.
Defined.
