(* ===== verification/RwdIceSession.v ===== *)
(** * rwd: whose packets reach a session

    Connectivity checks against the packet handler, the credentials, and the
    invariant that media only ever comes from sources that proved the session's
    password. *)

From stdpp Require Import list sets.
From S2P Require Import Prelude RwdIce RwdIceProps.

Section hmac.
Context (hmac_sha1 : list Z -> list Z -> list Z).
Hypothesis hmac_len : forall k m, length (hmac_sha1 k m) = 20%nat.
Hypothesis hmac_bytes : forall k m, Forall is_byte (hmac_sha1 k m).

(** ** Checks *)

Definition cookie_txn (txn : list Z) : list Z := wr32 STUN_MAGIC_COOKIE ++ txn.

Definition check_attrs (c : rwd_client) (tiebreaker : list Z) : list (Z * list Z) :=
  [(STUN_ATTR_USERNAME, cl_remote_ufrag c ++ [58] ++ cl_local_ufrag c); (0x8029, tiebreaker); (0x0024, wr32 ICE_PRIORITY_SRFLX)].

Lemma ice_check_built c txn tb : length tb = 8%nat -> (length (cl_remote_ufrag c) + length (cl_local_ufrag c) < 127)%nat ->
  ice_check_msg hmac_sha1 c txn tb =
  Some (built hmac_sha1 (cl_remote_pwd c) STUN_BINDING_REQUEST (cookie_txn txn) (check_attrs c tb)).
Proof.
  intros Htb Hu. unfold ice_check_msg. set (u := cl_remote_ufrag c ++ [58] ++ cl_local_ufrag c).
  assert (Hul : (length u < 128)%nat) by (unfold u; rewrite !length_app; cbn [length]; lia).
  pose proof (pad4_bounds (Z.of_nat (length u)) ltac:(lia)) as Hp.
  destruct (Z.geb_spec (Z.of_nat (length u)) 128) as [|_]; [lia|].
  assert (Hp2 : pad4 (Z.of_nat (length u)) <= 128).
  { rewrite pad4_eq by lia. pose proof (Z.div_le_mono (Z.of_nat (length u) + 3) 131 4). change (131 / 4) with 32 in *. lia. }
  match goal with |- context [?a >? 256] => destruct (Z.gtb_spec a 256) as [|_]; [lia|] end.
  unfold built, check_attrs. fold u. do 3 f_equal. unfold stun_body, attr_bytes, stun_header, cookie_txn.
  cbn [fmap list_fmap concat fst snd]. rewrite Htb.
  change (Z.to_nat (pad4 (Z.of_nat 8) - Z.of_nat 8)) with 0%nat.
  change (Z.to_nat (pad4 (Z.of_nat (length (wr32 ICE_PRIORITY_SRFLX))) - Z.of_nat (length (wr32 ICE_PRIORITY_SRFLX)))) with 0%nat.
  change (Z.of_nat (length (wr32 ICE_PRIORITY_SRFLX))) with 4. change (Z.of_nat 8) with 8.
  cbn [replicate]. rewrite !app_nil_r, <- !app_assoc. done.
Qed.

Lemma c_str_id l : 0 ∉ l -> c_str l = l.
Proof.
  induction l as [|b l IH]; intros H; [done|]. apply not_elem_of_cons in H as [H1 H2]. cbn [c_str].
  rewrite (proj2 (Z.eqb_neq _ _)) by congruence. by rewrite IH.
Qed.

Lemma before_colon_app l r : 58 ∉ l -> before_colon (l ++ [58] ++ r) = Some l.
Proof.
  cbn [app]. induction l as [|b l IH]; intros H; [done|]. apply not_elem_of_cons in H as [H1 H2]. cbn [before_colon app].
  rewrite (proj2 (Z.eqb_neq _ _)) by congruence. by rewrite IH.
Qed.

(** Credentials as they appear in an offer or are generated. *)
Definition cred_ok (l : list Z) : Prop := Forall is_byte l /\ 0 ∉ l /\ 58 ∉ l.

Lemma rd32_cookie ty len txn rest :
  rd32 (stun_header ty len (cookie_txn txn) ++ rest) 4 = STUN_MAGIC_COOKIE.
Proof. reflexivity. Qed.

Lemma take_message ty txn attrs : length txn = 16%nat ->
  take (STUN_HEADER_SIZE + Z.to_nat (Z.of_nat (length (stun_body attrs))))
    (stun_header ty (Z.of_nat (length (stun_body attrs))) txn ++ stun_body attrs) =
  stun_header ty (Z.of_nat (length (stun_body attrs))) txn ++ stun_body attrs.
Proof.
  intros Ht. apply firstn_all2. rewrite length_app, header_length, Ht, Nat2Z.id. unfold STUN_HEADER_SIZE. lia.
Qed.

Lemma username_message ty len txn u more : length txn = 16%nat -> Forall attr_ok ((STUN_ATTR_USERNAME, u) :: more) ->
  Z.of_nat (length u) < 128 ->
  stun_get_username (stun_header ty len txn ++ stun_body ((STUN_ATTR_USERNAME, u) :: more)) 128 = Some u.
Proof.
  intros Ht Hok Hu. unfold stun_get_username. rewrite stun_find_message by done. cbn [first_attr fst snd].
  rewrite Z.eqb_refl. destruct (Z.geb_spec (Z.of_nat (length u)) 128) as [|_]; [lia|].
  rewrite Nat2Z.id. rewrite stun_body_cons. unfold attr_bytes. cbn [fst snd].
  rewrite <- !app_assoc, app_assoc, app_assoc. rewrite drop_app_length'.
  - by rewrite take_app_length.
  - rewrite !length_app, header_length, Ht. done.
Qed.

Lemma request_message srv pwd txn u attrs ufrag rest i peer :
  length txn = 12%nat -> Forall is_byte txn -> Forall attr_bytes_ok ((STUN_ATTR_USERNAME, u) :: attrs) ->
  STUN_ATTR_MESSAGE_INTEGRITY ∉ attrs.*1 -> Z.of_nat (length (stun_body ((STUN_ATTR_USERNAME, u) :: attrs))) <= 2000 ->
  Z.of_nat (length u) < 128 -> u = ufrag ++ [58] ++ rest -> 0 ∉ u -> 58 ∉ ufrag ->
  find_slot (fun c => bool_decide (cl_local_ufrag c = ufrag)) (sv_clients srv) 0 = Some (i, peer) ->
  cl_local_pwd peer = pwd ->
  ice_request hmac_sha1 srv (built hmac_sha1 pwd STUN_BINDING_REQUEST (cookie_txn txn) ((STUN_ATTR_USERNAME, u) :: attrs)) =
  Some (i, peer).
Proof.
  intros Ht Htb Hok Hni Hl Hul Hu Hz Hc Hfind Hpwd.
  assert (Ht16 : length (cookie_txn txn) = 16%nat) by (unfold cookie_txn; rewrite length_app, Ht; done).
  assert (Htb16 : Forall is_byte (cookie_txn txn)).
  { unfold cookie_txn. apply Forall_app. split; [rewrite wr32_be; apply be_bytes_bytes|done]. }
  set (attrs' := (STUN_ATTR_USERNAME, u) :: attrs) in *.
  assert (Hni' : STUN_ATTR_MESSAGE_INTEGRITY ∉ attrs'.*1).
  { unfold attrs'. cbn [fmap list_fmap fst]. apply not_elem_of_cons. by split. }
  destruct (built_good hmac_sha1 hmac_len hmac_bytes pwd STUN_BINDING_REQUEST (cookie_txn txn) attrs') as (_ & Hv & _); try done.
  pose proof (built_attrs_ok hmac_sha1 hmac_len hmac_bytes pwd STUN_BINDING_REQUEST (cookie_txn txn) attrs' Hok) as Hbok.
  pose proof (built_length hmac_sha1 hmac_len pwd STUN_BINDING_REQUEST (cookie_txn txn) attrs') as Hbl.
  rewrite (built_eq hmac_sha1 hmac_len) in Hv |- * by done.
  set (bd := built_attrs hmac_sha1 pwd STUN_BINDING_REQUEST (cookie_txn txn) attrs') in *.
  assert (Hbd : exists more, bd = (STUN_ATTR_USERNAME, u) :: more) by (eexists; reflexivity).
  set (L := Z.of_nat (length (stun_body bd))) in *.
  assert (HL : 0 <= L < 2 ^ 16) by (unfold L; rewrite Hbl; lia).
  unfold ice_request. rewrite length_app, header_length, Ht16.
  rewrite (proj2 (Nat.ltb_ge _ _)) by (unfold STUN_HEADER_SIZE; lia).
  rewrite rd32_cookie, Z.eqb_refl. cbn [negb].
  assert (H0 : rd16 (stun_header STUN_BINDING_REQUEST L (cookie_txn txn) ++ stun_body bd) 0 = STUN_BINDING_REQUEST) by reflexivity.
  assert (H2 : rd16 (stun_header STUN_BINDING_REQUEST L (cookie_txn txn) ++ stun_body bd) 2 = L).
  { unfold stun_header. rewrite <- !app_assoc. 
    pose proof (rd16_app2 [] (wr16 STUN_BINDING_REQUEST) L (cookie_txn txn ++ stun_body bd) eq_refl) as H2.
    cbn [app length Nat.add] in H2. etransitivity; [exact H2|]. by apply uwrap_id. }
  rewrite H0, H2, Z.eqb_refl. cbn [negb].
  rewrite (proj2 (Nat.ltb_ge _ _)) by (unfold STUN_HEADER_SIZE, L; lia).
  unfold L at 1 3. rewrite take_message by done. fold L.
  destruct Hbd as [more Hbd]. assert (Hun : stun_get_username (stun_header STUN_BINDING_REQUEST L (cookie_txn txn) ++ stun_body bd) 128 = Some u).
  { rewrite Hbd. apply username_message; [done| |done]. rewrite <- Hbd. by apply attr_bytes_attr. }
  rewrite Hun, c_str_id by done. rewrite Hu, before_colon_app by done. rewrite Hfind, Hpwd.
  by rewrite Hv.
Qed.

Lemma check_attrs_ok c tb : cred_ok (cl_remote_ufrag c) -> cred_ok (cl_local_ufrag c) -> length tb = 8%nat -> Forall is_byte tb ->
  (length (cl_remote_ufrag c) + length (cl_local_ufrag c) < 127)%nat ->
  Forall attr_bytes_ok (check_attrs c tb) /\ Z.of_nat (length (stun_body (check_attrs c tb))) <= 152.
Proof.
  intros (R1 & _ & _) (L1 & _ & _) Htb Hb Hl. unfold check_attrs. set (u := cl_remote_ufrag c ++ [58] ++ cl_local_ufrag c).
  assert (Hul : (length u < 128)%nat) by (unfold u; rewrite !length_app; cbn [length]; lia).
  split.
  - apply Forall_cons; split; [|apply Forall_cons; split; [|apply Forall_cons; split; [|by constructor]]]; (split; [split; cbn [fst snd]|]); cbn [snd].
    + unfold STUN_ATTR_USERNAME. lia.
    + lia.
    + unfold u. repeat (apply Forall_app; split); [done| |done]. repeat constructor; unfold is_byte; lia.
    + lia.
    + lia.
    + done.
    + lia.
    + cbn. lia.
    + rewrite wr32_be. apply be_bytes_bytes.
  - rewrite !stun_body_cons, !length_app, !Nat2Z.inj_add, !attr_bytes_length. cbn [snd]. rewrite Htb.
    change (Z.of_nat (length (stun_body []))) with 0. change (pad4 (Z.of_nat 8)) with 8.
    change (pad4 (Z.of_nat (length (wr32 ICE_PRIORITY_SRFLX)))) with 4.
    assert (pad4 (Z.of_nat (length u)) <= 128); [|lia].
    rewrite pad4_eq by lia. pose proof (Z.div_le_mono (Z.of_nat (length u) + 3) 131 4). change (131 / 4) with 32 in *. lia.
Qed.

Lemma check_accepted c txn tb srv i peer from now sent_ok :
  cred_ok (cl_remote_ufrag c) -> cred_ok (cl_local_ufrag c) ->
  (length (cl_remote_ufrag c) + length (cl_local_ufrag c) < 127)%nat ->
  length txn = 12%nat -> Forall is_byte txn -> length tb = 8%nat -> Forall is_byte tb ->
  find_slot (fun x => bool_decide (cl_local_ufrag x = cl_remote_ufrag c)) (sv_clients srv) 0 = Some (i, peer) ->
  cl_local_pwd peer = cl_remote_pwd c ->
  exists msg, ice_check_msg hmac_sha1 c txn tb = Some msg /\ (length msg <= 256)%nat /\
    rwd_ice_process hmac_sha1 srv msg from now sent_ok =
      stun_send_response hmac_sha1 (set_client i (Some (note_source from now peer)) srv) msg from (cl_remote_pwd c) sent_ok.
Proof.
  intros Hr Hl Hlen Ht Htb Hb Hbb Hfind Hpwd. destruct (check_attrs_ok c tb Hr Hl Hb Hbb Hlen) as [Hok Hbody].
  assert (Ht16 : length (cookie_txn txn) = 16%nat) by (unfold cookie_txn; rewrite length_app, Ht; done).
  eexists. split; [by apply ice_check_built|]. split.
  - rewrite built_eq, length_app, header_length, built_length, Ht16 by (done || lia). lia.
  - unfold rwd_ice_process, check_attrs in *.
    rewrite (request_message srv (cl_remote_pwd c) txn _ _ (cl_remote_ufrag c) (cl_local_ufrag c) i peer); try done.
    + by rewrite Hpwd.
    + cbn. rewrite not_elem_of_cons, list_elem_of_singleton. done.
    + lia.
    + rewrite !length_app. cbn [length]. lia.
    + destruct Hr as (_ & R2 & _), Hl as (_ & L2 & _). rewrite !elem_of_app, list_elem_of_singleton. intros [?|[?|?]]; done.
    + by destruct Hr as (_ & _ & ?).
Qed.

(** A connectivity check opens the path.  Whatever the random bytes, the
    check rwd sends with the credentials of an offer fits its 256 byte buffer,
    and delivered to an ICE agent running this same handler that knows them as
    its own (the first client with that fragment, with that password) it is
    accepted: the source is pinned and verified, and answered. *)
Theorem rwd_ice_check_accepted c txn tb srv i peer from now sent_ok :
  cred_ok (cl_remote_ufrag c) -> cred_ok (cl_local_ufrag c) ->
  (length (cl_remote_ufrag c) + length (cl_local_ufrag c) < 127)%nat ->
  length txn = 12%nat -> Forall is_byte txn -> length tb = 8%nat -> Forall is_byte tb ->
  find_slot (fun x => bool_decide (cl_local_ufrag x = cl_remote_ufrag c)) (sv_clients srv) 0 = Some (i, peer) ->
  cl_local_pwd peer = cl_remote_pwd c ->
  exists msg, ice_check_msg hmac_sha1 c txn tb = Some msg /\ (length msg <= 256)%nat /\
    rwd_ice_process hmac_sha1 srv msg from now sent_ok =
      stun_send_response hmac_sha1 (set_client i (Some (note_source from now peer)) srv) msg from (cl_remote_pwd c) sent_ok.
Proof. apply check_accepted. Qed.

End hmac.

(** ** Sources *)

Section sources.
Context (hmac_sha1 : list Z -> list Z -> list Z).

(** [buf] proves knowledge of [c]'s password: it names the fragment and carries
    the HMAC of itself. *)
Definition proves (c : rwd_client) (buf : list Z) : Prop :=
  let msg := take (STUN_HEADER_SIZE + Z.to_nat (rd16 buf 2)) buf in
  (exists u, stun_get_username msg 128 = Some u /\ before_colon (c_str u) = Some (cl_local_ufrag c)) /\
  stun_verify_integrity hmac_sha1 msg (cl_local_pwd c) = true.

Lemma find_slot_spec f l k i c : find_slot f l k = Some (i, c) -> (k <= i)%nat /\ l !! (i - k)%nat = Some (Some c) /\ f c = true.
Proof.
  revert k. induction l as [|[x|] l IH]; intros k H; [done|..]; cbn [find_slot] in H.
  - destruct (f x) eqn:E; [injection H as <- <-; rewrite Nat.sub_diag; done|].
    apply IH in H as (H1 & H2 & H3). replace (i - k)%nat with (S (i - S k)) by lia. split; [lia|]. done.
  - apply IH in H as (H1 & H2 & H3). replace (i - k)%nat with (S (i - S k)) by lia. split; [lia|]. done.
Qed.

Lemma find_slot_0 f l i c : find_slot f l 0 = Some (i, c) -> l !! i = Some (Some c) /\ f c = true.
Proof. intros H. apply find_slot_spec in H as (_ & H & ?). by rewrite Nat.sub_0_r in H. Qed.

Lemma ice_request_proves srv buf i c : ice_request hmac_sha1 srv buf = Some (i, c) ->
  sv_clients srv !! i = Some (Some c) /\ proves c buf.
Proof.
  unfold ice_request. intros H. destruct (_ <? _)%nat; [done|]. cbv zeta in H.
  destruct (negb _); [done|]. destruct (negb _); [done|]. destruct (_ <? _)%nat; [done|].
  destruct (stun_get_username _ 128) as [u|] eqn:Eu; [|done]. destruct (before_colon (c_str u)) as [lu|] eqn:Eb; [|done].
  destruct (find_slot _ _ 0) as [[j x]|] eqn:Ef; [|done]. apply find_slot_0 in Ef as [E1 E2].
  apply bool_decide_eq_true in E2. destruct (stun_verify_integrity _ _ _) eqn:Ev; [|done]. injection H as -> ->.
  split; [done|]. split; [|done]. exists u. by rewrite E2.
Qed.

Definition proved (hist : list (list Z * sockaddr)) (c : rwd_client) (a : sockaddr) : Prop :=
  exists buf from, (buf, from) ∈ hist /\ rwd_sockaddr_equal from a = true /\ proves c buf.

Definition source_of (c : rwd_client) (a : sockaddr) : Prop := cl_addr c = Some a \/ a ∈ cl_verified_addrs c.

Definition sources_ok (hist : list (list Z * sockaddr)) (srv : rwd_server) : Prop :=
  forall i c a, sv_clients srv !! i = Some (Some c) -> source_of c a -> proved hist c a.

Lemma sa_equal_refl a : rwd_sockaddr_equal a a = true.
Proof. destruct a; cbn; rewrite Z.eqb_refl; [by rewrite Z.eqb_refl|by rewrite bool_decide_true]. Qed.

Lemma sa_equal_trans a b c : rwd_sockaddr_equal a b = true -> rwd_sockaddr_equal b c = true -> rwd_sockaddr_equal a c = true.
Proof.
  destruct a, b, c; cbn; try done; rewrite !andb_true_iff, ?bool_decide_eq_true, ?Z.eqb_eq; intros [-> ->] [-> ->];
    rewrite ?bool_decide_eq_true; done.
Qed.

(** Only credentials matter. *)
Definition same_creds (c c' : rwd_client) : Prop := cl_local_ufrag c' = cl_local_ufrag c /\ cl_local_pwd c' = cl_local_pwd c.

Lemma proved_creds hist c c' a : same_creds c c' -> proved hist c a -> proved hist c' a.
Proof. intros [E1 E2] (buf & from & H1 & H2 & H3). exists buf, from. unfold proves in *. by rewrite E1, E2. Qed.

Lemma proved_mono hist hist' c a : hist ⊆ hist' -> proved hist c a -> proved hist' c a.
Proof. intros H (buf & from & H1 & H2). exists buf, from. split; [by apply H|done]. Qed.

Lemma sources_set hist srv i c : sources_ok hist srv -> (forall a, source_of c a -> proved hist c a) ->
  sources_ok hist (set_client i (Some c) srv).
Proof.
  intros H Hc j x a Hj Ha. cbn [set_client sv_clients set_field] in Hj.
  apply list_lookup_insert_Some in Hj as [(-> & Heq & _)|(_ & Hj)]; [injection Heq as <-; by apply Hc|by eapply H].
Qed.

Lemma sources_drop hist srv i : sources_ok hist srv -> sources_ok hist (drop_client i srv).
Proof.
  intros H j x a Hj Ha. cbn in Hj. apply list_lookup_insert_Some in Hj as [(_ & Heq & _)|(_ & Hj)]; [done|by eapply H].
Qed.

Lemma note_source_spec from now c :
  same_creds c (note_source from now c) /\ forall a, source_of (note_source from now c) a -> a = from \/ source_of c a.
Proof.
  unfold note_source.
  set (c1 := if negb (cl_ice_verified c) then _ else _).
  assert (H1 : same_creds c c1 /\ (forall a, cl_addr c1 = Some a -> a = from \/ cl_addr c = Some a) /\
    cl_verified_addrs c1 = cl_verified_addrs c).
  { unfold c1. destruct (negb (cl_ice_verified c)).
    - split; [done|]. split; [|done]. intros a Ha. injection Ha as <-. by left.
    - destruct (bool_decide (cl_addr c = Some from)); (split; [done|]; split; [|done]); intros a Ha; [by right|].
      injection Ha as <-. by left. }
  destruct H1 as (Hs & Ha & Hv). clearbody c1.
  set (known := existsb _ _). destruct known.
  - split; [exact Hs|]. intros a [Hx|Hx]; [destruct (Ha a Hx); [by left|by right; left]|].
    right. right. rewrite <- Hv. exact Hx.
  - split; [exact Hs|]. intros a [Hx|Hx]; [destruct (Ha a Hx); [by left|by right; left]|].
    change (a ∈ (if (length (cl_verified_addrs c1) =? RWD_MAX_VERIFIED_ADDRS)%nat then drop 1 (cl_verified_addrs c1)
                 else cl_verified_addrs c1) ++ [from]) in Hx.
    rewrite Hv in Hx. apply elem_of_app in Hx as [Hx|Hx%list_elem_of_singleton]; [|by left].
    right. right. destruct (_ =? _)%nat; [|done]. rewrite <- (take_drop 1 (cl_verified_addrs c)), elem_of_app. by right.
Qed.

Lemma find_by_addr_spec hist srv addr i c srv' : sources_ok hist srv -> find_client_by_addr srv addr = (Some (i, c), srv') ->
  sources_ok hist srv' /\ sv_clients srv' !! i = Some (Some c) /\ proved hist c addr.
Proof.
  intros Hok H. unfold find_client_by_addr in H.
  destruct (find_slot _ _ 0) as [[j x]|] eqn:E1.
  - injection H as -> -> <-. apply find_slot_0 in E1 as [E1 E2]. split; [done|]. split; [done|].
    apply andb_true_iff in E2 as [_ E2]. destruct (cl_addr c) as [a|] eqn:Ea; [|done].
    destruct (Hok i c a E1 (or_introl Ea)) as (buf & from & H1 & H2 & H3). exists buf, from.
    split; [done|]. split; [by eapply sa_equal_trans|done].
  - destruct (find_slot _ _ 0) as [[j x]|] eqn:E2 in H; [|done]. injection H as -> <- <-.
    apply find_slot_0 in E2 as [E2 E3]. apply andb_true_iff in E3 as [_ E3].
    apply existsb_exists in E3 as (a & Hin & Heq). apply list_elem_of_In in Hin.
    assert (Hva : a ∈ cl_verified_addrs x) by (rewrite <- (take_drop RWD_MAX_VERIFIED_ADDRS (cl_verified_addrs x)), elem_of_app; by left).
    assert (Hp : proved hist x addr).
    { destruct (Hok i x a E2 (or_intror Hva)) as (buf & from & H1 & H2 & H3). exists buf, from.
      split; [done|]. split; [by eapply sa_equal_trans|done]. }
    assert (Hp' : proved hist (x <| cl_addr := Some addr |>) addr) by (by eapply proved_creds; [|exact Hp]).
    split; [|split; [|exact Hp']].
    + apply sources_set; [done|]. intros b [Hb|Hb]; [by injection Hb as <-|].
      eapply proved_creds; [|apply (Hok i x b E2); right; exact Hb]. done.
    + cbn. apply list_lookup_insert_eq. by eapply lookup_lt_Some.
Qed.

Lemma find_by_addr_keeps srv addr found srv' i c : sv_clients srv !! i = Some (Some c) ->
  find_client_by_addr srv addr = (found, srv') -> exists c', sv_clients srv' !! i = Some (Some c') /\ same_creds c c'.
Proof.
  intros Hi H. unfold find_client_by_addr in H. destruct (find_slot _ _ 0) as [[j x]|]; [injection H as _ <-; by exists c|].
  destruct (find_slot _ _ 0) as [[j x]|] eqn:E in H; [|injection H as _ <-; by exists c].
  injection H as _ <-. apply find_slot_0 in E as [E _]. cbn [set_client set_field sv_clients].
  destruct (decide (j = i)) as [->|Hne].
  - rewrite E in Hi. injection Hi as ->. eexists. split; [apply list_lookup_insert_eq; by eapply lookup_lt_Some|done].
  - exists c. split; [|done]. cbn. by rewrite list_lookup_insert_ne.
Qed.

Lemma find_by_addr_none hist srv addr srv' : sources_ok hist srv -> find_client_by_addr srv addr = (None, srv') -> srv' = srv.
Proof.
  intros _ H. unfold find_client_by_addr in H. destruct (find_slot _ _ 0) as [[j x]|]; [done|].
  destruct (find_slot _ _ 0) as [[j x]|] in H; [done|]. by injection H.
Qed.

(** ** Runs *)

Inductive rwd_event :=
| EvPacket (buf : list Z) (from : sockaddr) (now : Z) (sent_ok : bool) (dtls : dtls_result)
| EvOffer (now id stream_idx : Z) (remote : list Z * list Z) (rand : option (list Z) * option (list Z)) (mem dtls answer : bool)
| EvDelete (id : Z)
| EvCleanup (now : Z).

Definition rwd_step (srv : rwd_server) (e : rwd_event) : rwd_server :=
  match e with
  | EvPacket buf from now ok dtls => (handle_udp_packet hmac_sha1 srv buf from now ok dtls).2
  | EvOffer now id idx remote rand m d a => (rwd_client_from_offer srv now id idx remote rand m d a).2
  | EvDelete id => handle_whip_delete srv id
  | EvCleanup now => cleanup_stale_clients now srv
  end.

Definition rwd_run (evs : list rwd_event) (srv : rwd_server) : rwd_server := foldl rwd_step srv evs.

Definition packets (evs : list rwd_event) : list (list Z * sockaddr) :=
  omap (fun e => match e with EvPacket buf from _ _ _ => Some (buf, from) | _ => None end) evs.

Definition delivery_slot (d : delivery) : nat := match d with DlDtls i _ => i | DlIdr _ i => i | DlRtp i _ => i end.

Lemma sources_mono hist hist' srv : hist ⊆ hist' -> sources_ok hist srv -> sources_ok hist' srv.
Proof. intros H Hok i c a Hi Ha. eapply proved_mono; [exact H|]. by eapply Hok. Qed.

Lemma sources_fields hist srv srv' : sv_clients srv' = sv_clients srv -> sources_ok hist srv -> sources_ok hist srv'.
Proof. intros E H i c a Hi. apply (H i c a). by rewrite <- E. Qed.

Lemma process_sources hist srv buf from now ok : sources_ok hist srv -> (buf, from) ∈ hist ->
  sources_ok hist (rwd_ice_process hmac_sha1 srv buf from now ok).2.
Proof.
  intros Hok Hin. unfold rwd_ice_process. destruct (ice_request hmac_sha1 srv buf) as [[i c]|] eqn:E; [|done].
  apply ice_request_proves in E as [Hi Hp]. unfold stun_send_response. cbn [snd].
  eapply (sources_fields _ (set_client i (Some (note_source from now c)) srv)); [done|].
  destruct (note_source_spec from now c) as [Hc Ha]. apply sources_set; [done|].
  intros a Hsrc. eapply proved_creds; [exact Hc|]. destruct (Ha a Hsrc) as [->|Hs]; [|by eapply Hok].
  exists buf, from. split; [done|]. split; [apply sa_equal_refl|done].
Qed.

Lemma packet_sources hist srv buf from now ok dtls ds srv' : sources_ok hist srv ->
  handle_udp_packet hmac_sha1 srv buf from now ok dtls = (ds, srv') ->
  sources_ok ((buf, from) :: hist) srv' /\
  forall d, d ∈ ds -> exists c, sv_clients srv' !! delivery_slot d = Some (Some c) /\ proved hist c from.
Proof.
  intros Hok H. assert (Hsub : hist ⊆ (buf, from) :: hist) by set_solver.
  assert (Hok' : sources_ok ((buf, from) :: hist) srv) by (by eapply sources_mono).
  unfold handle_udp_packet in H. destruct buf as [|first rest]; [by injection H as <- <-; split; [|set_solver]|].
  set (buf := first :: rest) in *.
  destruct (first <=? 3).
  { injection H as <- <-. split; [apply process_sources; [done|by left]|set_solver]. }
  destruct (_ && _).
  { destruct (find_client_by_addr srv from) as [[[i c]|] srv1] eqn:Ef.
    - destruct (find_by_addr_spec hist srv from i c srv1 Hok Ef) as (S1 & S2 & S3).
      assert (S1' : sources_ok ((buf, from) :: hist) srv1) by (by eapply sources_mono).
      destruct (bool_decide _); injection H as <- <-; [split; [done|set_solver]|]. split.
      + apply sources_set; [done|]. intros a Ha. destruct dtls as [[[d1 d2] d3] d4].
        eapply (proved_creds _ c); [done|]. by apply (S1' i c a S2).
      + intros d Hd. apply list_elem_of_singleton in Hd as ->. cbn [delivery_slot].
        destruct dtls as [[[d1 d2] d3] d4]. eexists. split; [apply list_lookup_insert_eq; by eapply lookup_lt_Some|].
        by eapply (proved_creds _ c).
    - apply (find_by_addr_none hist) in Ef as ->; [|done]. injection H as <- <-. split; [done|set_solver]. }
  destruct (_ && _); [|by injection H as <- <-; split; [|set_solver]].
  destruct (_ <? 12)%nat; [by injection H as <- <-; split; [|set_solver]|].
  assert (Hrtp : forall srv1, sources_ok hist srv1 -> forall found srv2, find_client_by_addr srv1 from = (found, srv2) ->
    sources_ok hist srv2 /\ match found with Some (i, c) => sv_clients srv2 !! i = Some (Some c) /\ proved hist c from | None => srv2 = srv1 end).
  { intros srv1 Hs [[i c]|] srv2 Ef; [by eapply find_by_addr_spec|].
    apply (find_by_addr_none hist) in Ef as ->; done. }
  destruct (rwd_rtcp_requests_keyframe buf).
  - destruct (find_client_by_addr srv from) as [f1 srv1] eqn:E1. destruct (Hrtp srv Hok f1 srv1 E1) as [O1 P1].
    destruct (find_client_by_addr srv1 from) as [f2 srv2] eqn:E2. destruct (Hrtp srv1 O1 f2 srv2 E2) as [O2 P2].
    injection H as <- <-. split; [by eapply sources_mono|].
    intros d Hd. apply elem_of_app in Hd as [Hd|Hd].
    + destruct f1 as [[i c]|]; [|set_solver]. destruct P1 as [P1 P1'].
      destruct (cl_sending c); [|set_solver]. apply list_elem_of_singleton in Hd as ->. cbn [delivery_slot].
      eapply find_by_addr_keeps in E2; [|exact P1]. destruct E2 as (c2 & Hc2 & Hcr).
      exists c2. split; [done|]. by eapply proved_creds.
    + destruct f2 as [[i c]|]; [|set_solver]. destruct P2 as [P2 P2'].
      destruct (cl_srtp_recv c && _); [|set_solver]. apply list_elem_of_singleton in Hd as ->. by exists c.
  - destruct (find_client_by_addr srv from) as [f2 srv2] eqn:E2. destruct (Hrtp srv Hok f2 srv2 E2) as [O2 P2].
    injection H as <- <-. split; [by eapply sources_mono|].
    intros d Hd. cbn [app] in Hd. destruct f2 as [[i c]|]; [|set_solver]. destruct P2 as [P2 P2'].
    destruct (cl_srtp_recv c && _); [|set_solver]. apply list_elem_of_singleton in Hd as ->. by exists c.
Qed.

Lemma offer_sources hist srv now id idx remote rand m d a : sources_ok hist srv ->
  sources_ok hist (rwd_client_from_offer srv now id idx remote rand m d a).2.
Proof.
  intros Hok. unfold rwd_client_from_offer.
  assert (Hroom : forall srv1, (if sv_client_count srv >=? sv_max_clients srv
      then (fun i => drop_client i srv) <$> oldest_slot (sv_clients srv) 0 None (2 ^ 63 - 1) else Some srv) = Some srv1 ->
    sources_ok hist srv1).
  { intros srv1 E. destruct (_ >=? _); [|by injection E as <-]. destruct (oldest_slot _ _ _ _) as [j|]; [|done].
    injection E as <-. by apply sources_drop. }
  destruct (if sv_client_count srv >=? sv_max_clients srv then _ else _) as [srv1|]; [|done].
  specialize (Hroom srv1 eq_refl). destruct (negb _); [done|].
  destruct (rwd_generate_ice_credentials rand.1 rand.2) as [u p].
  destruct (free_slot (sv_clients srv1) 0) as [j|]; [|done]. cbn [snd].
  eapply (sources_fields _ (set_client j (Some _) srv1)); [reflexivity|]. apply sources_set; [done|].
  intros x [Hx|Hx]; [done|]. by apply elem_of_nil in Hx.
Qed.

Lemma cleanup_sources hist now l i srv : sources_ok hist srv -> sources_ok hist (cleanup_slots now l i srv).
Proof.
  revert i srv. induction l as [|[c|] l IH]; intros i srv Hok; cbn [cleanup_slots]; [done| |by apply IH].
  apply IH. destruct (is_stale now c); [by apply sources_drop|done].
Qed.

Lemma step_sources hist srv e : sources_ok hist srv -> sources_ok (packets [e] ++ hist) (rwd_step srv e).
Proof.
  intros Hok. destruct e as [buf from now ok dtls|now id idx remote rand m d a|id|now]; cbn.
  - destruct (handle_udp_packet hmac_sha1 srv buf from now ok dtls) as [ds srv'] eqn:E.
    by destruct (packet_sources hist srv buf from now ok dtls ds srv' Hok E).
  - by apply offer_sources.
  - unfold handle_whip_delete. destruct (find_slot _ _ 0) as [[i c]|]; [by apply sources_drop|done].
  - unfold cleanup_stale_clients. by apply cleanup_sources.
Qed.

Lemma run_sources evs : forall hist srv, sources_ok hist srv -> sources_ok (packets evs ++ hist) (rwd_run evs srv).
Proof.
  induction evs as [|e evs IH]; intros hist srv Hok; [done|].
  change (rwd_run (e :: evs) srv) with (rwd_run evs (rwd_step srv e)).
  eapply sources_mono; [|apply IH, step_sources, Hok].
  assert (Hpk : packets (e :: evs) = packets [e] ++ packets evs) by (unfold packets; cbn; by destruct e).
  rewrite Hpk. set_solver.
Qed.

(** C35: media comes only from sources that proved the session's password.  After
    any sequence of datagrams, offers, deletions and clean-ups from an empty
    server, a datagram is handed to a session (a DTLS record, a request for a key
    frame, or an RTP packet) only if some earlier datagram from the same address
    and port was a binding request that names this session's fragment and carries
    the HMAC of itself under the session's password. *)
Theorem rwd_media_from_proven_sources evs count max sent buf from now ok dtls :
  let srv := rwd_run evs (mk_rwd_server (replicate RWD_MAX_CLIENTS None) count max sent) in
  let '(ds, srv') := handle_udp_packet hmac_sha1 srv buf from now ok dtls in
  forall d, d ∈ ds -> exists c buf0 from0, sv_clients srv' !! delivery_slot d = Some (Some c) /\
    (buf0, from0) ∈ packets evs /\ rwd_sockaddr_equal from0 from = true /\ proves c buf0.
Proof.
  cbv zeta. set (srv0 := mk_rwd_server (replicate RWD_MAX_CLIENTS None) count max sent).
  assert (H0 : sources_ok [] srv0).
  { intros i c a Hi. cbn [srv0 sv_clients] in Hi. apply lookup_replicate in Hi as [Hi _]. done. }
  pose proof (run_sources evs [] srv0 H0) as Hok. rewrite app_nil_r in Hok.
  destruct (handle_udp_packet hmac_sha1 (rwd_run evs srv0) buf from now ok dtls) as [ds srv'] eqn:E.
  intros d Hd. destruct (packet_sources _ _ _ _ _ _ _ _ _ Hok E) as [_ Hds].
  destruct (Hds d Hd) as (c & Hc & (b0 & f0 & H1 & H2 & H3)). by exists c, b0, f0.
Qed.

(** ** Slots *)

Fixpoint occupied (l : list (option rwd_client)) : nat :=
  match l with [] => 0 | Some _ :: l => S (occupied l) | None :: l => occupied l end.

Record slots_ok (srv : rwd_server) : Prop := {
  so_len : length (sv_clients srv) = RWD_MAX_CLIENTS;
  so_count : sv_client_count srv = Z.of_nat (occupied (sv_clients srv));
  so_max : 1 <= sv_max_clients srv <= Z.of_nat RWD_MAX_CLIENTS;
  so_limit : sv_client_count srv <= sv_max_clients srv;
  so_created : forall i c, sv_clients srv !! i = Some (Some c) -> cl_created_at c < 2 ^ 63 - 1
}.

Definition occ (o : option rwd_client) : nat := if o is Some _ then 1%nat else 0%nat.

Lemma occupied_insert l i o o' : l !! i = Some o' -> (occupied (<[i := o]> l) + occ o' = occupied l + occ o)%nat.
Proof.
  revert i. induction l as [|x l IH]; intros [|i] H; try done; cbn [lookup list_lookup] in H.
  - injection H as ->. destruct o, o'; cbn; lia.
  - specialize (IH i H). change (<[S i := o]> (x :: l)) with (x :: <[i := o]> l). destruct x; cbn [occupied]; lia.
Qed.

Lemma occupied_le l : (occupied l <= length l)%nat.
Proof. induction l as [|[x|] l IH]; cbn in *; lia. Qed.

Lemma free_slot_spec l k : match free_slot l k with
  | Some i => (k <= i)%nat /\ l !! (i - k)%nat = Some None
  | None => occupied l = length l
  end.
Proof.
  revert k. induction l as [|[x|] l IH]; intros k; cbn [free_slot]; [done| |by rewrite Nat.sub_diag].
  specialize (IH (S k)). destruct (free_slot l (S k)) as [i|].
  - destruct IH as [H1 H2]. split; [lia|]. by replace (i - k)%nat with (S (i - S k)) by lia.
  - cbn. lia.
Qed.

Lemma oldest_slot_spec l : forall k best ts, (forall i c, l !! i = Some (Some c) -> cl_created_at c < ts) \/ is_Some best ->
  match oldest_slot l k best ts with
  | Some i => best = Some i \/ (k <= i)%nat /\ exists c, l !! (i - k)%nat = Some (Some c)
  | None => best = None /\ occupied l = 0%nat
  end.
Proof.
  induction l as [|[c|] l IH]; intros k best ts H; cbn [oldest_slot].
  - destruct best; [by left|done].
  - destruct (Z.ltb_spec (cl_created_at c) ts) as [Hlt|Hge].
    + specialize (IH (S k) (Some k) (cl_created_at c) (or_intror (mk_is_Some _ _ eq_refl))).
      destruct (oldest_slot l (S k) (Some k) (cl_created_at c)) as [i|]; [|destruct IH; done].
      right. destruct IH as [IH|(H1 & x & H2)].
      * injection IH as <-. split; [lia|]. exists c. by rewrite Nat.sub_diag.
      * split; [lia|]. exists x. by replace (i - k)%nat with (S (i - S k)) by lia.
    + destruct H as [H|H]; [specialize (H 0%nat c eq_refl); lia|].
      specialize (IH (S k) best ts (or_intror H)). destruct (oldest_slot l (S k) best ts) as [i|].
      * destruct IH as [IH|(H1 & x & H2)]; [by left|right]. split; [lia|]. exists x.
        by replace (i - k)%nat with (S (i - S k)) by lia.
      * destruct IH as [-> _], H; done.
  - specialize (IH (S k) best ts). destruct (oldest_slot l (S k) best ts) as [i|].
    + destruct IH as [IH|(H1 & x & H2)]; [destruct H as [H|H]; [left; intros j; apply (H (S j))|by right]|by left|right].
      split; [lia|]. exists x. by replace (i - k)%nat with (S (i - S k)) by lia.
    + destruct IH as [-> IH]; [destruct H as [H|H]; [left; intros j; apply (H (S j))|by right]|]. done.
Qed.

Lemma slots_set srv i c c' : slots_ok srv -> sv_clients srv !! i = Some (Some c) -> cl_created_at c' = cl_created_at c ->
  slots_ok (set_client i (Some c') srv).
Proof.
  intros [S1 S2 S3 S4 S5] Hi Hc. split; cbn [set_client set_field sv_clients sv_client_count sv_max_clients]; try done.
  - cbn. by rewrite length_insert.
  - pose proof (occupied_insert _ i (Some c') _ Hi) as Ho. cbn [occ] in Ho.
    change (sv_client_count srv = Z.of_nat (occupied (<[i := Some c']> (sv_clients srv)))). lia.
  - intros j x Hj. cbn in Hj. apply list_lookup_insert_Some in Hj as [(-> & Heq & _)|(_ & Hj)]; [|by eapply S5].
    injection Heq as <-. rewrite Hc. by eapply S5.
Qed.

Lemma slots_drop srv i c : slots_ok srv -> sv_clients srv !! i = Some (Some c) -> slots_ok (drop_client i srv).
Proof.
  intros [S1 S2 S3 S4 S5] Hi. pose proof (occupied_insert _ i None _ Hi) as Ho. cbn [occ] in Ho. split; cbn; try done.
  - by rewrite length_insert.
  - lia.
  - lia.
  - intros j x Hj. apply list_lookup_insert_Some in Hj as [(_ & Heq & _)|(_ & Hj)]; [done|by eapply S5].
Qed.

Lemma slots_find srv addr found srv' : slots_ok srv -> find_client_by_addr srv addr = (found, srv') -> slots_ok srv' /\
  match found with Some (i, c) => sv_clients srv' !! i = Some (Some c) | None => True end.
Proof.
  intros Hok H. unfold find_client_by_addr in H. destruct (find_slot _ _ 0) as [[j x]|] eqn:E1.
  { injection H as <- <-. by apply find_slot_0 in E1 as [E1 _]. }
  destruct (find_slot _ _ 0) as [[j x]|] eqn:E in H; [|by injection H as <- <-].
  injection H as <- <-. apply find_slot_0 in E as [E _]. split; [by eapply slots_set|].
  cbn. apply list_lookup_insert_eq. by eapply lookup_lt_Some.
Qed.

Lemma slots_packet srv buf from now ok dtls : slots_ok srv -> slots_ok (handle_udp_packet hmac_sha1 srv buf from now ok dtls).2.
Proof.
  intros Hok. unfold handle_udp_packet. destruct buf as [|first rest]; [done|]. set (buf := first :: rest).
  destruct (first <=? 3).
  { cbn [snd]. unfold rwd_ice_process. destruct (ice_request hmac_sha1 srv buf) as [[i c]|] eqn:E; [|done].
    apply ice_request_proves in E as [Hi _]. assert (H : slots_ok (set_client i (Some (note_source from now c)) srv)).
    { eapply slots_set; [done|done|]. unfold note_source. by repeat case_match. }
    destruct H. by split. }
  destruct (_ && _).
  { destruct (find_client_by_addr srv from) as [[[i c]|] srv1] eqn:Ef;
      destruct (slots_find srv from _ srv1 Hok Ef) as [S1 S2]; [|done].
    destruct (bool_decide _); [done|]. cbn [snd]. eapply slots_set; [done|done|]. by destruct dtls as [[[? ?] ?] ?]. }
  destruct (_ && _); [|done]. destruct (_ <? 12)%nat; [done|].
  destruct (rwd_rtcp_requests_keyframe buf).
  - destruct (find_client_by_addr srv from) as [f1 srv1] eqn:E1. destruct (slots_find srv from f1 srv1 Hok E1) as [S1 _].
    destruct (find_client_by_addr srv1 from) as [f2 srv2] eqn:E2. by destruct (slots_find srv1 from f2 srv2 S1 E2) as [S2 _].
  - destruct (find_client_by_addr srv from) as [f2 srv2] eqn:E2. by destruct (slots_find srv from f2 srv2 Hok E2) as [S2 _].
Qed.

Lemma slots_cleanup now l : forall k srv, slots_ok srv ->
  (forall j, (k <= j)%nat -> sv_clients srv !! j = l !! (j - k)%nat) -> slots_ok (cleanup_slots now l k srv).
Proof.
  induction l as [|o l IH]; intros k srv Hok Hl; [done|].
  assert (Hk : sv_clients srv !! k = Some o) by (rewrite Hl, Nat.sub_diag by lia; done).
  assert (Hnext : forall srv', (forall j, (S k <= j)%nat -> sv_clients srv' !! j = sv_clients srv !! j) ->
    forall j, (S k <= j)%nat -> sv_clients srv' !! j = l !! (j - S k)%nat).
  { intros srv' H j Hj. rewrite H, Hl by lia. by replace (j - k)%nat with (S (j - S k)) by lia. }
  destruct o as [c|]; cbn [cleanup_slots]; [|by apply IH, Hnext].
  destruct (is_stale now c); [|by apply IH, Hnext].
  apply IH; [by eapply slots_drop|]. apply Hnext. intros j Hj. cbn. apply list_lookup_insert_ne. lia.
Qed.

(** The slot an accepted offer takes. *)
Lemma offer_slot srv now id idx remote rand m d a : slots_ok srv -> now < 2 ^ 63 - 1 ->
  let '(ok, srv') := rwd_client_from_offer srv now id idx remote rand m d a in
  slots_ok srv' /\ ok = m && d && a /\
  (ok = true -> exists i c, sv_clients srv' !! i = Some (Some c) /\ cl_session_id c = id /\ cl_ice_verified c = false /\
     cl_verified_addrs c = [] /\ (cl_local_ufrag c, cl_local_pwd c) = rwd_generate_ice_credentials rand.1 rand.2).
Proof.
  intros Hok Hnow. unfold rwd_client_from_offer.
  assert (Hroom : exists srv1, (if sv_client_count srv >=? sv_max_clients srv
      then (fun i => drop_client i srv) <$> oldest_slot (sv_clients srv) 0 None (2 ^ 63 - 1) else Some srv) = Some srv1 /\
    slots_ok srv1 /\ sv_client_count srv1 < sv_max_clients srv1).
  { destruct (Z.geb_spec (sv_client_count srv) (sv_max_clients srv)) as [Hge|Hlt]; [|by exists srv].
    pose proof (oldest_slot_spec (sv_clients srv) 0 None (2 ^ 63 - 1) (or_introl (so_created srv Hok))) as Ho.
    destruct (oldest_slot _ _ _ _) as [i|].
    - destruct Ho as [Ho|(_ & c & Hc)]; [done|]. rewrite Nat.sub_0_r in Hc. exists (drop_client i srv). split; [done|].
      split; [by eapply slots_drop|]. cbn. pose proof (so_limit srv Hok). lia.
    - destruct Ho as [_ Ho]. pose proof (so_count srv Hok). pose proof (so_max srv Hok). lia. }
  destruct Hroom as (srv1 & -> & H1 & Hlt). destruct (m && d && a) eqn:Eok; cbn [negb]; [|by split].
  destruct (rwd_generate_ice_credentials rand.1 rand.2) as [u p].
  pose proof (free_slot_spec (sv_clients srv1) 0) as Hf. destruct (free_slot (sv_clients srv1) 0) as [j|].
  - destruct Hf as [_ Hj]. rewrite Nat.sub_0_r in Hj.
    match goal with |- context [Some (mk_rwd_client ?x1 ?x2 ?x3 ?x4 ?x5 ?x6 ?x7 ?x8 ?x9 ?y1 ?y2 ?y3 ?y4 ?y5 ?y6 ?y7)] =>
      set (c := mk_rwd_client x1 x2 x3 x4 x5 x6 x7 x8 x9 y1 y2 y3 y4 y5 y6 y7) end.
    pose proof (occupied_insert _ j (Some c) _ Hj) as Hocc. cbn [occ] in Hocc.
    destruct H1 as [S1 S2 S3 S4 S5]. split; [|split; [done|]].
    + split; cbn; try done; [by rewrite length_insert|lia|lia|].
      intros k x Hk. apply list_lookup_insert_Some in Hk as [(_ & Heq & _)|(_ & Hk)]; [by injection Heq as <-|by eapply S5].
    + intros _. exists j, c. split; [|done]. cbn. apply list_lookup_insert_eq. by eapply lookup_lt_Some.
  - exfalso. destruct H1 as [S1 S2 S3 S4 S5]. rewrite S1 in Hf. unfold RWD_MAX_CLIENTS in *. lia.
Qed.

Definition event_ok (e : rwd_event) : Prop := match e with EvOffer now _ _ _ _ _ _ _ => now < 2 ^ 63 - 1 | _ => True end.

(** The slots stay consistent.  After any sequence of datagrams, offers,
    deletions and clean-ups the number of clients is the number of occupied
    slots and never over the configured maximum; and the next offer, when memory,
    DTLS and the answer allow, always finds a slot, if need be the one of the
    oldest session, and starts there unverified with the credentials just drawn. *)
Theorem rwd_slots_consistent evs max sent now id idx remote rand m d a : Forall event_ok evs -> now < 2 ^ 63 - 1 ->
  1 <= max <= Z.of_nat RWD_MAX_CLIENTS ->
  let srv := rwd_run evs (mk_rwd_server (replicate RWD_MAX_CLIENTS None) 0 max sent) in
  slots_ok srv /\
  let '(ok, srv') := rwd_client_from_offer srv now id idx remote rand m d a in
  slots_ok srv' /\ ok = m && d && a /\
  (ok = true -> exists i c, sv_clients srv' !! i = Some (Some c) /\ cl_session_id c = id /\ cl_ice_verified c = false /\
     cl_verified_addrs c = [] /\ (cl_local_ufrag c, cl_local_pwd c) = rwd_generate_ice_credentials rand.1 rand.2).
Proof.
  intros Hev Hnow Hmax. cbv zeta. set (srv0 := mk_rwd_server (replicate RWD_MAX_CLIENTS None) 0 max sent).
  assert (H0 : slots_ok srv0).
  { split; cbn; try done; [lia|]. intros i c Hi. by apply (lookup_replicate RWD_MAX_CLIENTS) in Hi as [? _]. }
  assert (Hrun : slots_ok (rwd_run evs srv0)).
  { clear -Hev H0. clearbody srv0. revert srv0 H0. induction Hev as [|e evs He Hev IH]; intros srv0 H0; [done|]. apply (IH (rwd_step srv0 e)).
    destruct e as [buf from now ok dtls|now id idx remote rand m d a|id|now]; cbn [rwd_step].
    - by apply slots_packet.
    - pose proof (offer_slot srv0 now id idx remote rand m d a H0 He) as Ho.
      destruct (rwd_client_from_offer srv0 now id idx remote rand m d a). by destruct Ho.
    - unfold handle_whip_delete. destruct (find_slot _ _ 0) as [[i c]|] eqn:E; [|done].
      apply find_slot_0 in E as [E _]. by eapply slots_drop.
    - apply slots_cleanup; [done|]. intros j _. by rewrite Nat.sub_0_r. }
  split; [done|]. by apply offer_slot.
Qed.

(** ** Credentials *)

(** The one pair of credentials every session gets while the random source
    fails. *)
Definition known_cred : list Z * list Z := (replicate 8 97, replicate 24 97).

Lemma offer_frame srv now id idx remote rand m d a j x :
  sv_clients (rwd_client_from_offer srv now id idx remote rand m d a).2 !! j = Some (Some x) ->
  sv_clients srv !! j = Some (Some x) \/
  cl_session_id x = id /\ (cl_local_ufrag x, cl_local_pwd x) = rwd_generate_ice_credentials rand.1 rand.2.
Proof.
  unfold rwd_client_from_offer.
  assert (Hroom : forall srv1, (if sv_client_count srv >=? sv_max_clients srv
      then (fun i => drop_client i srv) <$> oldest_slot (sv_clients srv) 0 None (2 ^ 63 - 1) else Some srv) = Some srv1 ->
    sv_clients srv1 !! j = Some (Some x) -> sv_clients srv !! j = Some (Some x)).
  { intros srv1 E. destruct (_ >=? _); [|by injection E as <-]. destruct (oldest_slot _ _ _ _) as [k|]; [|done].
    injection E as <-. cbn. intros H. by apply list_lookup_insert_Some in H as [(_ & ? & _)|(_ & H)]. }
  destruct (if sv_client_count srv >=? sv_max_clients srv then _ else _) as [srv1|]; [|by left].
  specialize (Hroom srv1 eq_refl). destruct (negb _); [by left; auto|].
  destruct (rwd_generate_ice_credentials rand.1 rand.2) as [u p].
  destruct (free_slot (sv_clients srv1) 0) as [k|]; [|by left; auto]. cbn. intros H.
  apply list_lookup_insert_Some in H as [(_ & Heq & _)|(_ & H)]; [right|left; auto]. by injection Heq as <-.
Qed.

Lemma find_slot_some f l i k c : l !! i = Some (Some c) -> f c = true -> is_Some (find_slot f l k).
Proof.
  revert i k. induction l as [|[x|] l IH]; intros [|i] k Hi Hf; try done; cbn in Hi |- *.
  - injection Hi as ->. by rewrite Hf.
  - destruct (f x); [done|by eapply IH].
  - by eapply IH.
Qed.

Lemma note_source_pins from now c : cl_addr (note_source from now c) = Some from /\ cl_ice_verified (note_source from now c) = true /\
  cl_session_id (note_source from now c) = cl_session_id c.
Proof.
  unfold note_source. destruct (cl_ice_verified c) eqn:E; cbn [negb].
  - destruct (decide (cl_addr c = Some from)) as [Ha|Ha]; [rewrite bool_decide_true by done|rewrite bool_decide_false by done];
      destruct (existsb _ _); cbn; by rewrite ?Ha.
  - by destruct (existsb _ _).
Qed.

(** Somebody who knows the fixed credentials and nothing else. *)
Definition stranger : rwd_client :=
  mk_rwd_client 0 0 None [] [] [] known_cred.1 known_cred.2 false 0 RWD_DTLS_NEW [] false false false 0.

End sources.

Section opened.
Context (hmac_sha1 : list Z -> list Z -> list Z).
Hypothesis hmac_len : forall k m, length (hmac_sha1 k m) = 20%nat.
Hypothesis hmac_bytes : forall k m, Forall is_byte (hmac_sha1 k m).

(** A failing random source opens the sessions instead of closing them.  The
    credentials drawn without it are the same eight and twenty-four letters every
    time, and a binding request anybody can build from them, knowing nothing of
    the session, is accepted from anywhere: its sender becomes the address the
    camera streams to. *)
Theorem rwd_failed_random_opens srv now id idx remote txn tb from now2 ok : slots_ok srv -> now < 2 ^ 63 - 1 ->
  (forall i c, sv_clients srv !! i = Some (Some c) -> cl_local_ufrag c <> known_cred.1) ->
  length txn = 12%nat -> Forall is_byte txn -> length tb = 8%nat -> Forall is_byte tb ->
  exists msg i c, ice_check_msg hmac_sha1 stranger txn tb = Some msg /\
    let srv1 := (rwd_client_from_offer srv now id idx remote (None, None) true true true).2 in
    let srv2 := (rwd_ice_process hmac_sha1 srv1 msg from now2 ok).2 in
    sv_clients srv2 !! i = Some (Some c) /\ cl_session_id c = id /\ cl_ice_verified c = true /\ cl_addr c = Some from.
Proof.
  intros Hok Hnow Hfresh Ht Htb Hb Hbb.
  pose proof (offer_slot srv now id idx remote (None, None) true true true Hok Hnow) as Ho.
  pose proof (offer_frame srv now id idx remote (None, None) true true true) as Hframe.
  destruct (rwd_client_from_offer srv now id idx remote (None, None) true true true) as [r srv1] eqn:E.
  destruct Ho as (_ & -> & Hnew). destruct (Hnew eq_refl) as (i0 & c0 & Hi0 & _ & _ & _ & Hcred0). clear Hnew.
  cbn [snd fst] in *. change (rwd_generate_ice_credentials None None) with known_cred in *.
  set (f := fun x => bool_decide (cl_local_ufrag x = cl_remote_ufrag stranger)).
  destruct (find_slot_some f (sv_clients srv1) i0 0 c0 Hi0) as [[i c] Hf].
  { apply bool_decide_true. by injection Hcred0. }
  pose proof (find_slot_0 _ _ _ _ Hf) as [Hi Hfc]. apply bool_decide_eq_true in Hfc.
  destruct (Hframe i c Hi) as [Hold|[Hid Hcred]]; [by destruct (Hfresh i c Hold)|].
  destruct (check_accepted hmac_sha1 hmac_len hmac_bytes stranger txn tb srv1 i c from now2 ok) as (msg & Hmsg & _ & Hproc); try done.
  - split; [repeat constructor; unfold is_byte; lia|]. split; cbn; set_solver by lia.
  - split; [constructor|]. by split; apply not_elem_of_nil.
  - cbn. lia.
  - by injection Hcred.
  - exists msg, i, (note_source from now2 c). split; [done|]. rewrite Hproc.
    destruct (note_source_pins from now2 c) as (N1 & N2 & N3). split; [|by rewrite N1, N2, N3].
    change (<[i := Some (note_source from now2 c)]> (sv_clients srv1) !! i = Some (Some (note_source from now2 c))).
    apply list_lookup_insert_eq. by eapply lookup_lt_Some.
Qed.

End opened.

(** ** A session *)

Definition toy_txn : list Z := be_bytes 12 0xA1B2C3D4E5F60718293A4B5C.
Definition toy_tb : list Z := be_bytes 8 77.
Definition toy_peer : rwd_client :=
  mk_rwd_client 5 1000 None [] [97; 98] [112; 119] [120; 121] [113] false 0 RWD_DTLS_NEW [] false false false 0.
Definition toy_other : rwd_client :=
  mk_rwd_client 6 1000 None [] [120; 121] [113] [97; 98] [112; 119] false 0 RWD_DTLS_NEW [] false false false 0.
Definition toy_server : rwd_server := mk_rwd_server [None; Some toy_peer; None; None] 1 2 [].

Lemma toy_bytes l : forallb (fun b => (0 <=? b) && (b <? 256)) l = true -> Forall is_byte l.
Proof.
  intros H. apply Forall_forall. intros b Hb. apply forallb_forall with (x := b) in H; [|by apply list_elem_of_In].
  apply andb_true_iff in H as [H1 H2]. unfold is_byte. lia.
Qed.

Lemma rwd_ice_check_accepted_witness :
  exists msg, ice_check_msg toy_hmac toy_other toy_txn toy_tb = Some msg /\ length msg = 84%nat /\
    rwd_ice_process toy_hmac toy_server msg (SA4 50000 7) 2000 true =
      stun_send_response toy_hmac (set_client 1 (Some (note_source (SA4 50000 7) 2000 toy_peer)) toy_server) msg (SA4 50000 7)
        [112; 119] true.
Proof.
  destruct (rwd_ice_check_accepted toy_hmac toy_hmac_len toy_hmac_bytes toy_other toy_txn toy_tb toy_server 1 toy_peer
    (SA4 50000 7) 2000 true) as (msg & H1 & _ & H3).
  - split; [apply toy_bytes; reflexivity|]. split; by apply (bool_decide_unpack _).
  - split; [apply toy_bytes; reflexivity|]. split; by apply (bool_decide_unpack _).
  - vm_compute. lia.
  - reflexivity.
  - apply toy_bytes. reflexivity.
  - reflexivity.
  - apply toy_bytes. reflexivity.
  - vm_compute. reflexivity.
  - reflexivity.
  - exists msg. split; [exact H1|]. split; [|exact H3]. vm_compute in H1. injection H1 as <-. reflexivity.
Defined.

Lemma toy_slots : slots_ok toy_server.
Proof.
  split; [reflexivity|reflexivity|by split; vm_compute|by vm_compute|].
  intros i c Hi. destruct i as [|[|[|[|i]]]]; try done. injection Hi as <-. reflexivity.
Qed.

Lemma rwd_slots_consistent_witness :
  let srv := rwd_run toy_hmac [EvOffer 10 1 0 ([97], [98]) (None, None) true true true;
                               EvOffer 20 2 0 ([97], [98]) (None, None) true true true] 
               (mk_rwd_server (replicate RWD_MAX_CLIENTS None) 0 2 []) in
  slots_ok srv /\ sv_client_count srv = 2 /\
  slots_ok (rwd_client_from_offer srv 30 3 0 ([97], [98]) (None, None) true true true).2.
Proof.
  destruct (rwd_slots_consistent toy_hmac [EvOffer 10 1 0 ([97], [98]) (None, None) true true true;
    EvOffer 20 2 0 ([97], [98]) (None, None) true true true] 2 [] 30 3 0 ([97], [98]) (None, None) true true true) as [H1 H2].
  - repeat constructor.
  - reflexivity.
  - split; vm_compute; discriminate.
  - split; [exact H1|]. split; [vm_compute; reflexivity|].
    destruct (rwd_client_from_offer _ 30 3 0 ([97], [98]) (None, None) true true true). by destruct H2.
Defined.

Lemma rwd_failed_random_opens_witness : exists msg i c, ice_check_msg toy_hmac stranger toy_txn toy_tb = Some msg /\
  sv_clients (rwd_ice_process toy_hmac (rwd_client_from_offer toy_server 3000 9 0 ([97], [98]) (None, None) true true true).2
    msg (SA4 1 2) 4000 true).2 !! i = Some (Some c) /\ cl_session_id c = 9 /\ cl_ice_verified c = true /\ cl_addr c = Some (SA4 1 2).
Proof.
  apply (rwd_failed_random_opens toy_hmac toy_hmac_len toy_hmac_bytes toy_server 3000 9 0 ([97], [98]) toy_txn toy_tb (SA4 1 2) 4000 true).
  - exact toy_slots.
  - reflexivity.
  - intros i c Hi. destruct i as [|[|[|[|i]]]]; try done. injection Hi as <-. discriminate.
  - reflexivity.
  - apply toy_bytes. reflexivity.
  - reflexivity.
  - apply toy_bytes. reflexivity.
Defined.
