(* ===== verification/RmrStorage.v ===== *)
(** * rmr: recording storage (rmr/rmr_storage.c)

    Wall-clock segment boundaries and the storage limit.  A directory is a list
    of entries in readdir order; what is under [base_path] is a list of day
    directories (and of entries that are not directories, which opendir
    refuses).  Memory for the name lists is taken to suffice. *)

From Stdlib Require Import Ascii OrdersEx.
From stdpp Require Import list strings sorting.
From S2P Require Import Prelude.

(** ** Segments *)

Record rmr_storage := mk_rmr_storage {
  so_base_path : string; so_segment_minutes : Z; so_segment_seconds : Z; so_max_storage_mb : Z;
  so_refuse_logged : bool; so_last_wait_warn_us : Z
}.

(** snprintf into the 256-byte buffer. *)
Definition rmr_storage_create (base_path : string) (segment_minutes segment_seconds max_storage_mb : Z) : rmr_storage :=
  mk_rmr_storage (String.substring 0 255 base_path) (if segment_minutes >? 0 then segment_minutes else 5) segment_seconds
    max_storage_mb false 0.

Definition rmr_storage_next_boundary (now_rt_us segment_len_sec : Z) : Z :=
  let period := segment_len_sec * 1000000 in (Z.quot now_rt_us period + 1) * period.

Definition rmr_storage_segment_len_sec (st : rmr_storage) : Z :=
  if so_segment_seconds st >? 0 then so_segment_seconds st else so_segment_minutes st * 60.

Definition RMR_MIN_SEGMENT_US : Z := 5 * 1000000.

Definition rmr_storage_should_rotate_at (st : rmr_storage) (start_rt_us now_rt_us : Z) : bool :=
  if now_rt_us - start_rt_us <? RMR_MIN_SEGMENT_US then false
  else now_rt_us >=? rmr_storage_next_boundary start_rt_us (rmr_storage_segment_len_sec st).

(** ** Waiting for the medium *)

Definition with_refuse_logged (b : bool) (st : rmr_storage) : rmr_storage :=
  mk_rmr_storage (so_base_path st) (so_segment_minutes st) (so_segment_seconds st) (so_max_storage_mb st) b
    (so_last_wait_warn_us st).

Definition with_wait_warn (now : Z) (st : rmr_storage) : rmr_storage :=
  mk_rmr_storage (so_base_path st) (so_segment_minutes st) (so_segment_seconds st) (so_max_storage_mb st)
    (so_refuse_logged st) now.

Fixpoint strrchr (c : ascii) (s : string) : option nat :=
  match s with
  | EmptyString => None
  | String a s => match strrchr c s with Some i => Some (S i) | None => if Ascii.eqb a c then Some 0%nat else None end
  end.

(** The file system as the two functions see it: the device stat reports for a
    path that exists, access(W_OK) before rss_mkdir_p and after it. *)
Record fs := mk_fs { fs_stat : string -> option Z; fs_writable : string -> bool; fs_made : string -> bool }.

(** The stat loop of storage_try_create: [None] is its return false. *)
Fixpoint deepest_existing (fuel : nat) (f : fs) (anc : string) : option string :=
  match fuel with
  | O => None
  | S fuel =>
      match fs_stat f anc with
      | Some _ => Some anc
      | None =>
          match strrchr "/" anc with
          | None => None
          | Some O => Some "/"
          | Some slash => deepest_existing fuel f (String.substring 0 slash anc)
          end
      end
  end.

(** The verdict, the record after the call, and the directory rss_mkdir_p was
    asked for. *)
Definition storage_try_create (f : fs) (st : rmr_storage) : bool * rmr_storage * option string :=
  match deepest_existing (S (String.length (so_base_path st))) f (so_base_path st) with
  | None => (false, st, None)
  | Some anc =>
      match fs_stat f anc, fs_stat f "/" with
      | Some dev, Some root =>
          if dev =? root then (false, with_refuse_logged true st, None)
          else if fs_made f (so_base_path st) then (true, with_refuse_logged false st, Some (so_base_path st))
          else (false, st, Some (so_base_path st))
      | _, _ => (false, st, None)
      end
  end.

Definition rmr_storage_available (f : fs) (now : Z) (st : rmr_storage) : bool * rmr_storage * option string :=
  if fs_writable f (so_base_path st) then (true, st, None) else
  let '(ok, st, made) := storage_try_create f st in
  if ok then (true, st, made)
  else (false, if now - so_last_wait_warn_us st >=? 60000000 then with_wait_warn now st else st, made).

(** ** Directories *)

Definition dir := list (string * Z).
Definition entry := (string * option dir)%type.

(** strcmp, on the unsigned bytes. *)
Definition str_le (a b : string) : Prop := String.leb a b = true.
#[global] Instance str_le_dec : RelDecision str_le := fun a b => decide (String.leb a b = true).

Definition hidden (name : string) : bool := match name with String c _ => Ascii.eqb c "."%char | EmptyString => false end.

Definition is_mp4 (name : string) : bool :=
  let len := String.length name in
  negb (len <? 4)%nat && String.eqb (String.substring (len - 4) 4 name) ".mp4".

Definition scan_dir_sorted (names : list string) : list string :=
  merge_sort str_le (List.filter (fun n => negb (hidden n)) names).

Definition sum_sizes (l : dir) : Z := foldr (fun f t => snd f + t) 0 l.

Definition dir_mp4_size (d : option dir) : Z :=
  match d with Some l => sum_sizes (List.filter (fun f => is_mp4 (fst f)) l) | None => 0 end.

(** What is under [name], and the directory after it changed. *)
Definition lookup_dir (base : list entry) (name : string) : option dir :=
  match List.find (fun e => String.eqb (fst e) name) base with Some (_, d) => d | None => None end.

(** unlink of every .mp4 the scan shows: [unlink_ok] is its verdict. *)
Definition remains (unlink_ok : string -> bool) (f : string * Z) : bool :=
  hidden (fst f) || negb (is_mp4 (fst f)) || negb (unlink_ok (fst f)).

Definition shown_mp4 (l : dir) : dir := List.filter (fun f => negb (hidden (fst f)) && is_mp4 (fst f)) l.

Definition purge_day (unlink_ok : string -> bool) (name : string) (base : list entry) : list entry :=
  omap (fun e =>
    if String.eqb (fst e) name then
      match snd e with
      | Some l => let l := List.filter (remains unlink_ok) l in
                  if (length l =? 0)%nat then None else Some (fst e, Some l)
      | None => Some e
      end
    else Some e) base.

(** The days, oldest first, until the total is under the limit: the names purged
    with it, the total left and the files deleted. *)
Fixpoint purge_loop (unlink_ok : string -> string -> bool) (days : list string) (max_bytes total deleted : Z)
    (base : list entry) : Z * Z * list entry :=
  match days with
  | [] => (total, deleted, base)
  | day :: days =>
      if total >? max_bytes then
        let files := match lookup_dir base day with Some l => shown_mp4 l | None => [] end in
        purge_loop unlink_ok days max_bytes (total - sum_sizes files) (deleted + Z.of_nat (length files))
          (purge_day (unlink_ok day) day base)
      else (total, deleted, base)
  end.

Definition rmr_storage_enforce_limit (unlink_ok : string -> string -> bool) (st : rmr_storage) (base : list entry)
    : Z * list entry :=
  if so_max_storage_mb st <=? 0 then (0, base) else
  let max_bytes := so_max_storage_mb st * 1024 * 1024 in
  let days := scan_dir_sorted (fst <$> base) in
  let total := foldr (fun day t => dir_mp4_size (lookup_dir base day) + t) 0 days in
  let '(_, deleted, base) := purge_loop unlink_ok days max_bytes total 0 base in
  (deleted, base).

(** ** Boundaries *)

Lemma boundary_after now len : 0 <= now -> 0 < len ->
  now < rmr_storage_next_boundary now len <= now + len * 1000000 /\
  rmr_storage_next_boundary now len mod (len * 1000000) = 0.
Proof.
  intros Hn Hl. unfold rmr_storage_next_boundary. rewrite Z.quot_div_nonneg by lia.
  pose proof (Z.div_mod now (len * 1000000)). pose proof (Z.mod_pos_bound now (len * 1000000)).
  split; [nia|]. apply Z_mod_mult.
Qed.

(** The storage manager as configured. *)
Definition storage_ok (st : rmr_storage) : Prop := 0 < so_segment_minutes st /\ 0 <= so_segment_seconds st.

Lemma segment_len_pos st : storage_ok st -> 0 < rmr_storage_segment_len_sec st.
Proof. intros [H1 H2]. unfold rmr_storage_segment_len_sec. destruct (Z.gtb_spec (so_segment_seconds st) 0); lia. Qed.

(** ** Where the base directory may be made *)

Lemma strrchr_spec c s i : strrchr c s = Some i -> (i < String.length s)%nat.
Proof.
  revert i. induction s as [|a s IH]; intros i H; cbn [strrchr] in H; [done|]. cbn [String.length].
  destruct (strrchr c s) as [j|]; [injection H as <-; specialize (IH j eq_refl); lia|].
  destruct (Ascii.eqb a c); [injection H as <-; lia|done].
Qed.

Lemma length_substring0 n s : (n <= String.length s)%nat -> String.length (String.substring 0 n s) = n.
Proof.
  revert n. induction s as [|a s IH]; intros [|n] H; cbn [String.length String.substring] in *; [lia|lia|lia|].
  by rewrite IH by lia.
Qed.

(** One step of the walk: the path cut at its last slash. *)
Definition parent (p : string) : option string :=
  match strrchr "/" p with None => None | Some O => Some "/" | Some i => Some (String.substring 0 i p) end.

(** The ancestors tried before [q], none of which exists. *)
Inductive missing_down_to (f : fs) : string -> string -> Prop :=
| mdt_here p : missing_down_to f p p
| mdt_up p p' q : fs_stat f p = None -> parent p = Some p' -> missing_down_to f p' q -> missing_down_to f p q.

(** The walk ends: the fuel given, the length of the path and one, is enough, and
    what it returns is the deepest ancestor that exists, or the root. *)
Lemma deepest_existing_spec f fuel p : (String.length p < fuel)%nat ->
  match deepest_existing fuel f p with
  | Some q => missing_down_to f p q /\ (fs_stat f q <> None \/ q = "/")
  | None => exists q, missing_down_to f p q /\ fs_stat f q = None /\ strrchr "/" q = None
  end.
Proof.
  revert p. induction fuel as [|fuel IH]; intros p Hp; [lia|]. cbn [deepest_existing].
  destruct (fs_stat f p) as [dev|] eqn:Es.
  - split; [constructor|left; congruence].
  - destruct (strrchr "/" p) as [[|i]|] eqn:Er.
    + split; [|by right]. eapply mdt_up; [done|unfold parent; by rewrite Er|constructor].
    + pose proof (strrchr_spec _ _ _ Er). assert (El := length_substring0 (S i) p ltac:(lia)).
      specialize (IH (String.substring 0 (S i) p) ltac:(lia)).
      assert (Hup : forall q, missing_down_to f (String.substring 0 (S i) p) q -> missing_down_to f p q).
      { intros q. apply mdt_up; [done|unfold parent; by rewrite Er]. }
      destruct (deepest_existing _ _ _) as [q|]; [|destruct IH as (q & H1 & H2)].
      * split; [apply Hup, IH|apply IH].
      * exists q. split; [apply Hup, H1|done].
    + exists p. split; [constructor|done].
Qed.

(** The walk has one end. *)
Lemma missing_meets f p q r dev : missing_down_to f p q -> missing_down_to f p r -> fs_stat f r = Some dev ->
  missing_down_to f q r.
Proof.
  intros Hq Hr Er. induction Hq as [p|p p' q Hm Hp Hq IH]; [done|]. apply IH.
  inversion Hr as [|? p2 ? Hm2 Hp2 Hr2]; subst; [congruence|]. rewrite Hp in Hp2. by injection Hp2 as <-.
Qed.

Lemma missing_root f r dev : missing_down_to f "/" r -> fs_stat f r = Some dev -> r = "/".
Proof.
  intros H. remember "/" as p eqn:Ep. induction H as [|p p' q Hm Hp Hq IH]; intros Er; [done|]. subst p.
  injection Hp as <-. by apply IH.
Qed.

(** What the walk found, as the test of the devices reads it. *)
Lemma deepest_device f p dev :
  (exists q, deepest_existing (S (String.length p)) f p = Some q /\ fs_stat f q = Some dev) <->
  (exists q, missing_down_to f p q /\ fs_stat f q = Some dev).
Proof.
  pose proof (deepest_existing_spec f _ p (Nat.lt_succ_diag_r _)) as Hd. split.
  - intros (q & E & Es). rewrite E in Hd. exists q. by destruct Hd.
  - intros (r & Hr & Er). destruct (deepest_existing _ f p) as [q|].
    + exists q. split; [done|]. destruct Hd as [Hq Hend]. pose proof (missing_meets f p q r dev Hq Hr Er) as Hm.
      destruct Hend as [He| ->]; [inversion Hm; congruence|]. by rewrite <- (missing_root f r dev Hm Er).
    + destruct Hd as (q & Hq & Eq & Eno). pose proof (missing_meets f p q r dev Hq Hr Er) as Hm.
      inversion Hm as [|? p2 ? Hm2 Hp2 Hr2]; subst; [congruence|]. unfold parent in Hp2. by rewrite Eno in Hp2.
Qed.

(** Recording never lands on the root file system by itself.  When the base
    directory is not writable, it is created only if the deepest ancestor of it
    that exists, found by cutting the path at its last slash until something
    exists, is on a device other than that of /; the walk always ends, and the
    storage is reported available exactly when the directory was writable before
    or is after it was made. *)
Theorem rmr_storage_never_on_root f now st :
  let '(ok, st', made) := rmr_storage_available f now st in
  let path := so_base_path st in
  (made <> None <-> fs_writable f path = false /\
     exists anc dev root, missing_down_to f path anc /\ fs_stat f anc = Some dev /\ fs_stat f "/" = Some root /\ dev <> root) /\
  (ok = true <-> fs_writable f path = true \/ made = Some path /\ fs_made f path = true).
Proof.
  unfold rmr_storage_available. destruct (fs_writable f (so_base_path st)) eqn:Ew.
  { split; [split; [done|by intros [? _]]|split; [by left|done]]. }
  pose proof (deepest_device f (so_base_path st)) as Hd. unfold storage_try_create.
  assert (Hno : forall (P : Prop), (forall q dev root, deepest_existing (S (String.length (so_base_path st))) f (so_base_path st) = Some q ->
            fs_stat f q = Some dev -> fs_stat f "/" = Some root -> dev <> root -> P) ->
          (exists anc dev root, missing_down_to f (so_base_path st) anc /\ fs_stat f anc = Some dev /\
             fs_stat f "/" = Some root /\ dev <> root) -> P).
  { intros P HP (anc & dev & root & H1 & H2 & H3 & H4). destruct (proj2 (Hd dev)) as (q & Eq & Es); [by exists anc|]. eauto. }
  destruct (deepest_existing _ f (so_base_path st)) as [anc|] eqn:Ea;
    [destruct (fs_stat f anc) as [dev|] eqn:Es; [destruct (fs_stat f "/") as [root|] eqn:Er; [destruct (Z.eqb_spec dev root) as [<-|Hne]|]|]|].
  2: { destruct (proj1 (Hd dev)) as (q & Hq & Eq); [by exists anc|].
       destruct (fs_made f (so_base_path st)) eqn:Em; (split; [split; [|done]; intros _; split; [done|]; by exists q, dev, root|]).
       - split; [by right|done].
       - split; [done|]. intros [?|[_ ?]]; congruence. }
  all: split; [split; [done|]; intros [_ H]; revert H; apply Hno; congruence
              |split; [done|by intros [?|[? _]]]].
Qed.

(** ** The limit *)

Definition purged (unlink_ok : string -> bool) (o : option dir) : option dir :=
  match o with
  | Some l => let l := List.filter (remains unlink_ok) l in if (length l =? 0)%nat then None else Some l
  | None => None
  end.

Lemma lookup_dir_cons e base x : lookup_dir (e :: base) x = if String.eqb (fst e) x then snd e else lookup_dir base x.
Proof. unfold lookup_dir. cbn [List.find]. destruct e as [n d]. cbn [fst snd]. by destruct (String.eqb n x). Qed.

Lemma lookup_dir_notin base x : x ∉ fst <$> base -> lookup_dir base x = None.
Proof.
  induction base as [|e base IH]; intros H; [done|]. rewrite lookup_dir_cons. cbn [fmap list_fmap] in H.
  apply not_elem_of_cons in H as [H1 H2]. rewrite (proj2 (String.eqb_neq _ _)) by congruence. by apply IH.
Qed.

Lemma purge_day_cons u name e base : purge_day u name (e :: base) =
  (if String.eqb (fst e) name then
     match snd e with Some l => match purged u (Some l) with Some l' => [(fst e, Some l')] | None => [] end | None => [e] end
   else [e]) ++ purge_day u name base.
Proof.
  destruct e as [n d]. unfold purge_day. simpl. destruct (n =? name)%string; [|done]. destruct d as [l|]; [|done].
  by destruct (_ =? 0)%nat.
Qed.

Lemma purge_names u name base x : x ∈ fst <$> purge_day u name base -> x ∈ fst <$> base.
Proof.
  induction base as [|e base IH]; [done|]. rewrite purge_day_cons, fmap_app, elem_of_app. intros [H|H].
  - cbn [fmap list_fmap]. apply elem_of_cons. left.
    destruct (String.eqb (fst e) name); [destruct (snd e) as [l|]; [destruct (purged u (Some l))|]|];
      cbn [fmap list_fmap] in H; [by apply list_elem_of_singleton in H|by apply elem_of_nil in H|by apply list_elem_of_singleton in H..].
  - right. by apply IH.
Qed.

Lemma purge_nodup u name base : NoDup (fst <$> base) -> NoDup (fst <$> purge_day u name base).
Proof.
  induction base as [|e base IH]; intros H; [constructor|]. cbn [fmap list_fmap] in H. apply NoDup_cons in H as [H1 H2].
  rewrite purge_day_cons, fmap_app. apply NoDup_app. split; [|split; [|by apply IH]].
  - destruct (String.eqb (fst e) name); [|apply NoDup_singleton]. destruct (snd e) as [l|]; [|apply NoDup_singleton].
    destruct (purged u (Some l)); [apply NoDup_singleton|constructor].
  - intros x Hx Hin. apply purge_names in Hin. apply H1.
    destruct (String.eqb (fst e) name); [|by apply list_elem_of_singleton in Hx as ->].
    destruct (snd e) as [l|]; [|by apply list_elem_of_singleton in Hx as ->].
    destruct (purged u (Some l)); [by apply list_elem_of_singleton in Hx as ->|by apply elem_of_nil in Hx].
Qed.

Lemma lookup_purge u name base x : NoDup (fst <$> base) ->
  lookup_dir (purge_day u name base) x = if String.eqb name x then purged u (lookup_dir base x) else lookup_dir base x.
Proof.
  induction base as [|e base IH]; intros H; [by destruct (String.eqb name x)|].
  cbn [fmap list_fmap] in H. apply NoDup_cons in H as [H1 H2]. rewrite purge_day_cons, lookup_dir_cons.
  specialize (IH H2). destruct (String.eqb_spec (fst e) name) as [He|He].
  - destruct (String.eqb_spec name x) as [->|Hx].
    + rewrite (proj2 (String.eqb_eq _ _) He). destruct (snd e) as [l|] eqn:El.
      * destruct (purged u (Some l)) as [l'|] eqn:Ep; cbn [app].
        -- rewrite lookup_dir_cons. cbn [fst snd]. by rewrite (proj2 (String.eqb_eq _ _) He).
        -- apply lookup_dir_notin. intros Hin%purge_names. by rewrite <- He in Hin.
      * cbn [app]. rewrite lookup_dir_cons, (proj2 (String.eqb_eq _ _) He). by rewrite El.
    + rewrite (proj2 (String.eqb_neq (fst e) x)) by congruence.
      destruct (snd e) as [l|]; [destruct (purged u (Some l))|]; cbn [app]; rewrite ?lookup_dir_cons; cbn [fst];
        rewrite ?(proj2 (String.eqb_neq (fst e) x)) by congruence; exact IH.
  - cbn [app]. rewrite lookup_dir_cons. destruct (String.eqb_spec (fst e) x) as [Hx|]; [|exact IH].
    rewrite (proj2 (String.eqb_neq name x)) by congruence. done.
Qed.

(** What the days hold of recordings. *)
Definition recount (days : list string) (base : list entry) : Z :=
  foldr (fun day t => dir_mp4_size (lookup_dir base day) + t) 0 days.

Definition purge_days (unlink_ok : string -> string -> bool) (days : list string) (base : list entry) : list entry :=
  foldl (fun base day => purge_day (unlink_ok day) day base) base days.

Lemma sum_sizes_app l k : sum_sizes (l ++ k) = sum_sizes l + sum_sizes k.
Proof. induction l as [|f l IH]; [done|]. cbn [sum_sizes foldr app] in *. fold (sum_sizes (l ++ k)). fold (sum_sizes l). lia. Qed.

Lemma sum_sizes_cons f l : sum_sizes (f :: l) = snd f + sum_sizes l.
Proof. done. Qed.

Definition gone (f : string * Z) : bool := negb (hidden (fst f)) && is_mp4 (fst f).

Lemma purged_size u o : (forall f, u f = true) ->
  dir_mp4_size (purged u o) = dir_mp4_size o - sum_sizes (match o with Some l => shown_mp4 l | None => [] end).
Proof.
  intros Hu. destruct o as [l|]; [|done].
  assert (H : sum_sizes (List.filter (fun f => is_mp4 (fst f)) (List.filter (remains u) l)) =
    sum_sizes (List.filter (fun f => is_mp4 (fst f)) l) - sum_sizes (shown_mp4 l)).
  { induction l as [|f l IH]; [done|]. unfold shown_mp4 in *. cbn [List.filter]. unfold remains at 1. rewrite Hu. cbn [negb orb].
    rewrite orb_false_r. destruct (hidden (fst f)), (is_mp4 (fst f)) eqn:E; cbn [negb orb andb]; cbn [List.filter]; rewrite ?E, ?sum_sizes_cons; lia. }
  unfold purged. destruct (Nat.eqb_spec (length (List.filter (remains u) l)) 0) as [E|_]; [|exact H].
  apply length_zero_iff_nil in E. rewrite E in H. cbn [dir_mp4_size]. cbn [List.filter sum_sizes foldr] in H. lia.
Qed.

Lemma recount_notin u name days base : NoDup (fst <$> base) -> name ∉ days ->
  recount days (purge_day u name base) = recount days base.
Proof.
  intros Hb. induction days as [|d days IH]; intros H; [done|]. apply not_elem_of_cons in H as [H1 H2].
  cbn [recount foldr]. fold (recount days (purge_day u name base)). fold (recount days base).
  rewrite lookup_purge by done. rewrite (proj2 (String.eqb_neq name d)) by congruence. by rewrite IH.
Qed.

Lemma recount_purge u name days base : (forall f, u f = true) -> NoDup (fst <$> base) -> NoDup days -> name ∈ days ->
  recount days (purge_day u name base) =
  recount days base - sum_sizes (match lookup_dir base name with Some l => shown_mp4 l | None => [] end).
Proof.
  intros Hu Hb Hd Hin. induction days as [|d days IH]; [by apply elem_of_nil in Hin|].
  apply NoDup_cons in Hd as [Hd1 Hd2]. cbn [recount foldr]. fold (recount days (purge_day u name base)). fold (recount days base).
  rewrite lookup_purge by done. apply elem_of_cons in Hin as [->|Hin].
  - rewrite String.eqb_refl, recount_notin by done. rewrite purged_size by done. lia.
  - assert (name <> d) by (intros ->; done). rewrite (proj2 (String.eqb_neq name d)) by done. rewrite IH by done. lia.
Qed.

(** ** Oldest first *)

Lemma str_le_spec a b : str_le a b <-> a = b \/ String_as_OT.lt a b.
Proof.
  unfold str_le, String.leb. change (String.compare a b) with (String_as_OT.compare a b).
  destruct (String_as_OT.compare_spec a b) as [H|H|H].
  - split; [by left|done].
  - split; [by right|done].
  - split; [done|]. intros [->|H']; exfalso.
    + by apply (StrictOrder_Irreflexive b).
    + apply (StrictOrder_Irreflexive (R := String_as_OT.lt) a). by transitivity b.
Qed.

#[global] Instance str_le_trans : Transitive str_le.
Proof.
  intros a b c. rewrite !str_le_spec. intros [->|H1] [->|H2]; [by left|by right|by right|]. right. by transitivity b.
Qed.

#[global] Instance str_le_total : Total str_le.
Proof. intros a b. unfold str_le. apply String.leb_total. Qed.

Lemma days_sorted names : StronglySorted str_le (scan_dir_sorted names).
Proof. apply StronglySorted_merge_sort; apply _. Qed.

Lemma days_perm names : scan_dir_sorted names ≡ₚ List.filter (fun n => negb (hidden n)) names.
Proof. apply merge_sort_Permutation. Qed.

Lemma days_nodup names : NoDup names -> NoDup (scan_dir_sorted names).
Proof. intros H. rewrite days_perm. apply NoDup_ListNoDup, List.NoDup_filter, NoDup_ListNoDup, H. Qed.

Lemma purge_days_nodup u days base : NoDup (fst <$> base) -> NoDup (fst <$> purge_days u days base).
Proof. revert base. induction days as [|d days IH]; intros base H; [done|]. apply IH, purge_nodup, H. Qed.

(** What is under a name after the given days were purged. *)
Lemma lookup_purge_days u days base x : NoDup (fst <$> base) -> NoDup days ->
  lookup_dir (purge_days u days base) x = if decide (x ∈ days) then purged (u x) (lookup_dir base x) else lookup_dir base x.
Proof.
  revert base. induction days as [|d days IH]; intros base Hb Hd.
  - rewrite decide_False by apply not_elem_of_nil. done.
  - apply NoDup_cons in Hd as [Hd1 Hd2]. change (purge_days u (d :: days) base) with (purge_days u days (purge_day (u d) d base)).
    rewrite IH by (done || by apply purge_nodup).
    rewrite lookup_purge by done. destruct (String.eqb_spec d x) as [->|Hx].
    + rewrite (decide_False (P := x ∈ days)) by done. by rewrite decide_True by left.
    + destruct (decide (x ∈ days)) as [Hin|Hn]; [by rewrite decide_True by (by right)|].
      rewrite decide_False; [done|]. apply not_elem_of_cons. split; congruence || done.
Qed.

(** The loop purges the fewest leading days that bring the total under the
    limit. *)
Lemma purge_loop_spec u max all : (forall d f, u d f = true) -> NoDup all -> forall days total deleted base,
  NoDup (fst <$> base) -> NoDup days -> days ⊆ all -> total = recount all base ->
  exists k del, (k <= length days)%nat /\
    purge_loop u days max total deleted base =
      (recount all (purge_days u (take k days) base), del, purge_days u (take k days) base) /\
    (k = length days \/ recount all (purge_days u (take k days) base) <= max) /\
    (forall j, (j < k)%nat -> max < recount all (purge_days u (take j days) base)).
Proof.
  intros Hu Hall. induction days as [|day days IH]; intros total deleted base Hb Hd Hsub ->; cbn [purge_loop].
  - exists 0%nat, deleted. split; [cbn; lia|]. split; [done|]. split; [by left|lia].
  - destruct (Z.gtb_spec (recount all base) max) as [Hgt|Hle].
    + apply NoDup_cons in Hd as [Hd1 Hd2]. assert (Hin : day ∈ all) by (apply Hsub; by left).
      set (files := match lookup_dir base day with Some l => shown_mp4 l | None => [] end).
      destruct (IH (recount all base - sum_sizes files) (deleted + Z.of_nat (length files)) (purge_day (u day) day base))
        as (k & del & Hk & E & Hend & Hmin).
      * by apply purge_nodup.
      * done.
      * intros x Hx. apply Hsub. by right.
      * symmetry. by apply recount_purge.
      * exists (S k), del. cbn [length]. split; [lia|]. split; [exact E|]. split.
        -- destruct Hend as [->|Hend]; [by left|by right].
        -- intros [|j] Hj; [exact Hgt|]. apply (Hmin j). lia.
    + exists 0%nat, deleted. cbn [length]. split; [lia|]. split; [done|]. split; [by right|lia].
Qed.

(** The limit deletes whole days, oldest first, and no more of them than it
    needs.  With unlink working, the days purged are the first [k] of the visible
    ones in name order; in a purged day every visible .mp4 is gone and nothing
    else, and every other directory is as it was; the recordings left are under
    the limit, unless every day was purged; and with one day fewer they were
    not. *)
Theorem rmr_limit_oldest_days unlink_ok st base : NoDup (fst <$> base) -> (forall d f, unlink_ok d f = true) ->
  0 < so_max_storage_mb st ->
  let max := so_max_storage_mb st * 1024 * 1024 in
  let days := scan_dir_sorted (fst <$> base) in
  let base' := (rmr_storage_enforce_limit unlink_ok st base).2 in
  exists k, (k <= length days)%nat /\ StronglySorted str_le days /\
    (forall x, lookup_dir base' x = if decide (x ∈ take k days) then purged (unlink_ok x) (lookup_dir base x) else lookup_dir base x) /\
    (k = length days \/ recount days base' <= max) /\
    (forall j, (j < k)%nat -> max < recount days (purge_days unlink_ok (take j days) base)).
Proof.
  intros Hb Hu Hmax. cbv zeta. unfold rmr_storage_enforce_limit. rewrite (proj2 (Z.leb_gt _ _)) by done.
  set (days := scan_dir_sorted (fst <$> base)). assert (Hnd : NoDup days) by (by apply days_nodup).
  destruct (purge_loop_spec unlink_ok (so_max_storage_mb st * 1024 * 1024) days Hu Hnd days (recount days base) 0 base)
    as (k & del & Hk & E & Hend & Hmin); try done. fold (recount days base). rewrite E. cbn [snd].
  exists k. split; [done|]. split; [apply days_sorted|]. split; [|done].
  intros x. apply lookup_purge_days; [done|]. by apply (sublist_NoDup _ _ Hnd), sublist_take.
Qed.

Definition demo_st : rmr_storage := rmr_storage_create "/mnt/mmcblk0p1/rec" 5 0 1.

Definition demo_base : list entry :=
  [("2024-05-02", Some [("10-00-00.mp4", 700000); ("notes.txt", 5)]); ("2024-05-01", Some [("09-00-00.mp4", 600000)]);
   (".trash", Some [("x.mp4", 900000)])].

Lemma rmr_limit_oldest_days_witness :
  rmr_storage_enforce_limit (fun _ _ => true) demo_st demo_base =
    (1, [("2024-05-02", Some [("10-00-00.mp4", 700000); ("notes.txt", 5)]); (".trash", Some [("x.mp4", 900000)])]) /\
  exists k, StronglySorted str_le (scan_dir_sorted (fst <$> demo_base)) /\ (k <= 2)%nat.
Proof.
  split; [vm_compute; reflexivity|].
  destruct (rmr_limit_oldest_days (fun _ _ => true) demo_st demo_base) as (k & H1 & H2 & _).
  - apply (bool_decide_unpack _). vm_compute. exact I.
  - reflexivity.
  - reflexivity.
  - exists k. split; [exact H2|]. vm_compute in H1. exact H1.
Defined.

(** A limit smaller than a day keeps nothing.  When the newest day alone is
    over the limit, the call that follows a rotation deletes every recording of
    that day as well, the segment just closed among them, although dropping its
    oldest files would have been enough. *)
Theorem rmr_limit_drops_today unlink_ok st day l : (forall d f, unlink_ok d f = true) -> 0 < so_max_storage_mb st ->
  hidden day = false -> so_max_storage_mb st * 1024 * 1024 < dir_mp4_size (Some l) ->
  forall name size, hidden name = false -> is_mp4 name = true ->
  match lookup_dir (rmr_storage_enforce_limit unlink_ok st [(day, Some l)]).2 day with
  | Some l' => (name, size) ∉ l'
  | None => True
  end.
Proof.
  intros Hu Hmax Hh Hover name size Hn Hm. unfold rmr_storage_enforce_limit. rewrite (proj2 (Z.leb_gt _ _)) by done.
  assert (Hdays : scan_dir_sorted (fst <$> [(day, Some l)]) = [day]).
  { unfold scan_dir_sorted. cbn [fmap list_fmap List.filter fst]. rewrite Hh. done. }
  rewrite Hdays. cbn [foldr purge_loop]. rewrite !lookup_dir_cons. cbn [fst snd]. rewrite String.eqb_refl.
  destruct (Z.gtb_spec (dir_mp4_size (Some l) + 0) (so_max_storage_mb st * 1024 * 1024)); [|lia].
  cbn [snd]. rewrite lookup_purge by apply NoDup_singleton. rewrite String.eqb_refl, lookup_dir_cons. cbn [fst snd].
  rewrite String.eqb_refl. unfold purged. destruct (_ =? 0)%nat; [done|].
  intros Hin. apply list_elem_of_In, List.filter_In in Hin as [_ Hr]. unfold remains in Hr. cbn [fst] in Hr.
  by rewrite Hn, Hm, Hu in Hr.
Qed.

Lemma rmr_limit_drops_today_witness :
  let base := [("2024-05-02", Some [("10-00-00.mp4", 700000); ("10-05-00.mp4", 700000)])] in
  (rmr_storage_enforce_limit (fun _ _ => true) demo_st base).2 = [] /\
  match lookup_dir (rmr_storage_enforce_limit (fun _ _ => true) demo_st base).2 "2024-05-02" with
  | Some l' => ("10-05-00.mp4", 700000) ∉ l'
  | None => True
  end.
Proof.
  split; [vm_compute; reflexivity|].
  apply (rmr_limit_drops_today (fun _ _ => true) demo_st "2024-05-02").
  - reflexivity.
  - reflexivity.
  - reflexivity.
  - reflexivity.
  - reflexivity.
  - reflexivity.
Defined.
