(* ===== verification/RmrRecord.v ===== *)
(** * rmr: the recording loop (rmr/rmr_main.c)

    One iteration of record_loop: standby, the rings, the frame prepared for the
    muxer, the continuous recording with its rotation, the motion clips with
    their pre-buffer, and the timelapse.  A file is the list of calls made on its
    muxer and its signer, in order; [Mux], [Sign] and [SignedRec] say what bytes
    they leave.  What the loop learns from outside (the rings, the clocks, the
    storage, what an open or a write returns) is one record per iteration. *)

From stdpp Require Import list strings.
From S2P Require Import Prelude Mux Nal Prebuf Timelapse RmrStorage.

(** ** Files *)

Inductive mux_call :=
| Mc_start
| Mc_video (s : rmr_video_sample)
| Mc_audio (s : rmr_audio_sample)
| Mc_flush
| Mc_finalize
| Mc_sign_begin
| Mc_sign_emit (final : bool).

(** The tracks as set, then the calls. *)
Record mux_file := mk_mux_file {
  mf_video : rmr_video_params; mf_sets : list Z * list Z * list Z; mf_audio : option rmr_audio_params;
  mf_calls : list mux_call
}.

Definition calls (cs : list mux_call) (f : mux_file) : mux_file :=
  mk_mux_file (mf_video f) (mf_sets f) (mf_audio f) (mf_calls f ++ cs).

(** ** The state *)

Definition RMR_MODE_CONTINUOUS : Z := 0.
Definition RMR_MODE_MOTION : Z := 1.
Definition RMR_MODE_BOTH : Z := 2.

Record rmr_config := mk_rmr_config {
  c_mode : Z; c_prebuffer_sec : Z; c_clip_length_sec : Z; c_sign_enabled : bool; c_audio_enabled : bool;
  c_storage : rmr_storage
}.

(** The rings, what their headers said, and the pre-buffers. *)
Record source := mk_source {
  s_video_ring : bool; s_frame_buf_size : Z; s_avcc_buf_size : Z; s_video_codec : Z; s_width : Z; s_height : Z;
  s_params : rmr_codec_params;
  s_audio_ring : bool; s_audio_codec : Z; s_audio_sample_rate : Z; s_audio_aot : Z;
  s_samples_per_frame : Z; s_audio_bps : Z;
  s_audio_retry : Z; s_last_video_ws : Z; s_video_idle : Z; s_last_audio_ws : Z; s_audio_idle : Z;
  s_v_wait_key : bool; s_standby : bool;
  s_video_pb : option rmr_prebuf; s_audio_pb : option rmr_prebuf;
  s_idr_requests : Z
}.

#[export] Instance eta_source : Settable source := fun s =>
  mk_source (s_video_ring s) (s_frame_buf_size s) (s_avcc_buf_size s) (s_video_codec s) (s_width s) (s_height s) (s_params s)
    (s_audio_ring s) (s_audio_codec s) (s_audio_sample_rate s) (s_audio_aot s) (s_samples_per_frame s) (s_audio_bps s)
    (s_audio_retry s) (s_last_video_ws s) (s_video_idle s) (s_last_audio_ws s) (s_audio_idle s) (s_v_wait_key s)
    (s_standby s) (s_video_pb s) (s_audio_pb s) (s_idr_requests s).

(** The continuous recording, with the segments closed so far. *)
Record segments := mk_segments {
  cs_mux : option mux_file; cs_start_rt_us : Z; cs_boundary_rt_us : Z; cs_idr_requested : bool;
  cs_frames_since_flush : Z; cs_frames_written : Z; cs_frames_dropped : Z;
  cs_v_ts_base : Z; cs_a_dts_counter : Z; cs_a_ts_base : Z; cs_was_recording : bool;
  cs_closed : list mux_file; cs_limit_calls : Z
}.

#[export] Instance eta_segments : Settable segments := fun c =>
  mk_segments (cs_mux c) (cs_start_rt_us c) (cs_boundary_rt_us c) (cs_idr_requested c) (cs_frames_since_flush c)
    (cs_frames_written c) (cs_frames_dropped c) (cs_v_ts_base c) (cs_a_dts_counter c) (cs_a_ts_base c)
    (cs_was_recording c) (cs_closed c) (cs_limit_calls c).

(** The motion clips. *)
Record clips := mk_clips {
  kp_mux : option mux_file; kp_v_ts_base : Z; kp_a_dts : Z; kp_a_ts_base : Z; kp_start_us : Z; kp_closed : list mux_file
}.

#[export] Instance eta_clips : Settable clips := fun k =>
  mk_clips (kp_mux k) (kp_v_ts_base k) (kp_a_dts k) (kp_a_ts_base k) (kp_start_us k) (kp_closed k).

Record timelapse := mk_timelapse {
  tp_enabled : bool; tp_tl : rmr_tl; tp_mux : option mux_file; tp_frames_total : Z; tp_closed : list mux_file
}.

#[export] Instance eta_timelapse : Settable timelapse := fun t =>
  mk_timelapse (tp_enabled t) (tp_tl t) (tp_mux t) (tp_frames_total t) (tp_closed t).

Record rmr_state := mk_rmr_state {
  r_recording : bool; r_clip_recording : bool; r_source : source; r_segments : segments; r_clips : clips; r_tl : timelapse
}.

#[export] Instance eta_rmr_state : Settable rmr_state := fun st =>
  mk_rmr_state (r_recording st) (r_clip_recording st) (r_source st) (r_segments st) (r_clips st) (r_tl st).

(** ** One iteration's view of the world *)

Inductive ring_read :=
| Rd_frame (data : list Z) (timestamp : Z) (is_key : bool) (seq : Z)
| Rd_overflow
| Rd_again (write_seq : Z)
| Rd_error.

Inductive rmr_cmd := Cmd_enable | Cmd_disable | Cmd_start | Cmd_stop | Cmd_tl_enable | Cmd_tl_disable | Cmd_tl_snap
| Cmd_tl_interval (val : Z) | Cmd_tl_fps (val : Z).

Record audio_hdr := mk_audio_hdr { ah_codec : Z; ah_rate : Z; ah_profile : Z; ah_width : Z; ah_write_seq : Z }.
Record video_hdr := mk_video_hdr { vh_codec : Z; vh_max_frame : Z; vh_alloc_ok : bool }.

Record tick := mk_tick {
  k_cmd : option rmr_cmd;
  k_have_dest : bool; k_enospc : bool;
  k_audio_open : option audio_hdr; k_video_open : option video_hdr;
  k_video : ring_read; k_sei : list Z; k_audio : list (list Z * Z); k_audio_ws : Z;
  k_seg_available : bool; k_now_rt_us : Z; k_seg_open : bool; k_seg_rt_us : Z; k_write_ok : bool;
  k_clip_available : bool; k_clip_open : bool; k_clip_us : Z; k_now_us : Z; k_cont_open : bool; k_cont_us : Z;
  k_tl_us : Z; k_day : Z; k_tl_open : bool; k_tl_write_ok : bool
}.

Record vframe := mk_vframe { vf_data : list Z; vf_ts : Z; vf_key : bool }.
Record aframe := mk_aframe { af_data : list Z; af_samples : Z; af_ts : Z }.

(** ** Tracks *)

Definition setup_mux_video_track_dur (s : source) (default_duration : Z) : rmr_video_params * (list Z * list Z * list Z) :=
  let p := s_params s in
  (mk_rmr_video_params
     (if s_video_codec s =? 2 then RMR_CODEC_MJPEG else if s_video_codec s =? 1 then RMR_CODEC_H265 else RMR_CODEC_H264)
     (s_width s) (s_height s) 90000 default_duration,
   if s_video_codec s =? 2 then ([], [], []) else (cp_sps p, cp_pps p, cp_vps p)).

Definition setup_mux_audio_track (s : source) : option rmr_audio_params :=
  if negb (s_audio_ring s) then None else
  let ap codec bits := Some (mk_rmr_audio_params codec (s_audio_sample_rate s) 1 bits (s_audio_aot s)) in
  let c := s_audio_codec s in
  if c =? RMR_AUDIO_PCMU then ap RMR_AUDIO_PCMU 8
  else if c =? RMR_AUDIO_PCMA then ap RMR_AUDIO_PCMA 8
  else if c =? RMR_AUDIO_AAC then ap RMR_AUDIO_AAC 16
  else if c =? RMR_AUDIO_OPUS then ap RMR_AUDIO_OPUS 16
  else ap RMR_AUDIO_L16 16.

Definition emit (c : rmr_config) (final : bool) : list mux_call := if c_sign_enabled c then [Mc_sign_emit final] else [].
Definition begin (c : rmr_config) : list mux_call := if c_sign_enabled c then [Mc_sign_begin] else [].

(** A file from its creation to its header. *)
Definition open_file (c : rmr_config) (tracks : rmr_video_params * (list Z * list Z * list Z)) (audio : option rmr_audio_params)
    : mux_file :=
  mk_mux_file (fst tracks) (snd tracks) audio (begin c ++ [Mc_start] ++ emit c false).

Definition flush_file (c : rmr_config) (f : mux_file) : mux_file := calls (Mc_flush :: emit c false) f.
Definition close_file (c : rmr_config) (f : mux_file) : mux_file := calls (Mc_finalize :: emit c true) f.

(** ** Audio decode times *)

(** The steered counter and the anchor. *)
Definition steer_audio_dts (dts ring_ts ts_base samples sample_rate : Z) : Z * Z :=
  if sample_rate =? 0 then (dts, ts_base) else
  let ts_base := if ts_base <? 0 then ring_ts - Z.quot (dts * 1000000) sample_rate else ts_base in
  let target := Z.quot ((ring_ts - ts_base) * sample_rate) 1000000 in
  let err := target - dts in
  let nudge := sample_rate / 1000 in
  if err >? samples * 4 then (target, ts_base)
  else if err <? - samples * 4 then (dts, ring_ts - Z.quot (dts * 1000000) sample_rate)
  else if err >? nudge then (dts + nudge, ts_base)
  else if err <? - nudge then (dts - nudge, ts_base)
  else (dts, ts_base).

(** One audio frame into a file, with its counter and its anchor. *)
Definition write_audio (sample_rate : Z) (a : aframe) (w : Z * Z * mux_file) : Z * Z * mux_file :=
  let '(dts, ts_base, f) := w in
  let '(dts, ts_base) := steer_audio_dts dts (af_ts a) ts_base (af_samples a) sample_rate in
  (dts + af_samples a, ts_base, calls [Mc_audio (mk_rmr_audio_sample (af_data a) dts)] f).

Definition video_call (v : vframe) (dts : Z) : mux_call := Mc_video (mk_rmr_video_sample (vf_data v) dts dts (vf_key v)).

Definition v_dts (ts base : Z) : Z := Z.quot ((ts - base) * 90) 1000.

(** ** The continuous recording *)

Definition start_segment (c : rmr_config) (s : source) (seg_rt_us : Z) (g : segments) : segments :=
  g <| cs_mux := Some (open_file c (setup_mux_video_track_dur s 0) (setup_mux_audio_track s)) |>
    <| cs_start_rt_us := seg_rt_us |>
    <| cs_boundary_rt_us := rmr_storage_next_boundary seg_rt_us (rmr_storage_segment_len_sec (c_storage c)) |>
    <| cs_idr_requested := false |>.

Definition close_segment (c : rmr_config) (g : segments) : segments :=
  match cs_mux g with
  | Some f => g <| cs_closed := cs_closed g ++ [close_file c f] |> <| cs_mux := None |>
  | None => g
  end.

(** The stop transition. *)
Definition stop_recording (c : rmr_config) (g : segments) : segments :=
  (close_segment c g) <| cs_was_recording := false |> <| cs_v_ts_base := -1 |> <| cs_a_dts_counter := 0 |>
    <| cs_a_ts_base := -1 |>.

(** The flush, the request for a keyframe past the boundary, and the rotation:
    whether the keyframe was requested, and the segments after it. *)
Definition flush_and_rotate (c : rmr_config) (now_rt : Z) (is_key : bool) (g : segments) : bool * segments :=
  match cs_mux g with
  | None => (false, g)
  | Some f =>
      let g := g <| cs_frames_since_flush := cs_frames_since_flush g + 1 |> in
      let ask := negb (cs_idr_requested g) && negb is_key && (now_rt >=? cs_boundary_rt_us g) in
      let g := if ask then g <| cs_idr_requested := true |> else g in
      (ask,
       if is_key then
         let g := g <| cs_mux := Some (flush_file c f) |> <| cs_frames_since_flush := 0 |> in
         if rmr_storage_should_rotate_at (c_storage c) (cs_start_rt_us g) now_rt
         then (close_segment c g) <| cs_limit_calls := cs_limit_calls g + 1 |>
         else g
       else if cs_frames_since_flush g >=? 10 then
         g <| cs_mux := Some (flush_file c f) |> <| cs_frames_since_flush := 0 |>
       else g)
  end.

(** The frame and its audio into the open segment. *)
Definition write_samples (s : source) (write_ok : bool) (v : vframe) (audio : list aframe) (f : mux_file) (g : segments)
    : segments :=
  let g := if cs_v_ts_base g <? 0 then g <| cs_v_ts_base := vf_ts v |> else g in
  let f := calls [video_call v (v_dts (vf_ts v) (cs_v_ts_base g))] f in
  let g := if write_ok then g <| cs_frames_written := cs_frames_written g + 1 |>
           else g <| cs_frames_dropped := cs_frames_dropped g + 1 |> in
  let '(dts, base, f) := fold_left (fun w a => write_audio (s_audio_sample_rate s) a w) audio
                           (cs_a_dts_counter g, cs_a_ts_base g, f) in
  g <| cs_a_dts_counter := dts |> <| cs_a_ts_base := base |> <| cs_mux := Some f |>.

Definition continuous (c : rmr_config) (s : source) (k : tick) (rec : bool) (v : vframe) (audio : list aframe) (g : segments)
    : bool * segments :=
  let g := if cs_was_recording g && negb rec then stop_recording c g else g in
  if negb rec then (false, g) else
  if negb (k_seg_available k) then (false, g) else
  let '(ask, g) := flush_and_rotate c (k_now_rt_us k) (vf_key v) g in
  match cs_mux g with
  | Some f => (ask, write_samples s (k_write_ok k) v audio f g)
  | None =>
      if negb (vf_key v) then (ask, g) else
      if negb (k_seg_open k) then (ask, g) else
      let g := (start_segment c s (k_seg_rt_us k) g)
                 <| cs_v_ts_base := -1 |> <| cs_a_dts_counter := 0 |> <| cs_a_ts_base := -1 |>
                 <| cs_frames_written := 0 |> <| cs_was_recording := true |> in
      match cs_mux g with
      | Some f => (ask, write_samples s (k_write_ok k) v audio f g)
      | None => (ask, g)
      end
  end.

(** ** Motion clips *)

Definition open_clip (c : rmr_config) (s : source) (open_ok : bool) (now_us : Z) (k : clips) : option clips :=
  if negb open_ok then None else
  Some (k <| kp_mux := Some (open_file c (setup_mux_video_track_dur s 0) (setup_mux_audio_track s)) |>
          <| kp_v_ts_base := -1 |> <| kp_a_dts := 0 |> <| kp_a_ts_base := -1 |> <| kp_start_us := now_us |>).

Definition close_clip (c : rmr_config) (k : clips) : clips :=
  match kp_mux k with
  | Some f => k <| kp_closed := kp_closed k ++ [close_file c f] |> <| kp_mux := None |>
  | None => k
  end.

Definition clip_write_video (c : rmr_config) (v : vframe) (k : clips) : clips :=
  match kp_mux k with
  | None => k
  | Some f =>
      let k := if kp_v_ts_base k <? 0 then k <| kp_v_ts_base := vf_ts v |> else k in
      let f := if vf_key v then flush_file c f else f in
      k <| kp_mux := Some (calls [video_call v (v_dts (vf_ts v) (kp_v_ts_base k))] f) |>
  end.

Definition clip_write_audio (s : source) (a : aframe) (k : clips) : clips :=
  match kp_mux k with
  | None => k
  | Some f =>
      let '(dts, base, f) := write_audio (s_audio_sample_rate s) a (kp_a_dts k, kp_a_ts_base k, f) in
      k <| kp_a_dts := dts |> <| kp_a_ts_base := base |> <| kp_mux := Some f |>
  end.

(** The callbacks of the replay, on the frames replayed and the clip. *)
Definition replay_video_frame (c : rmr_config) (slot : rmr_prebuf_slot) (data : list Z) (rc : Z * clips) : Z * (Z * clips) :=
  (0, (fst rc + 1, clip_write_video c (mk_vframe data (sl_timestamp slot) (sl_is_key slot)) (snd rc))).

Definition samples_of (s : source) (len : Z) : Z :=
  if negb (s_samples_per_frame s =? 0) then s_samples_per_frame s else len / s_audio_bps s.

Definition replay_audio_frame (s : source) (max_frames : Z) (slot : rmr_prebuf_slot) (data : list Z) (rc : Z * clips)
    : Z * (Z * clips) :=
  if (max_frames >=? 0) && (fst rc >=? max_frames) then (1, rc) else
  (0, (fst rc + 1, clip_write_audio s (mk_aframe data (samples_of s (sl_length slot)) (sl_timestamp slot)) (snd rc))).

(** How many audio frames go with [v_duration_us] of video. *)
Definition audio_frame_count (s : source) (v_duration_us count : Z) : Z :=
  let audio_frame_us :=
    if (s_samples_per_frame s >? 0) && (s_audio_sample_rate s >? 0)
    then Z.quot (s_samples_per_frame s * 1000000) (s_audio_sample_rate s) else 20000 in
  let n := Z.quot v_duration_us audio_frame_us in
  let n := if n <? 1 then 1 else n in
  if n >? count then count else n.

Definition open_clip_with_prebuffer (c : rmr_config) (s : source) (open_ok : bool) (now_us : Z) (k : clips) : option clips :=
  match open_clip c s open_ok now_us k with
  | None => None
  | Some k =>
      let max_age_us := (c_prebuffer_sec c + 1) * 1000000 in
      match s_video_pb s with
      | None => Some k
      | Some vpb =>
          let vstart := rmr_prebuf_find_keyframe vpb max_age_us in
          if vstart =? Prebuf.UINT32_MAX then Some k else
          let v_duration_us := rmr_prebuf_timestamp vpb (rmr_prebuf_newest vpb) - rmr_prebuf_timestamp vpb vstart in
          let k := snd (snd (rmr_prebuf_iterate (replay_video_frame c) vpb vstart (0, k))) in
          match s_audio_pb s with
          | Some apb =>
              if (pb_count apb >? 0) && (v_duration_us >? 0) then
                let n := audio_frame_count s v_duration_us (pb_count apb) in
                Some (snd (snd (rmr_prebuf_iterate (replay_audio_frame s n) apb (u32 (pb_write_idx apb - n)) (0, k))))
              else Some k
          | None => Some k
          end
      end
  end.

Definition clip_handling (c : rmr_config) (s : source) (t : tick) (clip_want : bool) (v : vframe) (audio : list aframe)
    (k : clips) : clips :=
  let k :=
    match kp_mux k with
    | None =>
        if clip_want && k_clip_available t then
          match open_clip_with_prebuffer c s (k_clip_open t) (k_clip_us t) k with Some k => k | None => k end
        else k
    | Some _ => k
    end in
  let k :=
    match kp_mux k with
    | Some _ =>
        let k := fold_left (fun k a => clip_write_audio s a k) audio (clip_write_video c v k) in
        if (c_clip_length_sec c >? 0) && (k_now_us t - kp_start_us k >=? c_clip_length_sec c * 1000000) then
          let k := close_clip c k in
          if clip_want then match open_clip c s (k_cont_open t) (k_cont_us t) k with Some k => k | None => k end else k
        else k
    | None => k
    end in
  if negb clip_want then close_clip c k else k.

(** ** Timelapse files *)

Definition close_timelapse (c : rmr_config) (t : timelapse) : timelapse :=
  let t := match tp_mux t with
           | Some f => t <| tp_closed := tp_closed t ++ [close_file c f] |> <| tp_mux := None |>
           | None => t
           end in
  t <| tp_tl := (tp_tl t) <| tl_file_day := 0 |> |>.

Definition open_timelapse (c : rmr_config) (s : source) (open_ok : bool) (day : Z) (t : timelapse) : option timelapse :=
  if negb open_ok then None else
  Some (t <| tp_mux := Some (open_file c (setup_mux_video_track_dur s (90000 / tl_playback_fps (tp_tl t))) None) |>
          <| tp_tl := rmr_tl_file_opened day (tp_tl t) |>).

Definition timelapse_write_sample (c : rmr_config) (s : source) (k : tick) (data : list Z) (t : timelapse) : timelapse :=
  let '(go, t) :=
    if rmr_tl_needs_rotate (tp_tl t) (k_day k) then
      let t := close_timelapse c t in
      match open_timelapse c s (k_tl_open k) (k_day k) t with Some t => (true, t) | None => (false, t) end
    else (true, t) in
  if negb go then t else
  match tp_mux t with
  | None => t
  | Some f =>
      let f := flush_file c f in
      let '(dts, tl) := rmr_tl_sample_dts90 (tp_tl t) in
      let t := t <| tp_tl := tl |> <| tp_mux := Some (calls [Mc_video (mk_rmr_video_sample data dts dts true)] f) |> in
      if k_tl_write_ok k then t <| tp_frames_total := tp_frames_total t + 1 |> else t
  end.

(** The sampling at the end of an iteration: whether a keyframe was requested. *)
Definition timelapse_sampling (c : rmr_config) (s : source) (k : tick) (seq : Z) (v : vframe) (t : timelapse)
    : bool * timelapse :=
  if negb (tp_enabled t && (cp_ready (s_params s) || (s_video_codec s =? 2))) then (false, t) else
  let was_armed := tl_want_sample (tp_tl t) in
  let t := t <| tp_tl := rmr_tl_tick (k_tl_us k) (tp_tl t) |> in
  let ask := negb was_armed && tl_want_sample (tp_tl t) && negb (s_video_codec s =? 2) in
  if vf_key v || (s_video_codec s =? 2) then
    let '(take, tl) := rmr_tl_take seq (tp_tl t) in
    let t := t <| tp_tl := tl |> in
    (ask, if take then timelapse_write_sample c s k (vf_data v) t else t)
  else (ask, t).

(** ** The control socket *)

Definition request_idr (s : source) : source := s <| s_idr_requests := s_idr_requests s + 1 |>.

(** rmr_ctrl_handler, its commands that change state. *)
Definition rmr_ctrl_handler (c : rmr_config) (cmd : rmr_cmd) (st : rmr_state) : rmr_state :=
  match cmd with
  | Cmd_enable =>
      let st := st <| r_recording := true |> in
      if c_mode c =? RMR_MODE_BOTH then st <| r_clip_recording := true |> else st
  | Cmd_disable => st <| r_recording := false |> <| r_clip_recording := false |>
  | Cmd_start =>
      let st := if c_mode c =? RMR_MODE_MOTION then st <| r_recording := true |> else st in
      if c_mode c =? RMR_MODE_BOTH then st <| r_clip_recording := true |> else st
  | Cmd_stop =>
      let st := if c_mode c =? RMR_MODE_MOTION then st <| r_recording := false |> else st in
      if c_mode c =? RMR_MODE_BOTH then st <| r_clip_recording := false |> else st
  | Cmd_tl_enable => st <| r_tl := (r_tl st) <| tp_enabled := true |> |>
  | Cmd_tl_disable =>
      let t := (r_tl st) <| tp_enabled := false |> in
      st <| r_tl := match tp_mux t with Some _ => close_timelapse c t | None => t end |>
  | Cmd_tl_snap =>
      if negb (tp_enabled (r_tl st)) then st else
      let s := r_source st in
      st <| r_tl := (r_tl st) <| tp_tl := rmr_tl_force (tp_tl (r_tl st)) |> |>
         <| r_source := if s_video_ring s && negb (s_video_codec s =? 2) then request_idr s else s |>
  | Cmd_tl_interval val => st <| r_tl := (r_tl st) <| tp_tl := rmr_tl_set_interval val (tp_tl (r_tl st)) |> |>
  | Cmd_tl_fps val =>
      let '(changed, tl) := rmr_tl_set_playback_fps val (tp_tl (r_tl st)) in
      let t := (r_tl st) <| tp_tl := tl |> in
      st <| r_tl := match tp_mux t with Some _ => if changed then close_timelapse c t else t | None => t end |>
  end.

(** ** The rings *)

Definition bps_of (codec : Z) : Z := if (codec =? RMR_AUDIO_PCMU) || (codec =? RMR_AUDIO_PCMA) then 1 else 2.

Definition samples_per_frame_of (codec rate width : Z) : Z :=
  if codec =? RMR_AUDIO_AAC then if negb (width =? 0) then width else 1024
  else if codec =? RMR_AUDIO_OPUS then rate / 50 else 0.

(** The lazy attach of the audio ring. *)
Definition attach_audio (c : rmr_config) (k : tick) (s : source) : source :=
  if negb (c_audio_enabled c && negb (s_audio_ring s)) then s else
  let s := s <| s_audio_retry := s_audio_retry s + 1 |> in
  if negb (s_audio_retry s >=? 50) then s else
  let s := s <| s_audio_retry := 0 |> in
  match k_audio_open k with
  | None => s
  | Some h =>
      s <| s_audio_ring := true |> <| s_audio_codec := ah_codec h |> <| s_audio_sample_rate := ah_rate h |>
        <| s_audio_bps := bps_of (ah_codec h) |> <| s_audio_aot := ah_profile h |>
        <| s_samples_per_frame := samples_per_frame_of (ah_codec h) (ah_rate h) (ah_width h) |>
  end.

(** The loop's work while no destination is writable. *)
Definition enter_standby (c : rmr_config) (k : tick) (st : rmr_state) : rmr_state :=
  if s_standby (r_source st) then st else
  let g := r_segments st in
  st <| r_segments := match cs_mux g with Some _ => (close_segment c g) <| cs_was_recording := false |> | None => g end |>
     <| r_recording := if k_enospc k then false else r_recording st |>
     <| r_clips := close_clip c (r_clips st) |>
     <| r_source := (r_source st) <| s_standby := true |> <| s_video_ring := false |> <| s_audio_ring := false |> |>.

Section loop.
(** The room rss_sei_build_timestamp may need (raptor-common). *)
Context (RSS_SEI_TS_MAX : Z).

(** The reconnect of the video ring: the ring's parameters start over, and so
    does the timelapse file. *)
Definition reconnect_video (c : rmr_config) (k : tick) (st : rmr_state) : rmr_state :=
  match k_video_open k with
  | None => st
  | Some h =>
      let s := r_source st in
      if (vh_max_frame h >? s_frame_buf_size s) && negb (vh_alloc_ok h) then st else
      let s := if vh_max_frame h >? s_frame_buf_size s
               then s <| s_frame_buf_size := vh_max_frame h |> <| s_avcc_buf_size := vh_max_frame h + RSS_SEI_TS_MAX |>
               else s in
      let s := s <| s_video_ring := true |> <| s_video_codec := vh_codec h |>
                 <| s_params := (s_params s) <| cp_ready := false |> |> <| s_video_idle := 0 |> <| s_last_video_ws := 0 |> in
      let t := match tp_mux (r_tl st) with Some _ => close_timelapse c (r_tl st) | None => r_tl st end in
      st <| r_source := s |> <| r_tl := t <| tp_tl := rmr_tl_ring_reset (tp_tl t) |> |>
  end.

(** The frame as the muxer takes it: [None] when the iteration ends here. *)
Definition prepare_frame (sei data : list Z) (is_key : bool) (s : source) : source * option (list Z) :=
  if s_video_codec s =? 2 then (s <| s_params := (s_params s) <| cp_ready := true |> |>, Some data) else
  let s := if is_key && negb (cp_ready (s_params s))
           then s <| s_params := rmr_extract_params data (s_video_codec s) (s_params s) |> else s in
  if negb (cp_ready (s_params s)) then (s, None) else
  match rmr_annexb_to_avcc data (s_avcc_buf_size s - Z.of_nat (length sei)) (s_video_codec s) with
  | None => (s, None)
  | Some avcc =>
      let avcc_len := Z.of_nat (length avcc) in
      if avcc_len <=? 0 then (s, None) else
      if (avcc_len >=? 5) && (be_val (take 4 avcc) >? avcc_len - 4) then (s, None) else (s, Some (sei ++ avcc))
  end.

Definition push_opt (data : list Z) (ts : Z) (is_key : bool) (pb : option rmr_prebuf) : option rmr_prebuf :=
  rmr_prebuf_push data ts is_key <$> pb.

(** The audio read: up to four frames, each into the pre-buffer, and the idle
    check. *)
Definition read_audio (k : tick) (s : source) : source * list aframe :=
  if negb (s_audio_ring s) then (s, []) else
  let frames := take 4 (k_audio k) in
  let s := s <| s_audio_pb := fold_left (fun pb a => push_opt (fst a) (snd a) false pb) frames (s_audio_pb s) |>
             <| s_audio_idle := if (0 <? length frames)%nat then 0 else s_audio_idle s |> in
  let s := s <| s_audio_idle := if k_audio_ws k =? s_last_audio_ws s then s_audio_idle s + 1 else 0 |>
             <| s_last_audio_ws := k_audio_ws k |> in
  ((if s_audio_idle s >=? 100 then s <| s_audio_ring := false |> <| s_audio_idle := 0 |> else s),
   (fun a => mk_aframe (fst a) (samples_of s (Z.of_nat (length (fst a)))) (snd a)) <$> frames).

(** ** The iteration *)

(** From a prepared frame on. *)
Definition record_frame (c : rmr_config) (k : tick) (seq : Z) (v : vframe) (st : rmr_state) : rmr_state :=
  let s := r_source st in
  let s := s <| s_video_pb := push_opt (vf_data v) (vf_ts v) (vf_key v) (s_video_pb s) |> in
  let '(s, audio) := read_audio k s in
  let '(ask, g) := continuous c s k (r_recording st) v audio (r_segments st) in
  let s := if ask then request_idr s else s in
  let recording := if k_enospc k then false else r_recording st in
  let clip_want := if c_mode c =? RMR_MODE_BOTH then r_clip_recording st else recording in
  let kp := if (c_mode c =? RMR_MODE_MOTION) || (c_mode c =? RMR_MODE_BOTH)
            then clip_handling c s k clip_want v audio (r_clips st) else r_clips st in
  let '(ask, t) := timelapse_sampling c s k seq v (r_tl st) in
  let s := if ask then request_idr s else s in
  mk_rmr_state recording (r_clip_recording st) s g kp t.

Definition drop_frame (st : rmr_state) : rmr_state :=
  st <| r_segments := (r_segments st) <| cs_frames_dropped := cs_frames_dropped (r_segments st) + 1 |> |>.

Definition record_iteration (c : rmr_config) (k : tick) (st : rmr_state) : rmr_state :=
  let st := match k_cmd k with Some cmd => rmr_ctrl_handler c cmd st | None => st end in
  if negb (k_have_dest k) then enter_standby c k st else
  let st := st <| r_source := attach_audio c k ((r_source st) <| s_standby := false |>) |> in
  let s := r_source st in
  if negb (s_video_ring s) then reconnect_video c k st else
  match k_video k with
  | Rd_overflow => drop_frame (st <| r_source := (request_idr s) <| s_v_wait_key := true |> |>)
  | Rd_again ws =>
      let s := s <| s_video_idle := if ws =? s_last_video_ws s then s_video_idle s + 1 else 0 |> <| s_last_video_ws := ws |> in
      st <| r_source := if s_video_idle s >=? 50 then s <| s_video_ring := false |> <| s_video_idle := 0 |> else s |>
  | Rd_error => st
  | Rd_frame data ts is_key seq =>
      let s := s <| s_video_idle := 0 |> in
      if s_v_wait_key s && negb is_key then drop_frame (st <| r_source := s |>) else
      let s := s <| s_v_wait_key := false |> in
      let '(s, prepared) := prepare_frame (k_sei k) data is_key s in
      let st := st <| r_source := s |> in
      match prepared with
      | None => st
      | Some mux_data => record_frame c k seq (mk_vframe mux_data ts is_key) st
      end
  end.

(** record_loop, while the daemon runs and then its shutdown. *)
Definition record_run (c : rmr_config) (ks : list tick) (st : rmr_state) : rmr_state :=
  fold_left (fun st k => record_iteration c k st) ks st.

Definition record_loop (c : rmr_config) (ks : list tick) (st : rmr_state) : rmr_state :=
  let st := record_run c ks st in
  st <| r_segments := close_segment c (r_segments st) |> <| r_clips := close_clip c (r_clips st) |>.
End loop.

(** ** The start *)

Definition next_pow2 (n : Z) : Z :=
  if n =? 0 then 1 else
  let n := u32 (n - 1) in
  let n := Z.lor n (Z.shiftr n 1) in
  let n := Z.lor n (Z.shiftr n 2) in
  let n := Z.lor n (Z.shiftr n 4) in
  let n := Z.lor n (Z.shiftr n 8) in
  let n := Z.lor n (Z.shiftr n 16) in
  u32 (n + 1).

(** What the configuration and the rings say. *)
Record start_env := mk_start_env {
  e_rec_enabled : bool; e_tl_enabled : bool; e_tl_interval : Z; e_tl_fps : Z; e_tl_file_frames : Z;
  e_mode : string; e_prebuffer_sec : Z; e_clip_length_sec : Z; e_sign : bool; e_audio : bool; e_bitrate : Z;
  e_path : string; e_segment_minutes : Z; e_segment_seconds : Z; e_max_storage_mb : Z;
  e_codec : Z; e_width : Z; e_height : Z; e_fps_num : Z; e_max_frame : Z; e_audio_hdr : option audio_hdr;
  e_alloc_ok : bool; e_malloc : Z -> list Z
}.

Definition mode_of (mode_str : string) : Z :=
  if String.eqb mode_str "motion" then RMR_MODE_MOTION
  else if String.eqb mode_str "both" then RMR_MODE_BOTH else RMR_MODE_CONTINUOUS.

Definition clamp_prebuffer (n : Z) : Z := let n := if n <? 0 then 0 else n in if n >? 5 then 5 else n.

Definition video_pb_slots (fps_num prebuffer_sec : Z) : Z :=
  let fps := if fps_num >? 0 then fps_num else 25 in next_pow2 (u32 (u32 (fps * prebuffer_sec) + fps)).

Definition video_pb_bytes (bps prebuffer_sec : Z) : Z :=
  let v_data := u64 (u32 bps * prebuffer_sec * 5) / 2 / 8 in
  let v_data := if v_data <? 1024 * 1024 then 1024 * 1024 else v_data in
  if v_data >? 10 * 1024 * 1024 then 10 * 1024 * 1024 else v_data.

Definition audio_pb_slots (prebuffer_sec : Z) : Z := next_pow2 (50 * prebuffer_sec + 50).

Definition audio_pb_bytes (a_slots : Z) : Z :=
  let a_data := u32 (a_slots * 1024) in if a_data <? 128 * 1024 then 128 * 1024 else a_data.

(** The pre-buffers of the clip modes. *)
Definition prebuffers (e : start_env) (mode prebuffer_sec : Z) : option rmr_prebuf * option rmr_prebuf :=
  if (prebuffer_sec >? 0) && ((mode =? RMR_MODE_MOTION) || (mode =? RMR_MODE_BOTH)) then
    let v_data := video_pb_bytes (e_bitrate e) prebuffer_sec in
    let a_slots := audio_pb_slots prebuffer_sec in
    (rmr_prebuf_create (e_alloc_ok e) (e_malloc e v_data) (video_pb_slots (e_fps_num e) prebuffer_sec) v_data,
     if e_audio e then
       match e_audio_hdr e with
       | Some _ => rmr_prebuf_create (e_alloc_ok e) (e_malloc e (audio_pb_bytes a_slots)) a_slots (audio_pb_bytes a_slots)
       | None => None
       end
     else None)
  else (None, None).

(** main up to record_loop, with the video ring found and the buffers allocated:
    [None] when neither recording nor the timelapse is enabled. *)
Definition rmr_main_start (RSS_SEI_TS_MAX : Z) (e : start_env) : option (rmr_config * rmr_state) :=
  if negb (e_rec_enabled e) && negb (e_tl_enabled e) then None else
  let mode := mode_of (e_mode e) in
  let prebuffer_sec := clamp_prebuffer (e_prebuffer_sec e) in
  let storage := rmr_storage_create (e_path e) (e_segment_minutes e) (e_segment_seconds e) (e_max_storage_mb e) in
  let c := mk_rmr_config mode prebuffer_sec (e_clip_length_sec e) (e_sign e) (e_audio e) storage in
  let '(video_pb, audio_pb) := prebuffers e mode prebuffer_sec in
  let ah := if e_audio e then e_audio_hdr e else None in
  let '(ring, codec, rate, aot, width) :=
    match ah with Some h => (true, ah_codec h, ah_rate h, ah_profile h, ah_width h) | None => (false, 0, 0, 0, 0) end in
  let s := mk_source true (e_max_frame e) (e_max_frame e + RSS_SEI_TS_MAX) (e_codec e) (e_width e) (e_height e)
             (mk_rmr_codec_params [] [] [] false) ring codec rate aot (samples_per_frame_of codec rate width) (bps_of codec)
             0 0 0 0 0 false false video_pb audio_pb 0 in
  Some (c, mk_rmr_state (e_rec_enabled e && negb (mode =? RMR_MODE_MOTION)) false s
             (mk_segments None 0 0 false 0 0 0 (-1) 0 (-1) false [] 0) (mk_clips None 0 0 0 0 [])
             (mk_timelapse (e_tl_enabled e) (rmr_tl_init (e_tl_interval e) (e_tl_fps e) (e_tl_file_frames e)) None 0 [])).
