(* ===== verification/RmrRecordProps.v ===== *)
(** * rmr: what the recording loop writes

    Every segment starts on a keyframe at time zero and is cut into fragments of
    at most ten frames; its samples are consecutive frames of the stream, or
    start again on a keyframe; and a rotation loses none. *)

From stdpp Require Import list strings.
From S2P Require Import Prelude Mux Nal Prebuf Timelapse RmrStorage RmrRecord.

(** ** The shape of a segment *)

(** What one frame adds to a file: a flush before it, the sample, its audio. *)
Record unit_of := mk_unit_of { u_flush : bool; u_video : rmr_video_sample; u_audio : list rmr_audio_sample }.

Definition header_calls (c : rmr_config) : list mux_call := begin c ++ [Mc_start] ++ emit c false.
Definition flush_calls (c : rmr_config) : list mux_call := Mc_flush :: emit c false.

Definition unit_calls (c : rmr_config) (u : unit_of) : list mux_call :=
  (if u_flush u then flush_calls c else []) ++ [Mc_video (u_video u)] ++ (Mc_audio <$> u_audio u).

Definition units_calls (c : rmr_config) (us : list unit_of) : list mux_call := concat (unit_calls c <$> us).

(** A segment with [n] frames in its last fragment: it starts with a keyframe at
    decode time zero, every later keyframe starts a fragment, and no fragment has
    more than ten frames. *)
Inductive segment_of : Z -> list unit_of -> Prop :=
| seg_first u : u_flush u = false -> vs_is_key (u_video u) = true -> vs_dts (u_video u) = 0 -> (length (u_audio u) <= 4)%nat ->
    segment_of 1 [u]
| seg_fragment n us u : segment_of n us -> u_flush u = true -> (length (u_audio u) <= 4)%nat -> segment_of 1 (us ++ [u])
| seg_frame n us u : segment_of n us -> u_flush u = false -> vs_is_key (u_video u) = false -> n < 10 ->
    (length (u_audio u) <= 4)%nat -> segment_of (n + 1) (us ++ [u]).

(** The calls of a segment that is open, and of one that was closed. *)
Definition open_shape (c : rmr_config) (n : Z) (cs : list mux_call) : Prop :=
  exists us, segment_of n us /\ cs = header_calls c ++ units_calls c us.

Definition closed_shape (c : rmr_config) (cs : list mux_call) : Prop :=
  exists n us fl, segment_of n us /\
    cs = header_calls c ++ units_calls c us ++ (if (fl : bool) then flush_calls c else []) ++ Mc_finalize :: emit c true.

Record seg_inv (c : rmr_config) (g : segments) : Prop := {
  si_since : 0 <= cs_frames_since_flush g <= 9;
  si_open : forall f, cs_mux g = Some f -> exists n, n <= cs_frames_since_flush g + 1 /\ open_shape c n (mf_calls f);
  si_closed : Forall (fun f => closed_shape c (mf_calls f)) (cs_closed g)
}.

(** ** Writing *)

Lemma units_calls_snoc c us u : units_calls c (us ++ [u]) = units_calls c us ++ unit_calls c u.
Proof. unfold units_calls. rewrite fmap_app, concat_app. cbn. by rewrite app_nil_r. Qed.

Lemma fold_write_audio rate audio d b f : exists d' b' l,
  fold_left (fun w a => write_audio rate a w) audio (d, b, f) = (d', b', calls (Mc_audio <$> l) f) /\ as_data <$> l = af_data <$> audio.
Proof.
  revert d b f. induction audio as [|a audio IH]; intros d b f.
  - exists d, b, []. split; [|done]. cbn [fold_left fmap list_fmap]. unfold calls. destruct f; cbn. by rewrite app_nil_r.
  - cbn [fold_left]. unfold write_audio at 2. destruct (steer_audio_dts _ _ _ _ _) as [d1 b1].
    destruct (IH (d1 + af_samples a) b1 (calls [Mc_audio (mk_rmr_audio_sample (af_data a) d1)] f)) as (d' & b' & l & E & Hl).
    exists d', b', (mk_rmr_audio_sample (af_data a) d1 :: l). rewrite E. split; [|by cbn; rewrite Hl].
    unfold calls. cbn [mf_video mf_sets mf_audio mf_calls fmap list_fmap]. by rewrite <- app_assoc.
Qed.

(** The sample written and its time. *)
Definition base_for (v : vframe) (base : Z) : Z := if base <? 0 then vf_ts v else base.
Definition sample_for (v : vframe) (base : Z) : rmr_video_sample :=
  mk_rmr_video_sample (vf_data v) (v_dts (vf_ts v) (base_for v base)) (v_dts (vf_ts v) (base_for v base)) (vf_key v).

Definition same_segments (g g' : segments) : Prop :=
  cs_closed g = cs_closed g' /\ cs_frames_since_flush g = cs_frames_since_flush g' /\
  cs_was_recording g = cs_was_recording g' /\ cs_start_rt_us g = cs_start_rt_us g'.

Lemma write_samples_spec s ok v audio f g : exists l, as_data <$> l = af_data <$> audio /\
  let g' := write_samples s ok v audio f g in
  cs_mux g' = Some (calls (Mc_video (sample_for v (cs_v_ts_base g)) :: (Mc_audio <$> l)) f) /\
  cs_closed g' = cs_closed g /\ cs_frames_since_flush g' = cs_frames_since_flush g /\
  cs_was_recording g' = cs_was_recording g /\ cs_v_ts_base g' = base_for v (cs_v_ts_base g) /\
  cs_start_rt_us g' = cs_start_rt_us g.
Proof.
  unfold write_samples, sample_for, video_call. set (g1 := if cs_v_ts_base g <? 0 then _ else g).
  assert (F1 : cs_v_ts_base g1 = base_for v (cs_v_ts_base g)) by (unfold g1, base_for; by destruct (_ <? 0)).
  assert (S1 : same_segments g g1) by (unfold g1; by destruct (_ <? 0)). rewrite F1. clearbody g1.
  set (g2 := if ok then _ else _). assert (S2 : same_segments g1 g2) by (unfold g2; by destruct ok).
  assert (F2 : cs_v_ts_base g2 = cs_v_ts_base g1) by (unfold g2; by destruct ok). clearbody g2.
  match goal with |- context [fold_left _ audio (?d, ?b, ?f0)] =>
    destruct (fold_write_audio (s_audio_sample_rate s) audio d b f0) as (d' & b' & l & E & Hl) end.
  exists l. split; [exact Hl|]. rewrite E. cbv zeta. set (g3 := set_field cs_mux _ _).
  assert (S3 : same_segments g2 g3) by done. assert (F3 : cs_v_ts_base g3 = cs_v_ts_base g2) by done.
  split; [unfold g3, calls; cbn; by rewrite <- app_assoc|]. clearbody g3.
  destruct S1 as (-> & -> & -> & ->), S2 as (-> & -> & -> & ->), S3 as (-> & -> & -> & ->). by rewrite F3, F2, F1.
Qed.

(** ** The steps keep the shape *)

Lemma close_segment_inv c g : seg_inv c g -> seg_inv c (close_segment c g).
Proof.
  intros Hi. pose proof Hi as [H1 H2 H3]. unfold close_segment. destruct (cs_mux g) as [f|] eqn:E; [|exact Hi].
  split; [exact H1|done|]. cbn. apply Forall_app. split; [done|]. apply Forall_singleton.
  destruct (H2 f eq_refl) as (n & _ & us & Hs & Hc). exists n, us, false. split; [done|]. cbn. by rewrite Hc, <- app_assoc.
Qed.

(** The counters the shape does not mention. *)
Lemma seg_inv_ext c g g' : cs_mux g' = cs_mux g -> cs_closed g' = cs_closed g ->
  cs_frames_since_flush g' = cs_frames_since_flush g -> seg_inv c g -> seg_inv c g'.
Proof. intros E1 E2 E3 [H1 H2 H3]. split; [by rewrite E3|intros f; rewrite E1, E3; apply H2|by rewrite E2]. Qed.

Lemma stop_recording_inv c g : seg_inv c g -> seg_inv c (stop_recording c g).
Proof. intros H. by apply (seg_inv_ext c (close_segment c g)); [..|apply close_segment_inv]. Qed.

(** What is open after the flush and the rotation, before the frame is written. *)
Definition ready_for (c : rmr_config) (is_key : bool) (g : segments) : Prop :=
  0 <= cs_frames_since_flush g <= 9 /\ Forall (fun f => closed_shape c (mf_calls f)) (cs_closed g) /\
  forall f, cs_mux g = Some f -> exists us n, segment_of n us /\
    ((cs_frames_since_flush g = 0 /\ mf_calls f = header_calls c ++ units_calls c us ++ flush_calls c) \/
     (is_key = false /\ n <= cs_frames_since_flush g /\ mf_calls f = header_calls c ++ units_calls c us)).

Lemma flush_and_rotate_ready c now key g : seg_inv c g -> ready_for c key (flush_and_rotate c now key g).2.
Proof.
  intros [H1 H2 H3]. unfold flush_and_rotate. destruct (cs_mux g) as [f|] eqn:E.
  2: { split; [exact H1|]. split; [done|]. intros f Hf. cbn in Hf. congruence. }
  destruct (H2 f eq_refl) as (n & Hn & us & Hs & Hc). cbn [snd]. set (ask := _ && _ : bool). clearbody ask.
  assert (Hfl : mf_calls (flush_file c f) = header_calls c ++ units_calls c us ++ flush_calls c)
    by (cbn; by rewrite Hc, <- app_assoc).
  destruct key.
  - destruct (rmr_storage_should_rotate_at _ _ _).
    + split; [destruct ask; cbn; lia|]. split; [|by destruct ask]. destruct ask; cbn; (apply Forall_app; split; [done|]);
        apply Forall_singleton; exists n, us, true; (split; [done|]); cbn; by rewrite Hc, <- !app_assoc.
    + split; [destruct ask; cbn; lia|]. split; [by destruct ask|]. intros f' Hf'.
      destruct ask; cbn in Hf'; injection Hf' as <-; exists us, n; (split; [done|]); left; done.
  - replace (cs_frames_since_flush (if ask then _ else _)) with (cs_frames_since_flush g + 1) by (by destruct ask).
    destruct (Z.geb_spec (cs_frames_since_flush g + 1) 10).
    + split; [destruct ask; cbn; lia|]. split; [by destruct ask|]. intros f' Hf'.
      destruct ask; cbn in Hf'; injection Hf' as <-; exists us, n; (split; [done|]); left; done.
    + split; [destruct ask; cbn; lia|]. split; [by destruct ask|]. intros f' Hf'. exists us, n. split; [done|]. right.
      split; [done|]. destruct ask; cbn in Hf' |- *; replace f' with f by congruence; done.
Qed.

(** A written frame extends the segment by one unit. *)
Lemma write_samples_inv c s ok v audio f g : ready_for c (vf_key v) g -> cs_mux g = Some f -> (length audio <= 4)%nat ->
  seg_inv c (write_samples s ok v audio f g).
Proof.
  intros (H1 & H3 & Ho) Hf Hl. destruct (write_samples_spec s ok v audio f g) as (l & Hld & E1 & E2 & E3 & _).
  assert (Hll : (length l <= 4)%nat) by (apply (f_equal length) in Hld; rewrite !length_fmap in Hld; lia).
  split; rewrite ?E2, ?E3; [done| |done]. intros f' Hf'. rewrite E1 in Hf'. injection Hf' as <-. cbn [calls mf_calls].
  destruct (Ho f Hf) as (us & n & Hs & [[Hz Hc]|(Hk & Hn & Hc)]); rewrite Hc.
  - exists 1. split; [lia|]. exists (us ++ [mk_unit_of true (sample_for v (cs_v_ts_base g)) l]).
    split; [by eapply seg_fragment|]. rewrite units_calls_snoc. unfold unit_calls. cbn [u_flush u_video u_audio].
    by rewrite <- !app_assoc.
  - exists (n + 1). split; [lia|]. exists (us ++ [mk_unit_of false (sample_for v (cs_v_ts_base g)) l]).
    split; [apply seg_frame; try done; cbn; lia|]. rewrite units_calls_snoc. unfold unit_calls.
    cbn [u_flush u_video u_audio]. by rewrite <- !app_assoc.
Qed.

(** The first frame of a segment. *)
Lemma first_samples_inv c s ok v audio g : 0 <= cs_frames_since_flush g <= 9 ->
  Forall (fun f => closed_shape c (mf_calls f)) (cs_closed g) -> cs_v_ts_base g < 0 -> vf_key v = true ->
  (length audio <= 4)%nat ->
  forall f, mf_calls f = header_calls c -> seg_inv c (write_samples s ok v audio f g).
Proof.
  intros H1 H3 Hb Hk Hl f Hf. destruct (write_samples_spec s ok v audio f g) as (l & Hld & E1 & E2 & E3 & _).
  assert (Hll : (length l <= 4)%nat) by (apply (f_equal length) in Hld; rewrite !length_fmap in Hld; lia).
  split; rewrite ?E2, ?E3; [done| |done]. intros f' Hf'. rewrite E1 in Hf'. injection Hf' as <-. cbn [calls mf_calls]. rewrite Hf.
  exists 1. split; [lia|]. exists [mk_unit_of false (sample_for v (cs_v_ts_base g)) l].
  split; [|unfold units_calls, unit_calls; cbn; by rewrite app_nil_r].
  apply seg_first; cbn; try done. unfold base_for. rewrite (proj2 (Z.ltb_lt _ _)) by done. unfold v_dts. by rewrite Z.sub_diag.
Qed.

Lemma continuous_inv c s k rec v audio g : (length audio <= 4)%nat -> seg_inv c g ->
  seg_inv c (continuous c s k rec v audio g).2.
Proof.
  intros Hl Hi. unfold continuous.
  set (g1 := if cs_was_recording g && negb rec then stop_recording c g else g).
  assert (Hi1 : seg_inv c g1) by (unfold g1; destruct (_ && _); [by apply stop_recording_inv|done]). clearbody g1.
  destruct (negb rec); [done|]. destruct (negb (k_seg_available k)); [done|].
  pose proof (flush_and_rotate_ready c (k_now_rt_us k) (vf_key v) g1 Hi1) as Hr.
  destruct (flush_and_rotate c (k_now_rt_us k) (vf_key v) g1) as [ask g2]. cbn [snd] in Hr.
  destruct (cs_mux g2) as [f|] eqn:E2; [by apply write_samples_inv|].
  assert (Hg2 : seg_inv c g2) by (destruct Hr as (R1 & R2 & _); split; [done|congruence|done]).
  destruct (vf_key v) eqn:Hk; cbn [negb]; [|done]. destruct (negb (k_seg_open k)); [done|].
  destruct Hr as (R1 & R2 & _). match goal with |- context [cs_mux ?x] => set (g3 := x) end.
  assert (H1 : cs_frames_since_flush g3 = cs_frames_since_flush g2) by reflexivity.
  assert (H2 : cs_closed g3 = cs_closed g2) by reflexivity. assert (H3 : cs_v_ts_base g3 = -1) by reflexivity.
  assert (H4 : exists f, cs_mux g3 = Some f /\ mf_calls f = header_calls c) by (eexists; split; reflexivity).
  clearbody g3. destruct H4 as (f & H4 & H5). rewrite H4. cbn [snd].
  apply first_samples_inv; rewrite ?H1, ?H2, ?H3; done.
Qed.

(** ** Iterations *)

Lemma read_audio_four k s : (length (read_audio k s).2 <= 4)%nat.
Proof. unfold read_audio. destruct (negb _); cbn [snd length]; [lia|]. rewrite length_fmap, length_take. lia. Qed.

Lemma record_frame_segments c k seq v st :
  let p := read_audio k ((r_source st) <| s_video_pb := push_opt (vf_data v) (vf_ts v) (vf_key v) (s_video_pb (r_source st)) |>) in
  r_segments (record_frame c k seq v st) = (continuous c p.1 k (r_recording st) v p.2 (r_segments st)).2.
Proof.
  cbv zeta. unfold record_frame. destruct (read_audio k _) as [s audio]. cbn [fst snd].
  destruct (continuous c s k _ v audio _) as [ask g]. by destruct (timelapse_sampling _ _ _ _ _ _).
Qed.

Lemma ctrl_segments c cmd st : r_segments (rmr_ctrl_handler c cmd st) = r_segments st.
Proof.
  destruct cmd; unfold rmr_ctrl_handler; try done; try (by repeat case_match).
Qed.

Lemma enter_standby_inv c k st : seg_inv c (r_segments st) -> seg_inv c (r_segments (enter_standby c k st)).
Proof.
  intros H. unfold enter_standby. destruct (s_standby _); [done|]. cbn [r_segments set_field].
  destruct (cs_mux (r_segments st)); [|done]. by apply (seg_inv_ext c (close_segment c (r_segments st))); [..|apply close_segment_inv].
Qed.

Section runs.
Context (RSS_SEI_TS_MAX : Z).
Abbreviation record_iteration := (record_iteration RSS_SEI_TS_MAX).
Abbreviation record_run := (record_run RSS_SEI_TS_MAX).

Lemma iteration_inv c k st : seg_inv c (r_segments st) -> seg_inv c (r_segments (record_iteration c k st)).
Proof.
  intros H. unfold RmrRecord.record_iteration.
  set (st1 := match k_cmd k with Some cmd => _ | None => st end).
  assert (E1 : r_segments st1 = r_segments st) by (unfold st1; destruct (k_cmd k); [apply ctrl_segments|done]).
  rewrite <- E1 in H. clearbody st1. clear E1. destruct (negb (k_have_dest k)); [by apply enter_standby_inv|].
  set (st2 := set_field r_source _ st1). assert (E2 : r_segments st2 = r_segments st1) by done. rewrite <- E2 in H.
  clearbody st2. clear E2. destruct (negb (s_video_ring _)).
  { unfold reconnect_video. destruct (k_video_open k); [|done]. by destruct (_ && _). }
  destruct (k_video k) as [data ts key seq| |ws|]; [|by apply (seg_inv_ext c (r_segments st2))|done|done].
  destruct (_ && negb key); [by apply (seg_inv_ext c (r_segments st2))|].
  destruct (prepare_frame _ _ _ _) as [s [d|]]; [|done]. rewrite record_frame_segments.
  apply continuous_inv; [apply read_audio_four|done].
Qed.

Lemma run_inv c ks st : seg_inv c (r_segments st) -> seg_inv c (r_segments (record_run c ks st)).
Proof. revert st. induction ks as [|k ks IH]; intros st H; [done|]. apply IH, iteration_inv, H. Qed.

(** Nothing is open at the start. *)
Lemma start_empty e c st : rmr_main_start RSS_SEI_TS_MAX e = Some (c, st) ->
  cs_mux (r_segments st) = None /\ cs_closed (r_segments st) = [] /\ cs_frames_since_flush (r_segments st) = 0 /\
  s_standby (r_source st) = false.
Proof.
  unfold rmr_main_start. destruct (_ && _); [done|]. destruct (prebuffers e _ _) as [vpb apb].
  destruct (match (if e_audio e then e_audio_hdr e else None) with Some h => _ | None => _ end) as [[[[? ?] ?] ?] ?].
  intros E. by injection E as _ <-.
Qed.

Lemma start_inv e c st : rmr_main_start RSS_SEI_TS_MAX e = Some (c, st) -> seg_inv c (r_segments st).
Proof. intros H. destruct (start_empty e c st H) as (E1 & E2 & E3 & _). split; [lia|congruence|by rewrite E2]. Qed.


(** ** Nothing is lost at a rotation *)

(** The frame an iteration hands to the recorders. *)
Definition frame_of (c : rmr_config) (k : tick) (st : rmr_state) : option vframe :=
  let st := match k_cmd k with Some cmd => rmr_ctrl_handler c cmd st | None => st end in
  if negb (k_have_dest k) then None else
  let s := attach_audio c k ((r_source st) <| s_standby := false |>) in
  if negb (s_video_ring s) then None else
  match k_video k with
  | Rd_frame data ts is_key _ =>
      let s := s <| s_video_idle := 0 |> in
      if s_v_wait_key s && negb is_key then None else
      (fun d => mk_vframe d ts is_key) <$> (prepare_frame (k_sei k) data is_key (s <| s_v_wait_key := false |>)).2
  | _ => None
  end.

Definition rec_after (c : rmr_config) (k : tick) (st : rmr_state) : bool :=
  r_recording (match k_cmd k with Some cmd => rmr_ctrl_handler c cmd st | None => st end).

(** What an iteration does to the segments when a destination is there. *)
Lemma iteration_frame c k st : k_have_dest k = true ->
  match frame_of c k st with
  | Some v => exists s audio, (length audio <= 4)%nat /\
      r_segments (record_iteration c k st) = (continuous c s k (rec_after c k st) v audio (r_segments st)).2
  | None => cs_mux (r_segments (record_iteration c k st)) = cs_mux (r_segments st) /\
      cs_closed (r_segments (record_iteration c k st)) = cs_closed (r_segments st)
  end /\
  (k_enospc k = false -> r_recording (record_iteration c k st) = rec_after c k st).
Proof.
  intros Hd. unfold frame_of, rec_after, RmrRecord.record_iteration. rewrite Hd. cbn [negb].
  set (st1 := match k_cmd k with Some cmd => _ | None => st end).
  assert (E1 : r_segments st1 = r_segments st) by (unfold st1; destruct (k_cmd k); [apply ctrl_segments|done]).
  rewrite <- E1. clearbody st1. clear E1 st. set (s1 := attach_audio c k _).
  set (st2 := set_field r_source _ st1). assert (E2 : r_segments st2 = r_segments st1) by done.
  assert (E3 : r_source st2 = s1) by done. assert (E4 : r_recording st2 = r_recording st1) by done.
  rewrite E3, <- E2, <- E4. clearbody st2 s1. clear E2 E4 st1. destruct (negb (s_video_ring s1)).
  { unfold reconnect_video. destruct (k_video_open k) as [h|]; [|done]. by destruct (_ && _). }
  destruct (k_video k) as [data ts key seq| |ws|]; [|done|done|done].
  set (s2 := set_field s_video_idle 0 s1). clearbody s2. destruct (s_v_wait_key s2 && negb key); [done|].
  destruct (prepare_frame _ _ _ _) as [s3 [d|]]; cbn [snd fmap option_fmap option_map]; [|done].
  rewrite record_frame_segments. split.
  - eexists _, _. split; [|reflexivity]. apply read_audio_four.
  - intros He. unfold record_frame. destruct (read_audio k _) as [s4 audio]. destruct (continuous _ _ _ _ _ _ _) as [ask g].
    destruct (timelapse_sampling _ _ _ _ _ _). cbn. by rewrite He.
Qed.

(** The video samples of a file, of all the segments. *)
Definition videos (f : mux_file) : list rmr_video_sample :=
  omap (fun m => match m with Mc_video s => Some s | _ => None end) (mf_calls f).

Definition all_videos (g : segments) : list rmr_video_sample :=
  concat (videos <$> cs_closed g) ++ match cs_mux g with Some f => videos f | None => [] end.

Definition as_frame (s : rmr_video_sample) : list Z * bool := (vs_data s, vs_is_key s).
Definition of_frame (v : vframe) : list Z * bool := (vf_data v, vf_key v).
Definition recorded (g : segments) : list (list Z * bool) := as_frame <$> all_videos g.
Definition is_open (g : segments) : bool := match cs_mux g with Some _ => true | None => false end.

Lemma videos_calls cs f :
  videos (calls cs f) = videos f ++ omap (fun m => match m with Mc_video s => Some s | _ => None end) cs.
Proof. unfold videos, calls. cbn. by rewrite omap_app. Qed.

Lemma omap_audio l : omap (fun m => match m with Mc_video s => Some s | _ => None end) (Mc_audio <$> l) = [].
Proof. by induction l. Qed.

Lemma videos_flush c f : videos (flush_file c f) = videos f.
Proof. unfold flush_file. rewrite videos_calls. unfold emit. destruct (c_sign_enabled c); cbn; by rewrite app_nil_r. Qed.

Lemma videos_close c f : videos (close_file c f) = videos f.
Proof. unfold close_file. rewrite videos_calls. unfold emit. destruct (c_sign_enabled c); cbn; by rewrite app_nil_r. Qed.

Lemma videos_open c tr a : videos (open_file c tr a) = [].
Proof. unfold open_file, videos, begin, emit. by destruct (c_sign_enabled c). Qed.

Lemma all_videos_close c g : all_videos (close_segment c g) = all_videos g.
Proof.
  unfold close_segment. destruct (cs_mux g) as [f|] eqn:E; [|done]. unfold all_videos. cbn [cs_mux cs_closed set_field]. rewrite E, fmap_app, concat_app.
  cbn [fmap list_fmap concat].
  by rewrite videos_close, !app_nil_r.
Qed.

Lemma flush_and_rotate_videos c now key g :
  all_videos (flush_and_rotate c now key g).2 = all_videos g /\
  (is_open (flush_and_rotate c now key g).2 = is_open g \/ key = true).
Proof.
  unfold flush_and_rotate. destruct (cs_mux g) as [f|] eqn:E; [|by split; [|left]]. cbn [snd].
  set (ask := _ && _ : bool). clearbody ask.
  set (g1 := if ask then _ else _). assert (E1 : cs_mux g1 = Some f /\ cs_closed g1 = cs_closed g) by (unfold g1; by destruct ask).
  clearbody g1. destruct E1 as [E1 E2].
  assert (Hg : all_videos g1 = all_videos g) by (unfold all_videos; by rewrite E1, E2, E).
  assert (Hf : forall h, all_videos (h <| cs_mux := Some (flush_file c f) |> <| cs_frames_since_flush := 0 |>) =
                    concat (videos <$> cs_closed h) ++ videos f) by (intros h; unfold all_videos; cbn [cs_mux cs_closed set_field]; by rewrite videos_flush).
  assert (Ho : is_open g = true) by (unfold is_open; by rewrite E). rewrite Ho, <- Hg.
  assert (Hg2 : concat (videos <$> cs_closed g1) ++ videos f = all_videos g1) by (unfold all_videos; by rewrite E1).
  destruct key.
  - split; [|by right]. destruct (rmr_storage_should_rotate_at _ _ _); [|by rewrite Hf].
    match goal with |- context [close_segment c ?h] => rewrite <- Hg2, <- (Hf g1), <- (all_videos_close c h) end. done.
  - destruct (_ >=? 10); [split; [by rewrite Hf|by left]|]. split; [done|left; unfold is_open; by rewrite E1].
Qed.

Lemma write_samples_videos s ok v audio f g : cs_mux g = Some f ->
  recorded (write_samples s ok v audio f g) = recorded g ++ [of_frame v] /\ is_open (write_samples s ok v audio f g) = true.
Proof.
  intros E. destruct (write_samples_spec s ok v audio f g) as (l & _ & E1 & E2 & _). unfold recorded, all_videos, is_open.
  rewrite E1, E2, E, videos_calls. cbn [omap list_omap]. rewrite omap_audio, app_assoc, fmap_app. done.
Qed.

(** One frame, with recording on and the storage there. *)
Lemma continuous_videos c s k v audio g : k_seg_available k = true -> k_seg_open k = true ->
  let g' := (continuous c s k true v audio g).2 in
  recorded g' = recorded g ++ (if is_open g || vf_key v then [of_frame v] else []) /\ is_open g' = is_open g || vf_key v.
Proof.
  intros Ha Ho. unfold continuous. rewrite andb_false_r, Ha. cbn [negb].
  destruct (flush_and_rotate_videos c (k_now_rt_us k) (vf_key v) g) as [Hv Hi].
  destruct (flush_and_rotate c (k_now_rt_us k) (vf_key v) g) as [ask g2]. cbn [snd] in Hv, Hi.
  assert (Hr : recorded g2 = recorded g) by (unfold recorded; by rewrite Hv).
  destruct (cs_mux g2) as [f|] eqn:E2; cbn [snd].
  - assert (H2 : is_open g2 = true) by (unfold is_open; by rewrite E2).
    assert (Hor : is_open g || vf_key v = true) by (destruct Hi as [Hi | ->]; [by rewrite <- Hi, H2|apply orb_true_r]).
    rewrite Hor. destruct (write_samples_videos s (k_write_ok k) v audio f g2 E2) as [-> ->]. by rewrite Hr.
  - assert (H2 : is_open g2 = false) by (unfold is_open; by rewrite E2). rewrite Ho. destruct (vf_key v); cbn [negb].
    + rewrite orb_true_r. match goal with |- context [cs_mux ?x] => set (g3 := x) end.
      assert (H4 : exists f, cs_mux g3 = Some f /\ videos f = []) by (eexists; split; [reflexivity|apply videos_open]).
      assert (H5 : cs_closed g3 = cs_closed g2) by done. clearbody g3. destruct H4 as (f & H4 & H6). rewrite H4. cbn [snd].
      destruct (write_samples_videos s (k_write_ok k) v audio f g3 H4) as [-> ->]. split; [|done]. f_equal. rewrite <- Hr.
      unfold recorded, all_videos. by rewrite H4, H5, H6, E2.
    + destruct Hi as [Hi|]; [|done]. rewrite orb_false_r, <- Hi, H2, app_nil_r. done.
Qed.

(** The frames handed over along a run. *)
Fixpoint frames_of (c : rmr_config) (ks : list tick) (st : rmr_state) : list vframe :=
  match ks with
  | [] => []
  | k :: ks => match frame_of c k st with Some v => [v] | None => [] end ++ frames_of c ks (record_iteration c k st)
  end.

Fixpoint from_key (vs : list vframe) : list vframe :=
  match vs with [] => [] | v :: vs => if vf_key v then v :: vs else from_key vs end.

(** Recording is on and stays on, and the storage takes what it is given. *)
Definition steady (k : tick) : Prop :=
  k_have_dest k = true /\ k_seg_available k = true /\ k_seg_open k = true /\ k_enospc k = false /\
  k_cmd k <> Some Cmd_disable /\ k_cmd k <> Some Cmd_stop.

Lemma rec_stays c k st : steady k -> r_recording st = true -> rec_after c k st = true.
Proof.
  intros (_ & _ & _ & _ & H1 & H2) Hr. unfold rec_after. destruct (k_cmd k) as [cmd|]; [|done].
  destruct cmd; try done; unfold rmr_ctrl_handler; repeat case_match; done.
Qed.

Lemma recorded_ext g g' : cs_mux g' = cs_mux g -> cs_closed g' = cs_closed g -> recorded g' = recorded g /\ is_open g' = is_open g.
Proof. intros E1 E2. unfold recorded, all_videos, is_open. by rewrite E1, E2. Qed.

Lemma run_videos c ks st : Forall steady ks -> r_recording st = true ->
  recorded (r_segments (record_run c ks st)) = recorded (r_segments st) ++
    (of_frame <$> (if is_open (r_segments st) then frames_of c ks st else from_key (frames_of c ks st))).
Proof.
  revert st. induction ks as [|k ks IH]; intros st Hs Hr.
  - cbn. destruct (is_open _); by rewrite app_nil_r.
  - apply Forall_cons in Hs as [Hk Hs]. change (record_run c (k :: ks) st) with (record_run c ks (record_iteration c k st)).
    pose proof (rec_stays c k st Hk Hr) as Ha. destruct Hk as (K1 & K2 & K3 & K4 & _).
    destruct (iteration_frame c k st K1) as [Hf Hrec]. rewrite Ha in Hrec. rewrite IH by auto. cbn [frames_of].
    destruct (frame_of c k st) as [v|].
    + destruct Hf as (s & audio & _ & E). rewrite E, Ha. destruct (continuous_videos c s k v audio (r_segments st) K2 K3) as [-> ->].
      rewrite <- app_assoc. f_equal. destruct (is_open (r_segments st)); cbn; [done|]. by destruct (vf_key v).
    + destruct (recorded_ext _ _ (proj1 Hf) (proj2 Hf)) as [-> ->]. done.
Qed.

(** C15: rotation loses no frame.  While recording is on and the storage takes what
    it is given, the samples of all the segments, one after the other, are exactly
    the frames the loop prepared, in order and each once, from the first keyframe
    on (from the start when a segment is already open): wherever the segments are
    cut, nothing is missing and nothing is written twice. *)
Theorem rmr_recording_lossless c ks st : Forall steady ks -> r_recording st = true ->
  recorded (r_segments (record_loop RSS_SEI_TS_MAX c ks st)) = recorded (r_segments st) ++
    (of_frame <$> (if is_open (r_segments st) then frames_of c ks st else from_key (frames_of c ks st))).
Proof.
  intros Hs Hr. rewrite <- run_videos by done. unfold record_loop, recorded. f_equal. apply all_videos_close.
Qed.
End runs.

(** ** A recording *)

Definition demo_env : start_env :=
  mk_start_env true false 10 30 0 "continuous" 5 60 true true 2000000 "/mnt/mmcblk0p1/rec" 5 0 0 0 1920 1080 25 4096
    (Some (mk_audio_hdr 0 8000 0 0 0)) true (fun n => replicate (Z.to_nat n) 0).

Definition demo_key : list Z := [0; 0; 0; 1; 103; 66; 1; 0; 0; 0; 1; 104; 206; 2; 0; 0; 0; 1; 101; 136; 3].
Definition demo_delta : list Z := [0; 0; 0; 1; 65; 154; 4].

Definition demo_tick (r : ring_read) (now_rt_us : Z) (audio : list (list Z * Z)) : tick :=
  mk_tick None true false None None r [] audio 1 true now_rt_us true now_rt_us true true true 0 0 true 0 0 20240501 true true.

(** A keyframe, two frames, an overflow with the frame after it lost, a keyframe
    past the five-minute boundary and one more frame. *)
Definition demo_ticks : list tick :=
  [demo_tick (Rd_frame demo_key 1000 true 7) 290000000 [(replicate 20 0, 1000)];
   demo_tick (Rd_frame demo_delta 41000 false 8) 290040000 [(replicate 20 1, 3500)];
   demo_tick (Rd_frame demo_delta 81000 false 9) 290080000 [];
   demo_tick Rd_overflow 290120000 [];
   demo_tick (Rd_frame demo_delta 161000 false 12) 290160000 [];
   demo_tick (Rd_frame demo_key 201000 true 13) 300200000 [(replicate 20 2, 9000)];
   demo_tick (Rd_frame demo_delta 241000 false 14) 300240000 []].

Definition demo_start : rmr_config * rmr_state :=
  ltac:(let r := eval vm_compute in (rmr_main_start 64 demo_env) in match r with Some ?p => exact p end).


Lemma rmr_recording_lossless_witness :
  recorded (r_segments (record_loop 64 demo_start.1 demo_ticks demo_start.2)) =
    of_frame <$> from_key (frames_of 64 demo_start.1 demo_ticks demo_start.2) /\
  length (frames_of 64 demo_start.1 demo_ticks demo_start.2) = 5%nat.
Proof.
  split; [|vm_compute; reflexivity].
  refine (rmr_recording_lossless 64 demo_start.1 demo_ticks demo_start.2 _ eq_refl).
  repeat constructor; discriminate.
Defined.
