(* ===== verification/RmrDecodable.v ===== *)
(** * rmr: segments decode

    The samples of a segment against the frames of the ring: each follows the
    one before it in the stream, or is a keyframe. *)

From stdpp Require Import list strings.
From S2P Require Import Prelude Mux Nal Prebuf Timelapse RmrStorage RmrRecord RmrRecordProps.

Section decodable.
Context (RSS_SEI_TS_MAX : Z).
Abbreviation record_iteration := (record_iteration RSS_SEI_TS_MAX).
Abbreviation record_run := (record_run RSS_SEI_TS_MAX).

(** ** Files after one frame *)

Definition closed_more (g g' : segments) : Prop :=
  cs_closed g' = cs_closed g \/
  exists f f', cs_mux g = Some f /\ videos f' = videos f /\ cs_closed g' = cs_closed g ++ [f'].

Definition wrote (v : vframe) (g g' : segments) : Prop :=
  cs_mux g' = None \/
  exists f' smp, cs_mux g' = Some f' /\ cs_was_recording g' = true /\ as_frame smp = of_frame v /\
    ((exists f, cs_mux g = Some f /\ videos f' = videos f ++ [smp]) \/ (vf_key v = true /\ videos f' = [smp])).

Lemma close_segment_files c g : cs_mux (close_segment c g) = None /\ closed_more g (close_segment c g).
Proof.
  unfold close_segment. destruct (cs_mux g) as [f|] eqn:E; [|by split; [|left]]. split; [done|]. right.
  exists f, (close_file c f). split; [done|]. split; [apply videos_close|done].
Qed.

Lemma flush_and_rotate_files c now key g :
  let g' := (flush_and_rotate c now key g).2 in
  closed_more g g' /\ cs_was_recording g' = cs_was_recording g /\
  (cs_mux g' = None \/ exists f f', cs_mux g = Some f /\ cs_mux g' = Some f' /\ videos f' = videos f /\ cs_closed g' = cs_closed g).
Proof.
  unfold flush_and_rotate. destruct (cs_mux g) as [f|] eqn:E.
  2: { cbn [snd]. split_and!; [by left|done|by left]. }
  cbn [snd]. set (ask := _ && _ : bool). clearbody ask. set (g1 := if ask then _ else _).
  assert (E1 : cs_mux g1 = Some f /\ cs_closed g1 = cs_closed g /\ cs_was_recording g1 = cs_was_recording g)
    by (unfold g1; by destruct ask).
  clearbody g1. destruct E1 as (E1 & E2 & E3).
  set (g2 := g1 <| cs_mux := Some (flush_file c f) |> <| cs_frames_since_flush := 0 |>).
  assert (F : cs_mux g2 = Some (flush_file c f) /\ cs_closed g2 = cs_closed g1 /\ cs_was_recording g2 = cs_was_recording g1) by done.
  assert (Hkeep : closed_more g g2 /\ cs_was_recording g2 = cs_was_recording g /\
    (cs_mux g2 = None \/ exists f f', cs_mux g = Some f /\ cs_mux g2 = Some f' /\ videos f' = videos f /\ cs_closed g2 = cs_closed g)).
  { destruct F as (F1 & F2 & F3). split_and!; [left; congruence|congruence|]. right. exists f, (flush_file c f).
    split_and!; [done|done|apply videos_flush|congruence]. }
  clearbody g2. destruct F as (F1 & F2 & F3). rewrite E in Hkeep. destruct key.
  - destruct (rmr_storage_should_rotate_at _ _ _); [|exact Hkeep].
    set (g3 := set_field cs_limit_calls _ _).
    assert (G : cs_mux g3 = cs_mux (close_segment c g2) /\ cs_closed g3 = cs_closed (close_segment c g2) /\
                cs_was_recording g3 = cs_was_recording (close_segment c g2)) by done.
    clearbody g3. destruct G as (-> & G2 & ->). unfold closed_more. rewrite G2. unfold close_segment. rewrite F1. cbn.
    split_and!; [|congruence|by left]. right. exists f, (close_file c (flush_file c f)).
    split; [done|]. split; [by rewrite videos_close, videos_flush|congruence].
  - destruct (_ >=? 10); [exact Hkeep|]. split_and!; [left; congruence|congruence|right]. exists f, f. split_and!; congruence.
Qed.

Lemma continuous_files c s k rec v audio g :
  (is_open g = true -> cs_was_recording g = true) -> (rec = true -> is_open g = true -> k_seg_available k = true) ->
  let g' := (continuous c s k rec v audio g).2 in closed_more g g' /\ wrote v g g'.
Proof.
  intros Hw Ha. unfold continuous. destruct rec; cbn [negb].
  2: { rewrite andb_true_r. destruct (cs_was_recording g) eqn:Ew; cbn [snd].
       - destruct (close_segment_files c g) as [H1 H2]. split; [exact H2|]. left. exact H1.
       - split; [by left|]. left. destruct (cs_mux g) eqn:E; [|done]. unfold is_open in Hw. rewrite E in Hw. by discriminate Hw. }
  rewrite andb_false_r. destruct (k_seg_available k) eqn:Ek; cbn [negb].
  2: { cbn [snd]. split; [by left|]. left. unfold is_open in Ha. destruct (cs_mux g); [|done]. by discriminate Ha. }
  destruct (flush_and_rotate_files c (k_now_rt_us k) (vf_key v) g) as (H1 & H2 & H3).
  destruct (flush_and_rotate c (k_now_rt_us k) (vf_key v) g) as [ask g2]. cbn [snd] in H1, H2, H3.
  destruct (cs_mux g2) as [f|] eqn:E2; cbn [snd].
  - destruct H3 as [?|(f0 & f' & E0 & Ef & Ev & Ec)]; [done|]. injection Ef as <-.
    destruct (write_samples_spec s (k_write_ok k) v audio f g2) as (l & _ & W1 & W2 & _ & W4 & _).
    split; [left; congruence|]. right. eexists _, (sample_for v (cs_v_ts_base g2)). split; [exact W1|].
    split_and!; [|done|]. { rewrite W4, H2. apply Hw. unfold is_open. by rewrite E0. }
    left. exists f0. split; [done|]. rewrite videos_calls. cbn [omap list_omap]. by rewrite omap_audio, Ev.
  - destruct (vf_key v) eqn:Hk; cbn [negb]; [|by split; [|left]]. destruct (negb (k_seg_open k)); [by split; [|left]|].
    match goal with |- context [cs_mux ?x] => set (g3 := x) end.
    assert (H4 : exists f, cs_mux g3 = Some f /\ videos f = []) by (eexists; split; [reflexivity|apply videos_open]).
    assert (H5 : cs_closed g3 = cs_closed g2) by done. assert (H6 : cs_was_recording g3 = true) by done. clearbody g3.
    destruct H4 as (f & H4 & H7). rewrite H4. cbn [snd].
    destruct (write_samples_spec s (k_write_ok k) v audio f g3) as (l & _ & W1 & W2 & _ & W4 & _). split.
    + unfold closed_more in *. by rewrite W2, H5.
    + right. eexists _, (sample_for v (cs_v_ts_base g3)). split; [exact W1|]. split_and!; [congruence|done|]. right.
      split; [done|]. rewrite videos_calls, H7. cbn [omap list_omap]. by rewrite omap_audio.
Qed.

(** ** The video side of the source *)

Definition vsrc (s : source) : bool * bool * Z * rmr_codec_params * Z * bool :=
  (s_v_wait_key s, s_video_ring s, s_video_codec s, s_params s, s_avcc_buf_size s, s_standby s).

Lemma ctrl_vsrc c cmd st : vsrc (r_source (rmr_ctrl_handler c cmd st)) = vsrc (r_source st).
Proof. destruct cmd; unfold rmr_ctrl_handler; repeat case_match; done. Qed.

Lemma attach_vsrc c k s : vsrc (attach_audio c k s) = vsrc s.
Proof. unfold attach_audio. by repeat case_match. Qed.

Lemma read_audio_vsrc k s : vsrc (read_audio k s).1 = vsrc s.
Proof. unfold read_audio. destruct (negb _); [done|]. cbn [fst]. by destruct (_ >=? 100). Qed.

Lemma request_vsrc (ask : bool) s : vsrc (if ask then request_idr s else s) = vsrc s.
Proof. by destruct ask. Qed.

Lemma record_frame_vsrc c k seq v st : vsrc (r_source (record_frame c k seq v st)) = vsrc (r_source st).
Proof.
  unfold record_frame. set (s0 := set_field s_video_pb _ _). pose proof (read_audio_vsrc k s0) as H.
  destruct (read_audio k s0) as [s1 audio]. cbn [fst] in H. destruct (continuous _ _ _ _ _ _ _) as [ask1 g].
  destruct (timelapse_sampling _ _ _ _ _ _) as [ask2 t]. cbn [r_source]. by rewrite !request_vsrc, H.
Qed.

(** The preparation reads nothing else, and keeps all of it but the parameter
    sets. *)
Lemma prepare_params sei data key s :
  let p := prepare_frame sei data key s in
  vsrc p.1 = (s_v_wait_key s, s_video_ring s, s_video_codec s, s_params p.1, s_avcc_buf_size s, s_standby s) /\
  (s_video_codec s <> 2 -> key = false -> s_params p.1 = s_params s) /\
  (p.2 <> None -> s_video_codec s <> 2 -> cp_ready (s_params p.1) = true).
Proof.
  cbv zeta. unfold prepare_frame. destruct (Z.eqb_spec (s_video_codec s) 2) as [E|E]; [done|].
  set (s1 := if key && _ then _ else s).
  assert (H : vsrc s1 = (s_v_wait_key s, s_video_ring s, s_video_codec s, s_params s1, s_avcc_buf_size s, s_standby s))
    by (unfold s1; by destruct (_ && _)).
  assert (Hk : key = false -> s_params s1 = s_params s) by (intros ->; done). clearbody s1.
  destruct (cp_ready (s_params s1)) eqn:Er; cbn [negb]; [|done].
  destruct (rmr_annexb_to_avcc _ _ _); [|done]. destruct (_ <=? 0); [done|]. by destruct (_ && _).
Qed.

Lemma prepare_cong sei data key s s' : s_video_codec s' = s_video_codec s -> s_params s' = s_params s ->
  s_avcc_buf_size s' = s_avcc_buf_size s ->
  (prepare_frame sei data key s').2 = (prepare_frame sei data key s).2 /\
  s_params (prepare_frame sei data key s').1 = s_params (prepare_frame sei data key s).1.
Proof.
  intros E1 E2 E3. unfold prepare_frame. rewrite E1, E2. destruct (_ =? 2); [done|].
  destruct (key && _); cbn [s_params s_avcc_buf_size s_video_codec set_field]; rewrite ?E1, ?E2, ?E3;
    (destruct (negb (cp_ready _)); [done|]); (destruct (rmr_annexb_to_avcc _ _ _); [|done]);
    (destruct (_ <=? 0); [done|]); by destruct (_ && _).
Qed.

(** ** The stream *)

(** The sequence number of the last frame read, while the reader has kept up. *)
Definition next_pos (k : tick) (st : rmr_state) (pos : option Z) : option Z :=
  if negb (k_have_dest k && s_video_ring (r_source st)) then None else
  match k_video k with Rd_frame _ _ _ q => Some q | Rd_overflow => None | _ => pos end.

(** The ring hands out frames in order, and a JPEG frame is a keyframe; the
    conversion takes a frame whose parameter sets are known; and the storage is
    there while a segment is open. *)
Definition tick_ok (c : rmr_config) (k : tick) (st : rmr_state) (pos : option Z) : Prop :=
  let s := r_source st in
  (k_have_dest k = true -> rec_after c k st = true -> is_open (r_segments st) = true ->
     k_seg_available k = true /\ k_write_ok k = true) /\
  forall data ts key q, k_have_dest k = true -> s_video_ring s = true -> k_video k = Rd_frame data ts key q ->
    (forall p, pos = Some p -> q = p + 1) /\ (s_video_codec s = 2 -> key = true) /\
    (s_v_wait_key s && negb key = false ->
       let '(s1, d) := prepare_frame (k_sei k) data key s in cp_ready (s_params s1) = true -> d <> None).

Fixpoint run_ok (c : rmr_config) (ks : list tick) (st : rmr_state) (pos : option Z) : Prop :=
  match ks with
  | [] => True
  | k :: ks => tick_ok c k st pos /\ run_ok c ks (record_iteration c k st) (next_pos k st pos)
  end.

(** The samples of a segment with the sequence numbers they had: [last] is the
    number of the last one. *)
Inductive follows : Z -> list (rmr_video_sample * Z) -> Prop :=
| fo_first s q : vs_is_key s = true -> follows q [(s, q)]
| fo_next last l s q : follows last l -> (vs_is_key s = false -> q = last + 1) -> follows q (l ++ [(s, q)]).

(** The sample is a frame some iteration read under that number. *)
Definition read_from (ks : list tick) (p : rmr_video_sample * Z) : Prop :=
  exists k data ts s, k ∈ ks /\ k_video k = Rd_frame data ts (vs_is_key p.1) p.2 /\
    (prepare_frame (k_sei k) data (vs_is_key p.1) s).2 = Some (vs_data p.1).

Definition decodes (ks : list tick) (f : mux_file) : Prop :=
  exists last l, follows last l /\ l.*1 = videos f /\ Forall (read_from ks) l.

(** The next frame accepted is a keyframe, or the one after [last]. *)
Definition safe_next (s : source) (pos : option Z) (last : Z) : Prop :=
  s_v_wait_key s = true \/ s_video_ring s = false \/ s_video_codec s = 2 \/ cp_ready (s_params s) = false \/ pos = Some last.

Record dec_inv (ks : list tick) (st : rmr_state) (pos : option Z) : Prop := {
  di_rec : is_open (r_segments st) = true -> cs_was_recording (r_segments st) = true;
  di_open : forall f, cs_mux (r_segments st) = Some f ->
    exists last l, follows last l /\ l.*1 = videos f /\ Forall (read_from ks) l /\ safe_next (r_source st) pos last;
  di_standby : s_standby (r_source st) = true -> s_video_ring (r_source st) = false;
  di_closed : Forall (decodes ks) (cs_closed (r_segments st))
}.

(** Nothing of it depends on more than the files and the video side. *)
Lemma dec_inv_ext ks st st' pos pos' :
  cs_mux (r_segments st') = cs_mux (r_segments st) -> cs_closed (r_segments st') = cs_closed (r_segments st) ->
  cs_was_recording (r_segments st') = cs_was_recording (r_segments st) ->
  (forall last, safe_next (r_source st) pos last -> safe_next (r_source st') pos' last) ->
  (s_standby (r_source st') = true -> s_video_ring (r_source st') = false) ->
  dec_inv ks st pos -> dec_inv ks st' pos'.
Proof.
  intros E1 E2 E3 Hs Hb [H1 H2 _ H3]. split; [unfold is_open in *; by rewrite E1, E3| |exact Hb|by rewrite E2].
  intros f Hf. rewrite E1 in Hf. destruct (H2 f Hf) as (last & l & ? & ? & ? & Hn). exists last, l. auto.
Qed.

Lemma safe_vsrc s s' pos last : vsrc s' = vsrc s -> safe_next s pos last -> safe_next s' pos last.
Proof. intros [= E1 E2 E3 E4 _ _]. unfold safe_next. by rewrite E1, E2, E3, E4. Qed.

Lemma closed_more_decodes ks g g' : closed_more g g' -> Forall (decodes ks) (cs_closed g) ->
  (forall f, cs_mux g = Some f -> decodes ks f) -> Forall (decodes ks) (cs_closed g').
Proof.
  intros [-> | (f & f' & E1 & E2 & ->)] Hc Ho; [done|]. apply Forall_app. split; [done|]. apply Forall_singleton.
  destruct (Ho f E1) as (last & l & ? & ? & ?). exists last, l. by rewrite E2.
Qed.

Lemma dec_open ks st pos f : dec_inv ks st pos -> cs_mux (r_segments st) = Some f -> decodes ks f.
Proof. intros H Hf. destruct (di_open _ _ _ H f Hf) as (last & l & ? & ? & ? & _). by exists last, l. Qed.

(** ** One iteration *)

Lemma attach_standby c k s : s_standby (attach_audio c k (s <| s_standby := false |>)) = false.
Proof. unfold attach_audio. by repeat case_match. Qed.

(** A frame that reaches the recorders. *)
Lemma frame_step ks c k st data ts key q d s0 s1 :
  k ∈ ks -> k_video k = Rd_frame data ts key q -> prepare_frame (k_sei k) data key s0 = (s1, Some d) ->
  s_v_wait_key s0 = false -> s_standby s0 = false -> r_source st = s1 ->
  (forall f, cs_mux (r_segments st) = Some f -> exists last l, follows last l /\ l.*1 = videos f /\ Forall (read_from ks) l /\
     (key = false -> q = last + 1)) ->
  (is_open (r_segments st) = true -> cs_was_recording (r_segments st) = true) ->
  (r_recording st = true -> is_open (r_segments st) = true -> k_seg_available k = true) ->
  Forall (decodes ks) (cs_closed (r_segments st)) ->
  dec_inv ks (record_frame c k q (mk_vframe d ts key) st) (Some q).
Proof.
  intros Hin Hv Hp Hw Hb Hsrc Ho Hwas Hav Hc. pose proof (record_frame_vsrc c k q (mk_vframe d ts key) st) as Hvs.
  pose proof (record_frame_segments c k q (mk_vframe d ts key) st) as Eg. cbv zeta in Eg.
  destruct (read_audio k _) as [s2 audio]. cbn [fst snd] in Eg.
  destruct (continuous_files c s2 k (r_recording st) (mk_vframe d ts key) audio (r_segments st) Hwas Hav) as [Hcm Hwr].
  cbv zeta in Hcm, Hwr. rewrite <- Eg in Hcm, Hwr. set (st' := record_frame c k q _ st) in *. clearbody st'. clear Eg.
  assert (Hread : forall smp, as_frame smp = of_frame (mk_vframe d ts key) -> read_from ks (smp, q)).
  { intros smp [= E1 E2]. exists k, data, ts, s0. cbn [fst snd]. rewrite E1, E2. split_and!; [done|done|by rewrite Hp]. }
  split.
  - intros Hop. destruct Hwr as [E|(f' & smp & _ & E & _)]; [|done]. unfold is_open in Hop. by rewrite E in Hop.
  - intros f Hf. destruct Hwr as [E|(f' & smp & Ef & _ & Hsmp & Hcase)]; [congruence|]. rewrite Ef in Hf. injection Hf as <-.
    assert (Hsafe : safe_next (r_source st') (Some q) q) by (by repeat right).
    injection Hsmp as Hd Hk. cbn in Hk. destruct Hcase as [(f & Ef0 & Evs)|[Hkey Evs]].
    + destruct (Ho f Ef0) as (last & l & Hl & El & Hfr & Hq). exists q, (l ++ [(smp, q)]). split_and!; [|..|exact Hsafe].
      * apply fo_next with last; [done|]. by rewrite Hk.
      * by rewrite fmap_app, El, Evs.
      * apply Forall_app. split; [done|]. apply Forall_singleton, Hread. unfold as_frame, of_frame. cbn. congruence.
    + exists q, [(smp, q)]. split_and!; [|done|..|exact Hsafe].
      * apply fo_first. rewrite Hk. exact Hkey.
      * apply Forall_singleton, Hread. unfold as_frame, of_frame. cbn. congruence.
  - intros Hst. exfalso. assert (E : s_standby (r_source st') = s_standby s1) by (rewrite <- Hsrc; by injection Hvs).
    assert (E1 : s_standby s1 = s_standby s0)
      by (pose proof (proj1 (prepare_params (k_sei k) data key s0)) as H; rewrite Hp in H; by injection H). congruence.
  - eapply closed_more_decodes; [exact Hcm|done|]. intros f Hf. destruct (Ho f Hf) as (last & l & ? & ? & ? & _). by exists last, l.
Qed.

Lemma standby_dec ks c k st pos : dec_inv ks st pos -> dec_inv ks (enter_standby c k st) None.
Proof.
  intros Hi. unfold enter_standby. destruct (s_standby (r_source st)) eqn:Es.
  - pose proof (di_standby _ _ _ Hi Es) as Hr. apply (dec_inv_ext ks st st pos None); try done. intros last _. right. by left.
  - pose proof (di_closed _ _ _ Hi) as Hc. destruct (cs_mux (r_segments st)) as [f|] eqn:Em.
    + destruct (close_segment_files c (r_segments st)) as [Hn Hcm].
      split; cbn [r_segments r_source set_field]; [|intros f' Hf'; cbn in Hf'; congruence|done|].
      * unfold is_open. cbn. by rewrite Hn.
      * apply (closed_more_decodes ks _ _ Hcm Hc). intros f' Hf'. by apply (dec_open ks st pos).
    + split; cbn [r_segments r_source set_field]; [|intros f' Hf'; congruence|done|done]. unfold is_open. by rewrite Em.
Qed.

(** The iterations that hand no frame over keep the files. *)
Lemma quiet_dec ks st st' pos pos' : dec_inv ks st pos ->
  cs_mux (r_segments st') = cs_mux (r_segments st) -> cs_closed (r_segments st') = cs_closed (r_segments st) ->
  cs_was_recording (r_segments st') = cs_was_recording (r_segments st) -> s_standby (r_source st') = false ->
  (forall last, safe_next (r_source st) pos last -> safe_next (r_source st') pos' last) -> dec_inv ks st' pos'.
Proof. intros Hi E1 E2 E3 Eb Hs. apply (dec_inv_ext ks st st' pos pos'); try done. by rewrite Eb. Qed.

(** What the next accepted frame must be. *)
Lemma accepted_next sei data key q s s1 d pos last : prepare_frame sei data key s = (s1, Some d) ->
  safe_next s pos last -> s_v_wait_key s && negb key = false -> s_video_ring s = true -> (s_video_codec s = 2 -> key = true) ->
  (forall p, pos = Some p -> q = p + 1) -> key = false -> q = last + 1.
Proof.
  intros Hp Hs Hw Hr Hj Hq ->. destruct (prepare_params sei data false s) as (_ & Hk & Hrd). rewrite Hp in Hk, Hrd. cbn in Hk, Hrd.
  destruct Hs as [H|[H|[H|[H|H]]]]; [by rewrite H in Hw|congruence|by specialize (Hj H)| |by apply Hq].
  destruct (decide (s_video_codec s = 2)) as [E|E]; [by specialize (Hj E)|].
  rewrite Hk in Hrd by done. rewrite Hrd in H by done. done.
Qed.

Lemma iteration_dec ks c k st pos : k ∈ ks -> tick_ok c k st pos -> dec_inv ks st pos ->
  dec_inv ks (record_iteration c k st) (next_pos k st pos).
Proof.
  intros Hin [Hst Hfr] Hi. unfold RmrRecord.record_iteration, next_pos. unfold rec_after in Hst.
  set (st1 := match k_cmd k with Some cmd => _ | None => st end) in *.
  assert (E1 : r_segments st1 = r_segments st) by (unfold st1; destruct (k_cmd k); [apply ctrl_segments|done]).
  assert (V1 : vsrc (r_source st1) = vsrc (r_source st)) by (unfold st1; destruct (k_cmd k); [apply ctrl_vsrc|done]).
  assert (Hi1 : dec_inv ks st1 pos).
  { apply (dec_inv_ext ks st st1 pos pos); try (by rewrite E1); [intros last; by apply safe_vsrc| |done].
    pose proof (di_standby _ _ _ Hi) as H. by injection V1 as _ -> _ _ _ ->. }
  rewrite <- E1 in Hst. clearbody st1. clear E1 Hi.
  destruct (k_have_dest k) eqn:Hd; cbn [negb andb]; [|by apply standby_dec with pos].
  set (s2 := attach_audio c k _). assert (Hb : s_standby s2 = false) by apply attach_standby.
  assert (V2 : vsrc s2 = vsrc ((r_source st1) <| s_standby := false |>)) by apply attach_vsrc.
  set (st2 := set_field r_source _ st1). change (r_source st2) with s2.
  assert (Hi2 : dec_inv ks st2 pos).
  { apply (quiet_dec ks st1 st2 pos pos); try done. intros last. change (r_source st2) with s2.
    unfold safe_next. by injection V2 as -> -> -> -> _ _. }
  assert (V : s_v_wait_key s2 = s_v_wait_key (r_source st) /\ s_video_ring s2 = s_video_ring (r_source st) /\
              s_video_codec s2 = s_video_codec (r_source st) /\ s_params s2 = s_params (r_source st) /\
              s_avcc_buf_size s2 = s_avcc_buf_size (r_source st)).
  { injection V1 as A1 A2 A3 A4 A5 _. injection V2 as B1 B2 B3 B4 B5 _. split_and!; etransitivity; eassumption. }
  clear V1 V2. destruct V as (V1 & V2 & V3 & V4 & V5). rewrite <- V1, <- V2, <- V3 in Hfr. rewrite <- V2.
  assert (Hst2 : r_recording st2 = true -> is_open (r_segments st2) = true -> k_seg_available k = true) by (intros; by apply Hst).
  assert (E2 : r_source st2 = s2) by done. clearbody st2. clearbody s2. subst s2. clear Hi1 Hst st1.
  destruct (s_video_ring (r_source st2)) eqn:Hr; cbn [negb].
  2: { unfold reconnect_video. destruct (k_video_open k) as [h|]; [destruct (_ && _)|].
       1,3: apply (quiet_dec ks st2 st2 pos None); try done; intros last _; right; left; done.
       apply (quiet_dec ks st2 _ pos None); try done; [by destruct (_ >? _)|].
       intros last _. right. right. right. left. by destruct (_ >? _). }
  destruct (k_video k) as [data ts key q| |ws|] eqn:Hk; [| | |done].
  - destruct (Hfr data ts key q eq_refl eq_refl eq_refl) as (Hq & Hj & Hc). clear Hfr.
    set (s3 := set_field s_video_idle 0 (r_source st2)).
    change (s_v_wait_key s3) with (s_v_wait_key (r_source st2)).
    destruct (s_v_wait_key (r_source st2) && negb key) eqn:Hw.
    { apply (quiet_dec ks st2 _ pos (Some q)); try done. intros last _. left. apply andb_true_iff in Hw as [Hw _]. exact Hw. }
    specialize (Hc eq_refl). set (s0 := set_field s_v_wait_key false s3).
    assert (C : s_video_codec s0 = s_video_codec (r_source st2) /\ s_params s0 = s_params (r_source st2) /\
                s_avcc_buf_size s0 = s_avcc_buf_size (r_source st2) /\ s_v_wait_key s0 = false /\
                s_standby s0 = s_standby (r_source st2)) by done.
    clearbody s0. clear s3. destruct C as (C1 & C2 & C3 & C4 & C5). rewrite Hb in C5.
    destruct (prepare_cong (k_sei k) data key (r_source st) s0) as [P1 P2]; [congruence..|].
    destruct (prepare_params (k_sei k) data key s0) as (P3 & _ & _).
    destruct (prepare_frame (k_sei k) data key s0) as [s4 [d|]] eqn:Hp; cbn [fst snd] in P1, P2, P3.
    + apply (frame_step ks c k _ data ts key q d s0 s4); try done.
      * intros f Hf. destruct (di_open _ _ _ Hi2 f Hf) as (last & l & ? & ? & ? & Hs). exists last, l. split_and!; try done.
        eapply (accepted_next (k_sei k) data key q (r_source st2)); try done.
        -- instantiate (2 := (prepare_frame (k_sei k) data key (r_source st2)).1). instantiate (1 := d).
           destruct (prepare_cong (k_sei k) data key (r_source st2) s0 C1 C2 C3) as [Q _].
           rewrite Hp in Q. cbn [snd] in Q. rewrite Q. by destruct (prepare_frame _ _ _ (r_source st2)).
      * apply (di_rec _ _ _ Hi2).
      * apply (di_closed _ _ _ Hi2).
    + apply (quiet_dec ks st2 _ pos (Some q)); try done.
      { injection P3 as _ _ _ _ E. cbn [r_source set_field]. congruence. } intros last _. right. right. right. left.
      cbn [r_source set_field]. rewrite P2. destruct (prepare_frame (k_sei k) data key (r_source st)) as [s5 d5].
      cbn [fst snd] in *. subst d5. destruct (cp_ready (s_params s5)); [by specialize (Hc eq_refl)|done].
  - apply (quiet_dec ks st2 _ pos None); try done. by left.
  - apply (quiet_dec ks st2 _ pos pos); try done; [by destruct (_ >=? 50)|]. intros last Hs.
    destruct (_ >=? 50); [right; by left|]. by apply (safe_vsrc (r_source st2)).
Qed.

Lemma run_dec ks c ts st pos : ts ⊆ ks -> run_ok c ts st pos -> dec_inv ks st pos ->
  exists pos', dec_inv ks (record_run c ts st) pos'.
Proof.
  revert st pos. induction ts as [|k ts IH]; intros st pos Hsub Hok Hi; [by exists pos|]. destruct Hok as [Hk Hok].
  apply (IH (record_iteration c k st) (next_pos k st pos)); [intros x Hx; apply Hsub; by right|done|].
  apply iteration_dec; [apply Hsub; by left|done|done].
Qed.

Lemma start_dec ks e c st : rmr_main_start RSS_SEI_TS_MAX e = Some (c, st) -> dec_inv ks st None.
Proof.
  intros H. destruct (start_empty RSS_SEI_TS_MAX e c st H) as (E1 & E2 & _ & E4).
  split; [unfold is_open; by rewrite E1|congruence|congruence|by rewrite E2].
Qed.

(** C13: what is recorded decodes.  From the start of the recorder on, with a ring
    that hands out frames in order, a conversion that takes every frame whose
    parameter sets are known, and a storage that is there while a segment is open,
    every segment is decodable: its first sample is a keyframe, and each further
    sample that is not one is the frame right after the previous sample in the
    stream, through overflows, reconnects, standby, stops and restarts; and every
    sample is a frame that was read, converted. *)
Theorem rmr_segments_decodable e c ks st : rmr_main_start RSS_SEI_TS_MAX e = Some (c, st) -> run_ok c ks st None ->
  Forall (decodes ks) (cs_closed (r_segments (record_loop RSS_SEI_TS_MAX c ks st))).
Proof.
  intros Hs Hok. destruct (run_dec ks c ks st None ltac:(done) Hok (start_dec ks e c st Hs)) as (pos & Hi).
  destruct (close_segment_files c (r_segments (record_run c ks st))) as [_ Hcm].
  apply (closed_more_decodes ks _ _ Hcm (di_closed _ _ _ Hi)). intros f. by apply dec_open with pos.
Qed.
End decodable.

Ltac tick_checks :=
  split;
    [vm_compute; auto
    |intros ? ? ? ? _ _ E; vm_compute in E;
     first [discriminate E
           |injection E as <- <- <- <-;
            split; [intros p Hp; vm_compute in Hp; first [discriminate Hp|injection Hp as <-; reflexivity]
                   |split; [vm_compute; discriminate|vm_compute; intros; discriminate]]]].

Lemma rmr_segments_decodable_witness :
  (videos <$> cs_closed (r_segments (record_loop 64 demo_start.1 demo_ticks demo_start.2))) !! 1%nat =
    Some [mk_rmr_video_sample [0; 0; 0; 3; 101; 136; 3] 0 0 true; mk_rmr_video_sample [0; 0; 0; 3; 65; 154; 4] 3600 3600 false] /\
  Forall (decodes demo_ticks) (cs_closed (r_segments (record_loop 64 demo_start.1 demo_ticks demo_start.2))).
Proof.
  split; [vm_compute; reflexivity|].
  refine (rmr_segments_decodable 64 demo_env demo_start.1 demo_ticks demo_start.2 ltac:(vm_compute; reflexivity) _).
  unfold demo_ticks. repeat (split; [tick_checks|]). exact I.
Defined.
