(* ===== verification/RmrAudio.v ===== *)
(** * rmr: audio decode times (rmr/rmr_main.c)

    The steering of the audio counter, and what it makes of a segment: decode
    times that always increase and stay with the capture clock. *)

From stdpp Require Import list strings sorting.
From S2P Require Import Prelude Mux Nal Prebuf Timelapse RmrStorage RmrRecord RmrRecordProps.

(** ** The steering *)

(** Where the capture clock puts a frame, in samples. *)
Definition target_dts (ring_ts ts_base sample_rate : Z) : Z := Z.quot ((ring_ts - ts_base) * sample_rate) 1000000.

Definition anchor (dts ring_ts ts_base sample_rate : Z) : Z :=
  if ts_base <? 0 then ring_ts - Z.quot (dts * 1000000) sample_rate else ts_base.

(** Anchoring at the counter puts the target within one sample of it. *)
Lemma anchored dts ring_ts rate : 0 < rate <= 1000000 ->
  Z.abs (target_dts ring_ts (ring_ts - Z.quot (dts * 1000000) rate) rate - dts) <= 1.
Proof.
  intros Hr. unfold target_dts. replace (ring_ts - (ring_ts - _)) with (Z.quot (dts * 1000000) rate) by lia.
  pose proof (Z.quot_rem (dts * 1000000) rate ltac:(lia)) as H1.
  pose proof (Z.rem_bound_abs (dts * 1000000) rate ltac:(lia)) as H2.
  set (p := Z.quot (dts * 1000000) rate) in *. set (r := Z.rem (dts * 1000000) rate) in *.
  replace (p * rate) with (dts * 1000000 - r) by lia.
  pose proof (Z.quot_rem (dts * 1000000 - r) 1000000 ltac:(lia)) as H3.
  pose proof (Z.rem_bound_abs (dts * 1000000 - r) 1000000 ltac:(lia)) as H4. lia.
Qed.

Lemma steer_lower dts ts base n rate : 0 <= rate -> 0 <= n ->
  dts - rate / 1000 <= (steer_audio_dts dts ts base n rate).1.
Proof.
  intros Hr Hn. unfold steer_audio_dts. pose proof (Z.div_pos rate 1000 Hr ltac:(lia)).
  repeat case_match; cbn [fst]; repeat match goal with
    | H : (_ >? _) = true |- _ => apply Z.gtb_lt in H
    end; lia.
Qed.

(** The audio follows the capture clock without jumping back.  For a rate up to
    a megahertz, one call moves the counter back by at most one millisecond; a gap
    of more than four frames is taken over in one step; and after the call the
    distance to where the capture clock puts the frame has shrunk by a millisecond,
    down to a millisecond (or a sample), with a clock that ran backwards re-anchored
    instead of followed. *)
Theorem rmr_audio_steering dts ring_ts ts_base samples rate : 0 < rate <= 1000000 -> 0 <= samples ->
  let base := anchor dts ring_ts ts_base rate in
  let err := target_dts ring_ts base rate - dts in
  let nudge := rate / 1000 in
  let '(dts', base') := steer_audio_dts dts ring_ts ts_base samples rate in
  dts - nudge <= dts' /\
  (samples * 4 < err -> dts' = target_dts ring_ts base rate) /\
  Z.abs (target_dts ring_ts base' rate - dts') <= Z.max (Z.max 1 nudge) (Z.abs err - nudge).
Proof.
  intros Hr Hn base err nudge. pose proof (steer_lower dts ring_ts ts_base samples rate ltac:(lia) Hn) as Hlo.
  pose proof (anchored dts ring_ts rate Hr) as Han. assert (Hnu : 0 <= nudge) by (apply Z.div_pos; lia).
  assert (E : steer_audio_dts dts ring_ts ts_base samples rate =
    if err >? samples * 4 then (target_dts ring_ts base rate, base)
    else if err <? - samples * 4 then (dts, ring_ts - Z.quot (dts * 1000000) rate)
    else if err >? nudge then (dts + nudge, base) else if err <? - nudge then (dts - nudge, base) else (dts, base)).
  { unfold steer_audio_dts. destruct (Z.eqb_spec rate 0); [lia|]. done. }
  rewrite E in *. clear E. fold nudge in Hlo. unfold err in *. set (T := target_dts ring_ts base rate) in *.
  destruct (Z.gtb_spec (T - dts) (samples * 4)) as [H1|H1].
  { fold T. split; [exact Hlo|]. split; [done|lia]. }
  destruct (Z.ltb_spec (T - dts) (- samples * 4)) as [H2|H2]; [split; [exact Hlo|split; lia]|].
  destruct (Z.gtb_spec (T - dts) nudge) as [H3|H3]; [fold T; split; [exact Hlo|split; lia]|].
  destruct (Z.ltb_spec (T - dts) (- nudge)) as [H4|H4]; fold T; (split; [exact Hlo|split; lia]).
Qed.

Lemma rmr_audio_steering_witness :
  steer_audio_dts 8000 1000500 0 160 8000 = (8000, 0) /\ steer_audio_dts 8000 1005000 0 160 8000 = (8008, 0) /\
  8000 - 8000 / 1000 <= (steer_audio_dts 8000 1005000 0 160 8000).1.
Proof.
  split; [reflexivity|]. split; [reflexivity|].
  exact (proj1 (rmr_audio_steering 8000 1005000 0 160 8000 ltac:(lia) ltac:(lia))).
Defined.

(** ** Decode times within a segment *)

Definition audio_times (f : mux_file) : list Z :=
  omap (fun m => match m with Mc_audio s => Some (as_dts s) | _ => None end) (mf_calls f).

(** The times increase, and the counter is [m] past the last. *)
Definition times_ok (m : Z) (counter : Z) (f : mux_file) : Prop :=
  StronglySorted Z.lt (audio_times f) /\ Forall (fun t => t + m <= counter) (audio_times f).

Lemma times_calls cs f :
  audio_times (calls cs f) = audio_times f ++ omap (fun m => match m with Mc_audio s => Some (as_dts s) | _ => None end) cs.
Proof. unfold audio_times, calls. cbn [mf_calls]. apply omap_app. Qed.

Lemma sorted_snoc (l : list Z) x : StronglySorted Z.lt l -> Forall (fun t => t < x) l -> StronglySorted Z.lt (l ++ [x]).
Proof.
  intros Hs Hx. induction Hs as [|y l Hs IH Hy]; [repeat constructor|]. apply Forall_cons in Hx as [Hx1 Hx2].
  cbn. constructor; [by apply IH|]. apply Forall_app. by split; [|apply Forall_singleton].
Qed.

Lemma write_audio_times m rate a d b f d' b' f' : 0 <= rate -> rate / 1000 < m -> m <= af_samples a ->
  write_audio rate a (d, b, f) = (d', b', f') -> times_ok m d f -> times_ok m d' f'.
Proof.
  intros H0 Hr Hm E [H1 H2]. unfold write_audio in E. pose proof (Z.div_pos rate 1000 H0 ltac:(lia)).
  pose proof (steer_lower d (af_ts a) b (af_samples a) rate H0 ltac:(lia)) as Hlo.
  destruct (steer_audio_dts _ _ _ _ _) as [d1 b1]. cbn [fst] in Hlo. injection E as <- <- <-.
  unfold times_ok. rewrite times_calls. cbn [omap list_omap as_dts]. split.
  - apply sorted_snoc; [done|]. eapply Forall_impl; [exact H2|]. cbn. intros; lia.
  - apply Forall_app. split; [|apply Forall_singleton; lia]. eapply Forall_impl; [exact H2|]. cbn. intros; lia.
Qed.

Lemma fold_audio_times m rate audio w : 0 <= rate -> rate / 1000 < m -> Forall (fun a => m <= af_samples a) audio ->
  times_ok m w.1.1 w.2 ->
  let w' := fold_left (fun w a => write_audio rate a w) audio w in times_ok m w'.1.1 w'.2.
Proof.
  intros H0 Hr Ha. revert w. induction Ha as [|a audio Ha _ IH]; intros [[d b] f] Hw; [done|]. cbn [fold_left].
  apply IH. destruct (write_audio rate a (d, b, f)) as [[d' b'] f'] eqn:E. by eapply write_audio_times.
Qed.

Definition sorted_times (f : mux_file) : Prop := StronglySorted Z.lt (audio_times f).

Record aud_inv (m : Z) (g : segments) : Prop := {
  ai_open : forall f, cs_mux g = Some f -> times_ok m (cs_a_dts_counter g) f;
  ai_closed : Forall sorted_times (cs_closed g)
}.

Lemma times_flush c f : audio_times (flush_file c f) = audio_times f.
Proof. unfold flush_file. rewrite times_calls. unfold emit. destruct (c_sign_enabled c); cbn; by rewrite app_nil_r. Qed.

Lemma times_close c f : audio_times (close_file c f) = audio_times f.
Proof. unfold close_file. rewrite times_calls. unfold emit. destruct (c_sign_enabled c); cbn; by rewrite app_nil_r. Qed.

Lemma times_open m c tr a : times_ok m 0 (open_file c tr a).
Proof. unfold times_ok, open_file, audio_times, begin, emit. by destruct (c_sign_enabled c); repeat constructor. Qed.

Lemma aud_inv_ext m g g' : cs_mux g' = cs_mux g -> cs_closed g' = cs_closed g -> cs_a_dts_counter g' = cs_a_dts_counter g ->
  aud_inv m g -> aud_inv m g'.
Proof. intros E1 E2 E3 [H1 H2]. split; [intros f; rewrite E1, E3; apply H1|by rewrite E2]. Qed.

Lemma close_segment_audio m c g : aud_inv m g -> cs_mux (close_segment c g) = None /\ Forall sorted_times (cs_closed (close_segment c g)).
Proof.
  intros [H1 H2]. unfold close_segment. destruct (cs_mux g) as [f|] eqn:E; [|done]. split; [done|]. cbn [cs_closed set_field].
  apply Forall_app. split; [done|]. apply Forall_singleton. unfold sorted_times. rewrite times_close. apply (H1 f eq_refl).
Qed.

Lemma closed_aud_inv m g : cs_mux g = None -> Forall sorted_times (cs_closed g) -> aud_inv m g.
Proof. intros E H. split; [congruence|done]. Qed.

Lemma flush_and_rotate_audio m c now key g : aud_inv m g -> aud_inv m (flush_and_rotate c now key g).2.
Proof.
  intros Hi. unfold flush_and_rotate. destruct (cs_mux g) as [f|] eqn:E; [|done]. cbn [snd].
  set (ask := _ && _ : bool). clearbody ask. set (g1 := if ask then _ else _).
  assert (Hi1 : aud_inv m g1) by (apply (aud_inv_ext m g); unfold g1; by destruct ask).
  assert (E1 : cs_mux g1 = Some f) by (unfold g1; by destruct ask). clearbody g1.
  set (g2 := g1 <| cs_mux := Some (flush_file c f) |> <| cs_frames_since_flush := 0 |>).
  assert (Hi2 : aud_inv m g2).
  { split; [|apply (ai_closed _ _ Hi1)]. intros f' Hf'. replace f' with (flush_file c f) by (by injection Hf').
    unfold times_ok. rewrite times_flush. by apply (ai_open _ _ Hi1). }
  clearbody g2. destruct key; [|by destruct (_ >=? 10)]. destruct (rmr_storage_should_rotate_at _ _ _); [|done].
  destruct (close_segment_audio m c g2 Hi2) as [H1 H2]. by apply closed_aud_inv.
Qed.

(** The audio of one iteration. *)
Definition audio_ok (m : Z) (s : source) (audio : list aframe) : Prop :=
  audio = [] \/ (0 <= s_audio_sample_rate s /\ s_audio_sample_rate s / 1000 < m /\ Forall (fun a => m <= af_samples a) audio).

Lemma write_samples_audio m s ok v audio f g : audio_ok m s audio -> times_ok m (cs_a_dts_counter g) f ->
  Forall sorted_times (cs_closed g) -> aud_inv m (write_samples s ok v audio f g).
Proof.
  intros Ha Hf Hc. unfold write_samples. set (g1 := if cs_v_ts_base g <? 0 then _ else g).
  assert (E1 : cs_a_dts_counter g1 = cs_a_dts_counter g /\ cs_closed g1 = cs_closed g) by (unfold g1; by destruct (_ <? 0)).
  set (f1 := calls [_] f). assert (Ef : audio_times f1 = audio_times f) by (unfold f1; rewrite times_calls; apply app_nil_r).
  clearbody g1 f1. set (g2 := if ok then _ else _).
  assert (E2 : cs_a_dts_counter g2 = cs_a_dts_counter g1 /\ cs_closed g2 = cs_closed g1) by (unfold g2; by destruct ok).
  clearbody g2. destruct E1 as [E1 E1'], E2 as [E2 E2'].
  assert (Hw : let w := fold_left (fun w a => write_audio (s_audio_sample_rate s) a w) audio (cs_a_dts_counter g2, cs_a_ts_base g2, f1) in
               times_ok m w.1.1 w.2).
  { assert (H0 : times_ok m (cs_a_dts_counter g2) f1) by (unfold times_ok; rewrite Ef, E2, E1; exact Hf).
    destruct Ha as [-> | (A1 & A2 & A3)]; [exact H0|]. by apply fold_audio_times. }
  cbv zeta in Hw. destruct (fold_left _ audio _) as [[d b] f2]. cbn [fst snd] in Hw. split; cbn [cs_mux cs_closed cs_a_dts_counter set_field].
  - intros f' [= <-]. exact Hw.
  - by rewrite E2', E1'.
Qed.

Lemma continuous_audio m c s k rec v audio g : audio_ok m s audio -> aud_inv m g ->
  aud_inv m (continuous c s k rec v audio g).2.
Proof.
  intros Ha Hi. unfold continuous. set (g1 := if _ && negb rec then stop_recording c g else g).
  assert (Hi1 : aud_inv m g1).
  { unfold g1. destruct (_ && _); [|done]. destruct (close_segment_audio m c g Hi) as [H1 H2]. by apply closed_aud_inv. }
  clearbody g1. destruct (negb rec); [done|]. destruct (negb (k_seg_available k)); [done|].
  pose proof (flush_and_rotate_audio m c (k_now_rt_us k) (vf_key v) g1 Hi1) as H2.
  destruct (flush_and_rotate c (k_now_rt_us k) (vf_key v) g1) as [ask g2]. cbn [snd] in H2.
  destruct (cs_mux g2) as [f|] eqn:E2; [apply write_samples_audio; [done|by apply (ai_open _ _ H2)|apply (ai_closed _ _ H2)]|].
  destruct (negb (vf_key v)); [done|]. destruct (negb (k_seg_open k)); [done|].
  match goal with |- context [cs_mux ?x] => set (g3 := x) end.
  assert (H4 : exists f, cs_mux g3 = Some f /\ times_ok m (cs_a_dts_counter g3) f) by (eexists; split; [reflexivity|apply times_open]).
  assert (H5 : cs_closed g3 = cs_closed g2) by done. clearbody g3. destruct H4 as (f & H4 & H6). rewrite H4. cbn [snd].
  apply write_samples_audio; [done|done|]. rewrite H5. apply (ai_closed _ _ H2).
Qed.

(** ** Along a run *)

(** The audio side of the source. *)
Definition asrc (s : source) : bool * Z * Z * Z * Z :=
  (s_audio_ring s, s_audio_sample_rate s, s_samples_per_frame s, s_audio_bps s, s_audio_retry s).

Lemma ctrl_asrc c cmd st : asrc (r_source (rmr_ctrl_handler c cmd st)) = asrc (r_source st).
Proof. destruct cmd; unfold rmr_ctrl_handler; repeat case_match; done. Qed.

Lemma retry_bumped (s : source) v : s_audio_retry (s <| s_audio_retry := v |>) = v.
Proof. done. Qed.

Lemma attach_asrc c k s s' : asrc s = asrc s' -> asrc (attach_audio c k s) = asrc (attach_audio c k s').
Proof.
  intros E. pose proof E as [= E1 E2 E3 E4 E5]. unfold attach_audio. rewrite E1.
  destruct (negb (c_audio_enabled c && _)); [done|]. cbv zeta. rewrite !retry_bumped, E5.
  assert (Hset : forall v, asrc (s <| s_audio_retry := v |>) = asrc (s' <| s_audio_retry := v |>)).
  { intros v. change ((s_audio_ring s, s_audio_sample_rate s, s_samples_per_frame s, s_audio_bps s, v) =
      (s_audio_ring s', s_audio_sample_rate s', s_samples_per_frame s', s_audio_bps s', v)). congruence. }
  destruct (negb (_ >=? 50)); [apply Hset|]. destruct (k_audio_open k) as [h|]; [done|].
  change (asrc (s <| s_audio_retry := 0 |>) = asrc (s' <| s_audio_retry := 0 |>)). apply Hset.
Qed.

(** The audio ring's frames are longer than the millisecond of the steering. *)
Definition tick_audio (m : Z) (c : rmr_config) (k : tick) (st : rmr_state) : Prop :=
  let s := attach_audio c k (r_source st) in
  s_audio_ring s = true -> 0 <= s_audio_sample_rate s /\ s_audio_sample_rate s / 1000 < m /\
    Forall (fun a => m <= samples_of s (Z.of_nat (length a.1))) (take 4 (k_audio k)).

Lemma read_audio_ok m k s s' : asrc s = asrc s' ->
  (s_audio_ring s' = true -> 0 <= s_audio_sample_rate s' /\ s_audio_sample_rate s' / 1000 < m /\
     Forall (fun a => m <= samples_of s' (Z.of_nat (length a.1))) (take 4 (k_audio k))) ->
  audio_ok m (read_audio k s).1 (read_audio k s).2.
Proof.
  intros E H. injection E as E1 E2 E3 E4 _. unfold read_audio. rewrite E1. destruct (s_audio_ring s'); cbn [negb]; [|by left].
  destruct (H eq_refl) as (H1 & H2 & H3). right. cbn [fst snd]. split_and!.
  - destruct (_ >=? 100); cbn; by rewrite E2.
  - destruct (_ >=? 100); cbn; by rewrite E2.
  - apply Forall_fmap. eapply Forall_impl; [exact H3|]. intros a Ha. cbn [compose af_samples].
    revert Ha. unfold samples_of. cbn [s_samples_per_frame s_audio_bps set_field]. by rewrite E3, E4.
Qed.

Section runs.
Context (RSS_SEI_TS_MAX : Z).
Abbreviation record_iteration := (record_iteration RSS_SEI_TS_MAX).
Abbreviation record_run := (record_run RSS_SEI_TS_MAX).

Fixpoint run_audio (m : Z) (c : rmr_config) (ks : list tick) (st : rmr_state) : Prop :=
  match ks with
  | [] => True
  | k :: ks => tick_audio m c k st /\ run_audio m c ks (record_iteration c k st)
  end.

Lemma iteration_audio m c k st : tick_audio m c k st -> aud_inv m (r_segments st) ->
  aud_inv m (r_segments (record_iteration c k st)).
Proof.
  intros Hk Hi. unfold RmrRecord.record_iteration. set (st1 := match k_cmd k with Some cmd => _ | None => st end).
  assert (E1 : r_segments st1 = r_segments st) by (unfold st1; destruct (k_cmd k); [apply ctrl_segments|done]).
  assert (A1 : asrc (r_source st1) = asrc (r_source st)) by (unfold st1; destruct (k_cmd k); [apply ctrl_asrc|done]).
  rewrite <- E1 in Hi. clearbody st1. clear E1. destruct (negb (k_have_dest k)).
  { unfold enter_standby. destruct (s_standby _); [done|]. cbn [r_segments set_field].
    destruct (cs_mux (r_segments st1)); [|done]. destruct (close_segment_audio m c _ Hi) as [H1 H2]. by apply closed_aud_inv. }
  set (s2 := attach_audio c k _).
  assert (A2 : asrc s2 = asrc (attach_audio c k (r_source st))) by (by apply attach_asrc).
  set (st2 := set_field r_source _ st1). assert (E2 : r_segments st2 = r_segments st1) by done. rewrite <- E2 in Hi.
  assert (E3 : r_source st2 = s2) by done. clearbody st2. clearbody s2. subst s2. clear E2.
  destruct (negb (s_video_ring _)). { unfold reconnect_video. destruct (k_video_open k); [|done]. by destruct (_ && _). }
  destruct (k_video k) as [data ts key seq| |ws|]; [|by apply (aud_inv_ext m (r_segments st2))|done|done].
  destruct (_ && negb key); [by apply (aud_inv_ext m (r_segments st2))|].
  set (s3 := set_field s_v_wait_key false _). assert (A3 : asrc s3 = asrc (r_source st2)) by done. clearbody s3.
  assert (A4 : asrc (prepare_frame (k_sei k) data key s3).1 = asrc s3) by (unfold prepare_frame; by repeat case_match).
  destruct (prepare_frame _ _ _ _) as [s4 [d|]]; [|done]. cbn [fst] in A4. rewrite record_frame_segments.
  apply continuous_audio; [|done]. eapply read_audio_ok; [|exact Hk]. rewrite <- A2, <- A3, <- A4. done.
Qed.

Lemma run_audio_inv m c ks st : run_audio m c ks st -> aud_inv m (r_segments st) -> aud_inv m (r_segments (record_run c ks st)).
Proof. revert st. induction ks as [|k ks IH]; intros st Hk Hi; [done|]. destruct Hk as [Hk Hks]. by apply IH, iteration_audio. Qed.

(** Audio decode times increase.  When every audio frame is longer than the
    millisecond by which the steering may pull back, the audio samples of every
    segment have strictly increasing decode times, whatever the capture clock
    reports: gaps, regressions and re-attached rings included. *)
Theorem rmr_audio_times_increase m e c ks st : rmr_main_start RSS_SEI_TS_MAX e = Some (c, st) -> run_audio m c ks st ->
  Forall sorted_times (cs_closed (r_segments (record_loop RSS_SEI_TS_MAX c ks st))).
Proof.
  intros Hs Hk. assert (Hi : aud_inv m (r_segments st)).
  { destruct (start_empty RSS_SEI_TS_MAX e c st Hs) as (E1 & E2 & _). apply closed_aud_inv; [done|]. by rewrite E2. }
  apply (close_segment_audio m c _ (run_audio_inv m c ks st Hk Hi)).
Qed.
End runs.

Lemma rmr_audio_times_increase_witness :
  (audio_times <$> cs_closed (r_segments (record_loop 64 demo_start.1 demo_ticks demo_start.2))) = [[0; 20]; [0]] /\
  Forall sorted_times (cs_closed (r_segments (record_loop 64 demo_start.1 demo_ticks demo_start.2))).
Proof.
  split; [vm_compute; reflexivity|].
  refine (rmr_audio_times_increase 64 9 demo_env demo_start.1 demo_ticks demo_start.2 ltac:(vm_compute; reflexivity) _).
  unfold demo_ticks. repeat (split; [intros _; split; [by vm_compute|]; split; [by vm_compute|]; vm_compute; repeat constructor; discriminate|]).
  exact I.
Defined.
