(* ===== verification/RmrClips.v ===== *)
(** * rmr: motion clips (rmr/rmr_main.c)

    A clip is its pre-roll, replayed from the pre-buffer, then the live frames.
    The theorems say what the samples of a clip are at its start: the frame that
    triggers it is there twice, and a clip that continues one that reached its
    length starts wherever the stream is. *)

From stdpp Require Import list strings.
From S2P Require Import Prelude Mux Nal Prebuf Timelapse RmrStorage RmrRecord RmrRecordProps.

(** ** The samples of a clip *)

(** The open clip's samples and its time base. *)
Definition clip_at (k : clips) (vs : list rmr_video_sample) (base start_us : Z) : Prop :=
  exists f, kp_mux k = Some f /\ videos f = vs /\ kp_v_ts_base k = base /\ kp_start_us k = start_us.

Lemma clip_write_video_at c v k vs base us : clip_at k vs base us ->
  clip_at (clip_write_video c v k) (vs ++ [sample_for v base]) (base_for v base) us.
Proof.
  intros (f & Hf & Hv & Hb & Hu). unfold clip_write_video. rewrite Hf.
  set (k1 := if kp_v_ts_base k <? 0 then _ else k).
  assert (E : kp_v_ts_base k1 = base_for v base /\ kp_start_us k1 = us)
    by (unfold k1, base_for; rewrite Hb; by destruct (base <? 0)).
  clearbody k1. destruct E as [E1 E2]. rewrite E1. eexists. split; [reflexivity|]. split; [|by split].
  rewrite videos_calls. cbn [omap list_omap]. destruct (vf_key v); rewrite ?videos_flush, Hv; done.
Qed.

Lemma clip_write_audio_at s a k vs base us : clip_at k vs base us -> clip_at (clip_write_audio s a k) vs base us.
Proof.
  intros (f & Hf & Hv & Hb & Hu). unfold clip_write_audio. rewrite Hf. unfold write_audio.
  destruct (steer_audio_dts _ _ _ _ _) as [d b]. eexists. split; [reflexivity|]. split; [|by split].
  rewrite videos_calls. cbn. by rewrite app_nil_r.
Qed.

Lemma clip_audio_at s audio k vs base us : clip_at k vs base us ->
  clip_at (fold_left (fun k a => clip_write_audio s a k) audio k) vs base us.
Proof. revert k. induction audio as [|a audio IH]; intros k H; [done|]. by apply IH, clip_write_audio_at. Qed.

Lemma open_clip_at c s now k : exists k', open_clip c s true now k = Some k' /\ clip_at k' [] (-1) now.
Proof. eexists. split; [reflexivity|]. eexists. split; [reflexivity|]. by split; [apply videos_open|]. Qed.

(** ** The replay *)

(** The samples the replayed frames become. *)
Fixpoint samples_from (base : Z) (fs : list pframe) : list rmr_video_sample :=
  match fs with
  | [] => []
  | f :: fs => let v := mk_vframe (pf_data f) (pf_ts f) (pf_key f) in sample_for v base :: samples_from (base_for v base) fs
  end.

Definition base_from (base : Z) (fs : list pframe) : Z := fold_left (fun b f => if b <? 0 then pf_ts f else b) fs base.

Lemma replay_loop_at c n pb i it cnt k acc vs base us : clip_at k vs base us ->
  exists fs, snd (iterate_loop collect n pb i it acc) = acc ++ fs /\ length fs = n /\
    clip_at (snd (snd (iterate_loop (replay_video_frame c) n pb i it (cnt, k)))) (vs ++ samples_from base fs) (base_from base fs) us.
Proof.
  revert i it cnt k acc vs base. induction n as [|n IH]; intros i it cnt k acc vs base H; cbn [iterate_loop].
  - exists []. cbn. by rewrite !app_nil_r.
  - unfold collect at 1, replay_video_frame at 1. cbn [Z.eqb negb fst snd].
    set (sl := slot_at pb i). set (fr := mk_pframe (slot_data pb sl) (sl_timestamp sl) (sl_is_key sl)).
    pose proof (clip_write_video_at c (mk_vframe (pf_data fr) (pf_ts fr) (pf_key fr)) k vs base us H) as H1.
    destruct (IH (i + 1) (it + 1) (cnt + 1) _ (acc ++ [fr]) _ _ H1) as (fs & E & Hl & Hc).
    exists (fr :: fs). rewrite E, <- app_assoc. split; [done|]. split; [cbn; lia|]. cbn [samples_from]. by rewrite <- app_assoc in Hc.
Qed.

Lemma replay_audio_at s m pb i ctx vs base us : clip_at ctx.2 vs base us ->
  clip_at (snd (snd (rmr_prebuf_iterate (replay_audio_frame s m) pb i ctx))) vs base us.
Proof.
  intros H. unfold rmr_prebuf_iterate. destruct (_ =? 0); [done|]. destruct (_ || _); [done|].
  generalize (Z.to_nat (pb_write_idx pb - i)) as n. intros n. generalize 0 as it. revert i ctx H.
  induction n as [|n IH]; intros i ctx H it; cbn [iterate_loop]; [done|]. unfold replay_audio_frame at 1.
  destruct (_ && _); [done|]. cbn [Z.eqb negb]. apply IH. by apply clip_write_audio_at.
Qed.

(** The pre-roll: what the pre-buffer shows from its keyframe on. *)
Definition preroll (c : rmr_config) (vpb : rmr_prebuf) : list pframe :=
  (rmr_prebuf_iterate collect vpb (rmr_prebuf_find_keyframe vpb ((c_prebuffer_sec c + 1) * 1000000)) []).2.

Lemma open_with_preroll c s now k vpb : s_video_pb s = Some vpb ->
  rmr_prebuf_find_keyframe vpb ((c_prebuffer_sec c + 1) * 1000000) <> Prebuf.UINT32_MAX ->
  exists k', open_clip_with_prebuffer c s true now k = Some k' /\
    clip_at k' (samples_from (-1) (preroll c vpb)) (base_from (-1) (preroll c vpb)) now.
Proof.
  intros Hpb Hkf. unfold open_clip_with_prebuffer, preroll. destruct (open_clip_at c s now k) as (k1 & -> & H1).
  rewrite Hpb. cbv zeta. rewrite (proj2 (Z.eqb_neq _ _)) by done. set (vs := rmr_prebuf_find_keyframe _ _).
  assert (H2 : clip_at (snd (snd (rmr_prebuf_iterate (replay_video_frame c) vpb vs (0, k1))))
                 (samples_from (-1) (snd (rmr_prebuf_iterate collect vpb vs [])))
                 (base_from (-1) (snd (rmr_prebuf_iterate collect vpb vs []))) now).
  { unfold rmr_prebuf_iterate. destruct (_ =? 0); [done|]. destruct (_ || _); [done|].
    destruct (replay_loop_at c (Z.to_nat (pb_write_idx vpb - vs)) vpb vs 0 0 k1 [] [] (-1) now H1) as (fs & -> & _ & H). exact H. }
  destruct (s_audio_pb s) as [apb|]; [|by eexists]. destruct (_ && _); [|by eexists].
  eexists. split; [reflexivity|]. by apply replay_audio_at.
Qed.

(** A clip that is open takes the live frame; [cap] says whether the length was
    reached. *)
Definition clip_full (c : rmr_config) (t : tick) (us : Z) : bool :=
  (c_clip_length_sec c >? 0) && (k_now_us t - us >=? c_clip_length_sec c * 1000000).

Lemma clip_live c s t v audio k vs base us : clip_at k vs base us -> clip_full c t us = false ->
  clip_at (clip_handling c s t true v audio k) (vs ++ [sample_for v base]) (base_for v base) us.
Proof.
  intros H Hcap. unfold clip_handling. destruct H as (f' & Hf' & H). rewrite Hf'. cbv zeta beta iota. rewrite Hf'.
  assert (H1 := clip_audio_at s audio _ _ _ _ (clip_write_video_at c v k vs base us (ex_intro _ f' (conj Hf' H)))).
  set (k1 := fold_left _ audio _) in *. pose proof H1 as (f1 & _ & _ & _ & Hu). rewrite Hu.
  unfold clip_full in Hcap. rewrite Hcap. exact H1.
Qed.

(** A clip that opens with a pre-roll goes on with the live frame. *)
Lemma clip_opens c s t v audio k vpb : kp_mux k = None -> k_clip_available t = true -> k_clip_open t = true ->
  s_video_pb s = Some vpb -> rmr_prebuf_find_keyframe vpb ((c_prebuffer_sec c + 1) * 1000000) <> Prebuf.UINT32_MAX ->
  clip_full c t (k_clip_us t) = false ->
  let base := base_from (-1) (preroll c vpb) in
  clip_at (clip_handling c s t true v audio k) (samples_from (-1) (preroll c vpb) ++ [sample_for v base])
    (base_for v base) (k_clip_us t).
Proof.
  intros Hk Ha Ho Hpb Hkf Hcap base. destruct (open_with_preroll c s (k_clip_us t) k vpb Hpb Hkf) as (k1 & E & H1).
  assert (Eh : clip_handling c s t true v audio k = clip_handling c s t true v audio k1).
  { unfold clip_handling at 1. rewrite Hk, Ha, Ho, E. cbn [andb].
    pose proof H1 as (f & Hf & _).
    unfold clip_handling. rewrite Hf. cbv zeta beta iota. by rewrite Hf. }
  rewrite Eh. by apply clip_live.
Qed.

(** ** The frame that triggers *)

Lemma collect_snoc n pb i it acc : snd (iterate_loop collect (S n) pb i it acc) =
  snd (iterate_loop collect n pb i it acc) ++
    [let s := slot_at pb (i + Z.of_nat n) in mk_pframe (slot_data pb s) (sl_timestamp s) (sl_is_key s)].
Proof.
  revert i it acc. induction n as [|n IH]; intros i it acc.
  - cbn. by rewrite Z.add_0_r.
  - change (iterate_loop collect (S (S n)) pb i it acc) with
      (iterate_loop collect (S n) pb (i + 1) (it + 1)
         (acc ++ [mk_pframe (slot_data pb (slot_at pb i)) (sl_timestamp (slot_at pb i)) (sl_is_key (slot_at pb i))])).
    rewrite IH. cbn [iterate_loop]. unfold collect at 2. cbn [Z.eqb negb snd].
    by replace (i + 1 + Z.of_nat n) with (i + Z.of_nat (S n)) by lia.
Qed.

(** The newest slot is the frame just pushed, with its bytes. *)
Lemma newest_shown gs pass pb f : pb_inv gs pass pb -> fits (pb_data_size pb) f -> Z.of_nat (length gs) + 1 < 2 ^ 32 ->
  let pb' := push f pb in
  let s := slot_at pb' (pb_write_idx pb' - 1) in
  mk_pframe (slot_data pb' s) (sl_timestamp s) (sl_is_key s) = f.
Proof.
  intros Hi Hf Hb pb' s. pose proof (push_inv _ _ _ _ Hi Hf Hb) as Hp. fold pb' in Hp.
  pose proof (push_eq _ _ _ _ Hi Hf Hb) as He. cbv zeta in He.
  destruct (placed_facts _ _ _ _ Hi Hf) as (G1 & G2 & G3 & G4 & _).
  assert (Hsz : pb_data_size pb' = pb_data_size pb /\ pb_data_head pb' = g_off (placed pb pass f) + g_len (placed pb pass f) /\
                pb_write_idx pb' = Z.of_nat (length gs) + 1 /\ pb_count pb' = Z.min (Z.of_nat (length gs) + 1) (pb_capacity pb)).
  { unfold pb'. by rewrite He. }
  destruct Hsz as (E1 & E2 & E3 & E4). set (g := placed pb pass f) in *.
  assert (Hl : (gs ++ [g]) !! length gs = Some g) by (rewrite lookup_app_r, Nat.sub_diag; done).
  assert (Hs : s = g_slot g).
  { unfold s. rewrite E3. replace (Z.of_nat (length gs) + 1 - 1) with (Z.of_nat (length gs)) by lia.
    apply (pi_table _ _ _ Hp); [done|]. rewrite length_app, E4. cbn [length]. 
    destruct (pi_pow _ _ _ Hi) as (k & Hk & Hc). assert (0 < 2 ^ k) by (apply Z.pow_pos_nonneg; lia). lia. }
  rewrite Hs, (pi_live _ _ _ Hp (length gs) g Hl).
  - unfold g_slot. cbn [sl_timestamp sl_is_key]. rewrite G4. by destruct f.
  - rewrite E1, E2. unfold pushed_pass, g_start. fold g. lia.
Qed.

(** The pre-roll ends with the newest frame. *)
Lemma preroll_last c gs pass pb f : pb_inv gs pass pb -> fits (pb_data_size pb) f -> Z.of_nat (length gs) + 1 < 2 ^ 32 ->
  rmr_prebuf_find_keyframe (push f pb) ((c_prebuffer_sec c + 1) * 1000000) <> Prebuf.UINT32_MAX ->
  exists fs, preroll c (push f pb) = fs ++ [f].
Proof.
  intros Hi Hf Hb Hkf. pose proof (newest_shown gs pass pb f Hi Hf Hb) as Hnew. cbv zeta in Hnew.
  pose proof (push_inv _ _ _ _ Hi Hf Hb) as Hp. unfold preroll. set (pb' := push f pb) in *.
  set (r := rmr_prebuf_find_keyframe pb' _) in *.
  pose proof (pi_idx _ _ _ Hp) as Hidx. pose proof (pi_count _ _ _ Hp) as Hcnt. rewrite length_app in Hidx, Hcnt. cbn [length] in Hidx, Hcnt.
  destruct (pi_pow _ _ _ Hp) as (k & Hk & Hc). assert (0 < 2 ^ k) by (apply Z.pow_pos_nonneg; lia).
  assert (Hr : pb_write_idx pb' - pb_count pb' <= r < pb_write_idx pb').
  { unfold r, rmr_prebuf_find_keyframe in *. destruct (Z.eqb_spec (pb_count pb') 0) as [|]; [done|].
    rewrite (uwrap_id 32 (pb_write_idx pb' - pb_count pb')) in * by (unfold in_u; lia).
    match goal with |- context [keyframe_loop ?n pb' ?ts ?age ?i ?b] =>
      destruct (keyframe_loop_spec pb' ts age n i b) as [[E _]|[E _]] end; [congruence|lia]. }
  unfold rmr_prebuf_iterate. destruct (Z.eqb_spec (pb_count pb') 0); [lia|].
  rewrite uwrap_id by (unfold in_u; lia).
  destruct (Z.ltb_spec r (pb_write_idx pb' - pb_count pb')); [lia|]. destruct (Z.geb_spec r (pb_write_idx pb')); [lia|]. cbn [orb].
  replace (Z.to_nat (pb_write_idx pb' - r)) with (S (Z.to_nat (pb_write_idx pb' - r - 1))) by lia.
  rewrite collect_snoc. replace (r + Z.of_nat (Z.to_nat (pb_write_idx pb' - r - 1))) with (pb_write_idx pb' - 1) by lia.
  cbv zeta. rewrite Hnew. by eexists.
Qed.

Lemma samples_from_snoc base fs f : samples_from base (fs ++ [f]) =
  samples_from base fs ++ [sample_for (mk_vframe (pf_data f) (pf_ts f) (pf_key f)) (base_from base fs)].
Proof. revert base. induction fs as [|g fs IH]; intros base; [done|]. cbn [app samples_from]. by rewrite IH. Qed.

(** The frame that triggers a clip is written to it twice.  The loop pushes the
    frame it has just read into the pre-buffer, opens the clip by replaying the
    pre-buffer from a keyframe to its newest frame, and then writes the frame as a
    live one: the clip's last two samples are the same bytes at the same decode
    time. *)
Theorem rmr_clip_repeats_trigger c s t v audio k gs pass pb : kp_mux k = None ->
  k_clip_available t = true -> k_clip_open t = true ->
  pb_inv gs pass pb -> fits (pb_data_size pb) (mk_pframe (vf_data v) (vf_ts v) (vf_key v)) -> Z.of_nat (length gs) + 1 < 2 ^ 32 ->
  s_video_pb s = push_opt (vf_data v) (vf_ts v) (vf_key v) (Some pb) ->
  rmr_prebuf_find_keyframe (rmr_prebuf_push (vf_data v) (vf_ts v) (vf_key v) pb) ((c_prebuffer_sec c + 1) * 1000000)
    <> Prebuf.UINT32_MAX ->
  clip_full c t (k_clip_us t) = false ->
  exists f vs x, kp_mux (clip_handling c s t true v audio k) = Some f /\ videos f = vs ++ [x; x] /\ as_frame x = of_frame v.
Proof.
  intros Hk Ha Ho Hi Hf Hb Hpb Hkf Hcap.
  pose proof (clip_opens c s t v audio k _ Hk Ha Ho Hpb Hkf Hcap) as H. cbv zeta in H.
  destruct (preroll_last c gs pass pb _ Hi Hf Hb Hkf) as (fs & E).
  change (push (mk_pframe (vf_data v) (vf_ts v) (vf_key v)) pb) with
    (rmr_prebuf_push (vf_data v) (vf_ts v) (vf_key v) pb) in E. rewrite E in H. rewrite samples_from_snoc in H.
  destruct H as (f & Ef & Ev & _). exists f, (samples_from (-1) fs), (sample_for v (base_from (-1) fs)).
  split; [done|]. split; [|done]. rewrite Ev, <- app_assoc.
  assert (Eb : sample_for v (base_from (-1) (fs ++ [mk_pframe (vf_data v) (vf_ts v) (vf_key v)])) = sample_for v (base_from (-1) fs)).
  { unfold base_from. rewrite fold_left_app. cbn [fold_left pf_ts]. fold (base_from (-1) fs).
    unfold sample_for, base_for. destruct (base_from (-1) fs <? 0) eqn:E0; [|by rewrite E0]. by destruct (vf_ts v <? 0). }
  rewrite Eb. by destruct v.
Qed.

(** ** Continuation *)

(** A clip that continues another starts anywhere.  When a clip reaches its
    length while the trigger lasts, the next one is opened without a pre-roll and
    takes the next frame whatever it is: when that frame is not a keyframe, the
    clip's first sample is not one, and nothing of it decodes until the next
    keyframe. *)
Theorem rmr_clip_continuation_mid_gop c s s' t t' v v' audio audio' k vs base us : clip_at k vs base us ->
  clip_full c t us = true -> k_cont_open t = true -> clip_full c t' (k_cont_us t) = false -> vf_key v' = false ->
  exists f x, kp_mux (clip_handling c s' t' true v' audio' (clip_handling c s t true v audio k)) = Some f /\
    videos f = [x] /\ vs_is_key x = false.
Proof.
  intros H Hfull Ho Hnot Hkey.
  assert (H1 : clip_at (clip_handling c s t true v audio k) [] (-1) (k_cont_us t)).
  { unfold clip_handling. destruct H as (f & Hf & H). rewrite Hf. cbv zeta beta iota. rewrite Hf.
    assert (H1 := clip_audio_at s audio _ _ _ _ (clip_write_video_at c v k vs base us (ex_intro _ f (conj Hf H)))).
    set (k1 := fold_left _ audio _) in *. pose proof H1 as (f1 & _ & _ & _ & Hu). rewrite Hu.
    unfold clip_full in Hfull. rewrite Hfull, Ho. destruct (open_clip_at c s (k_cont_us t) (close_clip c k1)) as (k2 & -> & H2).
    exact H2. }
  destruct (clip_live c s' t' v' audio' _ _ _ _ H1 Hnot) as (f & Ef & Ev & _). by exists f, (sample_for v' (-1)).
Qed.

(** ** The pre-buffers main creates *)

Lemma smear_bit n k i : 0 <= k -> 0 <= i -> Z.testbit (Z.lor n (Z.shiftr n k)) i = Z.testbit n i || Z.testbit n (i + k).
Proof. intros Hk Hi. by rewrite Z.lor_spec, Z.shiftr_spec. Qed.

Ltac add_literals :=
  repeat match goal with |- context [Z.add (Zpos ?a) (Zpos ?b)] =>
    let v := eval vm_compute in (Z.add (Zpos a) (Zpos b)) in change (Z.add (Zpos a) (Zpos b)) with v end.

(** The five shifts fill every bit below the highest one. *)
Lemma smear_ones n : 0 < n < 2 ^ 32 ->
  let n1 := Z.lor n (Z.shiftr n 1) in let n2 := Z.lor n1 (Z.shiftr n1 2) in let n3 := Z.lor n2 (Z.shiftr n2 4) in
  let n4 := Z.lor n3 (Z.shiftr n3 8) in Z.lor n4 (Z.shiftr n4 16) = 2 ^ (Z.log2 n + 1) - 1.
Proof.
  intros Hn n1 n2 n3 n4. pose proof (Z.log2_nonneg n) as H0. pose proof (Z.log2_lt_pow2 n 32 ltac:(lia)) as [H1 _]. specialize (H1 ltac:(lia)).
  apply Z.bits_inj'. intros i Hi.
  assert (Hones : Z.testbit (2 ^ (Z.log2 n + 1) - 1) i = (i <? Z.log2 n + 1)).
  { replace (2 ^ (Z.log2 n + 1) - 1) with (Z.ones (Z.log2 n + 1)) by (rewrite Z.ones_equiv; lia). by rewrite Z.testbit_ones_nonneg by lia. }
  rewrite Hones. unfold n4, n3, n2, n1. rewrite !smear_bit by lia.
  destruct (Z.ltb_spec i (Z.log2 n + 1)) as [Hlt|Hge].
  - pose proof (Z.bit_log2 n ltac:(lia)) as Hb.
    assert (Hd : exists d, 0 <= d < 32 /\ Z.log2 n = i + d) by (exists (Z.log2 n - i); lia). destruct Hd as (d & Hd & Ed).
    assert (Hcase : In d (map Z.of_nat (seq 0 32))) by (apply in_map_iff; exists (Z.to_nat d); split; [lia|apply in_seq; lia]).
    rewrite Ed in Hb. rewrite <- !Z.add_assoc. add_literals. vm_compute in Hcase.
    repeat (destruct Hcase as [Hcase|Hcase]; [subst d; rewrite ?Z.add_0_r in Hb; rewrite Hb, ?orb_true_r; done|]). done.
  - rewrite !(Z.bits_above_log2 n) by lia. done.
Qed.

(** The least power of two that is not less. *)
Lemma next_pow2_spec n : 0 < n <= 2 ^ 31 -> next_pow2 n = 2 ^ Z.log2_up n.
Proof.
  intros Hn. unfold next_pow2. destruct (Z.eqb_spec n 0); [lia|]. rewrite (uwrap_id 32 (n - 1)) by (unfold in_u; lia).
  destruct (Z.eqb_spec n 1) as [->|Hne]; [done|].
  rewrite smear_ones by lia. rewrite Z.log2_up_eqn by lia. rewrite <- Z.sub_1_r. set (l := Z.log2 (n - 1)).
  replace (2 ^ (l + 1) - 1 + 1) with (2 ^ Z.succ l) by (rewrite Z.add_1_r; lia). unfold l.
  apply uwrap_id. unfold in_u. assert (Z.log2 (n - 1) < 31) by (apply Z.log2_lt_pow2; lia).
  split; [apply Z.pow_nonneg; lia|]. apply Z.pow_lt_mono_r; lia.
Qed.

Lemma pow2_land k : 0 <= k -> Z.land (2 ^ k) (2 ^ k - 1) = 0.
Proof. intros Hk. rewrite land_mask by done. apply Z.mod_same. apply Z.pow_nonzero; lia. Qed.

Lemma create_succeeds garbage k size : 0 <= k < 32 -> 0 < size < 2 ^ 31 -> Z.of_nat (length garbage) = size ->
  exists pb, rmr_prebuf_create true garbage (2 ^ k) size = Some pb /\ pb_inv [] 0 pb /\ pb_capacity pb = 2 ^ k /\ pb_data_size pb = size.
Proof.
  intros Hk Hs Hg. assert (Hp : 0 < 2 ^ k) by (apply Z.pow_pos_nonneg; lia).
  assert (E : rmr_prebuf_create true garbage (2 ^ k) size =
    Some (mk_rmr_prebuf (replicate (Z.to_nat (2 ^ k)) (mk_rmr_prebuf_slot 0 0 0 false)) (2 ^ k) (2 ^ k - 1) 0 0 garbage size 0)).
  { unfold rmr_prebuf_create. rewrite pow2_land by lia. destruct (Z.eqb_spec (2 ^ k) 0); [lia|]. cbn [Z.eqb negb orb].
    by destruct (Z.eqb_spec size 0); [lia|]. }
  eexists. split; [exact E|]. destruct (create_inv _ _ _ _ E) as (H1 & H2 & H3); [by exists k|done|lia|done].
Qed.

(** The pre-roll has room for what is promised.  For any configured length and
    any plausible frame rate, the number of slots main computes is the least power
    of two that holds the pre-buffer's seconds and one more, so that the pre-buffer
    is created and consistent, and its data region is between one and ten
    megabytes. *)
Theorem rmr_prebuffers_sized e mode sec : mode = RMR_MODE_MOTION \/ mode = RMR_MODE_BOTH -> sec = clamp_prebuffer (e_prebuffer_sec e) ->
  0 < sec -> e_alloc_ok e = true -> (forall n, 0 <= n -> Z.of_nat (length (e_malloc e n)) = n) -> 0 <= e_fps_num e <= 10000 ->
  let fps := if e_fps_num e >? 0 then e_fps_num e else 25 in
  exists vpb, (prebuffers e mode sec).1 = Some vpb /\ pb_inv [] 0 vpb /\
    pb_capacity vpb = 2 ^ Z.log2_up (fps * (sec + 1)) /\ fps * (sec + 1) <= pb_capacity vpb /\
    1048576 <= pb_data_size vpb <= 10485760.
Proof.
  intros Hm Hsec Hpos Hal Hmal Hfps fps. assert (Hs5 : sec <= 5).
  { rewrite Hsec. unfold clamp_prebuffer. destruct (Z.gtb_spec (if e_prebuffer_sec e <? 0 then 0 else e_prebuffer_sec e) 5); lia. }
  assert (Hf : 0 < fps <= 10000) by (unfold fps; destruct (Z.gtb_spec (e_fps_num e) 0); lia).
  unfold prebuffers. destruct (Z.gtb_spec sec 0); [|lia].
  assert (Emode : (mode =? RMR_MODE_MOTION) || (mode =? RMR_MODE_BOTH) = true) by (by destruct Hm as [-> | ->]).
  rewrite Emode, Hal. cbn [andb fst]. unfold video_pb_slots. fold fps.
  rewrite (uwrap_id 32 (fps * sec)) by (unfold in_u; nia). rewrite (uwrap_id 32 (fps * sec + fps)) by (unfold in_u; nia).
  replace (fps * sec + fps) with (fps * (sec + 1)) by lia.
  rewrite next_pow2_spec by nia.
  assert (Hsz : 1048576 <= video_pb_bytes (e_bitrate e) sec <= 10485760).
  { unfold video_pb_bytes. cbv zeta. generalize (u64 (u32 (e_bitrate e) * sec * 5) / 2 / 8). intros x.
    destruct (Z.ltb_spec x (1024 * 1024)) as [|]; [by vm_compute|]. destruct (Z.gtb_spec x (10 * 1024 * 1024)); lia. }
  assert (Hlog : 0 <= Z.log2_up (fps * (sec + 1)) < 32).
  { split; [apply Z.log2_up_nonneg|]. apply Z.le_lt_trans with (Z.log2_up (2 ^ 16)); [apply Z.log2_up_le_mono; nia|done]. }
  destruct (create_succeeds (e_malloc e (video_pb_bytes (e_bitrate e) sec)) _ (video_pb_bytes (e_bitrate e) sec) Hlog)
    as (pb & E & H1 & H2 & H3); [lia|apply Hmal; lia|].
  exists pb. rewrite E, H2, H3. split_and!; try done; try lia. destruct (Z.eq_dec (fps * (sec + 1)) 1) as [E1|]; [nia|].
  apply Z.log2_up_spec. nia.
Qed.

(** ** Examples *)

Definition clip_config : rmr_config := mk_rmr_config RMR_MODE_MOTION 5 60 false false (c_storage demo_start.1).
Definition clip_key : vframe := mk_vframe [1; 2; 3] 5000 true.
Definition clip_delta : vframe := mk_vframe [4; 5] 45000 false.
Definition clip_source : source :=
  (r_source demo_start.2) <| s_video_pb := push_opt (vf_data clip_key) (vf_ts clip_key) (vf_key clip_key) (Some demo_pb) |>.
Definition clip_tick (now_us : Z) : tick :=
  mk_tick None true false None None Rd_error [] [] 0 true 0 true 0 true true true 1000 now_us true now_us 0 0 true true.

Lemma demo_pb_inv : pb_inv [] 0 demo_pb.
Proof. by destruct (create_inv (replicate 10 0) 4 10 demo_pb eq_refl ltac:(by exists 2) eq_refl ltac:(done)). Qed.

Lemma rmr_clip_repeats_trigger_witness :
  exists f vs x, kp_mux (clip_handling clip_config clip_source (clip_tick 2000) true clip_key [] (mk_clips None 0 0 0 0 [])) = Some f /\
    videos f = vs ++ [x; x] /\ as_frame x = ([1; 2; 3], true).
Proof.
  refine (rmr_clip_repeats_trigger clip_config clip_source (clip_tick 2000) clip_key [] (mk_clips None 0 0 0 0 []) [] 0 demo_pb
    eq_refl eq_refl eq_refl demo_pb_inv _ _ eq_refl _ _); [by vm_compute|done|by vm_compute|reflexivity].
Defined.

Lemma rmr_clip_continuation_mid_gop_witness :
  exists f x, kp_mux (clip_handling clip_config clip_source (clip_tick 90001000) true clip_delta []
      (clip_handling clip_config clip_source (clip_tick 90000000) true clip_delta []
        (clip_handling clip_config clip_source (clip_tick 2000) true clip_key [] (mk_clips None 0 0 0 0 [])))) = Some f /\
    videos f = [x] /\ vs_is_key x = false.
Proof.
  eapply (rmr_clip_continuation_mid_gop clip_config clip_source clip_source (clip_tick 90000000) (clip_tick 90001000) clip_delta clip_delta
    [] [] (clip_handling clip_config clip_source (clip_tick 2000) true clip_key [] (mk_clips None 0 0 0 0 []))).
  - eexists. vm_compute. split; [reflexivity|]. split; [reflexivity|]. split; reflexivity.
  - vm_compute. reflexivity.
  - reflexivity.
  - reflexivity.
  - reflexivity.
Defined.

Lemma rmr_prebuffers_sized_witness :
  exists vpb, (prebuffers demo_env RMR_MODE_BOTH 5).1 = Some vpb /\ pb_inv [] 0 vpb /\ pb_capacity vpb = 256.
Proof.
  destruct (rmr_prebuffers_sized demo_env RMR_MODE_BOTH 5 (or_intror eq_refl) eq_refl eq_refl eq_refl) as (vpb & H1 & H2 & H3 & _).
  - intros n Hn. cbn [e_malloc demo_env]. rewrite length_replicate. lia.
  - cbn. lia.
  - exists vpb. split; [exact H1|]. split; [exact H2|]. exact H3.
Defined.
