(* ===== verification/RmrReplay.v ===== *)
(** * rmr: the recorded calls on the muxer

    The calls a segment consists of ([RmrRecord]) run on the muxer of [Mux]: a
    fragment never fills the sample tables or the data buffers, so the muxer
    refuses no sample. *)

From stdpp Require Import list strings.
From S2P Require Import Prelude Mux MuxProps MuxRoundtrip RmrStorage RmrRecord RmrRecordProps.

Section replay.
Context {W : Type} `{!ByteSink W}.
Context (rss_aac_asc : Z -> Z -> Z -> option (list Z)).
(** What a signature box does to the callback's state. *)
Context (sign_begin : W -> W) (sign_emit : bool -> W -> W).
(** A card that takes every write. *)
Context (healthy : forall b (w : W), (sink_write b w).1 = 0).
Implicit Types m : rmr_mux W.

(** One recorded call: what the muxer answers, and the muxer after it. *)
Definition run_call (mc : mux_call) m : Z * rmr_mux W :=
  match mc with
  | Mc_start => rmr_mux_start rss_aac_asc m
  | Mc_video s => rmr_mux_write_video true s m
  | Mc_audio s => rmr_mux_write_audio true s m
  | Mc_flush => rmr_mux_flush_fragment m
  | Mc_finalize => rmr_mux_finalize m
  | Mc_sign_begin => (0, m <| mx_sink := sign_begin (mx_sink m) |>)
  | Mc_sign_emit final => (0, m <| mx_sink := sign_emit final (mx_sink m) |>)
  end.

Fixpoint run_calls (cs : list mux_call) m : list Z * rmr_mux W :=
  match cs with
  | [] => ([], m)
  | mc :: cs => let '(r, m) := run_call mc m in let '(rs, m) := run_calls cs m in (r :: rs, m)
  end.

Lemma run_calls_app cs cs' m :
  run_calls (cs ++ cs') m = ((run_calls cs m).1 ++ (run_calls cs' (run_calls cs m).2).1, (run_calls cs' (run_calls cs m).2).2).
Proof.
  revert m. induction cs as [|mc cs IH]; intros m; cbn [run_calls app fst snd]; [by destruct (run_calls cs' m)|].
  destruct (run_call mc m) as [r m1]. rewrite IH. by destruct (run_calls cs m1).
Qed.

(** ** The data buffers *)

(** The capacities doubling can reach. *)
Definition cap_ok (cap : Z) : Prop := cap = 0 \/ exists k, 18 <= k <= 31 /\ cap = 2 ^ k.

Lemma grow_cap_ok fuel k need : 18 <= k <= 31 -> need <= 2 ^ 31 -> 31 - k <= Z.of_nat fuel ->
  exists k', k <= k' <= 31 /\ grow_cap fuel (2 ^ k) need = Some (2 ^ k').
Proof.
  revert k. induction fuel as [|fuel IH]; intros k Hk Hn Hf; cbn [grow_cap].
  - assert (k = 31) as -> by lia. exists 31. split; [lia|]. by rewrite (proj2 (Z.leb_le _ _)) by lia.
  - destruct (Z.leb_spec need (2 ^ k)) as [Hle|Hgt]; [exists k; split; [lia|done]|].
    assert (Hlt : k < 31) by (destruct (Z.eq_dec k 31) as [->|]; lia).
    assert (2 ^ k <= 2 ^ 30) by (apply Z.pow_le_mono_r; lia).
    replace (2 ^ k >? UINT32_MAX / 2) with false by (symmetry; rewrite Z.gtb_ltb; apply Z.ltb_ge; change (UINT32_MAX / 2) with 2147483647; lia).
    rewrite <- Z.pow_succ_r by lia. destruct (IH (Z.succ k)) as (k' & Hk' & E); [lia|done|lia|]. exists k'. split; [lia|done].
Qed.

Lemma buf_append_ok buf cap data : cap_ok cap -> Z.of_nat (length buf) + Z.of_nat (length data) <= 2 ^ 31 ->
  exists cap', buf_append true buf cap data = Some (buf ++ data, cap') /\ cap_ok cap'.
Proof.
  intros Hc Hl. unfold buf_append. change UINT32_MAX with 4294967295.
  destruct (Z.gtb_spec (Z.of_nat (length data)) (4294967295 - Z.of_nat (length buf))); [lia|].
  destruct (Z.leb_spec (Z.of_nat (length buf) + Z.of_nat (length data)) cap); [by exists cap|].
  assert (Hk : exists k, 18 <= k <= 31 /\ (if cap =? 0 then 262144 else cap) = 2 ^ k).
  { destruct Hc as [-> | (k & Hk & ->)]; [by exists 18|]. exists k. split; [done|].
    destruct (Z.eqb_spec (2 ^ k) 0) as [E|]; [|done]. pose proof (Z.pow_pos_nonneg 2 k). lia. }
  destruct Hk as (k & Hk & ->). destruct (grow_cap_ok 32 k _ Hk Hl) as (k' & Hk' & ->); [lia|].
  eexists. split; [reflexivity|]. right. exists k'. split; [lia|done].
Qed.

(** ** Fragments *)

(** [n] frames of at most [L] bytes and their audio are pending. *)
Record pending (L n : Z) m : Prop := {
  pe_v : Z.of_nat (length (mx_v_samples m)) = n;
  pe_a : Z.of_nat (length (mx_a_samples m)) <= 4 * n;
  pe_vd : Z.of_nat (length (mx_v_data m)) <= n * L;
  pe_ad : Z.of_nat (length (mx_a_data m)) <= 4 * n * 8192;
  pe_caps : cap_ok (mx_v_data_cap m) /\ cap_ok (mx_a_data_cap m)
}.

Definition fits_v (L : Z) (s : rmr_video_sample) : Prop := 0 < Z.of_nat (length (vs_data s)) <= L.
Definition fits_a (s : rmr_audio_sample) : Prop := 0 < Z.of_nat (length (as_data s)) <= 8192.

Lemma video_accepted L n s m : pending L n m -> fits_v L s -> n < 10 -> 10 * L <= 2 ^ 31 -> 0 <= n ->
  exists m', rmr_mux_write_video true s m = (0, m') /\ Z.of_nat (length (mx_v_samples m')) = n + 1 /\
    Z.of_nat (length (mx_v_data m')) <= (n + 1) * L /\ cap_ok (mx_v_data_cap m') /\
    mx_a_samples m' = mx_a_samples m /\ mx_a_data m' = mx_a_data m /\ mx_a_data_cap m' = mx_a_data_cap m.
Proof.
  intros [P1 P2 P3 P4 [P5 P6]] Hs Hn HL H0. unfold fits_v in Hs. unfold rmr_mux_write_video.
  rewrite (proj2 (Nat.eqb_neq _ 0)) by lia. rewrite (proj2 (Nat.leb_gt _ _)) by (unfold MUX_MAX_SAMPLES; lia).
  set (m1 := if (length (mx_v_samples m) =? 0)%nat then _ else m).
  assert (E : mx_v_samples m1 = mx_v_samples m /\ mx_v_data m1 = mx_v_data m /\ mx_v_data_cap m1 = mx_v_data_cap m /\
              mx_a_samples m1 = mx_a_samples m /\ mx_a_data m1 = mx_a_data m /\ mx_a_data_cap m1 = mx_a_data_cap m)
    by (unfold m1; by destruct (_ =? 0)%nat).
  clearbody m1. destruct E as (E1 & E2 & E3 & E4 & E5 & E6). cbv zeta. set (m2 := set_field mx_v_samples _ m1).
  assert (F : mx_v_samples m2 = patch_duration (mx_v_base_dts m1) (vs_dts s) (mx_v_samples m1) /\ mx_v_data m2 = mx_v_data m1 /\
              mx_v_data_cap m2 = mx_v_data_cap m1 /\ mx_a_samples m2 = mx_a_samples m1 /\ mx_a_data m2 = mx_a_data m1 /\
              mx_a_data_cap m2 = mx_a_data_cap m1) by done.
  clearbody m2. destruct F as (F1 & F2 & F3 & F4 & F5 & F6). rewrite F2, F3, E2, E3.
  destruct (buf_append_ok (mx_v_data m) (mx_v_data_cap m) (vs_data s) P5) as (cap & -> & Hcap); [nia|].
  eexists. split; [reflexivity|]. cbn [mx_v_samples mx_v_data mx_v_data_cap mx_a_samples mx_a_data mx_a_data_cap set_field].
  rewrite !length_app, F1, patch_duration_length, E1. cbn [length]. split_and!; try congruence; nia.
Qed.

Lemma audio_accepted s m : Z.of_nat (length (mx_a_samples m)) < 2048 -> Z.of_nat (length (mx_a_data m)) + 8192 <= 2 ^ 31 ->
  cap_ok (mx_a_data_cap m) -> fits_a s ->
  exists m', rmr_mux_write_audio true s m = (0, m') /\ length (mx_a_samples m') = S (length (mx_a_samples m)) /\
    Z.of_nat (length (mx_a_data m')) <= Z.of_nat (length (mx_a_data m)) + 8192 /\ cap_ok (mx_a_data_cap m') /\
    mx_v_samples m' = mx_v_samples m /\ mx_v_data m' = mx_v_data m /\ mx_v_data_cap m' = mx_v_data_cap m.
Proof.
  intros P1 P2 P3 Hs. unfold fits_a in Hs. unfold rmr_mux_write_audio.
  rewrite (proj2 (Nat.eqb_neq _ 0)) by lia. rewrite (proj2 (Nat.leb_gt _ _)) by (unfold MUX_MAX_SAMPLES; lia).
  set (m1 := if (length (mx_a_samples m) =? 0)%nat then _ else m).
  assert (E : mx_v_samples m1 = mx_v_samples m /\ mx_v_data m1 = mx_v_data m /\ mx_v_data_cap m1 = mx_v_data_cap m /\
              mx_a_samples m1 = mx_a_samples m /\ mx_a_data m1 = mx_a_data m /\ mx_a_data_cap m1 = mx_a_data_cap m)
    by (unfold m1; by destruct (_ =? 0)%nat).
  clearbody m1. destruct E as (E1 & E2 & E3 & E4 & E5 & E6). cbv zeta. set (m2 := set_field mx_a_samples _ m1).
  assert (F : mx_a_samples m2 = patch_duration (mx_a_base_dts m1) (as_dts s) (mx_a_samples m1) /\ mx_v_data m2 = mx_v_data m1 /\
              mx_v_data_cap m2 = mx_v_data_cap m1 /\ mx_v_samples m2 = mx_v_samples m1 /\ mx_a_data m2 = mx_a_data m1 /\
              mx_a_data_cap m2 = mx_a_data_cap m1) by done.
  clearbody m2. destruct F as (F1 & F2 & F3 & F4 & F5 & F6). rewrite F5, F6, E5, E6.
  destruct (buf_append_ok (mx_a_data m) (mx_a_data_cap m) (as_data s) P3) as (cap & -> & Hcap); [lia|].
  eexists. split; [reflexivity|]. cbn [mx_v_samples mx_v_data mx_v_data_cap mx_a_samples mx_a_data mx_a_data_cap set_field].
  rewrite !length_app, F1, patch_duration_length, E4. cbn [length]. split_and!; try congruence; lia.
Qed.

(** The audio of one frame. *)
Lemma audios_accepted l m : Z.of_nat (length (mx_a_samples m) + length l) <= 2048 ->
  Z.of_nat (length (mx_a_data m)) + Z.of_nat (length l) * 8192 <= 2 ^ 31 -> cap_ok (mx_a_data_cap m) -> Forall fits_a l ->
  exists m', run_calls (Mc_audio <$> l) m = (replicate (length l) 0, m') /\
    length (mx_a_samples m') = (length (mx_a_samples m) + length l)%nat /\
    Z.of_nat (length (mx_a_data m')) <= Z.of_nat (length (mx_a_data m)) + Z.of_nat (length l) * 8192 /\ cap_ok (mx_a_data_cap m') /\
    mx_v_samples m' = mx_v_samples m /\ mx_v_data m' = mx_v_data m /\ mx_v_data_cap m' = mx_v_data_cap m.
Proof.
  revert m. induction l as [|s l IH]; intros m H1 H2 H3 Hl; cbn [length fmap list_fmap run_calls run_call replicate] in *.
  - exists m. split_and!; try done; lia.
  - apply Forall_cons in Hl as [Hs Hl]. destruct (audio_accepted s m) as (m1 & E & A1 & A2 & A3 & A4 & A5 & A6); [lia|lia|done|done|].
    destruct (IH m1) as (m2 & E2 & B1 & B2 & B3 & B4 & B5 & B6); [lia|lia|done|done|].
    exists m2. cbn [run_call]. rewrite E. cbn [list_fmap fmap] in E2. rewrite E2. split_and!; try congruence; lia.
Qed.

(** ** Flushes *)

Lemma bb_flush_taken m : exists r m', bb_flush m = (r, m') /\ r = 0.
Proof.
  unfold bb_flush. destruct (mx_box m) as [|x b]; [by eexists _, _|]. pose proof (healthy (x :: b) (mx_sink m)) as H.
  destruct (sink_write (x :: b) (mx_sink m)) as [r w]. cbn [fst] in H. eexists _, _. by split.
Qed.

Lemma write_chunks_taken fuel data m : exists r m', write_chunks fuel data m = (r, m') /\ r = 0.
Proof.
  revert data m. induction fuel as [|fuel IH]; intros data m; [by eexists _, _|]. destruct data as [|x data]; [by eexists _, _|].
  cbn [write_chunks]. pose proof (healthy (take MUX_WRITE_CHUNK (x :: data)) (mx_sink m)) as H.
  destruct (sink_write _ _) as [r w]. cbn [fst] in H. rewrite (proj2 (Z.ltb_ge _ _)) by lia. apply IH.
Qed.

Lemma write_fragment_taken m : mx_v_samples m <> [] ->
  exists m', write_fragment m = (0, m') /\ idle m' /\ mx_v_data_cap m' = mx_v_data_cap m /\ mx_a_data_cap m' = mx_a_data_cap m.
Proof.
  intros Hne. unfold write_fragment.
  assert (Hc : ((length (mx_v_samples m) =? 0)%nat && (length (mx_a_samples m) =? 0)%nat) = false)
    by (by destruct (mx_v_samples m)).
  rewrite Hc. cbv zeta. set (m0 := set_field mx_frag_seq _ m).
  assert (E0 : mx_v_data_cap m0 = mx_v_data_cap m /\ mx_a_data_cap m0 = mx_a_data_cap m) by done. clearbody m0. destruct E0 as [<- <-].
  destruct (bb_flush_taken (m0 <| mx_box := moof_box m0 |>)) as (r1 & m1 & E1 & H1). rewrite E1, (proj2 (Z.ltb_ge _ _)) by lia.
  apply bb_flush_ok in E1 as [_ (w1 & b1 & ->)]; [|done || lia..].
  match goal with |- context [bb_flush ?x] => destruct (bb_flush_taken x) as (r2 & m2 & E2 & H2) end.
  rewrite E2, (proj2 (Z.ltb_ge _ _)) by lia. apply bb_flush_ok in E2 as [_ (w2 & b2 & ->)]; [|done || lia..].
  match goal with |- context [write_chunks ?f ?d ?x] => destruct (write_chunks_taken f d x) as (r3 & m3 & E3 & H3) end.
  rewrite E3, (proj2 (Z.ltb_ge _ _)) by lia. apply write_chunks_ok in E3 as [_ (w3 & b3 & ->)]; [|done || lia..].
  match goal with |- context [write_chunks ?f ?d ?x] => destruct (write_chunks_taken f d x) as (r4 & m4 & E4 & H4) end.
  rewrite E4, (proj2 (Z.ltb_ge _ _)) by lia. apply write_chunks_ok in E4 as [_ (w4 & b4 & ->)]; [|done || lia..].
  eexists. split; [reflexivity|]. done.
Qed.

Lemma patch_last_nil dflt l : patch_last dflt l = [] -> l = [].
Proof.
  intros H. assert (E : length (patch_last dflt l) = length l).
  { unfold patch_last. destruct (reverse l) as [|s [|p rest]] eqn:Er.
    - apply (f_equal reverse) in Er. rewrite reverse_involutive in Er. by subst.
    - destruct (negb _); [done|]. by rewrite length_insert.
    - destruct (negb _); [done|]. by rewrite length_insert. }
  rewrite H in E. symmetry in E. by apply length_zero_iff_nil in E.
Qed.

Lemma flush_taken m : mx_v_samples m <> [] ->
  exists m', rmr_mux_flush_fragment m = (0, m') /\ idle m' /\ mx_v_data_cap m' = mx_v_data_cap m /\ mx_a_data_cap m' = mx_a_data_cap m.
Proof.
  intros Hne. unfold rmr_mux_flush_fragment. cbv zeta. set (m1 := set_field mx_a_samples _ _).
  assert (E : mx_v_data_cap m1 = mx_v_data_cap m /\ mx_a_data_cap m1 = mx_a_data_cap m /\
              mx_v_samples m1 = patch_last (if vp_default_duration (mx_video m) >? 0 then vp_default_duration (mx_video m)
                else if vp_timescale (mx_video m) >? 0 then vp_timescale (mx_video m) / 25 else 0) (mx_v_samples m)) by done.
  clearbody m1. destruct E as (<- & <- & E). apply write_fragment_taken. rewrite E. intros H. by apply patch_last_nil in H.
Qed.

(** ** Segments *)

Definition accepted (rs : list Z) : Prop := Forall (fun r => r = 0) rs.

(** The signer's calls change nothing the muxer counts. *)
Lemma run_emit c final m : exists m', (run_calls (emit c final) m) = (if c_sign_enabled c then [0] else [], m') /\
  exists w, m' = m <| mx_sink := w |>.
Proof.
  unfold emit. destruct (c_sign_enabled c); cbn [run_calls run_call]; [by eexists; split; [|eexists]|].
  exists m. split; [done|]. exists (mx_sink m). by destruct m.
Qed.

Lemma pending_sink L n m w : pending L n m -> pending L n (m <| mx_sink := w |>).
Proof. intros [P1 P2 P3 P4 P5]. by split. Qed.

(** The frame and its audio, after the flush if there is one. *)
Lemma samples_accepted L n u m : pending L n m -> 0 <= n < 10 -> 10 * L <= 2 ^ 31 -> (length (u_audio u) <= 4)%nat ->
  fits_v L (u_video u) -> Forall fits_a (u_audio u) ->
  exists m', run_calls (Mc_video (u_video u) :: (Mc_audio <$> u_audio u)) m = (0 :: replicate (length (u_audio u)) 0, m') /\ pending L (n + 1) m'.
Proof.
  intros Hp Hn HL Hlen Hv Ha. pose proof Hp as [P1 P2 P3 P4 [P5 P6]].
  destruct (video_accepted L n (u_video u) m Hp Hv ltac:(lia) HL ltac:(lia)) as (m1 & E & A1 & A2 & A3 & A4 & A5 & A6).
  destruct (audios_accepted (u_audio u) m1) as (m2 & E2 & B1 & B2 & B3 & B4 & B5 & B6); [rewrite A4; lia|rewrite A5; lia|by rewrite A6|done|].
  exists m2. cbn [run_calls run_call]. rewrite E, E2. split; [done|].
  split; [by rewrite B4|rewrite B1, A4; lia|by rewrite B5|rewrite A5 in B2; lia|by rewrite B6].
Qed.

Lemma idle_pending L m : idle m -> cap_ok (mx_v_data_cap m) -> cap_ok (mx_a_data_cap m) -> pending L 0 m.
Proof. intros (I1 & I2 & I3 & I4 & _) C1 C2. split; rewrite ?I1, ?I2, ?I3, ?I4; done. Qed.

Lemma flush_accepted c L n m : pending L n m -> 1 <= n ->
  exists m', run_calls (flush_calls c) m = (0 :: (if c_sign_enabled c then [0] else []), m') /\ pending L 0 m' /\ idle m'.
Proof.
  intros Hp Hn. pose proof Hp as [P1 _ _ _ [P5 P6]].
  destruct (flush_taken m) as (m1 & E & Hi & C1 & C2); [intros E; rewrite E in P1; cbn in P1; lia|].
  unfold flush_calls. cbn [run_calls run_call]. rewrite E. destruct (run_emit c false m1) as (m2 & -> & w & ->).
  eexists. split; [reflexivity|]. split; [|done]. apply pending_sink, idle_pending; [done|by rewrite C1|by rewrite C2].
Qed.

Lemma accepted_replicate n : accepted (replicate n 0).
Proof. apply Forall_replicate. done. Qed.

Lemma accepted_sign (b : bool) : accepted (if b then [0] else []).
Proof. destruct b; by repeat constructor. Qed.

Definition unit_fits (L : Z) (u : unit_of) : Prop := fits_v L (u_video u) /\ Forall fits_a (u_audio u).

Lemma unit_accepted c L n u m : pending L n m -> 0 <= n -> (if u_flush u then 1 <= n else n < 10) -> 10 * L <= 2 ^ 31 ->
  (length (u_audio u) <= 4)%nat -> unit_fits L u ->
  exists rs m', run_calls (unit_calls c u) m = (rs, m') /\ accepted rs /\ pending L (if u_flush u then 1 else n + 1) m'.
Proof.
  intros Hp Hn Hf HL Hlen [Hv Ha]. unfold unit_calls. destruct (u_flush u).
  - destruct (flush_accepted c L n m Hp Hf) as (m1 & E1 & Hp1 & _).
    destruct (samples_accepted L 0 u m1 Hp1 ltac:(lia) HL Hlen Hv Ha) as (m2 & E2 & Hp2).
    rewrite run_calls_app, E1. cbn [fst snd]. change ([Mc_video (u_video u)] ++ ?l) with (Mc_video (u_video u) :: l). rewrite E2.
    eexists _, _. split; [reflexivity|]. split; [|exact Hp2]. cbn [fst]. apply Forall_app. split.
    + constructor; [done|apply accepted_sign].
    + constructor; [done|apply accepted_replicate].
  - destruct (samples_accepted L n u m Hp ltac:(lia) HL Hlen Hv Ha) as (m2 & E2 & Hp2). cbn [app]. rewrite E2.
    eexists _, _. split; [reflexivity|]. split; [|exact Hp2]. constructor; [done|apply accepted_replicate].
Qed.

Lemma segment_accepted c L n us m : segment_of n us -> idle m -> cap_ok (mx_v_data_cap m) -> cap_ok (mx_a_data_cap m) ->
  10 * L <= 2 ^ 31 -> Forall (unit_fits L) us ->
  exists rs m', run_calls (units_calls c us) m = (rs, m') /\ accepted rs /\ pending L n m' /\ 1 <= n <= 10.
Proof.
  intros Hs Hi C1 C2 HL. pose proof (idle_pending L m Hi C1 C2) as H0.
  induction Hs as [u Hf Hk Hd Hl|n us u Hs IH Hf Hl|n us u Hs IH Hf Hk Hn Hl]; intros Hfit.
  - apply Forall_cons in Hfit as [Hfit _]. destruct (unit_accepted c L 0 u m H0 ltac:(lia) ltac:(rewrite Hf; lia) HL Hl Hfit) as (rs & m' & E & Ha & Hp).
    rewrite Hf in Hp. exists rs, m'. unfold units_calls. cbn [fmap list_fmap concat]. rewrite app_nil_r. split_and!; try done; lia.
  - apply Forall_app in Hfit as [Hfit Hu]. apply Forall_cons in Hu as [Hu _]. destruct (IH Hfit) as (rs & m' & E & Ha & Hp & Hn).
    destruct (unit_accepted c L n u m' Hp ltac:(lia) ltac:(rewrite Hf; lia) HL Hl Hu) as (rs2 & m2 & E2 & Ha2 & Hp2).
    rewrite Hf in Hp2. exists (rs ++ rs2), m2. rewrite units_calls_snoc, run_calls_app, E. cbn [fst snd]. rewrite E2.
    split_and!; try done; try lia. by apply Forall_app.
  - apply Forall_app in Hfit as [Hfit Hu]. apply Forall_cons in Hu as [Hu _]. destruct (IH Hfit) as (rs & m' & E & Ha & Hp & Hn').
    destruct (unit_accepted c L n u m' Hp ltac:(lia) ltac:(rewrite Hf; lia) HL Hl Hu) as (rs2 & m2 & E2 & Ha2 & Hp2).
    rewrite Hf in Hp2. exists (rs ++ rs2), m2. rewrite units_calls_snoc, run_calls_app, E. cbn [fst snd]. rewrite E2.
    split_and!; try done; try lia. by apply Forall_app.
Qed.

Lemma start_accepted m : idle m -> mx_has_video m = true -> exists m', rmr_mux_start rss_aac_asc m = (0, m') /\ idle m' /\
  mx_v_data_cap m' = mx_v_data_cap m /\ mx_a_data_cap m' = mx_a_data_cap m.
Proof.
  intros Hi Hv. unfold rmr_mux_start, write_ftyp, write_moov. rewrite Hv. cbn [negb andb].
  destruct (bb_flush_taken (m <| mx_box := ftyp_box [] |>)) as (r1 & m1 & E1 & H1). rewrite E1, (proj2 (Z.ltb_ge _ _)) by lia.
  apply bb_flush_ok in E1 as [_ (w1 & b1 & ->)]; [|lia].
  match goal with |- context [bb_flush ?x] => destruct (bb_flush_taken x) as (r2 & m2 & E2 & H2) end.
  rewrite E2, (proj2 (Z.ltb_ge _ _)) by lia. apply bb_flush_ok in E2 as [_ (w2 & b2 & ->)]; [|lia].
  eexists. split; [reflexivity|]. destruct Hi as (I1 & I2 & I3 & I4 & _). by split_and!.
Qed.

Lemma header_accepted c m : idle m -> mx_has_video m = true -> exists rs m', run_calls (header_calls c) m = (rs, m') /\ accepted rs /\
  idle m' /\ mx_v_data_cap m' = mx_v_data_cap m /\ mx_a_data_cap m' = mx_a_data_cap m.
Proof.
  intros Hi Hv. unfold header_calls. rewrite run_calls_app.
  assert (Hb : exists w, run_calls (begin c) m = (if c_sign_enabled c then [0] else [], m <| mx_sink := w |>)).
  { unfold begin. destruct (c_sign_enabled c); cbn [run_calls run_call]; [by eexists|]. exists (mx_sink m). by destruct m. }
  destruct Hb as (w & ->). cbn [fst snd].
  destruct (start_accepted (m <| mx_sink := w |>)) as (m1 & E1 & Hi1 & C1 & C2); [done|done|]. cbn [app run_calls run_call]. rewrite E1.
  destruct (run_emit c false m1) as (m2 & -> & w2 & ->). eexists _, _. split; [reflexivity|].
  split; [|done]. apply Forall_app. split; [apply accepted_sign|]. constructor; [done|apply accepted_sign].
Qed.

Lemma finalize_accepted L n m : pending L n m -> 0 <= n -> (n = 0 -> idle m) -> exists m', rmr_mux_finalize m = (0, m').
Proof.
  intros [P1 P2 _ _ _] Hn Hi. unfold rmr_mux_finalize.
  assert (Hfl : exists m1, (if (0 <? length (mx_v_samples m))%nat || (0 <? length (mx_a_samples m))%nat
                            then rmr_mux_flush_fragment m else (0, m)) = (0, m1)).
  { destruct (Z.eq_dec n 0) as [E|E].
    - destruct (Hi E) as (-> & -> & _). by exists m.
    - rewrite (proj2 (Nat.ltb_lt _ _)) by lia. cbn [orb].
      destruct (flush_taken m) as (m1 & E1 & _); [intros E0; rewrite E0 in P1; cbn in P1; lia|by exists m1]. }
  destruct Hfl as (m1 & ->). cbn [Z.ltb Z.compare]. destruct (bb_flush_taken (m1 <| mx_box := mfra_box |>)) as (r & m2 & E & ->). by exists m2.
Qed.

Lemma closed_accepted c L cs m : closed_shape c cs -> idle m -> mx_has_video m = true ->
  cap_ok (mx_v_data_cap m) -> cap_ok (mx_a_data_cap m) -> 10 * L <= 2 ^ 31 ->
  Forall (fun mc => match mc with Mc_video s => fits_v L s | Mc_audio s => fits_a s | _ => True end) cs ->
  accepted (run_calls cs m).1.
Proof.
  intros (n & us & fl & Hs & ->) Hi Hv C1 C2 HL Hfit.
  assert (Hu : Forall (unit_fits L) us).
  { apply Forall_app in Hfit as [_ Hfit]. apply Forall_app in Hfit as [Hfit _]. clear -Hfit. unfold units_calls in Hfit.
    induction us as [|u us IH]; [constructor|]. cbn [fmap list_fmap concat] in Hfit. apply Forall_app in Hfit as [H1 H2].
    constructor; [|by apply IH]. unfold unit_calls in H1. apply Forall_app in H1 as [_ H1]. apply Forall_cons in H1 as [H0 H1].
    split; [done|]. by apply Forall_fmap in H1. }
  destruct (header_accepted c m Hi Hv) as (rs0 & m0 & E0 & A0 & Hi0 & D1 & D2).
  destruct (segment_accepted c L n us m0 Hs Hi0 ltac:(by rewrite D1) ltac:(by rewrite D2) HL Hu) as (rs1 & m1 & E1 & A1 & Hp1 & Hn).
  assert (Hmid : exists rs2 m2 n2, run_calls (if fl then flush_calls c else []) m1 = (rs2, m2) /\ accepted rs2 /\ pending L n2 m2 /\
                   0 <= n2 /\ (n2 = 0 -> idle m2)).
  { destruct fl.
    - destruct (flush_accepted c L n m1 Hp1 ltac:(lia)) as (m2 & E & Hp & Hid). eexists _, m2, 0. split; [exact E|].
      split_and!; try done. constructor; [done|apply accepted_sign].
    - exists [], m1, n. split_and!; try done; [constructor|lia|lia]. }
  destruct Hmid as (rs2 & m2 & n2 & E2 & A2 & Hp2 & Hn2 & Hid2). destruct (finalize_accepted L n2 m2 Hp2 Hn2 Hid2) as (m3 & E3).
  rewrite run_calls_app, E0. cbn [fst snd]. rewrite run_calls_app, E1. cbn [fst snd]. rewrite run_calls_app, E2. cbn [fst snd].
  cbn [run_calls run_call]. rewrite E3. destruct (run_emit c true m3) as (m4 & -> & _). cbn [fst].
  repeat (apply Forall_app; split; [done|]). constructor; [done|apply accepted_sign].
Qed.

(** C16: the muxer takes everything it is given.  Run the calls recorded for any
    segment on a muxer whose tracks are set and whose card takes every write: with
    frames of up to L bytes, ten of which fit two gigabytes, and audio frames no
    larger than the loop's buffer, every call succeeds; no sample is ever refused
    because a fragment is full. *)
Theorem rmr_no_sample_refused RSS_SEI_TS_MAX e c ks st f m L : rmr_main_start RSS_SEI_TS_MAX e = Some (c, st) ->
  f ∈ cs_closed (r_segments (record_loop RSS_SEI_TS_MAX c ks st)) ->
  Forall (fun mc => match mc with Mc_video s => fits_v L s | Mc_audio s => fits_a s | _ => True end) (mf_calls f) -> 10 * L <= 2 ^ 31 ->
  idle m -> mx_has_video m = true -> mx_v_data_cap m = 0 -> mx_a_data_cap m = 0 ->
  Forall (fun r => r = 0) (run_calls (mf_calls f) m).1.
Proof.
  intros Hs Hf Hfit HL Hi Hv C1 C2.
  pose proof (si_closed _ _ (close_segment_inv _ _ (run_inv RSS_SEI_TS_MAX c ks st (start_inv RSS_SEI_TS_MAX e c st Hs)))) as Hc.
  apply (closed_accepted c L); try done; [|by left|by left]. rewrite Forall_forall in Hc. by apply Hc.
Qed.
End replay.

Definition demo_mux : rmr_mux (list Z) :=
  (rmr_mux_set_video (mk_rmr_video_params RMR_CODEC_H264 1920 1080 90000 0) [103; 66; 1] [104; 206; 2] [] (rmr_mux_create [])).2.

Lemma rmr_no_sample_refused_witness :
  Forall (fun r => r = 0) (run_calls (fun _ _ _ => None) id (fun _ => id)
    (default [] (mf_calls <$> (cs_closed (r_segments (record_loop 64 demo_start.1 demo_ticks demo_start.2)) !! 0%nat))) demo_mux).1.
Proof.
  set (f := cs_closed (r_segments (record_loop 64 demo_start.1 demo_ticks demo_start.2)) !! 0%nat).
  assert (Hf : exists f0, f = Some f0 /\ Forall (fun mc => match mc with Mc_video s => fits_v 100 s | Mc_audio s => fits_a s | _ => True end) (mf_calls f0)).
  { unfold f. eexists. split; [vm_compute; reflexivity|]. unfold fits_v, fits_a. repeat constructor; by vm_compute. }
  destruct Hf as (f0 & Ef & Hfit). rewrite Ef. cbn [fmap option_fmap option_map default].
  assert (Hin : f0 ∈ cs_closed (r_segments (record_loop 64 demo_start.1 demo_ticks demo_start.2)))
    by (apply list_elem_of_lookup_2 with 0%nat; exact Ef).
  assert (Hidle : idle demo_mux) by (vm_compute; auto).
  exact (rmr_no_sample_refused (fun _ _ _ => None) id (fun _ => id) (fun b w => eq_refl) 64 demo_env demo_start.1 demo_ticks demo_start.2
    f0 demo_mux 100 ltac:(vm_compute; reflexivity) Hin Hfit ltac:(lia) Hidle eq_refl eq_refl eq_refl).
Defined.
