(* ===== verification/RmdMotion.v ===== *)
(** * rmd: the motion daemon (rmd/rmd_main.c, rmd/rmd_actions.c)

    The state machine between rvd's motion reports and the recorder, one poll at
    a time; what it sends is a list of actions.  The theorems: the recorder is on
    exactly while there is motion or the quiet time has not passed, here and in
    the recorder of [RmrRecord] the commands are sent to; and a command that is
    lost is not sent again. *)

From stdpp Require Import list strings.
From S2P Require Import Prelude RmrRecord.

(** ** The code *)

Inductive rmd_state := RMD_STATE_IDLE | RMD_STATE_ACTIVE | RMD_STATE_COOLDOWN.

#[export] Instance rmd_state_eq_dec : EqDecision rmd_state.
Proof. solve_decision. Defined.

Record rmd_config := mk_rmd_config {
  ms_sensitivity : Z; ms_cooldown_sec : Z; ms_poll_interval_ms : Z; ms_skip_frames : Z;
  ms_record_on_motion : bool; ms_record_post_sec : Z; ms_gpio_pin : Z
}.

#[export] Instance eta_rmd_config : Settable rmd_config := fun s =>
  mk_rmd_config (ms_sensitivity s) (ms_cooldown_sec s) (ms_poll_interval_ms s) (ms_skip_frames s) (ms_record_on_motion s)
    (ms_record_post_sec s) (ms_gpio_pin s).

Record rmd_ctx := mk_rmd_ctx {
  md_settings : rmd_config; md_state : rmd_state; md_last_motion_us : Z; md_cooldown_start_us : Z;
  md_recording_active : bool; md_person_count : Z
}.

#[export] Instance eta_rmd_ctx : Settable rmd_ctx := fun x =>
  mk_rmd_ctx (md_settings x) (md_state x) (md_last_motion_us x) (md_cooldown_start_us x) (md_recording_active x) (md_person_count x).

(** What leaves the daemon: a command to rmr, the pin, a parameter for rvd. *)
Inductive action := Act_record (start : bool) | Act_gpio (pin : Z) (value : Z) | Act_sensitivity (val : Z) | Act_skip_frames (val : Z).

Definition rmd_gpio_set (x : rmd_ctx) (active : bool) : list action :=
  if ms_gpio_pin (md_settings x) <? 0 then [] else [Act_gpio (ms_gpio_pin (md_settings x)) (if active then 1 else 0)].

(** rvd's answer, when there is one: the persons field if it is a number, and
    whether motion is true ([false] for an answer that does not parse). *)
Definition rmd_poll_motion (resp : option (option Z * bool)) (x : rmd_ctx) : bool * rmd_ctx :=
  match resp with
  | None => (false, x)
  | Some (persons, motion) =>
      let persons := default 0 persons in
      (motion, x <| md_person_count := if persons >? 0 then persons else 0 |>)
  end.

Definition rmd_update_state (now : Z) (motion : bool) (x : rmd_ctx) : list action * rmd_ctx :=
  match md_state x with
  | RMD_STATE_IDLE =>
      if motion then
        let x := x <| md_state := RMD_STATE_ACTIVE |> <| md_last_motion_us := now |> in
        let '(acts, x) :=
          if ms_record_on_motion (md_settings x) && negb (md_recording_active x)
          then ([Act_record true], x <| md_recording_active := true |>) else ([], x) in
        (acts ++ rmd_gpio_set x true, x)
      else ([], x)
  | RMD_STATE_ACTIVE =>
      if motion then ([], x <| md_last_motion_us := now |>)
      else ([], x <| md_state := RMD_STATE_COOLDOWN |> <| md_cooldown_start_us := now |>)
  | RMD_STATE_COOLDOWN =>
      if motion then ([], x <| md_state := RMD_STATE_ACTIVE |> <| md_last_motion_us := now |>)
      else
        let elapsed_sec := Z.quot (now - md_cooldown_start_us x) 1000000 in
        let s := md_settings x in
        let post_sec := if ms_record_post_sec s >? ms_cooldown_sec s then ms_record_post_sec s else ms_cooldown_sec s in
        if elapsed_sec >=? post_sec then
          let x := x <| md_state := RMD_STATE_IDLE |> in
          let '(acts, x) :=
            if md_recording_active x then ([Act_record false], x <| md_recording_active := false |>) else ([], x) in
          (acts ++ rmd_gpio_set x false, x)
        else ([], x)
  end.

(** rmd_ctrl_handler, its commands that change state; an invalid value changes
    nothing. *)
Inductive rmd_cmd := Cmd_sensitivity (val : option Z) | Cmd_skip_frames (val : option Z) | Cmd_status.

Definition rmd_ctrl_handler (cmd : rmd_cmd) (x : rmd_ctx) : list action * rmd_ctx :=
  match cmd with
  | Cmd_sensitivity (Some val) =>
      if val >=? 0 then ([Act_sensitivity val], x <| md_settings := (md_settings x) <| ms_sensitivity := val |> |>) else ([], x)
  | Cmd_skip_frames (Some val) =>
      if val >=? 0 then ([Act_skip_frames val], x <| md_settings := (md_settings x) <| ms_skip_frames := val |> |>) else ([], x)
  | _ => ([], x)
  end.

(** One turn of the main loop: the poll, then at most one command. *)
Record turn := mk_turn { tn_now : Z; tn_resp : option (option Z * bool); tn_cmd : option rmd_cmd }.

Definition rmd_turn (t : turn) (x : rmd_ctx) : list action * rmd_ctx :=
  let '(motion, x) := rmd_poll_motion (tn_resp t) x in
  let '(acts, x) := rmd_update_state (tn_now t) motion x in
  let '(acts', x) := match tn_cmd t with Some cmd => rmd_ctrl_handler cmd x | None => ([], x) end in
  (acts ++ acts', x).

Definition rmd_start (s : rmd_config) : rmd_ctx := mk_rmd_ctx s RMD_STATE_IDLE 0 0 false 0.

Fixpoint rmd_run (ts : list turn) (x : rmd_ctx) : list action * rmd_ctx :=
  match ts with
  | [] => ([], x)
  | t :: ts => let '(acts, x) := rmd_turn t x in let '(acts', x) := rmd_run ts x in (acts ++ acts', x)
  end.

(** The clean-up after the loop. *)
Definition rmd_shutdown (x : rmd_ctx) : list action :=
  (if md_recording_active x then [Act_record false] else []) ++ rmd_gpio_set x false.

Definition rmd_apply_ivs_config (x : rmd_ctx) : list action :=
  [Act_sensitivity (ms_sensitivity (md_settings x)); Act_skip_frames (ms_skip_frames (md_settings x))].

(** main, with the settings load_config read and the turns until it is told to
    stop; switched off, it goes to the clean-up with no pin. *)
Definition no_settings : rmd_config := mk_rmd_config 0 0 0 0 false 0 (-1).

Definition rmd_main (enabled : bool) (s : rmd_config) (ts : list turn) : list action :=
  if negb enabled then rmd_shutdown (rmd_start no_settings)
  else
    let x := rmd_start s in
    let sent := rmd_apply_ivs_config x in
    let '(acts, x) := rmd_run ts x in
    sent ++ acts ++ rmd_shutdown x.

(** ** When to record *)

Definition motion_of (t : turn) : bool := match tn_resp t with Some (_, m) => m | None => false end.

(** The polls since the last one with motion, if there was one. *)
Fixpoint quiet_since (ts : list turn) : option (list turn) :=
  match ts with
  | [] => None
  | t :: ts => match quiet_since ts with Some q => Some q | None => if motion_of t then Some ts else None end
  end.

(** From the first quiet poll on, less than [post] whole seconds have passed at
    every poll. *)
Definition within (post : Z) (q : list turn) : bool :=
  match q with [] => true | t :: q => forallb (fun u => Z.quot (tn_now u - tn_now t) 1000000 <? post) q end.

Definition post_sec (s : rmd_config) : Z := Z.max (ms_record_post_sec s) (ms_cooldown_sec s).

(** The reference: motion has been seen, and the quiet since then is short. *)
Definition wanted (s : rmd_config) (ts : list turn) : bool :=
  match quiet_since ts with Some q => within (post_sec s) q | None => false end.

(** What of the settings matters: the control socket changes none of it. *)
Definition watch (s : rmd_config) : bool * Z * Z := (ms_record_on_motion s, post_sec s, ms_gpio_pin s).

(** The state the machine is in after a history. *)
Definition state_after (s : rmd_config) (ts : list turn) (x : rmd_ctx) : Prop :=
  watch (md_settings x) = watch s /\ md_recording_active x = ms_record_on_motion s && wanted s ts /\
  match quiet_since ts with
  | None => md_state x = RMD_STATE_IDLE
  | Some [] => md_state x = RMD_STATE_ACTIVE
  | Some (t :: q) =>
      if within (post_sec s) (t :: q) then md_state x = RMD_STATE_COOLDOWN /\ md_cooldown_start_us x = tn_now t
      else md_state x = RMD_STATE_IDLE
  end.

Lemma quiet_snoc ts t : quiet_since (ts ++ [t]) =
  if motion_of t then Some [] else match quiet_since ts with Some q => Some (q ++ [t]) | None => None end.
Proof.
  induction ts as [|u ts IH]; cbn [app quiet_since].
  - by destruct (motion_of t).
  - rewrite IH. destruct (motion_of t); [done|]. destruct (quiet_since ts); [done|]. by destruct (motion_of u).
Qed.

Lemma within_snoc post t q u : within post (t :: q ++ [u]) = within post (t :: q) && (Z.quot (tn_now u - tn_now t) 1000000 <? post).
Proof. cbn [app within]. rewrite forallb_app. cbn. by rewrite andb_true_r. Qed.

(** ** One turn *)

Definition commands (acts : list action) : list bool := omap (fun a => match a with Act_record b => Some b | _ => None end) acts.
Definition pin_values (acts : list action) : list Z := omap (fun a => match a with Act_gpio _ v => Some v | _ => None end) acts.

(** What is sent when a level goes from [a] to [b]. *)
Definition edge (a b : bool) : list bool := if Bool.eqb a b then [] else [b].

Definition pin_edge (s : rmd_config) (a b : bool) : list Z :=
  if ms_gpio_pin s <? 0 then [] else if Bool.eqb a b then [] else [if b then 1 else 0].

Lemma commands_app a b : commands (a ++ b) = commands a ++ commands b.
Proof. apply omap_app. Qed.

Lemma pin_values_app a b : pin_values (a ++ b) = pin_values a ++ pin_values b.
Proof. apply omap_app. Qed.

Lemma gpio_sends x b : commands (rmd_gpio_set x b) = [] /\
  pin_values (rmd_gpio_set x b) = if ms_gpio_pin (md_settings x) <? 0 then [] else [if b then 1 else 0].
Proof. unfold rmd_gpio_set. by destruct (_ <? 0). Qed.

Lemma ctrl_quiet cmd x : let '(acts, x') := match cmd with Some cmd => rmd_ctrl_handler cmd x | None => ([], x) end in
  commands acts = [] /\ pin_values acts = [] /\ md_state x' = md_state x /\ md_cooldown_start_us x' = md_cooldown_start_us x /\
  md_recording_active x' = md_recording_active x /\ watch (md_settings x') = watch (md_settings x).
Proof. destruct cmd as [[[v|]|[v|]|]|]; cbn [rmd_ctrl_handler]; try done; by destruct (v >=? 0). Qed.

(** The two transitions that act. *)
Lemma start_turn s now x : watch (md_settings x) = watch s -> md_state x = RMD_STATE_IDLE -> md_recording_active x = false ->
  let '(acts, x') := rmd_update_state now true x in
  watch (md_settings x') = watch s /\ md_state x' = RMD_STATE_ACTIVE /\ md_recording_active x' = ms_record_on_motion s /\
  commands acts = edge false (ms_record_on_motion s) /\ pin_values acts = pin_edge s false true.
Proof.
  intros Hw Hst Ha. unfold rmd_update_state. rewrite Hst. cbn [md_settings md_recording_active set_field]. rewrite Ha.
  pose proof Hw as [= Er _ Eg]. rewrite Er, andb_true_r. unfold pin_edge. destruct (ms_record_on_motion s);
    rewrite commands_app, pin_values_app;
    match goal with |- context [rmd_gpio_set ?y true] => destruct (gpio_sends y true) as [-> ->] end;
    cbn [md_settings set_field]; rewrite Eg; split_and!; try done; by destruct (_ <? 0).
Qed.

Lemma stop_turn s now x : watch (md_settings x) = watch s -> md_state x = RMD_STATE_COOLDOWN ->
  md_recording_active x = ms_record_on_motion s -> post_sec s <= Z.quot (now - md_cooldown_start_us x) 1000000 ->
  let '(acts, x') := rmd_update_state now false x in
  watch (md_settings x') = watch s /\ md_state x' = RMD_STATE_IDLE /\ md_recording_active x' = false /\
  commands acts = edge (ms_record_on_motion s) false /\ pin_values acts = pin_edge s true false.
Proof.
  intros Hw Hst Ha Hp. unfold rmd_update_state. rewrite Hst. cbv zeta. pose proof Hw as [= Er Ep Eg].
  replace (_ >=? _) with true; [|symmetry; apply Z.geb_le; unfold post_sec in *; destruct (_ >? _) eqn:E; rewrite Z.gtb_ltb in E; lia].
  cbn [md_recording_active set_field]. rewrite Ha. unfold pin_edge. destruct (ms_record_on_motion s) eqn:Es;
    rewrite commands_app, pin_values_app;
    match goal with |- context [rmd_gpio_set ?y false] => destruct (gpio_sends y false) as [-> ->] end;
    cbn [md_settings set_field]; rewrite Eg; split_and!; try done; by destruct (_ <? 0).
Qed.

Lemma wait_turn s now x : watch (md_settings x) = watch s -> Z.quot (now - md_cooldown_start_us x) 1000000 < post_sec s ->
  md_state x = RMD_STATE_COOLDOWN -> rmd_update_state now false x = ([], x).
Proof.
  intros Hw Hp Hst. unfold rmd_update_state. rewrite Hst. cbv zeta. pose proof Hw as [= _ Ep _].
  replace (_ >=? _) with false; [done|]. symmetry. rewrite Z.geb_leb. apply Z.leb_gt. unfold post_sec in *.
  destruct (_ >? _) eqn:E; rewrite Z.gtb_ltb in E; lia.
Qed.

Lemma edge_same a : edge a a = [].
Proof. by destruct a. Qed.

Lemma pin_edge_same s a : pin_edge s a a = [].
Proof. unfold pin_edge. rewrite Bool.eqb_reflx. by destruct (_ <? 0). Qed.

(** A poll takes the machine from one history to the next, and sends the edges. *)
Lemma update_after s ts t x : state_after s ts x ->
  let '(acts, x') := rmd_update_state (tn_now t) (motion_of t) x in
  state_after s (ts ++ [t]) x' /\
  commands acts = edge (ms_record_on_motion s && wanted s ts) (ms_record_on_motion s && wanted s (ts ++ [t])) /\
  pin_values acts = pin_edge s (wanted s ts) (wanted s (ts ++ [t])).
Proof.
  intros (Hw & Ha & Hst). unfold state_after, wanted in *. rewrite quiet_snoc.
  assert (Hidle : md_state x = RMD_STATE_IDLE -> md_recording_active x = false -> motion_of t = true ->
    let '(acts, x') := rmd_update_state (tn_now t) (motion_of t) x in
    (watch (md_settings x') = watch s /\ md_recording_active x' = ms_record_on_motion s && true /\ md_state x' = RMD_STATE_ACTIVE) /\
    commands acts = edge false (ms_record_on_motion s && true) /\ pin_values acts = pin_edge s false true).
  { intros H1 H2 ->. pose proof (start_turn s (tn_now t) x Hw H1 H2) as H. destruct (rmd_update_state _ _ x). rewrite andb_true_r. tauto. }
  destruct (quiet_since ts) as [[|u q]|].
  - unfold rmd_update_state. rewrite Hst. destruct (motion_of t); cbn [app within forallb]; by rewrite edge_same, pin_edge_same.
  - destruct (within (post_sec s) (u :: q)) eqn:Ew.
    + destruct Hst as [Hst Hcd]. destruct (motion_of t).
      * unfold rmd_update_state. rewrite Hst. cbn [within]. by rewrite edge_same, pin_edge_same.
      * cbn [app]. rewrite within_snoc, Ew. destruct (Z.ltb_spec (Z.quot (tn_now t - tn_now u) 1000000) (post_sec s)) as [Hlt|Hge]; cbn [andb].
        -- rewrite wait_turn with (s := s) by (done || by rewrite Hcd). by rewrite edge_same, pin_edge_same.
        -- rewrite andb_true_r in Ha |- *. rewrite <- Hcd in Hge. pose proof (stop_turn s (tn_now t) x Hw Hst Ha Hge) as H.
           destruct (rmd_update_state _ _ x). rewrite andb_false_r. tauto.
    + rewrite andb_false_r in Ha |- *. destruct (motion_of t) eqn:Em; [cbn [within]; by apply Hidle|].
      cbn [app]. rewrite within_snoc, Ew. unfold rmd_update_state. rewrite Hst. cbn [andb]. by rewrite andb_false_r, edge_same, pin_edge_same.
  - rewrite andb_false_r in Ha |- *. destruct (motion_of t) eqn:Em; [cbn [within]; by apply Hidle|].
    unfold rmd_update_state. rewrite Hst. by rewrite andb_false_r, edge_same, pin_edge_same.
Qed.

Lemma turn_after s ts t x : state_after s ts x ->
  let '(acts, x') := rmd_turn t x in
  state_after s (ts ++ [t]) x' /\
  commands acts = edge (ms_record_on_motion s && wanted s ts) (ms_record_on_motion s && wanted s (ts ++ [t])) /\
  pin_values acts = pin_edge s (wanted s ts) (wanted s (ts ++ [t])).
Proof.
  intros H. unfold rmd_turn.
  assert (Hp : exists n, rmd_poll_motion (tn_resp t) x = (motion_of t, x <| md_person_count := n |>)).
  { unfold rmd_poll_motion, motion_of. destruct (tn_resp t) as [[p m]|]; [by eexists|]. exists (md_person_count x). by destruct x. }
  destruct Hp as (n & ->). assert (H1 : state_after s ts (x <| md_person_count := n |>)) by exact H.
  pose proof (update_after s ts t _ H1) as H2. destruct (rmd_update_state _ _ _) as [acts x1]. destruct H2 as (H2 & Hc & Hg).
  pose proof (ctrl_quiet (tn_cmd t) x1) as H3. destruct (match tn_cmd t with Some _ => _ | None => _ end) as [acts' x2].
  destruct H3 as (Q1 & Q2 & Q3 & Q4 & Q5 & Q6). rewrite commands_app, pin_values_app, Q1, Q2, !app_nil_r. split; [|done].
  unfold state_after in *. by rewrite Q3, Q4, Q5, Q6.
Qed.

(** ** Runs *)

(** The last of a list of levels, from where it started. *)
Definition level {A} (l0 : A) (ls : list A) : A := default l0 (last ls).

Lemma level_app {A} (l0 : A) a b : level l0 (a ++ b) = level (level l0 a) b.
Proof. unfold level. rewrite last_app. by destruct (last b). Qed.

Lemma level_edge a b : level a (edge a b) = b.
Proof. by destruct a, b. Qed.

Lemma run_after s ts us x : state_after s ts x ->
  let '(acts, x') := rmd_run us x in
  state_after s (ts ++ us) x' /\
  level (ms_record_on_motion s && wanted s ts) (commands acts) = ms_record_on_motion s && wanted s (ts ++ us) /\
  (0 <= ms_gpio_pin s -> level (if wanted s ts then 1 else 0) (pin_values acts) = if wanted s (ts ++ us) then 1 else 0).
Proof.
  revert ts x. induction us as [|t us IH]; intros ts x H; cbn [rmd_run]; [by rewrite app_nil_r|].
  pose proof (turn_after s ts t x H) as H1. destruct (rmd_turn t x) as [acts x1]. destruct H1 as (H1 & Hc & Hg).
  pose proof (IH (ts ++ [t]) x1 H1) as H2. destruct (rmd_run us x1) as [acts' x2]. rewrite <- app_assoc in H2. cbn [app] in H2.
  destruct H2 as (H2 & Hc2 & Hg2). rewrite commands_app, pin_values_app, !level_app, Hc, level_edge. split; [done|]. split; [done|].
  intros Hp. rewrite <- Hg2 by done. f_equal. rewrite Hg. unfold pin_edge. rewrite (proj2 (Z.ltb_ge _ _)) by done.
  by destruct (wanted s ts), (wanted s (ts ++ [t])).
Qed.

Lemma start_after s : state_after s [] (rmd_start s).
Proof. unfold state_after, wanted. cbn. by rewrite andb_false_r. Qed.

(** ** The recorder at the other end *)

(** rmr's control socket, when rmr is there to answer. *)
Definition deliver (c : rmr_config) (acts : list action) (st : rmr_state) : rmr_state :=
  fold_left (fun st (b : bool) => rmr_ctrl_handler c (if b then Cmd_start else Cmd_stop) st) (commands acts) st.

(** The flag the commands drive. *)
Definition triggered (c : rmr_config) (st : rmr_state) : bool :=
  if c_mode c =? RMR_MODE_BOTH then r_clip_recording st else r_recording st.

Lemma deliver_level c acts st : c_mode c = RMR_MODE_MOTION \/ c_mode c = RMR_MODE_BOTH ->
  triggered c (deliver c acts st) = level (triggered c st) (commands acts).
Proof.
  intros Hm. unfold deliver. generalize (commands acts) as l. intros l. revert st. induction l as [|b l IH]; intros st; [done|].
  cbn [fold_left]. rewrite IH. change (b :: l) with ([b] ++ l). rewrite level_app. f_equal.
  unfold triggered, rmr_ctrl_handler. destruct Hm as [-> | ->]; by destruct b.
Qed.


(** A lost trigger is never repeated.  When rmr is not recording although rmd
    has started it (the command failed, or rmr was restarted since), no further
    command is sent for as long as the motion and its quiet time last: rmr goes on
    not recording, however long that is. *)
Theorem rmd_lost_trigger_not_retried s ts us x c st : state_after s ts x -> wanted s ts = true ->
  (forall n, wanted s (ts ++ take n us) = true) ->
  c_mode c = RMR_MODE_MOTION \/ c_mode c = RMR_MODE_BOTH -> triggered c st = false ->
  commands (rmd_run us x).1 = [] /\ triggered c (deliver c (rmd_run us x).1 st) = false.
Proof.
  intros H Hw Hall Hm Ht. assert (E : commands (rmd_run us x).1 = []).
  { clear Hm Ht st c. revert ts x H Hw Hall. induction us as [|t us IH]; intros ts x H Hw Hall; [done|]. cbn [rmd_run].
    pose proof (turn_after s ts t x H) as H1. destruct (rmd_turn t x) as [acts x1]. destruct H1 as (H1 & Hc & _).
    assert (Hw1 : wanted s (ts ++ [t]) = true) by apply (Hall 1%nat). rewrite Hw, Hw1, edge_same in Hc.
    assert (E : commands (rmd_run us x1).1 = []).
    { apply (IH (ts ++ [t])); [done|done|]. intros n. rewrite <- app_assoc. apply (Hall (S n)). }
    destruct (rmd_run us x1) as [acts' x2]. cbn [fst] in *. by rewrite commands_app, Hc, E. }
  split; [exact E|]. rewrite deliver_level, E by done. exact Ht.
Qed.

(** ** Examples *)

Definition demo_settings : rmd_config := mk_rmd_config 3 10 500 5 true 30 17.
Definition demo_turn (now : Z) (motion : bool) : turn := mk_turn now (Some (Some 1, motion)) None.
Definition demo_turns : list turn :=
  [demo_turn 500000 false; demo_turn 1000000 true; demo_turn 1500000 false; demo_turn 20000000 false; demo_turn 32000000 false].

Definition demo_motion : rmr_config := mk_rmr_config RMR_MODE_MOTION 5 60 false false (RmrStorage.rmr_storage_create "/mnt" 5 0 0).
Definition demo_rmr : rmr_state :=
  mk_rmr_state false false
    (mk_source true 0 0 0 0 0 (Nal.mk_rmr_codec_params [] [] [] false) false 0 0 0 0 1 0 0 0 0 0 false false None None 0)
    (mk_segments None 0 0 false 0 0 0 (-1) 0 (-1) false [] 0) (mk_clips None 0 0 0 0 [])
    (mk_timelapse false (Timelapse.rmr_tl_init 10 30 0) None 0 []).


Lemma rmd_lost_trigger_not_retried_witness :
  triggered demo_motion (deliver demo_motion
    (rmd_run (drop 2 (take 4 demo_turns)) (rmd_run (take 2 demo_turns) (rmd_start demo_settings)).2).1 demo_rmr) = false.
Proof.
  refine (proj2 (rmd_lost_trigger_not_retried demo_settings (take 2 demo_turns) (drop 2 (take 4 demo_turns))
    (rmd_run (take 2 demo_turns) (rmd_start demo_settings)).2 demo_motion demo_rmr _ eq_refl _ (or_introl eq_refl) eq_refl)).
  - vm_compute. auto.
  - intros [|[|[|n]]]; reflexivity.
Defined.
