(* ===== verification/RfsAnnexb.v ===== *)
(** * rfs: the Annex B file scanner (rfs/rfs_annexb.c)

    The bit reader, the H.264 and H.265 sequence-parameter-set parsers, the
    display order and the scan that cuts a file into frames. *)

From Stdlib Require Import Ascii String.
From stdpp Require Import list.
From S2P Require Import Prelude Mux Nal.

(** ** The bit reader *)

(** [size] is the length of the data. *)
Record bits_t := mk_bits { bt_data : list Z; bt_pos : Z; bt_overflow : bool }.

#[export] Instance eta_bits_t : Settable bits_t := fun b => mk_bits (bt_data b) (bt_pos b) (bt_overflow b).

(** A routine that takes the reader. *)
Definition bits (A : Type) : Type := bits_t -> A * bits_t.

Definition bits_ret {A} (x : A) : bits A := fun b => (x, b).
Definition bits_bind {A B} (m : bits A) (f : A -> bits B) : bits B := fun b => let '(x, b) := m b in f x b.

Declare Scope bits_scope.
Delimit Scope bits_scope with bits.
Notation "'let!' x := m 'in' k" := (bits_bind m (fun x => k)) (at level 200, x name, m at level 100, k at level 200) : bits_scope.
Notation "m ;; k" := (bits_bind m (fun _ => k)) (at level 100, k at level 200, right associativity) : bits_scope.
#[local] Open Scope bits_scope.

Definition bits_init (data : list Z) : bits_t := mk_bits data 0 false.

(** The loop of bits_read with [k] = n - i rounds to go. *)
Fixpoint bits_read_loop (k : nat) (val : Z) (b : bits_t) : Z * bits_t :=
  match k with
  | O => (val, b)
  | S k' =>
      match bt_data b !! Z.to_nat (bt_pos b / 8) with
      | None => (u32 (Z.shiftl val (Z.of_nat k)), b <| bt_overflow := true |>)
      | Some byte =>
          bits_read_loop k' (Z.lor (u32 (Z.shiftl val 1)) (Z.land (Z.shiftr byte (7 - Z.land (bt_pos b) 7)) 1))
            (b <| bt_pos := u32 (bt_pos b + 1) |>)
      end
  end.

Definition bits_read (n : nat) : bits Z := bits_read_loop n 0.

Definition bits_skip (n : Z) : bits unit := fun b =>
  let b := b <| bt_pos := u32 (bt_pos b + n) |> in
  (tt, if bt_pos b / 8 >? Z.of_nat (List.length (bt_data b)) then b <| bt_overflow := true |> else b).

(** The zeros before the one, at most 32, with [k] = 32 - zeros. *)
Fixpoint ue_zeros (k : nat) (b : bits_t) : nat * bits_t :=
  if bt_overflow b then (32 - k, b)%nat else
  let '(v, b) := bits_read 1 b in
  match k with
  | S k' => if v =? 0 then ue_zeros k' b else (32 - k, b)%nat
  | O => (32%nat, b)
  end.

(** [1u << zeros]: the count is taken modulo 32, as the processors the program
    runs on take it (the language leaves a count of 32 undefined). *)
Definition shl_one (zeros : nat) : Z := 2 ^ (Z.of_nat zeros mod 32).

Definition bits_ue : bits Z :=
  let! zeros := ue_zeros 32 in
  let! v := bits_read zeros in
  bits_ret (u32 (shl_one zeros - 1 + v)).

Definition bits_se : bits Z :=
  let! v := bits_ue in
  bits_ret (if Z.odd v then s32 (u32 (v + 1) / 2) else - s32 (v / 2)).

Definition bits_overflowed : bits bool := fun b => (bt_overflow b, b).

(** ** De-emulation *)

(** [cap] is the room left in [dst]. *)
Fixpoint rbsp_unescape (src : list Z) (cap : nat) : list Z :=
  match cap with
  | O => []
  | S cap' =>
      match src with
      | [] => []
      | x :: src' =>
          match src' with
          | y :: z :: rest =>
              if (x =? 0) && (y =? 0) && (z =? 3)
              then 0 :: match cap' with O => [] | S cap => 0 :: rbsp_unescape rest cap end
              else x :: rbsp_unescape src' cap'
          | _ => x :: rbsp_unescape src' cap'
          end
      end
  end.

(** ** Frames *)

Inductive rss_codec := RSS_CODEC_H264 | RSS_CODEC_H265.

Inductive rss_nal :=
  | RSS_NAL_H264_SLICE | RSS_NAL_H264_IDR | RSS_NAL_H264_SPS | RSS_NAL_H264_PPS | RSS_NAL_H264_SEI
  | RSS_NAL_H265_SLICE | RSS_NAL_H265_IDR | RSS_NAL_H265_VPS | RSS_NAL_H265_SPS | RSS_NAL_H265_PPS | RSS_NAL_H265_SEI.

#[export] Instance rss_codec_eq_dec : EqDecision rss_codec.
Proof. solve_decision. Defined.
#[export] Instance rss_nal_eq_dec : EqDecision rss_nal.
Proof. solve_decision. Defined.

Record rfs_frame := mk_rfs_frame {
  fr_offset : Z; fr_length : Z; fr_display_pos : Z; fr_nal_type : rss_nal; fr_is_key : bool; fr_is_bframe : bool
}.

#[export] Instance eta_rfs_frame : Settable rfs_frame := fun f =>
  mk_rfs_frame (fr_offset f) (fr_length f) (fr_display_pos f) (fr_nal_type f) (fr_is_key f) (fr_is_bframe f).

Record rfs_annexb_info := mk_info {
  ai_codec : rss_codec; ai_width : Z; ai_height : Z; ai_profile : Z; ai_level : Z; ai_frames : list rfs_frame
}.

#[export] Instance eta_rfs_annexb_info : Settable rfs_annexb_info := fun i =>
  mk_info (ai_codec i) (ai_width i) (ai_height i) (ai_profile i) (ai_level i) (ai_frames i).

Definition RFS_ANNEXB_MAX_FRAMES : Z := 65536.

(** ** The H.264 parser *)

Fixpoint scaling_list (size : nat) (lst nxt : Z) : bits unit :=
  match size with
  | O => bits_ret tt
  | S size =>
      let! nxt := (if nxt =? 0 then bits_ret nxt
                   else let! d := bits_se in bits_ret (Z.rem (s32 (lst + d + 256)) 256)) in
      scaling_list size (if nxt =? 0 then lst else nxt) nxt
  end.

(** The scaling matrix: [cnt] lists from list [i] on. *)
Fixpoint scaling_lists (cnt : nat) (i : nat) : bits unit :=
  match cnt with
  | O => bits_ret tt
  | S cnt =>
      (let! present := bits_read 1 in
       if present =? 0 then bits_ret tt else scaling_list (if (i <? 6)%nat then 16 else 64) 8 8) ;;
      scaling_lists cnt (S i)
  end.

(** The fields only the high profiles have; gives chroma_format_idc. *)
Definition h264_high_fields : bits Z :=
  let! chroma_format_idc := bits_ue in
  (if chroma_format_idc =? 3 then bits_skip 1 else bits_ret tt) ;;
  bits_ue ;; bits_ue ;; bits_skip 1 ;;
  let! matrix := bits_read 1 in
  (if matrix =? 0 then bits_ret tt else scaling_lists (if chroma_format_idc =? 3 then 12 else 8) 0) ;;
  bits_ret chroma_format_idc.

Definition h264_poc_fields : bits unit :=
  let! poc_type := bits_ue in
  if poc_type =? 0 then bits_ue ;; bits_ret tt
  else if poc_type =? 1 then
    bits_skip 1 ;; bits_se ;; bits_se ;;
    let! n := bits_ue in
    fun b => (tt, N.iter (Z.to_N n) (fun b => (bits_se b).2) b)
  else bits_ret tt.

(** The cropping, when there is one, of a picture of [width] by [height] in
    units of [cux] by [cuy]. *)
Definition crop (cux cuy width height : Z) : bits (Z * Z) :=
  let! flag := bits_read 1 in
  if flag =? 0 then bits_ret (width, height)
  else
    let! cl := bits_ue in let! cr := bits_ue in
    let! ct := bits_ue in let! cb := bits_ue in
    let crop_w := u32 (u32 (cl + cr) * cux) in
    let crop_h := u32 (u32 (ct + cb) * cuy) in
    bits_ret (if crop_w <? width then width - crop_w else width, if crop_h <? height then height - crop_h else height).

Definition h264_sps_fields (info : rfs_annexb_info) : bits (bool * rfs_annexb_info) :=
  let! profile := bits_read 8 in
  bits_skip 8 ;;
  let! level := bits_read 8 in
  bits_ue ;;
  let! chroma_format_idc := (if profile >=? 100 then h264_high_fields else bits_ret 1) in
  bits_ue ;; h264_poc_fields ;; bits_ue ;; bits_skip 1 ;;
  let! w := bits_ue in let! h := bits_ue in
  let! frame_mbs_only := bits_read 1 in
  (if frame_mbs_only =? 0 then bits_skip 1 else bits_ret tt) ;;
  bits_skip 1 ;;
  let width := u32 (u32 (w + 1) * 16) in
  let height := u32 (u32 (u32 (h + 1) * 16) * (2 - frame_mbs_only)) in
  let cux := if chroma_format_idc =? 0 then 1 else 2 in
  let cuy := (if chroma_format_idc =? 0 then 1 else 2) * (2 - frame_mbs_only) in
  let! dims := crop cux cuy width height in
  let! overflow := bits_overflowed in
  bits_ret (negb overflow,
    info <| ai_profile := u8 profile |> <| ai_level := u8 level |> <| ai_width := dims.1 |> <| ai_height := dims.2 |>).

Definition parse_h264_sps (nal : list Z) (info : rfs_annexb_info) : bool * rfs_annexb_info :=
  if (List.length nal <? 5)%nat then (false, info)
  else (h264_sps_fields info (bits_init (rbsp_unescape (drop 1 nal) 512))).1.

(** ** The H.265 parser *)

Fixpoint sub_flags (n : nat) : bits (list (Z * Z)) :=
  match n with
  | O => bits_ret []
  | S n => let! p := bits_read 1 in let! l := bits_read 1 in let! r := sub_flags n in bits_ret ((p, l) :: r)
  end.

Fixpoint skip_n (n : nat) (k : Z) : bits unit :=
  match n with O => bits_ret tt | S n => bits_skip k ;; skip_n n k end.

Fixpoint skip_sub_layers (flags : list (Z * Z)) : bits unit :=
  match flags with
  | [] => bits_ret tt
  | (p, l) :: flags =>
      (if p =? 0 then bits_ret tt else bits_skip 88) ;;
      (if l =? 0 then bits_ret tt else bits_skip 8) ;;
      skip_sub_layers flags
  end.

(** Gives the profile and the level. *)
Definition skip_h265_ptl (max_sub_layers_m1 : nat) : bits (Z * Z) :=
  bits_skip 2 ;; bits_skip 1 ;;
  let! profile := bits_read 5 in
  bits_skip 32 ;; bits_skip 48 ;;
  let! level := bits_read 8 in
  if (max_sub_layers_m1 =? 0)%nat then bits_ret (u8 profile, u8 level)
  else
    let! flags := sub_flags max_sub_layers_m1 in
    skip_n (8 - max_sub_layers_m1) 2 ;;
    skip_sub_layers flags ;;
    bits_ret (u8 profile, u8 level).

Definition h265_sps_fields (info : rfs_annexb_info) : bits (bool * rfs_annexb_info) :=
  bits_skip 4 ;;
  let! max_sub_layers_m1 := bits_read 3 in
  bits_skip 1 ;;
  let! pl := skip_h265_ptl (Z.to_nat max_sub_layers_m1) in
  bits_ue ;;
  let! chroma_format_idc := bits_ue in
  (if chroma_format_idc =? 3 then bits_skip 1 else bits_ret tt) ;;
  let! width := bits_ue in let! height := bits_ue in
  let sub_w := if (chroma_format_idc =? 1) || (chroma_format_idc =? 2) then 2 else 1 in
  let sub_h := if chroma_format_idc =? 1 then 2 else 1 in
  let! dims := crop sub_w sub_h width height in
  let! overflow := bits_overflowed in
  bits_ret (negb overflow,
    info <| ai_profile := pl.1 |> <| ai_level := pl.2 |> <| ai_width := dims.1 |> <| ai_height := dims.2 |>).

Definition parse_h265_sps (nal : list Z) (info : rfs_annexb_info) : bool * rfs_annexb_info :=
  if (List.length nal <? 6)%nat then (false, info)
  else (h265_sps_fields info (bits_init (rbsp_unescape (drop 2 nal) 512))).1.

(** ** Slices *)

(** 1 for a B slice, 0 for another, -1 when it cannot be told. *)
Definition h264_slice_type (nal : list Z) : Z :=
  if (List.length nal <? 3)%nat then -1 else
  ((bits_ue ;;
    let! st := bits_ue in
    let! overflow := bits_overflowed in
    bits_ret (if overflow : bool then -1 else if st mod 5 =? 1 then 1 else 0)) (bits_init (drop 1 nal))).1.

Definition h265_slice_type (nal : list Z) : Z :=
  if (List.length nal <? 4)%nat then -1 else
  let nt := Z.land (Z.shiftr (nal !!! 0%nat) 1) 63 in
  if (nt >=? 16) && (nt <=? 23) then 0 else
  ((let! first_slice := bits_read 1 in
    if first_slice =? 0 then bits_ret (-1)
    else
      bits_ue ;;
      let! st := bits_ue in
      let! overflow := bits_overflowed in
      bits_ret (if overflow : bool then -1 else if st =? 0 then 1 else 0)) (bits_init (drop 2 nal))).1.

(** ** Display order *)

Definition set_pos (i : nat) (d : Z) (frames : list rfs_frame) : list rfs_frame :=
  alter (fun f => f <| fr_display_pos := d |>) i frames.

(** The loop over the indices still to visit. *)
Fixpoint display_loop (idxs : list nat) (display : Z) (pending_ref : option nat) (frames : list rfs_frame) : list rfs_frame :=
  match idxs with
  | [] => match pending_ref with Some r => set_pos r display frames | None => frames end
  | i :: idxs =>
      if default false (fr_is_bframe <$> frames !! i)
      then display_loop idxs (u32 (display + 1)) pending_ref (set_pos i display frames)
      else
        match pending_ref with
        | Some r => display_loop idxs (u32 (display + 1)) (Some i) (set_pos r display frames)
        | None => display_loop idxs display (Some i) frames
        end
  end.

Definition compute_display_order (frames : list rfs_frame) : list rfs_frame :=
  if negb (existsb fr_is_bframe frames)
  then imap (fun i f => f <| fr_display_pos := Z.of_nat i |>) frames
  else display_loop (seq 0 (List.length frames)) 0 None frames.

(** ** Codec detection *)

Definition detect_codec (first_byte : Z) : option rss_codec :=
  if (first_byte =? 103) || (first_byte =? 71) || (first_byte =? 39) then Some RSS_CODEC_H264
  else if first_byte =? 104 then Some RSS_CODEC_H264
  else if first_byte =? 101 then Some RSS_CODEC_H264
  else if first_byte =? 9 then Some RSS_CODEC_H264
  else if (first_byte =? 64) || (first_byte =? 66) || (first_byte =? 68) || (first_byte =? 70) then Some RSS_CODEC_H265
  else if first_byte =? 38 then Some RSS_CODEC_H265
  else None.

Fixpoint strrchr (s : string) (c : ascii) : option string :=
  match s with
  | EmptyString => None
  | String a t => match strrchr t c with Some r => Some r | None => if Ascii.eqb a c then Some s else None end
  end.

Definition lower (a : ascii) : ascii :=
  let n := nat_of_ascii a in if (65 <=? n)%nat && (n <=? 90)%nat then ascii_of_nat (n + 32) else a.

Fixpoint strcasecmp_eq (s t : string) : bool :=
  match s, t with
  | EmptyString, EmptyString => true
  | String a s, String b t => Ascii.eqb (lower a) (lower b) && strcasecmp_eq s t
  | _, _ => false
  end.

Definition detect_codec_from_extension (path : string) : option rss_codec :=
  match strrchr path "." with
  | None => None
  | Some dot =>
      if strcasecmp_eq dot ".h264" || strcasecmp_eq dot ".264" then Some RSS_CODEC_H264
      else if strcasecmp_eq dot ".h265" || strcasecmp_eq dot ".265" || strcasecmp_eq dot ".hevc" then Some RSS_CODEC_H265
      else None
  end.

(** ** Unit classification *)

Definition h264_is_vcl (b : Z) : bool := let t := Z.land b 31 in (t >=? 1) && (t <=? 5).
Definition h264_is_idr (b : Z) : bool := Z.land b 31 =? 5.
Definition h264_is_sps (b : Z) : bool := Z.land b 31 =? 7.

Definition h264_map_nal (b : Z) : rss_nal :=
  let t := Z.land b 31 in
  if t =? 5 then RSS_NAL_H264_IDR
  else if t =? 7 then RSS_NAL_H264_SPS
  else if t =? 8 then RSS_NAL_H264_PPS
  else if t =? 6 then RSS_NAL_H264_SEI
  else RSS_NAL_H264_SLICE.

Definition h265_type (b : Z) : Z := Z.land (Z.shiftr b 1) 63.
Definition h265_is_vcl (b : Z) : bool := h265_type b <=? 31.
Definition h265_is_idr (b : Z) : bool := (h265_type b >=? 16) && (h265_type b <=? 21).
Definition h265_is_sps (b : Z) : bool := h265_type b =? 33.

Definition h265_map_nal (b : Z) : rss_nal :=
  let t := h265_type b in
  if (t >=? 16) && (t <=? 21) then RSS_NAL_H265_IDR
  else if t =? 32 then RSS_NAL_H265_VPS
  else if t =? 33 then RSS_NAL_H265_SPS
  else if t =? 34 then RSS_NAL_H265_PPS
  else if (t =? 39) || (t =? 40) then RSS_NAL_H265_SEI
  else RSS_NAL_H265_SLICE.

(** The function pointers of rfs_annexb_scan. *)
Definition is_vcl (codec : rss_codec) : Z -> bool := match codec with RSS_CODEC_H265 => h265_is_vcl | _ => h264_is_vcl end.
Definition is_idr (codec : rss_codec) : Z -> bool := match codec with RSS_CODEC_H265 => h265_is_idr | _ => h264_is_idr end.
Definition is_sps (codec : rss_codec) : Z -> bool := match codec with RSS_CODEC_H265 => h265_is_sps | _ => h264_is_sps end.
Definition map_nal (codec : rss_codec) : Z -> rss_nal := match codec with RSS_CODEC_H265 => h265_map_nal | _ => h264_map_nal end.
Definition slice_type (codec : rss_codec) : list Z -> Z := match codec with RSS_CODEC_H265 => h265_slice_type | _ => h264_slice_type end.
Definition parse_sps (codec : rss_codec) : list Z -> rfs_annexb_info -> bool * rfs_annexb_info :=
  match codec with RSS_CODEC_H265 => parse_h265_sps | _ => parse_h264_sps end.

(** ** The scan *)

(** find_sc is rmr's scanner, word for word. *)
Definition find_sc (l : list Z) : option (nat * nat) := find_start_code l.

(** Every round passes a start code; the length of the file is enough. *)
Fixpoint detect_loop (fuel : nat) (sc : option (list Z * nat)) : option rss_codec :=
  match fuel, sc with
  | S fuel, Some (l, sc_len) =>
      let nal := drop sc_len l in
      match match nal with b :: _ => detect_codec b | [] => None end with
      | Some codec => Some codec
      | None => detect_loop fuel (first_code nal)
      end
  | _, _ => None
  end.

Definition scan_codec (data : list Z) (path : string) (codec_hint : option rss_codec) : option rss_codec :=
  match codec_hint with
  | Some codec => Some codec
  | None =>
      match detect_codec_from_extension path with
      | Some codec => Some codec
      | None => detect_loop (List.length data) (first_code data)
      end
  end.

(** [while (nal_len > 1 && nal[nal_len - 1] == 0) nal_len--]. *)
Definition trim_unit (l : list Z) : list Z := match l with [] => [] | x :: t => x :: trim_zeros t end.

(** The loop at a start code: its offset, the file from it on, and its length. *)
Fixpoint scan_loop (fuel : nat) (codec : rss_codec) (size : Z) (sc : option (Z * list Z * nat)) (frame_start_off : Z)
    (sps_parsed : bool) (info : rfs_annexb_info) : rfs_annexb_info :=
  match fuel, sc with
  | S fuel, Some (off, l, sc_len) =>
      match drop sc_len l with
      | [] => info
      | (b :: _) as nal =>
          let nal_off := off + Z.of_nat sc_len in
          let found := find_sc nal in
          let next_sc := (fun '(n, len) => (nal_off + Z.of_nat n, drop n nal, len)) <$> found in
          let unit := trim_unit (match found with Some (n, _) => take n nal | None => nal end) in
          let '(sps_parsed, info) :=
            if negb sps_parsed && is_sps codec b then parse_sps codec unit info else (sps_parsed, info) in
          if is_vcl codec b then
            let frame_end := u32 (match next_sc with Some (o, _, _) => o | None => size end) in
            if Z.of_nat (List.length (ai_frames info)) >=? RFS_ANNEXB_MAX_FRAMES then info
            else
              let f := mk_rfs_frame frame_start_off (u32 (frame_end - frame_start_off)) 0 (map_nal codec b)
                         (is_idr codec b) (slice_type codec unit =? 1) in
              scan_loop fuel codec size next_sc frame_end sps_parsed (info <| ai_frames := ai_frames info ++ [f] |>)
          else scan_loop fuel codec size next_sc frame_start_off sps_parsed info
      end
  | _, _ => info
  end.

(** [None] is -1; [alloc] is whether the frame index could be allocated. *)
Definition rfs_annexb_scan (alloc : bool) (data : list Z) (path : string) (codec_hint : option rss_codec) : option rfs_annexb_info :=
  match scan_codec data path codec_hint with
  | None => None
  | Some codec =>
      let info := mk_info codec 0 0 0 0 [] in
      if negb alloc then None else
      let sc := (fun '(n, len) => (Z.of_nat n, drop n data, len)) <$> find_sc data in
      let frame_start_off := match sc with Some (o, _, _) => u32 o | None => 0 end in
      let info := scan_loop (List.length data) codec (Z.of_nat (List.length data)) sc frame_start_off false info in
      if (List.length (ai_frames info) =? 0)%nat then None
      else Some (info <| ai_frames := compute_display_order (ai_frames info) |>)
  end.
