(* ===== verification/RfsSps.v ===== *)
(** * rfs: the parameter-set parsers against the standards

    What a parser reads from a run of bits, one field after another; then the
    H.264 and H.265 syntax of a sequence parameter set, written out, and the
    theorems that the parsers find its profile, its level and the size of the
    picture it describes. *)

From stdpp Require Import list.
From S2P Require Import Prelude Mux Nal RfsAnnexb.

#[local] Open Scope bits_scope.

(** ** Bits *)

(** [n] bits of [v], most significant first. *)
Fixpoint bits_of (n : nat) (v : Z) : list bool :=
  match n with
  | O => []
  | S n => Z.testbit v (Z.of_nat n) :: bits_of n v
  end.

Definition flat (data : list Z) : list bool := concat (bits_of 8 <$> data).

Definition bval (w : list bool) : Z := fold_left (fun a x => 2 * a + Z.b2z x) w 0.

Lemma bits_of_length n v : length (bits_of n v) = n.
Proof. induction n; [done|]. cbn [bits_of length]. by rewrite IHn. Qed.

Lemma bits_of_lookup n v i : (i < n)%nat -> bits_of n v !! i = Some (Z.testbit v (Z.of_nat (n - 1 - i))).
Proof.
  revert i. induction n as [|n IH]; intros i Hi; [lia|]. cbn [bits_of]. destruct i as [|i]; cbn [lookup list_lookup].
  - do 3 f_equal. lia.
  - rewrite IH by lia. do 3 f_equal. lia.
Qed.

Lemma flat_length data : length (flat data) = (8 * length data)%nat.
Proof. unfold flat. induction data as [|x data IH]; [done|]. cbn [fmap list_fmap concat length]. rewrite length_app, bits_of_length, IH. lia. Qed.

Lemma flat_lookup data i x : flat data !! i = Some x ->
  exists byte, data !! (i / 8)%nat = Some byte /\ x = Z.testbit byte (7 - Z.of_nat (i mod 8)).
Proof.
  revert i. induction data as [|d data IH]; intros i; [done|]. unfold flat. cbn [fmap list_fmap concat]. fold (flat data).
  destruct (Nat.lt_ge_cases i 8) as [Hi|Hi].
  - rewrite lookup_app_l, bits_of_lookup by (rewrite ?bits_of_length; lia). intros [= <-]. exists d.
    rewrite Nat.div_small, Nat.mod_small by lia. split; [done|]. f_equal. lia.
  - rewrite lookup_app_r, bits_of_length by (rewrite ?bits_of_length; lia). intros (byte & Hb & ->)%IH. exists byte.
    assert (Hd : (i / 8 = S ((i - 8) / 8))%nat) by (rewrite <- (Nat.add_1_r ((i - 8) / 8)), <- (Nat.div_add (i - 8) 1 8) by lia; f_equal; lia).
    assert (Hm : (i mod 8 = (i - 8) mod 8)%nat) by (rewrite <- (Nat.Div0.mod_add (i - 8) 1 8); f_equal; lia).
    by rewrite Hd, Hm.
Qed.

(** The reader stands before the bits [l], and has not run over. *)
Definition at_bits (b : bits_t) (l : list bool) : Prop :=
  bt_overflow b = false /\ 0 <= bt_pos b /\ Z.of_nat (8 * length (bt_data b)) < 2 ^ 32 /\
  exists w, flat (bt_data b) = w ++ l /\ bt_pos b = Z.of_nat (length w).

(** [m] reads the bits [w] and gives [x]. *)
Definition reads {A} (m : bits A) (w : list bool) (x : A) : Prop :=
  forall b l, at_bits b (w ++ l) -> exists b', m b = (x, b') /\ at_bits b' l.

Lemma at_bits_move b w l : at_bits b (w ++ l) -> at_bits (b <| bt_pos := u32 (bt_pos b + Z.of_nat (length w)) |>) l.
Proof.
  intros (Ho & Hp & Hs & v & Hf & Hv). pose proof (flat_length (bt_data b)) as Hl. rewrite Hf, !length_app in Hl.
  assert (Hw : u32 (bt_pos b + Z.of_nat (length w)) = bt_pos b + Z.of_nat (length w)) by (apply uwrap_id; unfold in_u; lia).
  rewrite Hw. split; [done|]. cbn. split; [lia|]. split; [done|]. exists (v ++ w). rewrite <- app_assoc, length_app. split; [done|lia].
Qed.

Lemma reads_ret {A} (x : A) : reads (bits_ret x) [] x.
Proof. intros b l H. by exists b. Qed.

Lemma reads_bind {A B} (m : bits A) (f : A -> bits B) w1 w2 x y :
  reads m w1 x -> reads (f x) w2 y -> reads (bits_bind m f) (w1 ++ w2) y.
Proof.
  intros Hm Hf b l H. rewrite <- app_assoc in H. destruct (Hm _ _ H) as (b1 & E1 & H1). destruct (Hf _ _ H1) as (b2 & E2 & H2).
  exists b2. unfold bits_bind. by rewrite E1.
Qed.

Lemma reads_skip n w : Z.of_nat (length w) = n -> reads (bits_skip n) w tt.
Proof.
  intros <- b l H. eexists. split; [reflexivity|]. pose proof (at_bits_move b w l H) as Hm.
  destruct (_ >? _) eqn:E; [|exact Hm]. exfalso. bool_to_prop. destruct Hm as (_ & _ & _ & v & Hf & Hv).
  pose proof (flat_length (bt_data b)) as Hl. change (flat (bt_data b) = v ++ l) in Hf. rewrite Hf, length_app in Hl. rewrite Hv in E.
  cbn [set_field bt_data] in E.
  apply Z.lt_nge in E. apply E. transitivity (Z.of_nat (8 * length (bt_data b)) / 8); [apply Z.div_le_mono; lia|].
  rewrite Nat2Z.inj_mul, Z.mul_comm, Z.div_mul; lia.
Qed.

Lemma reads_overflowed : reads bits_overflowed [] false.
Proof. intros b l H. exists b. unfold bits_overflowed. split; [|exact H]. by destruct H as (-> & _). Qed.

(** ** Fixed-width fields *)

Lemma bit_at b x l : at_bits b (x :: l) ->
  exists byte, bt_data b !! Z.to_nat (bt_pos b / 8) = Some byte /\
    Z.land (Z.shiftr byte (7 - Z.land (bt_pos b) 7)) 1 = Z.b2z x.
Proof.
  intros (_ & _ & _ & w & Hf & Hp). assert (Hx : flat (bt_data b) !! length w = Some x).
  { rewrite Hf. rewrite lookup_app_r, Nat.sub_diag by done. done. }
  apply flat_lookup in Hx as (byte & Hb & ->). exists byte. rewrite Hp. split.
  - replace (Z.of_nat (length w) / 8) with (Z.of_nat (length w / 8)) by (by rewrite Nat2Z.inj_div). by rewrite Nat2Z.id.
  - change 7 with (Z.ones 3) at 2. rewrite Z.land_ones by lia. change 1 with (Z.ones 1) at 1. rewrite Z.land_ones by lia.
    change (2 ^ 1) with 2. rewrite <- Z.bit0_mod, Z.shiftr_spec, Z.add_0_l by lia. change (2 ^ 3) with 8. by rewrite Nat2Z.inj_mod.
Qed.

Lemma bval_acc w a : fold_left (fun a x => 2 * a + Z.b2z x) w a = a * 2 ^ Z.of_nat (length w) + bval w.
Proof.
  revert a. induction w as [|x w IH]; intros a; cbn [fold_left length].
  { unfold bval. cbn. lia. }
  unfold bval. cbn [fold_left]. rewrite (IH (2 * a + Z.b2z x)), (IH (2 * 0 + Z.b2z x)), Nat2Z.inj_succ, Z.pow_succ_r by lia. lia.
Qed.

Lemma bval_range w : 0 <= bval w < 2 ^ Z.of_nat (length w).
Proof.
  induction w as [|x w IH]; [cbn; lia|]. unfold bval. cbn [fold_left length]. rewrite bval_acc, Nat2Z.inj_succ, Z.pow_succ_r by lia.
  destruct x; cbn [Z.b2z]; lia.
Qed.

Lemma bval_of n v : bval (bits_of n v) = v mod 2 ^ Z.of_nat n.
Proof.
  induction n as [|n IH]; [by rewrite Z.mod_1_r|]. cbn [bits_of]. unfold bval. cbn [fold_left]. rewrite bval_acc, IH, bits_of_length.
  rewrite Nat2Z.inj_succ, <- Z.add_1_r, Z.pow_add_r, (Z.rem_mul_r v) by lia. change (2 ^ 1) with 2.
  rewrite <- (Z.testbit_spec' v (Z.of_nat n)) by lia. lia.
Qed.

Lemma read_loop w : forall val b l, 0 <= val -> val * 2 ^ Z.of_nat (length w) + bval w < 2 ^ 32 -> at_bits b (w ++ l) ->
  exists b', bits_read_loop (length w) val b = (val * 2 ^ Z.of_nat (length w) + bval w, b') /\ at_bits b' l.
Proof.
  induction w as [|x w IH]; intros val b l Hv Hr H.
  { exists b. split; [|done]. cbn [length bits_read_loop]. f_equal. unfold bval. cbn. lia. }
  assert (Hb : bval (x :: w) = Z.b2z x * 2 ^ Z.of_nat (length w) + bval w)
    by (unfold bval at 1; cbn [fold_left]; rewrite bval_acc; f_equal; lia).
  cbn [length bits_read_loop] in *. destruct (bit_at b x (w ++ l) H) as (byte & -> & ->).
  rewrite Hb, Nat2Z.inj_succ, Z.pow_succ_r in * by lia. pose proof (bval_range w) as Hw. clear Hb.
  assert (HP : 1 <= 2 ^ Z.of_nat (length w)) by lia. set (P := 2 ^ Z.of_nat (length w)) in *. clearbody P.
  assert (Hs : Z.lor (u32 (Z.shiftl val 1)) (Z.b2z x) = 2 * val + Z.b2z x).
  { rewrite uwrap_id by (unfold in_u; rewrite Z.shiftl_mul_pow2 by lia; change (2 ^ 1) with 2; destruct x; cbn [Z.b2z] in Hr; nia). rewrite lor_shiftl_add by (destruct x; cbn; lia). lia. }
  rewrite Hs. destruct (IH (2 * val + Z.b2z x) (b <| bt_pos := u32 (bt_pos b + 1) |>) l) as (b' & E & H').
  - destruct x; cbn; lia.
  - nia.
  - exact (at_bits_move b [x] (w ++ l) H).
  - exists b'. rewrite E. split; [|done]. f_equal. nia.
Qed.

Lemma reads_word w : (length w <= 32)%nat -> reads (bits_read (length w)) w (bval w).
Proof.
  intros Hl b l H. unfold bits_read. pose proof (bval_range w) as Hr.
  assert (2 ^ Z.of_nat (length w) <= 2 ^ 32) by (apply Z.pow_le_mono_r; lia).
  destruct (read_loop w 0 b l) as (b' & E & H'); [lia|lia|done|]. exists b'. rewrite E. done.
Qed.

Lemma reads_bits n v : (n <= 32)%nat -> reads (bits_read n) (bits_of n v) (v mod 2 ^ Z.of_nat n).
Proof.
  intros Hn. rewrite <- bval_of. pose proof (reads_word (bits_of n v)) as H. rewrite bits_of_length in H. by apply H.
Qed.

Lemma reads_flag (x : bool) : reads (bits_read 1) [x] (Z.b2z x).
Proof. apply (reads_word [x]). cbn. lia. Qed.

(** ** Exp-Golomb codes *)

Definition ue_code (v : Z) : list bool :=
  let z := Z.to_nat (Z.log2 (v + 1)) in repeat false z ++ bits_of (S z) (v + 1).

Definition se_code (x : Z) : list bool := ue_code (if 0 <? x then 2 * x - 1 else - 2 * x).

Definition ue_ok (v : Z) : Prop := 0 <= v < 2 ^ 32 - 1.
Definition se_ok (x : Z) : Prop := - 2 ^ 31 < x < 2 ^ 31.

Lemma zeros_read z : forall k b l, (z < k)%nat -> (k <= 32)%nat -> at_bits b (repeat false z ++ true :: l) ->
  exists b', ue_zeros k b = (32 - k + z, b')%nat /\ at_bits b' l.
Proof.
  induction z as [|z IH]; intros k b l Hk Hk2 H; (destruct k as [|k]; [lia|]); cbn [ue_zeros]; destruct H as (Ho & Hrest) eqn:EH;
    clear EH; rewrite Ho; pose proof (conj Ho Hrest : at_bits b _) as H1; cbn [repeat app] in H1.
  - destruct (reads_flag true b l H1) as (b' & -> & H'). exists b'. split; [|done]. cbn [Z.b2z Z.eqb]. f_equal. lia.
  - destruct (reads_flag false b (repeat false z ++ true :: l) H1) as (b' & -> & H').
    destruct (IH k b' l ltac:(lia) ltac:(lia) H') as (b2 & E & H2). exists b2. cbn [Z.b2z Z.eqb]. rewrite E. split; [|done]. f_equal. lia.
Qed.

Lemma reads_ue v : ue_ok v -> reads bits_ue (ue_code v) v.
Proof.
  intros Hv. unfold ue_code. set (z := Z.to_nat (Z.log2 (v + 1))). cbn [bits_of]. unfold ue_ok in Hv.
  assert (Hz : Z.of_nat z = Z.log2 (v + 1)) by (unfold z; rewrite Z2Nat.id; [done|apply Z.log2_nonneg]).
  assert (Hlog : 2 ^ Z.of_nat z <= v + 1 < 2 ^ (Z.of_nat z + 1)) by (rewrite Hz, Z.add_1_r; apply Z.log2_spec; lia).
  assert (Hz31 : (z <= 31)%nat).
  { assert (Z.log2 (v + 1) < 32) by (apply Z.log2_lt_pow2; lia). lia. }
  replace (Z.testbit (v + 1) (Z.of_nat z)) with true by (rewrite Hz; symmetry; apply Z.bit_log2; lia).
  intros b l H. rewrite <- app_assoc in H. cbn [app] in H.
  destruct (zeros_read z 32 b _ ltac:(lia) ltac:(lia) H) as (b1 & E1 & H1).
  destruct (reads_bits z (v + 1) ltac:(lia) b1 l H1) as (b2 & E2 & H2). exists b2. split; [|done].
  unfold bits_ue, bits_bind. rewrite E1. cbn [Nat.sub Nat.add]. rewrite E2. unfold bits_ret. f_equal.
  unfold shl_one. rewrite (Z.mod_small (Z.of_nat z)) by lia. rewrite Z.pow_add_r in Hlog by lia.
  assert (Hm : (v + 1) mod 2 ^ Z.of_nat z = v + 1 - 2 ^ Z.of_nat z).
  { symmetry. apply (Z.mod_unique_pos _ _ 1); lia. }
  rewrite Hm. rewrite uwrap_id; unfold in_u; lia.
Qed.

Lemma reads_se x : se_ok x -> reads bits_se (se_code x) x.
Proof.
  intros Hx. unfold se_ok in Hx. unfold bits_se, se_code. rewrite <- (app_nil_r (ue_code _)). destruct (Z.ltb_spec 0 x) as [H|H].
  - eapply reads_bind; [apply reads_ue; unfold ue_ok; lia|]. 
    replace (2 * x - 1) with (1 + 2 * (x - 1)) by lia. rewrite Z.odd_add_mul_2. cbn [Z.odd].
    replace (1 + 2 * (x - 1) + 1) with (x * 2) by lia. rewrite uwrap_id by (unfold in_u; lia). rewrite Z.div_mul by lia.
    rewrite swrap_id by (unfold in_s; lia). apply reads_ret.
  - eapply reads_bind; [apply reads_ue; unfold ue_ok; lia|].
    replace (-2 * x) with (2 * - x) by lia. rewrite Z.odd_mul. cbn [Z.odd andb]. rewrite Z.mul_comm, Z.div_mul by lia.
    rewrite swrap_id by (unfold in_s; lia). rewrite Z.opp_involutive. apply reads_ret.
Qed.

Create HintDb reads.
#[export] Hint Resolve reads_ret reads_flag reads_overflowed : reads.
#[export] Hint Extern 2 (reads bits_ue (ue_code _) _) => (apply reads_ue; assumption) : reads.
#[export] Hint Extern 2 (reads bits_se (se_code _) _) => (apply reads_se; assumption) : reads.
#[export] Hint Extern 2 (reads (bits_skip _) _ _) => (apply reads_skip; rewrite ?bits_of_length; reflexivity) : reads.

(** ** Emulation prevention *)

(** The encoder of both standards: a three goes before a byte of at most three
    that follows two zeros.  [zeros] have just been written. *)
Fixpoint escape_from (zeros : nat) (rbsp : list Z) : list Z :=
  match rbsp with
  | [] => []
  | x :: rbsp =>
      if (2 <=? zeros)%nat && (x <=? 3) then 3 :: x :: escape_from (if x =? 0 then 1 else 0) rbsp
      else x :: escape_from (if x =? 0 then S zeros else 0) rbsp
  end.

Definition escape (rbsp : list Z) : list Z := escape_from 0 rbsp.

Lemma unescape_nonzero x l cap : x <> 0 -> rbsp_unescape (x :: l) (S cap) = x :: rbsp_unescape l cap.
Proof. intros H. cbn [rbsp_unescape]. destruct l as [|y [|z l]]; [done..|]. by rewrite (proj2 (Z.eqb_neq x 0)). Qed.

Lemma unescape_zero_other y l cap : y <> 0 -> rbsp_unescape (0 :: y :: l) (S cap) = 0 :: rbsp_unescape (y :: l) cap.
Proof. intros H. cbn [rbsp_unescape]. destruct l as [|z l]; [done|]. rewrite (proj2 (Z.eqb_neq y 0)) by done. done. Qed.

Lemma unescape_zeros_other z l cap : z <> 3 -> rbsp_unescape (0 :: 0 :: z :: l) (S cap) = 0 :: rbsp_unescape (0 :: z :: l) cap.
Proof. intros H. cbn [rbsp_unescape]. by rewrite (proj2 (Z.eqb_neq z 3)). Qed.

Lemma unescape_from l : forall zeros cap, (zeros <= 2)%nat -> (zeros + length l <= cap)%nat ->
  rbsp_unescape (repeat 0 zeros ++ escape_from zeros l) cap = repeat 0 zeros ++ l.
Proof.
  induction l as [|x l IH]; intros zeros cap Hz Hc.
  { cbn [escape_from]. rewrite app_nil_r. destruct zeros as [|[|[|]]]; [by destruct cap| |cbn in Hc |lia];
      destruct cap as [|[|cap]]; cbn in Hc; (lia || done || by destruct cap). }
  assert (Hx : forall c, (S (length l) <= c)%nat -> x <> 0 -> rbsp_unescape (x :: escape_from 0 l) c = x :: l).
  { intros [|c] ? ?; [cbn in *; lia|]. rewrite unescape_nonzero by done. f_equal. apply (IH 0%nat); lia. }
  destruct zeros as [|[|[|]]]; [| | |lia]; cbn [escape_from Nat.leb andb repeat app length] in *.
  - destruct (Z.eqb_spec x 0) as [-> |Hn]; [exact (IH 1%nat cap ltac:(lia) ltac:(lia))|apply Hx; [lia|done]].
  - destruct (Z.eqb_spec x 0) as [-> |Hn]; [exact (IH 2%nat cap ltac:(lia) ltac:(lia))|].
    destruct cap as [|cap]; [lia|]. rewrite unescape_zero_other by done. f_equal. apply Hx; [lia|done].
  - destruct (x <=? 3) eqn:Ex.
    + destruct cap as [|[|cap]]; [lia..|]. change (rbsp_unescape (0 :: 0 :: 3 :: ?l) (S (S ?c))) with (0 :: 0 :: rbsp_unescape l c). do 2 f_equal.
      destruct (Z.eqb_spec x 0) as [-> |Hn]; [exact (IH 1%nat cap ltac:(lia) ltac:(lia))|apply Hx; [lia|done]].
    + bool_to_prop. rewrite (proj2 (Z.eqb_neq x 0)) by lia. destruct cap as [|[|cap]]; [lia..|].
      rewrite unescape_zeros_other, unescape_zero_other by lia. do 2 f_equal. apply Hx; lia.
Qed.

Lemma unescape_escape l cap : (length l <= cap)%nat -> rbsp_unescape (escape l) cap = l.
Proof. intros. by apply (unescape_from l 0); lia. Qed.

Lemma escape_from_length l : forall zeros, (length l <= length (escape_from zeros l))%nat.
Proof.
  induction l as [|x l IH]; intros zeros; cbn [escape_from]; [done|].
  destruct (_ && _); cbn [length]; [specialize (IH (if x =? 0 then 1%nat else 0%nat))|specialize (IH (if x =? 0 then S zeros else 0%nat))]; lia.
Qed.

(** A parameter set whose fields are at the head of its payload is read whole. *)
Lemma parse_reads {A} (m : bits A) w x rbsp trail : reads m w x -> flat rbsp = w ++ trail -> (length rbsp <= 512)%nat ->
  (m (bits_init (rbsp_unescape (escape rbsp) 512))).1 = x.
Proof.
  intros Hm Hf Hl. rewrite unescape_escape by done. destruct (Hm (bits_init rbsp) trail) as (b' & E & _).
  - split; [done|]. cbn. split; [lia|]. split; [lia|]. by exists [].
  - by rewrite E.
Qed.

(** ** H.264: seq_parameter_set_data *)

(** A scaling list by its deltas; the coding stops where the next scale is 0. *)
Fixpoint scaling_code (size : nat) (lst nxt : Z) (deltas : list Z) : list bool :=
  match size with
  | O => []
  | S size =>
      if nxt =? 0 then scaling_code size lst nxt deltas
      else
        let d := hd 0 deltas in
        let nxt := (lst + d + 256) mod 256 in
        se_code d ++ scaling_code size (if nxt =? 0 then lst else nxt) nxt (tl deltas)
  end.

Fixpoint matrix_code (cnt i : nat) (lists : list (option (list Z))) : list bool :=
  match cnt with
  | O => []
  | S cnt =>
      match hd None lists with
      | None => [false]
      | Some deltas => [true] ++ scaling_code (if (i <? 6)%nat then 16 else 64) 8 8 deltas
      end ++ matrix_code cnt (S i) (tl lists)
  end.

Record high_fields := mk_high {
  hf_chroma_format_idc : Z; hf_separate_colour_plane : bool; hf_bit_depth_luma : Z; hf_bit_depth_chroma : Z;
  hf_qpprime : bool; hf_matrix : option (list (option (list Z)))
}.

Definition high_code (h : high_fields) : list bool :=
  ue_code (hf_chroma_format_idc h) ++
  (if hf_chroma_format_idc h =? 3 then [hf_separate_colour_plane h] else []) ++
  ue_code (hf_bit_depth_luma h) ++ ue_code (hf_bit_depth_chroma h) ++ [hf_qpprime h] ++
  [match hf_matrix h with Some _ => true | None => false end] ++
  match hf_matrix h with Some m => matrix_code (if hf_chroma_format_idc h =? 3 then 12 else 8) 0 m | None => [] end.

Inductive poc_fields :=
  | Poc0 (log2_max_lsb : Z)
  | Poc1 (delta_always_zero : bool) (non_ref top_bottom : Z) (offsets : list Z)
  | Poc2.

Definition poc_code (p : poc_fields) : list bool :=
  match p with
  | Poc0 v => ue_code 0 ++ ue_code v
  | Poc1 z a c offsets => ue_code 1 ++ [z] ++ se_code a ++ se_code c ++ ue_code (Z.of_nat (length offsets)) ++ concat (se_code <$> offsets)
  | Poc2 => ue_code 2
  end.

(** left, right, top, bottom *)
Record crop_fields := mk_crop { cf_left : Z; cf_right : Z; cf_top : Z; cf_bottom : Z }.

Definition crop_code (c : option crop_fields) : list bool :=
  match c with
  | None => [false]
  | Some c => [true] ++ ue_code (cf_left c) ++ ue_code (cf_right c) ++ ue_code (cf_top c) ++ ue_code (cf_bottom c)
  end.

Record sps264 := mk_sps264 {
  s4_profile : Z; s4_constraints : Z; s4_level : Z; s4_id : Z; s4_high : high_fields; s4_log2_frame_num : Z; s4_poc : poc_fields;
  s4_ref_frames : Z; s4_gaps : bool; s4_width_mbs : Z; s4_height_units : Z; s4_frame_mbs_only : bool; s4_adaptive : bool;
  s4_direct_8x8 : bool; s4_crop : option crop_fields
}.

(** The profiles whose parameter sets have the high fields. *)
Definition high_profiles : list Z := [100; 110; 122; 244; 44; 83; 86; 118; 128; 138; 139; 134; 135].

Definition sps264_code (s : sps264) : list bool :=
  bits_of 8 (s4_profile s) ++ bits_of 8 (s4_constraints s) ++ bits_of 8 (s4_level s) ++ ue_code (s4_id s) ++
  (if bool_decide (s4_profile s ∈ high_profiles) then high_code (s4_high s) else []) ++
  ue_code (s4_log2_frame_num s) ++ poc_code (s4_poc s) ++ ue_code (s4_ref_frames s) ++ [s4_gaps s] ++
  ue_code (s4_width_mbs s) ++ ue_code (s4_height_units s) ++ [s4_frame_mbs_only s] ++
  (if s4_frame_mbs_only s then [] else [s4_adaptive s]) ++ [s4_direct_8x8 s] ++ crop_code (s4_crop s).

(** The chroma format that holds, 4:2:0 where it is not coded. *)
Definition chroma264 (s : sps264) : Z :=
  if bool_decide (s4_profile s ∈ high_profiles) then hf_chroma_format_idc (s4_high s) else 1.

(** The output size: whole macroblocks, less the cropping in its units. *)
Definition field_factor (s : sps264) : Z := if s4_frame_mbs_only s then 1 else 2.

Definition coded264 (s : sps264) : Z * Z := ((s4_width_mbs s + 1) * 16, (s4_height_units s + 1) * 16 * field_factor s).

Definition cropped264 (s : sps264) : Z * Z :=
  match s4_crop s with
  | None => (0, 0)
  | Some c =>
      let monochrome := (chroma264 s =? 0) || ((chroma264 s =? 3) && hf_separate_colour_plane (s4_high s)) in
      let sub_width := if (chroma264 s =? 1) || (chroma264 s =? 2) then 2 else 1 in
      let sub_height := if chroma264 s =? 1 then 2 else 1 in
      ((cf_left c + cf_right c) * (if monochrome then 1 else sub_width),
       (cf_top c + cf_bottom c) * ((if monochrome then 1 else sub_height) * field_factor s))
  end.

Definition size264 (s : sps264) : Z * Z := ((coded264 s).1 - (cropped264 s).1, (coded264 s).2 - (cropped264 s).2).

(** What the standard requires of the fields. *)
Definition delta_ok (d : Z) : Prop := -128 <= d < 128.
Definition lists_ok (m : list (option (list Z))) : Prop := Forall (fun o => match o with Some ds => Forall delta_ok ds | None => True end) m.

Definition high_ok (h : high_fields) : Prop :=
  ue_ok (hf_chroma_format_idc h) /\ ue_ok (hf_bit_depth_luma h) /\ ue_ok (hf_bit_depth_chroma h) /\
  match hf_matrix h with Some m => lists_ok m | None => True end.

Definition poc_ok (p : poc_fields) : Prop :=
  match p with
  | Poc0 v => ue_ok v
  | Poc1 _ a c offsets => se_ok a /\ se_ok c /\ ue_ok (Z.of_nat (length offsets)) /\ Forall se_ok offsets
  | Poc2 => True
  end.

Definition crop_ok (c : option crop_fields) : Prop :=
  match c with Some c => ue_ok (cf_left c) /\ ue_ok (cf_right c) /\ ue_ok (cf_top c) /\ ue_ok (cf_bottom c) | None => True end.

Definition sps264_ok (s : sps264) : Prop :=
  0 <= s4_profile s < 256 /\ 0 <= s4_level s < 256 /\ ue_ok (s4_id s) /\ high_ok (s4_high s) /\ ue_ok (s4_log2_frame_num s) /\
  poc_ok (s4_poc s) /\ ue_ok (s4_ref_frames s) /\ ue_ok (s4_width_mbs s) /\ ue_ok (s4_height_units s) /\ crop_ok (s4_crop s) /\
  0 < (size264 s).1 /\ 0 < (size264 s).2 /\ (coded264 s).1 < 2 ^ 32 /\ (coded264 s).2 < 2 ^ 32.

(** ** The parts of the parser *)

(** Split a bound computation off, with the bits its routine reads. *)
Ltac reads_step := eapply reads_bind; [solve [eauto with reads]|].

Lemma reads_app_nil {A} (m : bits A) w x : reads m (w ++ []) x -> reads m w x.
Proof. by rewrite app_nil_r. Qed.

Lemma reads_if {A} (c : bool) (m1 m2 : bits A) w1 w2 x :
  (c = true -> reads m1 w1 x) -> (c = false -> reads m2 w2 x) -> reads (if c then m1 else m2) (if c then w1 else w2) x.
Proof. destruct c; auto. Qed.

Lemma reads_scaling size : forall lst nxt ds, 0 <= lst < 256 -> Forall delta_ok ds ->
  reads (scaling_list size lst nxt) (scaling_code size lst nxt ds) tt.
Proof.
  induction size as [|size IH]; intros lst nxt ds Hl Hd; cbn [scaling_list scaling_code]; [apply reads_ret|].
  destruct (nxt =? 0) eqn:En.
  - rewrite <- (app_nil_l (scaling_code _ _ _ _)). eapply reads_bind; [apply reads_ret|]. rewrite En. by apply IH.
  - assert (Hh : delta_ok (hd 0 ds) /\ Forall delta_ok (tl ds)) by (destruct Hd; cbn; unfold delta_ok; auto with lia).
    destruct Hh as [Hh Ht]. assert (Hs : se_ok (hd 0 ds)) by (unfold delta_ok, se_ok in *; lia). unfold delta_ok in Hh.
    eapply reads_bind.
    + apply reads_app_nil. eapply reads_bind; [by apply reads_se|apply reads_ret].
    + rewrite swrap_id by (unfold in_s; lia). rewrite Z.rem_mod_nonneg by lia. apply IH; [|done].
      pose proof (Z.mod_pos_bound (lst + hd 0 ds + 256) 256 ltac:(lia)). case_match; lia.
Qed.

Lemma reads_matrix cnt : forall i m, lists_ok m -> reads (scaling_lists cnt i) (matrix_code cnt i m) tt.
Proof.
  induction cnt as [|cnt IH]; intros i m Hm; cbn [scaling_lists matrix_code]; [apply reads_ret|].
  assert (Hh : match hd None m with Some ds => Forall delta_ok ds | None => True end /\ lists_ok (tl m))
    by (destruct Hm; cbn; split; (done || constructor)).
  destruct Hh as [Hh Ht]. eapply reads_bind; [|by apply IH]. destruct (hd None m) as [ds|].
  - reads_step. cbn [Z.b2z Z.eqb]. apply reads_scaling; [lia|done].
  - apply reads_app_nil. reads_step. apply reads_ret.
Qed.

Lemma reads_high h : high_ok h -> reads h264_high_fields (high_code h) (hf_chroma_format_idc h).
Proof.
  intros (Hc & Hl & Hd & Hm). unfold h264_high_fields, high_code. reads_step.
  eapply reads_bind. { apply reads_if; intros; eauto with reads. }
  do 3 reads_step. destruct (hf_matrix h) as [m|].
  - eapply reads_bind; [apply reads_flag|]. cbn [Z.b2z Z.eqb]. apply reads_app_nil.
    eapply reads_bind; [|apply reads_ret]. destruct (hf_chroma_format_idc h =? 3); by apply reads_matrix.
  - eapply reads_bind; [apply reads_flag|]. cbn [Z.b2z Z.eqb]. apply reads_app_nil. eapply reads_bind; apply reads_ret.
Qed.

Lemma reads_offsets l : Forall se_ok l ->
  reads (fun b => (tt, N.iter (N.of_nat (length l)) (fun b => (bits_se b).2) b)) (concat (se_code <$> l)) tt.
Proof.
  induction 1 as [|x l Hx Hl IH]; intros b t H; [by exists b|]. cbn [fmap list_fmap concat length] in *. rewrite <- app_assoc in H.
  destruct (reads_se x Hx b _ H) as (b1 & E1 & H1). destruct (IH b1 t H1) as (b2 & E2 & H2). exists b2.
  rewrite Nat2N.inj_succ, N.iter_succ_r, E1. split; [exact E2|done].
Qed.

Lemma ue_ok_small v : 0 <= v <= 2 -> ue_ok v.
Proof. unfold ue_ok. lia. Qed.

Lemma reads_poc p : poc_ok p -> reads h264_poc_fields (poc_code p) tt.
Proof.
  intros Hp. unfold h264_poc_fields. destruct p as [v|z a c l|]; cbn [poc_ok poc_code] in *.
  - eapply reads_bind; [by apply reads_ue, ue_ok_small|]. cbn [Z.eqb]. apply reads_app_nil. reads_step. apply reads_ret.
  - destruct Hp as (Ha & Hc & Hn & Hl). eapply reads_bind; [by apply reads_ue, ue_ok_small|]. cbn [Z.eqb Pos.eqb].
    do 4 reads_step. rewrite <- nat_N_Z, N2Z.id. by apply reads_offsets.
  - apply reads_app_nil. eapply reads_bind; [by apply reads_ue, ue_ok_small|]. cbn [Z.eqb Pos.eqb]. apply reads_ret.
Qed.

(** The cropping of a picture it does not use up. *)
Lemma reads_crop c cux cuy width height : crop_ok c ->
  let cw := match c with Some c => (cf_left c + cf_right c) * cux | None => 0 end in
  let ch := match c with Some c => (cf_top c + cf_bottom c) * cuy | None => 0 end in
  1 <= cux -> 1 <= cuy -> cw < width -> ch < height -> width < 2 ^ 32 -> height < 2 ^ 32 ->
  reads (crop cux cuy width height) (crop_code c) (width - cw, height - ch).
Proof.
  intros Hc cw ch Hx Hy Hw Hh Hw2 Hh2. unfold crop. destruct c as [c|]; cbn [crop_code crop_ok] in *.
  - destruct Hc as (Hl & Hr & Ht & Hb). reads_step. cbn [Z.b2z Z.eqb]. do 3 reads_step. apply reads_app_nil. reads_step.
    unfold ue_ok, cw, ch in *. clear cw ch.
    assert (cf_left c + cf_right c <= (cf_left c + cf_right c) * cux) by nia.
    assert (cf_top c + cf_bottom c <= (cf_top c + cf_bottom c) * cuy) by nia.
    rewrite (uwrap_id 32 (cf_left c + cf_right c)), (uwrap_id 32 (cf_top c + cf_bottom c)) by (unfold in_u; lia).
    rewrite !(uwrap_id 32) by (unfold in_u; lia).
    rewrite (proj2 (Z.ltb_lt _ _)), (proj2 (Z.ltb_lt _ _)) by done. apply reads_ret.
  - apply reads_app_nil. reads_step. cbn [Z.b2z Z.eqb]. unfold cw, ch. rewrite !Z.sub_0_r. apply reads_ret.
Qed.

(** For 4:0:0 and 4:2:0 the parser's units are the standard's. *)
Lemma crop_units264 s : 0 <= chroma264 s <= 1 ->
  let monochrome := (chroma264 s =? 0) || ((chroma264 s =? 3) && hf_separate_colour_plane (s4_high s)) in
  (if monochrome then 1 else if (chroma264 s =? 1) || (chroma264 s =? 2) then 2 else 1) = (if chroma264 s =? 0 then 1 else 2) /\
  (if monochrome then 1 else if chroma264 s =? 1 then 2 else 1) = (if chroma264 s =? 0 then 1 else 2).
Proof. intros H. assert (chroma264 s = 0 \/ chroma264 s = 1) as [-> | ->] by lia; done. Qed.

Lemma reads_eq_ret {A} (x y : A) : x = y -> reads (bits_ret x) [] y.
Proof. intros ->. apply reads_ret. Qed.

Lemma reads_sps264 s info : sps264_ok s -> (s4_profile s ∈ high_profiles <-> 100 <= s4_profile s) ->
  (s4_crop s = None \/ chroma264 s <= 1) ->
  reads (h264_sps_fields info) (sps264_code s)
    (true, info <| ai_profile := s4_profile s |> <| ai_level := s4_level s |>
                <| ai_width := (size264 s).1 |> <| ai_height := (size264 s).2 |>).
Proof.
  intros (Hp & Hlv & Hid & Hhi & Hfn & Hpoc & Href & Hw & Hh & Hcr & Hs1 & Hs2 & Hb1 & Hb2) Hprof Hchroma.
  assert (Hc0 : 0 <= chroma264 s).
  { unfold chroma264. destruct (bool_decide _); [|lia]. destruct Hhi as (Hhi & _). unfold ue_ok in Hhi. lia. }
  unfold h264_sps_fields, sps264_code.
  eapply reads_bind; [by apply reads_bits; lia|]. change (2 ^ Z.of_nat 8) with 256. rewrite (Z.mod_small (s4_profile s)) by lia.
  reads_step. eapply reads_bind; [by apply reads_bits; lia|]. change (2 ^ Z.of_nat 8) with 256.
  rewrite (Z.mod_small (s4_level s)) by lia. reads_step.
  eapply (reads_bind _ _ _ _ (chroma264 s)).
  { unfold chroma264. case_bool_decide as Hd.
    - rewrite (proj2 (Z.geb_le _ _)) by tauto. by apply reads_high.
    - destruct (Z.geb_spec (s4_profile s) 100); [tauto|]. apply reads_ret. }
  reads_step. eapply reads_bind; [by apply reads_poc|]. do 5 reads_step.
  eapply reads_bind. { by destruct (s4_frame_mbs_only s); cbn [Z.b2z Z.eqb]; eauto with reads. }
  reads_step. apply reads_app_nil.
  assert (Hf : 2 - Z.b2z (s4_frame_mbs_only s) = field_factor s) by (unfold field_factor; by destruct (s4_frame_mbs_only s)).
  rewrite Hf. unfold size264, coded264, ue_ok in *. cbn [fst snd] in *.
  assert (Hff : 1 <= field_factor s <= 2) by (unfold field_factor; destruct (s4_frame_mbs_only s); lia).
  rewrite (uwrap_id 32 (s4_width_mbs s + 1)), (uwrap_id 32 (s4_height_units s + 1)) by (unfold in_u; lia).
  rewrite (uwrap_id 32 ((s4_width_mbs s + 1) * 16)), (uwrap_id 32 ((s4_height_units s + 1) * 16)) by (unfold in_u; nia).
  rewrite (uwrap_id 32 ((s4_height_units s + 1) * 16 * field_factor s)) by (unfold in_u; nia).
  eapply reads_bind.
  { apply (reads_crop (s4_crop s)); [exact Hcr|destruct (_ =? 0); lia|destruct (_ =? 0); lia|..|lia|lia].
    - revert Hs1. unfold cropped264. destruct (s4_crop s) as [c|]; [|cbn; lia]. cbn [fst].
      destruct Hchroma as [|Hch]; [done|]. destruct (crop_units264 s (conj Hc0 Hch)) as [-> _].  lia.
    - revert Hs2. unfold cropped264. destruct (s4_crop s) as [c|]; [|cbn; lia]. cbn [snd].
      destruct Hchroma as [|Hch]; [done|]. destruct (crop_units264 s (conj Hc0 Hch)) as [_ ->]. lia. }
  apply reads_app_nil. reads_step. rewrite !uwrap_id by (unfold in_u; lia).
  apply reads_eq_ret. unfold cropped264. destruct (s4_crop s) as [c|]; [|done]. cbn [fst snd].
  destruct Hchroma as [|Hch]; [done|]. destruct (crop_units264 s (conj Hc0 Hch)) as [-> ->]. done.
Qed.

Lemma parse_reads_length w rbsp trail n : flat rbsp = w ++ trail -> (8 * n < length w)%nat -> (n < length (escape rbsp))%nat.
Proof.
  intros Hf Hn. pose proof (flat_length rbsp) as Hl. rewrite Hf, length_app in Hl.
  pose proof (escape_from_length rbsp 0). unfold escape. lia.
Qed.

Lemma ue_code_length v : (0 < length (ue_code v))%nat.
Proof. unfold ue_code. rewrite length_app, bits_of_length. lia. Qed.

(** The picture size of an H.264 file is the one its parameter set codes.
    Whatever follows the fields (the display information, the trailing bits), for
    every legal set of fields, scaling matrices and reference offsets included,
    the parser finds the profile, the level, and the width and height the standard
    defines; the exceptions are the profiles 44, 83 and 86 and the cropping of
    4:2:2 and 4:4:4 pictures. *)
Theorem rfs_h264_sps_read s hdr rbsp trail info : sps264_ok s -> (s4_profile s ∈ high_profiles <-> 100 <= s4_profile s) ->
  (s4_crop s = None \/ chroma264 s <= 1) -> flat rbsp = sps264_code s ++ trail -> (length rbsp <= 512)%nat ->
  parse_h264_sps (hdr :: escape rbsp) info =
  (true, info <| ai_profile := s4_profile s |> <| ai_level := s4_level s |>
              <| ai_width := (size264 s).1 |> <| ai_height := (size264 s).2 |>).
Proof.
  intros Hs Hp Hc Hf Hl. unfold parse_h264_sps. assert (H3 : (3 < length (escape rbsp))%nat).
  { eapply parse_reads_length; [exact Hf|]. unfold sps264_code. rewrite !length_app, !bits_of_length.
    pose proof (ue_code_length (s4_id s)). lia. }
  rewrite (proj2 (Nat.ltb_ge _ _)) by (cbn [List.length]; lia). cbn [drop].
  exact (parse_reads _ _ _ rbsp trail (reads_sps264 s info Hs Hp Hc) Hf Hl).
Qed.

(** ** H.265: seq_parameter_set_rbsp *)

(** The profile and level of a sub-layer, where they are coded. *)
Definition sub_layer : Type := option Z * option Z.
Definition flag_of {A} (o : option A) : bool := match o with Some _ => true | None => false end.

Definition sub_flags_code (subs : list sub_layer) : list bool := concat ((fun '(p, l) => [flag_of p; flag_of l]) <$> subs).
Definition sub_layers_code (subs : list sub_layer) : list bool :=
  concat ((fun '(p, l) => match p with Some v => bits_of 88 v | None => [] end ++
                          match l with Some v => bits_of 8 v | None => [] end) <$> subs).

Record sps265 := mk_sps265 {
  s5_vps : Z; s5_nesting : bool; s5_space : Z; s5_tier : bool; s5_profile : Z; s5_compat : Z; s5_constraints : Z; s5_level : Z;
  s5_subs : list sub_layer; s5_id : Z; s5_chroma : Z; s5_separate_colour_plane : bool; s5_width : Z; s5_height : Z;
  s5_crop : option crop_fields
}.

Definition ptl_code (s : sps265) : list bool :=
  bits_of 2 (s5_space s) ++ [s5_tier s] ++ bits_of 5 (s5_profile s) ++ bits_of 32 (s5_compat s) ++ bits_of 48 (s5_constraints s) ++
  bits_of 8 (s5_level s) ++
  match s5_subs s with
  | [] => []
  | _ => sub_flags_code (s5_subs s) ++ repeat false (2 * (8 - length (s5_subs s))) ++ sub_layers_code (s5_subs s)
  end.

Definition sps265_code (s : sps265) : list bool :=
  bits_of 4 (s5_vps s) ++ bits_of 3 (Z.of_nat (length (s5_subs s))) ++ [s5_nesting s] ++ ptl_code s ++
  ue_code (s5_id s) ++ ue_code (s5_chroma s) ++ (if s5_chroma s =? 3 then [s5_separate_colour_plane s] else []) ++
  ue_code (s5_width s) ++ ue_code (s5_height s) ++ crop_code (s5_crop s).

(** The size after the conformance window. *)
Definition size265 (s : sps265) : Z * Z :=
  match s5_crop s with
  | None => (s5_width s, s5_height s)
  | Some c =>
      let sub_width := if (s5_chroma s =? 1) || (s5_chroma s =? 2) then 2 else 1 in
      let sub_height := if s5_chroma s =? 1 then 2 else 1 in
      (s5_width s - (cf_left c + cf_right c) * sub_width, s5_height s - (cf_top c + cf_bottom c) * sub_height)
  end.

Definition sps265_ok (s : sps265) : Prop :=
  0 <= s5_profile s < 32 /\ 0 <= s5_level s < 256 /\ (length (s5_subs s) < 8)%nat /\ ue_ok (s5_id s) /\ ue_ok (s5_chroma s) /\
  ue_ok (s5_width s) /\ ue_ok (s5_height s) /\ crop_ok (s5_crop s) /\ 0 < (size265 s).1 /\ 0 < (size265 s).2.

Lemma reads_sub_flags subs :
  reads (sub_flags (length subs)) (sub_flags_code subs) ((fun '(p, l) => (Z.b2z (flag_of p), Z.b2z (flag_of l))) <$> subs).
Proof.
  unfold sub_flags_code. induction subs as [|[p l] subs IH]; cbn [fmap list_fmap concat length sub_flags]; [apply reads_ret|].
  change ([flag_of p; flag_of l] ++ ?w) with ([flag_of p] ++ [flag_of l] ++ w). do 2 reads_step. apply reads_app_nil.
  eapply reads_bind; [exact IH|apply reads_ret].
Qed.

Lemma reads_skip_n n : reads (skip_n n 2) (repeat false (2 * n)) tt.
Proof.
  induction n as [|n IH]; cbn [skip_n]; [apply reads_ret|]. replace (2 * S n)%nat with (2 + 2 * n)%nat by lia. rewrite repeat_app.
  eapply reads_bind; [by apply reads_skip|exact IH].
Qed.

Lemma reads_sub_layers subs :
  reads (skip_sub_layers ((fun '(p, l) => (Z.b2z (flag_of p), Z.b2z (flag_of l))) <$> subs)) (sub_layers_code subs) tt.
Proof.
  unfold sub_layers_code. induction subs as [|[p l] subs IH]; cbn [fmap list_fmap concat skip_sub_layers]; [apply reads_ret|].
  rewrite <- app_assoc. eapply reads_bind; [|eapply reads_bind; [|exact IH]].
  - destruct p; cbn [flag_of Z.b2z Z.eqb]; eauto with reads.
  - destruct l; cbn [flag_of Z.b2z Z.eqb]; eauto with reads.
Qed.

Lemma reads_ptl s : 0 <= s5_profile s < 32 -> 0 <= s5_level s < 256 ->
  reads (skip_h265_ptl (length (s5_subs s))) (ptl_code s) (s5_profile s, s5_level s).
Proof.
  intros Hp Hl. unfold skip_h265_ptl, ptl_code. do 2 reads_step.
  eapply reads_bind; [apply reads_bits; lia|]. change (2 ^ Z.of_nat 5) with 32. rewrite (Z.mod_small (s5_profile s)) by lia.
  do 2 reads_step. eapply reads_bind; [apply reads_bits; lia|]. change (2 ^ Z.of_nat 8) with 256.
  rewrite (Z.mod_small (s5_level s)) by lia. rewrite !uwrap_id by (unfold in_u; lia).
  destruct (s5_subs s) as [|x subs] eqn:E; [apply reads_ret|]. rewrite <- E. replace (length (s5_subs s) =? 0)%nat with false by (by rewrite E).
  eapply reads_bind; [apply reads_sub_flags|]. eapply reads_bind; [apply reads_skip_n|]. apply reads_app_nil.
  eapply reads_bind; [apply reads_sub_layers|apply reads_ret].
Qed.

Lemma reads_sps265 s info : sps265_ok s ->
  reads (h265_sps_fields info) (sps265_code s)
    (true, info <| ai_profile := s5_profile s |> <| ai_level := s5_level s |>
                <| ai_width := (size265 s).1 |> <| ai_height := (size265 s).2 |>).
Proof.
  intros (Hp & Hlv & Hn & Hid & Hch & Hw & Hh & Hcr & Hs1 & Hs2). unfold h265_sps_fields, sps265_code.
  reads_step. eapply reads_bind; [apply reads_bits; lia|]. change (2 ^ Z.of_nat 3) with 8. rewrite Z.mod_small, Nat2Z.id by lia.
  reads_step. eapply reads_bind; [by apply reads_ptl|]. do 2 reads_step.
  eapply reads_bind. { apply reads_if; intros; eauto with reads. }
  do 2 reads_step. apply reads_app_nil. unfold ue_ok in *. eapply reads_bind.
  { apply (reads_crop (s5_crop s)); [exact Hcr|destruct (_ || _); lia|destruct (_ =? 1); lia|..|lia|lia].
    - revert Hs1. unfold size265. destruct (s5_crop s); cbn [fst]; lia.
    - revert Hs2. unfold size265. destruct (s5_crop s); cbn [snd]; lia. }
  apply reads_app_nil. reads_step. apply reads_eq_ret. unfold size265. destruct (s5_crop s); cbn [fst snd negb]; [done|]. by rewrite !Z.sub_0_r.
Qed.

(** The picture size of an H.265 file is the one its parameter set codes, in
    every chroma format, with any number of sub-layers and whatever follows the
    conformance window. *)
Theorem rfs_h265_sps_read s h1 h2 rbsp trail info : sps265_ok s -> flat rbsp = sps265_code s ++ trail -> (length rbsp <= 512)%nat ->
  parse_h265_sps (h1 :: h2 :: escape rbsp) info =
  (true, info <| ai_profile := s5_profile s |> <| ai_level := s5_level s |>
              <| ai_width := (size265 s).1 |> <| ai_height := (size265 s).2 |>).
Proof.
  intros Hs Hf Hl. unfold parse_h265_sps. assert (H3 : (3 < length (escape rbsp))%nat).
  { eapply parse_reads_length; [exact Hf|]. unfold sps265_code, ptl_code. rewrite !length_app, !bits_of_length. lia. }
  rewrite (proj2 (Nat.ltb_ge _ _)) by (cbn [List.length]; lia). cbn [drop].
  exact (parse_reads _ _ _ rbsp trail (reads_sps265 s info Hs) Hf Hl).
Qed.

(** ** Examples *)

(** Bytes from bits, the last one filled up with zeros. *)
Fixpoint pack (n : nat) (w : list bool) : list Z :=
  match n with
  | O => []
  | S n => bval (take 8 (w ++ repeat false 8)) :: pack n (drop 8 w)
  end.

Definition pack_all (w : list bool) : list Z := pack ((length w + 7) / 8) w.

(** A high-profile 1080p set, its scaling matrix coded, eight lines cropped off. *)
Definition demo_high (chroma : Z) : high_fields :=
  mk_high chroma false 0 0 false (Some [Some [4; -12; -120]; None; Some [1; 2; 3; 4]]).
Definition demo_sps264 (chroma crop_bottom : Z) : sps264 :=
  mk_sps264 100 0 40 0 (demo_high chroma) 4 (Poc1 true (-3) 5 [7; -1]) 4 false 119 67 true false true (Some (mk_crop 0 0 0 crop_bottom)).
Definition demo_rbsp264 (s : sps264) : list Z := pack_all (sps264_code s ++ [true]).
Definition demo_info : rfs_annexb_info := mk_info RSS_CODEC_H264 0 0 0 0 [].

Definition demo_sps265 : sps265 :=
  mk_sps265 0 true 0 false 1 1610612736 158329674399744 123 [(Some 5, None); (None, Some 90)] 0 1 false 1920 1088 (Some (mk_crop 0 0 0 4)).

Ltac field_facts := unfold sps264_ok, sps265_ok, high_ok, poc_ok, crop_ok, ue_ok, se_ok, lists_ok, delta_ok; cbn;
  repeat match goal with |- _ /\ _ => split | |- Forall _ _ => constructor end;
  first [lia | exact I | vm_compute; reflexivity].

Lemma rfs_h264_sps_read_witness :
  size264 (demo_sps264 1 4) = (1920, 1080) /\
  exists info, parse_h264_sps (103 :: escape (demo_rbsp264 (demo_sps264 1 4))) demo_info = (true, info) /\ ai_height info = 1080.
Proof.
  split; [reflexivity|]. eexists. split.
  - refine (rfs_h264_sps_read (demo_sps264 1 4) 103 _ (drop (length (sps264_code (demo_sps264 1 4)))
      (flat (demo_rbsp264 (demo_sps264 1 4)))) demo_info _ _ _ _ _); [field_facts| | |vm_compute; reflexivity|vm_compute; lia].
    + split; [cbn; lia|]. intros _. by left.
    + right. vm_compute. discriminate.
  - reflexivity.
Defined.

Lemma rfs_h265_sps_read_witness :
  size265 demo_sps265 = (1920, 1080) /\
  exists info, parse_h265_sps (66 :: 1 :: escape (pack_all (sps265_code demo_sps265))) demo_info = (true, info) /\ ai_width info = 1920.
Proof.
  split; [reflexivity|]. eexists. split.
  - refine (rfs_h265_sps_read demo_sps265 66 1 _ (drop (length (sps265_code demo_sps265)) (flat (pack_all (sps265_code demo_sps265))))
      demo_info _ _ _); [field_facts|vm_compute; reflexivity|vm_compute; lia].
  - reflexivity.
Defined.

(** The cropping of a 4:2:2 picture is taken in units of two lines. *)
Example rfs_h264_crop_422 :
  size264 (demo_sps264 2 8) = (1920, 1080) /\
  ai_height (parse_h264_sps (103 :: escape (demo_rbsp264 (demo_sps264 2 8))) demo_info).2 = 1072.
Proof. split; vm_compute; reflexivity. Qed.
