(* ===== verification/RfsScan.v ===== *)
(** * rfs: the frames of an Annex B file

    For every file, the frames lie one behind the other inside it; in a file of
    well-formed units each is one coded slice with the units before it; and the
    display positions are the order the frames are shown in. *)

From Stdlib Require Import String.
From stdpp Require Import list.
From S2P Require Import Prelude Mux Nal RfsAnnexb.

(** ** Display order *)

(** The B-frames in front. *)
Fixpoint lead (bs : list bool) : nat := match bs with true :: bs => S (lead bs) | _ => O end.

(** When a frame is shown: a reference after the B-frames decoded behind it, and
    a B-frame one earlier than it is decoded, once there is a reference. *)
Definition shown_at (bs : list bool) (i : nat) : Z :=
  if default false (bs !! i) then Z.of_nat i - (if existsb negb (take i bs) then 1 else 0)
  else Z.of_nat i + Z.of_nat (lead (drop (S i) bs)).

(** The positions from frame [idx] on, [p] telling whether a reference came before. *)
Fixpoint positions (idx : Z) (p : bool) (bs : list bool) : list Z :=
  match bs with
  | [] => []
  | true :: bs => (idx - Z.b2z p) :: positions (idx + 1) p bs
  | false :: bs => (idx + Z.of_nat (lead bs)) :: positions (idx + 1) true bs
  end.

Fixpoint upto (start : Z) (n : nat) : list Z := match n with O => [] | S n => start :: upto (start + 1) n end.

Lemma positions_perm bs : forall idx p,
  positions idx p bs ++ (if p : bool then [idx - 1 + Z.of_nat (lead bs)] else []) ≡ₚ
  upto (idx - Z.b2z p) (length bs + if p then 1 else 0).
Proof.
  induction bs as [|b bs IH]; intros idx p.
  { destruct p; cbn; [|done]. by rewrite Z.add_0_r. }
  destruct b; cbn [positions app length Nat.add upto].
  - constructor. replace (idx - Z.b2z p + 1) with (idx + 1 - Z.b2z p) by lia. rewrite <- IH. cbn [lead].
    destruct p; [|done]. by replace (idx - 1 + Z.of_nat (S (lead bs))) with (idx + 1 - 1 + Z.of_nat (lead bs)) by lia.
  - specialize (IH (idx + 1) true). cbn [Z.b2z] in IH. replace (idx + 1 - 1) with idx in IH by lia. rewrite Nat.add_1_r in IH.
    destruct p; cbn [lead Z.b2z].
    + replace (idx - 1 + Z.of_nat 0) with (idx - 1) by lia. rewrite Nat.add_1_r. cbn [upto]. replace (idx - 1 + 1) with idx by lia.
      rewrite (Permutation_app_comm (positions _ _ _)) in IH. cbn [app upto] in IH.
      rewrite app_comm_cons, (Permutation_app_comm _ [_]). by constructor.
    + rewrite app_nil_r, Nat.add_0_r, Z.sub_0_r. cbn [upto] in IH. rewrite <- IH. by rewrite (Permutation_app_comm _ [_]).
Qed.

Lemma positions_lookup bs : forall idx p i x, positions idx p bs !! i = Some x ->
  exists b, bs !! i = Some b /\
    x = if b : bool then idx + Z.of_nat i - (if p || existsb negb (take i bs) then 1 else 0)
        else idx + Z.of_nat i + Z.of_nat (lead (drop (S i) bs)).
Proof.
  induction bs as [|b bs IH]; intros idx p i x; [done|]. destruct b; cbn [positions]; (destruct i as [|i]; cbn [lookup list_lookup]).
  - intros [= <-]. exists true. split; [done|]. cbn [take existsb]. rewrite orb_false_r. destruct p; cbn; lia.
  - intros (c & Hc & ->)%IH. exists c. split; [exact Hc|]. cbn [take existsb negb orb drop]. destruct c; lia.
  - intros [= <-]. exists false. split; [done|]. cbn [drop]. rewrite drop_0. lia.
  - intros (c & Hc & ->)%IH. exists c. split; [exact Hc|]. cbn [take existsb negb orb drop]. rewrite orb_true_r. destruct c; lia.
Qed.

Lemma positions_length bs : forall idx p, length (positions idx p bs) = length bs.
Proof. induction bs as [|[] bs IH]; intros; cbn [positions length]; by rewrite ?IH. Qed.

Lemma positions_shown bs : positions 0 false bs = shown_at bs <$> seq 0 (length bs).
Proof.
  apply list_eq. intros i. rewrite list_lookup_fmap. destruct (positions 0 false bs !! i) as [x|] eqn:E.
  - pose proof (lookup_lt_Some _ _ _ E) as Hi. rewrite positions_length in Hi. rewrite lookup_seq_lt by done. cbn.
    apply positions_lookup in E as (b & Hb & ->). unfold shown_at. rewrite Hb. by destruct b.
  - apply lookup_ge_None in E. rewrite positions_length in E. by rewrite lookup_seq_ge by lia.
Qed.

(** A frame at another position. *)
Definition at_pos (f : rfs_frame) (x : Z) : rfs_frame := f <| fr_display_pos := x |>.

Definition bmarks (frames : list rfs_frame) : list bool := fr_is_bframe <$> frames.

Lemma set_pos_app a f c x : set_pos (length a) x (a ++ f :: c) = a ++ at_pos f x :: c.
Proof. unfold set_pos. by rewrite alter_app_r_alt, Nat.sub_diag by done. Qed.

Lemma set_pos_front a c i x : (i < length a)%nat -> set_pos i x (a ++ c) = set_pos i x a ++ c.
Proof. intros. unfold set_pos. by apply alter_app_l. Qed.

Lemma set_pos_length i x l : length (set_pos i x l) = length l.
Proof. apply length_alter. Qed.

(** Whether a reference is pending, and that it is one of the frames behind. *)
Definition pending_in (n : nat) (r : option nat) : Prop := match r with Some i => (i < n)%nat | None => True end.
Definition pend (r : option nat) : bool := match r with Some _ => true | None => false end.

Lemma display_loop_positions cs : forall behind r,
  pending_in (length behind) r -> Z.of_nat (length behind + length cs) < 2 ^ 32 ->
  display_loop (seq (length behind) (length cs)) (Z.of_nat (length behind) - Z.b2z (pend r)) r (behind ++ cs) =
  (match r with Some i => set_pos i (Z.of_nat (length behind) - 1 + Z.of_nat (lead (bmarks cs))) behind | None => behind end) ++
  zip_with at_pos cs (positions (Z.of_nat (length behind)) (pend r) (bmarks cs)).
Proof.
  induction cs as [|f cs IH]; intros behind r Hr Hl; cbn [length seq display_loop].
  { cbn. rewrite !app_nil_r. destruct r as [i|]; cbn; [|done]. by rewrite Z.add_0_r. }
  cbn [length] in Hl. rewrite lookup_app_r, Nat.sub_diag by done. cbn [lookup list_lookup fmap option_fmap option_map default].
  assert (Hnext : forall b', length b' = S (length behind) -> forall r', pending_in (S (length behind)) r' ->
    display_loop (seq (S (length behind)) (length cs)) (Z.of_nat (S (length behind)) - Z.b2z (pend r')) r' (b' ++ cs) =
    (match r' with Some i => set_pos i (Z.of_nat (S (length behind)) - 1 + Z.of_nat (lead (bmarks cs))) b' | None => b' end) ++
    zip_with at_pos cs (positions (Z.of_nat (S (length behind))) (pend r') (bmarks cs))).
  { intros b' Hb r' Hr'. rewrite <- Hb. apply IH; [by rewrite Hb|]. rewrite Hb. lia. }
  clear IH. unfold bmarks. cbn [fmap list_fmap]. fold (bmarks cs).
  assert (Hwrap : u32 (Z.of_nat (length behind) - Z.b2z (pend r) + 1) = Z.of_nat (S (length behind)) - Z.b2z (pend r)).
  { rewrite uwrap_id; [lia|]. unfold in_u. destruct r as [i|]; cbn in *; lia. }
  destruct (fr_is_bframe f) eqn:Ef; cbn [id positions zip_with lead].
  - rewrite set_pos_app, Hwrap. change (behind ++ at_pos f ?x :: cs) with (behind ++ [at_pos f x] ++ cs). rewrite app_assoc.
    rewrite Hnext; [|rewrite length_app; cbn; lia|destruct r; cbn in *; lia].
    replace (Z.of_nat (S (length behind))) with (Z.of_nat (length behind) + 1) by lia.
    destruct r as [i|]; [|by rewrite <- app_assoc]. cbn [pending_in] in Hr. rewrite set_pos_front, <- app_assoc by done. cbn [app].
    do 2 f_equal. lia.
  - destruct r as [i|]; cbn [pend Z.b2z pending_in] in *.
    + rewrite Hwrap, set_pos_front by done. change (?a ++ f :: cs) with (a ++ [f] ++ cs). rewrite app_assoc.
      replace (Z.of_nat (S (length behind)) - 1) with (Z.of_nat (S (length behind)) - Z.b2z (pend (Some (length behind)))) at 1 by done.
      rewrite Hnext; [|rewrite length_app, set_pos_length; cbn; lia|cbn; lia]. cbn [pend].
      rewrite <- (set_pos_length i (Z.of_nat (length behind) - 1) behind) at 1. rewrite set_pos_app, <- app_assoc.
      replace (Z.of_nat (S (length behind))) with (Z.of_nat (length behind) + 1) by lia. cbn [app]. rewrite Z.add_0_r. do 3 f_equal. lia.
    + change (behind ++ f :: cs) with (behind ++ [f] ++ cs). rewrite app_assoc.
      replace (Z.of_nat (length behind) - 0) with (Z.of_nat (S (length behind)) - Z.b2z (pend (Some (length behind)))) by (cbn; lia).
      rewrite Hnext; [|rewrite length_app; cbn; lia|cbn; lia]. cbn [pend]. rewrite set_pos_app, <- app_assoc.
      replace (Z.of_nat (S (length behind))) with (Z.of_nat (length behind) + 1) by lia. cbn [app]. do 3 f_equal. lia.
Qed.

Lemma no_bframes frames : existsb fr_is_bframe frames = false -> bmarks frames = repeat false (length frames).
Proof.
  unfold bmarks. induction frames as [|f frames IH]; [done|]. cbn [existsb fmap list_fmap length repeat].
  intros [-> H]%orb_false_iff. by rewrite IH.
Qed.

Lemma imap_positions frames : forall idx p,
  imap (fun i f => f <| fr_display_pos := Z.of_nat (idx + i) |>) frames =
  zip_with at_pos frames (positions (Z.of_nat idx) p (repeat false (length frames))).
Proof.
  induction frames as [|f frames IH]; intros idx p; [done|]. cbn [imap length repeat positions zip_with].
  rewrite Nat.add_0_r. assert (Hl : lead (repeat false (length frames)) = 0%nat) by (by destruct frames). rewrite Hl, Z.add_0_r.
  f_equal. replace (Z.of_nat idx + 1) with (Z.of_nat (S idx)) by lia. rewrite <- (IH (S idx) true). apply imap_ext. intros i x _. cbn.
  by replace (idx + S i)%nat with (S (idx + i)) by lia.
Qed.

Lemma display_order_positions frames : Z.of_nat (length frames) < 2 ^ 32 ->
  compute_display_order frames = zip_with at_pos frames (positions 0 false (bmarks frames)).
Proof.
  intros Hl. unfold compute_display_order. destruct (existsb fr_is_bframe frames) eqn:E; cbn [negb].
  - exact (display_loop_positions frames [] None I Hl).
  - rewrite (no_bframes _ E). exact (imap_positions frames 0 false).
Qed.

Lemma lead_ge n : forall l, (forall k, (k < n)%nat -> l !! k = Some true) -> (n <= lead l)%nat.
Proof.
  induction n as [|n IH]; intros l H; [lia|]. pose proof (H 0%nat ltac:(lia)) as H0. destruct l as [|b l]; [done|].
  cbn in H0. injection H0 as ->. cbn [lead]. apply le_n_S, IH. intros k Hk. exact (H (S k) ltac:(lia)).
Qed.

Lemma lead_le l : forall n, l !! n = Some false -> (lead l <= n)%nat.
Proof.
  induction l as [|b l IH]; intros n H; [done|]. destruct n as [|n]; cbn in H; [by injection H as ->|].
  destruct b; cbn [lead]; [apply le_n_S; auto|lia].
Qed.

Lemma zip_at_pos frames : forall ps, length ps = length frames ->
  (fun f => at_pos f 0) <$> zip_with at_pos frames ps = (fun f => at_pos f 0) <$> frames.
Proof. induction frames as [|f frames IH]; intros [|x ps]; try done. intros [= H]. cbn. f_equal. by apply IH. Qed.

(** The display order.  The positions of the frames are each number below
    their count once: a reference is shown after the B-frames decoded behind it,
    a B-frame one earlier than it is decoded; so references stay in order, a
    B-frame goes before the reference it was decoded after, and nothing else of a
    frame changes. *)
Theorem rfs_display_order frames : Z.of_nat (length frames) < 2 ^ 32 ->
  let out := compute_display_order frames in
  let bs := bmarks frames in
  fr_display_pos <$> out = shown_at bs <$> seq 0 (length frames) /\
  fr_display_pos <$> out ≡ₚ upto 0 (length frames) /\
  (fun f => at_pos f 0) <$> out = (fun f => at_pos f 0) <$> frames /\
  (forall r j, (r < j)%nat -> bs !! r = Some false -> (forall k, (r < k <= j)%nat -> bs !! k = Some true) -> shown_at bs j < shown_at bs r) /\
  (forall i j, (i < j)%nat -> bs !! i = Some false -> bs !! j = Some false -> shown_at bs i < shown_at bs j).
Proof.
  intros Hl out bs. subst out. rewrite display_order_positions by done. fold bs.
  assert (Hb : length bs = length frames) by (unfold bs, bmarks; apply length_fmap).
  assert (Hpos : fr_display_pos <$> zip_with at_pos frames (positions 0 false bs) = positions 0 false bs).
  { apply fmap_zip_with_r; [done|]. by rewrite positions_length, Hb. }
  split; [|split; [|split; [|split]]].
  - by rewrite Hpos, positions_shown, Hb.
  - rewrite Hpos. pose proof (positions_perm bs 0 false) as H. cbn in H. by rewrite app_nil_r, Nat.add_0_r, Hb in H.
  - apply zip_at_pos. by rewrite positions_length, Hb.
  - intros r j Hrj Hr Hk. assert (Hj : bs !! j = Some true) by (apply Hk; lia). unfold shown_at. rewrite Hr, Hj. cbn [default].
    assert (Hge : (j - r <= lead (drop (S r) bs))%nat).
    { apply lead_ge. intros k Hkk. rewrite lookup_drop. apply Hk. lia. }
    destruct (existsb negb (take j bs)) eqn:E; [cbn; lia|]. exfalso.
    assert (Ht : existsb negb (take j bs) = true); [|congruence]. apply existsb_exists. exists false. split; [|done].
    apply list_elem_of_In, list_elem_of_lookup. exists r. by rewrite lookup_take_lt.
  - intros i j Hij Hi Hj. unfold shown_at. rewrite Hi, Hj. cbn [default].
    assert (Hle : (lead (drop (S i) bs) <= j - S i)%nat).
    { apply lead_le. rewrite lookup_drop. rewrite <- Hj. f_equal. lia. }
    cbn. lia.
Qed.

(** ** Any file *)

(** What a routine gives, whatever it reads. *)
Definition always {A} (m : bits A) (P : A -> Prop) : Prop := forall b, P (m b).1.

Lemma always_bind {A B} (m : bits A) (f : A -> bits B) P : (forall x, always (f x) P) -> always (bits_bind m f) P.
Proof. intros H b. unfold bits_bind. destruct (m b) as [x b']. apply H. Qed.

Lemma always_ret {A} (x : A) (P : A -> Prop) : P x -> always (bits_ret x) P.
Proof. by intros H b. Qed.

(** A parameter set, legal or not, leaves the frames and the codec alone. *)
Lemma parse_sps_frames codec nal info :
  ai_frames (parse_sps codec nal info).2 = ai_frames info /\ ai_codec (parse_sps codec nal info).2 = ai_codec info.
Proof.
  set (P := fun r : bool * rfs_annexb_info => ai_frames r.2 = ai_frames info /\ ai_codec r.2 = ai_codec info).
  assert (H4 : always (h264_sps_fields info) P).
  { unfold h264_sps_fields. repeat (apply always_bind; intros ?). by apply always_ret. }
  assert (H5 : always (h265_sps_fields info) P).
  { unfold h265_sps_fields. repeat (apply always_bind; intros ?). by apply always_ret. }
  destruct codec; cbn [parse_sps].
  - unfold parse_h264_sps. destruct (_ <? _)%nat; [done|]. apply H4.
  - unfold parse_h265_sps. destruct (_ <? _)%nat; [done|]. apply H5.
Qed.

Lemma find_sc_bounds l n len : find_sc l = Some (n, len) -> (3 <= len <= 4)%nat /\ (n + len <= length l)%nat.
Proof.
  unfold find_sc. revert n len. induction l as [|a l IH]; intros n len; [done|]. destruct l as [|b [|c l]]; [done..|].
  intros H. assert (Hnext : (fun '(off, sc_len) => (S off, sc_len)) <$> find_start_code (b :: c :: l) = Some (n, len) ->
    (3 <= len <= 4)%nat /\ (n + len <= length (a :: b :: c :: l))%nat).
  { destruct (find_start_code (b :: c :: l)) as [[n' len']|] eqn:E; [|done]. intros [= <- <-].
    destruct (IH _ _ eq_refl) as [? ?]. cbn [length] in *. lia. }
  cbn [find_start_code] in H. fold (find_start_code (b :: c :: l)) in H.
  destruct ((a =? 0) && (b =? 0)); [|exact (Hnext H)]. destruct (c =? 1).
  { injection H as <- <-. cbn [length]. lia. }
  destruct l as [|d l]; [exact (Hnext H)|]. destruct ((c =? 0) && (d =? 1)); [|exact (Hnext H)].
  injection H as <- <-. cbn [length]. lia.
Qed.

(** One frame behind the other, none of them empty, from [s] to [e]. *)
Fixpoint tiles (s : Z) (frames : list rfs_frame) (e : Z) : Prop :=
  match frames with
  | [] => s = e
  | f :: frames => fr_offset f = s /\ 0 < fr_length f /\ tiles (s + fr_length f) frames e
  end.

Lemma tiles_snoc s frames e f : tiles s frames e -> fr_offset f = e -> 0 < fr_length f -> tiles s (frames ++ [f]) (e + fr_length f).
Proof. revert s. induction frames as [|g frames IH]; intros s; cbn [tiles app]; [intros ->; tauto|]. intuition auto. Qed.

Lemma tiles_le s frames e : tiles s frames e -> s <= e.
Proof. revert s. induction frames as [|f frames IH]; intros s; cbn [tiles]; [lia|]. intros (_ & Hl & H%IH). lia. Qed.

(** The place of a start code: the file goes on as [l] from there. *)
Definition placed (data : list Z) (sc : option (Z * list Z * nat)) (start : Z) : Prop :=
  match sc with
  | Some (off, l, sc_len) => start <= off /\ 0 <= off /\ (3 <= sc_len <= 4)%nat /\ off + Z.of_nat (length l) = Z.of_nat (length data)
  | None => start <= Z.of_nat (length data)
  end.

Lemma next_placed data off nal start : start <= off -> 0 <= off -> off + Z.of_nat (length nal) = Z.of_nat (length data) ->
  placed data ((fun '(n, len) => (off + Z.of_nat n, drop n nal, len)) <$> find_sc nal) start.
Proof.
  intros H1 H2 H3. destruct (find_sc nal) as [[n len]|] eqn:E; cbn; [|lia]. apply find_sc_bounds in E. rewrite length_drop. lia.
Qed.

Lemma scan_loop_tiles data codec s0 fuel : Z.of_nat (length data) < 2 ^ 32 -> forall sc start sps info,
  placed data sc start -> 0 <= s0 -> tiles s0 (ai_frames info) start -> Z.of_nat (length (ai_frames info)) <= RFS_ANNEXB_MAX_FRAMES ->
  let out := scan_loop fuel codec (Z.of_nat (length data)) sc start sps info in
  exists e, e <= Z.of_nat (length data) /\ tiles s0 (ai_frames out) e /\ Z.of_nat (length (ai_frames out)) <= RFS_ANNEXB_MAX_FRAMES.
Proof.
  intros Hlen. induction fuel as [|fuel IH]; intros sc start sps info Hp H0 Ht Hm; cbn [scan_loop].
  { exists start. destruct sc as [[[off l] sc_len]|]; cbn in Hp; (split; [lia|done]). }
  destruct sc as [[[off l] sc_len]|]; [|exists start; cbn in Hp; (split; [lia|done])]. destruct Hp as (Hso & Ho & Hsc & Hl).
  destruct (drop sc_len l) as [|b nal] eqn:En; [exists start; (split; [lia|done])|].
  assert (Hn : off + Z.of_nat sc_len + Z.of_nat (length (b :: nal)) = Z.of_nat (length data)).
  { rewrite <- En, length_drop. assert (sc_len <= length l)%nat; [|lia].
    destruct (Nat.le_gt_cases sc_len (length l)); [done|]. rewrite drop_ge in En by lia. done. }
  cbv zeta. match goal with |- context [(if negb sps && ?c then ?x else ?y)] => set (r := if negb sps && c then x else y) end.
  assert (Hr : ai_frames r.2 = ai_frames info /\ ai_codec r.2 = ai_codec info).
  { unfold r. destruct (negb sps && _); [apply parse_sps_frames|done]. }
  clearbody r. destruct r as [sps' info']. cbn [snd] in Hr. destruct Hr as [Hf Hc]. rewrite <- Hf in Ht, Hm.
  pose proof (next_placed data (off + Z.of_nat sc_len) (b :: nal) start ltac:(lia) ltac:(lia) Hn) as Hnext.
  pose proof (tiles_le _ _ _ Ht) as Hle. cbn [length] in Hn.
  destruct (is_vcl codec b); [|by apply IH].
  destruct (_ >=? RFS_ANNEXB_MAX_FRAMES) eqn:Emax; [exists start; (split; [lia|done])|]. bool_to_prop.
  set (next := (fun '(n, len) => _) <$> find_sc (b :: nal)) in *.
  assert (He : exists e, u32 (match next with Some (o, _, _) => o | None => Z.of_nat (length data) end) = e /\ start < e /\
    e <= Z.of_nat (length data) /\ placed data next e).
  { clear IH. destruct next as [[[o l'] len']|] eqn:Ex; cbn [placed] in Hnext |- *; eexists; (split; [apply uwrap_id; unfold in_u; lia|]).
    - unfold next in Ex. destruct (find_sc (b :: nal)) as [[n len]|]; [|done]. injection Ex as <- <- <-. lia.
    - lia. }
  destruct He as (e & -> & Hse & Hed & Hpe). rewrite (uwrap_id 32 (e - start)) by (unfold in_u; lia).
  apply IH; [exact Hpe|done|..].
  - cbn [ai_frames set_field]. replace e with (start + (e - start)) at 2 by lia. apply (tiles_snoc _ _ start); [exact Ht|done|cbn; lia].
  - cbn [ai_frames set_field]. rewrite length_app. cbn [length]. lia.
Qed.

Lemma tiles_zip s frames : forall ps e, length ps = length frames -> tiles s frames e -> tiles s (zip_with at_pos frames ps) e.
Proof.
  revert s. induction frames as [|f frames IH]; intros s [|x ps] e Hl; try done. injection Hl as Hl. cbn [tiles zip_with].
  intros (H1 & H2 & H3). cbn. split; [done|]. split; [done|]. by apply IH.
Qed.

(** No frame reaches outside its file.  Whatever the file holds, the frames of
    a scan are at least one and at most 65536, not empty, each starting where the
    one before ends, and the last one ends inside the file. *)
Theorem rfs_frames_in_file alloc data path hint info : Z.of_nat (length data) < 2 ^ 32 ->
  rfs_annexb_scan alloc data path hint = Some info ->
  exists s e, 0 <= s < e /\ e <= Z.of_nat (length data) /\ tiles s (ai_frames info) e /\
    0 < Z.of_nat (length (ai_frames info)) <= RFS_ANNEXB_MAX_FRAMES.
Proof.
  intros Hlen. unfold rfs_annexb_scan. destruct (scan_codec data path hint) as [codec|]; [|done].
  destruct (negb alloc); [done|]. cbv zeta.
  match goal with |- context [scan_loop _ _ _ ?sc ?st _ _] => set (sc0 := sc); set (start := st) end.
  assert (Hp : placed data sc0 start /\ 0 <= start).
  { pose proof (next_placed data 0 data 0 ltac:(lia) ltac:(lia) ltac:(lia)) as H. unfold start, sc0.
    destruct (find_sc data) as [[n len]|]; cbn in H |- *; [|lia]. rewrite uwrap_id by (unfold in_u; lia). lia. }
  destruct Hp as [Hp H0]. pose proof (scan_loop_tiles data codec start (length data) Hlen sc0 start false (mk_info codec 0 0 0 0 []) Hp H0 eq_refl) as H.
  set (out := scan_loop _ _ _ _ _ _ _) in *. destruct H as (e & He & Ht & Hm); [cbn; unfold RFS_ANNEXB_MAX_FRAMES; lia|].
  destruct (Nat.eqb_spec (length (ai_frames out)) 0) as [|Hne]; [done|]. intros [= <-]. cbn [ai_frames set_field].
  unfold RFS_ANNEXB_MAX_FRAMES in *. rewrite display_order_positions by lia. unfold bmarks.
  assert (Hpl : length (positions 0 false (fr_is_bframe <$> ai_frames out)) = length (ai_frames out)) by (by rewrite positions_length, length_fmap).
  exists start, e. rewrite length_zip_with, Hpl, Nat.min_id. split; [|split; [done|split; [by apply tiles_zip|lia]]].
  split; [done|]. destruct (ai_frames out) as [|f fs]; [done|]. destruct Ht as (_ & Hf & Ht). apply tiles_le in Ht. lia.
Qed.

(** ** Files of well-formed units *)

Definition first_byte (u : bool * list Z) : Z := u.2 !!! 0%nat.
Definition slice (codec : rss_codec) (u : bool * list Z) : bool := is_vcl codec (first_byte u).

(** Units with one slice, the last of them. *)
Definition one_slice (codec : rss_codec) (g : list (bool * list Z)) : Prop :=
  exists pre u, g = pre ++ [u] /\ Forall (fun u => slice codec u = false) pre /\ slice codec u = true.

(** The frame is these units, and is what its slice is. *)
Definition frame_holds (codec : rss_codec) (data : list Z) (f : rfs_frame) (g : list (bool * list Z)) : Prop :=
  take (Z.to_nat (fr_length f)) (drop (Z.to_nat (fr_offset f)) data) = annexb g /\
  exists pre u, g = pre ++ [u] /\ fr_is_key f = is_idr codec (first_byte u) /\ fr_nal_type f = map_nal codec (first_byte u) /\
    fr_is_bframe f = (slice_type codec u.2 =? 1).

Definition sc_of (off : Z) (nals : list (bool * list Z)) : option (Z * list Z * nat) :=
  match nals with [] => None | (long, _) :: _ => Some (off, annexb nals, length (start_code long)) end.

Lemma trim_unit_clean nal : clean nal = true -> trim_unit nal = nal.
Proof.
  destruct nal as [|b [|c t]]; [done..|]. intros H%clean_cons. unfold trim_unit. f_equal. by apply trim_clean.
Qed.

Lemma annexb_app a c : annexb (a ++ c) = annexb a ++ annexb c.
Proof. unfold annexb. by rewrite fmap_app, concat_app. Qed.

(** What a round finds behind a unit. *)
Lemma find_next nal rest : clean nal = true ->
  (match find_sc (nal ++ annexb rest) with Some (n, _) => take n (nal ++ annexb rest) | None => nal ++ annexb rest end) = nal /\
  forall off, (fun '(n, len) => (off + Z.of_nat n, drop n (nal ++ annexb rest), len)) <$> find_sc (nal ++ annexb rest) =
    sc_of (off + Z.of_nat (length nal)) rest.
Proof.
  intros Hc. unfold find_sc. destruct rest as [|[long nal'] rest].
  - change (annexb []) with (@nil Z). by rewrite app_nil_r, find_none.
  - rewrite annexb_cons, find_past_nal by done. split; [by rewrite take_app_length|]. intros off.
    cbn [fmap option_fmap option_map sc_of]. by rewrite drop_app_length, annexb_cons.
Qed.

(** One round of the loop at a well-formed unit. *)
Lemma scan_round fuel codec size off long nal rest start sps info : clean nal = true ->
  exists sps' info', ai_frames info' = ai_frames info /\
  scan_loop (S fuel) codec size (sc_of off ((long, nal) :: rest)) start sps info =
  (let next := sc_of (off + Z.of_nat (length (annexb [(long, nal)]))) rest in
   if slice codec (long, nal) then
     let e := u32 (match next with Some (o, _, _) => o | None => size end) in
     if Z.of_nat (length (ai_frames info')) >=? RFS_ANNEXB_MAX_FRAMES then info'
     else scan_loop fuel codec size next e sps' (info' <| ai_frames := ai_frames info' ++
       [mk_rfs_frame start (u32 (e - start)) 0 (map_nal codec (first_byte (long, nal))) (is_idr codec (first_byte (long, nal)))
          (slice_type codec nal =? 1)] |>)
   else scan_loop fuel codec size next start sps' info').
Proof.
  intros Hc. cbn [scan_loop sc_of]. rewrite annexb_cons, drop_app_length.
  destruct (nal ++ annexb rest) as [|b t] eqn:En; [by destruct nal|]. rewrite <- En.
  assert (Hb : nal !!! 0%nat = b) by (by destruct nal; [|injection En]). unfold slice, first_byte. cbn [snd]. rewrite Hb.
  destruct (find_next nal rest Hc) as [Hu Hnext]. rewrite Hu, (Hnext (off + Z.of_nat (length (start_code long)))), trim_unit_clean by done.
  replace (off + Z.of_nat (length (annexb [(long, nal)]))) with (off + Z.of_nat (length (start_code long)) + Z.of_nat (length nal))
    by (rewrite annexb_cons, !length_app; change (annexb []) with (@nil Z); cbn [length]; lia).
  exists (if negb sps && is_sps codec b then parse_sps codec nal info else (sps, info)).1,
    (if negb sps && is_sps codec b then parse_sps codec nal info else (sps, info)).2.
  split; [by destruct (negb sps && is_sps codec b); [apply parse_sps_frames|]|].
  by destruct (if negb sps && is_sps codec b then _ else _).
Qed.

Definition slices (codec : rss_codec) (nals : list (bool * list Z)) : nat := length (List.filter (slice codec) nals).

Lemma scan_loop_groups codec data : Z.of_nat (length data) < 2 ^ 32 -> forall rest pre before fuel sps info,
  data = before ++ annexb pre ++ annexb rest -> clean_all rest -> Forall (fun u => slice codec u = false) pre ->
  (length rest <= fuel)%nat -> Z.of_nat (length (ai_frames info) + slices codec rest) <= RFS_ANNEXB_MAX_FRAMES ->
  exists groups tail fs, pre ++ rest = concat groups ++ tail /\ Forall (one_slice codec) groups /\
    Forall (fun u => slice codec u = false) tail /\ Forall2 (frame_holds codec data) fs groups /\
    ai_frames (scan_loop fuel codec (Z.of_nat (length data)) (sc_of (Z.of_nat (length (before ++ annexb pre))) rest)
      (Z.of_nat (length before)) sps info) = ai_frames info ++ fs.
Proof.
  intros Hlen. induction rest as [|[long nal] rest IH]; intros pre before fuel sps info Hd Hc Hpre Hf Hm.
  { exists [], pre, []. rewrite !app_nil_r. cbn [concat app sc_of]. by destruct fuel. }
  apply Forall_cons in Hc as [Hn Hc]. cbn [snd] in Hn. destruct fuel as [|fuel]; [cbn in Hf; lia|]. cbn [length] in Hf.
  destruct (scan_round fuel codec (Z.of_nat (length data)) (Z.of_nat (length (before ++ annexb pre))) long nal rest
    (Z.of_nat (length before)) sps info Hn) as (sps' & info' & Hi & ->). rewrite <- Hi in Hm |- *. clear Hi info. cbv zeta.
  set (u := (long, nal)) in *. unfold slices in Hm. cbn [List.filter] in Hm.
  assert (Hoff : Z.of_nat (length (before ++ annexb pre)) + Z.of_nat (length (annexb [u])) = Z.of_nat (length (before ++ annexb (pre ++ [u])))).
  { rewrite annexb_app, app_assoc, (length_app (before ++ annexb pre)). lia. }
  assert (Hd' : data = before ++ annexb (pre ++ [u]) ++ annexb rest).
  { rewrite Hd. rewrite annexb_app, <- app_assoc. do 2 f_equal. unfold u. rewrite !annexb_cons. change (annexb []) with (@nil Z).
    by rewrite app_nil_r, <- app_assoc. }
  rewrite Hoff. replace (pre ++ u :: rest) with ((pre ++ [u]) ++ rest) by (by rewrite <- app_assoc).
  destruct (slice codec u) eqn:Es; fold (slices codec rest) in Hm.
  - cbn [length] in Hm. destruct (_ >=? _) eqn:E; [exfalso; bool_to_prop; lia|]. clear E.
    set (g := pre ++ [u]) in *. rewrite app_assoc in Hd'.
    assert (He : match sc_of (Z.of_nat (length (before ++ annexb g))) rest with Some (o, _, _) => o | None => Z.of_nat (length data) end =
      Z.of_nat (length (before ++ annexb g))).
    { destruct rest as [|[]]; [|done]. cbn [sc_of]. rewrite Hd'. change (annexb []) with (@nil Z). by rewrite app_nil_r. }
    rewrite He. assert (Hlt : Z.of_nat (length (before ++ annexb g)) < 2 ^ 32) by (rewrite Hd', length_app in Hlen; lia).
    rewrite (uwrap_id 32 (Z.of_nat (length (before ++ annexb g)))) by (unfold in_u; lia).
    rewrite (uwrap_id 32) by (unfold in_u; rewrite length_app in *; lia).
    match goal with |- context [ai_frames info' ++ [?f]] => set (fr := f) end.
    specialize (IH [] (before ++ annexb g) fuel sps' (info' <| ai_frames := ai_frames info' ++ [fr] |>)).
    change (annexb []) with (@nil Z) in IH. rewrite !app_nil_r in IH. cbn [app] in IH.
    change (ai_frames (info' <| ai_frames := ai_frames info' ++ [fr] |>)) with (ai_frames info' ++ [fr]) in IH.
    destruct IH as (groups & tail & fs & Hg & H1 & H2 & H3 & H4); [done|done|by apply Forall_nil|lia|unfold slices; rewrite length_app; cbn [length]; lia|].
    exists (g :: groups), tail, (fr :: fs). rewrite H4, <- app_assoc. cbn [concat app]. split; [rewrite <- app_assoc; by f_equal|].
    split; [constructor; [|done]; by exists pre, u|]. split; [done|]. split; [|done]. constructor; [|done].
    split; [|by exists pre, u]. unfold fr. cbn [fr_length fr_offset]. rewrite Nat2Z.id.
    rewrite Hd', <- app_assoc, drop_app_length, length_app, Nat2Z.inj_add.
    replace (Z.of_nat (length before) + Z.of_nat (length (annexb g)) - Z.of_nat (length before)) with (Z.of_nat (length (annexb g))) by lia.
    by rewrite Nat2Z.id, take_app_length.
  - apply IH; [done|done| |lia|done]. apply Forall_app. split; [done|]. by constructor.
Qed.

Lemma no_slices codec l : Forall (fun u => slice codec u = false) l -> List.filter (slice codec) l = [].
Proof. induction 1 as [|u l Hu Hl IH]; [done|]. cbn [List.filter]. by rewrite Hu. Qed.

Lemma groups_slices codec groups tail : Forall (one_slice codec) groups -> (length groups <= slices codec (concat groups ++ tail))%nat.
Proof.
  unfold slices. induction 1 as [|g groups (pre & u & -> & _ & Hu) _ IH]; [cbn; lia|]. cbn [concat length].
  rewrite <- !app_assoc. cbn [app]. rewrite List.filter_app, length_app. cbn [List.filter]. rewrite Hu. cbn [length]. lia.
Qed.

Lemma frame_holds_at_pos codec data f g x : frame_holds codec data f g -> frame_holds codec data (at_pos f x) g.
Proof. done. Qed.

Lemma holds_zip codec data fs : forall ps groups, length ps = length fs -> Forall2 (frame_holds codec data) fs groups ->
  Forall2 (frame_holds codec data) (zip_with at_pos fs ps) groups.
Proof.
  induction fs as [|f fs IH]; intros [|x ps] groups Hl H; try done. apply Forall2_cons_inv_l in H as (g & gs & Hf & Hfs & ->).
  injection Hl as Hl. cbn [zip_with]. constructor; [by apply frame_holds_at_pos|by apply IH].
Qed.

(** C19: the frames of a well-formed file.  When every unit is well formed, the
    file has a slice and no more than 65536 of them, the scan succeeds; the units
    fall into groups of one slice with the parameter sets and messages before it,
    and what is left has no slice; each frame's bytes are exactly one group's, and
    it is a keyframe, or a B-frame, as its slice is. *)
Theorem rfs_scan_groups codec nals path : clean_all nals -> Z.of_nat (length (annexb nals)) < 2 ^ 32 ->
  (0 < slices codec nals)%nat -> Z.of_nat (slices codec nals) <= RFS_ANNEXB_MAX_FRAMES ->
  exists info groups tail, rfs_annexb_scan true (annexb nals) path (Some codec) = Some info /\
    nals = concat groups ++ tail /\ Forall (one_slice codec) groups /\ Forall (fun u => slice codec u = false) tail /\
    Forall2 (frame_holds codec (annexb nals)) (ai_frames info) groups.
Proof.
  intros Hc Hlen Hpos Hmax.
  destruct (scan_loop_groups codec (annexb nals) Hlen nals [] [] (length (annexb nals)) false (mk_info codec 0 0 0 0 []))
    as (groups & tail & fs & Hg & H1 & H2 & H3 & H4); [done|done|constructor|apply annexb_length|done|]. cbn in Hg.
  unfold rfs_annexb_scan. cbn [scan_codec negb]. cbv zeta.
  assert (Hsc : (fun '(n, len) => (Z.of_nat n, drop n (annexb nals), len)) <$> find_sc (annexb nals) = sc_of 0 nals).
  { destruct nals as [|[long nal] nals]; [done|]. unfold find_sc. rewrite annexb_cons, find_code_at.
    cbn [fmap option_fmap option_map sc_of]. by rewrite annexb_cons. }
  rewrite Hsc. assert (Hst : match sc_of 0 nals with Some (o, _, _) => u32 o | None => 0 end = 0) by (by destruct nals as [|[]]).
  rewrite Hst. cbn [app length ai_frames] in H4. change (Z.of_nat 0) with 0 in H4. set (out := scan_loop _ _ _ _ _ _ _) in *.
  assert (Hfs : fs <> []).
  { intros ->. apply Forall2_nil_inv_l in H3 as ->. cbn in Hg. rewrite Hg in Hpos. unfold slices in Hpos.
    rewrite (no_slices codec tail H2) in Hpos. cbn in Hpos. lia. }
  rewrite H4. destruct (Nat.eqb_spec (length fs) 0) as [E|_]; [by apply nil_length_inv in E|].
  eexists _, groups, tail. split; [reflexivity|]. do 3 (split; [done|]). cbn [ai_frames set_field].
  assert (Hl : Z.of_nat (length fs) < 2 ^ 32).
  { rewrite (Forall2_length _ _ _ H3). pose proof (groups_slices codec groups tail H1) as Hgs. rewrite <- Hg in Hgs.
    unfold RFS_ANNEXB_MAX_FRAMES in Hmax. lia. }
  rewrite display_order_positions by exact Hl. apply holds_zip; [|done]. unfold bmarks. by rewrite positions_length, length_fmap.
Qed.

(** ** Examples *)

(** A parameter set, an IDR picture, a P and two B slices (their headers code
    slice types 5 and 6). *)
Definition demo_stream : list (bool * list Z) :=
  [(true, [103; 66; 0; 30; 171]); (true, [104; 206]); (false, [101; 136; 128; 77]); (true, [65; 154; 5; 6]); (true, [1; 158; 7; 8]);
   (true, [1; 158; 9; 8]); (true, [6; 5; 1])].

Definition demo_scan : rfs_annexb_info :=
  default (mk_info RSS_CODEC_H264 0 0 0 0 []) (rfs_annexb_scan true (annexb demo_stream) "a.h264"%string None).
Definition demo_frames : list rfs_frame := ai_frames demo_scan.

Example demo_positions : fr_display_pos <$> demo_frames = [0; 3; 1; 2] /\ fr_is_key <$> demo_frames = [true; false; false; false].
Proof. split; vm_compute; reflexivity. Qed.

Lemma rfs_display_order_witness :
  fr_display_pos <$> compute_display_order demo_frames ≡ₚ upto 0 4 /\ bmarks demo_frames = [false; false; true; true].
Proof.
  split; [|vm_compute; reflexivity].
  exact (proj1 (proj2 (rfs_display_order demo_frames ltac:(vm_compute; reflexivity)))).
Defined.

Lemma rfs_frames_in_file_witness : exists s e, 0 <= s < e /\ e <= Z.of_nat (length (annexb demo_stream)) /\ tiles s demo_frames e.
Proof.
  destruct (rfs_frames_in_file true (annexb demo_stream) "a.h264"%string None demo_scan) as (s & e & H1 & H2 & H3 & _).
  - vm_compute. reflexivity.
  - vm_compute. reflexivity.
  - exists s, e. exact (conj H1 (conj H2 H3)).
Defined.

Lemma rfs_scan_groups_witness : exists info groups tail,
  rfs_annexb_scan true (annexb demo_stream) "a"%string (Some RSS_CODEC_H264) = Some info /\ demo_stream = concat groups ++ tail /\
  Forall2 (frame_holds RSS_CODEC_H264 (annexb demo_stream)) (ai_frames info) groups.
Proof.
  destruct (rfs_scan_groups RSS_CODEC_H264 demo_stream "a"%string) as (info & groups & tail & H1 & H2 & _ & _ & H3).
  - repeat constructor.
  - vm_compute. reflexivity.
  - vm_compute. lia.
  - vm_compute. discriminate.
  - exists info, groups, tail. exact (conj H1 (conj H2 H3)).
Defined.

(** A picture of two slices becomes two frames, shown one after the other. *)
Example rfs_slices_are_frames :
  length (from_option ai_frames [] (rfs_annexb_scan true (annexb [(true, [101; 136; 128]); (true, [101; 36; 128])]) "a.264"%string None)) = 2%nat.
Proof. vm_compute. reflexivity. Qed.
