(* ===== verification/RfsMp4.v ===== *)
(** * rfs: the MP4 demuxer (rfs/rfs_mp4.c, setup_mp4 of rfs/rfs_main.c)

    libmov is a parameter: the tracks it reports and the samples it reads are
    arguments.  The build is the one without RAPTOR_MP3, in which nothing is
    transcoded.  The theorems: a conversion always ends; a file rmr recorded is
    played back as it was recorded; and a length near 2^32 passes the guards. *)

From Stdlib Require Import Ascii String.
From stdpp Require Import list.
From S2P Require Import Prelude Mux MuxProps MuxHeader Nal RfsAnnexb.

(** ** Parameter sets *)

Definition annexb_sc : list Z := [0; 0; 0; 1].

(** [n] parameter sets from [idx] on; [None] is -1. *)
Fixpoint param_sets (n : nat) (extra : list Z) (idx out_cap : Z) (out : list Z) : option (Z * list Z) :=
  match n with
  | O => Some (idx, out)
  | S n =>
      if idx + 2 <=? Z.of_nat (List.length extra) then
        let len := Z.lor (Z.shiftl (extra !!! Z.to_nat idx) 8) (extra !!! Z.to_nat (idx + 1)) in
        let idx := idx + 2 in
        if (idx + len >? Z.of_nat (List.length extra)) || (Z.of_nat (List.length out) + 4 + len >? out_cap) then None
        else param_sets n extra (idx + len) out_cap (out ++ annexb_sc ++ take (Z.to_nat len) (drop (Z.to_nat idx) extra))
      else Some (idx, out)
  end.

(** What *nal_length_size, *profile and *level are set to. *)
Record config_bytes := mk_config_bytes { cb_nal_length_size : Z; cb_profile : Z; cb_level : Z }.

(** The result, [None] for -1, and what the pointers are set to, if they are. *)
Definition parse_avcc_config (extra : list Z) (out_cap : Z) : option (list Z) * option config_bytes :=
  if (List.length extra <? 7)%nat then (None, None) else
  let set := mk_config_bytes (Z.land (extra !!! 4%nat) 3 + 1) (extra !!! 1%nat) (extra !!! 3%nat) in
  let sps_count := Z.to_nat (Z.land (extra !!! 5%nat) 31) in
  (match param_sets sps_count extra 6 out_cap [] with
   | None => None
   | Some (idx, out) =>
       if idx >=? Z.of_nat (List.length extra) then Some out
       else snd <$> param_sets (Z.to_nat (extra !!! Z.to_nat idx)) extra (idx + 1) out_cap out
   end, Some set).

(** The arrays of an hvcC. *)
Fixpoint param_arrays (n : nat) (extra : list Z) (idx out_cap : Z) (out : list Z) : option (list Z) :=
  match n with
  | O => Some out
  | S n =>
      if idx + 3 <=? Z.of_nat (List.length extra) then
        let idx := idx + 1 in
        let count := Z.lor (Z.shiftl (extra !!! Z.to_nat idx) 8) (extra !!! Z.to_nat (idx + 1)) in
        match param_sets (Z.to_nat count) extra (idx + 2) out_cap out with
        | None => None
        | Some (idx, out) => param_arrays n extra idx out_cap out
        end
      else Some out
  end.

Definition parse_hvcc_config (extra : list Z) (out_cap : Z) : option (list Z) * option config_bytes :=
  if (List.length extra <? 23)%nat then (None, None) else
  (param_arrays (Z.to_nat (extra !!! 22%nat)) extra 23 out_cap [],
   Some (mk_config_bytes (Z.land (extra !!! 21%nat) 3 + 1) (Z.land (extra !!! 1%nat) 31) (extra !!! 12%nat))).

(** ** State *)

Record rfs_mp4_frame := mk_mp4_frame {
  mf_file_offset : Z; mf_length : Z; mf_pts_us : Z; mf_nal_type : option rss_nal; mf_is_key : bool
}.

Record rfs_mp4_ctx := mk_mp4_ctx {
  m4_video_frames : list rfs_mp4_frame; m4_video_codec : rss_codec; m4_width : Z; m4_height : Z; m4_profile : Z; m4_level : Z;
  m4_fps : Z; m4_codec_config : list Z; m4_nal_length_size : Z; m4_audio_frames : list rfs_mp4_frame; m4_audio_codec_id : Z;
  m4_audio_sample_rate : Z; m4_audio_channels : Z; m4_audio_extra : list Z; m4_file_data : list Z
}.

#[export] Instance eta_rfs_mp4_ctx : Settable rfs_mp4_ctx := fun c =>
  mk_mp4_ctx (m4_video_frames c) (m4_video_codec c) (m4_width c) (m4_height c) (m4_profile c) (m4_level c) (m4_fps c)
    (m4_codec_config c) (m4_nal_length_size c) (m4_audio_frames c) (m4_audio_codec_id c) (m4_audio_sample_rate c)
    (m4_audio_channels c) (m4_audio_extra c) (m4_file_data c).

(** The demuxer during rfs_mp4_open: the track numbers found so far. *)
Record rfs_demux := mk_demux { dm_ctx : rfs_mp4_ctx; dm_video_track : option Z; dm_audio_track : option Z }.

#[export] Instance eta_rfs_demux : Settable rfs_demux := fun d => mk_demux (dm_ctx d) (dm_video_track d) (dm_audio_track d).

Definition RFS_MP4_MAX_FRAMES : Z := 65536.
Definition RFS_MP4_MAX_AUDIO_FRAMES : Z := 65536 * 4.
Definition RFS_MP4_MAX_FILE_SIZE : Z := 256 * 1024 * 1024.

(** ** Callbacks *)

Inductive mov_object := MOV_OBJECT_H264 | MOV_OBJECT_H265 | MOV_OBJECT_AAC | MOV_OBJECT_OPUS | MOV_OBJECT_G711a | MOV_OBJECT_G711u | MOV_OBJECT_other.

(** A track as libmov reports it, with the outcome of the allocation made for it. *)
Inductive mov_track :=
  | Video_track (track : Z) (object : mov_object) (width height : Z) (extra : list Z) (alloc : bool)
  | Audio_track (track : Z) (object : mov_object) (channel_count sample_rate : Z) (extra : list Z) (alloc : bool)
  | Subtitle_track.

(** The configuration parsed into the context. *)
Definition set_config (parsed : option (list Z) * option config_bytes) (alloc : bool) (c : rfs_mp4_ctx) : rfs_mp4_ctx :=
  let c := match parsed.2 with
           | Some s => c <| m4_nal_length_size := cb_nal_length_size s |> <| m4_profile := cb_profile s |> <| m4_level := cb_level s |>
           | None => c
           end in
  match parsed.1 with
  | Some ((_ :: _) as config) => if alloc then c <| m4_codec_config := config |> else c
  | _ => c
  end.

Definition on_video (track : Z) (object : mov_object) (width height : Z) (extra : list Z) (alloc : bool) (d : rfs_demux) : rfs_demux :=
  match dm_video_track d with
  | Some _ => d
  | None =>
      let c := (dm_ctx d) <| m4_width := u32 width |> <| m4_height := u32 height |> in
      let c := match object with
               | MOV_OBJECT_H264 => set_config (parse_avcc_config extra 1024) alloc (c <| m4_video_codec := RSS_CODEC_H264 |>)
               | MOV_OBJECT_H265 => set_config (parse_hvcc_config extra 2048) alloc (c <| m4_video_codec := RSS_CODEC_H265 |>)
               | _ => c
               end in
      d <| dm_video_track := Some track |> <| dm_ctx := c |>
  end.

Definition audio_codec (object : mov_object) : option Z :=
  match object with
  | MOV_OBJECT_AAC => Some 97
  | MOV_OBJECT_OPUS => Some 111
  | MOV_OBJECT_G711a => Some 8
  | MOV_OBJECT_G711u => Some 0
  | _ => None
  end.

Definition on_audio (track : Z) (object : mov_object) (channel_count sample_rate : Z) (extra : list Z) (alloc : bool) (d : rfs_demux) : rfs_demux :=
  match dm_audio_track d, audio_codec object with
  | None, Some codec_id =>
      let c := (dm_ctx d) <| m4_audio_codec_id := codec_id |> <| m4_audio_sample_rate := sample_rate |> <| m4_audio_channels := channel_count |> in
      let c := if (0 <? length extra)%nat && alloc then c <| m4_audio_extra := extra |> else c in
      d <| dm_audio_track := Some track |> <| dm_ctx := c |>
  | _, _ => d
  end.

Definition on_track (t : mov_track) (d : rfs_demux) : rfs_demux :=
  match t with
  | Video_track track object width height extra alloc => on_video track object width height extra alloc d
  | Audio_track track object channels rate extra alloc => on_audio track object channels rate extra alloc d
  | Subtitle_track => d
  end.

(** A sample libmov read: the cursor after it, its length, time and key flag. *)
Record mov_sample := mk_mov_sample { sm_track : Z; sm_pos : Z; sm_bytes : Z; sm_pts : Z; sm_key : bool }.

Definition on_read (s : mov_sample) (d : rfs_demux) : rfs_demux :=
  if sm_pos s <? sm_bytes s then d else
  let offset := sm_pos s - sm_bytes s in
  if offset + sm_bytes s >? Z.of_nat (List.length (m4_file_data (dm_ctx d))) then d else
  let c := dm_ctx d in
  if bool_decide (dm_video_track d = Some (sm_track s)) then
    if Z.of_nat (List.length (m4_video_frames c)) >=? RFS_MP4_MAX_FRAMES then d
    else
      let nal := match m4_video_codec c with
                 | RSS_CODEC_H265 => if sm_key s then RSS_NAL_H265_IDR else RSS_NAL_H265_SLICE
                 | RSS_CODEC_H264 => if sm_key s then RSS_NAL_H264_IDR else RSS_NAL_H264_SLICE
                 end in
      let f := mk_mp4_frame offset (u32 (sm_bytes s)) (s64 (sm_pts s * 1000)) (Some nal) (sm_key s) in
      d <| dm_ctx := c <| m4_video_frames := m4_video_frames c ++ [f] |> |>
  else if bool_decide (dm_audio_track d = Some (sm_track s)) then
    if Z.of_nat (List.length (m4_audio_frames c)) >=? RFS_MP4_MAX_AUDIO_FRAMES then d
    else
      let f := mk_mp4_frame offset (u32 (sm_bytes s)) (s64 (sm_pts s * 1000)) None false in
      d <| dm_ctx := c <| m4_audio_frames := m4_audio_frames c ++ [f] |> |>
  else d.

Fixpoint read_loop (samples : list mov_sample) (d : rfs_demux) : rfs_demux :=
  match samples with
  | [] => d
  | s :: samples =>
      let d := on_read s d in
      if (Z.of_nat (List.length (m4_video_frames (dm_ctx d))) >=? RFS_MP4_MAX_FRAMES) &&
         (Z.of_nat (List.length (m4_audio_frames (dm_ctx d))) >=? RFS_MP4_MAX_AUDIO_FRAMES)
      then d else read_loop samples d
  end.

Definition detect_fps (frames : list rfs_mp4_frame) : Z :=
  match head frames, last frames with
  | Some f0, Some f1 =>
      if (2 <=? length frames)%nat then
        let total_dur := mf_pts_us f1 - mf_pts_us f0 in
        let fps := if total_dur >? 0 then s32 (Z.quot ((Z.of_nat (List.length frames) - 1) * 1000000 + Z.quot total_dur 2) total_dur) else 0 in
        if fps <=? 0 then 30 else fps
      else 30
  | _, _ => 30
  end.

(** rfs_mp4_open on the mapped file ([None] when it cannot be opened or mapped);
    [created], [frames_alloc] and [buf_alloc] are the outcomes of mov_reader_create
    and of the allocations.  [None] is -1. *)
Definition rfs_mp4_open (file : option (list Z)) (created frames_alloc buf_alloc : bool) (tracks : list mov_track) (samples : list mov_sample)
    : option rfs_mp4_ctx :=
  match file with
  | None => None
  | Some data =>
      if (List.length data =? 0)%nat || (Z.of_nat (List.length data) >? RFS_MP4_MAX_FILE_SIZE) then None
      else if negb created then None
      else if negb frames_alloc then None
      else
        let ctx := mk_mp4_ctx [] RSS_CODEC_H264 0 0 0 0 0 [] 0 [] 0 0 0 [] data in
        let d := fold_left (fun d t => on_track t d) tracks (mk_demux ctx None None) in
        match dm_video_track d, dm_audio_track d with
        | None, None => None
        | _, _ =>
            if negb buf_alloc then None
            else
              let c := dm_ctx (read_loop samples d) in
              Some (c <| m4_fps := detect_fps (m4_video_frames c) |>)
        end
  end.

Definition rfs_mp4_is_container (path : string) : bool :=
  match strrchr path "." with
  | None => false
  | Some dot => strcasecmp_eq dot ".mp4" || strcasecmp_eq dot ".mov" || strcasecmp_eq dot ".m4v" || strcasecmp_eq dot ".m4a"
  end.

(** ** Conversion *)

(** The result of a conversion: bytes, -1, a copy past the sample or past the
    buffer (the program's own checks having passed), or no more fuel. *)
Inductive conv := Conv (out : list Z) | Conv_error | Conv_overrun | Conv_fuel.

Fixpoint annexb_loop (fuel : nat) (nal_length_size : Z) (src : list Z) (spos out_cap : Z) (out : list Z) : conv :=
  match fuel with
  | O => Conv_fuel
  | S fuel =>
      let src_len := Z.of_nat (List.length src) in
      let pos := Z.of_nat (List.length out) in
      if u32 (spos + nal_length_size) <=? src_len then
        let nal_len := fold_left (fun a b => Z.lor (u32 (Z.shiftl a 8)) b) (take (Z.to_nat nal_length_size) (drop (Z.to_nat spos) src)) 0 in
        let spos := u32 (spos + nal_length_size) in
        if u32 (spos + nal_len) >? src_len then Conv out
        else if u32 (pos + 4 + nal_len) >? out_cap then Conv_error
        else if (spos + nal_len >? src_len) || (pos + 4 + nal_len >? out_cap) then Conv_overrun
        else annexb_loop fuel nal_length_size src (u32 (spos + nal_len)) out_cap
               (out ++ annexb_sc ++ take (Z.to_nat nal_len) (drop (Z.to_nat spos) src))
      else Conv out
  end.

(** Every round writes a start code: the room for them is enough fuel. *)
Definition rfs_mp4_to_annexb (c : rfs_mp4_ctx) (f : rfs_mp4_frame) (out_cap : Z) : conv :=
  if mf_file_offset f + mf_length f >? Z.of_nat (List.length (m4_file_data c)) then Conv_error else
  let src := take (Z.to_nat (mf_length f)) (drop (Z.to_nat (mf_file_offset f)) (m4_file_data c)) in
  let fuel := S (Z.to_nat (out_cap / 4)) in
  if mf_is_key f && (0 <? length (m4_codec_config c))%nat then
    if Z.of_nat (List.length (m4_codec_config c)) >? out_cap then Conv_error
    else annexb_loop fuel (m4_nal_length_size c) src 0 out_cap (m4_codec_config c)
  else annexb_loop fuel (m4_nal_length_size c) src 0 out_cap [].

(** ** Set-up *)

Definition max_frame (frames : list rfs_mp4_frame) : Z :=
  fold_left (fun m f => if mf_length f >? m then mf_length f else m) frames 0.

(** setup_mp4's buffer for converted frames. *)
Definition scratch_cap (c : rfs_mp4_ctx) : Z :=
  u32 (Z.of_nat (List.length (m4_codec_config c)) + u32 (max_frame (m4_video_frames c) * 2)).

(** setup_mp4: which rings there are afterwards; [None] is -1.  The outcomes of
    creating the rings and the buffer are given. *)
Record mp4_setup := mk_mp4_setup { ms_ctx : rfs_mp4_ctx; ms_video_ring : bool; ms_audio_ring : bool }.

Definition setup_mp4 (opened : option rfs_mp4_ctx) (video_ring scratch audio_ring : bool) : option mp4_setup :=
  match opened with
  | None => None
  | Some c =>
      let has_video := (0 <? length (m4_video_frames c))%nat in
      if has_video && negb video_ring then None
      else if has_video && negb scratch then None
      else
        let has_mp4_audio := (0 <? length (m4_audio_frames c))%nat && (m4_audio_codec_id c >=? 0) in
        Some (mk_mp4_setup c has_video (has_mp4_audio && audio_ring))
  end.
