(* ===== verification/RfsMp4Props.v ===== *)
(** * rfs: what the MP4 demuxer gives back

    Conversions end; the parameter sets and the samples rmr writes come back as
    they were recorded, in a buffer that is always large enough; and a forged
    length passes the checks of the conversion. *)

From Stdlib Require Import String.
From stdpp Require Import list.
From S2P Require Import Prelude Mux MuxProps MuxHeader Nal RfsAnnexb RfsMp4.

(** ** Conversions end *)

Lemma be_fold_nonneg l : forall a, 0 <= a -> Forall is_byte l -> 0 <= fold_left (fun a b => Z.lor (u32 (Z.shiftl a 8)) b) l a.
Proof.
  induction l as [|b l IH]; intros a Ha Hl; [done|]. apply Forall_cons in Hl as [Hb Hl]. cbn [fold_left]. apply IH; [|done].
  apply Z.lor_nonneg. split; [apply uwrap_range; lia|unfold is_byte in Hb; lia].
Qed.

Lemma annexb_loop_ends nls src cap : Forall is_byte src -> forall fuel spos out,
  0 <= cap - Z.of_nat (length out) < 4 * Z.of_nat fuel -> annexb_loop fuel nls src spos cap out <> Conv_fuel.
Proof.
  intros Hb. induction fuel as [|fuel IH]; intros spos out Hf; [lia|]. cbn [annexb_loop]. cbv zeta.
  destruct (_ <=? _); [|done]. set (n := fold_left _ _ 0).
  assert (Hn : 0 <= n) by (apply be_fold_nonneg; [lia|]; by apply Forall_take, Forall_drop).
  destruct (u32 (_ + n) >? _); [done|]. destruct (u32 (_ + 4 + n) >? cap); [done|].
  destruct ((_ >? _) || (_ >? cap)) eqn:E; [done|]. bool_to_prop. apply IH.
  rewrite !length_app, length_take. change (length annexb_sc) with 4%nat. lia.
Qed.

(** Every conversion ends.  Whatever the sample, the length size (a track whose
    configuration could not be read has zero) and the buffer, the loop stops within
    a quarter as many rounds as the buffer has bytes. *)
Theorem rfs_conversion_ends c f cap : Forall is_byte (m4_file_data c) -> 0 <= cap -> rfs_mp4_to_annexb c f cap <> Conv_fuel.
Proof.
  intros Hb Hc. unfold rfs_mp4_to_annexb. destruct (_ >? Z.of_nat (length (m4_file_data c))); [done|]. cbv zeta.
  assert (Hs : Forall is_byte (take (Z.to_nat (mf_length f)) (drop (Z.to_nat (mf_file_offset f)) (m4_file_data c))))
    by (by apply Forall_take, Forall_drop).
  pose proof (Z.div_mod cap 4 ltac:(lia)) as Hd. pose proof (Z.mod_pos_bound cap 4 ltac:(lia)) as Hm.
  assert (0 <= cap / 4) by (apply Z.div_pos; lia).
  destruct (_ && _).
  - destruct (_ >? cap) eqn:E; [done|]. bool_to_prop. apply annexb_loop_ends; [done|]. lia.
  - apply annexb_loop_ends; [done|]. cbn [length]. lia.
Qed.

(** ** Samples *)

(** Units behind their lengths of [nls] bytes, and behind start codes. *)
Definition sized_units (nls : nat) (nals : list (list Z)) : list Z :=
  concat ((fun n => be_bytes nls (Z.of_nat (length n)) ++ n) <$> nals).
Definition coded_units (nals : list (list Z)) : list Z := concat ((fun n => annexb_sc ++ n) <$> nals).

Lemma gtb_false a b : a <= b -> (a >? b) = false.
Proof. intros. rewrite Z.gtb_ltb. by apply Z.ltb_ge. Qed.

Lemma be_val_acc l a : fold_left (fun a b => a * 256 + b) l a = a * 256 ^ Z.of_nat (length l) + be_val l.
Proof.
  revert a. induction l as [|x l IH]; intros a; [cbn; lia|]. unfold be_val. cbn [fold_left length].
  rewrite IH, (IH (0 * 256 + x)), Nat2Z.inj_succ, Z.pow_succ_r by lia. lia.
Qed.

Lemma be_val_nonneg l : Forall is_byte l -> 0 <= be_val l.
Proof.
  induction 1 as [|x l Hx Hl IH]; [done|]. unfold be_val. cbn [fold_left]. rewrite be_val_acc. unfold is_byte in Hx.
  assert (0 <= 256 ^ Z.of_nat (length l)) by lia. nia.
Qed.

Lemma be_fold l : forall a, 0 <= a -> Forall is_byte l -> a * 256 ^ Z.of_nat (length l) + be_val l < 2 ^ 32 ->
  fold_left (fun a b => Z.lor (u32 (Z.shiftl a 8)) b) l a = a * 256 ^ Z.of_nat (length l) + be_val l.
Proof.
  induction l as [|b l IH]; intros a Ha Hl Hb; [cbn; lia|]. apply Forall_cons in Hl as [Hb0 Hl].
  assert (Hv : be_val (b :: l) = b * 256 ^ Z.of_nat (length l) + be_val l)
    by (unfold be_val at 1; cbn [fold_left]; rewrite be_val_acc; lia).
  cbn [fold_left length] in *. rewrite Hv, Nat2Z.inj_succ, Z.pow_succ_r in * by lia. unfold is_byte in Hb0.
  assert (HP : 1 <= 256 ^ Z.of_nat (length l)) by lia. pose proof (be_val_nonneg l Hl).
  assert (Hs : Z.lor (u32 (Z.shiftl a 8)) b = a * 256 + b).
  { rewrite uwrap_id by (unfold in_u; rewrite Z.shiftl_mul_pow2 by lia; change (2 ^ 8) with 256; nia).
    by rewrite lor_shiftl_add by lia. }
  rewrite Hs, IH by (done || lia). lia.
Qed.

Lemma be_fold_bytes nls v : 0 <= v < 256 ^ Z.of_nat nls -> v < 2 ^ 32 ->
  fold_left (fun a b => Z.lor (u32 (Z.shiftl a 8)) b) (be_bytes nls v) 0 = v.
Proof.
  intros Hv H32. rewrite be_fold; [|lia|apply be_bytes_bytes|]; rewrite be_val_bytes, Z.mod_small by done; lia.
Qed.

Lemma sized_cons nls n nals : sized_units nls (n :: nals) = be_bytes nls (Z.of_nat (length n)) ++ n ++ sized_units nls nals.
Proof. unfold sized_units. cbn [fmap list_fmap concat]. by rewrite <- app_assoc. Qed.

Lemma coded_cons n nals : coded_units (n :: nals) = annexb_sc ++ n ++ coded_units nals.
Proof. unfold coded_units. cbn [fmap list_fmap concat]. by rewrite <- app_assoc. Qed.

Lemma sized_length nls nals : Z.of_nat (length (sized_units nls nals)) = Z.of_nat (nls * length nals) + Z.of_nat (length (concat nals)).
Proof.
  induction nals as [|n nals IH]; [cbn; lia|]. rewrite sized_cons, !length_app, be_bytes_length. cbn [concat length].
  rewrite length_app. lia.
Qed.

Lemma coded_length nals : Z.of_nat (length (coded_units nals)) = Z.of_nat (4 * length nals) + Z.of_nat (length (concat nals)).
Proof.
  induction nals as [|n nals IH]; [cbn; lia|]. rewrite coded_cons, !length_app. change (length annexb_sc) with 4%nat.
  cbn [concat length]. rewrite length_app. lia.
Qed.

(** A sample of whole units, in a buffer with room for them, is converted unit
    by unit. *)
Lemma annexb_loop_units nls src cap : (1 <= nls <= 4)%nat -> Z.of_nat (length src) + 4 < 2 ^ 32 -> cap < 2 ^ 32 ->
  forall nals before fuel out, src = before ++ sized_units nls nals ->
  Forall (fun n => Z.of_nat (length n) < 256 ^ Z.of_nat nls) nals ->
  Z.of_nat (length (out ++ coded_units nals)) <= cap -> (length nals < fuel)%nat ->
  annexb_loop fuel (Z.of_nat nls) src (Z.of_nat (length before)) cap out = Conv (out ++ coded_units nals).
Proof.
  intros Hnls Hsrc Hcap. induction nals as [|n nals IH]; intros before fuel out Hs Hsmall Hroom Hf;
    (destruct fuel as [|fuel]; [cbn in Hf; lia|]); cbn [annexb_loop]; cbv zeta.
  - change (sized_units nls []) with (@nil Z) in Hs. rewrite app_nil_r in Hs. subst src. change (coded_units []) with (@nil Z).
    rewrite app_nil_r, uwrap_id by (unfold in_u; lia). by rewrite (proj2 (Z.leb_gt _ _)) by lia.
  - apply Forall_cons in Hsmall as [Hn Hsmall]. rewrite sized_cons in Hs. rewrite coded_cons in Hroom |- *.
    assert (Hl : Z.of_nat (length before) + Z.of_nat nls + Z.of_nat (length n) <= Z.of_nat (length src))
      by (rewrite Hs, !length_app, be_bytes_length; lia).
    rewrite !length_app in Hroom. change (length annexb_sc) with 4%nat in Hroom.
    rewrite (uwrap_id 32 (Z.of_nat (length before) + Z.of_nat nls)) by (unfold in_u; lia).
    rewrite (proj2 (Z.leb_le _ _)) by lia.
    assert (Hlen : fold_left (fun a b => Z.lor (u32 (Z.shiftl a 8)) b)
      (take (Z.to_nat (Z.of_nat nls)) (drop (Z.to_nat (Z.of_nat (length before))) src)) 0 = Z.of_nat (length n)).
    { rewrite !Nat2Z.id, Hs, drop_app_length. rewrite <- (be_bytes_length nls (Z.of_nat (length n))) at 1. rewrite take_app_length.
      apply be_fold_bytes; lia. }
    rewrite Hlen. rewrite (uwrap_id 32 (_ + Z.of_nat (length n))) by (unfold in_u; lia).
    rewrite (uwrap_id 32 (Z.of_nat (length out) + 4 + Z.of_nat (length n))) by (unfold in_u; lia).
    rewrite !gtb_false by lia. cbn [orb].
    specialize (IH (before ++ be_bytes nls (Z.of_nat (length n)) ++ n) fuel (out ++ annexb_sc ++ n)).
    replace (Z.of_nat (length (before ++ be_bytes nls (Z.of_nat (length n)) ++ n))) with
      (Z.of_nat (length before) + Z.of_nat nls + Z.of_nat (length n)) in IH by (rewrite !length_app, be_bytes_length; lia).
    rewrite !Nat2Z.id. replace (Z.to_nat (Z.of_nat (length before) + Z.of_nat nls)) with (length (before ++ be_bytes nls (Z.of_nat (length n))))
      by (rewrite length_app, be_bytes_length; lia).
    rewrite Hs at 2. rewrite (app_assoc before), drop_app_length, take_app_length. rewrite IH.
    + by rewrite <- !app_assoc.
    + by rewrite Hs, <- !app_assoc.
    + done.
    + rewrite !length_app. change (length annexb_sc) with 4%nat. lia.
    + cbn in Hf. lia.
Qed.

(** ** Configurations *)

Lemma w16_pair v : 0 <= v < 65536 -> exists a b, w16 (u16 v) = [a; b] /\ Z.lor (Z.shiftl a 8) b = v.
Proof.
  intros Hv. eexists _, _. split; [reflexivity|]. rewrite uwrap_id by (unfold in_u; lia).
  rewrite !land_255. assert (Hm : 0 <= v mod 256 < 256) by (apply Z.mod_pos_bound; lia).
  rewrite lor_shiftl_add by lia. rewrite Z.shiftr_div_pow2 by lia. change (2 ^ 8) with 256.
  rewrite (Z.mod_small (v / 256)) by (split; [apply Z.div_pos; lia|apply Z.div_lt_upper_bound; lia]).
  rewrite (Z.div_mod v 256) at 3 by lia. lia.
Qed.

Lemma lookup_at {a : list Z} {b x i} : i = Z.of_nat (length a) -> (a ++ x :: b) !!! Z.to_nat i = x.
Proof. intros ->. rewrite Nat2Z.id. by apply list_lookup_total_middle. Qed.

(** One set behind its length is taken over behind a start code. *)
Lemma param_sets_one n a ps c cap out : Z.of_nat (length ps) < 65536 -> Z.of_nat (length out) + 4 + Z.of_nat (length ps) <= cap ->
  param_sets (S n) (a ++ w16 (u16 (Z.of_nat (length ps))) ++ ps ++ c) (Z.of_nat (length a)) cap out =
  param_sets n (a ++ w16 (u16 (Z.of_nat (length ps))) ++ ps ++ c) (Z.of_nat (length a) + 2 + Z.of_nat (length ps)) cap (out ++ annexb_sc ++ ps).
Proof.
  intros Hl Hr. destruct (w16_pair (Z.of_nat (length ps)) ltac:(lia)) as (x & y & Hw & Hv). rewrite Hw.
  set (extra := a ++ [x; y] ++ ps ++ c). cbn [param_sets]. cbv zeta.
  assert (Hx : extra !!! Z.to_nat (Z.of_nat (length a)) = x) by (by apply lookup_at).
  assert (Hy : extra !!! Z.to_nat (Z.of_nat (length a) + 1) = y).
  { unfold extra. change (a ++ [x; y] ++ ps ++ c) with (a ++ [x] ++ (y :: ps ++ c)). rewrite app_assoc. apply lookup_at.
    rewrite length_app. cbn [length]. lia. }
  assert (He : (length extra = length a + 2 + length ps + length c)%nat) by (unfold extra; rewrite !length_app; cbn [length]; lia).
  rewrite Hx, Hy, Hv, (proj2 (Z.leb_le _ _)), !gtb_false by lia. cbn [orb]. do 3 f_equal. rewrite Nat2Z.id.
  replace (Z.to_nat (Z.of_nat (length a) + 2)) with (length (a ++ [x; y])) by (rewrite length_app; cbn [length]; lia).
  unfold extra. rewrite app_assoc, drop_app_length, take_app_length. done.
Qed.

(** The arrays of an hvcC, each with one set. *)
Definition set_array (t : Z) (ps : list Z) : list Z := [t] ++ w16 (u16 1) ++ w16 (u16 (Z.of_nat (length ps))) ++ ps.

Lemma param_arrays_all cap l : forall a out,
  Forall (fun tp => Z.of_nat (length tp.2) < 65536) l -> Z.of_nat (length (out ++ coded_units (snd <$> l))) <= cap ->
  param_arrays (length l) (a ++ concat ((fun tp => set_array tp.1 tp.2) <$> l)) (Z.of_nat (length a)) cap out =
  Some (out ++ coded_units (snd <$> l)).
Proof.
  induction l as [|[t ps] l IH]; intros a out Hl Hr.
  { cbn [fmap list_fmap length param_arrays]. f_equal. change (coded_units []) with (@nil Z). by rewrite app_nil_r. }
  apply Forall_cons in Hl as [Hps Hl]. cbn [fmap list_fmap concat length fst snd] in *. rewrite coded_cons in *.
  set (rest := concat _). cbn [param_arrays]. cbv zeta.
  assert (Hex : a ++ set_array t ps ++ rest = ((a ++ [t]) ++ w16 (u16 1)) ++ w16 (u16 (Z.of_nat (length ps))) ++ ps ++ rest)
    by (unfold set_array; by rewrite <- !app_assoc).
  assert (Hlen : (length a + 5 + length ps <= length (a ++ set_array t ps ++ rest))%nat)
    by (rewrite Hex, !length_app; change (length (w16 ?v)) with 2%nat; cbn [length]; lia).
  rewrite (proj2 (Z.leb_le _ _)) by lia. destruct (w16_pair 1 ltac:(lia)) as (x & y & Hw & Hv).
  assert (Hc : Z.lor (Z.shiftl ((a ++ set_array t ps ++ rest) !!! Z.to_nat (Z.of_nat (length a) + 1)) 8)
      ((a ++ set_array t ps ++ rest) !!! Z.to_nat (Z.of_nat (length a) + 1 + 1)) = 1).
  { rewrite Hex, Hw. etrans; [|exact Hv]. f_equal; [f_equal|].
    - rewrite <- (app_assoc (a ++ [t])). change ([x; y] ++ ?z) with (x :: y :: z). apply lookup_at. rewrite length_app. cbn [length]. lia.
    - rewrite <- (app_assoc (a ++ [t])). change ([x; y] ++ ?z) with ([x] ++ (y :: z)). rewrite (app_assoc (a ++ [t])). apply lookup_at.
      rewrite !length_app. cbn [length]. lia. }
  rewrite Hc. change (Z.to_nat 1) with 1%nat.
  replace (Z.of_nat (length a) + 1 + 2) with (Z.of_nat (length ((a ++ [t]) ++ w16 (u16 1))))
    by (rewrite !length_app; change (length (w16 ?v)) with 2%nat; cbn [length]; lia).
  rewrite !length_app in Hr. change (length annexb_sc) with 4%nat in Hr. rewrite Hex at 1.
  rewrite param_sets_one by lia. cbn [param_sets].
  specialize (IH (a ++ set_array t ps) (out ++ annexb_sc ++ ps) Hl). rewrite <- !app_assoc in IH. fold rest in IH.
  replace (Z.of_nat (length ((a ++ [t]) ++ w16 (u16 1))) + 2 + Z.of_nat (length ps)) with (Z.of_nat (length (a ++ set_array t ps)))
    by (unfold set_array; rewrite !length_app; change (length (w16 ?v)) with 2%nat; cbn [length]; lia).
  rewrite IH; [done|]. rewrite !length_app. change (length annexb_sc) with 4%nat. lia.
Qed.

Section recorded.
Context {W : Type}.
Implicit Types m : rmr_mux W.

(** The configuration of an H.264 recording. *)
Lemma parse_recorded_avcc m : small_sets m ->
  parse_avcc_config (out (avcc_body m)) 1024 =
  (Some (coded_units [mx_sps m; mx_pps m]), Some (mk_config_bytes 4 (u8 (sps_byte m 1 100)) (u8 (sps_byte m 3 40)))).
Proof.
  intros [Hs Hp]. set (h := [1; u8 (sps_byte m 1 100); u8 (sps_byte m 2 0); u8 (sps_byte m 3 40); 255; 225]).
  set (sl := w16 (u16 (Z.of_nat (length (mx_sps m))))). set (pl := w16 (u16 (Z.of_nat (length (mx_pps m))))).
  assert (HO : out (avcc_body m) = h ++ sl ++ mx_sps m ++ [1] ++ pl ++ mx_pps m).
  { unfold avcc_body. rewrite !out_cons. change (out []) with (@nil Z). by rewrite app_nil_r. }
  rewrite HO. unfold parse_avcc_config. set (extra := h ++ sl ++ mx_sps m ++ [1] ++ pl ++ mx_pps m).
  assert (Hl : (length extra = 6 + 2 + length (mx_sps m) + 1 + 2 + length (mx_pps m))%nat)
    by (unfold extra; rewrite !length_app; change (length h) with 6%nat; change (length sl) with 2%nat; change (length pl) with 2%nat; cbn [length]; lia).
  rewrite (proj2 (Nat.ltb_ge _ _)) by lia. f_equal. change (Z.to_nat (Z.land (extra !!! 5%nat) 31)) with 1%nat.
  assert (H1 : param_sets 1 extra 6 1024 [] = Some (Z.of_nat (length (h ++ sl ++ mx_sps m)), annexb_sc ++ mx_sps m)).
  { change 6 with (Z.of_nat (length h)). unfold extra, sl. rewrite param_sets_one by (cbn [length]; lia). cbn [param_sets app].
    do 2 f_equal. rewrite !length_app. change (length (w16 ?v)) with 2%nat. lia. }
  rewrite H1, Z.geb_leb, (proj2 (Z.leb_gt _ _)) by (rewrite Hl, !length_app; change (length sl) with 2%nat; change (length h) with 6%nat; lia).
  assert (Hone : extra !!! Z.to_nat (Z.of_nat (length (h ++ sl ++ mx_sps m))) = 1).
  { unfold extra. rewrite !app_assoc. rewrite <- (app_assoc _ [1]), <- (app_assoc h). rewrite <- app_assoc. by apply lookup_at. }
  rewrite Hone. change (Z.to_nat 1) with 1%nat.
  assert (H2 : param_sets 1 extra (Z.of_nat (length (h ++ sl ++ mx_sps m)) + 1) 1024 (annexb_sc ++ mx_sps m) =
    param_sets 0 extra (Z.of_nat (length ((h ++ sl ++ mx_sps m) ++ [1])) + 2 + Z.of_nat (length (mx_pps m))) 1024
      ((annexb_sc ++ mx_sps m) ++ annexb_sc ++ mx_pps m)).
  { assert (Hex : extra = ((h ++ sl ++ mx_sps m) ++ [1]) ++ w16 (u16 (Z.of_nat (length (mx_pps m)))) ++ mx_pps m ++ [])
      by (unfold extra, pl; rewrite app_nil_r, <- !app_assoc; done).
    replace (Z.of_nat (length (h ++ sl ++ mx_sps m)) + 1) with (Z.of_nat (length ((h ++ sl ++ mx_sps m) ++ [1])))
      by (rewrite (length_app _ [1]); cbn [length]; lia).
    rewrite Hex. apply param_sets_one; [lia|]. rewrite length_app. change (length annexb_sc) with 4%nat. lia. }
  rewrite H2. cbn [param_sets fmap option_fmap option_map snd]. f_equal. rewrite !coded_cons. change (coded_units []) with (@nil Z).
  by rewrite app_nil_r, <- app_assoc.
Qed.

(** The configuration of an H.265 recording: the sets there are, in order. *)
Definition hvcc_body m : list bb :=
  [bb_w8 1; bb_w8 1; bb_w32 1610612736; bb_zeros 6; bb_w8 120; bb_w16 61440; bb_w8 252; bb_w8 253; bb_w8 248; bb_w8 248; bb_w16 0;
   bb_w8 15; bb_w8 (count_nonempty [mx_vps m; mx_sps m; mx_pps m])] ++
  hvcc_array 32 (mx_vps m) ++ hvcc_array 33 (mx_sps m) ++ hvcc_array 34 (mx_pps m).

Lemma hvcc_body_written m : write_stsd_hev1 m =
  in_fullbox "stsd" 0 0 [bb_w32 1; in_box "hev1" (visual_entry m ++ [in_box "hvcC" (hvcc_body m)])].
Proof. done. Qed.

Definition sets265 m : list (Z * list Z) :=
  List.filter (fun tp => negb (length tp.2 =? 0)%nat) [(32, mx_vps m); (33, mx_sps m); (34, mx_pps m)].

Lemma parse_recorded_hvcc m : small_sets m -> (length (mx_vps m) <= 256)%nat ->
  parse_hvcc_config (out (hvcc_body m)) 2048 = (Some (coded_units (snd <$> sets265 m)), Some (mk_config_bytes 4 1 120)).
Proof.
  intros [Hs Hp] Hv.
  assert (HO : exists h, length h = 22%nat /\ out (hvcc_body m) =
      (h ++ [Z.of_nat (length (sets265 m))]) ++ concat ((fun tp => set_array tp.1 tp.2) <$> sets265 m) /\
      h !!! 1%nat = 1 /\ h !!! 12%nat = 120 /\ h !!! 21%nat = 15).
  { exists (out (take 12 (hvcc_body m))). split; [done|]. split; [|done]. unfold hvcc_body, sets265.
    destruct (mx_vps m), (mx_sps m), (mx_pps m); reflexivity. }
  destruct HO as (h & Hh & -> & H1 & H12 & H21). set (r := concat _). unfold parse_hvcc_config.
  rewrite (proj2 (Nat.ltb_ge _ _)) by (rewrite !length_app, Hh; cbn [length]; lia).
  assert (Hlook : forall i, (i < 22)%nat -> ((h ++ [Z.of_nat (length (sets265 m))]) ++ r) !!! i = h !!! i).
  { intros i Hi. rewrite !lookup_total_app_l by (rewrite ?length_app, Hh; cbn [length]; lia). done. }
  assert (H22 : ((h ++ [Z.of_nat (length (sets265 m))]) ++ r) !!! 22%nat = Z.of_nat (length (sets265 m))).
  { rewrite <- app_assoc. change 22%nat with (Z.to_nat 22). apply lookup_at. lia. }
  rewrite H22, (Hlook 21%nat), (Hlook 1%nat), (Hlook 12%nat), H1, H12, H21, Nat2Z.id by lia. f_equal.
  replace 23 with (Z.of_nat (length (h ++ [Z.of_nat (length (sets265 m))]))) by (rewrite length_app, Hh; done).
  apply (param_arrays_all 2048 (sets265 m) _ []).
  - unfold sets265. apply List.Forall_forall. intros tp [Hin _]%List.filter_In. destruct Hin as [<-|[<-|[<-|[]]]]; cbn [snd]; lia.
  - cbn [app]. rewrite coded_length. unfold sets265.
    destruct (mx_vps m), (mx_sps m), (mx_pps m); cbn [List.filter length Nat.eqb negb snd fmap list_fmap concat] in *; rewrite ?length_app;
      cbn [length]; lia.
Qed.

End recorded.

(** ** Playing a recording back *)

Lemma w32_be_bytes v : w32 v = be_bytes 4 v.
Proof.
  unfold w32. cbn [be_bytes app]. rewrite !land_255, !Z.shiftr_div_pow2 by lia. rewrite !Z.div_div by lia. reflexivity.
Qed.

Lemma prefixed_sized nals : prefixed nals = sized_units 4 nals.
Proof.
  induction nals as [|n nals IH]; [done|]. rewrite prefixed_cons, sized_cons, IH, <- app_assoc. unfold nal_prefix. by rewrite w32_be_bytes.
Qed.

Lemma recorded_sample nals cap codec sample : clean_all nals -> Z.of_nat (length (annexb nals)) < 2 ^ 31 ->
  rmr_annexb_to_avcc (annexb nals) cap codec = Some sample ->
  sample = sized_units 4 (kept codec nals) /\ Forall (fun n => Z.of_nat (length n) < 2 ^ 32) (kept codec nals).
Proof.
  intros Hc Hl. pose proof (prefixed_kept_length codec nals Hc) as Hp. destruct (kept_small codec nals Hl) as [Hk _].
  unfold rmr_annexb_to_avcc. rewrite first_code_annexb, avcc_loop_annexb; [|done|apply annexb_length|cbn [length]; lia].
  destruct (_ || _); [|done]. intros [= <-]. by rewrite prefixed_sized.
Qed.

(** A frame as rmr's recorder took it. *)
Record recorded_frame := mk_recorded { rc_nals : list (bool * list Z); rc_key : bool; rc_pts : Z }.

(** The sample libmov reads for it: what rmr converted, somewhere in the file. *)
Definition sample_of (file : list Z) (codec : Z) (s : mov_sample) (r : recorded_frame) : Prop :=
  sm_track s = 1 /\ sm_key s = rc_key r /\ sm_pts s = rc_pts r /\ 0 <= sm_pos s - sm_bytes s /\ sm_pos s <= Z.of_nat (length file) /\
  clean_all (rc_nals r) /\ Z.of_nat (length (annexb (rc_nals r))) < 2 ^ 31 /\
  exists cap sample, rmr_annexb_to_avcc (annexb (rc_nals r)) cap codec = Some sample /\ sm_bytes s = Z.of_nat (length sample) /\
    take (length sample) (drop (Z.to_nat (sm_pos s - sm_bytes s)) file) = sample.

Definition key_nal (codec : rss_codec) (key : bool) : rss_nal :=
  match codec with
  | RSS_CODEC_H265 => if key then RSS_NAL_H265_IDR else RSS_NAL_H265_SLICE
  | RSS_CODEC_H264 => if key then RSS_NAL_H264_IDR else RSS_NAL_H264_SLICE
  end.

Definition frame_for (codec : rss_codec) (s : mov_sample) : rfs_mp4_frame :=
  mk_mp4_frame (sm_pos s - sm_bytes s) (u32 (sm_bytes s)) (s64 (sm_pts s * 1000)) (Some (key_nal codec (sm_key s))) (sm_key s).

Lemma read_loop_video file codec zc samples recs : Forall2 (sample_of file zc) samples recs -> forall d,
  dm_video_track d = Some 1 -> m4_file_data (dm_ctx d) = file -> m4_video_codec (dm_ctx d) = codec -> m4_audio_frames (dm_ctx d) = [] ->
  Z.of_nat (length (m4_video_frames (dm_ctx d)) + length samples) <= RFS_MP4_MAX_FRAMES ->
  dm_ctx (read_loop samples d) = (dm_ctx d) <| m4_video_frames := m4_video_frames (dm_ctx d) ++ (frame_for codec <$> samples) |>.
Proof.
  induction 1 as [|s r samples recs (Ht & _ & _ & H0 & Hpos & _ & _ & cap & sample & _ & Hb & _) _ IH]; intros d Hv Hf Hc Ha Hm.
  { cbn [fmap list_fmap read_loop]. rewrite app_nil_r. by destruct (dm_ctx d). }
  cbn [read_loop fmap list_fmap]. cbv zeta. cbn [length] in Hm.
  assert (Hr : on_read s d = d <| dm_ctx := (dm_ctx d) <| m4_video_frames := m4_video_frames (dm_ctx d) ++ [frame_for codec s] |> |>).
  { unfold on_read. rewrite (proj2 (Z.ltb_ge _ _)) by lia. rewrite Hf, gtb_false by lia. cbv zeta.
    rewrite Hv, Ht, bool_decide_true by done. rewrite Z.geb_leb, (proj2 (Z.leb_gt _ _)) by lia. rewrite Hc. reflexivity. }
  rewrite Hr. set (d' := d <| dm_ctx := _ |>).
  assert (Hstop : (Z.of_nat (length (m4_audio_frames (dm_ctx d'))) >=? RFS_MP4_MAX_AUDIO_FRAMES) = false).
  { unfold d'. cbn [dm_ctx set_field m4_audio_frames]. rewrite Ha. done. }
  rewrite Hstop, andb_false_r. rewrite IH; [|done|done|done|done|].
  - unfold d'. cbn [dm_ctx set_field m4_video_frames]. by rewrite <- app_assoc.
  - unfold d'. cbn [dm_ctx set_field m4_video_frames]. rewrite length_app. cbn [length]. lia.
Qed.

Lemma max_frame_acc frames : forall a, a <= fold_left (fun m f => if mf_length f >? m then mf_length f else m) frames a /\
  Forall (fun f => mf_length f <= fold_left (fun m f => if mf_length f >? m then mf_length f else m) frames a) frames.
Proof.
  induction frames as [|f frames IH]; intros a; cbn [fold_left]; [split; [lia|constructor]|].
  destruct (IH (if mf_length f >? a then mf_length f else a)) as [H1 H2]. destruct (mf_length f >? a) eqn:E; bool_to_prop;
    (split; [lia|]); (constructor; [lia|done]).
Qed.

Lemma max_frame_ge frames f : f ∈ frames -> mf_length f <= max_frame frames.
Proof. intros Hf. destruct (max_frame_acc frames 0) as [_ H]. rewrite Forall_forall in H. by apply H. Qed.

Lemma max_frame_le frames n : 0 <= n -> Forall (fun f => mf_length f <= n) frames -> max_frame frames <= n.
Proof.
  intros Hn Hf. unfold max_frame. revert Hn. generalize 0 as a. intros a Ha.
  revert a Ha. induction Hf as [|f frames Hf Hfs IH]; intros a Ha; cbn [fold_left]; [done|]. apply IH. by destruct (_ >? a).
Qed.

Lemma sample_length file zcodec codec s r : sample_of file zcodec s r -> Z.of_nat (length file) <= RFS_MP4_MAX_FILE_SIZE ->
  mf_length (frame_for codec s) = sm_bytes s /\ 0 <= sm_bytes s <= Z.of_nat (length file).
Proof.
  intros (_ & _ & _ & H0 & Hp & _ & _ & cap & sample & _ & Hb & _) Hm. unfold RFS_MP4_MAX_FILE_SIZE in Hm. cbn [frame_for mf_length].
  rewrite uwrap_id by (unfold in_u; lia). lia.
Qed.

(** The buffer of the set-up holds every converted sample of a recording. *)
Lemma sample_converts file zcodec codec c s r : sample_of file zcodec s r -> m4_file_data c = file -> m4_nal_length_size c = 4 ->
  Z.of_nat (length file) <= RFS_MP4_MAX_FILE_SIZE -> Z.of_nat (length (m4_codec_config c)) <= 652 ->
  frame_for codec s ∈ m4_video_frames c -> Forall (fun f => mf_length f <= Z.of_nat (length file)) (m4_video_frames c) ->
  rfs_mp4_to_annexb c (frame_for codec s) (scratch_cap c) =
  Conv ((if rc_key r then m4_codec_config c else []) ++ coded_units (kept zcodec (rc_nals r))).
Proof.
  intros Hs Hf Hn Hm Hcfg Hin Hall. destruct (sample_length file zcodec codec s r Hs Hm) as [Hlen Hrange].
  pose proof (max_frame_ge _ _ Hin) as Hge. rewrite Hlen in Hge.
  pose proof (max_frame_le _ (Z.of_nat (length file)) ltac:(lia) Hall) as Hle.
  destruct Hs as (_ & Hk & _ & H0 & Hp & Hc & Hl & cap & sample & Hsample & Hb & Htake).
  destruct (recorded_sample _ _ _ _ Hc Hl Hsample) as [-> Hsmall]. unfold RFS_MP4_MAX_FILE_SIZE in Hm.
  set (nals := kept zcodec (rc_nals r)) in *.
  assert (Hcap : scratch_cap c = Z.of_nat (length (m4_codec_config c)) + max_frame (m4_video_frames c) * 2).
  { unfold scratch_cap. rewrite (uwrap_id 32 (_ * 2)), uwrap_id by (unfold in_u; lia). done. }
  rewrite Hb, sized_length in Hge. pose proof (coded_length nals) as Hcl.
  assert (Hloop : forall out, (out = m4_codec_config c \/ out = []) ->
    annexb_loop (S (Z.to_nat (scratch_cap c / 4))) 4 (sized_units 4 nals) 0 (scratch_cap c) out = Conv (out ++ coded_units nals)).
  { intros o Ho. assert (Hol : Z.of_nat (length o) <= Z.of_nat (length (m4_codec_config c))) by (destruct Ho as [-> | ->]; cbn [length]; lia).
    apply (annexb_loop_units 4 (sized_units 4 nals) (scratch_cap c) ltac:(lia) ltac:(lia) ltac:(lia) nals []); [done|done|rewrite length_app; lia|].
    assert (Z.of_nat (length nals) <= scratch_cap c / 4) by (apply Z.div_le_lower_bound; lia). lia. }
  unfold rfs_mp4_to_annexb. rewrite Hlen, Hf, Hn. cbn [frame_for mf_file_offset mf_is_key]. rewrite gtb_false by lia. cbv zeta.
  rewrite Hb, Nat2Z.id, <- Hb, Htake, Hk. destruct (rc_key r); cbn [andb]; [|by apply Hloop; right].
  destruct (Nat.ltb_spec 0 (length (m4_codec_config c))) as [|Hz].
  - rewrite gtb_false by lia. apply Hloop. by left.
  - assert (E : m4_codec_config c = []) by (apply nil_length_inv; lia). rewrite E. by apply Hloop; right.
Qed.

Section replay.
Context {W : Type}.
Implicit Types m : rmr_mux W.

(** What the muxer of [m] puts into the sample entry of its codec, and what rfs
    makes of it. *)
Definition entry_of m (h265 : bool) : list Z := if h265 then out (hvcc_body m) else out (avcc_body m).
Definition sets_of m (h265 : bool) : list (list Z) := if h265 then snd <$> sets265 m else [mx_sps m; mx_pps m].
Definition object_of (h265 : bool) : mov_object := if h265 then MOV_OBJECT_H265 else MOV_OBJECT_H264.
Definition codec_of (h265 : bool) : rss_codec := if h265 then RSS_CODEC_H265 else RSS_CODEC_H264.

Definition sets_fit m : Prop := small_sets m /\ (length (mx_vps m) <= 256)%nat.

Definition fresh_demux (file : list Z) : rfs_demux := mk_demux (mk_mp4_ctx [] RSS_CODEC_H264 0 0 0 0 0 [] 0 [] 0 0 0 [] file) None None.

Lemma on_recorded_track m h265 w h file : sets_fit m ->
  let d := on_track (Video_track 1 (object_of h265) w h (entry_of m h265) true) (fresh_demux file) in
  dm_video_track d = Some 1 /\ m4_file_data (dm_ctx d) = file /\ m4_video_codec (dm_ctx d) = codec_of h265 /\
  m4_audio_frames (dm_ctx d) = [] /\ m4_video_frames (dm_ctx d) = [] /\ m4_nal_length_size (dm_ctx d) = 4 /\
  m4_codec_config (dm_ctx d) = coded_units (sets_of m h265).
Proof.
  intros [Hs Hv]. cbn [on_track]. unfold on_video, object_of, entry_of, sets_of. cbn [dm_video_track fresh_demux].
  destruct h265.
  - rewrite parse_recorded_hvcc by done. unfold set_config. cbn [fst snd]. by destruct (coded_units (snd <$> sets265 m)).
  - rewrite parse_recorded_avcc by done. done.
Qed.

Lemma sets_of_length m h265 : sets_fit m -> Z.of_nat (length (coded_units (sets_of m h265))) <= 652.
Proof.
  intros [[Hs Hp] Hv]. rewrite coded_length. unfold sets_of. destruct h265.
  - unfold sets265. destruct (mx_vps m), (mx_sps m), (mx_pps m);
      cbn [List.filter length Nat.eqb negb snd fmap list_fmap concat] in *; rewrite ?length_app; cbn [length]; lia.
  - cbn [concat length]. rewrite !length_app. cbn [length]. lia.
Qed.

End replay.

(** ** Forged lengths *)

(** C21: a forged length passes both checks.  In any file with four-byte lengths, a
    sample whose first length is within four of 2^32 is neither refused nor
    skipped: the sums that are compared wrap around, and the copy that follows
    runs past the sample and past the buffer. *)
Theorem rfs_forged_length_overruns c f cap v rest : m4_nal_length_size c = 4 ->
  0 <= mf_file_offset f -> mf_file_offset f + mf_length f <= Z.of_nat (length (m4_file_data c)) -> mf_length f < 2 ^ 32 ->
  take (Z.to_nat (mf_length f)) (drop (Z.to_nat (mf_file_offset f)) (m4_file_data c)) = be_bytes 4 v ++ rest ->
  2 ^ 32 - 4 <= v < 2 ^ 32 -> Z.of_nat (length (m4_codec_config c)) + 4 <= cap < 2 ^ 32 ->
  rfs_mp4_to_annexb c f cap = Conv_overrun.
Proof.
  intros Hn H0 Hin Hl Hsrc Hv Hcap. set (src := be_bytes 4 v ++ rest) in *.
  assert (Hlen : 4 <= Z.of_nat (length src) < 2 ^ 32).
  { split; [unfold src; rewrite length_app, be_bytes_length; lia|]. rewrite <- Hsrc, length_take. lia. }
  assert (Hfold : fold_left (fun a b => Z.lor (u32 (Z.shiftl a 8)) b) (take (Z.to_nat 4) (drop (Z.to_nat 0) src)) 0 = v).
  { change (take (Z.to_nat 4) (drop (Z.to_nat 0) src)) with (be_bytes 4 v). apply be_fold_bytes; change (256 ^ Z.of_nat 4) with (2 ^ 32); lia. }
  assert (Hwrap : forall x, 0 <= x -> x + 4 < 2 ^ 32 -> u32 (x + 4 + v) = x + (v + 4 - 2 ^ 32)).
  { intros x Hx1 Hx2. unfold uwrap. symmetry. apply (Z.mod_unique_pos _ _ 1); lia. }
  assert (Hloop : forall fuel o, Z.of_nat (length o) + 4 <= cap -> annexb_loop (S fuel) 4 src 0 cap o = Conv_overrun).
  { intros fuel o Ho. cbn [annexb_loop]. cbv zeta. rewrite Hfold. change (u32 (0 + 4)) with 4.
    rewrite (proj2 (Z.leb_le _ _)) by lia. pose proof (Hwrap 0 ltac:(lia) ltac:(lia)) as Hw0. change (0 + 4) with 4 in Hw0.
    rewrite Hw0, Hwrap by lia. rewrite !gtb_false by lia.
    assert (E : (4 + v >? Z.of_nat (length src)) = true) by (rewrite Z.gtb_ltb; apply Z.ltb_lt; lia). by rewrite E. }
  unfold rfs_mp4_to_annexb. rewrite gtb_false, Hsrc, Hn by lia. cbv zeta. destruct (_ && _); [|apply Hloop; cbn [length]; lia].
  rewrite gtb_false by lia. apply Hloop. lia.
Qed.

(** ** Examples *)

(** One recorded keyframe, behind eight bytes of a box header. *)
Definition demo_sample : list Z := default [] (rmr_annexb_to_avcc (annexb demo_nals) 64 0).
Definition demo_file : list Z := [0; 0; 0; 21; 109; 100; 97; 116] ++ demo_sample.
Definition demo_read : mov_sample := mk_mov_sample 1 (Z.of_nat (length demo_file)) (Z.of_nat (length demo_sample)) 40 true.


Definition demo_ctx (file : list Z) : rfs_mp4_ctx := mk_mp4_ctx [] RSS_CODEC_H264 640 480 66 30 25 [] 4 [] 0 0 0 [] file.

Lemma rfs_conversion_ends_witness : rfs_mp4_to_annexb (demo_ctx demo_file) (mk_mp4_frame 8 17 0 None false) 64 <> Conv_fuel.
Proof. apply (rfs_conversion_ends (demo_ctx demo_file)); [|lia]. vm_compute. repeat constructor; discriminate. Defined.

Lemma rfs_forged_length_overruns_witness :
  rfs_mp4_to_annexb (demo_ctx [255; 255; 255; 254; 65; 1]) (mk_mp4_frame 0 6 0 None false) 64 = Conv_overrun.
Proof.
  apply (rfs_forged_length_overruns (demo_ctx [255; 255; 255; 254; 65; 1]) (mk_mp4_frame 0 6 0 None false) 64 (2 ^ 32 - 2) [65; 1]); try done.
Defined.
