(* ===== verification/RfsPlay.v ===== *)
(** * rfs: playback (rfs/rfs_main.c)

    The daemon's set-up from a raw file, its control commands and its main loop,
    one iteration at a time; what it puts into the rings is a list of publications.
    As in [RfsMp4], nothing is transcoded in MP4 mode. *)

From stdpp Require Import list sorting.
From S2P Require Import Prelude Mux Nal RfsAnnexb RfsScan RfsMp4 RfsMp4Props.

(** ** State *)

Definition RFS_AUDIO_CHUNK_MS : Z := 20.
Definition RFS_CTRL_POLL_MS : Z := 50.

(** What is played: a raw video file and a PCM file, or an MP4 file.  A missing
    ring is [false]. *)
Record source := mk_source {
  src_is_mp4 : bool; src_video_ring : bool; src_audio_ring : bool; src_fps : Z; src_loop : bool;
  src_video_data : list Z; src_frames : list rfs_frame; src_mp4 : rfs_mp4_ctx;
  src_audio_data : list Z; src_chunk_samples : Z; src_codec_id : Z
}.

Definition frame_count (s : source) : Z :=
  if src_is_mp4 s then Z.of_nat (length (m4_video_frames (src_mp4 s))) else Z.of_nat (length (src_frames s)).

Record rfs_state := mk_rfs_state {
  fs_frame_pos : Z; fs_audio_pos : Z; fs_mp4_audio_pos : Z; fs_paused : bool; fs_epoch : Z;
  fs_video_published : Z; fs_audio_published : Z; fs_ended : bool
}.

#[export] Instance eta_rfs_state : Settable rfs_state := fun x =>
  mk_rfs_state (fs_frame_pos x) (fs_audio_pos x) (fs_mp4_audio_pos x) (fs_paused x) (fs_epoch x) (fs_video_published x)
    (fs_audio_published x) (fs_ended x).

Inductive publication :=
  | Pub_video (data : list Z) (pts : Z) (nal_type : option rss_nal) (is_key : bool)
  | Pub_audio (data : list Z) (pts : Z) (codec_id : Z).

(** The ranges of the two files. *)
Definition frame_bytes (s : source) (f : rfs_frame) : list Z := take (Z.to_nat (fr_length f)) (drop (Z.to_nat (fr_offset f)) (src_video_data s)).
Definition mp4_bytes (s : source) (f : rfs_mp4_frame) : list Z :=
  take (Z.to_nat (mf_length f)) (drop (Z.to_nat (mf_file_offset f)) (m4_file_data (src_mp4 s))).

(** [pos * 1000000LL / fps]; [None] is the trap of a division by zero. *)
Definition frame_time (s : source) (pos : Z) : option Z :=
  if src_fps s =? 0 then None else Some (Z.quot (pos * 1000000) (src_fps s)).

(** setup_video, on the scan's result and the ring's; [None] is -1. *)
Definition setup_video (scanned : option rfs_annexb_info) (ring : bool) : option rfs_annexb_info :=
  match scanned with
  | None => None
  | Some vi => if (ai_width vi =? 0) || (ai_height vi =? 0) then None else if negb ring then None else Some vi
  end.

(** ** Control *)

Inductive rfs_cmd := Cmd_pause | Cmd_resume | Cmd_seek (frame : Z) | Cmd_other.

(** [None] is a trap. *)
Definition ctrl_handler (s : source) (now : Z) (cmd : rfs_cmd) (x : rfs_state) : option rfs_state :=
  match cmd with
  | Cmd_pause => Some (x <| fs_paused := true |>)
  | Cmd_resume =>
      if fs_paused x then
        t ← frame_time s (fs_frame_pos x); Some (x <| fs_paused := false |> <| fs_epoch := now - t |>)
      else Some x
  | Cmd_seek target =>
      if frame_count s =? 0 then Some x
      else
        let target := if target <? 0 then 0 else target in
        let target := if target >=? frame_count s then frame_count s - 1 else target in
        let x := x <| fs_frame_pos := target |> in
        t ← frame_time s target; Some (x <| fs_epoch := now - t |>)
  | Cmd_other => Some x
  end.

(** ** The main loop *)

Section play.
(** The encoder of audio_ops: PCM bytes and the time; nothing for an error. *)
Variable encode : list Z -> Z -> list Z.
Implicit Types s : source.

(** The conversion's result in [scratch], nothing for -1; [None] is a copy that
    runs over. *)
Definition converted s (f : rfs_mp4_frame) : option (list Z) :=
  match rfs_mp4_to_annexb (src_mp4 s) f (scratch_cap (src_mp4 s)) with Conv out => Some out | Conv_error => Some [] | _ => None end.

Definition pub_nonempty (data : list Z) (p : publication) : list publication := match data with [] => [] | _ => [p] end.

(** MP4 video: at most one frame, by the file's time. *)
Definition mp4_video s (now : Z) (x : rfs_state) : option (list publication * rfs_state * bool) :=
  match head (m4_video_frames (src_mp4 s)), m4_video_frames (src_mp4 s) !! Z.to_nat (fs_frame_pos x) with
  | Some f0, Some mf =>
      if src_video_ring s && (fs_frame_pos x <? frame_count s) then
        let rel := mf_pts_us mf - mf_pts_us f0 in
        if now >=? fs_epoch x + rel then
          out ← converted s mf;
          Some (pub_nonempty out (Pub_video out (fs_epoch x + rel) (mf_nal_type mf) (mf_is_key mf)),
                x <| fs_frame_pos := fs_frame_pos x + 1 |> <| fs_video_published := fs_video_published x + 1 |>, true)
        else Some ([], x, false)
      else Some ([], x, false)
  | _, _ => Some ([], x, false)
  end.

(** MP4 audio, passed through by the file's time. *)
Definition mp4_audio s (now : Z) (x : rfs_state) : list publication * rfs_state * bool :=
  match head (m4_audio_frames (src_mp4 s)), m4_audio_frames (src_mp4 s) !! Z.to_nat (fs_mp4_audio_pos x) with
  | Some f0, Some af =>
      if src_audio_ring s then
        let rel := mf_pts_us af - mf_pts_us f0 in
        if now >=? fs_epoch x + rel then
          ([Pub_audio (mp4_bytes s af) (fs_epoch x + rel) (m4_audio_codec_id (src_mp4 s))],
           x <| fs_mp4_audio_pos := fs_mp4_audio_pos x + 1 |> <| fs_audio_published := fs_audio_published x + 1 |>, true)
        else ([], x, false)
      else ([], x, false)
  | _, _ => ([], x, false)
  end.

(** Raw video: at most one frame, by its place in the file. *)
Definition raw_video s (now : Z) (x : rfs_state) : option (list publication * rfs_state * bool) :=
  if src_video_ring s && (fs_frame_pos x <? frame_count s) then
    t ← frame_time s (fs_frame_pos x);
    if now >=? fs_epoch x + t then
      f ← src_frames s !! Z.to_nat (fs_frame_pos x);
      d ← frame_time s (fr_display_pos f);
      Some ([Pub_video (frame_bytes s f) (fs_epoch x + d) (Some (fr_nal_type f)) (fr_is_key f)],
            x <| fs_frame_pos := fs_frame_pos x + 1 |> <| fs_video_published := fs_video_published x + 1 |>, true)
    else Some ([], x, false)
  else Some ([], x, false).

(** PCM audio: one chunk of 20 ms, encoded; a last odd byte is never taken. *)
Definition raw_audio s (now : Z) (x : rfs_state) : list publication * rfs_state * bool :=
  let audio_size := Z.of_nat (length (src_audio_data s)) in
  if src_audio_ring s && (fs_audio_pos x <? audio_size) then
    let target := fs_epoch x + fs_audio_published x * RFS_AUDIO_CHUNK_MS * 1000 in
    if now >=? target then
      let remain := audio_size - fs_audio_pos x in
      let chunk_bytes := u32 (src_chunk_samples s * 2) in
      let chunk_bytes := if chunk_bytes >? remain then remain - remain mod 2 else chunk_bytes in
      let encoded := encode (take (Z.to_nat chunk_bytes) (drop (Z.to_nat (fs_audio_pos x)) (src_audio_data s))) now in
      (pub_nonempty encoded (Pub_audio encoded now (src_codec_id s)),
       x <| fs_audio_pos := fs_audio_pos x + chunk_bytes |> <| fs_audio_published := fs_audio_published x + 1 |>, true)
    else ([], x, false)
  else ([], x, false).

(** MP4 audio left over once the video is done: all of it, now. *)
Definition flush_audio s (now : Z) (x : rfs_state) : list publication * rfs_state :=
  if src_is_mp4 s && (negb (src_video_ring s) || (fs_frame_pos x >=? frame_count s)) && src_audio_ring s then
    let rest := drop (Z.to_nat (fs_mp4_audio_pos x)) (m4_audio_frames (src_mp4 s)) in
    ((fun af => Pub_audio (mp4_bytes s af) now (m4_audio_codec_id (src_mp4 s))) <$> rest,
     x <| fs_mp4_audio_pos := fs_mp4_audio_pos x + Z.of_nat (length rest) |>
       <| fs_audio_published := fs_audio_published x + Z.of_nat (length rest) |>)
  else ([], x).

Definition at_end s (x : rfs_state) : bool :=
  let vdone := negb (src_video_ring s) || (fs_frame_pos x >=? frame_count s) in
  let adone := if src_is_mp4 s then negb (src_audio_ring s) || (fs_mp4_audio_pos x >=? Z.of_nat (length (m4_audio_frames (src_mp4 s))))
               else negb (src_audio_ring s) || (fs_audio_pos x + 1 >=? Z.of_nat (length (src_audio_data s))) in
  vdone && adone.

(** The clock at the two places an iteration reads it, and the command that is
    waiting, with the time at which it is handled. *)
Record tick := mk_tick { tk_now : Z; tk_restart : Z; tk_cmd : option (Z * rfs_cmd) }.

Definition handle s (t : tick) (x : rfs_state) : option rfs_state :=
  match tk_cmd t with Some (now, cmd) => ctrl_handler s now cmd x | None => Some x end.

(** The video and the audio part of an iteration. *)
Definition play_av s (now : Z) (x : rfs_state) : option (list publication * rfs_state * bool) :=
  if src_is_mp4 s then
    '(vp, x, vw) ← mp4_video s now x;
    let '(ap, x, aw) := mp4_audio s now x in
    Some (vp ++ ap, x, vw || aw)
  else
    '(vp, x, vw) ← raw_video s now x;
    let '(ap, x, aw) := raw_audio s now x in
    Some (vp ++ ap, x, vw || aw).

(** One iteration of the main loop, or of the loop at the end of the file;
    [None] is a trap. *)
Definition rfs_iteration s (t : tick) (x : rfs_state) : option (list publication * rfs_state) :=
  if fs_ended x then x ← handle s t x; Some ([], x)
  else if fs_paused x then x ← handle s t x; Some ([], x)
  else
    '(pubs, x, did_work) ← play_av s (tk_now t) x;
    let '(rest, x) := flush_audio s (tk_now t) x in
    let pubs := pubs ++ rest in
    if at_end s x then
      if src_loop s then
        Some (pubs, x <| fs_frame_pos := 0 |> <| fs_audio_pos := 0 |> <| fs_mp4_audio_pos := 0 |> <| fs_epoch := tk_restart t |>
                      <| fs_video_published := 0 |> <| fs_audio_published := 0 |>)
      else x ← handle s t (x <| fs_ended := true |>); Some (pubs, x)
    else if did_work : bool then Some (pubs, x)
    else x ← handle s t x; Some (pubs, x).

Fixpoint rfs_run s (ts : list tick) (x : rfs_state) : option (list publication * rfs_state) :=
  match ts with
  | [] => Some ([], x)
  | t :: ts =>
      '(p, x) ← rfs_iteration s t x;
      '(q, x) ← rfs_run s ts x;
      Some (p ++ q, x)
  end.

(** The first keyframe, put into the ring before the loop. *)
Definition seed s (now : Z) : option (list publication) :=
  if src_video_ring s then
    if src_is_mp4 s then
      match List.find mf_is_key (m4_video_frames (src_mp4 s)) with
      | Some mf => out ← converted s mf; Some (pub_nonempty out (Pub_video out now (mf_nal_type mf) true))
      | None => Some []
      end
    else
      match List.find fr_is_key (src_frames s) with
      | Some f => Some [Pub_video (frame_bytes s f) now (Some (fr_nal_type f)) true]
      | None => Some []
      end
  else Some [].

Definition rfs_start (epoch : Z) : rfs_state := mk_rfs_state 0 0 0 false epoch 0 0 false.

Definition rfs_main s (seed_now epoch : Z) (ts : list tick) : option (list publication * rfs_state) :=
  first ← seed s seed_now;
  '(p, x) ← rfs_run s ts (rfs_start epoch);
  Some (first ++ p, x).

(** ** Whole passes *)

Definition videos (pubs : list publication) : list publication :=
  List.filter (fun p => match p with Pub_video _ _ _ _ => true | _ => false end) pubs.
Definition audios (pubs : list publication) : list publication :=
  List.filter (fun p => match p with Pub_audio _ _ _ => true | _ => false end) pubs.

Lemma videos_app a b : videos (a ++ b) = videos a ++ videos b.
Proof. apply List.filter_app. Qed.
Lemma audios_app a b : audios (a ++ b) = audios a ++ audios b.
Proof. apply List.filter_app. Qed.

(** A frame of a pass that started at [epoch]. *)
Definition shown s (epoch : Z) (f : rfs_frame) : publication :=
  Pub_video (frame_bytes s f) (epoch + Z.quot (fr_display_pos f * 1000000) (src_fps s)) (Some (fr_nal_type f)) (fr_is_key f).

Definition pass s (epoch : Z) : list publication := shown s epoch <$> src_frames s.

Definition quiet (ts : list tick) : Prop := Forall (fun t => tk_cmd t = None) ts.

Lemma raw_audio_quiet s now x : let '(p, x', _) := raw_audio s now x in
  videos p = [] /\ fs_frame_pos x' = fs_frame_pos x /\ fs_epoch x' = fs_epoch x /\ fs_paused x' = fs_paused x /\ fs_ended x' = fs_ended x.
Proof.
  unfold raw_audio. cbv zeta. destruct (_ && _); [|done]. destruct (_ >=? _); [|done]. unfold pub_nonempty. by destruct (encode _ _).
Qed.

(** A raw source whose video can be played. *)
Definition raw_source s : Prop := src_is_mp4 s = false /\ src_video_ring s = true /\ 0 < src_fps s.

Lemma raw_video_step s now x : raw_source s -> 0 <= fs_frame_pos x <= frame_count s ->
  exists p x' w, raw_video s now x = Some (p, x', w) /\ fs_epoch x' = fs_epoch x /\ fs_paused x' = fs_paused x /\ fs_ended x' = fs_ended x /\
  fs_audio_pos x' = fs_audio_pos x /\ fs_audio_published x' = fs_audio_published x /\ audios p = [] /\
  ((p = [] /\ x' = x /\ (fs_frame_pos x < frame_count s -> now < fs_epoch x + Z.quot (fs_frame_pos x * 1000000) (src_fps s))) \/
   exists f, src_frames s !! Z.to_nat (fs_frame_pos x) = Some f /\ p = [shown s (fs_epoch x) f] /\
     fs_frame_pos x' = fs_frame_pos x + 1 /\ fs_epoch x + Z.quot (fs_frame_pos x * 1000000) (src_fps s) <= now).
Proof.
  intros (Hraw & Hring & Hfps) Hpos. unfold raw_video, frame_time, frame_count in *. rewrite Hring, Hraw in *. rewrite (proj2 (Z.eqb_neq _ _)) by lia. cbn [andb].
  destruct (fs_frame_pos x <? _) eqn:E; bool_to_prop; [|eexists _, _, _; split; [done|]; do 6 (split; [done|]); left; split; [done|split; [done|lia]]].
  cbn [mbind option_bind]. destruct (now >=? _) eqn:E2; bool_to_prop.
  - destruct (src_frames s !! Z.to_nat (fs_frame_pos x)) as [f|] eqn:Ef; [|apply lookup_ge_None in Ef; lia].
    cbn [mbind option_bind]. eexists _, _, _. split; [done|]. do 6 (split; [done|]). right. exists f. done.
  - eexists _, _, _. split; [done|]. do 6 (split; [done|]). left. split; [done|]. split; [done|]. lia.
Qed.

(** After the publications [hist]: some whole passes, then the beginning of the
    one that is running. *)
Definition hist_ok s (hist : list publication) (x : rfs_state) : Prop :=
  0 <= fs_frame_pos x <= frame_count s /\
  exists es, videos hist = concat (pass s <$> es) ++ take (Z.to_nat (fs_frame_pos x)) (pass s (fs_epoch x)).

Lemma quiet_iteration s t x hist : raw_source s -> tk_cmd t = None -> hist_ok s hist x ->
  exists p x', rfs_iteration s t x = Some (p, x') /\ hist_ok s (hist ++ p) x'.
Proof.
  intros Hs Hq (Hpos & es & Hh). unfold rfs_iteration, handle. rewrite Hq.
  assert (Hstay : hist_ok s (hist ++ []) x) by (rewrite app_nil_r; split; [done|by exists es]).
  destruct (fs_ended x); [by exists [], x|]. destruct (fs_paused x); [by exists [], x|].
  unfold play_av. destruct Hs as (Hraw & Hring & Hfps) eqn:EHs. rewrite Hraw.
  destruct (raw_video_step s (tk_now t) x Hs Hpos) as (vp & x1 & vw & -> & He & _ & _ & _ & _ & _ & Hstep). cbn [mbind option_bind].
  pose proof (raw_audio_quiet s (tk_now t) x1) as Ha. destruct (raw_audio s (tk_now t) x1) as [[ap x2] aw]. destruct Ha as (Hav & Hap & Hae & _).
  cbn [mbind option_bind]. unfold flush_audio. rewrite Hraw. cbn [andb].
  assert (H2 : hist_ok s (hist ++ (vp ++ ap) ++ []) x2).
  { rewrite app_nil_r. destruct Hstep as [(-> & -> & _)|(f & Hf & -> & Hn & _)].
    - split; [by rewrite Hap|]. exists es. by rewrite !videos_app, Hav, Hh, Hap, Hae, !app_nil_r.
    - apply lookup_lt_Some in Hf as Hlt. unfold frame_count in Hpos |- *. unfold hist_ok, frame_count. rewrite Hraw in *. split; [rewrite Hap, Hn; lia|].
      exists es. rewrite !videos_app, Hav, Hh, Hap, Hae, He, Hn, app_nil_r, <- app_assoc. f_equal. cbn [videos List.filter shown].
      replace (Z.to_nat (fs_frame_pos x + 1)) with (S (Z.to_nat (fs_frame_pos x))) by lia. symmetry. apply take_S_r.
      unfold pass. by rewrite list_lookup_fmap, Hf. }
  destruct (at_end s x2) eqn:Eend; [|destruct (vw || aw); eexists _, _; (split; [reflexivity|exact H2])].
  destruct (src_loop s); [|eexists _, _; split; [reflexivity|exact H2]].
  eexists _, _. split; [reflexivity|]. destruct H2 as (Hp2 & es2 & Hh2). split; [cbn; lia|]. cbn [fs_frame_pos fs_epoch set_field].
  exists (es2 ++ [fs_epoch x2]). change (take (Z.to_nat 0) ?l) with (@nil publication). rewrite Hh2, app_nil_r, fmap_app, concat_app. f_equal.
  cbn [fmap list_fmap concat]. rewrite app_nil_r. apply take_ge. unfold pass. rewrite length_fmap.
  unfold at_end in Eend. rewrite Hring in Eend. cbn [negb orb] in Eend. apply andb_true_iff in Eend as [Ev _]. bool_to_prop.
  unfold frame_count in *. rewrite Hraw in *. lia.
Qed.


(** ** Times *)

(** The times of the video, and a clock that does not go back. *)
Definition times (pubs : list publication) : list Z :=
  omap (fun p => match p with Pub_video _ pts _ _ => Some pts | _ => None end) pubs.

Fixpoint clocked (c : Z) (ts : list tick) : Prop :=
  match ts with [] => True | t :: ts => c <= tk_now t <= tk_restart t /\ clocked (tk_restart t) ts end.

Lemma times_app a b : times (a ++ b) = times a ++ times b.
Proof. apply omap_app. Qed.

(** The frames are shown in file order. *)
Definition in_order s : Prop := forall i f, src_frames s !! i = Some f -> fr_display_pos f = Z.of_nat i.

Definition due s (x : rfs_state) : Z := fs_epoch x + Z.quot (fs_frame_pos x * 1000000) (src_fps s).

Definition timely s (c : Z) (hist : list publication) (x : rfs_state) : Prop :=
  0 <= fs_frame_pos x <= frame_count s /\ StronglySorted Z.le (times hist) /\ Forall (fun t => t <= c /\ t <= due s x) (times hist).

Lemma timely_later s c c' hist x x' : fs_frame_pos x' = fs_frame_pos x -> fs_epoch x' = fs_epoch x -> c <= c' ->
  timely s c hist x -> timely s c' hist x'.
Proof.
  intros Hp He Hc (H1 & H2 & H3). unfold timely, due. rewrite Hp, He. split; [done|]. split; [done|].
  eapply Forall_impl; [exact H3|]. unfold due. cbn. lia.
Qed.

Lemma raw_audio_times s now x : times (raw_audio s now x).1.1 = [].
Proof. unfold raw_audio. cbv zeta. destruct (_ && _); [|done]. destruct (_ >=? _); [|done]. cbn [fst]. unfold pub_nonempty. by destruct (encode _ _). Qed.

Lemma timely_iteration s c t x hist : raw_source s -> in_order s -> tk_cmd t = None -> c <= tk_now t <= tk_restart t -> timely s c hist x ->
  exists p x', rfs_iteration s t x = Some (p, x') /\ timely s (tk_restart t) (hist ++ p) x'.
Proof.
  intros Hs Hord Hq Hc Ht. unfold rfs_iteration, handle. rewrite Hq.
  assert (Hstay : timely s (tk_restart t) (hist ++ []) x) by (rewrite app_nil_r; apply (timely_later s c _ _ x); [done|done|lia|exact Ht]).
  destruct (fs_ended x); [by exists [], x|]. destruct (fs_paused x); [by exists [], x|].
  unfold play_av. pose proof Hs as (Hraw & Hring & Hfps). rewrite Hraw. destruct Ht as (Hpos & Hsort & Hall).
  destruct (raw_video_step s (tk_now t) x Hs Hpos) as (vp & x1 & vw & -> & He & _ & _ & _ & _ & _ & Hstep). cbn [mbind option_bind].
  pose proof (raw_audio_quiet s (tk_now t) x1) as Ha. pose proof (raw_audio_times s (tk_now t) x1) as Hat.
  destruct (raw_audio s (tk_now t) x1) as [[ap x2] aw]. destruct Ha as (_ & Hap & Hae & _). cbn [fst] in Hat.
  cbn [mbind option_bind]. unfold flush_audio. rewrite Hraw. cbn [andb].
  assert (H2 : timely s (tk_now t) (hist ++ (vp ++ ap) ++ []) x2).
  { rewrite app_nil_r. destruct Hstep as [(-> & -> & _)|(f & Hf & -> & Hn & Hdue)].
    - unfold timely. rewrite !times_app, Hat, !app_nil_r. apply (timely_later s c (tk_now t) hist x); [done|done|lia|done].
    - apply lookup_lt_Some in Hf as Hlt. pose proof (Hord _ _ Hf) as Hd. unfold timely. rewrite !times_app, Hat, app_nil_r.
      cbn [times omap list_omap shown]. rewrite Hd, Z2Nat.id by lia. fold (due s x) in Hdue |- *.
      assert (Hlater : due s x <= due s x2).
      { unfold due. rewrite Hap, Hae, Hn, He. apply Zplus_le_compat_l. apply Z.quot_le_mono; lia. }
      split; [|split].
      + unfold frame_count. rewrite Hraw, Hap, Hn. lia.
      + apply StronglySorted_app_2; [|done|repeat constructor]. intros a b Ha Hb. apply list_elem_of_singleton in Hb as ->.
        rewrite Forall_forall in Hall. by apply Hall.
      + apply Forall_app. split; [|by repeat constructor; lia]. eapply Forall_impl; [exact Hall|]. cbn. lia. }
  destruct (at_end s x2); [|destruct (vw || aw); eexists _, _; (split; [reflexivity|]); (apply (timely_later s (tk_now t) _ _ x2); [done|done|lia|exact H2])].
  destruct (src_loop s); [|eexists _, _; split; [reflexivity|]; (apply (timely_later s (tk_now t) _ _ x2); [done|done|lia|exact H2])].
  eexists _, _. split; [reflexivity|]. destruct H2 as (Hp2 & Hs2 & Ha2). unfold timely, due. cbn [fs_frame_pos fs_epoch set_field].
  rewrite Z.mul_0_l, Z.quot_0_l, Z.add_0_r by lia. split; [lia|]. split; [done|]. eapply Forall_impl; [exact Ha2|]. cbn. lia.
Qed.

(** The times in the ring never go back.  For a file without B-frames, over any
    run without commands and with a clock that does not go back, restarts included,
    each published time is at least the one before it and never ahead of the clock
    at the end of the run. *)
Theorem rfs_times_never_back s ts epoch : raw_source s -> in_order s -> quiet ts -> clocked epoch ts ->
  exists pubs x, rfs_run s ts (rfs_start epoch) = Some (pubs, x) /\ StronglySorted Z.le (times pubs) /\
    Forall (fun t => t <= List.fold_left (fun _ t => tk_restart t) ts epoch) (times pubs).
Proof.
  intros Hs Hord Hq Hc. assert (H : timely s epoch [] (rfs_start epoch)).
  { split; [cbn; unfold frame_count; destruct (src_is_mp4 s); lia|]. split; constructor. }
  assert (Hgen : exists pubs x, rfs_run s ts (rfs_start epoch) = Some (pubs, x) /\
    timely s (List.fold_left (fun _ t => tk_restart t) ts epoch) ([] ++ pubs) x).
  { revert Hc H. generalize (rfs_start epoch) as x. generalize (@nil publication) as hist. revert epoch.
    induction Hq as [|t ts Ht Hq IH]; intros c hist x Hc H; cbn [rfs_run List.fold_left].
    - exists [], x. split; [done|]. by rewrite app_nil_r.
    - destruct Hc as [Hc Hcs]. destruct (timely_iteration s c t x hist Hs Hord Ht Hc H) as (p & x' & -> & H'). cbn [mbind option_bind].
      destruct (IH _ (hist ++ p) x' Hcs H') as (q & x'' & -> & H''). cbn [mbind option_bind]. exists (p ++ q), x''. split; [done|].
      by rewrite app_assoc. }
  destruct Hgen as (pubs & x & Hr & _ & Hsort & Hall). exists pubs, x. split; [done|]. split; [done|].
  eapply Forall_impl; [exact Hall|]. by intros t [? _].
Qed.

(** ** What goes wrong *)

Lemma audio_only_iteration s t x : src_is_mp4 s = true -> src_video_ring s = false -> src_audio_ring s = true -> src_loop s = true ->
  fs_paused x = false -> fs_ended x = false -> fs_mp4_audio_pos x = 0 ->
  exists pubs x', rfs_iteration s t x = Some (pubs, x') /\ length pubs = length (m4_audio_frames (src_mp4 s)) /\
    fs_paused x' = false /\ fs_ended x' = false /\ fs_mp4_audio_pos x' = 0.
Proof.
  intros Hm Hv Ha Hloop Hp He Hpos. unfold rfs_iteration. rewrite Hp, He. unfold play_av. rewrite Hm.
  assert (Hvid : mp4_video s (tk_now t) x = Some ([], x, false)).
  { unfold mp4_video. rewrite Hv. destruct (head _); [|done]. by destruct (m4_video_frames _ !! _). }
  rewrite Hvid. cbn [mbind option_bind]. set (a := m4_audio_frames (src_mp4 s)).
  assert (Haud : exists ap x1 w n, mp4_audio s (tk_now t) x = (ap, x1, w) /\ length ap = n /\ fs_mp4_audio_pos x1 = Z.of_nat n /\ (n <= length a)%nat /\
    fs_paused x1 = false /\ fs_ended x1 = false).
  { unfold mp4_audio. fold a. rewrite Hpos. destruct a as [|f a'] eqn:Ea; change (Z.to_nat 0) with 0%nat; cbn [hd_error lookup list_lookup].
    - exists [], x, false, 0%nat. by rewrite Hpos.
    - rewrite Ha. cbv zeta. destruct (tk_now t >=? _); eexists _, _, _, _; (split; [reflexivity|]); cbn; rewrite ?Hpos; (split; [done|]); (split; [done|]); (split; [lia|done]). }
  destruct Haud as (ap & x1 & w & n & -> & Hn & Hx1 & Hle & Hp1 & He1). cbn [mbind option_bind app].
  unfold flush_audio. rewrite Hm, Hv, Ha. cbn [andb negb orb]. fold a. cbv zeta.
  assert (Hend : forall x2, fs_mp4_audio_pos x2 = Z.of_nat (length a) -> at_end s x2 = true).
  { intros x2 H2. unfold at_end. rewrite Hm, Hv, Ha, H2. fold a. cbn [negb orb andb]. rewrite Z.geb_leb. apply Z.leb_le. lia. }
  rewrite Hend, Hloop.
  - eexists _, _. split; [reflexivity|]. split; [|done]. rewrite length_app, length_fmap, length_drop, Hn, Hx1. lia.
  - cbn [fs_mp4_audio_pos set_field]. rewrite Hx1, length_drop. lia.
Qed.

(** An audio-only MP4 file floods its ring.  Without video every iteration of
    the loop publishes all the audio of the file at once and starts over, however
    little time has passed: as many copies of the file as there are iterations. *)
Theorem rfs_audio_only_floods s ts epoch : src_is_mp4 s = true -> src_video_ring s = false -> src_audio_ring s = true -> src_loop s = true ->
  exists pubs x, rfs_run s ts (rfs_start epoch) = Some (pubs, x) /\
    length pubs = (length ts * length (m4_audio_frames (src_mp4 s)))%nat.
Proof.
  intros Hm Hv Ha Hloop. assert (Hx : fs_paused (rfs_start epoch) = false /\ fs_ended (rfs_start epoch) = false /\ fs_mp4_audio_pos (rfs_start epoch) = 0) by done.
  revert Hx. generalize (rfs_start epoch) as x. induction ts as [|t ts IH]; intros x (Hp & He & Hpos); cbn [rfs_run]; [by exists [], x|].
  destruct (audio_only_iteration s t x Hm Hv Ha Hloop Hp He Hpos) as (p & x' & -> & Hl & H'). cbn [mbind option_bind].
  destruct (IH x' H') as (q & x'' & -> & Hq). cbn [mbind option_bind]. exists (p ++ q), x''. split; [done|]. rewrite length_app, Hl, Hq. cbn [length]. lia.
Qed.

(** The audio has not reached its end, and its next chunk is not due. *)
Definition waiting s (until : Z) (x : rfs_state) : Prop :=
  0 <= fs_frame_pos x <= frame_count s /\ fs_audio_pos x + 1 < Z.of_nat (length (src_audio_data s)) /\
  fs_epoch x + fs_audio_published x * RFS_AUDIO_CHUNK_MS * 1000 = until.

Lemma waiting_iteration s until t x : raw_source s -> src_audio_ring s = true -> tk_cmd t = None -> tk_now t < until -> waiting s until x ->
  exists pubs x', rfs_iteration s t x = Some (pubs, x') /\ audios pubs = [] /\ waiting s until x'.
Proof.
  intros Hs Har Hq Hnow Hw. pose proof Hw as (Hpos & Hsize & Hu). unfold rfs_iteration, handle. rewrite Hq.
  destruct (fs_ended x); [by exists [], x|]. destruct (fs_paused x); [by exists [], x|]. pose proof Hs as (Hraw & Hring & Hfps).
  unfold play_av. rewrite Hraw.
  destruct (raw_video_step s (tk_now t) x Hs Hpos) as (vp & x1 & vw & -> & He & _ & _ & Hap & Hpub & Hno & Hstep). cbn [mbind option_bind].
  assert (Hw1 : waiting s until x1).
  { unfold waiting. rewrite He, Hap, Hpub. split; [|done]. destruct Hstep as [(_ & -> & _)|(f & Hf & _ & Hn & _)]; [done|].
    apply lookup_lt_Some in Hf. unfold frame_count. rewrite Hraw, Hn. lia. }
  assert (Haud : raw_audio s (tk_now t) x1 = ([], x1, false)).
  { destruct Hw1 as (_ & _ & Hu1). unfold raw_audio. cbv zeta. destruct (_ && _); [|done].
    rewrite Hu1, Z.geb_leb, (proj2 (Z.leb_gt _ _)) by done. done. }
  rewrite Haud. cbn [mbind option_bind]. unfold flush_audio. rewrite Hraw. cbn [andb].
  assert (Hend : at_end s x1 = false).
  { destruct Hw1 as (_ & Hs1 & _). unfold at_end. rewrite Hraw, Har. cbn [negb orb]. apply andb_false_iff. right.
    rewrite Z.geb_leb. apply Z.leb_gt. lia. }
  rewrite Hend, !app_nil_r. destruct (vw || false); by exists vp, x1.
Qed.

(** A seek leaves the audio behind.  After the command "seek" in a raw file
    with sound, while the sound has not ended, none is published until the clock has
    made up for all the chunks sent so far, less the time of the frame sought:
    sought back to the start, the sound is gone for as long as it had been played. *)
Theorem rfs_seek_mutes_audio s j now x ts : raw_source s -> src_audio_ring s = true -> 0 <= j < frame_count s ->
  fs_audio_pos x + 1 < Z.of_nat (length (src_audio_data s)) -> quiet ts ->
  Forall (fun t => tk_now t < now - Z.quot (j * 1000000) (src_fps s) + fs_audio_published x * RFS_AUDIO_CHUNK_MS * 1000) ts ->
  exists x' pubs x'', ctrl_handler s now (Cmd_seek j) x = Some x' /\ rfs_run s ts x' = Some (pubs, x'') /\ audios pubs = [].
Proof.
  intros Hs Har Hj Hsize Hq Hts. pose proof Hs as (Hraw & Hring & Hfps). unfold ctrl_handler, frame_time.
  rewrite (proj2 (Z.eqb_neq (frame_count s) 0)), (proj2 (Z.ltb_ge j 0)), (proj2 (Z.eqb_neq (src_fps s) 0)) by lia.
  rewrite Z.geb_leb, (proj2 (Z.leb_gt _ _)) by lia. cbn [mbind option_bind]. eexists. 
  set (until := now - Z.quot (j * 1000000) (src_fps s) + fs_audio_published x * RFS_AUDIO_CHUNK_MS * 1000) in *.
  assert (Hw : waiting s until (x <| fs_frame_pos := j |> <| fs_epoch := now - Z.quot (j * 1000000) (src_fps s) |>)) by (unfold waiting; cbn; lia).
  assert (Hgen : exists pubs x'', rfs_run s ts (x <| fs_frame_pos := j |> <| fs_epoch := now - Z.quot (j * 1000000) (src_fps s) |>) = Some (pubs, x'') /\
    audios pubs = []).
  { clear Hsize. revert Hw. generalize (x <| fs_frame_pos := j |> <| fs_epoch := now - Z.quot (j * 1000000) (src_fps s) |>) as y.
    clearbody until. induction Hq as [|t ts Ht Hq IH]; intros y Hw; cbn [rfs_run]; [by exists [], y|].
    apply Forall_cons in Hts as [Hn Hts]. destruct (waiting_iteration s until t y Hs Har Ht Hn Hw) as (p & y' & -> & Hp & Hw').
    cbn [mbind option_bind]. destruct (IH Hts y' Hw') as (q & y'' & -> & Hq'). cbn [mbind option_bind]. exists (p ++ q), y''.
    split; [done|]. by rewrite audios_app, Hp, Hq'. }
  destruct Hgen as (pubs & x'' & Hr & Hp). exists pubs, x''. done.
Qed.

(** A configured rate of zero is divided by in the first iteration. *)
Lemma rfs_zero_rate_traps s t ts epoch : src_is_mp4 s = false -> src_video_ring s = true -> src_fps s = 0 -> src_frames s <> [] ->
  rfs_run s (t :: ts) (rfs_start epoch) = None.
Proof.
  intros Hraw Hring Hfps Hf. cbn [rfs_run]. unfold rfs_iteration. cbn [fs_ended fs_paused rfs_start]. unfold play_av, raw_video, frame_time, frame_count.
  rewrite Hraw, Hring, Hfps. cbn [fs_frame_pos rfs_start andb Z.eqb]. rewrite (proj2 (Z.ltb_lt _ _)); [done|]. destruct (src_frames s); [done|]. cbn [length]. lia.
Qed.
End play.

(** ** Examples *)

Definition demo_encode (pcm : list Z) (now : Z) : list Z := pcm.

Definition demo_raw (loop audio : bool) : source :=
  mk_source false true audio 25 loop (annexb demo_stream)
    [mk_rfs_frame 0 28 0 RSS_NAL_H264_IDR true false; mk_rfs_frame 28 8 1 RSS_NAL_H264_SLICE false false]
    (demo_ctx []) (repeat 7 5000) 160 0.

Definition demo_ticks : list tick :=
  (fun n => mk_tick (n * 10000) (n * 10000 + 5) None) <$> [1; 2; 3; 4; 5; 6; 7; 8; 9; 10].

Lemma demo_raw_ok loop audio : raw_source (demo_raw loop audio) /\ in_order (demo_raw loop audio).
Proof. repeat split. intros [|[|i]] f [= <-]; done. Qed.

Example demo_times : exists pubs x, rfs_run demo_encode (demo_raw true false) demo_ticks (rfs_start 0) = Some (pubs, x) /\
  times pubs = [0; 40000; 40005; 80005; 90005].
Proof. eexists _, _. split; [vm_compute; reflexivity|]. vm_compute. reflexivity. Qed.


Lemma rfs_times_never_back_witness : exists pubs x,
  rfs_run demo_encode (demo_raw true false) demo_ticks (rfs_start 0) = Some (pubs, x) /\ StronglySorted Z.le (times pubs).
Proof.
  destruct (rfs_times_never_back demo_encode (demo_raw true false) demo_ticks 0) as (pubs & x & H1 & H2 & _).
  - apply demo_raw_ok.
  - apply demo_raw_ok.
  - repeat constructor.
  - cbn. repeat split; lia.
  - exists pubs, x. exact (conj H1 H2).
Defined.

Definition demo_m4a : source :=
  mk_source true false true 30 true [] []
    (mk_mp4_ctx [] RSS_CODEC_H264 0 0 0 0 30 [] 0 (repeat (mk_mp4_frame 0 1 0 None false) 50) 97 16000 1 [] [1]) [] 0 0.

Lemma rfs_audio_only_floods_witness : exists pubs x,
  rfs_run demo_encode demo_m4a demo_ticks (rfs_start 0) = Some (pubs, x) /\ length pubs = 500%nat.
Proof. exact (rfs_audio_only_floods demo_encode demo_m4a demo_ticks 0 eq_refl eq_refl eq_refl eq_refl). Defined.

Lemma rfs_seek_mutes_audio_witness : exists x' pubs x'',
  ctrl_handler (demo_raw true true) 100000 (Cmd_seek 0) (mk_rfs_state 1 1600 0 false 0 1 5 false) = Some x' /\
  rfs_run demo_encode (demo_raw true true) [mk_tick 150000 150000 None; mk_tick 199999 199999 None] x' = Some (pubs, x'') /\ audios pubs = [].
Proof.
  apply (rfs_seek_mutes_audio demo_encode (demo_raw true true) 0 100000 (mk_rfs_state 1 1600 0 false 0 1 5 false)).
  - apply demo_raw_ok.
  - reflexivity.
  - vm_compute. split; [discriminate|reflexivity].
  - vm_compute. reflexivity.
  - repeat constructor.
  - repeat constructor.
Defined.
