(* ===== verification/RodDraw.v ===== *)
(** * rod: glyphs, text, rectangles and logos (rod/rod_render.c)

    A picture is the BGRA buffer of the C code, a list of bytes of length
    [4 * width * height]; a write outside it, like a read outside a glyph, is
    [None].  libschrift is a parameter, [sft_ops]. *)

From Stdlib Require Import String.
From stdpp Require Import list list_numbers.
From S2P Require Import Prelude.

(** ** Loops *)

(** [for (x = lo; x < hi; x++)]. *)
Definition range (lo hi : Z) : list Z := seqZ lo (hi - lo).

Fixpoint fold_opt {A B} (f : A -> B -> option B) (l : list A) (b : B) : option B :=
  match l with
  | [] => Some b
  | a :: l => f a b ≫= fold_opt f l
  end.

(** ** The glyph cache *)

Definition ROD_GLYPH_CACHE_SIZE : Z := 95.

Record rod_glyph := mk_glyph {
  g_codepoint : Z; g_width : Z; g_height : Z; g_x_offset : Z; g_y_offset : Z; g_advance : Z; g_alpha : option (list Z)
}.

Record rod_font := mk_font {
  f_face : bool; f_glyphs : list rod_glyph; f_max_text_width : Z; f_text_height : Z; f_ascender : Z; f_size : Z;
  f_refcount : Z
}.

#[export] Instance eta_rod_font : Settable rod_font := fun x =>
  mk_font (f_face x) (f_glyphs x) (f_max_text_width x) (f_text_height x) (f_ascender x) (f_size x) (f_refcount x).

Definition font0 : rod_font := mk_font false [] 0 0 0 0 0.

(** What libschrift and the allocator answer for one character: nothing usable
    (the lookup, the metrics, the allocation or the rendering failed), a glyph
    without pixels, or one with them; the roundings of the code are applied. *)
Inductive sft_glyph :=
  | Sft_none
  | Sft_blank (advance : Z)
  | Sft_image (w h x_offset y_offset advance : Z) (pixels : list Z).

(** [sft_lmetrics] gives [ceil(ascender)] and [ceil(-descender)]. *)
Record sft_ops := mk_sft_ops {
  sft_loadfile : bool;
  sft_lmetrics : Z -> option (Z * Z);
  sft_render : Z -> Z -> sft_glyph
}.

(** The loop that caches the printable characters; [max_adv] is the widest
    advance so far. *)
Definition cache_glyph (lib : sft_ops) (font_size : Z) (cp : Z) (gm : list rod_glyph * Z) : list rod_glyph * Z :=
  let '(gs, max_adv) := gm in
  if negb (Z.of_nat (length gs) <? ROD_GLYPH_CACHE_SIZE) then gm
  else match sft_render lib font_size cp with
  | Sft_none => gm
  | Sft_blank adv => (gs ++ [mk_glyph cp 0 0 0 0 adv None], Z.max max_adv adv)
  | Sft_image w h xo yo adv px => (gs ++ [mk_glyph cp w h xo yo adv (Some px)], Z.max max_adv adv)
  end.

Definition cache_glyphs (lib : sft_ops) (font_size : Z) : list rod_glyph * Z :=
  fold_left (fun gm cp => cache_glyph lib font_size cp gm) (range 0x20 0x7F) ([], 0).

(** rod_render_init: [shared] says whether context [0][0] holds the font file. *)
Definition rod_render_init (lib : sft_ops) (shared : bool) (font_stroke font_size : Z) (f : rod_font) : rod_font * bool :=
  if negb (shared || sft_loadfile lib) then (f <| f_face := false |>, false)
  else match sft_lmetrics lib font_size with
  | None => (f <| f_face := true |>, false)
  | Some (ascender, descender) =>
      let text_height := ascender + descender + (if 0 <? font_stroke then font_stroke * 2 else 0) in
      let '(gs, max_adv) := cache_glyphs lib font_size in
      let pad := if 0 <? font_stroke then font_stroke * 2 else 0 in
      let max_text_width := 24 * max_adv + pad in
      (mk_font true gs (Z.ldiff (max_text_width + 1) 1) (Z.ldiff (text_height + 1) 1) ascender (f_size f) (f_refcount f), true)
  end.

Definition rod_render_deinit (f : rod_font) : rod_font := f <| f_glyphs := [] |> <| f_face := false |>.

Definition rod_glyph_lookup (font : rod_font) (codepoint : Z) : option rod_glyph :=
  if (0x20 <=? codepoint) && (codepoint <=? 0x7E) then
    match f_glyphs font !! Z.to_nat (codepoint - 0x20) with
    | Some g => if g_codepoint g =? codepoint then Some g else None
    | None => None
    end
  else None.

(** ** Pixels *)

Definition pixel_offset (buf_w x y : Z) : nat := Z.to_nat ((y * buf_w + x) * 4).

Definition pixel_at (buf_w : Z) (buf : list Z) (x y : Z) : list Z := take 4 (drop (pixel_offset buf_w x y) buf).

(** [dst = buf + (y * buf_w + x) * 4] and the stores to [dst[0]] .. [dst[3]]. *)
Definition set_pixel (buf_w x y : Z) (px : list Z) (buf : list Z) : option (list Z) :=
  let o := pixel_offset buf_w x y in
  if decide (o + 4 <= length buf)%nat then Some (take o buf ++ px ++ drop (o + 4) buf) else None.

(** [memset(buf, 0, buf_w * buf_h * 4)] on a buffer of exactly that size. *)
Definition clear (buf : list Z) : list Z := replicate (length buf) 0.

(** ** Text *)

Definition blend (c a d : Z) : Z := u8 (Z.quot (c * a + d * (255 - a)) 255).

Definition blend_pixel (b gn r a : Z) (d : list Z) : list Z :=
  [blend b a (nth 0 d 0); blend gn a (nth 1 d 0); blend r a (nth 2 d 0); u8 (a + Z.quot (nth 3 d 0 * (255 - a)) 255)].

Definition blit_glyph (buf_w buf_h : Z) (g : rod_glyph) (dx dy b gn r : Z) (buf : list Z) : option (list Z) :=
  match g_alpha g with
  | None => Some buf
  | Some alpha =>
      fold_opt (fun gy buf =>
        let py := dy + gy in
        if (py <? 0) || (buf_h <=? py) then Some buf
        else fold_opt (fun gx buf =>
          let px := dx + gx in
          if (px <? 0) || (buf_w <=? px) then Some buf
          else a ← alpha !! Z.to_nat (gy * g_width g + gx);
               if a =? 0 then Some buf
               else set_pixel buf_w px py (blend_pixel b gn r a (pixel_at buf_w buf px py)) buf)
          (range 0 (g_width g)) buf)
        (range 0 (g_height g)) buf
  end.

Fixpoint draw_string (font : rod_font) (buf_w buf_h pen_x baseline : Z) (text : list Z) (b g r : Z) (buf : list Z) :
  option (list Z * Z) :=
  match text with
  | [] => Some (buf, pen_x)
  | c :: text =>
      match rod_glyph_lookup font c with
      | Some gl =>
          buf ← blit_glyph buf_w buf_h gl (pen_x + g_x_offset gl) (baseline + g_y_offset gl) b g r buf;
          draw_string font buf_w buf_h (pen_x + g_advance gl) baseline text b g r buf
      | None => draw_string font buf_w buf_h pen_x baseline text b g r buf
      end
  end.

Definition measure_text (f : rod_font) (text : list Z) : Z :=
  fold_left (fun w c => match rod_glyph_lookup f c with Some g => w + g_advance g | None => w end) text 0.

Definition pen_start (f : rod_font) (buf_w : Z) (text : list Z) (align stroke : Z) : Z :=
  let pad := if 0 <? stroke then stroke else 0 in
  let text_w := measure_text f text in
  let pen_x := if align =? 2 then buf_w - text_w - pad else if align =? 1 then Z.quot (buf_w - text_w) 2 else pad in
  if pen_x <? pad then pad else pen_x.

Definition rod_draw_text (f : rod_font) (buf_w buf_h : Z) (text : list Z) (align color stroke_color stroke : Z)
    (buf : list Z) : option (list Z) :=
  let baseline := f_ascender f + (if 0 <? stroke then stroke else 0) in
  let buf := clear buf in
  let pen_x := pen_start f buf_w text align stroke in
  buf ← (if 0 <? stroke then
      fold_opt (fun sy buf =>
        fold_opt (fun sx buf =>
          if (sx =? 0) && (sy =? 0) then Some buf
          else if stroke <? Z.abs sx + Z.abs sy then Some buf
          else fst <$> draw_string f buf_w buf_h (pen_x + sx) (baseline + sy) text
                 (u8 (Z.land stroke_color 0xFF)) (u8 (Z.land (Z.shiftr stroke_color 8) 0xFF))
                 (u8 (Z.land (Z.shiftr stroke_color 16) 0xFF)) buf)
          (range (- stroke) (stroke + 1)) buf)
        (range (- stroke) (stroke + 1)) buf
    else Some buf);
  fst <$> draw_string f buf_w buf_h pen_x baseline text (u8 (Z.land color 0xFF)) (u8 (Z.land (Z.shiftr color 8) 0xFF))
    (u8 (Z.land (Z.shiftr color 16) 0xFF)) buf.

(** ** Rectangles *)

Definition hline (buf_w buf_h x0 x1 y : Z) (px : list Z) (buf : list Z) : option (list Z) :=
  if (y <? 0) || (buf_h <=? y) then Some buf
  else
    let x0 := if x0 <? 0 then 0 else x0 in
    let x1 := if buf_w <=? x1 then buf_w - 1 else x1 in
    fold_opt (fun x buf => set_pixel buf_w x y px buf) (range x0 (x1 + 1)) buf.

Definition bgra (color : Z) : list Z :=
  [u8 (Z.land color 0xFF); u8 (Z.land (Z.shiftr color 8) 0xFF); u8 (Z.land (Z.shiftr color 16) 0xFF);
   u8 (Z.land (Z.shiftr color 24) 0xFF)].

Definition rod_draw_rect_outline (buf_w buf_h x0 y0 x1 y1 color_bgra thickness : Z) (buf : list Z) : option (list Z) :=
  let px := bgra color_bgra in
  buf ← fold_opt (fun t buf =>
    buf ← hline buf_w buf_h x0 x1 (y0 + t) px buf;
    hline buf_w buf_h x0 x1 (y1 - t) px buf) (range 0 thickness) buf;
  fold_opt (fun y buf =>
    fold_opt (fun t buf =>
      let lx := x0 + t in
      let rx := x1 - t in
      if (0 <=? y) && (y <? buf_h) then
        buf ← (if (0 <=? lx) && (lx <? buf_w) then set_pixel buf_w lx y px buf else Some buf);
        (if (0 <=? rx) && (rx <? buf_w) then set_pixel buf_w rx y px buf else Some buf)
      else Some buf)
      (range 0 thickness) buf)
    (range (y0 + thickness) (y1 - thickness + 1)) buf.

(** ** Logos *)

(** rod_load_logo, on the file's bytes ([None]: it could not be read). *)
Definition rod_load_logo (file : option (list Z)) (expected_w expected_h : Z) : option (list Z) :=
  data ← file;
  if negb (Z.of_nat (length data) =? u32 (expected_w * expected_h * 4)) then None else Some data.

(** One step of the averaging loop: the sums of the colours weighted by alpha,
    the alphas and the pixel count, all [uint32_t]. *)
Record logo_acc := mk_acc { ac_b : Z; ac_g : Z; ac_r : Z; ac_a : Z; ac_n : Z }.

Definition add_source (src : list Z) (sw sy sx : Z) (s : logo_acc) : option logo_acc :=
  let o := Z.to_nat ((sy * sw + sx) * 4) in
  p0 ← src !! o; p1 ← src !! (o + 1)%nat; p2 ← src !! (o + 2)%nat; p3 ← src !! (o + 3)%nat;
  Some (mk_acc (u32 (ac_b s + p0 * p3)) (u32 (ac_g s + p1 * p3)) (u32 (ac_r s + p2 * p3)) (u32 (ac_a s + p3))
    (u32 (ac_n s + 1))).

(** The part of the source one destination row or column stands for. *)
Definition span (i s d : Z) : Z * Z :=
  let i0 := Z.quot (i * s) d in
  let i1 := Z.quot ((i + 1) * s) d in
  (i0, if i1 <=? i0 then i0 + 1 else i1).

Definition scale_pixel (src : list Z) (sw sh dw dh y x : Z) : option (list Z) :=
  let '(y0, y1) := span y sh dh in
  let '(x0, x1) := span x sw dw in
  s ← fold_opt (fun sy s => fold_opt (fun sx s => add_source src sw sy sx s) (range x0 x1) s) (range y0 y1)
        (mk_acc 0 0 0 0 0);
  if ac_n s =? 0 then None
  else Some [if ac_a s =? 0 then 0 else u8 (ac_b s / ac_a s); if ac_a s =? 0 then 0 else u8 (ac_g s / ac_a s);
             if ac_a s =? 0 then 0 else u8 (ac_r s / ac_a s); u8 (ac_a s / ac_n s)].

(** rod_scale_logo; the outer [None] is a read outside the source, the inner one
    the -1 of the code; [malloc_ok] is the allocation. *)
Definition rod_scale_logo (malloc_ok : bool) (src : list Z) (sw sh dw dh : Z) : option (option (list Z)) :=
  if (sw <=? 0) || (sh <=? 0) || (dw <=? 0) || (dh <=? 0) || (sw <? dw) || (sh <? dh) then Some None
  else if negb malloc_ok then Some None
  else out ← fold_opt (fun y out => fold_opt (fun x out =>
         q ← scale_pixel src sw sh dw dh y x; Some (out ++ q)) (range 0 dw) out) (range 0 dh) [];
       Some (Some out).

(** ** Painting

    [inside] is the picture; [paints] says that a step leaves every pixel outside
    [P] and puts [px] on those of it, [touches] only the first and that the bytes
    stay bytes. *)

Definition inside (bw bh x y : Z) : Prop := 0 <= x < bw /\ 0 <= y < bh.

Definition sized (bw bh : Z) (buf : list Z) : Prop := 0 <= bw /\ 0 <= bh /\ Z.of_nat (length buf) = bw * bh * 4.

Definition paints (bw bh : Z) (P : Z -> Z -> bool) (px : list Z) (b : list Z) (r : option (list Z)) : Prop :=
  exists b', r = Some b' /\ length b' = length b /\
    forall x y, inside bw bh x y -> pixel_at bw b' x y = if P x y then px else pixel_at bw b x y.

Definition touches (bw bh : Z) (P : Z -> Z -> bool) (b : list Z) (r : option (list Z)) : Prop :=
  exists b', r = Some b' /\ length b' = length b /\ Forall is_byte b' /\
    forall x y, inside bw bh x y -> P x y = false -> pixel_at bw b' x y = pixel_at bw b x y.

Lemma elem_of_range lo hi x : x ∈ range lo hi <-> lo <= x < hi.
Proof. unfold range. rewrite elem_of_seqZ. lia. Qed.

Lemma existsb_range (p : Z -> bool) lo hi (Q : Prop) :
  ((exists t, lo <= t < hi /\ p t = true) <-> Q) -> existsb p (range lo hi) = true <-> Q.
Proof.
  intros HQ. rewrite existsb_exists. etransitivity; [|exact HQ].
  split; intros (t & Ht & Hp); exists t; (split; [|done]);
    [apply elem_of_range, list_elem_of_In | apply list_elem_of_In, elem_of_range]; done.
Qed.

Lemma pixel_offset_bound bw bh x y buf :
  sized bw bh buf -> inside bw bh x y -> (pixel_offset bw x y + 4 <= length buf)%nat.
Proof. unfold sized, inside, pixel_offset. intros (? & ? & Hl) [? ?]. nia. Qed.

Lemma pixel_offset_apart bw bh x y x' y' :
  inside bw bh x y -> inside bw bh x' y' -> (x, y) <> (x', y') ->
  (pixel_offset bw x y + 4 <= pixel_offset bw x' y' \/ pixel_offset bw x' y' + 4 <= pixel_offset bw x y)%nat.
Proof.
  unfold inside, pixel_offset. intros [? ?] [? ?] Hne.
  assert (y * bw + x <> y' * bw + x').
  { intros He. apply Hne. assert (y = y') by nia. subst. f_equal. lia. }
  nia.
Qed.

Lemma pixel_at_length bw bh buf x y : sized bw bh buf -> inside bw bh x y -> length (pixel_at bw buf x y) = 4%nat.
Proof.
  intros Hs Hi. pose proof (pixel_offset_bound _ _ _ _ _ Hs Hi). unfold pixel_at.
  rewrite length_take, length_drop. lia.
Qed.

Lemma pixel_at_bytes bw buf x y : Forall is_byte buf -> Forall is_byte (pixel_at bw buf x y).
Proof. intros. unfold pixel_at. by apply Forall_take, Forall_drop. Qed.

Lemma picture_length bw bh b b' : length b' = length b -> sized bw bh b -> sized bw bh b'.
Proof. unfold sized. intros ->. done. Qed.

(** The four bytes of a splice, and those before and after it. *)
Lemma take_drop_splice (b px : list Z) (o o' : nat) :
  (o + 4 <= length b)%nat -> length px = 4%nat ->
  (o' = o -> take 4 (drop o' (take o b ++ px ++ drop (o + 4) b)) = px) /\
  ((o' + 4 <= o \/ o + 4 <= o')%nat -> take 4 (drop o' (take o b ++ px ++ drop (o + 4) b)) = take 4 (drop o' b)).
Proof.
  intros Ho Hp. split.
  - intros ->. rewrite drop_app_length' by (rewrite length_take; lia).
    rewrite take_app_length'; [done | lia].
  - intros [Hlt|Hlt].
    + rewrite drop_app_le by (rewrite length_take; lia).
      rewrite take_app_le by (rewrite length_drop, length_take; lia).
      rewrite <- (take_drop o b) at 2. rewrite drop_app_le by (rewrite length_take; lia).
      by rewrite take_app_le by (rewrite length_drop, length_take; lia).
    + rewrite drop_app_ge by (rewrite length_take; lia). rewrite length_take.
      rewrite drop_app_ge by lia. rewrite drop_drop. do 2 f_equal. lia.
Qed.

Lemma set_pixel_paints bw bh x y px b :
  sized bw bh b -> inside bw bh x y -> length px = 4%nat ->
  paints bw bh (fun x' y' => (x =? x') && (y =? y')) px b (set_pixel bw x y px b).
Proof.
  intros Hs Hi Hp. pose proof (pixel_offset_bound _ _ _ _ _ Hs Hi) as Ho. unfold set_pixel.
  rewrite decide_True by done. eexists. split; [done|]. split.
  { rewrite !length_app, length_take, length_drop. lia. }
  intros x' y' Hi'. unfold pixel_at.
  destruct (take_drop_splice b px (pixel_offset bw x y) (pixel_offset bw x' y') Ho Hp) as [H1 H2].
  destruct ((x =? x') && (y =? y')) eqn:E.
  - bool_to_prop. subst. by apply H1.
  - apply H2, (pixel_offset_apart bw bh); [done..|]. intros [= -> ->]. rewrite !Z.eqb_refl in E. done.
Qed.

Lemma paints_id bw bh px b : paints bw bh (fun _ _ => false) px b (Some b).
Proof. by eexists. Qed.

Lemma paints_ext bw bh P Q px b r :
  (forall x y, inside bw bh x y -> P x y = Q x y) -> paints bw bh P px b r -> paints bw bh Q px b r.
Proof. intros He (b' & ? & ? & Hp). exists b'. split_and!; [done..|]. intros. rewrite Hp, He by done. done. Qed.

Lemma paints_bind bw bh P Q px b r (k : list Z -> option (list Z)) :
  paints bw bh P px b r -> (forall b', length b' = length b -> paints bw bh Q px b' (k b')) ->
  paints bw bh (fun x y => P x y || Q x y) px b (r ≫= k).
Proof.
  intros (b1 & -> & Hl & H1) Hk. destruct (Hk b1 Hl) as (b2 & Hr & Hl2 & H2). exists b2. cbn.
  split_and!; [done | congruence |]. intros x y Hi. rewrite H2, H1 by done. by destruct (P x y), (Q x y).
Qed.

Lemma paints_fold {A} bw bh (P : A -> Z -> Z -> bool) px f (l : list A) b :
  (forall a b', a ∈ l -> length b' = length b -> paints bw bh (P a) px b' (f a b')) ->
  paints bw bh (fun x y => existsb (fun a => P a x y) l) px b (fold_opt f l b).
Proof.
  revert b. induction l as [|a l IH]; intros b Hf; [apply paints_id|]. cbn.
  apply paints_bind; [apply Hf; [by left | done]|].
  intros b' Hl. apply IH. intros a' b'' Ha Hl''. apply Hf; [by right | congruence].
Qed.

Lemma hline_paints bw bh x0 x1 y px b :
  sized bw bh b -> length px = 4%nat ->
  paints bw bh (fun x' y' => (y =? y') && (x0 <=? x') && (x' <=? x1)) px b (hline bw bh x0 x1 y px b).
Proof.
  intros Hs Hp. unfold hline. destruct ((y <? 0) || (bh <=? y)) eqn:E.
  - eapply paints_ext; [|apply paints_id]. intros x' y' [? ?]. cbn.
    apply orb_true_iff in E. rewrite Z.ltb_lt, Z.leb_le in E. destruct (Z.eqb_spec y y'); [lia | done].
  - bool_to_prop.
    set (lo := if x0 <? 0 then 0 else x0). set (hi := if bw <=? x1 then bw - 1 else x1).
    assert (Hlo : lo = Z.max 0 x0) by (unfold lo; destruct (Z.ltb_spec x0 0); lia).
    assert (Hhi : hi = Z.min (bw - 1) x1) by (unfold hi; destruct (Z.leb_spec bw x1); lia).
    eapply paints_ext; [|apply paints_fold with (P := fun x x' y' => (x =? x') && (y =? y'))].
    + intros x' y' [? ?]. apply eq_iff_eq_true. apply existsb_range. setoid_rewrite andb_true_iff. setoid_rewrite Z.eqb_eq.
      rewrite !andb_true_iff, Z.eqb_eq, !Z.leb_le. split; [intros (t & ? & -> & ->); lia | intros [[-> ?] ?]; exists x'; lia].
    + intros x b' Hx Hl. apply elem_of_range in Hx. apply set_pixel_paints; [by eapply picture_length|unfold inside; lia|done].
Qed.

Lemma bgra_length c : length (bgra c) = 4%nat.
Proof. done. Qed.

(** The pixels of a frame of the given thickness just inside the box. *)
Definition frame_pixel (x0 y0 x1 y1 th x y : Z) : bool :=
  (x0 <=? x) && (x <=? x1) && (y0 <=? y) && (y <=? y1) &&
  ((x <? x0 + th) || (x1 - th <? x) || (y <? y0 + th) || (y1 - th <? y)).

Lemma edges_paint bw bh x0 x1 y th px b :
  sized bw bh b -> length px = 4%nat ->
  paints bw bh (fun x' y' => existsb (fun t => ((x0 + t =? x') && (y =? y')) || ((x1 - t =? x') && (y =? y'))) (range 0 th)) px b
    (fold_opt (fun t buf =>
      let lx := x0 + t in
      let rx := x1 - t in
      if (0 <=? y) && (y <? bh) then
        buf ← (if (0 <=? lx) && (lx <? bw) then set_pixel bw lx y px buf else Some buf);
        (if (0 <=? rx) && (rx <? bw) then set_pixel bw rx y px buf else Some buf)
      else Some buf) (range 0 th) b).
Proof.
  intros Hs Hp. apply paints_fold with (P := fun t x' y' => ((x0 + t =? x') && (y =? y')) || ((x1 - t =? x') && (y =? y'))).
  intros t b' Ht Hl. cbv zeta.
  assert (Hone : forall x b'', length b'' = length b -> 0 <= y < bh ->
    paints bw bh (fun x' y' => (x =? x') && (y =? y')) px b''
      (if (0 <=? x) && (x <? bw) then set_pixel bw x y px b'' else Some b'')).
  { intros x b'' Hl' Hy. destruct ((0 <=? x) && (x <? bw)) eqn:E; bool_to_prop.
    - apply set_pixel_paints; [by eapply picture_length | unfold inside; lia | done].
    - eapply paints_ext; [|apply paints_id]. intros x' y' [? ?]. cbn.
      rewrite Z.leb_gt, Z.ltb_ge in E. destruct (Z.eqb_spec x x'); [lia | done]. }
  destruct ((0 <=? y) && (y <? bh)) eqn:E; bool_to_prop.
  - apply paints_bind; [by apply Hone|]. intros b'' Hl'. apply Hone; [congruence | lia].
  - eapply paints_ext; [|apply paints_id]. intros x' y' [? ?]. cbn.
    rewrite Z.leb_gt, Z.ltb_ge in E. destruct (Z.eqb_spec y y'); [lia|]. by rewrite !andb_false_r.
Qed.

(** A detection box is drawn as a frame of the given thickness and nothing
    else, wherever it lies: for every box at least as wide and high as the
    thickness, every write of rod_draw_rect_outline falls inside the buffer, the
    pixels of the picture that belong to the frame get the colour, and every other
    pixel keeps its value. *)
Theorem rod_outline_exact bw bh x0 y0 x1 y1 color th buf :
  sized bw bh buf -> 0 <= th -> th - 1 <= x1 - x0 -> th - 1 <= y1 - y0 ->
  exists buf', rod_draw_rect_outline bw bh x0 y0 x1 y1 color th buf = Some buf' /\
    length buf' = length buf /\
    forall x y, inside bw bh x y ->
      pixel_at bw buf' x y = if frame_pixel x0 y0 x1 y1 th x y then bgra color else pixel_at bw buf x y.
Proof.
  intros Hs Hth Hx Hy.
  cut (paints bw bh (frame_pixel x0 y0 x1 y1 th) (bgra color) buf (rod_draw_rect_outline bw bh x0 y0 x1 y1 color th buf)); [done|].
  eapply paints_ext; [|unfold rod_draw_rect_outline; cbv zeta; eapply paints_bind].
  2: { apply paints_fold with (P := fun t x y => ((y0 + t =? y) && (x0 <=? x) && (x <=? x1)) || ((y1 - t =? y) && (x0 <=? x) && (x <=? x1))).
       intros t b' _ Hl. apply paints_bind; [by apply hline_paints; [eapply picture_length|] |].
       intros b'' Hl'. apply hline_paints; [eapply picture_length; [|done]; congruence | done]. }
  2: { intros b' Hl. eapply paints_fold. intros y b'' _ Hl'. apply edges_paint; [eapply picture_length; [|done]; congruence | done]. }
  intros x y _. apply eq_iff_eq_true. unfold frame_pixel. rewrite orb_true_iff, !andb_true_iff, !orb_true_iff, !Z.leb_le, !Z.ltb_lt.
  rewrite existsb_range by reflexivity. rewrite existsb_range by (setoid_rewrite (existsb_range _ 0 th); reflexivity).
  setoid_rewrite orb_true_iff. setoid_rewrite andb_true_iff. setoid_rewrite andb_true_iff. setoid_rewrite Z.eqb_eq. setoid_rewrite Z.leb_le.
  split.
  - intros [(t & ? & ?)|(y' & ? & t & ? & ?)]; lia.
  - intros [[[[? ?] ?] ?] Hor].
    destruct (decide (y < y0 + th)) as [|]; [left; exists (y - y0); lia|].
    destruct (decide (y1 - th < y)) as [|]; [left; exists (y1 - y); lia|].
    right. exists y. split; [lia|]. destruct (decide (x < x0 + th)) as [|]; [exists (x - x0); lia | exists (x1 - x); lia].
Qed.

Lemma rod_outline_exact_witness :
  exists buf', rod_draw_rect_outline 4 3 (-1) 1 2 5 0xFF00FF00 2 (replicate 48 7) = Some buf' /\
    length buf' = 48%nat /\ pixel_at 4 buf' 1 1 = [0; 255; 0; 255] /\ pixel_at 4 buf' 3 2 = [7; 7; 7; 7].
Proof.
  destruct (rod_outline_exact 4 3 (-1) 1 2 5 0xFF00FF00 2 (replicate 48 7)) as (buf' & He & Hl & Hp);
    [unfold sized; cbn; lia | lia | lia | lia |].
  exists buf'. split_and!; [done | by rewrite Hl | rewrite Hp by (unfold inside; lia); vm_compute; reflexivity |
    rewrite Hp by (unfold inside; lia); vm_compute; reflexivity].
Defined.

(** ** Text stays in its boxes *)

Definition glyph_ok (g : rod_glyph) : Prop :=
  match g_alpha g with
  | None => True
  | Some px => 0 <= g_width g /\ 0 <= g_height g /\ Z.of_nat (length px) = g_width g * g_height g /\ Forall is_byte px
  end.

Definition font_ok (f : rod_font) : Prop := Forall glyph_ok (f_glyphs f).

Definition in_box (dx dy w h x y : Z) : bool := (dx <=? x) && (x <? dx + w) && (dy <=? y) && (y <? dy + h).

(** The boxes of the glyphs of a line whose pen starts at [pen_x]. *)
Fixpoint in_text (font : rod_font) (pen_x baseline : Z) (text : list Z) (x y : Z) : bool :=
  match text with
  | [] => false
  | c :: text =>
      match rod_glyph_lookup font c with
      | Some gl => in_box (pen_x + g_x_offset gl) (baseline + g_y_offset gl) (g_width gl) (g_height gl) x y
                   || in_text font (pen_x + g_advance gl) baseline text x y
      | None => in_text font pen_x baseline text x y
      end
  end.

Lemma touches_id bw bh P b : Forall is_byte b -> touches bw bh P b (Some b).
Proof. intros. by exists b. Qed.

Lemma touches_mono bw bh (P Q : Z -> Z -> bool) b r :
  (forall x y, P x y = true -> Q x y = true) -> touches bw bh P b r -> touches bw bh Q b r.
Proof.
  intros HPQ (b' & ? & ? & ? & Hp). exists b'. split_and!; [done..|]. intros x y ? HQ. apply Hp; [done|].
  destruct (P x y) eqn:E; [|done]. by rewrite (HPQ _ _ E) in HQ.
Qed.

Lemma touches_bind bw bh P Q b r (k : list Z -> option (list Z)) :
  touches bw bh P b r -> (forall b', length b' = length b -> Forall is_byte b' -> touches bw bh Q b' (k b')) ->
  touches bw bh (fun x y => P x y || Q x y) b (r ≫= k).
Proof.
  intros (b1 & -> & Hl & Hb & H1) Hk. destruct (Hk b1 Hl Hb) as (b2 & Hr & Hl2 & Hb2 & H2). exists b2. cbn.
  split_and!; [done | congruence | done |]. intros x y Hi HPQ. apply orb_false_iff in HPQ as [? ?]. by rewrite H2, H1.
Qed.

Lemma touches_fold {A} bw bh (P : Z -> Z -> bool) f (l : list A) b :
  Forall is_byte b ->
  (forall a b', a ∈ l -> length b' = length b -> Forall is_byte b' -> touches bw bh P b' (f a b')) ->
  touches bw bh P b (fold_opt f l b).
Proof.
  revert b. induction l as [|a l IH]; intros b Hb Hf; [by apply touches_id|]. cbn.
  eapply touches_mono; [|apply touches_bind with (P := P) (Q := P)].
  - intros x y. cbn. by rewrite orb_diag.
  - apply Hf; [by left | done..].
  - intros b' Hl Hb'. apply IH; [done|]. intros a' b'' Ha Hl''. apply Hf; [by right | congruence].
Qed.

Lemma blend_byte c a d : is_byte c -> is_byte a -> is_byte d -> is_byte (blend c a d).
Proof. intros. unfold blend. apply (uwrap_range 8). lia. Qed.

Lemma set_pixel_touches bw bh (P : Z -> Z -> bool) x y px b :
  sized bw bh b -> inside bw bh x y -> length px = 4%nat -> Forall is_byte px -> Forall is_byte b -> P x y = true ->
  touches bw bh P b (set_pixel bw x y px b).
Proof.
  intros Hs Hi Hp Hpb Hb HP. destruct (set_pixel_paints bw bh x y px b Hs Hi Hp) as (b' & He & Hl & Hpx).
  exists b'. split_and!; [done | done | |].
  - unfold set_pixel in He. case_decide; [|done]. injection He as <-.
    repeat apply Forall_app_2; [by apply Forall_take | done | by apply Forall_drop].
  - intros x' y' Hi' HP'. rewrite Hpx by done. destruct ((x =? x') && (y =? y')) eqn:E; [|done].
    bool_to_prop. congruence.
Qed.

Lemma blend_pixel_bytes b g r a d : Forall is_byte (blend_pixel b g r a d).
Proof. unfold blend_pixel, blend. repeat constructor; apply (uwrap_range 8); lia. Qed.

Lemma blit_glyph_touches bw bh g dx dy b gn r buf :
  sized bw bh buf -> Forall is_byte buf -> glyph_ok g ->
  touches bw bh (in_box dx dy (g_width g) (g_height g)) buf (blit_glyph bw bh g dx dy b gn r buf).
Proof.
  intros Hs Hb Hg. unfold blit_glyph, glyph_ok in *. destruct (g_alpha g) as [alpha|]; [|by apply touches_id].
  destruct Hg as (Hw & Hh & Hl & Hpx). apply touches_fold; [done|]. intros gy b1 Hgy Hl1 Hb1. apply elem_of_range in Hgy.
  destruct ((dy + gy <? 0) || (bh <=? dy + gy)) eqn:E1; [by apply touches_id|]. bool_to_prop.
  apply touches_fold; [done|]. intros gx b2 Hgx Hl2 Hb2. apply elem_of_range in Hgx.
  destruct ((dx + gx <? 0) || (bw <=? dx + gx)) eqn:E2; [by apply touches_id|]. bool_to_prop.
  destruct (lookup_lt_is_Some_2 alpha (Z.to_nat (gy * g_width g + gx))) as [a Ha]; [nia|]. rewrite Ha. cbn.
  destruct (a =? 0); [by apply touches_id|].
  apply set_pixel_touches; [eapply picture_length; [|done]; congruence | unfold inside; lia | done | apply blend_pixel_bytes | done |].
  unfold in_box. rewrite !andb_true_iff, !Z.leb_le, !Z.ltb_lt. lia.
Qed.

Lemma glyph_lookup_ok f c g : font_ok f -> rod_glyph_lookup f c = Some g -> glyph_ok g.
Proof.
  intros Hf. unfold rod_glyph_lookup. intros H. repeat case_match; simplify_eq. by eapply (Forall_lookup_1 _ _ _ _ Hf).
Qed.

Lemma fmap_of_bind {A B C} (h : B -> C) (o : option A) (k : A -> option B) : h <$> (o ≫= k) = o ≫= fun a => h <$> k a.
Proof. by destruct o. Qed.

Lemma draw_string_touches f bw bh pen baseline text b g r buf :
  sized bw bh buf -> Forall is_byte buf -> font_ok f ->
  touches bw bh (in_text f pen baseline text) buf (fst <$> draw_string f bw bh pen baseline text b g r buf).
Proof.
  intros Hs Hb Hf. revert pen buf Hs Hb. induction text as [|c text IH]; intros pen buf Hs Hb; [by apply touches_id|].
  cbn [draw_string in_text]. destruct (rod_glyph_lookup f c) as [gl|] eqn:Eg; [|by apply IH].
  rewrite fmap_of_bind.
  apply (touches_bind bw bh _ _ buf _ (fun b' => fst <$> draw_string f bw bh (pen + g_advance gl) baseline text b g r b')).
  - apply blit_glyph_touches; [done..|]. by eapply glyph_lookup_ok.
  - intros b' Hl Hb'. apply IH; [by eapply picture_length | done].
Qed.

Lemma clear_facts bw bh b : sized bw bh b -> sized bw bh (clear b) /\ Forall is_byte (clear b) /\
  forall x y, inside bw bh x y -> pixel_at bw (clear b) x y = [0; 0; 0; 0].
Proof.
  intros Hs. assert (Hs' : sized bw bh (clear b)) by (eapply picture_length; [|exact Hs]; apply length_replicate).
  split; [done|]. split; [by apply Forall_replicate|].
  intros x y Hi. pose proof (pixel_offset_bound _ _ _ _ _ Hs Hi). unfold pixel_at, clear.
  rewrite drop_replicate, take_replicate, Nat.min_l by lia. done.
Qed.

(** The pixels a line can mark: the glyph boxes, and as far around them as the stroke reaches. *)
Definition ink (f : rod_font) (bw : Z) (text : list Z) (align stroke x y : Z) : Prop :=
  exists sx sy, Z.abs sx + Z.abs sy <= Z.max 0 stroke /\
    in_text f (pen_start f bw text align stroke + sx) (f_ascender f + Z.max 0 stroke + sy) text x y = true.

Lemma stroke_touches f bw bh pen baseline text stroke b g r buf :
  sized bw bh buf -> Forall is_byte buf -> font_ok f -> 0 < stroke ->
  touches bw bh (fun x y => existsb (fun sy => existsb (fun sx =>
      (Z.abs sx + Z.abs sy <=? stroke) && in_text f (pen + sx) (baseline + sy) text x y)
      (range (- stroke) (stroke + 1))) (range (- stroke) (stroke + 1))) buf
    (fold_opt (fun sy buf => fold_opt (fun sx buf =>
          if (sx =? 0) && (sy =? 0) then Some buf
          else if stroke <? Z.abs sx + Z.abs sy then Some buf
          else fst <$> draw_string f bw bh (pen + sx) (baseline + sy) text b g r buf)
          (range (- stroke) (stroke + 1)) buf) (range (- stroke) (stroke + 1)) buf).
Proof.
  intros Hs Hb Hf Hstroke. apply touches_fold; [done|]. intros sy b1 Hsy Hl1 Hb1.
  apply touches_fold; [done|]. intros sx b2 Hsx Hl2 Hb2.
  destruct ((sx =? 0) && (sy =? 0)); [by apply touches_id|].
  destruct (stroke <? _) eqn:E; [by apply touches_id|]. bool_to_prop.
  eapply touches_mono; [|apply draw_string_touches; [eapply picture_length; [|done]; congruence | done | done]].
  intros x y Hxy. apply existsb_exists. exists sy. split; [by apply list_elem_of_In|].
  apply existsb_exists. exists sx. split; [by apply list_elem_of_In|]. rewrite Hxy, andb_true_r. by apply Z.leb_le.
Qed.

Lemma rod_draw_text_ok f bw bh text align color stroke_color stroke buf :
  sized bw bh buf -> font_ok f ->
  exists buf', rod_draw_text f bw bh text align color stroke_color stroke buf = Some buf' /\
    sized bw bh buf' /\ Forall is_byte buf' /\
    forall x y, inside bw bh x y -> ~ ink f bw text align stroke x y -> pixel_at bw buf' x y = [0; 0; 0; 0].
Proof.
  intros Hs Hf. destruct (clear_facts bw bh buf Hs) as (Hs0 & Hb0 & H0).
  set (pen := pen_start f bw text align stroke). set (base := f_ascender f + (if 0 <? stroke then stroke else 0)).
  assert (Hbase : base = f_ascender f + Z.max 0 stroke) by (unfold base; destruct (Z.ltb_spec 0 stroke); lia).
  set (Q := fun x y => existsb (fun sy => existsb (fun sx =>
      (Z.abs sx + Z.abs sy <=? stroke) && in_text f (pen + sx) (base + sy) text x y)
      (range (- stroke) (stroke + 1))) (range (- stroke) (stroke + 1))).
  assert (Ht : touches bw bh (fun x y => Q x y || in_text f pen base text x y) (clear buf)
    (rod_draw_text f bw bh text align color stroke_color stroke buf)).
  { unfold rod_draw_text. cbv zeta. apply touches_bind.
    - destruct (Z.ltb_spec 0 stroke); [apply stroke_touches | apply touches_id]; done.
    - intros b' Hl Hb'. apply draw_string_touches; [by eapply picture_length | done..]. }
  destruct Ht as (b' & He & Hl & Hb' & Hp). exists b'. split_and!; [done | by eapply picture_length | done |].
  intros x y Hi Hni. rewrite Hp; [by apply H0 | done |]. apply orb_false_iff. split; apply not_true_is_false; intros Hx; apply Hni.
  - unfold Q in Hx. apply existsb_exists in Hx as (sy & _ & Hx). apply existsb_exists in Hx as (sx & _ & Hx).
    apply andb_true_iff in Hx as [? Hx]. bool_to_prop. exists sx, sy. rewrite <- Hbase. split; [lia | done].
  - exists 0, 0. rewrite <- Hbase, !Z.add_0_r. split; [lia | done].
Qed.

(** C26: Drawing a line of text never writes outside the buffer nor reads outside a
    glyph, whatever the text, alignment, stroke and glyph positions: the call ends
    with a buffer of the same size whose bytes are bytes, and every pixel of the
    picture away from the glyph boxes and their stroke is transparent black,
    whatever the buffer held before. *)
Theorem rod_text_in_boxes f bw bh text align color stroke_color stroke buf :
  sized bw bh buf -> font_ok f ->
  exists buf', rod_draw_text f bw bh text align color stroke_color stroke buf = Some buf' /\
    sized bw bh buf' /\ Forall is_byte buf' /\
    forall x y, inside bw bh x y -> ~ ink f bw text align stroke x y -> pixel_at bw buf' x y = [0; 0; 0; 0].
Proof. apply rod_draw_text_ok. Qed.

(** ** The glyph cache *)

Lemma cache_prefix lib size l gs m :
  Forall (fun cp => sft_render lib size cp <> Sft_none) l -> Z.of_nat (length gs) + Z.of_nat (length l) <= ROD_GLYPH_CACHE_SIZE ->
  exists gs', fst (fold_left (fun gm cp => cache_glyph lib size cp gm) l (gs, m)) = gs ++ gs' /\ g_codepoint <$> gs' = l.
Proof.
  unfold ROD_GLYPH_CACHE_SIZE. revert gs m. induction l as [|cp l IH]; intros gs m Hl Hlen; [exists []; by rewrite app_nil_r|].
  inversion_clear Hl as [|? ? Hcp Hl']. cbn [fold_left length] in *.
  assert (Hc : exists g m', g_codepoint g = cp /\ cache_glyph lib size cp (gs, m) = (gs ++ [g], m')).
  { unfold cache_glyph, ROD_GLYPH_CACHE_SIZE. destruct (Z.ltb_spec (Z.of_nat (length gs)) 95); [|lia]. cbn.
    destruct (sft_render lib size cp); [done|do 2 eexists; (split; [|reflexivity]); reflexivity..]. }
  destruct Hc as (g & m' & Hg & ->). destruct (IH (gs ++ [g]) m' Hl') as (gs' & He & Hm).
  { rewrite length_app. cbn. lia. }
  exists (g :: gs'). rewrite He, <- app_assoc. cbn. by rewrite Hm, Hg.
Qed.

Lemma cache_later lib size l gs m :
  exists gs', fst (fold_left (fun gm cp => cache_glyph lib size cp gm) l (gs, m)) = gs ++ gs' /\ (g_codepoint <$> gs') `sublist_of` l.
Proof.
  revert gs m. induction l as [|cp l IH]; intros gs m; [exists []; by rewrite app_nil_r|]. cbn [fold_left].
  assert (Hc : (exists m', cache_glyph lib size cp (gs, m) = (gs, m')) \/
    exists g m', g_codepoint g = cp /\ cache_glyph lib size cp (gs, m) = (gs ++ [g], m')).
  { unfold cache_glyph. destruct (negb _); [left; by exists m|]. destruct (sft_render lib size cp);
      [left; by exists m | right; do 2 eexists; (split; [|reflexivity]); reflexivity..]. }
  destruct Hc as [(m' & ->)|(g & m' & Hg & ->)].
  - destruct (IH gs m') as (gs' & -> & Hs). exists gs'. split; [done|]. by apply sublist_cons.
  - destruct (IH (gs ++ [g]) m') as (gs' & -> & Hs). exists (g :: gs'). rewrite <- app_assoc. split; [done|]. cbn.
    rewrite Hg. by apply sublist_skip.
Qed.

Lemma sublist_range_lookup lo hi (l : list Z) k v : l `sublist_of` range lo hi -> l !! k = Some v -> lo + Z.of_nat k <= v < hi.
Proof.
  unfold range. remember (Z.to_nat (hi - lo)) as n eqn:Hn. revert lo l k Hn.
  induction n as [|n IH]; intros lo l k Hn Hs Hk.
  { rewrite seqZ_nil in Hs by lia. apply sublist_nil_r in Hs. by subst. }
  rewrite seqZ_cons in Hs by lia. replace (Z.pred (hi - lo)) with (hi - Z.succ lo) in Hs by lia.
  apply sublist_cons_r in Hs as [Hs|(l' & -> & Hs)].
  - pose proof (IH (Z.succ lo) l k ltac:(lia) Hs Hk). lia.
  - destruct k as [|k]; cbn in Hk; [injection Hk as <-; lia|]. pose proof (IH (Z.succ lo) l' k ltac:(lia) Hs Hk). lia.
Qed.

Lemma range_split lo mid hi : lo <= mid <= hi -> range lo hi = range lo mid ++ range mid hi.
Proof. intros. unfold range. replace (hi - lo) with ((mid - lo) + (hi - mid)) by lia. rewrite seqZ_app by lia. do 2 f_equal; lia. Qed.

(** A font context can draw exactly the characters that come before the first
    one its library could not render: the cache skips a failed character while the
    lookup indexes by character, so one failure hides every printable character
    after it, and with no failure all ninety-five are there. *)
Theorem rod_glyphs_before_failure lib shared stroke size f cp0 cp :
  shared || sft_loadfile lib = true -> is_Some (sft_lmetrics lib size) ->
  0x20 <= cp0 <= 0x7F -> (forall c, 0x20 <= c < cp0 -> sft_render lib size c <> Sft_none) ->
  (cp0 = 0x7F \/ sft_render lib size cp0 = Sft_none) ->
  is_Some (rod_glyph_lookup (fst (rod_render_init lib shared stroke size f)) cp) <-> 0x20 <= cp < cp0.
Proof.
  intros Hload [[asc desc] Hlm] Hcp0 Hok Hfail. unfold rod_render_init. rewrite Hload, Hlm. cbn [negb].
  assert (Hc : exists g1 g2, fst (cache_glyphs lib size) = g1 ++ g2 /\ g_codepoint <$> g1 = range 0x20 cp0 /\
    (g_codepoint <$> g2) `sublist_of` range (cp0 + 1) 0x7F).
  { unfold cache_glyphs. rewrite (range_split 0x20 cp0 0x7F) by lia. rewrite fold_left_app.
    destruct (cache_prefix lib size (range 0x20 cp0) [] 0) as (g1 & He & Hg1).
    { apply list.Forall_forall. intros c Hc. apply elem_of_range in Hc. by apply Hok. }
    { unfold range, ROD_GLYPH_CACHE_SIZE. rewrite length_seqZ. cbn [length]. lia. }
    destruct (fold_left _ (range 32 cp0) _) as [gs m]. cbn in He. subst gs. exists g1.
    destruct Hfail as [->|Hf]; [exists []; split_and!; [by rewrite app_nil_r | done | apply sublist_nil_l]|].
    destruct (decide (cp0 = 0x7F)) as [->|]; [exists []; split_and!; [by rewrite app_nil_r | done | apply sublist_nil_l]|].
    rewrite (range_split cp0 (cp0 + 1) 0x7F) by lia. rewrite fold_left_app.
    replace (range cp0 (cp0 + 1)) with [cp0] by (unfold range; rewrite Z.add_simpl_l; done).
    cbn [fold_left]. assert (cache_glyph lib size cp0 (g1, m) = (g1, m)) as -> by (unfold cache_glyph; rewrite Hf; by destruct (negb _)).
    destruct (cache_later lib size (range (cp0 + 1) 0x7F) g1 m) as (g2 & He & Hs). by exists g2. }
  destruct (cache_glyphs lib size) as [gs m]. cbn in Hc. destruct Hc as (g1 & g2 & -> & H1 & H2).
  unfold rod_glyph_lookup. cbn [fst f_glyphs].
  assert (Hlen : Z.of_nat (length g1) = cp0 - 0x20).
  { rewrite <- (length_fmap g_codepoint), H1. unfold range. rewrite length_seqZ. lia. }
  destruct ((0x20 <=? cp) && (cp <=? 0x7E)) eqn:E; bool_to_prop.
  2: { rewrite Z.leb_gt in E. rewrite Z.leb_gt in E. split; [intros [? ?]; done | lia]. }
  destruct (Z.lt_ge_cases cp cp0) as [Hlt|Hge].
  - split; [lia|intros _]. destruct (lookup_lt_is_Some_2 g1 (Z.to_nat (cp - 0x20))) as [g Hg]; [lia|].
    rewrite lookup_app_l by lia. rewrite Hg. assert (Hcp : (g_codepoint <$> g1) !! Z.to_nat (cp - 0x20) = Some (g_codepoint g)) by (by rewrite list_lookup_fmap, Hg).
    rewrite H1 in Hcp. unfold range in Hcp. apply lookup_seqZ in Hcp as [Hcp _]. replace (g_codepoint g) with cp by lia. by rewrite Z.eqb_refl.
  - split; [|lia]. intros [g0 Hg0]. exfalso. rewrite lookup_app_r in Hg0 by lia.
    destruct (g2 !! _) as [g|] eqn:Eg; [|done]. destruct (Z.eqb_spec (g_codepoint g) cp); [|done].
    assert (Hcp : (g_codepoint <$> g2) !! (Z.to_nat (cp - 0x20) - length g1)%nat = Some cp) by (rewrite list_lookup_fmap, Eg; cbn; congruence).
    pose proof (sublist_range_lookup _ _ _ _ _ H2 Hcp). lia.
Qed.

(** libschrift fills the image it is given: [w * h] bytes. *)
Definition sft_sound (lib : sft_ops) : Prop :=
  forall size cp, match sft_render lib size cp with
    | Sft_image w h _ _ _ px => 0 <= w /\ 0 <= h /\ Z.of_nat (length px) = w * h /\ Forall is_byte px
    | _ => True
    end.

Lemma render_init_ok lib shared stroke size f :
  sft_sound lib -> font_ok f -> font_ok (fst (rod_render_init lib shared stroke size f)).
Proof.
  intros Hl Hf. unfold rod_render_init. destruct (negb _); [done|]. destruct (sft_lmetrics lib size) as [[a d]|]; [|done].
  assert (Hg : forall l gm, Forall glyph_ok (fst gm) -> Forall glyph_ok (fst (fold_left (fun gm cp => cache_glyph lib size cp gm) l gm))).
  { induction l as [|cp l IH]; intros gm Hgm; [done|]. cbn. apply IH. destruct gm as [gs m]. unfold cache_glyph.
    destruct (negb _); [done|]. specialize (Hl size cp). destruct (sft_render lib size cp); [done|apply Forall_app_2; [done|by apply Forall_singleton]..]. }
  assert (Hc : Forall glyph_ok (fst (cache_glyphs lib size))) by (apply Hg; constructor).
  by destruct (cache_glyphs lib size) as [gs m].
Qed.

(** A toy library: two-pixel-wide glyphs for the letters, no rendering for [#]. *)
Definition toy_sft : sft_ops :=
  mk_sft_ops true (fun size => Some (size, 2))
    (fun size cp => if cp =? 0x20 then Sft_blank 3 else if cp =? 0x23 then Sft_none
                    else Sft_image 2 2 0 (- 2) 3 [255; 128; 0; 255]).

Definition toy_font : rod_font := fst (rod_render_init toy_sft false 0 8 font0).

Lemma toy_font_ok : font_ok toy_font.
Proof.
  apply render_init_ok; [|constructor]. intros size cp. cbn. destruct (cp =? 32); [done|]. destruct (cp =? 35); [done|].
  split_and!; [lia.. | done | repeat constructor; lia].
Qed.

Lemma rod_glyphs_before_failure_witness :
  is_Some (rod_glyph_lookup toy_font 0x22) /\ rod_glyph_lookup toy_font 0x41 = None.
Proof.
  assert (H : forall cp, is_Some (rod_glyph_lookup toy_font cp) <-> 0x20 <= cp < 0x23).
  { intros cp. apply (rod_glyphs_before_failure toy_sft false 0 8 font0 0x23 cp);
      [done | by eexists | lia | | by right].
    intros c Hc. cbn. destruct (c =? 32); [done|]. destruct (Z.eqb_spec c 35); [lia | done]. }
  split; [apply H; lia|]. destruct (rod_glyph_lookup toy_font 65) eqn:E; [|done].
  assert (is_Some (rod_glyph_lookup toy_font 65)) as Hs by (rewrite E; by eexists). apply H in Hs. lia.
Defined.

Lemma rod_text_in_boxes_witness :
  exists buf', rod_draw_text toy_font 10 12 [0x21; 0x22] 1 0xFFFFFFFF 0xFF000000 1 (replicate 480 9) = Some buf' /\
    sized 10 12 buf' /\ Forall is_byte buf'.
Proof.
  destruct (rod_text_in_boxes toy_font 10 12 [0x21; 0x22] 1 0xFFFFFFFF 0xFF000000 1 (replicate 480 9)) as (b & He & Hs & Hb & _).
  - unfold sized. rewrite length_replicate. lia.
  - exact toy_font_ok.
  - exists b. exact (conj He (conj Hs Hb)).
Defined.

(** ** Logos *)

(** The pairs a double loop visits, outer index first. *)
Definition pairs (ys xs : list Z) : list (Z * Z) := ys ≫= fun y => pair y <$> xs.

Lemma fold_opt_app {A B} (f : A -> B -> option B) l1 l2 b : fold_opt f (l1 ++ l2) b = fold_opt f l1 b ≫= fold_opt f l2.
Proof. revert b. induction l1 as [|a l1 IH]; intros b; cbn; [done|]. destruct (f a b); cbn; [apply IH | done]. Qed.

Lemma fold_opt_nested {B} (g : Z -> Z -> B -> option B) ys xs b :
  fold_opt (fun y b => fold_opt (g y) xs b) ys b = fold_opt (fun p => g p.1 p.2) (pairs ys xs) b.
Proof.
  revert b. induction ys as [|y ys IH]; intros b; [done|]. cbn [fold_opt]. unfold pairs. cbn [mbind list_bind].
  rewrite fold_opt_app. assert (He : forall b, fold_opt (fun p => g p.1 p.2) (pair y <$> xs) b = fold_opt (g y) xs b).
  { clear IH. induction xs as [|x xs IHx]; intros b'; [done|]. cbn. destruct (g y x b'); cbn; [apply IHx | done]. }
  rewrite He. destruct (fold_opt (g y) xs b); cbn; [apply IH | done].
Qed.

Lemma elem_of_pairs ys xs p : p ∈ pairs ys xs <-> p.1 ∈ ys /\ p.2 ∈ xs.
Proof.
  unfold pairs. rewrite list_elem_of_bind. setoid_rewrite list_elem_of_fmap. destruct p as [y x]. cbn. split.
  - intros (y' & (x' & [= -> ->] & Hx) & Hy). done.
  - intros [Hy Hx]. exists y. split; [by exists x | done].
Qed.

(** Byte [c] of a source pixel, and sums over a block of them. *)
Definition src_byte (src : list Z) (sw : Z) (c : nat) (p : Z * Z) : Z := nth (Z.to_nat ((p.1 * sw + p.2) * 4) + c) src 0.

Definition sumZ {A} (f : A -> Z) (l : list A) : Z := fold_right (fun a s => f a + s) 0 l.

Lemma sumZ_bounds {A} (f : A -> Z) (m : Z) l : (forall a, a ∈ l -> 0 <= f a <= m) -> 0 <= sumZ f l <= m * Z.of_nat (length l).
Proof.
  induction l as [|a l IH]; intros H; cbn [sumZ fold_right length]; [lia|]. fold (sumZ f l).
  pose proof (H a ltac:(by left)). pose proof (IH ltac:(intros; apply H; by right)). nia.
Qed.

Lemma sumZ_le {A} (f g : A -> Z) (m : Z) l : (forall a, a ∈ l -> f a <= m * g a) -> sumZ f l <= m * sumZ g l.
Proof.
  induction l as [|a l IH]; intros H; cbn [sumZ fold_right]; [lia|]. fold (sumZ f l) (sumZ g l).
  pose proof (H a ltac:(by left)). pose proof (IH ltac:(intros; apply H; by right)). lia.
Qed.

Definition weighted (src : list Z) (sw : Z) (c : nat) (p : Z * Z) : Z := src_byte src sw c p * src_byte src sw 3 p.

Definition acc_sum (src : list Z) (sw : Z) (ps : list (Z * Z)) (s : logo_acc) : logo_acc :=
  mk_acc (u32 (ac_b s + sumZ (weighted src sw 0) ps)) (u32 (ac_g s + sumZ (weighted src sw 1) ps))
    (u32 (ac_r s + sumZ (weighted src sw 2) ps)) (u32 (ac_a s + sumZ (src_byte src sw 3) ps)) (u32 (ac_n s + Z.of_nat (length ps))).

Lemma add_source_ok src sw sh p s :
  sized sw sh src -> inside sw sh p.2 p.1 ->
  add_source src sw p.1 p.2 s = Some (acc_sum src sw [p] s).
Proof.
  intros Hs Hi. pose proof (pixel_offset_bound _ _ _ _ _ Hs Hi) as Ho. unfold pixel_offset in Ho. unfold add_source. cbv zeta.
  assert (Hl : forall c, (c < 4)%nat -> src !! (Z.to_nat ((p.1 * sw + p.2) * 4) + c)%nat = Some (src_byte src sw c p)).
  { intros c Hc. unfold src_byte.
    destruct (lookup_lt_is_Some_2 src (Z.to_nat ((p.1 * sw + p.2) * 4) + c)) as [v Hv]; [lia|].
    rewrite Hv. f_equal. symmetry. by apply nth_lookup_Some. }
  rewrite <- (Nat.add_0_r (Z.to_nat _)) at 1. rewrite !Hl by lia. cbn [mbind option_bind].
  unfold acc_sum, weighted. cbn [sumZ fold_right length]. by rewrite !Z.add_0_r.
Qed.

Lemma acc_sum_cons src sw p ps s : acc_sum src sw ps (acc_sum src sw [p] s) = acc_sum src sw (p :: ps) s.
Proof.
  unfold acc_sum. cbn [ac_b ac_g ac_r ac_a ac_n sumZ fold_right length]. rewrite !uwrap_add_l.
  f_equal; f_equal; unfold sumZ; lia.
Qed.

Lemma acc_fold src sw sh ps s :
  sized sw sh src -> (forall p, p ∈ ps -> inside sw sh p.2 p.1) -> ps <> [] ->
  fold_opt (fun p => add_source src sw p.1 p.2) ps s = Some (acc_sum src sw ps s).
Proof.
  intros Hs. revert s. induction ps as [|p ps IH]; intros s Hi Hne; [done|]. cbn [fold_opt].
  rewrite (add_source_ok src sw sh) by (done || (apply Hi; by left)). cbn [mbind option_bind].
  destruct ps as [|p' ps]; [done|]. rewrite IH; [by rewrite acc_sum_cons | intros; apply Hi; by right | done].
Qed.

Lemma span_bounds i s d : 0 < d <= s -> 0 <= i < d ->
  span i s d = (i * s / d, (i + 1) * s / d) /\ 0 <= i * s / d < (i + 1) * s / d /\ (i + 1) * s / d <= s /\
  (i + 1) * s / d - i * s / d <= s / d + 1.
Proof.
  intros Hd Hi. unfold span. rewrite !Z.quot_div_nonneg by nia.
  assert (i * s / d + 1 <= (i + 1) * s / d).
  { rewrite <- Z.div_add by lia. apply Z.div_le_mono; nia. }
  destruct (Z.leb_spec ((i + 1) * s / d) (i * s / d)); [lia|]. split; [done|].
  assert (0 <= i * s / d) by (apply Z.div_pos; nia).
  assert ((i + 1) * s / d <= s) by (apply Z.div_le_upper_bound; nia).
  pose proof (Z.mul_div_le (i * s) d ltac:(lia)). pose proof (Z.mul_succ_div_gt (i * s) d ltac:(lia)).
  pose proof (Z.mul_div_le ((i + 1) * s) d ltac:(lia)). pose proof (Z.mul_succ_div_gt s d ltac:(lia)).
  split_and!; [lia.. |]. nia.
Qed.

(** The spans of the [d] destinations tile the source: every index is in exactly one. *)
Lemma span_tiles s d k : 0 < d <= s -> 0 <= k < s -> exists i, 0 <= i < d /\ i * s / d <= k < (i + 1) * s / d /\
  forall j, 0 <= j < d -> j * s / d <= k < (j + 1) * s / d -> j = i.
Proof.
  intros Hd Hk.
  assert (Hex : forall n, 0 <= n -> n <= d -> k < n * s / d -> exists i, 0 <= i < n /\ i * s / d <= k < (i + 1) * s / d).
  { apply (natlike_ind (fun n => n <= d -> k < n * s / d -> exists i, 0 <= i < n /\ i * s / d <= k < (i + 1) * s / d)).
    - rewrite Z.mul_0_l, Z.div_0_l by lia. lia.
    - intros n Hn IH Hle Hlt. destruct (Z.lt_ge_cases k (n * s / d)) as [Hc|Hc].
      + destruct (IH ltac:(lia) Hc) as (i & ? & ?). exists i. lia.
      + exists n. replace (n + 1) with (Z.succ n) by lia. lia. }
  destruct (Hex d) as (i & Hi & Hki); [lia | lia | rewrite Z.mul_comm, Z.div_mul by lia; lia |].
  exists i. split_and!; [lia.. |]. intros j Hj Hkj.
  assert (Hm : forall a b, 0 <= a -> a + 1 <= b -> (a + 1) * s / d <= b * s / d) by (intros; apply Z.div_le_mono; nia).
  destruct (Z.lt_trichotomy j i) as [Hl|[He|Hl]]; [|done|].
  - pose proof (Hm j i ltac:(lia) ltac:(lia)). lia.
  - pose proof (Hm i j ltac:(lia) ltac:(lia)). lia.
Qed.

(** The source pixels (row, column) behind destination pixel [(x, y)]. *)
Definition block (sw sh dw dh x y : Z) : list (Z * Z) :=
  pairs (range (y * sh / dh) ((y + 1) * sh / dh)) (range (x * sw / dw) ((x + 1) * sw / dw)).

Lemma pairs_length ys xs : length (pairs ys xs) = (length ys * length xs)%nat.
Proof. induction ys as [|y ys IH]; [done|]. unfold pairs in *. cbn [mbind list_bind]. rewrite length_app, length_fmap, IH. cbn. lia. Qed.

Lemma block_facts sw sh dw dh x y :
  0 < dw <= sw -> 0 < dh <= sh -> inside dw dh x y ->
  block sw sh dw dh x y <> [] /\ (forall p, p ∈ block sw sh dw dh x y -> inside sw sh p.2 p.1) /\
  0 < Z.of_nat (length (block sw sh dw dh x y)) <= (sw / dw + 1) * (sh / dh + 1).
Proof.
  intros Hw Hh [Hx Hy]. destruct (span_bounds x sw dw Hw Hx) as (_ & ? & ? & ?), (span_bounds y sh dh Hh Hy) as (_ & ? & ? & ?).
  assert (Hl : Z.of_nat (length (block sw sh dw dh x y)) = ((y + 1) * sh / dh - y * sh / dh) * ((x + 1) * sw / dw - x * sw / dw)).
  { unfold block, range. rewrite pairs_length, !length_seqZ. nia. }
  split_and!.
  - intros He. rewrite He in Hl. cbn in Hl. nia.
  - intros p Hp. apply elem_of_pairs in Hp as [Hp1 Hp2]. apply elem_of_range in Hp1, Hp2. unfold inside. lia.
  - rewrite Hl. nia.
  - rewrite Hl. rewrite Z.mul_comm. apply Z.mul_le_mono_nonneg; lia.
Qed.

Definition mean (src : list Z) (sw : Z) (c : nat) (ps : list (Z * Z)) : Z :=
  if sumZ (src_byte src sw 3) ps =? 0 then 0 else sumZ (weighted src sw c) ps / sumZ (src_byte src sw 3) ps.

Definition mean_pixel (src : list Z) (sw : Z) (ps : list (Z * Z)) : list Z :=
  [mean src sw 0 ps; mean src sw 1 ps; mean src sw 2 ps; sumZ (src_byte src sw 3) ps / Z.of_nat (length ps)].

Lemma src_byte_byte src sw c p : Forall is_byte src -> is_byte (src_byte src sw c p).
Proof.
  intros Hb. unfold src_byte. destruct (nth_in_or_default (Z.to_nat ((p.1 * sw + p.2) * 4) + c) src 0) as [Hin| ->]; [|done].
  apply list_elem_of_In in Hin. by eapply list.Forall_forall in Hb.
Qed.

Lemma scale_pixel_mean src sw sh dw dh x y :
  sized sw sh src -> Forall is_byte src -> 0 < dw <= sw -> 0 < dh <= sh -> (sw / dw + 1) * (sh / dh + 1) <= 66051 ->
  inside dw dh x y ->
  scale_pixel src sw sh dw dh y x = Some (mean_pixel src sw (block sw sh dw dh x y)) /\
  Forall is_byte (mean_pixel src sw (block sw sh dw dh x y)).
Proof.
  intros Hs Hb Hw Hh Hsz Hi. destruct (block_facts sw sh dw dh x y Hw Hh Hi) as (Hne & Hin & Hn). destruct Hi as [Hx Hy].
  unfold scale_pixel. destruct (span_bounds y sh dh Hh Hy) as [-> _], (span_bounds x sw dw Hw Hx) as [-> _].
  rewrite (fold_opt_nested (fun sy sx s => add_source src sw sy sx s)). fold (block sw sh dw dh x y).
  set (ps := block sw sh dw dh x y) in *. rewrite (acc_fold src sw sh) by done. cbn [mbind option_bind].
  assert (H3 : 0 <= sumZ (src_byte src sw 3) ps <= 255 * Z.of_nat (length ps)).
  { apply sumZ_bounds. intros p _. pose proof (src_byte_byte src sw 3 p Hb). unfold is_byte in *. lia. }
  assert (Hc : forall c, 0 <= sumZ (weighted src sw c) ps <= 65025 * Z.of_nat (length ps) /\
    sumZ (weighted src sw c) ps <= 255 * sumZ (src_byte src sw 3) ps).
  { intros c. assert (Hwt : forall p, 0 <= weighted src sw c p <= 65025 /\ weighted src sw c p <= 255 * src_byte src sw 3 p).
    { intros p. unfold weighted. pose proof (src_byte_byte src sw c p Hb). pose proof (src_byte_byte src sw 3 p Hb). unfold is_byte in *. nia. }
    split; [apply sumZ_bounds | apply sumZ_le]; intros p _; destruct (Hwt p); lia. }
  assert (Hid : acc_sum src sw ps (mk_acc 0 0 0 0 0) = mk_acc (sumZ (weighted src sw 0) ps) (sumZ (weighted src sw 1) ps)
    (sumZ (weighted src sw 2) ps) (sumZ (src_byte src sw 3) ps) (Z.of_nat (length ps))).
  { unfold acc_sum. cbn [ac_b ac_g ac_r ac_a ac_n]. rewrite !Z.add_0_l. destruct (Hc 0%nat), (Hc 1%nat), (Hc 2%nat).
    f_equal; apply uwrap_id; unfold in_u; lia. }
  rewrite Hid. cbn [ac_b ac_g ac_r ac_a ac_n]. destruct (Z.eqb_spec (Z.of_nat (length ps)) 0); [lia|].
  assert (Hm : forall c, is_byte (mean src sw c ps) /\
    (if sumZ (src_byte src sw 3) ps =? 0 then 0 else u8 (sumZ (weighted src sw c) ps / sumZ (src_byte src sw 3) ps)) = mean src sw c ps).
  { intros c. unfold mean. destruct (Z.eqb_spec (sumZ (src_byte src sw 3) ps) 0); [done|]. destruct (Hc c).
    assert (is_byte (sumZ (weighted src sw c) ps / sumZ (src_byte src sw 3) ps)).
    { unfold is_byte. split; [apply Z.div_pos; lia|]. apply Z.div_lt_upper_bound; lia. }
    split; [done|]. by apply (uwrap_id 8). }
  assert (Ha : is_byte (sumZ (src_byte src sw 3) ps / Z.of_nat (length ps))).
  { unfold is_byte. split; [apply Z.div_pos; lia|]. apply Z.div_lt_upper_bound; lia. }
  unfold mean_pixel. split; [|repeat (constructor; [apply Hm || done|]); constructor].
  do 2 f_equal; [apply Hm|]. f_equal; [apply Hm|]. f_equal; [apply Hm|]. f_equal. by apply (uwrap_id 8).
Qed.

Lemma fold_append {A} (q : A -> option (list Z)) (h : A -> list Z) ps out :
  (forall p, p ∈ ps -> q p = Some (h p)) ->
  fold_opt (fun p out => r ← q p; Some (out ++ r)) ps out = Some (out ++ concat (h <$> ps)).
Proof.
  revert out. induction ps as [|p ps IH]; intros out Hq; cbn; [by rewrite app_nil_r|].
  rewrite Hq by (by left). cbn. rewrite IH by (intros; apply Hq; by right). by rewrite <- app_assoc.
Qed.

Lemma pairs_lookup ys xs i j y x : ys !! i = Some y -> xs !! j = Some x -> pairs ys xs !! (i * length xs + j)%nat = Some (y, x).
Proof.
  revert i. induction ys as [|y' ys IH]; intros i Hy Hx; [done|]. unfold pairs in *. cbn [mbind list_bind].
  pose proof (lookup_lt_Some _ _ _ Hx). destruct i as [|i]; cbn in Hy.
  - injection Hy as ->. rewrite lookup_app_l by (rewrite length_fmap; lia). cbn [Nat.mul Nat.add]. by rewrite list_lookup_fmap, Hx.
  - rewrite lookup_app_r by (rewrite length_fmap; nia). rewrite length_fmap.
    replace (S i * length xs + j - length xs)%nat with (i * length xs + j)%nat by nia. by apply IH.
Qed.

Lemma concat4_lookup (ls : list (list Z)) k v :
  Forall (fun l => length l = 4%nat) ls -> ls !! k = Some v -> take 4 (drop (4 * k) (concat ls)) = v.
Proof.
  intros Hl. revert k. induction Hl as [|l ls Hl4 Hl IH]; intros k Hk; [done|]. cbn [concat]. destruct k as [|k]; cbn in Hk.
  - injection Hk as <-. rewrite Nat.mul_0_r. cbn [drop]. by apply take_app_length'.
  - rewrite drop_app_ge by lia. rewrite Hl4. replace (4 * S k - 4)%nat with (4 * k)%nat by lia. by apply IH.
Qed.

(** A logo shrunk for a sub-stream is its exact average: for any image and any
    smaller size whose blocks stay under 66051 pixels, every pixel of the result is
    the alpha-weighted mean of its block of the source, with no sum or byte
    overflowing and no read outside the source, and the blocks tile the source, so
    that every source pixel counts in exactly one pixel of the result. *)
Theorem rod_logo_average src sw sh dw dh :
  sized sw sh src -> Forall is_byte src -> 0 < dw <= sw -> 0 < dh <= sh -> (sw / dw + 1) * (sh / dh + 1) <= 66051 ->
  exists out, rod_scale_logo true src sw sh dw dh = Some (Some out) /\ sized dw dh out /\ Forall is_byte out /\
    (forall x y, inside dw dh x y -> pixel_at dw out x y = mean_pixel src sw (block sw sh dw dh x y)) /\
    (forall sx sy, inside sw sh sx sy ->
       exists x y, inside dw dh x y /\ (sy, sx) ∈ block sw sh dw dh x y /\
         forall x' y', inside dw dh x' y' -> (sy, sx) ∈ block sw sh dw dh x' y' -> x' = x /\ y' = y).
Proof.
  intros Hs Hb Hw Hh Hsz. unfold rod_scale_logo.
  replace ((sw <=? 0) || (sh <=? 0) || (dw <=? 0) || (dh <=? 0) || (sw <? dw) || (sh <? dh)) with false
    by (symmetry; rewrite !orb_false_iff, !Z.leb_gt, !Z.ltb_ge; lia).
  cbn [negb].
  rewrite (fold_opt_nested (fun y x out => q ← scale_pixel src sw sh dw dh y x; Some (out ++ q))).
  set (ps := pairs (range 0 dh) (range 0 dw)). set (h := fun p : Z * Z => mean_pixel src sw (block sw sh dw dh p.2 p.1)).
  assert (Hps : forall p, p ∈ ps -> inside dw dh p.2 p.1).
  { intros p Hp. apply elem_of_pairs in Hp as [H1 H2]. apply elem_of_range in H1, H2. done. }
  rewrite (fold_append (fun p => scale_pixel src sw sh dw dh p.1 p.2) h) by (intros p Hp; by apply scale_pixel_mean, Hps).
  cbn [mbind option_bind app]. eexists. split; [done|].
  assert (Hlen : Forall (fun l => length l = 4%nat) (h <$> ps)) by (apply Forall_fmap; by apply Forall_true).
  assert (Hsum : length (concat (h <$> ps)) = (length ps * 4)%nat) by (clear; induction ps as [|p ps IH]; [done|cbn; lia]).
  split_and!.
  - unfold sized. rewrite Hsum. unfold ps, range. rewrite pairs_length, !length_seqZ. nia.
  - apply Forall_concat, Forall_fmap, list.Forall_forall. intros p Hp. cbn. by apply (scale_pixel_mean src sw sh dw dh), Hps.
  - intros x y [Hx Hy]. unfold pixel_at, pixel_offset.
    replace (Z.to_nat ((y * dw + x) * 4)) with (4 * (Z.to_nat y * length (range 0 dw) + Z.to_nat x))%nat
      by (unfold range; rewrite length_seqZ; nia).
    apply concat4_lookup; [done|]. rewrite list_lookup_fmap. unfold ps.
    rewrite (pairs_lookup _ _ _ _ y x); [done | unfold range; apply lookup_seqZ; lia..].
  - intros sx sy [Hsx Hsy]. destruct (span_tiles sw dw sx Hw Hsx) as (x & ? & ? & Hux), (span_tiles sh dh sy Hh Hsy) as (y & ? & ? & Huy).
    exists x, y. split; [done|]. unfold block. split; [apply elem_of_pairs; cbn; rewrite !elem_of_range; lia|].
    intros x' y' [Hx' Hy'] Hin. apply elem_of_pairs in Hin as [H1' H2']. cbn in *. rewrite elem_of_range in H1', H2'.
    split; [by apply Hux | by apply Huy].
Qed.

Lemma rod_logo_average_witness :
  exists out, rod_scale_logo true [10; 20; 30; 100; 20; 40; 60; 50; 1; 2; 3; 0] 3 1 2 1 = Some (Some out) /\
    pixel_at 2 out 1 0 = [20; 40; 60; 25].
Proof.
  destruct (rod_logo_average [10; 20; 30; 100; 20; 40; 60; 50; 1; 2; 3; 0] 3 1 2 1) as (out & He & _ & _ & Hp & _);
    [unfold sized; cbn; lia | repeat constructor; lia | lia | lia | vm_compute; discriminate |].
  exists out. split; [done|]. rewrite Hp by (unfold inside; lia). vm_compute. reflexivity.
Defined.
