(* ===== verification/RodReceipt.v ===== *)
(** * rod: the receipt element (rod/rod_receipt.c)

    A scrolling block of text fed by a serial line, a FIFO or the control socket:
    the line accumulator, the ring of lines and the drawing.  Against it a
    reference that splits the stream into lines and shows the newest of them. *)

From stdpp Require Import list list_numbers.
From S2P Require Import Prelude RodDraw.

Definition ROD_RECEIPT_MAX_LINES : Z := 32.
Definition ROD_RECEIPT_MAX_LINE : Z := 80.

(** The receipt part of rod_element_t.  [rc_accum] holds the [accum_pos] bytes
    accumulated; a line is its bytes before the terminator. *)
Record receipt := mk_receipt {
  rc_lines : list (list Z); rc_head : Z; rc_count : Z; rc_max_lines : Z; rc_max_line_len : Z; rc_dirty : bool;
  rc_accum : list Z; rc_accum_last_byte_ts : Z; rc_accum_timeout : Z; rc_input_fd : Z; rc_bg_color : Z
}.

#[export] Instance eta_receipt : Settable receipt := fun x =>
  mk_receipt (rc_lines x) (rc_head x) (rc_count x) (rc_max_lines x) (rc_max_line_len x) (rc_dirty x) (rc_accum x)
    (rc_accum_last_byte_ts x) (rc_accum_timeout x) (rc_input_fd x) (rc_bg_color x).

Definition accum_pos (r : receipt) : Z := Z.of_nat (length (rc_accum r)).

(** The memset of rod_add_element, and the descriptor it then marks absent. *)
Definition receipt0 : receipt := mk_receipt (replicate (Z.to_nat ROD_RECEIPT_MAX_LINES) []) 0 0 0 0 false [] 0 0 (- 1) 0.

(** [rss_strlcpy(dst, src, size)]: up to the terminator, cut to fit. *)
Definition cstr (l : list Z) : list Z :=
  fold_right (fun c t => if c =? 0 then [] else c :: t) [] l.

Definition strlcpy (size : Z) (src : list Z) : list Z := take (Z.to_nat (size - 1)) (cstr src).

Definition sanitize_char (c : Z) : Z := if c <? 0x20 then 0x20 else if 0x7E <? c then 0x3F else c.

Definition rod_receipt_add_line (line : list Z) (r : receipt) : receipt :=
  let dst := sanitize_char <$> strlcpy (ROD_RECEIPT_MAX_LINE + 1) line in
  r <| rc_lines := <[Z.to_nat (rc_head r) := dst]> (rc_lines r) |>
    <| rc_head := Z.rem (rc_head r + 1) ROD_RECEIPT_MAX_LINES |>
    <| rc_count := if rc_count r <? rc_max_lines r then rc_count r + 1 else rc_count r |>
    <| rc_dirty := true |>.

Definition rod_receipt_clear (r : receipt) : receipt := r <| rc_head := 0 |> <| rc_count := 0 |> <| rc_dirty := true |>.

Definition emit_accum_line (r : receipt) : receipt :=
  if accum_pos r =? 0 then r else (rod_receipt_add_line (rc_accum r) r) <| rc_accum := [] |>.

Definition max_len (r : receipt) : Z := if rc_max_line_len r <=? 0 then ROD_RECEIPT_MAX_LINE else rc_max_line_len r.

(** One byte of rod_receipt_feed_bytes and the clock read for it. *)
Definition feed_byte (r : receipt) (b : Z * Z) : receipt :=
  let '(c, now) := b in
  let r := r <| rc_accum_last_byte_ts := now |> in
  if c =? 0x0A then emit_accum_line r
  else if c =? 0x0D then r
  else
    let r := if accum_pos r <? max_len r then r <| rc_accum := rc_accum r ++ [c] |> else r in
    if max_len r <=? accum_pos r then emit_accum_line r else r.

Definition rod_receipt_feed_bytes (data : list (Z * Z)) (r : receipt) : receipt := fold_left feed_byte data r.

(** The receipt branch of render_tick: a line left unfinished for longer than the
    timeout is taken as it is. *)
Definition receipt_timeout (now : Z) (r : receipt) : receipt :=
  if (0 <? rc_accum_timeout r) && (0 <? accum_pos r) && (0 <? rc_accum_last_byte_ts r) then
    if rc_accum_timeout r * 1000000 <=? now - rc_accum_last_byte_ts r
    then (rod_receipt_add_line (rc_accum r) r) <| rc_accum := [] |> else r
  else r.

(** ** Drawing *)

(** The lines rod_render_receipt goes through, oldest first. *)
Definition receipt_start (r : receipt) : Z := Z.rem (rc_head r - rc_count r + ROD_RECEIPT_MAX_LINES) ROD_RECEIPT_MAX_LINES.

Definition receipt_line (r : receipt) (i : Z) : list Z :=
  default [] (rc_lines r !! Z.to_nat (Z.rem (receipt_start r + i) ROD_RECEIPT_MAX_LINES)).

Definition line_height (f : rod_font) : Z := if f_text_height f <=? 0 then 16 else f_text_height f.

(** [rod_draw_text] on the rows from [y] on, in place. *)
Definition draw_rows (f : rod_font) (bw y row_h : Z) (line : list Z) (align col scol ssz : Z) (buf : list Z) : option (list Z) :=
  let o := Z.to_nat (y * bw * 4) in
  let n := Z.to_nat (bw * row_h * 4) in
  if decide (o + n <= length buf)%nat then
    rows ← rod_draw_text f bw row_h line align col scol ssz (take n (drop o buf));
    Some (take o buf ++ rows ++ drop (o + n) buf)
  else None.

Definition draw_line (f : rod_font) (bw bh : Z) (r : receipt) (align col scol ssz : Z) (i : Z) (s : Z * list Z) : option (Z * list Z) :=
  let '(y, buf) := s in
  let line_h := line_height f in
  if negb (y + line_h <=? bh) then Some s
  else match receipt_line r i with
  | [] => Some s
  | line => buf ← draw_rows f bw y line_h line align col scol ssz buf; Some (y + line_h, buf)
  end.

(** The background loop: the first [bw * fill_h] pixels. *)
Definition fill_background (bw bh line_h : Z) (r : receipt) (buf : list Z) : list Z :=
  if rc_bg_color r =? 0 then buf
  else
    let fill_h := u32 (rc_count r * line_h) in
    let fill_h := if bh <? fill_h then bh else fill_h in
    let n := Z.to_nat (bw * fill_h) in
    concat (replicate n (bgra (rc_bg_color r))) ++ drop (4 * n) buf.

(** rod_render_receipt from the draw buffer on. *)
Definition rod_render_receipt (f : rod_font) (bw bh : Z) (r : receipt) (align col scol ssz : Z) (buf : list Z) : option (list Z) :=
  let buf := clear buf in
  if rc_count r =? 0 then Some buf
  else
    let buf := fill_background bw bh (line_height f) r buf in
    snd <$> fold_opt (draw_line f bw bh r align col scol ssz) (range 0 (rc_count r)) (0, buf).

(** ** What is on the receipt *)

Definition displayed (r : receipt) : list (list Z) := receipt_line r <$> range 0 (rc_count r).

Definition receipt_ok (r : receipt) : Prop :=
  length (rc_lines r) = Z.to_nat ROD_RECEIPT_MAX_LINES /\ 0 <= rc_head r < ROD_RECEIPT_MAX_LINES /\
  0 <= rc_count r <= Z.max 0 (rc_max_lines r) /\ rc_max_lines r <= ROD_RECEIPT_MAX_LINES /\
  rc_max_line_len r <= ROD_RECEIPT_MAX_LINE /\ accum_pos r < max_len r.

Definition last_n {A} (n : Z) (l : list A) : list A := drop (length l - Z.to_nat n) l.

(** A line as it is kept: up to a terminator and in printable characters. *)
Definition shown (line : list Z) : list Z := sanitize_char <$> strlcpy (ROD_RECEIPT_MAX_LINE + 1) line.

(** The line [k] places from the head, [k] negative. *)
Definition ago (r : receipt) (k : Z) : list Z := default [] (rc_lines r !! Z.to_nat ((rc_head r + k) mod ROD_RECEIPT_MAX_LINES)).

Lemma displayed_ago r : receipt_ok r -> displayed r = ago r <$> range (- rc_count r) 0.
Proof.
  intros (Hl & Hh & Hc & Hm & _). unfold ROD_RECEIPT_MAX_LINES in *. unfold displayed, range.
  replace (seqZ (- rc_count r) (0 - - rc_count r)) with (Z.add (- rc_count r) <$> seqZ 0 (rc_count r - 0))
    by (rewrite fmap_add_seqZ; apply f_equal2; lia).
  rewrite <- list_fmap_compose. apply list_fmap_ext. intros i k Hk. apply lookup_seqZ in Hk as [-> Hk]. cbn.
  unfold receipt_line, receipt_start, ago, ROD_RECEIPT_MAX_LINES.
  rewrite (Z.rem_mod_nonneg (_ - _ + _)) by lia.
  pose proof (Z.mod_pos_bound (rc_head r - rc_count r + 32) 32 ltac:(lia)). rewrite Z.rem_mod_nonneg by lia.
  rewrite Zplus_mod_idemp_l. do 3 f_equal.
  replace (rc_head r - rc_count r + 32 + (0 + Z.of_nat i)) with (rc_head r + (- rc_count r + (0 + Z.of_nat i)) + 1 * 32) by lia. apply Z.mod_add. lia.
Qed.

Lemma ago_add l r k : receipt_ok r -> - 32 <= k < 0 ->
  ago (rod_receipt_add_line l r) k = if k =? - 1 then shown l else ago r (k + 1).
Proof.
  intros (Hl & Hh & _) Hk. unfold ago, rod_receipt_add_line, ROD_RECEIPT_MAX_LINES in *. cbn.
  rewrite Z.rem_mod_nonneg, Zplus_mod_idemp_l by lia. destruct (Z.eqb_spec k (- 1)) as [->|Hne].
  - replace (rc_head r + 1 + -1) with (rc_head r) by lia. rewrite Z.mod_small by lia.
    rewrite list_lookup_insert_eq by lia. done.
  - replace (rc_head r + 1 + k) with (rc_head r + (k + 1)) by lia. rewrite list_lookup_insert_ne; [done|].
    intros He. apply Z2Nat.inj in He; [|lia | apply Z.mod_pos_bound; lia].
    assert (Hz : (rc_head r + (k + 1) - rc_head r) mod 32 = 0).
    { rewrite Zminus_mod, <- He, (Z.mod_small (rc_head r) 32), Z.sub_diag by lia. done. }
    replace (rc_head r + (k + 1) - rc_head r) with (k + 1) in Hz by lia. apply Z.mod_divide in Hz as [q Hq]; lia.
Qed.

Lemma range_snoc lo hi : lo < hi -> range lo hi = range lo (hi - 1) ++ [hi - 1].
Proof. intros. rewrite (range_split lo (hi - 1) hi) by lia. f_equal. unfold range. by replace (hi - (hi - 1)) with 1 by lia. Qed.

Lemma displayed_add l r : receipt_ok r ->
  receipt_ok (rod_receipt_add_line l r) /\
  displayed (rod_receipt_add_line l r) = last_n (rc_max_lines r) (displayed r ++ [shown l]).
Proof.
  intros Hok. pose proof Hok as (Hl & Hh & Hc & Hm & Hml & Hac).
  assert (Hok' : receipt_ok (rod_receipt_add_line l r)).
  { unfold receipt_ok, rod_receipt_add_line, accum_pos, max_len, ROD_RECEIPT_MAX_LINES in *. cbn.
    rewrite Z.rem_mod_nonneg by lia. pose proof (Z.mod_pos_bound (rc_head r + 1) 32 ltac:(lia)).
    split_and!; try lia; [by rewrite length_insert | destruct (Z.ltb_spec (rc_count r) (rc_max_lines r)); lia..]. }
  split; [done|]. rewrite (displayed_ago _ Hok'), (displayed_ago _ Hok).
  set (C' := rc_count (rod_receipt_add_line l r)).
  assert (HC : C' = if rc_count r <? rc_max_lines r then rc_count r + 1 else rc_count r) by done. clearbody C'.
  unfold ROD_RECEIPT_MAX_LINES in *.
  assert (Hlen : length (ago r <$> range (- rc_count r) 0) = Z.to_nat (rc_count r)).
  { rewrite length_fmap. unfold range. rewrite length_seqZ. lia. }
  unfold last_n. rewrite length_app, Hlen. cbn [length].
  destruct (Z.eq_dec C' 0) as [H0|H0].
  { rewrite H0. cbn. destruct (Z.ltb_spec (rc_count r) (rc_max_lines r)); [lia|].
    rewrite drop_ge; [done|]. rewrite length_app, Hlen. cbn. lia. }
  assert (HC' : 0 < C' <= 32) by (destruct (Z.ltb_spec (rc_count r) (rc_max_lines r)); lia).
  rewrite (range_snoc (- C') 0), fmap_app by lia. cbn [fmap list_fmap].
  rewrite (ago_add l r (0 - 1)) by (done || lia). cbn [Z.eqb].
  assert (He : ago (rod_receipt_add_line l r) <$> range (- C') (0 - 1) = ago r <$> range (- C' + 1) 0).
  { transitivity ((fun k => ago r (k + 1)) <$> range (- C') (0 - 1)).
    - apply list_fmap_ext. intros i k Hk. unfold range in Hk. apply lookup_seqZ in Hk as [-> Hk]. rewrite ago_add by (done || lia).
      destruct (Z.eqb_spec (- C' + Z.of_nat i) (-1)); [lia | done].
    - replace (range (- C' + 1) 0) with (Z.add 1 <$> range (- C') (0 - 1)) by (unfold range; rewrite fmap_add_seqZ; apply f_equal2; lia).
      rewrite <- list_fmap_compose. apply list_fmap_ext. intros i k _. cbn. f_equal. lia. }
  rewrite He. destruct (Z.ltb_spec (rc_count r) (rc_max_lines r)).
  - replace (Z.to_nat (rc_count r) + 1 - Z.to_nat (rc_max_lines r))%nat with 0%nat by lia. cbn [drop].
    by replace (- C' + 1) with (- rc_count r) by lia.
  - replace (Z.to_nat (rc_count r) + 1 - Z.to_nat (rc_max_lines r))%nat with 1%nat by lia.
    rewrite (range_split (- rc_count r) (- rc_count r + 1) 0) by lia.
    replace (range (- rc_count r) (- rc_count r + 1)) with [- rc_count r] by (unfold range; by rewrite Z.add_simpl_l).
    cbn [fmap list_fmap app drop]. by replace (- C' + 1) with (- rc_count r + 1) by lia.
Qed.

Lemma displayed_clear r : receipt_ok r -> receipt_ok (rod_receipt_clear r) /\ displayed (rod_receipt_clear r) = [].
Proof. unfold receipt_ok, ROD_RECEIPT_MAX_LINES. intros (? & ? & ? & ? & ? & ?). split; [cbn; split_and!; try done; lia | done]. Qed.

(** ** The reference: lines of a stream *)

(** The complete lines of a stream and the text after the last newline. *)
Definition split_step (s : list (list Z) * list Z) (c : Z) : list (list Z) * list Z :=
  if c =? 0x0A then (s.1 ++ [s.2], []) else (s.1, s.2 ++ [c]).

Definition split_lines (data : list Z) : list (list Z) * list Z :=
  fold_left split_step (filter (fun c => c <> 0x0D) data) ([], []).

(** A line cut every [n] characters: the full pieces, what is left, and all of them. *)
Definition full (n : nat) (l : list Z) : list (list Z) := (fun i => take n (drop (i * n) l)) <$> seq 0 (length l / n).

Definition leftover (n : nat) (l : list Z) : list Z := drop (length l / n * n) l.

Definition chunks (n : nat) (l : list Z) : list (list Z) := full n l ++ match leftover n l with [] => [] | x => [x] end.

(** What the stream puts on the receipt, and what it leaves unfinished. *)
Definition stream_lines (n : nat) (data : list Z) : list (list Z) :=
  concat (chunks n <$> (split_lines data).1) ++ full n (split_lines data).2.

Definition stream_rest (n : nat) (data : list Z) : list Z := leftover n (split_lines data).2.

Lemma full_nil n : full n [] = [].
Proof. by destruct n. Qed.

Lemma leftover_nil n : leftover n [] = [].
Proof. unfold leftover. apply drop_nil. Qed.

Lemma leftover_length n l : (0 < n)%nat -> (length (leftover n l) = length l mod n)%nat.
Proof. intros. unfold leftover. rewrite length_drop. pose proof (Nat.div_mod_eq (length l) n). lia. Qed.

Lemma chunk_snoc n l c : (0 < n)%nat ->
  (length (leftover n l) + 1 = n)%nat /\ full n (l ++ [c]) = full n l ++ [leftover n l ++ [c]] /\ leftover n (l ++ [c]) = [] \/
  (length (leftover n l) + 1 < n)%nat /\ full n (l ++ [c]) = full n l /\ leftover n (l ++ [c]) = leftover n l ++ [c].
Proof.
  intros Hn. rewrite leftover_length by done. pose proof (Nat.div_mod_eq (length l) n). pose proof (Nat.mod_upper_bound (length l) n ltac:(lia)).
  assert (Hfull : forall k, (k <= length l / n)%nat ->
    (fun i => take n (drop (i * n) (l ++ [c]))) <$> seq 0 k = (fun i => take n (drop (i * n) l)) <$> seq 0 k).
  { intros k Hk. apply list_fmap_ext. intros j i Hi. apply lookup_seq in Hi as [-> Hi].
    assert ((j + 1) * n <= length l / n * n)%nat by (apply Nat.mul_le_mono_r; lia).
    rewrite drop_app_le by lia. rewrite take_app_le by (rewrite length_drop; lia). done. }
  destruct (decide (length l mod n + 1 = n)%nat) as [He|Hne]; [left | right].
  - assert (Hd : (length (l ++ [c]) / n = length l / n + 1)%nat).
    { rewrite length_app. cbn. symmetry. apply Nat.div_unique with (r := 0%nat); [lia|]. nia. }
    split; [done|]. unfold full, leftover. rewrite Hd. rewrite seq_app, fmap_app, Hfull by done. cbn.
    split.
    + do 2 f_equal. rewrite drop_app_le by lia. rewrite take_ge; [done|]. rewrite length_app, length_drop. cbn. lia.
    + apply drop_ge. rewrite length_app. cbn. nia.
  - assert (Hd : (length (l ++ [c]) / n = length l / n)%nat).
    { rewrite length_app. cbn. symmetry. apply Nat.div_unique with (r := (length l mod n + 1)%nat); nia. }
    split; [lia|]. unfold full, leftover. rewrite Hd, Hfull by done. split; [done|]. rewrite drop_app_le by lia. done.
Qed.

(** The accumulator of the code, lines emitted so far first. *)
Definition acc_step (n : nat) (s : list (list Z) * list Z) (c : Z) : list (list Z) * list Z :=
  let emit (s : list (list Z) * list Z) := match s.2 with [] => s | l => (s.1 ++ [l], []) end in
  if c =? 0x0A then emit s else if c =? 0x0D then s
  else let s := if decide (length s.2 < n)%nat then (s.1, s.2 ++ [c]) else s in
       if decide (n <= length s.2)%nat then emit s else s.

Lemma stream_snoc n data c : (0 < n)%nat ->
  (stream_lines n (data ++ [c]), stream_rest n (data ++ [c])) = acc_step n (stream_lines n data, stream_rest n data) c.
Proof.
  intros Hn. unfold stream_lines, stream_rest, split_lines, acc_step. rewrite filter_app, fold_left_app.
  set (s := fold_left split_step (filter (fun c => c <> 13) data) ([], [])). cbn [fst snd].
  destruct (Z.eqb_spec c 0x0A) as [->|H1].
  { rewrite filter_cons_True by done. rewrite filter_nil. change (fold_left split_step [10] s) with (s.1 ++ [s.2], @nil Z). cbn [fst snd].
    rewrite full_nil, leftover_nil, app_nil_r, fmap_app, concat_app. cbn [fmap list_fmap concat]. rewrite app_nil_r. unfold chunks at 2.
    destruct (leftover n s.2); [by rewrite app_nil_r | by rewrite app_assoc]. }
  destruct (Z.eqb_spec c 0x0D) as [->|H2].
  { rewrite filter_cons_False by (intros ?; done). done. }
  rewrite filter_cons_True by done. rewrite filter_nil. change (fold_left split_step [c] s) with (split_step s c).
  assert (split_step s c = (s.1, s.2 ++ [c])) as -> by (unfold split_step; destruct (Z.eqb_spec c 0x0A); done). cbn [fst snd].
  pose proof (leftover_length n s.2 Hn) as Hl. pose proof (Nat.mod_upper_bound (length s.2) n ltac:(lia)).
  destruct (decide (length (leftover n s.2) < n)%nat); [|lia]. cbn [fst snd]. rewrite length_app. cbn [length].
  destruct (chunk_snoc n s.2 c Hn) as [(Hlen & -> & ->)|(Hlen & -> & ->)].
  - rewrite decide_True by lia. destruct (leftover n s.2 ++ [c]) eqn:E; [by destruct (leftover n s.2)|]. by rewrite app_assoc.
  - rewrite decide_False by lia. done.
Qed.

(** ** The receipt shows the newest lines of its input *)

Lemma last_n_last_n {A} n (a b : list A) : last_n n (last_n n a ++ b) = last_n n (a ++ b).
Proof.
  unfold last_n. rewrite !length_app, length_drop.
  destruct (decide (length a <= Z.to_nat n)%nat) as [Hle|Hgt].
  { replace (length a - Z.to_nat n)%nat with 0%nat by lia. by rewrite Nat.sub_0_r. }
  destruct (decide (length b <= Z.to_nat n)%nat).
  - rewrite !drop_app_le by (rewrite ?length_drop; lia). rewrite drop_drop. do 2 f_equal. lia.
  - rewrite !drop_app_ge by (rewrite ?length_drop; lia). rewrite length_drop. f_equal. lia.
Qed.

(** [r'] is [r] after the lines [ls] were added and [acc] was left unfinished. *)
Definition received (r r' : receipt) (ls : list (list Z)) (acc : list Z) : Prop :=
  receipt_ok r' /\ rc_accum r' = acc /\ rc_max_lines r' = rc_max_lines r /\ rc_max_line_len r' = rc_max_line_len r /\
  displayed r' = last_n (rc_max_lines r) (displayed r ++ (shown <$> ls)).

Lemma max_len_bounds r : receipt_ok r -> 0 < max_len r <= 80.
Proof. intros (_ & _ & _ & _ & H & _). unfold max_len, ROD_RECEIPT_MAX_LINE in *. destruct (Z.leb_spec (rc_max_line_len r) 0); lia. Qed.

Lemma displayed_accum a t r : displayed (r <| rc_accum := a |> <| rc_accum_last_byte_ts := t |>) = displayed r.
Proof. done. Qed.

Lemma emit_received r r' ls acc : received r r' ls acc ->
  received r (emit_accum_line r') (ls ++ match acc with [] => [] | l => [l] end) [].
Proof.
  intros (Hok & Ha & Hm & Hml & Hd). unfold emit_accum_line, accum_pos. rewrite Ha.
  destruct acc as [|c acc]; cbn [length]; [by rewrite app_nil_r|].
  destruct (Z.eqb_spec (Z.of_nat (S (length acc))) 0); [lia|].
  destruct (displayed_add (c :: acc) r' Hok) as [Hok' Hd']. pose proof (max_len_bounds _ Hok).
  refine (conj _ (conj _ (conj _ (conj _ _)))); [|done|done|done|].
  - destruct Hok' as (H1 & H2 & H3 & H4 & H5 & _). refine (conj H1 (conj H2 (conj H3 (conj H4 (conj H5 _))))). unfold accum_pos. cbn. unfold max_len in *. cbn in *. lia.
  - transitivity (displayed (rod_receipt_add_line (c :: acc) r')); [done|].
    rewrite Hd', Hm, Hd, last_n_last_n, fmap_app, app_assoc. done.
Qed.

Lemma feed_byte_plain r c now : accum_pos r < max_len r -> c <> 0x0A -> c <> 0x0D ->
  feed_byte r (c, now) =
  if max_len r <=? accum_pos r + 1
  then (rod_receipt_add_line (rc_accum r ++ [c]) (r <| rc_accum_last_byte_ts := now |>)) <| rc_accum := [] |>
  else r <| rc_accum_last_byte_ts := now |> <| rc_accum := rc_accum r ++ [c] |>.
Proof.
  intros Hlt H1 H2. unfold feed_byte. rewrite (proj2 (Z.eqb_neq c 0x0A) H1), (proj2 (Z.eqb_neq c 0x0D) H2).
  set (r1 := r <| rc_accum_last_byte_ts := now |>).
  change (accum_pos r1) with (accum_pos r). change (max_len r1) with (max_len r). rewrite (proj2 (Z.ltb_lt _ _) Hlt).
  set (r2 := r1 <| rc_accum := rc_accum r1 ++ [c] |>). change (max_len r2) with (max_len r).
  assert (Hp : accum_pos r2 = accum_pos r + 1) by (unfold accum_pos; cbn; rewrite length_app; cbn; lia).
  rewrite Hp. destruct (max_len r <=? accum_pos r + 1); [|done].
  unfold emit_accum_line. rewrite Hp. destruct (Z.eqb_spec (accum_pos r + 1) 0); [unfold accum_pos in *; lia | done].
Qed.

Lemma feed_byte_received r r' ls acc c now : received r r' ls acc ->
  received r (feed_byte r' (c, now)) (acc_step (Z.to_nat (max_len r)) (ls, acc) c).1 (acc_step (Z.to_nat (max_len r)) (ls, acc) c).2.
Proof.
  intros Hr. pose proof Hr as (Hok & Ha & Hm & Hml & Hd). pose proof (max_len_bounds _ Hok) as Hb.
  set (r1 := r' <| rc_accum_last_byte_ts := now |>).
  assert (Hr1 : received r r1 ls acc) by (by refine (conj _ (conj _ (conj _ (conj _ _))))).
  assert (Hmx : max_len r' = max_len r) by (unfold max_len; by rewrite Hml).
  pose proof Hok as (O1 & O2 & O3 & O4 & O5 & O6).
  unfold acc_step. cbn [fst snd]. destruct (Z.eqb_spec c 0x0A) as [->|H1].
  { change (feed_byte r' (10, now)) with (emit_accum_line r1).
    pose proof (emit_received _ _ _ _ Hr1) as H2. destruct acc; [by rewrite app_nil_r in H2 | done]. }
  destruct (Z.eqb_spec c 0x0D) as [->|H2]; [done|].
  assert (Hlt : accum_pos r' < max_len r') by done. rewrite (feed_byte_plain r' c now Hlt H1 H2). unfold accum_pos in *. rewrite Hmx, Ha in *.
  destruct (decide (length acc < Z.to_nat (max_len r))%nat); [|lia]. cbn [fst snd]. rewrite length_app. cbn [length].
  destruct (Z.leb_spec (max_len r) (Z.of_nat (length acc) + 1)).
  - rewrite decide_True by lia.
    destruct (displayed_add (acc ++ [c]) r1 ltac:(by destruct Hr1)) as [(P1 & P2 & P3 & P4 & P5 & _) Hd'].
    assert (Hgoal : received r ((rod_receipt_add_line (acc ++ [c]) r1) <| rc_accum := [] |>) (ls ++ [acc ++ [c]]) []).
    { refine (conj (conj P1 (conj P2 (conj P3 (conj P4 (conj P5 _))))) (conj _ (conj _ (conj _ _)))); [|done|done|done|].
      - change (0 < max_len r'). rewrite Hmx. lia.
      - transitivity (displayed (rod_receipt_add_line (acc ++ [c]) r1)); [done|].
        rewrite Hd'. change (rc_max_lines r1) with (rc_max_lines r'). change (displayed r1) with (displayed r').
        rewrite Hm, Hd, last_n_last_n, fmap_app, app_assoc. done. }
    revert Hgoal. destruct (acc ++ [c]) as [|c0 l0] eqn:El; [by destruct acc | done].
  - rewrite decide_False by lia. cbn [fst snd]. refine (conj (conj O1 (conj O2 (conj O3 (conj O4 (conj O5 _))))) (conj _ (conj _ (conj _ _)))); [|done..].
    change (Z.of_nat (length (acc ++ [c])) < max_len r'). rewrite Hmx, length_app. cbn [length]. lia.
Qed.

(** C25: Whatever arrives on a receipt's input, in whatever pieces the reads give
    it, the receipt shows the newest lines of the text: from an empty accumulator,
    after any bytes, what is displayed is the last [max_lines] of the lines that
    were there followed by the input's - carriage returns dropped, split at the
    newlines, each line cut at the maximal length, empty lines left out - and the
    accumulator holds the unfinished rest, never more than the buffer takes. *)
Theorem rod_receipt_shows_newest r (data : list (Z * Z)) :
  receipt_ok r -> rc_accum r = [] ->
  let r' := rod_receipt_feed_bytes data r in
  let n := Z.to_nat (max_len r) in
  displayed r' = last_n (rc_max_lines r) (displayed r ++ (shown <$> stream_lines n data.*1)) /\
  rc_accum r' = stream_rest n data.*1 /\ accum_pos r' < max_len r' <= ROD_RECEIPT_MAX_LINE /\ receipt_ok r'.
Proof.
  intros Hok Ha r' n. pose proof (max_len_bounds _ Hok) as Hb.
  assert (Hr : received r r' (stream_lines n data.*1) (stream_rest n data.*1)).
  { subst r'. unfold rod_receipt_feed_bytes. induction data as [|[c now] data IH] using rev_ind.
    - refine (conj Hok (conj _ (conj eq_refl (conj eq_refl _)))).
      + cbn [fold_left]. rewrite Ha. symmetry. apply leftover_nil.
      + unfold stream_lines. cbn. rewrite full_nil. cbn. rewrite app_nil_r. unfold last_n.
        destruct Hok as (_ & _ & Hc & _). unfold displayed. rewrite length_fmap. unfold range. rewrite length_seqZ.
        replace (Z.to_nat (rc_count r - 0) - Z.to_nat (rc_max_lines r))%nat with 0%nat by lia. done.
    - rewrite fold_left_app, fmap_app. cbn [fmap list_fmap fold_left fst].
      pose proof (stream_snoc n data.*1 c ltac:(lia)) as Hs.
      pose proof (feed_byte_received _ _ _ _ c now IH) as Hf. fold n in Hf. rewrite <- Hs in Hf. done. }
  destruct Hr as (Hok' & Ha' & _ & _ & Hd). split_and!; [done..| | by apply max_len_bounds | done]. by destruct Hok' as (_ & _ & _ & _ & _ & ?).
Qed.

Lemma rod_receipt_shows_newest_witness :
  exists r', r' = rod_receipt_feed_bytes ((fun c => (c, 7)) <$> [0x41; 0x0D; 0x0A; 0x0A; 0x42; 0x43; 0x44; 0x0A; 0x45])
      (receipt0 <| rc_max_lines := 2 |> <| rc_max_line_len := 2 |>) /\
    displayed r' = [[0x42; 0x43]; [0x44]] /\ rc_accum r' = [0x45].
Proof.
  eexists. split; [reflexivity|].
  destruct (rod_receipt_shows_newest (receipt0 <| rc_max_lines := 2 |> <| rc_max_line_len := 2 |>)
    ((fun c => (c, 7)) <$> [0x41; 0x0D; 0x0A; 0x0A; 0x42; 0x43; 0x44; 0x0A; 0x45])) as (Hd & Ha & _); [|done|].
  - unfold receipt_ok, ROD_RECEIPT_MAX_LINES, ROD_RECEIPT_MAX_LINE, accum_pos, max_len. cbn. split_and!; done || lia.
  - split; [rewrite Hd | rewrite Ha]; vm_compute; reflexivity.
Defined.

(** ** The picture of a receipt *)

Section Picture.
Context (f : rod_font) (bw bh align col scol ssz : Z).

(** One line on its own rows. *)
Definition line_rows (line : list Z) : list Z :=
  default [] (rod_draw_text f bw (line_height f) line align col scol ssz (replicate (Z.to_nat (bw * line_height f * 4)) 0)).

Lemma line_height_pos : 0 < line_height f.
Proof. unfold line_height. destruct (Z.leb_spec (f_text_height f) 0); lia. Qed.

Lemma draw_text_rows line b : 0 <= bw -> font_ok f -> length b = Z.to_nat (bw * line_height f * 4) ->
  rod_draw_text f bw (line_height f) line align col scol ssz b = Some (line_rows line) /\
  length (line_rows line) = Z.to_nat (bw * line_height f * 4).
Proof.
  intros Hw Hf Hl. pose proof line_height_pos.
  assert (He : rod_draw_text f bw (line_height f) line align col scol ssz b =
    rod_draw_text f bw (line_height f) line align col scol ssz (replicate (Z.to_nat (bw * line_height f * 4)) 0)).
  { unfold rod_draw_text, clear. by rewrite length_replicate, Hl. }
  destruct (rod_draw_text_ok f bw (line_height f) line align col scol ssz b) as (b' & Hb & Hs & _); [unfold sized; nia | done |].
  unfold line_rows. rewrite <- He, Hb. cbn. split; [done|]. destruct Hs as (_ & _ & Hs). nia.
Qed.

(** The loop on the lines themselves. *)
Definition line_step (line : list Z) (s : Z * list Z) : option (Z * list Z) :=
  let '(y, buf) := s in
  if negb (y + line_height f <=? bh) then Some s
  else match line with
  | [] => Some s
  | _ => buf ← draw_rows f bw y (line_height f) line align col scol ssz buf; Some (y + line_height f, buf)
  end.

Lemma line_step_eq line y buf : line_step line (y, buf) =
  if negb (y + line_height f <=? bh) then Some (y, buf)
  else match line with
  | [] => Some (y, buf)
  | _ => buf ← draw_rows f bw y (line_height f) line align col scol ssz buf; Some (y + line_height f, buf)
  end.
Proof. done. Qed.

Lemma fold_lines r l s : fold_opt (draw_line f bw bh r align col scol ssz) l s = fold_opt line_step (receipt_line r <$> l) s.
Proof.
  revert s. induction l as [|i l IH]; intros [y b]; [done|]. cbn [fold_opt fmap list_fmap].
  assert (He : draw_line f bw bh r align col scol ssz i (y, b) = line_step (receipt_line r i) (y, b))
    by (unfold draw_line, line_step; by destruct (receipt_line r i)).
  rewrite He. destruct (line_step _ _); cbn; [apply IH | done].
Qed.

Lemma lines_drawn base (done ls : list (list Z)) :
  sized bw bh base -> font_ok f -> Z.of_nat (length done) * line_height f <= bh ->
  let room := (Z.to_nat (bh / line_height f) - length done)%nat in
  let drawn := done ++ take room (filter (fun l => l <> []) ls) in
  fold_opt line_step ls (Z.of_nat (length done) * line_height f,
      concat (line_rows <$> done) ++ drop (length done * Z.to_nat (bw * line_height f * 4)) base) =
    Some (Z.of_nat (length drawn) * line_height f,
      concat (line_rows <$> drawn) ++ drop (length drawn * Z.to_nat (bw * line_height f * 4)) base).
Proof.
  intros Hs Hf. pose proof line_height_pos as Hh. set (h := line_height f) in *. set (n := Z.to_nat (bw * h * 4)).
  destruct Hs as (Hw & Hbh & Hlen). revert done. induction ls as [|line ls IH]; intros done Hd; cbn zeta.
  { cbn [fold_opt]. rewrite filter_nil, take_nil, app_nil_r. done. }
  cbn [fold_opt]. rewrite line_step_eq. fold h.
  assert (Hq : bh / h * h <= bh < (bh / h + 1) * h).
  { pose proof (Z.mul_div_le bh h ltac:(lia)). pose proof (Z.mul_succ_div_gt bh h ltac:(lia)). lia. }
  destruct (Z.leb_spec (Z.of_nat (length done) * h + h) bh) as [Hle|Hgt]; cbn [negb].
  - destruct line as [|c line]; [cbn [mbind option_bind]; rewrite filter_cons_False by auto; by apply IH|].
    rewrite filter_cons_True by done.
    assert (Hdl : length (concat (line_rows <$> done)) = (length done * n)%nat).
    { clear -Hw Hf. induction done as [|l d IHd]; [done|]. cbn. rewrite length_app, IHd.
      destruct (draw_text_rows l (replicate n 0)) as [_ ->]; [done..|by rewrite length_replicate | done]. }
    assert (Ho : Z.to_nat (Z.of_nat (length done) * h * bw * 4) = (length done * n)%nat) by (unfold n; nia).
    assert (Hroom : ((length done + 1) * n <= length base)%nat) by (unfold n; nia).
    unfold draw_rows. fold n. rewrite Ho.
    rewrite decide_True by (rewrite length_app, length_drop, Hdl; lia).
    rewrite (drop_app_length' _ _ (length done * n)), (take_app_length' _ _ (length done * n)) by lia.
    destruct (draw_text_rows (c :: line) (take n (drop (length done * n) base))) as [He _]; [done..|rewrite length_take, length_drop; fold h n; lia|].
    fold h in He. rewrite He. cbn [mbind option_bind].
    specialize (IH (done ++ [c :: line])). rewrite length_app in IH. cbn [length] in IH. cbv zeta in IH.
    replace (Z.of_nat (length done) * h + h) with (Z.of_nat (length done + 1) * h) by lia.
    assert (Hb : concat (line_rows <$> done) ++ line_rows (c :: line) ++ drop (length done * n + n) (concat (line_rows <$> done) ++ drop (length done * n) base) =
      concat (line_rows <$> done ++ [c :: line]) ++ drop ((length done + 1) * n) base).
    { rewrite fmap_app, concat_app. cbn [fmap list_fmap concat]. rewrite app_nil_r, <- app_assoc. do 2 f_equal.
      rewrite drop_app_ge by lia. rewrite drop_drop, Hdl. f_equal. lia. }
    rewrite Hb, IH by lia.
    assert (Hr : (Z.to_nat (bh / h) - length done = S (Z.to_nat (bh / h) - (length done + 1)))%nat) by nia.
    rewrite Hr. cbn [take]. by rewrite <- app_assoc.
  - assert (Hr : (Z.to_nat (bh / h) - length done = 0)%nat) by nia. cbn [mbind option_bind].
    specialize (IH done Hd). cbv zeta in IH. rewrite Hr in *. rewrite !take_0 in *. exact IH.
Qed.

End Picture.

Lemma filter_nonempty (ls : list (list Z)) : Forall (fun l => l <> []) ls -> filter (fun l => l <> []) ls = ls.
Proof. induction 1 as [|l ls Hl _ IH]; [done|]. rewrite filter_cons_True by done. by rewrite IH. Qed.

Lemma fill_background_length bw bh lh r buf :
  sized bw bh buf -> length (fill_background bw bh lh r buf) = length buf.
Proof.
  intros (Hw & Hh & Hl). unfold fill_background. destruct (rc_bg_color r =? 0); [done|]. cbv zeta.
  set (n := Z.to_nat _). assert (4 * n <= length buf)%nat.
  { subst n. destruct (Z.ltb_spec bh (u32 (rc_count r * lh))); [nia|].
    pose proof (uwrap_range 32 (rc_count r * lh) ltac:(lia)) as [? _]. nia. }
  rewrite length_app, length_drop. assert (length (concat (replicate n (bgra (rc_bg_color r)))) = 4 * n)%nat; [|lia].
  clear. induction n as [|n IH]; [done|]. cbn [replicate concat]. rewrite length_app, IH, bgra_length. lia.
Qed.

(** The picture of a receipt is its lines stacked from the oldest down, each
    drawn on rows of its own, as many as fit, over the background; drawing never
    leaves the buffer.  The rows of a line are cleared before it is drawn, so when
    every line shows and fits - the normal case - the picture is the lines over
    transparent pixels and the configured background colour is nowhere on it. *)
Theorem rod_receipt_picture f bw bh r align col scol ssz buf :
  sized bw bh buf -> font_ok f -> receipt_ok r -> 0 < rc_count r ->
  let n := Z.to_nat (bw * line_height f * 4) in
  let drawn := take (Z.to_nat (bh / line_height f)) (filter (fun l => l <> []) (displayed r)) in
  let rows := line_rows f bw align col scol ssz in
  let out := concat (rows <$> drawn) ++ drop (length drawn * n) (fill_background bw bh (line_height f) r (clear buf)) in
  rod_render_receipt f bw bh r align col scol ssz buf = Some out /\ length out = length buf /\
  (Forall (fun l => l <> []) (displayed r) -> rc_count r * line_height f <= bh -> rc_count r * line_height f < 2 ^ 32 ->
   out = concat (rows <$> displayed r) ++ replicate (length buf - length (displayed r) * n) 0).
Proof.
  intros Hs Hf Hok Hc n drawn rows out. pose proof (line_height_pos f) as Hh. destruct Hs as (Hw & Hbh & Hl).
  assert (Hsb : sized bw bh (fill_background bw bh (line_height f) r (clear buf))).
  { unfold sized. rewrite fill_background_length by (unfold sized, clear; rewrite length_replicate; lia).
    unfold clear. rewrite length_replicate. lia. }
  assert (Hrow : forall l, length (rows l) = n).
  { intros l. destruct (draw_text_rows f bw align col scol ssz l (replicate n 0)) as [_ H]; [done..|by rewrite length_replicate|exact H]. }
  assert (Hcat : forall ls : list (list Z), length (concat (rows <$> ls)) = (length ls * n)%nat).
  { induction ls as [|l ls IH]; [done|]. cbn. by rewrite length_app, IH, Hrow. }
  assert (Hdl : (length drawn * n <= length buf)%nat).
  { unfold drawn. rewrite length_take. assert (length drawn <= Z.to_nat (bh / line_height f))%nat by (unfold drawn; rewrite length_take; lia).
    pose proof (Z.mul_div_le bh (line_height f) ltac:(lia)). unfold drawn in *. rewrite length_take in *. subst n.
    assert (0 <= bh / line_height f) by (apply Z.div_pos; lia). nia. }
  split_and!.
  - unfold rod_render_receipt. destruct (Z.eqb_spec (rc_count r) 0); [lia|]. rewrite fold_lines.
    pose proof (lines_drawn f bw bh align col scol ssz _ [] (receipt_line r <$> range 0 (rc_count r)) Hsb Hf ltac:(cbn; lia)) as Hd.
    cbn zeta in Hd. cbn [length fmap list_fmap concat app] in Hd. rewrite Z.mul_0_l, Nat.mul_0_l, drop_0, Nat.sub_0_r in Hd.
    rewrite Hd. done.
  - unfold out. rewrite length_app, Hcat, length_drop. destruct Hsb as (_ & _ & Hsb). lia.
  - intros Hne Hfit H32.
    assert (Hlen : Z.of_nat (length (displayed r)) = rc_count r).
    { unfold displayed, range. rewrite length_fmap, length_seqZ. lia. }
    assert (Hdr : drawn = displayed r).
    { unfold drawn. rewrite filter_nonempty by done. apply take_ge. apply Nat2Z.inj_le. rewrite Hlen.
      assert (rc_count r <= bh / line_height f) by (apply Z.div_le_lower_bound; lia). lia. }
    unfold out. rewrite Hdr in *. f_equal. unfold fill_background. destruct (rc_bg_color r =? 0).
    { unfold clear. apply drop_replicate. }
    cbv zeta. rewrite (uwrap_id 32) by (unfold in_u; nia). destruct (Z.ltb_spec bh (rc_count r * line_height f)); [lia|].
    set (m := Z.to_nat (bw * (rc_count r * line_height f))).
    assert (Hm : (length (displayed r) * n = 4 * m)%nat) by (subst n m; nia).
    assert (Hcm : length (concat (replicate m (bgra (rc_bg_color r)))) = (4 * m)%nat).
    { clear. induction m as [|m IH]; [done|]. cbn [replicate concat]. rewrite length_app, IH, bgra_length. lia. }
    rewrite Hm, drop_app_length' by done. unfold clear. apply drop_replicate.
Qed.

Lemma rod_receipt_picture_witness :
  exists out, rod_render_receipt toy_font 4 22 (rod_receipt_add_line [0x21] (receipt0 <| rc_max_lines := 2 |> <| rc_bg_color := 0x80000000 |>))
      0 0xFFFFFFFF 0 0 (replicate 352 5) = Some out /\ length out = 352%nat /\ Forall (fun b => b <> 0x80) (drop 160 out).
Proof.
  set (r := rod_receipt_add_line [0x21] (receipt0 <| rc_max_lines := 2 |> <| rc_bg_color := 0x80000000 |>)).
  destruct (rod_receipt_picture toy_font 4 22 r 0 0xFFFFFFFF 0 0 (replicate 352 5)) as (He & Hl & Hb).
  - unfold sized. rewrite length_replicate. lia.
  - exact toy_font_ok.
  - unfold receipt_ok, ROD_RECEIPT_MAX_LINES, ROD_RECEIPT_MAX_LINE, accum_pos, max_len. cbn. split_and!; done || lia.
  - done.
  - eexists. split; [exact He|]. split; [rewrite Hl; apply length_replicate|]. rewrite Hb.
    + rewrite length_replicate. vm_compute. repeat constructor; discriminate.
    + vm_compute. repeat constructor; discriminate.
    + vm_compute. discriminate.
    + vm_compute. reflexivity.
Defined.
