(* ===== verification/RodTemplate.v ===== *)
(** * rod: template expansion (rod/rod_template.c)

    The variables of a text element and the caches behind them.  What the code
    asks the system for - the clock, the route table, the addresses, the uptime,
    rvd's answer, the sysfs files, [strftime] - is a parameter, [tmpl_env], whose
    answers may differ from one clock reading to the next. *)

From Stdlib Require Import String.
From stdpp Require Import list.
From S2P Require Import Prelude Mux RtmpUrl RodReceipt.

Definition percent : Z := 0x25.

(** A C string constant. *)
Abbreviation cs := fourcc.

(** [%d], [%u] and [%02d]. *)
Definition show_int (n : Z) : list Z :=
  if n =? 0 then [0x30] else if n <? 0 then 0x2D :: print_dec 20 (- n) else print_dec 20 n.

Definition show_02d (n : Z) : list Z := if (0 <=? n) && (n <? 10) then 0x30 :: show_int n else show_int n.

(** ** The system *)

Record ifaddr := mk_ifaddr { ifa_name : list Z; ifa_has_addr : bool; ifa_loopback : bool; ifa_addr : Z * bool * list Z }.

Definition AF_INET : Z := 2.
Definition AF_INET6 : Z := 10.

(** A route line is what [sscanf] read from it, if both fields; an address is its
    family, whether it is link-local, and its text. *)
Record tmpl_env := mk_env {
  te_clock : nat -> Z;
  te_route : nat -> option (list (option (list Z * Z)));
  te_ifaddrs : nat -> option (list ifaddr);
  te_uptime : nat -> option Z;
  te_exposure : nat -> option (Z * Z);
  te_temp_files : nat -> list (option (list Z));
  te_nsec : nat -> Z;
  te_strftime : nat -> list Z -> list Z
}.

(** The cached part of rod_state_t; [m_reads] counts the clock readings and
    [m_queries] lists the questions put to rvd, newest first, with their outcome. *)
Record rod_mon := mk_mon {
  m_hostname : list Z; m_ip : list Z; m_ip6 : list Z; m_ip_refresh_ts : Z;
  m_exp_ae_luma : Z; m_exp_total_gain : Z; m_exp_refresh_ts : Z; m_exp_reachable : bool;
  m_soc_temp : Z; m_soc_temp_valid : bool; m_soc_temp_refresh_ts : Z;
  m_reads : nat; m_queries : list (Z * bool)
}.

#[export] Instance eta_rod_mon : Settable rod_mon := fun x =>
  mk_mon (m_hostname x) (m_ip x) (m_ip6 x) (m_ip_refresh_ts x) (m_exp_ae_luma x) (m_exp_total_gain x) (m_exp_refresh_ts x)
    (m_exp_reachable x) (m_soc_temp x) (m_soc_temp_valid x) (m_soc_temp_refresh_ts x) (m_reads x) (m_queries x).

Definition mon0 (hostname : list Z) : rod_mon := mk_mon hostname [] [] 0 0 0 0 false 0 false 0 0 [].

Section Env.
Context (env : tmpl_env).

Definition rss_timestamp_us (m : rod_mon) : Z * rod_mon := (te_clock env (m_reads m), m <| m_reads := S (m_reads m) |>).

(** ** Addresses *)

Definition resolve_default_iface (n : nat) : list Z :=
  match te_route env n with
  | None => []
  | Some lines =>
      match list_find (fun l : option (list Z * Z) => snd <$> l = Some 0) lines with
      | Some (_, Some (iface, _)) => strlcpy 16 iface
      | _ => []
      end
  end.

Definition note_addr (iface : list Z) (a : ifaddr) (s : list Z * list Z) : list Z * list Z :=
  let '(ip, ip6) := s in
  if match ip, ip6 with [], _ | _, [] => false | _, _ => true end then s
  else if negb (ifa_has_addr a) || ifa_loopback a then s
  else if negb match iface with [] => true | _ => bool_decide (ifa_name a = iface) end then s
  else
    let '(family, linklocal, text) := ifa_addr a in
    if (family =? AF_INET) && match ip with [] => true | _ => false end then (text, ip6)
    else if (family =? AF_INET6) && match ip6 with [] => true | _ => false end then
      (if linklocal then s else (ip, text))
    else s.

Definition refresh_ip_addrs (m : rod_mon) : rod_mon :=
  let '(now, m) := rss_timestamp_us m in
  if negb (m_ip_refresh_ts m =? 0) && (now - m_ip_refresh_ts m <? 60000000) then m
  else
    let m := m <| m_ip_refresh_ts := now |> in
    let iface := resolve_default_iface (m_reads m) in
    let m := m <| m_ip := [] |> <| m_ip6 := [] |> in
    match te_ifaddrs env (m_reads m) with
    | None => m
    | Some l =>
        let '(ip, ip6) := fold_left (fun s a => note_addr iface a s) l ([], []) in
        m <| m_ip := ip |> <| m_ip6 := ip6 |>
    end.

(** ** Uptime *)

Definition format_uptime (n : nat) : list Z :=
  match te_uptime env n with
  | None => cs "Up: ?"
  | Some sec =>
      let days := Z.quot sec 86400 in
      let hours := Z.quot (Z.rem sec 86400) 3600 in
      let mins := Z.quot (Z.rem sec 3600) 60 in
      let secs := Z.rem sec 60 in
      let ms := show_int mins ++ cs "m " ++ show_int secs ++ cs "s" in
      if 0 <? days then show_int days ++ cs "d " ++ show_int hours ++ cs "h " ++ ms
      else if 0 <? hours then show_int hours ++ cs "h " ++ ms
      else ms
  end.

(** ** Exposure *)

Definition ROD_EXPOSURE_TTL_US : Z := 900000.
Definition ROD_EXPOSURE_BACKOFF_US : Z := 5000000.

Definition refresh_exposure (m : rod_mon) : rod_mon :=
  let '(now, m) := rss_timestamp_us m in
  let ttl := if m_exp_reachable m then ROD_EXPOSURE_TTL_US else ROD_EXPOSURE_BACKOFF_US in
  if negb (m_exp_refresh_ts m =? 0) && (now - m_exp_refresh_ts m <? ttl) then m
  else
    let m := m <| m_exp_refresh_ts := now |> in
    match te_exposure env (m_reads m) with
    | None => m <| m_exp_reachable := false |> <| m_exp_ae_luma := 0 |> <| m_exp_total_gain := 0 |>
                <| m_queries := (now, false) :: m_queries m |>
    | Some (luma, gain) =>
        m <| m_exp_reachable := true |> <| m_exp_ae_luma := if 0 <? luma then u32 luma else 0 |>
          <| m_exp_total_gain := if 0 <? gain then u32 gain else 0 |> <| m_queries := (now, true) :: m_queries m |>
    end.

(** ** Chip temperature *)

Definition ROD_SOC_TEMP_TTL_US : Z := 2000000.

(** The scan for the first digit or minus sign; the text ends at a terminator. *)
Fixpoint skip_label (p : list Z) : list Z :=
  match p with
  | [] => []
  | c :: p' => if (c =? 0) || (c =? 0x2D) || is_digit c then p else skip_label p'
  end.

Definition parse_soc_temp (buf : list Z) : option Z :=
  match skip_label buf with
  | [] => None
  | c :: rest =>
      if c =? 0 then None
      else if (c =? 0x2D) && negb match rest with d :: _ => is_digit d | [] => false end then None
      else
        let v := strtol (c :: rest) in
        let v := if (1000 <? v) || (v <? - 1000) then Z.quot v 1000 else v in
        Some (s32 v)
  end.

Fixpoint read_temp (files : list (option (list Z))) : option Z :=
  match files with
  | [] => None
  | None :: files => read_temp files
  | Some data :: files =>
      match take 63 data with
      | [] => read_temp files
      | buf => match parse_soc_temp buf with Some t => Some t | None => read_temp files end
      end
  end.

Definition refresh_soc_temp (m : rod_mon) : rod_mon :=
  let '(now, m) := rss_timestamp_us m in
  if negb (m_soc_temp_refresh_ts m =? 0) && (now - m_soc_temp_refresh_ts m <? ROD_SOC_TEMP_TTL_US) then m
  else
    let m := m <| m_soc_temp_refresh_ts := now |> <| m_soc_temp_valid := false |> in
    match read_temp (te_temp_files env (m_reads m)) with
    | Some t => m <| m_soc_temp := t |> <| m_soc_temp_valid := true |>
    | None => m
    end.

(** ** Expansion *)

(** [strstr(fmt, PERCENT f)] replaced in place by the first two characters of the frame. *)
Fixpoint put_frame (fn : list Z) (fmt : list Z) : list Z :=
  match fmt with
  | a :: (b :: fmt') as rest => if (a =? percent) && (b =? 0x66) then take 2 fn ++ fmt' else a :: put_frame fn rest
  | _ => fmt
  end.

Definition frame_of (nsec fps : Z) : Z :=
  let frame := s32 (Z.quot (nsec * fps) 1000000000) in
  if fps <=? frame then fps - 1 else frame.

Definition time_text (time_format : list Z) (frame_rate : Z) (n : nat) : list Z :=
  let fmt := strlcpy 64 time_format in
  te_strftime env n (put_frame (show_02d (frame_of (te_nsec env n) frame_rate)) fmt).

Definition dashes : list Z := cs "--".

(** The value of a variable: [val], a buffer of 128 bytes. *)
Definition variable (time_format : list Z) (frame_rate : Z) (vars : list (list Z * list Z)) (name : list Z) (m : rod_mon) :
  rod_mon * list Z :=
  let cut := strlcpy 128 in
  if bool_decide (name = cs "time") then (m, cut (time_text time_format frame_rate (m_reads m)))
  else if bool_decide (name = cs "uptime") then (m, cut (format_uptime (m_reads m)))
  else if bool_decide (name = cs "hostname") then (m, cut (m_hostname m))
  else if bool_decide (name = cs "ip") then let m := refresh_ip_addrs m in (m, cut (m_ip m))
  else if bool_decide (name = cs "ip6") then let m := refresh_ip_addrs m in (m, cut (m_ip6 m))
  else if bool_decide (name = cs "ae_luma") then
    let m := refresh_exposure m in (m, if m_exp_ae_luma m =? 0 then dashes else show_int (m_exp_ae_luma m))
  else if bool_decide (name = cs "total_gain") then
    let m := refresh_exposure m in (m, if m_exp_total_gain m =? 0 then dashes else show_int (m_exp_total_gain m))
  else if bool_decide (name = cs "soc_temp") then
    let m := refresh_soc_temp m in (m, if m_soc_temp_valid m then show_int (m_soc_temp m) else dashes)
  else (m, match list_find (fun v : list Z * list Z => v.1 = name) vars with Some (_, v) => cut v.2 | None => [] end).

(** The loop of rod_expand_template; [out] is what has been written. *)
Fixpoint expand_loop (fuel : nat) (time_format : list Z) (frame_rate : Z) (vars : list (list Z * list Z)) (out_size : Z)
    (p : list Z) (m : rod_mon) (out : list Z) : rod_mon * list Z :=
  match fuel with
  | O => (m, out)
  | S fuel =>
      let loop := expand_loop fuel time_format frame_rate vars out_size in
      match p with
      | [] => (m, out)
      | c :: rest =>
          if negb (Z.of_nat (length out) <? out_size - 1) then (m, out)
          else if negb (c =? percent) then loop rest m (out ++ [c])
          else match strchr rest percent with
          | None => loop rest m (out ++ [c])
          | Some (name, after) =>
              let vlen := Z.of_nat (length name) in
              if (vlen <=? 0) || (31 <? vlen) then loop rest m (out ++ [c])
              else
                let '(m, val) := variable time_format frame_rate vars name m in
                let out := if Z.of_nat (length out) + Z.of_nat (length val) <? out_size then out ++ val else out in
                loop after m out
          end
      end
  end.

Definition rod_expand_template (time_format : list Z) (frame_rate : Z) (vars : list (list Z * list Z)) (out_size : Z)
    (tmpl : list Z) (m : rod_mon) : rod_mon * list Z :=
  expand_loop (length (cstr tmpl)) time_format frame_rate vars out_size (cstr tmpl) m [].

(** ** A template is read back as it was written *)

(** Text, or a variable between two percent signs. *)
Inductive segment := Lit (l : list Z) | Var (name : list Z).

Definition segment_ok (s : segment) : Prop :=
  match s with
  | Lit l => percent ∉ l /\ 0 ∉ l
  | Var name => percent ∉ name /\ 0 ∉ name /\ (1 <= length name <= 31)%nat
  end.

#[global] Instance segment_ok_dec s : Decision (segment_ok s).
Proof. destruct s; cbn; apply _. Defined.

Definition print_segment (s : segment) : list Z :=
  match s with Lit l => l | Var name => percent :: name ++ [percent] end.

Section Expansion.
Context (time_format : list Z) (frame_rate : Z) (vars : list (list Z * list Z)) (out_size : Z).

(** Text is cut at the buffer; a value that does not fit is left out whole. *)
Definition render_segment (mo : rod_mon * list Z) (s : segment) : rod_mon * list Z :=
  let '(m, out) := mo in
  match s with
  | Lit l => (m, take (Z.to_nat (out_size - 1)) (out ++ l))
  | Var name =>
      if Z.of_nat (length out) <? out_size - 1 then
        let '(m, val) := variable time_format frame_rate vars name m in
        (m, if Z.of_nat (length out) + Z.of_nat (length val) <? out_size then out ++ val else out)
      else (m, out)
  end.

Abbreviation loop := (fun fuel => expand_loop fuel time_format frame_rate vars out_size).

Lemma loop_full fuel p m out : out_size - 1 <= Z.of_nat (length out) -> loop fuel p m out = (m, out).
Proof. intros H. destruct fuel as [|fuel]; [done|]. destruct p as [|c p]; [done|]. cbn. destruct (Z.ltb_spec (Z.of_nat (length out)) (out_size - 1)); [lia | done]. Qed.

Lemma loop_lit fuel l p m out : percent ∉ l -> (length out <= Z.to_nat (out_size - 1))%nat ->
  loop (length l + fuel)%nat (l ++ p) m out = loop fuel p m (take (Z.to_nat (out_size - 1)) (out ++ l)).
Proof.
  revert out. induction l as [|c l IH]; intros out Hp Hle; cbn [length app Nat.add].
  { rewrite app_nil_r, take_ge by done. done. }
  destruct (Z.lt_ge_cases (Z.of_nat (length out)) (out_size - 1)) as [Hlt|Hge].
  - cbn [expand_loop]. rewrite (proj2 (Z.ltb_lt _ _) Hlt). cbn [negb].
    destruct (Z.eqb_spec c percent) as [->|]; [by destruct Hp; left|]. cbn [negb].
    rewrite IH; [by rewrite <- app_assoc | intros ?; apply Hp; by right | rewrite length_app; cbn; lia].
  - rewrite loop_full by done. rewrite take_app_le by lia. rewrite take_ge by lia. by rewrite loop_full.
Qed.

Lemma render_le segs m out : (length out <= Z.to_nat (out_size - 1))%nat ->
  (length (fold_left render_segment segs (m, out)).2 <= Z.to_nat (out_size - 1))%nat.
Proof.
  revert m out. induction segs as [|s segs IH]; intros m out Hle; [done|]. cbn [fold_left]. destruct s as [l|name]; cbn [render_segment].
  - apply IH. rewrite length_take. lia.
  - destruct (Z.ltb_spec (Z.of_nat (length out)) (out_size - 1)); [|by apply IH].
    destruct (variable time_format frame_rate vars name m) as [m' val]. apply IH.
    destruct (Z.ltb_spec (Z.of_nat (length out) + Z.of_nat (length val)) out_size); [rewrite length_app; lia | done].
Qed.

Lemma loop_segments segs fuel m out : Forall segment_ok segs -> (length out <= Z.to_nat (out_size - 1))%nat ->
  (length (concat (print_segment <$> segs)) <= fuel)%nat ->
  loop fuel (concat (print_segment <$> segs)) m out = fold_left render_segment segs (m, out).
Proof.
  intros Hok. revert fuel m out. induction Hok as [|s segs Hs Hok IH]; intros fuel m out Hle Hf; [by destruct fuel|].
  cbn [fmap list_fmap concat fold_left] in *. rewrite length_app in Hf. destruct s as [l|name]; cbn [print_segment render_segment] in *.
  - destruct Hs as [Hp _]. replace fuel with (length l + (fuel - length l))%nat by lia. rewrite loop_lit by done.
    apply IH; [rewrite length_take; lia | lia].
  - destruct Hs as (Hp & _ & Hlen). cbn [length] in Hf. rewrite length_app in Hf. cbn [length] in Hf.
    destruct fuel as [|fuel]; [lia|]. cbn [app expand_loop].
    destruct (Z.ltb_spec (Z.of_nat (length out)) (out_size - 1)); cbn [negb].
    + rewrite Z.eqb_refl. cbn [negb]. rewrite <- app_assoc. cbn [app]. rewrite strchr_app by done.
      replace ((Z.of_nat (length name) <=? 0) || (31 <? Z.of_nat (length name))) with false
        by (symmetry; rewrite orb_false_iff, Z.leb_gt, Z.ltb_ge; lia).
      destruct (variable time_format frame_rate vars name m) as [m' val]. apply IH; [|lia].
      destruct (Z.ltb_spec (Z.of_nat (length out) + Z.of_nat (length val)) out_size); [rewrite length_app; lia | done].
    + clear -H IH Hle. specialize (IH 0%nat). revert IH. generalize (concat (print_segment <$> segs)). intros p _.
      assert (Hskip : forall segs m, fold_left render_segment segs (m, out) = (m, out)).
      { clear segs m. induction segs as [|s segs IHs]; intros m; [done|]. cbn [fold_left].
        assert (render_segment (m, out) s = (m, out)) as ->; [|apply IHs]. destruct s; cbn.
        - rewrite take_app_le by lia. by rewrite take_ge by lia.
        - destruct (Z.ltb_spec (Z.of_nat (length out)) (out_size - 1)); [lia | done]. }
      symmetry. apply Hskip.
Qed.

Lemma cstr_id l : 0 ∉ l -> cstr l = l.
Proof.
  induction l as [|c l IH]; intros H; [done|]. cbn. destruct (Z.eqb_spec c 0) as [->|]; [destruct H; by left|].
  f_equal. apply IH. intros ?. apply H. by right.
Qed.

(** C24: A template does what it says: written as any sequence of plain text and
    variables of up to 31 characters between percent signs, it expands to the text
    and the values in order, text being cut at the end of the buffer and a value
    that does not fit being left out whole, and the result and its terminator
    always fit the buffer. *)
Theorem rod_template_expands segs m :
  Forall segment_ok segs -> 1 <= out_size ->
  rod_expand_template time_format frame_rate vars out_size (concat (print_segment <$> segs)) m =
    fold_left render_segment segs (m, []) /\
  Z.of_nat (length (fold_left render_segment segs (m, [])).2) + 1 <= out_size.
Proof.
  intros Hok Hsz. split.
  - unfold rod_expand_template. rewrite cstr_id.
    + apply loop_segments; [done | cbn; lia | done].
    + clear -Hok. induction Hok as [|s segs Hs _ IH]; cbn; [intros H; by apply not_elem_of_nil in H|]. rewrite elem_of_app. intros [H|H]; [|done].
      destruct s; cbn in *; [naive_solver|]. destruct Hs as (? & ? & _). rewrite elem_of_cons, elem_of_app, list_elem_of_singleton in H.
      unfold percent in *. destruct H as [H|[H|H]]; [lia | done | lia].
  - pose proof (render_le segs m [] ltac:(cbn; lia)). lia.
Qed.

Lemma loop_bounded fuel p m out : (length out <= Z.to_nat (out_size - 1))%nat ->
  (length (loop fuel p m out).2 <= Z.to_nat (out_size - 1))%nat.
Proof.
  revert p m out. induction fuel as [|fuel IH]; intros p m out Hle; [done|]. cbn [expand_loop]. destruct p as [|c rest]; [done|].
  destruct (Z.ltb_spec (Z.of_nat (length out)) (out_size - 1)); cbn [negb]; [|done].
  assert (Hc : forall p, (length (loop fuel p m (out ++ [c])).2 <= Z.to_nat (out_size - 1))%nat) by (intros; apply IH; rewrite length_app; cbn; lia).
  destruct (negb (c =? percent)); [apply Hc|]. destruct (strchr rest percent) as [[name after]|]; [|apply Hc].
  destruct (_ || _); [apply Hc|]. destruct (variable time_format frame_rate vars name m) as [m' val]. apply IH.
  destruct (Z.ltb_spec (Z.of_nat (length out) + Z.of_nat (length val)) out_size); [rewrite length_app; lia | done].
Qed.

(** Whatever the template, well formed or not, its expansion fits the buffer. *)
Lemma rod_template_fits tmpl m : 1 <= out_size ->
  Z.of_nat (length (rod_expand_template time_format frame_rate vars out_size tmpl m).2) + 1 <= out_size.
Proof. intros. pose proof (loop_bounded (length (cstr tmpl)) (cstr tmpl) m [] ltac:(cbn; lia)). unfold rod_expand_template. lia. Qed.

End Expansion.

(** ** rvd is not asked more often than it should be *)

(** Newest first: each question comes no sooner after the one before it than the
    outcome of that one allows. *)
Fixpoint spaced (q : list (Z * bool)) : Prop :=
  match q with
  | (t2, _) :: (((t1, ok) :: _) as rest) =>
      t2 - t1 >= (if ok then ROD_EXPOSURE_TTL_US else ROD_EXPOSURE_BACKOFF_US) /\ spaced rest
  | _ => True
  end.

Definition exposure_inv (m : rod_mon) : Prop :=
  spaced (m_queries m) /\
  match m_queries m with
  | [] => m_exp_refresh_ts m = 0
  | (t, ok) :: _ => m_exp_refresh_ts m = t /\ m_exp_reachable m = ok /\ 0 < t
  end.

Lemma refresh_exposure_inv m : (forall n, 0 < te_clock env n) -> exposure_inv m -> exposure_inv (refresh_exposure m).
Proof.
  intros Hck [Hs Hl]. unfold refresh_exposure, rss_timestamp_us. cbn. set (now := te_clock env (m_reads m)).
  assert (0 < now) by apply Hck.
  destruct (negb (m_exp_refresh_ts m =? 0) && _) eqn:E; [done|].
  assert (Hsp : forall ok, spaced ((now, ok) :: m_queries m)).
  { intros ok. cbn. destruct (m_queries m) as [|[t ok1] q]; [done|]. split; [|done]. destruct Hl as (Ht & Hr & Hpos).
    rewrite Ht, Hr in E. destruct (Z.eqb_spec t 0); [lia|]. cbn in E. apply Z.ltb_ge in E. destruct ok1; lia. }
  destruct (te_exposure env (S (m_reads m))) as [[luma gain]|]; split; first [exact (Hsp _) | done].
Qed.

Lemma inv_same_exposure m m' : m_queries m' = m_queries m -> m_exp_refresh_ts m' = m_exp_refresh_ts m ->
  m_exp_reachable m' = m_exp_reachable m -> exposure_inv m -> exposure_inv m'.
Proof. unfold exposure_inv. intros -> -> ->. done. Qed.

Lemma refresh_ip_inv m : exposure_inv m -> exposure_inv (refresh_ip_addrs m).
Proof.
  unfold refresh_ip_addrs, rss_timestamp_us. intros H. cbn. destruct (negb _ && _); [by eapply inv_same_exposure|].
  destruct (te_ifaddrs env _); [|by eapply inv_same_exposure]. destruct (fold_left _ _ _) as [a b]. by eapply inv_same_exposure.
Qed.

Lemma refresh_temp_inv m : exposure_inv m -> exposure_inv (refresh_soc_temp m).
Proof.
  unfold refresh_soc_temp, rss_timestamp_us. intros H. cbn. destruct (negb _ && _); [by eapply inv_same_exposure|].
  destruct (read_temp _); by eapply inv_same_exposure.
Qed.

Lemma variable_inv tf fr vars name m : (forall n, 0 < te_clock env n) -> exposure_inv m -> exposure_inv (variable tf fr vars name m).1.
Proof.
  intros Hck Hm. unfold variable. pose proof (refresh_exposure_inv m Hck Hm). pose proof (refresh_ip_inv m Hm). pose proof (refresh_temp_inv m Hm).
  repeat (case_bool_decide; [done|]). done.
Qed.

Lemma loop_inv fuel tf fr vars sz p m out : (forall n, 0 < te_clock env n) -> exposure_inv m ->
  exposure_inv (expand_loop fuel tf fr vars sz p m out).1.
Proof.
  intros Hck. revert p m out. induction fuel as [|fuel IH]; intros p m out Hm; [done|]. cbn [expand_loop].
  destruct p as [|c rest]; [done|]. destruct (negb (_ <? _)); [done|]. destruct (negb (c =? percent)); [by apply IH|].
  destruct (strchr rest percent) as [[name after]|]; [|by apply IH]. destruct (_ || _); [by apply IH|].
  pose proof (variable_inv tf fr vars name m Hck Hm). destruct (variable tf fr vars name m) as [m' val]. by apply IH.
Qed.

(** However many templates are rendered, with whatever variables in them, rvd is
    asked for the exposure no sooner than 0.9 s after an answer and 5 s after a
    failure, so two variables in one template cost one round trip and a wedged rvd
    stalls the overlay once in five seconds. *)
Theorem rod_exposure_queries_spaced hostname (runs : list (list Z * Z * list (list Z * list Z) * Z * list Z)) :
  (forall n, 0 < te_clock env n) ->
  spaced (m_queries (fold_left (fun m '(tf, fr, vars, sz, tmpl) => (rod_expand_template tf fr vars sz tmpl m).1) runs (mon0 hostname))).
Proof.
  intros Hck. cut (exposure_inv (fold_left (fun m '(tf, fr, vars, sz, tmpl) => (rod_expand_template tf fr vars sz tmpl m).1) runs (mon0 hostname)));
    [by intros [? _]|].
  assert (Hm : exposure_inv (mon0 hostname)) by done. revert Hm. generalize (mon0 hostname). induction runs as [|[[[[tf fr] vars] sz] tmpl] runs IH]; intros m Hm; [done|].
  cbn [fold_left]. apply IH. by apply loop_inv.
Qed.

End Env.

(** A camera at 12:00, 3 s between clock readings, rvd answering 90 and 2048 once. *)
Definition toy_env : tmpl_env :=
  mk_env (fun n => 1000000 + 3000000 * Z.of_nat n) (fun _ => None) (fun _ => None) (fun _ => Some 93784)
    (fun n => if (n <=? 3)%nat then Some (90, 2048) else None) (fun _ => [None; Some (cs "Temperature 42")])
    (fun _ => 0) (fun _ fmt => fmt).

Lemma rod_template_expands_witness :
  (rod_expand_template toy_env (cs "12:00.%f") 25 [] 40 (concat (print_segment <$>
     [Lit (cs "T "); Var (cs "soc_temp"); Lit (cs " at "); Var (cs "time"); Lit (cs ", up "); Var (cs "uptime")])) (mon0 [])).2
  = cs "T 42 at 12:00.00, up 1d 2h 3m 4s".
Proof.
  destruct (rod_template_expands toy_env (cs "12:00.%f") 25 [] 40
    [Lit (cs "T "); Var (cs "soc_temp"); Lit (cs " at "); Var (cs "time"); Lit (cs ", up "); Var (cs "uptime")] (mon0 [])) as [He _];
    [| lia | rewrite He; vm_compute; reflexivity].
  apply (bool_decide_eq_true_1 _). vm_compute. reflexivity.
Defined.

Lemma rod_exposure_queries_spaced_witness :
  spaced (m_queries (fold_left (fun m '(tf, fr, vars, sz, tmpl) => (rod_expand_template toy_env tf fr vars sz tmpl m).1)
    (replicate 2 ([], 25, [], 64, cs "%ae_luma% %total_gain%")) (mon0 []))).
Proof. apply rod_exposure_queries_spaced. intros n. cbn. lia. Defined.
