(* ===== verification/RodElem.v ===== *)
(** * rod: the element registry (rod/rod_elem.c)

    The elements of the overlay, the pool of font contexts they share by size, and
    the buffers the video daemon builds its regions from.  The outcomes of font
    initialisations and of buffer creations are parameters, by the number of calls
    made before. *)

From Stdlib Require Import String.
From stdpp Require Import list list_numbers.
From S2P Require Import Prelude Mux RodDraw RodReceipt RodTemplate.

Definition ROD_MAX_STREAMS : Z := 6.
Definition ROD_MAX_ELEMENTS : Z := 16.
Definition ROD_ELEM_NAME_LEN : Z := 32.
Definition ROD_MAX_FONTS : Z := 8.
Definition ROD_MAX_VARS : Z := 16.
Definition ROD_TMPL_LEN : Z := 256.
Definition ROD_EXPANDED_LEN : Z := 256.

(** ** State *)

Inductive rod_elem_type := ROD_ELEM_TEXT | ROD_ELEM_IMAGE | ROD_ELEM_OVERLAY | ROD_ELEM_RECEIPT.
Inductive rod_update_mode := ROD_UPDATE_TICK | ROD_UPDATE_CHANGE.

#[global] Instance rod_elem_type_dec : EqDecision rod_elem_type.
Proof. solve_decision. Defined.
#[global] Instance rod_update_mode_dec : EqDecision rod_update_mode.
Proof. solve_decision. Defined.

(** [es_shm] says that the element has a buffer on the stream. *)
Record elem_stream := mk_es {
  es_shm : bool; es_width : Z; es_height : Z; es_needs_update : bool; es_place_taken : bool; es_font_idx : Z
}.

#[export] Instance eta_elem_stream : Settable elem_stream := fun x =>
  mk_es (es_shm x) (es_width x) (es_height x) (es_needs_update x) (es_place_taken x) (es_font_idx x).

Record rod_element := mk_element {
  e_name : list Z; e_type : rod_elem_type; e_active : bool; e_visible : bool; e_tmpl : list Z; e_last_expanded : list Z;
  e_font_size : Z; e_font_pct : Z; e_color : Z; e_stroke_color : Z; e_stroke_size : Z; e_has_color : bool;
  e_has_stroke_color : bool; e_align : Z; e_position : list Z; e_max_chars : Z;
  e_image_data : option (list Z); e_image_w : Z; e_image_h : Z; e_image_sub_data : option (list Z); e_image_sub_w : Z;
  e_image_sub_h : Z; e_update_mode : rod_update_mode; e_sub_streams_only : bool; e_receipt : receipt;
  e_streams : list elem_stream
}.

#[export] Instance eta_rod_element : Settable rod_element := fun x =>
  mk_element (e_name x) (e_type x) (e_active x) (e_visible x) (e_tmpl x) (e_last_expanded x) (e_font_size x) (e_font_pct x)
    (e_color x) (e_stroke_color x) (e_stroke_size x) (e_has_color x) (e_has_stroke_color x) (e_align x) (e_position x)
    (e_max_chars x) (e_image_data x) (e_image_w x) (e_image_h x) (e_image_sub_data x) (e_image_sub_w x) (e_image_sub_h x)
    (e_update_mode x) (e_sub_streams_only x) (e_receipt x) (e_streams x).

Record rod_config := mk_config {
  c_font_size : Z; c_font_pct : Z; c_font_color : Z; c_stroke_color : Z; c_font_stroke : Z; c_time_format : list Z;
  c_frame_rate : Z
}.

#[export] Instance eta_rod_config : Settable rod_config := fun x =>
  mk_config (c_font_size x) (c_font_pct x) (c_font_color x) (c_stroke_color x) (c_font_stroke x) (c_time_format x)
    (c_frame_rate x).

(** What rod does outside its memory, in order. *)
Inductive effect :=
  | To_rvd_position (s : nat) (region pos : list Z)
  | To_rvd_show (s : nat) (region : list Z) (show : bool)
  | To_rvd_restart (pool_kb : Z)
  | Cfg_set (section key : list Z) (val : list Z)
  | Cfg_remove (section : list Z)
  | Close_fd (fd : Z)
  | Log_stale_font (s : nat) (name : list Z)
  | Drawn_text (s : nat) (name text : list Z)
  | Drawn_image (s : nat) (name : list Z)
  | Drawn_receipt (s : nat) (name : list Z) (lines : list (list Z))
  | Cleared (s : nat) (name : list Z).

(** The unused tail of the element table is not represented: a slot is written
    whole before it counts. *)
Record rod_state := mk_rod_state {
  st_settings : rod_config; st_fonts : list (list rod_font); st_stream_count : nat; st_stream_w : list Z;
  st_stream_h : list Z; st_elements : list rod_element; st_vars : list (list Z * list Z); st_mon : rod_mon;
  st_paused : bool; st_tick_interval : Z; st_creates : nat; st_inits : nat; st_out : list effect
}.

#[export] Instance eta_rod_state : Settable rod_state := fun x =>
  mk_rod_state (st_settings x) (st_fonts x) (st_stream_count x) (st_stream_w x) (st_stream_h x) (st_elements x) (st_vars x)
    (st_mon x) (st_paused x) (st_tick_interval x) (st_creates x) (st_inits x) (st_out x).

Definition es0 : elem_stream := mk_es false 0 0 false false (- 1).

Definition stream_of (e : rod_element) (s : nat) : elem_stream := default es0 (e_streams e !! s).

Definition upd_stream (s : nat) (f : elem_stream -> elem_stream) (e : rod_element) : rod_element :=
  e <| e_streams := alter f s (e_streams e) |>.

Definition upd_elem (i : nat) (f : rod_element -> rod_element) (st : rod_state) : rod_state :=
  st <| st_elements := alter f i (st_elements st) |>.

Definition emit (x : effect) (st : rod_state) : rod_state := st <| st_out := st_out st ++ [x] |>.

Definition stream_dim (l : list Z) (s : nat) : Z := default 0 (l !! s).

(** [for (s = 0; s < stream_count; s++)]. *)
Definition each_stream (st : rod_state) (f : nat -> rod_state -> rod_state) : rod_state :=
  fold_left (fun st s => f s st) (seq 0 (st_stream_count st)) st.

Definition sanitize_text (s : list Z) : list Z := sanitize_char <$> s.

(** ** Registry *)

Definition rod_find_element (st : rod_state) (name : list Z) : option (nat * rod_element) :=
  list_find (fun e => e_active e = true /\ e_name e = name) (st_elements st).

Definition ROD_FONT_MIN : Z := 12.

Definition derived_size (size stream_h : Z) : Z :=
  let max := Z.quot stream_h 4 in
  let size := if (0 <? max) && (max <? size) then max else size in
  if size <? ROD_FONT_MIN then ROD_FONT_MIN else size.

(** rod_font_for_elem; [e] is [None] for the overlay's own size. *)
Definition rod_font_for_elem (st : rod_state) (e : option rod_element) (s : Z) : Z :=
  let '(px, pct) :=
    match e with
    | Some e => if (0 <? e_font_size e) || (0 <? e_font_pct e) then (e_font_size e, e_font_pct e)
                else (c_font_size (st_settings st), c_font_pct (st_settings st))
    | None => (c_font_size (st_settings st), c_font_pct (st_settings st))
    end in
  if (s <? 0) || (ROD_MAX_STREAMS <=? s) then px
  else
    let h := stream_dim (st_stream_h st) (Z.to_nat s) in
    if h <=? 0 then px
    else if 0 <? pct then derived_size (Z.quot (h * pct) 1000) h
    else if (0 <? s) && (0 <? stream_dim (st_stream_h st) 0) then derived_size (Z.quot (px * h) (stream_dim (st_stream_h st) 0)) h
    else px.

(** ** Fonts *)

Definition font_row (st : rod_state) (s : nat) : list rod_font := default [] (st_fonts st !! s).

Definition font_at (st : rod_state) (s : nat) (i : Z) : rod_font :=
  if i <? 0 then font0 else default font0 (font_row st s !! Z.to_nat i).

Definition upd_font (s i : nat) (f : rod_font) (st : rod_state) : rod_state :=
  st <| st_fonts := alter (fun row => <[i := f]> row) s (st_fonts st) |>.

Definition drop_ref (f : rod_font) : rod_font :=
  let f := if 0 <? f_refcount f then f <| f_refcount := f_refcount f - 1 |> else f in
  if f_refcount f =? 0 then rod_render_deinit f else f.

Definition release_font (s : nat) (font_idx : Z) (st : rod_state) : rod_state :=
  if (font_idx <? 0) || (ROD_MAX_FONTS <=? font_idx) then st
  else upd_font s (Z.to_nat font_idx) (drop_ref (font_at st s font_idx)) st.

Section Registry.
Context (sft : nat -> sft_ops) (osd_create : nat -> bool).

Definition rod_alloc_font (s : nat) (font_size : Z) (st : rod_state) : rod_state * Z :=
  match list_find (fun f => 0 < f_refcount f /\ f_size f = font_size) (font_row st s) with
  | Some (i, f) => (upd_font s i (f <| f_refcount := f_refcount f + 1 |>) st, Z.of_nat i)
  | None =>
      match list_find (fun f => f_refcount f = 0) (font_row st s) with
      | Some (i, f) =>
          let '(f, ok) := rod_render_init (sft (st_inits st)) (f_face (font_at st 0 0)) (c_font_stroke (st_settings st)) font_size f in
          let st := st <| st_inits := S (st_inits st) |> in
          if negb ok then (upd_font s i f st, - 1)
          else (upd_font s i (f <| f_size := font_size |> <| f_refcount := 1 |>) st, Z.of_nat i)
      | None => (st, - 1)
      end
  end.

(** ** Buffers *)

Definition font_region_dims (f : rod_font) (chars stroke : Z) : Z * Z :=
  let adv := Z.quot (f_max_text_width f) 24 in
  let adv := if adv <? 10 then 10 else adv in
  let pad := if 0 <? stroke then stroke * 2 else 0 in
  (u32 (chars * adv + pad), u32 (f_text_height f)).

(** The size create_elem_shm asks for; [None] where it returns before asking. *)
Definition region_dims (st : rod_state) (e : rod_element) (s : nat) : option (Z * Z) :=
  let fi := es_font_idx (stream_of e s) in
  match e_type e with
  | ROD_ELEM_TEXT =>
      if fi <? 0 then None
      else
        let stroke := if 0 <=? e_stroke_size e then e_stroke_size e else c_font_stroke (st_settings st) in
        Some (font_region_dims (font_at st s fi) (e_max_chars e) stroke)
  | ROD_ELEM_IMAGE =>
      let w := u32 (if (s =? 0)%nat then e_image_w e else e_image_sub_w e) in
      let h := u32 (if (s =? 0)%nat then e_image_h e else e_image_sub_h e) in
      if (w =? 0) || (h =? 0) then None else Some (w, h)
  | ROD_ELEM_RECEIPT =>
      if fi <? 0 then None
      else
        let f := font_at st s fi in
        let adv := Z.quot (f_max_text_width f) 24 in
        let adv := if adv <? 10 then 10 else adv in
        let max_ll := if 0 <? rc_max_line_len (e_receipt e) then rc_max_line_len (e_receipt e) else 80 in
        let max_ln := if 0 <? rc_max_lines (e_receipt e) then rc_max_lines (e_receipt e) else 20 in
        Some (u32 (max_ll * adv), u32 (max_ln * f_text_height f))
  | ROD_ELEM_OVERLAY => Some (u32 (stream_dim (st_stream_w st) s), u32 (stream_dim (st_stream_h st) s))
  end.

Definition clip (frame v : Z) : Z := if (0 <? frame) && (u32 frame <? v) then u32 frame else v.

Definition even_up (v : Z) : Z := Z.ldiff (u32 (v + 1)) 1.

(** The element with its new buffer, and the number of creations tried so far. *)
Definition create_elem_shm (st : rod_state) (s : nat) (e : rod_element) : rod_element * nat :=
  match region_dims st e s with
  | None => (e, st_creates st)
  | Some (w, h) =>
      let w := even_up (clip (stream_dim (st_stream_w st) s) w) in
      let h := even_up (clip (stream_dim (st_stream_h st) s) h) in
      if negb (osd_create (st_creates st)) then (e, S (st_creates st))
      else (upd_stream s (fun es =>
              es <| es_shm := true |> <| es_width := w |> <| es_height := h |> <| es_needs_update := true |>) e, S (st_creates st))
  end.

Definition destroy_elem_shm (s : nat) (e : rod_element) : rod_element :=
  upd_stream s (fun es => if negb (es_shm es) then es
    else es <| es_shm := false |> <| es_width := 0 |> <| es_height := 0 |>) e.

Definition elem_draws (e : rod_element) (s : nat) : bool :=
  if negb (e_active e) || negb (e_visible e) then false
  else if e_sub_streams_only e && (s =? 0)%nat then false
  else if bool_decide (e_type e = ROD_ELEM_TEXT) && match e_tmpl e with [] => true | _ => false end then false
  else true.

Definition elem_place (e : rod_element) : list Z := match e_position e with [] => cs "top_left" | p => p end.

(** One element of rod_sync_shms on one stream; [taken] is the places claimed. *)
Definition sync_elem (s : nat) (sc : rod_state * list (list Z)) (i : nat) : rod_state * list (list Z) :=
  let '(st, taken) := sc in
  match st_elements st !! i with
  | None => sc
  | Some e =>
      let draws := elem_draws e s in
      let blocked := draws && bool_decide (elem_place e ∈ taken) in
      let e := if Bool.eqb blocked (es_place_taken (stream_of e s)) then e
               else upd_stream s (fun es => es <| es_place_taken := blocked |>) e in
      let '(e, creates) := if draws && negb blocked then
                             (if es_shm (stream_of e s) then (e, st_creates st) else create_elem_shm st s e)
                           else (destroy_elem_shm s e, st_creates st) in
      (st <| st_elements := <[i := e]> (st_elements st) |> <| st_creates := creates |>,
       if es_shm (stream_of e s) && (Z.of_nat (length taken) <? ROD_MAX_ELEMENTS) then taken ++ [elem_place e] else taken)
  end.

Definition sync_stream (s : nat) (st : rod_state) : rod_state :=
  fst (fold_left (sync_elem s) (seq 0 (length (st_elements st))) (st, [])).

Definition rod_sync_shms (st : rod_state) : rod_state := each_stream st sync_stream.

(** ** Adding and removing *)

Definition elem0 : rod_element :=
  mk_element [] ROD_ELEM_TEXT false false [] [] 0 0 0 0 0 false false 0 [] 0 None 0 0 None 0 0 ROD_UPDATE_TICK false receipt0
    (replicate (Z.to_nat ROD_MAX_STREAMS) es0).

(** The initialised slot; the memset zeroes the font indices, the loop at the end makes them -1. *)
Definition new_element (name : list Z) (type : rod_elem_type) (tmpl position : option (list Z)) (align font_size max_chars : Z)
    (update_mode : rod_update_mode) : rod_element :=
  elem0 <| e_name := strlcpy ROD_ELEM_NAME_LEN name |> <| e_type := type |> <| e_active := true |> <| e_visible := true |>
    <| e_tmpl := match tmpl with Some t => strlcpy ROD_TMPL_LEN t | None => [] end |>
    <| e_position := match position with Some p => strlcpy 32 p | None => [] end |>
    <| e_align := align |> <| e_font_size := font_size |> <| e_stroke_size := - 1 |>
    <| e_max_chars := let m := if 0 <? max_chars then max_chars else 20 in if 128 <? m then 128 else m |>
    <| e_update_mode := update_mode |>.

(** [None] is -1. *)
Definition rod_add_element (name : list Z) (type : rod_elem_type) (tmpl position : option (list Z)) (align font_size max_chars : Z)
    (update_mode : rod_update_mode) (st : rod_state) : option rod_state :=
  let e := new_element name type tmpl position align font_size max_chars update_mode in
  if rod_find_element st name then None
  else match list_find (fun e => e_active e = false) (st_elements st) with
  | Some (i, _) => Some (st <| st_elements := <[i := e]> (st_elements st) |>)
  | None => if ROD_MAX_ELEMENTS <=? Z.of_nat (length (st_elements st)) then None
            else Some (st <| st_elements := st_elements st ++ [e] |>)
  end.

Definition drop_stream (i : nat) (s : nat) (st : rod_state) : rod_state :=
  match st_elements st !! i with
  | None => st
  | Some e =>
      let st := upd_elem i (destroy_elem_shm s) st in
      let st := release_font s (es_font_idx (stream_of e s)) st in
      upd_elem i (upd_stream s (fun es => es <| es_font_idx := - 1 |>)) st
  end.

Definition rod_remove_element (name : list Z) (st : rod_state) : rod_state :=
  match rod_find_element st name with
  | None => st
  | Some (i, e) =>
      let st := each_stream st (drop_stream i) in
      let st := if 0 <=? rc_input_fd (e_receipt e) then emit (Close_fd (rc_input_fd (e_receipt e))) st else st in
      upd_elem i (fun e => e <| e_image_data := None |> <| e_image_sub_data := None |>
        <| e_receipt := (e_receipt e) <| rc_input_fd := - 1 |> |> <| e_active := false |>) st
  end.

(** The named places, in the order a new element is offered them (rod_config.c). *)
Definition slots : list (list Z * Z) :=
  [(cs "top_left", 0); (cs "top_center", 1); (cs "top_right", 2); (cs "bottom_left", 0); (cs "bottom_center", 1);
   (cs "bottom_right", 2); (cs "center", 1)].

Definition rod_free_place (st : rod_state) : option (list Z) :=
  (fun p => (p.2).1) <$> list_find (fun p : list Z * Z => Forall (fun e => ~ (e_active e = true /\ e_position e = p.1)) (st_elements st)) slots.

(** ** State helpers *)

Definition mark_element_dirty (stream_count : nat) (e : rod_element) : rod_element :=
  fold_left (fun e s => upd_stream s (fun es => es <| es_needs_update := true |>) e) (seq 0 stream_count) e.

Definition mark_all_dirty (st : rod_state) : rod_state :=
  st <| st_elements := (fun e => if e_active e then mark_element_dirty (st_stream_count st) e else e) <$> st_elements st |>.

End Registry.

(** rod_format_font_size. *)
Definition rod_format_font_size (px pct : Z) : list Z :=
  if pct <=? 0 then show_int px
  else if negb (Z.rem pct 10 =? 0) then show_int (Z.quot pct 10) ++ cs "." ++ show_int (Z.rem pct 10) ++ cs "%"
  else show_int (Z.quot pct 10) ++ cs "%".
