(* ===== verification/RodPool.v ===== *)
(** * rod: the font pool and the places

    What rod_elem.c keeps true of the font contexts the elements share and of the
    places they draw in: lemmas on one row of the pool, on the whole state, and on
    the synchronisation of the buffers. *)

From stdpp Require Import list list_numbers.
From S2P Require Import Prelude Mux RodDraw RodReceipt RodTemplate RodElem.

(** ** One row of the pool

    [l] lists, element by element, the context it draws with and the size it is to
    have, if one is asked for. *)

Definition uses (i : Z) (l : list (Z * option Z)) : Z := sumZ (fun x => if x.1 =? i then 1 else 0) l.

Definition pool_ok (row : list rod_font) (l : list (Z * option Z)) : Prop :=
  length row = Z.to_nat ROD_MAX_FONTS /\ Forall font_ok row /\
  (forall i f, row !! i = Some f -> f_refcount f = uses (Z.of_nat i) l /\ (0 < f_refcount f -> f_face f = true)) /\
  (forall x w, (x, w) ∈ l -> - 1 <= x < ROD_MAX_FONTS) /\
  (forall x z f, (x, Some z) ∈ l -> 0 <= x -> row !! Z.to_nat x = Some f -> f_size f = z).

Lemma uses_nonneg i l : 0 <= uses i l.
Proof. unfold uses. induction l as [|x l IH]; cbn; [lia|]. fold (sumZ (fun x : Z * option Z => if x.1 =? i then 1 else 0) l). destruct (_ =? _); lia. Qed.

Lemma uses_app i l1 l2 : uses i (l1 ++ l2) = uses i l1 + uses i l2.
Proof. unfold uses. induction l1 as [|x l1 IH]; cbn; [done|]. unfold sumZ in *. lia. Qed.

Lemma uses_single i x w : uses i [(x, w)] = if x =? i then 1 else 0.
Proof. unfold uses, sumZ. cbn. lia. Qed.

Lemma uses_insert i k (l : list (Z * option Z)) x y : l !! k = Some x ->
  uses i (<[k := y]> l) = uses i l - (if x.1 =? i then 1 else 0) + (if y.1 =? i then 1 else 0).
Proof.
  intros Hk. pose proof (lookup_lt_Some _ _ _ Hk). rewrite <- (take_drop_middle _ _ _ Hk) at 2. rewrite insert_take_drop by done.
  rewrite !uses_app. unfold uses. cbn. unfold sumZ. lia.
Qed.

Lemma uses_pos i w l : (i, w) ∈ l -> 0 < uses i l.
Proof.
  intros Hin. apply list_elem_of_lookup in Hin as [k Hk]. rewrite <- (take_drop_middle _ _ _ Hk), uses_app.
  pose proof (uses_nonneg i (take k l)). pose proof (uses_nonneg i (drop (S k) l)). unfold uses in *. cbn. rewrite Z.eqb_refl. unfold sumZ in *. lia.
Qed.

Lemma uses_ext i l l' : l.*1 = l'.*1 -> uses i l = uses i l'.
Proof.
  revert l'. induction l as [|x l IH]; intros [|x' l'] H; [done..|]. cbn in H. injection H as Hx Hl.
  unfold uses in *. cbn. rewrite Hx. unfold sumZ in *. by rewrite (IH l' Hl).
Qed.

Lemma elem_of_insert_list {A} (l : list A) k (x y : A) : x ∈ <[k := y]> l -> x = y \/ x ∈ l.
Proof.
  intros H. apply list_elem_of_lookup in H as [j Hj]. destruct (decide (j = k)) as [->|].
  - apply list_lookup_insert_Some in Hj as [(_ & -> & _)|(? & ?)]; [by left | done].
  - rewrite list_lookup_insert_ne in Hj by done. right. by eapply list_elem_of_lookup_2.
Qed.

(** Nothing asks for more than it did. *)
Definition relaxes (l l' : list (Z * option Z)) : Prop := Forall2 (fun a b => b.1 = a.1 /\ (b.2 = None \/ b.1 = - 1 \/ b.2 = a.2)) l l'.

Lemma pool_weaken row l l' : relaxes l l' -> pool_ok row l -> pool_ok row l'.
Proof.
  intros Hr (Hl & Hf & Hc & Hi & Hs).
  assert (Hin : forall x w, (x, w) ∈ l' -> exists w', (x, w') ∈ l /\ (w = None \/ x = - 1 \/ w = w')).
  { intros x w Hx. apply list_elem_of_lookup in Hx as [k Hk]. destruct (Forall2_lookup_r _ _ _ _ _ Hr Hk) as ([x' w'] & Hk' & He & Hw).
    cbn in *. subst x'. exists w'. split; [by eapply list_elem_of_lookup_2 | done]. }
  split_and!; [done | done | | |].
  - intros i f Hrow. destruct (Hc i f Hrow) as [Hcnt Hface]. split; [|done]. rewrite Hcnt. apply uses_ext.
    clear -Hr. induction Hr as [|a b l l' [He _] _ IH]; [done|]. cbn. by rewrite He, IH.
  - intros x w Hx. destruct (Hin x w Hx) as (w' & Hx' & _). by eapply Hi.
  - intros x z f Hx Hpos Hrow. destruct (Hin x _ Hx) as (w' & Hx' & [?|[?|<-]]); [done | lia | by eapply Hs].
Qed.

Lemma relaxes_refl l : relaxes l l.
Proof. apply Forall_Forall2_diag, Forall_true. auto. Qed.

Lemma pool_absent row l k w w' : l !! k = Some (- 1, w) -> pool_ok row l -> pool_ok row (<[k := (- 1, w')]> l).
Proof.
  intros Hk. apply pool_weaken. apply Forall2_same_length_lookup. rewrite length_insert. split; [done|].
  intros j a b Ha Hb. destruct (decide (j = k)) as [->|].
  - rewrite list_lookup_insert_eq in Hb by (by eapply lookup_lt_Some). simplify_eq. auto.
  - rewrite list_lookup_insert_ne in Hb by done. simplify_eq. auto.
Qed.

Lemma pool_append row l w : pool_ok row l -> pool_ok row (l ++ [(- 1, w)]).
Proof.
  intros (Hl & Hf & Hc & Hi & Hs). split_and!; [done | done | | |].
  - intros i f Hrow. destruct (Hc i f Hrow) as [Hcnt Hface]. split; [|done]. rewrite Hcnt, uses_app, uses_single.
    destruct (Z.eqb_spec (- 1) (Z.of_nat i)); lia.
  - intros x w' Hx. apply elem_of_app in Hx as [Hx|Hx]; [by eapply Hi|]. apply list_elem_of_singleton in Hx. simplify_eq. by unfold ROD_MAX_FONTS.
  - intros x z f Hx Hpos Hrow. apply elem_of_app in Hx as [Hx|Hx]; [by eapply Hs|]. apply list_elem_of_singleton in Hx. simplify_eq. lia.
Qed.

(** ** Releasing and allocating *)

Definition row_release (x : Z) (row : list rod_font) : list rod_font :=
  if (x <? 0) || (ROD_MAX_FONTS <=? x) then row
  else <[Z.to_nat x := drop_ref (default font0 (row !! Z.to_nat x))]> row.

Lemma pool_release row l k x w w' : l !! k = Some (x, w) -> pool_ok row l -> pool_ok (row_release x row) (<[k := (- 1, w')]> l).
Proof.
  intros Hk Hp. pose proof Hp as (Hl & Hf & Hc & Hi & Hs). pose proof (list_elem_of_lookup_2 _ _ _ Hk) as Hx.
  pose proof (Hi x w Hx) as Hrange. unfold row_release. destruct (Z.ltb_spec x 0); cbn [orb].
  { assert (x = - 1) by lia. subst x. by eapply pool_absent. }
  destruct (Z.leb_spec ROD_MAX_FONTS x); [lia|].
  destruct (lookup_lt_is_Some_2 row (Z.to_nat x)) as [f Hrow]; [unfold ROD_MAX_FONTS in *; lia|]. rewrite Hrow. change (default font0 (Some f)) with f.
  pose proof (uses_pos x w l Hx) as Hpos. destruct (Hc _ _ Hrow) as [Hcnt Hface]. rewrite Z2Nat.id in Hcnt by lia.
  set (f2 := drop_ref f).
  assert (Hf2 : f_refcount f2 = f_refcount f - 1 /\ f_size f2 = f_size f /\ (0 < f_refcount f2 -> f_face f2 = true) /\ font_ok f2).
  { assert (Hfok : font_ok f) by (by eapply Forall_lookup_1). subst f2. unfold drop_ref. destruct (Z.ltb_spec 0 (f_refcount f)); [|lia].
    set (f1 := f <| f_refcount := f_refcount f - 1 |>). destruct (Z.eqb_spec (f_refcount f1) 0) as [He|He].
    - split_and!; [done | done | cbn in *; lia | by constructor].
    - split_and!; [done | done | intros _; by apply Hface | done]. }
  destruct Hf2 as (G1 & G2 & G3 & G4). split_and!.
  - by rewrite length_insert.
  - apply Forall_insert; [exact Hf | exact G4].
  - intros i g Hi'. rewrite (uses_insert _ k l (x, w)) by done. cbn [fst].
    destruct (Z.eqb_spec (- 1) (Z.of_nat i)); [lia|]. destruct (decide (i = Z.to_nat x)) as [->|Hne].
    + rewrite list_lookup_insert_eq in Hi' by (by eapply lookup_lt_Some). injection Hi' as <-. rewrite Z2Nat.id, Z.eqb_refl by lia. split; [lia | done].
    + rewrite list_lookup_insert_ne in Hi' by done. destruct (Hc i g Hi') as [-> ?]. destruct (Z.eqb_spec x (Z.of_nat i)); [lia|]. split; [lia | done].
  - intros y v Hy. apply elem_of_insert_list in Hy as [[= -> ->]|Hy]; [unfold ROD_MAX_FONTS; lia | by eapply Hi].
  - intros y z g Hy Hypos Hg. apply elem_of_insert_list in Hy as [[= -> _]|Hy]; [lia|].
    destruct (decide (Z.to_nat y = Z.to_nat x)) as [He|Hne].
    + rewrite He, list_lookup_insert_eq in Hg by (by eapply lookup_lt_Some). injection Hg as <-. rewrite G2. eapply Hs; [exact Hy | done | by rewrite He].
    + rewrite list_lookup_insert_ne in Hg by done. by eapply Hs.
Qed.

(** What an allocation does to the row. *)
Inductive row_alloc (row : list rod_font) (size : Z) : list rod_font -> Z -> Prop :=
  | Alloc_shared i f : row !! i = Some f -> 0 < f_refcount f -> f_size f = size ->
      row_alloc row size (<[i := f <| f_refcount := f_refcount f + 1 |>]> row) (Z.of_nat i)
  | Alloc_fresh i f f' : row !! i = Some f -> f_refcount f = 0 -> f_refcount f' = 1 -> f_size f' = size -> f_face f' = true -> font_ok f' ->
      row_alloc row size (<[i := f']> row) (Z.of_nat i)
  | Alloc_failed i f f' : row !! i = Some f -> f_refcount f = 0 -> f_refcount f' = 0 -> font_ok f' ->
      row_alloc row size (<[i := f']> row) (- 1)
  | Alloc_none : row_alloc row size row (- 1).

Lemma pool_alloc row l k w0 size row' y w : l !! k = Some (- 1, w0) -> row_alloc row size row' y -> (w = None \/ w = Some size) ->
  pool_ok row l -> pool_ok row' (<[k := (y, w)]> l) /\ - 1 <= y < ROD_MAX_FONTS.
Proof.
  intros Hk Ha Hw (Hl & Hf & Hc & Hi & Hs).
  assert (Hb : forall i f, row !! i = Some f -> 0 <= Z.of_nat i < ROD_MAX_FONTS).
  { intros i f Hif. apply lookup_lt_Some in Hif. unfold ROD_MAX_FONTS in *. lia. }
  assert (Hset : forall i f f', row !! i = Some f -> f_refcount f' = f_refcount f + 1 -> (0 < f_refcount f -> f_size f' = f_size f) -> f_size f' = size ->
      f_face f' = true -> font_ok f' -> pool_ok (<[i := f']> row) (<[k := (Z.of_nat i, w)]> l) /\ - 1 <= Z.of_nat i < ROD_MAX_FONTS).
  { intros i f f' Hif Hr Hsame Hsz Hfc Hok. pose proof (Hb _ _ Hif). pose proof (lookup_lt_Some _ _ _ Hif). split; [|lia]. split_and!.
    - by rewrite length_insert.
    - by apply Forall_insert.
    - intros j g Hj. rewrite (uses_insert _ k l (- 1, w0)) by done. cbn [fst]. destruct (Z.eqb_spec (- 1) (Z.of_nat j)); [lia|].
      destruct (decide (j = i)) as [->|Hne].
      + rewrite list_lookup_insert_eq in Hj by done. injection Hj as <-. rewrite Z.eqb_refl. destruct (Hc _ _ Hif) as [Hcnt _]. split; [lia | done].
      + rewrite list_lookup_insert_ne in Hj by done. destruct (Z.eqb_spec (Z.of_nat i) (Z.of_nat j)); [lia|]. destruct (Hc j g Hj). split; [lia | done].
    - intros x v Hx. apply elem_of_insert_list in Hx as [[= -> ->]|Hx]; [lia | by eapply Hi].
    - intros x z g Hx Hpos Hg. destruct (decide (Z.to_nat x = i)) as [He|Hne].
      + rewrite He, list_lookup_insert_eq in Hg by done. injection Hg as <-. apply elem_of_insert_list in Hx as [[= -> Hwz]|Hx].
        * destruct Hw; congruence.
        * assert (Hu : 0 < f_refcount f) by (destruct (Hc _ _ Hif) as [-> _]; eapply uses_pos; rewrite <- He, Z2Nat.id by lia; exact Hx).
          rewrite Hsame by done. eapply Hs; [exact Hx | done | by rewrite He].
      + rewrite list_lookup_insert_ne in Hg by done. apply elem_of_insert_list in Hx as [[= -> _]|Hx]; [lia | by eapply Hs]. }
  assert (Hnone : pool_ok row (<[k := (- 1, w)]> l)) by (eapply pool_absent; [done | by split_and!]).
  destruct Ha as [i f Hif Hpos Hsz | i f f' Hif Hz Hr Hsz Hfc Hok | i f f' Hif Hz Hr Hok |].
  - eapply (Hset i f); [done | done | done | done | by apply (Hc i f Hif) | exact (Forall_lookup_1 _ _ _ _ Hf Hif)].
  - eapply (Hset i f f'); [done | lia | lia | done..].
  - split; [|unfold ROD_MAX_FONTS; lia]. destruct Hnone as (N1 & N2 & N3 & N4 & N5). pose proof (lookup_lt_Some _ _ _ Hif).
    assert (Hu : forall v z, (Z.of_nat i, v) ∈ <[k := (- 1, w)]> l -> z).
    { intros v z Hv. apply uses_pos in Hv. destruct (N3 _ _ Hif) as [Hcnt _]. lia. }
    split_and!; [by rewrite length_insert | by apply Forall_insert | | done |].
    + intros j g Hj. destruct (decide (j = i)) as [->|Hne].
      * rewrite list_lookup_insert_eq in Hj by done. injection Hj as <-. destruct (N3 _ _ Hif). split; [lia | lia].
      * rewrite list_lookup_insert_ne in Hj by done. by apply N3.
    + intros x z g Hx Hpos Hg. destruct (decide (Z.to_nat x = i)) as [He|Hne].
      * apply (Hu (Some z)). by rewrite <- He, Z2Nat.id by lia.
      * rewrite list_lookup_insert_ne in Hg by done. by eapply N5.
  - split; [done|unfold ROD_MAX_FONTS; lia].
Qed.

(** ** The pools of a state *)

Definition state_shape (st : rod_state) : Prop :=
  length (st_fonts st) = Z.to_nat ROD_MAX_STREAMS /\ (st_stream_count st <= Z.to_nat ROD_MAX_STREAMS)%nat /\
  Forall (fun e => length (e_streams e) = Z.to_nat ROD_MAX_STREAMS) (st_elements st).

(** What the elements draw with on stream [s]; [w] is the size each is to have. *)
Definition view (w : nat -> rod_element -> option Z) (s : nat) (es : list rod_element) : list (Z * option Z) :=
  imap (fun i e => if e_active e then (es_font_idx (stream_of e s), w i e) else (- 1, None)) es.

Definition pools_ok (w : nat -> nat -> rod_element -> option Z) (st : rod_state) : Prop :=
  state_shape st /\ forall s, (s < st_stream_count st)%nat -> pool_ok (font_row st s) (view (w s) s (st_elements st)).

(** Two elements alike but for what changes stream by stream, and alike for the pools. *)
Definition static (e e' : rod_element) : Prop :=
  e_active e' = e_active e /\ e_name e' = e_name e /\ e_type e' = e_type e /\ e_font_size e' = e_font_size e /\
  e_font_pct e' = e_font_pct e /\ length (e_streams e') = length (e_streams e).

Definition same_font (e e' : rod_element) : Prop :=
  static e e' /\ forall s, es_font_idx (stream_of e' s) = es_font_idx (stream_of e s).

Definition same_env (st st' : rod_state) : Prop :=
  st_stream_count st' = st_stream_count st /\ st_stream_h st' = st_stream_h st /\
  c_font_size (st_settings st') = c_font_size (st_settings st) /\ c_font_pct (st_settings st') = c_font_pct (st_settings st).

Definition same_fonts (st st' : rod_state) : Prop :=
  same_env st st' /\ st_fonts st' = st_fonts st /\ Forall2 same_font (st_elements st) (st_elements st').

#[global] Instance static_preorder : PreOrder static.
Proof. split; [done|]. intros a b c (A1 & A2 & A3 & A4 & A5 & A6) (B1 & B2 & B3 & B4 & B5 & B6). split_and!; congruence. Qed.

#[global] Instance same_font_preorder : PreOrder same_font.
Proof. split; [done|]. intros a b c [A1 A2] [B1 B2]. split; [by etransitivity|]. intros s. by rewrite B2. Qed.

#[global] Instance same_env_preorder : PreOrder same_env.
Proof. split; [done|]. intros a b c (A1 & A2 & A3 & A4) (B1 & B2 & B3 & B4). split_and!; congruence. Qed.

#[global] Instance same_fonts_preorder : PreOrder same_fonts.
Proof.
  split; [intros st; split_and!; done|]. intros a b c (A1 & A2 & A3) (B1 & B2 & B3). split_and!; [by etransitivity | congruence | by etransitivity].
Qed.

(** A text element has the size worked out for it; a receipt keeps the one it was
    given until its own is changed. *)
Definition wanted (st : rod_state) (s : nat) (e : rod_element) : option Z :=
  match e_type e with ROD_ELEM_TEXT => Some (rod_font_for_elem st (Some e) (Z.of_nat s)) | _ => None end.

Definition fonts_ok (st : rod_state) : Prop := pools_ok (fun s _ e => wanted st s e) st.

Lemma wanted_same st st' s e e' : same_env st st' -> same_font e e' -> wanted st' s e' = wanted st s e.
Proof.
  intros (_ & H1 & H2 & H3) [(_ & _ & F1 & F2 & F3 & _) _]. unfold wanted. rewrite F1. destruct (e_type e); try done. f_equal.
  unfold rod_font_for_elem. by rewrite F2, F3, H1, H2, H3.
Qed.

Lemma view_lookup w s es k : view w s es !! k =
  (fun e => if e_active e then (es_font_idx (stream_of e s), w k e) else (- 1, None)) <$> es !! k.
Proof. unfold view. by rewrite list_lookup_imap. Qed.

Lemma view_length w s es : length (view w s es) = length es.
Proof. apply length_imap. Qed.

Lemma shape_same st st' : same_fonts st st' -> state_shape st -> state_shape st'.
Proof.
  intros ((Hn & _) & Hf & He) (H1 & H2 & H3). split_and!; [congruence | congruence|].
  clear -He H3. induction He as [|e e' es es' [(_ & _ & _ & _ & _ & Hl) _] _ IH]; [done|]. inversion_clear H3. constructor; [congruence | by apply IH].
Qed.

Lemma fonts_ok_same st st' : same_fonts st st' -> fonts_ok st -> fonts_ok st'.
Proof.
  intros Hs [Hsh Hp]. split; [by eapply shape_same|]. destruct Hs as (Henv & Hf & He). intros s Hlt.
  destruct Henv as [Hn Henv']. rewrite Hn in Hlt. specialize (Hp s Hlt). unfold font_row. rewrite Hf.
  assert (view (fun _ e => wanted st' s e) s (st_elements st') = view (fun _ e => wanted st s e) s (st_elements st)) as ->; [|done].
  apply list_eq. intros k. rewrite !view_lookup. destruct (st_elements st !! k) as [e|] eqn:Ek.
  - destruct (Forall2_lookup_l _ _ _ _ _ He Ek) as (e' & -> & Hsame). cbn. rewrite (wanted_same st st' s e e') by done.
    destruct Hsame as [(-> & _) Hi]. by rewrite Hi.
  - apply lookup_ge_None in Ek. rewrite (Forall2_length _ _ _ He) in Ek. by apply lookup_ge_None in Ek as ->.
Qed.

Lemma same_fonts_elems st es : Forall2 same_font (st_elements st) es -> same_fonts st (st <| st_elements := es |>).
Proof. intros. split_and!; done. Qed.

Lemma Forall2_alter_r {A} (R : A -> A -> Prop) `{!Reflexive R} (l : list A) i f :
  (forall a, l !! i = Some a -> R a (f a)) -> Forall2 R l (alter f i l).
Proof.
  intros Hf. apply Forall2_same_length_lookup. rewrite length_alter. split; [done|]. intros j a b Ha Hb.
  destruct (decide (i = j)) as [->|]; [rewrite list_lookup_alter_eq, Ha in Hb; cbn in Hb; simplify_eq; by apply Hf|].
  rewrite list_lookup_alter_ne in Hb by done. by simplify_eq.
Qed.

Lemma upd_elem_same i f st : (forall e, st_elements st !! i = Some e -> same_font e (f e)) -> same_fonts st (upd_elem i f st).
Proof. intros Hf. apply same_fonts_elems. by apply Forall2_alter_r; [apply _|]. Qed.

Lemma stream_of_upd s f e s' : stream_of (upd_stream s f e) s' =
  if decide (s = s' /\ (s < length (e_streams e))%nat) then f (stream_of e s') else stream_of e s'.
Proof.
  unfold stream_of, upd_stream. cbn. destruct (decide (s = s')) as [->|Hne].
  - rewrite list_lookup_alter_eq. case_decide as Hd.
    + destruct Hd as [_ Hd]. apply lookup_lt_is_Some_2 in Hd as [x ->]. done.
    + destruct (e_streams e !! s') eqn:E; [|done]. apply lookup_lt_Some in E. destruct Hd. done.
  - rewrite list_lookup_alter_ne by done. rewrite decide_False; [done|]. by intros [? _].
Qed.

Lemma upd_stream_static s f e : static e (upd_stream s f e).
Proof. split_and!; try done. unfold upd_stream. cbn. by rewrite length_alter. Qed.

Lemma upd_stream_same s f e : (forall x, es_font_idx (f x) = es_font_idx x) -> same_font e (upd_stream s f e).
Proof. intros Hf. split; [apply upd_stream_static|]. intros s'. rewrite stream_of_upd. case_decide; [by rewrite Hf | done]. Qed.

(** ** Synchronising the buffers *)

(** [e'] is [e] but for the buffer and the mark on stream [s]. *)
Definition only_stream (s : nat) (e e' : rod_element) : Prop :=
  e' = e <| e_streams := e_streams e' |> /\ length (e_streams e') = length (e_streams e) /\
  (forall s', s' <> s -> stream_of e' s' = stream_of e s') /\ es_font_idx (stream_of e' s) = es_font_idx (stream_of e s).

Definition only_state (s : nat) (st st' : rod_state) : Prop :=
  st' = st <| st_elements := st_elements st' |> <| st_creates := st_creates st' |> /\
  Forall2 (only_stream s) (st_elements st) (st_elements st').

#[global] Instance only_stream_preorder s : PreOrder (only_stream s).
Proof.
  split; [intros []; by split_and!|]. intros a b c (A1 & A2 & A3 & A4) (B1 & B2 & B3 & B4). split_and!.
  - rewrite B1 at 1. by rewrite A1.
  - congruence.
  - intros s' Hs. by rewrite B3, A3.
  - congruence.
Qed.

#[global] Instance only_state_preorder s : PreOrder (only_state s).
Proof.
  split; [intros []; split; [done|by apply Forall_Forall2_diag, Forall_true]|].
  intros a b c [A1 A2] [B1 B2]. split; [rewrite B1 at 1; by rewrite A1 | by etransitivity].
Qed.

Lemma only_stream_same s e e' : only_stream s e e' -> same_font e e'.
Proof.
  intros (H1 & H2 & H3 & H4). split; [split_and!; try by rewrite H1|].
  intros s'. destruct (decide (s' = s)) as [->|Hne]; [done|]. by rewrite H3.
Qed.

Lemma only_state_same s st st' : only_state s st st' -> same_fonts st st'.
Proof.
  intros [H1 H2]. split_and!; [by rewrite H1..|]. eapply Forall2_impl; [exact H2 | apply only_stream_same].
Qed.

Lemma upd_stream_only s f e : (forall x, es_font_idx (f x) = es_font_idx x) -> only_stream s e (upd_stream s f e).
Proof.
  intros Hf. split_and!; [done | unfold upd_stream; cbn; by rewrite length_alter | |].
  - intros s' Hs. rewrite stream_of_upd, decide_False by naive_solver. done.
  - rewrite stream_of_upd. case_decide; [by rewrite Hf | done].
Qed.

Lemma upd_elem_only s i f st : (forall e, st_elements st !! i = Some e -> only_stream s e (f e)) -> only_state s st (upd_elem i f st).
Proof. intros Hf. split; [by destruct st|]. by apply Forall2_alter_r; [apply _|]. Qed.

Lemma only_draws s e e' s' : only_stream s e e' -> elem_draws e' s' = elem_draws e s' /\ elem_place e' = elem_place e.
Proof. intros (-> & _). done. Qed.

Section Sync.
Context (osd_create : nat -> bool).

Lemma create_spec st s e : (s < length (e_streams e))%nat ->
  exists e' c, create_elem_shm osd_create st s e = (e', c) /\ only_stream s e e' /\
    es_place_taken (stream_of e' s) = es_place_taken (stream_of e s) /\
    (es_shm (stream_of e s) = false -> es_shm (stream_of e' s) = false -> region_dims st e s = None \/ osd_create (st_creates st) = false).
Proof.
  intros Hs. unfold create_elem_shm. destruct (region_dims st e s) as [[w h]|]; [|do 2 eexists; split_and!; [done..|auto]]. cbv zeta.
  destruct (osd_create (st_creates st)); cbn [negb]; [|do 2 eexists; split_and!; [done..|auto]].
  do 2 eexists. split_and!; [done | by apply upd_stream_only | by rewrite stream_of_upd, decide_True |].
  intros _. rewrite stream_of_upd, decide_True by done. done.
Qed.

Lemma destroy_spec s e : (s < length (e_streams e))%nat ->
  only_stream s e (destroy_elem_shm s e) /\ es_place_taken (stream_of (destroy_elem_shm s e) s) = es_place_taken (stream_of e s) /\
  es_shm (stream_of (destroy_elem_shm s e) s) = false.
Proof.
  intros Hs. split; [apply upd_stream_only; intros x; by destruct (negb _)|]. unfold destroy_elem_shm.
  rewrite stream_of_upd, decide_True by done. by destruct (es_shm (stream_of e s)) eqn:E; cbn.
Qed.

Lemma region_dims_only st s e e' : only_stream s e e' -> region_dims st e' s = region_dims st e s.
Proof. intros (He & _ & _ & Hf). unfold region_dims. rewrite Hf. by rewrite He. Qed.

(** What one element of the walk comes to. *)
Lemma sync_elem_spec s st taken i e : st_elements st !! i = Some e -> (s < length (e_streams e))%nat -> Z.of_nat (length taken) < ROD_MAX_ELEMENTS ->
  exists e' c, sync_elem osd_create s (st, taken) i =
      (st <| st_elements := <[i := e']> (st_elements st) |> <| st_creates := c |>, if es_shm (stream_of e' s) then taken ++ [elem_place e] else taken) /\
    only_stream s e e' /\
    let blocked := elem_draws e s && bool_decide (elem_place e ∈ taken) in
    es_place_taken (stream_of e' s) = blocked /\
    (es_shm (stream_of e' s) = true -> elem_draws e s = true /\ blocked = false) /\
    (elem_draws e s = true -> blocked = false -> es_shm (stream_of e' s) = false -> region_dims st e s = None \/ osd_create (st_creates st) = false).
Proof.
  intros Hi Hs Ht. unfold sync_elem. rewrite Hi. cbv zeta. set (blocked := elem_draws e s && bool_decide (elem_place e ∈ taken)).
  set (e1 := if Bool.eqb blocked _ then e else _).
  assert (He1 : only_stream s e e1 /\ es_place_taken (stream_of e1 s) = blocked).
  { subst e1. destruct (Bool.eqb blocked _) eqn:E; [by apply Bool.eqb_prop in E|]. split; [by apply upd_stream_only|].
    rewrite stream_of_upd, decide_True by done. done. }
  destruct He1 as (Ho1 & Hb1). clearbody e1.
  assert (Hs1 : (s < length (e_streams e1))%nat) by (destruct Ho1 as (_ & -> & _); done).
  assert (H2 : exists e2 c, (if elem_draws e s && negb blocked then if es_shm (stream_of e1 s) then (e1, st_creates st) else create_elem_shm osd_create st s e1
      else (destroy_elem_shm s e1, st_creates st)) = (e2, c) /\ only_stream s e e2 /\ es_place_taken (stream_of e2 s) = blocked /\
      (es_shm (stream_of e2 s) = true -> elem_draws e s = true /\ blocked = false) /\
      (elem_draws e s = true -> blocked = false -> es_shm (stream_of e2 s) = false -> region_dims st e s = None \/ osd_create (st_creates st) = false)).
  { destruct (elem_draws e s) eqn:Ed; [destruct blocked eqn:Ebl|]; cbn [andb negb].
    - destruct (destroy_spec s e1 Hs1) as (D1 & D2 & D3). do 2 eexists. split_and!; [done | by etransitivity | congruence | by rewrite D3 | done].
    - destruct (es_shm (stream_of e1 s)) eqn:Esh; [do 2 eexists; split_and!; [done..|congruence]|].
      destruct (create_spec st s e1 Hs1) as (e2 & c & -> & C1 & C2 & C3). do 2 eexists. split_and!; [done | by etransitivity | congruence | done |].
      intros _ _ Hf. rewrite <- (region_dims_only st s e e1) by done. by apply C3.
    - destruct (destroy_spec s e1 Hs1) as (D1 & D2 & D3). do 2 eexists. split_and!; [done | by etransitivity | congruence | by rewrite D3 | done]. }
  destruct H2 as (e2 & c & -> & H3 & H4 & H5 & H6). exists e2, c. split; [|split_and!; done].
  destruct (Z.ltb_spec (Z.of_nat (length taken)) ROD_MAX_ELEMENTS); [|lia]. rewrite andb_true_r.
  destruct (only_draws s e e2 s H3) as [_ ->]. done.
Qed.

Lemma sync_elem_only s st taken i : state_shape st -> (s < st_stream_count st)%nat -> only_state s st (sync_elem osd_create s (st, taken) i).1.
Proof.
  intros (_ & Hn & Hl) Hs. destruct (st_elements st !! i) as [e|] eqn:Hi; [|unfold sync_elem; by rewrite Hi].
  assert (Hse : (s < length (e_streams e))%nat) by (rewrite (Forall_lookup_1 _ _ _ _ Hl Hi); lia).
  unfold sync_elem. rewrite Hi. cbv zeta. set (blocked := elem_draws e s && bool_decide (elem_place e ∈ taken)). set (e1 := if Bool.eqb blocked _ then e else _).
  assert (Ho1 : only_stream s e e1) by (subst e1; destruct (Bool.eqb blocked _); [done | by apply upd_stream_only]).
  assert (Hs1 : (s < length (e_streams e1))%nat) by (destruct Ho1 as (_ & -> & _); done).
  assert (H2 : exists e2 c, (if elem_draws e s && negb blocked then if es_shm (stream_of e1 s) then (e1, st_creates st) else create_elem_shm osd_create st s e1
      else (destroy_elem_shm s e1, st_creates st)) = (e2, c) /\ only_stream s e e2).
  { clearbody e1 blocked. destruct (elem_draws e s && negb blocked); [destruct (es_shm (stream_of e1 s)); [do 2 eexists; split; [reflexivity | exact Ho1]|]|].
    - destruct (create_spec st s e1 Hs1) as (e2 & c & -> & C1 & _). do 2 eexists. split; [done | by etransitivity].
    - destruct (destroy_spec s e1 Hs1) as [D _]. do 2 eexists. split; [done | by etransitivity]. }
  destruct H2 as (e2 & c & -> & H2). cbn [fst]. split; [by destruct st|]. cbn. rewrite list_insert_alter. apply Forall2_alter_r; [apply _|].
  intros e' He'. rewrite Hi in He'. by injection He' as <-.
Qed.

(** The places held on stream [s] by the first [k] elements. *)
Definition claims (es : list rod_element) (s k : nat) : list (list Z) :=
  elem_place <$> filter (fun e => es_shm (stream_of e s) = true) (take k es).

(** Where element [i] stands on stream [s]: it is marked blocked exactly when it
    would draw where an earlier one has a buffer; it has a buffer only if it draws
    and is not blocked; and drawing, unblocked and without one, it could not be given one. *)
Definition settled (st : rod_state) (s i : nat) (e : rod_element) : Prop :=
  es_place_taken (stream_of e s) = elem_draws e s && bool_decide (elem_place e ∈ claims (st_elements st) s i) /\
  (es_shm (stream_of e s) = true -> elem_draws e s = true /\ elem_place e ∉ claims (st_elements st) s i) /\
  (elem_draws e s = true -> elem_place e ∉ claims (st_elements st) s i -> es_shm (stream_of e s) = false ->
     region_dims st e s = None \/ exists n, osd_create n = false).

Definition settled_on (st : rod_state) (s : nat) : Prop :=
  forall i e, st_elements st !! i = Some e -> settled st s i e.

Lemma claims_S es s k e : es !! k = Some e ->
  claims es s (S k) = claims es s k ++ if es_shm (stream_of e s) then [elem_place e] else [].
Proof.
  intros He. unfold claims. rewrite (take_S_r _ _ _ He), filter_app, fmap_app. f_equal.
  destruct (es_shm (stream_of e s)) eqn:E; [by rewrite filter_cons_True | by rewrite filter_cons_False by congruence].
Qed.

Lemma claims_insert es s k i e : (k <= i)%nat -> claims (<[i := e]> es) s k = claims es s k.
Proof. intros. unfold claims. by rewrite take_insert_ge. Qed.

Lemma claims_length es s k : (length (claims es s k) <= k)%nat.
Proof. unfold claims. rewrite length_fmap. etransitivity; [apply length_filter|]. rewrite length_take. lia. Qed.

Lemma region_dims_state s st st' e : only_state s st st' -> region_dims st' e = region_dims st e.
Proof. intros [-> _]. done. Qed.

Lemma sync_walk s st0 k : state_shape st0 -> (s < st_stream_count st0)%nat -> Z.of_nat (length (st_elements st0)) <= ROD_MAX_ELEMENTS ->
  (k <= length (st_elements st0))%nat ->
  let r := fold_left (sync_elem osd_create s) (seq 0 k) (st0, []) in
  only_state s st0 r.1 /\ r.2 = claims (st_elements r.1) s k /\ NoDup r.2 /\
  (forall i e, (i < k)%nat -> st_elements r.1 !! i = Some e -> settled r.1 s i e) /\
  (forall i, (k <= i)%nat -> st_elements r.1 !! i = st_elements st0 !! i).
Proof.
  intros Hsh Hs H16. induction k as [|k IH]; intros Hk; cbn zeta.
  { cbn. split_and!; [done | done | constructor | lia | done]. }
  specialize (IH ltac:(lia)). rewrite seq_S, fold_left_app. cbn [Nat.add fold_left].
  destruct (fold_left _ (seq 0 k) _) as [st taken]. cbn [fst snd] in IH. destruct IH as (I1 & I2 & I3 & I4 & I5).
  destruct (lookup_lt_is_Some_2 (st_elements st0) k) as [e He]; [lia|]. rewrite <- I5 in He by lia.
  assert (Hsh' : state_shape st) by (eapply shape_same; [by eapply only_state_same | done]).
  assert (Hse : (s < length (e_streams e))%nat).
  { destruct Hsh' as (_ & _ & Hl). rewrite (Forall_lookup_1 _ _ _ _ Hl He). destruct Hsh. lia. }
  pose proof (claims_length (st_elements st) s k).
  destruct (sync_elem_spec s st taken k e He Hse) as (e' & c & -> & Ho & Hspec); [subst taken; lia|]. cbv zeta in Hspec.
  destruct Hspec as (S1 & S2 & S3). cbn [fst snd st_elements]. set (st' := st <| st_elements := <[k := e']> (st_elements st) |> <| st_creates := c |>).
  assert (Hst' : st_elements st' = <[k := e']> (st_elements st)) by done.
  assert (Hstep : only_state s st st').
  { split; [by destruct st|]. rewrite Hst', list_insert_alter. apply Forall2_alter_r; [apply _|]. intros e0 H0. rewrite He in H0. by injection H0 as <-. }
  assert (Hk' : st_elements st' !! k = Some e') by (rewrite Hst'; apply list_lookup_insert_eq; by eapply lookup_lt_Some).
  destruct (only_draws s e e' s Ho) as [Hd Hp]. rewrite <- Hd, <- Hp in *.
  assert (Hcl : forall i, (i <= k)%nat -> claims (st_elements st') s i = claims (st_elements st) s i) by (intros; rewrite Hst'; by apply claims_insert).
  split_and!.
  - by etransitivity.
  - rewrite (claims_S _ _ _ e') by done. rewrite Hcl, <- I2 by lia. by destruct (es_shm _); rewrite ?app_nil_r.
  - destruct (es_shm (stream_of e' s)) eqn:Eshm; [|done]. apply NoDup_app. split_and!; [done| |by apply NoDup_singleton].
    intros x Hx Hin. apply list_elem_of_singleton in Hin. subst x. destruct (S2 eq_refl) as [Hdr Hbl]. rewrite Hdr in Hbl. cbn in Hbl.
    by apply bool_decide_eq_false in Hbl.
  - intros i e0 Hi He0. destruct (decide (i = k)) as [->|Hne].
    + rewrite Hk' in He0. injection He0 as <-. unfold settled. rewrite Hcl, <- I2 by lia. split_and!; [done| |].
      * intros Hshm. destruct (S2 Hshm) as [Hdr Hbl]. split; [done|]. rewrite Hdr in Hbl. by apply bool_decide_eq_false in Hbl.
      * intros Hdr Hnin Hshm. rewrite Hdr in S3. rewrite (region_dims_state s st st') by done. rewrite (region_dims_only st s e e') by done.
        destruct S3 as [?|?]; [done | cbn; by apply bool_decide_eq_false | done | by left | right; by eexists].
    + rewrite Hst', list_lookup_insert_ne in He0 by done. specialize (I4 i e0 ltac:(lia) He0). unfold settled in *.
      rewrite Hcl by lia. by rewrite (region_dims_state s st st').
  - intros i Hi. rewrite Hst', list_lookup_insert_ne by lia. apply I5. lia.
Qed.

Lemma sync_stream_spec s st : state_shape st -> (s < st_stream_count st)%nat -> Z.of_nat (length (st_elements st)) <= ROD_MAX_ELEMENTS ->
  only_state s st (sync_stream osd_create s st) /\ settled_on (sync_stream osd_create s st) s /\
  NoDup (claims (st_elements (sync_stream osd_create s st)) s (length (st_elements st))).
Proof.
  intros Hsh Hs H16. destruct (sync_walk s st (length (st_elements st)) Hsh Hs H16 ltac:(lia)) as (I1 & I2 & I3 & I4 & _).
  unfold sync_stream. split_and!; [done | | by rewrite <- I2]. intros i e He. apply I4; [|done].
  apply lookup_lt_Some in He. destruct I1 as [_ Hf]. by rewrite <- (Forall2_length _ _ _ Hf) in He.
Qed.

(** Work on one stream leaves the others as they were. *)
Lemma claims_other s s' es es' k : s' <> s -> Forall2 (only_stream s') es es' -> claims es' s k = claims es s k.
Proof.
  intros Hne Hf. revert k. induction Hf as [|e e' es es' He Hf IH]; intros [|k]; [done..|]. unfold claims in *. cbn [take].
  destruct (only_draws s' e e' s He) as [_ Hp]. assert (Hx : stream_of e' s = stream_of e s) by (destruct He as (_ & _ & H & _); by apply H).
  destruct (es_shm (stream_of e s)) eqn:E.
  - rewrite !filter_cons_True by congruence. cbn. by rewrite Hp, IH.
  - rewrite !filter_cons_False by congruence. apply IH.
Qed.

Lemma settled_other s s' st st' : s' <> s -> only_state s' st st' -> settled_on st s -> settled_on st' s.
Proof.
  intros Hne Ho Hset i e' He'. pose proof Ho as [_ Hf]. destruct (Forall2_lookup_r _ _ _ _ _ Hf He') as (e & He & Hoe).
  specialize (Hset i e He). unfold settled in *. rewrite (claims_other s s' _ _ i Hne Hf). destruct (only_draws s' e e' s Hoe) as [-> ->].
  assert (Hx : stream_of e' s = stream_of e s) by (destruct Hoe as (_ & _ & H & _); by apply H). rewrite Hx.
  assert (Hr : region_dims st' e' s = region_dims st e s); [|by rewrite Hr].
  rewrite (region_dims_state s' st st') by done. destruct Hoe as (Hoe & _). unfold region_dims. rewrite Hx. by rewrite Hoe.
Qed.

End Sync.

(** ** Loops over the streams and the elements *)

Lemma fold_seq_ind {A} (P : nat -> A -> Prop) (f : A -> nat -> A) n a :
  P 0%nat a -> (forall k b, (k < n)%nat -> P k b -> P (S k) (f b k)) -> P n (fold_left f (seq 0 n) a).
Proof.
  intros H0 HS. induction n as [|n IH]; [done|]. rewrite seq_S, fold_left_app. cbn. apply HS; [lia|]. apply IH. intros k b Hk. apply HS. lia.
Qed.

Lemma each_stream_ind (P : nat -> rod_state -> Prop) f st :
  P 0%nat st -> (forall s st', (s < st_stream_count st)%nat -> P s st' -> P (S s) (f s st')) -> P (st_stream_count st) (each_stream st f).
Proof. intros. unfold each_stream. by apply fold_seq_ind. Qed.

Lemma each_stream_rel (R : rod_state -> rod_state -> Prop) `{!PreOrder R} f st :
  (forall s st', (s < st_stream_count st)%nat -> R st st' -> R st' (f s st')) -> R st (each_stream st f).
Proof. intros Hf. apply (each_stream_ind (fun _ st' => R st st')); [done|]. intros s st' Hs HR. etransitivity; [done|]. by apply Hf. Qed.

Section SyncAll.
Context (osd_create : nat -> bool).

Lemma sync_same st : state_shape st -> Z.of_nat (length (st_elements st)) <= ROD_MAX_ELEMENTS -> same_fonts st (rod_sync_shms osd_create st).
Proof.
  intros Hsh H16. unfold rod_sync_shms. apply (each_stream_rel same_fonts). intros s st' Hs Hsame. eapply only_state_same, sync_stream_spec.
  - by eapply shape_same.
  - destruct Hsame as ((-> & _) & _). done.
  - destruct Hsame as (_ & _ & Hf). by rewrite <- (Forall2_length _ _ _ Hf).
Qed.

(** No place on a stream has two buffers. *)
Definition exclusive (st : rod_state) : Prop :=
  forall s, (s < st_stream_count st)%nat -> NoDup (claims (st_elements st) s (length (st_elements st))).

Lemma sync_settles st : state_shape st -> Z.of_nat (length (st_elements st)) <= ROD_MAX_ELEMENTS ->
  exclusive (rod_sync_shms osd_create st) /\ forall s, (s < st_stream_count st)%nat -> settled_on osd_create (rod_sync_shms osd_create st) s.
Proof.
  intros Hsh H16.
  assert (H : same_fonts st (rod_sync_shms osd_create st) /\ forall s, (s < st_stream_count st)%nat ->
    settled_on osd_create (rod_sync_shms osd_create st) s /\ NoDup (claims (st_elements (rod_sync_shms osd_create st)) s (length (st_elements st)))).
  { unfold rod_sync_shms. apply (each_stream_ind (fun k st' => same_fonts st st' /\ forall s, (s < k)%nat ->
      settled_on osd_create st' s /\ NoDup (claims (st_elements st') s (length (st_elements st))))); [split; [done|lia]|].
    intros s st' Hs [Hsame Hk]. pose proof Hsame as ((Hn & _) & _ & Hf). apply Forall2_length in Hf.
    destruct (sync_stream_spec osd_create s st') as (Ho & Hset & Hnd); [by eapply shape_same | by rewrite Hn | by rewrite <- Hf |].
    split; [etransitivity; [done | by eapply only_state_same]|]. intros s' Hs'. destruct (decide (s' = s)) as [->|Hne]; [by rewrite Hf|].
    destruct (Hk s' ltac:(lia)) as [H1 H2]. split; [by eapply (settled_other osd_create s' s)|].
    destruct Ho as [_ Ho]. by rewrite (claims_other s' s _ _ _ ltac:(done) Ho). }
  destruct H as [((Hn & _) & _ & Hf) H]. split; [|intros s Hs; by apply H]. intros s Hs. rewrite Hn in Hs. rewrite <- (Forall2_length _ _ _ Hf). by apply H.
Qed.

End SyncAll.

(** ** Releasing and allocating in a state *)

Lemma font_row_upd st s i f s' : (s < length (st_fonts st))%nat ->
  font_row (upd_font s i f st) s' = if decide (s' = s) then <[i := f]> (font_row st s) else font_row st s'.
Proof.
  intros Hs. unfold font_row, upd_font. cbn. case_decide as Hd.
  - subst s'. rewrite list_lookup_alter_eq. apply lookup_lt_is_Some_2 in Hs as [row ->]. done.
  - by rewrite list_lookup_alter_ne.
Qed.

(** Two states alike but for the fonts and the counts of outside calls. *)
Definition only_fonts (st st' : rod_state) : Prop :=
  length (st_fonts st') = length (st_fonts st) /\ st' = st <| st_fonts := st_fonts st' |> <| st_inits := st_inits st' |>.

Lemma release_row st s x : (s < length (st_fonts st))%nat ->
  only_fonts st (release_font s x st) /\
  forall s', font_row (release_font s x st) s' = if decide (s' = s) then row_release x (font_row st s) else font_row st s'.
Proof.
  intros Hs. unfold release_font, row_release. destruct (Z.ltb_spec x 0); cbn [orb].
  { split; [split; [done | by destruct st]|]. intros s'. case_decide; [by subst | done]. }
  destruct (ROD_MAX_FONTS <=? x).
  { split; [split; [done | by destruct st]|]. intros s'. case_decide; [by subst | done]. }
  split; [split; [unfold upd_font; cbn; by rewrite length_alter | by destruct st]|]. intros s'. rewrite font_row_upd by done.
  unfold font_at. destruct (Z.ltb_spec x 0); [lia | done].
Qed.

Section Alloc.
Context (sft : nat -> sft_ops) (Hsft : forall n, sft_sound (sft n)).

Lemma render_init_refcount lib shared stroke size f : f_refcount (rod_render_init lib shared stroke size f).1 = f_refcount f.
Proof.
  unfold rod_render_init. destruct (negb _); [done|]. destruct (sft_lmetrics lib size) as [[a d]|]; [|done]. by destruct (cache_glyphs lib size).
Qed.

Lemma render_init_face lib shared stroke size f f' : rod_render_init lib shared stroke size f = (f', true) -> f_face f' = true.
Proof.
  unfold rod_render_init. destruct (negb _); [done|]. destruct (sft_lmetrics lib size) as [[a d]|]; [|done].
  destruct (cache_glyphs lib size). intros [= <-]. done.
Qed.

Lemma alloc_row st s size st' y : (s < length (st_fonts st))%nat -> Forall font_ok (font_row st s) ->
  rod_alloc_font sft s size st = (st', y) ->
  exists row', row_alloc (font_row st s) size row' y /\ only_fonts st st' /\
    forall s', font_row st' s' = if decide (s' = s) then row' else font_row st s'.
Proof.
  intros Hs Hok. unfold rod_alloc_font.
  destruct (list_find (fun f => 0 < f_refcount f /\ f_size f = size) (font_row st s)) as [[i f]|] eqn:E1.
  { apply list_find_Some in E1 as (Hi & [Hpos Hsz] & _). intros [= <- <-]. eexists. split; [by apply Alloc_shared|].
    split; [split; [unfold upd_font; cbn; by rewrite length_alter | by destruct st] | intros; by apply font_row_upd]. }
  destruct (list_find (fun f => f_refcount f = 0) (font_row st s)) as [[i f]|] eqn:E2.
  2: { intros [= <- <-]. eexists. split; [by apply Alloc_none|]. split; [split; [done | by destruct st]|]. intros s'. case_decide; [by subst | done]. }
  apply list_find_Some in E2 as (Hi & Hz & _). set (lib := sft (st_inits st)). set (stroke := c_font_stroke (st_settings st)).
  set (shared := f_face (font_at st 0 0)). pose proof (render_init_refcount lib shared stroke size f) as Hrc.
  pose proof (render_init_ok lib shared stroke size f (Hsft _) (Forall_lookup_1 _ _ _ _ Hok Hi)) as Hfok.
  pose proof (render_init_face lib shared stroke size f) as Hface.
  destruct (rod_render_init lib shared stroke size f) as [f' ok]. cbn [fst] in *. set (st1 := st <| st_inits := S (st_inits st) |>).
  assert (Hall : forall g, only_fonts st (upd_font s i g st1) /\
    forall s', font_row (upd_font s i g st1) s' = if decide (s' = s) then <[i := g]> (font_row st s) else font_row st s').
  { intros g. split; [split; [unfold upd_font; cbn; by rewrite length_alter | by destruct st]|]. intros s'. by rewrite font_row_upd. }
  destruct ok; cbn [negb]; intros [= <- <-]; eexists; (split; [|apply Hall]).
  - eapply Alloc_fresh; [exact Hi | done | done | done | exact (Hface f' eq_refl) | exact Hfok].
  - eapply Alloc_failed; [exact Hi | done | congruence | exact Hfok].
Qed.

End Alloc.

(** ** Changing the font of one element on one stream *)

Definition static_want (w : nat -> nat -> rod_element -> option Z) : Prop :=
  forall s k e e', static e e' -> w s k e' = w s k e.

(** [w'] asks for what [w] asks for, but of element [i] on stream [s]. *)
Definition want_but (s i : nat) (w w' : nat -> nat -> rod_element -> option Z) : Prop :=
  forall s' k e, (s' <> s \/ k <> i) -> w' s' k e = w s' k e.

Definition moves_font (s : nat) (y : Z) (e e' : rod_element) : Prop :=
  static e e' /\ es_font_idx (stream_of e' s) = y /\ forall s', s' <> s -> es_font_idx (stream_of e' s') = es_font_idx (stream_of e s').

Lemma view_moved w w' s i es e y g : es !! i = Some e -> e_active e = true -> moves_font s y e (g e) -> static_want w' -> want_but s i w w' ->
  view (w' s) s (alter g i es) = <[i := (y, w' s i e)]> (view (w s) s es).
Proof.
  intros Hi Ha (Hst & Hy & _) Hw Hb. apply list_eq. intros k. rewrite view_lookup. destruct (decide (k = i)) as [->|Hne].
  - rewrite list_lookup_alter_eq, Hi. cbn. rewrite list_lookup_insert_eq by (rewrite view_length; by eapply lookup_lt_Some).
    pose proof Hst as (-> & _). by rewrite Ha, Hy, (Hw s i e).
  - rewrite list_lookup_alter_ne, list_lookup_insert_ne, view_lookup by done. destruct (es !! k); [|done]. cbn. rewrite Hb by auto. done.
Qed.

Lemma view_unmoved w w' s s' i es e y g : s' <> s -> es !! i = Some e -> moves_font s y e (g e) -> static_want w' -> want_but s i w w' ->
  view (w' s') s' (alter g i es) = view (w s') s' es.
Proof.
  intros Hs' Hi (Hst & _ & Ho) Hw Hb. apply list_eq. intros k. rewrite !view_lookup. destruct (decide (k = i)) as [->|Hne].
  - rewrite list_lookup_alter_eq, Hi. cbn. pose proof Hst as (-> & _). rewrite Ho, (Hw s' i e), Hb by auto. done.
  - rewrite list_lookup_alter_ne by done. destruct (es !! k); [|done]. cbn. by rewrite Hb by auto.
Qed.

Lemma shape_alter st i g : (forall e, st_elements st !! i = Some e -> length (e_streams (g e)) = length (e_streams e)) ->
  state_shape st -> state_shape (upd_elem i g st).
Proof.
  intros Hg (H1 & H2 & H3). split_and!; [done | done|]. cbn. apply Forall_lookup_2. intros k e He.
  destruct (decide (i = k)) as [->|Hne]; [|rewrite list_lookup_alter_ne in He by done; by eapply (Forall_lookup_1 _ _ _ _ H3)].
  rewrite list_lookup_alter_eq in He. destruct (st_elements st !! k) as [e0|] eqn:E; [|done]. cbn in He. injection He as <-.
  rewrite Hg by done. by eapply (Forall_lookup_1 _ _ _ _ H3).
Qed.

Lemma pools_moved w w' st st2 i s e y row2 g :
  pools_ok w st -> st_elements st !! i = Some e -> e_active e = true -> (s < st_stream_count st)%nat ->
  only_fonts st st2 -> (forall s', font_row st2 s' = if decide (s' = s) then row2 else font_row st s') ->
  static_want w' -> want_but s i w w' -> moves_font s y e (g e) ->
  pool_ok row2 (<[i := (y, w' s i e)]> (view (w s) s (st_elements st))) ->
  pools_ok w' (upd_elem i g st2).
Proof.
  intros [Hsh Hp] Hi Ha Hs [Hlen Hst2] Hrow Hw Hb Hm Hpool.
  assert (Hel : st_elements st2 = st_elements st) by (by rewrite Hst2). assert (Hn : st_stream_count st2 = st_stream_count st) by (by rewrite Hst2).
  split.
  - apply shape_alter.
    + intros e0 He0. rewrite Hel, Hi in He0. injection He0 as <-. by destruct Hm as ((_ & _ & _ & _ & _ & ?) & _).
    + destruct Hsh as (H1 & H2 & H3). split_and!; [congruence | by rewrite Hn | by rewrite Hel].
  - intros s' Hs'. change (font_row (upd_elem i g st2) s') with (font_row st2 s'). change (st_elements (upd_elem i g st2)) with (alter g i (st_elements st2)).
    rewrite Hel, Hrow. case_decide as Hd; [subst s'; by rewrite (view_moved w w' s i _ e y g)|].
    rewrite (view_unmoved w w' s s' i _ e y g) by done. apply Hp. by rewrite <- Hn.
Qed.

Lemma only_fonts_trans st1 st2 st3 : only_fonts st1 st2 -> only_fonts st2 st3 -> only_fonts st1 st3.
Proof. intros [A1 A2] [B1 B2]. split; [congruence|]. rewrite B2 at 1. by rewrite A2. Qed.

(** Releasing a context and allocating another for the same element. *)
Lemma refont_ok sft w w' st i s e size st2 y g : (forall n, sft_sound (sft n)) ->
  pools_ok w st -> st_elements st !! i = Some e -> e_active e = true -> (s < st_stream_count st)%nat ->
  rod_alloc_font sft s size (release_font s (es_font_idx (stream_of e s)) st) = (st2, y) ->
  static_want w' -> want_but s i w w' -> (w' s i e = None \/ w' s i e = Some size) -> moves_font s y e (g e) ->
  pools_ok w' (upd_elem i g st2) /\ - 1 <= y < ROD_MAX_FONTS.
Proof.
  intros Hsft Hok Hi Ha Hs Halloc Hw Hb Hsz Hm. pose proof Hok as [(Hlf & Hcount & _) Hp].
  assert (Hsf : (s < length (st_fonts st))%nat) by lia. set (x := es_font_idx (stream_of e s)) in *.
  destruct (release_row st s x Hsf) as [Ho1 Hr1]. set (st1 := release_font s x st) in *.
  assert (Hv : view (w s) s (st_elements st) !! i = Some (x, w s i e)) by (rewrite view_lookup, Hi; cbn; by rewrite Ha).
  assert (Hp1 : pool_ok (row_release x (font_row st s)) (<[i := (- 1, None)]> (view (w s) s (st_elements st)))) by (eapply pool_release; [exact Hv | by apply Hp]).
  pose proof (Hr1 s) as Hrs. rewrite decide_True in Hrs by done.
  destruct (alloc_row sft Hsft st1 s size st2 y) as (row2 & Ha2 & Ho2 & Hr2); [destruct Ho1; lia | rewrite Hrs; by destruct Hp1 as (_ & ? & _) | done |].
  rewrite Hrs in Ha2.
  assert (Hlk : <[i := (- 1, None)]> (view (w s) s (st_elements st)) !! i = Some (- 1, None)).
  { apply list_lookup_insert_eq. rewrite view_length. by eapply lookup_lt_Some. }
  destruct (pool_alloc _ _ _ _ _ _ _ (w' s i e) Hlk Ha2 Hsz Hp1) as [Hp2 Hy]. rewrite list_insert_insert_eq in Hp2. split; [|done].
  eapply (pools_moved w w' st st2 i s e y row2 g); try done; [by eapply only_fonts_trans|].
  intros s'. rewrite Hr2, Hr1. by case_decide.
Qed.

(** Releasing one for good. *)
Lemma unfont_ok w st i s e g : pools_ok w st -> st_elements st !! i = Some e -> e_active e = true -> (s < st_stream_count st)%nat ->
  static_want w -> moves_font s (- 1) e (g e) -> pools_ok w (upd_elem i g (release_font s (es_font_idx (stream_of e s)) st)).
Proof.
  intros Hok Hi Ha Hs Hw Hm. pose proof Hok as [(Hlf & Hcount & _) Hp]. set (x := es_font_idx (stream_of e s)) in *.
  destruct (release_row st s x ltac:(lia)) as [Ho1 Hr1].
  eapply (pools_moved w w st _ i s e (- 1) (row_release x (font_row st s)) g); try done.
  eapply pool_release; [rewrite view_lookup, Hi; cbn; by rewrite Ha | by apply Hp].
Qed.

Lemma pools_weaken w w' st : pools_ok w st -> (forall s k e, (s < st_stream_count st)%nat -> st_elements st !! k = Some e -> w' s k e = None \/ w' s k e = w s k e) -> pools_ok w' st.
Proof.
  intros [Hsh Hp] Hw. split; [done|]. intros s Hs. eapply pool_weaken; [|by apply Hp].
  apply Forall2_same_length_lookup. rewrite !view_length. split; [done|]. intros k a b Ha Hb. rewrite view_lookup in Ha, Hb.
  destruct (st_elements st !! k) as [e|] eqn:Ek; [|done]. cbn in *. injection Ha as <-. injection Hb as <-. destruct (e_active e); [|auto]. cbn. split; [done|].
  destruct (Hw s k e Hs Ek) as [->| ->]; auto.
Qed.
