(* ===== verification/RodCtrl.v ===== *)
(** * rod: control commands, rendering and start (rod/rod_ctrl.c, rod_main.c, rod_config.c)

    The commands of the control socket, one function each, the render tick, and the
    loading of the elements from the configuration.  The JSON accessors, the font
    size parser and the configuration file are parameters. *)

From Stdlib Require Import String.
From stdpp Require Import list list_numbers.
From S2P Require Import Prelude Mux RtmpUrl RodDraw RodReceipt RodTemplate RodElem.

(** A parsed command: [js_str key size] is what rss_json_get_str stores, if it
    finds the key. *)
Record json := mk_json { js_str : string -> Z -> option (list Z); js_int : string -> option Z }.

Inductive resp :=
  | Resp_ok
  | Resp_error (msg : string)
  | Resp_elements (l : list (list Z * rod_elem_type * bool * list Z * option (list Z) * Z))
  | Resp_config (enabled : bool) (font_size font_color stroke_color font_stroke : Z) (time_format : list Z) (elements : Z)
  | Resp_status (streams elements regions : Z)
  | Resp_common.

(** ** [strtoul(s, NULL, 0)], 64-bit *)

Definition digit_val (c : Z) : Z :=
  if is_digit c then c - 48
  else if (97 <=? c) && (c <=? 122) then c - 87
  else if (65 <=? c) && (c <=? 90) then c - 55
  else 255.

Fixpoint digits_base (base acc : Z) (l : list Z) : Z :=
  match l with
  | c :: l => if digit_val c <? base then digits_base base (acc * base + digit_val c) l else acc
  | [] => acc
  end.

Definition ULONG_MAX : Z := 2 ^ 64 - 1.

Definition strtoul_mag (l : list Z) : Z :=
  Z.min ULONG_MAX
    match l with
    | 0x30 :: x :: d :: rest =>
        if ((x =? 0x78) || (x =? 0x58)) && (digit_val d <? 16) then digits_base 16 0 (d :: rest) else digits_base 8 0 l
    | 0x30 :: _ => digits_base 8 0 l
    | _ => digits_base 10 0 l
    end.

Fixpoint strtoul (l : list Z) : Z :=
  match l with
  | [] => 0
  | c :: l' => if is_space c then strtoul l'
               else if c =? 0x2D then (- strtoul_mag l') mod 2 ^ 64
               else if c =? 0x2B then strtoul_mag l'
               else strtoul_mag l
  end.

Definition parse_color (s : option (list Z)) : Z := match s with None => 0xFFFFFFFF | Some s => u32 (strtoul s) end.

(** [strstr(fmt, "%f") != NULL]. *)
Fixpoint has_frame (fmt : list Z) : bool :=
  match fmt with
  | a :: ((b :: _) as rest) => ((a =? percent) && (b =? 0x66)) || has_frame rest
  | _ => false
  end.

Section Rod.
Context (sft : nat -> sft_ops) (osd_create : nat -> bool) (env : tmpl_env) (parse_font_size : list Z -> Z * Z).

Abbreviation sync := (rod_sync_shms osd_create).

(** ** Talking to rvd *)

Definition calc_osd_pool_kb (st : rod_state) : Z :=
  let total := fold_left (fun t e => if negb (e_active e) then t else
      fold_left (fun t s => if es_shm (stream_of e s) then u32 (t + u32 (es_width (stream_of e s) * es_height (stream_of e s) * 4)) else t)
        (seq 0 (st_stream_count st)) t) (st_elements st) 0 in
  let total := u32 (total * 5) / 4 in
  let kb := u32 (total + 1023) / 1024 in
  if kb <? 448 then 448 else kb.

Definition notify_rvd_osd_restart (st : rod_state) : rod_state := emit (To_rvd_restart (calc_osd_pool_kb st)) st.

Definition forward_position (name pos : list Z) (target : Z) (st : rod_state) : rod_state :=
  each_stream st (fun s st => if (0 <=? target) && negb (Z.of_nat s =? target) then st else emit (To_rvd_position s name pos) st).

(** ** Settings *)

Definition handle_color_change (j : json) (key : string) (set : Z -> rod_config -> rod_config) (st : rod_state) : rod_state * resp :=
  match js_str j "value" 16 with
  | None => (st, Resp_error "missing value")
  | Some val =>
      let st := st <| st_settings := set (parse_color (Some val)) (st_settings st) |> in
      (mark_all_dirty (emit (Cfg_set (cs "osd") (cs key) val) st), Resp_ok)
  end.

Definition set_position_of (i : nat) (pos : list Z) (st : rod_state) : rod_state :=
  sync (upd_elem i (fun e => e <| e_position := strlcpy 32 pos |>) st).

Definition handle_set_position (j : json) (st : rod_state) : rod_state * resp :=
  let element := default [] (js_str j "element" 32) in
  let pos := default [] (js_str j "pos" 32) in
  match element, pos with
  | [], _ | _, [] => (st, Resp_error "need element and pos")
  | _, _ =>
      let target := default (- 1) (js_int j "stream") in
      let st := if target <? 0 then
                  match rod_find_element st element with Some (i, _) => set_position_of i pos st | None => st end
                else st in
      (forward_position element pos target st, Resp_ok)
  end.

(** [None] is false, with both sizes zero. *)
Definition cmd_font_size (j : json) (key : string) : option (Z * Z) :=
  let '(px, pct) := match js_str j key 16 with
    | Some val => parse_font_size val
    | None => (default 0 (js_int j key), 0)
    end in
  if if 0 <? pct then (1 <=? pct) && (pct <=? 500) else (10 <=? px) && (px <=? 72) then Some (px, pct) else None.

(** One stream of the font reload of set-font-size: a failed allocation leaves the
    index as it was. *)
Definition reload_font (i s : nat) (st : rod_state) : rod_state :=
  match st_elements st !! i with
  | None => st
  | Some e =>
      let fs := rod_font_for_elem st (Some e) (Z.of_nat s) in
      let st := release_font s (es_font_idx (stream_of e s)) st in
      let '(st, fi) := rod_alloc_font sft s fs st in
      if fi <? 0 then emit (Log_stale_font s (e_name e)) st
      else upd_elem i (fun e => destroy_elem_shm s (upd_stream s (fun es => es <| es_font_idx := fi |>) e)) st
  end.

Definition reload_element (st : rod_state) (i : nat) : rod_state :=
  match st_elements st !! i with
  | Some e => if negb (e_active e) || negb (bool_decide (e_type e = ROD_ELEM_TEXT)) then st else each_stream st (reload_font i)
  | None => st
  end.

Definition handle_font_size_change (j : json) (st : rod_state) : rod_state * resp :=
  match cmd_font_size j "value" with
  | None => (st, Resp_error "need 10-72 pixels or 0.1-50%")
  | Some (px, pct) =>
      let st := st <| st_settings := (st_settings st) <| c_font_size := px |> <| c_font_pct := pct |> |> in
      let st := emit (Cfg_set (cs "osd") (cs "font_size") (rod_format_font_size px pct)) st in
      let st := fold_left reload_element (seq 0 (length (st_elements st))) st in
      (notify_rvd_osd_restart (sync st), Resp_ok)
  end.

(** ** Elements *)

Definition rod_live_elements (st : rod_state) : Z :=
  fold_left (fun n e => n + (if e_active e then 1 else 0)) (st_elements st) 0.

Definition handle_elements_list (st : rod_state) : resp :=
  Resp_elements ((fun e => (e_name e, e_type e, e_visible e, e_position e,
    match e_type e with ROD_ELEM_TEXT => Some (e_tmpl e) | _ => None end, rod_font_for_elem st (Some e) 0)) <$>
    filter (fun e => e_active e = true) (st_elements st)).

Definition elem_section (name : list Z) : list Z := cs "osd." ++ name.

Definition type_of (type_str : list Z) : rod_elem_type :=
  if bool_decide (type_str = cs "image") then ROD_ELEM_IMAGE
  else if bool_decide (type_str = cs "overlay") then ROD_ELEM_OVERLAY
  else if bool_decide (type_str = cs "receipt") then ROD_ELEM_RECEIPT
  else ROD_ELEM_TEXT.

Definition draws_text (t : rod_elem_type) : bool := match t with ROD_ELEM_TEXT | ROD_ELEM_RECEIPT => true | _ => false end.

(** The receipt of an element added at run time. *)
Definition receipt_from_cmd (j : json) (max_chars : Z) (r : receipt) : receipt :=
  let ml0 := if 0 <? max_chars then max_chars else 10 in
  let ml0 := if ROD_RECEIPT_MAX_LINES <? ml0 then ROD_RECEIPT_MAX_LINES else ml0 in
  let ml := default 0 (js_int j "max_lines") in
  let mll := default 0 (js_int j "max_line_length") in
  r <| rc_bg_color := 0x80000000 |> <| rc_input_fd := - 1 |>
    <| rc_max_lines := if (0 <? ml) && (ml <=? ROD_RECEIPT_MAX_LINES) then ml else ml0 |>
    <| rc_max_line_len := if (0 <? mll) && (mll <=? ROD_RECEIPT_MAX_LINE) then mll else ROD_RECEIPT_MAX_LINE |>.

(** The first font of a new element on a stream. *)
Definition first_font (i s : nat) (st : rod_state) : rod_state :=
  match st_elements st !! i with
  | None => st
  | Some e =>
      let '(st, fi) := rod_alloc_font sft s (rod_font_for_elem st (Some e) (Z.of_nat s)) st in
      if 0 <=? fi then upd_elem i (upd_stream s (fun es => es <| es_font_idx := fi |>)) st else st
  end.

Definition handle_add_element (j : json) (st : rod_state) : rod_state * resp :=
  let name := default [] (js_str j "name" ROD_ELEM_NAME_LEN) in
  let type_str := default (cs "text") (js_str j "type" 16) in
  let tmpl := sanitize_text (default [] (js_str j "template" ROD_TMPL_LEN)) in
  let '(position, placed) :=
    match js_str j "position" 32 with
    | Some p => (p, true)
    | None => match rod_free_place st with Some p => (strlcpy 32 p, true) | None => (cs "top_left", false) end
    end in
  let '(font_size, font_pct) := default (0, 0) (cmd_font_size j "font_size") in
  let max_chars := default 20 (js_int j "max_chars") in
  let align := default 0 (js_int j "align") in
  match name with
  | [] => (st, Resp_error "need name")
  | _ =>
      match rod_add_element name (type_of type_str) (Some tmpl) (Some position) align font_size max_chars ROD_UPDATE_TICK st with
      | None => (st, Resp_error "add failed (exists or full)")
      | Some st =>
          match rod_find_element st name with
          | None => (st, Resp_error "internal error")
          | Some (i, _) =>
              let st := upd_elem i (fun e => e <| e_font_pct := font_pct |>) st in
              let st := if draws_text (type_of type_str) then
                  let st := if bool_decide (type_of type_str = ROD_ELEM_RECEIPT)
                            then upd_elem i (fun e => e <| e_receipt := receipt_from_cmd j max_chars (e_receipt e) |>) st else st in
                  each_stream st (first_font i)
                else st in
              let st := sync st in
              let st := forward_position name position (- 1) st in
              let section := elem_section name in
              let st := emit (Cfg_set section (cs "type") type_str) st in
              let st := match tmpl with [] => st | _ => emit (Cfg_set section (cs "template") tmpl) st end in
              let st := if placed then emit (Cfg_set section (cs "position") position) st else st in
              (st, Resp_ok)
          end
      end
  end.

Definition handle_remove_element (j : json) (st : rod_state) : rod_state * resp :=
  match default [] (js_str j "name" ROD_ELEM_NAME_LEN) with
  | [] => (st, Resp_error "need name")
  | name =>
      match rod_find_element st name with
      | None => (st, Resp_error "not found")
      | Some _ => (emit (Cfg_remove (elem_section name)) (sync (rod_remove_element name st)), Resp_ok)
      end
  end.

(** One stream of the font change of set-element: a failed allocation leaves no index. *)
Definition change_font (i s : nat) (st : rod_state) : rod_state :=
  match st_elements st !! i with
  | None => st
  | Some e =>
      let fs := rod_font_for_elem st (Some e) (Z.of_nat s) in
      let st := release_font s (es_font_idx (stream_of e s)) st in
      let '(st, fi) := rod_alloc_font sft s fs st in
      if fi <? 0 then upd_elem i (upd_stream s (fun es => es <| es_font_idx := - 1 |>)) st
      else upd_elem i (fun e => destroy_elem_shm s (upd_stream s (fun es => es <| es_font_idx := fi |>) e)) st
  end.

Definition set_element_template (j : json) (i : nat) (st : rod_state) : rod_state :=
  match js_str j "template" ROD_TMPL_LEN with
  | None => st
  | Some val =>
      sync (upd_elem i (fun e => mark_element_dirty (st_stream_count st)
        (e <| e_tmpl := strlcpy ROD_TMPL_LEN (sanitize_text val) |> <| e_last_expanded := [] |>)) st)
  end.

Definition set_element_position (j : json) (name : list Z) (i : nat) (st : rod_state) : rod_state :=
  match js_str j "position" ROD_TMPL_LEN with
  | None => st
  | Some val => forward_position name val (- 1) (set_position_of i val st)
  end.

(** The fields that only mark the element dirty. *)
Definition set_element_looks (j : json) (i : nat) (st : rod_state) : rod_state :=
  let dirty := mark_element_dirty (st_stream_count st) in
  let st := match js_int j "align" with
    | Some v => if (0 <=? v) && (v <=? 2) then upd_elem i (fun e => dirty (e <| e_align := v |>)) st else st
    | None => st end in
  let st := match js_str j "color" ROD_TMPL_LEN with
    | Some v => upd_elem i (fun e => dirty (e <| e_color := u32 (strtoul v) |> <| e_has_color := true |>)) st
    | None => st end in
  let st := match js_str j "stroke_color" ROD_TMPL_LEN with
    | Some v => upd_elem i (fun e => dirty (e <| e_stroke_color := u32 (strtoul v) |> <| e_has_stroke_color := true |>)) st
    | None => st end in
  match js_int j "stroke_size" with
  | Some v => if (0 <=? v) && (v <=? 5) then upd_elem i (fun e => dirty (e <| e_stroke_size := v |>)) st else st
  | None => st end.

Definition set_element_font (j : json) (i : nat) (st : rod_state) : rod_state :=
  match cmd_font_size j "font_size", st_elements st !! i with
  | Some (px, pct), Some e =>
      if (negb (px =? e_font_size e) || negb (pct =? e_font_pct e)) && draws_text (e_type e) then
        let st := upd_elem i (fun e => e <| e_font_size := px |> <| e_font_pct := pct |>) st in
        let st := each_stream st (change_font i) in
        notify_rvd_osd_restart (sync st)
      else st
  | _, _ => st
  end.

Definition handle_set_element (j : json) (st : rod_state) : rod_state * resp :=
  match default [] (js_str j "name" ROD_ELEM_NAME_LEN) with
  | [] => (st, Resp_error "need name")
  | name =>
      match rod_find_element st name with
      | None => (st, Resp_error "not found")
      | Some (i, _) =>
          (set_element_font j i (set_element_looks j i (set_element_position j name i (set_element_template j i st))), Resp_ok)
      end
  end.

Definition handle_set_var (j : json) (st : rod_state) : rod_state * resp :=
  let value := sanitize_text (default [] (js_str j "value" 128)) in
  match default [] (js_str j "name" 32) with
  | [] => (st, Resp_error "need name")
  | name =>
      match list_find (fun v : list Z * list Z => v.1 = name) (st_vars st) with
      | Some (k, v) => (st <| st_vars := <[k := (v.1, strlcpy 128 value)]> (st_vars st) |>, Resp_ok)
      | None =>
          if ROD_MAX_VARS <=? Z.of_nat (length (st_vars st)) then (st, Resp_error "var limit reached")
          else (st <| st_vars := st_vars st ++ [(strlcpy 32 name, strlcpy 128 value)] |>, Resp_ok)
      end
  end.

(** The receipt a command is for. *)
Definition target_receipt (j : json) (st : rod_state) : option nat :=
  match (match default [] (js_str j "name" ROD_ELEM_NAME_LEN) with
         | [] => list_find (fun e => e_active e = true /\ e_type e = ROD_ELEM_RECEIPT) (st_elements st)
         | name => rod_find_element st name end) with
  | Some (i, e) => if bool_decide (e_type e = ROD_ELEM_RECEIPT) then Some i else None
  | None => None
  end.

Definition upd_receipt (i : nat) (f : receipt -> receipt) : rod_state -> rod_state :=
  upd_elem i (fun e => e <| e_receipt := f (e_receipt e) |>).

Definition handle_receipt (j : json) (st : rod_state) : rod_state * resp :=
  match target_receipt j st with
  | None => (st, Resp_error "no receipt element")
  | Some i =>
      match default [] (js_str j "text" (ROD_RECEIPT_MAX_LINE + 1)) with
      | [] => (st, Resp_ok)
      | text => (upd_receipt i (rod_receipt_add_line text) st, Resp_ok)
      end
  end.

Definition handle_receipt_clear (j : json) (st : rod_state) : rod_state * resp :=
  match target_receipt j st with
  | None => (st, Resp_error "no receipt element")
  | Some i => (upd_receipt i rod_receipt_clear st, Resp_ok)
  end.

Definition handle_show_hide (j : json) (show : bool) (st : rod_state) : rod_state * resp :=
  match default [] (js_str j "name" ROD_ELEM_NAME_LEN) with
  | [] => (st, Resp_error "need name")
  | name =>
      match rod_find_element st name with
      | None => (st, Resp_error "not found")
      | Some (i, _) =>
          let st := sync (upd_elem i (fun e => e <| e_visible := show |>) st) in
          (each_stream st (fun s st => emit (To_rvd_show s name show) st), Resp_ok)
      end
  end.

(** ** The dispatcher *)

Definition handle_enable (st : rod_state) : rod_state * resp :=
  (if st_paused st then mark_all_dirty (st <| st_paused := false |>) else st, Resp_ok).

Definition clear_element (st : rod_state) (i : nat) : rod_state :=
  match st_elements st !! i with
  | Some e => if negb (e_active e) then st
              else each_stream st (fun s st => if es_shm (stream_of e s) then emit (Cleared s (e_name e)) st else st)
  | None => st
  end.

Definition handle_disable (st : rod_state) : rod_state * resp :=
  (if negb (st_paused st) then fold_left clear_element (seq 0 (length (st_elements st))) (st <| st_paused := true |>) else st, Resp_ok).

Definition handle_time_format (j : json) (st : rod_state) : rod_state * resp :=
  match default [] (js_str j "value" 64) with
  | [] => (st, Resp_error "need value")
  | fmt =>
      let st := st <| st_settings := (st_settings st) <| c_time_format := strlcpy 64 fmt |> |> in
      let st := emit (Cfg_set (cs "osd") (cs "time_format") fmt) st in
      let st := st <| st_tick_interval := if has_frame fmt then Z.quot 1000000 (c_frame_rate (st_settings st)) else 1000000 |> in
      (mark_all_dirty st, Resp_ok)
  end.

Definition handle_stroke_size (j : json) (st : rod_state) : rod_state * resp :=
  match js_int j "value" with
  | Some val =>
      if (val <? 0) || (5 <? val) then (st, Resp_error "need value 0-5")
      else (mark_all_dirty (emit (Cfg_set (cs "osd") (cs "font_stroke") (show_int val))
              (st <| st_settings := (st_settings st) <| c_font_stroke := val |> |>)), Resp_ok)
  | None => (st, Resp_error "need value 0-5")
  end.

Definition count_regions (st : rod_state) : Z :=
  fold_left (fun n e => if negb (e_active e) then n else
    fold_left (fun n s => if es_shm (stream_of e s) then n + 1 else n) (seq 0 (st_stream_count st)) n) (st_elements st) 0.

(** [common] says that rss_ctrl_handle_common answered. *)
Definition rod_ctrl_handler (common : bool) (j : json) (st : rod_state) : rod_state * resp :=
  if common then (st, Resp_common)
  else match js_str j "cmd" 64 with
  | None => (st, Resp_error "missing cmd")
  | Some cmd =>
      let cmd_is s := bool_decide (cmd = cs s) in
      if cmd_is "set-font-color"%string then handle_color_change j "font_color" (fun v c => c <| c_font_color := v |>) st
      else if cmd_is "set-stroke-color"%string then handle_color_change j "stroke_color" (fun v c => c <| c_stroke_color := v |>) st
      else if cmd_is "set-stroke-size"%string then handle_stroke_size j st
      else if cmd_is "set-position"%string then handle_set_position j st
      else if cmd_is "set-font-size"%string then handle_font_size_change j st
      else if cmd_is "elements"%string then (st, handle_elements_list st)
      else if cmd_is "add-element"%string then handle_add_element j st
      else if cmd_is "remove-element"%string then handle_remove_element j st
      else if cmd_is "set-element"%string then handle_set_element j st
      else if cmd_is "set-var"%string then handle_set_var j st
      else if cmd_is "receipt"%string then handle_receipt j st
      else if cmd_is "receipt-clear"%string then handle_receipt_clear j st
      else if cmd_is "show-element"%string then handle_show_hide j true st
      else if cmd_is "hide-element"%string then handle_show_hide j false st
      else if cmd_is "enable"%string then handle_enable st
      else if cmd_is "disable"%string then handle_disable st
      else if cmd_is "set-time-format"%string then handle_time_format j st
      else if cmd_is "config-show"%string then
        (st, Resp_config (negb (st_paused st)) (rod_font_for_elem st None 0) (c_font_color (st_settings st))
               (c_stroke_color (st_settings st)) (c_font_stroke (st_settings st)) (c_time_format (st_settings st)) (rod_live_elements st))
      else (st, Resp_status (Z.of_nat (st_stream_count st)) (rod_live_elements st) (count_regions st))
  end.

(** ** Rendering *)

Definition render_text_element (e : rod_element) (s : nat) (text : list Z) (st : rod_state) : rod_state :=
  let es := stream_of e s in
  if negb (es_shm es) || (es_font_idx es <? 0) then st else emit (Drawn_text s (e_name e) text) st.

Definition clear_needs (i s : nat) : rod_state -> rod_state := upd_elem i (upd_stream s (fun es => es <| es_needs_update := false |>)).

Definition render_image_element (i : nat) (e : rod_element) (s : nat) (st : rod_state) : rod_state :=
  let img := if (s =? 0)%nat then e_image_data e else e_image_sub_data e in
  match img with
  | Some _ => if es_shm (stream_of e s) then clear_needs i s (emit (Drawn_image s (e_name e)) st) else st
  | None => st
  end.

Definition render_receipt_element (e : rod_element) (s : nat) (st : rod_state) : rod_state :=
  let es := stream_of e s in
  if negb (es_shm es) || (es_font_idx es <? 0) then st else emit (Drawn_receipt s (e_name e) (displayed (e_receipt e))) st.

Definition tick_text (i : nat) (e : rod_element) (st : rod_state) : rod_state :=
  let '(mon, expanded) := rod_expand_template env (c_time_format (st_settings st)) (c_frame_rate (st_settings st)) (st_vars st)
    ROD_EXPANDED_LEN (e_tmpl e) (st_mon st) in
  let st := st <| st_mon := mon |> in
  let changed := negb (bool_decide (expanded = e_last_expanded e)) in
  let st := if changed then upd_elem i (fun e => e <| e_last_expanded := strlcpy ROD_EXPANDED_LEN expanded |>) st else st in
  let should_render := match e_update_mode e with ROD_UPDATE_TICK => true | ROD_UPDATE_CHANGE => changed end in
  if negb should_render then
    each_stream st (fun s st =>
      if es_needs_update (stream_of e s) && es_shm (stream_of e s) then clear_needs i s (render_text_element e s expanded st) else st)
  else
    each_stream st (fun s st =>
      if e_sub_streams_only e && (s =? 0)%nat then st else clear_needs i s (render_text_element e s expanded st)).

Definition tick_image (i : nat) (e : rod_element) (st : rod_state) : rod_state :=
  each_stream st (fun s st =>
    if e_sub_streams_only e && (s =? 0)%nat then st
    else if es_needs_update (stream_of e s) then render_image_element i e s st else st).

(** The timeout of an unfinished line; the clock is only read when there is one. *)
Definition receipt_due (r : receipt) (st : rod_state) : receipt * rod_state :=
  if (0 <? rc_accum_timeout r) && (0 <? accum_pos r) && (0 <? rc_accum_last_byte_ts r) then
    let '(now, mon) := rss_timestamp_us env (st_mon st) in (receipt_timeout now r, st <| st_mon := mon |>)
  else (r, st).

Definition tick_receipt (i : nat) (e : rod_element) (st : rod_state) : rod_state :=
  let '(r, st) := receipt_due (e_receipt e) st in
  let e := e <| e_receipt := r |> in
  let st := upd_receipt i (fun _ => r) st in
  if rc_dirty r then
    let st := each_stream st (fun s st => if e_sub_streams_only e && (s =? 0)%nat then st else render_receipt_element e s st) in
    upd_receipt i (fun r => r <| rc_dirty := false |>) st
  else st.

Definition tick_element (st : rod_state) (i : nat) : rod_state :=
  match st_elements st !! i with
  | None => st
  | Some e =>
      if negb (e_active e) || negb (e_visible e) then st
      else match e_type e with
      | ROD_ELEM_TEXT => tick_text i e st
      | ROD_ELEM_IMAGE => tick_image i e st
      | ROD_ELEM_RECEIPT => tick_receipt i e st
      | ROD_ELEM_OVERLAY => st
      end
  end.

Definition render_tick (st : rod_state) : rod_state :=
  if st_paused st then st else fold_left tick_element (seq 0 (length (st_elements st))) st.

(** Data on a receipt's descriptor, as the main loop hands it on. *)
Definition receipt_input (i : nat) (data : list (Z * Z)) : rod_state -> rod_state := upd_receipt i (rod_receipt_feed_bytes data).

End Rod.
