(* ===== verification/RodProps.v ===== *)
(** * rod: what the commands keep true

    The invariant of the registry - names, fonts, places - through every command of
    the control socket, the render tick and the receipts' input. *)

From Stdlib Require Import String.
From stdpp Require Import list list_numbers.
From S2P Require Import Prelude Mux RodDraw RodReceipt RodTemplate RodElem RodPool RodCtrl.

(** ** The invariant *)

Definition live_names (es : list rod_element) : list (list Z) := e_name <$> filter (fun e => e_active e = true) es.

(** Names are unique, the table is bounded, and in each pool every context is
    counted once per element using it, is loaded while counted, has the size its
    text elements are to have, and has glyphs whose pixels are all there. *)
Definition core (st : rod_state) : Prop :=
  fonts_ok st /\ Z.of_nat (length (st_elements st)) <= ROD_MAX_ELEMENTS /\ NoDup (live_names (st_elements st)).

Definition rod_inv (st : rod_state) : Prop := core st /\ exclusive st.

Lemma live_names_same es es' : Forall2 static es es' -> live_names es' = live_names es.
Proof.
  unfold live_names. induction 1 as [|e e' es es' (Ha & Hn & _) _ IH]; [done|].
  destruct (e_active e) eqn:E; [rewrite !filter_cons_True by congruence; cbn; by rewrite Hn, IH | rewrite !filter_cons_False by congruence; done].
Qed.

Lemma Forall2_same_static es es' : Forall2 same_font es es' -> Forall2 static es es'.
Proof. intros H. eapply Forall2_impl; [exact H|]. by intros ? ? [? _]. Qed.

Lemma core_same st st' : same_fonts st st' -> core st -> core st'.
Proof.
  intros Hs (Hf & Hl & Hn). split; [by eapply fonts_ok_same|]. destruct Hs as (_ & _ & He).
  rewrite <- (Forall2_length _ _ _ He), (live_names_same _ _ (Forall2_same_static _ _ He)). done.
Qed.

(** ** Quiet changes *)

Definition quiet_elem (e e' : rod_element) : Prop :=
  same_font e e' /\ elem_place e' = elem_place e /\ forall s, es_shm (stream_of e' s) = true -> es_shm (stream_of e s) = true.

Definition quiet (st st' : rod_state) : Prop :=
  same_env st st' /\ st_fonts st' = st_fonts st /\ Forall2 quiet_elem (st_elements st) (st_elements st').

#[global] Instance quiet_elem_preorder : PreOrder quiet_elem.
Proof.
  split; [done|]. intros a b c (A1 & A2 & A3) (B1 & B2 & B3). split_and!; [by etransitivity | congruence | auto].
Qed.

#[global] Instance quiet_preorder : PreOrder quiet.
Proof.
  split; [intros st; split_and!; done|]. intros a b c (A1 & A2 & A3) (B1 & B2 & B3). split_and!; [by etransitivity | congruence | by etransitivity].
Qed.

Lemma quiet_same st st' : quiet st st' -> same_fonts st st'.
Proof. intros (H1 & H2 & H3). split_and!; [done..|]. eapply Forall2_impl; [done|]. by intros ? ? [? _]. Qed.

Lemma claims_quiet es es' s k : Forall2 quiet_elem es es' -> claims es' s k `sublist_of` claims es s k.
Proof.
  intros Hf. revert k. induction Hf as [|e e' es es' (_ & Hp & Hs) _ IH]; intros [|k]; [done..|]. unfold claims in *. cbn [take].
  destruct (es_shm (stream_of e' s)) eqn:E'.
  - rewrite !filter_cons_True by auto. cbn. rewrite Hp. by apply sublist_skip.
  - rewrite filter_cons_False by congruence. destruct (es_shm (stream_of e s)) eqn:E.
    + rewrite filter_cons_True by done. cbn. by apply sublist_cons.
    + by rewrite filter_cons_False by congruence.
Qed.

Lemma quiet_inv st st' : quiet st st' -> rod_inv st -> rod_inv st'.
Proof.
  intros Hq [Hc He]. split; [by eapply core_same; [apply quiet_same|]|]. destruct Hq as ((Hn & _) & _ & Hf). intros s Hs. rewrite Hn in Hs.
  rewrite <- (Forall2_length _ _ _ Hf). eapply sublist_NoDup; [by apply He | by apply claims_quiet].
Qed.

Lemma quiet_elems st es : Forall2 quiet_elem (st_elements st) es -> quiet st (st <| st_elements := es |>).
Proof. intros. split_and!; done. Qed.

Lemma quiet_upd i f st : (forall e, st_elements st !! i = Some e -> quiet_elem e (f e)) -> quiet st (upd_elem i f st).
Proof. intros Hf. apply quiet_elems. by apply Forall2_alter_r; [apply _|]. Qed.

(** A change of nothing the invariant speaks of. *)
Lemma quiet_fields st st' : same_env st st' -> st_fonts st' = st_fonts st -> st_elements st' = st_elements st -> quiet st st'.
Proof. intros H1 H2 H3. split_and!; [done..|]. rewrite H3. done. Qed.

Lemma quiet_emit x st : quiet st (emit x st).
Proof. by apply quiet_fields. Qed.

Lemma quiet_upd_stream s f e :
  (forall x, es_font_idx (f x) = es_font_idx x /\ (es_shm (f x) = true -> es_shm x = true)) -> quiet_elem e (upd_stream s f e).
Proof.
  intros Hf. split_and!; [apply upd_stream_same; intros x; by destruct (Hf x) | done|].
  intros s'. rewrite stream_of_upd. case_decide; [by destruct (Hf (stream_of e s')) | done].
Qed.

Lemma quiet_mark n e : quiet_elem e (mark_element_dirty n e).
Proof.
  unfold mark_element_dirty. apply (fold_seq_ind (fun _ e' => quiet_elem e e')); [done|]. intros s e' _ H. etransitivity; [done|]. by apply quiet_upd_stream.
Qed.

Lemma quiet_mark_all st : quiet st (mark_all_dirty st).
Proof.
  apply quiet_elems. apply Forall2_fmap_r, Forall_Forall2_diag, Forall_true. intros e.
  change (quiet_elem e (if e_active e then mark_element_dirty (st_stream_count st) e else e)). destruct (e_active e); [apply quiet_mark | done].
Qed.

Lemma quiet_each st f : (forall s st', quiet st' (f s st')) -> quiet st (each_stream st f).
Proof. intros Hf. apply (each_stream_rel quiet). auto. Qed.

Lemma quiet_fold {A} (f : rod_state -> A -> rod_state) l st : (forall st x, quiet st (f st x)) -> quiet st (fold_left f l st).
Proof. intros Hf. revert st. induction l as [|x l IH]; intros st; [done|]. cbn. etransitivity; [apply Hf | apply IH]. Qed.

Create HintDb rod.
#[export] Hint Resolve quiet_emit quiet_mark_all quiet_mark quiet_same : rod.

Section Props.
Context (sft : nat -> sft_ops) (osd_create : nat -> bool) (env : tmpl_env) (parse_font_size : list Z -> Z * Z).
Hypothesis Hsft : forall n, sft_sound (sft n).

Lemma fonts_shape st : fonts_ok st -> state_shape st.
Proof. by intros [? _]. Qed.

Lemma sync_inv st : core st -> rod_inv (rod_sync_shms osd_create st).
Proof.
  intros Hc. pose proof Hc as (Hf & Hl & _). split.
  - eapply core_same; [apply sync_same|]; [by apply fonts_shape | done | done].
  - apply sync_settles; [by apply fonts_shape | done].
Qed.

Lemma forward_quiet name pos target st : quiet st (forward_position name pos target st).
Proof. apply quiet_each. intros s st'. destruct (_ && _); [done | apply quiet_emit]. Qed.

Lemma set_position_inv i pos st : core st -> rod_inv (set_position_of osd_create i pos st).
Proof. intros Hc. apply sync_inv. eapply core_same; [|exact Hc]. by apply upd_elem_same. Qed.

(** ** Commands that change no font *)

Lemma color_inv j key (set : Z -> rod_config -> rod_config) st :
  (forall v c, c_font_size (set v c) = c_font_size c /\ c_font_pct (set v c) = c_font_pct c) -> rod_inv st -> rod_inv (handle_color_change j key set st).1.
Proof.
  intros Hset. unfold handle_color_change. destruct (js_str j "value" 16) as [val|]; [|done]. cbn [fst]. apply quiet_inv.
  transitivity (st <| st_settings := set (parse_color (Some val)) (st_settings st) |>); [|etransitivity; [apply quiet_emit | apply quiet_mark_all]].
  apply quiet_fields; [|done..]. split_and!; [done | done | apply Hset | apply Hset].
Qed.

Lemma set_position_cmd_inv j st : rod_inv st -> rod_inv (handle_set_position osd_create j st).1.
Proof.
  intros Hi. unfold handle_set_position. destruct (default [] _) as [|a el]; [done|]. destruct (default [] _) as [|b pos]; [done|]. cbn [fst].
  eapply quiet_inv; [apply forward_quiet|]. destruct (_ <? 0); [|done]. destruct (rod_find_element st _) as [[i e]|]; [|done].
  apply set_position_inv, Hi.
Qed.

Lemma receipt_upd_quiet i f st : quiet st (upd_receipt i f st).
Proof. apply quiet_upd. intros e _. by split_and!. Qed.

Lemma show_hide_inv j show st : rod_inv st -> rod_inv (handle_show_hide osd_create j show st).1.
Proof.
  intros Hi. unfold handle_show_hide. destruct (default [] _) as [|a name]; [done|]. destruct (rod_find_element st _) as [[i e]|]; [|done]. cbn [fst].
  eapply quiet_inv; [apply quiet_each; intros; apply quiet_emit|]. apply sync_inv. eapply core_same; [|apply Hi]. by apply upd_elem_same.
Qed.

Lemma set_var_inv j st : rod_inv st -> rod_inv (handle_set_var j st).1.
Proof.
  intros Hi. unfold handle_set_var. destruct (default [] _) as [|a name]; [done|]. destruct (list_find _ _) as [[k v]|]; cbn [fst].
  - eapply quiet_inv; [|exact Hi]. by apply quiet_fields.
  - destruct (_ <=? _); [done|]. eapply quiet_inv; [|exact Hi]. by apply quiet_fields.
Qed.

Lemma receipt_cmds_inv j st : rod_inv st -> rod_inv (handle_receipt j st).1 /\ rod_inv (handle_receipt_clear j st).1.
Proof.
  intros Hi. unfold handle_receipt, handle_receipt_clear. destruct (target_receipt j st) as [i|]; [|done].
  split; [destruct (default [] _); [done|]|]; (eapply quiet_inv; [apply receipt_upd_quiet | done]).
Qed.

Lemma plain_cmds_inv j st : rod_inv st -> rod_inv (handle_enable st).1 /\ rod_inv (handle_disable st).1 /\
  rod_inv (handle_time_format j st).1 /\ rod_inv (handle_stroke_size j st).1.
Proof.
  intros Hi. split_and!.
  - unfold handle_enable. cbn [fst]. destruct (st_paused st); [|done]. eapply quiet_inv; [|exact Hi].
    etransitivity; [|apply quiet_mark_all]. by apply quiet_fields.
  - unfold handle_disable. cbn [fst]. destruct (negb _); [|done]. eapply quiet_inv; [|exact Hi].
    etransitivity; [|apply quiet_fold]; [by apply quiet_fields|]. intros st' i. unfold clear_element. destruct (_ !! i) as [e|]; [|done].
    destruct (negb _); [done|]. apply quiet_each. intros s st2. destruct (es_shm _); [apply quiet_emit | done].
  - unfold handle_time_format. destruct (default [] _) as [|a fmt]; [done|]. cbn [fst]. eapply quiet_inv; [|exact Hi].
    etransitivity; [|apply quiet_mark_all]. by apply quiet_fields.
  - unfold handle_stroke_size. destruct (js_int j "value") as [v|]; [|done]. destruct (_ || _); [done|]. cbn [fst]. eapply quiet_inv; [|exact Hi].
    etransitivity; [|apply quiet_mark_all]. by apply quiet_fields.
Qed.

(** ** The render tick *)

Lemma clear_needs_quiet i s st : quiet st (clear_needs i s st).
Proof. apply quiet_upd. intros e _. by apply quiet_upd_stream. Qed.

Lemma tick_quiet st : quiet st (render_tick env st).
Proof.
  unfold render_tick. destruct (st_paused st); [done|]. apply quiet_fold. clear st. intros st i. unfold tick_element.
  destruct (st_elements st !! i) as [e|] eqn:He; [|done]. destruct (_ || _); [done|]. destruct (e_type e); [| |done|].
  - unfold tick_text. destruct (rod_expand_template _ _ _ _ _ _ _) as [mon expanded]. cbv zeta.
    assert (Hr : forall s st, quiet st (clear_needs i s (render_text_element e s expanded st))).
    { intros s st'. etransitivity; [|apply clear_needs_quiet]. unfold render_text_element. destruct (_ || _); [done | apply quiet_emit]. }
    assert (Hm : quiet st (st <| st_mon := mon |>)) by (by apply quiet_fields).
    set (st1 := if negb _ then upd_elem _ _ _ else _). assert (H1 : quiet st st1).
    { subst st1. destruct (negb _); [|done]. etransitivity; [exact Hm|]. apply quiet_upd. intros e' _. by split_and!. }
    clearbody st1. etransitivity; [exact H1|].
    match goal with |- quiet st1 (if ?b then _ else _) => destruct b end; apply quiet_each; intros s st'; destruct (_ && _); done || apply Hr.
  - apply quiet_each. intros s st'. destruct (_ && _); [done|]. destruct (es_needs_update _); [|done]. unfold render_image_element. cbv zeta.
    destruct (if (s =? 0)%nat then _ else _); [|done]. destruct (es_shm _); [|done]. etransitivity; [apply quiet_emit | apply clear_needs_quiet].
  - unfold tick_receipt. assert (Hp : quiet st (receipt_due env (e_receipt e) st).2).
    { unfold receipt_due. destruct (_ && _); [|done]. unfold rss_timestamp_us. cbn [snd]. by apply quiet_fields. }
    destruct (receipt_due env (e_receipt e) st) as [r st1]. cbn [snd] in Hp. cbv zeta. destruct (rc_dirty r).
    + etransitivity; [exact Hp|]. etransitivity; [apply receipt_upd_quiet|]. etransitivity; [|apply receipt_upd_quiet].
      apply quiet_each. intros s st'. destruct (_ && _); [done|]. unfold render_receipt_element. destruct (_ || _); [done | apply quiet_emit].
    + etransitivity; [exact Hp | apply receipt_upd_quiet].
Qed.

(** ** Commands that change fonts *)

(** What a loop that changes fonts keeps: everything but the fonts, the streams of
    the elements and the outputs. *)
Definition framed (st st' : rod_state) : Prop := same_env st st' /\ Forall2 static (st_elements st) (st_elements st').

#[local] Instance framed_preorder : PreOrder framed.
Proof. split; [intros st; split; done|]. intros a b c [A1 A2] [B1 B2]. split; by etransitivity. Qed.

Definition stale (st : rod_state) : Prop := exists s name, Log_stale_font s name ∈ st_out st.

Lemma framed_alter st st' i g : framed st st' -> (forall e, st_elements st' !! i = Some e -> static e (g e)) -> framed st (upd_elem i g st').
Proof.
  intros [H1 H2] Hg. split; [done|]. etransitivity; [exact H2|]. by apply Forall2_alter_r; [apply _|].
Qed.

Lemma framed_fonts st st1 st2 : framed st st1 -> only_fonts st1 st2 -> framed st st2.
Proof. intros [H1 H2] [_ ->]. done. Qed.

Lemma framed_emit st st' x : framed st st' -> framed st (emit x st').
Proof. done. Qed.

Lemma framed_want st st' s e : framed st st' -> rod_font_for_elem st' (Some e) s = rod_font_for_elem st (Some e) s.
Proof. intros [(_ & H1 & H2 & H3) _]. unfold rod_font_for_elem. by rewrite H1, H2, H3. Qed.

Lemma want_static st s e e' : static e e' -> rod_font_for_elem st (Some e') s = rod_font_for_elem st (Some e) s.
Proof. intros (_ & _ & _ & H1 & H2 & _). unfold rod_font_for_elem. by rewrite H1, H2. Qed.

Lemma wanted_static st s e e' : static e e' -> wanted st s e' = wanted st s e.
Proof. intros H. unfold wanted. pose proof H as (_ & _ & -> & _). destruct (e_type e); [|done..]. by rewrite (want_static _ _ e e'). Qed.

Lemma wanted_framed st st' s e : framed st st' -> wanted st' s e = wanted st s e.
Proof. intros H. unfold wanted. destruct (e_type e); [|done..]. by rewrite (framed_want st st'). Qed.

(** [w0] asks for the sizes of the elements marked by [done]. *)
Definition want_done (st : rod_state) (dn : nat -> nat -> bool) (s k : nat) (e : rod_element) : option Z :=
  if dn s k then wanted st s e else None.

Lemma want_done_static st dn : static_want (want_done st dn).
Proof. intros s k e e' H. unfold want_done. destruct (dn s k); [by apply wanted_static | done]. Qed.

Lemma moves_upd s y e g :
  (s < length (e_streams e))%nat -> (forall x, es_font_idx (g x) = y) -> moves_font s y e (upd_stream s g e).
Proof.
  intros Hs Hg. split_and!; [apply upd_stream_static | by rewrite stream_of_upd, decide_True |].
  intros s' Hne. rewrite stream_of_upd, decide_False; [done|]. by intros [? _].
Qed.

Lemma moves_destroy s y e g :
  (s < length (e_streams e))%nat -> (forall x, es_font_idx (g x) = y) -> moves_font s y e (destroy_elem_shm s (upd_stream s g e)).
Proof.
  intros Hs Hg. destruct (moves_upd s y e g Hs Hg) as (M1 & M2 & M3).
  assert (Hd : same_font (upd_stream s g e) (destroy_elem_shm s (upd_stream s g e))) by (apply upd_stream_same; intros x; by destruct (negb _)).
  destruct Hd as [D1 D2]. split_and!; [by etransitivity | by rewrite D2 |]. intros s' Hne. rewrite D2. by apply M3.
Qed.

Lemma pools_elem_streams w st i e s : pools_ok w st -> st_elements st !! i = Some e -> (s < st_stream_count st)%nat -> (s < length (e_streams e))%nat.
Proof. intros [(_ & Hn & Hl) _] Hi Hs. rewrite (Forall_lookup_1 _ _ _ _ Hl Hi). lia. Qed.

Lemma release_alloc_fonts w st s x size st2 y : pools_ok w st -> (s < st_stream_count st)%nat ->
  rod_alloc_font sft s size (release_font s x st) = (st2, y) -> only_fonts st st2.
Proof.
  intros [(H1 & H2 & _) _] Hs. destruct (release_row st s x ltac:(lia)) as [Ho _]. intros Ha.
  eapply only_fonts_trans; [exact Ho|]. revert Ha. unfold rod_alloc_font. generalize (release_font s x st). intros st1.
  assert (Hu : forall i f st', only_fonts st1 st' -> only_fonts st1 (upd_font s i f st')).
  { intros i f st' [A1 A2]. split; [unfold upd_font; cbn; by rewrite length_alter|]. rewrite A2 at 1. by destruct st1. }
  assert (H0 : only_fonts st1 st1) by (split; [done | by destruct st1]).
  destruct (list_find _ _) as [[i f]|]; [intros [= <- _]; by apply Hu|]. destruct (list_find _ _) as [[i f]|]; [|intros [= <- _]; done].
  destruct (rod_render_init _ _ _ _ _) as [f' ok]. destruct (negb ok); intros [= <- _]; apply Hu; (split; [done | by destruct st1]).
Qed.

Lemma alloc_neg s size st st2 y : rod_alloc_font sft s size st = (st2, y) -> y < 0 -> y = - 1.
Proof.
  unfold rod_alloc_font. destruct (list_find _ _) as [[i f]|]; [intros [= _ <-]; lia|]. destruct (list_find _ _) as [[i f]|]; [|intros [= _ <-]; lia].
  destruct (rod_render_init _ _ _ _ _) as [f' ok]. destruct (negb ok); intros [= _ <-]; lia.
Qed.

Lemma reload_step st0 dn dn' i s st e :
  framed st0 st -> pools_ok (want_done st0 dn) st -> st_elements st !! i = Some e -> e_active e = true -> e_type e = ROD_ELEM_TEXT ->
  (s < st_stream_count st)%nat -> (forall s' k, s' <> s \/ k <> i -> dn' s' k = dn s' k) -> dn' s i = true ->
  stale (reload_font sft i s st) \/ (framed st0 (reload_font sft i s st) /\ pools_ok (want_done st0 dn') (reload_font sft i s st)).
Proof.
  intros Hfr Hp Hi Ha Ht Hs Hdn Hdn'. unfold reload_font. rewrite Hi.
  destruct (rod_alloc_font sft s _ _) as [st2 fi] eqn:Hal. pose proof (release_alloc_fonts _ _ _ _ _ _ _ Hp Hs Hal) as Hof.
  destruct (Z.ltb_spec fi 0) as [Hneg|Hpos]; [left; exists s, (e_name e); cbn; apply elem_of_app; right; by left|right].
  pose proof (pools_elem_streams _ _ _ _ _ Hp Hi Hs) as Hse.
  set (g := fun e => destroy_elem_shm s (upd_stream s (fun es => es <| es_font_idx := fi |>) e)).
  assert (Hm : moves_font s fi e (g e)) by (by apply moves_destroy).
  split.
  - apply framed_alter; [by eapply framed_fonts|]. intros e' He'. destruct Hof as [_ Hof]. rewrite Hof in He'. cbn in He'. rewrite Hi in He'.
    injection He' as <-. by destruct Hm.
  - eapply (refont_ok sft (want_done st0 dn)); [exact Hsft | exact Hp | exact Hi | exact Ha | exact Hs | exact Hal | apply want_done_static | | | exact Hm].
    + intros s' k e' Hne. unfold want_done. by rewrite Hdn.
    + right. unfold want_done, wanted. rewrite Hdn', Ht. by rewrite (framed_want st0 st).
Qed.

Lemma reload_out i s st : exists l, st_out (reload_font sft i s st) = st_out st ++ l.
Proof.
  unfold reload_font. destruct (st_elements st !! i) as [e|]; [|by exists []; rewrite app_nil_r].
  assert (Hr : forall x, st_out (release_font s x st) = st_out st) by (intros x; unfold release_font; by destruct (_ || _)).
  assert (Ha : forall size st1 st2 y, rod_alloc_font sft s size st1 = (st2, y) -> st_out st2 = st_out st1).
  { intros size st1 st2 y. unfold rod_alloc_font. destruct (list_find _ _) as [[k f]|]; [by intros [= <- _]|].
    destruct (list_find _ _) as [[k f]|]; [|by intros [= <- _]]. destruct (rod_render_init _ _ _ _ _) as [f' ok]. destruct (negb ok); by intros [= <- _]. }
  destruct (rod_alloc_font sft s _ _) as [st2 fi] eqn:Hal. apply Ha in Hal. rewrite Hr in Hal. destruct (fi <? 0).
  - eexists. cbn. by rewrite Hal.
  - exists []. cbn. by rewrite app_nil_r.
Qed.

Lemma stale_mono st st' l : st_out st' = st_out st ++ l -> stale st -> stale st'.
Proof. intros He (s & n & Hin). exists s, n. rewrite He. apply elem_of_app. by left. Qed.

(** The elements before [k] are done, and the streams before [c] of element [k]. *)
Definition done_upto (k c s j : nat) : bool := (j <? k)%nat || ((j =? k)%nat && (s <? c)%nat).

Ltac upto := unfold done_upto; apply eq_iff_eq_true; rewrite !orb_true_iff, !andb_true_iff, !Nat.ltb_lt, !Nat.eqb_eq; lia.

Lemma reload_element_ok st0 k st :
  framed st0 st -> pools_ok (want_done st0 (done_upto k 0)) st ->
  stale (reload_element sft st k) \/ (framed st0 (reload_element sft st k) /\ pools_ok (want_done st0 (done_upto (S k) 0)) (reload_element sft st k)).
Proof.
  intros Hfr Hp.
  assert (Hskip : (forall e, st_elements st !! k = Some e -> e_active e = false \/ e_type e <> ROD_ELEM_TEXT) -> pools_ok (want_done st0 (done_upto (S k) 0)) st).
  { intros Hk. destruct Hp as [Hsh Hp]. split; [done|]. intros s Hs. eapply pool_weaken; [|by apply Hp].
    apply Forall2_same_length_lookup. rewrite !view_length. split; [done|]. intros j a b Ha Hb. rewrite view_lookup in Ha, Hb.
    destruct (st_elements st !! j) as [e|] eqn:Ej; [|done]. cbn in Ha, Hb. injection Ha as <-. injection Hb as <-.
    destruct (e_active e) eqn:Eact; [|auto]. cbn. split; [done|]. unfold want_done, done_upto.
    destruct (decide (j = k)) as [->|Hne].
    - destruct (Hk e Ej) as [?|Ht]; [congruence|]. left. unfold wanted. destruct (_ || _); [|done]. by destruct (e_type e).
    - right. right. fold (done_upto (S k) 0 s j) (done_upto k 0 s j). replace (done_upto (S k) 0 s j) with (done_upto k 0 s j); [done|].
      upto. }
  unfold reload_element. destruct (st_elements st !! k) as [e|] eqn:Hk; [|right; split; [done|]; apply Hskip; done].
  destruct (negb (e_active e) || _) eqn:Eskip.
  { right. split; [done|]. apply Hskip. intros e' [= <-]. apply orb_true_iff in Eskip as [H|H]; apply negb_true_iff in H; [by left | right; by apply bool_decide_eq_false in H]. }
  apply orb_false_iff in Eskip as [Hact Htext]. apply negb_false_iff in Hact, Htext. apply bool_decide_eq_true in Htext.
  pose proof Hfr as [(Hn & _) Hel]. destruct (Forall2_lookup_r _ _ _ _ _ Hel Hk) as (e0 & Hk0 & (Ha0 & _ & Ht0 & _)).
  destruct (each_stream_ind (fun c st' => stale st' \/ (framed st0 st' /\ pools_ok (want_done st0 (done_upto k c)) st')) (reload_font sft k) st) as [Hst|[Hf' Hp']].
  - by right.
  - intros s st' Hs [Hst|[Hf' Hp']].
    { left. destruct (reload_out k s st') as [l Hl]. by eapply stale_mono. }
    destruct Hf' as [Henv' Hel']. destruct (Forall2_lookup_l _ _ _ _ _ Hel' Hk0) as (e' & Hk' & (Ha' & _ & Ht' & _)). pose proof Henv' as (Hn' & _).
    apply (reload_step st0 (done_upto k s) (done_upto k (S s)) k s st' e'); [done | done | done | congruence | congruence | lia | |].
    + intros s' j Hne. upto.
    + unfold done_upto. apply orb_true_iff. right. apply andb_true_iff. split; [apply Nat.eqb_refl | apply Nat.ltb_lt; lia].
  - by left.
  - right. split; [done|]. eapply pools_weaken; [done|]. intros s j e' Hs _. right. unfold want_done, done_upto.
    destruct Hf' as [(Hn' & _) _]. rewrite Hn' in Hs.
    fold (done_upto (S k) 0 s j) (done_upto k (st_stream_count st) s j).
    replace (done_upto (S k) 0 s j) with (done_upto k (st_stream_count st) s j); [done|]. upto.
Qed.

Lemma each_stream_out f st : (forall s st', exists l, st_out (f s st') = st_out st' ++ l) -> exists l, st_out (each_stream st f) = st_out st ++ l.
Proof.
  intros Hf. apply (each_stream_ind (fun _ st' => exists l, st_out st' = st_out st ++ l)); [exists []; by rewrite app_nil_r|].
  intros s st' _ [l Hl]. destruct (Hf s st') as [l' Hl']. exists (l ++ l'). by rewrite Hl', Hl, app_assoc.
Qed.

Lemma reload_element_out st k : exists l, st_out (reload_element sft st k) = st_out st ++ l.
Proof.
  unfold reload_element. destruct (st_elements st !! k); [|exists []; by rewrite app_nil_r]. destruct (_ || _); [exists []; by rewrite app_nil_r|].
  apply each_stream_out. apply reload_out.
Qed.

Lemma sync_out st : st_out (rod_sync_shms osd_create st) = st_out st.
Proof.
  unfold rod_sync_shms. apply (each_stream_ind (fun _ st' => st_out st' = st_out st)); [done|]. intros s st' _ <-. unfold sync_stream.
  apply (fold_seq_ind (fun _ sc => st_out sc.1 = st_out st')); [done|]. intros k [st2 taken] _ <-. unfold sync_elem. cbn [fst].
  destruct (st_elements st2 !! k) as [e|]; [|done]. cbv zeta. by destruct (if _ && negb _ then _ else _) as [e2 c].
Qed.

(** A loop over all elements that reloads their fonts ends with every one in place. *)
Lemma reload_all st0 : pools_ok (want_done st0 (done_upto 0 0)) st0 ->
  let st1 := fold_left (reload_element sft) (seq 0 (length (st_elements st0))) st0 in
  stale st1 \/ (framed st0 st1 /\ fonts_ok st1).
Proof.
  intros Hp. cbv zeta.
  destruct (fold_seq_ind (fun k st' => stale st' \/ (framed st0 st' /\ pools_ok (want_done st0 (done_upto k 0)) st')) (reload_element sft)
    (length (st_elements st0)) st0) as [Hst|[Hf Hp']].
  - by right.
  - intros k st' _ [Hst|[Hf Hp']]; [|by apply reload_element_ok].
    left. destruct (reload_element_out st' k) as [l Hl]. by eapply stale_mono.
  - by left.
  - right. split; [done|]. eapply pools_weaken; [done|]. intros s k e Hs Hk. right. unfold want_done.
    destruct Hf as [Henv Hel]. apply lookup_lt_Some in Hk. rewrite <- (Forall2_length _ _ _ Hel) in Hk.
    replace (done_upto _ 0 s k) with true; [|symmetry; unfold done_upto; apply orb_true_iff; left; by apply Nat.ltb_lt].
    by apply wanted_framed.
Qed.

Lemma font_size_inv j st : rod_inv st -> ~ stale (handle_font_size_change sft osd_create parse_font_size j st).1 ->
  rod_inv (handle_font_size_change sft osd_create parse_font_size j st).1.
Proof.
  intros [Hc He]. pose proof Hc as (Hf & Hl & Hnm). unfold handle_font_size_change. destruct (cmd_font_size _ _ _) as [[px pct]|]; [|by intros _].
  cbv zeta. cbn [fst]. set (st0 := emit _ _). set (st1 := fold_left _ _ _).
  assert (Hp0 : pools_ok (want_done st0 (done_upto 0 0)) st0).
  { apply (pools_weaken (fun s _ e => wanted st s e) _ st Hf). intros s k e _ _. left. unfold want_done, done_upto. cbn.
    destruct (Nat.eqb_spec k 0), (Nat.ltb_spec s 0); done || lia. }
  intros Hns. destruct (reload_all st0 Hp0) as [Hst|[Hfr Hok]]; fold st1 in Hst || fold st1 in Hfr, Hok.
  - destruct Hns. eapply (stale_mono st1 _ [To_rvd_restart _]); [|done]. cbn. by rewrite sync_out.
  - eapply quiet_inv; [apply quiet_emit|]. apply sync_inv. destruct Hfr as [_ Hel]. split; [done|].
    rewrite <- (Forall2_length _ _ _ Hel), (live_names_same _ _ Hel). done.
Qed.

(** ** One element *)

Definition live (i : nat) (st : rod_state) : Prop := exists e, st_elements st !! i = Some e /\ e_active e = true.

Lemma live_static i st st' : Forall2 static (st_elements st) (st_elements st') -> live i st -> live i st'.
Proof. intros Hel (e & Hi & Ha). destruct (Forall2_lookup_l _ _ _ _ _ Hel Hi) as (e' & Hi' & (He & _)). exists e'. split; [done | congruence]. Qed.

Lemma live_same i st st' : same_fonts st st' -> live i st -> live i st'.
Proof. intros (_ & _ & Hel). by apply live_static, Forall2_same_static. Qed.

(** All elements but [i] are done, and [i] on the streams before [c]. *)
Definition one_upto (i c s k : nat) : bool := negb (k =? i)%nat || (s <? c)%nat.

Ltac one_upto := unfold one_upto; apply eq_iff_eq_true; rewrite !orb_true_iff, !negb_true_iff, !Nat.ltb_lt, !Nat.eqb_neq; lia.

Lemma change_step st0 i s st e :
  framed st0 st -> pools_ok (want_done st0 (one_upto i s)) st -> st_elements st !! i = Some e -> e_active e = true ->
  (s < st_stream_count st)%nat ->
  framed st0 (change_font sft i s st) /\ pools_ok (want_done st0 (one_upto i (S s))) (change_font sft i s st).
Proof.
  intros Hfr Hp Hi Ha Hs. unfold change_font. rewrite Hi.
  destruct (rod_alloc_font sft s _ _) as [st2 fi] eqn:Hal. pose proof (release_alloc_fonts _ _ _ _ _ _ _ Hp Hs Hal) as Hof.
  pose proof (pools_elem_streams _ _ _ _ _ Hp Hi Hs) as Hse.
  assert (Hg : forall g, moves_font s fi e (g e) ->
    framed st0 (upd_elem i g st2) /\ pools_ok (want_done st0 (one_upto i (S s))) (upd_elem i g st2)).
  { intros g Hm. split.
    - apply framed_alter; [by eapply framed_fonts|]. intros e' He'. destruct Hof as [_ Hof]. rewrite Hof in He'. cbn in He'. rewrite Hi in He'.
      injection He' as <-. by destruct Hm.
    - eapply (refont_ok sft (want_done st0 (one_upto i s))); [exact Hsft | exact Hp | exact Hi | exact Ha | exact Hs | exact Hal | apply want_done_static | | | exact Hm].
      + intros s' k e' Hne. unfold want_done. replace (one_upto i (S s) s' k) with (one_upto i s s' k) by one_upto. done.
      + unfold want_done, wanted. destruct (one_upto i (S s) s i); [|by left]. destruct (e_type e); [right | by left..]. by rewrite (framed_want st0 st). }
  destruct (Z.ltb_spec fi 0) as [Hneg|Hpos].
  - pose proof (alloc_neg _ _ _ _ _ Hal Hneg) as ->. apply (Hg (upd_stream s (fun es => es <| es_font_idx := - 1 |>))). by apply moves_upd.
  - apply (Hg (fun e => destroy_elem_shm s (upd_stream s (fun es => es <| es_font_idx := fi |>) e))). by apply moves_destroy.
Qed.

(** A loop over the streams that gives element [i] its fonts, whatever the step does
    and keeps besides. *)
Lemma font_loop_ok st0 i (Q : nat -> rod_state -> Prop) (step : nat -> rod_state -> rod_state) :
  live i st0 -> pools_ok (want_done st0 (one_upto i 0)) st0 -> Q 0%nat st0 ->
  (forall s st e, framed st0 st -> pools_ok (want_done st0 (one_upto i s)) st -> Q s st -> st_elements st !! i = Some e -> e_active e = true ->
    (s < st_stream_count st)%nat ->
    (framed st0 (step s st) /\ pools_ok (want_done st0 (one_upto i (S s))) (step s st)) /\ Q (S s) (step s st)) ->
  framed st0 (each_stream st0 step) /\ fonts_ok (each_stream st0 step).
Proof.
  intros Hlive Hp HQ Hstep.
  destruct (each_stream_ind (fun c st' => (framed st0 st' /\ pools_ok (want_done st0 (one_upto i c)) st') /\ Q c st') step st0) as [[Hf Hp'] _].
  - done.
  - intros s st' Hs [[Hf' Hp'] HQ']. destruct (live_static i st0 st' (proj2 Hf') Hlive) as (e & Hi & Ha). pose proof Hf' as [(Hn & _) _].
    apply (Hstep s st' e); [done..|lia].
  - split; [done|]. eapply pools_weaken; [done|]. intros s k e Hs _. right. unfold want_done. destruct Hf as [Henv Hel]. pose proof Henv as (Hn & _). rewrite Hn in Hs.
    replace (one_upto i _ s k) with true; [by apply wanted_framed|]. symmetry. unfold one_upto. apply orb_true_iff. right. by apply Nat.ltb_lt.
Qed.

(** An element whose size is about to change. *)
Lemma resize_pools i g st : (forall e, e_active (g e) = e_active e /\ e_streams (g e) = e_streams e) ->
  fonts_ok st -> pools_ok (want_done (upd_elem i g st) (one_upto i 0)) (upd_elem i g st).
Proof.
  intros Hg [Hsh Hp]. split.
  - apply shape_alter; [|done]. intros e _. by destruct (Hg e) as [_ ->].
  - intros s Hs. change (font_row (upd_elem i g st) s) with (font_row st s). eapply pool_weaken; [|by apply Hp].
    change (st_elements (upd_elem i g st)) with (alter g i (st_elements st)).
    apply Forall2_same_length_lookup. rewrite !view_length, length_alter. split; [done|]. intros k a b Ha Hb. rewrite view_lookup in Ha, Hb.
    destruct (decide (k = i)) as [->|Hne].
    + rewrite list_lookup_alter_eq in Hb. destruct (st_elements st !! i) as [e|]; [|done]. cbn in Ha, Hb. injection Ha as <-. injection Hb as <-.
      destruct (Hg e) as [Hact Hstr]. rewrite Hact. unfold stream_of. rewrite Hstr. destruct (e_active e); [|auto]. cbn. split; [done|]. left.
      unfold want_done, one_upto. rewrite Nat.eqb_refl. cbn. by destruct (Nat.ltb_spec s 0); [lia|].
    + rewrite list_lookup_alter_ne in Hb by done. destruct (st_elements st !! k) as [e|]; [|done]. cbn in Ha, Hb. injection Ha as <-. injection Hb as <-.
      destruct (e_active e); [|auto]. cbn. split; [done|]. right. right. unfold want_done. replace (one_upto i 0 s k) with true; [done|].
      symmetry. unfold one_upto. apply orb_true_iff. left. apply negb_true_iff. by apply Nat.eqb_neq.
Qed.

Lemma resize_names i g st : (forall e, e_active (g e) = e_active e /\ e_name (g e) = e_name e) ->
  live_names (st_elements (upd_elem i g st)) = live_names (st_elements st).
Proof.
  intros Hg. cbn. unfold live_names. revert i. induction (st_elements st) as [|e es IH]; intros i; [done|]. destruct i as [|i]; cbn [alter list_alter].
  - destruct (Hg e) as [Ha Hn]. destruct (e_active e) eqn:E; [rewrite !filter_cons_True by congruence; cbn; congruence | by rewrite !filter_cons_False by congruence].
  - destruct (e_active e) eqn:E; [rewrite !filter_cons_True by congruence; cbn; f_equal; apply IH | rewrite !filter_cons_False by congruence; apply IH].
Qed.

Lemma set_font_inv j i st : live i st -> rod_inv st -> rod_inv (set_element_font sft osd_create parse_font_size j i st).
Proof.
  intros Hlive Hinv. unfold set_element_font. destruct (cmd_font_size _ _ _) as [[px pct]|]; [|done].
  destruct (st_elements st !! i) as [e|] eqn:Hi; [|done]. destruct (_ && _); [|done]. cbv zeta.
  set (g := fun e => e <| e_font_size := px |> <| e_font_pct := pct |>). set (st1 := upd_elem i g st).
  destruct Hinv as [(Hf & Hl & Hn) _].
  destruct (font_loop_ok st1 i (fun _ _ => True) (change_font sft i)) as [[_ Hel] Hok].
  - destruct Hlive as (e' & Hi' & Ha'). exists (g e'). split; [|done]. subst st1. cbn. by rewrite list_lookup_alter_eq, Hi'.
  - apply resize_pools; [|done]. intros e'. by split_and!.
  - done.
  - intros s st2 e2 H1 H2 _ H3 H4 H5. split; [by eapply change_step | done].
  - eapply quiet_inv; [apply quiet_emit|]. apply sync_inv. split; [done|]. rewrite <- (Forall2_length _ _ _ Hel), (live_names_same _ _ Hel).
    unfold st1 at 2. rewrite resize_names by done. split; [|done]. subst st1. cbn. by rewrite length_alter.
Qed.

(** ** set-element *)

Lemma sync_live i st : core st -> live i st -> live i (rod_sync_shms osd_create st).
Proof. intros (Hf & Hl & _). apply live_same, sync_same; [by apply fonts_shape | done]. Qed.

Lemma template_inv j i st : live i st -> rod_inv st -> live i (set_element_template osd_create j i st) /\ rod_inv (set_element_template osd_create j i st).
Proof.
  intros Hlive Hinv. unfold set_element_template. destruct (js_str j "template" _) as [val|]; [|done].
  assert (Hs : same_fonts st (upd_elem i (fun e => mark_element_dirty (st_stream_count st)
    (e <| e_tmpl := strlcpy ROD_TMPL_LEN (sanitize_text val) |> <| e_last_expanded := [] |>)) st)).
  { apply upd_elem_same. intros e _. etransitivity; [|apply quiet_mark]. by split. }
  assert (Hc := core_same _ _ Hs (proj1 Hinv)). split; [apply sync_live; [done|]; by eapply live_same | by apply sync_inv].
Qed.

Lemma position_inv j name i st : live i st -> rod_inv st ->
  live i (set_element_position osd_create j name i st) /\ rod_inv (set_element_position osd_create j name i st).
Proof.
  intros Hlive Hinv. unfold set_element_position. destruct (js_str j "position" _) as [val|]; [|done].
  assert (Hs : same_fonts st (upd_elem i (fun e => e <| e_position := strlcpy 32 val |>) st)) by (apply upd_elem_same; by intros e _; split).
  assert (Hc := core_same _ _ Hs (proj1 Hinv)). split.
  - eapply live_same; [apply quiet_same, forward_quiet|]. apply sync_live; [done|]. by eapply live_same.
  - eapply quiet_inv; [apply forward_quiet|]. by apply sync_inv.
Qed.

Lemma looks_quiet j i st : quiet st (set_element_looks j i st).
Proof.
  assert (Hd : forall f st', (forall e, quiet_elem e (f e)) -> quiet st' (upd_elem i (fun e => mark_element_dirty (st_stream_count st) (f e)) st')).
  { intros f st' Hf. apply quiet_upd. intros e _. etransitivity; [apply Hf | apply quiet_mark]. }
  unfold set_element_looks. cbv zeta.
  etransitivity; [|destruct (js_int j "stroke_size"); [destruct (_ && _); [apply (Hd (fun e => e <| e_stroke_size := _ |>)); intros e; by split_and! | reflexivity] | reflexivity]].
  etransitivity; [|destruct (js_str j "stroke_color" _); [apply (Hd (fun e => e <| e_stroke_color := _ |> <| e_has_stroke_color := true |>)); intros e; by split_and! | reflexivity]].
  etransitivity; [|destruct (js_str j "color" _); [apply (Hd (fun e => e <| e_color := _ |> <| e_has_color := true |>)); intros e; by split_and! | reflexivity]].
  destruct (js_int j "align"); [destruct (_ && _); [apply (Hd (fun e => e <| e_align := _ |>)); intros e; by split_and! | done] | done].
Qed.

Lemma find_live st name i e : rod_find_element st name = Some (i, e) -> live i st.
Proof. unfold rod_find_element. intros H. apply list_find_Some in H as (Hi & [Ha _] & _). by exists e. Qed.

Lemma set_element_inv j st : rod_inv st -> rod_inv (handle_set_element sft osd_create parse_font_size j st).1.
Proof.
  intros Hinv. unfold handle_set_element. destruct (default [] _) as [|a name]; [done|]. destruct (rod_find_element st _) as [[i e]|] eqn:Hfind; [|done].
  cbn [fst]. apply find_live in Hfind. destruct (template_inv j i st Hfind Hinv) as [L1 I1]. destruct (position_inv j (a :: name) i _ L1 I1) as [L2 I2].
  apply set_font_inv; [eapply live_same; [apply quiet_same, looks_quiet | done] | eapply quiet_inv; [apply looks_quiet | done]].
Qed.

(** ** remove-element *)

Lemma drop_step st0 i s st : live i st0 -> framed st0 st -> pools_ok (fun s _ e => wanted st0 s e) st -> (s < st_stream_count st)%nat ->
  (forall e, st_elements st !! i = Some e -> forall s', (s' < s)%nat -> es_font_idx (stream_of e s') = - 1) ->
  framed st0 (drop_stream i s st) /\ pools_ok (fun s _ e => wanted st0 s e) (drop_stream i s st) /\
  (forall e, st_elements (drop_stream i s st) !! i = Some e -> forall s', (s' < S s)%nat -> es_font_idx (stream_of e s') = - 1).
Proof.
  intros Hlive Hfr Hp Hs Hdone. destruct (live_static i st0 st (proj2 Hfr) Hlive) as (e & Hi & Ha).
  pose proof (pools_elem_streams _ _ _ _ _ Hp Hi Hs) as Hse. unfold drop_stream. rewrite Hi.
  set (g := fun e => upd_stream s (fun es => es <| es_font_idx := - 1 |>) (destroy_elem_shm s e)).
  assert (Hd : same_font e (destroy_elem_shm s e)) by (apply upd_stream_same; intros x; by destruct (negb _)).
  assert (Hm : moves_font s (- 1) e (g e)).
  { destruct (moves_upd s (- 1) (destroy_elem_shm s e) (fun es => es <| es_font_idx := - 1 |>)) as (M1 & M2 & M3); [|done|].
    - destruct Hd as [(_ & _ & _ & _ & _ & ->) _]. done.
    - destruct Hd as [D1 D2]. split_and!; [by etransitivity | done |]. intros s' Hne. by rewrite M3, D2. }
  assert (Heq : upd_elem i (upd_stream s (fun es => es <| es_font_idx := - 1 |>))
      (release_font s (es_font_idx (stream_of e s)) (upd_elem i (destroy_elem_shm s) st)) = upd_elem i g (release_font s (es_font_idx (stream_of e s)) st)).
  { unfold release_font. destruct (_ || _); unfold upd_elem, upd_font; cbn; by rewrite list_alter_alter_eq. }
  rewrite Heq. destruct (release_row st s (es_font_idx (stream_of e s))) as [Ho _]; [destruct Hp as [(? & ? & _) _]; lia|].
  assert (Hel : st_elements (release_font s (es_font_idx (stream_of e s)) st) = st_elements st) by (destruct Ho as [_ ->]; done).
  split_and!.
  - apply framed_alter; [by eapply framed_fonts|]. intros e' He'. rewrite Hel, Hi in He'. injection He' as <-. by destruct Hm.
  - apply (unfont_ok _ st i s e g); [done..| | done]. intros s' k e1 e2 H. by apply wanted_static.
  - intros e' He' s' Hs'. cbn in He'. rewrite Hel, list_lookup_alter_eq, Hi in He'. cbn in He'. injection He' as <-.
    destruct (decide (s' = s)) as [->|Hne]; [by destruct Hm as (_ & ? & _)|]. destruct Hm as (_ & _ & Hm). rewrite Hm by done. apply Hdone; [done | lia].
Qed.

Lemma deactivate_core i g st : (forall e, e_active (g e) = false /\ e_streams (g e) = e_streams e) ->
  (forall e, st_elements st !! i = Some e -> forall s, (s < st_stream_count st)%nat -> es_font_idx (stream_of e s) = - 1) ->
  core st -> core (upd_elem i g st).
Proof.
  intros Hg Hidx ([Hsh Hp] & Hl & Hn). split_and!.
  - split; [apply shape_alter; [|done]; intros e _; by destruct (Hg e) as [_ ->]|]. intros s Hs.
    change (font_row (upd_elem i g st) s) with (font_row st s). eapply pool_weaken; [|by apply Hp].
    change (st_elements (upd_elem i g st)) with (alter g i (st_elements st)).
    apply Forall2_same_length_lookup. rewrite !view_length, length_alter. split; [done|]. intros k a b Ha Hb. rewrite view_lookup in Ha, Hb.
    destruct (decide (k = i)) as [->|Hne].
    + rewrite list_lookup_alter_eq in Hb. destruct (st_elements st !! i) as [e|] eqn:Ei; [|done]. cbn in Ha, Hb. injection Ha as <-. injection Hb as <-.
      destruct (Hg e) as [-> _]. destruct (e_active e); [|auto]. cbn. rewrite (Hidx e) by done. auto.
    + rewrite list_lookup_alter_ne in Hb by done. destruct (st_elements st !! k) as [e|]; [|done]. cbn in Ha, Hb. injection Ha as <-. injection Hb as <-.
      destruct (e_active e); (split; [done|]; right; right; reflexivity).
  - cbn. by rewrite length_alter.
  - eapply sublist_NoDup; [exact Hn|]. cbn. unfold live_names. clear -Hg. revert i.
    induction (st_elements st) as [|e es IH]; intros i; [done|]. destruct i as [|i]; cbn [alter list_alter].
    + destruct (Hg e) as [Hgf _]. rewrite filter_cons_False by congruence. destruct (decide (e_active e = true)).
      * rewrite filter_cons_True by done. by apply sublist_cons.
      * by rewrite filter_cons_False.
    + destruct (decide (e_active e = true)); [rewrite !filter_cons_True by done; by apply sublist_skip | rewrite !filter_cons_False by done; apply IH].
Qed.

Lemma remove_core name st : core st -> core (rod_remove_element name st).
Proof.
  intros Hc. unfold rod_remove_element. destruct (rod_find_element st name) as [[i e]|] eqn:Hfind; [|done]. apply find_live in Hfind.
  pose proof Hc as (Hf & Hl & Hn).
  destruct (each_stream_ind (fun c st' => framed st st' /\ pools_ok (fun s _ e => wanted st s e) st' /\
    (forall e, st_elements st' !! i = Some e -> forall s', (s' < c)%nat -> es_font_idx (stream_of e s') = - 1)) (drop_stream i) st) as (Hfr & Hp & Hidx).
  - split_and!; [split; done | exact Hf | lia].
  - intros s st' Hs (Hfr & Hp & Hidx). apply drop_step; try done. destruct Hfr as [(-> & _) _]. done.
  - set (st1 := each_stream st (drop_stream i)) in *.
    assert (Hc1 : core st1).
    { pose proof Hfr as [_ Hel]. split; [|by rewrite <- (Forall2_length _ _ _ Hel), (live_names_same _ _ Hel)].
      eapply pools_weaken; [exact Hp|]. intros s k e' _ _. right. by apply wanted_framed. }
    apply deactivate_core; [by intros e'; split | |].
    + intros e' He' s Hs. apply (Hidx e'); [by destruct (0 <=? _) | destruct Hfr as [(Hn' & _) _]; destruct (0 <=? _); cbn in Hs; lia].
    + destruct (0 <=? _); [|done]. eapply core_same; [apply quiet_same, quiet_emit | done].
Qed.

Lemma remove_inv j st : rod_inv st -> rod_inv (handle_remove_element osd_create j st).1.
Proof.
  intros [Hc Hx]. unfold handle_remove_element. destruct (default [] _) as [|a name]; [done|]. destruct (rod_find_element st _); [|done]. cbn [fst].
  eapply quiet_inv; [apply quiet_emit|]. by apply sync_inv, remove_core.
Qed.

(** ** add-element *)

(** What rss_json_get_str stores is a C string that fits. *)
Definition json_ok (j : json) : Prop := forall key size v, js_str j key size = Some v -> Z.of_nat (length v) < size /\ 0 ∉ v.

Lemma strlcpy_id size v : Z.of_nat (length v) < size -> 0 ∉ v -> strlcpy size v = v.
Proof. intros Hl H0. unfold strlcpy. rewrite cstr_id by done. apply take_ge. lia. Qed.

Definition unfonted (e : rod_element) : Prop := forall s, es_font_idx (stream_of e s) = - 1.

Lemma replicate_unfonted e : e_streams e = replicate (Z.to_nat ROD_MAX_STREAMS) es0 -> unfonted e.
Proof. intros He s. unfold stream_of. rewrite He. destruct (replicate _ es0 !! s) as [x|] eqn:E; [|done]. by apply lookup_replicate in E as [-> _]. Qed.

Lemma elem_find_none st name : rod_find_element st name = None -> name ∉ live_names (st_elements st).
Proof.
  unfold rod_find_element. intros Hf Hin. apply list_find_None in Hf. apply list_elem_of_fmap in Hin as (e & -> & He).
  apply list_elem_of_filter in He as [Ha He]. rewrite list.Forall_forall in Hf. by apply (Hf e He).
Qed.

Lemma live_names_app l1 l2 : live_names (l1 ++ l2) = live_names l1 ++ live_names l2.
Proof. unfold live_names. by rewrite filter_app, fmap_app. Qed.

Lemma live_names_cons e l : live_names (e :: l) = (if e_active e then [e_name e] else []) ++ live_names l.
Proof. unfold live_names. destruct (e_active e) eqn:E; [by rewrite filter_cons_True | by rewrite filter_cons_False by congruence]. Qed.

(** The element goes into a free slot or at the end, and is found there. *)
Lemma add_core name type tmpl position align fs mc um st st1 :
  Z.of_nat (length name) < ROD_ELEM_NAME_LEN -> 0 ∉ name -> core st ->
  rod_add_element name type tmpl position align fs mc um st = Some st1 ->
  core st1 /\ exists i, rod_find_element st1 name = Some (i, new_element name type tmpl position align fs mc um).
Proof.
  intros Hlen H0 ([Hsh Hp] & Hl & Hn). unfold rod_add_element. set (e := new_element _ _ _ _ _ _ _ _).
  assert (He : e_active e = true /\ e_name e = name /\ e_streams e = replicate (Z.to_nat ROD_MAX_STREAMS) es0).
  { split_and!; [done | apply strlcpy_id; done | done]. }
  destruct He as (Hea & Hen & Hes). pose proof (replicate_unfonted e Hes) as Hun. clearbody e.
  destruct (rod_find_element st name) as [|] eqn:Hfind; [done|]. pose proof (elem_find_none _ _ Hfind) as Hnin.
  unfold rod_find_element in Hfind. apply list_find_None in Hfind. pose proof Hsh as (S1 & S2 & S3).
  assert (Hrest : forall st2, st_fonts st2 = st_fonts st -> same_env st st2 ->
    font_row st2 = font_row st /\ length (st_fonts st2) = Z.to_nat ROD_MAX_STREAMS /\ (st_stream_count st2 <= Z.to_nat ROD_MAX_STREAMS)%nat /\
    (forall s, (s < st_stream_count st2)%nat -> (s < st_stream_count st)%nat) /\ (forall s e, wanted st2 s e = wanted st s e)).
  { intros st2 Hf2 Henv. pose proof Henv as (Hc & _). split_and!; [unfold font_row; by rewrite Hf2 | congruence | congruence | by intros; rewrite <- Hc |].
    intros s' e'. by apply wanted_same. }
  destruct (list_find (fun e => e_active e = false) (st_elements st)) as [[i old]|] eqn:Hslot.
  - apply list_find_Some in Hslot as (Hi & Hold & _). pose proof (lookup_lt_Some _ _ _ Hi) as Hlt.
    assert (Hgen : forall st2, st_fonts st2 = st_fonts st -> same_env st st2 -> st_elements st2 = <[i:=e]> (st_elements st) ->
      core st2 /\ exists i, rod_find_element st2 name = Some (i, e)).
    { intros st2 Hf2 Henv Hel. destruct (Hrest st2 Hf2 Henv) as (R1 & R2 & R3 & R4 & R5). split; [split_and!|].
      - split; [split_and!; [done | done | rewrite Hel; apply Forall_insert; [done | by rewrite Hes, length_replicate]]|]. intros s Hs.
        rewrite R1, Hel. eapply pool_weaken; [|apply Hp; by apply R4].
        apply Forall2_same_length_lookup. rewrite !view_length, length_insert. split; [done|]. intros k a b Ha Hb. rewrite view_lookup in Ha, Hb.
        destruct (decide (k = i)) as [->|Hne].
        + rewrite list_lookup_insert_eq in Hb by done. rewrite Hi in Ha. cbn in Ha, Hb. rewrite Hold in Ha. rewrite Hea, Hun in Hb. simplify_eq. cbn. auto.
        + rewrite list_lookup_insert_ne in Hb by done. destruct (st_elements st !! k) as [e'|]; [|done]. cbn in Ha, Hb. injection Ha as <-. injection Hb as <-.
          rewrite R5. destruct (e_active e'); auto.
      - rewrite Hel, length_insert. done.
      - rewrite Hel, insert_take_drop by done. rewrite <- (take_drop_middle _ _ _ Hi) in Hn, Hnin.
        rewrite live_names_app, live_names_cons, Hold in Hn, Hnin. cbn [app] in Hn, Hnin.
        rewrite live_names_app, live_names_cons, Hea, Hen. cbn [app]. rewrite <- Permutation_middle. by constructor.
      - exists i. unfold rod_find_element. rewrite Hel. apply list_find_Some. split_and!; [by apply list_lookup_insert_eq | done.. |].
        intros j e' Hj Hlj. rewrite list_lookup_insert_ne in Hj by lia. by apply (Forall_lookup_1 _ _ _ _ Hfind Hj). }
    intros [= <-]. by apply Hgen.
  - destruct (Z.leb_spec ROD_MAX_ELEMENTS (Z.of_nat (length (st_elements st)))) as [|Hroom]; [done|].
    assert (Hgen : forall st2, st_fonts st2 = st_fonts st -> same_env st st2 -> st_elements st2 = st_elements st ++ [e] ->
      core st2 /\ exists i, rod_find_element st2 name = Some (i, e)).
    { intros st2 Hf2 Henv Hel. destruct (Hrest st2 Hf2 Henv) as (R1 & R2 & R3 & R4 & R5). split; [split_and!|].
      - split; [split_and!; [done | done | rewrite Hel; apply Forall_app_2; [done|]; constructor; [by rewrite Hes, length_replicate | done]]|]. intros s Hs.
        rewrite R1, Hel.
        assert (Hv : view (fun _ e0 => wanted st2 s e0) s (st_elements st ++ [e]) = view (fun _ e0 => wanted st s e0) s (st_elements st) ++ [(- 1, wanted st s e)]).
        { apply list_eq. intros k. rewrite view_lookup. destruct (decide (k < length (st_elements st))%nat).
          - rewrite !lookup_app_l by (rewrite ?view_length; done). rewrite view_lookup. destruct (_ !! k); [|done]. cbn. by rewrite R5.
          - rewrite !lookup_app_r by (rewrite ?view_length; lia). rewrite view_length. destruct (k - _)%nat; [|done]. cbn. by rewrite Hea, Hun, R5. }
        rewrite Hv. by apply pool_append, Hp, R4.
      - rewrite Hel, length_app. cbn. lia.
      - rewrite Hel, live_names_app, live_names_cons, Hea, Hen. cbn. rewrite <- Permutation_cons_append. by constructor.
      - exists (length (st_elements st)). unfold rod_find_element. rewrite Hel. apply list_find_Some. split_and!; [by apply list_lookup_middle | done.. |].
        intros j e' Hj Hlj. rewrite lookup_app_l in Hj by done. by apply (Forall_lookup_1 _ _ _ _ Hfind Hj). }
    intros [= <-]. by apply Hgen.
Qed.

Lemma first_step st0 i s st e :
  framed st0 st -> pools_ok (want_done st0 (one_upto i s)) st ->
  (forall e, st_elements st !! i = Some e -> forall s', (s <= s')%nat -> es_font_idx (stream_of e s') = - 1) ->
  st_elements st !! i = Some e -> e_active e = true -> (s < st_stream_count st)%nat ->
  (framed st0 (first_font sft i s st) /\ pools_ok (want_done st0 (one_upto i (S s))) (first_font sft i s st)) /\
  (forall e, st_elements (first_font sft i s st) !! i = Some e -> forall s', (S s <= s')%nat -> es_font_idx (stream_of e s') = - 1).
Proof.
  intros Hfr Hp HQ Hi Ha Hs. unfold first_font. rewrite Hi. pose proof (HQ e Hi s ltac:(lia)) as Hidx.
  destruct (rod_alloc_font sft s _ st) as [st2 fi] eqn:Hal.
  assert (Hal' : rod_alloc_font sft s (rod_font_for_elem st (Some e) (Z.of_nat s)) (release_font s (es_font_idx (stream_of e s)) st) = (st2, fi))
    by (rewrite Hidx; exact Hal).
  pose proof (release_alloc_fonts _ _ _ _ _ _ _ Hp Hs Hal') as Hof. pose proof (pools_elem_streams _ _ _ _ _ Hp Hi Hs) as Hse.
  assert (Hel : st_elements st2 = st_elements st) by (destruct Hof as [_ ->]; done).
  assert (Hg : forall g, moves_font s fi e (g e) ->
    (framed st0 (upd_elem i g st2) /\ pools_ok (want_done st0 (one_upto i (S s))) (upd_elem i g st2)) /\
    (forall e, st_elements (upd_elem i g st2) !! i = Some e -> forall s', (S s <= s')%nat -> es_font_idx (stream_of e s') = - 1)).
  { intros g Hm. split; [split|].
    - apply framed_alter; [by eapply framed_fonts|]. intros e' He'. rewrite Hel, Hi in He'. injection He' as <-. by destruct Hm.
    - eapply (refont_ok sft (want_done st0 (one_upto i s))); [exact Hsft | exact Hp | exact Hi | exact Ha | exact Hs | exact Hal' | apply want_done_static | | | exact Hm].
      + intros s' k e' Hne. unfold want_done. replace (one_upto i (S s) s' k) with (one_upto i s s' k) by one_upto. done.
      + unfold want_done, wanted. destruct (one_upto i (S s) s i); [|by left]. destruct (e_type e); [right | by left..]. by rewrite (framed_want st0 st).
    - intros e' He' s' Hs'. cbn in He'. rewrite Hel, list_lookup_alter_eq, Hi in He'. injection He' as <-. destruct Hm as (_ & _ & Hm).
      rewrite Hm by lia. apply (HQ e Hi). lia. }
  destruct (Z.leb_spec 0 fi) as [Hpos|Hneg].
  - apply (Hg (upd_stream s (fun es => es <| es_font_idx := fi |>))). by apply moves_upd.
  - pose proof (alloc_neg _ _ _ _ _ Hal' ltac:(lia)) as ->. specialize (Hg id).
    assert (Hid : upd_elem i id st2 = st2) by (unfold upd_elem; rewrite list_alter_id by done; by destruct st2).
    rewrite Hid in Hg. by apply Hg.
Qed.

Lemma fonts_absent st i : pools_ok (want_done st (one_upto i 0)) st -> (forall e, st_elements st !! i = Some e -> unfonted e) -> fonts_ok st.
Proof.
  intros [Hsh Hp] Hun. split; [done|]. intros s Hs. eapply pool_weaken; [|by apply Hp].
  apply Forall2_same_length_lookup. rewrite !view_length. split; [done|]. intros k a b Ha Hb. rewrite view_lookup in Ha, Hb.
  destruct (st_elements st !! k) as [e|] eqn:Ek; [|done]. cbn in Ha, Hb. injection Ha as <-. injection Hb as <-.
  destruct (e_active e); [|auto]. cbn. split; [done|]. destruct (decide (k = i)) as [->|Hne]; [right; left; by apply Hun|].
  right. right. unfold want_done. replace (one_upto i 0 s k) with true; [done|]. symmetry. unfold one_upto. apply orb_true_iff. left.
  apply negb_true_iff. by apply Nat.eqb_neq.
Qed.

(** A fresh element gets its fonts and its buffer. *)
Lemma new_element_ok i g (text : bool) st : live i st -> core st -> (forall e, st_elements st !! i = Some e -> unfonted e) ->
  (forall e, e_active (g e) = e_active e /\ e_name (g e) = e_name e /\ e_streams (g e) = e_streams e) ->
  core (if text then each_stream (upd_elem i g st) (first_font sft i) else upd_elem i g st).
Proof.
  intros (e & Hi & Ha) (Hf & Hl & Hn) Hun Hg. set (st1 := upd_elem i g st).
  assert (Hi1 : st_elements st1 !! i = Some (g e)) by (subst st1; cbn; by rewrite list_lookup_alter_eq, Hi).
  assert (Hun1 : unfonted (g e)) by (intros s; unfold stream_of; destruct (Hg e) as (_ & _ & ->); by apply Hun).
  assert (Hlen1 : Z.of_nat (length (st_elements st1)) <= ROD_MAX_ELEMENTS) by (subst st1; cbn; by rewrite length_alter).
  assert (Hn1 : NoDup (live_names (st_elements st1))) by (subst st1; rewrite resize_names; [done | intros e'; by destruct (Hg e') as (? & ? & _)]).
  assert (Hp1 : pools_ok (want_done st1 (one_upto i 0)) st1) by (apply resize_pools; [intros e'; by destruct (Hg e') as (? & _ & ?) | done]).
  destruct text.
  - destruct (font_loop_ok st1 i (fun c st' => forall e, st_elements st' !! i = Some e -> forall s', (c <= s')%nat -> es_font_idx (stream_of e s') = - 1)
      (first_font sft i)) as [[_ Hel] Hok].
    + exists (g e). split; [done|]. by destruct (Hg e) as [-> _].
    + done.
    + intros e' He' s' _. rewrite Hi1 in He'. by injection He' as <-.
    + apply first_step.
    + split; [done|]. by rewrite <- (Forall2_length _ _ _ Hel), (live_names_same _ _ Hel).
  - split; [|done]. apply (fonts_absent st1 i); [done|]. intros e' He'. rewrite Hi1 in He'. by injection He' as <-.
Qed.

Lemma upd_elem_compose i f g st : upd_elem i f (upd_elem i g st) = upd_elem i (fun e => f (g e)) st.
Proof. unfold upd_elem. cbn. by rewrite list_alter_alter_eq. Qed.

Lemma add_inv j st : json_ok j -> rod_inv st -> rod_inv (handle_add_element sft osd_create parse_font_size j st).1.
Proof.
  intros Hj [Hc Hx]. unfold handle_add_element. destruct (js_str j "name" _) as [name|] eqn:Hname; cbn [default from_option id].
  2: { by destruct (match js_str j "position" 32 with Some p => _ | None => _ end), (default _ (cmd_font_size _ _ _)). }
  destruct (Hj _ _ _ Hname) as [Hlen H0]. cbv zeta.
  set (pp := match js_str j "position" 32 with Some p => _ | None => _ end). destruct pp as [position placed].
  destruct (default _ (cmd_font_size _ _ _)) as [font_size font_pct]. destruct name as [|c name]; [done|]. cbv iota beta.
  set (nm := c :: name) in *. clearbody nm.
  set (type_str := default (cs "text") _). set (mc := default 20 _). set (align := default 0 _). set (tmpl := sanitize_text _).
  destruct (rod_add_element nm (type_of type_str) (Some tmpl) (Some position) align font_size mc ROD_UPDATE_TICK st) as [st1|] eqn:Hadd; [|done].
  destruct (add_core _ _ _ _ _ _ _ _ _ _ Hlen H0 Hc Hadd) as [Hc1 (i & Hfind)]. rewrite Hfind. cbn [fst].
  assert (Hlive := find_live _ _ _ _ Hfind).
  assert (Hun : forall e, st_elements st1 !! i = Some e -> unfonted e).
  { intros e He. unfold rod_find_element in Hfind. apply list_find_Some in Hfind as (Hi & _). rewrite Hi in He. injection He as <-.
    by apply replicate_unfonted. }
  assert (Hquiet : forall st4, rod_inv st4 -> rod_inv
    (let st := forward_position nm position (- 1) st4 in
     let st := emit (Cfg_set (elem_section nm) (cs "type") type_str) st in
     let st := match tmpl with [] => st | _ => emit (Cfg_set (elem_section nm) (cs "template") tmpl) st end in
     if placed then emit (Cfg_set (elem_section nm) (cs "position") position) st else st)).
  { intros st4 H4. cbv zeta. eapply quiet_inv; [|exact H4]. etransitivity; [apply forward_quiet|]. etransitivity; [apply quiet_emit|].
    etransitivity; [|destruct placed; [apply quiet_emit | reflexivity]]. destruct tmpl; [done | apply quiet_emit]. }
  apply Hquiet, sync_inv. clear Hquiet.
  destruct (bool_decide (type_of type_str = ROD_ELEM_RECEIPT)) eqn:Erec.
  - apply bool_decide_eq_true in Erec. rewrite Erec. cbn [draws_text]. rewrite upd_elem_compose.
    by apply (new_element_ok i (fun e => (e <| e_font_pct := font_pct |>) <| e_receipt := receipt_from_cmd j mc (e_receipt e) |>) true st1).
  - by apply (new_element_ok i (fun e => e <| e_font_pct := font_pct |>) (draws_text (type_of type_str)) st1).
Qed.

(** ** Every command *)

Lemma handler_inv common j st : json_ok j -> rod_inv st ->
  ~ stale (rod_ctrl_handler sft osd_create parse_font_size common j st).1 ->
  rod_inv (rod_ctrl_handler sft osd_create parse_font_size common j st).1.
Proof.
  intros Hj Hi. unfold rod_ctrl_handler. destruct common; [done|]. destruct (js_str j "cmd" 64) as [cmd|]; [|done]. cbv zeta.
  destruct (plain_cmds_inv j st Hi) as (P1 & P2 & P3 & P4). destruct (receipt_cmds_inv j st Hi) as [R1 R2].
  repeat match goal with |- context [bool_decide (cmd = ?c)] => destruct (bool_decide (cmd = c)) end; intros Hns;
    first [done | by apply color_inv | by apply set_position_cmd_inv | by apply font_size_inv | by apply add_inv | by apply remove_inv
          | by apply set_element_inv | by apply set_var_inv | by apply show_hide_inv].
Qed.
End Props.
