(* ===== verification/RodStart.v ===== *)
(** * rod: start-up (rod/rod_config.c, the head of main in rod_main.c)

    The settings and the stream sizes, the elements of the configuration file in its
    order, their fonts and images.  The configuration reader, the descriptors of the
    receipts' inputs, the logo files and rvd's answer are parameters. *)

From Stdlib Require Import String.
From stdpp Require Import list list_numbers.
From S2P Require Import Prelude Mux RtmpUrl RodDraw RodReceipt RodTemplate RodElem RodPool RodCtrl RodProps.

(** [cfg_walk] is the order rss_config_foreach_section visits the [osd.] sections
    in; an opened input is a descriptor or -1. *)
Record rod_cfg := mk_cfg {
  cfg_str : list Z -> string -> option (list Z);
  cfg_int : list Z -> string -> Z -> Z;
  cfg_bool : list Z -> string -> bool -> bool;
  cfg_walk : list (list Z);
  cfg_open : list Z -> Z;
  cfg_file : list Z -> option (list Z);
  cfg_malloc : bool;
  cfg_rvd_streams : option (list (Z * Z));
  cfg_hostname : list Z
}.

Section Start.
Context (cfg : rod_cfg) (sft : nat -> sft_ops) (osd_create : nat -> bool) (parse_font_size : list Z -> option (Z * Z)).

Definition get_str (section : list Z) (key : string) (dflt : list Z) : list Z := default dflt (cfg_str cfg section key).

(** ** Settings *)

Definition parse_align (s : list Z) : Z :=
  if bool_decide (s = cs "right") then 2 else if bool_decide (s = cs "center") then 1 else 0.

Definition slot_of (name : list Z) : option (list Z * Z) := snd <$> list_find (fun p : list Z * Z => p.1 = name) slots.

Definition load_settings : rod_config :=
  let '(px, pct) := default (24, 0) (parse_font_size (get_str (cs "osd") "font_size" [])) in
  let fps := cfg_int cfg (cs "stream0") "fps" 25 in
  mk_config px pct (parse_color (Some (get_str (cs "osd") "font_color" (cs "0xFFFFFFFF"))))
    (parse_color (Some (get_str (cs "osd") "stroke_color" (cs "0xFF000000")))) (cfg_int cfg (cs "osd") "font_stroke" 1)
    (strlcpy 64 (get_str (cs "osd") "time_format" (cs "%Y-%m-%d %H:%M:%S"))) (if fps <? 1 then 25 else fps).

(** The configured sizes of the streams, in order. *)
Definition base_streams : list (Z * Z) :=
  (cfg_int cfg (cs "stream0") "width" 1920, cfg_int cfg (cs "stream0") "height" 1080) ::
  (if cfg_bool cfg (cs "stream1") "enabled" true
   then [(cfg_int cfg (cs "stream1") "width" 640, cfg_int cfg (cs "stream1") "height" 360)] else []).

Definition sensor_sections : list (list Z * bool) :=
  [(cs "sensor1_stream0", true); (cs "sensor1_stream1", false); (cs "sensor2_stream0", true); (cs "sensor2_stream1", false)].

(** [main_like] sections default to stream 0's size, the others to what is at index 1. *)
Definition add_sensor (streams : list (Z * Z)) (sec : list Z * bool) : list (Z * Z) :=
  let '(name, main_like) := sec in
  if ROD_MAX_STREAMS <=? Z.of_nat (length streams) then streams
  else if negb (bool_decide (get_str name "codec" [] = [])) || cfg_bool cfg name "enabled" false then
    let d := default (0, 0) (streams !! (if main_like then 0 else 1)%nat) in
    streams ++ [(cfg_int cfg name "width" d.1, cfg_int cfg name "height" d.2)]
  else streams.

Definition dims_from_rvd (streams : list (Z * Z)) : list (Z * Z) :=
  match cfg_rvd_streams cfg with
  | None => streams
  | Some told => imap (fun s (d : Z * Z) => match told !! s with
      | Some (w, h) => if (0 <? w) && (0 <? h) then (w, h) else d
      | None => d end) streams
  end.

Definition load_streams : list (Z * Z) :=
  let streams := fold_left add_sensor sensor_sections base_streams in
  let rotate := cfg_int cfg (cs "image") "rotate" 0 in
  let streams := if (rotate =? 90) || (rotate =? 270) then (fun d : Z * Z => (d.2, d.1)) <$> streams else streams in
  dims_from_rvd streams.

Definition pad6 (l : list Z) : list Z := l ++ replicate (Z.to_nat ROD_MAX_STREAMS - length l) 0.

Definition load_config : rod_state :=
  let streams := load_streams in
  mk_rod_state load_settings (replicate (Z.to_nat ROD_MAX_STREAMS) (replicate (Z.to_nat ROD_MAX_FONTS) font0)) (length streams)
    (pad6 (fst <$> streams)) (pad6 (snd <$> streams)) [] [] (mon0 (take 63 (cstr (cfg_hostname cfg)))) false 1000000 0 0 [].

(** ** The sections of the file *)

(** A full window forgets the section noted first. *)
Definition note_osd_section (held : list (list Z)) (section : list Z) : list (list Z) :=
  (if (ROD_MAX_ELEMENTS <=? Z.of_nat (length held)) then drop 1 held else held) ++ [strlcpy 64 section].

Definition receipt_from_cfg (section : list Z) (r : receipt) : receipt :=
  let ml := cfg_int cfg section "max_lines" 20 in
  let mll := cfg_int cfg section "max_line_length" 80 in
  let source := get_str section "source" [] in
  let dev := get_str section "device" [] in
  let opened := (bool_decide (source = cs "fifo") || bool_decide (source = cs "uart")) && negb (bool_decide (dev = [])) in
  r <| rc_max_lines := if ROD_RECEIPT_MAX_LINES <? ml then ROD_RECEIPT_MAX_LINES else ml |>
    <| rc_max_line_len := if ROD_RECEIPT_MAX_LINE <? mll then ROD_RECEIPT_MAX_LINE else mll |>
    <| rc_accum_timeout := cfg_int cfg section "timeout" 0 |>
    <| rc_bg_color := parse_color (Some (get_str section "bg_color" (cs "0x80000000"))) |>
    <| rc_input_fd := if opened then (if 0 <=? cfg_open cfg section then cfg_open cfg section else - 1) else - 1 |>.

(** What a section adds to the element made from it. *)
Definition configure (section : list Z) (type : rod_elem_type) (font_pct : Z) (e : rod_element) : rod_element :=
  let e := e <| e_visible := cfg_bool cfg section "visible" true |> <| e_sub_streams_only := cfg_bool cfg section "sub_only" false |>
             <| e_font_pct := font_pct |> in
  let e := if bool_decide (type = ROD_ELEM_IMAGE)
           then e <| e_image_w := cfg_int cfg section "width" 0 |> <| e_image_h := cfg_int cfg section "height" 0 |> else e in
  let e := if bool_decide (type = ROD_ELEM_RECEIPT) then e <| e_receipt := receipt_from_cfg section (e_receipt e) |> else e in
  let stroke := cfg_int cfg section "stroke_size" (- 1) in
  let e := if 0 <=? stroke then e <| e_stroke_size := stroke |> else e in
  let e := match cfg_str cfg section "color" with Some c => e <| e_color := u32 (strtoul c) |> <| e_has_color := true |> | None => e end in
  match cfg_str cfg section "stroke_color" with
  | Some c => e <| e_stroke_color := u32 (strtoul c) |> <| e_has_stroke_color := true |>
  | None => e end.

Definition load_osd_section (st : rod_state) (section : list Z) : rod_state :=
  match strchr section 0x2E with
  | None => st
  | Some (_, name) =>
      if bool_decide (name = []) || (ROD_ELEM_NAME_LEN <=? Z.of_nat (length name)) then st
      else
        let slot := slot_of name in
        let type := type_of (get_str section "type" (cs "text")) in
        let position := get_str section "position" (if slot then name else cs "top_left") in
        let align_str := get_str section "align" [] in
        let '(px, pct) := default (0, 0) (parse_font_size (get_str section "font_size" [])) in
        let align := match align_str, slot with [], Some (_, a) => a | _, _ => parse_align align_str end in
        let update := if bool_decide (get_str section "update" (cs "tick") = cs "change") then ROD_UPDATE_CHANGE else ROD_UPDATE_TICK in
        match rod_add_element name type (Some (get_str section "template" [])) (Some position) align px
                (cfg_int cfg section "max_chars" 20) update st with
        | None => st
        | Some st =>
            match rod_find_element st name with
            | None => st
            | Some (i, _) => upd_elem i (configure section type pct) st
            end
        end
  end.

(** An element the daemon adds of its own, if its name is not taken. *)
Definition add_builtin (name : list Z) (type : rod_elem_type) (tmpl : option (list Z)) (position : list Z) (align max_chars : Z)
    (update : rod_update_mode) (f : rod_element -> rod_element) (st : rod_state) : rod_state :=
  if rod_find_element st name then st
  else
    let st := default st (rod_add_element name type tmpl (Some position) align 0 max_chars update st) in
    match rod_find_element st name with Some (i, _) => upd_elem i f st | None => st end.

Definition section_has_credentials (section : list Z) : bool :=
  negb (bool_decide (get_str section "username" [] = [])) && negb (bool_decide (get_str section "password" [] = [])).

Definition media_is_open : bool :=
  if cfg_bool cfg (cs "system") "unsafe" false then false
  else negb (section_has_credentials (cs "rtsp")) || negb (section_has_credentials (cs "http")).

Definition init_elements_from_config (st : rod_state) : rod_state :=
  let held := fold_left note_osd_section (cfg_walk cfg) [] in
  let st := fold_left load_osd_section (rev held) st in
  let st := add_builtin (cs "privacy") ROD_ELEM_TEXT (Some (cs "Privacy Mode")) (cs "center") 1 20 ROD_UPDATE_CHANGE
    (fun e => e <| e_visible := false |>) st in
  let st := if media_is_open then add_builtin (cs "unsecured") ROD_ELEM_TEXT (Some (cs "UNSECURED - NO PASSWORD SET")) (cs "bottom_center") 1 40
    ROD_UPDATE_CHANGE (fun e => e) st else st in
  if cfg_bool cfg (cs "motion") "enabled" false
  then add_builtin (cs "detect") ROD_ELEM_OVERLAY None (cs "0,0") 0 0 ROD_UPDATE_TICK (fun e => e <| e_sub_streams_only := true |>) st
  else st.

(** ** main, up to the loop *)

(** The font of one element on one stream; [None] is the fatal exit. *)
Definition start_font (i : nat) (st : option rod_state) (s : nat) : option rod_state :=
  st ← st; e ← st_elements st !! i;
  let '(st, fi) := rod_alloc_font sft s (rod_font_for_elem st (Some e) (Z.of_nat s)) st in
  if fi <? 0 then None else Some (upd_elem i (upd_stream s (fun es => es <| es_font_idx := fi |>)) st).

Definition start_fonts (st : option rod_state) (i : nat) : option rod_state :=
  st' ← st; e ← st_elements st' !! i;
  if negb (e_active e) || negb (draws_text (e_type e)) then st
  else fold_left (start_font i) (seq 0 (st_stream_count st')) st.

Definition load_images (st : rod_state) (e : rod_element) : rod_element :=
  if negb (e_active e) || negb (bool_decide (e_type e = ROD_ELEM_IMAGE)) then e
  else
    let path := strlcpy 256 (get_str (elem_section (e_name e)) "path" []) in
    let e := if negb (bool_decide (path = [])) && (0 <? e_image_w e) && (0 <? e_image_h e)
             then e <| e_image_data := rod_load_logo (cfg_file cfg path) (e_image_w e) (e_image_h e) |> else e in
    match e_image_data e with
    | Some data =>
        let h0 := stream_dim (st_stream_h st) 0 in
        let h1 := stream_dim (st_stream_h st) 1 in
        if (1 <? st_stream_count st)%nat && (0 <? h0) then
          let w := Z.quot (e_image_w e * h1) h0 in
          let h := Z.quot (e_image_h e * h1) h0 in
          if (0 <? w) && (0 <? h) then
            match rod_scale_logo (cfg_malloc cfg) data (e_image_w e) (e_image_h e) w h with
            | Some (Some sub) => e <| e_image_sub_data := Some sub |> <| e_image_sub_w := w |> <| e_image_sub_h := h |>
            | _ => e
            end
          else e
        else e
    | None => e
    end.

Definition push_positions (st : rod_state) : rod_state :=
  fold_left (fun st i => match st_elements st !! i with
    | Some e => if negb (e_active e) || bool_decide (e_position e = []) then st else forward_position (e_name e) (e_position e) (- 1) st
    | None => st end) (seq 0 (length (st_elements st))) st.

Definition rod_start : option rod_state :=
  let st := init_elements_from_config load_config in
  st ← fold_left start_fonts (seq 0 (length (st_elements st))) (Some st);
  let st := st <| st_elements := load_images st <$> st_elements st |> in
  let st := push_positions (rod_sync_shms osd_create st) in
  Some (st <| st_tick_interval := if has_frame (c_time_format (st_settings st)) then Z.quot 1000000 (c_frame_rate (st_settings st)) else 1000000 |>).

End Start.

(** ** The state the loop starts in *)

Definition all_unfonted (st : rod_state) : Prop := Forall unfonted (st_elements st).

Lemma unfonted_pools w w' st : pools_ok w st -> all_unfonted st -> pools_ok w' st.
Proof.
  intros [Hsh Hp] Hun. split; [done|]. intros s Hs. eapply pool_weaken; [|by apply Hp].
  apply Forall2_same_length_lookup. rewrite !view_length. split; [done|]. intros k a b Ha Hb. rewrite view_lookup in Ha, Hb.
  destruct (st_elements st !! k) as [e|] eqn:Ek; [|done]. cbn in Ha, Hb. injection Ha as <-. injection Hb as <-.
  destruct (e_active e); [|auto]. cbn. split; [done|]. right. left. by apply (Forall_lookup_1 _ _ _ _ Hun Ek).
Qed.

Lemma configure_same cfg section type pct e :
  e_active (configure cfg section type pct e) = e_active e /\ e_name (configure cfg section type pct e) = e_name e /\
  e_streams (configure cfg section type pct e) = e_streams e.
Proof.
  unfold configure. cbv zeta. destruct (cfg_str cfg section "stroke_color"), (cfg_str cfg section "color"), (0 <=? _), (bool_decide (type = ROD_ELEM_IMAGE)),
    (bool_decide (type = ROD_ELEM_RECEIPT)); done.
Qed.

(** Loading keeps the table sound and the fonts untouched. *)
Definition loaded (st : rod_state) : Prop := core st /\ all_unfonted st.

Lemma upd_loaded i g st : (forall e, e_active (g e) = e_active e /\ e_name (g e) = e_name e /\ e_streams (g e) = e_streams e) ->
  loaded st -> loaded (upd_elem i g st).
Proof.
  intros Hg [(Hf & Hl & Hn) Hun].
  assert (Hun' : all_unfonted (upd_elem i g st)).
  { unfold all_unfonted. cbn. apply Forall_lookup_2. intros k e He. destruct (decide (k = i)) as [->|Hne].
    - rewrite list_lookup_alter_eq in He. destruct (st_elements st !! i) as [e0|] eqn:E; [|done]. injection He as <-.
      intros s. unfold stream_of. destruct (Hg e0) as (_ & _ & ->). by apply (Forall_lookup_1 _ _ _ _ Hun E).
    - rewrite list_lookup_alter_ne in He by done. by apply (Forall_lookup_1 _ _ _ _ Hun He). }
  split; [|done]. split_and!.
  - eapply unfonted_pools; [|done]. apply resize_pools; [intros e; by destruct (Hg e) as (? & _ & ?) | done].
  - cbn. by rewrite length_alter.
  - rewrite resize_names; [done | intros e; by destruct (Hg e) as (? & ? & _)].
Qed.

Lemma add_loaded name type tmpl position align fs mc um st st1 :
  Z.of_nat (length name) < ROD_ELEM_NAME_LEN -> 0 ∉ name -> loaded st ->
  rod_add_element name type tmpl position align fs mc um st = Some st1 -> loaded st1.
Proof.
  intros Hlen H0 [Hc Hun] Hadd. split; [by destruct (add_core _ _ _ _ _ _ _ _ _ _ Hlen H0 Hc Hadd)|].
  revert Hadd. unfold rod_add_element. destruct (rod_find_element st name); [done|].
  assert (Hne : unfonted (new_element name type tmpl position align fs mc um)) by (by apply replicate_unfonted).
  destruct (list_find _ _) as [[i old]|]; [intros [= <-]; by apply Forall_insert|]. destruct (_ <=? _); [done|]. intros [= <-].
  apply Forall_app_2; [done|]. by constructor.
Qed.

Lemma strchr_split l c a b : strchr l c = Some (a, b) -> l = a ++ c :: b.
Proof.
  revert a. induction l as [|x l IH]; intros a; [done|]. cbn. destruct (Z.eqb_spec x c) as [->|]; [by intros [= <- <-]|].
  destruct (strchr l c) as [[a' b']|]; [|done]. intros [= <- <-]. cbn. by rewrite (IH a').
Qed.

Lemma strlcpy_no_zero size l : 0 ∉ strlcpy size l.
Proof.
  intros Hin. unfold strlcpy in Hin. assert (H : 0 ∈ cstr l) by (rewrite <- (take_drop (Z.to_nat (size - 1)) (cstr l)); apply elem_of_app; by left).
  clear Hin. induction l as [|c l IH]; cbn in H; [by apply not_elem_of_nil in H|]. destruct (Z.eqb_spec c 0); [by apply not_elem_of_nil in H|].
  apply elem_of_cons in H as [H|H]; [lia | by apply IH].
Qed.

Section StartProps.
Context (cfg : rod_cfg) (sft : nat -> sft_ops) (osd_create : nat -> bool) (parse_font_size : list Z -> option (Z * Z)).
Hypothesis Hsft : forall n, sft_sound (sft n).

Lemma section_loaded st section : 0 ∉ section -> loaded st -> loaded (load_osd_section cfg parse_font_size st section).
Proof.
  intros H0 Hl. unfold load_osd_section. destruct (strchr section 0x2E) as [[a name]|] eqn:Es; [|done]. apply strchr_split in Es.
  destruct (bool_decide (name = []) || _) eqn:Ebad; [done|]. apply orb_false_iff in Ebad as [_ Hlen]. apply Z.leb_gt in Hlen.
  destruct (default _ (parse_font_size _)) as [px pct]. cbv zeta.
  destruct (rod_add_element name _ _ _ _ _ _ _ st) as [st1|] eqn:Hadd; [|done].
  assert (Hl1 : loaded st1).
  { eapply add_loaded; [exact Hlen | | exact Hl | exact Hadd]. intros Hin. apply H0. rewrite Es. apply elem_of_app. right. by right. }
  destruct (rod_find_element st1 name) as [[i e]|]; [|done]. apply upd_loaded; [|done]. apply configure_same.
Qed.

Lemma builtin_loaded name type tmpl position align mc um f st :
  Z.of_nat (length name) < ROD_ELEM_NAME_LEN -> 0 ∉ name ->
  (forall e, e_active (f e) = e_active e /\ e_name (f e) = e_name e /\ e_streams (f e) = e_streams e) ->
  loaded st -> loaded (add_builtin name type tmpl position align mc um f st).
Proof.
  intros Hlen H0 Hf Hl. unfold add_builtin. destruct (rod_find_element st name); [done|]. cbv zeta.
  destruct (rod_add_element name type tmpl (Some position) align 0 mc um st) as [st1|] eqn:Hadd; cbn [default from_option id].
  - assert (Hl1 : loaded st1) by (by eapply add_loaded). destruct (rod_find_element st1 name) as [[i e]|]; [by apply upd_loaded | done].
  - destruct (rod_find_element st name) as [[i e]|]; [by apply upd_loaded | done].
Qed.

Lemma load_streams_bound : (length (load_streams cfg) <= 6)%nat.
Proof.
  unfold load_streams, dims_from_rvd.
  assert (H : (length (fold_left (add_sensor cfg) sensor_sections (base_streams cfg)) <= 6)%nat).
  { assert (Hb : (length (base_streams cfg) <= 6)%nat) by (unfold base_streams; destruct (cfg_bool cfg _ _ _); cbn; lia).
    revert Hb. generalize (base_streams cfg). generalize sensor_sections. intros secs. induction secs as [|[n m] secs IH]; intros l Hl; [done|]. cbn [fold_left].
    apply IH. unfold add_sensor. unfold ROD_MAX_STREAMS. destruct (Z.leb_spec 6 (Z.of_nat (length l))); [done|]. destruct (_ || _); [rewrite length_app; cbn; lia | done]. }
  destruct (cfg_rvd_streams cfg); rewrite ?length_imap; destruct (_ || _); rewrite ?length_fmap; done.
Qed.

Lemma config_loaded : loaded (load_config cfg parse_font_size).
Proof.
  split; [|constructor]. split_and!; [|done | constructor].
  split; [split_and!; [done | exact load_streams_bound | constructor]|]. intros s Hs. unfold font_row. cbn [load_config st_fonts].
  rewrite lookup_replicate_2 by (pose proof load_streams_bound; cbn in Hs; unfold ROD_MAX_STREAMS; lia). cbn [default from_option id]. split_and!.
  - by rewrite length_replicate.
  - apply Forall_replicate. constructor.
  - intros i f Hi. apply lookup_replicate in Hi as [-> _]. done.
  - intros x w Hx. by apply not_elem_of_nil in Hx.
  - intros x z f Hx. by apply not_elem_of_nil in Hx.
Qed.

Lemma init_loaded : loaded (init_elements_from_config cfg parse_font_size (load_config cfg parse_font_size)).
Proof.
  unfold init_elements_from_config. cbv zeta.
  assert (H1 : loaded (fold_left (load_osd_section cfg parse_font_size) (rev (fold_left note_osd_section (cfg_walk cfg) [])) (load_config cfg parse_font_size))).
  { assert (Hn : Forall (fun s => 0 ∉ s) (fold_left note_osd_section (cfg_walk cfg) [])).
    { assert (Hg : forall l held, Forall (fun s => 0 ∉ s) held -> Forall (fun s => 0 ∉ s) (fold_left note_osd_section l held)).
      { induction l as [|x l IH]; intros held Hh; [done|]. cbn [fold_left]. apply IH. unfold note_osd_section.
        apply Forall_app_2; [destruct (_ <=? _); [by apply Forall_drop | done]|]. constructor; [apply strlcpy_no_zero | done]. }
      apply Hg. constructor. }
    apply Forall_rev in Hn. revert Hn. generalize (rev (fold_left note_osd_section (cfg_walk cfg) [])). intros l Hn.
    pose proof config_loaded as Hl. revert Hl. generalize (load_config cfg parse_font_size). induction Hn as [|x l Hx Hn IH]; intros st Hl; [done|].
    cbn [fold_left]. apply IH. by apply section_loaded. }
  assert (Hb : forall name type tmpl position align mc um f st, Z.of_nat (length name) < ROD_ELEM_NAME_LEN -> bool_decide (0 ∈ name) = false ->
    (forall e, e_active (f e) = e_active e /\ e_name (f e) = e_name e /\ e_streams (f e) = e_streams e) -> loaded st ->
    loaded (add_builtin name type tmpl position align mc um f st)).
  { intros name type tmpl position align mc um f st Hlen H0 Hf Hl. apply bool_decide_eq_false in H0. by apply builtin_loaded. }
  set (st1 := fold_left _ _ _) in *. clearbody st1.
  set (st2 := add_builtin (cs "privacy") _ _ _ _ _ _ _ st1). assert (H2 : loaded st2) by (by apply Hb). clearbody st2.
  set (st3 := if media_is_open cfg then _ else _). assert (H3 : loaded st3) by (subst st3; destruct (media_is_open cfg); [by apply Hb | done]). clearbody st3.
  destruct (cfg_bool cfg _ _ _); [by apply Hb | done].
Qed.

(** *** Fonts *)

Lemma start_step st0 i s st e st' :
  framed st0 st -> pools_ok (fun s _ e => wanted st0 s e) st -> st_elements st !! i = Some e -> e_active e = true ->
  (s < st_stream_count st)%nat -> es_font_idx (stream_of e s) = - 1 -> start_font sft i (Some st) s = Some st' ->
  (framed st0 st' /\ pools_ok (fun s _ e => wanted st0 s e) st') /\
  exists e', st_elements st' = <[i := e']> (st_elements st) /\ forall s', s' <> s -> es_font_idx (stream_of e' s') = es_font_idx (stream_of e s').
Proof.
  intros Hfr Hp Hi Ha Hs Hidx. unfold start_font. cbn [mbind option_bind]. rewrite Hi. cbn [mbind option_bind].
  destruct (rod_alloc_font sft s _ st) as [st2 fi] eqn:Hal. destruct (Z.ltb_spec fi 0); [done|]. intros [= <-].
  assert (Hal' : rod_alloc_font sft s (rod_font_for_elem st (Some e) (Z.of_nat s)) (release_font s (es_font_idx (stream_of e s)) st) = (st2, fi))
    by (rewrite Hidx; exact Hal).
  pose proof (release_alloc_fonts _ _ _ _ _ _ _ _ Hp Hs Hal') as Hof. pose proof (pools_elem_streams _ _ _ _ _ Hp Hi Hs) as Hse.
  assert (Hel : st_elements st2 = st_elements st) by (destruct Hof as [_ ->]; done).
  set (g := upd_stream s (fun es => es <| es_font_idx := fi |>)). assert (Hm : moves_font s fi e (g e)) by (by apply moves_upd).
  split; [split|].
  - apply framed_alter; [by eapply framed_fonts|]. intros e' He'. rewrite Hel, Hi in He'. injection He' as <-. by destruct Hm.
  - eapply (refont_ok sft (fun s _ e => wanted st0 s e)); [exact Hsft | exact Hp | exact Hi | exact Ha | exact Hs | exact Hal' | | done | | exact Hm].
    + intros s' k e1 e2 H12. by apply wanted_static.
    + unfold wanted. destruct (e_type e); [right | by left..]. by rewrite (framed_want st0 st).
  - exists (g e). split; [|by destruct Hm as (_ & _ & ?)]. cbn. rewrite Hel. apply list_eq. intros k. destruct (decide (k = i)) as [->|Hne].
    + rewrite list_lookup_alter_eq, Hi, list_lookup_insert_eq by (by eapply lookup_lt_Some). done.
    + by rewrite list_lookup_alter_ne, list_lookup_insert_ne.
Qed.

Lemma fold_none {A} (f : option rod_state -> A -> option rod_state) l : (forall x, f None x = None) -> fold_left f l None = None.
Proof. intros Hf. induction l as [|x l IH]; [done|]. cbn. by rewrite Hf. Qed.

(** The elements from [k] on have no font yet. *)
Definition later_unfonted (k : nat) (st : rod_state) : Prop := forall j e, (k <= j)%nat -> st_elements st !! j = Some e -> unfonted e.

Definition starting (st0 : rod_state) (k : nat) (o : option rod_state) : Prop :=
  forall st, o = Some st -> (framed st0 st /\ pools_ok (fun s _ e => wanted st0 s e) st) /\ later_unfonted k st.

Lemma start_fonts_step st0 k o : starting st0 k o -> starting st0 (S k) (start_fonts sft o k).
Proof.
  intros Ho st' He. unfold start_fonts in He. destruct o as [st|]; [|done]. cbn [mbind option_bind] in He.
  destruct (Ho st eq_refl) as [[Hfr Hp] Hun]. destruct (st_elements st !! k) as [e|] eqn:Hk; [|done]. cbn [mbind option_bind] in He.
  destruct (negb (e_active e) || _) eqn:Eskip.
  { injection He as <-. split; [done|]. intros j e' Hj. apply Hun. lia. }
  apply orb_false_iff in Eskip as [Hact _]. apply negb_false_iff in Hact.
  cut (forall c, (c <= st_stream_count st)%nat -> forall st', fold_left (start_font sft k) (seq 0 c) (Some st) = Some st' ->
    (framed st0 st' /\ pools_ok (fun s _ e => wanted st0 s e) st') /\ later_unfonted (S k) st' /\
    exists e', st_elements st' !! k = Some e' /\ e_active e' = true /\ forall s', (c <= s')%nat -> es_font_idx (stream_of e' s') = - 1).
  { intros Hc. destruct (Hc _ (le_n _) st' He) as (H1 & H2 & _). done. }
  clear st' He. induction c as [|c IH]; intros Hc st' He.
  { cbn in He. injection He as <-. split; [done|]. split; [intros j e' Hj; apply Hun; lia|]. exists e. split_and!; [done..|]. intros s' _. apply (Hun k e); [lia | done]. }
  rewrite seq_S, fold_left_app in He. cbn [Nat.add fold_left] in He. destruct (fold_left _ (seq 0 c) _) as [st1|]; [|done].
  destruct (IH ltac:(lia) st1 eq_refl) as ((H1 & H2) & H3 & (e1 & Hk1 & Ha1 & Hidx1)).
  assert (Hn : st_stream_count st1 = st_stream_count st) by (destruct H1 as [(-> & _) _], Hfr as [(-> & _) _]; done).
  destruct (start_step st0 k c st1 e1 st') as [[F1 F2] (e2 & Hel & Hidx2)]; [done | done | done | done | lia | by apply Hidx1 | done |].
  split; [done|]. split.
  - intros j e' Hj He'. rewrite Hel, list_lookup_insert_ne in He' by lia. by apply (H3 j).
  - exists e2. rewrite Hel, list_lookup_insert_eq by (by eapply lookup_lt_Some). split_and!; [done | |].
    + destruct F1 as [_ F1]. destruct H1 as [_ H1]. pose proof (lookup_lt_Some _ _ _ Hk1) as Hlt.
      destruct (Forall2_lookup_r _ _ _ k e2 F1) as (e0 & He0 & (-> & _)); [rewrite Hel; by apply list_lookup_insert_eq|].
      destruct (Forall2_lookup_r _ _ _ _ _ H1 Hk1) as (e0' & He0' & (Hs & _)). rewrite He0 in He0'. injection He0' as <-. congruence.
    + intros s' Hs'. rewrite Hidx2 by lia. apply Hidx1. lia.
Qed.

Lemma load_images_quiet st e : same_font e (load_images cfg st e).
Proof.
  unfold load_images. destruct (_ || _); [done|]. cbv zeta. set (e1 := if _ && _ then _ else e).
  assert (H1 : same_font e e1) by (subst e1; destruct (_ && _ && _); by split). etransitivity; [exact H1|]. clearbody e1.
  destruct (e_image_data e1); [|done]. destruct (_ && _); [|done]. destruct (_ && _); [|done].
  destruct (rod_scale_logo _ _ _ _ _ _) as [[sub|]|]; [by split | done | done].
Qed.

Lemma push_quiet st : quiet st (push_positions st).
Proof.
  unfold push_positions. apply quiet_fold. intros st' i. destruct (st_elements st' !! i); [|done]. destruct (_ || _); [done|]. apply forward_quiet.
Qed.

Lemma rod_start_inv st : rod_start cfg sft osd_create parse_font_size = Some st -> rod_inv st.
Proof.
  unfold rod_start. cbv zeta. set (st0 := init_elements_from_config _ _ _). destruct init_loaded as [(Hf & Hl & Hn) Hun]. fold st0 in Hf, Hl, Hn, Hun.
  destruct (fold_left (start_fonts sft) _ (Some st0)) as [st1|] eqn:Hst1; [|done]. cbn [mbind option_bind]. intros [= <-].
  assert (Hs : starting st0 (length (st_elements st0)) (Some st1)).
  { rewrite <- Hst1. apply (fold_seq_ind (starting st0)).
    - intros st [= <-]. split; [split; [by split | exact Hf]|]. intros j e _ He. by apply (Forall_lookup_1 _ _ _ _ Hun He).
    - intros k o _. apply start_fonts_step. }
  destruct (Hs st1 eq_refl) as [[Hfr Hp] _].
  assert (Hc1 : core st1).
  { pose proof Hfr as [_ Hel]. split; [|by rewrite <- (Forall2_length _ _ _ Hel), (live_names_same _ _ Hel)].
    eapply pools_weaken; [exact Hp|]. intros s k e _ _. right. by apply wanted_framed. }
  eapply quiet_inv; [by apply quiet_fields|]. eapply quiet_inv; [apply push_quiet|]. apply sync_inv. eapply core_same; [|exact Hc1].
  apply same_fonts_elems. apply Forall2_fmap_r, Forall_Forall2_diag, Forall_true. intros e. apply load_images_quiet.
Qed.
End StartProps.

(** ** The daemon's life *)

Section Life.
Context (cfg : rod_cfg) (sft : nat -> sft_ops) (osd_create : nat -> bool) (env : tmpl_env)
  (parse_start : list Z -> option (Z * Z)) (parse_cmd : list Z -> Z * Z).

(** Every state of the loop: the start, any command whose font changes found a
    font for every element, a render tick, data on a receipt's input. *)
Inductive rod_reaches : rod_state -> Prop :=
  | Rod_start st : rod_start cfg sft osd_create parse_start = Some st -> rod_reaches st
  | Rod_cmd st common j : rod_reaches st -> json_ok j -> ~ stale (rod_ctrl_handler sft osd_create parse_cmd common j st).1 ->
      rod_reaches (rod_ctrl_handler sft osd_create parse_cmd common j st).1
  | Rod_tick st : rod_reaches st -> rod_reaches (render_tick env st)
  | Rod_input st i data : rod_reaches st -> rod_reaches (receipt_input i data st).

Lemma reaches_inv st : (forall n, sft_sound (sft n)) -> rod_reaches st -> rod_inv st.
Proof.
  intros Hsft. induction 1 as [st Hst|st common j _ IH Hj Hns|st _ IH|st i data _ IH].
  - by eapply rod_start_inv.
  - by apply handler_inv.
  - eapply quiet_inv; [apply tick_quiet | done].
  - eapply quiet_inv; [apply receipt_upd_quiet | done].
Qed.

(** The elements drawing with context [k] of stream [s]. *)
Definition users (st : rod_state) (s : nat) (k : Z) : list rod_element :=
  filter (fun e => e_active e = true /\ es_font_idx (stream_of e s) = k) (st_elements st).

Lemma uses_users w st s k : 0 <= k -> uses k (view w s (st_elements st)) = Z.of_nat (length (users st s k)).
Proof.
  intros Hk. unfold users, view. assert (H : forall es o, uses k (imap (fun i e => if e_active e then (es_font_idx (stream_of e s), w (o + i)%nat e) else (- 1, None)) es) =
    Z.of_nat (length (filter (fun e => e_active e = true /\ es_font_idx (stream_of e s) = k) es))).
  { induction es as [|e es IH]; intros o; [done|]. rewrite imap_cons.
    assert (Hi : imap ((fun i e => if e_active e then (es_font_idx (stream_of e s), w (o + i)%nat e) else (- 1, None)) ∘ S) es =
      imap (fun i e => if e_active e then (es_font_idx (stream_of e s), w (S o + i)%nat e) else (- 1, None)) es).
    { apply imap_ext. intros i x _. cbn. by rewrite <- plus_n_Sm. }
    rewrite Hi. change (?a :: ?l) with ([a] ++ l) at 1. rewrite uses_app, IH.
    destruct (e_active e) eqn:Ea.
    - rewrite uses_single. destruct (Z.eqb_spec (es_font_idx (stream_of e s)) k).
      + rewrite filter_cons_True by done. cbn. lia.
      + rewrite filter_cons_False by naive_solver. lia.
    - rewrite uses_single. rewrite filter_cons_False by (intros [? _]; congruence). destruct (Z.eqb_spec (- 1) k); lia. }
  by apply (H _ 0%nat).
Qed.

Lemma NoDup_fmap_filter {A B} (P : A -> Prop) `{!forall x, Decision (P x)} (f : A -> B) l i j x y :
  NoDup (f <$> filter P l) -> l !! i = Some x -> l !! j = Some y -> P x -> P y -> f x = f y -> i = j.
Proof.
  revert i j. induction l as [|a l IH]; intros i j Hnd Hi Hj Hx Hy Hf; [done|].
  assert (Hin : forall k z, l !! k = Some z -> P z -> f z ∈ f <$> filter P l).
  { intros k z Hk Hz. apply list_elem_of_fmap. exists z. split; [done|]. apply list_elem_of_filter. split; [done|]. by eapply list_elem_of_lookup_2. }
  destruct (decide (P a)) as [Ha|Ha].
  - rewrite filter_cons_True in Hnd by done. cbn in Hnd. apply NoDup_cons in Hnd as [Hnin Hnd].
    destruct i as [|i], j as [|j]; cbn in Hi, Hj; [done| | |f_equal; by eapply IH].
    + injection Hi as ->. destruct Hnin. rewrite Hf. by eapply Hin.
    + injection Hj as ->. destruct Hnin. rewrite <- Hf. by eapply Hin.
  - rewrite filter_cons_False in Hnd by done. destruct i as [|i], j as [|j]; cbn in Hi, Hj; [done|congruence|congruence|f_equal; by eapply IH].
Qed.

(** C22: In every state the overlay daemon reaches - from any configuration, through
    any commands, ticks and receipt data, as long as no global font change failed -
    the names of its elements are unique and their number bounded; every context of
    every pool is counted exactly once for each element drawing with it; the context
    an element draws with is loaded and whole, and has, for a text element, the size
    the settings give it on that stream; and on no stream do two elements hold
    buffers in the same place. *)
Theorem rod_registry_invariant st : (forall n, sft_sound (sft n)) -> rod_reaches st ->
  NoDup (live_names (st_elements st)) /\ Z.of_nat (length (st_elements st)) <= ROD_MAX_ELEMENTS /\
  (forall s k, (s < st_stream_count st)%nat -> 0 <= k < ROD_MAX_FONTS -> f_refcount (font_at st s k) = Z.of_nat (length (users st s k))) /\
  (forall s i e, (s < st_stream_count st)%nat -> st_elements st !! i = Some e -> e_active e = true -> 0 <= es_font_idx (stream_of e s) ->
     let f := font_at st s (es_font_idx (stream_of e s)) in
     f_face f = true /\ font_ok f /\ (e_type e = ROD_ELEM_TEXT -> f_size f = rod_font_for_elem st (Some e) (Z.of_nat s))) /\
  (forall s i j e e', (s < st_stream_count st)%nat -> st_elements st !! i = Some e -> st_elements st !! j = Some e' ->
     es_shm (stream_of e s) = true -> es_shm (stream_of e' s) = true -> elem_place e = elem_place e' -> i = j).
Proof.
  intros Hsft Hr. destruct (reaches_inv st Hsft Hr) as [([_ Hp] & Hl & Hn) Hx]. split; [done|]. split; [done|]. split; [|split].
  - intros s k Hs Hk. destruct (Hp s Hs) as (P1 & _ & P3 & _). unfold font_at. destruct (Z.ltb_spec k 0); [lia|].
    destruct (lookup_lt_is_Some_2 (font_row st s) (Z.to_nat k)) as [f Hf]; [unfold ROD_MAX_FONTS in *; lia|]. rewrite Hf. cbn.
    destruct (P3 _ _ Hf) as [-> _]. rewrite Z2Nat.id by lia. apply uses_users. lia.
  - intros s i e Hs Hi Ha Hidx f. destruct (Hp s Hs) as (P1 & P2 & P3 & P4 & P5). subst f. unfold font_at. destruct (Z.ltb_spec (es_font_idx (stream_of e s)) 0); [lia|].
    assert (Hv : (es_font_idx (stream_of e s), wanted st s e) ∈ view (fun _ e => wanted st s e) s (st_elements st)).
    { apply (list_elem_of_lookup_2 _ i). rewrite view_lookup, Hi. cbn. by rewrite Ha. }
    pose proof (P4 _ _ Hv) as Hrange. destruct (lookup_lt_is_Some_2 (font_row st s) (Z.to_nat (es_font_idx (stream_of e s)))) as [f Hf]; [unfold ROD_MAX_FONTS in *; lia|].
    rewrite Hf. cbn. destruct (P3 _ _ Hf) as [Hcnt Hface]. rewrite Z2Nat.id in Hcnt by lia. split; [|split].
    + apply Hface. rewrite Hcnt. by eapply uses_pos.
    + by apply (Forall_lookup_1 _ _ _ _ P2 Hf).
    + intros Ht. unfold wanted in Hv. rewrite Ht in Hv. by eapply P5.
  - intros s i j e e' Hs Hi Hj H1 H2 Hpl. specialize (Hx s Hs). unfold claims in Hx. rewrite take_ge in Hx by done. by eapply NoDup_fmap_filter.
Qed.

End Life.

(** ** A small configuration *)

Definition toy_sections : list (list Z * list (string * string)) :=
  [(cs "osd.top_left", [("template", "%time%")]); (cs "osd.till", [("type", "receipt"); ("position", "top_right")]);
   (cs "system", [])]%string.

Definition assoc_str (l : list (string * string)) (key : string) : option (list Z) :=
  (fun p => cs p.2) <$> find (fun p => String.eqb p.1 key) l.

Definition toy_cfg : rod_cfg :=
  mk_cfg (fun sec key => p ← list_find (fun p : list Z * _ => p.1 = sec) toy_sections; assoc_str p.2.2 key)
    (fun _ _ d => d) (fun _ _ d => d) [cs "osd.till"; cs "osd.top_left"] (fun _ => - 1) (fun _ => None) true None (cs "cam").

Definition toy_json (strs : list (string * string)) (ints : list (string * Z)) : json :=
  mk_json (fun key size => if 0 <? size then strlcpy size <$> assoc_str strs key else None)
    (fun key => snd <$> find (fun p => String.eqb p.1 key) ints).

Lemma toy_json_ok strs ints : json_ok (toy_json strs ints).
Proof.
  intros key size v. cbn. destruct (Z.ltb_spec 0 size); [|done]. destruct (assoc_str strs key); [|done]. intros [= <-].
  split; [|apply strlcpy_no_zero]. unfold strlcpy. rewrite length_take. lia.
Qed.

Lemma toy_sft_sound : sft_sound toy_sft.
Proof.
  intros size cp. cbn. destruct (cp =? 32); [done|]. destruct (cp =? 35); [done|]. split_and!; [lia.. | done | repeat constructor; lia].
Qed.

(** The state the toy configuration starts in. *)
Abbreviation toy_start sft := (rod_start toy_cfg sft (fun _ => true) (fun _ => None)).

(** No font of the toy runs went stale. *)
Definition stale_bool (st : rod_state) : bool := existsb (fun x => match x with Log_stale_font _ _ => true | _ => false end) (st_out st).

Lemma not_stale st : stale_bool st = false -> ~ stale st.
Proof.
  intros Hb (s & name & Hin). apply list_elem_of_In in Hin. unfold stale_bool in Hb.
  assert (existsb (fun x => match x with Log_stale_font _ _ => true | _ => false end) (st_out st) = true); [|congruence].
  apply existsb_exists. by exists (Log_stale_font s name).
Qed.

Abbreviation toy_run st j := ((rod_ctrl_handler (fun _ => toy_sft) (fun _ => true) (fun _ => (0, 0)) false j st).1).

Definition toy_add : json := toy_json [("cmd", "add-element"); ("name", "shop"); ("template", "%hostname%")]%string [].

Lemma on_some {A} (o : option A) (P : A -> bool) : match o with Some x => P x | None => false end = true -> exists x, o = Some x /\ P x = true.
Proof. destruct o as [x|]; [by exists x | done]. Qed.

Lemma toy_reaches st j : toy_start (fun _ => toy_sft) = Some st -> json_ok j -> stale_bool (toy_run st j) = false ->
  rod_reaches toy_cfg (fun _ => toy_sft) (fun _ => true) toy_env (fun _ => None) (fun _ => (0, 0)) (toy_run st j).
Proof.
  intros Hst Hj Hs. apply not_stale in Hs. apply Rod_cmd; [apply Rod_start; exact Hst | exact Hj | exact Hs].
Qed.

(** The start answers, and adding an element then makes five. *)
Lemma toy_added : exists st, toy_start (fun _ => toy_sft) = Some st /\ stale_bool (toy_run st toy_add) = false /\
  length (st_elements (toy_run st toy_add)) = 5%nat /\ (0 < st_stream_count (toy_run st toy_add))%nat.
Proof.
  destruct (on_some (toy_start (fun _ => toy_sft)) (fun st => negb (stale_bool (toy_run st toy_add)) &&
    (length (st_elements (toy_run st toy_add)) =? 5)%nat && (0 <? st_stream_count (toy_run st toy_add))%nat)) as (st & Hst & H);
    [vm_compute; reflexivity|].
  apply andb_true_iff in H as [H Hn]. apply andb_true_iff in H as [Hs Hl]. apply negb_true_iff in Hs. apply Nat.eqb_eq in Hl. apply Nat.ltb_lt in Hn.
  exists st. exact (conj Hst (conj Hs (conj Hl Hn))).
Qed.

Lemma rod_registry_invariant_witness : exists st,
  length (st_elements st) = 5%nat /\ f_refcount (font_at st 0 0) = Z.of_nat (length (users st 0 0)) /\ NoDup (live_names (st_elements st)).
Proof.
  destruct toy_added as (st & Hst & Hs & Hl & Hn). pose proof (toy_reaches st toy_add Hst (toy_json_ok _ _) Hs) as Hr.
  exists (toy_run st toy_add). revert Hs Hl Hn Hr. generalize (toy_run st toy_add). intros st' Hs Hl Hn Hr.
  destruct (rod_registry_invariant toy_cfg (fun _ => toy_sft) (fun _ => true) toy_env (fun _ => None) (fun _ => (0, 0)) st' (fun _ => toy_sft_sound) Hr)
    as (H1 & _ & H3 & _).
  split; [exact Hl|]. split; [|exact H1]. apply (H3 0%nat 0 Hn). unfold ROD_MAX_FONTS. lia.
Defined.
