(* ===== verification/RodFaults.v ===== *)
(** * rod: places, and two faults of the daemon

    What rod_sync_shms leaves behind; that a receipt shown again stays blank; that a
    failed font change leaves an element drawing with a context that is freed. *)

From Stdlib Require Import String.
From stdpp Require Import list list_numbers.
From S2P Require Import Prelude Mux RtmpUrl RodDraw RodReceipt RodTemplate RodElem RodPool RodCtrl RodProps RodStart.

(** ** Places *)

(** C23: After rod_sync_shms, on every stream, an element is marked as blocked exactly
    if it would draw in a place where an earlier element holds a buffer; it holds a
    buffer only if it draws and is not blocked, and lacks one then only if it has no
    size yet or the buffer could not be created; no place has two buffers; and fonts,
    names and settings are what they were. *)
Theorem rod_sync_places osd_create st : state_shape st -> Z.of_nat (length (st_elements st)) <= ROD_MAX_ELEMENTS ->
  let st' := rod_sync_shms osd_create st in
  same_fonts st st' /\
  forall s, (s < st_stream_count st)%nat ->
    NoDup (claims (st_elements st') s (length (st_elements st'))) /\
    forall i e, st_elements st' !! i = Some e ->
      let blocked := bool_decide (elem_place e ∈ claims (st_elements st') s i) in
      es_place_taken (stream_of e s) = elem_draws e s && blocked /\
      (es_shm (stream_of e s) = true -> elem_draws e s = true /\ blocked = false) /\
      (elem_draws e s = true -> blocked = false -> es_shm (stream_of e s) = false ->
         region_dims st' e s = None \/ exists n, osd_create n = false).
Proof.
  intros Hsh H16. cbv zeta. pose proof (sync_same osd_create st Hsh H16) as Hsame. split; [exact Hsame|]. intros s Hs.
  destruct (sync_settles osd_create st Hsh H16) as [Hex Hset]. split.
  - apply Hex. destruct Hsame as ((-> & _) & _). exact Hs.
  - intros i e He. destruct (Hset s Hs i e He) as (H1 & H2 & H3). split; [exact H1|]. split.
    + intros Hb. destruct (H2 Hb) as [Hd Hn]. split; [exact Hd | by apply bool_decide_eq_false].
    + intros Hd Hb. apply bool_decide_eq_false in Hb. exact (H3 Hd Hb).
Qed.

Definition toy_elem (name : string) (pos : list Z) : rod_element :=
  new_element (cs name) ROD_ELEM_OVERLAY None (Some pos) 0 0 0 ROD_UPDATE_TICK.

Definition toy_table : rod_state :=
  mk_rod_state (mk_config 24 0 0 0 1 [] 25) (replicate 6 (replicate 8 font0)) 1 [64; 0; 0; 0; 0; 0] [32; 0; 0; 0; 0; 0]
    [toy_elem "a" (cs "center"); toy_elem "b" (cs "center"); toy_elem "c" (cs "top_right")] [] (mon0 []) false 1000000 0 0 [].

Lemma rod_sync_places_witness : exists e0 e1 e2,
  st_elements (rod_sync_shms (fun _ => true) toy_table) = [e0; e1; e2] /\
  es_shm (stream_of e0 0) = true /\ es_shm (stream_of e1 0) = false /\ es_place_taken (stream_of e1 0) = true /\ es_shm (stream_of e2 0) = true.
Proof.
  destruct (rod_sync_places (fun _ => true) toy_table) as [_ H].
  - split; [reflexivity|]. split; [by apply Nat.leb_le | repeat constructor].
  - by apply Z.leb_le.
  - destruct (H 0%nat) as [_ Hb]; [cbn; lia|].
    destruct (st_elements (rod_sync_shms (fun _ => true) toy_table)) as [|e0 [|e1 [|e2 [|]]]] eqn:He; try (vm_compute in He; discriminate).
    exists e0, e1, e2. destruct (Hb 1%nat e1 eq_refl) as (Ht & _). split; [done|].
    vm_compute in He. injection He as <- <- <-. split; [done|]. split; [done|]. split; [exact Ht | done].
Defined.

(** ** A receipt shown again *)

Definition same_receipt (e e' : rod_element) : Prop := e_type e' = e_type e /\ e_receipt e' = e_receipt e.

#[global] Instance same_receipt_preorder : PreOrder same_receipt.
Proof. split; [done|]. intros a b c [??] [??]. split; congruence. Qed.

(** [st'] draws no receipt that [st] did not, and has its receipts. *)
Definition undrawn (st st' : rod_state) : Prop :=
  (exists l, st_out st' = st_out st ++ l /\ forall s name lines, Drawn_receipt s name lines ∉ l) /\
  Forall2 same_receipt (st_elements st) (st_elements st').

#[global] Instance undrawn_preorder : PreOrder undrawn.
Proof.
  split.
  - intros st. split; [exists []; rewrite app_nil_r; split; [done | intros ???; apply not_elem_of_nil]|]. by apply Forall_Forall2_diag, Forall_true.
  - intros a b c [(l1 & A1 & A2) A3] [(l2 & B1 & B2) B3]. split.
    + exists (l1 ++ l2). rewrite B1, A1, app_assoc. split; [done|]. intros s n ls [H|H]%elem_of_app; [by eapply A2 | by eapply B2].
    + eapply Forall2_trans; [|exact A3|exact B3]. intros x y z. by etransitivity.
Qed.

Lemma undrawn_elems st st' : st_out st' = st_out st ->
  Forall2 same_receipt (st_elements st) (st_elements st') -> undrawn st st'.
Proof. intros Ho He. split; [|done]. exists []. rewrite app_nil_r. split; [done | intros ???; apply not_elem_of_nil]. Qed.

Lemma undrawn_fields st st' : st_out st' = st_out st -> st_elements st' = st_elements st -> undrawn st st'.
Proof. intros Ho He. apply undrawn_elems; [done|]. rewrite He. by apply Forall_Forall2_diag, Forall_true. Qed.

Lemma undrawn_upd i f st : (forall e, st_elements st !! i = Some e -> e_type (f e) = e_type e /\ e_receipt (f e) = e_receipt e) -> undrawn st (upd_elem i f st).
Proof.
  intros Hf. apply undrawn_elems; [done|]. by apply (Forall2_alter_r same_receipt).
Qed.

Lemma undrawn_emit x st : (forall s name lines, x <> Drawn_receipt s name lines) -> undrawn st (emit x st).
Proof.
  intros Hx. split; [|by apply Forall_Forall2_diag, Forall_true]. exists [x]. split; [done|].
  intros s n ls H%list_elem_of_singleton. by apply (Hx s n ls).
Qed.

Lemma undrawn_each st f : (forall s st', undrawn st' (f s st')) -> undrawn st (each_stream st f).
Proof. intros Hf. apply (each_stream_rel undrawn). intros s st' _ _. apply Hf. Qed.

Lemma undrawn_sync osd_create st : undrawn st (rod_sync_shms osd_create st).
Proof.
  unfold rod_sync_shms. apply undrawn_each. intros s st'. unfold sync_stream.
  apply (fold_seq_ind (fun _ sc => undrawn st' sc.1)); [done|]. intros i [st1 taken] _ H. etransitivity; [exact H|]. cbn [fst]. unfold sync_elem.
  destruct (st_elements st1 !! i) as [e|] eqn:Hi; [|done]. cbv zeta.
  set (e1 := if Bool.eqb _ _ then e else _). assert (H1 : e_type e1 = e_type e /\ e_receipt e1 = e_receipt e) by (subst e1; by destruct (Bool.eqb _ _)).
  clearbody e1. destruct (if _ && negb _ then _ else _) as [e2 c] eqn:E2. cbn [fst]. apply undrawn_elems; [done|].
  assert (H2 : e_type e2 = e_type e1 /\ e_receipt e2 = e_receipt e1).
  { revert E2. destruct (_ && negb _); [|intros [= <- <-]; done]. destruct (es_shm _); [intros [= <- <-]; done|]. unfold create_elem_shm.
    destruct (region_dims st1 e1 s) as [[w h]|]; [|intros [= <- <-]; done]. cbv zeta. destruct (negb _); intros [= <- <-]; done. }
  cbn. rewrite list_insert_alter. apply (Forall2_alter_r same_receipt).
  intros e' He'. rewrite Hi in He'. injection He' as <-. destruct H1, H2. split; congruence.
Qed.

(** Every receipt has been drawn as it is and has no unfinished line. *)
Definition receipts_drawn (st : rod_state) : Prop :=
  Forall (fun e => e_type e = ROD_ELEM_RECEIPT -> rc_dirty (e_receipt e) = false /\ rc_accum (e_receipt e) = []) (st_elements st).

Lemma undrawn_drawn st st' : undrawn st st' -> receipts_drawn st -> receipts_drawn st'.
Proof.
  intros [_ He] Hd. unfold receipts_drawn in *. induction He as [|e e' l l' [Ht Hr] _ IH]; [done|]. inversion Hd; subst.
  constructor; [by rewrite Ht, Hr | by apply IH].
Qed.

Section Blank.
Context (env : tmpl_env) (osd_create : nat -> bool).

Lemma tick_undrawn st : receipts_drawn st -> undrawn st (render_tick env st).
Proof.
  intros Hd. unfold render_tick. destruct (st_paused st); [done|].
  apply (fold_seq_ind (fun _ st' => undrawn st st')); [done|]. intros i st1 _ H. etransitivity; [exact H|].
  pose proof (undrawn_drawn _ _ H Hd) as Hd1. clear H Hd. unfold tick_element. destruct (st_elements st1 !! i) as [e|] eqn:He; [|done].
  destruct (_ || _); [done|]. assert (Hclear : forall s st, undrawn st (clear_needs i s st)) by (intros; by apply undrawn_upd).
  destruct (e_type e) eqn:Et; [| |done|].
  - unfold tick_text. destruct (rod_expand_template _ _ _ _ _ _ _) as [mon expanded]. cbv zeta.
    assert (Hr : forall s st, undrawn st (clear_needs i s (render_text_element e s expanded st))).
    { intros s st'. etransitivity; [|apply Hclear]. unfold render_text_element. destruct (_ || _); [done | by apply undrawn_emit]. }
    set (st2 := if negb _ then upd_elem _ _ _ else _). assert (H2 : undrawn st1 st2).
    { subst st2. destruct (negb _); [|by apply undrawn_fields]. etransitivity; [by apply (undrawn_fields st1 (st1 <| st_mon := mon |>))|]. by apply undrawn_upd. }
    clearbody st2. etransitivity; [exact H2|].
    match goal with |- undrawn st2 (if ?b then _ else _) => destruct b end; apply undrawn_each; intros s st'; destruct (_ && _); done || apply Hr.
  - apply undrawn_each. intros s st'. destruct (_ && _); [done|]. destruct (es_needs_update _); [|done]. unfold render_image_element. cbv zeta.
    destruct (if (s =? 0)%nat then _ else _); [|done]. destruct (es_shm _); [|done]. etransitivity; [|apply Hclear]. by apply undrawn_emit.
  - destruct (Forall_lookup_1 _ _ _ _ Hd1 He Et) as [Hdirty Hacc]. unfold tick_receipt, receipt_due, accum_pos. rewrite Hacc. cbn [length].
    replace ((0 <? rc_accum_timeout (e_receipt e)) && (0 <? Z.of_nat 0) && _) with false by (by rewrite andb_false_r). cbv zeta.
    rewrite Hdirty. apply undrawn_upd. intros e' He'. rewrite He in He'. by injection He' as <-.
Qed.

(** What is done to the overlay from outside without giving it anything to print. *)
Inductive blank_op := Op_tick | Op_show (j : json) | Op_hide (j : json) | Op_enable | Op_disable.

Definition blank_step (st : rod_state) (o : blank_op) : rod_state :=
  match o with
  | Op_tick => render_tick env st
  | Op_show j => (handle_show_hide osd_create j true st).1
  | Op_hide j => (handle_show_hide osd_create j false st).1
  | Op_enable => (handle_enable st).1
  | Op_disable => (handle_disable st).1
  end.

Lemma blank_undrawn st o : receipts_drawn st -> undrawn st (blank_step st o).
Proof.
  intros Hd.
  assert (Hs : forall j show, undrawn st (handle_show_hide osd_create j show st).1).
  { intros j show. unfold handle_show_hide. destruct (default [] _) as [|c nm]; [done|]. destruct (rod_find_element st _) as [[i e]|]; [|done].
    cbn [fst]. etransitivity; [|apply undrawn_each; intros s st'; by apply undrawn_emit]. etransitivity; [|apply undrawn_sync]. by apply undrawn_upd. }
  destruct o as [|j|j| |]; cbn [blank_step]; [by apply tick_undrawn | apply Hs | apply Hs | |].
  - unfold handle_enable. cbn [fst]. destruct (st_paused st); [|done]. unfold mark_all_dirty. apply undrawn_elems; [done|]. cbn.
    apply Forall2_fmap_r, Forall_Forall2_diag, Forall_true. intros e. unfold compose. destruct (e_active e); [|reflexivity]. unfold mark_element_dirty.
    apply (fold_seq_ind (fun _ e' => same_receipt e e')); [done|]. intros k e' _ H. etransitivity; [exact H|]. by split.
  - unfold handle_disable. cbn [fst]. destruct (negb (st_paused st)); [|done]. etransitivity; [by apply (undrawn_fields st (st <| st_paused := true |>))|].
    apply (fold_seq_ind (fun _ st' => undrawn (st <| st_paused := true |>) st')); [done|]. intros i st1 _ H. etransitivity; [exact H|]. unfold clear_element.
    destruct (st_elements st1 !! i) as [e|]; [|done]. destruct (negb _); [done|]. apply undrawn_each. intros s st'.
    destruct (es_shm _); [by apply undrawn_emit | done].
Qed.

(** C27: A receipt that has been drawn is not drawn again by anything but new text:
    through any ticks, show, hide, enable and disable commands no receipt is drawn.
    Showing a hidden receipt makes it a new buffer, and enabling follows the
    clearing of every buffer, so both leave it blank. *)
Theorem rod_shown_receipt_blank st ops : receipts_drawn st ->
  exists l, st_out (fold_left blank_step ops st) = st_out st ++ l /\ forall s name lines, Drawn_receipt s name lines ∉ l.
Proof.
  intros Hd. assert (H : undrawn st (fold_left blank_step ops st)); [|by destruct H].
  revert st Hd. induction ops as [|o ops IH]; intros st Hd; [done|]. cbn [fold_left]. pose proof (blank_undrawn st o Hd) as H.
  etransitivity; [exact H|]. apply IH. by eapply undrawn_drawn.
Qed.

End Blank.

Definition toy_named (cmd name : string) : json := toy_json [("cmd", cmd); ("name", name)]%string [].

(** The till prints a line, and a tick draws it. *)
Definition toy_printed (st : rod_state) : rod_state :=
  render_tick toy_env (handle_receipt (toy_json [("text", "2 x tea  5.00")]%string []) st).1.

Definition toy_ops : list blank_op :=
  [Op_hide (toy_named "hide-element" "till"); Op_tick; Op_show (toy_named "show-element" "till"); Op_tick; Op_disable; Op_enable; Op_tick].

Definition drawn_bool (st : rod_state) : bool :=
  forallb (fun e => negb (rc_dirty (e_receipt e)) && match rc_accum (e_receipt e) with [] => true | _ => false end) (st_elements st).

Lemma drawn_bool_spec st : drawn_bool st = true -> receipts_drawn st.
Proof.
  unfold drawn_bool, receipts_drawn. induction (st_elements st) as [|e l IH]; intros H; [constructor|]. cbn in H.
  apply andb_true_iff in H as [H Hl]. apply andb_true_iff in H as [Hd Ha]. constructor; [|by apply IH]. intros _.
  split; [by apply negb_true_iff | by destruct (rc_accum (e_receipt e))].
Qed.

(** Its buffer is there, and newer than the picture. *)
Lemma toy_reshown : exists st, toy_start (fun _ => toy_sft) = Some st /\ drawn_bool (toy_printed st) = true /\
  (exists e, st_elements (fold_left (blank_step toy_env (fun _ => true)) toy_ops (toy_printed st)) !! 1%nat = Some e /\ es_shm (stream_of e 0) = true /\
     displayed (e_receipt e) = [cs "2 x tea  5.00"]) /\
  (st_creates (toy_printed st) < st_creates (fold_left (blank_step toy_env (fun _ => true)) toy_ops (toy_printed st)))%nat.
Proof.
  destruct (on_some (toy_start (fun _ => toy_sft)) (fun st => drawn_bool (toy_printed st) &&
    match st_elements (fold_left (blank_step toy_env (fun _ => true)) toy_ops (toy_printed st)) !! 1%nat with
    | Some e => es_shm (stream_of e 0) && bool_decide (displayed (e_receipt e) = [cs "2 x tea  5.00"]) | None => false end &&
    (st_creates (toy_printed st) <? st_creates (fold_left (blank_step toy_env (fun _ => true)) toy_ops (toy_printed st)))%nat)) as (st & Hst & H);
    [vm_compute; reflexivity|].
  apply andb_true_iff in H as [H Hn]. apply andb_true_iff in H as [Hd He]. apply Nat.ltb_lt in Hn. exists st. split; [exact Hst|]. split; [exact Hd|].
  split; [|exact Hn]. destruct (st_elements (fold_left _ _ _) !! 1%nat) as [e|]; [|discriminate He]. apply andb_true_iff in He as [H1 H2].
  apply bool_decide_eq_true in H2. exists e. exact (conj eq_refl (conj H1 H2)).
Qed.

Lemma rod_shown_receipt_blank_witness : exists st, toy_start (fun _ => toy_sft) = Some st /\
  let st' := fold_left (blank_step toy_env (fun _ => true)) toy_ops (toy_printed st) in
  (st_creates (toy_printed st) < st_creates st')%nat /\
  exists l, st_out st' = st_out (toy_printed st) ++ l /\ forall s name lines, Drawn_receipt s name lines ∉ l.
Proof.
  destruct toy_reshown as (st & Hst & Hd & _ & Hn). exists st. apply drawn_bool_spec in Hd.
  exact (conj Hst (conj Hn (rod_shown_receipt_blank toy_env (fun _ => true) (toy_printed st) toy_ops Hd))).
Defined.

(** ** A font freed in use *)

(** The third font of the run cannot be loaded. *)
Definition toy_failing (n : nat) : sft_ops := if (n =? 2)%nat then mk_sft_ops false (fun _ => None) (fun _ _ => Sft_none) else toy_sft.

Abbreviation failing_run st j := ((rod_ctrl_handler toy_failing (fun _ => true) (fun _ => (0, 0)) false j st).1).

Definition toy_resize : json := toy_json [("cmd", "set-font-size")]%string [("value"%string, 30)].

