(* ===== verification/RvdOsd.v ===== *)
(** * rvd: overlay regions (rvd/rvd_osd.c, the osd commands of rvd_ctrl.c)

    The regions rvd builds in the hardware from the buffers rod draws in.  The
    hardware, the shared memory directory and [calloc] answer from a parameter,
    [env], by the number of questions asked before; what is done to the hardware and
    to the mappings is recorded in order. *)

From Stdlib Require Import String.
From stdpp Require Import list list_numbers.
From S2P Require Import Prelude Mux RtmpUrl RodDraw RodReceipt RodTemplate.

Definition RVD_OSD_NAME_LEN : Z := 32.
Definition RVD_OSD_MAX_REGIONS : Z := 16.
Definition RVD_OSD_RETRY_INTERVAL : Z := 10.
Definition OSD_MARGIN : Z := 10.

(** ** State *)

(** The compositor a region lives in: the encoder side's, or a sensor's. *)
Inductive osd_unit := Ipu | Isp (sensor : Z).

#[global] Instance osd_unit_dec : EqDecision osd_unit.
Proof. solve_decision. Defined.

(** [rg_shm] is the mapping of the producer's buffer, [rg_buf] the local copy, a
    list of BGRA pixels. *)
Record osd_region := mk_region {
  rg_name : list Z; rg_shm : option Z; rg_handle : Z; rg_width : Z; rg_height : Z; rg_buf : option (list Z);
  rg_active : bool; rg_shown : bool; rg_layer : Z
}.

#[export] Instance eta_osd_region : Settable osd_region := fun x =>
  mk_region (rg_name x) (rg_shm x) (rg_handle x) (rg_width x) (rg_height x) (rg_buf x) (rg_active x) (rg_shown x) (rg_layer x).

(** A slot after the memset and the assignments that follow it. *)
Definition new_region (name : list Z) (w h layer : Z) : osd_region :=
  mk_region (strlcpy RVD_OSD_NAME_LEN name) None (- 1) w h None false false layer.

(** What the overlay needs to know of a stream. *)
Record osd_stream := mk_stream {
  os_jpeg : bool; os_osd_enabled : bool; os_w : Z; os_h : Z; os_chn : Z; os_fs_chn : Z; os_sensor : Z
}.

Record osd_attr := mk_attr { at_x : Z; at_y : Z; at_w : Z; at_h : Z; at_layer : Z }.

(** Calls on the hardware that succeeded or whose result is not looked at, and
    mappings made and dropped. *)
Inductive osd_call :=
  | Region_create (u : osd_unit) (handle : Z)
  | Region_register (handle grp : Z)
  | Region_unregister (handle grp : Z)
  | Region_attr (u : osd_unit) (handle : Z) (a : osd_attr)
  | Region_update (handle : Z) (pixels : list Z)
  | Region_show (u : osd_unit) (handle : Z) (show : bool) (layer : Z)
  | Region_destroy (u : osd_unit) (handle : Z)
  | Mask (sensor chx : Z) (enable : bool)
  | Shm_open (h : Z)
  | Shm_close (h : Z).

Inductive hal_ret := RSS_OK | RSS_ERR_NOTSUP | RSS_ERR.

(** One set of answers; [or_open] maps the buffer of a stream's element,
    [or_active] is rss_osd_get_active_buffer on a mapping. *)
Record oracle := mk_oracle {
  or_calloc : bool;
  or_create : osd_unit -> hal_ret * Z;
  or_register : bool;
  or_dir : option (list (list Z));
  or_open : nat -> list Z -> option Z;
  or_stat : nat -> list Z -> option Z;
  or_fstat : Z -> option Z;
  or_active : Z -> option (list Z) * Z * Z;
  or_dirty : Z -> bool
}.

(** [o_fault] says that a copy or a clearing left the local buffer. *)
Record osd_state := mk_osd {
  o_streams : list osd_stream; o_regions : list (list osd_region); o_privacy_handles : list Z; o_privacy : list bool;
  o_unsupported : bool; o_retry : Z; o_cfg : list Z -> list Z -> option (list Z); o_clock : nat; o_trace : list osd_call; o_fault : bool
}.

#[export] Instance eta_osd_state : Settable osd_state := fun x =>
  mk_osd (o_streams x) (o_regions x) (o_privacy_handles x) (o_privacy x) (o_unsupported x) (o_retry x) (o_cfg x) (o_clock x) (o_trace x) (o_fault x).

(** The state rvd_pipeline.c prepares: no cover, no privacy, no regions. *)
Definition osd_state0 (streams : list osd_stream) (cfg : list Z -> list Z -> option (list Z)) : osd_state :=
  mk_osd streams (replicate (length streams) []) (replicate (length streams) (- 1)) (replicate (length streams) false) false 0 cfg 0 [] false.

Definition os0 : osd_stream := mk_stream true false 0 0 0 0 0.
Definition stream_at (st : osd_state) (s : nat) : osd_stream := default os0 (o_streams st !! s).
Definition row (st : osd_state) (s : nat) : list osd_region := default [] (o_regions st !! s).

Definition upd_region (s r : nat) (f : osd_region -> osd_region) (st : osd_state) : osd_state :=
  st <| o_regions := alter (alter f r) s (o_regions st) |>.

Definition call (c : osd_call) (st : osd_state) : osd_state := st <| o_trace := o_trace st ++ [c] |>.

(** An answer that counts. *)
Definition asked (st : osd_state) : osd_state := st <| o_clock := S (o_clock st) |>.

(** ** Positions *)

(** [%d] of sscanf, on numbers that fit an int. *)
Fixpoint skip_digits (l : list Z) : list Z :=
  match l with c :: l' => if is_digit c then skip_digits l' else l | [] => [] end.

Definition scan_unsigned (l : list Z) : option (Z * list Z) :=
  match l with c :: _ => if is_digit c then Some (digits 0 l, skip_digits l) else None | [] => None end.

Fixpoint scan_int (l : list Z) : option (Z * list Z) :=
  match l with
  | [] => None
  | c :: l' =>
      if is_space c then scan_int l'
      else if c =? 0x2D then p ← scan_unsigned l'; Some (- p.1, p.2)
      else if c =? 0x2B then scan_unsigned l'
      else scan_unsigned l
  end.

(** [sscanf(pos, "%d,%d", &x, &y) == 2]. *)
Definition scan_pair (l : list Z) : option (Z * Z) :=
  match scan_int l with
  | Some (x, 0x2C :: rest) => p ← scan_int rest; Some (x, p.1)
  | _ => None
  end.

Definition resolve_position (st : osd_state) (s : nat) (name : list Z) : list Z :=
  let pos_key := take 63 (cs "stream" ++ show_int (Z.of_nat s) ++ cs "_" ++ name ++ cs "_pos") in
  match o_cfg st (cs "osd") pos_key with
  | Some pos => pos
  | None => default (cs "top_left") (o_cfg st (take 63 (cs "osd." ++ name)) (cs "position"))
  end.

(** Where a named place puts the region, before the clamp. *)
Definition named_position (stream_w stream_h region_w region_h : Z) (p : list Z) : Z * Z :=
  let left := OSD_MARGIN in
  let right := stream_w - region_w - OSD_MARGIN in
  let middle := Z.quot (stream_w - region_w) 2 in
  let top := OSD_MARGIN in
  let bottom := stream_h - region_h - OSD_MARGIN in
  let half := Z.quot (stream_h - region_h) 2 in
  if bool_decide (p = cs "top_left") then (left, top)
  else if bool_decide (p = cs "top_center") then (middle, top)
  else if bool_decide (p = cs "top_right") then (right, top)
  else if bool_decide (p = cs "bottom_left") then (left, bottom)
  else if bool_decide (p = cs "bottom_center") then (middle, bottom)
  else if bool_decide (p = cs "bottom_right") then (right, bottom)
  else if bool_decide (p = cs "left_center") then (left, half)
  else if bool_decide (p = cs "right_center") then (right, half)
  else if bool_decide (p = cs "center") then (middle, half)
  else (left, top).

(** The sum is an int's: past 2^31 it wraps. *)
Definition clamp (stream region v : Z) : Z :=
  let v := if v <? OSD_MARGIN then OSD_MARGIN else v in
  let v := if stream - OSD_MARGIN <? s32 (v + region) then stream - region - OSD_MARGIN else v in
  let v := if v <? OSD_MARGIN then OSD_MARGIN else v in
  Z.ldiff v 1.

Definition rvd_osd_calc_position (stream_w stream_h region_w region_h : Z) (pos_str : option (list Z)) : Z * Z :=
  let p := default (cs "top_left") pos_str in
  let '(x, y) := match pos_str ≫= scan_pair with
    | Some xy => xy
    | None => named_position stream_w stream_h region_w region_h p
    end in
  (clamp stream_w region_w x, clamp stream_h region_h y).

(** ** Region lookup *)

Definition rvd_osd_find_region (st : osd_state) (s : nat) (name : list Z) : option (nat * osd_region) :=
  if (length (o_streams st) <=? s)%nat then None
  else list_find (fun g => rg_active g = true /\ rg_name g = name) (row st s).

(** The slot, with the state in which the table has it. *)
Definition alloc_region_slot (s : nat) (st : osd_state) : option (nat * osd_state) :=
  match list_find (fun g => rg_active g = false) (row st s) with
  | Some (r, _) => Some (r, st)
  | None =>
      if Z.of_nat (length (row st s)) <? RVD_OSD_MAX_REGIONS
      then Some (length (row st s), st <| o_regions := alter (fun row => row ++ [new_region [] 0 0 0]) s (o_regions st) |>)
      else None
  end.

Section Osd.
Context (env : nat -> oracle) (use_isp_osd osd_enabled : bool).

Definition now (st : osd_state) : oracle := env (o_clock st).

(** STREAM_ISP_OSD. *)
Definition stream_isp (st : osd_state) (s : nat) : bool := use_isp_osd && (Z.rem (os_fs_chn (stream_at st s)) 3 =? 0).

Definition unit_of (st : osd_state) (s : nat) : osd_unit :=
  if stream_isp st s then Isp (os_sensor (stream_at st s)) else Ipu.

Definition even32 (v : Z) : Z := Z.ldiff (u32 (v + 1)) 1.

Definition position_of (st : osd_state) (s : nat) (g : osd_region) : Z * Z :=
  rvd_osd_calc_position (os_w (stream_at st s)) (os_h (stream_at st s)) (s32 (rg_width g)) (s32 (rg_height g))
    (Some (resolve_position st s (rg_name g))).

Definition attr_of (st : osd_state) (s : nat) (g : osd_region) (layer : Z) : osd_attr :=
  let '(x, y) := position_of st s g in mk_attr x y (s32 (rg_width g)) (s32 (rg_height g)) layer.

(** ** Region create/destroy *)

Definition zeros (n : Z) : list Z := replicate (Z.to_nat n) 0.

Definition free_buf (s r : nat) : osd_state -> osd_state := upd_region s r (fun g => g <| rg_buf := None |>).

Definition activate (s r : nat) (handle : Z) : osd_state -> osd_state :=
  upd_region s r (fun g => g <| rg_handle := handle |> <| rg_active := true |>).

(** The hardware half of create_region, for a region that has its buffer. *)
Definition create_region_hw (s r : nat) (g : osd_region) (st : osd_state) : osd_state * bool :=
  let u := unit_of st s in
  let attr := attr_of st s g (rg_layer g) in
  let '(ret, handle) := or_create (now st) u in
  let st := asked st in
  match ret with
  | RSS_ERR_NOTSUP => (free_buf s r (st <| o_unsupported := true |>), false)
  | RSS_ERR => (free_buf s r st, false)
  | RSS_OK =>
      let st := call (Region_create u handle) st in
      match u with
      | Isp _ => (activate s r handle st, true)
      | Ipu =>
          let grp := os_chn (stream_at st s) in
          let ok := or_register (now st) in
          let st := asked st in
          if negb ok then (free_buf s r (call (Region_destroy Ipu handle) st), false)
          else
            let st := call (Region_register handle grp) st in
            let st := call (Region_attr Ipu handle attr) st in
            let st := call (Region_show Ipu handle false (rg_layer g + 1)) st in
            (activate s r handle st, true)
      end
  end.

Definition create_region (s r : nat) (st : osd_state) : osd_state * bool :=
  match row st s !! r with
  | None => (st, false)
  | Some g =>
      if o_unsupported st then (st, false)
      else
        let w := even32 (rg_width g) in
        let h := even32 (rg_height g) in
        if (4096 <? w) || (4096 <? h) || (w =? 0) || (h =? 0) then (st, false)
        else
          let ok := or_calloc (now st) in
          let st := asked st in
          if negb ok then (st, false)
          else
            let g := g <| rg_buf := Some (zeros (w * h)) |> <| rg_width := w |> <| rg_height := h |> in
            create_region_hw s r g (upd_region s r (fun _ => g) st)
  end.

(** probe_shm_dims. *)
Definition probe_shm_dims (s : nat) (name : list Z) (st : osd_state) : osd_state * option (Z * Z) :=
  let st' := asked st in
  match or_open (now st) s name with
  | None => (st', None)
  | Some shm =>
      let '(_, w, h) := or_active (now st) shm in
      (call (Shm_close shm) (call (Shm_open shm) st'), if (0 <? w) && (0 <? h) then Some (w, h) else None)
  end.

Definition stream_osd_enabled (st : osd_state) (s : nat) : bool := os_osd_enabled (stream_at st s).

(** ** Discovery *)

(** The rest of [l] behind [p]. *)
Fixpoint strip_prefix (p l : list Z) : option (list Z) :=
  match p, l with
  | [], _ => Some l
  | a :: p, b :: l => if a =? b then strip_prefix p l else None
  | _ :: _, [] => None
  end.

Definition shm_prefix (s : nat) : list Z := cs "rss_osd_osd_" ++ show_int (Z.of_nat s) ++ cs "_".

(** The element a directory entry names, if it is one of the stream's. *)
Definition entry_name (s : nat) (entry : list Z) : option (list Z) :=
  name ← strip_prefix (shm_prefix s) (cstr entry);
  if bool_decide (name = []) || (RVD_OSD_NAME_LEN <=? Z.of_nat (length name)) then None else Some name.

(** The local buffer replaced by a fresh one, if there is memory for it. *)
Definition renew_buf (s t : nat) (w h : Z) (st : osd_state) : osd_state :=
  let ok := or_calloc (now st) in
  let st := asked st in
  if ok then upd_region s t (fun g => g <| rg_buf := Some (zeros (w * h)) |>) st else st.

(** The widening of [time] in rvd_osd_init_stream. *)
Definition merge_init (s t : nat) (st : osd_state) : osd_state :=
  match row st s !! t with
  | None => st
  | Some g =>
      let mw := os_w (stream_at st s) - 2 * OSD_MARGIN in
      let mw := if mw <? s32 (rg_width g) then s32 (rg_width g) else mw in
      let w := even32 (u32 mw) in
      let st := upd_region s t (fun g => g <| rg_width := w |>) st in
      if rg_buf g then renew_buf s t w (rg_height g) st else st
  end.

(** The widening of [time] in scan_new_shm. *)
Definition merge_scan (s t : nat) (st : osd_state) : osd_state :=
  match row st s !! t with
  | None => st
  | Some g =>
      let mw := os_w (stream_at st s) - 2 * OSD_MARGIN in
      if s32 (rg_width g) <? mw then
        let w := even32 (u32 mw) in
        renew_buf s t w (rg_height g) (upd_region s t (fun g => g <| rg_width := w |>) st)
      else st
  end.

(** The width a new [time] gets when [uptime] is there too. *)
Definition prewiden_init (sw w : Z) : Z :=
  let mw := sw - 2 * OSD_MARGIN in even32 (u32 (if mw <? s32 w then s32 w else mw)).

Definition prewiden_scan (sw w : Z) : Z :=
  let mw := sw - 2 * OSD_MARGIN in if s32 w <? mw then even32 (u32 mw) else w.

(** A region for an entry's element in slot [r]; [merge] and [prewiden] are the
    caller's. *)
Definition build_region (merge : nat -> nat -> osd_state -> osd_state) (prewiden : Z -> Z -> Z) (s r : nat) (name : list Z)
    (w h layer : Z) (st : osd_state) : osd_state :=
  let st := upd_region s r (fun _ => new_region name w h layer) st in
  let create st := let '(st, ok) := create_region s r st in
    if ok then st else upd_region s r (fun g => g <| rg_name := [] |>) st in
  if bool_decide (name = cs "uptime") then
    match rvd_osd_find_region st s (cs "time") with
    | Some (t, _) => upd_region s r (fun g => g <| rg_active := true |> <| rg_handle := - 1 |>) (merge s t st)
    | None => create st
    end
  else if bool_decide (name = cs "time") then
    let '(st, up) := probe_shm_dims s (cs "uptime") st in
    match up with
    | Some _ => create (upd_region s r (fun g => g <| rg_width := prewiden (os_w (stream_at st s)) w |>) st)
    | None => create st
    end
  else create st.

(** The loop of rvd_osd_init_stream over the directory. *)
Fixpoint init_entries (s : nat) (entries : list (list Z)) (next_layer : Z) (st : osd_state) : osd_state :=
  match entries with
  | [] => st
  | entry :: entries =>
      match entry_name s entry with
      | None => init_entries s entries next_layer st
      | Some name =>
          if rvd_osd_find_region st s name then init_entries s entries next_layer st
          else
            let '(st, dims) := probe_shm_dims s name st in
            match dims with
            | None => init_entries s entries next_layer st
            | Some (w, h) =>
                match alloc_region_slot s st with
                | None => st
                | Some (r, st) =>
                    init_entries s entries (next_layer + 1) (build_region merge_init prewiden_init s r name w h next_layer st)
                end
            end
      end
  end.

(** The loop of scan_new_shm. *)
Fixpoint scan_entries (s : nat) (entries : list (list Z)) (st : osd_state) : osd_state :=
  match entries with
  | [] => st
  | entry :: entries =>
      match entry_name s entry with
      | None => scan_entries s entries st
      | Some name =>
          if rvd_osd_find_region st s name then scan_entries s entries st
          else
            let '(st, dims) := probe_shm_dims s name st in
            match dims with
            | None => scan_entries s entries st
            | Some (w, h) =>
                match alloc_region_slot s st with
                | None => st
                | Some (r, st) => scan_entries s entries (build_region merge_scan prewiden_scan s r name w h (Z.of_nat r) st)
                end
            end
      end
  end.

Definition scan_new_shm (s : nat) (st : osd_state) : osd_state :=
  if negb (stream_osd_enabled st s) then st
  else match or_dir (now st) with
  | None => asked st
  | Some entries => scan_entries s entries (asked st)
  end.

Definition set_privacy_handle (s : nat) (h : Z) (st : osd_state) : osd_state :=
  st <| o_privacy_handles := <[s := h]> (o_privacy_handles st) |>.

(** The privacy cover: full frame, hidden. *)
Definition init_cover (s : nat) (st : osd_state) : osd_state :=
  if stream_isp st s then set_privacy_handle s (- 1) st
  else
    let '(ret, ph) := or_create (now st) Ipu in
    let st := asked st in
    match ret with
    | RSS_OK =>
        let strm := stream_at st s in
        let st := call (Region_register ph (os_chn strm)) (call (Region_create Ipu ph) st) in
        let st := call (Region_attr Ipu ph (mk_attr 0 0 (os_w strm) (os_h strm) 0)) st in
        set_privacy_handle s ph (call (Region_show Ipu ph false 0) st)
    | _ => set_privacy_handle s (- 1) st
    end.

Definition rvd_osd_init_stream (s : nat) (st : osd_state) : osd_state :=
  if os_jpeg (stream_at st s) || o_unsupported st then st
  else if negb (stream_osd_enabled st s) then st
  else
    let st := st <| o_regions := <[s := []]> (o_regions st) |> in
    match or_dir (now st) with
    | None => asked st
    | Some entries => init_cover s (init_entries s entries 0 (asked st))
    end.

(** ** Pixels *)

(** [memcpy] into the buffer at pixel [off]; [None] is past its end. *)
Definition copy_at (off : Z) (px buf : list Z) : option (list Z) :=
  if Z.of_nat (length buf) <? off + Z.of_nat (length px) then None
  else Some (take (Z.to_nat off) buf ++ px ++ drop (Z.to_nat off + length px) buf).

(** A pixel count whose bytes were computed in 32 bits. *)
Definition px32 (n : Z) : Z := u32 (n * 4) / 4.

(** A bitmap of [h] rows of [w] pixels copied to column [x] of the buffer. *)
Definition copy_rows (width x w h : Z) (bitmap buf : list Z) : option (list Z) :=
  fold_opt (fun i buf => copy_at (px32 (i * width + x)) (take (Z.to_nat (px32 w)) (drop (Z.to_nat (px32 (i * w))) bitmap)) buf)
    (range 0 h) buf.

Definition put_buf (s r : nat) (res : option (list Z)) (st : osd_state) : osd_state :=
  match res with
  | Some buf => upd_region s r (fun g => g <| rg_buf := Some buf |>) st
  | None => st <| o_fault := true |>
  end.

(** push_region. *)
Definition push_region (s r : nat) (st : osd_state) : osd_state :=
  match row st s !! r with
  | None => st
  | Some g =>
      match rg_buf g with
      | None => st
      | Some pixels =>
          if negb (rg_active g) then st
          else if stream_isp st s then call (Region_attr (unit_of st s) (rg_handle g) (attr_of st s g 0)) st
          else call (Region_update (rg_handle g) pixels) st
      end
  end.

(** The producer's bitmap in the region's frame. *)
Definition blit_region (g : osd_region) (w h : Z) (bitmap buf : list Z) : option (list Z) :=
  if (w =? rg_width g) && (h =? rg_height g) then copy_at 0 (take (Z.to_nat (px32 (w * h))) bitmap) buf
  else buf ← copy_at 0 (zeros (px32 (rg_width g * rg_height g))) buf; copy_rows (rg_width g) 0 w h bitmap buf.

Definition read_shm_and_push (s r : nat) (st : osd_state) : osd_state :=
  match row st s !! r with
  | None => st
  | Some g =>
      match rg_buf g, rg_shm g with
      | Some buf, Some shm =>
          let '(bitmap, w, h) := or_active (now st) shm in
          let st := asked st in
          match bitmap with
          | None => st
          | Some bitmap =>
              if (rg_width g <? w) || (rg_height g <? h) then st
              else push_region s r (put_buf s r (blit_region g w h bitmap buf) st)
          end
      | _, _ => st
      end
  end.

(** ** Taking a region out *)

Definition destroy_region_hw (s r : nat) (st : osd_state) : osd_state :=
  match row st s !! r with
  | None => st
  | Some g =>
      if rg_handle g <? 0 then st
      else
        let u := unit_of st s in
        let h := rg_handle g in
        let st := match u with
          | Isp _ => call (Region_destroy u h) (call (Region_show u h false 0) st)
          | Ipu =>
              let grp := os_chn (stream_at st s) in
              call (Region_destroy u h) (call (Region_unregister h grp) (call (Region_show u h false (rg_layer g + 1)) st))
          end in
        upd_region s r (fun g => g <| rg_handle := - 1 |> <| rg_shown := false |>) st
  end.

(** [if (reg->shm) { rss_osd_close(reg->shm); reg->shm = NULL; }]. *)
Definition close_shm (s r : nat) (st : osd_state) : osd_state :=
  match g ← row st s !! r; rg_shm g with
  | Some shm => upd_region s r (fun g => g <| rg_shm := None |>) (call (Shm_close shm) st)
  | None => st
  end.

(** release_region but for the element merged in. *)
Definition release_one (s r : nat) (st : osd_state) : osd_state :=
  upd_region s r (fun g => g <| rg_buf := None |> <| rg_width := 0 |> <| rg_height := 0 |> <| rg_active := false |> <| rg_name := [] |>)
    (destroy_region_hw s r (close_shm s r st)).

Definition release_region (s r : nat) (st : osd_state) : osd_state :=
  match row st s !! r with
  | None => st
  | Some g =>
      let st := if bool_decide (rg_name g = cs "time") then
          match rvd_osd_find_region st s (cs "uptime") with
          | Some (u, ug) => if rg_handle ug <? 0 then release_one s u st else st
          | None => st
          end
        else st in
      release_one s r st
  end.

(** ** Opening *)

Definition shm_is_stale (o : oracle) (shm : Z) (s : nat) (name : list Z) : bool :=
  match or_stat o s name, or_fstat o shm with Some cur, Some ours => negb (cur =? ours) | _, _ => true end.

(** Whether [uptime] is drawn into the region [g]. *)
Definition hosts_uptime (st : osd_state) (s : nat) (g : osd_region) : option (nat * osd_region) :=
  if bool_decide (rg_name g = cs "time") then
    match rvd_osd_find_region st s (cs "uptime") with
    | Some (u, ug) => if rg_handle ug <? 0 then Some (u, ug) else None
    | None => None
    end
  else None.

(** Showing a region: the ISP wants its attributes first. *)
Definition show_region (s r : nat) (st : osd_state) : osd_state :=
  match row st s !! r with
  | None => st
  | Some g =>
      let u := unit_of st s in
      let st := match u with
        | Isp _ => call (Region_show u (rg_handle g) true 0) (call (Region_attr u (rg_handle g) (attr_of st s g 0)) st)
        | Ipu => call (Region_show u (rg_handle g) true (rg_layer g + 1)) st
        end in
      upd_region s r (fun g => g <| rg_shown := true |>) st
  end.

(** The region remade for a buffer of other dimensions. *)
Definition resize_region (s r : nat) (shm_w shm_h : Z) (st : osd_state) : osd_state :=
  let w := even32 shm_w in
  let h := even32 shm_h in
  let ok := or_calloc (now st) in
  let st := asked st in
  if negb ok then st
  else
    let st := upd_region s r (fun g => g <| rg_buf := Some (zeros (w * h)) |> <| rg_width := w |> <| rg_height := h |>) st in
    match row st s !! r with
    | None => st
    | Some g =>
        let u := unit_of st s in
        let attr := Region_attr u (rg_handle g) (attr_of st s g (rg_layer g)) in
        match u with
        | Isp _ => call attr st
        | Ipu =>
            let show b st := if rg_shown g then call (Region_show u (rg_handle g) b (rg_layer g + 1)) st else st in
            show true (call attr (show false st))
        end
    end.

(** What follows a successful open. *)
Definition opened_shm (s r : nat) (shm : Z) (st : osd_state) : osd_state :=
  match row st s !! r with
  | None => st
  | Some g =>
      if rg_handle g <? 0 then st
      else
        let '(_, shm_w, shm_h) := or_active (now st) shm in
        let merged := match hosts_uptime st s g with Some _ => true | None => false end in
        let st := asked st in
        let st := if negb merged && (0 <? shm_w) && (0 <? shm_h) && (negb (shm_w =? rg_width g) || negb (shm_h =? rg_height g))
                  then resize_region s r shm_w shm_h st else st in
        let st := read_shm_and_push s r st in
        if negb (rg_shown g) && bool_decide (rg_name g = cs "privacy") && negb (default false (o_privacy st !! s)) then st
        else if rg_shown g then st
        else show_region s r st
  end.

Definition try_open_shm (s r : nat) (st : osd_state) : osd_state :=
  match row st s !! r with
  | None => st
  | Some g =>
      if negb (rg_active g) then st
      else
        let stale := match rg_shm g with Some shm => shm_is_stale (now st) shm s (rg_name g) | None => true end in
        let st := match rg_shm g with Some _ => asked st | None => st end in
        if negb stale then st
        else
          let st := close_shm s r st in
          let opened := or_open (now st) s (rg_name g) in
          let st := asked st in
          match opened with
          | Some shm => opened_shm s r shm (upd_region s r (fun g => g <| rg_shm := Some shm |>) (call (Shm_open shm) st))
          | None =>
              let exists_ := or_stat (now st) s (rg_name g) in
              let st := asked st in
              if exists_ then st else release_region s r st
          end
  end.

(** ** The check, ten times a second *)

Definition each_region (s : nat) (f : nat -> osd_state -> osd_state) (st : osd_state) : osd_state :=
  fold_left (fun st r => f r st) (seq 0 (length (row st s))) st.

Definition each_stream (f : nat -> osd_state -> osd_state) (st : osd_state) : osd_state :=
  fold_left (fun st s => if os_jpeg (stream_at st s) then st else f s st) (seq 0 (length (o_streams st))) st.

(** The bitmap of a merged [uptime], at the right of [time]. *)
Definition composite_uptime (s r u : nat) (st : osd_state) : osd_state :=
  match row st s !! r, row st s !! u with
  | Some g, Some ug =>
      match rg_shm ug with
      | None => st
      | Some shm =>
          let '(bitmap, w, h) := or_active (now st) shm in
          let st := asked st in
          let st := match bitmap, rg_buf g with
            | Some bitmap, Some buf =>
                if (0 <? w) && (0 <? h) && (w <=? rg_width g) && (h <=? rg_height g)
                then put_buf s r (copy_rows (rg_width g) (rg_width g - w) w h bitmap buf) st else st
            | _, _ => st
            end in
          push_region s r st
      end
  | _, _ => st
  end.

Definition update_region (s r : nat) (st : osd_state) : osd_state :=
  match row st s !! r with
  | None => st
  | Some g =>
      let st := read_shm_and_push s r st in
      let st := match hosts_uptime st s g with Some (u, _) => composite_uptime s r u st | None => st end in
      if negb (rg_shown g) && bool_decide (rg_name g = cs "privacy") && negb (default false (o_privacy st !! s)) then st
      else if rg_shown g then st
      else show_region s r st
  end.

(** One region of rvd_osd_check. *)
Definition check_region (s r : nat) (st : osd_state) : osd_state :=
  match row st s !! r with
  | None => st
  | Some g =>
      match rg_shm g with
      | Some shm =>
          if negb (rg_active g) then st
          else
            let dirty := or_dirty (now st) shm in
            let st := asked st in
            if rg_handle g <? 0 then st
            else if dirty then update_region s r st
            else match hosts_uptime st s g with
            | Some (_, ug) =>
                match rg_shm ug with
                | Some ushm =>
                    let dirty := or_dirty (now st) ushm in
                    let st := asked st in
                    if dirty then update_region s r st else st
                | None => st
                end
            | None => st
            end
      | None => st
      end
  end.

Definition rvd_osd_check (st : osd_state) : osd_state :=
  if negb osd_enabled || o_unsupported st then st
  else
    let st := st <| o_retry := o_retry st + 1 |> in
    let st :=
      if RVD_OSD_RETRY_INTERVAL <=? o_retry st then
        each_stream (fun s st => scan_new_shm s (each_region s (try_open_shm s) st)) (st <| o_retry := 0 |>)
      else st in
    each_stream (fun s st => each_region s (check_region s) st) st.

(** ** Privacy *)

Definition set_privacy_stream (s : nat) (enable : bool) (st : osd_state) : osd_state :=
  let strm := stream_at st s in
  if os_jpeg strm then st
  else if stream_isp st s && (0 <? s)%nat && (os_sensor strm =? os_sensor (stream_at st (s - 1))) then st
  else
    let st :=
      if stream_isp st s then call (Mask (os_sensor strm) (Z.rem (os_fs_chn strm) 3) enable) st
      else
        let ph := default (- 1) (o_privacy_handles st !! s) in
        if 0 <=? ph then call (Region_show Ipu ph enable 0) st else st in
    let st := match rvd_osd_find_region st s (cs "privacy") with
      | Some (_, g) =>
          if 0 <=? rg_handle g
          then call (Region_show (unit_of st s) (rg_handle g) enable (if stream_isp st s then 0 else rg_layer g + 1)) st else st
      | None => st
      end in
    st <| o_privacy := <[s := enable]> (o_privacy st) |>.

Definition rvd_osd_set_privacy (enable : bool) (stream : Z) (st : osd_state) : osd_state :=
  if negb osd_enabled then st
  else if (0 <=? stream) && (stream <? Z.of_nat (length (o_streams st))) then set_privacy_stream (Z.to_nat stream) enable st
  else fold_left (fun st s => set_privacy_stream s enable st) (seq 0 (length (o_streams st))) st.

(** The [privacy] command: whether rad is muted, and what is answered for the video
    streams. *)
Definition privacy_cmd (value : option (list Z)) (channel : Z) (st : osd_state) : osd_state * bool * list bool :=
  let private s := default false (o_privacy st !! s) in
  let enable := match value with
    | Some v => bool_decide (v = cs "on") || bool_decide (v = cs "1")
    | None => negb (if (0 <=? channel) && (channel <? Z.of_nat (length (o_streams st))) then private (Z.to_nat channel) else private 0%nat)
    end in
  let st := rvd_osd_set_privacy enable channel st in
  let video := filter (fun s => os_jpeg (stream_at st s) = false) (seq 0 (length (o_streams st))) in
  let answer := (fun s => default false (o_privacy st !! s)) <$> video in
  (st, existsb id answer, answer).

(** ** Thread, tear-down, commands *)

(** The regions shown when the overlay thread starts. *)
Definition thread_start (st : osd_state) : osd_state :=
  each_stream (fun s st => each_region s (fun r st =>
    match row st s !! r with
    | Some g => if negb (rg_active g) || (rg_handle g <? 0) || bool_decide (rg_name g = cs "privacy") then st else show_region s r st
    | None => st
    end) st) st.

Definition deinit_region (s r : nat) (st : osd_state) : osd_state :=
  match row st s !! r with
  | None => st
  | Some g =>
      let st := if rg_active g then destroy_region_hw s r st else st in
      upd_region s r (fun g => g <| rg_buf := None |> <| rg_active := false |> <| rg_handle := - 1 |> <| rg_shown := false |>) (close_shm s r st)
  end.

Definition deinit_cover (s : nat) (st : osd_state) : osd_state :=
  let strm := stream_at st s in
  let st := if stream_isp st s && default false (o_privacy st !! s)
            then call (Mask (os_sensor strm) (Z.rem (os_fs_chn strm) 3) false) st else st in
  let ph := default (- 1) (o_privacy_handles st !! s) in
  if 0 <=? ph then
    let st := if stream_isp st s then st
              else call (Region_destroy Ipu ph) (call (Region_unregister ph (os_chn strm)) (call (Region_show Ipu ph false 0) st)) in
    set_privacy_handle s (- 1) st
  else st.

Definition rvd_osd_deinit_stream (s : nat) (st : osd_state) : osd_state :=
  if os_jpeg (stream_at st s) then st
  else
    let st := each_region s (deinit_region s) st in
    deinit_cover s (st <| o_regions := <[s := []]> (o_regions st) |>).

(** The [osd-show] command. *)
Definition osd_show (stream : Z) (region : list Z) (show : Z) (st : osd_state) : osd_state * bool :=
  if (stream <? 0) || (Z.of_nat (length (o_streams st)) <=? stream) || (show <? 0) || bool_decide (region = []) then (st, false)
  else
    let s := Z.to_nat stream in
    match rvd_osd_find_region st s region with
    | Some (r, g) =>
        if rg_handle g <? 0 then (st, false)
        else
          let shown := negb (show =? 0) in
          let st := call (Region_show (unit_of st s) (rg_handle g) shown (if stream_isp st s then 0 else rg_layer g + 1)) st in
          (upd_region s r (fun g => g <| rg_shown := shown |>) st, true)
    | None => (st, false)
    end.

(** The [osd-position] command. *)
Definition osd_position (stream : Z) (region pos : list Z) (st : osd_state) : osd_state * bool :=
  if (stream <? 0) || (Z.of_nat (length (o_streams st)) <=? stream) || bool_decide (region = []) || bool_decide (pos = []) then (st, false)
  else
    let s := Z.to_nat stream in
    let key := take 63 (cs "stream" ++ show_int stream ++ cs "_" ++ region ++ cs "_pos") in
    let cfg := o_cfg st in
    let st := st <| o_cfg := fun sec k => if bool_decide (sec = cs "osd") && bool_decide (k = key) then Some pos else cfg sec k |> in
    match rvd_osd_find_region st s region with
    | Some (r, g) =>
        if rg_handle g <? 0 then (st, true)
        else
          let strm := stream_at st s in
          let '(x, y) := rvd_osd_calc_position (os_w strm) (os_h strm) (s32 (rg_width g)) (s32 (rg_height g)) (Some pos) in
          let attr := mk_attr x y (s32 (rg_width g)) (s32 (rg_height g)) (rg_layer g) in
          (call (Region_attr (unit_of st s) (rg_handle g) attr) st, true)
    | None => (st, true)
    end.

End Osd.
