(* ===== verification/RvdOsdProps.v ===== *)
(** * rvd: what the overlay owns

    Regions of the hardware and mappings of rod's buffers as resources: every one
    created is held by one region of the tables, or was given back, and none is
    touched afterwards.  With the memory for it, every copy stays in its buffer. *)

From Stdlib Require Import String.
From stdpp Require Import list list_numbers sorting.
From S2P Require Import Prelude Mux RtmpUrl RodDraw RodReceipt RodTemplate RvdOsd.

(** ** Resources *)

Inductive osd_res := Res_region (u : osd_unit) (h : Z) | Res_map (h : Z).

#[global] Instance osd_res_dec : EqDecision osd_res.
Proof. solve_decision. Defined.

Fixpoint remove_one (x : osd_res) (l : list osd_res) : option (list osd_res) :=
  match l with
  | [] => None
  | y :: l => if decide (x = y) then Some l else (fun l => y :: l) <$> remove_one x l
  end.

(** [None]: the call is on something that is not there. *)
Definition after (c : osd_call) (l : list osd_res) : option (list osd_res) :=
  let uses x := if decide (x ∈ l) then Some l else None in
  match c with
  | Region_create u h => Some (Res_region u h :: l)
  | Region_register h _ | Region_unregister h _ | Region_update h _ => uses (Res_region Ipu h)
  | Region_attr u h _ | Region_show u h _ _ => uses (Res_region u h)
  | Region_destroy u h => remove_one (Res_region u h) l
  | Mask _ _ _ => Some l
  | Shm_open h => Some (Res_map h :: l)
  | Shm_close h => remove_one (Res_map h) l
  end.

(** What a sequence of calls leaves behind. *)
Definition live (tr : list osd_call) : option (list osd_res) :=
  fold_left (fun l c => l ≫= after c) tr (Some []).

Lemma live_snoc tr c : live (tr ++ [c]) = live tr ≫= after c.
Proof. unfold live. by rewrite fold_left_app. Qed.

Lemma remove_one_perm x l l' : l ≡ₚ x :: l' -> exists l2, remove_one x l = Some l2 /\ l2 ≡ₚ l'.
Proof.
  revert l'. induction l as [|y l IH]; intros l' Hp; [by apply Permutation_nil in Hp|]. cbn. destruct (decide (x = y)) as [<-|Hne].
  - exists l. split; [done|]. by apply Permutation_cons_inv in Hp.
  - assert (Hin : y ∈ x :: l') by (rewrite <- Hp; by left). apply elem_of_cons in Hin as [->|Hin]; [done|].
    apply elem_of_Permutation in Hin as [l'' Hl'']. rewrite Hl'' in Hp. rewrite Permutation_swap in Hp. apply Permutation_cons_inv in Hp.
    destruct (IH _ Hp) as (l2 & -> & Hl2). exists (y :: l2). split; [done|]. by rewrite Hl2, Hl''.
Qed.

(** The calls so far were on live things and leave [l]. *)
Definition holds (st : osd_state) (l : list osd_res) : Prop := exists l', live (o_trace st) = Some l' /\ l' ≡ₚ l.

Lemma holds_perm st l l2 : l ≡ₚ l2 -> holds st l -> holds st l2.
Proof. intros Hp (l' & Hl & Hl'). exists l'. split; [done|]. by rewrite Hl'. Qed.

#[global] Instance holds_proper st : Proper ((≡ₚ) ==> iff) (holds st).
Proof. intros l l2 Hp. split; apply holds_perm; done. Qed.

Lemma holds_trace st st' l : o_trace st' = o_trace st -> holds st l -> holds st' l.
Proof. intros He (l' & ? & ?). exists l'. by rewrite He. Qed.

(** A call that gives back [gone] and takes [got], among anything else. *)
Definition swaps (c : osd_call) (gone got : list osd_res) : Prop :=
  match c with
  | Region_create u h => gone = [] /\ got = [Res_region u h]
  | Region_register h _ | Region_unregister h _ | Region_update h _ => gone = got /\ Res_region Ipu h ∈ gone
  | Region_attr u h _ | Region_show u h _ _ => gone = got /\ Res_region u h ∈ gone
  | Region_destroy u h => gone = [Res_region u h] /\ got = []
  | Mask _ _ _ => gone = got
  | Shm_open h => gone = [] /\ got = [Res_map h]
  | Shm_close h => gone = [Res_map h] /\ got = []
  end.

Lemma holds_call st c gone got rest : swaps c gone got -> holds st (gone ++ rest) -> holds (call c st) (got ++ rest).
Proof.
  intros Hs (l & Hl & Hp). unfold holds. change (o_trace (call c st)) with (o_trace st ++ [c]). rewrite live_snoc, Hl. cbn [mbind option_bind].
  assert (Huse : forall x, gone = got -> x ∈ gone -> exists l', (if decide (x ∈ l) then Some l else None) = Some l' /\ l' ≡ₚ got ++ rest).
  { intros x <- Hx. rewrite decide_True by (rewrite Hp; apply elem_of_app; by left). by exists l. }
  destruct c; cbn in Hs |- *; (destruct Hs as [H1 H2] || rename Hs into H1); subst; try by (eapply Huse; eauto).
  - eexists. split; [done|]. by rewrite Hp.
  - by apply remove_one_perm in Hp.
  - by exists l.
  - eexists. split; [done|]. by rewrite Hp.
  - by apply remove_one_perm in Hp.
Qed.

Lemma holds_call_nil st c l : swaps c l l -> holds st l -> holds (call c st) l.
Proof. intros Hs. pose proof (holds_call st c l l [] Hs) as H. by rewrite !app_nil_r in H. Qed.

(** ** What the tables own *)

Definition region_res (u : osd_unit) (g : osd_region) : list osd_res :=
  (if 0 <=? rg_handle g then [Res_region u (rg_handle g)] else []) ++ (match rg_shm g with Some shm => [Res_map shm] | None => [] end).

Definition row_res (u : osd_unit) (row : list osd_region) : list osd_res := row ≫= region_res u.

Definition cover_res (h : Z) : list osd_res := if 0 <=? h then [Res_region Ipu h] else [].

(** The resources of the streams [ss], then those of the covers. *)
Definition owned (isp : bool) (st : osd_state) : list osd_res :=
  (seq 0 (length (o_streams st)) ≫= fun s => row_res (unit_of isp st s) (row st s)) ++ (o_privacy_handles st ≫= cover_res).

(** ** The invariant *)

Section Inv.
Context (K : Prop) (isp : bool).

(** Buffers have the size the region says; [K] stands for there being the memory. *)
Definition buf_ok (g : osd_region) : Prop :=
  0 <= rg_width g <= 16384 /\ 0 <= rg_height g <= 16384 /\ forall buf, rg_buf g = Some buf -> Z.of_nat (length buf) = rg_width g * rg_height g.

Definition reg_ok (g : osd_region) : Prop := (rg_active g = false -> rg_handle g < 0 /\ rg_shm g = None) /\ (K -> buf_ok g).

Definition names (row : list osd_region) : list (list Z) := rg_name <$> filter (fun g => rg_active g = true) row.

Definition row_ok (row : list osd_region) : Prop :=
  Forall reg_ok row /\ NoDup (names row) /\ Z.of_nat (length row) <= RVD_OSD_MAX_REGIONS.

Definition cover_at (st : osd_state) (s : nat) : Z := default (- 1) (o_privacy_handles st !! s).

Definition wf (st : osd_state) : Prop :=
  (length (o_regions st) = length (o_streams st) /\ length (o_privacy_handles st) = length (o_streams st)) /\
  (forall s, row_ok (row st s)) /\
  (forall s, os_jpeg (stream_at st s) = true -> row st s = [] /\ cover_at st s < 0) /\
  (forall s, stream_isp isp st s = true -> cover_at st s < 0) /\
  (K -> o_fault st = false /\ forall s, os_w (stream_at st s) <= 16384).

Definition inv (st : osd_state) : Prop := holds st (owned isp st) /\ wf st.

(** [st1] has the tables of [st]. *)
Definition same_tables (st st1 : osd_state) : Prop :=
  o_streams st1 = o_streams st /\ o_regions st1 = o_regions st /\ o_privacy_handles st1 = o_privacy_handles st /\
  (K -> o_fault st = false -> o_fault st1 = false).

#[global] Instance same_tables_preorder : PreOrder same_tables.
Proof.
  split; [done|]. intros a b c (A1 & A2 & A3 & A4) (B1 & B2 & B3 & B4). split_and!; [congruence.. | intros HK Hf; auto].
Qed.

Lemma same_tables_at st st1 s : same_tables st st1 ->
  row st1 s = row st s /\ stream_at st1 s = stream_at st s /\ cover_at st1 s = cover_at st s /\ unit_of isp st1 s = unit_of isp st s.
Proof. intros (H1 & H2 & H3 & _). unfold row, cover_at, unit_of, stream_isp, stream_at. by rewrite H1, H2, H3. Qed.

Lemma same_tables_owned st st1 : same_tables st st1 -> owned isp st1 = owned isp st.
Proof.
  intros H. pose proof H as (H1 & _ & H3 & _). unfold owned. rewrite H1, H3. f_equal. apply list_bind_ext; [|done].
  intros s. destruct (same_tables_at st st1 s H) as (-> & _ & _ & ->). done.
Qed.

Lemma same_tables_wf st st1 : same_tables st st1 -> wf st -> wf st1.
Proof.
  intros H (W1 & W2 & W3 & W4 & W5). pose proof H as (H1 & H2 & H3 & H4). unfold wf. rewrite H1, H2, H3. split; [done|].
  split; [|split; [|split]].
  - intros s. destruct (same_tables_at st st1 s H) as (-> & _). apply W2.
  - intros s. destruct (same_tables_at st st1 s H) as (-> & -> & -> & _). apply W3.
  - intros s. destruct (same_tables_at st st1 s H) as (_ & Hs & -> & _). unfold stream_isp. rewrite Hs. apply W4.
  - intros HK. destruct (W5 HK) as [Hf Hw]. split; [auto|]. intros s. destruct (same_tables_at st st1 s H) as (_ & -> & _). apply Hw.
Qed.

(** A change that keeps the tables and what is held keeps the invariant. *)
Lemma inv_same st st1 : same_tables st st1 -> (forall l, holds st l -> holds st1 l) -> inv st -> inv st1.
Proof. intros Hs Hh [H1 H2]. split; [rewrite (same_tables_owned _ _ Hs); auto | by eapply same_tables_wf]. Qed.

Lemma inv_asked st : inv st -> inv (asked st).
Proof. apply inv_same; done. Qed.

Lemma inv_call_mask st a b c : inv st -> inv (call (Mask a b c) st).
Proof. apply inv_same; [done|]. intros l. by apply holds_call_nil. Qed.

(** *** One region *)

Lemma row_lt st s r g : length (o_regions st) = length (o_streams st) -> row st s !! r = Some g -> (s < length (o_streams st))%nat.
Proof.
  intros Hl Hr. destruct (decide (s < length (o_regions st))%nat); [lia|]. unfold row in Hr. by rewrite (lookup_ge_None_2 (o_regions st) s) in Hr by lia.
Qed.

Lemma row_upd st s r f s' : row (upd_region s r f st) s' = if decide (s' = s) then alter f r (row st s) else row st s'.
Proof.
  unfold row, upd_region. cbn. destruct (decide (s' = s)) as [->|Hne]; [|by rewrite list_lookup_alter_ne].
  rewrite list_lookup_alter_eq. by destruct (o_regions st !! s).
Qed.

Lemma names_app l1 l2 : names (l1 ++ l2) = names l1 ++ names l2.
Proof. unfold names. by rewrite filter_app, fmap_app. Qed.

Lemma names_cons g l : names (g :: l) = (if rg_active g then [rg_name g] else []) ++ names l.
Proof. unfold names. destruct (rg_active g) eqn:E; [by rewrite filter_cons_True | by rewrite filter_cons_False by congruence]. Qed.

Definition name_ok (row : list osd_region) (g g' : osd_region) : Prop :=
  (rg_active g' = rg_active g /\ rg_name g' = rg_name g) \/ rg_active g' = false \/ (rg_active g = false /\ rg_name g' ∉ names row).

Lemma alter_split (row : list osd_region) r g f : row !! r = Some g -> alter f r row = take r row ++ f g :: drop (S r) row.
Proof.
  intros Hr. assert (Hl : length (take r row) = r) by (apply length_take_le; apply lookup_lt_Some in Hr; lia).
  rewrite <- (take_drop_middle row r g Hr) at 1. rewrite alter_app_r_alt by lia. by rewrite Hl, Nat.sub_diag.
Qed.

Lemma names_alter row r g f : row !! r = Some g -> NoDup (names row) -> name_ok row g (f g) -> NoDup (names (alter f r row)).
Proof.
  intros Hr Hnd Hn. pose proof (take_drop_middle row r g Hr) as Heq.
  rewrite (alter_split row r g f Hr). rewrite <- Heq in Hnd, Hn. revert Hnd Hn. generalize (take r row) (drop (S r) row). intros l1 l2.
  unfold name_ok. rewrite !names_app, !names_cons.
  intros Hnd [[-> ->]|[->|[Hg Hni]]]; [done| |].
  - cbn. destruct (rg_active g); [|done]. cbn in Hnd. rewrite <- Permutation_middle in Hnd. by apply NoDup_cons in Hnd as [_ ?].
  - rewrite Hg in Hnd, Hni. cbn in Hnd, Hni. destruct (rg_active (f g)); [|done]. cbn. rewrite <- Permutation_middle. by apply NoDup_cons.
Qed.

Lemma row_res_alter u row r g f : row !! r = Some g ->
  row_res u row ≡ₚ region_res u g ++ row_res u (delete r row) /\ row_res u (alter f r row) ≡ₚ region_res u (f g) ++ row_res u (delete r row).
Proof.
  intros Hr. assert (H : forall row2 g2, row2 !! r = Some g2 -> row_res u row2 ≡ₚ region_res u g2 ++ row_res u (delete r row2)).
  { intros row2 g2 H2. unfold row_res. rewrite <- (take_drop_middle row2 r g2 H2) at 1. rewrite delete_take_drop, !bind_app, bind_cons.
    rewrite !app_assoc. f_equiv. apply Permutation_app_comm. }
  split; [by apply H|]. rewrite (H (alter f r row) (f g)) by (by rewrite list_lookup_alter_eq, Hr).
  replace (delete r (alter f r row)) with (delete r row); [done|]. apply list_eq. intros k.
  destruct (decide (k < r)%nat); [rewrite !list_lookup_delete_lt, list_lookup_alter_ne by lia; done | rewrite !list_lookup_delete_ge, list_lookup_alter_ne by lia; done].
Qed.

Lemma stream_at_upd st s r f s' : stream_at (upd_region s r f st) s' = stream_at st s'.
Proof. done. Qed.

(** What the tables own, with one region apart. *)
Lemma owned_at st s r g : length (o_regions st) = length (o_streams st) -> row st s !! r = Some g -> exists rest,
  owned isp st ≡ₚ region_res (unit_of isp st s) g ++ rest /\
  forall f, owned isp (upd_region s r f st) ≡ₚ region_res (unit_of isp st s) (f g) ++ rest.
Proof.
  intros Hl Hr. pose proof (row_lt _ _ _ _ Hl Hr) as Hs.
  set (F := fun st s => row_res (unit_of isp st s) (row st s)).
  assert (Hseq : seq 0 (length (o_streams st)) = seq 0 s ++ s :: seq (S s) (length (o_streams st) - S s)).
  { replace (length (o_streams st)) with (s + S (length (o_streams st) - S s))%nat at 1 by lia. by rewrite seq_app. }
  exists ((seq 0 s ≫= F st) ++ row_res (unit_of isp st s) (delete r (row st s)) ++ (seq (S s) (length (o_streams st) - S s) ≫= F st) ++
          (o_privacy_handles st ≫= cover_res)).
  assert (Hshape : forall st2 X, o_streams st2 = o_streams st -> o_privacy_handles st2 = o_privacy_handles st ->
    (forall s', s' <> s -> F st2 s' = F st s') -> F st2 s ≡ₚ X ++ row_res (unit_of isp st s) (delete r (row st s)) ->
    owned isp st2 ≡ₚ X ++ (seq 0 s ≫= F st) ++ row_res (unit_of isp st s) (delete r (row st s)) ++
      (seq (S s) (length (o_streams st) - S s) ≫= F st) ++ (o_privacy_handles st ≫= cover_res)).
  { intros st2 X H1 H2 H3 H4. unfold owned. rewrite H1, H2. fold (F st2). rewrite Hseq, bind_app, bind_cons, H4.
    assert (Hb : forall a n, (forall x, (a <= x < a + n)%nat -> x <> s) -> (seq a n ≫= F st2) = (seq a n ≫= F st)).
    { intros a n Hx. revert a Hx. induction n as [|n IH]; intros a Hx; [done|]. cbn. rewrite H3 by (apply Hx; lia). f_equal.
      apply IH. intros x ?. apply Hx. lia. }
    rewrite !Hb by lia. rewrite <- !app_assoc. apply Permutation_app_swap_app. }
  split.
  - apply Hshape; [done..|]. by apply row_res_alter.
  - intros f. apply Hshape; [done | done | |].
    + intros s' Hs'. unfold F. rewrite row_upd, decide_False by done. done.
    + unfold F. rewrite row_upd, decide_True by done. change (unit_of isp (upd_region s r f st) s) with (unit_of isp st s). by apply row_res_alter.
Qed.

Lemma row_ok_alter row r g f : row !! r = Some g -> row_ok row -> reg_ok (f g) -> name_ok row g (f g) -> row_ok (alter f r row).
Proof.
  intros Hr (H1 & H2 & H3) Hg Hn. split; [|split].
  - apply Forall_lookup_2. intros k x Hx. destruct (decide (k = r)) as [->|Hne].
    + rewrite list_lookup_alter_eq, Hr in Hx. by injection Hx as <-.
    + rewrite list_lookup_alter_ne in Hx by done. by apply (Forall_lookup_1 _ _ _ _ H1 Hx).
  - by eapply names_alter.
  - by rewrite length_alter.
Qed.

Lemma wf_region st s r f g : wf st -> row st s !! r = Some g -> reg_ok (f g) -> name_ok (row st s) g (f g) -> wf (upd_region s r f st).
Proof.
  intros (W1 & W2 & W3 & W4 & W5) Hr Hg Hn. split; [|split; [|split; [|split]]]; [| | |exact W4|exact W5].
  - cbn. by rewrite length_alter.
  - intros s'. rewrite row_upd. case_decide; [subst; by eapply row_ok_alter | apply W2].
  - intros s' Hj. destruct (W3 s' Hj) as [He Hc]. split; [|exact Hc]. rewrite row_upd. case_decide as Hd; [|done]. subst. by rewrite He in Hr.
Qed.

(** A step on one region: calls that trade its resources, then its record. *)
Lemma inv_region st st1 s r g f : inv st -> row st s !! r = Some g -> same_tables st st1 ->
  (forall rest, holds st (region_res (unit_of isp st s) g ++ rest) -> holds st1 (region_res (unit_of isp st s) (f g) ++ rest)) ->
  reg_ok (f g) -> name_ok (row st s) g (f g) -> inv (upd_region s r f st1).
Proof.
  intros [Hh Hw] Hr Hsame Hstep Hg Hn. pose proof Hw as ((Hl & _) & _).
  assert (Hw1 : wf st1) by (by eapply same_tables_wf). pose proof Hsame as (H1 & H2 & _).
  destruct (same_tables_at st st1 s Hsame) as (Hrow & _ & _ & Hu).
  destruct (owned_at st s r g Hl Hr) as (rest & Ho & _). split.
  - rewrite Ho in Hh. apply Hstep in Hh.
    destruct (owned_at st1 s r g) as (rest1 & Ho1 & Ho2); [by rewrite H1, H2 | by rewrite Hrow |].
    apply (holds_trace st1); [done|]. eapply holds_perm; [|exact Hh]. rewrite Ho2, Hu. f_equiv.
    rewrite (same_tables_owned _ _ Hsame), Ho, Hu in Ho1. by apply Permutation_app_inv_l in Ho1.
  - apply (wf_region st1 s r f g); [done | by rewrite Hrow | done | by rewrite Hrow].
Qed.

(** A step that keeps the region and only calls on it. *)
Lemma inv_calls st st1 s r g : inv st -> row st s !! r = Some g -> same_tables st st1 ->
  (forall rest, holds st (region_res (unit_of isp st s) g ++ rest) -> holds st1 (region_res (unit_of isp st s) g ++ rest)) -> inv st1.
Proof.
  intros [Hh Hw] Hr Hsame Hstep. pose proof Hw as ((Hl & _) & _). split; [|by eapply same_tables_wf].
  rewrite (same_tables_owned _ _ Hsame). destruct (owned_at st s r g Hl Hr) as (rest & Ho & _). rewrite Ho in Hh |- *. by apply Hstep.
Qed.

Lemma inv_at st s r g : inv st -> row st s !! r = Some g -> reg_ok g.
Proof. intros [_ (_ & W & _)] Hr. destruct (W s) as (H & _). by apply (Forall_lookup_1 _ _ _ _ H Hr). Qed.

(** Calls on a region that has its handle. *)
Definition on_region (u : osd_unit) (h : Z) (c : osd_call) : Prop :=
  match c with
  | Region_register h' _ | Region_unregister h' _ | Region_update h' _ => u = Ipu /\ h' = h
  | Region_attr u' h' _ | Region_show u' h' _ _ => u' = u /\ h' = h
  | _ => False
  end.

Lemma holds_on st u g c rest : on_region u (rg_handle g) c -> 0 <= rg_handle g ->
  holds st (region_res u g ++ rest) -> holds (call c st) (region_res u g ++ rest).
Proof.
  intros Hc Hh H. eapply (holds_call _ _ (region_res u g) (region_res u g)); [|exact H].
  assert (Hin : Res_region u (rg_handle g) ∈ region_res u g).
  { unfold region_res. apply Z.leb_le in Hh. rewrite Hh. by left. }
  destruct c; cbn in Hc |- *; try done; destruct Hc as [-> ->]; (split; [done | exact Hin]).
Qed.

Lemma inv_on st s r g c : inv st -> row st s !! r = Some g -> 0 <= rg_handle g -> on_region (unit_of isp st s) (rg_handle g) c -> inv (call c st).
Proof. intros Hi Hr Hh Hc. eapply inv_calls; [exact Hi | exact Hr | done |]. intros rest. by apply holds_on. Qed.

(** The region's record alone, its resources unchanged. *)
Lemma inv_record st s r g f : inv st -> row st s !! r = Some g -> rg_handle (f g) = rg_handle g -> rg_shm (f g) = rg_shm g ->
  reg_ok (f g) -> name_ok (row st s) g (f g) -> inv (upd_region s r f st).
Proof.
  intros Hi Hr H1 H2 Hg Hn. eapply inv_region; [exact Hi | exact Hr | done | | done | done]. intros rest. unfold region_res. by rewrite H1, H2.
Qed.

(** ** Operations *)

Lemma region_push_inv st s r g : inv st -> row st s !! r = Some g -> 0 <= rg_handle g -> inv (push_region isp s r st) /\ same_tables st (push_region isp s r st).
Proof.
  intros Hi Hr Hh. unfold push_region. rewrite Hr. destruct (rg_buf g); [|done]. destruct (negb _); [done|].
  destruct (stream_isp isp st s) eqn:E; (split; [|done]); (eapply inv_on; [exact Hi | exact Hr | exact Hh |]); cbn; [done|].
  unfold unit_of. by rewrite E.
Qed.

Lemma copy_at_length off px buf buf' : 0 <= off -> copy_at off px buf = Some buf' -> length buf' = length buf.
Proof.
  intros Ho. unfold copy_at. destruct (Z.ltb_spec (Z.of_nat (length buf)) (off + Z.of_nat (length px))); [done|]. intros [= <-].
  rewrite !length_app, length_take, length_drop. lia.
Qed.

Lemma copy_at_some off px buf : off + Z.of_nat (length px) <= Z.of_nat (length buf) -> is_Some (copy_at off px buf).
Proof. intros H. unfold copy_at. destruct (Z.ltb_spec (Z.of_nat (length buf)) (off + Z.of_nat (length px))); [lia|]. by eexists. Qed.

Lemma px32_small n : 0 <= n < 2 ^ 30 -> px32 n = n.
Proof. intros H. unfold px32. rewrite uwrap_id by (unfold in_u; lia). rewrite Z.div_mul; lia. Qed.

Lemma fold_opt_ind {A B} (P : B -> Prop) (f : A -> B -> option B) l b :
  P b -> (forall x b, x ∈ l -> P b -> exists b', f x b = Some b' /\ P b') -> exists b', fold_opt f l b = Some b' /\ P b'.
Proof.
  revert b. induction l as [|x l IH]; intros b Hb Hs; [by exists b|]. cbn. destruct (Hs x b) as (b1 & -> & H1); [by left | done|]. cbn.
  apply IH; [done|]. intros y b2 Hy. apply Hs. by right.
Qed.

Lemma copy_rows_ok width x w h bitmap buf : 0 <= x -> 0 <= w -> x + w <= width <= 16384 -> 0 <= h <= 16384 -> h * width <= Z.of_nat (length buf) ->
  exists buf', copy_rows width x w h bitmap buf = Some buf' /\ length buf' = length buf.
Proof.
  intros Hx Hw Hwd Hh Hlen. unfold copy_rows. apply (fold_opt_ind (fun b => length b = length buf)); [done|].
  intros i b Hi%elem_of_range Hb. assert (Hrow : i * width + width <= h * width) by nia. assert (H28 : i * width <= 16384 * 16384) by nia.
  assert (0 <= i * width) by nia. set (px := take _ _). assert (Hpx : Z.of_nat (length px) <= w).
  { subst px. rewrite length_take. rewrite (px32_small w) by lia. lia. }
  rewrite (px32_small (i * width + x)) by lia. destruct (copy_at_some (i * width + x) px b) as [b' Hb']; [lia|].
  exists b'. split; [done|]. apply copy_at_length in Hb'; lia.
Qed.

Lemma blit_region_ok g w h bitmap buf : buf_ok g -> rg_buf g = Some buf -> 0 <= w <= rg_width g -> 0 <= h <= rg_height g ->
  exists buf', blit_region g w h bitmap buf = Some buf' /\ length buf' = length buf.
Proof.
  intros (Hgw & Hgh & Hlen) Hb Hw Hh. specialize (Hlen buf Hb). unfold blit_region.
  assert (Hmul : 0 <= rg_width g * rg_height g <= 16384 * 16384) by nia.
  destruct ((w =? rg_width g) && (h =? rg_height g)) eqn:E.
  - apply andb_true_iff in E as [?%Z.eqb_eq ?%Z.eqb_eq]. subst w h. rewrite px32_small by lia.
    destruct (copy_at_some 0 (take (Z.to_nat (rg_width g * rg_height g)) bitmap) buf) as [b' Hb']; [rewrite length_take; lia|].
    exists b'. split; [done|]. by eapply copy_at_length.
  - rewrite px32_small by lia. destruct (copy_at_some 0 (zeros (rg_width g * rg_height g)) buf) as [b1 Hb1].
    { unfold zeros. rewrite length_replicate. lia. }
    rewrite Hb1. cbn [mbind option_bind]. pose proof (copy_at_length _ _ _ _ (Z.le_refl 0) Hb1) as Hl1.
    destruct (copy_rows_ok (rg_width g) 0 w h bitmap b1) as (b2 & -> & Hl2); [lia.. | rewrite Hl1; nia |]. exists b2. split; [done | congruence].
Qed.

Context (env : nat -> oracle).

(** A created region has a handle that is not negative; with the memory, every
    [calloc] succeeds; a bitmap has the size it is said to have. *)
Hypothesis Hcreate : forall n u h, or_create (env n) u = (RSS_OK, h) -> 0 <= h.
Hypothesis Hcalloc : K -> forall n, or_calloc (env n) = true.
Hypothesis Hactive : K -> forall n shm bm w h, or_active (env n) shm = (bm, w, h) -> 0 <= w <= 16382 /\ 0 <= h <= 16382.

Lemma reg_ok_buf g buf : reg_ok g -> (K -> forall old, rg_buf g = Some old -> length buf = length old) -> is_Some (rg_buf g) ->
  reg_ok (g <| rg_buf := Some buf |>).
Proof.
  intros [H1 H2] Hl [old Hold]. split; [exact H1|]. intros HK. destruct (H2 HK) as (Hw & Hh & Hlen).
  split; [done|]. split; [done|]. intros b [= <-]. cbn. rewrite (Hl HK old Hold). by apply Hlen.
Qed.

(** The region is still there, with its handle and its element. *)
Definition kept (s r : nat) (g : osd_region) (st : osd_state) : Prop :=
  exists g', row st s !! r = Some g' /\ rg_handle g' = rg_handle g /\ rg_name g' = rg_name g /\ rg_active g' = rg_active g.

Lemma kept_upd st s r g f : row st s !! r = Some g -> rg_handle (f g) = rg_handle g -> rg_name (f g) = rg_name g -> rg_active (f g) = rg_active g ->
  kept s r g (upd_region s r f st).
Proof. intros Hr H1 H2 H3. exists (f g). rewrite row_upd, decide_True by done. by rewrite list_lookup_alter_eq, Hr. Qed.

Lemma kept_trans s r g st st' : kept s r g st -> (forall g', row st s !! r = Some g' -> kept s r g' st') -> kept s r g st'.
Proof.
  intros (g1 & H1 & A1 & A2 & A3) Hk. destruct (Hk g1 H1) as (g2 & H2 & B1 & B2 & B3). exists g2. split_and!; congruence.
Qed.

Lemma kept_same st st' s r g : row st s !! r = Some g -> same_tables st st' -> kept s r g st'.
Proof. intros Hr Hs. destruct (same_tables_at st st' s Hs) as (He & _). exists g. by rewrite He. Qed.

Lemma put_inv st s r g res : inv st -> row st s !! r = Some g -> is_Some (rg_buf g) ->
  (K -> exists buf, res = Some buf /\ forall old, rg_buf g = Some old -> length buf = length old) ->
  inv (put_buf s r res st) /\ kept s r g (put_buf s r res st).
Proof.
  intros Hi Hr Hb Hres. unfold put_buf. destruct res as [buf|].
  - split.
    + eapply inv_record; [exact Hi | exact Hr | done | done | | by left]. apply reg_ok_buf; [by eapply inv_at | | done].
      intros HK. by destruct (Hres HK) as (b & [= <-] & Hl).
    + by apply kept_upd.
  - split.
    + eapply inv_same; [| |exact Hi]; [|done]. split_and!; [done..|]. intros HK. by destruct (Hres HK) as (b & ? & _).
    + exists g. done.
Qed.

Lemma read_inv st s r g : inv st -> row st s !! r = Some g -> 0 <= rg_handle g ->
  inv (read_shm_and_push env isp s r st) /\ kept s r g (read_shm_and_push env isp s r st).
Proof.
  intros Hi Hr Hh. unfold read_shm_and_push. rewrite Hr. assert (Hid : inv st /\ kept s r g st) by (split; [done | by eapply kept_same]).
  destruct (rg_buf g) as [buf|] eqn:Hb; [|done]. destruct (rg_shm g) as [shm|]; [|done]. unfold now.
  destruct (or_active (env (o_clock st)) shm) as [[bm w] h] eqn:Hact. cbv zeta.
  assert (Hi1 : inv (asked st)) by (by apply inv_asked). assert (Hk1 : kept s r g (asked st)) by (by eapply kept_same).
  destruct bm as [bm|]; [|done]. destruct (_ || _) eqn:Hfit; [done|]. apply orb_false_iff in Hfit as [?%Z.ltb_ge ?%Z.ltb_ge].
  destruct (put_inv (asked st) s r g (blit_region g w h bm buf)) as [Hi2 Hk2]; [done | done | by eexists | |].
  { intros HK. destruct (Hactive HK _ _ _ _ _ Hact). destruct (inv_at _ _ _ _ Hi Hr) as [_ Hok]. specialize (Hok HK).
    destruct (blit_region_ok g w h bm buf) as (b & -> & Hl); [done | done | lia | lia |]. exists b. split; [done|]. intros old Ho. congruence. }
  pose proof Hk2 as (g2 & Hr2 & Hg2 & _). destruct (region_push_inv _ _ _ _ Hi2 Hr2) as [Hi3 Hs3]; [lia|]. split; [done|].
  eapply kept_trans; [exact Hk2|]. intros g' Hg'. by eapply kept_same.
Qed.

Lemma show_inv st s r g : inv st -> row st s !! r = Some g -> 0 <= rg_handle g -> inv (show_region isp s r st) /\ kept s r g (show_region isp s r st).
Proof.
  intros Hi Hr Hh. unfold show_region. rewrite Hr. cbv zeta.
  set (st1 := match unit_of isp st s with Ipu => _ | Isp _ => _ end).
  assert (H1 : inv st1 /\ same_tables st st1).
  { subst st1. destruct (unit_of isp st s) as [|sensor] eqn:E.
    - split; [|done]. eapply inv_on; [exact Hi | exact Hr | exact Hh | by rewrite E].
    - split; [|done]. assert (Hi1 : inv (call (Region_attr (Isp sensor) (rg_handle g) (attr_of st s g 0)) st)) by
        (eapply inv_on; [exact Hi | exact Hr | exact Hh | by rewrite E]).
      eapply inv_on; [exact Hi1 | exact Hr | exact Hh | by split; [symmetry; exact E|]]. }
  destruct H1 as [Hi1 Hs1]. destruct (same_tables_at st st1 s Hs1) as (Hrow & _). rewrite <- Hrow in Hr. split.
  - eapply inv_record; [exact Hi1 | exact Hr | done | done | | by left]. apply (inv_at _ _ _ _ Hi1 Hr).
  - by apply kept_upd.
Qed.

Lemma row_after st s r g f : row st s !! r = Some g -> row (upd_region s r f st) s !! r = Some (f g).
Proof. intros Hr. rewrite row_upd, decide_True by done. by rewrite list_lookup_alter_eq, Hr. Qed.

Lemma ldiff_1 x : Z.ldiff x 1 = x / 2 * 2.
Proof. change (Z.ldiff x 1) with (Z.ldiff x (Z.ones 1)). rewrite Z.ldiff_ones_r, Z.shiftl_mul_pow2, Z.shiftr_div_pow2 by lia. done. Qed.

Lemma even32_val v : 0 <= v < 2 ^ 32 - 1 -> even32 v = (v + 1) / 2 * 2.
Proof. intros Hv. unfold even32. rewrite uwrap_id by (unfold in_u; lia). apply ldiff_1. Qed.

Lemma resize_inv st s r g w h : inv st -> row st s !! r = Some g -> 0 <= rg_handle g -> (K -> 0 <= w <= 16382 /\ 0 <= h <= 16382) ->
  inv (resize_region env isp s r w h st) /\ kept s r g (resize_region env isp s r w h st).
Proof.
  intros Hi Hr Hh Hdim. unfold resize_region. cbv zeta.
  assert (Hi1 : inv (asked st)) by (by apply inv_asked). assert (Hk1 : kept s r g (asked st)) by (by eapply kept_same).
  destruct (negb _); [done|]. set (f := fun g : osd_region => _ : osd_region). set (st2 := upd_region s r f (asked st)).
  assert (Hi2 : inv st2).
  { eapply inv_record; [exact Hi1 | exact Hr | done | done | | by left]. split; [apply (inv_at _ _ _ _ Hi Hr)|]. intros HK.
    destruct (Hdim HK). unfold buf_ok. cbn. assert (Hev : forall v, 0 <= v <= 16382 -> 0 <= even32 v <= 16384).
    { intros v Hv. rewrite even32_val by lia. pose proof (Z.mul_div_le (v + 1) 2). pose proof (Z.div_pos (v + 1) 2). lia. }
    pose proof (Hev w). pose proof (Hev h). split; [lia|]. split; [lia|]. intros b [= <-]. unfold zeros. rewrite length_replicate. nia. }
  assert (Hr2 : row st2 s !! r = Some (f g)) by (by apply (row_after (asked st))).
  rewrite Hr2. clearbody st2.
  set (attr := Region_attr _ _ _).
  assert (Hfin : inv (match unit_of isp st2 s with
    | Isp _ => call attr st2
    | Ipu => let show b st := if rg_shown (f g) then call (Region_show (unit_of isp st2 s) (rg_handle (f g)) b (rg_layer (f g) + 1)) st else st in
             show true (call attr (show false st2)) end) /\
    same_tables st2 (match unit_of isp st2 s with
    | Isp _ => call attr st2
    | Ipu => let show b st := if rg_shown (f g) then call (Region_show (unit_of isp st2 s) (rg_handle (f g)) b (rg_layer (f g) + 1)) st else st in
             show true (call attr (show false st2)) end)).
  { destruct (unit_of isp st2 s) as [|sensor] eqn:E; cbv zeta.
    - split; [|by destruct (rg_shown (f g))].
      assert (Hon : forall st3 c, inv st3 -> same_tables st2 st3 -> on_region (unit_of isp st2 s) (rg_handle (f g)) c -> inv (call c st3)).
      { intros st3 c H3 Hs3 Hc. destruct (same_tables_at st2 st3 s Hs3) as (Hrow & _ & _ & Hu). rewrite <- Hu in Hc.
        eapply inv_on; [exact H3 | by rewrite Hrow | exact Hh | exact Hc]. }
      rewrite E in Hon. destruct (rg_shown (f g)).
      + apply Hon; [apply Hon; [apply Hon; [done..|by split]|done|by split]|done|by split].
      + apply Hon; [done..|by split].
    - split; [|done]. eapply inv_on; [exact Hi2 | exact Hr2 | exact Hh | by rewrite E]. }
  destruct Hfin as [H1 H2]. split; [exact H1|]. destruct (same_tables_at _ _ s H2) as (Hrow & _).
  exists (f g). split; [|done]. etransitivity; [exact (f_equal (fun l => l !! r) Hrow) | exact Hr2].
Qed.

Lemma holds_close st u g shm rest : rg_shm g = Some shm -> holds st (region_res u g ++ rest) ->
  holds (call (Shm_close shm) st) (region_res u (g <| rg_shm := None |>) ++ rest).
Proof.
  intros Hs. unfold region_res. rewrite Hs. cbn [rg_shm rg_handle]. cbn. rewrite app_nil_r.
  set (H := if 0 <=? rg_handle g then _ else _). intros Hh. apply (holds_call _ _ [Res_map shm] []); [done|].
  eapply holds_perm; [|exact Hh]. rewrite <- app_assoc. apply Permutation_app_swap_app.
Qed.

Lemma close_inv st s r g : inv st -> row st s !! r = Some g ->
  inv (close_shm s r st) /\ row (close_shm s r st) s !! r = Some (g <| rg_shm := None |>).
Proof.
  intros Hi Hr. unfold close_shm. rewrite Hr. cbn [mbind option_bind]. destruct (rg_shm g) as [shm|] eqn:Es.
  - split; [|by apply row_after].
    eapply (inv_region st); [exact Hi | exact Hr | done | | | by left].
    + intros rest. by apply holds_close.
    + destruct (inv_at _ _ _ _ Hi Hr) as [H1 H2]. split; [|exact H2]. intros Ha. by destruct (H1 Ha).
  - split; [exact Hi|]. rewrite Hr. f_equal. destruct g. cbn in Es. by rewrite Es.
Qed.

Lemma destroy_inv st s r g : inv st -> row st s !! r = Some g ->
  inv (destroy_region_hw isp s r st) /\ exists g', row (destroy_region_hw isp s r st) s !! r = Some g' /\ rg_handle g' < 0 /\ rg_shm g' = rg_shm g.
Proof.
  intros Hi Hr. unfold destroy_region_hw. rewrite Hr. destruct (Z.ltb_spec (rg_handle g) 0) as [Hh|Hh]; [split; [done | by exists g]|].
  cbv zeta. set (st1 := match unit_of isp st s with Ipu => _ | Isp _ => _ end).
  assert (Hs1 : same_tables st st1) by (subst st1; by destruct (unit_of isp st s)).
  destruct (same_tables_at _ _ s Hs1) as (Hrow & _). split.
  - eapply (inv_region st); [exact Hi | exact Hr | exact Hs1 | | | by left].
    + intros rest Hold. set (u := unit_of isp st s) in *.
      assert (Hgone : forall st2, holds st2 (region_res u g ++ rest) ->
        holds (call (Region_destroy u (rg_handle g)) st2) (region_res u (g <| rg_handle := - 1 |> <| rg_shown := false |>) ++ rest)).
      { intros st2. unfold region_res. apply Z.leb_le in Hh. rewrite Hh. cbn. intros H2.
        by apply (holds_call _ _ [Res_region u (rg_handle g)] []). }
      subst st1. destruct u as [|sensor] eqn:E.
      * apply Hgone. apply holds_on; [by split | done |]. apply holds_on; [by split | done | exact Hold].
      * apply Hgone. apply holds_on; [by split | done | exact Hold].
    + destruct (inv_at _ _ _ _ Hi Hr) as [H1 H2]. split; [|exact H2]. intros Ha. destruct (H1 Ha). split; [cbn; lia | done].
  - eexists. split; [apply row_after; by rewrite Hrow|]. done.
Qed.

Lemma upd_length st s r f s' : length (row (upd_region s r f st) s') = length (row st s').
Proof. rewrite row_upd. case_decide; [subst; apply length_alter | done]. Qed.

Lemma release_one_length st s r s' : length (row (release_one isp s r st) s') = length (row st s').
Proof.
  unfold release_one. rewrite upd_length. unfold destroy_region_hw. destruct (row (close_shm s r st) s !! r) as [g|].
  - destruct (_ <? 0); [|cbv zeta; rewrite upd_length; destruct (unit_of _ _ _)].
    all: change (length (row (close_shm s r st) s') = length (row st s')); unfold close_shm; destruct (_ ≫= _); [by rewrite upd_length | done].
  - unfold close_shm. destruct (_ ≫= _); [by rewrite upd_length | done].
Qed.

Lemma release_one_inv st s r g : inv st -> row st s !! r = Some g -> inv (release_one isp s r st).
Proof.
  intros Hi Hr. unfold release_one. destruct (close_inv st s r g Hi Hr) as [Hi1 Hr1].
  destruct (destroy_inv _ s r _ Hi1 Hr1) as [Hi2 (g2 & Hr2 & Hh2 & Hs2)]. cbn in Hs2.
  eapply inv_region; [exact Hi2 | exact Hr2 | done | | | by right; left].
  - intros rest. unfold region_res. cbn. done.
  - split; [done|]. intros _. split; [cbn; lia|]. split; [cbn; lia | done].
Qed.

Lemma find_region_row st s name r g : rvd_osd_find_region st s name = Some (r, g) -> row st s !! r = Some g /\ rg_active g = true /\ rg_name g = name.
Proof. unfold rvd_osd_find_region. destruct (_ <=? _)%nat; [done|]. intros (H1 & [H2 H3] & _)%list_find_Some. done. Qed.

Lemma release_inv st s r : inv st -> inv (release_region isp s r st).
Proof.
  intros Hi. unfold release_region. destruct (row st s !! r) as [g|] eqn:Hr; [|done]. cbv zeta.
  set (st1 := if bool_decide _ then _ else st).
  assert (H1 : inv st1 /\ exists g1, row st1 s !! r = Some g1).
  { subst st1. assert (Hid : inv st /\ exists g1, row st s !! r = Some g1) by (split; [done | by eexists]).
    destruct (bool_decide _); [|done]. destruct (rvd_osd_find_region st s _) as [[u ug]|] eqn:Hf; [|done].
    destruct (rg_handle ug <? 0); [|done]. apply find_region_row in Hf as (Hu & _). split; [by eapply release_one_inv|].
    apply lookup_lt_is_Some. rewrite release_one_length. by eapply lookup_lt_Some. }
  destruct H1 as [H1 (g1 & Hg1)]. by eapply release_one_inv.
Qed.

Lemma opened_inv st s r shm g : inv st -> row st s !! r = Some g -> inv (opened_shm env isp s r shm st).
Proof.
  intros Hi Hr. unfold opened_shm. rewrite Hr. destruct (Z.ltb_spec (rg_handle g) 0) as [|Hh]; [done|]. unfold now.
  destruct (or_active (env (o_clock st)) shm) as [[bm w] h] eqn:Hact. cbv zeta.
  set (st1 := if _ && _ && _ && _ then resize_region _ _ _ _ _ _ _ else _).
  assert (H1 : inv st1 /\ kept s r g st1).
  { assert (Hi1 : inv (asked st)) by (by apply inv_asked). subst st1. destruct (_ && _ && _ && _).
    - apply resize_inv; [done | done | done |]. intros HK. by eapply Hactive.
    - split; [done | by eapply kept_same]. }
  clearbody st1. destruct H1 as [Hi1 (g1 & Hr1 & Hh1 & _)].
  destruct (read_inv st1 s r g1 Hi1 Hr1) as [Hi2 (g2 & Hr2 & Hh2 & _)]; [lia|].
  destruct (_ && negb _); [done|]. destruct (rg_shown g); [done|]. by apply (show_inv _ s r g2); [| |lia].
Qed.

Lemma open_inv st s r g shm : inv st -> row st s !! r = Some g -> rg_active g = true -> rg_shm g = None ->
  inv (upd_region s r (fun g => g <| rg_shm := Some shm |>) (call (Shm_open shm) st)).
Proof.
  intros Hi Hr Ha Hs. eapply (inv_region st); [exact Hi | exact Hr | done | | | by left].
  - intros rest. unfold region_res. rewrite Hs. cbn. rewrite app_nil_r. set (H := if 0 <=? rg_handle g then _ else _). intros Hh.
    rewrite <- app_assoc. eapply holds_perm; [|apply (holds_call st (Shm_open shm) [] [Res_map shm] (H ++ rest)); [done | exact Hh]].
    apply Permutation_app_swap_app.
  - split; [cbn; congruence|]. apply (inv_at _ _ _ _ Hi Hr).
Qed.

Lemma try_open_inv st s r : inv st -> inv (try_open_shm env isp s r st).
Proof.
  intros Hi. unfold try_open_shm. destruct (row st s !! r) as [g|] eqn:Hr; [|done]. destruct (rg_active g) eqn:Ha; [|done]. cbn [negb]. cbv zeta.
  set (st1 := match rg_shm g with Some _ => asked st | None => st end).
  assert (H1 : inv st1 /\ row st1 s !! r = Some g) by (subst st1; destruct (rg_shm g); (split; [|exact Hr]); [by apply inv_asked | done]).
  clearbody st1. destruct H1 as [Hi1 Hr1]. destruct (negb _); [done|]. destruct (close_inv st1 s r g Hi1 Hr1) as [Hi2 Hr2].
  assert (Hi3 : inv (asked (close_shm s r st1))) by (by apply inv_asked).
  destruct (or_open _ s (rg_name g)) as [shm|].
  - eapply opened_inv; [by eapply open_inv; [exact Hi3 | exact Hr2 | exact Ha |]|]. by apply (row_after (call _ (asked _))).
  - destruct (or_stat _ _ _); [by apply inv_asked|]. by apply release_inv, inv_asked.
Qed.

(** *** Building *)

Lemma probe_inv st s name : inv st -> inv (probe_shm_dims env s name st).1 /\ same_tables st (probe_shm_dims env s name st).1 /\
  (K -> forall w h, (probe_shm_dims env s name st).2 = Some (w, h) -> 0 <= w <= 16382 /\ 0 <= h <= 16382).
Proof.
  intros Hi. unfold probe_shm_dims, now. destruct (or_open _ s name) as [shm|]; [|split_and!; [by apply inv_asked | done..]].
  destruct (or_active (env (o_clock st)) shm) as [[bm w] h] eqn:Hact. cbn [fst snd]. split; [|split; [done|]].
  - eapply inv_same; [| |exact Hi]; [done|]. intros l Hl. apply (holds_call _ _ [Res_map shm] []); [done|].
    apply (holds_call (asked st) _ [] [Res_map shm]); [done|]. exact Hl.
  - intros HK w' h'. destruct (_ && _); [|done]. intros [= <- <-]. by eapply Hactive.
Qed.

(** A slot for a new region. *)
Lemma alloc_inv st s r st' : inv st -> (s < length (o_streams st))%nat -> os_jpeg (stream_at st s) = false -> alloc_region_slot s st = Some (r, st') ->
  inv st' /\ (exists g, row st' s !! r = Some g /\ rg_active g = false) /\ names (row st' s) = names (row st s) /\
  (forall s', stream_at st' s' = stream_at st s') /\ length (o_streams st') = length (o_streams st).
Proof.
  intros Hi Hs Hj. unfold alloc_region_slot. destruct (list_find _ (row st s)) as [[r' g]|] eqn:Hf.
  - intros [= <- <-]. apply list_find_Some in Hf as (H1 & H2 & _). split; [done|]. split; [by exists g | done].
  - destruct (Z.ltb_spec (Z.of_nat (length (row st s))) RVD_OSD_MAX_REGIONS) as [Hlt|]; [|done]. intros [= <- <-].
    set (blank := new_region [] 0 0 0). set (st' := st <| o_regions := alter (fun row => row ++ [blank]) s (o_regions st) |>). destruct Hi as [Hh Hw]. pose proof Hw as ((L1 & L2) & W2 & W3 & W4 & W5).
    assert (Hrow : forall s', row st' s' = if decide (s' = s) then row st s ++ [blank] else row st s').
    { intros s'. unfold row. cbn. destruct (decide (s' = s)) as [->|]; [|by rewrite list_lookup_alter_ne]. rewrite list_lookup_alter_eq.
      destruct (o_regions st !! s) eqn:E; [done|]. apply lookup_ge_None_1 in E. lia. }
    assert (Hnames : names (row st s ++ [blank]) = names (row st s)) by (rewrite names_app; cbn; by rewrite app_nil_r).
    split; [split|].
    + assert (Ho : owned isp st' = owned isp st); [|change (holds st (owned isp st')); by rewrite Ho].
      unfold owned. f_equal. apply list_bind_ext; [|done]. intros s'. rewrite Hrow. change (unit_of isp st' s') with (unit_of isp st s').
      case_decide; [|done]. subst. unfold row_res. rewrite bind_app. cbn. by rewrite app_nil_r.
    + split; [|split; [|split; [|split]]]; [| | |exact W4|exact W5].
      * cbn. by rewrite length_alter.
      * intros s'. rewrite Hrow. case_decide; [|apply W2]. destruct (W2 s) as (R1 & R2 & R3). split; [|split].
        -- apply Forall_app_2; [done|]. constructor; [|done]. split; [done|]. intros _. split; [cbn; lia|]. split; [cbn; lia | done].
        -- by rewrite Hnames.
        -- rewrite length_app. cbn. unfold RVD_OSD_MAX_REGIONS in *. lia.
      * intros s' Hj'. rewrite Hrow. case_decide as Hd; [rewrite Hd in Hj'; discriminate (eq_trans (eq_sym Hj) Hj') | by apply W3].
    + split; [|split; [|done]].
      * exists blank. rewrite Hrow, decide_True by done. by rewrite list_lookup_middle.
      * by rewrite Hrow, decide_True.
Qed.

(** A slot holding a region that is not built yet. *)
Definition slot_of (st : osd_state) (s r : nat) (name : list Z) : Prop :=
  exists g, row st s !! r = Some g /\ rg_active g = false /\ rg_name g = name.

Lemma inactive_res st s r g u : inv st -> row st s !! r = Some g -> rg_active g = false -> region_res u g = [].
Proof.
  intros Hi Hr Ha. destruct (inv_at _ _ _ _ Hi Hr) as [H _]. destruct (H Ha) as [Hh Hs]. unfold region_res. rewrite Hs.
  destruct (Z.leb_spec 0 (rg_handle g)); [lia | done].
Qed.

Lemma free_slot_inv st s r name : inv st -> slot_of st s r name -> inv (free_buf s r st) /\ slot_of (free_buf s r st) s r name.
Proof.
  intros Hi (g & Hr & Ha & Hn). split.
  - eapply inv_record; [exact Hi | exact Hr | done | done | | by left]. destruct (inv_at _ _ _ _ Hi Hr) as [H1 H2]. split; [exact H1|]. intros HK. destruct (H2 HK) as (Hw & Hh & _). by split.
  - exists (g <| rg_buf := None |>). split; [by apply (row_after st) | done].
Qed.

Lemma activate_inv st st1 s r g h : inv st -> row st s !! r = Some g -> rg_active g = false -> rg_name g ∉ names (row st s) ->
  same_tables st st1 -> 0 <= h -> (forall rest, holds st rest -> holds st1 (Res_region (unit_of isp st s) h :: rest)) -> inv (activate s r h st1).
Proof.
  intros Hi Hr Ha Hn Hs Hh Hstep. unfold activate. eapply inv_region; [exact Hi | exact Hr | exact Hs | | | by right; right].
  - intros rest. rewrite (inactive_res st s r g) by done. destruct (inv_at _ _ _ _ Hi Hr) as [Hok _]. destruct (Hok Ha) as [_ Hsh].
    unfold region_res. cbn. rewrite Hsh. apply Z.leb_le in Hh. rewrite Hh. cbn. apply Hstep.
  - split; [done|]. apply (inv_at _ _ _ _ Hi Hr).
Qed.

Lemma create_hw_inv st s r g : inv st -> row st s !! r = Some g -> rg_active g = false -> rg_name g ∉ names (row st s) ->
  inv (create_region_hw env isp s r g st).1 /\
  ((create_region_hw env isp s r g st).2 = false -> slot_of (create_region_hw env isp s r g st).1 s r (rg_name g)).
Proof.
  intros Hi Hr Ha Hn. unfold create_region_hw, now. cbv zeta. remember (unit_of isp st s) as u eqn:Eu.
  destruct (or_create (env (o_clock st)) u) as [ret h] eqn:Hc.
  assert (Hi1 : inv (asked st)) by (by apply inv_asked). assert (Hslot : slot_of (asked st) s r (rg_name g)) by (by exists g).
  destruct ret.
  - apply Hcreate in Hc.
    assert (Hcr : forall rest, holds st rest -> holds (call (Region_create u h) (asked st)) (Res_region u h :: rest)).
    { intros rest Hh. apply (holds_call (asked st) _ [] [Res_region u h]); [done | exact Hh]. }
    destruct u as [|sensor].
    + destruct (negb _); cbn [fst snd].
      * assert (Hi2 : inv (call (Region_destroy Ipu h) (asked (call (Region_create Ipu h) (asked st))))).
        { eapply inv_same; [| |exact Hi]; [done|]. intros l Hl. apply (holds_call _ _ [Res_region Ipu h] []); [done|]. by apply Hcr. }
        split; [|intros _]; by apply (free_slot_inv _ s r (rg_name g)).
      * split; [|done]. apply (activate_inv st _ s r g); [done..|]. rewrite <- Eu. intros rest Hh.
        assert (Hin : forall c st2, on_region Ipu h c -> holds st2 (Res_region Ipu h :: rest) -> holds (call c st2) (Res_region Ipu h :: rest)).
        { intros c st2 Hc2. apply (holds_call _ _ [Res_region Ipu h] [Res_region Ipu h]). destruct c; cbn in Hc2 |- *; try done; destruct Hc2 as [? ->]; subst.
          all: split; [done | by left]. }
        apply Hin; [by split|]. apply Hin; [by split|]. apply Hin; [by split|]. by apply (Hcr rest).
    + cbn [fst snd]. split; [|done]. apply (activate_inv st _ s r g); [done..|]. rewrite <- Eu. exact Hcr.
  - assert (Hi2 : inv (asked st <| o_unsupported := true |>)) by (by eapply inv_same; [| |exact Hi1]).
    split; [|intros _]; by apply (free_slot_inv _ s r (rg_name g)).
  - split; [|intros _]; by apply (free_slot_inv _ s r (rg_name g)).
Qed.

Lemma even32_nonneg v : 0 <= even32 v.
Proof. unfold even32. rewrite ldiff_1. pose proof (uwrap_range 32 (v + 1) ltac:(lia)) as [? _]. pose proof (Z.div_pos (uwrap 32 (v + 1)) 2). lia. Qed.

Lemma names_inactive row r g g' : row !! r = Some g -> rg_active g = false -> rg_active g' = false -> names (alter (fun _ => g') r row) = names row.
Proof.
  intros Hr Ha Ha'. rewrite (alter_split row r g _ Hr). rewrite <- (take_drop_middle row r g Hr) at 3.
  by rewrite !names_app, !names_cons, Ha, Ha'.
Qed.

Lemma region_create_inv st s r name : inv st -> slot_of st s r name -> name ∉ names (row st s) ->
  inv (create_region env isp s r st).1 /\
  ((create_region env isp s r st).2 = false -> slot_of (create_region env isp s r st).1 s r name).
Proof.
  intros Hi (g & Hr & Ha & <-) Hn. unfold create_region. rewrite Hr. cbv zeta.
  assert (Hid : slot_of st s r (rg_name g)) by (by exists g). destruct (o_unsupported st); [done|].
  destruct (_ || _) eqn:Edim; [done|]. rewrite !orb_false_iff in Edim. destruct Edim as [[[Hw%Z.ltb_ge Hh%Z.ltb_ge] _] _].
  destruct (negb _); [split; [by apply inv_asked | by intros _; exists g]|].
  pose proof (even32_nonneg (rg_width g)). pose proof (even32_nonneg (rg_height g)).
  set (g2 := g <| rg_buf := _ |> <| rg_width := _ |> <| rg_height := _ |>). assert (Hi1 : inv (asked st)) by (by apply inv_asked).
  assert (Hn2 : names (row (upd_region s r (fun _ => g2) (asked st)) s) = names (row st s)).
  { rewrite row_upd, decide_True by done. by apply (names_inactive (row st s) r g g2). }
  assert (Hi2 : inv (upd_region s r (fun _ => g2) (asked st))).
  { eapply inv_record; [exact Hi1 | exact Hr | done | done | | by left]. split; [apply (inv_at _ _ _ _ Hi Hr)|]. intros HK. unfold buf_ok.
    cbn. split; [lia|]. split; [lia|]. intros b [= <-]. unfold zeros. rewrite length_replicate. nia. }
  change (rg_name g) with (rg_name g2). apply create_hw_inv; [done | by apply (row_after (asked st)) with (g := g) | done | by rewrite Hn2].
Qed.

Lemma upd_upd s r f g st : upd_region s r f (upd_region s r g st) = upd_region s r (fun x => f (g x)) st.
Proof.
  unfold upd_region. cbn. f_equal. rewrite list_alter_alter_eq. apply list_alter_ext; [|done]. intros row _. cbn. by rewrite list_alter_alter_eq.
Qed.

Lemma wf_width st s : inv st -> K -> os_w (stream_at st s) <= 16384.
Proof. intros [_ (_ & _ & _ & _ & W)] HK. by destruct (W HK) as [_ H]. Qed.

(** The row as it was, but for slot [t]. *)
Definition others (s t : nat) (st st' : osd_state) : Prop :=
  (forall r, r <> t -> row st' s !! r = row st s !! r) /\ names (row st' s) = names (row st s).

Lemma others_upd st s t g f st1 : row st s !! t = Some g -> row st1 s = row st s -> rg_active (f g) = rg_active g -> rg_name (f g) = rg_name g ->
  others s t st (upd_region s t f st1).
Proof.
  intros Hr H1 Ha Hn. split.
  - intros r Hne. rewrite row_upd, decide_True by done. by rewrite list_lookup_alter_ne, H1.
  - rewrite row_upd, decide_True, H1 by done. rewrite (alter_split _ _ _ f Hr). rewrite <- (take_drop_middle _ _ _ Hr) at 3.
    by rewrite !names_app, !names_cons, Ha, Hn.
Qed.

(** Widening a region and renewing its buffer. *)
Lemma widen_inv st s t g w : inv st -> row st s !! t = Some g -> (K -> 0 <= w <= 16384) ->
  let st' := renew_buf env s t w (rg_height g) (upd_region s t (fun g => g <| rg_width := w |>) st) in inv st' /\ others s t st st'.
Proof.
  intros Hi Hr Hw. cbv zeta. unfold renew_buf, now. cbv zeta. destruct (or_calloc _) eqn:Hc.
  - change (asked (upd_region s t ?f st)) with (upd_region s t f (asked st)). rewrite upd_upd. split; [|by eapply others_upd].
    eapply inv_record; [by apply inv_asked | exact Hr | done | done | | by left].
    destruct (inv_at _ _ _ _ Hi Hr) as [H1 H2]. split; [exact H1|]. intros HK. destruct (H2 HK) as (Hgw & Hgh & _).
    split; [cbn; auto|]. split; [done|]. intros b [= <-]. cbn. specialize (Hw HK). unfold zeros. rewrite length_replicate. nia.
  - assert (HnK : ~ K) by (intros HK; cbn in Hc; rewrite Hcalloc in Hc; done). split.
    + apply inv_asked. eapply inv_record; [exact Hi | exact Hr | done | done | | by left]. split; [apply (inv_at _ _ _ _ Hi Hr)|]. done.
    + by apply (others_upd st s t g _ st).
Qed.

Lemma s32_small v : 0 <= v <= 16384 -> s32 v = v.
Proof. intros. apply swrap_id; [lia|]. unfold in_s. lia. Qed.

Lemma even32_bound v : 0 <= v <= 16384 -> 0 <= even32 (u32 v) <= 16384.
Proof.
  intros Hv. rewrite uwrap_id by (unfold in_u; lia). rewrite even32_val by lia. assert ((v + 1) / 2 <= 8192); [|pose proof (Z.div_pos (v + 1) 2); lia].
  destruct (decide (v = 16384)) as [->|]; [done|]. apply Z.div_le_upper_bound; lia.
Qed.

Lemma merge_scan_inv st s t g : inv st -> row st s !! t = Some g -> inv (merge_scan env s t st) /\ others s t st (merge_scan env s t st).
Proof.
  intros Hi Hr. unfold merge_scan. rewrite Hr. cbv zeta. destruct (Z.ltb_spec (s32 (rg_width g)) (os_w (stream_at st s) - 2 * OSD_MARGIN)) as [Hlt|]; [|done].
  apply widen_inv; [done | done |]. intros HK. destruct (inv_at _ _ _ _ Hi Hr) as [_ H2]. destruct (H2 HK) as (Hgw & _ & _).
  pose proof (wf_width st s Hi HK). rewrite s32_small in Hlt by done. unfold OSD_MARGIN in *. apply even32_bound. lia.
Qed.

Lemma merge_init_inv st s t g : inv st -> row st s !! t = Some g -> inv (merge_init env s t st) /\ others s t st (merge_init env s t st).
Proof.
  intros Hi Hr. unfold merge_init. rewrite Hr. cbv zeta. set (w := even32 _).
  assert (Hw : K -> 0 <= w <= 16384).
  { intros HK. destruct (inv_at _ _ _ _ Hi Hr) as [_ H2]. destruct (H2 HK) as (Hgw & _ & _). pose proof (wf_width st s Hi HK). subst w.
    rewrite s32_small by done. unfold OSD_MARGIN. apply even32_bound. destruct (Z.ltb_spec (os_w (stream_at st s) - 2 * 10) (rg_width g)); lia. }
  destruct (rg_buf g) eqn:Hb; [by apply widen_inv|]. split; [|by apply (others_upd st s t g _ st)].
  eapply inv_record; [exact Hi | exact Hr | done | done | | by left]. destruct (inv_at _ _ _ _ Hi Hr) as [H1 H2]. split; [exact H1|]. intros HK.
  destruct (H2 HK) as (Hgw & Hgh & _). split; [cbn; auto|]. split; [done|]. cbn. intros b Hb'. congruence.
Qed.

Definition merge_ok (merge : nat -> nat -> osd_state -> osd_state) : Prop :=
  forall st s t g, inv st -> row st s !! t = Some g -> inv (merge s t st) /\ others s t st (merge s t st).

Definition prewiden_ok (prewiden : Z -> Z -> Z) : Prop :=
  forall sw w, K -> sw <= 16384 -> 0 <= w <= 16384 -> 0 <= prewiden sw w <= 16384.

Lemma prewiden_init_ok : prewiden_ok prewiden_init.
Proof.
  intros sw w _ Hs Hw. unfold prewiden_init, OSD_MARGIN. rewrite s32_small by done. apply even32_bound. destruct (Z.ltb_spec (sw - 2 * 10) w); lia.
Qed.

Lemma prewiden_scan_ok : prewiden_ok prewiden_scan.
Proof.
  intros sw w _ Hs Hw. unfold prewiden_scan, OSD_MARGIN. cbv zeta. rewrite s32_small by done. destruct (Z.ltb_spec w (sw - 2 * 10)); [|done]. apply even32_bound. lia.
Qed.

Definition name_valid (name : list Z) : Prop := name <> [] /\ strlcpy RVD_OSD_NAME_LEN name = name.

Lemma create_build_inv st s r name : inv st -> slot_of st s r name -> name ∉ names (row st s) ->
  inv (let '(st, ok) := create_region env isp s r st in if ok then st else upd_region s r (fun g => g <| rg_name := [] |>) st).
Proof.
  intros Hi Hslot Hn. destruct (region_create_inv st s r name Hi Hslot Hn) as [H1 H2]. destruct (create_region env isp s r st) as [st' ok]. cbn [fst snd] in *.
  destruct ok; [done|]. destruct (H2 eq_refl) as (g & Hr & Ha & _). eapply inv_record; [exact H1 | exact Hr | done | done | | by right; left].
  apply (inv_at _ _ _ _ H1 Hr).
Qed.

Lemma build_inv merge prewiden st s r name w h layer : merge_ok merge -> prewiden_ok prewiden -> inv st -> name_valid name ->
  (exists g, row st s !! r = Some g /\ rg_active g = false) -> name ∉ names (row st s) -> (K -> 0 <= w <= 16382 /\ 0 <= h <= 16382) ->
  inv (build_region env isp merge prewiden s r name w h layer st).
Proof.
  intros Hmerge Hpre Hi [_ Hname] (g & Hr & Ha) Hn Hdim. unfold build_region. cbv zeta.
  set (new := new_region name w h layer). set (st1 := upd_region s r (fun _ => new) st).
  assert (Hnew : rg_name new = name) by exact Hname.
  assert (Hi1 : inv st1).
  { eapply inv_region; [exact Hi | exact Hr | done | | | by right; left].
    - intros rest. by rewrite (inactive_res st s r g).
    - split; [done|]. intros HK. destruct (Hdim HK). split; [cbn; lia|]. split; [cbn; lia | done]. }
  assert (Hr1 : row st1 s !! r = Some new) by (by apply (row_after st s r g (fun _ => new))).
  assert (Hn1 : name ∉ names (row st1 s)).
  { unfold st1. rewrite row_upd, decide_True by done. by rewrite (names_inactive _ _ g new). }
  assert (Hslot : slot_of st1 s r name) by (by exists new). clearbody st1.
  destruct (bool_decide (name = cs "uptime")).
  - destruct (rvd_osd_find_region st1 s (cs "time")) as [[t gt]|] eqn:Hf; [|by apply (create_build_inv st1 s r name)].
    apply find_region_row in Hf as (Ht & Hat & _). destruct (Hmerge st1 s t gt Hi1 Ht) as [Hi2 [Hrow Hnames]].
    assert (Hne : r <> t) by (intros ->; rewrite Hr1 in Ht; injection Ht as <-; discriminate Hat).
    assert (Hr2 : row (merge s t st1) s !! r = Some new) by (by rewrite Hrow).
    eapply inv_record; [exact Hi2 | exact Hr2 | done | done | | right; right; split; [done | by rewrite Hnames, <- Hnew in *]].
    split; [done|]. apply (inv_at _ _ _ _ Hi2 Hr2).
  - destruct (bool_decide (name = cs "time")); [|by apply (create_build_inv st1 s r name)].
    destruct (probe_inv st1 s (cs "uptime") Hi1) as (Hi2 & Hs2 & _). destruct (probe_shm_dims env s (cs "uptime") st1) as [st2 up]. cbn [fst] in *.
    destruct (same_tables_at st1 st2 s Hs2) as (Hrow2 & Hstr2 & _).
    destruct up; [|apply (create_build_inv st2 s r name); [done | by exists new; rewrite Hrow2 | by rewrite Hrow2]].
    set (st3 := upd_region s r _ st2). assert (Hr2 : row st2 s !! r = Some new) by (by rewrite Hrow2).
    assert (Hi3 : inv st3).
    { eapply inv_record; [exact Hi2 | exact Hr2 | done | done | | by left]. split; [done|]. intros HK. destruct (Hdim HK).
      pose proof (wf_width st2 s Hi2 HK). split; [cbn; apply Hpre; [done | done | lia]|]. split; [cbn; lia | done]. }
    apply (create_build_inv st3 s r name); [done | |].
    + eexists. split; [by apply row_after|]. done.
    + unfold st3. rewrite row_upd, decide_True by done. rewrite (alter_split _ _ _ _ Hr2), names_app, names_cons. cbn [rg_active].
      change (rg_active (new <| rg_width := ?x |>)) with false. cbn [app]. rewrite <- Hrow2 in Hn1. rewrite <- (take_drop_middle _ _ _ Hr2) in Hn1.
      by rewrite names_app, names_cons in Hn1.
Qed.

(** *** Loops *)

Lemma entry_name_valid s entry name : entry_name s entry = Some name -> name_valid name.
Proof.
  unfold entry_name. destruct (strip_prefix _ _) as [rest|] eqn:Es; [|done]. cbn [mbind option_bind].
  destruct (bool_decide (rest = []) || _) eqn:Eb; [done|]. intros [= <-]. apply orb_false_iff in Eb as [Hne%bool_decide_eq_false Hlen%Z.leb_gt].
  split; [done|]. assert (H0 : 0 ∉ rest).
  { intros Hin. assert (Hc : 0 ∉ cstr entry).
    { clear. induction entry as [|c l IH]; cbn; [apply not_elem_of_nil|]. destruct (Z.eqb_spec c 0); [apply not_elem_of_nil|].
      apply not_elem_of_cons. split; [lia | done]. }
    revert Es Hc. generalize (cstr entry). induction (shm_prefix s) as [|a p IH]; intros l Es Hc; [cbn in Es; by simplify_eq|].
    destruct l as [|b l]; [done|]. cbn in Es. destruct (a =? b); [|done]. apply (IH l Es). intros Hl. apply Hc. by right. }
  unfold strlcpy. assert (Hcs : cstr rest = rest).
  { clear -H0. induction rest as [|c l IH]; [done|]. cbn. apply not_elem_of_cons in H0 as [Hc Hl]. destruct (Z.eqb_spec c 0); [lia|]. f_equal. by apply IH. }
  rewrite Hcs. apply take_ge. unfold RVD_OSD_NAME_LEN in *. lia.
Qed.

Lemma find_none_names st s name : (s < length (o_streams st))%nat -> rvd_osd_find_region st s name = None -> name ∉ names (row st s).
Proof.
  intros Hs. unfold rvd_osd_find_region. destruct (Nat.leb_spec (length (o_streams st)) s); [lia|]. intros Hf Hin.
  unfold names in Hin. apply list_elem_of_fmap in Hin as (g & -> & Hg). apply list_elem_of_filter in Hg as [Ha Hg].
  apply list_find_None in Hf. rewrite Forall_forall in Hf. by apply (Hf g).
Qed.

Lemma create_streams st s r : o_streams (create_region env isp s r st).1 = o_streams st.
Proof.
  unfold create_region, create_region_hw, activate, free_buf. destruct (row st s !! r); [|done]. destruct (o_unsupported st); [done|]. cbv zeta.
  destruct (_ || _); [done|]. destruct (negb _); [done|]. destruct (or_create _ _) as [[] h]; [|done|done].
  destruct (unit_of _ _ _); [|done]. by destruct (negb _).
Qed.

Lemma probe_streams st s name : o_streams (probe_shm_dims env s name st).1 = o_streams st.
Proof. unfold probe_shm_dims. destruct (or_open _ _ _); [|done]. by destruct (or_active _ _) as [[??]?]. Qed.

Lemma merge_streams st s t : o_streams (merge_init env s t st) = o_streams st /\ o_streams (merge_scan env s t st) = o_streams st.
Proof.
  unfold merge_init, merge_scan, renew_buf. destruct (row st s !! t) as [g|]; [|done]. cbv zeta. split.
  - destruct (rg_buf g); [|done]. by destruct (or_calloc _).
  - destruct (_ <? _); [|done]. by destruct (or_calloc _).
Qed.

Lemma build_streams merge prewiden st s r name w h layer : (forall t st, o_streams (merge s t st) = o_streams st) ->
  o_streams (build_region env isp merge prewiden s r name w h layer st) = o_streams st.
Proof.
  intros Hm. unfold build_region. cbv zeta. set (st1 := upd_region s r _ st).
  assert (Hc : forall st, o_streams (let '(st, ok) := create_region env isp s r st in if ok then st else upd_region s r (fun g => g <| rg_name := [] |>) st) = o_streams st).
  { intros st'. pose proof (create_streams st' s r) as H. destruct (create_region env isp s r st') as [st2 ok]. cbn [fst] in H. by destruct ok. }
  destruct (bool_decide _).
  - destruct (rvd_osd_find_region _ _ _) as [[t g]|]; [|by rewrite Hc]. cbn. by rewrite Hm.
  - destruct (bool_decide _); [|by rewrite Hc]. pose proof (probe_streams st1 s (cs "uptime")) as Hp.
    destruct (probe_shm_dims _ _ _ _) as [st2 up]. cbn [fst] in Hp. destruct up; by rewrite Hc.
Qed.

Definition streamed (st : osd_state) (s : nat) : Prop := (s < length (o_streams st))%nat /\ os_jpeg (stream_at st s) = false.

Lemma streamed_same st st' s : o_streams st' = o_streams st -> streamed st s -> streamed st' s.
Proof. unfold streamed, stream_at. by intros ->. Qed.

(** One entry of the directory, for either loop. *)
Lemma entry_inv merge prewiden st s entry name layer : merge_ok merge -> prewiden_ok prewiden -> (forall t st, o_streams (merge s t st) = o_streams st) ->
  inv st -> streamed st s -> entry_name s entry = Some name -> rvd_osd_find_region st s name = None ->
  inv (probe_shm_dims env s name st).1 /\ streamed (probe_shm_dims env s name st).1 s /\
  forall w h r st2, (probe_shm_dims env s name st).2 = Some (w, h) -> alloc_region_slot s (probe_shm_dims env s name st).1 = Some (r, st2) ->
    let st3 := build_region env isp merge prewiden s r name w h (layer r) st2 in inv st3 /\ streamed st3 s.
Proof.
  intros Hm Hp Hms Hi Hst He Hf. destruct (probe_inv st s name Hi) as (Hi1 & Hs1 & Hdim).
  pose proof (streamed_same st _ s (probe_streams st s name) Hst) as Hst1. split; [done|]. split; [done|].
  intros w h r st2 Hwh Hal. destruct (alloc_inv _ s r st2 Hi1 (proj1 Hst1) (proj2 Hst1) Hal) as (Hi2 & Hr2 & Hn2 & Hstr & Hlen). cbv zeta. split.
  - apply build_inv; [done | done | done | by eapply entry_name_valid | done | | by intros HK; apply (Hdim HK)].
    rewrite Hn2. destruct (same_tables_at _ _ s Hs1) as (Hrow & _). rewrite Hrow. apply find_none_names; [apply Hst | done].
  - assert (Hst2 : streamed st2 s) by (split; [rewrite Hlen; apply Hst1 | rewrite Hstr; apply Hst1]).
    eapply streamed_same; [|exact Hst2]. by apply build_streams.
Qed.

Lemma init_entries_inv s entries layer st : inv st -> streamed st s -> inv (init_entries env isp s entries layer st) /\ streamed (init_entries env isp s entries layer st) s.
Proof.
  revert layer st. induction entries as [|e es IH]; intros layer st Hi Hst; [done|]. cbn [init_entries].
  destruct (entry_name s e) as [name|] eqn:He; [|by apply IH]. destruct (rvd_osd_find_region st s name) eqn:Hf; [by apply IH|].
  destruct (entry_inv (merge_init env) prewiden_init st s e name (fun _ => layer) (fun st s t g => merge_init_inv st s t g) prewiden_init_ok
    (fun t st => proj1 (merge_streams st s t)) Hi Hst He Hf) as (Hi1 & Hst1 & Hb).
  destruct (probe_shm_dims env s name st) as [st1 dims]. cbn [fst snd] in *. destruct dims as [[w h]|]; [|by apply IH].
  destruct (alloc_region_slot s st1) as [[r st2]|] eqn:Hal; [|done]. destruct (Hb w h r st2 eq_refl eq_refl). by apply IH.
Qed.

Lemma scan_entries_inv s entries st : inv st -> streamed st s -> inv (scan_entries env isp s entries st) /\ streamed (scan_entries env isp s entries st) s.
Proof.
  revert st. induction entries as [|e es IH]; intros st Hi Hst; [done|]. cbn [scan_entries].
  destruct (entry_name s e) as [name|] eqn:He; [|by apply IH]. destruct (rvd_osd_find_region st s name) eqn:Hf; [by apply IH|].
  destruct (entry_inv (merge_scan env) prewiden_scan st s e name (fun r => Z.of_nat r) (fun st s t g => merge_scan_inv st s t g) prewiden_scan_ok
    (fun t st => proj2 (merge_streams st s t)) Hi Hst He Hf) as (Hi1 & Hst1 & Hb).
  destruct (probe_shm_dims env s name st) as [st1 dims]. cbn [fst snd] in *. destruct dims as [[w h]|]; [|by apply IH].
  destruct (alloc_region_slot s st1) as [[r st2]|] eqn:Hal; [|done]. destruct (Hb w h r st2 eq_refl eq_refl). by apply IH.
Qed.

Lemma scan_inv s st : inv st -> streamed st s -> inv (scan_new_shm env isp s st).
Proof.
  intros Hi Hst. unfold scan_new_shm. destruct (negb _); [done|]. destruct (or_dir _); [|by apply inv_asked].
  apply scan_entries_inv; [by apply inv_asked | done].
Qed.

Lemma fold_inv {A} (f : osd_state -> A -> osd_state) l st : (forall st x, inv st -> inv (f st x)) -> inv st -> inv (fold_left f l st).
Proof. intros Hf. revert st. induction l as [|x l IH]; intros st Hi; [done|]. cbn. apply IH. by apply Hf. Qed.

Lemma each_region_inv s f st : (forall r st, inv st -> inv (f r st)) -> inv st -> inv (each_region s f st).
Proof. intros Hf. apply fold_inv. intros st' r. apply Hf. Qed.

(** *** The check *)

Lemma composite_inv st s r u g : inv st -> row st s !! r = Some g -> 0 <= rg_handle g ->
  inv (composite_uptime env isp s r u st) /\ kept s r g (composite_uptime env isp s r u st).
Proof.
  intros Hi Hr Hh. unfold composite_uptime. rewrite Hr. assert (Hid : inv st /\ kept s r g st) by (split; [done | by eapply kept_same]).
  destruct (row st s !! u) as [ug|]; [|done]. destruct (rg_shm ug) as [shm|]; [|done]. unfold now.
  destruct (or_active (env (o_clock st)) shm) as [[bm w] h] eqn:Hact. cbv zeta.
  set (st1 := match bm with Some _ => _ | None => _ end).
  assert (H1 : inv st1 /\ kept s r g st1).
  { assert (Hi1 : inv (asked st)) by (by apply inv_asked). assert (Hk1 : kept s r g (asked st)) by (by eapply kept_same). subst st1.
    destruct bm as [bm|]; [|done]. destruct (rg_buf g) as [buf|] eqn:Hb; [|done]. destruct (_ && _ && _ && _) eqn:Hfit; [|done].
    rewrite !andb_true_iff in Hfit. destruct Hfit as [[[Hw%Z.ltb_lt Hhh%Z.ltb_lt] Hww%Z.leb_le] Hhw%Z.leb_le].
    apply put_inv; [done | done | by eexists |]. intros HK. destruct (inv_at _ _ _ _ Hi Hr) as [_ H2]. destruct (H2 HK) as (Hgw & Hgh & Hlen).
    specialize (Hlen buf Hb). destruct (copy_rows_ok (rg_width g) (rg_width g - w) w h bm buf) as (b & -> & Hl); [lia.. | nia |].
    exists b. split; [done|]. intros old Ho. congruence. }
  clearbody st1. destruct H1 as [Hi1 Hk1]. pose proof Hk1 as (g1 & Hr1 & Hg1 & _). destruct (region_push_inv st1 s r g1 Hi1 Hr1) as [Hi2 Hs2]; [lia|].
  split; [done|]. eapply kept_trans; [exact Hk1|]. intros g' Hg'. by eapply kept_same.
Qed.

Lemma update_inv st s r g : inv st -> row st s !! r = Some g -> 0 <= rg_handle g -> inv (update_region env isp s r st).
Proof.
  intros Hi Hr Hh. unfold update_region. rewrite Hr. cbv zeta. destruct (read_inv st s r g Hi Hr Hh) as [Hi1 Hk1].
  set (st1 := read_shm_and_push env isp s r st) in *. clearbody st1. pose proof Hk1 as (g1 & Hr1 & Hg1 & _).
  set (st2 := match hosts_uptime st1 s g with Some _ => _ | None => _ end).
  assert (H2 : inv st2 /\ kept s r g st2).
  { subst st2. destruct (hosts_uptime st1 s g) as [[u ug]|]; [|done]. destruct (composite_inv st1 s r u g1 Hi1 Hr1) as [H Hk]; [lia|].
    split; [done|]. eapply kept_trans; [exact Hk1|]. intros g' Hg'. rewrite Hr1 in Hg'. by injection Hg' as <-. }
  clearbody st2. destruct H2 as [Hi2 (g2 & Hr2 & Hg2 & _)]. destruct (_ && negb _); [done|]. destruct (rg_shown g); [done|].
  apply (show_inv st2 s r g2); [done | done | lia].
Qed.

Lemma check_region_inv st s r : inv st -> inv (check_region env isp s r st).
Proof.
  intros Hi. unfold check_region. destruct (row st s !! r) as [g|] eqn:Hr; [|done]. destruct (rg_shm g); [|done]. destruct (negb _); [done|]. cbv zeta.
  assert (Hi1 : inv (asked st)) by (by apply inv_asked). destruct (Z.ltb_spec (rg_handle g) 0); [done|].
  destruct (or_dirty _ _); [by apply (update_inv _ s r g)|]. destruct (hosts_uptime _ _ _) as [[u ug]|]; [|done].
  destruct (rg_shm ug); [|done]. destruct (or_dirty _ _); [|by apply inv_asked]. apply (update_inv _ s r g); [by apply inv_asked | done | done].
Qed.

Lemma close_streams st s r : o_streams (close_shm s r st) = o_streams st.
Proof. unfold close_shm. by destruct (_ ≫= _). Qed.

Lemma push_streams st s r : o_streams (push_region isp s r st) = o_streams st.
Proof. unfold push_region. by repeat case_match. Qed.

Lemma put_streams st s r res : o_streams (put_buf s r res st) = o_streams st.
Proof. by destruct res. Qed.

Lemma read_streams st s r : o_streams (read_shm_and_push env isp s r st) = o_streams st.
Proof.
  unfold read_shm_and_push. destruct (row st s !! r) as [g|]; [|done]. destruct (rg_buf g); [|done]. destruct (rg_shm g); [|done].
  destruct (or_active _ _) as [[[bm|] w] h]; [|done]. cbv zeta. destruct (_ || _); [done|]. by rewrite push_streams, put_streams.
Qed.

Lemma show_streams st s r : o_streams (show_region isp s r st) = o_streams st.
Proof. unfold show_region. destruct (row st s !! r); [|done]. by destruct (unit_of _ _ _). Qed.

Lemma resize_streams st s r w h : o_streams (resize_region env isp s r w h st) = o_streams st.
Proof.
  unfold resize_region. cbv zeta. destruct (negb _); [done|]. set (st2 := upd_region _ _ _ _). change (o_streams st) with (o_streams st2). clearbody st2.
  destruct (row st2 s !! r) as [g|]; [|done]. destruct (unit_of _ _ _); [|done]. by destruct (rg_shown g).
Qed.

Lemma release_one_streams st s r : o_streams (release_one isp s r st) = o_streams st.
Proof.
  unfold release_one. change (o_streams (upd_region s r ?f ?x)) with (o_streams x). rewrite <- (close_streams st s r).
  generalize (close_shm s r st). intros st1. unfold destroy_region_hw. destruct (row st1 s !! r) as [g|]; [|done]. destruct (_ <? _); [done|].
  cbv zeta. by destruct (unit_of _ _ _).
Qed.

Lemma release_streams st s r : o_streams (release_region isp s r st) = o_streams st.
Proof.
  unfold release_region. destruct (row st s !! r) as [g|]; [|done]. cbv zeta. rewrite release_one_streams.
  destruct (bool_decide _); [|done]. destruct (rvd_osd_find_region _ _ _) as [[u ug]|]; [|done]. destruct (_ <? _); [|done]. apply release_one_streams.
Qed.

Lemma opened_streams st s r shm : o_streams (opened_shm env isp s r shm st) = o_streams st.
Proof.
  unfold opened_shm. destruct (row st s !! r) as [g|]; [|done]. destruct (_ <? _); [done|]. destruct (or_active _ _) as [[bm w] h]. cbv zeta.
  set (st1 := if _ && _ && _ && _ then _ else _). assert (H1 : o_streams st1 = o_streams st) by (subst st1; destruct (_ && _ && _ && _); [by rewrite resize_streams | done]).
  destruct (_ && negb _); [by rewrite read_streams|]. destruct (rg_shown g); [|rewrite show_streams]; by rewrite read_streams.
Qed.

Lemma try_open_streams st s r : o_streams (try_open_shm env isp s r st) = o_streams st.
Proof.
  unfold try_open_shm. destruct (row st s !! r) as [g|]; [|done]. destruct (negb _); [done|]. cbv zeta.
  set (st1 := match rg_shm g with Some _ => asked st | None => st end). assert (H1 : o_streams st1 = o_streams st) by (subst st1; by destruct (rg_shm g)).
  clearbody st1. destruct (negb _); [done|]. destruct (or_open _ _ _).
  - rewrite opened_streams. change (o_streams (upd_region s r ?f (call ?c (asked ?x)))) with (o_streams x). by rewrite close_streams.
  - destruct (or_stat _ _ _); [|rewrite release_streams]; cbn; by rewrite close_streams.
Qed.

Lemma fold_streams {A} (f : osd_state -> A -> osd_state) l st : (forall st x, o_streams (f st x) = o_streams st) -> o_streams (fold_left f l st) = o_streams st.
Proof. intros Hf. revert st. induction l as [|x l IH]; intros st; [done|]. cbn. by rewrite IH, Hf. Qed.

Lemma each_stream_inv f st : (forall s st, inv st -> streamed st s -> inv (f s st) /\ o_streams (f s st) = o_streams st) -> inv st -> inv (each_stream f st).
Proof.
  intros Hf Hi. unfold each_stream. assert (H : forall l st1, inv st1 -> o_streams st1 = o_streams st -> (forall s, s ∈ l -> (s < length (o_streams st))%nat) ->
    inv (fold_left (fun st s => if os_jpeg (stream_at st s) then st else f s st) l st1)).
  { induction l as [|s l IH]; intros st1 H1 Hs Hl; [done|]. cbn. assert (Hin : (s < length (o_streams st))%nat) by (apply Hl; by left).
    assert (Hl' : forall s', s' ∈ l -> (s' < length (o_streams st))%nat) by (intros s' ?; apply Hl; by right).
    destruct (os_jpeg (stream_at st1 s)) eqn:Ej; [by apply IH|].
    destruct (Hf s st1 H1) as [H2 H3]; [split; [by rewrite Hs | done]|]. apply IH; [done | congruence | done]. }
  apply H; [done | done |]. intros s Hs. apply elem_of_seq in Hs. lia.
Qed.

Lemma entries_streams s entries : (forall layer st, o_streams (init_entries env isp s entries layer st) = o_streams st) /\
  (forall st, o_streams (scan_entries env isp s entries st) = o_streams st).
Proof.
  assert (Ha : forall st r st', alloc_region_slot s st = Some (r, st') -> o_streams st' = o_streams st).
  { intros st r st'. unfold alloc_region_slot. destruct (list_find _ _) as [[]|]; [by intros [= _ <-]|]. destruct (_ <? _); [by intros [= _ <-] | done]. }
  induction entries as [|e es [IH1 IH2]]; [done|]. split; intros; cbn [init_entries scan_entries].
  all: destruct (entry_name s e) as [name|]; [|done]; destruct (rvd_osd_find_region st s name); [done|].
  all: pose proof (probe_streams st s name) as Hp; destruct (probe_shm_dims env s name st) as [st1 dims]; cbn [fst] in Hp.
  all: destruct dims as [[w h]|]; [|by rewrite ?IH1, ?IH2]; destruct (alloc_region_slot s st1) as [[r st2]|] eqn:Hal; [|done].
  all: apply Ha in Hal; rewrite ?IH1, ?IH2, build_streams; [congruence|]; intros t st'; apply merge_streams.
Qed.

Lemma scan_streams st s : o_streams (scan_new_shm env isp s st) = o_streams st.
Proof. unfold scan_new_shm. destruct (negb _); [done|]. destruct (or_dir _); [|done]. by rewrite (proj2 (entries_streams _ _)). Qed.

Lemma composite_streams st s r u : o_streams (composite_uptime env isp s r u st) = o_streams st.
Proof.
  unfold composite_uptime. destruct (row st s !! r) as [g|]; [|done]. destruct (row st s !! u) as [ug|]; [|done]. destruct (rg_shm ug); [|done].
  destruct (or_active _ _) as [[bm w] h]. cbv zeta. rewrite push_streams. destruct bm; [|done]. destruct (rg_buf g); [|done]. destruct (_ && _); [|done].
  by rewrite put_streams.
Qed.

Lemma check_region_streams st s r : o_streams (check_region env isp s r st) = o_streams st.
Proof.
  assert (Hu : forall st, o_streams (update_region env isp s r st) = o_streams st).
  { clear st. intros st. unfold update_region. destruct (row st s !! r) as [g|]; [|done]. cbv zeta.
    set (st2 := match hosts_uptime _ s g with Some _ => _ | None => _ end).
    assert (H2 : o_streams st2 = o_streams st) by (subst st2; destruct (hosts_uptime _ s g) as [[]|]; rewrite ?composite_streams; apply read_streams).
    clearbody st2. destruct (_ && _); [done|]. destruct (rg_shown g); [done|]. by rewrite show_streams. }
  unfold check_region. destruct (row st s !! r) as [g|]; [|done]. destruct (rg_shm g); [|done]. destruct (negb _); [done|]. cbv zeta.
  destruct (_ <? _); [done|]. destruct (or_dirty _ _); [by rewrite Hu|]. destruct (hosts_uptime _ _ _) as [[u ug]|]; [|done].
  destruct (rg_shm ug); [|done]. destruct (or_dirty _ _); [by rewrite Hu | done].
Qed.

Lemma check_inv enabled st : inv st -> inv (rvd_osd_check env isp enabled st).
Proof.
  intros Hi. unfold rvd_osd_check. destruct (_ || _); [done|]. cbv zeta.
  assert (Hset : forall n, inv (st <| o_retry := n |>)) by (intros n; by eapply inv_same; [| |exact Hi]).
  apply each_stream_inv.
  - intros s st1 H1 _. split; [|by apply fold_streams; intros; apply check_region_streams]. apply each_region_inv; [|done]. intros. by apply check_region_inv.
  - destruct (_ <=? _); [|apply Hset]. apply each_stream_inv; [|apply (Hset 0)]. intros s st1 H1 Hst.
    assert (Hi1 : inv (each_region s (try_open_shm env isp s) st1)) by (apply each_region_inv; [intros; by apply try_open_inv | done]).
    assert (Hs1 : o_streams (each_region s (try_open_shm env isp s) st1) = o_streams st1) by (apply fold_streams; intros; apply try_open_streams).
    split; [|by rewrite scan_streams]. apply scan_inv; [done | by eapply streamed_same].
Qed.

(** *** The other operations *)

Lemma thread_start_inv st : inv st -> inv (thread_start isp st).
Proof.
  intros Hi. unfold thread_start. apply each_stream_inv; [|done]. intros s st1 H1 _. split.
  - apply each_region_inv; [|done]. intros r st2 H2. destruct (row st2 s !! r) as [g|] eqn:Hr; [|done].
    destruct (negb _ || _ || _) eqn:E; [done|]. rewrite !orb_false_iff in E. destruct E as [[_ ?%Z.ltb_ge] _]. by apply (show_inv st2 s r g).
  - apply fold_streams. intros st2 r. destruct (row st2 s !! r); [|done]. destruct (_ || _ || _); [done | apply show_streams].
Qed.

Lemma on_cover_inv st s c : inv st -> 0 <= cover_at st s -> on_region Ipu (cover_at st s) c -> inv (call c st).
Proof.
  intros Hi Hh Hc. eapply inv_same; [| |exact Hi]; [done|]. intros l Hl.
  destruct Hi as [Ho Hw].
  assert (Hin : Res_region Ipu (cover_at st s) ∈ owned isp st).
  { unfold owned. apply elem_of_app. right. apply list_elem_of_bind. exists (cover_at st s). unfold cover_at in *. split.
    - unfold cover_res. apply Z.leb_le in Hh. rewrite Hh. by left.
    - destruct (o_privacy_handles st !! s) eqn:E; [|cbn in Hh; lia]. by eapply list_elem_of_lookup_2. }
  destruct Ho as (l1 & Hl1 & Hp1). destruct Hl as (l2 & Hl2 & Hp2). rewrite Hl1 in Hl2. injection Hl2 as <-.
  apply holds_call_nil; [|by exists l1]. rewrite <- Hp1, Hp2 in Hin.
  destruct c; cbn in Hc |- *; try done; destruct Hc as [? ->]; subst; (split; [done | exact Hin]).
Qed.

Lemma set_privacy_stream_inv st s b : inv st -> inv (set_privacy_stream isp s b st).
Proof.
  intros Hi. unfold set_privacy_stream. destruct (os_jpeg _); [done|]. destruct (_ && _ && _); [done|]. cbv zeta.
  set (st1 := if stream_isp isp st s then call _ st else _).
  assert (H1 : inv st1 /\ same_tables st st1).
  { subst st1. destruct (stream_isp isp st s); [split; [by apply inv_call_mask | done]|]. fold (cover_at st s).
    destruct (Z.leb_spec 0 (cover_at st s)); [|done]. split; [|done]. by eapply on_cover_inv. }
  clearbody st1. destruct H1 as [Hi1 _]. set (st2 := match rvd_osd_find_region st1 s _ with Some _ => _ | None => _ end).
  assert (H2 : inv st2); [|by eapply inv_same; [| |exact H2]]. subst st2. destruct (rvd_osd_find_region st1 s _) as [[r g]|] eqn:Hf; [|done].
  apply find_region_row in Hf as (Hr & _). destruct (Z.leb_spec 0 (rg_handle g)); [|done].
  by eapply inv_on; [exact Hi1 | exact Hr | done |].
Qed.

Lemma set_privacy_inv enabled st b n : inv st -> inv (rvd_osd_set_privacy isp enabled b n st).
Proof.
  intros Hi. unfold rvd_osd_set_privacy. destruct (negb _); [done|]. destruct (_ && _); [by apply set_privacy_stream_inv|].
  apply fold_inv; [|done]. intros st' s. apply set_privacy_stream_inv.
Qed.

Lemma osd_show_inv st n name v : inv st -> inv (osd_show isp n name v st).1.
Proof.
  intros Hi. unfold osd_show. destruct (_ || _ || _ || _); [done|]. cbv zeta. destruct (rvd_osd_find_region _ _ _) as [[r g]|] eqn:Hf; [|done].
  apply find_region_row in Hf as (Hr & _). destruct (Z.ltb_spec (rg_handle g) 0); [done|]. cbn [fst].
  set (c := Region_show _ _ _ _). assert (H1 : inv (call c st)) by (by eapply inv_on; [exact Hi | exact Hr | done |]).
  eapply inv_record; [exact H1 | exact Hr | done | done | | by left]. apply (inv_at _ _ _ _ Hi Hr).
Qed.

Lemma osd_position_inv st n name pos : inv st -> inv (osd_position isp n name pos st).1.
Proof.
  intros Hi. unfold osd_position. destruct (_ || _ || _ || _); [done|]. cbv zeta. set (st1 := st <| o_cfg := _ |>).
  assert (H1 : inv st1) by (by eapply inv_same; [| |exact Hi]). clearbody st1.
  destruct (rvd_osd_find_region _ _ _) as [[r g]|] eqn:Hf; [|done]. apply find_region_row in Hf as (Hr & _).
  destruct (Z.ltb_spec (rg_handle g) 0); [done|]. destruct (rvd_osd_calc_position _ _ _ _ _) as [x y]. cbn [fst].
  by eapply inv_on; [exact H1 | exact Hr | done |].
Qed.

(** *** Tear-down *)

Lemma owned_cover st s h : (s < length (o_privacy_handles st))%nat -> exists rest,
  owned isp st ≡ₚ cover_res (cover_at st s) ++ rest /\ owned isp (set_privacy_handle s h st) ≡ₚ cover_res h ++ rest.
Proof.
  intros Hs. destruct (o_privacy_handles st !! s) as [old|] eqn:E; [|by apply lookup_ge_None_1 in E; lia].
  unfold cover_at. rewrite E. cbn [default]. unfold owned, set_privacy_handle. cbn [o_privacy_handles o_streams].
  change (row (st <| o_privacy_handles := ?x |>)) with (row st). set (A := seq 0 _ ≫= _).
  change (seq 0 (length (o_streams (st <| o_privacy_handles := ?x |>))) ≫= _) with A.
  exists (A ++ (take s (o_privacy_handles st) ≫= cover_res) ++ (drop (S s) (o_privacy_handles st) ≫= cover_res)).
  assert (H : forall l v, l !! s = Some v -> A ++ (l ≫= cover_res) ≡ₚ cover_res v ++ A ++ (take s l ≫= cover_res) ++ (drop (S s) l ≫= cover_res)).
  { intros l v Hv. rewrite <- (take_drop_middle l s v Hv) at 1. rewrite bind_app, bind_cons. rewrite (Permutation_app_swap_app _ (cover_res v)).
    apply Permutation_app_swap_app. }
  split; [by apply H|]. cbn. rewrite (H (<[s:=h]> (o_privacy_handles st)) h) by (apply list_lookup_insert_eq; lia).
  by rewrite take_insert_ge, drop_insert_lt by lia.
Qed.

Lemma cover_at_set st s h s' : (s < length (o_privacy_handles st))%nat -> cover_at (set_privacy_handle s h st) s' = if decide (s' = s) then h else cover_at st s'.
Proof.
  intros Hs. unfold cover_at, set_privacy_handle. cbn. case_decide; [subst; by rewrite list_lookup_insert_eq by lia | by rewrite list_lookup_insert_ne].
Qed.

Lemma cover_lt st s : inv st -> streamed st s -> (s < length (o_privacy_handles st))%nat.
Proof. intros (_ & (_ & ->) & _) [? _]. done. Qed.

(** A step on a stream's cover: calls that trade it, then its handle. *)
Lemma inv_cover st st1 s h : inv st -> streamed st s -> same_tables st st1 -> (stream_isp isp st s = true -> h < 0) ->
  (forall rest, holds st (cover_res (cover_at st s) ++ rest) -> holds st1 (cover_res h ++ rest)) -> inv (set_privacy_handle s h st1).
Proof.
  intros Hi Hst Hsame Hisp Hstep. pose proof (cover_lt _ _ Hi Hst) as Hl. pose proof Hsame as (H1 & _ & H3 & _).
  assert (Hw1 : wf st1) by (eapply same_tables_wf; [exact Hsame | apply Hi]). destruct Hi as [Hh _].
  destruct (owned_cover st s h Hl) as (rest & Ho & _). destruct (same_tables_at st st1 s Hsame) as (_ & Hstr & Hcov & _). split.
  - rewrite Ho in Hh. apply Hstep in Hh. destruct (owned_cover st1 s h) as (rest1 & Ho1 & Ho2); [by rewrite H3|].
    apply (holds_trace st1); [done|]. eapply holds_perm; [|exact Hh]. rewrite Ho2. f_equiv.
    rewrite (same_tables_owned _ _ Hsame), Ho, Hcov in Ho1. by apply Permutation_app_inv_l in Ho1.
  - destruct Hw1 as (W1 & W2 & W3 & W4 & W5). rewrite <- H3 in Hl. split; [|split; [exact W2|split; [|split; [|exact W5]]]].
    + cbn. by rewrite length_insert.
    + intros s' Hj. rewrite cover_at_set by done. case_decide; [|by apply W3]. subst. destruct Hst as [_ Hj'].
      change (os_jpeg (stream_at st1 s) = true) in Hj. congruence.
    + intros s' Hj. rewrite cover_at_set by done. case_decide; [|by apply W4]. subst. apply Hisp. unfold stream_isp in *.
      change (stream_at (set_privacy_handle s h st1) s) with (stream_at st1 s) in Hj. by rewrite <- Hstr.
Qed.

Lemma deinit_cover_inv st s : inv st -> streamed st s -> inv (deinit_cover isp s st) /\ cover_at (deinit_cover isp s st) s < 0 /\ 
  o_streams (deinit_cover isp s st) = o_streams st /\ o_regions (deinit_cover isp s st) = o_regions st.
Proof.
  intros Hi Hst. unfold deinit_cover. cbv zeta. set (st1 := if _ && _ then _ else st).
  assert (H1 : inv st1 /\ same_tables st st1) by (subst st1; destruct (_ && _); [split; [by apply inv_call_mask | done] | done]).
  clearbody st1. destruct H1 as [Hi1 Hs1]. fold (cover_at st1 s). destruct (same_tables_at _ _ s Hs1) as (Hrow & Hstr & Hcov & _).
  assert (Hst1 : streamed st1 s) by (destruct Hs1 as (E & _); by eapply streamed_same).
  destruct (Z.leb_spec 0 (cover_at st1 s)) as [Hc|Hc]; [|split; [done|]; split; [lia|]; by destruct Hs1 as (A & B & C & D)].
  destruct (stream_isp isp st1 s) eqn:E; [destruct Hi1 as (_ & _ & _ & _ & W4 & _); specialize (W4 s E); lia|]. split.
  - eapply (inv_cover st1); [done | done | done | by rewrite E |]. intros rest. unfold cover_res. apply Z.leb_le in Hc. rewrite Hc. cbn [app]. intros Hh.
    apply (holds_call _ _ [Res_region Ipu (cover_at st1 s)] []); [done|].
    do 2 (apply (holds_call _ _ [Res_region Ipu (cover_at st1 s)] [Res_region Ipu (cover_at st1 s)]); [split; [done | by left]|]). exact Hh.
  - split; [|by destruct Hs1 as (A & B & C & D)]. unfold cover_at. cbn. rewrite list_lookup_insert_eq; [cbn; lia|]. apply (cover_lt st1 s Hi1 Hst1).
Qed.

Lemma upd_other st s r f r' : r' <> r -> row (upd_region s r f st) s !! r' = row st s !! r'.
Proof. intros Hne. rewrite row_upd, decide_True by done. by apply list_lookup_alter_ne. Qed.

Lemma close_other st s r r' : r' <> r -> row (close_shm s r st) s !! r' = row st s !! r'.
Proof. intros Hne. unfold close_shm. destruct (_ ≫= _); [by rewrite upd_other | done]. Qed.

Lemma destroy_other st s r r' : r' <> r -> row (destroy_region_hw isp s r st) s !! r' = row st s !! r' .
Proof.
  intros Hne. unfold destroy_region_hw. destruct (row st s !! r) as [g|]; [|done]. destruct (_ <? _); [done|]. cbv zeta.
  rewrite upd_other by done. by destruct (unit_of _ _ _).
Qed.

(** The region holds nothing any more. *)
Definition gone (g : osd_region) : Prop := rg_handle g < 0 /\ rg_shm g = None.

Lemma deinit_region_inv st s r g : inv st -> row st s !! r = Some g ->
  inv (deinit_region isp s r st) /\ o_streams (deinit_region isp s r st) = o_streams st /\ (exists g', row (deinit_region isp s r st) s !! r = Some g' /\ gone g') /\
  (forall r', r' <> r -> row (deinit_region isp s r st) s !! r' = row st s !! r').
Proof.
  intros Hi Hr. unfold deinit_region. rewrite Hr. cbv zeta. set (st1 := if rg_active g then _ else st).
  assert (H1 : inv st1 /\ o_streams st1 = o_streams st /\ (exists g1, row st1 s !! r = Some g1 /\ rg_handle g1 < 0) /\ (forall r', r' <> r -> row st1 s !! r' = row st s !! r')).
  { subst st1. destruct (rg_active g) eqn:Ha.
    - destruct (destroy_inv st s r g Hi Hr) as [H1 (g1 & Hg1 & Hh1 & _)]. split; [done|]. split; [|split; [by exists g1 | intros; by apply destroy_other]].
      unfold destroy_region_hw. rewrite Hr. destruct (_ <? _); [done|]. cbv zeta. by destruct (unit_of _ _ _).
    - split; [done|]. split; [done|]. split; [|done]. exists g. split; [done|]. destruct (inv_at _ _ _ _ Hi Hr) as [H _]. by destruct (H Ha). }
  clearbody st1. destruct H1 as (Hi1 & Hs1 & (g1 & Hr1 & Hh1) & Ho1). destruct (close_inv st1 s r g1 Hi1 Hr1) as [Hi2 Hr2]. split; [|split; [|split]].
  - eapply inv_region; [exact Hi2 | exact Hr2 | done | | | by right; left].
    + intros rest. unfold region_res. cbn. destruct (Z.leb_spec 0 (rg_handle g1)); [lia | done].
    + split; [done|]. intros HK. destruct (inv_at _ _ _ _ Hi2 Hr2) as [_ H2]. destruct (H2 HK) as (Hw & Hh & _). by split.
  - cbn. by rewrite close_streams.
  - eexists. split; [by apply row_after | done].
  - intros r' Hne. rewrite upd_other, close_other by done. by apply Ho1.
Qed.

Lemma deinit_regions_inv st s n : inv st -> n = length (row st s) ->
  let st' := each_region s (deinit_region isp s) st in inv st' /\ o_streams st' = o_streams st /\ Forall gone (row st' s).
Proof.
  intros Hi ->. cbv zeta. unfold each_region.
  assert (H : forall k, (k <= length (row st s))%nat -> let st' := fold_left (fun st r => deinit_region isp s r st) (seq 0 k) st in
    inv st' /\ o_streams st' = o_streams st /\ (forall r, (r < k)%nat -> exists g, row st' s !! r = Some g /\ gone g) /\ (forall r, (k <= r)%nat -> row st' s !! r = row st s !! r)).
  { induction k as [|k IH]; cbv zeta; intros Hk; [split_and!; [done | done | lia | done]|]. rewrite seq_S, fold_left_app. cbn [fold_left Nat.add].
    cbv zeta in IH. destruct IH as (H1 & H2 & H3 & H4); [lia|]. set (st1 := fold_left _ _ st) in *. clearbody st1.
    destruct (lookup_lt_is_Some_2 (row st s) k) as [g Hg]; [lia|]. rewrite <- H4 in Hg by done.
    destruct (deinit_region_inv st1 s k g H1 Hg) as (G1 & G2 & G3 & G4). split_and!; [done | congruence | |].
    - intros r Hr. destruct (decide (r = k)) as [->|Hne]; [done|]. rewrite G4 by done. apply H3. lia.
    - intros r Hr. rewrite G4 by lia. apply H4. lia. }
  destruct (H _ (le_n _)) as (H1 & H2 & H3 & H4). split; [done|]. split; [done|]. apply Forall_lookup_2. intros r g Hr.
  destruct (decide (r < length (row st s))%nat) as [Hlt|]; [destruct (H3 r Hlt) as (g' & Hg' & ?); congruence|].
  rewrite H4 in Hr by lia. apply lookup_lt_Some in Hr. lia.
Qed.

Lemma gone_res u row : Forall gone row -> row_res u row = [].
Proof.
  induction 1 as [|g l [H1 H2] _ IH]; [done|]. unfold row_res in *. rewrite bind_cons, IH. unfold region_res. rewrite H2.
  destruct (Z.leb_spec 0 (rg_handle g)); [lia | done].
Qed.

(** Forgetting a table that holds nothing. *)
Lemma clear_row_inv st s : inv st -> Forall gone (row st s) -> inv (st <| o_regions := <[s := []]> (o_regions st) |>) /\ row (st <| o_regions := <[s := []]> (o_regions st) |>) s = [].
Proof.
  intros [Hh (W1 & W2 & W3 & W4 & W5)] Hg. set (st' := st <| o_regions := _ |>).
  assert (Hrow : forall s', row st' s' = if decide (s' = s) then [] else row st s').
  { intros s'. unfold row, st'. cbn. case_decide; [|by rewrite list_lookup_insert_ne]. subst. destruct (decide (s < length (o_regions st))%nat).
    - by rewrite list_lookup_insert_eq.
    - by rewrite lookup_ge_None_2 by (rewrite length_insert; lia). }
  split; [|by rewrite Hrow, decide_True]. split.
  - assert (Ho : owned isp st' = owned isp st); [|change (holds st (owned isp st')); by rewrite Ho].
    unfold owned. f_equal. apply list_bind_ext; [|done]. intros s'. rewrite Hrow. change (unit_of isp st' s') with (unit_of isp st s').
    case_decide; [|done]. subst. by rewrite (gone_res _ _ Hg).
  - split; [|split; [|split; [|split]]]; [| | |exact W4|exact W5].
    + cbn. by rewrite length_insert.
    + intros s'. rewrite Hrow. case_decide; [|apply W2]. split; [constructor|]. split; [constructor | done].
    + intros s' Hj. rewrite Hrow. case_decide; [|by apply W3]. split; [done|]. by apply W3.
Qed.

Lemma deinit_inv st s : inv st -> (s < length (o_streams st))%nat ->
  let st' := rvd_osd_deinit_stream isp s st in inv st' /\ o_streams st' = o_streams st /\ row st' s = [] /\ cover_at st' s < 0.
Proof.
  intros Hi Hs. cbv zeta. unfold rvd_osd_deinit_stream. destruct (os_jpeg (stream_at st s)) eqn:Ej; [pose proof (proj2 Hi) as (_ & _ & W & _); by destruct (W s Ej)|].
  cbv zeta. destruct (deinit_regions_inv st s _ Hi eq_refl) as (H1 & H2 & H3). destruct (clear_row_inv _ s H1 H3) as [H4 H5].
  set (st1 := _ <| o_regions := _ |>) in *. assert (Hs1 : o_streams st1 = o_streams st) by exact H2. clearbody st1.
  destruct (deinit_cover_inv st1 s H4 (streamed_same st st1 s Hs1 (conj Hs Ej))) as (H6 & H7 & H8 & H9). split; [done|]. split; [congruence|]. split; [|done].
  unfold row in *. rewrite H9. exact H5.
Qed.

(** *** Starting a stream *)

Lemma init_cover_inv st s : inv st -> streamed st s -> cover_at st s < 0 -> inv (init_cover env isp s st).
Proof.
  intros Hi Hst Hc. unfold init_cover, now.
  assert (Hnone : forall st1, same_tables st st1 -> (forall l, holds st l -> holds st1 l) -> inv (set_privacy_handle s (- 1) st1)).
  { intros st1 Hs Hh. apply (inv_cover st); [done | done | done | lia |]. intros rest. unfold cover_res. destruct (Z.leb_spec 0 (cover_at st s)); [lia|]. apply Hh. }
  destruct (stream_isp isp st s) eqn:E; [by apply Hnone|]. destruct (or_create _ Ipu) as [ret ph] eqn:Hcr. cbv zeta.
  destruct ret; [|by apply Hnone..]. apply Hcreate in Hcr. apply (inv_cover st); [done | done | done | by rewrite E |].
  intros rest. unfold cover_res. destruct (Z.leb_spec 0 (cover_at st s)); [lia|]. apply Z.leb_le in Hcr. rewrite Hcr. intros Hh. cbn [app] in *.
  do 3 (apply (holds_call _ _ [Res_region Ipu ph] [Res_region Ipu ph]); [split; [done | by left]|]).
  by apply (holds_call (asked st) _ [] [Res_region Ipu ph]).
Qed.

(** What the loop over the directory leaves alone. *)
Lemma init_entries_frame {A} (P : osd_state -> A) s entries layer st :
  (forall st, P (asked st) = P st) -> (forall c st, P (call c st) = P st) -> (forall l st, P (st <| o_regions := l |>) = P st) ->
  (forall b st, P (st <| o_unsupported := b |>) = P st) -> P (init_entries env isp s entries layer st) = P st.
Proof.
  intros Hask Hcall Hreg Huns. assert (Hupd : forall s r f st, P (upd_region s r f st) = P st) by (intros; apply Hreg).
  assert (Hc : forall st r, P (create_region env isp s r st).1 = P st).
  { clear st. intros st r. unfold create_region, create_region_hw, activate, free_buf. destruct (row st s !! r); [|done]. destruct (o_unsupported st); [done|]. cbv zeta.
    destruct (_ || _); [done|]. destruct (negb _); [apply Hask|]. destruct (or_create _ _) as [[] h]; cbn [fst].
    - destruct (unit_of _ _ _); [destruct (negb _)|]; cbn [fst]; by rewrite ?Hupd, ?Hcall, ?Hask, ?Hcall, ?Hask, ?Hupd, ?Hask.
    - by rewrite Hupd, Huns, Hask, Hupd, Hask.
    - by rewrite Hupd, Hask, Hupd, Hask. }
  assert (Hc2 : forall st r, P (let '(st, ok) := create_region env isp s r st in if ok then st else upd_region s r (fun g => g <| rg_name := [] |>) st) = P st).
  { clear st. intros st r. rewrite <- (Hc st r). destruct (create_region env isp s r st) as [st2 ok]. destruct ok; [done | apply Hupd]. }
  assert (Hp : forall st name, P (probe_shm_dims env s name st).1 = P st).
  { clear st. intros st name. unfold probe_shm_dims. destruct (or_open _ _ _); [|apply Hask]. destruct (or_active _ _) as [[??]?]. cbn [fst].
    by rewrite !Hcall. }
  assert (Hb : forall st r name w h l, P (build_region env isp (merge_init env) prewiden_init s r name w h l st) = P st).
  { clear st. intros st r name w h l. unfold build_region. cbv zeta. set (st1 := upd_region s r _ st).
    assert (H1 : P st1 = P st) by apply Hupd. clearbody st1. rewrite <- H1. destruct (bool_decide _).
    - destruct (rvd_osd_find_region _ _ _) as [[t g]|]; [|by rewrite Hc2]. rewrite Hupd. unfold merge_init, renew_buf. destruct (row st1 s !! t) as [gt|]; [|done].
      cbv zeta. destruct (rg_buf gt); [|apply Hupd]. destruct (or_calloc _); by rewrite ?Hupd, Hask, Hupd.
    - destruct (bool_decide _); [|by rewrite Hc2]. pose proof (Hp st1 (cs "uptime")) as H2. destruct (probe_shm_dims _ _ _ _) as [st2 up]. cbn [fst] in H2.
      destruct up; by rewrite Hc2, ?Hupd. }
  revert layer st. induction entries as [|e es IH]; intros layer st; [done|]. cbn [init_entries].
  destruct (entry_name s e) as [name|]; [|done]. destruct (rvd_osd_find_region st s name); [done|].
  pose proof (Hp st name) as H1. destruct (probe_shm_dims env s name st) as [st1 dims]. cbn [fst] in H1. rewrite <- H1.
  destruct dims as [[w h]|]; [|done]. unfold alloc_region_slot. destruct (list_find _ _) as [[r g]|]; [by rewrite IH, Hb|].
  destruct (_ <? _); [|done]. by rewrite IH, Hb, Hreg.
Qed.

Lemma init_inv st s : inv st -> (s < length (o_streams st))%nat -> row st s = [] -> cover_at st s < 0 -> inv (rvd_osd_init_stream env isp s st).
Proof.
  intros Hi Hs Hrow Hc. unfold rvd_osd_init_stream. destruct (os_jpeg (stream_at st s)) eqn:Ej; [done|]. destruct (o_unsupported st); [done|]. cbn [orb].
  destruct (negb _); [done|]. cbv zeta. destruct (clear_row_inv st s Hi) as [Hi1 _]; [by rewrite Hrow|]. set (st1 := st <| o_regions := _ |>) in *.
  destruct (or_dir _) as [entries|]; [|by apply inv_asked]. assert (Hst : streamed (asked st1) s) by done.
  destruct (init_entries_inv s entries 0 (asked st1) (inv_asked _ Hi1) Hst) as [H1 H2]. apply init_cover_inv; [done | done |].
  by rewrite (init_entries_frame (fun st => cover_at st s)).
Qed.

(** The stream with other parameters. *)
Definition set_stream (s : nat) (strm : osd_stream) (st : osd_state) : osd_state := st <| o_streams := <[s := strm]> (o_streams st) |>.

Lemma set_stream_inv st s strm : inv st -> row st s = [] -> cover_at st s < 0 -> (K -> os_w strm <= 16384) -> inv (set_stream s strm st).
Proof.
  intros [Hh (W1 & W2 & W3 & W4 & W5)] Hrow Hc Hw. set (st' := set_stream s strm st).
  assert (Hstr : forall s', s' <> s -> stream_at st' s' = stream_at st s') by (intros s' Hne; unfold stream_at, st', set_stream; cbn; by rewrite list_lookup_insert_ne).
  split.
  - assert (Ho : owned isp st' = owned isp st); [|change (holds st (owned isp st')); by rewrite Ho].
    unfold owned. assert (Hlen : length (o_streams st') = length (o_streams st)) by apply length_insert. rewrite Hlen. f_equal. apply list_bind_ext; [|done]. intros s'.
    change (row st' s') with (row st s'). destruct (decide (s' = s)) as [->|Hne]; [by rewrite Hrow|]. unfold unit_of, stream_isp. by rewrite Hstr.
  - split; [|split; [exact W2|split; [|split]]].
    + cbn. by rewrite length_insert.
    + intros s' Hj. destruct (decide (s' = s)) as [->|Hne]; [done|]. rewrite Hstr in Hj by done. by apply W3.
    + intros s' Hj. destruct (decide (s' = s)) as [->|Hne]; [done|]. unfold stream_isp in Hj. rewrite Hstr in Hj by done. by apply W4.
    + intros HK. destruct (W5 HK) as [Hf Hw']. split; [done|]. intros s'. destruct (decide (s' = s)) as [->|Hne]; [|by rewrite Hstr].
      unfold stream_at, st', set_stream. cbn. destruct (decide (s < length (o_streams st))%nat); [by rewrite list_lookup_insert_eq; auto|].
      rewrite lookup_ge_None_2 by (rewrite length_insert; lia). cbn. lia.
Qed.

Lemma inv0 streams cfg : (K -> Forall (fun strm => os_w strm <= 16384) streams) -> inv (osd_state0 streams cfg).
Proof.
  intros Hw. assert (Hrow : forall s, row (osd_state0 streams cfg) s = []).
  { intros s. unfold row. cbn. destruct (decide (s < length streams)%nat); [by rewrite lookup_replicate_2|]. by rewrite lookup_ge_None_2 by (rewrite length_replicate; lia). }
  assert (Hcov : forall s, cover_at (osd_state0 streams cfg) s = -1).
  { intros s. unfold cover_at. cbn. destruct (decide (s < length streams)%nat); [by rewrite lookup_replicate_2|]. by rewrite lookup_ge_None_2 by (rewrite length_replicate; lia). }
  split.
  - assert (Ho : owned isp (osd_state0 streams cfg) = []); [|rewrite Ho; by exists []]. unfold owned. cbn [o_privacy_handles osd_state0].
    assert (Hnil : forall l, (l ≫= (fun s => row_res (unit_of isp (osd_state0 streams cfg) s) (row (osd_state0 streams cfg) s))) = []).
    { induction l as [|x l IH]; [done|]. rewrite bind_cons, IH. by rewrite Hrow. }
    rewrite Hnil. clear. cbn. induction (length streams) as [|n IH]; [done|]. done.
  - split; [split; cbn; apply length_replicate|]. split; [|split; [|split]].
    + intros s. rewrite Hrow. split; [constructor|]. split; [constructor | done].
    + intros s _. rewrite Hrow, Hcov. done.
    + intros s _. rewrite Hcov. lia.
    + intros HK. split; [done|]. intros s. unfold stream_at. cbn. destruct (streams !! s) eqn:E; [|cbn; lia]. cbn.
      pose proof (Forall_lookup_1 _ _ _ _ (Hw HK) E). done.
Qed.

(** ** What the daemon does to the overlay *)

(** A stream starts with an empty table; when [K], no wider than the encoder is. *)
Inductive osd_step (osd_enabled : bool) : osd_state -> osd_state -> Prop :=
  | step_check st : osd_step osd_enabled st (rvd_osd_check env isp osd_enabled st)
  | step_thread st : osd_step osd_enabled st (thread_start isp st)
  | step_privacy st enable stream : osd_step osd_enabled st (rvd_osd_set_privacy isp osd_enabled enable stream st)
  | step_show st stream region show : osd_step osd_enabled st (osd_show isp stream region show st).1
  | step_position st stream region pos : osd_step osd_enabled st (osd_position isp stream region pos st).1
  | step_stop st s : (s < length (o_streams st))%nat -> osd_step osd_enabled st (rvd_osd_deinit_stream isp s st)
  | step_start st s strm : (s < length (o_streams st))%nat -> row st s = [] -> cover_at st s < 0 -> (K -> os_w strm <= 16384) ->
      osd_step osd_enabled st (rvd_osd_init_stream env isp s (set_stream s strm st)).

Inductive osd_reaches (osd_enabled : bool) (st0 : osd_state) : osd_state -> Prop :=
  | osd_reaches_refl : osd_reaches osd_enabled st0 st0
  | osd_reaches_step st st' : osd_reaches osd_enabled st0 st -> osd_step osd_enabled st st' -> osd_reaches osd_enabled st0 st'.

Lemma set_stream_row st s strm s' : row (set_stream s strm st) s' = row st s'.
Proof. done. Qed.

Lemma step_inv en st st' : osd_step en st st' -> inv st -> inv st'.
Proof.
  intros [] Hi.
  - by apply check_inv.
  - by apply thread_start_inv.
  - by apply set_privacy_inv.
  - by apply osd_show_inv.
  - by apply osd_position_inv.
  - by apply deinit_inv.
  - apply init_inv; [by apply set_stream_inv | | done | done]. unfold set_stream. cbn. by rewrite length_insert.
Qed.

Lemma osd_reaches_inv en st0 st : inv st0 -> osd_reaches en st0 st -> inv st.
Proof. intros H0. induction 1; [done|]. by eapply step_inv. Qed.

End Inv.
