(* ===== verification/RvdOsdRun.v ===== *)
(** * rvd: the overlay in use

    What holds of the overlay in every state the daemon can bring it to, and what
    goes wrong when streams are restarted under it; a small world of rod's buffers
    to run it in. *)

From Stdlib Require Import String.
From stdpp Require Import list list_numbers sorting.
From S2P Require Import Prelude Mux RtmpUrl RodDraw RodReceipt RodTemplate RvdOsd RvdOsdProps.

(** ** A small world *)

(** Four elements of 4x2 pixels on one stream; a created region is numbered after
    the question that made it. *)
Definition world_oracle (n : nat) : oracle :=
  mk_oracle true (fun _ => (RSS_OK, Z.of_nat n)) true
    (Some [cs "rss_osd_osd_0_time"; cs "."; cs "rss_osd_osd_0_uptime"; cs "rss_osd_osd_0_privacy"; cs "rss_osd_osd_0_logo"])
    (fun _ name => Some (Z.of_nat (length name))) (fun _ _ => Some 1) (fun _ => Some 1) (fun _ => (Some (replicate 8 7), 4, 2)) (fun _ => true).

Definition world_stream : osd_stream := mk_stream false true 640 360 0 1 0.

Definition world0 : osd_state := osd_state0 [world_stream] (fun _ _ => None).

Definition world_start (env : nat -> oracle) (st : osd_state) : osd_state := rvd_osd_init_stream env false 0 (set_stream 0 world_stream st).

(** Two seconds of checks make at least one scan. *)
Definition checks (env : nat -> oracle) (n : nat) (st : osd_state) : osd_state := Nat.iter n (rvd_osd_check env false true) st.

Definition world_run : osd_state := checks world_oracle 20 (thread_start false (world_start world_oracle world0)).

Lemma checks_reach K env en n st0 st : en = true -> osd_reaches K false env en st0 st -> osd_reaches K false env en st0 (checks env n st).
Proof. intros -> H. induction n as [|n IH]; [done|]. cbn. eapply osd_reaches_step; [exact IH|]. apply step_check. Qed.

Lemma world_reach (K : Prop) : osd_reaches K false world_oracle true world0 world_run.
Proof.
  apply checks_reach; [done|]. eapply osd_reaches_step; [|apply step_thread]. eapply osd_reaches_step; [apply osd_reaches_refl|].
  apply (step_start K false world_oracle true world0 0 world_stream); [cbn; lia | done | done | done].
Qed.

Lemma world_create n u h : or_create (world_oracle n) u = (RSS_OK, h) -> 0 <= h.
Proof. intros [= <-]. lia. Qed.

(** ** Ownership and bounds *)

(** C29: As long as streams start with an empty table, whatever rod
    and the clients do, rvd touches only regions and
    mappings that are there, and what it has made and not given back is what its
    tables say: one region of the hardware or one mapping per entry, and the covers.
    The elements of a stream have different names and there are at most sixteen. *)
Theorem rvd_osd_handles_owned env isp osd_enabled streams cfg st :
  (forall n u h, or_create (env n) u = (RSS_OK, h) -> 0 <= h) ->
  osd_reaches False isp env osd_enabled (osd_state0 streams cfg) st ->
  (exists l, live (o_trace st) = Some l /\ l ≡ₚ owned isp st) /\
  forall s, NoDup (names (row st s)) /\ Z.of_nat (length (row st s)) <= RVD_OSD_MAX_REGIONS.
Proof.
  intros Hcreate Hr. assert (Hi : inv False isp st) by (eapply osd_reaches_inv; [.. | exact Hr]; [done.. | by apply inv0]).
  destruct Hi as [Hh (_ & W & _)]. split; [exact Hh|]. intros s. by destruct (W s) as (_ & ? & ?).
Qed.

Lemma rvd_osd_handles_owned_witness :
  length (owned false world_run) = 8%nat /\ length (o_trace world_run) = 79%nat /\
  exists l, live (o_trace world_run) = Some l /\ l ≡ₚ owned false world_run.
Proof.
  split; [vm_compute; reflexivity|]. split; [vm_compute; reflexivity|].
  exact (proj1 (rvd_osd_handles_owned world_oracle false true _ _ world_run world_create (world_reach False))).
Defined.

(** C30: With the memory for its buffers, no copy into a region's buffer leaves it,
    and every buffer has the size the region is told to the hardware with. *)
Theorem rvd_osd_copies_in_bounds env isp osd_enabled streams cfg st :
  (forall n u h, or_create (env n) u = (RSS_OK, h) -> 0 <= h) -> (forall n, or_calloc (env n) = true) ->
  (forall n shm bm w h, or_active (env n) shm = (bm, w, h) -> 0 <= w <= 16382 /\ 0 <= h <= 16382) ->
  Forall (fun strm => os_w strm <= 16384) streams ->
  osd_reaches True isp env osd_enabled (osd_state0 streams cfg) st ->
  o_fault st = false /\
  forall s r g buf, row st s !! r = Some g -> rg_buf g = Some buf -> Z.of_nat (length buf) = rg_width g * rg_height g.
Proof.
  intros H1 H2 H3 Hw Hr. assert (Hi : inv True isp st) by (eapply osd_reaches_inv; [.. | exact Hr]; [done | done | intros _; exact H3 | by apply inv0]).
  split; [by destruct Hi as [_ (_ & _ & _ & _ & W)]; apply W|]. intros s r g buf Hg Hb.
  destruct (inv_at _ _ _ _ _ _ Hi Hg) as [_ H]. destruct (H I) as (_ & _ & Hl). by apply Hl.
Qed.

Lemma rvd_osd_copies_in_bounds_witness :
  (option_map (@length Z) ∘ rg_buf <$> row world_run 0) = [Some 1240%nat; None; Some 8%nat; Some 8%nat] /\ o_fault world_run = false.
Proof.
  split; [vm_compute; reflexivity|].
  refine (proj1 (rvd_osd_copies_in_bounds world_oracle false true _ _ world_run world_create _ _ _ (world_reach True))).
  - done.
  - intros n shm bm w h [= _ <- <-]. lia.
  - constructor; [cbn; lia | constructor].
Defined.

(** ** Positions *)

Lemma clamp_inside stream region v : 0 <= stream <= 16384 -> 0 <= region <= 16384 -> v + region < 2 ^ 31 ->
  OSD_MARGIN <= clamp stream region v /\ Z.even (clamp stream region v) = true /\
  (region + 2 * OSD_MARGIN <= stream -> clamp stream region v + region <= stream - OSD_MARGIN).
Proof.
  intros Hs Hr Hv. unfold clamp, OSD_MARGIN in *. cbv zeta. rewrite ldiff_1. set (v1 := if v <? 10 then 10 else v).
  assert (Hv1 : 10 <= v1 /\ v1 + region < 2 ^ 31) by (subst v1; destruct (Z.ltb_spec v 10); lia). clearbody v1.
  rewrite swrap_id by (unfold in_s; lia). set (v2 := if _ <? v1 + region then _ else v1).
  assert (Hv2 : v2 + region <= stream - 10) by (subst v2; destruct (Z.ltb_spec (stream - 10) (v1 + region)); lia). clearbody v2.
  set (v3 := if v2 <? 10 then 10 else v2). assert (Hv3 : 10 <= v3 /\ (region + 20 <= stream -> v3 + region <= stream - 10)) by (subst v3; destruct (Z.ltb_spec v2 10); lia).
  clearbody v3. pose proof (Z.mul_div_le v3 2). pose proof (Z.mul_succ_div_gt v3 2). assert (5 <= v3 / 2) by (apply Z.div_le_lower_bound; lia).
  split; [lia|]. split; [rewrite Z.even_mul; apply orb_true_r | lia].
Qed.

Lemma named_position_small sw sh w h p : 0 <= sw <= 16384 -> 0 <= sh <= 16384 -> 0 <= w <= 16384 -> 0 <= h <= 16384 ->
  (named_position sw sh w h p).1 <= 16384 /\ (named_position sw sh w h p).2 <= 16384.
Proof.
  intros. assert (Hq : forall a, - 16384 <= a <= 16384 -> Z.quot a 2 <= 16384) by (intros a Ha; apply Z.quot_le_upper_bound; lia).
  pose proof (Hq (sw - w)). pose proof (Hq (sh - h)). unfold named_position, OSD_MARGIN. cbv zeta.
  repeat (destruct (bool_decide _); [cbn; lia|]). cbn. lia.
Qed.

(** C31: Wherever the configuration or a client asks for a region, it is put on even
    coordinates at least the margin away from the left and the top, and if it fits
    between the margins, away from the right and the bottom too - as long as the
    coordinates asked for, with the region's size, fit an int. *)
Theorem rvd_osd_position_inside sw sh w h pos :
  0 <= sw <= 16384 -> 0 <= sh <= 16384 -> 0 <= w <= 16384 -> 0 <= h <= 16384 ->
  (forall p x y, pos = Some p -> scan_pair p = Some (x, y) -> x + w < 2 ^ 31 /\ y + h < 2 ^ 31) ->
  let '(x, y) := rvd_osd_calc_position sw sh w h pos in
  (OSD_MARGIN <= x /\ Z.even x = true /\ (w + 2 * OSD_MARGIN <= sw -> x + w <= sw - OSD_MARGIN)) /\
  (OSD_MARGIN <= y /\ Z.even y = true /\ (h + 2 * OSD_MARGIN <= sh -> y + h <= sh - OSD_MARGIN)).
Proof.
  intros Hsw Hsh Hw Hh Hpos. unfold rvd_osd_calc_position. cbv zeta.
  set (xy := match pos ≫= scan_pair with Some xy => xy | None => named_position sw sh w h (default (cs "top_left") pos) end).
  assert (Hxy : xy.1 + w < 2 ^ 31 /\ xy.2 + h < 2 ^ 31).
  { subst xy. destruct pos as [p|]; cbn [mbind option_bind].
    - destruct (scan_pair p) as [[x y]|] eqn:E; [exact (Hpos p x y eq_refl E)|]. destruct (named_position_small sw sh w h (default (cs "top_left") (Some p))); lia.
    - destruct (named_position_small sw sh w h (default (cs "top_left") None)); lia. }
  clearbody xy. destruct xy as [x y]. cbn [fst snd] in Hxy. destruct Hxy. split; by apply clamp_inside.
Qed.

Lemma rvd_osd_position_inside_witness :
  rvd_osd_calc_position 640 360 101 21 (Some (cs "600, -3")) = (528, 10) /\
  let '(x, y) := rvd_osd_calc_position 640 360 101 21 (Some (cs "600, -3")) in
  (OSD_MARGIN <= x /\ Z.even x = true /\ (101 + 2 * OSD_MARGIN <= 640 -> x + 101 <= 640 - OSD_MARGIN)) /\
  (OSD_MARGIN <= y /\ Z.even y = true /\ (21 + 2 * OSD_MARGIN <= 360 -> y + 21 <= 360 - OSD_MARGIN)).
Proof.
  split; [vm_compute; reflexivity|]. apply rvd_osd_position_inside; [lia.. |]. intros p x y [= <-] Hs.
  assert (He : scan_pair (cs "600, -3") = Some (600, -3)) by (vm_compute; reflexivity). rewrite He in Hs. injection Hs as <- <-. lia.
Defined.

(** Past an int the sum wraps and the region is put where no frame is. *)
Example position_overflow : rvd_osd_calc_position 640 360 100 20 (Some (cs "2147483640,0")) = (2147483640, 10).
Proof. vm_compute. reflexivity. Qed.

(** ** Restarting a stream *)

Lemma destroy_privacy isp s r st : o_privacy (destroy_region_hw isp s r st) = o_privacy st /\ o_unsupported (destroy_region_hw isp s r st) = o_unsupported st /\
  o_streams (destroy_region_hw isp s r st) = o_streams st /\ o_privacy_handles (destroy_region_hw isp s r st) = o_privacy_handles st.
Proof. unfold destroy_region_hw. destruct (row st s !! r) as [g|]; [|done]. destruct (_ <? _); [done|]. cbv zeta. by destruct (unit_of _ _ _). Qed.

Lemma deinit_region_privacy isp s r st : o_privacy (deinit_region isp s r st) = o_privacy st /\ o_unsupported (deinit_region isp s r st) = o_unsupported st /\
  o_streams (deinit_region isp s r st) = o_streams st /\ o_privacy_handles (deinit_region isp s r st) = o_privacy_handles st.
Proof.
  unfold deinit_region. destruct (row st s !! r) as [g|]; [|done]. cbv zeta. pose proof (destroy_privacy isp s r st) as H.
  unfold close_shm. destruct (rg_active g); destruct (_ ≫= _); done.
Qed.

Lemma deinit_cover_privacy isp s st : o_privacy (deinit_cover isp s st) = o_privacy st /\ o_unsupported (deinit_cover isp s st) = o_unsupported st /\
  o_streams (deinit_cover isp s st) = o_streams st /\ length (o_privacy_handles (deinit_cover isp s st)) = length (o_privacy_handles st).
Proof.
  unfold deinit_cover. cbv zeta. set (st1 := if _ && _ then _ else st).
  assert (H : o_privacy st1 = o_privacy st /\ o_unsupported st1 = o_unsupported st /\ o_streams st1 = o_streams st /\ o_privacy_handles st1 = o_privacy_handles st) by
    (subst st1; by destruct (_ && _)).
  clearbody st1. destruct H as (H1 & H2 & H3 & H4). rewrite <- H4. destruct (0 <=? _); [|done].
  destruct (stream_isp _ _ _); cbn; by rewrite length_insert.
Qed.

Lemma deinit_privacy isp s st : o_privacy (rvd_osd_deinit_stream isp s st) = o_privacy st /\ o_unsupported (rvd_osd_deinit_stream isp s st) = o_unsupported st /\
  o_streams (rvd_osd_deinit_stream isp s st) = o_streams st /\ length (o_privacy_handles (rvd_osd_deinit_stream isp s st)) = length (o_privacy_handles st).
Proof.
  unfold rvd_osd_deinit_stream. destruct (os_jpeg _); [done|]. cbv zeta.
  assert (H : forall l st, let st' := fold_left (fun st r => deinit_region isp s r st) l st in
    o_privacy st' = o_privacy st /\ o_unsupported st' = o_unsupported st /\ o_streams st' = o_streams st /\ o_privacy_handles st' = o_privacy_handles st).
  { clear st. induction l as [|r l IH]; intros st; [done|]. cbn. destruct (IH (deinit_region isp s r st)) as (-> & -> & -> & ->).
    apply deinit_region_privacy. }
  destruct (H (seq 0 (length (row st s))) st) as (H1 & H2 & H3 & H4). fold (each_region s (deinit_region isp s) st) in H1, H2, H3, H4.
  set (st1 := each_region s _ st) in *. clearbody st1. set (st2 := st1 <| o_regions := _ |>).
  destruct (deinit_cover_privacy isp s st2) as (-> & -> & -> & ->). unfold st2. cbn. by rewrite H1, H2, H3, H4.
Qed.

(** C32: A stream restarted in privacy comes back uncovered: the new cover is hidden,
    nothing shows it, and the stream still counts as private.  The regions made anew
    do not cover it either: the last thing asked of the hardware is to hide the cover. *)
Theorem rvd_privacy_lost_on_restart env isp s strm st :
  (forall n u, (or_create (env n) u).1 = RSS_OK) -> (forall n, is_Some (or_dir (env n))) ->
  (s < length (o_streams st))%nat -> length (o_privacy_handles st) = length (o_streams st) -> o_unsupported st = false ->
  os_jpeg strm = false -> os_osd_enabled strm = true -> isp && (Z.rem (os_fs_chn strm) 3 =? 0) = false ->
  o_privacy st !! s = Some true ->
  let st' := rvd_osd_init_stream env isp s (set_stream s strm (rvd_osd_deinit_stream isp s st)) in
  o_privacy st' !! s = Some true /\ exists tr, o_trace st' = tr ++ [Region_show Ipu (cover_at st' s) false 0].
Proof.
  intros Hcr Hdir Hs Hlen Hun Hj Hen Hisp Hpriv. cbv zeta. destruct (deinit_privacy isp s st) as (D1 & D2 & D3 & D4). rewrite Hlen in D4.
  set (st1 := set_stream s strm (rvd_osd_deinit_stream isp s st)).
  assert (H1 : stream_at st1 s = strm) by (unfold stream_at, st1, set_stream; cbn; by rewrite list_lookup_insert_eq by (by rewrite D3)).
  assert (H2 : o_privacy st1 !! s = Some true) by (change (o_privacy (rvd_osd_deinit_stream isp s st) !! s = Some true); by rewrite D1).
  assert (H3 : o_unsupported st1 = false) by (change (o_unsupported (rvd_osd_deinit_stream isp s st) = false); by rewrite D2).
  assert (H4 : (s < length (o_privacy_handles st1))%nat) by (change (s < length (o_privacy_handles (rvd_osd_deinit_stream isp s st)))%nat; by rewrite D4).
  clearbody st1. clear D1 D2 D3 D4. unfold rvd_osd_init_stream, stream_osd_enabled. rewrite H1, Hj, H3, Hen. cbn [orb negb]. cbv zeta.
  unfold now. destruct (Hdir (o_clock (st1 <| o_regions := <[s:=[]]> (o_regions st1) |>))) as [entries ->].
  set (st2 := asked _). set (st3 := init_entries env isp s entries 0 st2).
  assert (P1 : o_privacy st3 = o_privacy st1) by (unfold st3; by rewrite (init_entries_frame isp env o_privacy)).
  assert (P2 : o_privacy_handles st3 = o_privacy_handles st1) by (unfold st3; by rewrite (init_entries_frame isp env o_privacy_handles)).
  assert (P3 : stream_at st3 s = strm) by (unfold st3; by rewrite (init_entries_frame isp env (fun st => stream_at st s))).
  clearbody st3. unfold init_cover, stream_isp. rewrite P3, Hisp. unfold now. pose proof (Hcr (o_clock st3) Ipu) as Hc.
  destruct (or_create (env (o_clock st3)) Ipu) as [ret ph]. cbn [fst] in Hc. subst ret. cbv zeta. split.
  - change (o_privacy st3 !! s = Some true). by rewrite P1.
  - eexists. rewrite cover_at_set by (change (s < length (o_privacy_handles st3))%nat; by rewrite P2). rewrite decide_True by done. reflexivity.
Qed.

Definition world_private : osd_state := rvd_osd_set_privacy false true true 0 world_run.

Lemma rvd_privacy_lost_on_restart_witness :
  live (o_trace world_private) = Some (rev [Res_region Ipu 4; Res_region Ipu 10; Res_region Ipu 14; Res_region Ipu 16; Res_map 4; Res_map 6; Res_map 7; Res_map 4]) /\
  let st' := world_start world_oracle (rvd_osd_deinit_stream false 0 world_private) in
  o_privacy st' !! 0%nat = Some true /\ exists tr, o_trace st' = tr ++ [Region_show Ipu (cover_at st' 0) false 0].
Proof.
  split; [vm_compute; reflexivity|].
  apply (rvd_privacy_lost_on_restart world_oracle false 0 world_stream world_private); [done | by eexists | vm_compute; lia | | | done | done | done |];
    vm_compute; reflexivity.
Defined.

(** Without a cover, privacy asks nothing of the hardware and is on all the same:
    a stream whose overlay is off by configuration. *)
Lemma privacy_without_cover isp s b st : (s < length (o_privacy st))%nat -> os_jpeg (stream_at st s) = false -> stream_isp isp st s = false ->
  cover_at st s < 0 -> rvd_osd_find_region st s (cs "privacy") = None ->
  o_trace (set_privacy_stream isp s b st) = o_trace st /\ o_privacy (set_privacy_stream isp s b st) !! s = Some b.
Proof.
  intros Hs Hj Hi Hc Hf. unfold set_privacy_stream. rewrite Hj, Hi. cbn [andb]. cbv zeta. fold (cover_at st s).
  destruct (Z.leb_spec 0 (cover_at st s)); [lia|]. rewrite Hf. split; [done|]. cbn. by rewrite list_lookup_insert_eq.
Qed.


(** ** When memory is short, and when creation fails *)

(** Uptime's buffer appears after time's region is made, and the renewal of time's
    buffer is refused. *)
Definition short_oracle (n : nat) : oracle :=
  let o := world_oracle n in
  mk_oracle (negb (n =? 7)%nat) (or_create o) (or_register o) (or_dir o) (fun s name => if (n =? 2)%nat then None else or_open o s name)
    (or_stat o) (or_fstat o) (or_active o) (or_dirty o).


(** The first element's region is refused once. *)
Definition refused_oracle (n : nat) : oracle :=
  let o := world_oracle n in
  mk_oracle true (fun u => if (n =? 3)%nat then (RSS_ERR, 0) else or_create o u) (or_register o)
    (if (n =? 0)%nat then Some [cs "rss_osd_osd_0_logo"; cs "rss_osd_osd_0_text"; cs "rss_osd_osd_0_cam"]
     else Some [cs "rss_osd_osd_0_logo"])
    (or_open o) (or_stat o) (or_fstat o) (or_active o) (or_dirty o).

(** Layers counted when the stream starts, slots when it is scanned: after a refusal
    two regions shown on the stream are on one layer. *)
Example layers_collide :
  let st := checks refused_oracle 20 (thread_start false (world_start refused_oracle world0)) in
  (fun g => (rg_name g, rg_active g, rg_shown g, rg_layer g)) <$> row st 0 =
    [(cs "text", true, true, 1); (cs "cam", true, true, 2); (cs "logo", true, true, 2)].
Proof. vm_compute. reflexivity. Qed.

(** ** The privacy command *)

(** rad is muted exactly when some video stream is answered as private. *)
Lemma privacy_cmd_mutes isp en value channel st : let '(_, muted, answer) := privacy_cmd isp en value channel st in muted = true <-> true ∈ answer.
Proof.
  unfold privacy_cmd. cbv zeta. set (answer := _ <$> _). rewrite existsb_exists. setoid_rewrite <- list_elem_of_In.
  split; [by intros ([] & ? & ?) | by exists true].
Qed.
